(* ===== verification/_CoqProject ===== *)
-Q . S2P
Prelude.v
Platform.v
Lists.v
Window.v
WindowFacts.v
WindowSpec.v
WindowMarks.v
WindowTheorems.v
Protocol.v
ConnFacts.v
ConnSpec.v
ConnAck.v
ConnSend.v
ConnInwnd.v
ConnSafe.v
ConnLog.v
Codec.v
RoundTrip.v
AllocTrip.v
Checksum.v
Samples.v
ProtocolTheorems.v
Pacer.v
Ring.v
Admission.v
AdmissionFacts.v
AdmissionSpec.v
AdmissionAlloc.v
AdmissionBatch.v
AdmissionDemand.v
AdmissionLoop.v
AdmissionTheorems.v
Timer.v
Graph.v
GraphFacts.v
DemandTheorems.v
SupportTheorems.v
PathSelection.v
PathFacts.v
PathAssign.v
PathSpec.v
PathTheorems.v
GrantAccept.v
Pim.v
PimFacts.v
PimGrant.v
PimRun.v
Phase.v
PimTheorems.v
Sjf.v
SjfFacts.v
SjfBatch.v
SjfPacing.v
SjfTheorems.v
Comm.v
CommInv.v
CommHandlers.v
CommFill.v
CommTx.v
CommTurn.v
CommLoop.v
CommDemand.v
CommRequest.v
CommTheorems.v
Backup.v
Tsq.v
TsqFacts.v
Endpoint.v
EndpointFacts.v
EndpointOwn.v
EndpointSend.v
EndpointRequest.v
EndpointState.v
EndpointAlloc.v
EndpointReset.v
EndpointRecv.v
AllocReach.v
EndpointRun.v
EndpointInit.v
EndpointTheorems.v
