(* ===== verification/Prelude.v ===== *)
(** * Flexplane: verification of the control protocol, the arbiter and the endpoint

    Flexplane (like Fastpass, which it extends) decides centrally when each
    endpoint of a datacenter may send. Endpoints send requests to an arbiter over
    a small reliable protocol; the arbiter adds them to its demand accounting, the
    allocation cores assign timeslots to them, path selection spreads the admitted
    traffic over the paths of the network, and the allocations travel back over
    the same protocol. This library models the C code of these parts and proves
    it correct.

    ** Parts and files

    Paths are relative to [src/src/]. The files are listed in dependency order.

    - Prelude: machine integers with their wrap-around, C arrays as lists, the
      state-and-log monad [M] for procedures that update a C object, call back and
      may be undefined, its program logic [wp], shared tactics and lemmas.
    - Platform: [protocol/platform/generic.h] - bit operations on arrays of words,
      wrapping time comparison, [__fls]/[__ffs], the Jenkins hash and the Internet
      checksum.
    - Lists: a stretch of a circular array as a list; sums over lists and population
      counts.
    - Window, WindowFacts, WindowSpec, WindowMarks, WindowTheorems:
      [protocol/window.h]. [fp_window] is the struct; [wnd_set] the set of marked
      numbers it represents; the theorems show that all operations refine a finite
      set with a head, and that the queries answer from it.
    - Protocol: [protocol/fpproto.h], [protocol/outwnd.h] and all of
      [protocol/fpproto.c] but the encoder. [fpproto_conn] is the connection;
      callbacks into the user are events of the log. ConnFacts, ConnSpec, ConnAck,
      ConnSend, ConnInwnd, ConnSafe and ConnLog hold the invariant
      ([conn_ok]), the specification of each handler, the safety of the receive path
      for arbitrary packets, and which callbacks a procedure can make.
    - Codec, RoundTrip, AllocTrip, Checksum: [fpproto_encode_packet] writing into a
      buffer, the bytes it produces, and that the receive path reads them back
      (AllocTrip: packets with allocations).
    - Samples: concrete connections for the witnesses. ProtocolTheorems: the
      theorems about the protocol.
    - Pacer: [protocol/pacer.h], [protocol/topology.h] and [protocol/flags.h]
      (Modules Pacer, Topology, Flags).
    - Ring: the interface of the rings between cores (classes [RingOps], [Ring])
      and its implementation [graph-algo/fp_ring.h]. The admission theorems are
      proved against the interface.
    - Admission: [graph-algo/bin.h], [batch.h], [admitted.h], [backlog.h],
      [admissible_structures.h], [admissible_traffic.h] and all of
      [admissible_traffic.c]. [core_state] is the state of an allocation core,
      [run] adds the two queues that it writes, [demand] is the communication
      core's half of [struct seq_admissible_status], [status] the whole of it.
      The assertions of [batch.h] are part of its functions. AdmissionFacts to
      AdmissionBatch verify the allocation, AdmissionDemand the accounting,
      AdmissionLoop the main loop of a core, from the clock readings to the
      timeslots; AdmissionTheorems and DemandTheorems state the results.
    - Timer: [arbiter/fp_timer.h] and [arbiter/bigmap.h] (Modules Timer, Bigmap).
    - Graph, GraphFacts: [graph-algo/graph.h], [graph-algo/euler_split.c],
      [graph-algo/kapoor_rizzi.c].
    - SupportTheorems: rings, timers, bitmaps, the pacer and the configuration
      arithmetic.
    - PathSelection: [graph-algo/path_selection.c], in the builds with four paths,
      and one round of [arbiter/path_sel_core.c]. PathFacts: the construction of
      the regular graph of the racks; PathAssign: the mapping from pairs of racks
      to packets, and the assignment of one packet, and the walks that
      populate two paths; PathSpec: the whole of [select_paths], and the check
      [paths_are_valid]; PathTheorems: the results.
    - GrantAccept: [grant-accept/partitioning.h], and (Module GA) the adjacency lists
      and partitioned edge lists of [grant-accept/grant-accept.h] and [edgelist.h] and
      the generator of [graph-algo/random.h].
    - Pim: [grant-accept/pim.h], [pim.c] and [pim_admissible_traffic.c], the
      alternative allocator by parallel iterative matching. [pim_state] is the
      state shared by the partitions, [pim_core_state] that of one. PimFacts:
      the invariant (a pair of nodes with a backlog is requested, or waits for the
      next timeslot, once); PimGrant and PimRun: the three parts of
      an iteration, and new requests.
    - Phase: [grant-accept/phase.h] and the loops of [pim.c] that wait for it, as
      interleaved steps of the cores. PimTheorems: the results on matching and
      phases.
    - Sjf: [graph-algo/admissible_structures_sjf.h], [admissible_traffic_sjf.h] and
      [admissible_traffic_sjf.c], an older allocator that serves short flows first.
      [admission_core_state] is the state of a core, [admissible_status] that of the
      flows, and [world] adds the rings and the script of what happens around the
      core. SjfFacts: bins, nodes and timeslots of a batch, and the
      places where flows wait ([placed]); SjfBatch: the allocation of flows, bins and
      new requests, and the loop over the bins; SjfPacing: the output of the
      timeslots and the end of a batch; SjfTheorems: the results.
    - Comm: [arbiter/comm_core.c], the communication core of the arbiter.
      [comm_state] holds the 256 end nodes ([end_node_state]), the scratch space of
      the allocation encoder and the two timer wheels. The handlers of
      [proto_ops] interpret the events that a procedure of Protocol logs
      ([dispatch], [on_conn]); [comm_rx], [do_rx_burst] and [comm_turn] are the
      main loop. Calls into the allocator and to the network are events again.
      [handle_areq] can read on behind the payload, so [comm_rx] hands it the rest
      of the packet buffer ([after_packet]). CommInv: the two queues of a node as
      lists, the invariant [comm_ok] and the triples [hsafe]. CommHandlers: the handlers. CommFill and
      CommTx: transmission. CommTurn: received packets and turns. CommLoop: what
      procedures leave alone, and whole runs. CommDemand,
      CommRequest: the functional behaviour of requests, acknowledgements and
      losses, and the path from an encoded packet to the allocator.
      CommTheorems states the results.
    - Backup: the rest of [comm_core.c], with [arbiter/watchdog.h], [igmp.h] and
      [arp.h]: the announcements of a master and the loop of a backup that waits for
      them to stay away. [backup_state] adds its times to [comm_state].
      At the end: when a backup takes over.
    - Tsq: [kernel-mod/sch_timeslot.c] - the queueing discipline of the endpoint.
      [tsq_sched_data] is the state, [tsq_dst] a flow with its timeslots, and the
      class [TsqOps] ([struct tsq_ops]) what the scheduler on top of it provides.
      TsqFacts: the operations on a flow as functions and the procedures in terms
      of them.
    - Endpoint: [kernel-mod/sch_fastpass.c] - the scheduler of the endpoint, an
      instance of [TsqOps]. [fp_sched_data] is its state, [fp_dst] the counters of
      a destination; the handlers of the protocol, [send_request], and the two
      tasklets. EndpointFacts: the queue of requests as a list and the invariant
      [fp_ok]. EndpointOwn, EndpointSend, EndpointRequest: the handlers that concern
      the scheduler only, and the sending of requests. EndpointState: the invariant
      [ep_ok] of scheduler and timeslot queue together. EndpointAlloc,
      EndpointReset, EndpointRecv: allocations, resets, reports and the
      reception of packets. AllocReach: what the packets of the arbiter do at the
      endpoint. EndpointRun, EndpointInit: the endpoint
      as a transition system [run_ep], its invariant [world_ok], its creation, and a
      sample run. EndpointTheorems states the results.

    ** What the theorems show

    - Protocol: in builds without request data no input drives a connection into
      undefined behaviour or a failed check; acknowledgements, timeouts, resets and transmissions do what their
      descriptions say, callback by callback; a sequence number is accepted at
      most once; what one side encodes the other decodes; the checksum detects
      single-byte changes.
    - Admission: the allocation loop terminates, conserves demand that
      is not late ([alloc_inv]), admits a matching per timeslot - of sources:
      destinations inside the boundary are shared
      ([destination_not_exclusive]) - and passes a demand on only when it cannot
      be served; a whole batch of the main loop accounts for every entry that it
      receives in time; the communication core neither loses nor duplicates demand
      below 2^16 timeslots per entry.
    - Path selection: whenever every rack sends and receives at most 64 packets, the
      graph is regular, the splits end, every packet gets one of four paths and
      the paths of every rack are balanced; the check of an assignment answers
      exactly this. With more packets of a rack an assertion fails
      ([crowded_rack_fails]).
    - Parallel iterative matching: for any random numbers a timeslot ends and admits
      a matching of pairs with a backlog, at least one pair when there is a request,
      and every backlog stays requested; the check of a timeslot is exact; in any
      interleaving of the cores the phases are barriers, and a core
      whose partner is ready goes on.
    - Shortest job first: a batch ends, whatever demands arrive meanwhile in the bins
      that are still open; its 64 timeslots are matchings within the capacity, backlog is
      neither lost nor invented, every flow with a backlog waits in exactly one
      place, and what waits had no common free timeslot. Later demand is lost: the
      rest of the batch goes on as if it had not been made ([late_demand_is_lost]).
      A reset can fail an assertion of the next batch.
    - Communication core: in every run of the main loop, for arbitrary packets
      and in builds without request data, no access is out of bounds and no check
      fails, and nothing is undefined but an overflow of a signed difference; a report that waits is sent by the
      first turn after its pacer allows it; packets carry the longest prefix of
      the waiting allocations that fits; the requests in a packet become exactly
      the demand that they ask for.
    - Backup: an announcement of the master is recognised; the backup waits
      safely, but takes over after the first poll that finds no announcement
      ([backup_takes_over]).
    - Endpoint: in every run from its creation nothing is undefined, no check fails
      and every lock is released, until memory for a flow is refused; without emulation flows are first-in first-out
      and lose no packet; the counters of the destinations agree with the timeslots
      that wait, and no demand is forgotten; requests ask for the oldest waiting
      flows, allocations admit the oldest timeslots, also when followed from the
      arbiter's encoder to the queues of the endpoint, and reports and resets
      rearrange the counters as they should. When memory for a flow is refused the
      hash table stays locked; two more theorems show how the endpoint
      can hang or leave its tables when their assumptions fail.
    - Data structures: windows, rings, timers and bitmaps refine sets, queues,
      deadline maps and sets over whole sequences of operations; Euler splits
      halve every degree.
    - Where the code falls short, a theorem exhibits it: each is named in the
      description of the theorem that excludes it.

    ** Conventions and bounds

    A [w]-bit integer is a [Z] with the conversions written out; [None] is
    undefined behaviour or a failed [assert]; a failed [FASTPASS_BUG_ON] is an
    event, because it prints and continues. Loops that are not structural take
    fuel, and each such loop has a theorem that its fuel is enough: 256 for the
    loops over a window (its length), [alloc_fuel] = 48 bins + 16 timeslots of 256
    sources for the allocation loop, 64 * 64 edges for the Euler split and the
    walks of path selection, 17 steps to the next rack with a free place (there are
    at most 16), degree times racks for the dummy edges, [MAX_TRIES] attempts
    at a random destination in parallel iterative matching (the code's own bound), 65
    rounds of shortest job first for a flow (each takes one of 64 timeslots), 2^16 for a
    bin (its indices have 16 bits) and 2^17 bursts for a ring of flows, the events of the
    script for its waiting loops, 100 turns
    of the wheel for the timers (the bound of the code's own assertion). The
    clock, the addresses of packet buffers and the hash of the kernel build are
    parameters. Memory pools do not run out, and busy-waiting on a full ring is
    undefined, so the theorems show that it does not happen.

    The communication core reads the clock once per handler, and the handlers of a
    protocol procedure run after it, in the order of their calls (they do not touch
    the connection). The parameter [fwrapv] says whether signed differences wrap;
    otherwise an overflow is undefined. No Makefile passes -fwrapv.
    [comm_core_safe] covers both: the build without it does the same up to the
    first overflow, which packets can bring about ([demand_difference_overflows]). The
    other theorems of the communication core are about signed differences that
    wrap. The theorems of the arbiter and of the protocol are about builds that
    parse no request data ([reads_areq_data] false, in [booted] for the core): the
    schemes that send data with requests (PFABRIC, LSTF, TSO) read past a packet
    ([areq_data_read_past_end]). In an emulation build [handle_areq] always loads
    the count of request data of each flow from the bytes behind the requests; [rx_ok] asks for a
    packet buffer of 34 bytes, which goes on for 63 bytes behind the packet in such a build.
    A run of the core assumes that the loop looks at the timers at least every 100 * 1024 ticks
    of the wheel, that sequence numbers stay below 2^64, and that the memory
    allocated for a transmission has the size of its structs.

    The endpoint runs in the kernel, with a spin lock per shared object. Locks are
    part of the state, and taking a held one is undefined. A step of [run_ep] is
    one reception, one tasklet or one call of the qdisc interface, except that the
    enqueue tasklet is split where it holds no lock between a flow and its
    destination ([EFlow], [EAdd]), so that receptions and requests interleave there.
    [deployed] says that the build is an endpoint's, that the scheme sends no data
    with its requests, and that the transmission time of a packet is positive and
    fits 32 bits. Whether memory for a flow and for its timeslots is available is
    part of the input ([EFlow]). A run of the endpoint is one in which it was
    ([memory_ok]); a step for which it is not ends with the lock of the hash table
    held for good ([deadlocked]), and nothing that needs it happens after
    ([failed_allocation_deadlocks]). [may_ep] assumes that counters and
    sequence numbers are not about to pass 2^64 ([calm]), and that packets of the
    arbiter name destinations below 256 ([names_network], see
    [allocation_outside_network]).

    An allocation core reads the clock once per iteration of its main loop. The
    batch theorem ([batch_accounts_for_demand]) is about
    the procedure [seq_get_admissible_traffic] of a core that works alone, with a
    clock that does not go back; [batch_ready] says that at most
    [LARGE_BIN_SIZE] entries wait, fewer than [MAX_DEMANDS_PER_BATCH], that the
    rings have room for them, that at most 256 nodes are configured, and that each entry's last
    timeslot is before the batch ([arrives], see [appended_backlog_is_lost]).

    The batch theorem of shortest job first ([sjf_batch]) is about a core that works alone, so that
    its rings lead back to itself, with at most 255 nodes and without oversubscribed
    racks. [batch_input] bounds the demands, so that the 32-bit
    backlogs and the ring of requests do not overflow, and [paced_batch] says that the script
    reaches each timeslot and brings no demand too late.

    ** Not modelled

    The packet I/O of the communication core, the Ethernet addresses that it copies, start-up,
    logging, load generation, and the C++ emulation: they
    are glue over DPDK or are not C. The shipped arbiter starts no path selection
    core. Parallel iterative matching does not compile against the current bins:
    [pim_add_backlog] calls [enqueue_bin] with too few arguments and is left
    out, and [backlog_decrease], which is not in the sources, is a parameter that
    is assumed to do what its callers rely on (predicate [decreases]). Its
    algorithm is modelled in the build with one core, its waiting in the build with
    one core per partition. Of the endpoint, the control socket ([kernel-mod/fastpass_proto.c]), /proc, netlink
    dumps and the registration with the kernel are glue over Linux; its hash table
    of trees is a finite map. The statistics counters of arbiter and endpoint,
    oversubscribed racks (SUPPORTS_OVERSUBSCRIPTION is 0) and the FB_DEPLOYMENT
    variant are left out. *)

From stdpp Require Export prelude gmap strings.
From Stdlib Require Export Lia.
#[export] Set Default Goal Selector "!".
#[global] Open Scope Z_scope.

(** ** Machine integers

    A C unsigned integer of width [w] is a [Z] in [[0, 2^w)]; the functions
    below are the implicit conversions and the wrap-around of the arithmetic
    operators.  [s32]/[s64] are the conversions to the signed types. *)
Definition u8 (x : Z) : Z := x mod 2 ^ 8.
Definition u16 (x : Z) : Z := x mod 2 ^ 16.
Definition u32 (x : Z) : Z := x mod 2 ^ 32.
Definition u64 (x : Z) : Z := x mod 2 ^ 64.
Definition s32 (x : Z) : Z := (x + 2 ^ 31) mod 2 ^ 32 - 2 ^ 31.
Definition s64 (x : Z) : Z := (x + 2 ^ 63) mod 2 ^ 64 - 2 ^ 63.

(** [x << n] and [~x] on a 64-bit unsigned operand. *)
Definition shl64 (x n : Z) : Z := u64 (Z.shiftl x n).
Definition not64 (x : Z) : Z := Z.lxor x (2 ^ 64 - 1).

(** A C truth value stored in an integer. *)
Definition b2z (b : bool) : Z := if b then 1 else 0.

(** Fixed-size C arrays are lists; the accesses that the code makes with an
    index already reduced modulo the array length use the total lookup. *)
Definition arr_get {A} `{Inhabited A} (l : list A) (i : Z) : A := l !!! Z.to_nat i.
Definition arr_set {A} (l : list A) (i : Z) (x : A) : list A := <[Z.to_nat i := x]> l.

(** Checked accesses: [None] outside the array. *)
Definition arr_read {A} (l : list A) (i : Z) : option A := if 0 <=? i then l !! Z.to_nat i else None.
Definition arr_write {A} (l : list A) (i : Z) (x : A) : option (list A) :=
  if (0 <=? i) && (i <? Z.of_nat (length l)) then Some (arr_set l i x) else None.

(** [for x in l], where the body may be undefined. *)
Fixpoint for_each {A S} (f : A → S → option S) (l : list A) (s : S) : option S :=
  match l with
  | [] => Some s
  | x :: l' => match f x s with Some s' => for_each f l' s' | None => None end
  end.

(** ** Effects

    A procedure that updates a C object of type [S], calls back into its user
    and may run [FASTPASS_BUG_ON] checks is a state transformer with a log of
    events.  [None] is undefined behaviour: a NULL dereference, a read past the
    end of a buffer, or [__fls(0)].  A failed [FASTPASS_BUG_ON] prints a message
    and continues (it panics only in the NO_DPDK test build), so it is an event,
    not a stop. *)
Inductive event (C : Type) :=
| EvBug (site : string)
| EvCall (c : C).
Arguments EvBug {C} site.
Arguments EvCall {C} c.

Definition M (C S A : Type) : Type := S → option (A * S * list (event C)).

#[export] Instance M_ret C S : MRet (M C S) := λ A a s, Some (a, s, []).
#[export] Instance M_bind C S : MBind (M C S) := λ A B k m s,
  match m s with
  | None => None
  | Some (a, s1, l1) =>
      match k a s1 with
      | None => None
      | Some (b, s2, l2) => Some (b, s2, l1 ++ l2)
      end
  end.

Definition get {C S} : M C S S := λ s, Some (s, s, []).
Definition put {C S} (s : S) : M C S unit := λ _, Some (tt, s, []).
Definition modify {C S} (f : S → S) : M C S unit := λ s, Some (tt, f s, []).
Definition ub {C S A} : M C S A := λ _, None.
Definition call {C S} (c : C) : M C S unit := λ s, Some (tt, s, [EvCall c]).
Definition bug_on {C S} (b : bool) (site : string) : M C S unit := λ s,
  Some (tt, s, if b then [EvBug site] else []).
Definition when {C S} (b : bool) (m : M C S unit) : M C S unit :=
  if b then m else mret tt.
(** A value whose absence is undefined behaviour. *)
Definition deref {C S A} (o : option A) : M C S A := λ s,
  match o with Some a => Some (a, s, []) | None => None end.
(** Runs a procedure of a component on the field of the enclosing object. *)
Definition zoom {C S T A} (g : T → S) (p : S → T → T) (m : M C S A) : M C T A := λ t,
  match m (g t) with
  | Some (a, s, l) => Some (a, p s t, l)
  | None => None
  end.

Notation "m1 ;; m2" := (m1 ≫= λ _, m2)
  (at level 100, m2 at level 200, right associativity) : stdpp_scope.

(** Total correctness: [m] started in [s] is defined, and its result, final
    state and log satisfy [Q]. *)
Definition wp {C S A} (m : M C S A) (Q : A → S → list (event C) → Prop) (s : S) : Prop :=
  match m s with
  | Some (a, s', l) => Q a s' l
  | None => False
  end.

(** No [FASTPASS_BUG_ON] of a log fired. *)
Definition is_bug {C} (e : event C) : bool :=
  match e with EvBug _ => true | EvCall _ => false end.
Definition no_bug {C} (l : list (event C)) : Prop := Forall (λ e, is_bug e = false) l.
(** The calls of a log, in order. *)
Definition calls {C} (l : list (event C)) : list C :=
  omap (λ e, match e with EvBug _ => None | EvCall c => Some c end) l.

(** ** Automation *)
Create HintDb flex.

(** Linear arithmetic with division and modulo by constants. *)
Ltac zify_div := Z.to_euclidean_division_equations.
Ltac mlia := unfold u8, u16, u32, u64, s32, s64 in *; zify_div; lia.

(** Symbolic execution: unfolds the monad's combinators. *)
Ltac munfold :=
  unfold mbind, mret, M_bind, M_ret, get, put, modify, call, bug_on, when, deref,
    zoom, ub in *.

(** ** Generic lemmas on machine integers *)
Lemma u64_range x : 0 ≤ u64 x < 2 ^ 64.
Proof. unfold u64. apply Z.mod_pos_bound. lia. Qed.

Lemma u32_range x : 0 ≤ u32 x < 2 ^ 32.
Proof. unfold u32. apply Z.mod_pos_bound. lia. Qed.

Lemma u16_range x : 0 ≤ u16 x < 2 ^ 16.
Proof. unfold u16. apply Z.mod_pos_bound. lia. Qed.

Lemma u64_small x : 0 ≤ x < 2 ^ 64 → u64 x = x.
Proof. apply Z.mod_small. Qed.

Lemma u32_small x : 0 ≤ x < 2 ^ 32 → u32 x = x.
Proof. apply Z.mod_small. Qed.

Lemma u16_small x : 0 ≤ x < 2 ^ 16 → u16 x = x.
Proof. apply Z.mod_small. Qed.

(** Congruence: wrapping an operand first does not matter. *)
Lemma u64_add_l x y : u64 (u64 x + y) = u64 (x + y).
Proof. mlia. Qed.

Lemma u64_sub_l x y : u64 (u64 x - y) = u64 (x - y).
Proof. mlia. Qed.

Lemma u64_idemp x : u64 (u64 x) = u64 x.
Proof. mlia. Qed.

#[export] Hint Resolve u64_range u32_range u16_range : flex.

(** ** Bit-level lemmas *)

(** A value below [2^n] has no bit at or above [n]. *)
Lemma testbit_high x n i : 0 ≤ x < 2 ^ n → n ≤ i → Z.testbit x i = false.
Proof.
  intros Hx Hi. destruct (decide (0 ≤ n)) as [Hn|Hn].
  - rewrite <- (Z.mod_small x (2 ^ n)) by done. by apply Z.mod_pow2_bits_high.
  - rewrite Z.pow_neg_r in Hx by lia. lia.
Qed.

(** Bits determine a value, and only the bits below [n] matter below [2^n]. *)
Lemma bits_eq_below n x y :
  0 ≤ x < 2 ^ n → 0 ≤ y < 2 ^ n →
  (∀ i, 0 ≤ i < n → Z.testbit x i = Z.testbit y i) → x = y.
Proof.
  intros Hx Hy Hb. apply Z.bits_inj'. intros i Hi.
  destruct (decide (i < n)); [apply Hb; lia|].
  rewrite !(testbit_high _ n) by (done || lia). done.
Qed.

Lemma bits_range n x :
  0 ≤ n → 0 ≤ x → (∀ i, n ≤ i → Z.testbit x i = false) → 0 ≤ x < 2 ^ n.
Proof.
  intros Hn Hx Hb. split; [done|].
  destruct (decide (x = 0)) as [->|]; [lia|].
  apply Z.log2_lt_pow2; [lia|].
  destruct (decide (Z.log2 x < n)); [done|].
  assert (Z.testbit x (Z.log2 x) = true) as Ht by (apply Z.bit_log2; lia).
  by rewrite Hb in Ht by lia.
Qed.

Lemma nonzero_has_bit x n :
  0 ≤ x < 2 ^ n → x ≠ 0 → ∃ i, 0 ≤ i < n ∧ Z.testbit x i = true.
Proof.
  intros Hx Hne. exists (Z.log2 x). split.
  - split; [apply Z.log2_nonneg|]. apply Z.log2_lt_pow2; lia.
  - apply Z.bit_log2. lia.
Qed.

Lemma bit_nonzero x i : Z.testbit x i = true → x ≠ 0.
Proof. intros Hb ->. by rewrite Z.bits_0 in Hb. Qed.

Lemma land_range n x y : 0 ≤ x < 2 ^ n → 0 ≤ y → 0 ≤ n → 0 ≤ Z.land x y < 2 ^ n.
Proof.
  intros Hx Hy Hn. apply bits_range; [done|apply Z.land_nonneg; lia|].
  intros i Hi. by rewrite Z.land_spec, (testbit_high x n) by done.
Qed.

Lemma lor_range n x y : 0 ≤ x < 2 ^ n → 0 ≤ y < 2 ^ n → 0 ≤ n → 0 ≤ Z.lor x y < 2 ^ n.
Proof.
  intros Hx Hy Hn. apply bits_range; [done|apply Z.lor_nonneg; lia|].
  intros i Hi. by rewrite Z.lor_spec, !(testbit_high _ n) by done.
Qed.

Lemma lxor_range n x y : 0 ≤ x < 2 ^ n → 0 ≤ y < 2 ^ n → 0 ≤ n → 0 ≤ Z.lxor x y < 2 ^ n.
Proof.
  intros Hx Hy Hn. apply bits_range; [done|apply Z.lxor_nonneg; lia|].
  intros i Hi. by rewrite Z.lxor_spec, !(testbit_high _ n) by done.
Qed.

Lemma shiftr_range n x k : 0 ≤ x < 2 ^ n → 0 ≤ k → 0 ≤ Z.shiftr x k < 2 ^ n.
Proof.
  intros Hx Hk. rewrite Z.shiftr_div_pow2 by done.
  assert (0 < 2 ^ k) by (apply Z.pow_pos_nonneg; lia).
  split; [apply Z.div_pos; lia|].
  apply Z.le_lt_trans with x; [|lia]. apply Z.div_le_upper_bound; nia.
Qed.

Lemma testbit_u64 x i : 0 ≤ i → Z.testbit (u64 x) i = bool_decide (i < 64) && Z.testbit x i.
Proof.
  intros Hi. unfold u64. case_bool_decide; simpl.
  - by apply Z.mod_pow2_bits_low.
  - apply Z.mod_pow2_bits_high. lia.
Qed.

Lemma testbit_shl64 x k i :
  0 ≤ i → Z.testbit (shl64 x k) i = bool_decide (i < 64) && Z.testbit x (i - k).
Proof. intros Hi. unfold shl64. by rewrite testbit_u64, Z.shiftl_spec by done. Qed.

Lemma shl64_range x k : 0 ≤ shl64 x k < 2 ^ 64.
Proof. apply u64_range. Qed.

Lemma testbit_not64 x i : 0 ≤ i < 64 → Z.testbit (not64 x) i = negb (Z.testbit x i).
Proof.
  intros Hi. unfold not64. rewrite Z.lxor_spec.
  change (2 ^ 64 - 1) with (Z.ones 64). rewrite Z.ones_spec_low by lia.
  by destruct (Z.testbit x i).
Qed.

Lemma testbit_pow2 k i : 0 ≤ k → Z.testbit (2 ^ k) i = bool_decide (i = k).
Proof.
  intros Hk. case_bool_decide as E; [subst; by apply Z.pow2_bits_true|].
  apply Z.pow2_bits_false. lia.
Qed.

Lemma testbit_ones64 i : 0 ≤ i < 64 → Z.testbit (2 ^ 64 - 1) i = true.
Proof. intros Hi. change (2 ^ 64 - 1) with (Z.ones 64). apply Z.ones_spec_low. lia. Qed.

Lemma not64_range x : 0 ≤ x < 2 ^ 64 → 0 ≤ not64 x < 2 ^ 64.
Proof. intros Hx. apply lxor_range; lia. Qed.

(** Rounding down to a multiple of 64. *)
Lemma land_not63 x : 0 ≤ x < 2 ^ 64 → Z.land x (not64 63) = 64 * (x / 64).
Proof.
  intros Hx. rewrite (Z.mul_comm 64). change 64 with (2 ^ 6) at 1 2.
  rewrite <- Z.shiftr_div_pow2, <- Z.shiftl_mul_pow2 by lia.
  apply Z.bits_inj'. intros i Hi. rewrite Z.land_spec, Z.shiftl_spec by lia.
  destruct (decide (i < 64)); [|rewrite Z.shiftr_spec by lia;
    rewrite !(testbit_high x 64) by (done || lia); done].
  rewrite testbit_not64 by lia. change 63 with (Z.ones 6).
  destruct (decide (i < 6)).
  - rewrite Z.ones_spec_low, (Z.testbit_neg_r _ (i - 6)) by lia. by rewrite andb_false_r.
  - rewrite Z.ones_spec_high, Z.shiftr_spec by lia. rewrite andb_true_r. f_equal. lia.
Qed.

(** ** Generic lemmas on arrays *)
Lemma length_arr_set {A} (l : list A) i x : length (arr_set l i x) = length l.
Proof. apply length_insert. Qed.

Lemma arr_get_set {A} `{Inhabited A} (l : list A) i j x :
  0 ≤ i < Z.of_nat (length l) → 0 ≤ j →
  arr_get (arr_set l i x) j = if decide (i = j) then x else arr_get l j.
Proof.
  intros Hi Hj. unfold arr_get, arr_set. case_decide as E.
  - subst. apply list_lookup_total_insert_eq. lia.
  - apply list_lookup_total_insert_ne. lia.
Qed.

Lemma arr_get_Forall {A} `{Inhabited A} (P : A → Prop) (l : list A) i :
  Forall P l → 0 ≤ i < Z.of_nat (length l) → P (arr_get l i).
Proof.
  intros HP Hi. unfold arr_get.
  destruct (lookup_lt_is_Some_2 l (Z.to_nat i)) as [x Hx]; [lia|].
  rewrite (list_lookup_total_correct _ _ _ Hx). by eapply Forall_lookup_1.
Qed.

Lemma arr_set_Forall {A} (P : A → Prop) (l : list A) i x :
  Forall P l → P x → Forall P (arr_set l i x).
Proof. intros Hl Hx. by apply Forall_insert. Qed.

Lemma arr_read_get {A} `{Inhabited A} (l : list A) i :
  0 ≤ i < Z.of_nat (length l) → arr_read l i = Some (arr_get l i).
Proof.
  intros Hi. unfold arr_read, arr_get. rewrite (proj2 (Z.leb_le 0 i)) by lia.
  destruct (lookup_lt_is_Some_2 l (Z.to_nat i)) as [x Hx]; [lia|].
  by rewrite Hx, (list_lookup_total_correct _ _ _ Hx).
Qed.

Lemma arr_write_set {A} (l : list A) i x : 0 ≤ i < Z.of_nat (length l) → arr_write l i x = Some (arr_set l i x).
Proof. intros Hi. unfold arr_write. by rewrite (proj2 (Z.leb_le 0 i)), (proj2 (Z.ltb_lt _ _)) by lia. Qed.

(** A loop with an invariant on the part of the list that is done. *)
Lemma for_each_inv {A S} (f : A → S → option S) (I : list A → S → Prop) l s :
  I [] s →
  (∀ done x rest s, l = done ++ x :: rest → I done s → ∃ s', f x s = Some s' ∧ I (done ++ [x]) s') →
  ∃ s', for_each f l s = Some s' ∧ I l s'.
Proof.
  intros H0 Hstep.
  assert (∀ rest done s, l = done ++ rest → I done s → ∃ s', for_each f rest s = Some s' ∧ I l s') as Hl.
  { induction rest as [|x rest IH]; intros done s1 E H1.
    - exists s1. rewrite app_nil_r in E. by subst.
    - destruct (Hstep done x rest s1 E H1) as (s2 & E2 & H2). cbn [for_each]. rewrite E2.
      apply (IH (done ++ [x])); [by rewrite <- app_assoc|done]. }
  by apply (Hl l [] s).
Qed.

(** ** Generic lemmas on lists *)
Lemma list_filter_none {A} (P : A → Prop) `{∀ x, Decision (P x)} (l : list A) :
  (∀ x, x ∈ l → ¬ P x) → filter P l = [].
Proof.
  intros Hl. induction l as [|x l IH]; [done|].
  rewrite filter_cons_False by (apply Hl; set_solver). apply IH. set_solver.
Qed.

Lemma list_filter_all {A} (P : A → Prop) `{∀ x, Decision (P x)} (l : list A) :
  (∀ x, x ∈ l → P x) → filter P l = l.
Proof.
  intros Hl. induction l as [|x l IH]; [done|].
  rewrite filter_cons_True by (apply Hl; set_solver). f_equal. apply IH. set_solver.
Qed.

Lemma list_filter_ext_in {A} (P Q : A → Prop) `{∀ x, Decision (P x)} `{∀ x, Decision (Q x)} (l : list A) :
  (∀ x, x ∈ l → P x ↔ Q x) → filter P l = filter Q l.
Proof.
  intros Hl. induction l as [|x l IH]; [done|].
  assert (P x ↔ Q x) as Hx by (apply Hl; set_solver).
  rewrite !filter_cons, IH by set_solver.
  destruct (decide (P x)), (decide (Q x)); naive_solver.
Qed.

Lemma list_filter_map {A B} (f : A → B) (P : B → Prop) `{∀ x, Decision (P x)} (l : list A) :
  filter P (f <$> l) = f <$> filter (λ x, P (f x)) l.
Proof.
  induction l as [|x l IH]; [done|]. rewrite fmap_cons, !filter_cons, IH.
  by destruct (decide (P (f x))).
Qed.

(** The longest prefix whose elements satisfy [P]. *)
Fixpoint take_while {A} (P : A → bool) (l : list A) : list A :=
  match l with
  | [] => []
  | x :: l' => if P x then x :: take_while P l' else []
  end.

Lemma take_while_Forall {A} (P : A → bool) (Q : A → Prop) l : Forall Q l → Forall Q (take_while P l).
Proof. induction 1; simpl; [done|]. destruct (P x); by constructor. Qed.

(** ** Generic lemmas on logs *)
Lemma no_bug_nil {C} : @no_bug C [].
Proof. constructor. Qed.

Lemma no_bug_app {C} (l1 l2 : list (event C)) : no_bug (l1 ++ l2) ↔ no_bug l1 ∧ no_bug l2.
Proof. apply Forall_app. Qed.

Lemma calls_app {C} (l1 l2 : list (event C)) : calls (l1 ++ l2) = calls l1 ++ calls l2.
Proof. apply omap_app. Qed.

#[export] Hint Resolve no_bug_nil : flex.

(** ** Rules of the program logic *)
Section wp.
Context {C S : Type}.
Implicit Types (s : S) (l : list (event C)).

Lemma wp_bind {A B} (m : M C S A) (k : A → M C S B) Q s :
  wp m (λ a s1 l1, wp (k a) (λ b s2 l2, Q b s2 (l1 ++ l2)) s1) s → wp (m ≫= k) Q s.
Proof.
  unfold wp, mbind, M_bind. destruct (m s) as [[[a s1] l1]|]; [|done].
  by destruct (k a s1) as [[[b s2] l2]|].
Qed.

Lemma wp_ext {A} (m m' : M C S A) Q s : m s = m' s → wp m' Q s → wp m Q s.
Proof. unfold wp. by intros ->. Qed.

Lemma wp_mono {A} (m : M C S A) (Q R : A → S → list (event C) → Prop) s :
  wp m Q s → (∀ a s' l, Q a s' l → R a s' l) → wp m R s.
Proof. unfold wp. destruct (m s) as [[[a s1] l1]|]; [|done]. eauto. Qed.

Lemma wp_run {A} (m : M C S A) Q s a s' l : m s = Some (a, s', l) → Q a s' l → wp m Q s.
Proof. unfold wp. by intros ->. Qed.

Lemma wp_inv {A} (m : M C S A) Q s :
  wp m Q s → ∃ a s' l, m s = Some (a, s', l) ∧ Q a s' l.
Proof. unfold wp. destruct (m s) as [[[a s1] l1]|]; [|done]. eauto 10. Qed.

Lemma wp_ret {A} (a : A) (Q : A → S → list (event C) → Prop) s : Q a s [] → wp (mret a) Q s.
Proof. done. Qed.

Lemma wp_get (Q : S → S → list (event C) → Prop) s : Q s s [] → wp get Q s.
Proof. done. Qed.

Lemma wp_put s' (Q : unit → S → list (event C) → Prop) s : Q tt s' [] → wp (put s') Q s.
Proof. done. Qed.

Lemma wp_modify f (Q : unit → S → list (event C) → Prop) s : Q tt (f s) [] → wp (modify f) Q s.
Proof. done. Qed.

Lemma wp_call c (Q : unit → S → list (event C) → Prop) s : Q tt s [EvCall c] → wp (call c) Q s.
Proof. done. Qed.

Lemma wp_bug_on b site (Q : unit → S → list (event C) → Prop) s :
  b = false → Q tt s [] → wp (bug_on b site) Q s.
Proof. by intros ->. Qed.

Lemma wp_deref {A} (o : option A) (a : A) (Q : A → S → list (event C) → Prop) s :
  o = Some a → Q a s [] → wp (deref o) Q s.
Proof. by intros ->. Qed.

Lemma wp_zoom {T A} (g : T → S) (p : S → T → T) (m : M C S A) (Q : A → T → list (event C) → Prop) t :
  wp m (λ a s l, Q a (p s t) l) (g t) → wp (zoom g p m) Q t.
Proof. unfold wp, zoom. by destruct (m (g t)) as [[[a s1] l1]|]. Qed.
Lemma wp_and {A} (m : M C S A) Q R s : wp m Q s → wp m R s → wp m (λ a s' l, Q a s' l ∧ R a s' l) s.
Proof. unfold wp. destruct (m s) as [[[a s1] l1]|]; [|done]. by split. Qed.

Lemma wp_seq_ret {A} (m : M C S unit) (a : A) (Q : A → S → list (event C) → Prop) s :
  wp (m;; mret a) Q s → wp m (λ _ s' l, Q a s' l) s.
Proof.
  unfold wp, mbind, M_bind. destruct (m s) as [[[[] s1] l1]|]; [|done]. unfold mret, M_ret. by rewrite app_nil_r.
Qed.
End wp.

Lemma wp_bind_inv {C S A A'} (m : M C S A) (k : A → M C S A') Q s : wp (m ≫= k) Q s →
  wp m (λ a s1 l1, wp (k a) (λ b s2 l2, Q b s2 (l1 ++ l2)) s1) s.
Proof.
  unfold wp, mbind, M_bind. destruct (m s) as [[[a s1] l1]|]; [|done].
  by destruct (k a s1) as [[[b s2] l2]|].
Qed.
