(* ===== verification/Platform.v ===== *)
(** * Platform layer

    Model of [src/src/protocol/platform/generic.h] (user-space branch): the bit
    operations on arrays of words, the wrap-around time comparisons, the first
    and last set bit, Jenkins' hash and the Internet checksum, with the lemmas
    the protocol proofs use. *)

From S2P Require Import Prelude.

Definition BITS_PER_BYTE : Z := 8.
Definition BITS_PER_LONG : Z := BITS_PER_BYTE * 8.
Definition DIV_ROUND_UP (n d : Z) : Z := (n + d - 1) / d.
Definition BITS_TO_LONGS (nr : Z) : Z := DIV_ROUND_UP nr (BITS_PER_BYTE * 8).
Definition BIT_MASK (nr : Z) : Z := shl64 1 (nr mod BITS_PER_LONG).
Definition BIT_WORD (nr : Z) : Z := nr / BITS_PER_LONG.

(** The bit operations take the array of words the C pointer points to. *)
Definition __set_bit (nr : Z) (addr : list Z) : list Z :=
  arr_set addr (BIT_WORD nr) (Z.lor (arr_get addr (BIT_WORD nr)) (BIT_MASK nr)).

Definition __clear_bit (nr : Z) (addr : list Z) : list Z :=
  arr_set addr (BIT_WORD nr) (Z.land (arr_get addr (BIT_WORD nr)) (not64 (BIT_MASK nr))).

Definition test_bit (nr : Z) (addr : list Z) : Z :=
  Z.land 1 (Z.shiftr (arr_get addr (BIT_WORD nr)) (Z.land nr (BITS_PER_LONG - 1))).

(** Comparisons of 64-bit sequence numbers and times: the sign of the
    difference. *)
Definition time_after64 (a b : Z) : bool := s64 (u64 (b - a)) <? 0.
Definition time_before64 (a b : Z) : bool := time_after64 b a.
Definition time_after_eq64 (a b : Z) : bool := s64 (u64 (a - b)) >=? 0.
Definition time_before_eq64 (a b : Z) : bool := time_after_eq64 b a.
Definition time_in_range64 (a b c : Z) : bool := time_after_eq64 a b && time_before_eq64 a c.

(** [max_t(u64, x, y)] *)
Definition max_u64 (x y : Z) : Z := if x >? y then x else y.

(** [__fls] is [63 - clzl(x)], undefined on 0; [__ffs] is [ffsl(x) - 1]. *)
Definition __fls (x : Z) : option Z := if x =? 0 then None else Some (Z.log2 x).
Definition __ffs (x : Z) : Z := if x =? 0 then -1 else Z.log2 (Z.land x (- x)).

(** ** Hashing *)
Definition fp_rot (x k : Z) : Z := Z.lor (u32 (Z.shiftl x k)) (Z.shiftr x (32 - k)).

Definition fp_jhash_final (abc : Z * Z * Z) : Z * Z * Z :=
  let '(a, b, c) := abc in
  let c := Z.lxor c b in let c := u32 (c - fp_rot b 14) in
  let a := Z.lxor a c in let a := u32 (a - fp_rot c 11) in
  let b := Z.lxor b a in let b := u32 (b - fp_rot a 25) in
  let c := Z.lxor c b in let c := u32 (c - fp_rot b 16) in
  let a := Z.lxor a c in let a := u32 (a - fp_rot c 4) in
  let b := Z.lxor b a in let b := u32 (b - fp_rot a 14) in
  let c := Z.lxor c b in let c := u32 (c - fp_rot b 24) in
  (a, b, c).

Definition fp_jhash_3words (a b c initval : Z) : Z :=
  let a := u32 (a + 0xDEADBEEF) in
  let b := u32 (b + 0xDEADBEEF) in
  let c := u32 (c + initval) in
  let '(_, _, c) := fp_jhash_final (a, b, c) in c.

Definition fp_jhash_1word (a initval : Z) : Z := fp_jhash_3words a 0 0 initval.

(** ** Checksum *)

(** Little-endian loads (the arbiter runs on x86); bytes past the end of the
    list are never selected by [fp_csum_partial]. *)
Definition byte_at (d : list Z) (i : nat) : Z := default 0 (d !! i).
Definition le16 (d : list Z) : Z := byte_at d 0 + byte_at d 1 * 2 ^ 8.
Definition le32 (d : list Z) : Z := le16 d + le16 (drop 2 d) * 2 ^ 16.

(** [for (i = 0; i < data_len / 4; i++) sum += *p32++;] followed by the
    [do_last] switch on the at most three remaining bytes. *)
Fixpoint csum_words (n : nat) (d : list Z) (sum : Z) : list Z * Z :=
  match n with
  | O => (d, sum)
  | S n' => csum_words n' (drop 4 d) (u64 (sum + le32 d))
  end.

Definition csum_last (d : list Z) (sum : Z) : Z :=
  match 3 - Z.land (Z.of_nat (length d)) 3 with
  | 0 => u64 (u64 (u64 (sum + Z.shiftl (byte_at d 2) 16) + Z.shiftl (byte_at d 1) 8) + byte_at d 0)
  | 1 => u64 (u64 (sum + Z.shiftl (byte_at d 1) 8) + byte_at d 0)
  | 2 => u64 (sum + byte_at d 0)
  | _ => sum
  end.

(** [addr] is the address of [data], which selects the alignment preamble. *)
Definition fp_csum_partial (addr : Z) (data : list Z) (init_val : Z) : Z :=
  let sum := init_val in
  let '(flip, sum) :=
    if Z.of_nat (length data) <? 4 then (false, csum_last data sum)
    else
      let flip := Z.odd addr in
      let '(addr, data, sum) :=
        if flip then (addr + 1, drop 1 data, u64 (sum + Z.shiftl (byte_at data 0) 8))
        else (addr, data, sum) in
      let '(data, sum) :=
        if Z.testbit addr 1 then (drop 2 data, u64 (sum + le16 data)) else (data, sum) in
      let '(data, sum) := csum_words (length data / 4) data sum in
      (flip, csum_last data sum) in
  let sum := if flip then u64 (Z.shiftl sum 8) else sum in
  let sum := u64 (u32 sum + Z.shiftr sum 32) in
  u32 (u32 sum + u32 (Z.shiftr sum 32)).

Definition fp_fold (sum64 : Z) : Z :=
  let sum64 := u64 (u32 sum64 + Z.shiftr sum64 32) in
  let sum32 := u32 (sum64 + Z.shiftr sum64 32) in
  let sum32 := u32 (u16 sum32 + Z.shiftr sum32 16) in
  u16 (Z.lnot (u16 sum32 + u16 (Z.shiftr sum32 16))).

Definition fp_csum_tcpudp_magic (saddr daddr len proto sum32 : Z) : Z :=
  let sum64 := sum32 in
  let sum64 := u64 (sum64 + u32 (u32 (saddr + daddr) + Z.shiftl (u16 len + u16 proto) 8)) in
  fp_fold sum64.

(** ** Time comparisons *)

(** All the comparisons look at the signed 64-bit difference. *)
Lemma s64_u64 x : s64 (u64 x) = s64 x.
Proof. mlia. Qed.

Lemma time_after64_spec a b : time_after64 a b = true ↔ s64 (b - a) < 0.
Proof. unfold time_after64. rewrite s64_u64. apply Z.ltb_lt. Qed.

Lemma time_after_eq64_spec a b : time_after_eq64 a b = true ↔ 0 ≤ s64 (a - b).
Proof. unfold time_after_eq64. rewrite s64_u64, Z.geb_leb. apply Z.leb_le. Qed.

Lemma time_after64_false a b : time_after64 a b = false ↔ 0 ≤ s64 (b - a).
Proof. rewrite <- not_true_iff_false, time_after64_spec. lia. Qed.

Lemma time_after_eq64_false a b : time_after_eq64 a b = false ↔ s64 (a - b) < 0.
Proof. rewrite <- not_true_iff_false, time_after_eq64_spec. lia. Qed.

Lemma time_before64_false a b : time_before64 a b = false ↔ 0 ≤ s64 (a - b).
Proof. apply time_after64_false. Qed.

Lemma time_before64_spec a b : time_before64 a b = true ↔ s64 (a - b) < 0.
Proof. apply time_after64_spec. Qed.

Lemma time_before_eq64_false a b : time_before_eq64 a b = false ↔ s64 (b - a) < 0.
Proof. apply time_after_eq64_false. Qed.

Lemma time_before_eq64_spec a b : time_before_eq64 a b = true ↔ 0 ≤ s64 (b - a).
Proof. apply time_after_eq64_spec. Qed.

(** ** First and last set bit *)
Lemma fls_spec x n :
  0 ≤ x < 2 ^ n → x ≠ 0 →
  ∃ k, __fls x = Some k ∧ 0 ≤ k < n ∧ Z.testbit x k = true ∧
       ∀ i, k < i → Z.testbit x i = false.
Proof.
  intros Hx Hne. exists (Z.log2 x). unfold __fls.
  destruct (Z.eqb_spec x 0); [done|]. split_and!; try done.
  - apply Z.log2_nonneg.
  - apply Z.log2_lt_pow2; lia.
  - apply Z.bit_log2; lia.
  - intros i Hi. apply Z.bits_above_log2; lia.
Qed.

(** [x & -x] keeps the lowest set bit and clears all the others. *)
Lemma land_opp_spec x k :
  Z.testbit x k = true → (∀ i, i < k → Z.testbit x i = false) → 0 ≤ k →
  Z.land x (- x) = 2 ^ k.
Proof.
  intros Hk Hlow Hk0.
  assert (∃ q, x = (2 * q + 1) * 2 ^ k) as [q ->].
  { exists (x / 2 ^ k / 2).
    assert (Hm : x mod 2 ^ k = 0).
    { apply Z.bits_inj'. intros i Hi. rewrite Z.bits_0.
      destruct (decide (i < k)).
      - rewrite Z.mod_pow2_bits_low by lia. by apply Hlow.
      - by apply Z.mod_pow2_bits_high; lia. }
    assert (Hodd : (x / 2 ^ k) mod 2 = 1).
    { rewrite Z.testbit_true in Hk by lia. done. }
    assert (0 < 2 ^ k) by (apply Z.pow_pos_nonneg; lia).
    pose proof (Z.div_mod x (2 ^ k)). pose proof (Z.div_mod (x / 2 ^ k) 2). nia. }
  replace (- ((2 * q + 1) * 2 ^ k)) with ((2 * (- q - 1) + 1) * 2 ^ k) by ring.
  apply Z.bits_inj'. intros i Hi. rewrite Z.land_spec, testbit_pow2 by done.
  rewrite <- !Z.shiftl_mul_pow2, !Z.shiftl_spec by done.
  replace (- q - 1) with (Z.lnot q) by (unfold Z.lnot; lia).
  case_bool_decide as E.
  - subst. rewrite Z.sub_diag, !Z.testbit_odd_0. done.
  - destruct (decide (i < k)); [rewrite !Z.testbit_neg_r by lia; done|].
    replace (i - k) with (Z.succ (i - k - 1)) by lia.
    rewrite !Z.testbit_odd_succ, Z.lnot_spec by lia. by destruct (Z.testbit q _).
Qed.

Lemma lowest_bit x n :
  0 ≤ x < 2 ^ n → x ≠ 0 →
  ∃ k, 0 ≤ k < n ∧ Z.testbit x k = true ∧ ∀ i, i < k → Z.testbit x i = false.
Proof.
  intros Hx Hne. destruct (nonzero_has_bit x n Hx Hne) as (j & Hj & Hb).
  revert Hj Hb.
  induction j as [j IH] using (well_founded_induction (Z.lt_wf 0)). intros Hj Hb.
  destruct (decide (Exists (λ i, Z.testbit x i = true) (seqZ 0 j))) as [Hex|Hall].
  - apply Exists_exists in Hex as (i & Hi%elem_of_seqZ & Hib).
    apply (IH i); [lia|lia|done].
  - exists j. split_and!; try done; try lia. intros i Hi.
    destruct (decide (0 ≤ i)); [|apply Z.testbit_neg_r; lia].
    apply not_true_is_false. intros Hib. apply Hall, Exists_exists.
    exists i. split; [apply elem_of_seqZ; lia|done].
Qed.

Lemma ffs_spec x n :
  0 ≤ x < 2 ^ n → x ≠ 0 →
  0 ≤ __ffs x < n ∧ Z.testbit x (__ffs x) = true ∧
  ∀ i, i < __ffs x → Z.testbit x i = false.
Proof.
  intros Hx Hne. destruct (lowest_bit x n Hx Hne) as (k & Hk & Hb & Hlow).
  unfold __ffs. destruct (Z.eqb_spec x 0); [done|].
  rewrite (land_opp_spec x k), Z.log2_pow2 by (done || lia). done.
Qed.
