(* ===== verification/Lists.v ===== *)
(** * Circular arrays and counting

    Arrays used as queues with free-running 32-bit indices: the contents as a list,
    and how they change when an element is added at the end or taken off the front.
    The queues of the arbiter's end nodes and of the endpoint are of this kind. Then
    sums over lists and the number of set bits. *)

From S2P Require Import Prelude Platform.

(** The [n] elements from index [h] on. *)
Definition circ {A} `{Inhabited A} (l : list A) (h n : Z) : list A :=
  (λ i, arr_get l ((h + i) mod Z.of_nat (length l))) <$> seqZ 0 n.

Section circ.
Context {A : Type} `{Inhabited A}.
Implicit Types l : list A.

Lemma length_circ l h n : length (circ l h n) = Z.to_nat n.
Proof. unfold circ. by rewrite length_fmap, length_seqZ. Qed.

Lemma circ_0 l h : circ l h 0 = [].
Proof. done. Qed.

Lemma circ_mod l h h' n :
  0 < Z.of_nat (length l) → h mod Z.of_nat (length l) = h' mod Z.of_nat (length l) → circ l h n = circ l h' n.
Proof.
  intros Hl E. unfold circ. apply list_fmap_ext. intros _ i _.
  by rewrite <- (Zplus_mod_idemp_l h), E, Zplus_mod_idemp_l.
Qed.

Lemma circ_pop l h n : 0 < n →
  circ l h n = arr_get l (h mod Z.of_nat (length l)) :: circ l (h + 1) (n - 1).
Proof.
  intros Hn. unfold circ. rewrite seqZ_cons by done. rewrite fmap_cons, Z.add_0_r. f_equal.
  replace (Z.succ 0) with (1 + 0) by lia. replace (Z.pred n) with (n - 1) by lia.
  rewrite <- fmap_add_seqZ, <- list_fmap_compose.
  apply list_fmap_ext. intros _ i _. unfold compose. do 2 f_equal. lia.
Qed.

Lemma circ_push l h n x : 0 ≤ n < Z.of_nat (length l) →
  circ (arr_set l ((h + n) mod Z.of_nat (length l)) x) h (n + 1) = circ l h n ++ [x].
Proof.
  intros Hn. pose proof (Z.mod_pos_bound (h + n) (Z.of_nat (length l)) ltac:(lia)) as Hb.
  unfold circ. rewrite length_arr_set, seqZ_app, fmap_app by lia. f_equal.
  - apply list_fmap_ext. intros k i Hi. apply list_elem_of_lookup_2, elem_of_seqZ in Hi.
    pose proof (Z.mod_pos_bound (h + i) (Z.of_nat (length l)) ltac:(lia)).
    rewrite arr_get_set, decide_False; [done| |lia|lia]. intros E.
    assert ((n - i) mod Z.of_nat (length l) = 0) as E0.
    { replace (n - i) with ((h + n) - (h + i)) by lia. rewrite Zminus_mod, E, Z.sub_diag. done. }
    rewrite Z.mod_small in E0 by lia. lia.
  - rewrite seqZ_cons, seqZ_nil, fmap_cons, Z.add_0_l by lia. by rewrite arr_get_set, decide_True by lia.
Qed.

Lemma circ_Forall (P : A → Prop) l h n : Forall P l → 0 < Z.of_nat (length l) → Forall P (circ l h n).
Proof.
  intros Hl Hlen. apply Forall_fmap, Forall_forall. intros i _. simpl. apply arr_get_Forall; [done|].
  apply Z.mod_pos_bound. lia.
Qed.
End circ.

(** A 32-bit index into an array whose size divides 2^32. *)
Lemma u32_mod_pow2 x k : 0 ≤ k < 32 → u32 x mod 2 ^ k = x mod 2 ^ k.
Proof.
  intros Hk. unfold u32. rewrite <- Znumtheory.Zmod_div_mod; [done|lia|lia|].
  exists (2 ^ (32 - k)). rewrite <- Z.pow_add_r by lia. f_equal. lia.
Qed.

Lemma u32_diff_succ t h : u32 (u32 (t + 1) - h) = u32 (u32 (t - h) + 1).
Proof. mlia. Qed.

Lemma u32_diff_pred t h : u32 (t - u32 (h + 1)) = u32 (u32 (t - h) - 1).
Proof. mlia. Qed.

(** A duplicate-free list of destinations is short. *)
Lemma nodup_range_length (l : list Z) n : 0 ≤ n → NoDup l → Forall (λ d, 0 ≤ d < n) l → (length l ≤ Z.to_nat n)%nat.
Proof.
  intros Hn Hnd Hr. replace (Z.to_nat n) with (length (seqZ 0 n)) by apply length_seqZ.
  apply submseteq_length, NoDup_submseteq; [done|]. intros x Hx. apply elem_of_seqZ.
  rewrite Forall_forall in Hr. specialize (Hr x Hx). lia.
Qed.

(** ** Sums and counts

    Sums over lists, the number of set bits of a word, and the word operations
    that pick the lowest set bit. *)
(** ** Sums over lists *)
Definition sum_of {X} (g : X → Z) (l : list X) : Z := foldr (λ x acc, g x + acc) 0 l.

Lemma sum_of_app {X} (g : X → Z) l1 l2 : sum_of g (l1 ++ l2) = sum_of g l1 + sum_of g l2.
Proof. induction l1; simpl; lia. Qed.

Lemma sum_of_perm {X} (g : X → Z) l1 l2 : l1 ≡ₚ l2 → sum_of g l1 = sum_of g l2.
Proof. induction 1; simpl in *; lia. Qed.

Lemma sum_of_concat {X} (g : X → Z) l : sum_of g (concat l) = sum_of (sum_of g) l.
Proof. induction l as [|x l IH]; simpl; [done|]. by rewrite sum_of_app, IH. Qed.

Lemma sum_of_set {X} `{!Inhabited X} (g : X → Z) l i x :
  0 ≤ i < Z.of_nat (length l) → sum_of g (arr_set l i x) = sum_of g l - g (arr_get l i) + g x.
Proof.
  intros Hi. unfold arr_set, arr_get. remember (Z.to_nat i) as n eqn:En.
  assert (n < length l)%nat as Hn by lia. clear En Hi i. revert n Hn.
  induction l as [|y l IH]; intros n Hn; simpl in Hn; [lia|].
  destruct n as [|n]; simpl; [lia|]. rewrite IH by lia.
  change ((y :: l) !!! S n) with (l !!! n). lia.
Qed.

Lemma sum_of_zero {X} (l : list X) : sum_of (λ _, 0) l = 0.
Proof. induction l as [|x l IH]; simpl; [done|exact IH]. Qed.

Lemma sum_of_nonneg {X} (g : X → Z) l : (∀ x, 0 ≤ g x) → 0 ≤ sum_of g l.
Proof. intros Hg. induction l as [|x l IH]; simpl; [done|]. specialize (Hg x). lia. Qed.

Lemma sum_of_get {X} `{!Inhabited X} (g : X → Z) l i :
  (∀ x, 0 ≤ g x) → 0 ≤ i < Z.of_nat (length l) → g (arr_get l i) ≤ sum_of g l.
Proof.
  intros Hg Hi. unfold arr_get. remember (Z.to_nat i) as n eqn:En.
  assert (n < length l)%nat as Hn by lia. clear En Hi i. revert n Hn.
  induction l as [|y l IH]; intros n Hn; simpl in Hn; [lia|].
  pose proof (sum_of_nonneg g l Hg). pose proof (Hg y).
  destruct n as [|n]; simpl; [lia|]. change ((y :: l) !!! S n) with (l !!! n).
  specialize (IH n ltac:(lia)). lia.
Qed.

(** ** Words *)
Lemma lxor_clear w t i :
  0 ≤ t → Z.testbit w t = true → Z.testbit (Z.lxor w (2 ^ t)) i = Z.testbit w i && bool_decide (i ≠ t).
Proof.
  intros Ht Hb. rewrite Z.lxor_spec, testbit_pow2 by done.
  destruct (decide (i = t)) as [->|Hne].
  - by rewrite Hb, bool_decide_eq_true_2, bool_decide_eq_false_2 by congruence.
  - rewrite bool_decide_eq_false_2, bool_decide_eq_true_2 by done. by destruct (Z.testbit w i).
Qed.

(** [x & (-x)] *)
Lemma land_neg_ffs n x : 0 ≤ x < 2 ^ n → 0 ≤ n ≤ 64 → x ≠ 0 → Z.land x (u64 (- x)) = 2 ^ __ffs x.
Proof.
  intros Hr Hn Hne. destruct (ffs_spec x n Hr Hne) as (Hf & Hb & Hlow).
  rewrite <- (land_opp_spec x (__ffs x)) by (done || lia). apply Z.bits_inj'. intros i Hi.
  rewrite !Z.land_spec, testbit_u64 by done. destruct (decide (i < 64)).
  - by rewrite bool_decide_eq_true_2.
  - by rewrite (testbit_high x n) by lia.
Qed.

(** [x & (x - 1)] clears the lowest bit. *)
Lemma land_pred_ffs n x i : 0 ≤ x < 2 ^ n → 0 ≤ n ≤ 64 → x ≠ 0 → 0 ≤ i →
  Z.testbit (Z.land x (u64 (x - 1))) i = Z.testbit x i && bool_decide (i ≠ __ffs x).
Proof.
  intros Hx Hn Hne Hi. destruct (ffs_spec x n Hx Hne) as (Hk & Hb & Hlow).
  assert (x < 2 ^ 64) by (eapply Z.lt_le_trans; [apply Hx|apply Z.pow_le_mono_r; lia]).
  rewrite u64_small by lia. replace (x - 1) with (Z.lnot (- x)) by (unfold Z.lnot; lia).
  rewrite Z.land_spec, Z.lnot_spec by lia.
  pose proof (land_opp_spec x (__ffs x) Hb Hlow ltac:(lia)) as E. apply (f_equal (λ w, Z.testbit w i)) in E.
  rewrite Z.land_spec, testbit_pow2 in E by lia. rewrite bool_decide_not.
  destruct (Z.testbit x i); [|done]. simpl in *. by rewrite E.
Qed.

(** ** Counting set bits *)
Lemma shl64_1 j : 0 ≤ j < 64 → shl64 1 j = 2 ^ j.
Proof.
  intros Hj. unfold shl64. rewrite Z.shiftl_1_l. apply u64_small.
  split; [apply Z.pow_nonneg; lia|apply Z.pow_lt_mono_r; lia].
Qed.

Definition popcount (n w : Z) : Z := sum_of (λ i, b2z (Z.testbit w i)) (seqZ 0 n).

Lemma sum_of_ext_in {X} (g g' : X → Z) l : (∀ x, x ∈ l → g x = g' x) → sum_of g l = sum_of g' l.
Proof.
  induction l as [|x l IH]; intros Hg; simpl; [done|].
  rewrite (Hg x) by (by apply elem_of_cons; left). rewrite IH; [done|]. intros y Hy. apply Hg. by apply elem_of_cons; right.
Qed.

Lemma sum_of_le {X} (g : X → Z) b l : (∀ x, g x ≤ b) → sum_of g l ≤ b * Z.of_nat (length l).
Proof. intros Hg. induction l as [|x l IH]; simpl; [lia|]. specialize (Hg x). lia. Qed.

(** Changing the value at one element of a duplicate-free list. *)
Lemma sum_of_change_in {X} (g g' : X → Z) x l :
  NoDup l → x ∈ l → (∀ y, y ∈ l → y ≠ x → g' y = g y) → sum_of g' l = sum_of g l - g x + g' x.
Proof.
  intros Hnd Hx Hg. induction Hnd as [|y l Hy _ IH]; [by apply not_elem_of_nil in Hx|]. simpl.
  apply elem_of_cons in Hx as [->|Hx].
  - rewrite (sum_of_ext_in g' g); [lia|]. intros z Hz. apply Hg; [by right|]. by intros ->.
  - rewrite (Hg y) by (by left || by intros ->). rewrite IH; [lia|done|]. intros z Hz. apply Hg. by right.
Qed.

Lemma sum_of_change {X} (g g' : X → Z) x l :
  NoDup l → x ∈ l → (∀ y, y ≠ x → g' y = g y) → sum_of g' l = sum_of g l - g x + g' x.
Proof. intros Hnd Hx Hg. apply sum_of_change_in; auto. Qed.

Lemma popcount_change n w w' t :
  0 ≤ t < n → (∀ i, i ≠ t → Z.testbit w' i = Z.testbit w i) →
  popcount n w' = popcount n w - b2z (Z.testbit w t) + b2z (Z.testbit w' t).
Proof.
  intros Ht Hw. unfold popcount. apply (sum_of_change (λ i, b2z (Z.testbit w i)) (λ i, b2z (Z.testbit w' i))).
  - apply NoDup_seqZ.
  - apply elem_of_seqZ. lia.
  - intros i Hi. by rewrite Hw.
Qed.

Lemma popcount_nonneg n w : 0 ≤ popcount n w.
Proof. apply sum_of_nonneg. intros i. by destruct (Z.testbit w i). Qed.

Lemma popcount_le n w : 0 ≤ n → popcount n w ≤ n.
Proof.
  intros Hn. unfold popcount. etrans; [apply (sum_of_le _ 1)|rewrite length_seqZ; lia].
  intros i. by destruct (Z.testbit w i).
Qed.

Lemma popcount_clear n w t :
  0 ≤ t < n → Z.testbit w t = true → popcount n (Z.lxor w (2 ^ t)) = popcount n w - 1.
Proof.
  intros Ht Hb. rewrite (popcount_change n w _ t); [|lia|].
  - rewrite lxor_clear by (done || lia). rewrite Hb, bool_decide_eq_false_2 by congruence. simpl. lia.
  - intros i Hi. rewrite lxor_clear by (done || lia). by rewrite bool_decide_eq_true_2, andb_true_r.
Qed.

Lemma popcount_lor n w t : 0 ≤ t < n → popcount n (Z.lor w (2 ^ t)) ≤ popcount n w + 1.
Proof.
  intros Ht. rewrite (popcount_change n w _ t); [|lia|].
  - destruct (Z.testbit w t), (Z.testbit (Z.lor w (2 ^ t)) t); simpl; lia.
  - intros i Hi. rewrite Z.lor_spec, testbit_pow2, bool_decide_eq_false_2, orb_false_r by (done || lia). done.
Qed.

(** A set of small numbers is small. *)
Lemma NoDup_bounded (l : list Z) n : NoDup l → (∀ x, x ∈ l → 0 ≤ x < n) → Z.of_nat (length l) ≤ Z.max 0 n.
Proof.
  intros Hnd Hl. assert (l ⊆+ seqZ 0 n) as Hs.
  { apply NoDup_submseteq; [done|]. intros x Hx. apply elem_of_seqZ. specialize (Hl x Hx). lia. }
  apply submseteq_length in Hs. rewrite length_seqZ in Hs. lia.
Qed.
