(* ===== verification/Window.v ===== *)
(** * The sliding window of sequence numbers

    Model of [src/src/protocol/window.h].  A window remembers which of the last
    [FASTPASS_WND_LEN] sequence numbers are marked, in a ring of four 64-bit
    words with a one-word summary of the non-empty words.  This file holds the
    state, the operations and the invariant; [WindowFacts] proves them. *)

From S2P Require Import Prelude Platform.

Definition FASTPASS_WND_LOG : Z := 8.
Definition FASTPASS_WND_LEN : Z := Z.shiftl 1 FASTPASS_WND_LOG - BITS_PER_LONG.
Definition FASTPASS_WND_WORDS : Z := BITS_TO_LONGS (Z.shiftl 1 FASTPASS_WND_LOG).

Record fp_window := {
  marked : list Z;
  summary : Z;
  head : Z;
  head_word : Z;
  num_marked : Z;
}.

Definition set_marked (f : list Z → list Z) (w : fp_window) : fp_window :=
  {| marked := f (marked w); summary := summary w; head := head w;
     head_word := head_word w; num_marked := num_marked w |}.
Definition set_summary (f : Z → Z) (w : fp_window) : fp_window :=
  {| marked := marked w; summary := f (summary w); head := head w;
     head_word := head_word w; num_marked := num_marked w |}.
Definition set_head (f : Z → Z) (w : fp_window) : fp_window :=
  {| marked := marked w; summary := summary w; head := f (head w);
     head_word := head_word w; num_marked := num_marked w |}.
Definition set_head_word (f : Z → Z) (w : fp_window) : fp_window :=
  {| marked := marked w; summary := summary w; head := head w;
     head_word := f (head_word w); num_marked := num_marked w |}.
Definition set_num_marked (f : Z → Z) (w : fp_window) : fp_window :=
  {| marked := marked w; summary := summary w; head := head w;
     head_word := head_word w; num_marked := f (num_marked w) |}.

(** ** Queries *)
Definition wnd_pos (tslot : Z) : Z :=
  u32 (Z.land tslot (Z.shiftl 1 FASTPASS_WND_LOG - 1)).

Definition summary_pos (wnd : fp_window) (pos : Z) : Z :=
  u64 (head_word wnd - BIT_WORD pos) mod FASTPASS_WND_WORDS.

Definition wnd_empty (wnd : fp_window) : bool := num_marked wnd =? 0.

Definition wnd_num_marked (wnd : fp_window) : Z := num_marked wnd.

Definition wnd_head (wnd : fp_window) : Z := head wnd.

Definition wnd_edge (wnd : fp_window) : Z := u64 (head wnd - FASTPASS_WND_LEN + 1).

Definition wnd_seq_before (wnd : fp_window) (seqno : Z) : bool :=
  time_before64 seqno (wnd_edge wnd).

Definition wnd_seq_after (wnd : fp_window) (seqno : Z) : bool :=
  time_after64 seqno (wnd_head wnd).

Definition wnd_is_marked (wnd : fp_window) (seqno : Z) : bool :=
  negb (test_bit (wnd_pos seqno) (marked wnd) =? 0).

Section ops.
Context {C : Type}.
Implicit Types seqno amount pos : Z.

(** [__set_bit]/[__clear_bit] on [&wnd->summary]: the array of one word. *)
Definition set_summary_bit (nr : Z) (s : Z) : Z := arr_get (__set_bit nr [s]) 0.
Definition clear_summary_bit (nr : Z) (s : Z) : Z := arr_get (__clear_bit nr [s]) 0.

(** ** Updates *)
Definition wnd_mark (seqno : Z) : M C fp_window unit :=
  wnd ← get;
  let seqno_index := wnd_pos seqno in
  bug_on (wnd_is_marked wnd seqno) "wnd_mark: is marked";;
  modify (set_marked (__set_bit seqno_index));;
  modify (set_summary (set_summary_bit (summary_pos wnd seqno_index)));;
  modify (set_num_marked (λ n, u32 (n + 1))).

(** The [next_intermediate] loop of [wnd_mark_bulk]: the words strictly between
    the first and the last one, at most [FASTPASS_WND_WORDS] of them; returns
    [cur_word], which is then [end_word]. *)
Fixpoint wnd_mark_intermediate (fuel : nat) (cur_word end_word : Z) : M C fp_window Z :=
  match fuel with
  | O => ub
  | S fuel' =>
      let cur_word := u32 (cur_word + 1) mod FASTPASS_WND_WORDS in
      if negb (cur_word =? end_word) then
        wnd ← get;
        bug_on (negb (arr_get (marked wnd) cur_word =? 0)) "wnd_mark_bulk: intermediate word";;
        modify (set_marked (λ m, arr_set m cur_word (not64 0)));;
        wnd_mark_intermediate fuel' cur_word end_word
      else mret cur_word
  end.

Definition wnd_mark_bulk (seqno amount : Z) : M C fp_window unit :=
  wnd ← get;
  bug_on (time_before_eq64 seqno (u64 (head wnd - FASTPASS_WND_LEN)))
    "wnd_mark_bulk: before window";;
  bug_on (time_after64 (u64 (seqno + amount - 1)) (head wnd)) "wnd_mark_bulk: after window";;
  let start_index := wnd_pos seqno in
  let start_offset := start_index mod BITS_PER_LONG in
  let end_index := wnd_pos (u64 (seqno + amount - 1)) in
  let end_word := BIT_WORD end_index in
  let end_offset := end_index mod BITS_PER_LONG in
  let cur_word := BIT_WORD start_index in
  let mask := shl64 (not64 0) start_offset in
  '(cur_word, mask) ←
    (if cur_word =? end_word then mret (cur_word, mask)
     else
       bug_on (negb (Z.land (arr_get (marked wnd) cur_word) mask =? 0))
         "wnd_mark_bulk: start word";;
       modify (set_marked (λ m, arr_set m cur_word (Z.lor (arr_get m cur_word) mask)));;
       cur_word ← wnd_mark_intermediate (Z.to_nat FASTPASS_WND_WORDS) cur_word end_word;
       mret (cur_word, not64 0));
  let mask := Z.land mask (Z.shiftr (not64 0) (BITS_PER_LONG - 1 - end_offset)) in
  wnd ← get;
  bug_on (negb (Z.land (arr_get (marked wnd) cur_word) mask =? 0)) "wnd_mark_bulk: end word";;
  modify (set_marked (λ m, arr_set m cur_word (Z.lor (arr_get m cur_word) mask)));;
  let mask := Z.shiftr (not64 0) (BITS_PER_LONG - 1 - summary_pos wnd start_index) in
  let mask := Z.land mask (shl64 (not64 0) (summary_pos wnd end_index)) in
  modify (set_summary (λ s, Z.lor s mask));;
  modify (set_num_marked (λ n, u32 (n + amount))).

Definition wnd_clear (seqno : Z) : M C fp_window unit :=
  wnd ← get;
  let seqno_index := wnd_pos seqno in
  bug_on (negb (wnd_is_marked wnd seqno)) "wnd_clear: not marked";;
  modify (set_marked (__clear_bit seqno_index));;
  wnd ← get;
  when (arr_get (marked wnd) (BIT_WORD seqno_index) =? 0)
    (modify (set_summary (clear_summary_bit (summary_pos wnd seqno_index))));;
  modify (set_num_marked (λ n, u32 (n - 1))).

(** ** Searches *)
Definition wnd_at_or_before (seqno : Z) : M C fp_window Z :=
  wnd ← get;
  bug_on (time_after64 seqno (head wnd)) "wnd_at_or_before: after window";;
  if time_before_eq64 seqno (u64 (head wnd - FASTPASS_WND_LEN)) then mret (-1)
  else
    let seqno_index := wnd_pos seqno in
    let seqno_word := BIT_WORD seqno_index in
    let seqno_offset := seqno_index mod BITS_PER_LONG in
    let tmp := shl64 (arr_get (marked wnd) seqno_word) (BITS_PER_LONG - 1 - seqno_offset) in
    if negb (tmp =? 0) then
      f ← deref (__fls tmp);
      mret (s32 (BITS_PER_LONG - 1 - f))
    else
      let tmp := Z.shiftr (summary wnd) (summary_pos wnd seqno_index) in
      let tmp := Z.land tmp (not64 1) in
      if tmp =? 0 then mret (-1)
      else
        let result_word_offset := __ffs tmp in
        let tmp := arr_get (marked wnd)
          (u32 (seqno_word - result_word_offset) mod FASTPASS_WND_WORDS) in
        f ← deref (__fls tmp);
        mret (s32 (u64 (BITS_PER_LONG * result_word_offset + seqno_offset - f))).

Definition wnd_earliest_marked : M C fp_window Z :=
  wnd ← get;
  word_offset ← deref (__fls (summary wnd));
  let tmp := arr_get (marked wnd)
    (u32 (head_word wnd - word_offset) mod FASTPASS_WND_WORDS) in
  mret (u64 (Z.land (head wnd) (not64 (BITS_PER_LONG - 1))
             - word_offset * BITS_PER_LONG + __ffs tmp)).

(** Returns the value of [*out_seqno], or [None] when the function returns
    false (the out parameter is then left untouched). *)
Definition wnd_at_or_after (seqno : Z) : M C fp_window (option Z) :=
  wnd ← get;
  if wnd_seq_after wnd seqno then mret None
  else if wnd_seq_before wnd seqno then
    if wnd_empty wnd then mret None
    else e ← wnd_earliest_marked; mret (Some e)
  else
    let seqno_index := wnd_pos seqno in
    let seqno_word := BIT_WORD seqno_index in
    let seqno_offset := seqno_index mod BITS_PER_LONG in
    let tmp := Z.shiftr (arr_get (marked wnd) seqno_word) seqno_offset in
    if negb (tmp =? 0) then mret (Some (u64 (seqno + __ffs tmp)))
    else
      let tmp := shl64 (summary wnd) (BITS_PER_LONG - 1 - summary_pos wnd seqno_index) in
      let tmp := Z.land tmp (2 ^ 63 - 1) in
      if tmp =? 0 then mret None
      else
        f ← deref (__fls tmp);
        let result_word_offset := BITS_PER_LONG - 1 - f in
        let tmp := arr_get (marked wnd)
          (u32 (seqno_word + result_word_offset) mod FASTPASS_WND_WORDS) in
        mret (Some (u64 (seqno - seqno_offset + BITS_PER_LONG * result_word_offset
                         + __ffs tmp))).

(** ** Moving the window *)
Definition wnd_reset (h : Z) : M C fp_window unit :=
  modify (λ wnd, {| marked := replicate (Z.to_nat FASTPASS_WND_WORDS) 0;
                    summary := 0; head := h;
                    head_word := BIT_WORD (wnd_pos h); num_marked := 0 |}).

Definition wnd_advance (amount : Z) : M C fp_window unit :=
  wnd ← get;
  let word_shift := u64 (BIT_WORD (u64 (head wnd + amount)) - BIT_WORD (head wnd)) in
  (if word_shift >=? FASTPASS_WND_WORDS then
     bug_on (negb (num_marked wnd =? 0)) "wnd_advance: marks left";;
     modify (set_marked (λ _, replicate (Z.to_nat FASTPASS_WND_WORDS) 0));;
     modify (set_summary (λ _, 0))
   else
     (if wnd_empty wnd then mret tt
      else
        e ← wnd_earliest_marked;
        bug_on (time_before_eq64 e (u64 (head wnd + amount - FASTPASS_WND_LEN)))
          "wnd_advance: earliest falls off");;
     modify (set_summary (λ s, shl64 s word_shift)));;
  modify (set_head (λ h, u64 (h + amount)));;
  modify (set_head_word (λ hw, u64 (hw + word_shift) mod FASTPASS_WND_WORDS)).

(** ** Bit masks *)
Definition wnd_get_mask_unsafe (wnd : fp_window) (pos : Z) : Z :=
  let pos_index := wnd_pos pos in
  let pos_word := BIT_WORD pos_index in
  let pos_offset := pos_index mod BITS_PER_LONG in
  if pos_offset =? BITS_PER_LONG - 1 then arr_get (marked wnd) pos_word
  else
    let res := shl64 (arr_get (marked wnd) pos_word) (BITS_PER_LONG - 1 - pos_offset) in
    let pos_word := u32 (pos_word - 1) mod FASTPASS_WND_WORDS in
    Z.lor res (Z.shiftr (arr_get (marked wnd) pos_word) (pos_offset + 1)).

Definition wnd_get_mask (wnd : fp_window) (pos : Z) : Z :=
  if time_before_eq64 pos (u64 (head wnd - FASTPASS_WND_LEN)) then 0
  else if time_after_eq64 pos (u64 (head wnd + BITS_PER_LONG)) then 0
  else wnd_get_mask_unsafe wnd pos.
End ops.

#[global] Arguments wnd_mark : simpl never.
#[global] Arguments wnd_mark_bulk : simpl never.
#[global] Arguments wnd_clear : simpl never.
#[global] Arguments wnd_at_or_before : simpl never.
#[global] Arguments wnd_at_or_after : simpl never.
#[global] Arguments wnd_earliest_marked : simpl never.
#[global] Arguments wnd_advance : simpl never.
#[global] Arguments wnd_reset : simpl never.

(** ** Abstract view *)

(** Bit [p] of the ring. *)
Definition wbit (m : list Z) (p : Z) : bool :=
  Z.testbit (arr_get m (BIT_WORD p)) (p mod BITS_PER_LONG).

(** How far behind the head a sequence number is, modulo 2^64. *)
Definition age (w : fp_window) (seqno : Z) : Z := u64 (head w - seqno).

(** The sequence numbers the window covers, latest first. *)
Definition wnd_range (w : fp_window) : list Z :=
  (λ d, u64 (head w - d)) <$> seqZ 0 FASTPASS_WND_LEN.

(** The set of marked sequence numbers: what the window represents. *)
Definition wnd_set (w : fp_window) : gset Z :=
  list_to_set (filter (λ s, wbit (marked w) (s mod 256) = true) (wnd_range w)).

Record wnd_wf (w : fp_window) : Prop := {
  wf_len : length (marked w) = 4%nat;
  wf_words : Forall (λ x, 0 ≤ x < 2 ^ 64) (marked w);
  wf_head : 0 ≤ head w < 2 ^ 64;
  wf_head_word : head_word w = head w mod 256 / 64;
  wf_inside : ∀ p, 0 ≤ p < 256 → wbit (marked w) p = true → (head w - p) mod 256 < 192;
  wf_summary_range : 0 ≤ summary w < 2 ^ 64;
  wf_summary : ∀ i, 0 ≤ i →
    Z.testbit (summary w) i = true ↔
    i < 4 ∧ arr_get (marked w) ((head_word w - i) mod 4) ≠ 0;
  wf_count : num_marked w = Z.of_nat (size (wnd_set w));
}.
