(* ===== verification/WindowFacts.v ===== *)
(** * Correctness of the sliding window

    The invariant [wnd_wf] of [Window] is established by [wnd_reset] and
    preserved by every update; each operation has the effect of a set operation
    on [wnd_set]; the searches return the nearest marked sequence number.

    The proofs work in unwrapped coordinates: a sequence number of the window is
    [u64 X] for one integer [X] in [(head - 192, head]], the word of the ring
    that holds it is that of the block [X / 64]. *)

From S2P Require Import Prelude Platform Window.

Ltac wconst :=
  change FASTPASS_WND_LEN with 192 in *; change FASTPASS_WND_WORDS with 4 in *;
  change FASTPASS_WND_LOG with 8 in *;
  change BITS_PER_LONG with 64 in *; unfold BIT_WORD in *; change BITS_PER_LONG with 64 in *.

(** ** Bits of the ring *)
Lemma wnd_pos_mod s : wnd_pos s = s mod 256.
Proof.
  unfold wnd_pos. change (Z.shiftl 1 FASTPASS_WND_LOG - 1) with (Z.ones 8).
  rewrite Z.land_ones by lia. change (2 ^ 8) with 256. mlia.
Qed.

Lemma wbit_mod m p : wbit m p = Z.testbit (arr_get m (p / 64)) (p mod 64).
Proof. done. Qed.

Lemma bit_mask_pow2 nr : BIT_MASK nr = 2 ^ (nr mod 64).
Proof.
  unfold BIT_MASK, shl64. wconst. rewrite Z.shiftl_1_l. apply u64_small.
  assert (0 ≤ nr mod 64 < 64) by (apply Z.mod_pos_bound; lia).
  split; [apply Z.pow_nonneg; lia|]. apply Z.pow_lt_mono_r; lia.
Qed.

Lemma wbit_set_bit m nr p :
  0 ≤ nr < 64 * Z.of_nat (length m) → 0 ≤ p →
  wbit (__set_bit nr m) p = bool_decide (p = nr) || wbit m p.
Proof.
  intros Hnr Hp. unfold wbit, __set_bit. rewrite bit_mask_pow2. wconst.
  rewrite arr_get_set by (zify_div; lia). case_decide as E.
  - rewrite <- E, Z.lor_spec, testbit_pow2 by (zify_div; lia).
    rewrite orb_comm. f_equal. apply bool_decide_ext. split; [|by intros ->].
    intros. zify_div; lia.
  - rewrite bool_decide_eq_false_2; [done|]. by intros ->.
Qed.

Lemma wbit_clear_bit m nr p :
  0 ≤ nr < 64 * Z.of_nat (length m) → 0 ≤ p →
  wbit (__clear_bit nr m) p = negb (bool_decide (p = nr)) && wbit m p.
Proof.
  intros Hnr Hp. unfold wbit, __clear_bit. rewrite bit_mask_pow2. wconst.
  rewrite arr_get_set by (zify_div; lia). case_decide as E.
  - rewrite <- E, Z.land_spec, testbit_not64, testbit_pow2 by (zify_div; lia).
    rewrite andb_comm. f_equal. f_equal. apply bool_decide_ext. split; [|by intros ->].
    intros. zify_div; lia.
  - rewrite bool_decide_eq_false_2; [done|]. by intros ->.
Qed.

Lemma test_bit_wbit nr m : negb (test_bit nr m =? 0) = wbit m nr.
Proof.
  unfold test_bit, wbit. wconst. change (64 - 1) with (Z.ones 6).
  rewrite (Z.land_ones nr) by lia. change (2 ^ 6) with 64.
  assert (0 ≤ nr mod 64 < 64) by (apply Z.mod_pos_bound; lia).
  rewrite Z.land_comm. change 1 with (Z.ones 1).
  rewrite Z.land_ones by lia. rewrite Z.shiftr_div_pow2 by lia.
  change (2 ^ 1) with 2. rewrite Z.testbit_eqb by lia.
  set (y := _ / _). destruct (Z.eqb_spec (y mod 2) 0), (Z.eqb_spec (y mod 2) 1); try done.
  all: zify_div; lia.
Qed.

Lemma wnd_is_marked_wbit w s : wnd_is_marked w s = wbit (marked w) (s mod 256).
Proof. unfold wnd_is_marked. by rewrite test_bit_wbit, wnd_pos_mod. Qed.

(** ** Unwrapped coordinates *)
Definition ubit (w : fp_window) (X : Z) : bool := wbit (marked w) (X mod 256).
Definition blk (w : fp_window) (B : Z) : Z := arr_get (marked w) (B mod 4).

(** The age of a sequence number as a signed quantity: negative after the
    window, in [[0, 192)] inside it, larger before it. *)
Definition sage (w : fp_window) (s : Z) : Z := s64 (head w - s).

Lemma u64_mod_256 X : u64 X mod 256 = X mod 256.
Proof. mlia. Qed.

Lemma u64_mod_64 X : u64 X mod 64 = X mod 64.
Proof. mlia. Qed.

Lemma ubit_blk w B o : 0 ≤ o < 64 → ubit w (64 * B + o) = Z.testbit (blk w B) o.
Proof.
  intros Ho. unfold ubit, blk, wbit. wconst.
  replace ((64 * B + o) mod 256 / 64) with (B mod 4) by (zify_div; lia).
  by replace ((64 * B + o) mod 256 mod 64) with o by (zify_div; lia).
Qed.

Lemma ubit_split w X : ubit w X = Z.testbit (blk w (X / 64)) (X mod 64).
Proof. rewrite <- ubit_blk by (zify_div; lia). f_equal. zify_div; lia. Qed.

Lemma age_unwrapped w X : 0 ≤ head w - X < 2 ^ 64 → age w (u64 X) = head w - X.
Proof. intros. unfold age. mlia. Qed.

Lemma elem_of_wnd_set w s :
  s ∈ wnd_set w ↔ ∃ X, head w - 192 < X ≤ head w ∧ s = u64 X ∧ ubit w X = true.
Proof.
  unfold wnd_set. rewrite elem_of_list_to_set, list_elem_of_filter.
  unfold wnd_range. rewrite list_elem_of_fmap. wconst. split.
  - intros (Hb & d & -> & Hd%elem_of_seqZ). exists (head w - d).
    split_and!; [lia|lia|done|]. unfold ubit. by rewrite u64_mod_256 in Hb.
  - intros (X & HX & -> & Hb). split; [by rewrite u64_mod_256|].
    exists (head w - X). split; [f_equal; lia|]. apply elem_of_seqZ. lia.
Qed.

(** The unwrapped position of an in-window sequence number. *)
Lemma unwrap w s :
  0 ≤ s < 2 ^ 64 → 0 ≤ sage w s →
  ∃ X, s = u64 X ∧ X = head w - sage w s.
Proof. intros Hs Ha. eexists. split; [|done]. unfold sage in *. mlia. Qed.

Section facts.
Context {C : Type} (w : fp_window) (Hwf : wnd_wf w).
Implicit Types (X B s : Z).

Lemma wnd_set_age s : s ∈ wnd_set w → 0 ≤ s < 2 ^ 64 ∧ 0 ≤ age w s < 192.
Proof using Hwf.
  rewrite elem_of_wnd_set. intros (X & HX & -> & _).
  rewrite age_unwrapped by lia. split; [apply u64_range|lia].
Qed.

Lemma ubit_elem X : head w - 192 < X ≤ head w → u64 X ∈ wnd_set w ↔ ubit w X = true.
Proof using Type.
  intros HX. rewrite elem_of_wnd_set. split; [|eauto 10].
  intros (Y & HY & E & Hb). replace X with Y; [done|]. revert E HX HY. clear. mlia.
Qed.

(** Membership in terms of the value the C code tests. *)
Lemma elem_of_wnd_set_age s :
  s ∈ wnd_set w ↔ 0 ≤ s < 2 ^ 64 ∧ age w s < 192 ∧ wnd_is_marked w s = true.
Proof using Hwf.
  rewrite wnd_is_marked_wbit. split.
  - intros Hs. destruct (wnd_set_age s Hs) as [??]. split_and!; [lia|lia|lia|].
    apply elem_of_wnd_set in Hs as (X & _ & -> & Hb). by rewrite u64_mod_256.
  - intros (Hs & Ha & Hb). apply elem_of_wnd_set. unfold age in Ha.
    pose proof (wf_head w Hwf) as Hh.
    exists (head w - u64 (head w - s)). pose proof (u64_range (head w - s)).
    split_and!; [lia|lia|mlia|]. unfold ubit.
    by replace ((head w - u64 (head w - s)) mod 256) with (s mod 256) by mlia.
Qed.

Lemma ubit_inside X : ubit w X = true → (head w - X) mod 256 < 192.
Proof using Hwf.
  intros Hb. apply (wf_inside w Hwf) in Hb; [|zify_div; lia].
  by replace ((head w - X) mod 256) with ((head w - X mod 256) mod 256) by (zify_div; lia).
Qed.

Lemma blk_range B : 0 ≤ blk w B < 2 ^ 64.
Proof using Hwf.
  apply (arr_get_Forall (λ x, 0 ≤ x < 2 ^ 64)); [apply (wf_words w Hwf)|].
  rewrite (wf_len w Hwf). zify_div; lia.
Qed.

Lemma head_word_blk : head_word w = head w / 64 mod 4.
Proof using Hwf. rewrite (wf_head_word w Hwf). zify_div; lia. Qed.

Lemma summary_blk i :
  0 ≤ i → Z.testbit (summary w) i = true ↔ i < 4 ∧ blk w (head w / 64 - i) ≠ 0.
Proof using Hwf.
  intros Hi. rewrite (wf_summary w Hwf) by done. rewrite head_word_blk.
  unfold blk. by replace ((head w / 64 mod 4 - i) mod 4)
    with ((head w / 64 - i) mod 4) by (zify_div; lia).
Qed.

Lemma summary_pos_blk X :
  head w - 192 < X ≤ head w →
  summary_pos w (wnd_pos (u64 X)) = head w / 64 - X / 64 ∧ 0 ≤ head w / 64 - X / 64 < 4.
Proof using Hwf.
  intros HX. unfold summary_pos. rewrite wnd_pos_mod, u64_mod_256, head_word_blk.
  wconst. split; [|zify_div; lia]. mlia.
Qed.

(** The block of a marked number inside the window is marked in the summary. *)
Lemma summary_of_ubit X :
  head w - 192 < X ≤ head w → ubit w X = true →
  Z.testbit (summary w) (head w / 64 - X / 64) = true.
Proof using Hwf.
  intros HX Hb. destruct (summary_pos_blk X HX) as [_ ?].
  apply summary_blk; [lia|]. split; [lia|].
  replace (head w / 64 - (head w / 64 - X / 64)) with (X / 64) by lia.
  rewrite ubit_split in Hb. by apply bit_nonzero in Hb.
Qed.

Lemma set_nonempty_summary : wnd_set w ≠ ∅ → summary w ≠ 0.
Proof using Hwf.
  intros [s Hs]%set_choose_L. apply elem_of_wnd_set in Hs as (X & HX & -> & Hb).
  eapply bit_nonzero, summary_of_ubit; done.
Qed.

Lemma wnd_empty_spec : wnd_empty w = true ↔ wnd_set w = ∅.
Proof using Hwf.
  unfold wnd_empty. rewrite Z.eqb_eq, (wf_count w Hwf).
  split; intros H.
  - apply leibniz_equiv, size_empty_iff. lia.
  - by rewrite H, size_empty.
Qed.

(** ** Searches *)

(** Marks at or before [X] in its own block are the low bits of the word. *)
Lemma before_word X i :
  0 ≤ i < 64 →
  Z.testbit (shl64 (blk w (X / 64)) (64 - 1 - X mod 64)) i =
  (bool_decide (63 - i ≤ X mod 64) && ubit w (X - (63 - i))).
Proof using Hwf.
  intros Hi. rewrite testbit_shl64 by lia. rewrite bool_decide_eq_true_2 by lia. simpl.
  case_bool_decide.
  - rewrite ubit_split. replace ((X - (63 - i)) / 64) with (X / 64) by (zify_div; lia).
    simpl. f_equal. zify_div; lia.
  - apply Z.testbit_neg_r. lia.
Qed.

Lemma after_word X i :
  0 ≤ i →
  Z.testbit (Z.shiftr (blk w (X / 64)) (X mod 64)) i =
  (bool_decide (i + X mod 64 < 64) && ubit w (X + i)).
Proof using Hwf.
  intros Hi. rewrite Z.shiftr_spec by lia. case_bool_decide.
  - rewrite ubit_split. replace ((X + i) / 64) with (X / 64) by (zify_div; lia).
    simpl. f_equal. zify_div; lia.
  - apply (testbit_high _ 64); [apply blk_range|lia].
Qed.

Lemma ubit_block_nonzero X : ubit w X = true → blk w (X / 64) ≠ 0.
Proof using Type. rewrite ubit_split. apply bit_nonzero. Qed.

(** The word the code looks at first, when it has no mark on the right side. *)
Lemma before_word_zero X :
  shl64 (blk w (X / 64)) (64 - 1 - X mod 64) = 0 →
  ∀ Y, Y ≤ X → Y / 64 = X / 64 → ubit w Y = false.
Proof using Hwf.
  intros E Y HY HB. replace Y with (X - (63 - (63 - (X - Y)))) by lia.
  pose proof (before_word X (63 - (X - Y))) as Hb.
  rewrite E, Z.bits_0, bool_decide_eq_true_2 in Hb by (zify_div; lia).
  symmetry. apply Hb. zify_div; lia.
Qed.

Lemma after_word_zero X :
  Z.shiftr (blk w (X / 64)) (X mod 64) = 0 →
  ∀ Y, X ≤ Y → Y / 64 = X / 64 → ubit w Y = false.
Proof using Hwf.
  intros E Y HY HB. replace Y with (X + (Y - X)) by lia.
  pose proof (after_word X (Y - X)) as Hb.
  rewrite E, Z.bits_0, bool_decide_eq_true_2 in Hb by (zify_div; lia).
  symmetry. apply Hb. lia.
Qed.

(** ... and when it has one: the closest mark is in that word. *)
Lemma before_word_hit X :
  head w - 192 < X ≤ head w →
  shl64 (blk w (X / 64)) (64 - 1 - X mod 64) ≠ 0 →
  ∃ k, __fls (shl64 (blk w (X / 64)) (64 - 1 - X mod 64)) = Some k ∧ 0 ≤ k < 64 ∧
    head w - 192 < X - (63 - k) ∧ ubit w (X - (63 - k)) = true ∧
    ∀ Y, X - (63 - k) < Y ≤ X → ubit w Y = false.
Proof using Hwf.
  intros HX E. destruct (fls_spec _ 64 (shl64_range _ _) E) as (k & Hf & Hk & Hkb & Hkh).
  exists k. rewrite before_word in Hkb by lia.
  apply andb_true_iff in Hkb as [Hko%bool_decide_eq_true Hkb].
  pose proof (ubit_inside _ Hkb). split_and!; [done|lia|lia|zify_div; lia|done|].
  intros Y HY. specialize (Hkh (63 - (X - Y))).
  rewrite before_word, bool_decide_eq_true_2 in Hkh by lia. simpl in Hkh.
  replace Y with (X - (63 - (63 - (X - Y)))) by lia. apply Hkh. lia.
Qed.

Lemma after_word_hit X :
  head w - 192 < X ≤ head w →
  Z.shiftr (blk w (X / 64)) (X mod 64) ≠ 0 →
  let k := __ffs (Z.shiftr (blk w (X / 64)) (X mod 64)) in
  0 ≤ k < 64 ∧ X + k ≤ head w ∧ ubit w (X + k) = true ∧
  ∀ Y, X ≤ Y < X + k → ubit w Y = false.
Proof using Hwf.
  intros HX E k. assert (0 ≤ X mod 64 < 64) by (zify_div; lia).
  assert (0 ≤ Z.shiftr (blk w (X / 64)) (X mod 64) < 2 ^ 64) as Hr.
  { apply shiftr_range; [apply blk_range|lia]. }
  destruct (ffs_spec _ 64 Hr E) as (Hk & Hkb & Hkl). fold k in Hk, Hkb, Hkl.
  rewrite after_word in Hkb by lia.
  apply andb_true_iff in Hkb as [Hko%bool_decide_eq_true Hkb].
  pose proof (ubit_inside _ Hkb). split_and!; [lia|lia|zify_div; lia|done|].
  intros Y HY. specialize (Hkl (Y - X)).
  rewrite after_word, bool_decide_eq_true_2 in Hkl by lia. simpl in Hkl.
  replace Y with (X + (Y - X)) by lia. apply Hkl. lia.
Qed.

(** The summary shifted so that only older (newer) blocks remain. *)
Lemma before_summary X i :
  head w - 192 < X ≤ head w → 0 ≤ i →
  Z.testbit (Z.land (Z.shiftr (summary w) (head w / 64 - X / 64)) (not64 1)) i = true ↔
  1 ≤ i ∧ head w / 64 - X / 64 + i < 4 ∧ blk w (X / 64 - i) ≠ 0.
Proof using Hwf.
  intros HX Hi. destruct (summary_pos_blk X HX) as [_ Hk].
  rewrite Z.land_spec, andb_true_iff, Z.shiftr_spec, summary_blk by lia.
  replace (head w / 64 - (i + (head w / 64 - X / 64))) with (X / 64 - i) by lia.
  destruct (decide (i < 64)); [|split; intros; lia].
  rewrite testbit_not64, negb_true_iff by lia. change 1 with (2 ^ 0) at 1.
  rewrite testbit_pow2, bool_decide_eq_false by lia.
  split; intros; destruct_and!; split_and!; lia || done.
Qed.

Lemma after_summary X i :
  head w - 192 < X ≤ head w → 0 ≤ i →
  Z.testbit (Z.land (shl64 (summary w) (64 - 1 - (head w / 64 - X / 64))) (2 ^ 63 - 1)) i = true ↔
  i < 63 ∧ 63 - i ≤ head w / 64 - X / 64 ∧ blk w (X / 64 + (63 - i)) ≠ 0.
Proof using Hwf.
  intros HX Hi. destruct (summary_pos_blk X HX) as [_ Hk].
  change (2 ^ 63 - 1) with (Z.ones 63).
  rewrite Z.land_spec, andb_true_iff, testbit_shl64, andb_true_iff, bool_decide_eq_true by lia.
  destruct (decide (i < 63)); [|rewrite Z.ones_spec_high by lia; naive_solver lia].
  rewrite Z.ones_spec_low by lia.
  destruct (decide (63 - i ≤ head w / 64 - X / 64)).
  - rewrite summary_blk by lia.
    replace (head w / 64 - (i - (64 - 1 - (head w / 64 - X / 64)))) with (X / 64 + (63 - i)) by lia.
    split; intros; destruct_and!; split_and!; lia || done.
  - rewrite Z.testbit_neg_r by lia. split; intros; destruct_and!; lia || done.
Qed.

(** [wnd_at_or_before] inside the window, in unwrapped coordinates. *)
Lemma at_or_before_unwrapped X :
  head w - 192 < X ≤ head w →
  ∃ r, wnd_at_or_before (C:=C) (u64 X) w = Some (r, w, []) ∧
    (r = -1 ∧ (∀ Y, head w - 192 < Y ≤ X → ubit w Y = false) ∨
     0 ≤ r ∧ head w - 192 < X - r ∧ ubit w (X - r) = true ∧
     ∀ Y, X - r < Y ≤ X → ubit w Y = false).
Proof using Hwf.
  intros HX. pose proof (wf_head w Hwf) as Hh.
  unfold wnd_at_or_before. munfold.
  rewrite (proj2 (time_after64_false _ _)) by mlia.
  rewrite (proj2 (time_before_eq64_false _ _)) by (wconst; mlia).
  destruct (summary_pos_blk X HX) as [-> Hk].
  rewrite wnd_pos_mod, u64_mod_256. wconst.
  replace (X mod 256 mod 64) with (X mod 64) by (zify_div; lia).
  replace (X mod 256 / 64) with (X / 64 mod 4) by (zify_div; lia).
  fold (blk w (X / 64)).
  destruct (Z.eqb_spec (shl64 (blk w (X / 64)) (64 - 1 - X mod 64)) 0) as [E1|E1]; simpl.
  2:{ destruct (before_word_hit X HX E1) as (k & -> & Hk0 & Hin & Hb & Hno).
      exists (63 - k). split; [repeat f_equal; mlia|]. right. split_and!; done || lia. }
  pose proof (before_word_zero X E1) as Hsame.
  set (t2 := Z.land _ _). pose proof (before_summary X) as Ht2b. fold t2 in Ht2b.
  assert (Hold : ∀ Y, head w - 192 < Y ≤ X → ubit w Y = true →
            1 ≤ X / 64 - Y / 64 ∧ Z.testbit t2 (X / 64 - Y / 64) = true).
  { intros Y HY Hb. assert (Y / 64 ≠ X / 64).
    { intros HB. rewrite Hsame in Hb by (done || lia). done. }
    split; [zify_div; lia|]. apply Ht2b; [done|zify_div; lia|].
    split_and!; [zify_div; lia|zify_div; lia|].
    replace (X / 64 - (X / 64 - Y / 64)) with (Y / 64) by lia. by apply ubit_block_nonzero. }
  assert (0 ≤ t2 < 2 ^ 64) as Ht2.
  { apply land_range; [apply shiftr_range; [apply (wf_summary_range w Hwf)|lia]|done|lia]. }
  destruct (Z.eqb_spec t2 0) as [E2|E2]; simpl.
  - exists (-1). split; [done|]. left. split; [done|]. intros Y HY.
    apply not_true_is_false. intros Hb. destruct (Hold Y HY Hb) as [_ Ht].
    by rewrite E2, Z.bits_0 in Ht.
  - destruct (ffs_spec t2 64 Ht2 E2) as (Hi & Hib & Hil). set (i := __ffs t2) in *.
    apply Ht2b in Hib as (Hi1 & Hi4 & Hne); [|done|lia].
    replace (u32 (X / 64 mod 4 - i) mod 4) with ((X / 64 - i) mod 4) by mlia.
    fold (blk w (X / 64 - i)).
    destruct (fls_spec _ 64 (blk_range (X / 64 - i)) Hne) as (f & -> & Hf & Hfb & Hfh).
    rewrite <- ubit_blk in Hfb by lia.
    exists (64 * i + X mod 64 - f). split; [repeat f_equal; mlia|]. right.
    replace (X - (64 * i + X mod 64 - f)) with (64 * (X / 64 - i) + f) by (zify_div; lia).
    pose proof (ubit_inside _ Hfb). split_and!; [zify_div; lia|zify_div; lia|done|].
    intros Y HY. apply not_true_is_false. intros Hb.
    destruct (Hold Y ltac:(zify_div; lia) Hb) as [HY1 Ht].
    destruct (decide (Y / 64 = X / 64 - i)) as [HB|HB].
    + rewrite ubit_split, HB, Hfh in Hb; [done|]. zify_div; lia.
    + rewrite Hil in Ht; [done|]. zify_div; lia.
Qed.

(** The earliest mark. *)
Lemma earliest_unwrapped :
  wnd_set w ≠ ∅ →
  ∃ X, wnd_earliest_marked (C:=C) w = Some (u64 X, w, []) ∧
    head w - 192 < X ≤ head w ∧ ubit w X = true ∧
    ∀ Y, head w - 192 < Y < X → ubit w Y = false.
Proof using Hwf.
  intros Hne. unfold wnd_earliest_marked. munfold.
  destruct (fls_spec _ 64 (wf_summary_range w Hwf) (set_nonempty_summary Hne))
    as (k & -> & Hk & Hkb & Hkh).
  apply summary_blk in Hkb as [Hk4 Hb0]; [|lia].
  wconst. rewrite head_word_blk.
  replace (u32 (head w / 64 mod 4 - k) mod 4) with ((head w / 64 - k) mod 4) by mlia.
  fold (blk w (head w / 64 - k)).
  destruct (ffs_spec _ 64 (blk_range _) Hb0) as (Hf & Hfb & Hfl).
  set (f := __ffs _) in *. rewrite <- ubit_blk in Hfb by done.
  change (64 - 1) with 63. rewrite land_not63 by apply (wf_head w Hwf).
  pose proof (ubit_inside _ Hfb).
  exists (64 * (head w / 64 - k) + f). split_and!; [repeat f_equal; lia|zify_div; lia|zify_div; lia|done|].
  intros Y HY. apply not_true_is_false. intros Hb.
  destruct (decide (Y / 64 = head w / 64 - k)) as [HB|HB].
  - rewrite ubit_split, HB, Hfl in Hb; [done|]. zify_div; lia.
  - pose proof (summary_of_ubit Y ltac:(zify_div; lia) Hb) as Ht.
    rewrite Hkh in Ht; [done|]. zify_div; lia.
Qed.

Lemma at_or_after_unwrapped X :
  head w - 192 < X ≤ head w →
  (wnd_at_or_after (C:=C) (u64 X) w = Some (None, w, []) ∧
     ∀ Y, X ≤ Y ≤ head w → ubit w Y = false) ∨
  ∃ T, wnd_at_or_after (C:=C) (u64 X) w = Some (Some (u64 T), w, []) ∧
    X ≤ T ≤ head w ∧ ubit w T = true ∧ ∀ Y, X ≤ Y < T → ubit w Y = false.
Proof using Hwf.
  intros HX. pose proof (wf_head w Hwf) as Hh.
  unfold wnd_at_or_after, wnd_seq_after, wnd_seq_before, wnd_head, wnd_edge. munfold.
  rewrite (proj2 (time_after64_false _ _)) by mlia.
  rewrite (proj2 (time_before64_false _ _)) by (wconst; mlia).
  destruct (summary_pos_blk X HX) as [-> Hk].
  rewrite wnd_pos_mod, u64_mod_256. wconst.
  replace (X mod 256 mod 64) with (X mod 64) by (zify_div; lia).
  replace (X mod 256 / 64) with (X / 64 mod 4) by (zify_div; lia).
  fold (blk w (X / 64)).
  destruct (Z.eqb_spec (Z.shiftr (blk w (X / 64)) (X mod 64)) 0) as [E1|E1]; simpl.
  2:{ destruct (after_word_hit X HX E1) as (Hk0 & Hin & Hb & Hno).
      right. exists (X + __ffs (Z.shiftr (blk w (X / 64)) (X mod 64))).
      rewrite u64_add_l. split_and!; done || lia. }
  pose proof (after_word_zero X E1) as Hsame.
  set (t2 := Z.land _ _). pose proof (after_summary X) as Ht2b. fold t2 in Ht2b.
  assert (Hnew : ∀ Y, X ≤ Y ≤ head w → ubit w Y = true →
            1 ≤ Y / 64 - X / 64 ∧ Z.testbit t2 (63 - (Y / 64 - X / 64)) = true).
  { intros Y HY Hb. assert (Y / 64 ≠ X / 64).
    { intros HB. rewrite Hsame in Hb by (done || lia). done. }
    split; [zify_div; lia|]. apply Ht2b; [done|zify_div; lia|].
    split_and!; [zify_div; lia|zify_div; lia|].
    replace (X / 64 + (63 - (63 - (Y / 64 - X / 64)))) with (Y / 64) by lia.
    by apply ubit_block_nonzero. }
  assert (0 ≤ t2 < 2 ^ 64) as Ht2 by (apply land_range; [apply shl64_range|lia|lia]).
  destruct (Z.eqb_spec t2 0) as [E2|E2]; simpl.
  - left. split; [done|]. intros Y HY.
    apply not_true_is_false. intros Hb. destruct (Hnew Y HY Hb) as [_ Ht].
    by rewrite E2, Z.bits_0 in Ht.
  - destruct (fls_spec t2 64 Ht2 E2) as (i & -> & Hi & Hib & Hih).
    apply Ht2b in Hib as (Hi1 & Hi4 & Hne); [|done|lia].
    replace (u32 (X / 64 mod 4 + (64 - 1 - i)) mod 4) with ((X / 64 + (63 - i)) mod 4) by mlia.
    fold (blk w (X / 64 + (63 - i))).
    destruct (ffs_spec _ 64 (blk_range (X / 64 + (63 - i))) Hne) as (Hf & Hfb & Hfl).
    set (f := __ffs (blk _ _)) in *. rewrite <- ubit_blk in Hfb by lia.
    right. exists (64 * (X / 64 + (63 - i)) + f).
    split; [do 4 f_equal; mlia|].
    pose proof (ubit_inside _ Hfb). split_and!; [zify_div; lia|zify_div; lia|done|].
    intros Y HY. apply not_true_is_false. intros Hb.
    destruct (Hnew Y ltac:(zify_div; lia) Hb) as [HY1 Ht].
    destruct (decide (Y / 64 = X / 64 + (63 - i))) as [HB|HB].
    + rewrite ubit_split, HB, Hfl in Hb; [done|]. zify_div; lia.
    + rewrite Hih in Ht; [done|]. zify_div; lia.
Qed.
End facts.

(** ** Rebuilding the invariant *)
Lemma wf_intro w :
  length (marked w) = 4%nat → Forall (λ x, 0 ≤ x < 2 ^ 64) (marked w) →
  0 ≤ head w < 2 ^ 64 → head_word w = head w / 64 mod 4 →
  (∀ X, head w - 256 < X ≤ head w → ubit w X = true → head w - 192 < X) →
  0 ≤ summary w < 2 ^ 64 →
  (∀ i, 0 ≤ i → Z.testbit (summary w) i = true ↔ i < 4 ∧ blk w (head w / 64 - i) ≠ 0) →
  num_marked w = Z.of_nat (size (wnd_set w)) → wnd_wf w.
Proof.
  intros Hl Hw Hh Hhw Hin Hsr Hs Hn. constructor; try done.
  - rewrite Hhw. zify_div; lia.
  - intros p Hp Hb. set (X := head w - (head w - p) mod 256).
    assert (X mod 256 = p) as HX by (unfold X; zify_div; lia).
    assert (head w - 192 < X); [|unfold X in *; lia].
    apply Hin; [unfold X; zify_div; lia|]. unfold ubit. by rewrite HX.
  - intros i Hi. rewrite Hs by done. unfold blk. rewrite Hhw.
    by replace ((head w / 64 mod 4 - i) mod 4) with ((head w / 64 - i) mod 4) by (zify_div; lia).
Qed.

Lemma blk_nonzero w B :
  wnd_wf w → blk w B ≠ 0 ↔ ∃ X, X / 64 = B ∧ ubit w X = true.
Proof.
  intros Hwf. split.
  - intros Hne. destruct (nonzero_has_bit _ 64 (blk_range w Hwf B) Hne) as (o & Ho & Hb).
    exists (64 * B + o). split; [zify_div; lia|]. by rewrite ubit_blk.
  - intros (X & <- & Hb). by apply ubit_block_nonzero.
Qed.

Lemma NoDup_wnd_range w : NoDup (wnd_range w).
Proof.
  unfold wnd_range. apply NoDup_fmap_2_strong; [|apply NoDup_seqZ].
  intros x y Hx%elem_of_seqZ Hy%elem_of_seqZ E. wconst. revert Hx Hy E. clear. mlia.
Qed.

Lemma size_wnd_set w : 0 ≤ Z.of_nat (size (wnd_set w)) ≤ 192.
Proof.
  split; [lia|]. unfold wnd_set. rewrite size_list_to_set.
  - apply (Nat2Z.inj_le _ 192). etrans; [apply length_filter|].
    unfold wnd_range. by rewrite length_fmap, length_seqZ.
  - apply NoDup_filter, NoDup_wnd_range.
Qed.

(** Two windows with the same head that agree on the ring bits. *)
Lemma wnd_set_update w w' (P : Z → Prop) :
  head w' = head w →
  (∀ X, head w - 192 < X ≤ head w → ubit w' X = true ↔ P (u64 X)) →
  ∀ s, s ∈ wnd_set w' ↔ (∃ X, head w - 192 < X ≤ head w ∧ s = u64 X) ∧ P s.
Proof.
  intros Hh HP s. rewrite elem_of_wnd_set, Hh. split.
  - intros (X & HX & -> & Hb). split; [eauto|]. by apply HP.
  - intros ((X & HX & ->) & Hp). exists X. split_and!; try done; try lia. by apply HP.
Qed.

(** ** Single-bit updates *)
Lemma testbit_set_summary_bit k S i :
  0 ≤ k < 64 → 0 ≤ i → Z.testbit (set_summary_bit k S) i = bool_decide (i = k) || Z.testbit S i.
Proof.
  intros Hk Hi. unfold set_summary_bit, __set_bit. rewrite bit_mask_pow2. wconst.
  replace (k / 64) with 0 by (zify_div; lia). rewrite Z.mod_small by lia.
  change (arr_get (arr_set [S] 0 (Z.lor (arr_get [S] 0) (2 ^ k))) 0) with (Z.lor S (2 ^ k)).
  by rewrite Z.lor_spec, testbit_pow2, orb_comm by lia.
Qed.

Lemma set_summary_bit_range k S :
  0 ≤ k < 64 → 0 ≤ S < 2 ^ 64 → 0 ≤ set_summary_bit k S < 2 ^ 64.
Proof.
  intros Hk HS. unfold set_summary_bit, __set_bit. rewrite bit_mask_pow2. wconst.
  replace (k / 64) with 0 by (zify_div; lia). rewrite Z.mod_small by lia.
  change (arr_get (arr_set [S] 0 (Z.lor (arr_get [S] 0) (2 ^ k))) 0) with (Z.lor S (2 ^ k)).
  apply lor_range; [done| |lia]. split; [apply Z.pow_nonneg; lia|]. apply Z.pow_lt_mono_r; lia.
Qed.

Lemma testbit_clear_summary_bit k S i :
  0 ≤ k < 64 → 0 ≤ S < 2 ^ 64 → 0 ≤ i →
  Z.testbit (clear_summary_bit k S) i = negb (bool_decide (i = k)) && Z.testbit S i.
Proof.
  intros Hk HS Hi. unfold clear_summary_bit, __clear_bit. rewrite bit_mask_pow2. wconst.
  replace (k / 64) with 0 by (zify_div; lia). rewrite Z.mod_small by lia.
  change (arr_get (arr_set [S] 0 (Z.land (arr_get [S] 0) (not64 (2 ^ k)))) 0)
    with (Z.land S (not64 (2 ^ k))).
  rewrite Z.land_spec. destruct (decide (i < 64)).
  - by rewrite testbit_not64, testbit_pow2, andb_comm by lia.
  - rewrite (testbit_high S 64) by (done || lia). by rewrite andb_false_r.
Qed.

Lemma clear_summary_bit_range k S :
  0 ≤ k < 64 → 0 ≤ S < 2 ^ 64 → 0 ≤ clear_summary_bit k S < 2 ^ 64.
Proof.
  intros Hk HS. unfold clear_summary_bit, __clear_bit. rewrite bit_mask_pow2. wconst.
  replace (k / 64) with 0 by (zify_div; lia). rewrite Z.mod_small by lia.
  change (arr_get (arr_set [S] 0 (Z.land (arr_get [S] 0) (not64 (2 ^ k)))) 0)
    with (Z.land S (not64 (2 ^ k))).
  apply land_range; [done| |lia]. unfold not64. apply Z.lxor_nonneg.
  split; [lia|]. intros _. apply Z.pow_nonneg. lia.
Qed.

Lemma words_set_bit nr m :
  length m = 4%nat → 0 ≤ nr < 256 → Forall (λ x, 0 ≤ x < 2 ^ 64) m →
  Forall (λ x, 0 ≤ x < 2 ^ 64) (__set_bit nr m).
Proof.
  intros Hl Hnr Hm. unfold __set_bit. apply arr_set_Forall; [done|].
  apply lor_range; [|rewrite bit_mask_pow2|lia].
  - apply (arr_get_Forall (λ x, 0 ≤ x < 2 ^ 64)); [done|]. wconst. zify_div; lia.
  - split; [apply Z.pow_nonneg; lia|]. apply Z.pow_lt_mono_r; zify_div; lia.
Qed.

Lemma words_clear_bit nr m :
  length m = 4%nat → 0 ≤ nr < 256 → Forall (λ x, 0 ≤ x < 2 ^ 64) m →
  Forall (λ x, 0 ≤ x < 2 ^ 64) (__clear_bit nr m).
Proof.
  intros Hl Hnr Hm. unfold __clear_bit. apply arr_set_Forall; [done|].
  apply land_range; [|rewrite bit_mask_pow2|lia].
  - apply (arr_get_Forall (λ x, 0 ≤ x < 2 ^ 64)); [done|]. wconst. zify_div; lia.
  - unfold not64. apply Z.lxor_nonneg. split; [lia|]. intros _. apply Z.pow_nonneg; zify_div; lia.
Qed.

(** What [wnd_mark] and [wnd_clear] have in common: the ring bit of one
    sequence number takes a new value. *)
Record bit_update (w w' : fp_window) (X : Z) (b : bool) : Prop := {
  bu_head : head w' = head w;
  bu_head_word : head_word w' = head_word w;
  bu_len : length (marked w') = 4%nat;
  bu_words : Forall (λ x, 0 ≤ x < 2 ^ 64) (marked w');
  bu_bit : ∀ Y, ubit w' Y = if bool_decide (Y mod 256 = X mod 256) then b else ubit w Y;
}.

Section bit_update.
Context (w w' : fp_window) (X : Z) (b : bool).
Context (Hwf : wnd_wf w) (HX : head w - 192 < X ≤ head w) (Hu : bit_update w w' X b).

Lemma bit_update_set :
  wnd_set w' = if b then {[ u64 X ]} ∪ wnd_set w else wnd_set w ∖ {[ u64 X ]}.
Proof using Hwf HX Hu.
  apply set_eq. intros t.
  assert (t ∈ wnd_set w' ↔ if bool_decide (t = u64 X) then b = true else t ∈ wnd_set w) as ->.
  { rewrite elem_of_wnd_set, (bu_head _ _ _ _ Hu). case_bool_decide as E.
    - split.
      + intros (Y & HY & -> & Hb). rewrite (bu_bit _ _ _ _ Hu) in Hb.
        rewrite bool_decide_eq_true_2 in Hb; [done|]. revert E. clear. mlia.
      + intros ->. exists X. split_and!; [lia|lia|done|].
        by rewrite (bu_bit _ _ _ _ Hu), bool_decide_eq_true_2.
    - rewrite elem_of_wnd_set.
      split; intros (Y & HY & -> & Hb); exists Y; split_and!; try done; try lia.
      all: rewrite (bu_bit _ _ _ _ Hu), bool_decide_eq_false_2 in *; try done.
      all: intros E'; apply E; f_equal; zify_div; lia. }
  case_bool_decide; destruct b; set_solver.
Qed.

Lemma bit_update_blk B : B mod 4 ≠ X / 64 mod 4 → blk w' B = blk w B.
Proof using Hwf HX Hu.
  intros HB. apply (bits_eq_below 64).
  - apply (arr_get_Forall (λ x, 0 ≤ x < 2 ^ 64)); [apply (bu_words _ _ _ _ Hu)|].
    rewrite (bu_len _ _ _ _ Hu). zify_div; lia.
  - by apply blk_range.
  - intros o Ho. rewrite <- !ubit_blk, (bu_bit _ _ _ _ Hu) by done.
    rewrite bool_decide_eq_false_2; [done|]. zify_div; lia.
Qed.

Lemma bit_update_wf :
  0 ≤ summary w' < 2 ^ 64 →
  (∀ i, 0 ≤ i → Z.testbit (summary w') i =
     if bool_decide (i = head w / 64 - X / 64) then bool_decide (blk w' (X / 64) ≠ 0)
     else Z.testbit (summary w) i) →
  num_marked w' = Z.of_nat (size (wnd_set w')) →
  wnd_wf w'.
Proof using Hwf HX Hu.
  intros Hsr Hs Hn. destruct (summary_pos_blk w Hwf X HX) as [_ Hk].
  pose proof Hu as [Eh Ehw El Ew Eb]. apply wf_intro; rewrite ?Eh; try done.
  - apply (wf_head w Hwf).
  - rewrite Ehw. apply (head_word_blk w Hwf).
  - intros Y HY. rewrite Eb.
    destruct (bool_decide_reflect (Y mod 256 = X mod 256)); [intros _; zify_div; lia|].
    intros Hb%(ubit_inside w Hwf). zify_div; lia.
  - intros i Hi. rewrite Hs by done.
    destruct (bool_decide_reflect (i = head w / 64 - X / 64)) as [E|E].
    + rewrite E, bool_decide_eq_true.
      replace (head w / 64 - (head w / 64 - X / 64)) with (X / 64) by lia. naive_solver lia.
    + rewrite (summary_blk w Hwf) by done. destruct (decide (i < 4)); [|naive_solver lia].
      rewrite bit_update_blk; [done|]. zify_div; lia.
Qed.
End bit_update.

(** An in-window sequence number and its unwrapped position. *)
Lemma in_window_unwrap w s :
  wnd_wf w → 0 ≤ s < 2 ^ 64 → age w s < 192 →
  ∃ X, head w - 192 < X ≤ head w ∧ s = u64 X ∧ wnd_pos s = X mod 256.
Proof.
  intros Hwf Hs Ha. pose proof (wf_head w Hwf). exists (head w - age w s).
  rewrite wnd_pos_mod. unfold age in *. split_and!; mlia.
Qed.

(** [wnd_mark] on an unmarked sequence number of the window: no check fails, the
    number joins the set, the invariant is preserved. *)
Lemma wnd_mark_spec {C} w s :
  wnd_wf w → 0 ≤ s < 2 ^ 64 → age w s < 192 → s ∉ wnd_set w →
  ∃ w', wnd_mark (C:=C) s w = Some (tt, w', []) ∧ wnd_wf w' ∧
    head w' = head w ∧ wnd_set w' = {[ s ]} ∪ wnd_set w ∧
    marked w' = __set_bit (s mod 256) (marked w).
Proof.
  intros Hwf Hs Ha Hnin. pose proof (wf_len w Hwf) as Hl.
  destruct (in_window_unwrap w s Hwf Hs Ha) as (X & HX & EX & Hp).
  assert (wnd_is_marked w s = false) as Em.
  { apply not_true_is_false. intros Hm. apply Hnin, elem_of_wnd_set_age; done. }
  unfold wnd_mark. munfold. rewrite Em. simpl.
  destruct (summary_pos_blk w Hwf X HX) as [Esp Hk]. rewrite <- EX in Esp. rewrite Esp, Hp.
  eexists. split; [done|]. set (w' := set_num_marked _ _).
  assert (bit_update w w' X true) as Hu.
  { split; try done.
    - simpl. unfold __set_bit. by rewrite length_arr_set.
    - apply words_set_bit; [done|zify_div; lia|apply (wf_words w Hwf)].
    - intros Y. unfold ubit. simpl. rewrite wbit_set_bit by (rewrite ?Hl; zify_div; lia).
      by case_bool_decide. }
  pose proof (bit_update_set w w' X true Hwf HX Hu) as Hset. simpl in Hset.
  split_and!; [|done|by rewrite EX|rewrite EX, u64_mod_256; done].
  apply (bit_update_wf w w' X true Hwf HX Hu).
  - apply set_summary_bit_range; [lia|apply (wf_summary_range w Hwf)].
  - intros i Hi. simpl. rewrite testbit_set_summary_bit by lia.
    case_bool_decide; [|done]. simpl. symmetry. apply bool_decide_eq_true.
    apply ubit_block_nonzero. by rewrite (bu_bit _ _ _ _ Hu), bool_decide_eq_true_2.
  - rewrite Hset, <- EX, size_union, size_singleton by set_solver. simpl.
    rewrite (wf_count w Hwf). pose proof (size_wnd_set w). rewrite u32_small by lia. lia.
Qed.

(** [wnd_clear] on a marked sequence number removes it from the set. *)
Lemma wnd_clear_spec {C} w s :
  wnd_wf w → s ∈ wnd_set w →
  ∃ w', wnd_clear (C:=C) s w = Some (tt, w', []) ∧ wnd_wf w' ∧
    head w' = head w ∧ wnd_set w' = wnd_set w ∖ {[ s ]} ∧
    marked w' = __clear_bit (s mod 256) (marked w).
Proof.
  intros Hwf Hin. pose proof (wf_len w Hwf) as Hl.
  apply elem_of_wnd_set_age in Hin as Hs; [|done]. destruct Hs as (Hs & Ha & Em).
  destruct (in_window_unwrap w s Hwf Hs Ha) as (X & HX & EX & Hp).
  unfold wnd_clear. munfold. rewrite Em. simpl.
  destruct (summary_pos_blk w Hwf X HX) as [Esp Hk]. rewrite <- EX in Esp.
  unfold summary_pos in *. simpl. rewrite Esp, Hp. wconst.
  replace (X mod 256 / 64) with (X / 64 mod 4) by (zify_div; lia).
  set (m' := __clear_bit (X mod 256) (marked w)).
  set (w' := {| marked := m';
    summary := if arr_get m' (X / 64 mod 4) =? 0
               then clear_summary_bit (head w / 64 - X / 64) (summary w) else summary w;
    head := head w; head_word := head_word w; num_marked := u32 (num_marked w - 1) |}).
  exists w'. split; [unfold w'; destruct (_ =? _); done|].
  assert (bit_update w w' X false) as Hu.
  { split; try done.
    - simpl. unfold m', __clear_bit. by rewrite length_arr_set.
    - apply words_clear_bit; [done|zify_div; lia|apply (wf_words w Hwf)].
    - intros Y. unfold ubit. simpl. unfold m'.
      rewrite wbit_clear_bit by (rewrite ?Hl; zify_div; lia). by case_bool_decide. }
  pose proof (bit_update_set w w' X false Hwf HX Hu) as Hset. simpl in Hset.
  split_and!; [|done|by rewrite EX|simpl; rewrite EX, u64_mod_256; done].
  apply (bit_update_wf w w' X false Hwf HX Hu).
  - simpl. destruct (_ =? _); [apply clear_summary_bit_range; [lia|]|]; apply (wf_summary_range w Hwf).
  - intros i Hi. simpl. change (arr_get m' (X / 64 mod 4)) with (blk w' (X / 64)).
    assert (Z.testbit (summary w) (head w / 64 - X / 64) = true) as Hsb.
    { apply summary_of_ubit; [done|done|]. apply ubit_elem; [done|]. by rewrite <- EX. }
    destruct (Z.eqb_spec (blk w' (X / 64)) 0) as [E|E].
    + rewrite testbit_clear_summary_bit by (done || apply (wf_summary_range w Hwf) || lia).
      rewrite (bool_decide_eq_false_2 (blk w' _ ≠ 0)) by tauto.
      by destruct (bool_decide _).
    + rewrite (bool_decide_eq_true_2 (blk w' _ ≠ 0)) by done.
      destruct (bool_decide_reflect (i = head w / 64 - X / 64)) as [->|]; done.
  - rewrite Hset, <- EX. simpl. rewrite size_difference by set_solver.
    rewrite size_singleton, (wf_count w Hwf). pose proof (size_wnd_set w).
    assert (size (wnd_set w) ≠ 0%nat) by (apply size_non_empty_iff; set_solver).
    rewrite u32_small by lia. lia.
Qed.
