(* ===== verification/WindowSpec.v ===== *)
(** * Specification of the sliding window

    The effect of every operation of [Window] on the set of marked sequence
    numbers, for all windows that satisfy the invariant: reset, advance, bulk
    marking, the 64-bit mask and the two searches.  The client-level theorems
    about window.h are at the end. *)

From S2P Require Import Prelude Platform Window WindowFacts.

(** ** Reset *)
Lemma wnd_reset_spec {C} w h :
  0 ≤ h < 2 ^ 64 →
  ∃ w', wnd_reset (C:=C) h w = Some (tt, w', []) ∧ wnd_wf w' ∧
    head w' = h ∧ wnd_set w' = ∅ ∧ marked w' = replicate 4 0.
Proof.
  intros Hh. eexists. split; [done|]. set (w' := {| marked := _ |}).
  assert (Hz : ∀ Y, ubit w' Y = false).
  { intros Y. unfold ubit, wbit. simpl. wconst.
    assert (0 ≤ Y mod 256 / 64 < 4) as HB by (zify_div; lia).
    rewrite (arr_get_Forall (λ x, x = 0) (replicate (Z.to_nat 4) 0));
      [apply Z.bits_0|by apply Forall_replicate|done]. }
  assert (wnd_set w' = ∅) as Hset.
  { apply set_eq. intros s. rewrite elem_of_wnd_set. split; [|set_solver].
    intros (X & _ & _ & Hb). by rewrite Hz in Hb. }
  split_and!; try done. apply wf_intro; try done.
  - by apply Forall_replicate.
  - simpl. rewrite wnd_pos_mod. wconst. zify_div; lia.
  - intros X _. by rewrite Hz.
  - intros i Hi. simpl. rewrite Z.bits_0. split; [done|]. intros [Hi4 Hb].
    exfalso. apply Hb. apply (bits_eq_below 64); [|lia|].
    + apply (arr_get_Forall (λ x, 0 ≤ x < 2 ^ 64)); [by apply Forall_replicate|zify_div; simpl; lia].
    + intros o Ho. by rewrite <- ubit_blk, Hz, Z.bits_0.
  - by rewrite Hset, size_empty.
Qed.

(** ** Advance *)
Section advance.
Context (w w' : fp_window) (n : Z).
Context (Hwf : wnd_wf w) (Hn : 0 ≤ n).
Context (Hages : ∀ s, s ∈ wnd_set w → age w s + n < 192).
Context (Hlen : length (marked w') = 4%nat).
Context (Hwords : Forall (λ x, 0 ≤ x < 2 ^ 64) (marked w')).
Context (Hbits : ∀ Y, ubit w' Y = ubit w Y).
Context (Hhead : head w' = head w + n).

(** Every ring bit is that of a mark which stays inside the moved window. *)
Lemma advance_near X :
  ubit w X = true → ∃ Y, Y mod 256 = X mod 256 ∧ head w' - 192 < Y ≤ head w ∧ ubit w Y = true.
Proof using Hwf Hages Hhead.
  clear Hlen Hwords Hbits. intros Hb. pose proof (ubit_inside w Hwf X Hb) as Hin.
  set (Y := head w - (head w - X) mod 256). exists Y.
  assert (Y mod 256 = X mod 256) as HY by (unfold Y; zify_div; lia).
  assert (ubit w Y = true) as HbY by (unfold ubit in *; by rewrite HY).
  assert (head w - 192 < Y ≤ head w) as HYr by (unfold Y; zify_div; lia).
  split_and!; [done| |lia|done].
  apply (ubit_elem w Y HYr) in HbY. apply Hages in HbY.
  rewrite age_unwrapped in HbY by lia. lia.
Qed.

Lemma advance_set : wnd_set w' = wnd_set w.
Proof using Hwf Hn Hages Hhead Hbits.
  clear Hlen Hwords. apply set_eq. intros s. rewrite !elem_of_wnd_set. split.
  - intros (X & HX & -> & Hb). rewrite Hbits in Hb.
    destruct (advance_near X Hb) as (Y & HYm & HY & HbY).
    replace X with Y by (zify_div; lia). exists Y. split_and!; done || lia.
  - intros (X & HX & -> & Hb). destruct (advance_near X Hb) as (Y & HYm & HY & HbY).
    replace X with Y by (zify_div; lia). exists Y. rewrite Hbits. split_and!; done || lia.
Qed.

Lemma advance_blk B : blk w' B = blk w B.
Proof using Hwf Hlen Hwords Hbits.
  apply (bits_eq_below 64); [|by apply blk_range|].
  - apply (arr_get_Forall (λ x, 0 ≤ x < 2 ^ 64)); [done|]. rewrite Hlen. zify_div; lia.
  - intros o Ho. by rewrite <- !ubit_blk, Hbits.
Qed.

Lemma advance_wf k :
  k = head w' / 64 - head w / 64 →
  head w' < 2 ^ 64 → head_word w' = head w' / 64 mod 4 →
  0 ≤ summary w' < 2 ^ 64 →
  (∀ i, 0 ≤ i → Z.testbit (summary w') i = bool_decide (i < 64) && Z.testbit (summary w) (i - k)) →
  num_marked w' = num_marked w →
  wnd_wf w'.
Proof using All.
  intros Hk Hlt Hhw Hsr Hs Hnm. pose proof (wf_head w Hwf).
  apply wf_intro; try done; try lia.
  - intros X HX. rewrite Hbits. intros Hb.
    destruct (advance_near X Hb) as (Y & HYm & HY & _). zify_div; lia.
  - intros i Hi. rewrite Hs, andb_true_iff, bool_decide_eq_true, advance_blk by done.
    replace (head w' / 64 - i) with (head w / 64 - (i - k)) by lia.
    split.
    + intros [Hi64 Hb]. assert (0 ≤ i - k).
      { destruct (decide (0 ≤ i - k)); [done|]. rewrite Z.testbit_neg_r in Hb by lia. done. }
      apply (summary_blk w Hwf) in Hb as [Hi4 Hb]; [|lia]. split; [|done].
      apply (blk_nonzero w _ Hwf) in Hb as (X & HXB & Hb).
      destruct (advance_near X Hb) as (Y & HYm & HY & _). zify_div; lia.
    + intros [Hi4 Hb]. split; [lia|].
      apply (blk_nonzero w _ Hwf) in Hb as HbX. destruct HbX as (X & HXB & HbX).
      destruct (advance_near X HbX) as (Y & HYm & HY & _).
      assert (0 ≤ i - k) by (zify_div; lia).
      apply (summary_blk w Hwf); [lia|]. split; [zify_div; lia|done].
  - by rewrite advance_set, Hnm, (wf_count w Hwf).
Qed.
End advance.

(** Without marks the ring is all zeros. *)
Lemma empty_ubit w : wnd_wf w → wnd_set w = ∅ → ∀ X, ubit w X = false.
Proof.
  intros Hwf He X. apply not_true_is_false. intros Hb.
  destruct (advance_near w (set_head (λ h, h + 0) w) 0 Hwf) with X as (Y & _ & HY & HbY); try done.
  - rewrite He. set_solver.
  - simpl in HY. apply (ubit_elem w Y) in HbY; [|lia]. rewrite He in HbY. set_solver.
Qed.

Lemma empty_summary w : wnd_wf w → wnd_set w = ∅ → summary w = 0.
Proof.
  intros Hwf He. apply Z.bits_inj'. intros i Hi. rewrite Z.bits_0.
  apply not_true_is_false. rewrite (summary_blk w Hwf) by done. intros [_ Hb].
  apply (blk_nonzero w _ Hwf) in Hb as (X & _ & Hb). by rewrite empty_ubit in Hb.
Qed.

Lemma advance_word_shift w n :
  wnd_wf w → 0 ≤ n → head w + n < 2 ^ 64 →
  u64 (BIT_WORD (u64 (head w + n)) - BIT_WORD (head w)) = (head w + n) / 64 - head w / 64.
Proof. intros Hwf Hn Hlt. pose proof (wf_head w Hwf). wconst. mlia. Qed.

(** The window after [wnd_advance], for the ring and summary it computes. *)
Definition moved (w : fp_window) (n : Z) (m : list Z) (sm : Z) : fp_window :=
  {| marked := m; summary := sm; head := u64 (head w + n);
     head_word := u64 (head_word w + ((head w + n) / 64 - head w / 64)) mod 4;
     num_marked := num_marked w |}.

Lemma moved_spec w n m sm :
  wnd_wf w → 0 ≤ n → head w + n < 2 ^ 64 →
  (∀ s, s ∈ wnd_set w → age w s + n < 192) →
  length m = 4%nat → Forall (λ x, 0 ≤ x < 2 ^ 64) m →
  (∀ Y, ubit (moved w n m sm) Y = ubit w Y) →
  sm = shl64 (summary w) ((head w + n) / 64 - head w / 64) →
  let w' := moved w n m sm in
  wnd_wf w' ∧ head w' = head w + n ∧ wnd_set w' = wnd_set w ∧ (∀ Y, ubit w' Y = ubit w Y).
Proof.
  intros Hwf Hn Hlt Hages Hl Hw Hb Hsm w'. pose proof (wf_head w Hwf) as Hh.
  assert (head w' = head w + n) as Hh' by (apply u64_small; lia).
  split_and!; [|done|by apply (advance_set w w' n)|done].
  apply (advance_wf w w' n) with ((head w + n) / 64 - head w / 64); rewrite ?Hh'; try done.
  - unfold w'. simpl. rewrite (head_word_blk w Hwf). mlia.
  - simpl. rewrite Hsm. apply shl64_range.
  - intros i Hi. simpl. by rewrite Hsm, testbit_shl64.
Qed.

Lemma ubit_zeros w n sm Y : ubit (moved w n (replicate 4 0) sm) Y = false.
Proof.
  destruct (wnd_reset_spec (C:=False) w 0) as (w0 & _ & Hwf0 & _ & He0 & Hm0); [lia|].
  change (ubit (moved w n (replicate 4 0) sm) Y) with (wbit (replicate 4 0) (Y mod 256)).
  rewrite <- Hm0. apply (empty_ubit w0 Hwf0 He0).
Qed.

(** [wnd_advance] with no 64-bit overflow of the head and no mark falling off:
    no check fails and the set of marks is unchanged. *)
Lemma wnd_advance_spec {C} w n :
  wnd_wf w → 0 ≤ n → head w + n < 2 ^ 64 →
  (∀ s, s ∈ wnd_set w → age w s + n < 192) →
  ∃ w', wnd_advance (C:=C) n w = Some (tt, w', []) ∧ wnd_wf w' ∧
    head w' = head w + n ∧ wnd_set w' = wnd_set w ∧ (∀ Y, ubit w' Y = ubit w Y).
Proof.
  intros Hwf Hn Hlt Hages. pose proof (wf_head w Hwf) as Hh.
  unfold wnd_advance. munfold. rewrite (advance_word_shift w n Hwf Hn Hlt). wconst.
  set (k := (head w + n) / 64 - head w / 64).
  destruct (decide (wnd_set w = ∅)) as [He|Hne].
  - assert (num_marked w = 0) as Hnm by (rewrite (wf_count w Hwf), He; done).
    assert (wnd_empty w = true) as -> by (by apply wnd_empty_spec).
    rewrite Hnm. simpl. rewrite Z.geb_leb. destruct (Z.leb_spec 4 k) as [Hk|Hk]; simpl.
    + eexists. split; [done|]. apply (moved_spec w n (replicate 4 0) 0); try done.
      * by apply Forall_replicate.
      * intros Y. by rewrite ubit_zeros, (empty_ubit w Hwf He).
      * unfold shl64. by rewrite (empty_summary w Hwf He), Z.shiftl_0_l.
    + eexists. split; [done|].
      apply (moved_spec w n (marked w) (shl64 (summary w) k)); try done; apply Hwf.
  - destruct (earliest_unwrapped (C:=C) w Hwf Hne) as (X & He & HX & Hb & _).
    apply (ubit_elem w X HX) in Hb. apply Hages in Hb.
    rewrite age_unwrapped in Hb by lia.
    assert (wnd_empty w = false) as ->.
    { apply not_true_is_false. by rewrite (wnd_empty_spec w Hwf). }
    rewrite Z.geb_leb. destruct (Z.leb_spec 4 k) as [Hk|Hk]; [unfold k in Hk; zify_div; lia|].
    rewrite He, (proj2 (time_before_eq64_false _ _)) by mlia.
    simpl. eexists. split; [done|].
    apply (moved_spec w n (marked w) (shl64 (summary w) k)); try done; apply Hwf.
Qed.

(** ** Searches *)

(** The searches see a sequence number [s] at the signed age [sage w s]. *)
Definition prev_marked (w : fp_window) (s r : Z) : Prop :=
  (r = -1 ∧ ∀ t, t ∈ wnd_set w → age w t < sage w s) ∨
  (0 ≤ r ∧ u64 (s - r) ∈ wnd_set w ∧ age w (u64 (s - r)) = sage w s + r ∧
   ∀ t, t ∈ wnd_set w → sage w s ≤ age w t → sage w s + r ≤ age w t).

Definition next_marked (w : fp_window) (s : Z) (o : option Z) : Prop :=
  match o with
  | None => ∀ t, t ∈ wnd_set w → sage w s < age w t
  | Some t => t ∈ wnd_set w ∧ age w t ≤ sage w s ∧
      ∀ t', t' ∈ wnd_set w → age w t' ≤ sage w s → age w t' ≤ age w t
  end.

(** Quantifying over the marks, or over their unwrapped positions. *)
Lemma forall_marks w (P : Z → Prop) :
  (∀ t, t ∈ wnd_set w → P (age w t)) ↔
  (∀ Y, head w - 192 < Y ≤ head w → ubit w Y = true → P (head w - Y)).
Proof.
  split.
  - intros HP Y HY Hb. apply (ubit_elem w Y HY) in Hb. apply HP in Hb.
    by rewrite age_unwrapped in Hb by lia.
  - intros HP t (Y & HY & -> & Hb)%elem_of_wnd_set. rewrite age_unwrapped by lia. by apply HP.
Qed.

Lemma sage_cases w s :
  wnd_wf w → 0 ≤ s < 2 ^ 64 → 0 ≤ sage w s →
  s = u64 (head w - sage w s).
Proof. intros Hwf Hs Ha. pose proof (wf_head w Hwf). unfold sage in *. mlia. Qed.

Lemma wnd_at_or_before_spec {C} w s :
  wnd_wf w → 0 ≤ s < 2 ^ 64 → 0 ≤ sage w s →
  ∃ r, wnd_at_or_before (C:=C) s w = Some (r, w, []) ∧ prev_marked w s r.
Proof.
  intros Hwf Hs Ha. pose proof (wf_head w Hwf) as Hh.
  pose proof (sage_cases w s Hwf Hs Ha) as Es. set (d := sage w s) in *.
  destruct (decide (d < 192)) as [Hd|Hd].
  - set (X := head w - d) in *. assert (head w - 192 < X ≤ head w) as HX by lia.
    destruct (at_or_before_unwrapped (C:=C) w Hwf X HX) as (r & Hr & Hcase).
    rewrite <- Es in Hr. exists r. split; [done|].
    destruct Hcase as [[-> Hno]|(Hr0 & Hin & Hb & Hno)]; [left|right]; fold d.
    + split; [done|]. apply (forall_marks w (λ a, a < d)). intros Y HY Hb.
      destruct (decide (Y ≤ X)); [|lia]. by rewrite Hno in Hb by lia.
    + rewrite Es, u64_sub_l, age_unwrapped by lia. split_and!; [done| |lia|].
      * by apply ubit_elem; [lia|].
      * apply (forall_marks w (λ a, d ≤ a → d + r ≤ a)). intros Y HY HbY HdY.
        destruct (decide (X - r < Y)); [|lia]. by rewrite Hno in HbY by lia.
  - exists (-1). split.
    + unfold wnd_at_or_before. munfold. wconst.
      rewrite (proj2 (time_after64_false _ _)) by (unfold sage in d; fold d; lia).
      rewrite (proj2 (time_before_eq64_spec _ _)); [done|].
      unfold d, sage in *. mlia.
    + left. split; [done|]. intros t Ht. apply (wnd_set_age w Hwf) in Ht. fold d. lia.
Qed.

Lemma wnd_at_or_after_spec {C} w s :
  wnd_wf w → 0 ≤ s < 2 ^ 64 →
  ∃ o, wnd_at_or_after (C:=C) s w = Some (o, w, []) ∧ next_marked w s o.
Proof.
  intros Hwf Hs. pose proof (wf_head w Hwf) as Hh. set (d := sage w s).
  destruct (decide (d < 0)) as [Hneg|Hpos].
  { exists None. split.
    - unfold wnd_at_or_after, wnd_seq_after, wnd_head. munfold.
      by rewrite (proj2 (time_after64_spec _ _)).
    - intros t Ht. apply (wnd_set_age w Hwf) in Ht. fold d. lia. }
  pose proof (sage_cases w s Hwf Hs ltac:(lia)) as Es. fold d in Es.
  destruct (decide (d < 192)) as [Hd|Hd].
  - set (X := head w - d) in *. assert (head w - 192 < X ≤ head w) as HX by lia.
    destruct (at_or_after_unwrapped (C:=C) w Hwf X HX) as [[Hr Hno]|(T & Hr & HT & Hb & Hno)];
      rewrite <- Es in Hr; eexists; (split; [done|]); simpl; fold d.
    + apply (forall_marks w (λ a, d < a)). intros Y HY Hb.
      destruct (decide (X ≤ Y)); [|lia]. by rewrite Hno in Hb by lia.
    + rewrite age_unwrapped by lia. split_and!; [by apply ubit_elem; [lia|]|lia|].
      apply (forall_marks w (λ a, a ≤ d → a ≤ head w - T)). intros Y HY HbY HdY.
      destruct (decide (T ≤ Y)); [lia|]. by rewrite Hno in HbY by lia.
  - unfold wnd_at_or_after, wnd_seq_after, wnd_seq_before, wnd_head, wnd_edge. munfold. wconst.
    rewrite (proj2 (time_after64_false _ _)) by (unfold sage in d; fold d; lia).
    rewrite (proj2 (time_before64_spec _ _)) by (unfold d, sage in *; mlia).
    destruct (wnd_empty w) eqn:Ee.
    + apply (wnd_empty_spec w Hwf) in Ee. exists None. split; [done|].
      simpl. rewrite Ee. set_solver.
    + assert (wnd_set w ≠ ∅) as Hne by (by rewrite <- (wnd_empty_spec w Hwf), Ee).
      destruct (earliest_unwrapped (C:=C) w Hwf Hne) as (X & -> & HX & Hb & Hno).
      eexists. split; [done|]. simpl. fold d.
      rewrite age_unwrapped by lia. split_and!; [by apply ubit_elem|lia|].
      apply (forall_marks w (λ a, a ≤ d → a ≤ head w - X)). intros Y HY HbY HdY.
      destruct (decide (X ≤ Y)); [lia|]. by rewrite Hno in HbY by lia.
Qed.

(** ** Masks *)
Lemma mask_unsafe_bit w P i :
  wnd_wf w → 0 ≤ i < 64 →
  Z.testbit (wnd_get_mask_unsafe w (u64 P)) i = ubit w (P - 63 + i).
Proof.
  intros Hwf Hi. unfold wnd_get_mask_unsafe. rewrite wnd_pos_mod, u64_mod_256. wconst.
  replace (P mod 256 mod 64) with (P mod 64) by (zify_div; lia).
  replace (P mod 256 / 64) with (P / 64 mod 4) by (zify_div; lia).
  replace (u32 (P / 64 mod 4 - 1) mod 4) with ((P / 64 - 1) mod 4) by mlia.
  fold (blk w (P / 64)). fold (blk w (P / 64 - 1)).
  assert (0 ≤ P mod 64 < 64) by (zify_div; lia).
  destruct (Z.eqb_spec (P mod 64) (64 - 1)) as [E|E].
  - rewrite <- ubit_blk by done. f_equal. zify_div; lia.
  - rewrite Z.lor_spec, testbit_shl64, Z.shiftr_spec, bool_decide_eq_true_2 by lia. simpl.
    destruct (decide (63 - i ≤ P mod 64)).
    + rewrite (testbit_high (blk w (P / 64 - 1)) 64) by (lia || by apply blk_range).
      rewrite orb_false_r, <- ubit_blk by lia. f_equal. zify_div; lia.
    + rewrite (Z.testbit_neg_r (blk w (P / 64))) by lia. simpl.
      rewrite <- ubit_blk by lia. f_equal. zify_div; lia.
Qed.

Lemma mask_unsafe_range w P : wnd_wf w → 0 ≤ wnd_get_mask_unsafe w P < 2 ^ 64.
Proof.
  intros Hwf. unfold wnd_get_mask_unsafe. rewrite wnd_pos_mod. wconst.
  replace (P mod 256 / 64) with (P / 64 mod 4) by (zify_div; lia).
  replace (u32 (P / 64 mod 4 - 1) mod 4) with ((P / 64 - 1) mod 4) by mlia.
  fold (blk w (P / 64)). fold (blk w (P / 64 - 1)).
  destruct (_ =? _); [by apply blk_range|].
  apply lor_range; [apply shl64_range|apply shiftr_range; [by apply blk_range|zify_div; lia]|lia].
Qed.

Lemma wnd_get_mask_range w pos : wnd_wf w → 0 ≤ wnd_get_mask w pos < 2 ^ 64.
Proof.
  intros Hwf. unfold wnd_get_mask.
  destruct (time_before_eq64 pos _); [lia|].
  destruct (time_after_eq64 pos _); [lia|]. by apply mask_unsafe_range.
Qed.

(** Bit [i] of the mask at [pos] is the mark of [pos - 63 + i], wherever [pos]
    lies with respect to the window. *)
Lemma wnd_get_mask_spec w pos i :
  wnd_wf w → 0 ≤ pos < 2 ^ 64 → 0 ≤ i < 64 →
  Z.testbit (wnd_get_mask w pos) i = bool_decide (u64 (pos - 63 + i) ∈ wnd_set w).
Proof.
  intros Hwf Hp Hi. pose proof (wf_head w Hwf) as Hh.
  assert (Hout : 192 ≤ age w (u64 (pos - 63 + i)) → bool_decide (u64 (pos - 63 + i) ∈ wnd_set w) = false).
  { intros Hage. apply bool_decide_eq_false_2. intros Hin%(wnd_set_age w Hwf). lia. }
  unfold wnd_get_mask. wconst. destruct (time_before_eq64 _ _) eqn:E1.
  { apply time_before_eq64_spec in E1. rewrite Z.bits_0, Hout; [done|].
    unfold age. revert E1. mlia. }
  apply time_before_eq64_false in E1. destruct (time_after_eq64 _ _) eqn:E2.
  { apply time_after_eq64_spec in E2. rewrite Z.bits_0, Hout; [done|].
    unfold age. revert E2. mlia. }
  apply time_after_eq64_false in E2. clear Hout.
  set (P := head w - s64 (head w - pos)).
  assert (pos = u64 P) as Ep by (unfold P; mlia).
  assert (head w - 192 < P < head w + 64) as HP.
  { unfold P. revert E1 E2. mlia. }
  replace (u64 (pos - 63 + i)) with (u64 (P - 63 + i)) by (rewrite Ep; clear; mlia).
  rewrite Ep, mask_unsafe_bit by done. symmetry.
  destruct (decide (head w - 192 < P - 63 + i ≤ head w)) as [HY|HY].
  - destruct (ubit w _) eqn:Hb.
    + apply bool_decide_eq_true_2. by apply ubit_elem.
    + apply bool_decide_eq_false_2. rewrite ubit_elem by done. by rewrite Hb.
  - rewrite bool_decide_eq_false_2.
    + symmetry. apply not_true_is_false. intros Hb%(ubit_inside w Hwf). zify_div; lia.
    + intros (Y & HYr & E & _)%elem_of_wnd_set. revert E. mlia.
Qed.
