(* ===== verification/WindowMarks.v ===== *)
(** * Marks of the window

    Bulk marking: [wnd_mark_bulk] of window.h marks a stretch of consecutive
    sequence numbers word by word; it has the effect of marking each number of the
    stretch, and its word loop terminates. Then single marks and the head. *)

From S2P Require Import Prelude Platform Window WindowFacts WindowSpec.

Local Abbreviation words m := (Forall (λ x, 0 ≤ x < 2 ^ 64) m).

Lemma testbit_not64_0 i : 0 ≤ i → Z.testbit (not64 0) i = bool_decide (i < 64).
Proof.
  intros Hi. destruct (bool_decide_reflect (i < 64)).
  - rewrite testbit_not64, Z.bits_0 by lia. done.
  - apply (testbit_high _ 64); [done|lia].
Qed.

(** Setting some bits of one word of the ring. *)
Lemma wbit_fill m j mask Y :
  length m = 4%nat → 0 ≤ j < 4 →
  wbit (arr_set m j (Z.lor (arr_get m j) mask)) (Y mod 256) =
  wbit m (Y mod 256) || (bool_decide (Y / 64 mod 4 = j) && Z.testbit mask (Y mod 64)).
Proof.
  intros Hl Hj. unfold wbit. wconst.
  replace (Y mod 256 / 64) with (Y / 64 mod 4) by (zify_div; lia).
  replace (Y mod 256 mod 64) with (Y mod 64) by (zify_div; lia).
  rewrite arr_get_set by (rewrite ?Hl; zify_div; lia). case_decide as E.
  - rewrite <- E, bool_decide_eq_true_2, Z.lor_spec by done. done.
  - rewrite bool_decide_eq_false_2 by done. by rewrite orb_false_r.
Qed.

Lemma words_fill m j mask :
  length m = 4%nat → 0 ≤ j < 4 → words m → 0 ≤ mask < 2 ^ 64 →
  words (arr_set m j (Z.lor (arr_get m j) mask)).
Proof.
  intros Hl Hj Hw Hm. apply arr_set_Forall; [done|]. apply lor_range; [|done|lia].
  apply (arr_get_Forall (λ x, 0 ≤ x < 2 ^ 64)); [done|lia].
Qed.

(** The loop over the intermediate words runs to [end_word] and sets every bit
    of the words strictly between. *)
Lemma mark_intermediate_spec {C} fuel d cur w :
  1 ≤ d ≤ 3 → d ≤ Z.of_nat fuel →
  length (marked w) = 4%nat → words (marked w) →
  (∀ j, cur < j < cur + d → arr_get (marked w) (j mod 4) = 0) →
  ∃ m', wnd_mark_intermediate (C:=C) fuel (cur mod 4) ((cur + d) mod 4) w
        = Some ((cur + d) mod 4, set_marked (λ _, m') w, []) ∧
    length m' = 4%nat ∧ words m' ∧
    ∀ Y, wbit m' (Y mod 256) =
         wbit (marked w) (Y mod 256) || bool_decide (0 < (Y / 64 - cur) mod 4 < d).
Proof.
  revert d cur w. induction fuel as [|fuel IH]; intros d cur w Hd Hf Hl Hw Hz; [lia|].
  cbn [wnd_mark_intermediate]. wconst.
  replace (u32 (cur mod 4 + 1) mod 4) with ((cur + 1) mod 4) by mlia.
  destruct (Z.eqb_spec ((cur + 1) mod 4) ((cur + d) mod 4)) as [E|E]; simpl.
  - assert (d = 1) as -> by (zify_div; lia).
    exists (marked w). split_and!; [by destruct w|done|done|].
    intros Y. rewrite bool_decide_eq_false_2 by lia. by rewrite orb_false_r.
  - assert (2 ≤ d) by (destruct (decide (d = 1)) as [->|]; [done|lia]).
    munfold. rewrite (Hz (cur + 1)) by lia. simpl.
    set (w1 := set_marked _ w).
    assert (Hm1 : marked w1 = arr_set (marked w) ((cur + 1) mod 4)
              (Z.lor (arr_get (marked w) ((cur + 1) mod 4)) (not64 0))).
    { rewrite (Hz (cur + 1)) by lia. done. }
    destruct (IH (d - 1) (cur + 1) w1) as (m' & Hrun & Hl' & Hw' & Hb'); try lia.
    + simpl. by rewrite length_arr_set.
    + rewrite Hm1. apply words_fill; [done|zify_div; lia|done|done].
    + intros j Hj. simpl. rewrite arr_get_set by (rewrite ?Hl; zify_div; lia).
      rewrite decide_False by (zify_div; lia). apply Hz. lia.
    + replace (cur + 1 + (d - 1)) with (cur + d) in Hrun by lia. rewrite Hrun. simpl.
      exists m'. split_and!; try done. intros Y. rewrite Hb', Hm1, wbit_fill by (done || zify_div; lia).
      rewrite testbit_not64_0, (bool_decide_eq_true_2 (Y mod 64 < 64)) by (zify_div; lia).
      rewrite andb_true_r, <- orb_assoc. f_equal.
      rewrite <- bool_decide_or. apply bool_decide_ext. zify_div; lia.
Qed.

#[local] Arguments wnd_mark_intermediate : simpl never.

(** A stretch of ring bits and summary bits set at once. *)
Section stretch.
Context (w w' : fp_window) (X n : Z).
Context (Hwf : wnd_wf w) (HX : head w - 192 < X) (Hn : 1 ≤ n) (HE : X + n - 1 ≤ head w).
Context (Hh : head w' = head w) (Hhw : head_word w' = head_word w).
Context (Hl : length (marked w') = 4%nat) (Hw : words (marked w')).
Context (Hb : ∀ Y, ubit w' Y = ubit w Y || bool_decide ((Y - X) mod 256 < n)).

Definition stretch_set : gset Z := list_to_set (u64 <$> seqZ X n).

Lemma stretch_wnd_set : wnd_set w' = stretch_set ∪ wnd_set w.
Proof using Hwf HX Hn HE Hh Hb.
  clear Hl. apply set_eq. intros s. unfold stretch_set.
  rewrite elem_of_union, elem_of_list_to_set, list_elem_of_fmap, !elem_of_wnd_set, Hh. split.
  - intros (Y & HY & -> & HbY). rewrite Hb in HbY.
    apply orb_true_iff in HbY as [?|HbY%bool_decide_eq_true]; [right; eauto|].
    left. exists Y. split; [done|]. apply elem_of_seqZ. zify_div; lia.
  - intros [(Y & -> & HY%elem_of_seqZ)|(Y & HY & -> & HbY)]; exists Y; rewrite Hb.
    + rewrite (bool_decide_eq_true_2 ((Y - X) mod 256 < n)) by (zify_div; lia).
      rewrite orb_true_r. split_and!; done || lia.
    + rewrite HbY. done.
Qed.

Lemma size_stretch : n ≤ 192 → size stretch_set = Z.to_nat n.
Proof using Hn.
  intros Hle. unfold stretch_set. rewrite size_list_to_set.
  - by rewrite length_fmap, length_seqZ.
  - apply NoDup_fmap_2_strong; [|apply NoDup_seqZ].
    intros x y Hx%elem_of_seqZ Hy%elem_of_seqZ E. revert Hx Hy E Hle. clear. mlia.
Qed.

Lemma stretch_wf :
  stretch_set ## wnd_set w →
  0 ≤ summary w' < 2 ^ 64 →
  (∀ i, 0 ≤ i → Z.testbit (summary w') i = Z.testbit (summary w) i ||
     bool_decide (head w / 64 - (X + n - 1) / 64 ≤ i ≤ head w / 64 - X / 64)) →
  num_marked w' = num_marked w + n →
  wnd_wf w'.
Proof using All.
  intros Hdisj Hsr Hs Hnm. apply wf_intro; rewrite ?Hh; try done.
  - apply (wf_head w Hwf).
  - rewrite Hhw. apply (head_word_blk w Hwf).
  - intros Y HY. rewrite Hb. intros [HbY%(ubit_inside w Hwf)|HbY%bool_decide_eq_true]%orb_true_iff.
    all: zify_div; lia.
  - intros i Hi. rewrite Hs, orb_true_iff, bool_decide_eq_true, (summary_blk w Hwf) by done.
    assert (∀ B, blk w' B ≠ 0 ↔ blk w B ≠ 0 ∨ ∃ Y, Y / 64 = B ∧ (Y - X) mod 256 < n) as ->.
    { intros B. rewrite (blk_nonzero w B Hwf). split.
      - intros Hne. destruct (nonzero_has_bit (blk w' B) 64) as (o & Ho & Hbo); [|done|].
        + apply (arr_get_Forall (λ x, 0 ≤ x < 2 ^ 64)); [done|rewrite Hl; zify_div; lia].
        + rewrite <- ubit_blk, Hb in Hbo by done.
          apply orb_true_iff in Hbo as [Hbo|Hbo%bool_decide_eq_true]; [left|right];
            exists (64 * B + o); (split; [zify_div; lia|done]).
      - intros [(Y & <- & HbY)|(Y & <- & HbY)]; apply ubit_block_nonzero; rewrite Hb.
        + by rewrite HbY.
        + by rewrite bool_decide_eq_true_2, orb_true_r. }
    split.
    + intros [[? ?]|Hi2]; [by auto|]. split; [zify_div; lia|]. right.
      destruct (decide (X / 64 = head w / 64 - i)); [exists X; split; [done|]|
        exists (64 * (head w / 64 - i)); split]; zify_div; lia.
    + intros (Hi4 & [?|(Y & HYB & HYn)]); [by auto|]. right. zify_div; lia.
  - rewrite stretch_wnd_set, size_union, size_stretch, Hnm, (wf_count w Hwf) by (done || lia). lia.
Qed.
End stretch.

(** The masks of the code. *)
Lemma start_mask_bit so o : 0 ≤ so < 64 → 0 ≤ o < 64 →
  Z.testbit (shl64 (not64 0) so) o = bool_decide (so ≤ o).
Proof.
  intros Hso Ho. rewrite testbit_shl64, bool_decide_eq_true_2 by lia. simpl.
  destruct (bool_decide_reflect (so ≤ o)).
  - rewrite testbit_not64_0 by lia. apply bool_decide_eq_true_2. lia.
  - apply Z.testbit_neg_r. lia.
Qed.

Lemma end_mask_bit eo o : 0 ≤ eo < 64 → 0 ≤ o →
  Z.testbit (Z.shiftr (not64 0) (64 - 1 - eo)) o = bool_decide (o ≤ eo).
Proof.
  intros Heo Ho. rewrite Z.shiftr_spec, testbit_not64_0 by lia.
  apply bool_decide_ext. lia.
Qed.

Lemma mask_range a b : 0 ≤ a < 64 → 0 ≤ b < 64 →
  0 ≤ Z.land (shl64 (not64 0) a) (Z.shiftr (not64 0) (64 - 1 - b)) < 2 ^ 64.
Proof.
  intros Ha Hb. apply land_range; [apply shl64_range| |lia].
  apply Z.shiftr_nonneg. done.
Qed.

Lemma summary_mask_bit a b i : 0 ≤ a < 64 → 0 ≤ b < 64 → 0 ≤ i →
  Z.testbit (Z.land (Z.shiftr (not64 0) (64 - 1 - b)) (shl64 (not64 0) a)) i
  = bool_decide (a ≤ i ≤ b).
Proof.
  intros Ha Hb Hi. rewrite Z.land_spec, end_mask_bit by done.
  destruct (decide (i < 64)).
  - rewrite start_mask_bit by lia. rewrite <- bool_decide_and. apply bool_decide_ext. lia.
  - rewrite !bool_decide_eq_false_2 by lia. done.
Qed.

(** A word and a mask without common bits. *)
Lemma land_disjoint x mask :
  0 ≤ x < 2 ^ 64 →
  (∀ o, 0 ≤ o < 64 → Z.testbit mask o = true → Z.testbit x o = false) → Z.land x mask = 0.
Proof.
  intros Hx Hd. apply Z.bits_inj'. intros o Ho. rewrite Z.land_spec, Z.bits_0.
  destruct (decide (o < 64)).
  - destruct (Z.testbit mask o) eqn:E; [rewrite Hd by (done || lia); done|by rewrite andb_false_r].
  - by rewrite (testbit_high x 64) by (done || lia).
Qed.

(** The ring after the word updates of [wnd_mark_bulk]: the first word, the
    intermediate ones and the last one. *)
Lemma bulk_ring {C} w X n :
  wnd_wf w → head w - 192 < X → 1 ≤ n → X + n - 1 ≤ head w →
  (∀ Y, X ≤ Y < X + n → ubit w Y = false) →
  let E := X + n - 1 in
  let smask := shl64 (not64 0) (X mod 64) in
  ∃ cm m1, (if X / 64 mod 4 =? E / 64 mod 4 then mret (X / 64 mod 4, smask)
     else
       bug_on (negb (Z.land (arr_get (marked w) (X / 64 mod 4)) smask =? 0))
         "wnd_mark_bulk: start word";;
       modify (set_marked (λ m, arr_set m (X / 64 mod 4)
                                  (Z.lor (arr_get m (X / 64 mod 4)) smask)));;
       cur_word ← wnd_mark_intermediate (C:=C) (Z.to_nat 4) (X / 64 mod 4) (E / 64 mod 4);
       mret (cur_word, not64 0)) w
    = Some (E / 64 mod 4, cm, set_marked (λ _, m1) w, []) ∧
    length m1 = 4%nat ∧ words m1 ∧ 0 ≤ cm < 2 ^ 64 ∧
    (∀ o, 0 ≤ o < 64 → Z.testbit cm o = bool_decide (X ≤ 64 * (E / 64) + o)) ∧
    ∀ Y, wbit m1 (Y mod 256) = ubit w Y ||
      bool_decide ((Y - X) mod 256 < n ∧ Y / 64 mod 4 ≠ E / 64 mod 4).
Proof.
  intros Hwf HX Hn HE Hfree E smask. pose proof (wf_len w Hwf) as Hl.
  pose proof (wf_words w Hwf) as Hw.
  assert (0 ≤ X mod 64 < 64) as Hso by (zify_div; lia).
  assert (E = X + n - 1) as HEeq by done. clearbody E.
  destruct (Z.eqb_spec (X / 64 mod 4) (E / 64 mod 4)) as [Eq|Ne].
  - assert (X / 64 = E / 64) as HB by (zify_div; lia).
    exists smask, (marked w). split_and!; [by rewrite Eq; destruct w|done|done|apply shl64_range|
      apply shl64_range| |].
    + intros o Ho. unfold smask. rewrite start_mask_bit by done.
      apply bool_decide_ext. zify_div; lia.
    + intros Y. rewrite bool_decide_eq_false_2, orb_false_r; [done|]. zify_div; lia.
  - set (d := E / 64 - X / 64). assert (1 ≤ d ≤ 3) as Hd by (unfold d; zify_div; lia).
    munfold. fold (blk w (X / 64)).
    rewrite (land_disjoint (blk w (X / 64)) smask); [|by apply blk_range|].
    2:{ intros o Ho Hm. unfold smask in Hm. rewrite start_mask_bit in Hm by done.
        apply bool_decide_eq_true in Hm. rewrite <- ubit_blk by done.
        apply Hfree. unfold d in *. zify_div; lia. }
    simpl. set (w1 := set_marked _ w).
    assert (∀ Y, wbit (marked w1) (Y mod 256) =
      ubit w Y || (bool_decide (Y / 64 mod 4 = X / 64 mod 4 ∧ X mod 64 ≤ Y mod 64))) as Hb1.
    { intros Y. simpl. rewrite wbit_fill by (done || zify_div; lia). unfold smask.
      by rewrite start_mask_bit, <- bool_decide_and by (zify_div; lia). }
    destruct (mark_intermediate_spec (C:=C) 4 d (X / 64) w1)
      as (m' & Hrun & Hl' & Hw' & Hb'); try (done || lia).
    + simpl. by rewrite length_arr_set.
    + apply words_fill; [done|zify_div; lia|done|apply shl64_range].
    + intros j Hj. simpl. rewrite arr_get_set by (rewrite ?Hl; zify_div; lia).
      rewrite decide_False by (zify_div; lia). fold (blk w j).
      apply (bits_eq_below 64); [by apply blk_range|lia|]. intros o Ho.
      rewrite Z.bits_0, <- ubit_blk by done. apply Hfree. unfold d in *. zify_div; lia.
    + replace (X / 64 + d) with (E / 64) in Hrun by (unfold d; lia).
      change (Z.to_nat 4) with 4%nat. rewrite Hrun. simpl.
      exists (not64 0), m'. split_and!; try done.
      * intros o Ho. rewrite testbit_not64_0 by lia. apply bool_decide_ext. unfold d in *. zify_div; lia.
      * intros Y. rewrite Hb', Hb1, <- orb_assoc, <- bool_decide_or. f_equal.
        apply bool_decide_ext. unfold d in *. zify_div; lia.
Qed.

(** [wnd_mark_bulk] on a stretch of unmarked numbers of the window: no check
    fails, exactly the numbers of the stretch join the set. *)
Lemma wnd_mark_bulk_spec {C} w s n :
  wnd_wf w → 0 ≤ s < 2 ^ 64 → 1 ≤ n → n ≤ sage w s + 1 → sage w s < 192 →
  stretch_set s n ## wnd_set w →
  ∃ w', wnd_mark_bulk (C:=C) s n w = Some (tt, w', []) ∧ wnd_wf w' ∧
    head w' = head w ∧ wnd_set w' = stretch_set s n ∪ wnd_set w.
Proof.
  intros Hwf Hs Hn Hna Ha Hdisj. pose proof (wf_head w Hwf) as Hh.
  pose proof (sage_cases w s Hwf Hs ltac:(lia)) as Es.
  set (X := head w - sage w s) in *. set (E := X + n - 1).
  assert (head w - 192 < X ≤ head w) as HX by (unfold X; lia).
  assert (head w - 192 < E ≤ head w) as HE by (unfold E, X in *; lia).
  assert (stretch_set s n = stretch_set X n) as Eset.
  { unfold stretch_set. apply set_eq. intros t. rewrite !elem_of_list_to_set, !list_elem_of_fmap.
    split; intros (y & -> & Hy%elem_of_seqZ).
    - exists (y - s + X). rewrite elem_of_seqZ. split; [rewrite Es; clear; mlia|lia].
    - exists (y - X + s). rewrite elem_of_seqZ. split; [rewrite Es; clear; mlia|lia]. }
  rewrite Eset in *.
  assert (Hfree : ∀ Y, X ≤ Y < X + n → ubit w Y = false).
  { intros Y HY. apply not_true_is_false. intros Hb. apply (ubit_elem w Y) in Hb; [|lia].
    apply (Hdisj (u64 Y)); [|done]. unfold stretch_set.
    apply elem_of_list_to_set, list_elem_of_fmap. exists Y. split; [done|]. apply elem_of_seqZ. lia. }
  assert (u64 (s + n - 1) = u64 E) as EE by (rewrite Es; unfold E; clear; mlia).
  destruct (bulk_ring (C:=C) w X n Hwf) as (cm & m1 & Hrun & Hl1 & Hw1 & Hcm & Hcmb & Hb1);
    try (done || lia). fold E in Hrun, Hcmb, Hb1.
  unfold wnd_mark_bulk. rewrite !wnd_pos_mod, EE, u64_mod_256.
  replace (s mod 256) with (X mod 256) by (rewrite Es; clear; mlia). wconst.
  replace (X mod 256 / 64) with (X / 64 mod 4) by (zify_div; lia).
  replace (X mod 256 mod 64) with (X mod 64) by (zify_div; lia).
  replace (E mod 256 / 64) with (E / 64 mod 4) by (zify_div; lia).
  replace (E mod 256 mod 64) with (E mod 64) by (zify_div; lia).
  set (emask := Z.shiftr (not64 0) (64 - 1 - E mod 64)).
  assert (Hmask : ∀ o, 0 ≤ o < 64 → Z.testbit (Z.land cm emask) o = bool_decide (X ≤ 64 * (E / 64) + o ≤ E)).
  { intros o Ho. unfold emask. rewrite Z.land_spec, Hcmb, end_mask_bit by (zify_div; lia).
    rewrite <- bool_decide_and. apply bool_decide_ext. zify_div; lia. }
  munfold. rewrite (proj2 (time_before_eq64_false _ _)) by (rewrite Es; clear -HX Hh; mlia).
  rewrite (proj2 (time_after64_false _ _)) by (clear -HE Hh; mlia).
  rewrite Hrun. cbn [marked set_marked].
  assert (0 ≤ E / 64 mod 4 < 4) as HEw by (zify_div; lia).
  rewrite (land_disjoint (arr_get m1 _)); [|by apply (arr_get_Forall (λ x, 0 ≤ x < 2 ^ 64)); [|lia]|].
  2:{ intros o Ho. rewrite Hmask by done. intros HYr%bool_decide_eq_true.
      specialize (Hb1 (64 * (E / 64) + o)). unfold wbit in Hb1. wconst.
      replace ((64 * (E / 64) + o) mod 256 / 64) with (E / 64 mod 4) in Hb1 by (zify_div; lia).
      replace ((64 * (E / 64) + o) mod 256 mod 64) with o in Hb1 by (zify_div; lia).
      rewrite Hb1, Hfree by (unfold E in *; lia). apply bool_decide_eq_false_2. zify_div; lia. }
  destruct (summary_pos_blk w Hwf X HX) as [EspX HkX].
  destruct (summary_pos_blk w Hwf E HE) as [EspE HkE].
  unfold summary_pos in *. rewrite wnd_pos_mod, u64_mod_256 in EspX, EspE. wconst.
  cbn [head_word set_marked].
  replace (X mod 256 / 64) with (X / 64 mod 4) in EspX by (zify_div; lia).
  replace (E mod 256 / 64) with (E / 64 mod 4) in EspE by (zify_div; lia).
  replace (X mod 256 / 64) with (X / 64 mod 4) by (zify_div; lia).
  replace (E mod 256 / 64) with (E / 64 mod 4) by (zify_div; lia).
  rewrite EspX, EspE. simpl. eexists. split; [done|]. set (w' := set_num_marked _ _).
  assert (Hb : ∀ Y, ubit w' Y = ubit w Y || bool_decide ((Y - X) mod 256 < n)).
  { intros Y. unfold ubit at 1. simpl. rewrite wbit_fill, Hb1, <- orb_assoc by done. f_equal.
    rewrite Hmask by (zify_div; lia). rewrite <- bool_decide_and, <- bool_decide_or.
    apply bool_decide_ext. unfold E in *. zify_div; lia. }
  assert (length (marked w') = 4%nat) as Hl' by (simpl; by rewrite length_arr_set).
  assert (words (marked w')) as Hw'.
  { apply words_fill; try done. apply land_range; [done| |lia]. apply Z.shiftr_nonneg. done. }
  pose proof (stretch_wnd_set w w' X n Hwf) as Hset.
  split_and!; [|done|apply Hset; done || lia].
  apply (stretch_wf w w' X n Hwf); try (done || lia).
  - apply lor_range; [apply (wf_summary_range w Hwf)| |lia].
    rewrite Z.land_comm. apply mask_range; lia.
  - intros i Hi. simpl. rewrite Z.lor_spec, summary_mask_bit by lia. done.
  - simpl. rewrite (wf_count w Hwf). pose proof (size_wnd_set w). apply u32_small. lia.
Qed.

(** ** Marked sequence numbers in order

    The lists that the loops of the protocol walk: the marks of a window from a
    given number on, and the bits of a 64-bit mask from the lowest. *)
(** ** Sequence-number arithmetic *)
Lemma wnd_set_u64 w s : wnd_wf w → s ∈ wnd_set w → 0 ≤ s < 2 ^ 64.
Proof. intros Hwf Hs. by apply (wnd_set_age w Hwf). Qed.

Lemma sage_in_set w s : wnd_wf w → s ∈ wnd_set w → sage w s = age w s ∧ 0 ≤ age w s < 192.
Proof.
  intros Hwf Hs. apply (wnd_set_age w Hwf) in Hs as [? Ha]. split; [|done].
  pose proof (wf_head w Hwf). unfold sage, age in *. mlia.
Qed.

Lemma sage_succ w s : wnd_wf w → s ∈ wnd_set w → sage w (u64 (s + 1)) = sage w s - 1.
Proof.
  intros Hwf Hs. apply (wnd_set_age w Hwf) in Hs as [? Ha].
  pose proof (wf_head w Hwf). unfold sage, age in *. mlia.
Qed.

Lemma age_inj w s t :
  wnd_wf w → s ∈ wnd_set w → t ∈ wnd_set w → age w s = age w t → s = t.
Proof.
  intros Hwf Hs%(wnd_set_age w Hwf) Ht%(wnd_set_age w Hwf). pose proof (wf_head w Hwf).
  unfold age in *. mlia.
Qed.

Lemma in_window_checks w s :
  wnd_wf w → s ∈ wnd_set w →
  wnd_seq_before w s = false ∧ wnd_seq_after w s = false ∧ wnd_is_marked w s = true.
Proof.
  intros Hwf Hs. pose proof (wf_head w Hwf) as Hh.
  apply (elem_of_wnd_set_age w Hwf) in Hs as (Hr & Ha & Hm). split_and!; [| |done].
  - unfold wnd_seq_before, wnd_edge. wconst. apply time_before64_false.
    unfold age in Ha. revert Ha. mlia.
  - unfold wnd_seq_after, wnd_head. apply time_after64_false. unfold age in Ha. revert Ha. mlia.
Qed.

(** ** Marked numbers in order *)

(** The marks of age below [n], oldest first. *)
Fixpoint marks_upto (w : fp_window) (n : nat) : list Z :=
  match n with
  | O => []
  | S n' =>
      let s := u64 (head w - Z.of_nat n') in
      if decide (s ∈ wnd_set w) then s :: marks_upto w n' else marks_upto w n'
  end.

(** The marks at or after [s], in sequence order. *)
Definition marks_from (w : fp_window) (s : Z) : list Z :=
  marks_upto w (Z.to_nat (Z.min 192 (sage w s + 1))).

Section marks.
Context (w : fp_window) (Hwf : wnd_wf w).

Lemma age_of_u64 (n : nat) : (n < 192)%nat → age w (u64 (head w - Z.of_nat n)) = Z.of_nat n.
Proof using Hwf. intros Hn. pose proof (wf_head w Hwf). unfold age. mlia. Qed.

Lemma age_back s : s ∈ wnd_set w → u64 (head w - age w s) = s.
Proof using Hwf.
  intros Hs. apply (wnd_set_age w Hwf) in Hs as [Hr Ha].
  pose proof (wf_head w Hwf). unfold age in *. mlia.
Qed.

Lemma elem_of_marks_upto n s :
  (n ≤ 192)%nat → s ∈ marks_upto w n ↔ s ∈ wnd_set w ∧ age w s < Z.of_nat n.
Proof using Hwf.
  intros Hn. induction n as [|n IH]; cbn [marks_upto].
  - split; [by inversion 1|]. intros [Hs%(wnd_set_age w Hwf) ?]. lia.
  - pose proof (age_of_u64 n ltac:(lia)) as Hage.
    assert (s ∈ wnd_set w → age w s = Z.of_nat n → s = u64 (head w - Z.of_nat n)) as Hsn.
    { intros Hs E. by rewrite <- E, age_back. }
    case_decide as Hin; [rewrite elem_of_cons|]; rewrite IH by lia; clear IH.
    + split; [intros [->|[? ?]]; split; [done|lia|done|lia]|].
      intros [Hs Ha]. destruct (decide (age w s = Z.of_nat n)); [auto|right; split; [done|lia]].
    + split; [intros [? ?]; split; [done|lia]|]. intros [Hs Ha]. split; [done|].
      destruct (decide (age w s = Z.of_nat n)) as [E|]; [|lia]. apply Hsn in E; [by subst|done].
Qed.

Lemma length_marks_from s : (length (marks_from w s) ≤ 192)%nat.
Proof using Type.
  unfold marks_from. set (n := Z.to_nat _). assert (n ≤ 192)%nat as Hn by lia. clearbody n.
  etrans; [|exact Hn]. clear Hn. induction n as [|n IH]; [done|]. cbn [marks_upto].
  case_decide; simpl; lia.
Qed.

Lemma marks_upto_first n s :
  (n ≤ 192)%nat → s ∈ wnd_set w → age w s < Z.of_nat n →
  (∀ t, t ∈ wnd_set w → age w t < Z.of_nat n → age w t ≤ age w s) →
  marks_upto w n = s :: marks_upto w (Z.to_nat (age w s)).
Proof using Hwf.
  intros Hn Hs Ha Hmax. pose proof (wnd_set_age w Hwf s Hs) as [_ [Ha0 _]].
  induction n as [|n IH]; [lia|]. cbn [marks_upto].
  pose proof (age_of_u64 n ltac:(lia)) as Hage.
  destruct (decide (age w s = Z.of_nat n)) as [E|E].
  - rewrite <- E, age_back, decide_True by done. f_equal. f_equal. lia.
  - rewrite decide_False; [apply IH; [lia|lia|]|].
    + intros t Ht Htn. apply Hmax; [done|lia].
    + intros Hin. apply Hmax in Hin; lia.
Qed.

(** The searches walk this list. *)
Lemma next_marked_none s : next_marked w s None → marks_from w s = [].
Proof using Hwf.
  intros Hno. destruct (marks_from w s) as [|t l] eqn:E; [done|].
  assert (t ∈ marks_from w s) as Ht by (rewrite E; set_solver).
  apply elem_of_marks_upto in Ht as [Ht Ha]; [|lia]. pose proof (wnd_set_age w Hwf t Ht). apply Hno in Ht. lia.
Qed.

Lemma next_marked_some s t :
  next_marked w s (Some t) → marks_from w s = t :: marks_from w (u64 (t + 1)).
Proof using Hwf.
  intros (Ht & Ha & Hmax). pose proof (wnd_set_age w Hwf t Ht) as [_ Hr].
  unfold marks_from. rewrite (marks_upto_first _ t); [|lia|done|lia|].
  2:{ intros t' Ht' Ha'. apply Hmax; [done|lia]. }
  f_equal. f_equal. rewrite (sage_succ w t Hwf Ht), (proj1 (sage_in_set w t Hwf Ht)). lia.
Qed.

Lemma elem_of_marks_from s t : t ∈ marks_from w s ↔ t ∈ wnd_set w ∧ age w t ≤ sage w s.
Proof using Hwf.
  unfold marks_from. rewrite elem_of_marks_upto by lia. split.
  - intros [Ht Ha]. split; [done|]. pose proof (wnd_set_age w Hwf t Ht). lia.
  - intros [Ht Ha]. split; [done|]. pose proof (wnd_set_age w Hwf t Ht). lia.
Qed.

Lemma marks_from_inside s : Forall (λ t, t ∈ wnd_set w) (marks_from w s).
Proof using Hwf. apply Forall_forall. intros t Ht. by apply elem_of_marks_from in Ht as [? _]. Qed.
End marks.

(** Removing marks removes them from the list. *)
Lemma marks_upto_remove w w' X n :
  head w' = head w → wnd_set w' = wnd_set w ∖ X →
  marks_upto w' n = filter (λ t, t ∉ X) (marks_upto w n).
Proof.
  intros Hh Hset. induction n as [|n IH]; [done|]. cbn [marks_upto]. rewrite Hh, IH.
  set (s := u64 _). destruct (decide (s ∈ wnd_set w)), (decide (s ∈ X)) as [|HX].
  - rewrite decide_False by set_solver. by rewrite filter_cons_False by set_solver.
  - rewrite decide_True by set_solver. by rewrite filter_cons_True by set_solver.
  - by rewrite decide_False by set_solver.
  - by rewrite decide_False by set_solver.
Qed.

Lemma marks_from_remove w w' X s :
  head w' = head w → wnd_set w' = wnd_set w ∖ X →
  marks_from w' s = filter (λ t, t ∉ X) (marks_from w s).
Proof.
  intros Hh Hset. unfold marks_from, sage. rewrite Hh. by apply marks_upto_remove.
Qed.

(** ** Bits of a mask, from the lowest *)
Definition mask_bits (mask : Z) : list Z := filter (λ i, Z.testbit mask i = true) (seqZ 0 64).

Lemma elem_of_mask_bits mask i : i ∈ mask_bits mask ↔ 0 ≤ i < 64 ∧ Z.testbit mask i = true.
Proof. unfold mask_bits. rewrite list_elem_of_filter, elem_of_seqZ. naive_solver lia. Qed.

Lemma mask_bits_nil : mask_bits 0 = [].
Proof. reflexivity. Qed.

Lemma length_mask_bits mask : (length (mask_bits mask) ≤ 64)%nat.
Proof.
  unfold mask_bits. etrans; [apply length_filter|]. by rewrite length_seqZ.
Qed.

Lemma NoDup_mask_bits mask : NoDup (mask_bits mask).
Proof. apply NoDup_filter, NoDup_seqZ. Qed.

(** Clearing the lowest bit removes the first element. *)
Lemma mask_bits_ffs mask :
  0 ≤ mask < 2 ^ 64 → mask ≠ 0 →
  let o := __ffs mask in
  let mask' := Z.land mask (not64 (shl64 1 o)) in
  0 ≤ o < 64 ∧ Z.testbit mask o = true ∧ 0 ≤ mask' < 2 ^ 64 ∧
  mask_bits mask = o :: mask_bits mask'.
Proof.
  intros Hm Hne o mask'. destruct (ffs_spec mask 64 Hm Hne) as (Ho & Hb & Hlow). fold o in Ho, Hb, Hlow.
  assert (Hbit : ∀ i, 0 ≤ i < 64 → Z.testbit mask' i = Z.testbit mask i && bool_decide (i ≠ o)).
  { intros i Hi. unfold mask'. rewrite Z.land_spec, testbit_not64, testbit_shl64 by lia.
    rewrite bool_decide_eq_true_2, andb_true_l by lia. f_equal.
    change 1 with (2 ^ 0). rewrite testbit_pow2 by lia.
    destruct (decide (i = o)) as [->|].
    - by rewrite bool_decide_eq_true_2, bool_decide_eq_false_2 by (lia || congruence).
    - by rewrite bool_decide_eq_false_2, bool_decide_eq_true_2 by (lia || congruence). }
  assert (0 ≤ mask' < 2 ^ 64) as Hm'.
  { apply land_range; [done|apply not64_range, shl64_range|lia]. }
  split_and!; try done; try lia.
  unfold mask_bits. replace (seqZ 0 64) with (seqZ 0 o ++ o :: seqZ (Z.succ o) (63 - o)).
  2:{ replace 64 with (o + (64 - o)) by lia. rewrite seqZ_app by lia. f_equal.
      rewrite (seqZ_cons (0 + o)) by lia. f_equal. f_equal; lia. }
  rewrite !filter_app, filter_cons_True by done.
  rewrite filter_cons_False by (rewrite Hbit, bool_decide_eq_false_2, andb_false_r by (done || lia); done).
  rewrite (list_filter_none _ (seqZ 0 o)).
  2:{ intros i Hi%elem_of_seqZ. rewrite Hlow by lia. done. }
  rewrite (list_filter_none _ (seqZ 0 o)).
  2:{ intros i Hi%elem_of_seqZ. rewrite Hbit, Hlow by lia. done. }
  simpl. f_equal. apply list_filter_ext_in. intros i Hi%elem_of_seqZ.
  rewrite Hbit, bool_decide_eq_true_2, andb_true_r by lia. done.
Qed.
