(* ===== verification/WindowTheorems.v ===== *)
(** * The window implements a finite set

    The abstract window is its latest sequence number and a finite set of marked
    numbers; [fp_window] with its ring of bits, rotating summary word and counter
    refines it. *)

From S2P Require Import Prelude Platform Window WindowFacts WindowSpec WindowMarks.

(** ** Abstract specification *)
Record spec_window := { sp_head : Z; sp_set : gset Z }.

Inductive wnd_op :=
| OpMark (seqno : Z)
| OpMarkBulk (seqno amount : Z)
| OpClear (seqno : Z)
| OpAdvance (amount : Z)
| OpReset (head : Z).

(** How far behind the head a number is, as a signed difference. *)
Definition sp_age (a : spec_window) (s : Z) : Z := s64 (sp_head a - s).

(** The documented obligations of the caller. *)
Definition sp_allowed (a : spec_window) (o : wnd_op) : Prop :=
  match o with
  | OpMark s => 0 ≤ s < 2 ^ 64 ∧ 0 ≤ sp_age a s < 192 ∧ s ∉ sp_set a
  | OpMarkBulk s n => 0 ≤ s < 2 ^ 64 ∧ 1 ≤ n ≤ sp_age a s + 1 ∧ sp_age a s < 192 ∧ stretch_set s n ## sp_set a
  | OpClear s => s ∈ sp_set a
  | OpAdvance n => 0 ≤ n ∧ sp_head a + n < 2 ^ 64 ∧ set_Forall (λ s, sp_age a s + n < 192) (sp_set a)
  | OpReset h => 0 ≤ h < 2 ^ 64
  end.

#[export] Instance sp_allowed_dec a o : Decision (sp_allowed a o).
Proof. destruct o; simpl; apply _. Defined.

Definition sp_step (a : spec_window) (o : wnd_op) : spec_window :=
  match o with
  | OpMark s => {| sp_head := sp_head a; sp_set := {[ s ]} ∪ sp_set a |}
  | OpMarkBulk s n => {| sp_head := sp_head a; sp_set := stretch_set s n ∪ sp_set a |}
  | OpClear s => {| sp_head := sp_head a; sp_set := sp_set a ∖ {[ s ]} |}
  | OpAdvance n => {| sp_head := sp_head a + n; sp_set := sp_set a |}
  | OpReset h => {| sp_head := h; sp_set := ∅ |}
  end.

(** A sequence of operations, each allowed where it happens. *)
Inductive sp_run : spec_window → list wnd_op → spec_window → Prop :=
| sp_done a : sp_run a [] a
| sp_next a o os a' : sp_allowed a o → sp_run (sp_step a o) os a' → sp_run a (o :: os) a'.

(** The run of an explicit list, checked. *)
Fixpoint sp_check (a : spec_window) (os : list wnd_op) : bool :=
  match os with
  | [] => true
  | o :: os' => bool_decide (sp_allowed a o) && sp_check (sp_step a o) os'
  end.

Lemma sp_check_run os : ∀ a, sp_check a os = true → sp_run a os (foldl sp_step a os).
Proof.
  induction os as [|o os IH]; intros a Hc; simpl in *; [constructor|].
  apply andb_true_iff in Hc as [Ho%bool_decide_eq_true_1 Hc]. constructor; auto.
Qed.

(** ** The implementation *)
Section impl.
Context {C : Type}.

Definition run_op (o : wnd_op) : M C fp_window unit :=
  match o with
  | OpMark s => wnd_mark s
  | OpMarkBulk s n => wnd_mark_bulk s n
  | OpClear s => wnd_clear s
  | OpAdvance n => wnd_advance n
  | OpReset h => wnd_reset h
  end.

Fixpoint run_ops (os : list wnd_op) : M C fp_window unit :=
  match os with
  | [] => mret tt
  | o :: os' => run_op o;; run_ops os'
  end.
End impl.

(** The abstraction relation. *)
Definition represents (w : fp_window) (a : spec_window) : Prop :=
  wnd_wf w ∧ head w = sp_head a ∧ wnd_set w = sp_set a.

Lemma represents_age w a s : represents w a → 0 ≤ s < 2 ^ 64 → 0 ≤ sp_age a s →
  sage w s = sp_age a s ∧ age w s = sp_age a s.
Proof.
  intros (Hw & Eh & _) Hs Ha. unfold sage, age, sp_age in *. rewrite Eh. split; [done|]. mlia.
Qed.

Lemma run_op_refines {C} w a o : represents w a → sp_allowed a o →
  ∃ w', run_op (C:=C) o w = Some (tt, w', []) ∧ represents w' (sp_step a o).
Proof.
  intros Hr Ho. pose proof Hr as (Hw & Eh & Es). unfold represents. destruct o as [s|s n|s|n|h]; simpl in *.
  - destruct Ho as (H1 & H2 & H3). destruct (represents_age w a s Hr H1 ltac:(lia)) as [_ Ea].
    rewrite <- Es in H3. destruct (wnd_mark_spec (C:=C) w s Hw H1 ltac:(lia) H3) as (w' & E & Hw' & E1 & E2 & _).
    exists w'. split_and!; [done|done|congruence|]. rewrite E2. by rewrite Es.
  - destruct Ho as (H1 & H2 & H3 & H4). destruct (represents_age w a s Hr H1 ltac:(lia)) as [Ea _].
    rewrite <- Es in H4. destruct (wnd_mark_bulk_spec (C:=C) w s n Hw H1 ltac:(lia) ltac:(lia) ltac:(lia) H4) as (w' & E & Hw' & E1 & E2).
    exists w'. split_and!; [done|done|congruence|]. rewrite E2. by rewrite Es.
  - rewrite <- Es in Ho. destruct (wnd_clear_spec (C:=C) w s Hw Ho) as (w' & E & Hw' & E1 & E2 & _).
    exists w'. split_and!; [done|done|congruence|]. rewrite E2. by rewrite Es.
  - destruct Ho as (H1 & H2 & H3). destruct (wnd_advance_spec (C:=C) w n Hw H1 ltac:(lia)) as (w' & E & Hw' & E1 & E2 & _).
    { intros s Hin. destruct (sage_in_set w s Hw Hin) as [Ea ?]. rewrite <- Ea. rewrite Es in Hin. specialize (H3 s Hin).
      unfold sp_age in H3. rewrite <- Eh in H3. exact H3. }
    exists w'. split_and!; [done|done|congruence|congruence].
  - destruct (wnd_reset_spec (C:=C) w h Ho) as (w' & E & Hw' & E1 & E2 & _). by exists w'.
Qed.

(** C12. Refinement: every sequence of permitted window operations (mark, mark a
    stretch, clear, advance, reset) runs without a failed check, and the window
    ends up representing exactly the set and head that the abstract operations
    give. *)
Theorem window_refines_set {C} w a os a' :
  represents w a → sp_run a os a' →
  ∃ w', run_ops (C:=C) os w = Some (tt, w', []) ∧ represents w' a'.
Proof.
  intros Hr Hrun. revert w Hr. induction Hrun as [a|a o os a' Ho _ IH]; intros w Hr; [by exists w|].
  destruct (run_op_refines (C:=C) w a o Hr Ho) as (w1 & E1 & Hr1). destruct (IH w1 Hr1) as (w2 & E2 & Hr2).
  exists w2. split; [|done]. cbn [run_ops]. munfold. by rewrite E1, E2.
Qed.

(** A fresh window. *)
Definition window0 : fp_window :=
  {| marked := replicate 4 0; summary := 0; head := 1000; head_word := 3; num_marked := 0 |}.
Definition spec0 : spec_window := {| sp_head := 1000; sp_set := ∅ |}.

Lemma window0_represents : represents window0 spec0.
Proof.
  destruct (wnd_reset_spec (C:=False) window0 1000 ltac:(lia)) as (w' & E & Hw & Eh & Es & _).
  assert (wnd_reset (C:=False) 1000 window0 = Some (tt, window0, [])) as E0 by (vm_compute; reflexivity).
  rewrite E0 in E. injection E as <-. done.
Qed.

Definition ops0 : list wnd_op := [OpMark 1000; OpMarkBulk 900 70; OpClear 905; OpAdvance 90].

Lemma window_refines_set_witness : ∃ a', sp_run spec0 ops0 a' ∧ sp_head a' = 1090 ∧ 906 ∈ sp_set a' ∧
  ∃ w', run_ops (C:=False) ops0 window0 = Some (tt, w', []) ∧ represents w' a'.
Proof.
  exists (foldl sp_step spec0 ops0).
  assert (sp_run spec0 ops0 (foldl sp_step spec0 ops0)) as Hrun.
  { apply sp_check_run. vm_compute. reflexivity. }
  split; [exact Hrun|]. split; [reflexivity|]. split; [apply (bool_decide_unpack _); vm_compute; exact I|].
  exact (window_refines_set window0 spec0 ops0 _ window0_represents Hrun).
Defined.

(** ** Queries *)

(** The queries answer from the represented set: [wnd_at_or_before] finds
    the latest mark at or before a number (or reports none), [wnd_at_or_after]
    the earliest one at or after it, and bit [i] of [wnd_get_mask] is the mark of
    the number [63 - i] before the position; none of them changes the window. *)
Theorem window_queries {C} w a s :
  represents w a → 0 ≤ s < 2 ^ 64 → 0 ≤ sp_age a s →
  (∃ r, wnd_at_or_before (C:=C) s w = Some (r, w, []) ∧ prev_marked w s r) ∧
  (∃ o, wnd_at_or_after (C:=C) s w = Some (o, w, []) ∧ next_marked w s o) ∧
  (∀ i, 0 ≤ i < 64 → Z.testbit (wnd_get_mask w s) i = bool_decide (u64 (s - 63 + i) ∈ sp_set a)).
Proof.
  intros Hr Hs Ha. destruct (represents_age w a s Hr Hs Ha) as [E _]. destruct Hr as (Hw & _ & Es). split_and!.
  - apply wnd_at_or_before_spec; [done..|lia].
  - by apply wnd_at_or_after_spec.
  - intros i Hi. rewrite <- Es. by apply wnd_get_mask_spec.
Qed.

Lemma window_queries_witness :
  represents window0 spec0 ∧ ∃ o, wnd_at_or_after (C:=False) 990 window0 = Some (o, window0, []) ∧ next_marked window0 990 o.
Proof.
  split; [exact window0_represents|].
  destruct (window_queries (C:=False) window0 spec0 990 window0_represents) as (_ & H & _);
    [split; vm_compute; congruence|vm_compute; congruence|exact H].
Defined.

(** Advancing the head across 2^64 breaks the window: the word shift wraps
    around, all marks are erased although they are inside the new window, and the
    counter still counts them. *)
Theorem window_advance_wrap :
  let w := {| marked := [0; 0; 0; 2 ^ 63]; summary := 1; head := 2 ^ 64 - 1; head_word := 3; num_marked := 1 |} in
  wnd_set w = {[ 2 ^ 64 - 1 ]} ∧
  (λ r, let '(_, w', l) := r in (wnd_num_marked w', bool_decide (wnd_set w' = ∅), l)) <$> wnd_advance (C:=False) 1 w
    = Some (1, true, [EvBug "wnd_advance: marks left"]).
Proof. split; vm_compute; reflexivity. Qed.
