(* ===== verification/Protocol.v ===== *)
(** * The Fastpass control protocol: connection state and handlers

    Model of [src/src/protocol/fpproto.c], [fpproto.h] and [outwnd.h]: the
    connection object, the retransmission timer, acknowledgements, resets, the
    at-most-once window and the receive and send paths.  Packet encoding is in
    [Codec].

    The user's callbacks ([struct fpproto_ops]) and [fpproto_pktdesc_free] are
    events of the log; they do not reenter the connection.  The clock is an
    argument of every procedure that reads it, one per read. *)

From S2P Require Import Prelude Platform Window.

(** ** Platform functions

    Hash and checksum come from generic.h in user space and from the Linux
    kernel in the kernel module, so the protocol is parameterised by them. *)
Class HashOps := {
  jhash_1word : Z → Z → Z;
  jhash_3words : Z → Z → Z → Z → Z;
  (** address of the buffer, buffer, initial value *)
  csum_partial : Z → list Z → Z → Z;
  csum_tcpudp_magic : Z → Z → Z → Z → Z → Z;
}.

(** What the protocol relies on: the C return types. *)
Class HashOk (H : HashOps) : Prop := {
  jhash_1word_u32 : ∀ a i, 0 ≤ jhash_1word a i < 2 ^ 32;
  csum_magic_u16 : ∀ s d l p c, 0 ≤ csum_tcpudp_magic s d l p c < 2 ^ 16;
}.

#[export] Instance generic_hash : HashOps := {|
  jhash_1word := fp_jhash_1word;
  jhash_3words := fp_jhash_3words;
  csum_partial := fp_csum_partial;
  csum_tcpudp_magic := fp_csum_tcpudp_magic;
|}.

(** The compile-time configuration: FASTPASS_ENDPOINT or FASTPASS_CONTROLLER,
    EMULATION_ALGO, and the per-scheme sizes of flags.h
    ([emu_req_data_bytes()], [emu_alloc_data_bytes()]). *)
Record build := {
  IS_ENDPOINT : bool;
  EMULATION_ALGO : bool;
  emu_req_data_bytes : Z;
  emu_alloc_data_bytes : Z;
}.

Definition RETRANSMIT_UNACKED_ALLOCS (B : build) : bool := negb (IS_ENDPOINT B) && EMULATION_ALGO B.

(** ** Constants *)
Definition IPPROTO_FASTPASS : Z := 222.
Definition FASTPASS_TO_CONTROLLER_SEQNO_OFFSET : Z := 0.
Definition FASTPASS_TO_ENDPOINT_SEQNO_OFFSET : Z := 0xDEADBEEF.
Definition FASTPASS_EGRESS_SEQNO_OFFSET (B : build) : Z :=
  if IS_ENDPOINT B then FASTPASS_TO_CONTROLLER_SEQNO_OFFSET else FASTPASS_TO_ENDPOINT_SEQNO_OFFSET.
Definition FASTPASS_INGRESS_SEQNO_OFFSET (B : build) : Z :=
  if IS_ENDPOINT B then FASTPASS_TO_ENDPOINT_SEQNO_OFFSET else FASTPASS_TO_CONTROLLER_SEQNO_OFFSET.
Definition FASTPASS_BAD_PKT_RESET_THRESHOLD : Z := 10.
Definition FASTPASS_RESET_WINDOW_NS : Z := 1000 * 1000 * 1000.
Definition FASTPASS_PTYPE_PADDING : Z := 0.
Definition FASTPASS_PTYPE_RESET : Z := 1.
Definition FASTPASS_PTYPE_AREQ : Z := 2.
Definition FASTPASS_PTYPE_ALLOC : Z := 3.
Definition FASTPASS_PTYPE_ACK : Z := 4.
Definition FASTPASS_PTYPE_EMU_ALLOC : Z := 5.
Definition FASTPASS_PTYPE_EMU_AREQ : Z := 6.
Definition FASTPASS_PROTOCOL_STATS_VERSION : Z := 2.

(** ** Packet descriptors *)
Record fpproto_areq_desc := { src_dst_key : Z; tslots : Z }.
Record fpproto_emu_desc := { emu_id : Z; emu_data : list Z }.

Record fpproto_pktdesc := {
  pd_sent_timestamp : Z;
  pd_seqno : Z;
  pd_ack_seq : Z;
  pd_ack_vec : Z;
  pd_send_reset : bool;
  pd_reset_timestamp : Z;
  pd_n_areq : Z;
  pd_areq : list fpproto_areq_desc;
  pd_areq_data_type : Z;
  pd_areq_data_bytes : Z;
  pd_areq_data_counts : list Z;
  pd_areq_data : list Z;
  pd_alloc_tslot : Z;
  pd_used_alloc_tslot : Z;
  pd_base_tslot : Z;
  pd_n_dsts : Z;
  pd_dsts : list Z;
  pd_tslot_desc : list Z;
  pd_emu_tslot_desc : list fpproto_emu_desc;
}.

(** The protocol header that [fpproto_commit_packet] fills in. *)
Definition pd_set_header (sent seqno : Z) (send_reset : bool) (rst ack_seq ack_vec : Z)
    (pd : fpproto_pktdesc) : fpproto_pktdesc := {|
  pd_sent_timestamp := sent; pd_seqno := seqno; pd_ack_seq := ack_seq;
  pd_ack_vec := ack_vec; pd_send_reset := send_reset; pd_reset_timestamp := rst;
  pd_n_areq := pd_n_areq pd; pd_areq := pd_areq pd;
  pd_areq_data_type := pd_areq_data_type pd; pd_areq_data_bytes := pd_areq_data_bytes pd;
  pd_areq_data_counts := pd_areq_data_counts pd; pd_areq_data := pd_areq_data pd;
  pd_alloc_tslot := pd_alloc_tslot pd; pd_used_alloc_tslot := pd_used_alloc_tslot pd;
  pd_base_tslot := pd_base_tslot pd; pd_n_dsts := pd_n_dsts pd; pd_dsts := pd_dsts pd;
  pd_tslot_desc := pd_tslot_desc pd; pd_emu_tslot_desc := pd_emu_tslot_desc pd;
|}.

(** ** Statistics: the counters of [struct fp_proto_stat] by name *)
Inductive stat_field :=
| version | out_max_seqno | timeout_handler_runs | ack_payloads | too_early_ack
| acked_packets | timeout_pkts | skip_ack_pkts | informative_ack_payloads
| reprogrammed_timer | earliest_unacked | committed_pkts | never_acked_pkts
| st_next_timeout_seqno | st_next_skip_ack_seqno | tx_num_unacked
| fall_off_outwnd
| rx_pkts | rx_too_short | rx_unknown_payload | rx_incomplete_reset
| rx_incomplete_alloc | rx_incomplete_ack | rx_incomplete_areq | rx_dup_pkt
| rx_out_of_order | rx_checksum_error | st_in_max_seqno | inwnd_jumped
| seqno_before_inwnd | st_consecutive_bad_pkts | st_inwnd
| st_in_sync | st_last_reset_time | reset_payloads | proto_resets | redundant_reset
| reset_both_recent_last_reset_wins | reset_both_recent_payload_wins
| reset_last_recent_payload_old | reset_last_old_payload_recent | reset_both_old
| no_reset_because_recent | reset_from_bad_pkts | forced_reset.

#[export] Instance stat_field_eq_dec : EqDecision stat_field.
Proof. solve_decision. Defined.

Definition fp_proto_stat := stat_field → Z.

Definition stat_set (f : stat_field) (v : Z) (s : fp_proto_stat) : fp_proto_stat :=
  λ g, if decide (g = f) then v else s g.

(** ** The user's callbacks: which are set, and the alloc payload format *)
Record fpproto_ops := {
  has_handle_reset : bool;
  has_handle_ack : bool;
  has_handle_neg_ack : bool;
  has_handle_skipped_ack : bool;
  has_trigger_request : bool;
  has_handle_alloc : bool;
  has_handle_areq : bool;
  alloc_bytes_per_tslot : Z;
}.

(** Calls out of the protocol. Packet descriptors are passed by pointer, [None]
    is NULL. [CHandleAlloc] and [CHandleAreq] pass the bytes from the pointer
    argument to the end of the packet. *)
Inductive proto_call :=
| CHandleReset
| CHandleAck (pd : option fpproto_pktdesc)
| CHandleNegAck (pd : option fpproto_pktdesc)
| CHandleSkippedAck (pd : option fpproto_pktdesc)
| CTriggerRequest
| CHandleAlloc (base_tslot : Z) (dst : list Z) (n_dst : Z) (tslots : list Z) (n_tslots : Z)
| CHandleAreq (dst_and_count : list Z) (n : Z)
| CSetTimer (when : Z)
| CCancelTimer
| CFree (pd : option fpproto_pktdesc).

(** ** The connection *)
Record fpproto_conn := {
  last_reset_time : Z;
  in_max_seqno : Z;
  in_sync : bool;
  ops : fpproto_ops;
  rst_win_ns : Z;
  send_timeout : Z;
  consecutive_bad_pkts : Z;
  outwnd : fp_window;
  unacked_pkts : list (option fpproto_pktdesc);
  next_timeout_seqno : Z;
  next_skip_ack_seqno : Z;
  inwnd : Z;
  stat : fp_proto_stat;
}.

Definition set_last_reset_time v c := {| last_reset_time := v; in_max_seqno := in_max_seqno c;
  in_sync := in_sync c; ops := ops c; rst_win_ns := rst_win_ns c; send_timeout := send_timeout c;
  consecutive_bad_pkts := consecutive_bad_pkts c; outwnd := outwnd c; unacked_pkts := unacked_pkts c;
  next_timeout_seqno := next_timeout_seqno c; next_skip_ack_seqno := next_skip_ack_seqno c;
  inwnd := inwnd c; stat := stat c |}.
Definition set_in_max_seqno v c := {| last_reset_time := last_reset_time c; in_max_seqno := v;
  in_sync := in_sync c; ops := ops c; rst_win_ns := rst_win_ns c; send_timeout := send_timeout c;
  consecutive_bad_pkts := consecutive_bad_pkts c; outwnd := outwnd c; unacked_pkts := unacked_pkts c;
  next_timeout_seqno := next_timeout_seqno c; next_skip_ack_seqno := next_skip_ack_seqno c;
  inwnd := inwnd c; stat := stat c |}.
Definition set_in_sync v c := {| last_reset_time := last_reset_time c; in_max_seqno := in_max_seqno c;
  in_sync := v; ops := ops c; rst_win_ns := rst_win_ns c; send_timeout := send_timeout c;
  consecutive_bad_pkts := consecutive_bad_pkts c; outwnd := outwnd c; unacked_pkts := unacked_pkts c;
  next_timeout_seqno := next_timeout_seqno c; next_skip_ack_seqno := next_skip_ack_seqno c;
  inwnd := inwnd c; stat := stat c |}.
Definition set_config o r t c := {| last_reset_time := last_reset_time c; in_max_seqno := in_max_seqno c;
  in_sync := in_sync c; ops := o; rst_win_ns := r; send_timeout := t;
  consecutive_bad_pkts := consecutive_bad_pkts c; outwnd := outwnd c; unacked_pkts := unacked_pkts c;
  next_timeout_seqno := next_timeout_seqno c; next_skip_ack_seqno := next_skip_ack_seqno c;
  inwnd := inwnd c; stat := stat c |}.
Definition set_consecutive_bad_pkts v c := {| last_reset_time := last_reset_time c;
  in_max_seqno := in_max_seqno c; in_sync := in_sync c; ops := ops c; rst_win_ns := rst_win_ns c;
  send_timeout := send_timeout c; consecutive_bad_pkts := v; outwnd := outwnd c;
  unacked_pkts := unacked_pkts c; next_timeout_seqno := next_timeout_seqno c;
  next_skip_ack_seqno := next_skip_ack_seqno c; inwnd := inwnd c; stat := stat c |}.
Definition set_outwnd v c := {| last_reset_time := last_reset_time c; in_max_seqno := in_max_seqno c;
  in_sync := in_sync c; ops := ops c; rst_win_ns := rst_win_ns c; send_timeout := send_timeout c;
  consecutive_bad_pkts := consecutive_bad_pkts c; outwnd := v; unacked_pkts := unacked_pkts c;
  next_timeout_seqno := next_timeout_seqno c; next_skip_ack_seqno := next_skip_ack_seqno c;
  inwnd := inwnd c; stat := stat c |}.
Definition set_unacked_pkts v c := {| last_reset_time := last_reset_time c;
  in_max_seqno := in_max_seqno c; in_sync := in_sync c; ops := ops c; rst_win_ns := rst_win_ns c;
  send_timeout := send_timeout c; consecutive_bad_pkts := consecutive_bad_pkts c; outwnd := outwnd c;
  unacked_pkts := v; next_timeout_seqno := next_timeout_seqno c;
  next_skip_ack_seqno := next_skip_ack_seqno c; inwnd := inwnd c; stat := stat c |}.
Definition set_next_timeout_seqno v c := {| last_reset_time := last_reset_time c;
  in_max_seqno := in_max_seqno c; in_sync := in_sync c; ops := ops c; rst_win_ns := rst_win_ns c;
  send_timeout := send_timeout c; consecutive_bad_pkts := consecutive_bad_pkts c; outwnd := outwnd c;
  unacked_pkts := unacked_pkts c; next_timeout_seqno := v;
  next_skip_ack_seqno := next_skip_ack_seqno c; inwnd := inwnd c; stat := stat c |}.
Definition set_next_skip_ack_seqno v c := {| last_reset_time := last_reset_time c;
  in_max_seqno := in_max_seqno c; in_sync := in_sync c; ops := ops c; rst_win_ns := rst_win_ns c;
  send_timeout := send_timeout c; consecutive_bad_pkts := consecutive_bad_pkts c; outwnd := outwnd c;
  unacked_pkts := unacked_pkts c; next_timeout_seqno := next_timeout_seqno c;
  next_skip_ack_seqno := v; inwnd := inwnd c; stat := stat c |}.
Definition set_inwnd v c := {| last_reset_time := last_reset_time c; in_max_seqno := in_max_seqno c;
  in_sync := in_sync c; ops := ops c; rst_win_ns := rst_win_ns c; send_timeout := send_timeout c;
  consecutive_bad_pkts := consecutive_bad_pkts c; outwnd := outwnd c; unacked_pkts := unacked_pkts c;
  next_timeout_seqno := next_timeout_seqno c; next_skip_ack_seqno := next_skip_ack_seqno c;
  inwnd := v; stat := stat c |}.
Definition set_stat f c := {| last_reset_time := last_reset_time c; in_max_seqno := in_max_seqno c;
  in_sync := in_sync c; ops := ops c; rst_win_ns := rst_win_ns c; send_timeout := send_timeout c;
  consecutive_bad_pkts := consecutive_bad_pkts c; outwnd := outwnd c; unacked_pkts := unacked_pkts c;
  next_timeout_seqno := next_timeout_seqno c; next_skip_ack_seqno := next_skip_ack_seqno c;
  inwnd := inwnd c; stat := f (stat c) |}.

Abbreviation P := (M proto_call fpproto_conn).

(** [conn->stat.f++] on a 64-bit counter. *)
Definition stat_inc (f : stat_field) : P unit :=
  modify (set_stat (λ s, stat_set f (u64 (s f + 1)) s)).

(** A procedure of window.h on [&conn->outwnd]. *)
Definition on_outwnd {A} (m : M proto_call fp_window A) : P A := zoom outwnd set_outwnd m.

Definition callback (present : bool) (c : proto_call) : P unit := when present (call c).

(** ** outwnd.h *)
Definition outwnd_peek (conn : fpproto_conn) (seqno : Z) : option fpproto_pktdesc :=
  arr_get (unacked_pkts conn) (wnd_pos seqno).

Definition outwnd_add (pd : option fpproto_pktdesc) : P unit :=
  bug_on (bool_decide (pd = None)) "outwnd_add: NULL";;
  on_outwnd (wnd_advance 1);;
  conn ← get;
  on_outwnd (wnd_mark (head (outwnd conn)));;
  modify (λ conn, set_unacked_pkts
    (arr_set (unacked_pkts conn) (wnd_pos (head (outwnd conn))) pd) conn).

Definition outwnd_pop (seqno : Z) : P (option fpproto_pktdesc) :=
  conn ← get;
  let seqno_index := wnd_pos seqno in
  let res := arr_get (unacked_pkts conn) seqno_index in
  on_outwnd (wnd_clear seqno);;
  modify (λ conn, set_unacked_pkts (arr_set (unacked_pkts conn) seqno_index None) conn);;
  mret res.

(** ** Packet bytes

    A packet is the list of its bytes; a load that is not inside it is undefined
    behaviour. [ntohs]/[ntohl] of a load are big-endian; the checksum field is
    compared in host order (little-endian). *)
Definition ld8 (pkt : list Z) (i : Z) : option Z := if i <? 0 then None else pkt !! Z.to_nat i.
Definition ld16 (pkt : list Z) (i : Z) : option Z :=
  a ← ld8 pkt i; b ← ld8 pkt (i + 1); Some (a * 2 ^ 8 + b).
Definition ld32 (pkt : list Z) (i : Z) : option Z :=
  a ← ld16 pkt i; b ← ld16 pkt (i + 2); Some (a * 2 ^ 16 + b).
Definition ld16_host (pkt : list Z) (i : Z) : option Z :=
  a ← ld8 pkt i; b ← ld8 pkt (i + 1); Some (a + b * 2 ^ 8).
Definition st16_host (pkt : list Z) (i v : Z) : list Z :=
  arr_set (arr_set pkt i (v mod 2 ^ 8)) (i + 1) (v / 2 ^ 8).

(** ** fpproto.c *)
Section fpproto.
Context (B : build) `{H : HashOps}.

Definition base_seqno_from_timestamp (reset_time : Z) : Z :=
  let time_hash := jhash_1word (u32 reset_time) (u32 (Z.shiftr reset_time 32)) in
  u64 (reset_time + time_hash + shl64 time_hash 32).

Definition tstamp_in_window (tstamp win_middle win_size : Z) : bool :=
  (tstamp >=? u64 (win_middle - win_size / 2))
  && (tstamp <? u64 (win_middle + u64 (win_size + 1) / 2)).

(** [addr] is the address of [pkt]; the addresses of the connection are not
    part of the sum. *)
Definition fastpass_checksum (addr : Z) (pkt : list Z) (seqno ack_seq : Z) : Z :=
  let seq_hash := jhash_3words (u32 seqno) (u32 (Z.shiftr seqno 32)) (u32 ack_seq)
                               (u32 (Z.shiftr ack_seq 32)) in
  let csum := csum_partial addr pkt seq_hash in
  csum_tcpudp_magic 0 0 (u16 (Z.of_nat (length pkt))) IPPROTO_FASTPASS csum.

Definition recompute_and_reset_retrans_timer : P unit :=
  conn ← get;
  has_unacked ← on_outwnd (wnd_at_or_after (next_timeout_seqno conn));
  match has_unacked with
  | None =>
      modify (λ conn, set_next_timeout_seqno (u64 (wnd_head (outwnd conn) + 1)) conn);;
      call CCancelTimer
  | Some seqno =>
      modify (set_next_timeout_seqno seqno);;
      pd ← deref (outwnd_peek conn seqno);
      let timeout := u64 (pd_sent_timestamp pd + send_timeout conn) in
      call CCancelTimer;;
      call (CSetTimer timeout);;
      stat_inc reprogrammed_timer
  end.

Definition do_ack_seqno (seqno : Z) : P unit :=
  conn ← get;
  bug_on (wnd_seq_after (outwnd conn) seqno) "do_ack_seqno: after window";;
  bug_on (wnd_seq_before (outwnd conn) seqno) "do_ack_seqno: before window";;
  stat_inc acked_packets;;
  bug_on (negb (wnd_is_marked (outwnd conn) seqno)) "do_ack_seqno: not marked";;
  pd ← outwnd_pop seqno;
  callback (has_handle_ack (ops conn)) (CHandleAck pd);;
  call (CFree pd).

Definition do_neg_ack_seqno (seq : Z) : P unit :=
  conn ← get;
  callback (has_handle_neg_ack (ops conn)) (CHandleNegAck (outwnd_peek conn seq)).

Definition do_skipped_ack_seqno (seq : Z) : P unit :=
  conn ← get;
  callback (has_handle_skipped_ack (ops conn)) (CHandleSkippedAck (outwnd_peek conn seq)).

(** The [clear_next_unacked] loop, from [tslot] down. Each turn removes a mark,
    so [FASTPASS_WND_LEN + 1] turns are enough. *)
Fixpoint free_unacked_loop (fuel : nat) (tslot : Z) : P unit :=
  match fuel with
  | O => ub
  | S fuel' =>
      gap ← on_outwnd (wnd_at_or_before tslot);
      if gap >=? 0 then
        let tslot := u64 (tslot - gap) in
        pd ← outwnd_pop tslot;
        call (CFree pd);;
        free_unacked_loop fuel' tslot
      else mret tt
  end.

Definition free_unacked : P unit :=
  conn ← get;
  free_unacked_loop (S (Z.to_nat FASTPASS_WND_LEN)) (wnd_head (outwnd conn)).

Definition do_proto_reset (reset_time : Z) (sync : bool) : P unit :=
  let base_seqno := base_seqno_from_timestamp reset_time in
  free_unacked;;
  modify (set_last_reset_time reset_time);;
  on_outwnd (wnd_reset (u64 (base_seqno + FASTPASS_EGRESS_SEQNO_OFFSET B - 1)));;
  modify (set_in_max_seqno (u64 (base_seqno + FASTPASS_INGRESS_SEQNO_OFFSET B - 1)));;
  modify (set_inwnd (not64 0));;
  modify (set_consecutive_bad_pkts 0);;
  modify (λ conn, set_next_timeout_seqno (u64 (wnd_head (outwnd conn) + 1)) conn);;
  modify (λ conn, set_next_skip_ack_seqno (u64 (wnd_head (outwnd conn) + 1)) conn);;
  modify (set_in_sync sync);;
  stat_inc proto_resets.

Definition fpproto_force_reset (now : Z) : P unit :=
  stat_inc forced_reset;;
  do_proto_reset now false.

(** The [while] loop of [fpproto_handle_timeout]: [None] when it runs out of
    unacknowledged packets, else the first packet that has not expired and its
    timeout. At most [FASTPASS_WND_LEN] packets are marked. *)
Fixpoint handle_timeout_loop (fuel : nat) (now seqno : Z) : P (option (Z * Z)) :=
  match fuel with
  | O => ub
  | S fuel' =>
      o ← on_outwnd (wnd_at_or_after seqno);
      match o with
      | None => mret None
      | Some seqno =>
          conn ← get;
          pd ← deref (outwnd_peek conn seqno);
          let timeout := u64 (pd_sent_timestamp pd + send_timeout conn) in
          if time_after64 timeout now then mret (Some (seqno, timeout))
          else
            stat_inc timeout_pkts;;
            do_neg_ack_seqno seqno;;
            handle_timeout_loop fuel' now (u64 (seqno + 1))
      end
  end.

Definition fpproto_handle_timeout (now : Z) : P unit :=
  stat_inc timeout_handler_runs;;
  conn ← get;
  o ← handle_timeout_loop (S (Z.to_nat FASTPASS_WND_LEN)) now (next_timeout_seqno conn);
  match o with
  | None => modify (λ conn, set_next_timeout_seqno (u64 (wnd_head (outwnd conn) + 1)) conn)
  | Some (seqno, timeout) =>
      modify (set_next_timeout_seqno seqno);;
      call (CSetTimer timeout)
  end.

(** Returns 0 if okay to continue processing, 1 to drop. *)
Definition reset_payload_handler (now full_tstamp : Z) : P Z :=
  stat_inc reset_payloads;;
  conn ← get;
  let accept :=
    do_proto_reset full_tstamp (IS_ENDPOINT B);;
    callback (has_handle_reset (ops conn)) CHandleReset;;
    mret 0 in
  if full_tstamp =? last_reset_time conn then
    (if IS_ENDPOINT B && negb (in_sync conn) then mret tt else stat_inc redundant_reset);;
    modify (set_in_sync (IS_ENDPOINT B));;
    mret 0
  else
    let last_is_recent := tstamp_in_window (last_reset_time conn) now (rst_win_ns conn) in
    let payload_is_recent := tstamp_in_window full_tstamp now (rst_win_ns conn) in
    if last_is_recent then
      if payload_is_recent then
        if time_before64 full_tstamp (last_reset_time conn) then
          stat_inc reset_both_recent_last_reset_wins;; mret 1
        else
          stat_inc reset_both_recent_payload_wins;; accept
      else
        stat_inc reset_last_recent_payload_old;; mret 1
    else
      if payload_is_recent then
        stat_inc reset_last_old_payload_recent;; accept
      else
        stat_inc reset_both_old;;
        do_proto_reset now (IS_ENDPOINT B);;
        callback (has_handle_reset (ops conn)) CHandleReset;;
        mret 1.

(** [while (todo_mask)]: acknowledges the set bits from the lowest up; returns
    [n_acked]. A mask has 64 bits. *)
Fixpoint ack_loop (fuel : nat) (ack_seq todo_mask n_acked : Z) : P Z :=
  if todo_mask =? 0 then mret n_acked
  else match fuel with
  | O => ub
  | S fuel' =>
      let offset := __ffs todo_mask in
      let cur_seqno := u64 (ack_seq - 63 + offset) in
      conn ← get;
      bug_on (wnd_seq_before (outwnd conn) cur_seqno) "ack_payload_handler: before window";;
      bug_on (negb (wnd_is_marked (outwnd conn) cur_seqno)) "ack_payload_handler: not marked";;
      do_ack_seqno cur_seqno;;
      ack_loop fuel' ack_seq (Z.land todo_mask (not64 (shl64 1 offset))) (n_acked + 1)
  end.

(** The loop over the packets skipped by an acknowledgement, at most
    [FASTPASS_WND_LEN] marked ones. *)
Fixpoint skipped_loop (fuel : nat) (ack_seq cur_seqno : Z) : P unit :=
  match fuel with
  | O => ub
  | S fuel' =>
      o ← on_outwnd (wnd_at_or_after cur_seqno);
      match o with
      | Some cur_seqno =>
          if cur_seqno <? ack_seq then
            stat_inc skip_ack_pkts;;
            do_skipped_ack_seqno cur_seqno;;
            skipped_loop fuel' ack_seq (u64 (cur_seqno + 1))
          else mret tt
      | None => mret tt
      end
  end.

Definition ack_payload_handler (ack_seq ack_vec : Z) : P unit :=
  stat_inc ack_payloads;;
  conn ← get;
  if wnd_seq_before (outwnd conn) ack_seq then stat_inc too_early_ack
  else
    let unacked_mask := wnd_get_mask (outwnd conn) ack_seq in
    let todo_mask := Z.land ack_vec unacked_mask in
    n_acked ← ack_loop 64 ack_seq todo_mask 0;
    (if RETRANSMIT_UNACKED_ALLOCS B then
       conn ← get;
       if ack_seq >=? next_skip_ack_seqno conn then
         skipped_loop (S (Z.to_nat FASTPASS_WND_LEN)) ack_seq (next_skip_ack_seqno conn);;
         modify (set_next_skip_ack_seqno (u64 (ack_seq + 1)))
       else mret tt
     else mret tt);;
    if n_acked >? 0 then
      recompute_and_reset_retrans_timer;;
      stat_inc informative_ack_payloads
    else mret tt.

Definition got_good_packet : P unit := modify (set_consecutive_bad_pkts 0).

Definition got_bad_packet (now : Z) : P unit :=
  modify (set_in_sync false);;
  modify (λ conn, set_consecutive_bad_pkts (u32 (consecutive_bad_pkts conn + 1)) conn);;
  conn ← get;
  (if consecutive_bad_pkts conn <? FASTPASS_BAD_PKT_RESET_THRESHOLD then mret tt
   else
     modify (set_consecutive_bad_pkts 0);;
     if time_in_range64 (last_reset_time conn) (u64 (now - FASTPASS_RESET_WINDOW_NS))
          (u64 (now + FASTPASS_RESET_WINDOW_NS)) then
       stat_inc no_reset_because_recent
     else
       stat_inc reset_from_bad_pkts;;
       do_proto_reset now false;;
       callback (has_handle_reset (ops conn)) CHandleReset);;
  callback (has_trigger_request (ops conn)) CTriggerRequest.

(** Returns 0 if the packet is accepted, 1 if it should be dropped. *)
Definition update_inwnd (seqno : Z) : P Z :=
  conn ← get;
  let head := in_max_seqno conn in
  if time_after_eq64 seqno (u64 (head + 64)) then
    stat_inc inwnd_jumped;;
    modify (set_in_max_seqno seqno);;
    modify (set_inwnd (shl64 1 63));;
    mret 0
  else if time_after64 seqno head then
    modify (λ conn, set_inwnd (Z.shiftr (inwnd conn) (u64 (seqno - head))) conn);;
    modify (λ conn, set_inwnd (Z.lor (inwnd conn) (shl64 1 63)) conn);;
    modify (set_in_max_seqno seqno);;
    mret 0
  else if time_before_eq64 seqno (u64 (head - 64)) then
    stat_inc seqno_before_inwnd;;
    mret 1
  else if negb (Z.land (inwnd conn) (shl64 1 (63 - u64 (head - seqno))) =? 0) then
    stat_inc rx_dup_pkt;;
    mret 1
  else
    modify (λ conn, set_inwnd (Z.lor (inwnd conn) (shl64 1 (63 - u64 (head - seqno)))) conn);;
    stat_inc rx_out_of_order;;
    mret 0.

Definition at_most_once_may_accept (conn : fpproto_conn) (seqno : Z) : Z :=
  let head := in_max_seqno conn in
  if time_after64 seqno head then 0
  else if time_before_eq64 seqno (u64 (head - 64)) then 1
  else if negb (Z.land (inwnd conn) (shl64 1 (63 - u64 (head - seqno))) =? 0) then 1
  else 0.

(** ** Payloads *)

(** [for (i = 0; i < alloc_n_dst; i++, curp += 2) alloc_dst[i] = ntohs(..);] *)
Fixpoint load_dsts (n : nat) (pkt : list Z) (curp : Z) : option (list Z) :=
  match n with
  | O => Some []
  | S n' => d ← ld16 pkt curp; ds ← load_dsts n' pkt (curp + 2); Some (d :: ds)
  end.

(** [data] is the offset of the payload in [pkt], [data_end] the packet length.
    Returns the payload length in bytes, or -1. *)
Definition process_alloc (pkt : list Z) (data : Z) : P Z :=
  conn ← get;
  let data_end := Z.of_nat (length pkt) in
  let curp := data in
  if curp + 2 >? data_end then
    stat_inc rx_incomplete_alloc;; mret (-1)
  else
    payload_type ← deref (ld16 pkt curp);
    let alloc_n_dst := Z.land (Z.shiftr payload_type 8) 0xF in
    let alloc_n_tslots := 2 * Z.land payload_type 0x3F in
    let bytes := alloc_bytes_per_tslot (ops conn) in
    let curp := curp + 2 in
    if curp + 4 + 2 * alloc_n_dst + alloc_n_tslots * bytes >? data_end then
      stat_inc rx_incomplete_alloc;; mret (-1)
    else
      base ← deref (ld16 pkt curp);
      let alloc_base_tslot := u32 (Z.shiftl base 4) in
      let curp := curp + 2 in
      alloc_dst ← deref (load_dsts (Z.to_nat alloc_n_dst) pkt curp);
      let curp := curp + 2 * alloc_n_dst in
      callback (has_handle_alloc (ops conn))
        (CHandleAlloc alloc_base_tslot alloc_dst alloc_n_dst
           (drop (Z.to_nat curp) pkt) alloc_n_tslots);;
      mret (4 + 2 * alloc_n_dst + alloc_n_tslots * bytes).

(** [for (i = 0; i < n_dst; i++) n_req_data += *curp++;] *)
Fixpoint sum_counts (n : nat) (pkt : list Z) (curp n_req_data : Z) : option Z :=
  match n with
  | O => Some n_req_data
  | S n' => c ← ld8 pkt curp; sum_counts n' pkt (curp + 1) (u16 (n_req_data + c))
  end.

Definition process_areq (pkt : list Z) (data : Z) : P Z :=
  conn ← get;
  let data_end := Z.of_nat (length pkt) in
  let curp := data in
  if curp + 2 >? data_end then
    stat_inc rx_incomplete_areq;; mret (-1)
  else
    payload_type ← deref (ld16 pkt curp);
    let n_dst := Z.land payload_type 0x3F in
    let curp := curp + 2 in
    if curp + 4 * n_dst >? data_end then
      stat_inc rx_incomplete_areq;; mret (-1)
    else
      callback (has_handle_areq (ops conn)) (CHandleAreq (drop (Z.to_nat curp) pkt) n_dst);;
      let curp := curp + 4 * n_dst in
      curp ←
        (if EMULATION_ALGO B && negb (IS_ENDPOINT B) && (emu_req_data_bytes B >? 0) then
           n_req_data ← deref (sum_counts (Z.to_nat n_dst) pkt curp 0);
           let curp := curp + n_dst in
           let curp := if Z.odd n_dst then curp + 1 else curp in
           mret (curp + emu_req_data_bytes B * n_req_data)
         else mret curp);
      mret (curp - data).

(** ** Receive path *)

(** [in_seq += (ntohs(hdr->seq) - in_seq) & 0xFFFF]: the number whose low 16
    bits are those of the packet, at or after the base. *)
Definition expand16 (base low : Z) : Z := u64 (base + Z.land (u64 (low - base)) 0xFFFF).

(** The 64 bits of a reset timestamp from its low 56 and the current time. *)
Definition expand56 (now partial : Z) : Z :=
  let rst := u64 (now - 2 ^ 55) in
  u64 (rst + Z.land (u64 (partial - rst)) (2 ^ 56 - 1)).

(** The acknowledgement vector carried by the 16 bits of the header. *)
Definition expand_ack_vec (ack_vec16 : Z) : Z :=
  let ack_vec := Z.land (u64 (shl64 1 48 - Z.shiftr ack_vec16 15)) (not64 (shl64 1 48)) in
  Z.lor ack_vec (Z.lor (shl64 (Z.land ack_vec16 0x7FFF) 48) (shl64 1 63)).

Definition fpproto_successful_rx (in_seq : Z) : P unit :=
  update_inwnd in_seq;; mret tt.

(** [now1] is the clock read by this function, [now2] the one read by the
    handler it calls. The result is the return value with [*returned_in_seq]
    when it is true, and the packet with its checksum field cleared. *)
Definition fpproto_handle_rx_packet (now1 now2 addr : Z) (pkt : list Z) : P (option Z * list Z) :=
  let len := Z.of_nat (length pkt) in
  stat_inc rx_pkts;;
  if len <? 8 then stat_inc rx_too_short;; mret (None, pkt)
  else
    conn ← get;
    let curp := 8 in
    payload_type ← deref (if len =? 8 then Some 0 else b ← ld8 pkt curp; Some (Z.shiftr b 4));
    seq16 ← deref (ld16 pkt 0);
    ack16 ← deref (ld16 pkt 2);
    ack_vec16 ← deref (ld16 pkt 4);
    let is_reset := payload_type =? FASTPASS_PTYPE_RESET in
    if is_reset && (curp + 8 >? len) then stat_inc rx_incomplete_reset;; mret (None, pkt)
    else
      '(rst_tstamp, in_seq, ack_seq) ←
        (if is_reset then
           hi ← deref (ld32 pkt curp);
           lo ← deref (ld32 pkt (curp + 4));
           let partial_tstamp := Z.lor (shl64 (Z.land hi (2 ^ 24 - 1)) 32) lo in
           let rst_tstamp := expand56 now1 partial_tstamp in
           let base_seqno := base_seqno_from_timestamp rst_tstamp in
           mret (rst_tstamp, u64 (base_seqno + FASTPASS_INGRESS_SEQNO_OFFSET B),
                 u64 (base_seqno + FASTPASS_EGRESS_SEQNO_OFFSET B - 1))
         else
           mret (0, u64 (in_max_seqno conn - 2 ^ 14),
                 u64 (wnd_head (outwnd conn) - 2 ^ 16 + 1)));
      let in_seq := expand16 in_seq seq16 in
      let ack_seq := expand16 ack_seq ack16 in
      expected_checksum ← deref (ld16_host pkt 6);
      let pkt := st16_host pkt 6 0 in
      if negb (fastpass_checksum addr pkt in_seq ack_seq =? expected_checksum) then
        got_bad_packet now2;;
        stat_inc rx_checksum_error;;
        mret (None, pkt)
      else
        got_good_packet;;
        '(drop_pkt, curp) ←
          (if is_reset then
             modify (set_in_sync false);;
             callback (negb (IS_ENDPOINT B) && has_trigger_request (ops conn)) CTriggerRequest;;
             rc ← reset_payload_handler now2 rst_tstamp;
             mret (negb (rc =? 0), curp + 8)
           else
             modify (set_in_sync true);; mret (false, curp));
        if (drop_pkt : bool) then mret (None, pkt)
        else
          conn ← get;
          if negb (at_most_once_may_accept conn in_seq =? 0) then mret (None, pkt)
          else
            ack_payload_handler ack_seq (expand_ack_vec ack_vec16);;
            if curp =? len then
              fpproto_successful_rx in_seq;; mret (None, pkt)
            else
              b ← deref (ld8 pkt curp);
              if negb (Z.shiftr b 4 =? FASTPASS_PTYPE_ACK) then mret (Some in_seq, pkt)
              else if curp + 6 >? len then
                stat_inc rx_incomplete_ack;; mret (None, pkt)
              else
                hi ← deref (ld32 pkt curp);
                lo ← deref (ld16 pkt (curp + 4));
                let ack_vec := shl64 (Z.land hi (2 ^ 28 - 1)) 20 in
                ack_payload_handler ack_seq (Z.lor ack_vec (shl64 lo 4));;
                mret (Some in_seq, pkt).

(** The [handle_payload] loop from offset [curp] (inside the packet). Every
    payload is at least two bytes long. *)
Fixpoint rx_payloads (fuel : nat) (pkt : list Z) (curp : Z) : P bool :=
  match fuel with
  | O => ub
  | S fuel' =>
      let data_end := Z.of_nat (length pkt) in
      b ← deref (ld8 pkt curp);
      let payload_type := Z.shiftr b 4 in
      let next (curp : Z) : P bool :=
        if curp <? data_end then rx_payloads fuel' pkt curp else mret true in
      if payload_type =? FASTPASS_PTYPE_ACK then next (curp + 6)
      else if payload_type =? FASTPASS_PTYPE_RESET then next (curp + 8)
      else if (payload_type =? FASTPASS_PTYPE_ALLOC) || (payload_type =? FASTPASS_PTYPE_EMU_ALLOC) then
        payload_length ← process_alloc pkt curp;
        if payload_length =? -1 then mret false else next (curp + payload_length)
      else if (payload_type =? FASTPASS_PTYPE_AREQ) || (payload_type =? FASTPASS_PTYPE_EMU_AREQ) then
        payload_length ← process_areq pkt curp;
        if payload_length =? -1 then mret false else next (curp + payload_length)
      else if payload_type =? FASTPASS_PTYPE_PADDING then next data_end
      else stat_inc rx_unknown_payload;; mret false
  end.

Definition fpproto_perform_rx_callbacks (pkt : list Z) : P bool :=
  bug_on (8 =? Z.of_nat (length pkt)) "fpproto_perform_rx_callbacks: empty";;
  rx_payloads (length pkt) pkt 8.

Definition fpproto_handle_rx_complete (now1 now2 addr : Z) (pkt : list Z) : P unit :=
  '(ret, pkt) ← fpproto_handle_rx_packet now1 now2 addr pkt;
  match ret with
  | None => mret tt
  | Some in_seq =>
      ok ← fpproto_perform_rx_callbacks pkt;
      if (ok : bool) then fpproto_successful_rx in_seq else mret tt
  end.

(** ** Send path *)
Definition fpproto_prepare_to_send : P unit :=
  conn ← get;
  let window_edge := wnd_edge (outwnd conn) in
  if wnd_is_marked (outwnd conn) window_edge then
    stat_inc never_acked_pkts;;
    (if time_after_eq64 window_edge (next_timeout_seqno conn) then
       stat_inc fall_off_outwnd;;
       do_neg_ack_seqno window_edge;;
       modify (set_next_timeout_seqno (u64 (window_edge + 1)));;
       recompute_and_reset_retrans_timer
     else mret tt);;
    pd ← outwnd_pop window_edge;
    call (CFree pd)
  else mret tt.

(** The 16 header bits that summarise the incoming window. *)
Definition compress_inwnd (w : Z) : Z :=
  Z.lor (Z.land (Z.shiftr w 48) 0x7FFF)
        (Z.shiftl (b2z (Z.land w (Z.shiftr (not64 0) 16) =? Z.shiftr (not64 0) 16)) 15).

(** Returns the descriptor with its header filled in (the caller's pointer and
    the one stored in the window are the same object). *)
Definition fpproto_commit_packet (pd : fpproto_pktdesc) (timestamp : Z) : P fpproto_pktdesc :=
  conn ← get;
  let pd := pd_set_header timestamp (u64 (wnd_head (outwnd conn) + 1)) (negb (in_sync conn))
              (last_reset_time conn) (in_max_seqno conn) (compress_inwnd (inwnd conn)) pd in
  outwnd_add (Some pd);;
  stat_inc committed_pkts;;
  recompute_and_reset_retrans_timer;;
  mret pd.

(** ** Setup, teardown and statistics *)
Definition fpproto_update_internal_stats : P unit :=
  conn ← get;
  e ← (if wnd_empty (outwnd conn) then mret 0 else on_outwnd wnd_earliest_marked);
  modify (set_stat (λ s,
    stat_set st_next_skip_ack_seqno (next_skip_ack_seqno conn)
    (stat_set st_next_timeout_seqno (next_timeout_seqno conn)
    (stat_set st_inwnd (inwnd conn)
    (stat_set earliest_unacked e
    (stat_set tx_num_unacked (u16 (wnd_num_marked (outwnd conn)))
    (stat_set st_consecutive_bad_pkts (u16 (consecutive_bad_pkts conn))
    (stat_set st_in_sync (b2z (in_sync conn))
    (stat_set st_in_max_seqno (in_max_seqno conn)
    (stat_set out_max_seqno (wnd_head (outwnd conn))
    (stat_set st_last_reset_time (last_reset_time conn)
    (stat_set version FASTPASS_PROTOCOL_STATS_VERSION s)))))))))))).

Definition fpproto_dump_stats (conn : fpproto_conn) : fp_proto_stat := stat conn.

Definition fpproto_init_conn (now : Z) (o : fpproto_ops) (rst_win send_tmo : Z) : P unit :=
  do_proto_reset now false;;
  modify (set_config o rst_win (u32 send_tmo)).

Definition fpproto_destroy_conn : P unit := free_unacked.
End fpproto.
