(* ===== verification/ConnFacts.v ===== *)
(** * Invariant of a connection and the operations on its outgoing window

    [conn_wf] ties the marks of the outgoing window to the packet descriptors
    kept for retransmission.  A connection represents the partial map [out_pd]
    from unacknowledged sequence numbers to descriptors; this file gives the
    effect of the operations of outwnd.h, of the timer and of the reset on that
    map. *)

From S2P Require Import Prelude Platform Window WindowFacts WindowSpec Protocol.

(** Reduces record projections, updates and the logs, and nothing else. *)
Ltac conn_simpl :=
  cbn [last_reset_time in_max_seqno in_sync ops rst_win_ns send_timeout
       consecutive_bad_pkts outwnd unacked_pkts next_timeout_seqno next_skip_ack_seqno
       inwnd stat set_last_reset_time set_in_max_seqno set_in_sync set_config
       set_consecutive_bad_pkts set_outwnd set_unacked_pkts set_next_timeout_seqno
       set_next_skip_ack_seqno set_inwnd set_stat app negb andb orb].

(** The outgoing half: window and descriptors. *)
Record out_wf (c : fpproto_conn) : Prop := {
  cw_wnd : wnd_wf (outwnd c);
  cw_len : length (unacked_pkts c) = 256%nat;
  cw_slots : ∀ p, 0 ≤ p < 256 →
    is_Some (arr_get (unacked_pkts c) p) ↔ wbit (marked (outwnd c)) p = true;
  cw_seqno : ∀ s pd, s ∈ wnd_set (outwnd c) → outwnd_peek c s = Some pd → pd_seqno pd = s;
}.

(** The scalar fields. *)
Record fields_wf (c : fpproto_conn) : Prop := {
  cw_next_timeout : 0 ≤ next_timeout_seqno c < 2 ^ 64;
  cw_next_skip : 0 ≤ next_skip_ack_seqno c < 2 ^ 64;
  cw_in_max : 0 ≤ in_max_seqno c < 2 ^ 64;
  cw_inwnd : 0 ≤ inwnd c < 2 ^ 64;
  cw_inwnd_head : Z.testbit (inwnd c) 63 = true;
}.

Record conn_wf (c : fpproto_conn) : Prop := {
  cw_out : out_wf c;
  cw_fields : fields_wf c;
}.

(** The unacknowledged packets. *)
Definition out_pd (c : fpproto_conn) (s : Z) : option fpproto_pktdesc :=
  if decide (s ∈ wnd_set (outwnd c)) then outwnd_peek c s else None.

(** The parts of the connection that the invariants look at. *)
Lemma out_wf_frame c c' :
  outwnd c' = outwnd c → unacked_pkts c' = unacked_pkts c → out_wf c → out_wf c'.
Proof.
  intros Ew Eu [? ? ? Hs]. constructor; rewrite ?Ew, ?Eu; try done.
  intros s pd. unfold outwnd_peek. rewrite Eu. apply Hs.
Qed.

Lemma out_pd_frame c c' :
  outwnd c' = outwnd c → unacked_pkts c' = unacked_pkts c → ∀ s, out_pd c' s = out_pd c s.
Proof. intros Ew Eu s. unfold out_pd, outwnd_peek. by rewrite Ew, Eu. Qed.

(** ** Slots *)
Section slots.
Context (c : fpproto_conn) (Hc : out_wf c).

Lemma peek_marked s :
  s ∈ wnd_set (outwnd c) → ∃ pd, outwnd_peek c s = Some pd ∧ pd_seqno pd = s.
Proof using Hc.
  intros Hs. pose proof Hs as (_ & _ & Hm)%(elem_of_wnd_set_age _ (cw_wnd c Hc)).
  rewrite wnd_is_marked_wbit in Hm. apply (cw_slots c Hc) in Hm as [pd Hpd]; [|zify_div; lia].
  exists pd. unfold outwnd_peek. rewrite wnd_pos_mod.
  split; [done|]. apply (cw_seqno c Hc); [done|]. unfold outwnd_peek. by rewrite wnd_pos_mod.
Qed.

Lemma out_pd_marked s :
  s ∈ wnd_set (outwnd c) ↔ is_Some (out_pd c s).
Proof using Hc.
  unfold out_pd. case_decide as E; [|split; [done|by intros [? ?]]].
  destruct (peek_marked s E) as (pd & -> & _). by split.
Qed.

Lemma out_pd_seqno s pd : out_pd c s = Some pd → pd_seqno pd = s.
Proof using Hc. unfold out_pd. case_decide; [|done]. by apply (cw_seqno c Hc). Qed.

Lemma peek_out_pd s : s ∈ wnd_set (outwnd c) → outwnd_peek c s = out_pd c s.
Proof using Type. intros Hs. unfold out_pd. by rewrite decide_True. Qed.
End slots.

(** Two marked numbers of one window have different slots. *)
Lemma slot_inj w s t :
  s ∈ wnd_set w → t ∈ wnd_set w → wnd_pos s = wnd_pos t → s = t.
Proof.
  rewrite !elem_of_wnd_set, !wnd_pos_mod.
  intros (X & HX & -> & _) (Y & HY & -> & _). rewrite !u64_mod_256.
  intros E. f_equal. zify_div; lia.
Qed.

(** ** Removing a packet *)
Lemma outwnd_pop_spec c s :
  out_wf c → s ∈ wnd_set (outwnd c) →
  ∃ pd w' l', outwnd_pop s c = Some (Some pd, set_unacked_pkts l' (set_outwnd w' c), []) ∧
    let c' := set_unacked_pkts l' (set_outwnd w' c) in
    out_wf c' ∧ out_pd c s = Some pd ∧ head w' = head (outwnd c) ∧
    wnd_set w' = wnd_set (outwnd c) ∖ {[ s ]} ∧
    ∀ t, out_pd c' t = if decide (t = s) then None else out_pd c t.
Proof.
  intros Hc Hs. pose proof (cw_wnd c Hc) as Hwf.
  destruct (wnd_clear_spec (C:=proto_call) (outwnd c) s Hwf Hs) as (w' & Hrun & Hwf' & Hh & Hset & Hm).
  destruct (peek_marked c Hc s Hs) as (pd & Hpd & Hsq).
  exists pd, w', (arr_set (unacked_pkts c) (wnd_pos s) None).
  unfold outwnd_pop, on_outwnd. munfold. rewrite Hrun. conn_simpl.
  unfold outwnd_peek in Hpd. rewrite Hpd. split; [done|].
  assert (0 ≤ wnd_pos s < 256) as Hp by (rewrite wnd_pos_mod; zify_div; lia).
  assert (Hpeek : ∀ t, t ∈ wnd_set w' →
     arr_get (arr_set (unacked_pkts c) (wnd_pos s) None) (wnd_pos t) = outwnd_peek c t).
  { intros t Ht. rewrite Hset in Ht. rewrite arr_get_set; [|rewrite (cw_len c Hc); lia|
      rewrite wnd_pos_mod; zify_div; lia].
    rewrite decide_False; [done|]. intros E. apply (slot_inj (outwnd c)) in E; set_solver. }
  split_and!; try done.
  - destruct Hc as [? Hl Hsl Hsn]. constructor; try done; simpl.
    + by rewrite length_arr_set.
    + intros p Hpr. rewrite arr_get_set by (rewrite ?Hl; lia).
      rewrite Hm, wbit_clear_bit by (rewrite ?(wf_len _ Hwf); zify_div; lia).
      rewrite wnd_pos_mod. case_decide as E.
      * rewrite bool_decide_eq_true_2 by done. simpl. split; [by intros [? ?]|done].
      * rewrite bool_decide_eq_false_2 by congruence. by apply Hsl.
    + intros t pd' Ht. unfold outwnd_peek at 1. simpl. rewrite Hpeek by done.
      apply Hsn. set_solver.
  - unfold out_pd. by rewrite decide_True.
  - intros t. unfold out_pd. simpl. destruct (decide (t = s)) as [->|Hne].
    + rewrite decide_False; [done|]. rewrite Hset. set_solver.
    + destruct (decide (t ∈ wnd_set (outwnd c))) as [Ht|Ht].
      * rewrite decide_True by set_solver. unfold outwnd_peek at 1. simpl. apply Hpeek. set_solver.
      * rewrite decide_False by set_solver. done.
Qed.

(** ** Adding a packet *)
Lemma outwnd_add_spec c pd :
  out_wf c → head (outwnd c) + 1 < 2 ^ 64 → wnd_edge (outwnd c) ∉ wnd_set (outwnd c) →
  pd_seqno pd = head (outwnd c) + 1 →
  ∃ w' l', outwnd_add (Some pd) c = Some (tt, set_unacked_pkts l' (set_outwnd w' c), []) ∧
    let c' := set_unacked_pkts l' (set_outwnd w' c) in
    out_wf c' ∧ head w' = head (outwnd c) + 1 ∧
    wnd_set w' = {[ head (outwnd c) + 1 ]} ∪ wnd_set (outwnd c) ∧
    ∀ t, out_pd c' t = if decide (t = head (outwnd c) + 1) then Some pd else out_pd c t.
Proof.
  intros Hc Hlt Hedge Hsq. pose proof (cw_wnd c Hc) as Hwf. pose proof (wf_head _ Hwf) as Hh.
  set (h := head (outwnd c) + 1) in *.
  destruct (wnd_advance_spec (C:=proto_call) (outwnd c) 1 Hwf) as (w1 & Hrun1 & Hwf1 & Hh1 & Hset1 & Hb1);
    [lia|lia| |].
  { intros s Hs. pose proof (wnd_set_age _ Hwf s Hs) as [Hsr Ha].
    assert (age (outwnd c) s ≠ 191); [|lia]. intros E. apply Hedge.
    replace (wnd_edge (outwnd c)) with s; [done|].
    unfold wnd_edge, age in *. wconst. mlia. }
  assert (h ∉ wnd_set (outwnd c)) as Hnew.
  { intros Hin%(wnd_set_age _ Hwf). unfold age, h in Hin. mlia. }
  destruct (wnd_mark_spec (C:=proto_call) w1 h Hwf1) as (w2 & Hrun2 & Hwf2 & Hh2 & Hset2 & Hm2);
    [lia|unfold age; rewrite Hh1; unfold h; mlia|by rewrite Hset1|].
  exists w2, (arr_set (unacked_pkts c) (wnd_pos h) (Some pd)).
  unfold outwnd_add, on_outwnd. munfold. rewrite Hrun1. conn_simpl. rewrite Hh1. fold h.
  rewrite Hrun2. conn_simpl. rewrite Hh2, Hh1. fold h. split; [done|].
  assert (0 ≤ wnd_pos h < 256) as Hp by (rewrite wnd_pos_mod; zify_div; lia).
  assert (Hpeek : ∀ t, t ∈ wnd_set w2 →
     arr_get (arr_set (unacked_pkts c) (wnd_pos h) (Some pd)) (wnd_pos t) =
     if decide (t = h) then Some pd else outwnd_peek c t).
  { intros t Ht. rewrite arr_get_set; [|rewrite (cw_len c Hc); lia|
      rewrite wnd_pos_mod; zify_div; lia].
    destruct (decide (t = h)) as [->|]; [by rewrite decide_True|].
    rewrite decide_False; [done|]. intros E. apply (slot_inj w2) in E; set_solver. }
  assert (wnd_set w2 = {[ h ]} ∪ wnd_set (outwnd c)) as Hset by (by rewrite Hset2, Hset1).
  split_and!; try done.
  - destruct Hc as [? Hl Hsl Hsn]. constructor; try done; simpl.
    + by rewrite length_arr_set.
    + intros p Hpr. rewrite arr_get_set by (rewrite ?Hl; lia).
      rewrite Hm2, wbit_set_bit by (rewrite ?(wf_len _ Hwf1); zify_div; lia).
      rewrite wnd_pos_mod. case_decide as E.
      * rewrite bool_decide_eq_true_2 by done. simpl. split; [done|eauto].
      * rewrite bool_decide_eq_false_2 by congruence. simpl. rewrite Hsl by done.
        specialize (Hb1 p). unfold ubit in Hb1. rewrite Z.mod_small in Hb1 by lia. by rewrite Hb1.
    + intros t pd' Ht. unfold outwnd_peek at 1. simpl. rewrite Hpeek by done.
      case_decide; [intros; simplify_eq; done|]. apply Hsn. set_solver.
  - intros t. unfold out_pd. simpl. destruct (decide (t = h)) as [->|Hne].
    + rewrite decide_True by set_solver. unfold outwnd_peek. simpl.
      rewrite Hpeek by set_solver. by rewrite decide_True.
    + destruct (decide (t ∈ wnd_set (outwnd c))) as [Ht|Ht].
      * rewrite decide_True by set_solver. unfold outwnd_peek at 1. simpl.
        rewrite Hpeek by set_solver. by rewrite decide_False.
      * rewrite decide_False by set_solver. done.
Qed.
