(* ===== verification/ConnSpec.v ===== *)
(** * Specification of the protocol handlers

    Total-correctness specifications, in the program logic of [Prelude], of the
    timer, acknowledgement and reset handlers of fpproto.c: on a well-formed
    connection they are defined, no [FASTPASS_BUG_ON] fires, and they have the
    stated effect on the map of unacknowledged packets and on the callbacks. *)

From S2P Require Import Prelude Platform Window WindowFacts WindowSpec WindowMarks Protocol ConnFacts.

(** ** Symbolic execution *)
Lemma wp_stat_inc (f : stat_field) (Q : unit → fpproto_conn → list (event proto_call) → Prop) c :
  Q tt (set_stat (λ s, stat_set f (u64 (s f + 1)) s) c) [] → wp (stat_inc f) Q c.
Proof. done. Qed.

Lemma wp_callback (b : bool) (k : proto_call) (Q : unit → fpproto_conn → list (event proto_call) → Prop) c :
  Q tt c (if b then [EvCall k] else []) → wp (callback b k) Q c.
Proof. by destruct b. Qed.

Lemma wp_on_outwnd {A} (m : M proto_call fp_window A) (Q : A → fpproto_conn → _ → Prop) c a w l :
  m (outwnd c) = Some (a, w, l) → Q a (set_outwnd w c) l → wp (on_outwnd m) Q c.
Proof. intros Hm HQ. apply wp_zoom. by eapply wp_run. Qed.

Lemma set_outwnd_same c : set_outwnd (outwnd c) c = c.
Proof. by destruct c. Qed.

Ltac wp_step :=
  lazymatch goal with
  | |- wp (mbind _ _) _ _ => apply wp_bind
  | |- wp (mret _) _ _ => apply wp_ret
  | |- wp get _ _ => apply wp_get
  | |- wp (modify _) _ _ => apply wp_modify
  | |- wp (call _) _ _ => apply wp_call
  | |- wp (stat_inc _) _ _ => apply wp_stat_inc
  | |- wp (callback _ _) _ _ => apply wp_callback
  | |- wp (if ?b then _ else _) _ _ => let E := fresh "E" in destruct b eqn:E
  end; cbv beta; conn_simpl.
Ltac wp_steps := repeat wp_step.

(** ** Invariants under updates of other fields *)
Lemma out_wf_fields c c' : out_wf c → outwnd c' = outwnd c ∧ unacked_pkts c' = unacked_pkts c → out_wf c'.
Proof. intros Hc [? ?]. by apply (out_wf_frame c). Qed.

Lemma fields_wf_intro c :
  0 ≤ next_timeout_seqno c < 2 ^ 64 → 0 ≤ next_skip_ack_seqno c < 2 ^ 64 →
  0 ≤ in_max_seqno c < 2 ^ 64 → 0 ≤ inwnd c < 2 ^ 64 → Z.testbit (inwnd c) 63 = true → fields_wf c.
Proof. by constructor. Qed.

(** Closes the invariant of a connection that differs from one in the context
    by fields whose range is evident. *)
Ltac conn_wf_tac :=
  match goal with
  | Hc : conn_wf ?c |- conn_wf _ =>
      let Ho := fresh in let Hf := fresh in
      destruct Hc as [Ho Hf]; constructor;
      [apply (out_wf_fields _ _ Ho); by split|destruct Hf; apply fields_wf_intro; conn_simpl; auto with flex]
  end.

(** ** The retransmission timer *)
Definition timeout_of (c : fpproto_conn) (pd : fpproto_pktdesc) : Z :=
  u64 (pd_sent_timestamp pd + send_timeout c).

(** The packet the timer waits for, and what [recompute_and_reset_retrans_timer]
    does to the timer. *)
Definition next_timeout_of (c : fpproto_conn) : Z :=
  match marks_from (outwnd c) (next_timeout_seqno c) with
  | [] => u64 (head (outwnd c) + 1)
  | s :: _ => s
  end.

Definition timer_events (c : fpproto_conn) : list (event proto_call) :=
  EvCall CCancelTimer ::
  match marks_from (outwnd c) (next_timeout_seqno c) with
  | [] => []
  | s :: _ => from_option (λ pd, [EvCall (CSetTimer (timeout_of c pd))]) [] (out_pd c s)
  end.

Lemma recompute_spec c :
  conn_wf c →
  wp recompute_and_reset_retrans_timer (λ _ c' l,
    conn_wf c' ∧ (∃ f, c' = set_stat f (set_next_timeout_seqno (next_timeout_of c) c)) ∧
    l = timer_events c) c.
Proof.
  intros Hc. pose proof (cw_out c Hc) as Ho. pose proof (cw_wnd c Ho) as Hwf.
  destruct (wnd_at_or_after_spec (C:=proto_call) (outwnd c) (next_timeout_seqno c) Hwf)
    as (o & Hrun & Hnext); [apply Hc|].
  unfold recompute_and_reset_retrans_timer, timer_events, next_timeout_of. wp_steps.
  eapply wp_on_outwnd; [exact Hrun|]. rewrite set_outwnd_same.
  destruct o as [s|]; wp_steps.
  - rewrite (next_marked_some _ Hwf _ s Hnext).
    destruct Hnext as (Hs & Hrest). destruct (peek_marked c Ho s Hs) as (pd & Hpd & Hsq).
    pose proof (wnd_set_u64 _ s Hwf Hs). eapply wp_deref; [exact Hpd|]. wp_steps.
    rewrite <- (peek_out_pd c s Hs), Hpd. split_and!; [conn_wf_tac| |done].
    by exists (λ s0, stat_set reprogrammed_timer (u64 (s0 reprogrammed_timer + 1)) s0).
  - rewrite (next_marked_none _ Hwf _ Hnext). split_and!; [conn_wf_tac| |done].
    by exists id.
Qed.

(** ** Popping one packet *)
Lemma pop_spec c s :
  out_wf c → s ∈ wnd_set (outwnd c) →
  wp (outwnd_pop s) (λ o c' l,
    o = out_pd c s ∧ l = [] ∧ out_wf c' ∧ (∃ w' l', c' = set_unacked_pkts l' (set_outwnd w' c)) ∧
    head (outwnd c') = head (outwnd c) ∧ wnd_set (outwnd c') = wnd_set (outwnd c) ∖ {[ s ]} ∧
    ∀ t, out_pd c' t = if decide (t = s) then None else out_pd c t) c.
Proof.
  intros Hc Hs. destruct (outwnd_pop_spec c s Hc Hs) as (pd & w' & l' & Hrun & Hc' & Hpd & Hh & Hset & Hout).
  eapply wp_run; [exact Hrun|]. split_and!; try done. by eauto.
Qed.

Lemma conn_wf_out_update c c' w l :
  conn_wf c → c' = set_unacked_pkts l (set_outwnd w c) → out_wf c' → conn_wf c'.
Proof. intros [_ Hf] -> Ho. constructor; [done|]. by destruct Hf. Qed.

(** ** Freeing all the unacknowledged packets *)
Definition free_events (c : fpproto_conn) (ss : list Z) : list (event proto_call) :=
  (λ s, EvCall (CFree (out_pd c s))) <$> ss.

Lemma free_unacked_loop_spec fuel c tslot :
  out_wf c → (size (wnd_set (outwnd c)) < fuel)%nat →
  0 ≤ tslot < 2 ^ 64 → 0 ≤ sage (outwnd c) tslot →
  (∀ t, t ∈ wnd_set (outwnd c) → sage (outwnd c) tslot ≤ age (outwnd c) t) →
  wp (free_unacked_loop fuel tslot) (λ _ c' l,
    out_wf c' ∧ (∃ w' l', c' = set_unacked_pkts l' (set_outwnd w' c)) ∧
    head (outwnd c') = head (outwnd c) ∧ wnd_set (outwnd c') = ∅ ∧
    ∃ ss, l = free_events c ss ∧ NoDup ss ∧ list_to_set ss = wnd_set (outwnd c)) c.
Proof.
  revert c tslot. induction fuel as [|fuel IH]; intros c tslot Hc Hf Ht Ha Hall; [lia|].
  pose proof (cw_wnd c Hc) as Hwf. cbn [free_unacked_loop].
  destruct (wnd_at_or_before_spec (C:=proto_call) (outwnd c) tslot Hwf Ht Ha) as (r & Hrun & Hprev).
  apply wp_bind. eapply wp_on_outwnd; [exact Hrun|]. rewrite set_outwnd_same.
  destruct Hprev as [[-> Hno]|(Hr & Hin & Hage & Hmin)].
  - wp_steps; [done|]. assert (wnd_set (outwnd c) = ∅) as He.
    { apply set_eq. intros t. split; [|set_solver]. intros Hin.
      specialize (Hno t Hin). specialize (Hall t Hin). lia. }
    split_and!; try done.
    + exists (outwnd c), (unacked_pkts c). by destruct c.
    + exists []. rewrite He. split_and!; [done|constructor|done].
  - set (s := u64 (tslot - r)) in *. rewrite Z.geb_leb, (proj2 (Z.leb_le 0 r)) by lia.
    cbv zeta. fold s. apply wp_bind. eapply wp_mono; [by apply pop_spec|].
    intros o c1 l1 (-> & -> & Hc1 & (w1 & l1' & E1) & Hh1 & Hset1 & Hout1).
    conn_simpl. wp_steps. subst c1. set (c1 := set_unacked_pkts l1' (set_outwnd w1 c)) in *.
    assert (Hage1 : ∀ t, age (outwnd c1) t = age (outwnd c) t) by (intros t; unfold age; by rewrite Hh1).
    assert (sage (outwnd c1) s = age (outwnd c) s) as Hsage1.
    { unfold sage. rewrite Hh1. by apply sage_in_set. }
    eapply wp_mono; [apply (IH c1 s)|].
    + done.
    + rewrite Hset1, size_difference, size_singleton by set_solver.
      assert (size (wnd_set (outwnd c)) ≠ 0%nat) by (apply size_non_empty_iff; set_solver). lia.
    + by apply (wnd_set_u64 _ _ Hwf).
    + rewrite Hsage1. apply u64_range.
    + intros t Hin1. rewrite Hsage1, Hage1, Hage. apply Hmin; [set_solver|]. apply Hall. set_solver.
    + intros _ c2 l2 (Hc2 & (w2 & l2' & ->) & Hh2 & He2 & ss & -> & Hnd & Hss).
      split_and!; try done.
      * by exists w2, l2'.
      * by rewrite Hh2.
      * exists (s :: ss).
        assert (∀ t, t ∈ ss → t ∈ wnd_set (outwnd c) ∖ {[s]}) as Hssin.
        { intros t Hts. rewrite <- Hset1, <- Hss. by apply elem_of_list_to_set. }
        split_and!.
        -- unfold free_events. rewrite fmap_cons. f_equal. apply list_fmap_ext.
           intros i t Hti%list_elem_of_lookup_2. rewrite Hout1, decide_False; [done|].
           specialize (Hssin t Hti). set_solver.
        -- constructor; [|done]. intros Hs%Hssin. set_solver.
        -- rewrite list_to_set_cons, Hss, Hset1. apply set_eq. intros t.
           destruct (decide (t = s)); set_solver.
Qed.

Lemma sage_head w : wnd_wf w → sage w (head w) = 0.
Proof. intros Hwf. unfold sage. rewrite Z.sub_diag. done. Qed.

(** [free_unacked] terminates, frees every unacknowledged packet exactly once
    and leaves the window empty. *)
Lemma free_unacked_spec c :
  out_wf c →
  wp free_unacked (λ _ c' l,
    out_wf c' ∧ (∃ w' l', c' = set_unacked_pkts l' (set_outwnd w' c)) ∧
    head (outwnd c') = head (outwnd c) ∧ wnd_set (outwnd c') = ∅ ∧
    ∃ ss, l = free_events c ss ∧ NoDup ss ∧ list_to_set ss = wnd_set (outwnd c)) c.
Proof.
  intros Hc. pose proof (cw_wnd c Hc) as Hwf. unfold free_unacked. wp_steps.
  eapply wp_mono; [apply free_unacked_loop_spec|].
  - done.
  - pose proof (size_wnd_set (outwnd c)). wconst. lia.
  - apply (wf_head _ Hwf).
  - unfold wnd_head. rewrite (sage_head _ Hwf). lia.
  - intros t Ht%(wnd_set_age _ Hwf). unfold wnd_head. rewrite (sage_head _ Hwf). lia.
  - intros [] c' l H. exact H.
Qed.

(** The window map of a connection without marks. *)
Lemma out_pd_empty c : wnd_set (outwnd c) = ∅ → ∀ s, out_pd c s = None.
Proof. intros He s. unfold out_pd. rewrite decide_False; [done|]. rewrite He. set_solver. Qed.

Section reset.
Context (B : build) `{H : HashOps}.

(** The connection after a reset to [reset_time]: both directions restart from
    numbers derived from the timestamp. *)
Record is_reset (reset_time : Z) (sync : bool) (c : fpproto_conn) : Prop := {
  ir_time : last_reset_time c = reset_time;
  ir_sync : in_sync c = sync;
  ir_head : head (outwnd c) =
    u64 (base_seqno_from_timestamp reset_time + FASTPASS_EGRESS_SEQNO_OFFSET B - 1);
  ir_empty : wnd_set (outwnd c) = ∅;
  ir_in_max : in_max_seqno c =
    u64 (base_seqno_from_timestamp reset_time + FASTPASS_INGRESS_SEQNO_OFFSET B - 1);
  ir_inwnd : inwnd c = 2 ^ 64 - 1;
  ir_bad : consecutive_bad_pkts c = 0;
  ir_timeout : next_timeout_seqno c = u64 (head (outwnd c) + 1);
  ir_skip : next_skip_ack_seqno c = u64 (head (outwnd c) + 1);
}.

(** The fields fixed at initialisation. *)
Definition same_config (c c' : fpproto_conn) : Prop :=
  ops c' = ops c ∧ rst_win_ns c' = rst_win_ns c ∧ send_timeout c' = send_timeout c.

Lemma do_proto_reset_spec reset_time sync c :
  out_wf c →
  wp (do_proto_reset B reset_time sync) (λ _ c' l,
    conn_wf c' ∧ is_reset reset_time sync c' ∧ same_config c c' ∧
    ∃ ss, l = free_events c ss ∧ NoDup ss ∧ list_to_set ss = wnd_set (outwnd c)) c.
Proof.
  intros Hc. unfold do_proto_reset. cbv zeta. apply wp_bind.
  eapply wp_mono; [by apply free_unacked_spec|].
  intros _ c1 l1 (Hc1 & (w1 & l1' & E1) & Hh1 & He1 & Hss). wp_steps.
  destruct (wnd_reset_spec (C:=proto_call) w1
    (u64 (base_seqno_from_timestamp reset_time + FASTPASS_EGRESS_SEQNO_OFFSET B - 1)))
    as (w2 & Hrun & Hwf2 & Hh2 & He2 & Hm2); [apply u64_range|].
  eapply wp_on_outwnd; [subst c1; exact Hrun|]. conn_simpl. wp_steps.
  rewrite !app_nil_r.
  assert (unacked_pkts c1 = l1') as El by (by subst c1).
  assert (same_config c c1) as Hcfg by (by subst c1).
  split_and!; try done.
  constructor; [constructor|constructor]; conn_simpl; try done; unfold wnd_head; auto with flex.
  - apply Hc1.
  - intros p Hp. rewrite (cw_slots c1 Hc1 p Hp).
    pose proof (empty_ubit _ (cw_wnd c1 Hc1) He1 p) as Hb1.
    pose proof (empty_ubit _ Hwf2 He2 p) as Hb2.
    unfold ubit in Hb1, Hb2. rewrite Z.mod_small in Hb1, Hb2 by lia. by rewrite Hb1, Hb2.
  - intros s pd Hs. rewrite He2 in Hs. set_solver.
Qed.
End reset.
