(* ===== verification/ConnAck.v ===== *)
(** * Acknowledgements

    The handlers of fpproto.c that remove packets from the outgoing window when
    the peer acknowledges them: which packets they remove, which callbacks they
    make, and that their loops terminate within the fuel of the model. *)

From S2P Require Import Prelude Platform Window WindowFacts WindowSpec WindowMarks Protocol ConnFacts.
From S2P Require Import ConnSpec.

(** ** Frames: the connection up to its outgoing half and its statistics *)
Record same_but_out (c c' : fpproto_conn) : Prop := {
  sb_reset : last_reset_time c' = last_reset_time c;
  sb_in_max : in_max_seqno c' = in_max_seqno c;
  sb_sync : in_sync c' = in_sync c;
  sb_ops : ops c' = ops c;
  sb_rst_win : rst_win_ns c' = rst_win_ns c;
  sb_send : send_timeout c' = send_timeout c;
  sb_bad : consecutive_bad_pkts c' = consecutive_bad_pkts c;
  sb_timeout : next_timeout_seqno c' = next_timeout_seqno c;
  sb_skip : next_skip_ack_seqno c' = next_skip_ack_seqno c;
  sb_inwnd : inwnd c' = inwnd c;
}.

#[export] Instance same_but_out_refl : Reflexive same_but_out.
Proof. intros c. by constructor. Qed.

#[export] Instance same_but_out_trans : Transitive same_but_out.
Proof. intros a b c [] []. constructor; congruence. Qed.

Lemma conn_wf_same_but_out c c' : conn_wf c → same_but_out c c' → out_wf c' → conn_wf c'.
Proof. intros [_ []] [] Ho. constructor; [done|]. constructor; congruence. Qed.

(** ** One acknowledged packet *)
(** What the user sees when [s] is acknowledged. *)
Definition ack_events (c : fpproto_conn) (s : Z) : list (event proto_call) :=
  (if has_handle_ack (ops c) then [EvCall (CHandleAck (out_pd c s))] else [])
  ++ [EvCall (CFree (out_pd c s))].

(** [c'] is [c] with the packets [ss] removed from the outgoing window. *)
Record acked (ss : list Z) (c c' : fpproto_conn) : Prop := {
  ak_out : out_wf c';
  ak_same : same_but_out c c';
  ak_head : head (outwnd c') = head (outwnd c);
  ak_set : wnd_set (outwnd c') = wnd_set (outwnd c) ∖ list_to_set ss;
  ak_pd : ∀ t, out_pd c' t = if decide (t ∈ ss) then None else out_pd c t;
}.

Lemma do_ack_seqno_spec c s :
  out_wf c → s ∈ wnd_set (outwnd c) →
  wp (do_ack_seqno s) (λ _ c' l, acked [s] c c' ∧ l = ack_events c s) c.
Proof.
  intros Hc Hs. destruct (in_window_checks _ s (cw_wnd c Hc) Hs) as (Eb & Ea & Em).
  unfold do_ack_seqno. wp_step. apply wp_get. conn_simpl. wp_step.
  apply wp_bug_on; [done|]. wp_step. apply wp_bug_on; [done|]. wp_steps.
  apply wp_bug_on; [by rewrite Em|]. wp_step.
  set (c0 := set_stat _ c). assert (out_wf c0) as Hc0 by (by apply (out_wf_fields c)).
  eapply wp_mono; [by apply (pop_spec c0 s)|].
  intros o c' l (-> & -> & Hc' & (w' & l' & ->) & Hh & Hset & Hpd). wp_steps. split; [|done].
  constructor; try done.
  - rewrite Hset. set_solver.
  - intros t. rewrite Hpd. destruct (decide (t = s)).
    + rewrite decide_True by set_solver. done.
    + rewrite decide_False by set_solver. done.
Qed.

Lemma acked_trans ss1 ss2 c1 c2 c3 : acked ss1 c1 c2 → acked ss2 c2 c3 → acked (ss1 ++ ss2) c1 c3.
Proof.
  intros [_ Hs1 Hh1 Hset1 Hp1] [Ho Hs2 Hh2 Hset2 Hp2]. constructor; [done|by etrans|congruence| |].
  - rewrite Hset2, Hset1, list_to_set_app_L. set_solver.
  - intros t. rewrite Hp2, Hp1. repeat case_decide; set_solver.
Qed.

Lemma acked_nil c : out_wf c → acked [] c c.
Proof.
  intros Hc. constructor; try done. set_solver.
Qed.

Lemma acked_stat f ss c c' : acked ss (set_stat f c) c' → acked ss c c'.
Proof. intros [? [] ? ? ?]. by constructor. Qed.

(** ** The acknowledgement loop *)
Definition ack_seqnos (ack_seq mask : Z) : list Z :=
  (λ i, u64 (ack_seq - 63 + i)) <$> mask_bits mask.

Lemma ack_seqnos_NoDup ack_seq mask : NoDup (ack_seqnos ack_seq mask).
Proof.
  apply NoDup_fmap_2_strong; [|apply NoDup_mask_bits].
  intros i j Hi%elem_of_mask_bits Hj%elem_of_mask_bits. mlia.
Qed.

Lemma ack_events_acked ss c c' s : acked ss c c' → s ∉ ss → ack_events c' s = ack_events c s.
Proof.
  intros [_ Hsame _ _ Hpd] Hs. unfold ack_events. by rewrite Hpd, decide_False, (sb_ops _ _ Hsame).
Qed.

Lemma ack_loop_spec fuel c ack_seq mask n :
  out_wf c → 0 ≤ mask < 2 ^ 64 → (length (mask_bits mask) ≤ fuel)%nat →
  (∀ s, s ∈ ack_seqnos ack_seq mask → s ∈ wnd_set (outwnd c)) →
  wp (ack_loop fuel ack_seq mask n) (λ r c' l,
    r = n + Z.of_nat (length (ack_seqnos ack_seq mask)) ∧ acked (ack_seqnos ack_seq mask) c c' ∧
    l = ack_seqnos ack_seq mask ≫= ack_events c) c.
Proof.
  revert c mask n. induction fuel as [|fuel IH]; intros c mask n Hc Hm Hf Hin; cbn [ack_loop];
    destruct (Z.eqb_spec mask 0) as [->|Hne].
  1,3: apply wp_ret; split_and!; [simpl; lia|by apply acked_nil|done].
  { destruct (mask_bits_ffs mask Hm Hne) as (_ & _ & _ & E). rewrite E in Hf. simpl in Hf. lia. }
  destruct (mask_bits_ffs mask Hm Hne) as (Ho & Hb & Hm' & E). cbv zeta.
  set (o := __ffs mask) in *. set (mask' := Z.land mask (not64 (shl64 1 o))) in *.
  set (s := u64 (ack_seq - 63 + o)).
  assert (ack_seqnos ack_seq mask = s :: ack_seqnos ack_seq mask') as Es.
  { unfold ack_seqnos. by rewrite E, fmap_cons. }
  assert (s ∈ wnd_set (outwnd c)) as Hs by (apply Hin; rewrite Es; set_solver).
  pose proof (ack_seqnos_NoDup ack_seq mask) as Hnd. rewrite Es in *. apply NoDup_cons in Hnd as [Hnd _].
  destruct (in_window_checks _ s (cw_wnd c Hc) Hs) as (Eb & Ea & Em).
  wp_step. apply wp_get. conn_simpl. wp_step. apply wp_bug_on; [done|].
  wp_step. apply wp_bug_on; [by rewrite Em|]. wp_step.
  eapply wp_mono; [by apply do_ack_seqno_spec|]. intros [] c1 l1 [Hk1 ->].
  rewrite E in Hf. eapply wp_mono; [apply (IH c1 mask' (n + 1))|].
  - apply Hk1.
  - done.
  - simpl in Hf. lia.
  - intros t Ht. rewrite (ak_set _ _ _ Hk1). set_solver.
  - intros r c2 l2 (-> & Hk2 & ->). split_and!.
    + simpl. lia.
    + by apply (acked_trans [s] _ c c1 c2).
    + simpl. f_equal. apply Forall_bind_ext, Forall_forall. intros t Ht.
      apply (ack_events_acked [s]); [done|]. set_solver.
Qed.

(** ** Packets skipped by an acknowledgement *)
Definition skip_events (c : fpproto_conn) (s : Z) : list (event proto_call) :=
  if has_handle_skipped_ack (ops c) then [EvCall (CHandleSkippedAck (out_pd c s))] else [].

Lemma peek_out_pd_frame c c' s :
  outwnd c' = outwnd c → unacked_pkts c' = unacked_pkts c → s ∈ wnd_set (outwnd c) →
  outwnd_peek c' s = out_pd c s.
Proof. intros Ew Eu Hs. unfold outwnd_peek. rewrite Eu. by apply (peek_out_pd c s). Qed.

Lemma skipped_loop_spec fuel c ack_seq s :
  out_wf c → 0 ≤ s < 2 ^ 64 → (length (marks_from (outwnd c) s) < fuel)%nat →
  wp (skipped_loop fuel ack_seq s) (λ _ c' l,
    (∃ f, c' = set_stat f c) ∧
    l = take_while (λ t, t <? ack_seq) (marks_from (outwnd c) s) ≫= skip_events c) c.
Proof.
  revert c s. induction fuel as [|fuel IH]; intros c s Hc Hs Hf; [lia|]. cbn [skipped_loop].
  pose proof (cw_wnd c Hc) as Hwf.
  destruct (wnd_at_or_after_spec (C:=proto_call) (outwnd c) s Hwf Hs) as (o & Hrun & Hnext).
  wp_step. eapply wp_on_outwnd; [exact Hrun|]. rewrite set_outwnd_same.
  assert (∃ f, c = set_stat f c) as Hid by (exists id; by destruct c).
  destruct o as [t|]; [|apply wp_ret; by rewrite (next_marked_none _ Hwf s Hnext)].
  pose proof (proj1 Hnext) as Ht.
  rewrite (next_marked_some _ Hwf s t Hnext) in Hf |- *. cbn [take_while].
  destruct (t <? ack_seq) eqn:E; [|by apply wp_ret].
  wp_step. wp_step. wp_step. unfold do_skipped_ack_seqno at 1. wp_step. apply wp_get.
  wp_steps. simpl in Hf. set (c0 := set_stat _ c).
  eapply wp_mono; [apply (IH c0)|].
  - by apply (out_wf_fields c).
  - apply u64_range.
  - simpl. lia.
  - intros [] c' l [[f ->] ->]. split; [by eexists (λ s, f _)|]. simpl. f_equal.
    unfold skip_events. by rewrite (peek_out_pd_frame c c0 t).
Qed.

(** ** The acknowledgement payload *)

(** The unacknowledged packets that [ack_seq] and [ack_vec] name. *)
Definition newly_acked (c : fpproto_conn) (ack_seq ack_vec : Z) : list Z :=
  filter (λ s, s ∈ wnd_set (outwnd c)) (ack_seqnos ack_seq ack_vec).

Lemma newly_acked_mask c ack_seq ack_vec :
  wnd_wf (outwnd c) → 0 ≤ ack_seq < 2 ^ 64 →
  ack_seqnos ack_seq (Z.land ack_vec (wnd_get_mask (outwnd c) ack_seq)) =
  newly_acked c ack_seq ack_vec.
Proof.
  intros Hwf Ha. unfold newly_acked, ack_seqnos, mask_bits. rewrite list_filter_map.
  f_equal. rewrite list_filter_filter. apply list_filter_ext_in.
  intros i Hi%elem_of_seqZ.
  rewrite Z.land_spec, wnd_get_mask_spec, andb_true_iff, bool_decide_eq_true by (done || lia).
  naive_solver.
Qed.

(** An acknowledgement older than the window names nothing in it. *)
Lemma newly_acked_early c ack_seq ack_vec :
  wnd_wf (outwnd c) → 0 ≤ ack_seq < 2 ^ 64 → wnd_seq_before (outwnd c) ack_seq = true →
  newly_acked c ack_seq ack_vec = [].
Proof.
  intros Hwf Ha Hb. apply list_filter_none. intros s (i & -> & Hi%elem_of_mask_bits)%list_elem_of_fmap.
  intros Hs%(wnd_set_age _ Hwf). pose proof (wf_head _ Hwf).
  unfold wnd_seq_before, wnd_edge in Hb. apply time_before64_spec in Hb.
  revert Hb Hs. unfold age. wconst. mlia.
Qed.

Section ack_payload.
Context (B : build).

(** The packets that [ack_payload_handler] reports as skipped. *)
Definition skipped_by (c : fpproto_conn) (ack_seq ack_vec : Z) : list Z :=
  if negb (wnd_seq_before (outwnd c) ack_seq) && RETRANSMIT_UNACKED_ALLOCS B
     && (ack_seq >=? next_skip_ack_seqno c) then
    take_while (λ t, t <? ack_seq)
      (filter (λ t, t ∉@{gset Z} list_to_set (newly_acked c ack_seq ack_vec))
        (marks_from (outwnd c) (next_skip_ack_seqno c)))
  else [].

(** [c'] is [c] after the packets [ss] were acknowledged: the parts outside the
    outgoing half are as before, except the two scan positions. *)
Record after_ack (ss : list Z) (c c' : fpproto_conn) : Prop := {
  aa_wf : conn_wf c';
  aa_head : head (outwnd c') = head (outwnd c);
  aa_set : wnd_set (outwnd c') = wnd_set (outwnd c) ∖ list_to_set ss;
  aa_pd : ∀ t, out_pd c' t = if decide (t ∈ ss) then None else out_pd c t;
  aa_config : same_config c c';
  aa_in : in_max_seqno c' = in_max_seqno c ∧ inwnd c' = inwnd c;
  aa_state : last_reset_time c' = last_reset_time c ∧ in_sync c' = in_sync c ∧
    consecutive_bad_pkts c' = consecutive_bad_pkts c;
}.

Lemma acked_after ss c c' : conn_wf c → acked ss c c' → after_ack ss c c'.
Proof.
  intros Hc [Ho Hs Hh Hset Hpd]. constructor; try done; try (by destruct Hs).
  by apply (conn_wf_same_but_out c).
Qed.

Lemma after_ack_frame ss c c1 c2 :
  after_ack ss c c1 → conn_wf c2 → outwnd c2 = outwnd c1 → unacked_pkts c2 = unacked_pkts c1 →
  same_config c1 c2 → in_max_seqno c2 = in_max_seqno c1 → inwnd c2 = inwnd c1 →
  last_reset_time c2 = last_reset_time c1 → in_sync c2 = in_sync c1 →
  consecutive_bad_pkts c2 = consecutive_bad_pkts c1 → after_ack ss c c2.
Proof.
  intros [_ ? ? ? (? & ? & ?) [? ?] (? & ? & ?)] Hwf Ew Eu (? & ? & ?) ? ? ? ? ?.
  constructor; rewrite ?Ew; try done; try (split_and!; congruence).
  intros t. by rewrite (out_pd_frame c1 c2).
Qed.

(** The calls that restart the timer of [c'], whose earliest candidate was that
    of [c]. *)
Definition restart_events (c c' : fpproto_conn) : list (event proto_call) :=
  timer_events (set_next_timeout_seqno (next_timeout_seqno c) c').

Lemma timer_events_frame c c' :
  outwnd c' = outwnd c → unacked_pkts c' = unacked_pkts c → send_timeout c' = send_timeout c →
  next_timeout_seqno c' = next_timeout_seqno c → timer_events c' = timer_events c.
Proof.
  intros Ew Eu Es En. unfold timer_events. rewrite Ew, En. f_equal.
  destruct (marks_from _ _) as [|t l]; [done|]. rewrite (out_pd_frame c c') by done.
  unfold timeout_of. by rewrite Es.
Qed.

Lemma ack_finish ss c c1 (n : Z) :
  after_ack ss c c1 → next_timeout_seqno c1 = next_timeout_seqno c →
  wp (if n >? 0 then recompute_and_reset_retrans_timer;; stat_inc informative_ack_payloads
      else mret tt) (λ _ c' l,
    after_ack ss c c' ∧ next_skip_ack_seqno c' = next_skip_ack_seqno c1 ∧
    l = if n >? 0 then restart_events c c' else []) c1.
Proof.
  intros Ha En. pose proof (aa_wf _ _ _ Ha) as Hc1. wp_steps; [|done].
  eapply wp_mono; [by apply recompute_spec|]. intros [] c' l (Hc' & (f & ->) & ->). wp_steps.
  rewrite app_nil_r. split_and!; [|done|].
  - apply (after_ack_frame ss c c1); try done. conn_wf_tac.
  - symmetry. by apply timer_events_frame.
Qed.

Lemma skip_events_after ss c c1 (ts : list Z) :
  after_ack ss c c1 → Forall (λ t, t ∉ ss) ts → ts ≫= skip_events c1 = ts ≫= skip_events c.
Proof.
  intros Ha Hts. apply Forall_bind_ext. eapply Forall_impl; [done|]. intros t Ht. simpl.
  unfold skip_events. destruct (aa_config _ _ _ Ha) as (Eo & _).
  by rewrite Eo, (aa_pd _ _ _ Ha), decide_False.
Qed.

(** The scan for skipped packets, after [ss] were acknowledged. *)
Lemma ack_skip ss c c1 ack_seq ack_vec :
  ss = newly_acked c ack_seq ack_vec → wnd_seq_before (outwnd c) ack_seq = false →
  after_ack ss c c1 → same_but_out c c1 →
  wp (if RETRANSMIT_UNACKED_ALLOCS B then
       conn ← get;
       if ack_seq >=? next_skip_ack_seqno conn then
         skipped_loop (S (Z.to_nat FASTPASS_WND_LEN)) ack_seq (next_skip_ack_seqno conn);;
         modify (set_next_skip_ack_seqno (u64 (ack_seq + 1)))
       else mret tt
     else mret tt) (λ _ c' l,
    after_ack ss c c' ∧ next_timeout_seqno c' = next_timeout_seqno c ∧
    l = skipped_by c ack_seq ack_vec ≫= skip_events c) c1.
Proof.
  intros Ess Eb Ha Hs. pose proof (aa_wf _ _ _ Ha) as Hc1. unfold skipped_by. rewrite Eb. simpl negb.
  pose proof (sb_timeout _ _ Hs) as Et. pose proof (sb_skip _ _ Hs) as Esk.
  destruct (RETRANSMIT_UNACKED_ALLOCS B); [|by apply wp_ret].
  wp_step. apply wp_get. rewrite Esk. conn_simpl.
  destruct (ack_seq >=? next_skip_ack_seqno c); [|by apply wp_ret].
  pose proof (aa_wf _ _ _ Ha) as [Ho1 Hf1].
  wp_step. eapply wp_mono; [apply skipped_loop_spec|].
  - done.
  - rewrite <- Esk. apply Hf1.
  - pose proof (length_marks_from (outwnd c1) (next_skip_ack_seqno c)). wconst. lia.
  - intros [] c2 l [[f ->] ->]. wp_steps. rewrite app_nil_r. split_and!; [|done|].
    + apply (after_ack_frame ss c c1); try done. conn_wf_tac.
    + rewrite (marks_from_remove (outwnd c) (outwnd c1) _ _ (aa_head _ _ _ Ha) (aa_set _ _ _ Ha)).
      subst ss. apply (skip_events_after _ c c1 _ Ha). apply take_while_Forall, Forall_forall.
      intros t [Ht _]%list_elem_of_filter. by rewrite elem_of_list_to_set in Ht.
Qed.

(** [ack_payload_handler] removes exactly the packets it is told about, reports
    each of them once, in order, reports the skipped ones, and restarts the
    timer iff it removed something. *)
Lemma ack_payload_handler_spec c ack_seq ack_vec :
  conn_wf c → 0 ≤ ack_seq < 2 ^ 64 → 0 ≤ ack_vec < 2 ^ 64 →
  wp (ack_payload_handler B ack_seq ack_vec) (λ _ c' l,
    let ss := newly_acked c ack_seq ack_vec in
    after_ack ss c c' ∧
    l = (ss ≫= ack_events c) ++ (skipped_by c ack_seq ack_vec ≫= skip_events c) ++
        match ss with [] => [] | _ => restart_events c c' end) c.
Proof.
  intros Hc Ha Hv. pose proof (cw_wnd c (cw_out c Hc)) as Hwf.
  unfold ack_payload_handler. wp_step. wp_step. wp_step. wp_step. conn_simpl.
  set (c0 := set_stat _ c). assert (conn_wf c0) as Hc0 by conn_wf_tac.
  destruct (wnd_seq_before (outwnd c) ack_seq) eqn:Eb.
  { apply wp_stat_inc. rewrite (newly_acked_early c ack_seq ack_vec Hwf Ha Eb).
    unfold skipped_by. rewrite Eb. split; [|done].
    apply (after_ack_frame [] c c0); try done; [|conn_wf_tac].
    apply acked_after; [done|]. eapply acked_stat, (acked_nil c0 (cw_out _ Hc0)). }
  pose proof (newly_acked_mask c ack_seq ack_vec Hwf Ha) as Ess.
  set (ss := newly_acked c ack_seq ack_vec) in *.
  assert (0 ≤ Z.land ack_vec (wnd_get_mask (outwnd c) ack_seq) < 2 ^ 64) as Hm.
  { apply land_range; [done|by apply wnd_get_mask_range|lia]. }
  wp_step. eapply wp_mono; [apply (ack_loop_spec 64 c0)|].
  - apply Hc0.
  - done.
  - apply length_mask_bits.
  - rewrite Ess. intros s [Hs _]%list_elem_of_filter. done.
  - rewrite Ess. intros n c1 l1 (-> & Hk & ->). conn_simpl.
    apply acked_stat in Hk. assert (after_ack ss c c1) as Ha1 by by (by apply acked_after).
    wp_step. eapply wp_mono; [apply (ack_skip ss c c1); done || apply (ak_same _ _ _ Hk)|].
    intros [] c2 l2 (Ha2 & Et2 & ->).
    eapply wp_mono; [by apply (ack_finish ss c c2)|].
    intros [] c3 l3 (Ha3 & _ & ->). conn_simpl. split; [done|]. f_equal. f_equal.
    destruct ss as [|s ss']; [done|]. simpl length.
    by rewrite (proj2 (Z.gtb_lt _ _)) by lia.
Qed.
End ack_payload.
