(* ===== verification/ConnSend.v ===== *)
(** * Timeouts and sending

    Specifications of the timer callback and of the send path of fpproto.c:
    which packets are reported as lost and in which order, which packet falls
    off the window, and the descriptor that is committed. *)

From S2P Require Import Prelude Platform Window WindowFacts WindowSpec WindowMarks Protocol ConnFacts.
From S2P Require Import ConnSpec ConnAck.

(** ** The retransmission timer *)
Definition neg_events (c : fpproto_conn) (s : Z) : list (event proto_call) :=
  if has_handle_neg_ack (ops c) then [EvCall (CHandleNegAck (out_pd c s))] else [].

(** Packet [s] has timed out at time [now]. *)
Definition expired (c : fpproto_conn) (now s : Z) : bool :=
  from_option (λ pd, negb (time_after64 (timeout_of c pd) now)) false (out_pd c s).

Lemma neg_ack_spec c s :
  s ∈ wnd_set (outwnd c) →
  wp (do_neg_ack_seqno s) (λ _ c' l, c' = c ∧ l = neg_events c s) c.
Proof.
  intros Hs. unfold do_neg_ack_seqno. wp_steps. unfold neg_events.
  by rewrite (peek_out_pd c s Hs).
Qed.

Lemma handle_timeout_loop_spec fuel c now s :
  out_wf c → 0 ≤ s < 2 ^ 64 → (length (marks_from (outwnd c) s) < fuel)%nat →
  wp (handle_timeout_loop fuel now s) (λ o c' l,
    let ms := marks_from (outwnd c) s in
    let lost := take_while (expired c now) ms in
    (∃ f, c' = set_stat f c) ∧ l = lost ≫= neg_events c ∧
    match drop (length lost) ms with
    | [] => o = None
    | t :: _ => ∃ pd, out_pd c t = Some pd ∧ o = Some (t, timeout_of c pd)
    end) c.
Proof.
  revert c s. induction fuel as [|fuel IH]; intros c s Hc Hs Hf; [lia|]. cbn [handle_timeout_loop].
  pose proof (cw_wnd c Hc) as Hwf.
  destruct (wnd_at_or_after_spec (C:=proto_call) (outwnd c) s Hwf Hs) as (o & Hrun & Hnext).
  wp_step. eapply wp_on_outwnd; [exact Hrun|]. rewrite set_outwnd_same.
  assert (∃ f, c = set_stat f c) as Hid by (exists id; by destruct c).
  destruct o as [t|]; [|apply wp_ret; by rewrite (next_marked_none _ Hwf s Hnext)].
  pose proof (proj1 Hnext) as Ht. destruct (peek_marked c Hc t Ht) as (pd & Hpd & _).
  rewrite (next_marked_some _ Hwf s t Hnext) in Hf |- *. cbn [take_while].
  assert (expired c now t = negb (time_after64 (timeout_of c pd) now)) as ->.
  { unfold expired. by rewrite <- (peek_out_pd c t Ht), Hpd. }
  wp_step. apply wp_get. wp_step. eapply wp_deref; [exact Hpd|]. fold (timeout_of c pd).
  destruct (time_after64 (timeout_of c pd) now); cbn [negb].
  { apply wp_ret. simpl. split_and!; try done. exists pd. by rewrite <- (peek_out_pd c t Ht). }
  wp_step. wp_step. wp_step. set (c0 := set_stat _ c).
  eapply wp_mono; [by apply (neg_ack_spec c0)|]. intros [] c1 l1 [-> ->].
  simpl in Hf. eapply wp_mono; [apply (IH c0)|].
  - by apply (out_wf_fields c).
  - apply u64_range.
  - simpl. lia.
  - intros o c' l ([f ->] & -> & Hrest). conn_simpl. split_and!.
    + by eexists (λ s, f _).
    + done.
    + exact Hrest.
Qed.

Lemma fpproto_handle_timeout_spec c now :
  conn_wf c →
  wp (fpproto_handle_timeout now) (λ _ c' l,
    let ms := marks_from (outwnd c) (next_timeout_seqno c) in
    let lost := take_while (expired c now) ms in
    ∃ f v lt, c' = set_stat f (set_next_timeout_seqno v c) ∧ conn_wf c' ∧
      l = (lost ≫= neg_events c) ++ lt ∧
      match drop (length lost) ms with
      | [] => v = u64 (head (outwnd c) + 1) ∧ lt = []
      | t :: _ => v = t ∧ ∃ pd, out_pd c t = Some pd ∧ lt = [EvCall (CSetTimer (timeout_of c pd))]
      end) c.
Proof.
  intros Hc. unfold fpproto_handle_timeout. wp_step. wp_step. wp_step. wp_step. conn_simpl.
  set (c0 := set_stat _ c). assert (conn_wf c0) as Hc0 by conn_wf_tac.
  wp_step. eapply wp_mono; [apply (handle_timeout_loop_spec _ c0)|].
  - apply Hc0.
  - apply Hc.
  - pose proof (length_marks_from (outwnd c0) (next_timeout_seqno c)). wconst. lia.
  - intros o c1 l ([f ->] & -> & Hrest).
    set (g := λ s, f (stat_set timeout_handler_runs (u64 (s timeout_handler_runs + 1)) s)).
    change (marks_from (outwnd c0)) with (marks_from (outwnd c)) in *.
    change (take_while (expired c0 now)) with (take_while (expired c now)) in *.
    set (ms := marks_from _ _) in *. set (lost := take_while _ _) in *.
    destruct (drop (length lost) ms) as [|t l'] eqn:Ed.
    + subst o. wp_steps. exists g, (u64 (head (outwnd c) + 1)), []. split_and!; [done|conn_wf_tac|done|done|done].
    + destruct Hrest as (pd & Hpd & ->). wp_steps.
      assert (t ∈ wnd_set (outwnd c)) as Ht.
      { apply (out_pd_marked c (cw_out c Hc)). by exists pd. }
      pose proof (wnd_set_u64 _ t (cw_wnd c (cw_out c Hc)) Ht).
      exists g, t, [EvCall (CSetTimer (timeout_of c pd))]. split_and!; [done|conn_wf_tac|done|done|].
      exists pd. by split.
Qed.

(** ** Sending *)
Lemma edge_marked w :
  wnd_wf w → wnd_is_marked w (wnd_edge w) = bool_decide (wnd_edge w ∈ wnd_set w).
Proof.
  intros Hwf. pose proof (wf_head w Hwf). apply eq_bool_prop_intro.
  rewrite bool_decide_spec, (elem_of_wnd_set_age w Hwf). unfold wnd_edge, age. wconst.
  rewrite Is_true_true. split; [intros Hm; split_and!; [..|done]; mlia|by intros (_ & _ & ?)].
Qed.

(** What [fpproto_prepare_to_send] tells the user about the packet that is about
    to fall off the window. *)
Definition fall_off_events (c : fpproto_conn) : list (event proto_call) :=
  let e := wnd_edge (outwnd c) in
  if bool_decide (e ∈ wnd_set (outwnd c)) then
    (if time_after_eq64 e (next_timeout_seqno c)
     then neg_events c e ++ timer_events (set_next_timeout_seqno (u64 (e + 1)) c) else [])
    ++ [EvCall (CFree (out_pd c e))]
  else [].

Lemma prepare_pop c c1 s :
  out_wf c → conn_wf c1 → (∃ v f, c1 = set_stat f (set_next_timeout_seqno v c)) →
  s ∈ wnd_set (outwnd c) →
  wp (pd ← outwnd_pop s; call (CFree pd)) (λ _ c' l,
    conn_wf c' ∧ head (outwnd c') = head (outwnd c) ∧
    wnd_set (outwnd c') = wnd_set (outwnd c) ∖ {[ s ]} ∧
    (∀ t, out_pd c' t = if decide (t = s) then None else out_pd c t) ∧
    (∃ v f w u, c' = set_unacked_pkts u (set_outwnd w (set_stat f (set_next_timeout_seqno v c)))) ∧
    l = [EvCall (CFree (out_pd c s))]) c1.
Proof.
  intros Hc Hc1 (v & f & E1) Hs. subst c1. set (c1 := set_stat _ _) in *. apply wp_bind.
  eapply wp_mono; [apply (pop_spec c1 s); [apply Hc1|done]|].
  intros o c' l (-> & -> & Ho & (w' & u' & E) & Hh & Hset & Hpd). wp_steps. split_and!; try done.
  - by apply (conn_wf_out_update c1 c' w' u').
  - subst c'. by exists v, f, w', u'.
Qed.

Lemma fpproto_prepare_to_send_spec c :
  conn_wf c →
  wp fpproto_prepare_to_send (λ _ c' l,
    let e := wnd_edge (outwnd c) in
    conn_wf c' ∧ head (outwnd c') = head (outwnd c) ∧
    wnd_set (outwnd c') = wnd_set (outwnd c) ∖ {[ e ]} ∧
    (∀ t, out_pd c' t = if decide (t = e) then None else out_pd c t) ∧
    (∃ v f w u, c' = set_unacked_pkts u (set_outwnd w (set_stat f (set_next_timeout_seqno v c)))) ∧
    l = fall_off_events c) c.
Proof.
  intros Hc. pose proof (cw_out c Hc) as Ho. pose proof (cw_wnd c Ho) as Hwf.
  unfold fpproto_prepare_to_send, fall_off_events. wp_step. apply wp_get. cbv zeta.
  rewrite (edge_marked _ Hwf). set (e := wnd_edge (outwnd c)).
  destruct (bool_decide_reflect (e ∈ wnd_set (outwnd c))) as [He|He].
  2:{ apply wp_ret. split_and!; try done.
      - set_solver.
      - intros t. case_decide as Et; [|done]. subst t. unfold out_pd. by rewrite decide_False.
      - exists (next_timeout_seqno c), id, (outwnd c), (unacked_pkts c). by destruct c. }
  wp_step. wp_step. set (c0 := set_stat _ c). assert (conn_wf c0) as Hc0 by conn_wf_tac.
  pose proof (wnd_set_u64 _ e Hwf He) as Her. wp_step.
  destruct (time_after_eq64 e (next_timeout_seqno c)).
  - wp_step. wp_step. wp_step. set (c1 := set_stat _ c0).
    eapply wp_mono; [by apply (neg_ack_spec c1)|]. intros [] ? ? [-> ->]. wp_step. wp_step.
    set (c2 := set_next_timeout_seqno (u64 (e + 1)) c1).
    assert (conn_wf c2) as Hc2 by (unfold c2, c1, c0; conn_wf_tac).
    eapply wp_mono; [by apply recompute_spec|]. intros [] c3 l3 (Hc3 & (f & E3) & ->).
    eapply wp_mono; [apply (prepare_pop c c3 e Ho Hc3); [|done]|].
    { subst c3. by eexists _, (λ s, f (_ (_ s))). }
    intros [] c4 l4 (Hc4 & Hh & Hset & Hpd & Hform & ->). by split_and!.
  - wp_step. eapply wp_mono; [apply (prepare_pop c c0 e Ho Hc0); [|done]|].
    { by exists (next_timeout_seqno c), (λ s, stat_set never_acked_pkts (u64 (s never_acked_pkts + 1)) s). }
    intros [] c4 l4 (Hc4 & Hh & Hset & Hpd & Hform & ->). by split_and!.
Qed.

(** The descriptor that [fpproto_commit_packet] records. *)
Definition committed (c : fpproto_conn) (pd : fpproto_pktdesc) (timestamp : Z) : fpproto_pktdesc :=
  pd_set_header timestamp (head (outwnd c) + 1) (negb (in_sync c)) (last_reset_time c)
    (in_max_seqno c) (compress_inwnd (inwnd c)) pd.

(** [c'] is [c] with [pd] as its newest unacknowledged packet. *)
Record after_commit (c : fpproto_conn) (pd : fpproto_pktdesc) (c' : fpproto_conn) : Prop := {
  ac_wf : conn_wf c';
  ac_head : head (outwnd c') = head (outwnd c) + 1;
  ac_set : wnd_set (outwnd c') = {[ head (outwnd c) + 1 ]} ∪ wnd_set (outwnd c);
  ac_pd : ∀ t, out_pd c' t = if decide (t = head (outwnd c) + 1) then Some pd else out_pd c t;
  ac_rest : ∃ v f w u,
    c' = set_unacked_pkts u (set_outwnd w (set_stat f (set_next_timeout_seqno v c)));
}.

Lemma fpproto_commit_packet_spec c pd timestamp :
  conn_wf c → head (outwnd c) + 1 < 2 ^ 64 → wnd_edge (outwnd c) ∉ wnd_set (outwnd c) →
  wp (fpproto_commit_packet pd timestamp) (λ r c' l,
    r = committed c pd timestamp ∧ after_commit c r c' ∧ l = restart_events c c') c.
Proof.
  intros Hc Hh He. pose proof (cw_out c Hc) as Ho. pose proof (wf_head _ (cw_wnd c Ho)).
  unfold fpproto_commit_packet. wp_step. apply wp_get. cbv zeta. unfold wnd_head.
  rewrite (u64_small (head (outwnd c) + 1)) by lia.
  set (r := pd_set_header _ _ _ _ _ _ _). change r with (committed c pd timestamp). clear r.
  set (r := committed c pd timestamp).
  destruct (outwnd_add_spec c r Ho Hh He eq_refl) as (w & u & Hrun & Ho' & Hh' & Hset & Hpd).
  set (c1 := set_unacked_pkts u (set_outwnd w c)) in *.
  wp_step. eapply wp_run; [exact Hrun|]. wp_step. wp_step. set (c2 := set_stat _ c1).
  assert (conn_wf c2) as Hc2.
  { apply (conn_wf_same_but_out c); [done|by constructor|by apply (out_wf_fields c1)]. }
  wp_step. eapply wp_mono; [by apply recompute_spec|]. intros [] c3 l (Hc3 & (f & E3) & ->).
  apply wp_ret. rewrite app_nil_r. split_and!; [done| |].
  - subst c3. constructor; try done.
    eexists _, (λ s, f _), w, u. unfold c2, c1. by conn_simpl.
  - subst c3. symmetry. by apply timer_events_frame.
Qed.

(** ** The whole send path *)
Definition send_packet (pd : fpproto_pktdesc) (timestamp : Z) : P fpproto_pktdesc :=
  fpproto_prepare_to_send;; fpproto_commit_packet pd timestamp.

Lemma edge_head w w' : head w' = head w → wnd_edge w' = wnd_edge w.
Proof. intros E. unfold wnd_edge. by rewrite E. Qed.

Lemma send_packet_spec c pd timestamp :
  conn_wf c → head (outwnd c) + 1 < 2 ^ 64 →
  wp (send_packet pd timestamp) (λ r c' l,
    let h := head (outwnd c) + 1 in
    let e := wnd_edge (outwnd c) in
    r = committed c pd timestamp ∧ conn_wf c' ∧ head (outwnd c') = h ∧
    wnd_set (outwnd c') = {[ h ]} ∪ wnd_set (outwnd c) ∖ {[ e ]} ∧
    (∀ t, out_pd c' t = if decide (t = h) then Some r else if decide (t = e) then None else out_pd c t) ∧
    same_config c c' ∧
    ∃ lt, l = fall_off_events c ++ lt ∧ Forall (λ e, e = EvCall CCancelTimer ∨ ∃ t, e = EvCall (CSetTimer t)) lt) c.
Proof.
  intros Hc Hh. unfold send_packet. wp_step.
  eapply wp_mono; [by apply fpproto_prepare_to_send_spec|].
  intros [] c1 l1 (Hc1 & Hh1 & Hset1 & Hpd1 & (v & f & w & u & E1) & ->).
  eapply wp_mono; [apply fpproto_commit_packet_spec; [done|by rewrite Hh1|]|].
  { rewrite (edge_head (outwnd c)) by done. set_solver. }
  intros r c2 l2 (-> & [Hc2 Hh2 Hset2 Hpd2 (v' & f' & w' & u' & E2)] & ->).
  split_and!; try done.
  - unfold committed. rewrite Hh1. by subst c1.
  - by rewrite Hh2, Hh1.
  - by rewrite Hset2, Hset1, Hh1.
  - intros t. rewrite Hpd2, Hh1. case_decide; [done|]. by rewrite Hpd1.
  - rewrite E2, E1. by split_and!.
  - exists (restart_events c1 c2). split; [done|]. unfold restart_events, timer_events.
    constructor; [by left|]. destruct (marks_from _ _) as [|t ts]; [constructor|].
    destruct (out_pd _ t); simpl; constructor; [|constructor]. right. by eexists.
Qed.
