(* ===== verification/ConnInwnd.v ===== *)
(** * At-most-once delivery

    The incoming window of a connection: [update_inwnd] and
    [at_most_once_may_accept] agree, and a packet is never accepted twice.
    Sequence numbers are followed in unwrapped coordinates: the connection holds
    [X] modulo 2^64. *)

From S2P Require Import Prelude Platform Window WindowFacts WindowSpec WindowMarks Protocol ConnFacts.
From S2P Require Import ConnSpec ConnAck.

(** Number [Y] counts as received when [X] is the newest number: it is too old
    to be remembered, or its bit is set. *)
Definition seen (X w Y : Z) : bool :=
  bool_decide (Y ≤ X) && (bool_decide (Y ≤ X - 64) || Z.testbit w (63 - (X - Y))).

(** The two numbers are close enough for signed comparison. *)
Definition near (X Y : Z) : Prop := - 2 ^ 62 < Y - X < 2 ^ 62.

Lemma near_cmp X Y k :
  near X Y → -64 ≤ k ≤ 64 → s64 (u64 (u64 X + k) - u64 Y) = X + k - Y.
Proof. unfold near. intros. mlia. Qed.

Lemma near_cmp' X Y k :
  near X Y → -64 ≤ k ≤ 64 → s64 (u64 Y - u64 (u64 X + k)) = Y - X - k.
Proof. unfold near. intros. mlia. Qed.

(** Comparisons of the code, unwrapped. *)
Section compare.
Context (X Y : Z) (HXY : near X Y).

Lemma after_eq_64 : time_after_eq64 (u64 Y) (u64 (u64 X + 64)) = bool_decide (X + 64 ≤ Y).
Proof using HXY.
  apply eq_bool_prop_intro. rewrite bool_decide_spec, Is_true_true, time_after_eq64_spec, near_cmp' by (done || lia). lia.
Qed.

Lemma after_0 : time_after64 (u64 Y) (u64 X) = bool_decide (X < Y).
Proof using HXY.
  apply eq_bool_prop_intro. rewrite bool_decide_spec, Is_true_true, time_after64_spec.
  pose proof (near_cmp X Y 0 HXY ltac:(lia)) as E. rewrite Z.add_0_r, u64_idemp in E. lia.
Qed.

Lemma before_eq_64 : time_before_eq64 (u64 Y) (u64 (u64 X - 64)) = bool_decide (Y ≤ X - 64).
Proof using HXY.
  apply eq_bool_prop_intro. rewrite bool_decide_spec, Is_true_true, time_before_eq64_spec.
  pose proof (near_cmp X Y (-64) HXY ltac:(lia)) as E. change (u64 X + -64) with (u64 X - 64) in E. lia.
Qed.

Lemma distance : X - 64 < Y ≤ X → u64 (u64 X - u64 Y) = X - Y.
Proof using Type. intros. mlia. Qed.

Lemma distance' : X < Y < X + 64 → u64 (u64 Y - u64 X) = Y - X.
Proof using Type. intros. mlia. Qed.
End compare.

Lemma test_shl1 w k : 0 ≤ k < 64 → negb (Z.land w (shl64 1 k) =? 0) = Z.testbit w k.
Proof.
  intros Hk. assert (shl64 1 k = 2 ^ k) as ->.
  { unfold shl64. rewrite Z.shiftl_1_l, u64_small; [done|].
    split; [lia|]. apply Z.pow_lt_mono_r; lia. }
  destruct (Z.testbit w k) eqn:Hb.
  - apply negb_true_iff, Z.eqb_neq. intros E.
    assert (Z.testbit (Z.land w (2 ^ k)) k = true) as Ht.
    { by rewrite Z.land_spec, Hb, testbit_pow2, bool_decide_eq_true_2 by lia. }
    by rewrite E, Z.bits_0 in Ht.
  - apply negb_false_iff, Z.eqb_eq, Z.bits_inj'. intros i Hi.
    rewrite Z.land_spec, testbit_pow2, Z.bits_0 by lia.
    destruct (decide (i = k)) as [->|]; [by rewrite Hb|].
    by rewrite bool_decide_eq_false_2, andb_false_r.
Qed.

Lemma at_most_once_seen c X Y :
  in_max_seqno c = u64 X → near X Y →
  at_most_once_may_accept c (u64 Y) = b2z (seen X (inwnd c) Y).
Proof.
  intros EX HXY. unfold at_most_once_may_accept, seen. rewrite EX, after_0, before_eq_64 by done.
  destruct (decide (X < Y)); [by rewrite bool_decide_eq_true_2, bool_decide_eq_false_2 by lia|].
  rewrite bool_decide_eq_false_2, (bool_decide_eq_true_2 (Y ≤ X)) by lia.
  destruct (decide (Y ≤ X - 64)); [by rewrite bool_decide_eq_true_2|].
  rewrite bool_decide_eq_false_2, distance, test_shl1 by lia. simpl.
  by destruct (Z.testbit _ _).
Qed.

Lemma testbit_shl1 k i : 0 ≤ k < 64 → 0 ≤ i → Z.testbit (shl64 1 k) i = bool_decide (i = k).
Proof.
  intros Hk Hi. rewrite testbit_shl64 by done. change 1 with (2 ^ 0). rewrite testbit_pow2 by lia.
  destruct (decide (i = k)); [by rewrite !bool_decide_eq_true_2 by lia|].
  by rewrite (bool_decide_eq_false_2 (i - k = 0)), (bool_decide_eq_false_2 (i = k)), andb_false_r by lia.
Qed.

(** The incoming window after an accepted packet newer than all others, *)
Lemma seen_advance X w Y T :
  0 ≤ w < 2 ^ 64 → X < Y →
  seen Y (Z.lor (Z.shiftr w (Y - X)) (shl64 1 63)) T =
    seen X w T || bool_decide (T = Y) || bool_decide (T ≤ Y - 64).
Proof.
  intros Hw HXY. unfold seen.
  destruct (decide (Y < T)); [by rewrite !bool_decide_eq_false_2 by lia|].
  rewrite (bool_decide_eq_true_2 (T ≤ Y)) by lia.
  destruct (decide (T ≤ Y - 64)).
  { rewrite (bool_decide_eq_true_2 (T ≤ Y - 64)) by lia. by rewrite !orb_true_r. }
  rewrite (bool_decide_eq_false_2 (T ≤ Y - 64)), (bool_decide_eq_false_2 (T ≤ X - 64)) by lia.
  rewrite andb_true_l, !orb_false_l, orb_false_r, Z.lor_spec, Z.shiftr_spec, testbit_shl1 by lia.
  replace (63 - (Y - T) + (Y - X)) with (63 - (X - T)) by lia. f_equal.
  - destruct (decide (T ≤ X)); [by rewrite bool_decide_eq_true_2|].
    rewrite bool_decide_eq_false_2 by lia. simpl. apply (testbit_high w 64); [done|lia].
  - apply bool_decide_ext. lia.
Qed.

(** and after one inside the window. *)
Lemma seen_fill X w Y T :
  X - 64 < Y ≤ X →
  seen X (Z.lor w (shl64 1 (63 - (X - Y)))) T = seen X w T || bool_decide (T = Y).
Proof.
  intros HXY. unfold seen. destruct (decide (X < T)).
  { by rewrite (bool_decide_eq_false_2 (T ≤ X)), (bool_decide_eq_false_2 (T = Y)) by lia. }
  rewrite (bool_decide_eq_true_2 (T ≤ X)) by lia.
  destruct (decide (T ≤ X - 64)); [by rewrite (bool_decide_eq_true_2 (T ≤ X - 64)) by lia|].
  rewrite (bool_decide_eq_false_2 (T ≤ X - 64)), Z.lor_spec, testbit_shl1 by lia.
  rewrite !andb_true_l, !orb_false_l. f_equal. apply bool_decide_ext. lia.
Qed.

(** What one packet does to the incoming window: [Y] is accepted iff it was not
    seen, and afterwards the numbers seen are those seen before, [Y], and those
    that fell off. *)
Record inwnd_step (c : fpproto_conn) (X Y r : Z) (c' : fpproto_conn) (l : list (event proto_call)) :
    Prop := {
  is_ret : r = b2z (seen X (inwnd c) Y);
  is_log : l = [];
  is_wf : conn_wf c';
  is_max : in_max_seqno c' = u64 (Z.max X Y);
  is_rest : ∃ w m f, c' = set_stat f (set_inwnd w (set_in_max_seqno m c));
  is_seen : ∀ T, seen (Z.max X Y) (inwnd c') T =
         seen X (inwnd c) T || bool_decide (T = Y) || bool_decide (T ≤ Z.max X Y - 64);
}.

Section step.
Context (c : fpproto_conn) (X Y : Z).
Context (Hc : conn_wf c) (EX : in_max_seqno c = u64 X).

Lemma inwnd_wf w m f :
  0 ≤ w < 2 ^ 64 → Z.testbit w 63 = true → 0 ≤ m < 2 ^ 64 →
  conn_wf (set_stat f (set_inwnd w (set_in_max_seqno m c))).
Proof using Hc. intros. conn_wf_tac. Qed.

Lemma inwnd_step_newer f w :
  X < Y → w = Z.lor (Z.shiftr (inwnd c) (Y - X)) (shl64 1 63) →
  inwnd_step c X Y 0 (set_stat f (set_inwnd w (set_in_max_seqno (u64 Y) c))) [].
Proof using Hc.
  intros Hlt Ew. pose proof (cw_fields c Hc) as [_ _ _ Hw _].
  constructor; rewrite ?Z.max_r by lia; try done.
  - unfold seen. by rewrite bool_decide_eq_false_2 by lia.
  - subst w. apply inwnd_wf; [|by rewrite Z.lor_spec, orb_true_r|apply u64_range].
    apply lor_range; [by apply shiftr_range; [|lia]|apply shl64_range|lia].
  - by exists w, (u64 Y), f.
  - intros T. simpl. rewrite Ew. by apply seen_advance.
Qed.

Lemma seen_old T : seen X (inwnd c) T || bool_decide (T ≤ X - 64) = seen X (inwnd c) T.
Proof using Type.
  unfold seen. destruct (bool_decide_reflect (T ≤ X - 64)); [|by rewrite orb_false_r].
  by rewrite bool_decide_eq_true_2 by lia.
Qed.

Lemma inwnd_step_drop f : Y ≤ X → seen X (inwnd c) Y = true → inwnd_step c X Y 1 (set_stat f c) [].
Proof using Hc EX.
  intros Hle HY. constructor; rewrite ?Z.max_l by lia; try done.
  - by rewrite HY.
  - conn_wf_tac.
  - exists (inwnd c), (in_max_seqno c), f. by destruct c.
  - intros T. simpl. destruct (decide (T = Y)) as [->|]; [by rewrite HY|].
    by rewrite (bool_decide_eq_false_2 (T = Y)), orb_false_r, seen_old.
Qed.

Lemma inwnd_step_fill f w :
  X - 64 < Y ≤ X → seen X (inwnd c) Y = false → w = Z.lor (inwnd c) (shl64 1 (63 - (X - Y))) →
  inwnd_step c X Y 0 (set_stat f (set_inwnd w c)) [].
Proof using Hc EX.
  intros Hr HY Ew. pose proof (cw_fields c Hc) as [_ _ Hm Hw H63].
  assert (set_inwnd w c = set_inwnd w (set_in_max_seqno (in_max_seqno c) c)) as E by (by destruct c).
  constructor; rewrite ?Z.max_l by lia; try done.
  - by rewrite HY.
  - rewrite E, Ew. apply inwnd_wf; [|by rewrite Z.lor_spec, H63|done].
    apply lor_range; [done|apply shl64_range|lia].
  - rewrite E. by exists w, (in_max_seqno c), f.
  - intros T. simpl. rewrite Ew, seen_fill by lia.
    destruct (bool_decide_reflect (T = Y)); [by rewrite !orb_true_r|]. by rewrite !orb_false_r, seen_old.
Qed.

Lemma inwnd_jump : 0 ≤ inwnd c < 2 ^ 64 → 64 ≤ Y - X → Z.shiftr (inwnd c) (Y - X) = 0.
Proof using Type.
  clear. intros Hw HXY. apply Z.shiftr_eq_0; [lia|].
  destruct (decide (inwnd c = 0)) as [->|]; [simpl; lia|].
  apply Z.lt_le_trans with 64; [apply Z.log2_lt_pow2; lia|lia].
Qed.

Lemma update_inwnd_spec : near X Y → wp (update_inwnd (u64 Y)) (inwnd_step c X Y) c.
Proof using Hc EX.
  intros HXY. pose proof (cw_fields c Hc) as [_ _ _ Hw _].
  unfold update_inwnd. wp_step. apply wp_get. cbv zeta.
  rewrite EX, after_eq_64, after_0, before_eq_64 by done.
  destruct (bool_decide_reflect (X + 64 ≤ Y)) as [Hj|Hj].
  { wp_steps. eapply (inwnd_step_newer (λ s, _)); [lia|].
    by rewrite inwnd_jump by (done || lia). }
  destruct (bool_decide_reflect (X < Y)) as [Hlt|Hle].
  { rewrite distance' by lia. wp_steps. by apply (inwnd_step_newer id). }
  destruct (bool_decide_reflect (Y ≤ X - 64)) as [Hv|Hv].
  { wp_steps. apply inwnd_step_drop; [lia|]. unfold seen. by rewrite !bool_decide_eq_true_2 by lia. }
  rewrite distance, test_shl1 by lia.
  assert (seen X (inwnd c) Y = Z.testbit (inwnd c) (63 - (X - Y))) as HY.
  { unfold seen. rewrite bool_decide_eq_true_2, bool_decide_eq_false_2 by lia. done. }
  destruct (Z.testbit (inwnd c) (63 - (X - Y))); wp_steps.
  - apply inwnd_step_drop; [lia|done].
  - by apply inwnd_step_fill; [lia| |].
Qed.
End step.

(** ** Delivery *)

(** The two halves of [fpproto_handle_rx_packet] that decide on a sequence
    number: the check before the payloads are delivered and the update after. *)
Definition accept (seqno : Z) : P bool :=
  conn ← get;
  if negb (at_most_once_may_accept conn seqno =? 0) then mret false
  else fpproto_successful_rx seqno;; mret true.

Fixpoint accept_all (seqnos : list Z) : P (list Z) :=
  match seqnos with
  | [] => mret []
  | s :: rest =>
      ok ← accept s;
      acc ← accept_all rest;
      mret (if (ok : bool) then s :: acc else acc)
  end.

Lemma accept_spec c X Y :
  conn_wf c → in_max_seqno c = u64 X → near X Y →
  wp (accept (u64 Y)) (λ ok c' l,
    ok = negb (seen X (inwnd c) Y) ∧ l = [] ∧ conn_wf c' ∧
    ∃ X', X' = (if ok then Z.max X Y else X) ∧ in_max_seqno c' = u64 X' ∧
    ∀ T, seen X' (inwnd c') T = seen X (inwnd c) T || bool_decide (T = Y) || bool_decide (T ≤ X' - 64)) c.
Proof.
  intros Hc EX HXY. unfold accept. wp_step. apply wp_get.
  rewrite (at_most_once_seen c X Y EX HXY).
  destruct (seen X (inwnd c) Y) eqn:HY; simpl.
  - apply wp_ret. split_and!; try done. exists X. split_and!; try done.
    intros T. destruct (decide (T = Y)) as [->|]; [by rewrite HY|].
    by rewrite (bool_decide_eq_false_2 (T = Y)), orb_false_r, seen_old.
  - unfold fpproto_successful_rx. wp_steps.
    eapply wp_mono; [by apply (update_inwnd_spec c X Y)|].
    intros r c' l [_ -> Hc' Hm _ Hseen]. wp_steps. split_and!; try done. by exists (Z.max X Y).
Qed.

(** What a list of packets with numbers [Ys] does. *)
Lemma accept_all_spec L Ys : ∀ c X,
  conn_wf c → in_max_seqno c = u64 X → L ≤ X < L + 2 ^ 62 →
  Forall (λ Y, L ≤ Y < L + 2 ^ 62) Ys →
  wp (accept_all (u64 <$> Ys)) (λ acc c' l,
    l = [] ∧ conn_wf c' ∧ ∃ As X', acc = u64 <$> As ∧ in_max_seqno c' = u64 X' ∧ X ≤ X' ∧
      L ≤ X' < L + 2 ^ 62 ∧ NoDup As ∧ As ⊆ Ys ∧ (∀ Y, Y ∈ As → seen X (inwnd c) Y = false) ∧
      (∀ T, T ∈ Ys ∨ seen X (inwnd c) T = true → seen X' (inwnd c') T = true)) c.
Proof.
  induction Ys as [|Y Ys IH]; intros c X Hc EX HX HYs; cbn [accept_all fmap list_fmap].
  { apply wp_ret. split_and!; try done. exists [], X. split_and!; try done; try lia.
    - constructor.
    - intros Y HY. by inversion HY.
    - intros T [HT|HT]; [by inversion HT|done]. }
  apply Forall_cons in HYs as [HY HYs].
  wp_step. eapply wp_mono; [apply (accept_spec c X Y Hc EX); unfold near; lia|].
  intros ok c1 l1 (Eok & -> & Hc1 & X1 & EX1 & Em1 & Hs1).
  assert (X ≤ X1 ∧ L ≤ X1 < L + 2 ^ 62) as [HX1 HX1'] by (destruct ok; lia).
  assert (∀ T, T = Y ∨ seen X (inwnd c) T = true → seen X1 (inwnd c1) T = true) as Hmono1.
  { intros T [->|HT]; rewrite Hs1; [by rewrite bool_decide_eq_true_2, orb_true_r|by rewrite HT]. }
  wp_step. eapply wp_mono; [by apply (IH c1 X1 Hc1 Em1)|].
  intros acc c2 l2 (-> & Hc2 & As & X2 & -> & Em2 & HX2 & HX2' & Hnd & Hsub & Hnew & Hall). apply wp_ret.
  assert (Y ∉ As) as HYn. { intros HYA%Hnew. rewrite Hmono1 in HYA by auto. done. }
  assert (∀ Z, Z ∈ As → seen X (inwnd c) Z = false) as HnewAs.
  { intros Z HZ%Hnew. apply not_true_is_false. intros HT. by rewrite Hmono1 in HZ by auto. }
  split_and!; try done. exists (if ok then Y :: As else As), X2. split_and!; try done; try lia.
  - by destruct ok.
  - destruct ok; [by constructor|done].
  - destruct ok; set_solver.
  - intros Z HZ. destruct ok; [|by apply HnewAs]. apply elem_of_cons in HZ as [->|HZ]; [|by apply HnewAs].
    by destruct (seen X (inwnd c) Y).
  - intros T HT. apply Hall. destruct HT as [[->|HT]%elem_of_cons|HT]; auto.
Qed.
