(* ===== verification/ConnSafe.v ===== *)
(** * Safety of the receive path and reachability

    Every entry point of fpproto.c, on any sequence of inputs, is free of
    undefined behaviour, passes all its [FASTPASS_BUG_ON] checks and keeps the
    connection well formed. *)

From S2P Require Import Prelude Platform Window WindowFacts WindowSpec WindowMarks Protocol ConnFacts.
From S2P Require Import ConnSpec ConnAck ConnSend ConnInwnd.

(** ** A safety triple *)
Record conn_ok (c : fpproto_conn) : Prop := {
  ok_wf : conn_wf c;
  ok_bytes : 0 ≤ alloc_bytes_per_tslot (ops c);
}.

(** [c'] has the configuration of [c], and no unacknowledged packet that [c] does
    not have. *)
Record evolves (c c' : fpproto_conn) : Prop := {
  ev_config : same_config c c';
  ev_pds : ∀ s pd, out_pd c' s = Some pd → out_pd c s = Some pd;
}.

(** What the user can rely on about the calls of a procedure started in [c]:
    packet descriptors are those of unacknowledged packets, A-REQ payloads lie
    inside the packet, and no check fails. *)
Definition call_from (c : fpproto_conn) (k : proto_call) : Prop :=
  match k with
  | CHandleAck o | CHandleNegAck o | CHandleSkippedAck o => ∃ s pd, o = Some pd ∧ out_pd c s = Some pd
  | CHandleAlloc _ dst n_dst tslots n_tslots =>
      has_handle_alloc (ops c) = true ∧ Z.of_nat (length dst) = n_dst ∧
      0 ≤ n_tslots ∧ n_tslots * alloc_bytes_per_tslot (ops c) ≤ Z.of_nat (length tslots)
  | CHandleAreq bytes n => 0 ≤ n < 64 ∧ 4 * n ≤ Z.of_nat (length bytes)
  | CSetTimer t => 0 ≤ t < 2 ^ 64
  | _ => True
  end.

Definition log_from (c : fpproto_conn) (l : list (event proto_call)) : Prop :=
  Forall (λ e, match e with EvBug _ => False | EvCall k => call_from c k end) l.

(** After a reset of the user nothing of the time before is acknowledged any
    more. *)
Definition is_reset_call (e : event proto_call) : Prop := e = EvCall CHandleReset.
Definition is_ack_call (e : event proto_call) : Prop :=
  match e with EvCall (CHandleAck _ | CHandleNegAck _ | CHandleSkippedAck _) => True | _ => False end.

#[export] Instance is_reset_call_dec e : Decision (is_reset_call e).
Proof. unfold is_reset_call. destruct e as [|[]]; solve [left; done | right; by intros [=]]. Defined.

Record orderly (c' : fpproto_conn) (l : list (event proto_call)) : Prop := {
  or_order : ∀ l1 e l2, l = l1 ++ e :: l2 → is_reset_call e → Forall (λ e, ¬ is_ack_call e) l2;
  or_empty : Exists is_reset_call l → ∀ s, out_pd c' s = None;
}.

Definition safe {A} (m : P A) : Prop := ∀ c,
  conn_ok c → wp m (λ _ c' l, conn_ok c' ∧ log_from c l ∧ evolves c c' ∧ orderly c' l) c.

#[export] Instance evolves_preorder : PreOrder evolves.
Proof.
  split; [intros c; by split; [split_and!|]|].
  intros a b c [(? & ? & ?) Hab] [(? & ? & ?) Hbc]. split; [split_and!; congruence|auto].
Qed.

Lemma evolves_frame c c' :
  same_config c c' → outwnd c' = outwnd c → unacked_pkts c' = unacked_pkts c → evolves c c'.
Proof. intros Hs Ew Eu. split; [done|]. intros s pd. by rewrite (out_pd_frame c c'). Qed.

Lemma log_from_app c l1 l2 : log_from c (l1 ++ l2) ↔ log_from c l1 ∧ log_from c l2.
Proof. apply Forall_app. Qed.

Lemma log_from_evolves c c' l : evolves c c' → log_from c' l → log_from c l.
Proof.
  intros [(Eo & _ & _) Hp] Hl. eapply Forall_impl; [exact Hl|]. intros [|k] Hk; [done|].
  destruct k; simpl in *; rewrite <- ?Eo; try done; destruct Hk as (s & pd' & E & Hs); eauto.
Qed.

Lemma log_from_no_bug c l : log_from c l → no_bug l.
Proof. intros Hl. eapply Forall_impl; [exact Hl|]. by intros []. Qed.

Lemma conn_ok_config c c' : conn_ok c → conn_wf c' → evolves c c' → conn_ok c'.
Proof. intros [_ ?] Hwf [(Eo & _ & _) _]. constructor; [done|by rewrite Eo]. Qed.

Lemma orderly_no_reset c' l : Forall (λ e, ¬ is_reset_call e) l → orderly c' l.
Proof.
  intros Hl. split.
  - intros l1 e l2 -> He. apply Forall_app in Hl as [_ Hl]. apply Forall_cons in Hl as [Hne _]. by destruct Hne.
  - intros (e & Hin & He)%Exists_exists. rewrite Forall_forall in Hl. by destruct (Hl e Hin).
Qed.

Lemma orderly_nil c' : orderly c' [].
Proof. apply orderly_no_reset. constructor. Qed.

(** No descriptors, no acknowledgements. *)
Lemma log_from_empty c l : (∀ s, out_pd c s = None) → log_from c l → Forall (λ e, ¬ is_ack_call e) l.
Proof.
  intros He Hl. eapply Forall_impl; [exact Hl|]. intros [|k] Hk; [done|].
  destruct k; simpl in *; try (by intros []); destruct Hk as (s & pd' & _ & Hs); by rewrite He in Hs.
Qed.

Lemma orderly_app c1 c2 l1 l2 :
  orderly c1 l1 → log_from c1 l2 → evolves c1 c2 → orderly c2 l2 → orderly c2 (l1 ++ l2).
Proof.
  intros [Ho1 He1] Hl2 [_ Hev] [Ho2 He2]. split.
  - intros la e lb E He. apply app_eq_inv in E as [(k & -> & E)|(k & -> & E)].
    + destruct k as [|e' k]; simpl in E; [by apply (Ho2 [] e lb)|]. injection E as <- ->.
      apply Forall_app. split; [by apply (Ho1 la e k)|]. apply (log_from_empty c1); [|done].
      apply He1, Exists_app. right. by constructor.
    + by apply (Ho2 k e lb).
  - rewrite Exists_app. intros [Hr|Hr] s; [|by apply He2]. destruct (out_pd c2 s) as [pd|] eqn:E; [|done].
    apply Hev in E. by rewrite He1 in E.
Qed.

(** A handler whose specification keeps the invariant and calls out only. *)
Lemma safe_of_wp {A} (m : P A) :
  (∀ c, conn_ok c → wp m (λ _ c' l, conn_wf c' ∧ log_from c l ∧ evolves c c' ∧ orderly c' l) c) → safe m.
Proof.
  intros Hm c Hc. eapply wp_mono; [by apply Hm|]. intros a c' l (? & ? & ? & ?).
  split_and!; try done. by apply (conn_ok_config c).
Qed.

Lemma safe_bind {A A'} (m : P A) (k : A → P A') : safe m → (∀ a, safe (k a)) → safe (m ≫= k).
Proof.
  intros Hm Hk c Hc. apply wp_bind. eapply wp_mono; [by apply Hm|]. intros a c1 l1 (Hc1 & Hl1 & Hs1 & Ho1).
  eapply wp_mono; [by apply Hk|]. intros b c2 l2 (Hc2 & Hl2 & Hs2 & Ho2).
  split; [done|]. split; [|split; [by trans c1|by eapply orderly_app]].
  apply log_from_app. split; [done|by eapply log_from_evolves].
Qed.

Lemma safe_get {A} (k : fpproto_conn → P A) : (∀ c, conn_ok c → safe (k c)) → safe (get ≫= k).
Proof. intros Hk c Hc. apply wp_bind, wp_get. by apply (Hk c). Qed.

Lemma safe_deref {A A'} (o : option A) (k : A → P A') :
  is_Some o → (∀ a, o = Some a → safe (k a)) → safe (deref o ≫= k).
Proof. intros [a ->] Hk c Hc. apply wp_bind. eapply wp_deref; [done|]. by apply (Hk a). Qed.

Lemma safe_bug_on {A} b site (k : P A) : b = false → safe k → safe (bug_on b site;; k).
Proof. intros Hb Hk c Hc. apply wp_bind, wp_bug_on; [done|]. by apply Hk. Qed.

Lemma log_from_nil c : log_from c [].
Proof. constructor. Qed.

Lemma safe_ret {A} (a : A) : safe (mret a).
Proof. intros c Hc. apply wp_ret. split; [done|]. split; [apply log_from_nil|]. split; [done|apply orderly_nil]. Qed.

Lemma safe_if {A} (b : bool) (m1 m2 : P A) : safe m1 → safe m2 → safe (if b then m1 else m2).
Proof. by destruct b. Qed.

Lemma safe_modify f :
  (∀ c, conn_wf c → conn_wf (f c)) →
  (∀ c, same_config c (f c) ∧ outwnd (f c) = outwnd c ∧ unacked_pkts (f c) = unacked_pkts c) →
  safe (modify f).
Proof.
  intros Hwf Hs. apply safe_of_wp. intros c [Hc _]. apply wp_modify. destruct (Hs c) as (? & ? & ?).
  split; [by apply Hwf|]. split; [apply log_from_nil|]. split; [by apply evolves_frame|apply orderly_nil].
Qed.

Lemma safe_stat_inc f : safe (stat_inc f).
Proof. apply safe_modify; [intros c Hc; conn_wf_tac|by intros; split_and!]. Qed.

Lemma log_from_call c (k : proto_call) : call_from c k → log_from c [EvCall k].
Proof. by repeat constructor. Qed.

Lemma safe_callback (b : bool) k : k ≠ CHandleReset → (∀ c, b = true → call_from c k) → safe (callback b k).
Proof.
  intros Hr Hk. apply safe_of_wp. intros c [Hc _]. apply wp_callback.
  destruct b; (split; [done|]; split; [|split; [done|]]); [by apply log_from_call, Hk| |apply log_from_nil|apply orderly_nil].
  apply orderly_no_reset. repeat constructor. by intros [= ->].
Qed.

Lemma safe_notify_trigger b : safe (callback b CTriggerRequest).
Proof. by apply safe_callback. Qed.

Lemma safe_set_in_sync b : safe (modify (set_in_sync b)).
Proof. apply safe_modify; [intros c Hc; conn_wf_tac|by intros; split_and!]. Qed.

Lemma safe_set_bad n : safe (modify (set_consecutive_bad_pkts n)).
Proof. apply safe_modify; [intros c Hc; conn_wf_tac|by intros; split_and!]. Qed.

#[export] Hint Resolve safe_ret safe_stat_inc safe_notify_trigger safe_set_in_sync safe_set_bad : safe.

(** The triple with a postcondition on the result. *)
Definition safe_post {A} (Q : A → Prop) (m : P A) : Prop := ∀ c,
  conn_ok c → wp m (λ a c' l, Q a ∧ conn_ok c' ∧ log_from c l ∧ evolves c c' ∧ orderly c' l) c.

Lemma safe_post_ret {A} (Q : A → Prop) a : Q a → safe_post Q (mret a).
Proof.
  intros HQ c Hc. apply wp_ret. split; [done|]. split; [done|]. split; [apply log_from_nil|].
  split; [done|apply orderly_nil].
Qed.

Lemma safe_post_seq {A A'} (R : A → Prop) (Q : A' → Prop) (m : P A) (k : A → P A') :
  safe_post R m → (∀ a, R a → safe_post Q (k a)) → safe_post Q (m ≫= k).
Proof.
  intros Hm Hk c Hc. apply wp_bind. eapply wp_mono; [by apply Hm|]. intros a c1 l1 (HR & Hc1 & Hl1 & Hs1 & Ho1).
  eapply wp_mono; [by apply (Hk a)|]. intros b c2 l2 (HQ & Hc2 & Hl2 & Hs2 & Ho2).
  split; [done|]. split; [done|]. split; [|split; [by trans c1|by eapply orderly_app]].
  apply log_from_app. split; [done|by eapply log_from_evolves].
Qed.

Lemma safe_post_true {A} (m : P A) : safe m ↔ safe_post (λ _, True) m.
Proof.
  split; intros Hm c Hc; (eapply wp_mono; [by apply Hm|]); intros a c' l Hp; naive_solver.
Qed.

Lemma safe_post_bind {A A'} Q (m : P A) (k : A → P A') :
  safe m → (∀ a, safe_post Q (k a)) → safe_post Q (m ≫= k).
Proof. intros Hm%safe_post_true Hk. by eapply safe_post_seq. Qed.

Lemma safe_post_get {A} Q (k : fpproto_conn → P A) :
  (∀ c, conn_ok c → safe_post Q (k c)) → safe_post Q (get ≫= k).
Proof. intros Hk c Hc. apply wp_bind, wp_get. by apply (Hk c). Qed.

Lemma safe_post_deref {A A'} Q (o : option A) (k : A → P A') :
  is_Some o → (∀ a, o = Some a → safe_post Q (k a)) → safe_post Q (deref o ≫= k).
Proof. intros [a ->] Hk c Hc. apply wp_bind. eapply wp_deref; [done|]. by apply (Hk a). Qed.

Lemma safe_bind_post {A A'} Q (m : P A) (k : A → P A') :
  safe_post Q m → (∀ a, Q a → safe (k a)) → safe (m ≫= k).
Proof.
  intros Hm Hk. apply safe_post_true. eapply safe_post_seq; [done|].
  intros a HQ. by apply safe_post_true, Hk.
Qed.

(** The triple at one state, for code that looks at the configuration it read. *)
Definition safe_at {A} (c : fpproto_conn) (Q : A → Prop) (m : P A) : Prop :=
  wp m (λ a c' l, Q a ∧ conn_ok c' ∧ log_from c l ∧ evolves c c' ∧ orderly c' l) c.

Lemma safe_post_at {A} Q (k : fpproto_conn → P A) :
  (∀ c, conn_ok c → safe_at c Q (k c)) → safe_post Q (get ≫= k).
Proof. intros Hk c Hc. apply wp_bind, wp_get. by apply (Hk c). Qed.

Lemma safe_at_post {A} c Q (m : P A) : conn_ok c → safe_post Q m → safe_at c Q m.
Proof. intros Hc Hm. by apply Hm. Qed.

Lemma safe_at_deref {A A'} c Q (o : option A) (k : A → P A') :
  is_Some o → (∀ a, o = Some a → safe_at c Q (k a)) → safe_at c Q (deref o ≫= k).
Proof. intros [a ->] Hk. apply wp_bind. eapply wp_deref; [done|]. by apply (Hk a). Qed.

Lemma safe_at_callback {A} c Q (b : bool) call (k : P A) :
  conn_ok c → call ≠ CHandleReset → (b = true → call_from c call) → safe_post Q k → safe_at c Q (callback b call;; k).
Proof.
  intros Hc Hr Hb Hk. apply wp_bind, wp_callback. eapply wp_mono; [by apply Hk|].
  intros a c' l (HQ & Hc' & Hl & He & Ho). split; [done|]. split; [done|]. split; [|split; [done|]].
  - apply log_from_app. split; [|done]. destruct b; [by apply log_from_call, Hb|apply log_from_nil].
  - apply (orderly_app c); [|done..]. apply orderly_no_reset. destruct b; repeat constructor. by intros [= ->].
Qed.

(** One syntactic step. *)
Ltac safe_step :=
  match goal with
  | |- safe (get ≫= _) => apply safe_get; intros ? ?
  | |- safe (deref _ ≫= _) => apply safe_deref
  | |- safe (bug_on _ _;; _) => apply safe_bug_on
  | |- safe (_ ≫= _) => apply safe_bind; [|intros ?]
  | |- safe (if _ then _ else _) => apply safe_if
  | |- safe _ => solve [auto with safe]
  end.

Ltac safe_steps := repeat first [safe_step | progress cbv zeta].

(** ** Logs *)
Lemma log_from_bind {A} c (f : A → list (event proto_call)) l :
  Forall (λ x, log_from c (f x)) l → log_from c (l ≫= f).
Proof. induction 1 as [|x l Hx _ IH]; [apply log_from_nil|]. simpl. by apply log_from_app. Qed.

(** A marked packet has a descriptor. *)
Lemma marked_pd c s : conn_wf c → s ∈ wnd_set (outwnd c) → ∃ pd, out_pd c s = Some pd.
Proof.
  intros Hc Hs. destruct (peek_marked c (cw_out c Hc) s Hs) as (pd & Hpd & _). exists pd.
  by rewrite <- (peek_out_pd c s Hs).
Qed.

Section logs.
Context (c : fpproto_conn) (Hc : conn_wf c).

Lemma log_ack_events s : s ∈ wnd_set (outwnd c) → log_from c (ack_events c s).
Proof.
  intros Hs. destruct (marked_pd c s Hc Hs) as [pd Hpd]. unfold ack_events. rewrite Hpd.
  destruct (has_handle_ack _); repeat constructor; simpl; eauto.
Qed.

Lemma log_skip_events s : s ∈ wnd_set (outwnd c) → log_from c (skip_events c s).
Proof.
  intros Hs. destruct (marked_pd c s Hc Hs) as [pd Hpd]. unfold skip_events. rewrite Hpd.
  destruct (has_handle_skipped_ack _); repeat constructor; simpl; eauto.
Qed.

Lemma log_neg_events s : s ∈ wnd_set (outwnd c) → log_from c (neg_events c s).
Proof.
  intros Hs. destruct (marked_pd c s Hc Hs) as [pd Hpd]. unfold neg_events. rewrite Hpd.
  destruct (has_handle_neg_ack _); repeat constructor; simpl; eauto.
Qed.
End logs.

Lemma log_timer_events c c' : log_from c (timer_events c').
Proof.
  unfold timer_events. constructor; [done|]. destruct (marks_from _ _) as [|s l]; [constructor|].
  destruct (out_pd c' s); repeat constructor; simpl; apply u64_range.
Qed.

Lemma log_free_events c c' ss : log_from c (free_events c' ss).
Proof. unfold free_events, log_from. by apply Forall_fmap, Forall_true. Qed.

#[export] Hint Resolve log_from_nil log_from_call log_timer_events log_free_events : safe.

(** None of these events is a reset. *)
Notation no_resets := (Forall (λ e, ¬ is_reset_call e)).

Lemma no_resets_bind {A} (f : A → list (event proto_call)) l : (∀ x, no_resets (f x)) → no_resets (l ≫= f).
Proof. intros Hf. induction l as [|x l IH]; [constructor|]. simpl. by apply Forall_app. Qed.

Lemma no_resets_ack c s : no_resets (ack_events c s).
Proof. unfold ack_events. destruct (has_handle_ack _); repeat constructor; by intros [=]. Qed.

Lemma no_resets_skip c s : no_resets (skip_events c s).
Proof. unfold skip_events. destruct (has_handle_skipped_ack _); repeat constructor; by intros [=]. Qed.

Lemma no_resets_neg c s : no_resets (neg_events c s).
Proof. unfold neg_events. destruct (has_handle_neg_ack _); repeat constructor; by intros [=]. Qed.

Lemma no_resets_timer c : no_resets (timer_events c).
Proof.
  unfold timer_events. constructor; [by intros [=]|]. destruct (marks_from _ _) as [|s l]; [constructor|].
  destruct (out_pd c s); repeat constructor; by intros [=].
Qed.

Lemma no_resets_free c ss : no_resets (free_events c ss).
Proof. unfold free_events. apply Forall_fmap, Forall_true. by intros ? [=]. Qed.

Lemma no_resets_nil : no_resets [].
Proof. constructor. Qed.

#[export] Hint Resolve no_resets_bind no_resets_ack no_resets_skip no_resets_neg no_resets_timer no_resets_free
  no_resets_nil orderly_no_reset orderly_nil : safe.

Section handlers.
Context (B : build) `{H : HashOps}.

Lemma evolves_reset c c' t b : same_config c c' → is_reset B t b c' → evolves c c'.
Proof. intros Hs Hr. split; [done|]. intros s pd. by rewrite (out_pd_empty c') by apply Hr. Qed.

Lemma safe_do_proto_reset t b : safe (do_proto_reset B t b).
Proof.
  apply safe_of_wp. intros c [Hc _]. eapply wp_mono; [by apply do_proto_reset_spec, Hc|].
  intros [] c' l (Hc' & Hr & Hs & ss & -> & _). split; [done|].
  split; [auto with safe|]. split; [by eapply evolves_reset|auto with safe].
Qed.

(** A reset that tells the user. *)
Lemma safe_reset_notify t b h : safe (do_proto_reset B t b;; callback h CHandleReset).
Proof.
  apply safe_of_wp. intros c [Hc _]. apply wp_bind. eapply wp_mono; [by apply do_proto_reset_spec, Hc|].
  intros [] c' l (Hc' & Hr & Hs & ss & -> & _). apply wp_callback. split; [done|].
  split; [apply log_from_app; split; [auto with safe|destruct h; repeat constructor]|].
  split; [by eapply evolves_reset|]. eapply orderly_app; [by apply orderly_no_reset, no_resets_free| |done|].
  - destruct h; repeat constructor.
  - split; [|intros _ s; apply out_pd_empty; apply Hr]. intros l1 x l2 E _. destruct h, l1 as [|? []]; simplify_eq/=; constructor.
Qed.

Lemma safe_assoc {A A1 A2} (m : P A) (m1 : P A1) (k : P A2) : safe ((m;; m1);; k) → safe (m;; m1;; k).
Proof.
  intros Hs c Hc. eapply wp_ext; [|by apply Hs]. munfold. destruct (m c) as [[[a c1] l1]|]; [|done].
  destruct (m1 c1) as [[[a1 c2] l2]|]; [|done]. destruct (k c2) as [[[a2 c3] l3]|]; [|done]. by rewrite app_assoc.
Qed.

Lemma safe_reset_notify_seq {A} t b h (k : P A) : safe k → safe (do_proto_reset B t b;; callback h CHandleReset;; k).
Proof. intros Hk. apply safe_assoc, safe_bind; [apply safe_reset_notify|by intros]. Qed.

Lemma skipped_marked c ack_seq ack_vec : conn_wf c →
  Forall (λ s, s ∈ wnd_set (outwnd c)) (skipped_by B c ack_seq ack_vec).
Proof.
  intros Hc. unfold skipped_by. destruct (_ && _ && _); [|constructor].
  apply take_while_Forall, Forall_forall. intros s [_ Hs]%list_elem_of_filter.
  by apply (elem_of_marks_from _ (cw_wnd c (cw_out c Hc))) in Hs as [? _].
Qed.

Lemma log_ack_payload c c' ack_seq ack_vec l : conn_wf c →
  l = (newly_acked c ack_seq ack_vec ≫= ack_events c) ++
      (skipped_by B c ack_seq ack_vec ≫= skip_events c) ++
      match newly_acked c ack_seq ack_vec with [] => [] | _ => restart_events c c' end →
  log_from c l.
Proof.
  intros Hc ->. apply log_from_app. split; [|apply log_from_app; split].
  - apply log_from_bind, Forall_forall. intros s [Hs _]%list_elem_of_filter. by apply log_ack_events.
  - apply log_from_bind. eapply Forall_impl; [by apply skipped_marked|]. intros s. by apply log_skip_events.
  - destruct (newly_acked _ _ _); unfold restart_events; auto with safe.
Qed.

Lemma evolves_ack c c' ss : after_ack ss c c' → evolves c c'.
Proof.
  intros Ha. split; [apply Ha|]. intros s pd. rewrite (aa_pd _ _ _ Ha). by case_decide.
Qed.

Lemma safe_ack_payload ack_seq ack_vec :
  0 ≤ ack_seq < 2 ^ 64 → 0 ≤ ack_vec < 2 ^ 64 → safe (ack_payload_handler B ack_seq ack_vec).
Proof.
  intros Ha Hv. apply safe_of_wp. intros c [Hc _].
  eapply wp_mono; [by apply ack_payload_handler_spec|]. intros [] c' l [Haa Hl].
  split; [apply Haa|]. split; [by eapply log_ack_payload|]. split; [by eapply evolves_ack|].
  apply orderly_no_reset. rewrite Hl. rewrite !Forall_app. split_and!; [auto with safe..|].
  destruct (newly_acked _ _ _); unfold restart_events; auto with safe.
Qed.

Lemma safe_update_inwnd s : 0 ≤ s < 2 ^ 64 → safe (update_inwnd s).
Proof.
  intros Hs. apply safe_of_wp. intros c [Hc _]. pose proof (cw_fields c Hc) as [_ _ Hm Hw H63].
  assert (Hwf : ∀ w m f, 0 ≤ w < 2 ^ 64 → Z.testbit w 63 = true → 0 ≤ m < 2 ^ 64 →
    conn_wf (set_stat f (set_inwnd w (set_in_max_seqno m c)))) by (intros; by apply inwnd_wf).
  unfold update_inwnd. wp_steps; (split; [|split; [auto with safe|split; [by apply evolves_frame|auto with safe]]]).
  - apply (Hwf (shl64 1 63) s (λ s0, _)); [apply shl64_range|done|done].
  - set (w := Z.lor _ _). apply (Hwf w s id); [|unfold w; by rewrite Z.lor_spec, orb_true_r|done].
    apply lor_range; [apply shiftr_range; [done|apply u64_range]|apply shl64_range|lia].
  - conn_wf_tac.
  - conn_wf_tac.
  - set (w := Z.lor _ _).
    assert (0 ≤ w < 2 ^ 64) by (apply lor_range; [done|apply shl64_range|lia]).
    assert (Z.testbit w 63 = true) by (unfold w; by rewrite Z.lor_spec, H63). conn_wf_tac.
Qed.

Lemma safe_successful_rx s : 0 ≤ s < 2 ^ 64 → safe (fpproto_successful_rx s).
Proof. intros Hs. unfold fpproto_successful_rx. safe_steps. by apply safe_update_inwnd. Qed.

Hint Resolve safe_do_proto_reset safe_ack_payload safe_successful_rx : safe.

Lemma safe_got_bad_packet now : safe (got_bad_packet B now).
Proof.
  unfold got_bad_packet. safe_step; [auto with safe|].
  safe_step; [apply safe_modify; [intros c Hc; conn_wf_tac|by intros; split_and!]|]. safe_step. safe_step; [|auto with safe].
  safe_step; [auto with safe|]. safe_step; [auto with safe|]. safe_step; [auto with safe|].
  safe_step; [auto with safe|]. apply safe_reset_notify.
Qed.

Lemma safe_reset_payload now t : safe (reset_payload_handler B now t).
Proof. unfold reset_payload_handler. repeat first [apply safe_reset_notify_seq | safe_step | progress cbv zeta]. Qed.

Hint Resolve safe_got_bad_packet safe_reset_payload : safe.

(** ** Packet bytes *)
Lemma ld8_some pkt i : 0 ≤ i < Z.of_nat (length pkt) → is_Some (ld8 pkt i).
Proof.
  intros Hi. unfold ld8. rewrite (proj2 (Z.ltb_ge i 0)) by lia.
  apply lookup_lt_is_Some_2. lia.
Qed.

Lemma ld16_some pkt i : 0 ≤ i → i + 2 ≤ Z.of_nat (length pkt) → is_Some (ld16 pkt i).
Proof.
  intros Hi Hl. unfold ld16. destruct (ld8_some pkt i) as [a ->]; [lia|].
  destruct (ld8_some pkt (i + 1)) as [b ->]; [lia|]. by eexists.
Qed.

Lemma ld32_some pkt i : 0 ≤ i → i + 4 ≤ Z.of_nat (length pkt) → is_Some (ld32 pkt i).
Proof.
  intros Hi Hl. unfold ld32. destruct (ld16_some pkt i) as [a ->]; [lia..|].
  destruct (ld16_some pkt (i + 2)) as [b ->]; [lia..|]. by eexists.
Qed.

Lemma ld16_host_some pkt i : 0 ≤ i → i + 2 ≤ Z.of_nat (length pkt) → is_Some (ld16_host pkt i).
Proof.
  intros Hi Hl. unfold ld16_host. destruct (ld8_some pkt i) as [a ->]; [lia|].
  destruct (ld8_some pkt (i + 1)) as [b ->]; [lia|]. by eexists.
Qed.

Lemma load_dsts_some n pkt i :
  0 ≤ i → i + 2 * Z.of_nat n ≤ Z.of_nat (length pkt) → is_Some (load_dsts n pkt i).
Proof.
  revert i. induction n as [|n IH]; intros i Hi Hl; [by eexists|]. cbn [load_dsts].
  destruct (ld16_some pkt i) as [a ->]; [lia..|].
  destruct (IH (i + 2)) as [b ->]; [lia..|]. by eexists.
Qed.

(** ** Payloads *)
Lemma load_dsts_length n pkt : ∀ i l, load_dsts n pkt i = Some l → length l = n.
Proof.
  induction n as [|n IH]; simpl; intros i l E; [by injection E as <-|].
  destruct (ld16 pkt i) as [d|]; [|done]. simpl in E. destruct (load_dsts n pkt (i + 2)) as [ds|] eqn:Eds; [|done].
  injection E as <-. simpl. f_equal. by eapply IH.
Qed.

Lemma safe_process_alloc pkt data :
  0 ≤ data → safe_post (λ r, r = -1 ∨ 2 ≤ r) (process_alloc pkt data).
Proof.
  intros Hd. unfold process_alloc. apply safe_post_at. intros conn Hok. pose proof (ok_bytes _ Hok) as Hbytes. cbv zeta.
  destruct (Z.gtb_spec (data + 2) (Z.of_nat (length pkt))) as [Hs|Hs].
  { apply safe_at_post; [done|]. apply safe_post_bind; [auto with safe|]. intros _. apply safe_post_ret. by left. }
  apply safe_at_deref; [apply ld16_some; lia|]. intros pt _.
  set (nd := Z.land (Z.shiftr pt 8) 0xF). set (nt := 2 * Z.land pt 0x3F).
  assert (0 ≤ nd) by (apply Z.land_nonneg; lia).
  assert (0 ≤ Z.land pt 0x3F) by (apply Z.land_nonneg; lia).
  assert (0 ≤ nt * alloc_bytes_per_tslot (ops conn)) by (apply Z.mul_nonneg_nonneg; lia).
  destruct (Z.gtb_spec (data + 2 + 4 + 2 * nd + nt * alloc_bytes_per_tslot (ops conn))
    (Z.of_nat (length pkt))) as [Hl|Hl].
  { apply safe_at_post; [done|]. apply safe_post_bind; [auto with safe|]. intros _. apply safe_post_ret. by left. }
  apply safe_at_deref; [apply ld16_some; lia|]. intros base _.
  apply safe_at_deref; [apply load_dsts_some; lia|]. intros dsts Hdsts.
  apply safe_at_callback; [done|done| |apply safe_post_ret; right; lia]. intros He. simpl.
  apply load_dsts_length in Hdsts. rewrite length_drop. split_and!; [done|lia..].
Qed.

(** The build reads per-request data from A-REQ payloads. *)
Definition reads_areq_data : bool :=
  EMULATION_ALGO B && negb (IS_ENDPOINT B) && negb (emu_req_data_bytes B =? 0).

Lemma no_request_data : reads_areq_data = false →
  EMULATION_ALGO B && negb (IS_ENDPOINT B) && (emu_req_data_bytes B >? 0) = false.
Proof.
  unfold reads_areq_data. destruct (EMULATION_ALGO B && negb (IS_ENDPOINT B)); [|done]. simpl.
  intros ->%negb_false_iff%Z.eqb_eq. done.
Qed.

Lemma safe_process_areq pkt data :
  reads_areq_data = false → 0 ≤ data → safe_post (λ r, r = -1 ∨ 2 ≤ r) (process_areq B pkt data).
Proof.
  intros Hb Hd. unfold process_areq. apply safe_post_get. intros conn Hconn. cbv zeta.
  destruct (Z.gtb_spec (data + 2) (Z.of_nat (length pkt))) as [Hs|Hs].
  { apply safe_post_bind; [auto with safe|]. intros _. apply safe_post_ret. by left. }
  apply safe_post_deref; [apply ld16_some; lia|]. intros pt _.
  assert (0 ≤ Z.land pt 0x3F) by (apply Z.land_nonneg; lia).
  destruct (Z.gtb_spec (data + 2 + 4 * Z.land pt 0x3F) (Z.of_nat (length pkt))) as [Hl|Hl].
  { apply safe_post_bind; [auto with safe|]. intros _. apply safe_post_ret. by left. }
  apply safe_post_bind.
  { apply safe_callback; [done|]. intros c' _. simpl. rewrite length_drop.
    assert (Z.land pt 0x3F < 64) by (change 0x3F with (Z.ones 6); rewrite Z.land_ones by lia; zify_div; lia).
    lia. }
  intros _. rewrite (no_request_data Hb).
  intros c Hc. apply wp_bind, wp_ret. apply (safe_post_ret (λ r, r = -1 ∨ 2 ≤ r)); [right; lia|done].
Qed.

(** The payload loop terminates: a payload is at least two bytes. *)
Lemma safe_rx_payloads pkt : reads_areq_data = false → ∀ fuel curp,
  0 ≤ curp < Z.of_nat (length pkt) → Z.of_nat (length pkt) - curp ≤ Z.of_nat fuel →
  safe (rx_payloads B fuel pkt curp).
Proof.
  intros Hb. induction fuel as [|fuel IH]; intros curp Hc Hf; [lia|]. cbn [rx_payloads]. cbv zeta.
  assert (Hnext : ∀ curp', curp < curp' →
    safe (if curp' <? Z.of_nat (length pkt) then rx_payloads B fuel pkt curp' else mret true)).
  { intros curp' Hlt. destruct (Z.ltb_spec curp' (Z.of_nat (length pkt))); [|apply safe_ret].
    apply IH; lia. }
  safe_step; [by apply ld8_some|]. intros b _.
  apply safe_if; [apply Hnext; lia|]. apply safe_if; [apply Hnext; lia|].
  apply safe_if.
  { eapply safe_bind_post; [apply safe_process_alloc; lia|]. intros r Hr. cbv beta in Hr.
    destruct (Z.eqb_spec r (-1)); [apply safe_ret|apply Hnext; lia]. }
  apply safe_if.
  { eapply safe_bind_post; [apply safe_process_areq; [done|lia]|]. intros r Hr. cbv beta in Hr.
    destruct (Z.eqb_spec r (-1)); [apply safe_ret|apply Hnext; lia]. }
  apply safe_if; [apply Hnext; lia|]. safe_steps.
Qed.

(** ** The receive path *)
Lemma expand_ack_vec_range v : 0 ≤ expand_ack_vec v < 2 ^ 64.
Proof.
  unfold expand_ack_vec. apply lor_range; [|apply lor_range; [apply shl64_range..|lia]|lia].
  apply land_range; [apply u64_range|apply not64_range, shl64_range|lia].
Qed.

Lemma st16_host_length pkt i v : length (st16_host pkt i v) = length pkt.
Proof. unfold st16_host. by rewrite !length_arr_set. Qed.

(** The returned packet has the same length, and is delivered only when it has
    something after the header. *)
Definition rx_result (len : nat) (r : option Z * list Z) : Prop :=
  length r.2 = len ∧ ∀ s, r.1 = Some s → 0 ≤ s < 2 ^ 64 ∧ 8 < Z.of_nat len.

Lemma rx_result_none pkt len : length pkt = len → rx_result len (None, pkt).
Proof. intros Hl. by split. Qed.

(** The part after the reset, from the at-most-once check on. *)
Lemma safe_rx_tail pkt in_seq ack_seq ack_vec16 curp drop_pkt len :
  0 ≤ in_seq < 2 ^ 64 → 0 ≤ ack_seq < 2 ^ 64 → 8 ≤ curp ≤ Z.of_nat (length pkt) → length pkt = len →
  safe_post (rx_result len)
    (if (drop_pkt : bool) then mret (None, pkt)
     else
       conn ← get;
       if negb (at_most_once_may_accept conn in_seq =? 0) then mret (None, pkt)
       else
         ack_payload_handler B ack_seq (expand_ack_vec ack_vec16);;
         if curp =? Z.of_nat len then
           fpproto_successful_rx in_seq;; mret (None, pkt)
         else
           b ← deref (ld8 pkt curp);
           if negb (Z.shiftr b 4 =? FASTPASS_PTYPE_ACK) then mret (Some in_seq, pkt)
           else if curp + 6 >? Z.of_nat len then
             stat_inc rx_incomplete_ack;; mret (None, pkt)
           else
             hi ← deref (ld32 pkt curp);
             lo ← deref (ld16 pkt (curp + 4));
             let ack_vec := shl64 (Z.land hi (2 ^ 28 - 1)) 20 in
             ack_payload_handler B ack_seq (Z.lor ack_vec (shl64 lo 4));;
             mret (Some in_seq, pkt)).
Proof.
  intros Hi Ha Hcurp <-. destruct drop_pkt; [by apply safe_post_ret, rx_result_none|].
  apply safe_post_get. intros conn Hconn.
  destruct (negb _); [by apply safe_post_ret, rx_result_none|].
  apply safe_post_bind; [apply safe_ack_payload; [done|apply expand_ack_vec_range]|]. intros _.
  destruct (Z.eqb_spec curp (Z.of_nat (length pkt))).
  { apply safe_post_bind; [auto with safe|]. intros _. by apply safe_post_ret, rx_result_none. }
  apply safe_post_deref; [apply ld8_some; lia|]. intros b _.
  assert (rx_result (length pkt) (Some in_seq, pkt)) as Hok.
  { split; [done|]. intros s [= <-]. lia. }
  destruct (negb _); [by apply safe_post_ret|].
  destruct (Z.gtb_spec (curp + 6) (Z.of_nat (length pkt))).
  { apply safe_post_bind; [auto with safe|]. intros _. by apply safe_post_ret, rx_result_none. }
  apply safe_post_deref; [apply ld32_some; lia|]. intros hi _.
  apply safe_post_deref; [apply ld16_some; lia|]. intros lo _. cbv zeta.
  apply safe_post_bind; [|intros _; by apply safe_post_ret].
  apply safe_ack_payload; [done|]. apply lor_range; [apply shl64_range..|lia].
Qed.

(** Header fields: the timestamp and the two full sequence numbers. *)
Lemma safe_rx_header now1 pkt (is_reset : bool) conn :
  (is_reset = true → 16 ≤ Z.of_nat (length pkt)) →
  safe (if is_reset then
          hi ← deref (ld32 pkt 8);
          lo ← deref (ld32 pkt (8 + 4));
          let partial_tstamp := Z.lor (shl64 (Z.land hi (2 ^ 24 - 1)) 32) lo in
          let rst_tstamp := expand56 now1 partial_tstamp in
          let base_seqno := base_seqno_from_timestamp rst_tstamp in
          mret (rst_tstamp, u64 (base_seqno + FASTPASS_INGRESS_SEQNO_OFFSET B),
                u64 (base_seqno + FASTPASS_EGRESS_SEQNO_OFFSET B - 1))
        else
          mret (0, u64 (in_max_seqno conn - 2 ^ 14),
                u64 (wnd_head (outwnd conn) - 2 ^ 16 + 1))).
Proof.
  intros Hr. destruct is_reset; [|apply safe_ret]. specialize (Hr eq_refl).
  apply safe_deref; [apply ld32_some; lia|]. intros hi _.
  apply safe_deref; [apply ld32_some; lia|]. intros lo _. apply safe_ret.
Qed.

Lemma safe_rx_packet now1 now2 addr pkt :
  safe_post (rx_result (length pkt)) (fpproto_handle_rx_packet B now1 now2 addr pkt).
Proof.
  unfold fpproto_handle_rx_packet. cbv zeta.
  apply safe_post_bind; [auto with safe|]. intros _.
  destruct (Z.ltb_spec (Z.of_nat (length pkt)) 8).
  { apply safe_post_bind; [auto with safe|]. intros _. by apply safe_post_ret, rx_result_none. }
  apply safe_post_get. intros conn Hconn.
  apply safe_post_deref.
  { destruct (Z.eqb_spec (Z.of_nat (length pkt)) 8); [done|].
    destruct (ld8_some pkt 8) as [b ->]; [lia|done]. }
  intros pt Ept. do 3 (apply safe_post_deref; [apply ld16_some; lia|]; intros ? _).
  set (is_reset := pt =? FASTPASS_PTYPE_RESET).
  destruct (is_reset && (8 + 8 >? Z.of_nat (length pkt))) eqn:Einc.
  { apply safe_post_bind; [auto with safe|]. intros _. by apply safe_post_ret, rx_result_none. }
  assert (is_reset = true → 16 ≤ Z.of_nat (length pkt)) as Hlen.
  { intros Er. rewrite Er in Einc. simpl in Einc. lia. }
  apply safe_post_bind; [by apply safe_rx_header|]. intros [[rst in_seq] ack_seq].
  apply safe_post_deref; [apply ld16_host_some; lia|]. intros ck _.
  pose proof (st16_host_length pkt 6 0) as Hl'.
  destruct (negb (_ =? ck)).
  { apply safe_post_bind; [auto with safe|]. intros _.
    apply safe_post_bind; [auto with safe|]. intros _. by apply safe_post_ret, rx_result_none. }
  apply safe_post_bind; [apply safe_set_bad|]. intros _.
  apply (safe_post_seq (λ r : bool * Z, 8 ≤ r.2 ≤ Z.of_nat (length pkt))).
  - destruct is_reset.
    + apply safe_post_bind; [auto with safe|]. intros _. apply safe_post_bind; [auto with safe|]. intros _.
      apply safe_post_bind; [auto with safe|]. intros rc. apply safe_post_ret. simpl. lia.
    + apply safe_post_bind; [auto with safe|]. intros _. apply safe_post_ret. simpl. lia.
  - intros [drop_pkt curp] Hcurp. apply safe_rx_tail; rewrite ?Hl'; try done; apply u64_range.
Qed.

Lemma safe_rx_complete now1 now2 addr pkt :
  reads_areq_data = false → safe (fpproto_handle_rx_complete B now1 now2 addr pkt).
Proof.
  intros Hb. unfold fpproto_handle_rx_complete.
  eapply safe_bind_post; [apply safe_rx_packet|]. intros [[in_seq|] pkt'] [Hl Hs]; [|apply safe_ret].
  simpl in Hl, Hs. destruct (Hs in_seq eq_refl) as [Hr Hlen]. rewrite <- Hl in Hlen.
  safe_step.
  - unfold fpproto_perform_rx_callbacks. safe_step; [lia|]. apply safe_rx_payloads; [done|lia|lia].
  - destruct a; safe_steps.
Qed.

(** ** The other entry points *)
Lemma safe_handle_timeout now : safe (fpproto_handle_timeout now).
Proof.
  apply safe_of_wp. intros c [Hc _]. eapply wp_mono; [by apply fpproto_handle_timeout_spec|].
  intros [] c' l (f & v & lt & -> & Hc' & -> & Hrest). split; [done|].
  assert (no_resets lt) as Hlt.
  { destruct (drop _ _) as [|t ts]; [destruct Hrest as [_ ->]; constructor|].
    destruct Hrest as (_ & pd & _ & ->). by repeat constructor; intros [=]. }
  split; [|split; [by apply evolves_frame|apply orderly_no_reset, Forall_app; auto with safe]].
  apply log_from_app. split.
  - apply log_from_bind, take_while_Forall. eapply Forall_impl; [apply marks_from_inside, Hc|].
    intros s. by apply log_neg_events.
  - destruct (drop _ _) as [|t ts]; [destruct Hrest as [_ ->]; auto with safe|].
    destruct Hrest as (_ & pd & _ & ->). apply log_from_call, u64_range.
Qed.

Lemma safe_force_reset now : safe (fpproto_force_reset B now).
Proof. unfold fpproto_force_reset. safe_steps. Qed.

(** The two halves of a transmission; the second adds the new packet to the
    unacknowledged ones. *)
Lemma log_fall_off c : conn_wf c → log_from c (fall_off_events c).
Proof.
  intros Hc. unfold fall_off_events. case_bool_decide as He; [|auto with safe].
  apply log_from_app. split; [|by apply log_from_call].
  destruct (time_after_eq64 _ _); [|auto with safe]. apply log_from_app. split; [|auto with safe].
  by apply log_neg_events.
Qed.

Lemma no_resets_fall_off c : no_resets (fall_off_events c).
Proof.
  unfold fall_off_events. case_bool_decide; [|constructor]. apply Forall_app. split; [|by repeat constructor; intros [=]].
  destruct (time_after_eq64 _ _); [|constructor]. apply Forall_app; auto with safe.
Qed.

Lemma safe_prepare_to_send : safe fpproto_prepare_to_send.
Proof.
  apply safe_of_wp. intros c [Hc _]. eapply wp_mono; [by apply fpproto_prepare_to_send_spec|].
  intros [] c' l (Hc' & _ & _ & Hpd & (v & f & w & u & E) & ->). split; [done|].
  split; [by apply log_fall_off|]. split; [|apply orderly_no_reset, no_resets_fall_off].
  split; [by rewrite E|]. intros s pd. rewrite Hpd. by case_decide.
Qed.

Lemma safe_send_packet pd timestamp c :
  conn_ok c → head (outwnd c) + 1 < 2 ^ 64 →
  wp (send_packet pd timestamp) (λ _ c' l, conn_ok c' ∧ no_bug l ∧ same_config c c') c.
Proof.
  intros Hc Hh. eapply wp_mono; [by apply send_packet_spec, Hh; apply Hc|].
  intros r c' l (_ & Hc' & _ & _ & _ & Hs & lt & -> & Hlt).
  split; [by constructor; [|destruct Hs as [-> _]; apply Hc]|]. split; [|done]. apply no_bug_app. split.
  - eapply log_from_no_bug, log_fall_off, Hc.
  - eapply Forall_impl; [exact Hlt|]. by intros e [->|[t ->]].
Qed.

(** ** Executions *)

(** What the environment can do to a connection: deliver a packet, let the
    timer fire, send, or ask for a reset. *)
Inductive input :=
| IRx (now1 now2 addr : Z) (pkt : list Z)
| ITimeout (now : Z)
| ISend (pd : fpproto_pktdesc) (timestamp : Z)
| IReset (now : Z).

Definition run_input (i : input) : P unit :=
  match i with
  | IRx now1 now2 addr pkt => fpproto_handle_rx_complete B now1 now2 addr pkt
  | ITimeout now => fpproto_handle_timeout now
  | ISend pd timestamp => send_packet pd timestamp;; mret tt
  | IReset now => fpproto_force_reset B now
  end.

(** The sequence number of the next packet does not wrap around. *)
Definition may_input (c : fpproto_conn) (i : input) : Prop :=
  match i with ISend _ _ => head (outwnd c) + 1 < 2 ^ 64 | _ => True end.

(** The connection object before [fpproto_init_conn]: zeroed memory. *)
Definition zero_conn (o : fpproto_ops) (rst_win send_tmo : Z) : fpproto_conn := {|
  last_reset_time := 0; in_max_seqno := 0; in_sync := false; ops := o; rst_win_ns := rst_win;
  send_timeout := send_tmo; consecutive_bad_pkts := 0;
  outwnd := {| marked := replicate 4 0; summary := 0; head := 0; head_word := 0; num_marked := 0 |};
  unacked_pkts := replicate 256 None;
  next_timeout_seqno := 0; next_skip_ack_seqno := 0; inwnd := 0; stat := λ _, 0 |}.

Inductive reachable : fpproto_conn → Prop :=
| reach_init now o rst_win send_tmo c l :
    0 ≤ alloc_bytes_per_tslot o →
    fpproto_init_conn B now o rst_win send_tmo (zero_conn o 0 0) = Some (tt, c, l) → reachable c
| reach_step c i c' l :
    reachable c → may_input c i → run_input i c = Some (tt, c', l) → reachable c'.

Lemma wnd_zero o rw st : wnd_wf (outwnd (zero_conn o rw st)) ∧ wnd_set (outwnd (zero_conn o rw st)) = ∅.
Proof.
  destruct (wnd_reset_spec (C:=proto_call) (outwnd (zero_conn o rw st)) 0) as (w & Hrun & Hwf & _ & He & _); [lia|].
  assert (w = outwnd (zero_conn o rw st)) as <- by (unfold wnd_reset, modify in Hrun; by injection Hrun as <-). done.
Qed.

Lemma out_wf_zero o rw st : out_wf (zero_conn o rw st).
Proof.
  destruct (wnd_zero o rw st) as [Hwf He]. constructor; [done|done| |].
  - intros p Hp. pose proof (empty_ubit _ Hwf He p) as Hb. unfold ubit in Hb.
    rewrite Z.mod_small in Hb by lia. rewrite Hb. split; [|done].
    assert (arr_get (unacked_pkts (zero_conn o rw st)) p = None) as ->; [|by intros [? ?]].
    cbn [zero_conn unacked_pkts]. apply (arr_get_Forall (λ x, x = None)).
    + exact (Forall_replicate _ 256 None eq_refl).
    + rewrite length_replicate. lia.
  - intros s pd Hs. rewrite He in Hs. exfalso. exact (not_elem_of_empty s Hs).
Qed.

Lemma init_spec now o rw st c0 :
  out_wf c0 → 0 ≤ alloc_bytes_per_tslot o →
  wp (fpproto_init_conn B now o rw st) (λ _ c l,
    conn_ok c ∧ is_reset B now false c ∧ no_bug l ∧ ops c = o ∧ rst_win_ns c = rw ∧
    send_timeout c = u32 st) c0.
Proof.
  intros Hc0 Hb. unfold fpproto_init_conn. wp_step.
  eapply wp_mono; [by apply do_proto_reset_spec|].
  intros [] c l (Hc & Hr & _ & ss & -> & _). wp_steps. rewrite app_nil_r.
  split_and!; try done; [|by destruct Hr|by eapply (log_from_no_bug c), log_free_events].
  constructor; [|done]. conn_wf_tac.
Qed.

Lemma run_input_safe i c :
  reads_areq_data = false → conn_ok c → may_input c i →
  wp (run_input i) (λ _ c' l, conn_ok c' ∧ no_bug l ∧ same_config c c') c.
Proof.
  intros Hb Hc Hi.
  assert (Hsafe : ∀ m : P unit, safe m → wp m (λ _ c' l, conn_ok c' ∧ no_bug l ∧ same_config c c') c).
  { intros m Hm. eapply wp_mono; [by apply Hm|]. intros a c' l (? & ? & [? _] & _).
    split; [done|]. split; [by eapply log_from_no_bug|done]. }
  destruct i as [now1 now2 addr pkt|now|pd ts|now]; simpl run_input.
  - by apply Hsafe, safe_rx_complete.
  - by apply Hsafe, safe_handle_timeout.
  - wp_step. eapply wp_mono; [by apply safe_send_packet|]. intros r c' l Hp. wp_steps.
    by rewrite app_nil_r.
  - by apply Hsafe, safe_force_reset.
Qed.

Lemma reachable_ok c : reads_areq_data = false → reachable c → conn_ok c.
Proof.
  intros Hb. induction 1 as [now o rw st c l Ho Hrun|c i c' l _ IH Hi Hrun].
  - pose proof (init_spec now o rw st _ (out_wf_zero o 0 0) Ho) as Hw.
    unfold wp in Hw. by rewrite Hrun in Hw; destruct Hw.
  - pose proof (run_input_safe i c Hb IH Hi) as Hw. unfold wp in Hw. rewrite Hrun in Hw. by destruct Hw.
Qed.
End handlers.
