(* ===== verification/ConnLog.v ===== *)
(** * Resets, and the calls of the procedures

    When a reset is accepted and what both ends agree on afterwards, and when
    bad packets make a connection reset itself; then which callbacks each
    procedure can make. *)

From S2P Require Import Prelude Platform Window WindowFacts WindowSpec WindowMarks Protocol ConnFacts ConnSpec ConnAck ConnSend ConnInwnd ConnSafe.

Lemma set_stat_comp f g c : set_stat g (set_stat f c) = set_stat (λ s, g (f s)) c.
Proof. done. Qed.

Section reset_spec.
Context (B : build) `{H : HashOps}.

(** What a reset payload leads to. *)
Inductive reset_outcome :=
| AlreadyReset          (** the timestamp is that of the last reset *)
| RejectReset           (** drop the packet *)
| AcceptReset           (** reset to the timestamp of the payload *)
| ResetToNow.           (** drop the packet and reset to the current time *)

Definition reset_decision (c : fpproto_conn) (now ts : Z) : reset_outcome :=
  if decide (ts = last_reset_time c) then AlreadyReset
  else
    match tstamp_in_window (last_reset_time c) now (rst_win_ns c),
          tstamp_in_window ts now (rst_win_ns c) with
    | true, true => if time_before64 ts (last_reset_time c) then RejectReset else AcceptReset
    | true, false => RejectReset
    | false, true => AcceptReset
    | false, false => ResetToNow
    end.

(** The freed packets and the callback of a reset. *)
Definition reset_log (c : fpproto_conn) (l : list (event proto_call)) : Prop :=
  ∃ ss, NoDup ss ∧ list_to_set ss = wnd_set (outwnd c) ∧
    l = free_events c ss ++ (if has_handle_reset (ops c) then [EvCall CHandleReset] else []).

Lemma do_reset_callback c c0 ts b :
  out_wf c → (∃ f n, c0 = set_stat f (set_consecutive_bad_pkts n c)) →
  ∀ b', b' = has_handle_reset (ops c) →
  wp (do_proto_reset B ts b;; callback b' CHandleReset) (λ _ c' l,
    conn_wf c' ∧ is_reset B ts b c' ∧ same_config c c' ∧ reset_log c l) c0.
Proof.
  intros Hc (f & n & E) b' ->. wp_step.
  eapply wp_mono; [apply do_proto_reset_spec|].
  { subst c0. by apply (out_wf_fields c). }
  intros [] c' l (Hc' & Hr & Hs & ss & -> & Hnd & Hss). apply wp_callback.
  split; [done|]. split; [done|]. split; [by subst c0|].
  exists ss. subst c0. by split_and!.
Qed.

Lemma do_reset_then {A} c c0 ts b b' (k : P A) (Q : A → fpproto_conn → list (event proto_call) → Prop) :
  out_wf c → (∃ f n, c0 = set_stat f (set_consecutive_bad_pkts n c)) → b' = has_handle_reset (ops c) →
  (∀ c' l, conn_wf c' → is_reset B ts b c' → same_config c c' → reset_log c l →
     wp k (λ a c2 l2, Q a c2 (l ++ l2)) c') →
  wp (do_proto_reset B ts b;; callback b' CHandleReset;; k) Q c0.
Proof.
  intros Hc Hc0 Eb Hk. wp_step.
  pose proof (do_reset_callback c c0 ts b Hc Hc0 b' Eb) as Hw.
  unfold wp in Hw |- *. munfold.
  destruct (do_proto_reset B ts b c0) as [[[[] c1] l1]|]; [|done].
  unfold callback, when, call, mret, M_ret in Hw |- *.
  destruct b'; destruct Hw as (Hc' & Hr & Hs & Hl); specialize (Hk c1 _ Hc' Hr Hs Hl);
    unfold wp in Hk; destruct (k c1) as [[[a c2] l2]|]; try done; by rewrite <- app_assoc in Hk.
Qed.

(** [reset_payload_handler] implements the table; it returns 1 (drop) exactly
    when the payload's timestamp is not adopted. *)
Lemma reset_payload_handler_spec c now ts :
  conn_wf c →
  wp (reset_payload_handler B now ts) (λ r c' l,
    conn_wf c' ∧ same_config c c' ∧
    match reset_decision c now ts with
    | AlreadyReset => r = 0 ∧ l = [] ∧ ∃ f, c' = set_in_sync (IS_ENDPOINT B) (set_stat f c)
    | RejectReset => r = 1 ∧ l = [] ∧ ∃ f, c' = set_stat f c
    | AcceptReset => r = 0 ∧ is_reset B ts (IS_ENDPOINT B) c' ∧ reset_log c l
    | ResetToNow => r = 1 ∧ is_reset B now (IS_ENDPOINT B) c' ∧ reset_log c l
    end) c.
Proof.
  intros Hc. pose proof (cw_out c Hc) as Ho. unfold reset_payload_handler, reset_decision.
  wp_step. wp_step. wp_step. wp_step. set (c0 := set_stat _ c).
  assert (Hc0 : ∀ c1, (∃ f, c1 = set_stat f c) → ∃ f n, c1 = set_stat f (set_consecutive_bad_pkts n c)).
  { intros c1 [f ->]. exists f, (consecutive_bad_pkts c). by destruct c. }
  assert (Hreset : ∀ f t (r : Z), wp (do_proto_reset B t (IS_ENDPOINT B);;
      callback (has_handle_reset (ops c)) CHandleReset;; mret r) (λ r' c' l, conn_wf c' ∧ same_config c c' ∧
      r' = r ∧ is_reset B t (IS_ENDPOINT B) c' ∧ reset_log c l) (set_stat f c)).
  { intros f t r. apply (do_reset_then c); [done|apply Hc0; by eexists|done|].
    intros c' l Hc' Hr Hs Hl. apply wp_ret. rewrite app_nil_r.
    split; [done|]. split; [done|]. by split_and!. }
  destruct (Z.eqb_spec ts (last_reset_time c)) as [E|E].
  - rewrite decide_True by done. wp_step.
    destruct (IS_ENDPOINT B && negb (in_sync c)); wp_steps; split_and!; try done; try conn_wf_tac;
      unfold c0; rewrite ?set_stat_comp; by eexists.
  - rewrite decide_False by done.
    destruct (tstamp_in_window (last_reset_time c) now (rst_win_ns c)),
      (tstamp_in_window ts now (rst_win_ns c)); [destruct (time_before64 ts (last_reset_time c))|..];
      wp_step; wp_step.
    all: try (apply wp_ret; split_and!; try done; [conn_wf_tac|unfold c0; rewrite set_stat_comp; by eexists]).
    all: unfold c0; rewrite set_stat_comp; eapply wp_mono; [apply Hreset|]; intros r c' l Hp; exact Hp.
Qed.

(** ** Bad packets *)
Definition trigger_events (c : fpproto_conn) : list (event proto_call) :=
  if has_trigger_request (ops c) then [EvCall CTriggerRequest] else [].

(** Every tenth bad packet in a row resets the connection to the current time,
    unless it was reset within the last second (in either direction). *)
Lemma got_bad_packet_spec c now :
  conn_wf c →
  wp (got_bad_packet B now) (λ _ c' l,
    let n := u32 (consecutive_bad_pkts c + 1) in
    let recent := time_in_range64 (last_reset_time c) (u64 (now - FASTPASS_RESET_WINDOW_NS))
                    (u64 (now + FASTPASS_RESET_WINDOW_NS)) in
    conn_wf c' ∧ same_config c c' ∧ in_sync c' = false ∧
    if n <? FASTPASS_BAD_PKT_RESET_THRESHOLD then
      c' = set_consecutive_bad_pkts n (set_in_sync false c) ∧ l = trigger_events c
    else if recent then
      (∃ f, c' = set_stat f (set_consecutive_bad_pkts 0 (set_in_sync false c))) ∧ l = trigger_events c
    else
      is_reset B now false c' ∧ ∃ l1, reset_log c l1 ∧ l = l1 ++ trigger_events c) c.
Proof.
  intros Hc. pose proof (cw_out c Hc) as Ho. unfold got_bad_packet.
  wp_step. wp_step. wp_step. wp_step. wp_step. wp_step. wp_step.
  set (n := u32 (consecutive_bad_pkts c + 1)).
  destruct (n <? FASTPASS_BAD_PKT_RESET_THRESHOLD).
  { wp_steps. split_and!; try done. conn_wf_tac. }
  wp_step. wp_step. destruct (time_in_range64 _ _ _).
  { wp_steps. split_and!; try done; [conn_wf_tac|by eexists]. }
  wp_step. wp_step. set (c0 := set_stat _ _).
  assert (out_wf c0) as Ho0 by (by apply (out_wf_fields c)).
  wp_step. eapply wp_mono; [by apply do_proto_reset_spec|].
  intros [] c' l (Hc' & Hr & Hs & ss & -> & Hnd & Hss). wp_step. wp_step.
  split; [done|]. split; [done|]. split; [apply Hr|]. split; [done|].
  eexists. split; [|reflexivity]. exists ss. by split_and!.
Qed.
End reset_spec.

(** ** Agreement of the two ends *)

(** The two ends of a connection that reset to the same timestamp agree on the
    sequence numbers of both directions. *)
Lemma reset_agree (Be Bc : build) `{H : HashOps} ts b1 b2 c1 c2 :
  IS_ENDPOINT Be = true → IS_ENDPOINT Bc = false →
  is_reset Be ts b1 c1 → is_reset Bc ts b2 c2 →
  head (outwnd c1) = in_max_seqno c2 ∧ head (outwnd c2) = in_max_seqno c1.
Proof.
  intros He Hc R1 R2. rewrite (ir_head _ _ _ _ R1), (ir_in_max _ _ _ _ R1),
    (ir_head _ _ _ _ R2), (ir_in_max _ _ _ _ R2).
  unfold FASTPASS_EGRESS_SEQNO_OFFSET, FASTPASS_INGRESS_SEQNO_OFFSET. by rewrite He, Hc.
Qed.

(** ** Which callbacks a procedure can make

    A triple for the calls in the log of a procedure of the protocol, whatever the
    connection: [fpproto_handle_rx_packet] and the procedures below it never hand
    over payloads, and [fpproto_perform_rx_callbacks] does nothing else. *)
(** ** Calls of a log *)
Definition logged {C} (P : C → Prop) (l : list (event C)) : Prop :=
  Forall (λ e, match e with EvBug _ => True | EvCall k => P k end) l.

Lemma logged_app {C} (P : C → Prop) l1 l2 : logged P l1 → logged P l2 → logged P (l1 ++ l2).
Proof. intros. by apply Forall_app. Qed.

(** [inv] is kept by the procedure; every call that it makes satisfies [P]. *)
Definition logs {S A} (inv : S → Prop) (P : proto_call → Prop) (m : M proto_call S A) : Prop := ∀ s, inv s →
  match m s with
  | Some (_, s', l) => logged P l ∧ inv s'
  | None => True
  end.

Section logs.
Context {S : Type} (inv : S → Prop) (P : proto_call → Prop).

Lemma logs_bind {A A'} (m : M proto_call S A) (k : A → M proto_call S A') :
  logs inv P m → (∀ a, logs inv P (k a)) → logs inv P (m ≫= k).
Proof using.
  intros Hm Hk s Hs. unfold mbind, M_bind. specialize (Hm s Hs). destruct (m s) as [[[a s1] l1]|]; [|done].
  destruct Hm as [Hl1 Hs1]. specialize (Hk a s1 Hs1). destruct (k a s1) as [[[b s2] l2]|]; [|done].
  destruct Hk as [Hl2 Hs2]. split; [by apply logged_app|done].
Qed.

Lemma logs_get {A} (k : S → M proto_call S A) : (∀ s, inv s → logs inv P (k s)) → logs inv P (get ≫= k).
Proof using.
  intros Hk s Hs. unfold mbind, M_bind, get. specialize (Hk s Hs s Hs). by destruct (k s s) as [[[b s2] l2]|].
Qed.

Lemma logs_ret {A} (a : A) : logs inv P (mret a).
Proof using. intros s Hs. by split; [constructor|]. Qed.

Lemma logs_ub {A} : logs (A:=A) inv P ub.
Proof using. by intros s Hs. Qed.

Lemma logs_deref {A} (o : option A) : logs inv P (deref o).
Proof using. destruct o; [apply logs_ret|apply logs_ub]. Qed.

Lemma logs_modify f : (∀ s, inv s → inv (f s)) → logs inv P (modify f).
Proof using. intros Hf s Hs. split; [constructor|]. by apply Hf. Qed.

Lemma logs_call c : P c → logs inv P (call c).
Proof using. intros Hc s Hs. split; [by apply Forall_singleton|done]. Qed.

Lemma logs_bug_on b site : logs inv P (bug_on b site).
Proof using. intros s Hs. unfold bug_on. destruct b; split; try done; by repeat constructor. Qed.

Lemma logs_if {A} (b : bool) (m1 m2 : M proto_call S A) : logs inv P m1 → logs inv P m2 → logs inv P (if b then m1 else m2).
Proof using. by destruct b. Qed.
End logs.

Lemma logs_callback inv P (b : bool) c : (b = true → P c) → logs inv P (callback b c).
Proof. intros Hc. destruct b; [by apply logs_call, Hc|apply logs_ret]. Qed.

Lemma logs_on_outwnd {A} inv P (m : M proto_call fp_window A) : (∀ c w, inv c → inv (set_outwnd w c)) →
  logs (λ _, True) P m → logs inv P (on_outwnd m).
Proof.
  intros Hi Hm c Hc. unfold on_outwnd, zoom. specialize (Hm (outwnd c) I). destruct (m (outwnd c)) as [[[a w] l]|]; [|done].
  destruct Hm as [Hl _]. split; [done|by apply Hi].
Qed.

Ltac logs_step :=
  match goal with
  | |- logs _ _ (get ≫= _) => apply logs_get; intros ? ?
  | |- logs _ _ (_ ≫= _) => apply logs_bind; [|intros ?]
  | |- logs _ _ (mret _) => apply logs_ret
  | |- logs _ _ ub => apply logs_ub
  | |- logs _ _ (deref _) => apply logs_deref
  | |- logs _ _ (bug_on _ _) => apply logs_bug_on
  | |- logs _ _ (modify _) => apply logs_modify; by intros
  | |- logs _ _ (call _) => apply logs_call
  | |- logs _ _ (callback _ _) => apply logs_callback
  | |- logs _ _ (stat_inc _) => apply logs_modify; by intros
  | |- logs _ _ (on_outwnd _) => apply logs_on_outwnd; [by intros|]
  | |- logs _ _ (when _ _) => apply logs_if
  | |- logs _ _ (if _ then _ else _) => apply logs_if
  | |- logs _ _ (match ?x with _ => _ end) => destruct x
  | |- logs _ _ (let '(_, _) := ?x in _) => destruct x
  | |- logs _ _ _ => solve [auto with logs]
  end; cbv zeta.
Ltac logs_steps := repeat logs_step.
Create HintDb logs.

(** ** The window *)
Section window.
Context (P : proto_call → Prop).

Lemma logs_wnd_clear s : logs (λ _, True) P (wnd_clear s).
Proof using. unfold wnd_clear. logs_steps. Qed.
Lemma logs_wnd_mark s : logs (λ _, True) P (wnd_mark s).
Proof using. unfold wnd_mark. logs_steps. Qed.
Lemma logs_wnd_before s : logs (λ _, True) P (wnd_at_or_before s).
Proof using. unfold wnd_at_or_before. logs_steps. Qed.
Lemma logs_wnd_earliest : logs (λ _, True) P wnd_earliest_marked.
Proof using. unfold wnd_earliest_marked. logs_steps. Qed.
Lemma logs_wnd_after s : logs (λ _, True) P (wnd_at_or_after s).
Proof using. pose proof logs_wnd_earliest. unfold wnd_at_or_after. logs_steps. Qed.
Lemma logs_wnd_advance n : logs (λ _, True) P (wnd_advance n).
Proof using. pose proof logs_wnd_earliest. unfold wnd_advance. logs_steps. Qed.
Lemma logs_wnd_reset s : logs (λ _, True) P (wnd_reset s).
Proof using. unfold wnd_reset. logs_steps. Qed.
End window.
#[export] Hint Resolve logs_wnd_clear logs_wnd_mark logs_wnd_before logs_wnd_earliest logs_wnd_after logs_wnd_advance logs_wnd_reset : logs.

(** ** Procedures of the protocol *)
Section fpproto.
Context (B : build) `{H : HashOps} (o : fpproto_ops) (r : bool).

(** Calls of the procedures on headers: no payloads, skipped packets only when
    the user wants to know, and resets only if [r] is true. *)
Definition header_call (k : proto_call) : Prop :=
  match k with
  | CHandleAlloc _ _ _ _ _ | CHandleAreq _ _ => False
  | CHandleSkippedAck _ => has_handle_skipped_ack o = true
  | CHandleReset => r = true
  | _ => True
  end.
Definition payload_call (k : proto_call) : Prop :=
  match k with CHandleAlloc _ _ _ _ _ | CHandleAreq _ _ => True | _ => False end.

Notation on_header := (logs (λ c, ops c = o) header_call).
Notation on_payload := (logs (λ c, ops c = o) payload_call).

Ltac logs_done := logs_steps; try done; try (intros; simpl; congruence).

Lemma header_pop s : on_header (outwnd_pop s).
Proof using. unfold outwnd_pop. logs_done. Qed.
#[local] Hint Resolve header_pop : logs.

Lemma header_recompute : on_header recompute_and_reset_retrans_timer.
Proof using. unfold recompute_and_reset_retrans_timer. logs_done. Qed.
#[local] Hint Resolve header_recompute : logs.

Lemma header_do_ack s : on_header (do_ack_seqno s).
Proof using. unfold do_ack_seqno. logs_done. Qed.
#[local] Hint Resolve header_do_ack : logs.

Lemma header_skipped s : on_header (do_skipped_ack_seqno s).
Proof using. unfold do_skipped_ack_seqno. logs_done. Qed.
#[local] Hint Resolve header_skipped : logs.

Lemma header_free_loop fuel : ∀ s, on_header (free_unacked_loop fuel s).
Proof using. induction fuel as [|fuel IH]; intros s; simpl; logs_done. Qed.
#[local] Hint Resolve header_free_loop : logs.

Lemma header_reset t b : on_header (do_proto_reset B t b).
Proof using. unfold do_proto_reset, free_unacked. logs_done. Qed.
#[local] Hint Resolve header_reset : logs.

Lemma header_reset_payload now t : r = true → on_header (reset_payload_handler B now t).
Proof using. intros Hr. unfold reset_payload_handler. logs_done. Qed.
#[local] Hint Resolve header_reset_payload : logs.

Lemma header_ack_loop fuel : ∀ a t n, on_header (ack_loop fuel a t n).
Proof using. induction fuel as [|fuel IH]; intros a t n; simpl; logs_done. Qed.
#[local] Hint Resolve header_ack_loop : logs.

Lemma header_skipped_loop fuel : ∀ a s, on_header (skipped_loop fuel a s).
Proof using. induction fuel as [|fuel IH]; intros a s; simpl; logs_done. Qed.
#[local] Hint Resolve header_skipped_loop : logs.

Lemma header_ack_payload a v : on_header (ack_payload_handler B a v).
Proof using. unfold ack_payload_handler. logs_done. Qed.
#[local] Hint Resolve header_ack_payload : logs.

Lemma header_bad now : r = true → on_header (got_bad_packet B now).
Proof using. intros Hr. unfold got_bad_packet. logs_done. Qed.
Lemma header_good : on_header got_good_packet.
Proof using. unfold got_good_packet. logs_done. Qed.
Lemma header_rx_ok s : on_header (fpproto_successful_rx s).
Proof using. unfold fpproto_successful_rx, update_inwnd. logs_done. Qed.
#[local] Hint Resolve header_bad header_good header_rx_ok : logs.

Lemma header_force_reset now : on_header (fpproto_force_reset B now).
Proof using. unfold fpproto_force_reset. logs_done. Qed.

Lemma header_rx_packet now1 now2 addr pkt : r = true → on_header (fpproto_handle_rx_packet B now1 now2 addr pkt).
Proof using. intros Hr. unfold fpproto_handle_rx_packet. logs_done. Qed.

Lemma header_timeout_loop fuel : ∀ now s, on_header (handle_timeout_loop fuel now s).
Proof using. induction fuel as [|fuel IH]; intros now s; simpl; unfold do_neg_ack_seqno; logs_done. Qed.
#[local] Hint Resolve header_timeout_loop : logs.

Lemma header_timeout now : on_header (fpproto_handle_timeout now).
Proof using. unfold fpproto_handle_timeout. logs_done. Qed.

Lemma header_prepare : on_header fpproto_prepare_to_send.
Proof using. unfold fpproto_prepare_to_send, do_neg_ack_seqno. logs_done. Qed.

Lemma header_commit pd t : on_header (fpproto_commit_packet pd t).
Proof using. unfold fpproto_commit_packet, outwnd_add. logs_done. Qed.

Lemma payload_alloc pkt d : on_payload (process_alloc pkt d).
Proof using. unfold process_alloc. logs_done. Qed.
Lemma payload_areq pkt d : on_payload (process_areq B pkt d).
Proof using. unfold process_areq. logs_done. Qed.
#[local] Hint Resolve payload_alloc payload_areq : logs.

Lemma payload_rx fuel : ∀ pkt c, on_payload (rx_payloads B fuel pkt c).
Proof using. induction fuel as [|fuel IH]; intros pkt c; simpl; logs_done. Qed.
#[local] Hint Resolve payload_rx : logs.

Lemma payload_rx_callbacks pkt : on_payload (fpproto_perform_rx_callbacks B pkt).
Proof using. unfold fpproto_perform_rx_callbacks. logs_done. Qed.
End fpproto.
