(* ===== verification/Codec.v ===== *)
(** * Packet encoding

    Model of [fpproto_encode_packet] (fpproto.c) and its agreement with the
    receive path: the header fields, the reset timestamp and the requests that
    a peer decodes are those that were encoded. *)

From S2P Require Import Prelude Platform Window Protocol ConnFacts.

(** ** Sizes (fpproto.h) *)
Definition FASTPASS_PKT_HDR_LEN : Z := 8.
Definition FASTPASS_PKT_RESET_LEN : Z := 8.
Definition FASTPASS_PKT_MAX_AREQ : Z := 10.
Definition AREQ_DATA_TYPE_NONE : Z := 0.
Definition FASTPASS_PKT_MAX_AREQ_DATA (B : build) : Z := if EMULATION_ALGO B then 128 else 0.
Definition MAX_ALLOC_BYTES_PER_TSLOT (B : build) : Z := if EMULATION_ALGO B then 3 + 2 else 1.
Definition FASTPASS_PKT_MAX_ALLOC_TSLOTS (B : build) : Z := if IS_ENDPOINT B then 0 else 64.
Definition FASTPASS_PKT_ALLOC_LEN (B : build) : Z :=
  if IS_ENDPOINT B then 0
  else 2 + 2 + 2 * 15 + FASTPASS_PKT_MAX_ALLOC_TSLOTS B * MAX_ALLOC_BYTES_PER_TSLOT B.
Definition FASTPASS_PKT_AREQ_LEN (B : build) : Z :=
  if IS_ENDPOINT B then 2 + 5 * FASTPASS_PKT_MAX_AREQ + FASTPASS_PKT_MAX_AREQ_DATA B
  else 2 + 4 * FASTPASS_PKT_MAX_AREQ.
Definition FASTPASS_MAX_PAYLOAD (B : build) : Z :=
  FASTPASS_PKT_HDR_LEN + FASTPASS_PKT_RESET_LEN + FASTPASS_PKT_AREQ_LEN B + FASTPASS_PKT_ALLOC_LEN B.

(** ** The encoder

    The buffer [pkt], the offset of [curp] in it and [remaining_len]. *)
Record enc := { e_buf : list Z; e_curp : Z; e_remaining : Z }.

Abbreviation E := (M False enc).

Definition be16 (v : Z) : list Z := [u16 v / 2 ^ 8; u16 v mod 2 ^ 8].
Definition be32 (v : Z) : list Z := be16 (Z.shiftr (u32 v) 16) ++ be16 (u32 v).

(** [memcpy(curp, bs, n); curp += n;] — writing outside the buffer is undefined. *)
Definition emit (bs : list Z) : E unit := λ e,
  if e_curp e + Z.of_nat (length bs) <=? Z.of_nat (length (e_buf e)) then
    Some (tt, {| e_buf := take (Z.to_nat (e_curp e)) (e_buf e) ++ bs
                          ++ drop (Z.to_nat (e_curp e) + length bs) (e_buf e);
                 e_curp := e_curp e + Z.of_nat (length bs);
                 e_remaining := e_remaining e |}, [])
  else None.

(** [remaining_len -= n;] *)
Definition use (n : Z) : E unit := modify (λ e,
  {| e_buf := e_buf e; e_curp := e_curp e; e_remaining := u32 (e_remaining e - n) |}).

(** [curp += n;] without writing. *)
Definition skip (n : Z) : E unit := λ e,
  if e_curp e + n <=? Z.of_nat (length (e_buf e)) then
    Some (tt, {| e_buf := e_buf e; e_curp := e_curp e + n; e_remaining := e_remaining e |}, [])
  else None.

Definition set_buf (f : list Z → list Z) : E unit := modify (λ e,
  {| e_buf := f (e_buf e); e_curp := e_curp e; e_remaining := e_remaining e |}).

(** The first [n] elements of a descriptor's array; reading past it is
    undefined. *)
Definition arr_prefix {A} (n : Z) (l : list A) : E (list A) :=
  if n <=? Z.of_nat (length l) then mret (take (Z.to_nat n) l) else ub.

Fixpoint each {A} (f : A → E unit) (l : list A) : E unit :=
  match l with
  | [] => mret tt
  | x :: l' => f x;; each f l'
  end.

Section encode.
Context (B : build) `{H : HashOps}.

Definition encode_header (pd : fpproto_pktdesc) : E unit :=
  emit (be16 (pd_seqno pd));;
  emit (be16 (pd_ack_seq pd));;
  emit (be16 (pd_ack_vec pd));;
  emit (be16 0);;
  use 8.

Definition encode_reset (pd : fpproto_pktdesc) : E unit :=
  let hi_word := Z.lor (u32 (Z.shiftl FASTPASS_PTYPE_RESET 28))
                       (Z.land (Z.shiftr (pd_reset_timestamp pd) 32) 0x00FFFFFF) in
  emit (be32 hi_word);;
  emit (be32 (u32 (pd_reset_timestamp pd)));;
  use 8.

(** The ALLOC payload (controller only). *)
Definition encode_alloc (pd : fpproto_pktdesc) : E unit :=
  let alloc_type := if EMULATION_ALGO B then FASTPASS_PTYPE_EMU_ALLOC else FASTPASS_PTYPE_ALLOC in
  emit (be16 (Z.lor (Z.lor (Z.shiftl alloc_type 12) (Z.shiftl (pd_n_dsts pd) 8))
                    (pd_alloc_tslot pd / 2)));;
  emit (be16 (pd_base_tslot pd));;
  use 4;;
  dsts ← arr_prefix (pd_n_dsts pd) (pd_dsts pd);
  each (λ d, emit (be16 d);; use 2) dsts;;
  tslot_desc ← arr_prefix (pd_alloc_tslot pd) (pd_tslot_desc pd);
  emit tslot_desc;;
  use (pd_alloc_tslot pd);;
  if EMULATION_ALGO B then
    emu ← arr_prefix (pd_alloc_tslot pd) (pd_emu_tslot_desc pd);
    each (λ d, emit (be16 (emu_id d));; use 2) emu;;
    each (λ d, data ← arr_prefix (emu_alloc_data_bytes B) (emu_data d);
               emit data;; use (emu_alloc_data_bytes B)) emu
  else mret tt.

(** The A-REQ payload, after its length check. *)
Definition encode_areq (pd : fpproto_pktdesc) : E unit :=
  emit (be16 (if EMULATION_ALGO B && IS_ENDPOINT B then
    Z.lor (Z.lor (Z.shiftl FASTPASS_PTYPE_EMU_AREQ 12)
                 (Z.shiftl (Z.land (pd_areq_data_type pd) 0x3F) 6)) (Z.land (pd_n_areq pd) 0x3F)
  else Z.lor (Z.shiftl FASTPASS_PTYPE_AREQ 12) (Z.land (pd_n_areq pd) 0x3F)));;
  use 2;;
  areqs ← arr_prefix (pd_n_areq pd) (pd_areq pd);
  each (λ a, emit (be16 (src_dst_key a));; emit (be16 (tslots a));; use 4) areqs;;
  if EMULATION_ALGO B && IS_ENDPOINT B && negb (pd_areq_data_type pd =? AREQ_DATA_TYPE_NONE) then
    counts ← arr_prefix (pd_n_areq pd) (pd_areq_data_counts pd);
    emit counts;;
    use (pd_n_areq pd);;
    when (Z.odd (pd_n_areq pd)) (skip 1;; use 1);;
    data ← arr_prefix (pd_areq_data_bytes pd) (pd_areq_data pd);
    emit data;;
    use (pd_areq_data_bytes pd)
  else mret tt.

(** Returns the packet length, or a negative error. *)
Definition fpproto_encode_packet (pd : fpproto_pktdesc) (addr max_len min_size : Z) : E Z :=
  modify (λ e, {| e_buf := e_buf e; e_curp := 0; e_remaining := max_len |});;
  e ← get;
  if e_remaining e <? 8 then mret (-1)
  else
    encode_header pd;;
    e ← get;
    if pd_send_reset pd && (e_remaining e <? 8) then mret (-2)
    else
      when (pd_send_reset pd) (encode_reset pd);;
      when (negb (IS_ENDPOINT B) && (pd_alloc_tslot pd >? 0)) (encode_alloc pd);;
      e ← get;
      if (pd_n_areq pd >? 0) && (e_remaining e <? 2 + 4 * pd_n_areq pd) then mret (-3)
      else
        when (pd_n_areq pd >? 0) (encode_areq pd);;
        e ← get;
        if (e_curp e <? min_size) && (e_remaining e <? min_size - e_curp e) then mret (-4)
        else
          when (e_curp e <? min_size) (emit (replicate (Z.to_nat (min_size - e_curp e)) 0));;
          e ← get;
          let len := e_curp e in
          set_buf (λ buf, st16_host buf 6
            (fastpass_checksum addr (take (Z.to_nat len) buf) (pd_seqno pd) (pd_ack_seq pd)));;
          if u32 len >? max_len then mret (-5) else mret len.
End encode.

#[global] Arguments emit : simpl never.
#[global] Arguments use : simpl never.
#[global] Arguments be16 : simpl never.
#[global] Arguments be32 : simpl never.

(** ** What the encoder writes *)

(** The encoder after writing [out] in front of the untouched [rest]. *)
Definition enc_at (out rest : list Z) (rem : Z) : enc :=
  {| e_buf := out ++ rest; e_curp := Z.of_nat (length out); e_remaining := rem |}.

(** [m] appends [bs] and subtracts [n] from the remaining length. *)
Definition writes (m : E unit) (bs : list Z) (n : Z) : Prop := 0 ≤ n ∧ ∀ out rest rem,
  (length bs ≤ length rest)%nat → n ≤ rem < 2 ^ 32 →
  m (enc_at out rest rem) = Some (tt, enc_at (out ++ bs) (drop (length bs) rest) (rem - n), []).

Lemma writes_emit bs : writes (emit bs) bs 0.
Proof.
  split; [done|]. intros out rest rem Hl Hr. unfold emit, enc_at. cbn [e_buf e_curp e_remaining].
  rewrite length_app, (proj2 (Z.leb_le _ _)) by lia. rewrite Nat2Z.id, take_app_length, length_app.
  rewrite <- Nat2Z.inj_add, Z.sub_0_r. do 3 f_equal.
  rewrite (drop_app_ge out), Nat.add_comm, Nat.add_sub by lia. by rewrite app_assoc.
Qed.

Lemma writes_use n : 0 ≤ n → writes (use n) [] n.
Proof.
  intros Hn. split; [done|]. intros out rest rem _ Hr. unfold use, modify, enc_at.
  cbn [e_buf e_curp e_remaining]. by rewrite u32_small, app_nil_r by lia.
Qed.

Lemma writes_nil : writes (mret tt) [] 0.
Proof. split; [done|]. intros out rest rem _ Hr. munfold. by rewrite app_nil_r, Z.sub_0_r. Qed.

Lemma writes_seq m1 m2 bs1 bs2 n1 n2 :
  writes m1 bs1 n1 → writes m2 bs2 n2 → writes (m1;; m2) (bs1 ++ bs2) (n1 + n2).
Proof.
  intros [Hn1 H1] [Hn2 H2]. split; [lia|]. intros out rest rem Hl Hr. rewrite length_app in Hl. munfold.
  rewrite H1 by lia. rewrite H2 by (rewrite ?length_drop; lia).
  rewrite length_app, drop_drop, app_assoc. do 3 f_equal. unfold enc_at. f_equal. lia.
Qed.

Lemma writes_ext m bs bs' n n' : bs = bs' → n = n' → writes m bs n → writes m bs' n'.
Proof. by intros -> ->. Qed.

Lemma writes_if (b : bool) m bs n :
  (b = true → writes m bs n) → writes (when b m) (if b then bs else []) (if b then n else 0).
Proof. destruct b; [auto|]. intros _. apply writes_nil. Qed.

Lemma writes_prefix {A} n (l : list A) (k : list A → E unit) bs m :
  n ≤ Z.of_nat (length l) → writes (k (take (Z.to_nat n) l)) bs m → writes (arr_prefix n l ≫= k) bs m.
Proof.
  intros Hn [Hm Hk]. split; [done|]. intros out rest rem Hl Hr. unfold arr_prefix.
  rewrite (proj2 (Z.leb_le _ _)) by done. munfold. by rewrite Hk.
Qed.

Lemma writes_each {A} (f : A → E unit) (g : A → list Z) n l :
  0 ≤ n → (∀ x, x ∈ l → writes (f x) (g x) n) → writes (each f l) (l ≫= g) (n * Z.of_nat (length l)).
Proof.
  intros Hn Hf. induction l as [|x l IH]; simpl each.
  - rewrite Z.mul_0_r. apply writes_nil.
  - eapply writes_ext; [reflexivity| |apply writes_seq; [apply Hf; set_solver|apply IH; set_solver]].
    simpl length. lia.
Qed.

Lemma length_be16 v : length (be16 v) = 2%nat.
Proof. done. Qed.

Lemma length_be32 v : length (be32 v) = 4%nat.
Proof. done. Qed.

Lemma length_bind_const {A} (g : A → list Z) n l :
  (∀ x, x ∈ l → length (g x) = n) → length (l ≫= g) = (n * length l)%nat.
Proof.
  intros Hg. induction l as [|x l IH]; [simpl; lia|].
  rewrite bind_cons, length_app, IH, Hg by set_solver. simpl. lia.
Qed.

Ltac writes_steps :=
  repeat first
    [ apply writes_emit | apply writes_use; lia | apply writes_nil
    | eapply writes_seq ].

(** ** Wire format *)
Definition hdr_bytes (pd : fpproto_pktdesc) : list Z :=
  be16 (pd_seqno pd) ++ be16 (pd_ack_seq pd) ++ be16 (pd_ack_vec pd).

Definition reset_bytes (pd : fpproto_pktdesc) : list Z :=
  be32 (Z.lor (u32 (Z.shiftl FASTPASS_PTYPE_RESET 28))
              (Z.land (Z.shiftr (pd_reset_timestamp pd) 32) 0x00FFFFFF))
  ++ be32 (u32 (pd_reset_timestamp pd)).

Definition areq_bytes (B : build) (pd : fpproto_pktdesc) : list Z :=
  be16 (if EMULATION_ALGO B && IS_ENDPOINT B then
    Z.lor (Z.lor (Z.shiftl FASTPASS_PTYPE_EMU_AREQ 12)
                 (Z.shiftl (Z.land (pd_areq_data_type pd) 0x3F) 6)) (Z.land (pd_n_areq pd) 0x3F)
  else Z.lor (Z.shiftl FASTPASS_PTYPE_AREQ 12) (Z.land (pd_n_areq pd) 0x3F))
  ++ (take (Z.to_nat (pd_n_areq pd)) (pd_areq pd) ≫= λ a, be16 (src_dst_key a) ++ be16 (tslots a)).

Definition alloc_bytes (B : build) (pd : fpproto_pktdesc) : list Z :=
  be16 (Z.lor (Z.lor (Z.shiftl (if EMULATION_ALGO B then FASTPASS_PTYPE_EMU_ALLOC else FASTPASS_PTYPE_ALLOC) 12)
              (Z.shiftl (pd_n_dsts pd) 8)) (pd_alloc_tslot pd / 2))
  ++ be16 (pd_base_tslot pd)
  ++ (take (Z.to_nat (pd_n_dsts pd)) (pd_dsts pd) ≫= be16)
  ++ take (Z.to_nat (pd_alloc_tslot pd)) (pd_tslot_desc pd)
  ++ if EMULATION_ALGO B then
       (take (Z.to_nat (pd_alloc_tslot pd)) (pd_emu_tslot_desc pd) ≫= λ d, be16 (emu_id d))
       ++ (take (Z.to_nat (pd_alloc_tslot pd)) (pd_emu_tslot_desc pd) ≫= λ d,
             take (Z.to_nat (emu_alloc_data_bytes B)) (emu_data d))
     else [].

(** The arrays of a descriptor hold what its counters say; request data is not
    attached (scheme without A-REQ data). *)
Record pd_ok (B : build) (pd : fpproto_pktdesc) : Prop := {
  po_areq : 0 ≤ pd_n_areq pd ≤ Z.of_nat (length (pd_areq pd));
  po_dsts : 0 ≤ pd_n_dsts pd ≤ Z.of_nat (length (pd_dsts pd));
  po_tslots : 0 ≤ pd_alloc_tslot pd ≤ Z.of_nat (length (pd_tslot_desc pd));
  po_emu : EMULATION_ALGO B = true → pd_alloc_tslot pd ≤ Z.of_nat (length (pd_emu_tslot_desc pd));
  po_emu_bytes : 0 ≤ emu_alloc_data_bytes B;
  po_emu_data : ∀ d, d ∈ pd_emu_tslot_desc pd → emu_alloc_data_bytes B ≤ Z.of_nat (length (emu_data d));
  po_no_data : EMULATION_ALGO B && IS_ENDPOINT B = true → pd_areq_data_type pd = AREQ_DATA_TYPE_NONE;
}.

Definition has_alloc (B : build) (pd : fpproto_pktdesc) : bool :=
  negb (IS_ENDPOINT B) && (pd_alloc_tslot pd >? 0).

(** What follows the header, before padding. *)
Definition body_bytes (B : build) (pd : fpproto_pktdesc) : list Z :=
  (if pd_send_reset pd then reset_bytes pd else [])
  ++ (if has_alloc B pd then alloc_bytes B pd else [])
  ++ (if pd_n_areq pd >? 0 then areq_bytes B pd else []).

Definition pad_bytes (B : build) (pd : fpproto_pktdesc) (min_size : Z) : list Z :=
  replicate (Z.to_nat (min_size - (8 + Z.of_nat (length (body_bytes B pd))))) 0.

(** The packet with checksum field [csum] (in host order). *)
Definition packet (B : build) (pd : fpproto_pktdesc) (min_size csum : Z) : list Z :=
  hdr_bytes pd ++ [csum mod 2 ^ 8; csum / 2 ^ 8] ++ body_bytes B pd ++ pad_bytes B pd min_size.

Section format.
Context (B : build) `{H : HashOps} (pd : fpproto_pktdesc) (Hpd : pd_ok B pd).

Lemma writes_header : writes (encode_header pd) (hdr_bytes pd ++ [0; 0]) 8.
Proof using Type.
  unfold encode_header, hdr_bytes.
  eapply writes_ext; [| |writes_steps]; [by rewrite <- !app_assoc|done].
Qed.

Lemma writes_reset : writes (encode_reset pd) (reset_bytes pd) (Z.of_nat (length (reset_bytes pd))).
Proof using Type.
  unfold encode_reset, reset_bytes. cbv zeta.
  eapply writes_ext; [| |writes_steps]; [by rewrite app_nil_r|done].
Qed.

Lemma length_areqs :
  Z.of_nat (length (take (Z.to_nat (pd_n_areq pd)) (pd_areq pd))) = pd_n_areq pd.
Proof using Hpd. pose proof (po_areq B pd Hpd). rewrite length_take. lia. Qed.

Lemma length_areq_bytes : Z.of_nat (length (areq_bytes B pd)) = 2 + 4 * pd_n_areq pd.
Proof using Hpd.
  unfold areq_bytes. rewrite length_app, length_be16, (length_bind_const _ 4) by done.
  pose proof length_areqs. lia.
Qed.

Lemma writes_areq : writes (encode_areq B pd) (areq_bytes B pd) (Z.of_nat (length (areq_bytes B pd))).
Proof using Hpd.
  pose proof length_areqs as Hla. rewrite length_areq_bytes. unfold encode_areq, areq_bytes.
  assert (EMULATION_ALGO B && IS_ENDPOINT B && negb (pd_areq_data_type pd =? AREQ_DATA_TYPE_NONE) = false) as ->.
  { destruct (EMULATION_ALGO B && IS_ENDPOINT B) eqn:E; [|done]. by rewrite (po_no_data B pd Hpd E). }
  eapply writes_ext; [| |].
  3:{ eapply writes_seq; [apply writes_emit|]. eapply writes_seq; [apply writes_use; lia|].
      apply writes_prefix; [apply Hpd|]. eapply writes_seq; [|apply writes_nil].
      apply (writes_each _ (λ a, be16 (src_dst_key a) ++ be16 (tslots a)) 4); [lia|].
      intros a _. eapply writes_ext; [| |writes_steps]; [by rewrite app_nil_r|done]. }
  - by rewrite app_nil_r.
  - lia.
Qed.

Lemma length_tslots :
  Z.of_nat (length (take (Z.to_nat (pd_alloc_tslot pd)) (pd_tslot_desc pd))) = pd_alloc_tslot pd.
Proof using Hpd. pose proof (po_tslots B pd Hpd). rewrite length_take. lia. Qed.

Lemma length_dsts : Z.of_nat (length (take (Z.to_nat (pd_n_dsts pd)) (pd_dsts pd))) = pd_n_dsts pd.
Proof using Hpd. pose proof (po_dsts B pd Hpd). rewrite length_take. lia. Qed.

Lemma length_emu_data d :
  d ∈ take (Z.to_nat (pd_alloc_tslot pd)) (pd_emu_tslot_desc pd) →
  length (take (Z.to_nat (emu_alloc_data_bytes B)) (emu_data d)) = Z.to_nat (emu_alloc_data_bytes B).
Proof using Hpd.
  intros Hd. pose proof (po_emu_data B pd Hpd d (subseteq_take _ _ _ Hd)). rewrite length_take. lia.
Qed.

Definition alloc_len : Z :=
  4 + 2 * pd_n_dsts pd + pd_alloc_tslot pd
  + if EMULATION_ALGO B then (2 + emu_alloc_data_bytes B) * pd_alloc_tslot pd else 0.

Lemma length_emu : EMULATION_ALGO B = true →
  Z.of_nat (length (take (Z.to_nat (pd_alloc_tslot pd)) (pd_emu_tslot_desc pd))) = pd_alloc_tslot pd.
Proof using Hpd.
  intros E. pose proof (po_emu B pd Hpd E). pose proof (po_tslots B pd Hpd). rewrite length_take. lia.
Qed.

Lemma length_alloc_bytes : Z.of_nat (length (alloc_bytes B pd)) = alloc_len.
Proof using Hpd.
  unfold alloc_bytes, alloc_len. rewrite !length_app, !length_be16.
  rewrite (length_bind_const be16 2) by done. pose proof length_dsts. pose proof length_tslots.
  destruct (EMULATION_ALGO B) eqn:E; [|simpl; lia].
  rewrite length_app, (length_bind_const _ 2) by done.
  rewrite (length_bind_const _ (Z.to_nat (emu_alloc_data_bytes B))) by apply length_emu_data.
  pose proof (length_emu E). pose proof (po_emu_bytes B pd Hpd). nia.
Qed.

Lemma writes_emu :
  EMULATION_ALGO B = true →
  let emu := take (Z.to_nat (pd_alloc_tslot pd)) (pd_emu_tslot_desc pd) in
  writes (each (λ d, emit (be16 (emu_id d));; use 2) emu;;
          each (λ d, data ← arr_prefix (emu_alloc_data_bytes B) (emu_data d);
                     emit data;; use (emu_alloc_data_bytes B)) emu)
    ((emu ≫= λ d, be16 (emu_id d)) ++ (emu ≫= λ d, take (Z.to_nat (emu_alloc_data_bytes B)) (emu_data d)))
    ((2 + emu_alloc_data_bytes B) * pd_alloc_tslot pd).
Proof using Hpd.
  intros E emu. pose proof (po_emu_bytes B pd Hpd).
  eapply writes_ext; [reflexivity| |apply writes_seq].
  2:{ apply (writes_each _ (λ d, be16 (emu_id d)) 2); [lia|]. intros d _.
      eapply writes_ext; [| |writes_steps]; [by rewrite app_nil_r|done]. }
  2:{ apply (writes_each _ (λ d, take (Z.to_nat (emu_alloc_data_bytes B)) (emu_data d))
        (emu_alloc_data_bytes B)); [done|].
      intros d Hd. apply writes_prefix; [apply (po_emu_data B pd Hpd), (subseteq_take _ _ _ Hd)|].
      eapply writes_ext; [| |writes_steps]; [by rewrite app_nil_r|done]. }
  unfold emu. rewrite (length_emu E). lia.
Qed.

Lemma writes_alloc : writes (encode_alloc B pd) (alloc_bytes B pd) (Z.of_nat (length (alloc_bytes B pd))).
Proof using Hpd.
  rewrite length_alloc_bytes. unfold encode_alloc, alloc_bytes, alloc_len. cbv zeta.
  pose proof (po_tslots B pd Hpd). pose proof length_dsts.
  eapply writes_ext; [| |].
  3:{ eapply writes_seq; [apply writes_emit|]. eapply writes_seq; [apply writes_emit|].
      eapply writes_seq; [apply writes_use; lia|].
      apply writes_prefix; [apply Hpd|]. eapply writes_seq.
      { apply (writes_each _ be16 2); [lia|]. intros a _.
        eapply writes_ext; [| |writes_steps]; [by rewrite app_nil_r|done]. }
      apply writes_prefix; [apply Hpd|]. eapply writes_seq; [apply writes_emit|].
      eapply writes_seq; [apply writes_use; lia|].
      instantiate (2 := if EMULATION_ALGO B then _ else []).
      instantiate (1 := if EMULATION_ALGO B then _ else 0).
      destruct (EMULATION_ALGO B) eqn:E; [|apply writes_nil].
      apply writes_prefix; [by apply (po_emu B pd Hpd)|]. by apply writes_emu. }
  - by rewrite !app_nil_l.
  - destruct (EMULATION_ALGO B); lia.
Qed.

(** The whole packet, when it fits. *)
Lemma writes_run m bs n out rest rem :
  writes m bs n → (length bs ≤ length rest)%nat → n ≤ rem < 2 ^ 32 →
  m (enc_at out rest rem) = Some (tt, enc_at (out ++ bs) (drop (length bs) rest) (rem - n), []).
Proof using Type. intros [_ Hw]. apply Hw. Qed.

Definition parts : list Z * list Z * list Z :=
  (if pd_send_reset pd then reset_bytes pd else [], if has_alloc B pd then alloc_bytes B pd else [],
   if pd_n_areq pd >? 0 then areq_bytes B pd else []).

Lemma packet_zero min_size :
  packet B pd min_size 0 = (hdr_bytes pd ++ [0; 0]) ++ body_bytes B pd ++ pad_bytes B pd min_size.
Proof using Type. unfold packet. by rewrite <- app_assoc. Qed.

Lemma packet_csum min_size csum :
  st16_host (packet B pd min_size 0) 6 csum = packet B pd min_size csum.
Proof using Type. done. Qed.

Lemma length_packet min_size csum :
  Z.of_nat (length (packet B pd min_size csum)) = Z.max min_size (8 + Z.of_nat (length (body_bytes B pd))).
Proof using Type.
  unfold packet, pad_bytes. rewrite !length_app, length_replicate. simpl length at 1 2. lia.
Qed.

Lemma st16_host_app (a b : list Z) v :
  (8 ≤ length a)%nat → st16_host (a ++ b) 6 v = st16_host a 6 v ++ b.
Proof using Type.
  intros Hl. unfold st16_host, arr_set. rewrite !insert_app_l by (rewrite ?length_insert; simpl; lia). done.
Qed.

Lemma wp_writes m bs n out rest rem (Q : unit → enc → list (event False) → Prop) :
  writes m bs n → (length bs ≤ length rest)%nat → n ≤ rem < 2 ^ 32 →
  Q tt (enc_at (out ++ bs) (drop (length bs) rest) (rem - n)) [] → wp m Q (enc_at out rest rem).
Proof using Type. intros Hw Hl Hr HQ. eapply wp_run; [by apply Hw|done]. Qed.

(** The payloads, with their lengths. *)
Lemma writes_parts :
  writes (when (pd_send_reset pd) (encode_reset pd)) parts.1.1 (Z.of_nat (length parts.1.1)) ∧
  writes (when (negb (IS_ENDPOINT B) && (pd_alloc_tslot pd >? 0)) (encode_alloc B pd))
    parts.1.2 (Z.of_nat (length parts.1.2)) ∧
  writes (when (pd_n_areq pd >? 0) (encode_areq B pd)) parts.2 (Z.of_nat (length parts.2)).
Proof using Hpd.
  unfold parts. cbn [fst snd]. fold (has_alloc B pd). split_and!.
  - destruct (pd_send_reset pd); [apply writes_reset|apply writes_nil].
  - destruct (has_alloc B pd); [apply writes_alloc|apply writes_nil].
  - destruct (pd_n_areq pd >? 0); [apply writes_areq|apply writes_nil].
Qed.

Lemma body_parts : body_bytes B pd = parts.1.1 ++ parts.1.2 ++ parts.2.
Proof using Type. done. Qed.

(** The length checks of the encoder pass when the packet fits. *)
Lemma reset_fits rem : Z.of_nat (length parts.1.1) ≤ rem → pd_send_reset pd && (rem <? 8) = false.
Proof using Type.
  unfold parts. cbn [fst snd]. destruct (pd_send_reset pd); [|done].
  change (length (reset_bytes pd)) with 8%nat. intros. simpl. lia.
Qed.

Lemma areq_fits rem :
  Z.of_nat (length parts.2) ≤ rem → (pd_n_areq pd >? 0) && (rem <? 2 + 4 * pd_n_areq pd) = false.
Proof using Hpd.
  unfold parts. cbn [fst snd]. destruct (pd_n_areq pd >? 0); [|done].
  rewrite length_areq_bytes. intros. simpl. lia.
Qed.

(** The padding and the checksum, after [out] was written. *)
Definition finish_encode (addr max_len min_size : Z) : E Z :=
  e ← get;
  if (e_curp e <? min_size) && (e_remaining e <? min_size - e_curp e) then mret (-4)
  else
    when (e_curp e <? min_size) (emit (replicate (Z.to_nat (min_size - e_curp e)) 0));;
    e ← get;
    let len := e_curp e in
    set_buf (λ buf, st16_host buf 6
      (fastpass_checksum addr (take (Z.to_nat len) buf) (pd_seqno pd) (pd_ack_seq pd)));;
    if u32 len >? max_len then mret (-5) else mret len.

Lemma finish_encode_spec addr max_len min_size out rest rem :
  let pad := replicate (Z.to_nat (min_size - Z.of_nat (length out))) 0 in
  Z.of_nat (length (out ++ pad)) ≤ max_len < 2 ^ 31 → (8 ≤ length out)%nat →
  (length pad ≤ length rest)%nat → Z.of_nat (length pad) ≤ rem < 2 ^ 32 →
  wp (finish_encode addr max_len min_size) (λ r e' l,
    r = Z.of_nat (length (out ++ pad)) ∧ l = [] ∧
    take (length (out ++ pad)) (e_buf e') =
      st16_host (out ++ pad) 6 (fastpass_checksum addr (out ++ pad) (pd_seqno pd) (pd_ack_seq pd)))
    (enc_at out rest rem).
Proof using Type.
  intros pad Hmax Hout Hrest Hrem. rewrite length_app in Hmax. unfold finish_encode.
  assert (length pad = Z.to_nat (min_size - Z.of_nat (length out))) as Hpad by apply length_replicate.
  apply wp_bind, wp_get. cbn [enc_at e_curp e_remaining].
  assert ((Z.of_nat (length out) <? min_size) && (rem <? min_size - Z.of_nat (length out)) = false) as ->.
  { destruct (Z.ltb_spec (Z.of_nat (length out)) min_size); [|done]. simpl. lia. }
  apply wp_bind. fold pad. apply (wp_writes _ pad 0); [|done|lia|].
  { unfold when. destruct (Z.ltb_spec (Z.of_nat (length out)) min_size); [apply writes_emit|].
    assert (pad = []) as -> by (apply length_zero_iff_nil; lia). apply writes_nil. }
  apply wp_bind, wp_get. cbv zeta. apply wp_bind. unfold set_buf. apply wp_modify.
  cbn [enc_at e_buf e_curp e_remaining].
  rewrite u32_small by (rewrite length_app; lia). rewrite Nat2Z.id, take_app_length.
  rewrite (st16_host_app (out ++ pad)) by (rewrite length_app; lia).
  assert ((Z.of_nat (length (out ++ pad)) >? max_len) = false) as ->.
  { rewrite length_app, Z.gtb_ltb. apply Z.ltb_ge. lia. }
  apply wp_ret. split_and!; [done|done|]. cbn [e_buf].
  rewrite take_app_le by (unfold st16_host; by rewrite !length_arr_set).
  apply take_ge. unfold st16_host. by rewrite !length_arr_set.
Qed.

Lemma encode_packet_spec e0 addr max_len min_size :
  8 + Z.of_nat (length (body_bytes B pd)) ≤ max_len → min_size ≤ max_len < 2 ^ 31 →
  max_len ≤ Z.of_nat (length (e_buf e0)) →
  wp (fpproto_encode_packet B pd addr max_len min_size) (λ r e' l,
    r = Z.max min_size (8 + Z.of_nat (length (body_bytes B pd))) ∧ l = [] ∧
    take (Z.to_nat r) (e_buf e') = packet B pd min_size
      (fastpass_checksum addr (packet B pd min_size 0) (pd_seqno pd) (pd_ack_seq pd))) e0.
Proof using Hpd.
  intros Hbody Hmin Hbuf. unfold fpproto_encode_packet. rewrite body_parts, !length_app in Hbody.
  assert (length (hdr_bytes pd ++ [0; 0]) = 8%nat) as Hh8 by done.
  destruct writes_parts as (Hwr & Hwa & Hwq).
  apply wp_bind, wp_modify. change {| e_buf := e_buf e0; e_curp := 0; e_remaining := max_len |}
    with (enc_at [] (e_buf e0) max_len).
  apply wp_bind, wp_get. cbn [enc_at e_remaining]. fold (enc_at [] (e_buf e0) max_len).
  rewrite (proj2 (Z.ltb_ge _ _)) by lia.
  apply wp_bind. eapply wp_writes; [apply writes_header|lia|lia|].
  apply wp_bind, wp_get. cbn [enc_at e_remaining]. rewrite reset_fits by lia.
  apply wp_bind. eapply wp_writes; [exact Hwr|rewrite length_drop, Hh8; lia|lia|].
  apply wp_bind. eapply wp_writes; [exact Hwa|rewrite !length_drop, Hh8; lia|lia|].
  apply wp_bind, wp_get. cbn [enc_at e_remaining]. rewrite areq_fits by lia.
  apply wp_bind. eapply wp_writes; [exact Hwq|rewrite !length_drop, Hh8; lia|lia|].
  set (out := _ ++ parts.2). set (rest := drop _ _). set (rem := _ - _).
  fold (finish_encode addr max_len min_size).
  assert (out = (hdr_bytes pd ++ [0; 0]) ++ body_bytes B pd) as Eout.
  { unfold out. rewrite body_parts. by rewrite <- !app_assoc. }
  assert (length out = 8 + length (body_bytes B pd))%nat as Hout by (by rewrite Eout, length_app).
  assert (pad_bytes B pd min_size = replicate (Z.to_nat (min_size - Z.of_nat (length out))) 0) as Epad.
  { unfold pad_bytes. do 2 f_equal. lia. }
  assert (packet B pd min_size 0 = out ++ pad_bytes B pd min_size) as Epk.
  { rewrite packet_zero, Eout. by rewrite app_assoc. }
  pose proof (length_packet min_size 0) as Hlp.
  rewrite body_parts, !length_app in Hout.
  assert (Z.of_nat (length (pad_bytes B pd min_size)) = Z.max 0 (min_size - Z.of_nat (length out))) as Hlpad.
  { rewrite Epad, length_replicate. lia. }
  eapply wp_mono; [apply finish_encode_spec; rewrite <- ?Epad, <- ?Epk|].
  - rewrite Hlp, body_parts, !length_app. lia.
  - lia.
  - unfold rest. rewrite !length_drop, Hh8. lia.
  - unfold rem. lia.
  - rewrite <- Epad, <- Epk. intros r e' l (-> & -> & Ht). rewrite app_nil_r. split_and!.
    + exact Hlp.
    + done.
    + rewrite Nat2Z.id, Ht. apply packet_csum.
Qed.
End format.
