(* ===== verification/RoundTrip.v ===== *)
(** * Encoding and decoding agree

    A peer that receives an encoded packet recovers the sequence number, the
    acknowledgement, the reset timestamp and the requests that were sent, and
    accepts its checksum. *)

From S2P Require Import Prelude Platform Window WindowFacts WindowSpec WindowMarks Protocol ConnFacts.
From S2P Require Import ConnSpec ConnAck ConnSend ConnInwnd ConnSafe Codec.

(** ** Truncated numbers *)
Lemma expand16_exact base s :
  0 ≤ s < 2 ^ 64 → u64 (s - base) < 2 ^ 16 → expand16 (u64 base) (u16 s) = s.
Proof.
  intros Hs Hd. unfold expand16. change 0xFFFF with (Z.ones 16). rewrite Z.land_ones by lia.
  assert (u64 (u16 s - u64 base) mod 2 ^ 16 = u64 (s - base)) as E.
  { revert Hd. mlia. }
  rewrite E. mlia.
Qed.

Lemma expand56_exact now ts :
  0 ≤ ts < 2 ^ 64 → u64 (ts - (now - 2 ^ 55)) < 2 ^ 56 → expand56 now (ts mod 2 ^ 56) = ts.
Proof.
  intros Hs Hd. unfold expand56. cbv zeta. change (2 ^ 56 - 1) with (Z.ones 56).
  rewrite Z.land_ones by lia.
  assert (u64 (ts mod 2 ^ 56 - u64 (now - 2 ^ 55)) mod 2 ^ 56 = u64 (ts - (now - 2 ^ 55))) as E.
  { revert Hd. mlia. }
  rewrite E. mlia.
Qed.

(** ** The summary of the incoming window *)
Lemma testbit_low16 v i : 0 ≤ i < 64 → Z.testbit (shl64 (Z.land v 0x7FFF) 48) i =
  bool_decide (48 ≤ i < 63) && Z.testbit v (i - 48).
Proof.
  intros Hi. rewrite testbit_shl64, (bool_decide_eq_true_2 (i < 64)), andb_true_l by lia.
  change 0x7FFF with (Z.ones 15). rewrite Z.land_spec.
  destruct (decide (48 ≤ i < 63)).
  - by rewrite bool_decide_eq_true_2, Z.ones_spec_low, andb_true_r by lia.
  - rewrite bool_decide_eq_false_2 by done. destruct (decide (i < 48)).
    + by rewrite Z.testbit_neg_r by lia.
    + by rewrite Z.ones_spec_high, andb_false_r by lia.
Qed.

(** The low 48 bits stand or fall together. *)
Lemma testbit_expand_low v i :
  0 ≤ v < 2 ^ 16 → 0 ≤ i < 64 →
  Z.testbit (Z.land (u64 (shl64 1 48 - Z.shiftr v 15)) (not64 (shl64 1 48))) i =
  bool_decide (i < 48) && Z.testbit v 15.
Proof.
  intros Hv Hi. change (shl64 1 48) with (2 ^ 48). rewrite Z.land_spec, testbit_not64, testbit_pow2 by lia.
  rewrite Z.shiftr_div_pow2 by lia. pose proof (Z.testbit_spec' v 15 ltac:(lia)) as Hb.
  destruct (Z.testbit v 15); simpl Z.b2z in Hb.
  - assert (v / 2 ^ 15 = 1) as -> by (zify_div; lia). change (u64 (2 ^ 48 - 1)) with (Z.ones 48).
    destruct (decide (i < 48)).
    + by rewrite Z.ones_spec_low, (bool_decide_eq_true_2 (i < 48)), (bool_decide_eq_false_2 (i = 48)) by lia.
    + by rewrite Z.ones_spec_high, (bool_decide_eq_false_2 (i < 48)) by lia.
  - assert (v / 2 ^ 15 = 0) as -> by (zify_div; lia). change (u64 (2 ^ 48 - 0)) with (2 ^ 48).
    rewrite testbit_pow2 by lia. destruct (decide (i = 48)) as [->|]; [done|].
    rewrite (bool_decide_eq_false_2 (i = 48)) by done. by rewrite andb_false_r.
Qed.

Lemma testbit_expand v i :
  0 ≤ v < 2 ^ 16 → 0 ≤ i < 64 →
  Z.testbit (expand_ack_vec v) i =
  if bool_decide (i < 48) then Z.testbit v 15 else if bool_decide (i < 63) then Z.testbit v (i - 48) else true.
Proof.
  intros Hv Hi. unfold expand_ack_vec. cbv zeta.
  rewrite !Z.lor_spec, testbit_expand_low, testbit_low16, testbit_shl1 by lia.
  destruct (decide (i < 48)).
  { rewrite (bool_decide_eq_true_2 (i < 48)), (bool_decide_eq_false_2 (48 ≤ i < 63)),
      (bool_decide_eq_false_2 (i = 63)) by lia. simpl. by rewrite orb_false_r. }
  rewrite (bool_decide_eq_false_2 (i < 48)) by lia. destruct (decide (i < 63)).
  - rewrite (bool_decide_eq_true_2 (48 ≤ i < 63)), (bool_decide_eq_true_2 (i < 63)),
      (bool_decide_eq_false_2 (i = 63)) by lia. simpl. by rewrite orb_false_r.
  - by rewrite (bool_decide_eq_false_2 (48 ≤ i < 63)), (bool_decide_eq_false_2 (i < 63)),
      (bool_decide_eq_true_2 (i = 63)) by lia.
Qed.

Definition low48_full (w : Z) : bool := Z.land w (2 ^ 48 - 1) =? 2 ^ 48 - 1.

Lemma compress_range w : 0 ≤ compress_inwnd w < 2 ^ 16.
Proof.
  unfold compress_inwnd. apply lor_range; [| |lia].
  - split; [apply Z.land_nonneg; lia|]. change 0x7FFF with (Z.ones 15). rewrite Z.land_ones by lia.
    zify_div; lia.
  - by destruct (_ =? _).
Qed.

Lemma testbit_compress w i :
  0 ≤ w → 0 ≤ i < 16 →
  Z.testbit (compress_inwnd w) i = if bool_decide (i < 15) then Z.testbit w (i + 48) else low48_full w.
Proof.
  intros Hw Hi. unfold compress_inwnd. change (Z.shiftr (not64 0) 16) with (2 ^ 48 - 1).
  fold (low48_full w). change 0x7FFF with (Z.ones 15).
  rewrite Z.lor_spec, Z.land_spec, Z.shiftr_spec, Z.shiftl_spec by lia.
  destruct (decide (i < 15)).
  - rewrite bool_decide_eq_true_2, Z.ones_spec_low, (Z.testbit_neg_r _ (i - 15)) by lia.
    by rewrite andb_true_r, orb_false_r.
  - rewrite bool_decide_eq_false_2, Z.ones_spec_high by lia. replace (i - 15) with 0 by lia.
    rewrite andb_false_r. by destruct (low48_full w).
Qed.

Lemma low48_full_bits w i : low48_full w = true → 0 ≤ i < 48 → Z.testbit w i = true.
Proof.
  unfold low48_full. intros E%Z.eqb_eq Hi.
  assert (Z.testbit (Z.land w (2 ^ 48 - 1)) i = true) as Hb.
  { rewrite E. change (2 ^ 48 - 1) with (Z.ones 48). apply Z.ones_spec_low. lia. }
  rewrite Z.land_spec in Hb. by apply andb_true_iff in Hb as [? _].
Qed.

(** The header summary never acknowledges a packet that was not received, and
    is exact on the latest 16. *)
Lemma ack_vec_sound w i :
  0 ≤ w < 2 ^ 64 → Z.testbit w 63 = true → 0 ≤ i < 64 →
  (Z.testbit (expand_ack_vec (compress_inwnd w)) i = true → Z.testbit w i = true) ∧
  (48 ≤ i → Z.testbit (expand_ack_vec (compress_inwnd w)) i = Z.testbit w i).
Proof.
  intros Hw H63 Hi. pose proof (compress_range w). rewrite !testbit_expand by done.
  destruct (decide (i < 48)).
  - rewrite bool_decide_eq_true_2, testbit_compress, bool_decide_eq_false_2 by lia.
    split; [|lia]. intros Hf. apply low48_full_bits; [done|lia].
  - rewrite bool_decide_eq_false_2 by lia. destruct (decide (i < 63)).
    + rewrite bool_decide_eq_true_2, testbit_compress, bool_decide_eq_true_2 by lia.
      replace (i - 48 + 48) with i by lia. done.
    + rewrite bool_decide_eq_false_2 by lia. replace i with 63 by lia. by rewrite H63.
Qed.

(** ** Reading what was written *)
Lemma ld8_app pre l i : 0 ≤ i → ld8 (pre ++ l) (Z.of_nat (length pre) + i) = ld8 l i.
Proof.
  intros Hi. unfold ld8. rewrite !(proj2 (Z.ltb_ge _ 0)) by lia.
  rewrite lookup_app_r by lia. f_equal. lia.
Qed.

Lemma ld16_app pre l i : 0 ≤ i → ld16 (pre ++ l) (Z.of_nat (length pre) + i) = ld16 l i.
Proof. intros Hi. unfold ld16. rewrite <- Z.add_assoc, !ld8_app by lia. done. Qed.

Lemma ld16_be16 v l : ld16 (be16 v ++ l) 0 = Some (u16 v).
Proof.
  change (Some (u16 v / 2 ^ 8 * 2 ^ 8 + u16 v mod 2 ^ 8) = Some (u16 v)). f_equal. mlia.
Qed.

Lemma ld16_second v w l : ld16 (be16 v ++ be16 w ++ l) 2 = Some (u16 w).
Proof.
  change (Some (u16 w / 2 ^ 8 * 2 ^ 8 + u16 w mod 2 ^ 8) = Some (u16 w)). f_equal. mlia.
Qed.

Lemma ld32_be32 v l : ld32 (be32 v ++ l) 0 = Some (u32 v).
Proof.
  unfold be32, ld32. rewrite <- app_assoc, ld16_be16. change (0 + 2) with 2. rewrite ld16_second.
  cbn [mbind option_bind]. f_equal. rewrite Z.shiftr_div_pow2 by lia. mlia.
Qed.

(** What [handle_areq] reads: [n] pairs of big-endian shorts (destination, count). *)
Fixpoint areq_entries (n : nat) (bytes : list Z) : option (list (Z * Z)) :=
  match n with
  | O => Some []
  | S n' =>
      dst ← ld16 bytes 0;
      count ← ld16 bytes 2;
      rest ← areq_entries n' (drop 4 bytes);
      Some ((dst, count) :: rest)
  end.

Definition areq_pair (a : fpproto_areq_desc) : Z * Z := (u16 (src_dst_key a), u16 (tslots a)).

Lemma areq_entries_bytes (l : list fpproto_areq_desc) rest :
  areq_entries (length l) ((l ≫= λ a, be16 (src_dst_key a) ++ be16 (tslots a)) ++ rest)
  = Some (areq_pair <$> l).
Proof.
  induction l as [|a l IH]; [done|]. rewrite bind_cons, <- !app_assoc. simpl length.
  cbn [areq_entries]. rewrite ld16_be16, ld16_second.
  change (drop 4 _) with ((l ≫= λ a, be16 (src_dst_key a) ++ be16 (tslots a)) ++ rest).
  cbn [mbind option_bind]. by rewrite IH.
Qed.

(** ** The first payload of a request packet *)
Definition areq_type (B : build) : Z :=
  if EMULATION_ALGO B && IS_ENDPOINT B then FASTPASS_PTYPE_EMU_AREQ else FASTPASS_PTYPE_AREQ.

Lemma areq_header_bytes B (n : Z) :
  0 ≤ n < 64 →
  be16 (if EMULATION_ALGO B && IS_ENDPOINT B then
    Z.lor (Z.lor (Z.shiftl FASTPASS_PTYPE_EMU_AREQ 12) (Z.shiftl (Z.land AREQ_DATA_TYPE_NONE 0x3F) 6)) (Z.land n 0x3F)
    else Z.lor (Z.shiftl FASTPASS_PTYPE_AREQ 12) (Z.land n 0x3F)) = [16 * areq_type B; n].
Proof.
  intros Hn. unfold areq_type. set (b := EMULATION_ALGO B && IS_ENDPOINT B). clearbody b.
  set (f := λ m, be16 (if b then
    Z.lor (Z.lor (Z.shiftl FASTPASS_PTYPE_EMU_AREQ 12) (Z.shiftl (Z.land AREQ_DATA_TYPE_NONE 0x3F) 6)) (Z.land m 0x3F)
    else Z.lor (Z.shiftl FASTPASS_PTYPE_AREQ 12) (Z.land m 0x3F))).
  set (g := λ m, [16 * (if b then FASTPASS_PTYPE_EMU_AREQ else FASTPASS_PTYPE_AREQ); m]).
  assert (forallb (λ m, bool_decide (f m = g m)) (seqZ 0 64) = true) as Hall.
  { unfold f, g. destruct b; vm_compute; reflexivity. }
  rewrite forallb_forall in Hall. apply (bool_decide_eq_true_1 (f n = g n)), Hall.
  apply list_elem_of_In, elem_of_seqZ. lia.
Qed.

(** ** Receiving a data packet *)
Section receive.
Context (B : build) `{H : HashOps}.

Lemma ld8_st16 pkt v i : 8 ≤ i → ld8 (st16_host pkt 6 v) i = ld8 pkt i.
Proof.
  intros Hi. unfold ld8, st16_host, arr_set. rewrite (proj2 (Z.ltb_ge _ 0)) by lia.
  by rewrite !list_lookup_insert_ne by lia.
Qed.

(** A packet without reset and without ACK payload that the receiver accepts:
    [fpproto_handle_rx_packet] processes its acknowledgement and hands it on. *)
Record data_packet (c : fpproto_conn) (addr : Z) (pkt : list Z) (seq ack ack_vec16 : Z) : Prop := {
  dp_len : 8 < Z.of_nat (length pkt);
  dp_type : ∃ b, ld8 pkt 8 = Some b ∧ Z.shiftr b 4 ≠ FASTPASS_PTYPE_RESET ∧
                 Z.shiftr b 4 ≠ FASTPASS_PTYPE_ACK;
  dp_seq16 : ld16 pkt 0 = Some (u16 seq);
  dp_ack16 : ld16 pkt 2 = Some (u16 ack);
  dp_vec : ld16 pkt 4 = Some ack_vec16;
  dp_seq : 0 ≤ seq < 2 ^ 64 ∧ u64 (seq - (in_max_seqno c - 2 ^ 14)) < 2 ^ 16;
  dp_ack : 0 ≤ ack < 2 ^ 64 ∧ u64 (ack - (head (outwnd c) - 2 ^ 16 + 1)) < 2 ^ 16;
  dp_csum : ld16_host pkt 6 = Some (fastpass_checksum addr (st16_host pkt 6 0) seq ack);
  dp_new : at_most_once_may_accept c seq = 0;
}.

(** The calls that an acknowledgement makes. *)
Definition ack_call (k : proto_call) : bool :=
  match k with
  | CHandleAck _ | CHandleSkippedAck _ | CSetTimer _ | CCancelTimer | CFree _ => true
  | _ => false
  end.

Definition ack_log (c : fpproto_conn) (l : list (event proto_call)) : Prop :=
  log_from c l ∧ Forall (λ k, ack_call k = true) (calls l).

Lemma calls_bind (ss : list Z) (f : Z → list (event proto_call)) :
  (∀ s, Forall (λ k, ack_call k = true) (calls (f s))) → Forall (λ k, ack_call k = true) (calls (ss ≫= f)).
Proof.
  intros Hf. induction ss as [|s ss IH]; [constructor|]. rewrite bind_cons, calls_app. by apply Forall_app.
Qed.

Lemma ack_log_payload c c' ack_seq ack_vec l : conn_wf c →
  l = (newly_acked c ack_seq ack_vec ≫= ack_events c) ++
      (skipped_by B c ack_seq ack_vec ≫= skip_events c) ++
      match newly_acked c ack_seq ack_vec with [] => [] | _ => restart_events c c' end →
  ack_log c l.
Proof.
  intros Hc ->. split; [by eapply (log_ack_payload B c c')|]. rewrite !calls_app, !Forall_app. split; [|split].
  - apply calls_bind. intros s. unfold ack_events. by repeat case_match; repeat constructor.
  - apply calls_bind. intros s. unfold skip_events. by repeat case_match; repeat constructor.
  - destruct (newly_acked _ _ _); [constructor|]. unfold restart_events, timer_events.
    repeat case_match; simpl; repeat constructor. destruct (out_pd _ _); by repeat constructor.
Qed.

Lemma rx_data_packet c now1 now2 addr pkt seq ack ack_vec16 :
  conn_wf c → data_packet c addr pkt seq ack ack_vec16 →
  wp (fpproto_handle_rx_packet B now1 now2 addr pkt) (λ r c' l,
    r = (Some seq, st16_host pkt 6 0) ∧ conn_wf c' ∧ in_sync c' = true ∧
    consecutive_bad_pkts c' = 0 ∧ same_config c c' ∧ in_max_seqno c' = in_max_seqno c ∧
    inwnd c' = inwnd c ∧
    wnd_set (outwnd c') = wnd_set (outwnd c) ∖ list_to_set (newly_acked c ack (expand_ack_vec ack_vec16)) ∧
    ack_log c l) c.
Proof.
  intros Hc [Hlen (b & Hb & Ht1 & Ht2) Hs16 Ha16 Hv [Hs Hsd] [Ha Had] Hck Hnew].
  unfold fpproto_handle_rx_packet. cbv zeta. rewrite (proj2 (Z.ltb_ge _ _)) by lia.
  wp_step. wp_step. set (c0 := set_stat _ c). wp_step. wp_step. wp_step.
  rewrite (proj2 (Z.eqb_neq (Z.of_nat (length pkt)) 8)) by lia. rewrite Hb. cbn [mbind option_bind].
  eapply wp_deref; [done|]. wp_step. eapply wp_deref; [exact Hs16|]. wp_step.
  eapply wp_deref; [exact Ha16|]. wp_step. eapply wp_deref; [exact Hv|].
  rewrite (proj2 (Z.eqb_neq _ _) Ht1). cbn [andb]. wp_step. wp_step.
  change (wnd_head (outwnd c)) with (head (outwnd c)).
  rewrite !expand16_exact by done. wp_step. eapply wp_deref; [exact Hck|].
  rewrite Z.eqb_refl. cbn [negb]. unfold got_good_packet. wp_step. wp_step. wp_step. wp_step.
  set (c1 := set_in_sync true (set_consecutive_bad_pkts 0 c0)).
  assert (conn_wf c1) as Hc1 by (unfold c1, c0; conn_wf_tac).
  wp_step. wp_step. fold c0. fold c1. wp_step. wp_step.
  change (at_most_once_may_accept c1 seq) with (at_most_once_may_accept c seq).
  rewrite Hnew. cbn [negb]. rewrite Z.eqb_refl. cbn [negb]. wp_step.
  eapply wp_mono; [apply (ack_payload_handler_spec B c1); [done|done|apply expand_ack_vec_range]|].
  intros [] c2 l2 [Haa Hl2]. rewrite (proj2 (Z.eqb_neq 8 _)) by lia. wp_step.
  eapply wp_deref; [by rewrite ld8_st16 by lia|].
  rewrite (proj2 (Z.eqb_neq _ _) Ht2). cbn [negb]. wp_step.
  destruct (aa_config _ _ _ Haa) as (? & ? & ?). destruct (aa_in _ _ _ Haa) as [? ?].
  destruct (aa_state _ _ _ Haa) as (? & ? & ?).
  split_and!; try done; [apply Haa|apply (aa_set _ _ _ Haa)|].
  rewrite !app_nil_r. by eapply (ack_log_payload c1 c2).
Qed.

(** A request payload after [hd], followed by padding. *)
Context (hd ents : list Z) (t n : Z) (k : nat).
Context (Hn : 0 ≤ n < 64) (Hents : Z.of_nat (length ents) = 4 * n).
Context (Ht : t = FASTPASS_PTYPE_AREQ ∨ t = FASTPASS_PTYPE_EMU_AREQ).
Context (Hbuild : reads_areq_data B = false).
Let pkt : list Z := hd ++ [16 * t; n] ++ ents ++ replicate k 0.
Let curp : Z := Z.of_nat (length hd).

Lemma ld_first : ld8 pkt curp = Some (16 * t).
Proof using.
  replace (ld8 pkt curp) with (ld8 pkt (Z.of_nat (length hd) + 0)) by (unfold curp; f_equal; lia).
  unfold pkt. by rewrite ld8_app by lia.
Qed.

Lemma ld_type16 : ld16 pkt curp = Some (16 * t * 2 ^ 8 + n).
Proof using.
  replace (ld16 pkt curp) with (ld16 pkt (Z.of_nat (length hd) + 0)) by (unfold curp; f_equal; lia).
  unfold pkt. by rewrite ld16_app by lia.
Qed.

Lemma length_pkt : Z.of_nat (length pkt) = curp + 2 + 4 * n + Z.of_nat k.
Proof using Hents. unfold pkt, curp. rewrite !length_app, length_replicate. simpl length. lia. Qed.

Lemma areq_count : Z.land (16 * t * 2 ^ 8 + n) 0x3F = n.
Proof using Hn Ht. clear -Hn Ht. change 0x3F with (Z.ones 6). rewrite Z.land_ones by lia. zify_div; lia. Qed.

Lemma drop_header : drop (Z.to_nat (curp + 2)) pkt = ents ++ replicate k 0.
Proof using.
  unfold pkt. rewrite app_assoc. apply drop_app_length'. rewrite length_app. simpl. unfold curp. lia.
Qed.

Definition areq_call (c : fpproto_conn) : list (event proto_call) :=
  if has_handle_areq (ops c) then [EvCall (CHandleAreq (ents ++ replicate k 0) n)] else [].

Lemma process_areq_spec c :
  wp (process_areq B pkt curp) (λ r c' l, r = 2 + 4 * n ∧ c' = c ∧ l = areq_call c) c.
Proof using Hn Hents Ht Hbuild.
  pose proof length_pkt as Hl. unfold process_areq. wp_step. apply wp_get. cbv zeta.
  rewrite Z.gtb_ltb, (proj2 (Z.ltb_ge _ _)) by lia. wp_step. eapply wp_deref; [exact ld_type16|].
  rewrite areq_count, Z.gtb_ltb, (proj2 (Z.ltb_ge _ _)) by lia. wp_step. wp_step.
  rewrite drop_header. fold (areq_call c). rewrite (no_request_data _ Hbuild).
  wp_step. wp_step. wp_step. rewrite !app_nil_r. split_and!; [lia|done|done].
Qed.

Lemma rx_payloads_areq fuel c :
  (2 ≤ fuel)%nat →
  wp (rx_payloads B fuel pkt curp) (λ r c' l, r = true ∧ c' = c ∧ l = areq_call c) c.
Proof using Hn Hents Ht Hbuild.
  intros Hf. destruct fuel as [|[|fuel]]; [lia..|]. pose proof length_pkt as Hl.
  remember (S fuel) as fuel1 eqn:Ef. cbn [rx_payloads]. cbv zeta.
  wp_step. eapply wp_deref; [exact ld_first|].
  assert (Z.shiftr (16 * t) 4 = t) as -> by (rewrite Z.shiftr_div_pow2 by lia; zify_div; lia).
  assert ((t =? FASTPASS_PTYPE_ACK) = false ∧ (t =? FASTPASS_PTYPE_RESET) = false ∧
    (t =? FASTPASS_PTYPE_ALLOC) || (t =? FASTPASS_PTYPE_EMU_ALLOC) = false ∧
    (t =? FASTPASS_PTYPE_AREQ) || (t =? FASTPASS_PTYPE_EMU_AREQ) = true) as (-> & -> & -> & ->)
    by (destruct Ht as [->| ->]; done).
  wp_step. eapply wp_mono; [apply process_areq_spec|]. intros r c' l (-> & -> & ->).
  rewrite (proj2 (Z.eqb_neq (2 + 4 * n) (-1))) by lia.
  destruct (Z.ltb_spec (curp + (2 + 4 * n)) (Z.of_nat (length pkt))) as [Hlt|Hge].
  2:{ apply wp_ret. by rewrite app_nil_r. }
  subst fuel1. cbn [rx_payloads]. cbv zeta. wp_step.
  assert (ld8 pkt (curp + (2 + 4 * n)) = Some 0) as Hz.
  { unfold pkt. rewrite app_assoc, (app_assoc _ ents).
    replace (curp + (2 + 4 * n)) with (Z.of_nat (length ((hd ++ [16 * t; n]) ++ ents)) + 0)
      by (rewrite !length_app; simpl length; lia).
    rewrite ld8_app by lia. destruct k; [lia|done]. }
  eapply wp_deref; [exact Hz|]. change (Z.shiftr 0 4) with 0. cbn -[rx_payloads length pkt wp].
  rewrite Z.ltb_irrefl. apply wp_ret. by rewrite app_nil_r.
Qed.
End receive.

(** ** Encoded packets are accepted *)
Section encoded.
Context (Bs : build) `{H : HashOps} `{HH : !HashOk H} (pd : fpproto_pktdesc) (min_size : Z).

Lemma csum_range addr p s a : 0 ≤ fastpass_checksum addr p s a < 2 ^ 16.
Proof using HH. apply csum_magic_u16. Qed.

(** The first payload starts with byte [b]. *)
Lemma encoded_data_packet b body c addr addr' :
  let seq := pd_seqno pd in let ack := pd_ack_seq pd in
  let csum := fastpass_checksum addr (packet Bs pd min_size 0) seq ack in
  body_bytes Bs pd = b :: body → Z.shiftr b 4 ≠ FASTPASS_PTYPE_RESET → Z.shiftr b 4 ≠ FASTPASS_PTYPE_ACK →
  fastpass_checksum addr' (packet Bs pd min_size 0) seq ack = csum →
  0 ≤ seq < 2 ^ 64 ∧ u64 (seq - (in_max_seqno c - 2 ^ 14)) < 2 ^ 16 →
  0 ≤ ack < 2 ^ 64 ∧ u64 (ack - (head (outwnd c) - 2 ^ 16 + 1)) < 2 ^ 16 →
  at_most_once_may_accept c seq = 0 →
  data_packet c addr' (packet Bs pd min_size csum) seq ack (u16 (pd_ack_vec pd)).
Proof using HH.
  intros seq ack csum Eb H1 H2 Eck Hs Ha Hnew. pose proof (csum_range addr (packet Bs pd min_size 0) seq ack) as Hr.
  fold csum in Hr. clearbody csum.
  assert (st16_host (packet Bs pd min_size csum) 6 0 = packet Bs pd min_size 0) as E0 by done.
  constructor; try done.
  - unfold packet. rewrite Eb, !length_app. simpl length. lia.
  - exists b. split; [|done]. unfold packet. rewrite app_assoc, Eb.
    change 8 with (Z.of_nat (length (hdr_bytes pd ++ [csum mod 2 ^ 8; csum / 2 ^ 8])) + 0). by rewrite ld8_app by lia.
  - unfold packet, hdr_bytes. rewrite <- !app_assoc. apply ld16_be16.
  - unfold packet, hdr_bytes. rewrite <- !app_assoc. apply ld16_second.
  - unfold packet, hdr_bytes. rewrite <- !app_assoc, app_assoc.
    change 4 with (Z.of_nat (length (be16 (pd_seqno pd) ++ be16 (pd_ack_seq pd))) + 0).
    rewrite ld16_app by lia. apply ld16_be16.
  - rewrite E0, Eck. transitivity (Some (csum mod 2 ^ 8 + csum / 2 ^ 8 * 2 ^ 8)); [done|].
    f_equal. zify_div; lia.
Qed.
End encoded.

(** ** End to end: requests *)

(** A number in the range the receiver can expand, in unwrapped coordinates. *)
Lemma seq_unwrap X s :
  0 ≤ s < 2 ^ 64 → u64 (s - (X - 2 ^ 14)) < 2 ^ 16 → ∃ Y, s = u64 Y ∧ near X Y.
Proof.
  intros Hs Hd. exists (X - 2 ^ 14 + u64 (s - (X - 2 ^ 14))). unfold near.
  pose proof (u64_range (s - (X - 2 ^ 14))). split; [mlia|lia].
Qed.

Lemma successful_rx_spec c seq :
  conn_wf c → 0 ≤ seq < 2 ^ 64 → u64 (seq - (in_max_seqno c - 2 ^ 14)) < 2 ^ 16 →
  wp (fpproto_successful_rx seq) (λ _ c' l, l = [] ∧ conn_wf c' ∧
    in_sync c' = in_sync c ∧ at_most_once_may_accept c' seq = 1) c.
Proof.
  intros Hc Hs Hd. destruct (seq_unwrap (in_max_seqno c) seq Hs Hd) as (Y & -> & HY).
  pose proof (cw_in_max c (cw_fields c Hc)) as Hm.
  unfold fpproto_successful_rx. wp_step.
  eapply wp_mono; [apply (update_inwnd_spec c (in_max_seqno c) Y Hc); [by rewrite u64_small|done]|].
  intros r c' l [_ -> Hc' Hmax (w & m & f & E) Hseen]. apply wp_ret. split_and!; try done.
  - by subst c'.
  - rewrite (at_most_once_seen c' (Z.max (in_max_seqno c) Y) Y Hmax) by (unfold near in *; lia).
    by rewrite Hseen, (bool_decide_eq_true_2 (Y = Y)), orb_true_r.
Qed.

Section request.
Context (Bs Br : build) `{H : HashOps} `{HH : !HashOk H} (pd : fpproto_pktdesc) (min_size : Z).
Context (Hpd : pd_ok Bs pd) (Hnoreset : pd_send_reset pd = false) (Hnoalloc : has_alloc Bs pd = false).
Context (Hn : 0 < pd_n_areq pd < 64).
Let areqs : list fpproto_areq_desc := take (Z.to_nat (pd_n_areq pd)) (pd_areq pd).
Let ents : list Z := areqs ≫= λ a, be16 (src_dst_key a) ++ be16 (tslots a).

Lemma areq_bytes_eq : areq_bytes Bs pd = [16 * areq_type Bs; pd_n_areq pd] ++ ents.
Proof using Hpd Hn.
  unfold areq_bytes. f_equal. rewrite <- areq_header_bytes by lia.
  destruct (EMULATION_ALGO Bs && IS_ENDPOINT Bs) eqn:E; [|done]. by rewrite (po_no_data _ _ Hpd E).
Qed.

Lemma packet_request csum : ∃ k,
  packet Bs pd min_size csum =
    (hdr_bytes pd ++ [csum mod 2 ^ 8; csum / 2 ^ 8]) ++ [16 * areq_type Bs; pd_n_areq pd] ++ ents ++ replicate k 0
  ∧ ∀ csum', packet Bs pd min_size csum' =
    (hdr_bytes pd ++ [csum' mod 2 ^ 8; csum' / 2 ^ 8]) ++ [16 * areq_type Bs; pd_n_areq pd] ++ ents ++ replicate k 0.
Proof using Hpd Hnoreset Hnoalloc Hn.
  pose proof areq_bytes_eq as Ea.
  assert (body_bytes Bs pd = [16 * areq_type Bs; pd_n_areq pd] ++ ents) as Eb.
  { unfold body_bytes. rewrite Hnoreset, Hnoalloc, (proj2 (Z.gtb_lt _ _)) by lia. done. }
  eexists. assert (∀ csum', packet Bs pd min_size csum' =
    (hdr_bytes pd ++ [csum' mod 2 ^ 8; csum' / 2 ^ 8]) ++ [16 * areq_type Bs; pd_n_areq pd] ++ ents ++ pad_bytes Bs pd min_size) as E.
  { intros c. unfold packet. by rewrite Eb, <- !app_assoc. }
  split; [apply E|intros c; apply E].
Qed.

Lemma length_ents : Z.of_nat (length ents) = 4 * pd_n_areq pd.
Proof using Hpd.
  unfold ents. rewrite (length_bind_const _ 4) by done. pose proof (length_areqs Bs pd Hpd). unfold areqs. lia.
Qed.

Lemma request_data_packet c addr addr' :
  let seq := pd_seqno pd in let ack := pd_ack_seq pd in
  let csum := fastpass_checksum addr (packet Bs pd min_size 0) seq ack in
  fastpass_checksum addr' (packet Bs pd min_size 0) seq ack = csum →
  0 ≤ seq < 2 ^ 64 ∧ u64 (seq - (in_max_seqno c - 2 ^ 14)) < 2 ^ 16 →
  0 ≤ ack < 2 ^ 64 ∧ u64 (ack - (head (outwnd c) - 2 ^ 16 + 1)) < 2 ^ 16 →
  at_most_once_may_accept c seq = 0 →
  data_packet c addr' (packet Bs pd min_size csum) seq ack (u16 (pd_ack_vec pd)).
Proof using All.
  apply (encoded_data_packet Bs pd min_size (16 * areq_type Bs) (pd_n_areq pd :: ents)).
  - unfold body_bytes. rewrite Hnoreset, Hnoalloc, (proj2 (Z.gtb_lt _ _)) by lia. apply areq_bytes_eq.
  - unfold areq_type. by destruct (_ && _).
  - unfold areq_type. by destruct (_ && _).
Qed.

Lemma request_delivered c now1 now2 addr addr' :
  let seq := pd_seqno pd in let ack := pd_ack_seq pd in
  let csum := fastpass_checksum addr (packet Bs pd min_size 0) seq ack in
  conn_wf c → reads_areq_data Br = false →
  fastpass_checksum addr' (packet Bs pd min_size 0) seq ack = csum →
  0 ≤ seq < 2 ^ 64 ∧ u64 (seq - (in_max_seqno c - 2 ^ 14)) < 2 ^ 16 →
  0 ≤ ack < 2 ^ 64 ∧ u64 (ack - (head (outwnd c) - 2 ^ 16 + 1)) < 2 ^ 16 →
  at_most_once_may_accept c seq = 0 →
  wp (fpproto_handle_rx_complete Br now1 now2 addr' (packet Bs pd min_size csum)) (λ _ c' l,
    ∃ l1 payload, ack_log c l1 ∧
      l = l1 ++ (if has_handle_areq (ops c) then [EvCall (CHandleAreq payload (pd_n_areq pd))] else []) ∧
      areq_entries (Z.to_nat (pd_n_areq pd)) payload = Some (areq_pair <$> areqs) ∧
      conn_wf c' ∧ in_sync c' = true ∧ at_most_once_may_accept c' seq = 1) c.
Proof using All.
  intros seq ack csum Hc Hb Eck Hs Ha Hnew. unfold fpproto_handle_rx_complete. wp_step.
  pose proof (request_data_packet c addr addr' Eck Hs Ha Hnew) as Hdp. fold seq ack csum in Hdp.
  eapply wp_mono; [by apply (rx_data_packet Br c now1 now2 addr')|].
  intros r c1 l1 (-> & Hc1 & Hsync & _ & Hcfg & Hmax & Hin & _ & Hal). wp_step.
  change (st16_host (packet Bs pd min_size csum) 6 0) with (packet Bs pd min_size 0).
  destruct (packet_request 0) as (k & E & _). unfold fpproto_perform_rx_callbacks. rewrite E.
  pose proof (length_pkt (hdr_bytes pd ++ [0 mod 2 ^ 8; 0 / 2 ^ 8]) ents (areq_type Bs) (pd_n_areq pd) k
    length_ents) as Hlen. change (Z.of_nat (length (hdr_bytes pd ++ [0 mod 2 ^ 8; 0 / 2 ^ 8]))) with 8 in Hlen.
  apply wp_bind, wp_bug_on; [apply Z.eqb_neq; lia|].
  eapply wp_mono; [apply (rx_payloads_areq Br (hdr_bytes pd ++ [0 mod 2 ^ 8; 0 / 2 ^ 8]) ents); [lia|apply length_ents| |done|lia]|].
  - unfold areq_type. destruct (_ && _); auto.
  - intros ok c2 l2 (-> & -> & ->).
    eapply wp_mono; [apply successful_rx_spec; [done|apply Hs|rewrite Hmax; apply Hs]|].
    intros [] c3 l3 (-> & Hc3 & Hsync3 & Hdup). cbn [app]. rewrite app_nil_r.
    eexists l1, (ents ++ replicate k 0). split_and!; try done.
    + unfold areq_call. by destruct Hcfg as [-> _].
    + assert (Z.to_nat (pd_n_areq pd) = length areqs) as ->.
      { pose proof (length_areqs Bs pd Hpd). unfold areqs. lia. }
      apply areq_entries_bytes.
    + by rewrite Hsync3.
Qed.
End request.
