(* ===== verification/AllocTrip.v ===== *)
(** * Allocations on their way to the endpoint

    What the arbiter encodes into the ALLOC payload of a packet is what the receive
    path of the endpoint hands to the handler of allocations; the entries of the
    payload admit the timeslots of the flows that the arbiter allocated them to. *)

From S2P Require Import Prelude Platform Window WindowFacts WindowSpec WindowMarks Protocol ConnFacts ConnSpec ConnAck ConnSend ConnInwnd ConnSafe.
From S2P Require Import Codec RoundTrip.

(** ** The bytes of the payload *)

(** [n] destinations and [2 * h] timeslots. *)
Lemma alloc_header_bytes n h : 0 ≤ n < 16 → 0 ≤ h < 64 →
  be16 (Z.lor (Z.lor (Z.shiftl FASTPASS_PTYPE_ALLOC 12) (Z.shiftl n 8)) h) = [16 * FASTPASS_PTYPE_ALLOC + n; h].
Proof.
  intros Hn Hh.
  assert (forallb (λ n, forallb (λ h, bool_decide
    (be16 (Z.lor (Z.lor (Z.shiftl FASTPASS_PTYPE_ALLOC 12) (Z.shiftl n 8)) h) = [16 * FASTPASS_PTYPE_ALLOC + n; h]))
    (seqZ 0 64)) (seqZ 0 16) = true) as Hall by (vm_compute; reflexivity).
  rewrite forallb_forall in Hall. specialize (Hall n). rewrite forallb_forall in Hall.
  eapply bool_decide_eq_true_1, Hall; apply list_elem_of_In, elem_of_seqZ; lia.
Qed.

Lemma alloc_fields n h : 0 ≤ n < 16 → 0 ≤ h < 64 →
  let v := (16 * FASTPASS_PTYPE_ALLOC + n) * 2 ^ 8 + h in
  Z.land (Z.shiftr v 8) 0xF = n ∧ Z.land v 0x3F = h.
Proof.
  intros Hn Hh v. change 0xF with (Z.ones 4). change 0x3F with (Z.ones 6). change FASTPASS_PTYPE_ALLOC with 3 in v.
  rewrite Z.shiftr_div_pow2, !Z.land_ones by lia. unfold v. split; zify_div; lia.
Qed.

Lemma load_dsts_bytes (dsts : list Z) : ∀ pre rest,
  load_dsts (length dsts) (pre ++ (dsts ≫= be16) ++ rest) (Z.of_nat (length pre)) = Some (u16 <$> dsts).
Proof.
  induction dsts as [|d dsts IH]; intros pre rest; [done|]. rewrite bind_cons, <- app_assoc. cbn [length load_dsts].
  rewrite <- (Z.add_0_r (Z.of_nat (length pre))) at 1. rewrite ld16_app, ld16_be16 by lia. cbn [mbind option_bind].
  specialize (IH (pre ++ be16 d) rest). rewrite <- app_assoc, length_app, length_be16 in IH.
  replace (Z.of_nat (length pre) + 2) with (Z.of_nat (length pre + 2)) by lia. by rewrite IH.
Qed.

(** ** Receiving the payload *)
Section payload.
Context (B : build) (hd : list Z) (base : Z) (dsts specs tail : list Z) (h : Z).
Context (Hn : (length dsts < 16)%nat) (Hh : 0 ≤ h < 64) (Hspecs : Z.of_nat (length specs) = 2 * h).
Let n : Z := Z.of_nat (length dsts).
Let head : list Z := [16 * FASTPASS_PTYPE_ALLOC + n; h] ++ be16 base ++ (dsts ≫= be16).
Let pkt : list Z := hd ++ head ++ specs ++ tail.
Let curp : Z := Z.of_nat (length hd).

Definition alloc_call (c : fpproto_conn) : list (event proto_call) :=
  if has_handle_alloc (ops c) then
    [EvCall (CHandleAlloc (u32 (Z.shiftl (u16 base) 4)) (u16 <$> dsts) n (specs ++ tail) (2 * h))] else [].

Lemma length_head : Z.of_nat (length head) = 4 + 2 * n.
Proof using. clear -head n. unfold head. rewrite !length_app, length_be16, (length_bind_const _ 2) by done. simpl. lia. Qed.

Lemma length_alloc_pkt : Z.of_nat (length pkt) = curp + 4 + 2 * n + 2 * h + Z.of_nat (length tail).
Proof using Hspecs. pose proof length_head. clear Hn Hh. unfold pkt, curp. rewrite !length_app. lia. Qed.

(** The length check counts the two bytes of the type twice. *)
Lemma process_alloc_spec c : alloc_bytes_per_tslot (ops c) = 1 → (2 ≤ length tail)%nat →
  wp (process_alloc pkt curp) (λ r c' l, r = 4 + 2 * n + 2 * h ∧ c' = c ∧ l = alloc_call c) c.
Proof using Hn Hh Hspecs.
  intros Hb Ht. pose proof length_alloc_pkt as Hl. assert (0 ≤ n < 16) as Hn' by (unfold n; lia).
  unfold process_alloc. wp_step. apply wp_get. cbv zeta.
  rewrite Z.gtb_ltb, (proj2 (Z.ltb_ge _ _)) by lia. wp_step.
  assert (ld16 pkt curp = Some ((16 * FASTPASS_PTYPE_ALLOC + n) * 2 ^ 8 + h)) as E0.
  { unfold pkt, curp. rewrite <- (Z.add_0_r (Z.of_nat _)). by rewrite ld16_app by lia. }
  eapply wp_deref; [exact E0|]. destruct (alloc_fields n h Hn' Hh) as [-> ->]. rewrite Hb, Z.mul_1_r.
  rewrite Z.gtb_ltb, (proj2 (Z.ltb_ge _ _)) by lia. wp_step.
  assert (ld16 pkt (curp + 2) = Some (u16 base)) as E1.
  { unfold pkt, curp. rewrite ld16_app by lia. unfold head. rewrite <- !app_assoc.
    change 2 with (Z.of_nat (length [16 * FASTPASS_PTYPE_ALLOC + n; h]) + 0). rewrite ld16_app by lia. apply ld16_be16. }
  eapply wp_deref; [exact E1|]. wp_step.
  assert (load_dsts (Z.to_nat n) pkt (curp + 2 + 2) = Some (u16 <$> dsts)) as E2.
  { assert (pkt = (hd ++ [16 * FASTPASS_PTYPE_ALLOC + n; h] ++ be16 base) ++ (dsts ≫= be16) ++ specs ++ tail) as ->.
    { unfold pkt, head. by rewrite <- !app_assoc. }
    unfold n. rewrite Nat2Z.id. replace (curp + 2 + 2) with (Z.of_nat (length (hd ++ [16 * FASTPASS_PTYPE_ALLOC + n; h] ++ be16 base))).
    { apply load_dsts_bytes. }
    unfold curp. rewrite !length_app, length_be16. simpl. lia. }
  eapply wp_deref; [exact E2|]. wp_step.
  assert (drop (Z.to_nat (curp + 2 + 2 + 2 * n)) pkt = specs ++ tail) as ->.
  { unfold pkt. rewrite app_assoc. apply drop_app_length'. pose proof length_head. rewrite length_app. unfold curp. lia. }
  fold (alloc_call c). wp_step. wp_step. rewrite app_nil_r. split_and!; [lia|done|done].
Qed.

Lemma rx_payloads_alloc fuel c Φ : alloc_bytes_per_tslot (ops c) = 1 → (2 ≤ length tail)%nat →
  wp (rx_payloads B fuel pkt (curp + (4 + 2 * n + 2 * h))) (λ r c' l, Φ r c' (alloc_call c ++ l)) c →
  wp (rx_payloads B (S fuel) pkt curp) Φ c.
Proof using Hn Hh Hspecs.
  intros Hb Ht Hrest. pose proof length_alloc_pkt as Hl. cbn [rx_payloads]. cbv zeta.
  assert (ld8 pkt curp = Some (16 * FASTPASS_PTYPE_ALLOC + n)) as E0.
  { unfold pkt, curp. rewrite <- (Z.add_0_r (Z.of_nat _)). by rewrite ld8_app by lia. }
  wp_step. eapply wp_deref; [exact E0|].
  assert (Z.shiftr (16 * FASTPASS_PTYPE_ALLOC + n) 4 = FASTPASS_PTYPE_ALLOC) as ->.
  { change FASTPASS_PTYPE_ALLOC with 3. rewrite Z.shiftr_div_pow2 by lia. unfold n. zify_div; lia. }
  change (FASTPASS_PTYPE_ALLOC =? FASTPASS_PTYPE_ACK) with false. change (FASTPASS_PTYPE_ALLOC =? FASTPASS_PTYPE_RESET) with false.
  change ((FASTPASS_PTYPE_ALLOC =? FASTPASS_PTYPE_ALLOC) || _) with true. cbv iota.
  wp_step. eapply wp_mono; [by apply process_alloc_spec|]. intros r c' l (-> & -> & ->).
  rewrite (proj2 (Z.eqb_neq _ (-1))) by (unfold n; lia). cbv iota.
  rewrite (proj2 (Z.ltb_lt _ _)) by lia. exact Hrest.
Qed.
End payload.

Lemma rx_payloads_padding B hd k fuel c : (1 ≤ fuel)%nat → (1 ≤ k)%nat →
  wp (rx_payloads B fuel (hd ++ replicate k 0) (Z.of_nat (length hd))) (λ r c' l, r = true ∧ c' = c ∧ l = []) c.
Proof.
  intros Hf Hk. destruct fuel as [|fuel]; [lia|]. cbn [rx_payloads]. cbv zeta. wp_step.
  assert (ld8 (hd ++ replicate k 0) (Z.of_nat (length hd)) = Some 0) as E0.
  { rewrite <- (Z.add_0_r (Z.of_nat _)), ld8_app by lia. destruct k; [lia|done]. }
  eapply wp_deref; [exact E0|]. change (Z.shiftr 0 4) with 0. cbn -[rx_payloads length wp].
  rewrite Z.ltb_irrefl. by apply wp_ret.
Qed.

(** ** A packet with allocations and reports *)

(** The descriptor of an arbiter without network emulation allocates timeslots and
    reports on at most 63 destinations. The room behind the allocations is what the
    length check of [process_alloc] asks for too much. *)
Record alloc_packet (Bs : build) (pd : fpproto_pktdesc) (min_size : Z) : Prop := {
  ap_ok : pd_ok Bs pd;
  ap_build : IS_ENDPOINT Bs = false ∧ EMULATION_ALGO Bs = false;
  ap_reset : pd_send_reset pd = false;
  ap_tslots : 0 < pd_alloc_tslot pd < 128 ∧ Z.even (pd_alloc_tslot pd) = true;
  ap_dsts : 0 ≤ pd_n_dsts pd < 16;
  ap_areq : 0 ≤ pd_n_areq pd < 64;
  ap_room : 0 < pd_n_areq pd ∨ 8 + Z.of_nat (length (alloc_bytes Bs pd)) + 2 ≤ min_size;
}.

Section packet.
Context (Bs Br : build) `{H : HashOps} `{HH : !HashOk H} (pd : fpproto_pktdesc) (min_size : Z).
Hypothesis Hpd : alloc_packet Bs pd min_size.

Definition sent_dsts : list Z := take (Z.to_nat (pd_n_dsts pd)) (pd_dsts pd).
Definition sent_specs : list Z := take (Z.to_nat (pd_alloc_tslot pd)) (pd_tslot_desc pd).
Definition sent_areqs : list fpproto_areq_desc := take (Z.to_nat (pd_n_areq pd)) (pd_areq pd).
Definition reports : list Z := if pd_n_areq pd >? 0 then areq_bytes Bs pd else [].
Definition after_alloc : list Z := reports ++ pad_bytes Bs pd min_size.
Definition half_tslots : Z := pd_alloc_tslot pd / 2.

Lemma alloc_halves : pd_alloc_tslot pd = 2 * half_tslots ∧ 0 ≤ half_tslots < 64.
Proof using Hpd.
  destruct (ap_tslots _ _ _ Hpd) as [Ht He]. apply Z.even_spec in He as [m Em]. unfold half_tslots. split; zify_div; lia.
Qed.

Lemma has_alloc_true : has_alloc Bs pd = true.
Proof using Hpd.
  unfold has_alloc. rewrite (proj1 (ap_build _ _ _ Hpd)), (proj2 (Z.gtb_lt _ _)); [done|]. apply (ap_tslots _ _ _ Hpd).
Qed.

Lemma length_sent_dsts : Z.of_nat (length sent_dsts) = pd_n_dsts pd.
Proof using Hpd. apply (length_dsts Bs pd (ap_ok _ _ _ Hpd)). Qed.

Lemma length_sent_specs : Z.of_nat (length sent_specs) = pd_alloc_tslot pd.
Proof using Hpd. apply (length_tslots Bs pd (ap_ok _ _ _ Hpd)). Qed.

Lemma length_sent_areqs : Z.of_nat (length sent_areqs) = pd_n_areq pd.
Proof using Hpd. apply (length_areqs Bs pd (ap_ok _ _ _ Hpd)). Qed.

Lemma alloc_bytes_eq : alloc_bytes Bs pd =
  ([16 * FASTPASS_PTYPE_ALLOC + pd_n_dsts pd; half_tslots] ++ be16 (pd_base_tslot pd) ++ (sent_dsts ≫= be16)) ++ sent_specs.
Proof using Hpd.
  unfold alloc_bytes. rewrite (proj2 (ap_build _ _ _ Hpd)), app_nil_r.
  rewrite alloc_header_bytes by (apply (ap_dsts _ _ _ Hpd) || apply alloc_halves). by rewrite <- !app_assoc.
Qed.

Lemma body_alloc : body_bytes Bs pd = alloc_bytes Bs pd ++ reports.
Proof using Hpd. unfold body_bytes. by rewrite (ap_reset _ _ _ Hpd), has_alloc_true. Qed.

Lemma alloc_data_packet c addr addr' :
  let seq := pd_seqno pd in let ack := pd_ack_seq pd in
  let csum := fastpass_checksum addr (packet Bs pd min_size 0) seq ack in
  fastpass_checksum addr' (packet Bs pd min_size 0) seq ack = csum →
  0 ≤ seq < 2 ^ 64 ∧ u64 (seq - (in_max_seqno c - 2 ^ 14)) < 2 ^ 16 →
  0 ≤ ack < 2 ^ 64 ∧ u64 (ack - (head (outwnd c) - 2 ^ 16 + 1)) < 2 ^ 16 →
  at_most_once_may_accept c seq = 0 →
  data_packet c addr' (packet Bs pd min_size csum) seq ack (u16 (pd_ack_vec pd)).
Proof using HH Hpd.
  pose proof (ap_dsts _ _ _ Hpd) as Hn.
  apply (encoded_data_packet Bs pd min_size (16 * FASTPASS_PTYPE_ALLOC + pd_n_dsts pd)
    ((half_tslots :: be16 (pd_base_tslot pd) ++ (sent_dsts ≫= be16)) ++ sent_specs ++ reports)).
  - rewrite body_alloc, alloc_bytes_eq. by rewrite <- !app_assoc.
  - change FASTPASS_PTYPE_ALLOC with 3. change FASTPASS_PTYPE_RESET with 1. rewrite Z.shiftr_div_pow2 by lia. zify_div; lia.
  - change FASTPASS_PTYPE_ALLOC with 3. change FASTPASS_PTYPE_ACK with 4. rewrite Z.shiftr_div_pow2 by lia. zify_div; lia.
Qed.

Lemma packet_alloc csum : packet Bs pd min_size csum = (hdr_bytes pd ++ [csum mod 2 ^ 8; csum / 2 ^ 8]) ++
  ([16 * FASTPASS_PTYPE_ALLOC + Z.of_nat (length sent_dsts); half_tslots] ++ be16 (pd_base_tslot pd) ++ (sent_dsts ≫= be16)) ++ sent_specs ++ after_alloc.
Proof using Hpd.
  unfold packet. rewrite body_alloc, alloc_bytes_eq, length_sent_dsts. unfold after_alloc. by rewrite <- !app_assoc.
Qed.

(** The calls for the payloads. *)
Definition payload_calls (l : list (event proto_call)) : Prop := ∃ payload,
  l = [EvCall (CHandleAlloc (u32 (Z.shiftl (u16 (pd_base_tslot pd)) 4)) (u16 <$> sent_dsts) (pd_n_dsts pd) (sent_specs ++ after_alloc) (pd_alloc_tslot pd))] ++
      (if pd_n_areq pd >? 0 then [EvCall (CHandleAreq payload (pd_n_areq pd))] else []) ∧
  areq_entries (Z.to_nat (pd_n_areq pd)) payload = Some (areq_pair <$> sent_areqs).

Definition byte (b : Z) : Prop := 0 ≤ b < 256.

Lemma be16_bytes v : Forall byte (be16 v).
Proof using. unfold be16, byte. pose proof (u16_range v). repeat constructor; zify_div; lia. Qed.

Lemma after_alloc_bytes : Forall byte after_alloc.
Proof using.
  assert (∀ l : list fpproto_areq_desc, Forall byte (l ≫= λ a, be16 (src_dst_key a) ++ be16 (tslots a))) as Hl.
  { induction l as [|a l IH]; [constructor|]. rewrite bind_cons. by repeat apply Forall_app_2; try apply be16_bytes. }
  unfold after_alloc, reports. apply Forall_app_2.
  - destruct (_ >? _); [|constructor]. unfold areq_bytes. apply Forall_app_2; [apply be16_bytes|apply Hl].
  - apply Forall_replicate. unfold byte. lia.
Qed.

Lemma tail_room : (2 ≤ length after_alloc)%nat.
Proof using Hpd.
  unfold after_alloc, reports. rewrite length_app. destruct (Z.gtb_spec (pd_n_areq pd) 0) as [Hq|Hq].
  - cbv iota. pose proof (length_areq_bytes Bs pd (ap_ok _ _ _ Hpd)). lia.
  - cbv iota. destruct (ap_room _ _ _ Hpd); [lia|]. unfold pad_bytes. rewrite length_replicate, body_alloc.
    unfold reports. rewrite Z.gtb_ltb, (proj2 (Z.ltb_ge _ _)), app_nil_r by lia. cbn [length Nat.add]. lia.
Qed.

(** The reports and the padding. *)
Lemma rx_tail hd fuel c : reads_areq_data Br = false → has_handle_areq (ops c) = true → (2 ≤ fuel)%nat →
  wp (rx_payloads Br fuel (hd ++ after_alloc) (Z.of_nat (length hd))) (λ r c' l, r = true ∧ c' = c ∧
    ∃ payload, l = (if pd_n_areq pd >? 0 then [EvCall (CHandleAreq payload (pd_n_areq pd))] else []) ∧
      areq_entries (Z.to_nat (pd_n_areq pd)) payload = Some (areq_pair <$> sent_areqs)) c.
Proof using Hpd.
  intros Hb Hops Hf. pose proof tail_room as Hroom. pose proof (ap_areq _ _ _ Hpd) as Hq. pose proof length_sent_areqs as Hl.
  unfold after_alloc, reports in *. destruct (Z.gtb_spec (pd_n_areq pd) 0) as [Hpos|Hnone].
  - rewrite (areq_bytes_eq Bs pd (ap_ok _ _ _ Hpd)) by lia. rewrite <- app_assoc.
    eapply wp_mono; [apply (rx_payloads_areq Br hd); [lia|apply (length_ents Bs pd (ap_ok _ _ _ Hpd))| |done|done]|].
    + unfold areq_type. destruct (_ && _); auto.
    + intros r c' l (-> & -> & ->). split; [done|]. split; [done|]. unfold areq_call. rewrite Hops. eexists. split; [done|].
      fold sent_areqs. assert (Z.to_nat (pd_n_areq pd) = length sent_areqs) as -> by lia. apply areq_entries_bytes.
  - assert (pd_n_areq pd = 0) as E by lia. unfold pad_bytes. cbn [app] in Hroom |- *.
    eapply wp_mono; [apply rx_payloads_padding; [lia|]|].
    + unfold pad_bytes in Hroom. rewrite length_replicate in Hroom. lia.
    + intros r c' l (-> & -> & ->). split; [done|]. split; [done|]. exists []. split; [done|].
      assert (length sent_areqs = 0%nat) as E0 by lia. apply length_zero_iff_nil in E0. by rewrite E0, E.
Qed.

Lemma rx_callbacks_alloc c csum : reads_areq_data Br = false → has_handle_areq (ops c) = true → has_handle_alloc (ops c) = true →
  alloc_bytes_per_tslot (ops c) = 1 →
  wp (fpproto_perform_rx_callbacks Br (packet Bs pd min_size csum)) (λ r c' l, r = true ∧ c' = c ∧ payload_calls l) c.
Proof using Hpd.
  intros Hb H1 H2 H3. destruct alloc_halves as [Eh Hh]. pose proof length_sent_dsts as Hld. pose proof length_sent_specs as Hls.
  pose proof (ap_dsts _ _ _ Hpd). pose proof tail_room as Hroom.
  unfold fpproto_perform_rx_callbacks. rewrite packet_alloc. set (hd := hdr_bytes pd ++ _).
  pose proof (length_alloc_pkt hd (pd_base_tslot pd) sent_dsts sent_specs after_alloc half_tslots ltac:(lia)) as Hlen.
  change (Z.of_nat (length hd)) with 8 in Hlen. apply wp_bind, wp_bug_on; [apply Z.eqb_neq; lia|].
  change 8 with (Z.of_nat (length hd)). destruct (length _) as [|fuel] eqn:Efuel at 1; [lia|].
  eapply rx_payloads_alloc; [lia|done|lia|done|done|].
  set (head := [16 * FASTPASS_PTYPE_ALLOC + Z.of_nat (length sent_dsts); half_tslots] ++ be16 (pd_base_tslot pd) ++ (sent_dsts ≫= be16)).
  assert (Z.of_nat (length hd) + (4 + 2 * Z.of_nat (length sent_dsts) + 2 * half_tslots) = Z.of_nat (length (hd ++ head ++ sent_specs))) as ->.
  { pose proof (length_head (pd_base_tslot pd) sent_dsts half_tslots). rewrite !length_app. unfold head. rewrite !length_app in *. lia. }
  rewrite (app_assoc head), (app_assoc hd). eapply wp_mono; [apply rx_tail; [done|done|]|].
  - rewrite Efuel in Hlen. lia.
  - intros r c' l (-> & -> & payload & -> & Hent). split; [done|]. split; [done|]. exists payload. split; [|done].
    unfold alloc_call. by rewrite H2, Hld, Eh.
Qed.
End packet.
