(* ===== verification/Checksum.v ===== *)
(** * The packet checksum

    The user-space checksum of generic.h is the Internet checksum: it depends
    only on the one's complement sum of the 16-bit words, and a corrupted word
    is detected. *)

From S2P Require Import Prelude Platform Window Protocol.

(** The sum of the little-endian 16-bit words, the last byte padded with zero. *)
Fixpoint words16 (d : list Z) : Z :=
  match d with
  | [] => 0
  | [a] => a
  | a :: b :: r => a + b * 2 ^ 8 + words16 r
  end.

Definition bytes (d : list Z) : Prop := Forall (λ b, 0 ≤ b < 2 ^ 8) d.

(** Congruence modulo 2^16 - 1, the modulus of one's complement addition. *)
Definition cong (a b : Z) : Prop := (a - b) mod 65535 = 0.

#[export] Instance cong_equiv : Equivalence cong.
Proof.
  split.
  - intros a. unfold cong. by rewrite Z.sub_diag.
  - intros a b. unfold cong. intros. zify_div; lia.
  - intros a b c. unfold cong. intros. zify_div; lia.
Qed.

#[export] Instance cong_add : Proper (cong ==> cong ==> cong) Z.add.
Proof. intros a a' Ha b b' Hb. unfold cong in *. zify_div; lia. Qed.

#[export] Instance cong_sub : Proper (cong ==> cong ==> cong) Z.sub.
Proof. intros a a' Ha b b' Hb. unfold cong in *. zify_div; lia. Qed.

(** A list of at least four bytes starts with a 32-bit word. *)
Lemma le32_cons a b c e r : le32 (a :: b :: c :: e :: r) = a + b * 2 ^ 8 + (c + e * 2 ^ 8) * 2 ^ 16.
Proof. done. Qed.

Lemma list_four (d : list Z) :
  (4 ≤ length d)%nat → ∃ a b c e r, d = a :: b :: c :: e :: r.
Proof. destruct d as [|a [|b [|c [|e r]]]]; simpl; try lia. eauto 10. Qed.

Lemma csum_words_spec n : ∀ d sum,
  bytes d → (4 * n ≤ length d)%nat → 0 ≤ sum → sum + Z.of_nat n * 2 ^ 32 < 2 ^ 64 →
  ∃ sum', csum_words n d sum = (drop (4 * n) d, sum') ∧ 0 ≤ sum' ≤ sum + Z.of_nat n * 2 ^ 32 ∧
    cong (sum' + words16 (drop (4 * n) d)) (sum + words16 d).
Proof.
  induction n as [|n IH]; intros d sum Hd Hl Hs Ho; cbn [csum_words].
  { exists sum. rewrite drop_0. split_and!; done || lia. }
  destruct (list_four d) as (a & b & c & e & r & ->); [lia|].
  unfold bytes in Hd. rewrite !Forall_cons in Hd. destruct Hd as (Ha & Hb & Hc & He & Hr).
  rewrite le32_cons. change (drop 4 (a :: b :: c :: e :: r)) with r.
  rewrite u64_small by lia.
  destruct (IH r (sum + (a + b * 2 ^ 8 + (c + e * 2 ^ 8) * 2 ^ 16))) as (sum' & E & Hr' & Hcong);
    [done|simpl in Hl; lia|lia|lia|].
  exists sum'. replace (4 * S n)%nat with (S (S (S (S (4 * n))))) by lia. cbn [drop].
  split_and!; [done|lia|lia|]. rewrite Hcong. cbn [words16]. unfold cong. zify_div; lia.
Qed.

Lemma csum_last_spec d sum :
  bytes d → (length d < 4)%nat → 0 ≤ sum → sum + 2 ^ 24 < 2 ^ 64 →
  0 ≤ csum_last d sum ≤ sum + 2 ^ 24 ∧ cong (csum_last d sum) (sum + words16 d).
Proof.
  intros Hd Hl Hs Ho. unfold bytes in Hd.
  destruct d as [|a [|b [|c [|e r]]]]; simpl in Hl; try lia; rewrite ?Forall_cons in Hd;
    unfold csum_last, byte_at; cbn [length lookup list_lookup default from_option id words16];
    change (3 - Z.land (Z.of_nat 0) 3) with 3; change (3 - Z.land (Z.of_nat 1) 3) with 2;
    change (3 - Z.land (Z.of_nat 2) 3) with 1; change (3 - Z.land (Z.of_nat 3) 3) with 0;
    cbv iota.
  - split; [lia|]. by rewrite Z.add_0_r.
  - rewrite u64_small by lia. split; [lia|done].
  - rewrite !Z.shiftl_mul_pow2, !u64_add_l, u64_small by lia.
    split; [lia|]. unfold cong. zify_div; lia.
  - rewrite !Z.shiftl_mul_pow2, !u64_add_l, (u64_small (sum + c * 2 ^ 16)), u64_small by lia.
    split; [lia|]. unfold cong. zify_div; lia.
Qed.

(** Folding the carries preserves the sum. *)
Lemma fold32_spec sum :
  0 ≤ sum < 2 ^ 64 →
  let s1 := u64 (u32 sum + Z.shiftr sum 32) in
  let s2 := u32 (u32 s1 + u32 (Z.shiftr s1 32)) in
  0 ≤ s2 < 2 ^ 32 ∧ cong s2 sum.
Proof.
  intros Hs s1 s2. assert (s1 = sum mod 2 ^ 32 + sum / 2 ^ 32) as E1.
  { unfold s1. rewrite Z.shiftr_div_pow2 by lia. unfold u32. apply u64_small. zify_div; lia. }
  split; [apply u32_range|]. unfold s2. rewrite Z.shiftr_div_pow2 by lia.
  assert (0 ≤ s1 ≤ 2 ^ 33 - 2) as Hs1 by (rewrite E1; zify_div; lia).
  assert (u32 (u32 s1 + u32 (s1 / 2 ^ 32)) = s1 mod 2 ^ 32 + s1 / 2 ^ 32) as ->.
  { clear E1. clearbody s1. unfold u32. zify_div; lia. }
  trans s1.
  - clear E1. unfold cong. clearbody s1. zify_div; lia.
  - rewrite E1. unfold cong. zify_div; lia.
Qed.

(** The words and the last bytes. *)
Lemma csum_body_spec d sum :
  bytes d → 0 ≤ sum < 2 ^ 33 → Z.of_nat (length d) < 2 ^ 30 →
  ∃ sum', (let '(data, sum) := csum_words (length d / 4) d sum in (false, csum_last data sum)) = (false, sum') ∧
    0 ≤ sum' < 2 ^ 64 ∧ cong sum' (sum + words16 d).
Proof.
  intros Hd Hs Hl. pose proof (Nat.div_mod (length d) 4 ltac:(lia)) as Hdm.
  pose proof (Nat.mod_upper_bound (length d) 4 ltac:(lia)) as Hm. set (n := (length d / 4)%nat) in *.
  destruct (csum_words_spec n d sum) as (s1 & -> & Hs1 & Hc1); [done|lia|lia|lia|].
  destruct (csum_last_spec (drop (4 * n) d) s1) as [Hs2 Hc2];
    [by apply Forall_drop|rewrite length_drop; lia|lia|lia|].
  eexists. split; [done|]. split; [lia|]. by rewrite Hc2.
Qed.

(** [fp_csum_partial] on an even address. *)
Lemma csum_partial_spec addr d init :
  bytes d → Z.even addr = true → 0 ≤ init < 2 ^ 32 → Z.of_nat (length d) < 2 ^ 30 →
  0 ≤ fp_csum_partial addr d init < 2 ^ 32 ∧ cong (fp_csum_partial addr d init) (init + words16 d).
Proof.
  intros Hd He Hi Hl. unfold fp_csum_partial.
  assert (Z.odd addr = false) as -> by (by rewrite <- Z.negb_even, He).
  assert (∃ sum, (if Z.of_nat (length d) <? 4 then (false, csum_last d init)
      else
        let '(data, sum) := if Z.testbit addr 1 then (drop 2 d, u64 (init + le16 d)) else (d, init) in
        let '(data, sum) := csum_words (length data / 4) data sum in (false, csum_last data sum))
      = (false, sum) ∧ 0 ≤ sum < 2 ^ 64 ∧ cong sum (init + words16 d)) as (sum & E & Hsum & Hcong).
  { destruct (Z.ltb_spec (Z.of_nat (length d)) 4) as [H4|H4].
    - destruct (csum_last_spec d init) as [Hr Hc]; [done|lia|lia|lia|]. eexists. split; [done|]. split; [lia|done].
    - destruct (Z.testbit addr 1); [|by apply csum_body_spec; [|lia|]].
      destruct (list_four d) as (a & b & c & e & r & ->); [lia|].
      unfold bytes in Hd. rewrite !Forall_cons in Hd. destruct Hd as (Ha & Hb & Hcd).
      change (le16 (a :: b :: c :: e :: r)) with (a + b * 2 ^ 8). change (drop 2 _) with (c :: e :: r).
      rewrite u64_small by lia.
      destruct (csum_body_spec (c :: e :: r) (init + (a + b * 2 ^ 8))) as (s' & -> & Hs' & Hc');
        [by apply Forall_cons; rewrite Forall_cons|lia|simpl in *; lia|].
      eexists. split; [done|]. split; [done|]. rewrite Hc'. cbn [words16]. unfold cong. zify_div; lia. }
  cbv zeta. rewrite E. destruct (fold32_spec sum Hsum) as [Hr Hc].
  split; [exact Hr|]. rewrite <- Hcong. exact Hc.
Qed.

(** [fp_fold] is the negated sum. *)
Lemma fp_fold_spec s :
  0 ≤ s < 2 ^ 64 → 0 ≤ fp_fold s < 2 ^ 16 ∧ cong (fp_fold s + s) 0.
Proof.
  intros Hs. unfold fp_fold. split; [apply u16_range|].
  rewrite !Z.shiftr_div_pow2 by lia.
  set (s1 := u64 (u32 s + s / 2 ^ 32)).
  assert (cong s1 s ∧ 0 ≤ s1 ≤ 2 ^ 33 - 2) as [C1 H1] by (unfold s1, cong; mlia).
  set (s2 := u32 (s1 + s1 / 2 ^ 32)).
  assert (cong s2 s1 ∧ 0 ≤ s2 < 2 ^ 32) as [C2 H2] by (unfold s2, cong; clearbody s1; mlia).
  set (s3 := u32 (u16 s2 + s2 / 2 ^ 16)).
  assert (cong s3 s2 ∧ 0 ≤ s3 ≤ 2 ^ 17 - 2) as [C3 H3] by (unfold s3, cong; clearbody s2; clear C1 C2; mlia).
  assert (u16 (Z.lnot (u16 s3 + u16 (s3 / 2 ^ 16))) = 65535 - (s3 mod 2 ^ 16 + s3 / 2 ^ 16)) as ->.
  { unfold Z.lnot. clearbody s3. clear C1 C2 C3. mlia. }
  rewrite <- C1, <- C2, <- C3. unfold cong. clearbody s3. clear C1 C2 C3. zify_div; lia.
Qed.


(** ** Corruption of a byte *)
Lemma words16_update n : ∀ d i b b', (length d ≤ n)%nat → d !! i = Some b →
  words16 (<[i := b']> d) = words16 d + (b' - b) * (if Nat.even i then 1 else 2 ^ 8).
Proof.
  induction n as [|n IH]; intros d i b b' Hl Hi.
  { destruct d; [done|simpl in Hl; lia]. }
  destruct d as [|x [|y r]]; [done| |].
  - destruct i; simpl in Hi; [|done]. injection Hi as ->. simpl. lia.
  - destruct i as [|[|i]]; simpl in Hi |- *.
    + injection Hi as ->. lia.
    + injection Hi as ->. lia.
    + rewrite (IH r i b b') by (done || simpl in Hl; lia). lia.
Qed.

Lemma jhash_range a b c i : 0 ≤ fp_jhash_3words a b c i < 2 ^ 32.
Proof. unfold fp_jhash_3words, fp_jhash_final. apply u32_range. Qed.

#[export] Instance generic_hash_ok : HashOk generic_hash.
Proof.
  constructor.
  - intros a i. apply jhash_range.
  - intros s d l p c. apply u16_range.
Qed.

(** The checksum determines the sum of the words. *)
Lemma checksum_words addr p q seq ack :
  bytes p → bytes q → length p = length q → Z.even addr = true → Z.of_nat (length p) < 2 ^ 30 →
  fastpass_checksum (H:=generic_hash) addr p seq ack = fastpass_checksum (H:=generic_hash) addr q seq ack →
  cong (words16 p) (words16 q).
Proof.
  intros Hp Hq Hl He Hb. unfold fastpass_checksum. cbn [generic_hash csum_tcpudp_magic csum_partial jhash_3words].
  set (h := fp_jhash_3words _ _ _ _). pose proof (jhash_range _ _ _ _ : 0 ≤ h < 2 ^ 32) as Hh. clearbody h.
  rewrite <- Hl. unfold fp_csum_tcpudp_magic.
  set (k := u32 (u32 (0 + 0) + _)). pose proof (u32_range _ : 0 ≤ k < 2 ^ 32) as Hk. clearbody k.
  destruct (csum_partial_spec addr p h) as [Rp Cp]; [done..|].
  destruct (csum_partial_spec addr q h) as [Rq Cq]; [done|done|done|lia|].
  rewrite !u64_small by lia. intros E.
  destruct (fp_fold_spec (fp_csum_partial addr p h + k)) as [_ Fp]; [lia|].
  destruct (fp_fold_spec (fp_csum_partial addr q h + k)) as [_ Fq]; [lia|].
  rewrite <- E in Fq. set (f := fp_fold _) in *.
  set (cp := fp_csum_partial addr p h) in *. set (cq := fp_csum_partial addr q h) in *.
  clearbody f cp cq. clear -Fp Fq Cp Cq. unfold cong in *. zify_div; lia.
Qed.

(** Any change of a single byte changes the checksum. *)
Lemma checksum_detects_byte addr p i b b' seq ack :
  bytes p → Z.even addr = true → Z.of_nat (length p) < 2 ^ 30 →
  p !! i = Some b → 0 ≤ b' < 2 ^ 8 → b' ≠ b →
  fastpass_checksum (H:=generic_hash) addr (<[i := b']> p) seq ack ≠
  fastpass_checksum (H:=generic_hash) addr p seq ack.
Proof.
  intros Hp He Hl Hi Hb' Hne E. assert (0 ≤ b < 2 ^ 8) as Hb by exact (Forall_lookup_1 _ _ _ _ Hp Hi).
  apply checksum_words in E; [|by apply Forall_insert|done|by rewrite length_insert|done|by rewrite length_insert].
  rewrite (words16_update (length p) p i b b') in E by done.
  unfold cong in E. destruct (Nat.even i); zify_div; lia.
Qed.
