(* ===== verification/Samples.v ===== *)
(** * Sample connections

    Concrete states of the protocol, obtained by running the model, on which the
    theorems are instantiated. *)

From S2P Require Import Prelude Platform Window WindowFacts WindowSpec Protocol ConnFacts ConnSpec ConnSend.
From S2P Require Import ConnSafe Codec Checksum.

Definition endpoint : build :=
  {| IS_ENDPOINT := true; EMULATION_ALGO := false; emu_req_data_bytes := 0; emu_alloc_data_bytes := 0 |}.
Definition controller : build :=
  {| IS_ENDPOINT := false; EMULATION_ALGO := false; emu_req_data_bytes := 0; emu_alloc_data_bytes := 0 |}.

Definition all_ops : fpproto_ops := {|
  has_handle_reset := true; has_handle_ack := true; has_handle_neg_ack := true; has_handle_skipped_ack := true;
  has_trigger_request := true; has_handle_alloc := true; has_handle_areq := true; alloc_bytes_per_tslot := 1 |}.

(** The final state of a procedure (the initial one if it is undefined). *)
Definition final {A} (m : P A) (c : fpproto_conn) : fpproto_conn :=
  match m c with Some (_, c', _) => c' | None => c end.

Lemma final_wp {A} (m : P A) (Q : fpproto_conn → Prop) c : wp m (λ _ c' _, Q c') c → Q (final m c).
Proof. unfold wp, final. by destruct (m c) as [[[]]|]. Qed.

(** Connections of the endpoint and of the controller, reset at time 0. *)
Definition init_of (B : build) : fpproto_conn :=
  final (fpproto_init_conn B 0 all_ops 2000000000 1000000) (zero_conn all_ops 0 0).

Lemma init_ok B : conn_ok (init_of B).
Proof.
  unfold init_of. apply (final_wp (fpproto_init_conn B 0 all_ops 2000000000 1000000)).
  eapply wp_mono; [apply init_spec; [apply out_wf_zero|done]|]. by intros _ c l (? & _).
Qed.

Lemma init_reset B : is_reset B 0 false (init_of B).
Proof.
  unfold init_of. apply (final_wp (fpproto_init_conn B 0 all_ops 2000000000 1000000)).
  eapply wp_mono; [apply init_spec; [apply out_wf_zero|done]|]. by intros _ c l (_ & ? & _).
Qed.

Definition conn_e : fpproto_conn := init_of endpoint.
Definition conn_c : fpproto_conn := init_of controller.

(** A packet with two requests. *)
Definition request_pd : fpproto_pktdesc := {|
  pd_sent_timestamp := 0; pd_seqno := 0; pd_ack_seq := 0; pd_ack_vec := 0; pd_send_reset := false;
  pd_reset_timestamp := 0; pd_n_areq := 2;
  pd_areq := [{| src_dst_key := 7; tslots := 3 |}; {| src_dst_key := 9; tslots := 5 |}];
  pd_areq_data_type := 0; pd_areq_data_bytes := 0; pd_areq_data_counts := []; pd_areq_data := [];
  pd_alloc_tslot := 0; pd_used_alloc_tslot := 0; pd_base_tslot := 0; pd_n_dsts := 0; pd_dsts := [];
  pd_tslot_desc := []; pd_emu_tslot_desc := [] |}.

(** The endpoint after sending it twice. *)
Definition conn_e1 : fpproto_conn := final (send_packet request_pd 100) conn_e.
Definition conn_e2 : fpproto_conn := final (send_packet request_pd 200) conn_e1.

Lemma send_ok c : conn_ok c → bool_decide (head (outwnd c) + 1 < 2 ^ 64) = true → ∀ t, conn_ok (final (send_packet request_pd t) c).
Proof.
  intros Hc Hh%bool_decide_eq_true_1 t. apply (final_wp (send_packet request_pd t)).
  eapply wp_mono; [by apply safe_send_packet|]. by intros _ c' l (? & _).
Qed.

Lemma conn_e1_ok : conn_ok conn_e1.
Proof. apply send_ok; [apply init_ok|vm_compute; reflexivity]. Qed.

Lemma conn_e2_ok : conn_ok conn_e2.
Proof. apply send_ok; [apply conn_e1_ok|vm_compute; reflexivity]. Qed.
