(* ===== verification/ProtocolTheorems.v ===== *)
(** * Theorems about the control protocol *)

From S2P Require Import Prelude Platform Window WindowFacts WindowSpec WindowMarks Protocol ConnFacts.
From S2P Require Import ConnSpec ConnAck ConnSend ConnInwnd ConnSafe ConnLog Codec RoundTrip Checksum.
From S2P Require Import Samples.

(** C1. Safety, for a build that parses no request data: in every state that a
    connection can reach from its initialisation through received packets with
    arbitrary contents, timeouts, transmissions and forced resets, handling a
    further input is defined (no NULL dereference, no read past the packet, no
    __fls(0)), fires no FASTPASS_BUG_ON and re-establishes the connection invariant.
    Excluded are the arbiter's emulation builds whose schemes send data with
    requests (they do read past a packet, see [areq_data_read_past_end]), and a
    transmission when the sequence number is about to reach 2^64. *)
Theorem protocol_safe (B : build) `{H : HashOps} c i :
  reads_areq_data B = false → reachable B c → may_input c i →
  ∃ c' l, run_input B i c = Some (tt, c', l) ∧ conn_ok c' ∧ no_bug l ∧ reachable B c'.
Proof.
  intros HB Hr Hi. pose proof (run_input_safe B i c HB (reachable_ok B c HB Hr) Hi) as Hs. unfold wp in Hs.
  destruct (run_input B i c) as [[[[] c'] l]|] eqn:E; [|done]. destruct Hs as (Hok & Hl & _).
  exists c', l. split_and!; try done. by apply (reach_step B c i c' l).
Qed.

Lemma conn_e_reachable : reachable endpoint conn_e.
Proof.
  apply (reach_init endpoint 0 all_ops 2000000000 1000000 conn_e []); [done|].
  vm_compute. reflexivity.
Qed.

Lemma protocol_safe_witness :
  ∃ c' l, run_input endpoint (IRx 5 5 0 [0; 1; 2; 3; 4; 5; 6; 7; 0x30; 0; 0]) conn_e = Some (tt, c', l) ∧
    conn_ok c' ∧ no_bug l ∧ reachable endpoint c'.
Proof. apply (protocol_safe endpoint); [reflexivity|exact conn_e_reachable|exact I]. Defined.

(** C23. Acknowledgements: an ACK for [ack_seq] with the bit vector [ack_vec]
    removes exactly the packets it names from the window of unacknowledged
    packets, calls back and frees each of them once, in order, then reports the
    packets that it skips, and restarts the retransmission timer iff some packet
    was acknowledged. *)
Theorem ack_removes_exactly (B : build) c ack_seq ack_vec :
  conn_wf c → 0 ≤ ack_seq < 2 ^ 64 → 0 ≤ ack_vec < 2 ^ 64 →
  wp (ack_payload_handler B ack_seq ack_vec) (λ _ c' l,
    let ss := newly_acked c ack_seq ack_vec in
    NoDup ss ∧ (∀ s, s ∈ ss ↔ s ∈ wnd_set (outwnd c) ∧ s ∈ ack_seqnos ack_seq ack_vec) ∧
    conn_wf c' ∧ (∀ s, out_pd c' s = if decide (s ∈ ss) then None else out_pd c s) ∧
    inwnd c' = inwnd c ∧ in_max_seqno c' = in_max_seqno c ∧
    l = (ss ≫= ack_events c) ++ (skipped_by B c ack_seq ack_vec ≫= skip_events c) ++
        match ss with [] => [] | _ => restart_events c c' end) c.
Proof.
  intros Hc H1 H2. eapply wp_mono; [by apply ack_payload_handler_spec|]. intros _ c' l [[Hwf _ _ Hpd _ [Hm Hi] _] El].
  cbv zeta. split_and!; try done.
  - apply NoDup_filter, ack_seqnos_NoDup.
  - intros s. unfold newly_acked. rewrite list_elem_of_filter. done.
Qed.

Lemma ack_removes_exactly_witness :
  conn_wf conn_e2 ∧ newly_acked conn_e2 13884776608523395779 (2 ^ 63) = [13884776608523395779] ∧
  wp (ack_payload_handler endpoint 13884776608523395779 (2 ^ 63)) (λ _ c' _, conn_wf c') conn_e2.
Proof.
  split; [apply conn_e2_ok|]. split; [vm_compute; reflexivity|].
  eapply wp_mono; [exact (ack_removes_exactly endpoint conn_e2 13884776608523395779 (2 ^ 63) (ok_wf _ conn_e2_ok) ltac:(lia) ltac:(lia))|].
  intros _ c' l (_ & _ & Hwf & _). exact Hwf.
Defined.

(** C31. Timeouts: [fpproto_handle_timeout] reports as lost exactly the leading
    unacknowledged packets whose timeout has passed, in order, keeps them for
    acknowledgements that still arrive, and sets the timer for the first packet
    that is not yet due, if there is one. *)
Theorem timeout_reports_expired c now :
  conn_wf c →
  wp (fpproto_handle_timeout now) (λ _ c' l,
    let ms := marks_from (outwnd c) (next_timeout_seqno c) in
    let lost := take_while (expired c now) ms in
    conn_wf c' ∧ outwnd c' = outwnd c ∧ unacked_pkts c' = unacked_pkts c ∧
    match drop (length lost) ms with
    | [] => next_timeout_seqno c' = u64 (head (outwnd c) + 1) ∧ l = lost ≫= neg_events c
    | t :: _ => next_timeout_seqno c' = t ∧ ∃ pd, out_pd c t = Some pd ∧
        l = (lost ≫= neg_events c) ++ [EvCall (CSetTimer (timeout_of c pd))]
    end) c.
Proof.
  intros Hc. eapply wp_mono; [by apply fpproto_handle_timeout_spec|].
  intros _ c' l (f & v & lt & -> & Hwf & El & Hm). split_and!; try done.
  destruct (drop _ _); [destruct Hm as [-> ->]; by rewrite app_nil_r in El|].
  destruct Hm as (-> & pd & Hpd & ->). eauto.
Qed.

Lemma timeout_reports_expired_witness :
  conn_wf conn_e2 ∧ take_while (expired conn_e2 1000150) (marks_from (outwnd conn_e2) (next_timeout_seqno conn_e2))
    = [13884776608523395778] ∧
  wp (fpproto_handle_timeout 1000150) (λ _ c' _, conn_wf c') conn_e2.
Proof.
  split; [apply conn_e2_ok|]. split; [vm_compute; reflexivity|].
  eapply wp_mono; [exact (timeout_reports_expired conn_e2 1000150 (ok_wf _ conn_e2_ok))|].
  intros _ c' l (Hwf & _). exact Hwf.
Defined.

(** C32. Sending: [fpproto_prepare_to_send] and [fpproto_commit_packet] together
    give the packet the next sequence number and the current acknowledgement
    information, drop (and free) only the packet that falls off the window, and
    keep every other unacknowledged packet. *)
Theorem send_adds_newest c pd timestamp :
  conn_wf c → head (outwnd c) + 1 < 2 ^ 64 →
  wp (send_packet pd timestamp) (λ r c' l,
    let h := head (outwnd c) + 1 in
    pd_seqno r = h ∧ pd_ack_seq r = in_max_seqno c ∧ pd_ack_vec r = compress_inwnd (inwnd c) ∧
    pd_send_reset r = negb (in_sync c) ∧ pd_sent_timestamp r = timestamp ∧
    conn_wf c' ∧ head (outwnd c') = h ∧
    (∀ t, out_pd c' t = if decide (t = h) then Some r
                        else if decide (t = wnd_edge (outwnd c)) then None else out_pd c t) ∧
    calls l = calls (fall_off_events c) ++ calls (drop (length (fall_off_events c)) l)) c.
Proof.
  intros Hc Hh. eapply wp_mono; [by apply send_packet_spec|].
  intros r c' l (-> & Hwf & Eh & _ & Hpd & _ & lt & -> & _). split_and!; try done.
  unfold calls. by rewrite omap_app, drop_app_length.
Qed.

Lemma send_adds_newest_witness :
  conn_wf conn_e2 ∧ wp (send_packet request_pd 300) (λ r c' _, pd_seqno r = 13884776608523395780 ∧ conn_wf c') conn_e2.
Proof.
  split; [apply conn_e2_ok|].
  assert (head (outwnd conn_e2) = 13884776608523395779) as Eh by (vm_compute; reflexivity).
  eapply wp_mono; [apply (send_adds_newest conn_e2 request_pd 300 (ok_wf _ conn_e2_ok)); rewrite Eh; lia|].
  cbv zeta. rewrite Eh. intros r c' l (Es & _ & _ & _ & _ & Hwf & _). split; assumption.
Defined.

(** C24. At most once: whatever sequence numbers arrive (within a range of
    2^62), in any order and with any repetitions, no number is accepted twice,
    and no number is accepted that had been accepted before. *)
Theorem at_most_once L Ys c X :
  conn_wf c → in_max_seqno c = u64 X → L ≤ X < L + 2 ^ 62 → Forall (λ Y, L ≤ Y < L + 2 ^ 62) Ys →
  wp (accept_all (u64 <$> Ys)) (λ acc c' l, l = [] ∧ conn_wf c' ∧
    ∃ As, acc = u64 <$> As ∧ NoDup As ∧ As ⊆ Ys ∧ ∀ Y, Y ∈ As → seen X (inwnd c) Y = false) c.
Proof.
  intros Hc EX HX HY. eapply wp_mono; [by apply (accept_all_spec L Ys c X)|].
  intros acc c' l (El & Hwf & As & X' & -> & _ & _ & _ & Hnd & Hsub & Hnew & _). split_and!; try done. by exists As.
Qed.

Lemma at_most_once_witness :
  in_max_seqno conn_c = 13884776608523395777 ∧
  wp (accept_all [13884776608523395780; 13884776608523395778; 13884776608523395780]) (λ acc _ l, l = [] ∧ NoDup acc) conn_c.
Proof.
  assert (in_max_seqno conn_c = 13884776608523395777) as Em by (vm_compute; reflexivity). split; [exact Em|].
  eapply wp_mono; [apply (at_most_once 13884776608523395700 [13884776608523395780; 13884776608523395778; 13884776608523395780]
    conn_c 13884776608523395777 (ok_wf _ (init_ok controller)) Em); [lia|repeat (apply Forall_cons; split; [lia|]); constructor]|].
  intros acc c' l (El & _ & As & -> & Hnd & Hsub & _).
  split; [exact El|]. apply NoDup_fmap_2_strong; [|exact Hnd]. intros x y Hx Hy.
  apply Hsub in Hx, Hy. rewrite list_elem_of_In in Hx, Hy. simpl in Hx, Hy.
  intros E. unfold u64 in E. rewrite !Z.mod_small in E by lia. exact E.
Defined.

(** C34. Resets: a reset payload is handled by the table of the code: a repeated
    timestamp re-establishes sync, a timestamp outside the window or older than
    the last reset is rejected, a newer one inside the window resets the
    connection to it, and when both are outside the window the connection resets
    to the current time and drops the packet. A reset frees exactly the
    unacknowledged packets, once each. *)
Theorem reset_follows_table (B : build) `{H : HashOps} c now ts :
  conn_wf c →
  wp (reset_payload_handler B now ts) (λ r c' l, conn_wf c' ∧ same_config c c' ∧
    match reset_decision c now ts with
    | AlreadyReset => r = 0 ∧ l = [] ∧ outwnd c' = outwnd c ∧ in_sync c' = IS_ENDPOINT B
    | RejectReset => r = 1 ∧ l = [] ∧ outwnd c' = outwnd c ∧ in_sync c' = in_sync c
    | AcceptReset => r = 0 ∧ is_reset B ts (IS_ENDPOINT B) c' ∧ reset_log c l
    | ResetToNow => r = 1 ∧ is_reset B now (IS_ENDPOINT B) c' ∧ reset_log c l
    end) c.
Proof.
  intros Hc. eapply wp_mono; [by apply reset_payload_handler_spec|]. intros r c' l (Hwf & Hsc & Hm). split_and!; [done..|].
  destruct (reset_decision c now ts); [|destruct Hm as (-> & -> & f & ->); done|done|done].
  destruct Hm as (-> & -> & f & ->). done.
Qed.

Lemma reset_follows_table_witness :
  reset_decision conn_e2 1500000000 1400000000 = AcceptReset ∧
  wp (reset_payload_handler endpoint 1500000000 1400000000) (λ r c' _, r = 0 ∧ is_reset endpoint 1400000000 true c') conn_e2.
Proof.
  split; [vm_compute; reflexivity|].
  assert (reset_decision conn_e2 1500000000 1400000000 = AcceptReset) as E by (vm_compute; reflexivity).
  eapply wp_mono; [exact (reset_follows_table endpoint conn_e2 1500000000 1400000000 (ok_wf _ conn_e2_ok))|].
  rewrite E. intros r c' l (_ & _ & Hr & Hi & _). split; assumption.
Defined.

(** Bad packets: ten packets in a row that fail the checks reset the
    connection to the current time, unless it was reset within the last second;
    fewer only leave the in-sync state and trigger a request. *)
Theorem bad_packets_reset (B : build) `{H : HashOps} c now :
  conn_wf c →
  wp (got_bad_packet B now) (λ _ c' l,
    let n := u32 (consecutive_bad_pkts c + 1) in
    let recent := time_in_range64 (last_reset_time c) (u64 (now - FASTPASS_RESET_WINDOW_NS))
                    (u64 (now + FASTPASS_RESET_WINDOW_NS)) in
    conn_wf c' ∧ in_sync c' = false ∧
    if n <? 10 then consecutive_bad_pkts c' = n ∧ outwnd c' = outwnd c ∧ l = trigger_events c
    else if recent then consecutive_bad_pkts c' = 0 ∧ outwnd c' = outwnd c ∧ l = trigger_events c
    else is_reset B now false c' ∧ ∃ l1, reset_log c l1 ∧ l = l1 ++ trigger_events c) c.
Proof.
  intros Hc. eapply wp_mono; [by apply got_bad_packet_spec|]. intros _ c' l (Hwf & _ & Hs & Hm). cbv zeta in *.
  split_and!; [done..|]. change FASTPASS_BAD_PKT_RESET_THRESHOLD with 10 in Hm.
  destruct (_ <? 10); [by destruct Hm as [-> ->]|]. destruct (time_in_range64 _ _ _); [|done]. by destruct Hm as [[f ->] ->].
Qed.

Lemma conn_wf_bad n c : conn_wf c → conn_wf (set_consecutive_bad_pkts n c).
Proof. intros [Ho Hf]. constructor; [by eapply out_wf_fields|destruct Hf; by constructor]. Qed.

Lemma bad_packets_reset_witness :
  let c := set_consecutive_bad_pkts 9 conn_e2 in
  conn_wf c ∧ wp (got_bad_packet endpoint 5000000000) (λ _ c' _, is_reset endpoint 5000000000 false c') c.
Proof.
  cbv zeta. assert (conn_wf (set_consecutive_bad_pkts 9 conn_e2)) as Hwf.
  { apply conn_wf_bad, conn_e2_ok. }
  split; [exact Hwf|]. eapply wp_mono; [exact (bad_packets_reset endpoint _ 5000000000 Hwf)|].
  change (consecutive_bad_pkts (set_consecutive_bad_pkts 9 conn_e2)) with 9.
  assert (last_reset_time (set_consecutive_bad_pkts 9 conn_e2) = 0) as -> by (vm_compute; reflexivity).
  intros _ c' l (_ & _ & Hr & _). exact Hr.
Defined.

(** Agreement: when the endpoint and the controller reset to the same
    timestamp, each expects to receive the sequence number that the other will
    send next, in both directions. *)
Theorem resets_agree (Be Bc : build) `{H : HashOps} ts b1 b2 c1 c2 :
  IS_ENDPOINT Be = true → IS_ENDPOINT Bc = false → is_reset Be ts b1 c1 → is_reset Bc ts b2 c2 →
  u64 (head (outwnd c1) + 1) = u64 (in_max_seqno c2 + 1) ∧ u64 (head (outwnd c2) + 1) = u64 (in_max_seqno c1 + 1) ∧
  wnd_set (outwnd c1) = ∅ ∧ wnd_set (outwnd c2) = ∅.
Proof.
  intros H1 H2 R1 R2. destruct (reset_agree Be Bc ts b1 b2 c1 c2 H1 H2 R1 R2) as [-> ->].
  split_and!; [done|done|apply R1|apply R2].
Qed.

Lemma resets_agree_witness :
  is_reset endpoint 0 false conn_e ∧ is_reset controller 0 false conn_c ∧
  u64 (head (outwnd conn_e) + 1) = u64 (in_max_seqno conn_c + 1).
Proof.
  split; [apply init_reset|]. split; [apply init_reset|].
  apply (resets_agree endpoint controller 0 false false conn_e conn_c eq_refl eq_refl); apply init_reset.
Defined.

(** The 16-bit acknowledgement vector of a packet is a sound summary of
    the 64-bit record of received packets: expanded by the receiver of the ACK
    it names only received packets, and the most recent 16 exactly. *)
Theorem ack_vector_sound c i :
  conn_wf c → 0 ≤ i < 64 →
  (Z.testbit (expand_ack_vec (compress_inwnd (inwnd c))) i = true → Z.testbit (inwnd c) i = true) ∧
  (48 ≤ i → Z.testbit (expand_ack_vec (compress_inwnd (inwnd c))) i = Z.testbit (inwnd c) i).
Proof. intros [_ Hf] Hi. apply ack_vec_sound; [apply Hf|apply Hf|done]. Qed.

Lemma ack_vector_sound_witness :
  conn_wf conn_e ∧ (Z.testbit (expand_ack_vec (compress_inwnd (inwnd conn_e))) 50 = true → Z.testbit (inwnd conn_e) 50 = true).
Proof.
  split; [apply init_ok|]. apply (ack_vector_sound conn_e 50 (ok_wf _ (init_ok endpoint))). lia.
Defined.

(** Truncated header fields: a 64-bit sequence number is recovered from its
    low 16 bits when it is within 2^16 of the receiver's base, and a reset
    timestamp from its low 56 bits when it is within 2^55 ns of the clock. *)
Theorem header_fields_roundtrip base now s ts :
  0 ≤ s < 2 ^ 64 → u64 (s - base) < 2 ^ 16 → 0 ≤ ts < 2 ^ 64 → u64 (ts - (now - 2 ^ 55)) < 2 ^ 56 →
  expand16 (u64 base) (u16 s) = s ∧ expand56 now (ts mod 2 ^ 56) = ts.
Proof. intros H1 H2 H3 H4. split; [by apply expand16_exact|by apply expand56_exact]. Qed.

Lemma header_fields_roundtrip_witness :
  expand16 (u64 (-5)) (u16 65530) = 65530 ∧ expand56 (2 ^ 60) ((2 ^ 60 + 7) mod 2 ^ 56) = 2 ^ 60 + 7.
Proof. apply (header_fields_roundtrip (-5) (2 ^ 60) 65530 (2 ^ 60 + 7)); vm_compute; (split; congruence || reflexivity) || reflexivity. Defined.

(** C14. End to end: a packet with requests that one side encodes into a buffer
    is decoded by the other side: after the calls for its acknowledgement the
    A-REQ handler is called once, with exactly the requested destinations and
    counts, the packet is recorded as received, and no check fails. *)
Theorem requests_end_to_end (Bs Br : build) `{H : HashOps} `{!HashOk H} pd min_size max_len e0 c now1 now2 addr addr' :
  pd_ok Bs pd → pd_send_reset pd = false → has_alloc Bs pd = false → 0 < pd_n_areq pd < 64 →
  8 + Z.of_nat (length (body_bytes Bs pd)) ≤ max_len → min_size ≤ max_len < 2 ^ 31 →
  max_len ≤ Z.of_nat (length (e_buf e0)) →
  conn_wf c → reads_areq_data Br = false →
  fastpass_checksum addr' (packet Bs pd min_size 0) (pd_seqno pd) (pd_ack_seq pd) =
    fastpass_checksum addr (packet Bs pd min_size 0) (pd_seqno pd) (pd_ack_seq pd) →
  0 ≤ pd_seqno pd < 2 ^ 64 ∧ u64 (pd_seqno pd - (in_max_seqno c - 2 ^ 14)) < 2 ^ 16 →
  0 ≤ pd_ack_seq pd < 2 ^ 64 ∧ u64 (pd_ack_seq pd - (head (outwnd c) - 2 ^ 16 + 1)) < 2 ^ 16 →
  at_most_once_may_accept c (pd_seqno pd) = 0 →
  wp (fpproto_encode_packet Bs pd addr max_len min_size) (λ r e' _,
    wp (fpproto_handle_rx_complete Br now1 now2 addr' (take (Z.to_nat r) (e_buf e'))) (λ _ c' l,
      ∃ l1 payload, no_bug l1 ∧ Forall (λ k, ack_call k = true) (calls l1) ∧
        l = l1 ++ (if has_handle_areq (ops c) then [EvCall (CHandleAreq payload (pd_n_areq pd))] else []) ∧
        areq_entries (Z.to_nat (pd_n_areq pd)) payload = Some (areq_pair <$> take (Z.to_nat (pd_n_areq pd)) (pd_areq pd)) ∧
        conn_wf c' ∧ in_sync c' = true ∧ at_most_once_may_accept c' (pd_seqno pd) = 1) c) e0.
Proof.
  intros Hpd Hr Ha Hn Hl1 Hl2 Hl3 Hc HB Hck Hs Hk Hm. eapply wp_mono; [by apply encode_packet_spec|].
  intros r e' l (_ & _ & ->). eapply wp_mono; [by apply (request_delivered Bs Br pd min_size Hpd Hr Ha Hn)|].
  intros _ c' l' (l1 & payload & [Hlog Hack] & Hrest). exists l1, payload. split; [by eapply log_from_no_bug|done].
Qed.

(** The first packet of the sample endpoint, for the sample controller. *)
Definition first_pd : fpproto_pktdesc := committed (set_in_sync true conn_e) request_pd 100.

Lemma requests_end_to_end_witness :
  wp (fpproto_encode_packet endpoint first_pd 0 200 40) (λ r e' _,
    wp (fpproto_handle_rx_complete controller 0 0 0 (take (Z.to_nat r) (e_buf e'))) (λ _ c' _,
      in_sync c' = true) conn_c) {| e_buf := replicate 200 0; e_curp := 0; e_remaining := 0 |}.
Proof.
  eapply wp_mono; [apply (requests_end_to_end endpoint controller first_pd 40 200
    {| e_buf := replicate 200 0; e_curp := 0; e_remaining := 0 |} conn_c 0 0 0 0)|].
  - constructor; try (vm_compute; split; congruence); try (vm_compute; congruence).
    intros d Hd. apply not_elem_of_nil in Hd. destruct Hd.
  - reflexivity.
  - reflexivity.
  - vm_compute. split; reflexivity.
  - vm_compute. congruence.
  - vm_compute. split; [congruence|reflexivity].
  - vm_compute. congruence.
  - apply (ok_wf _ (init_ok controller)).
  - reflexivity.
  - reflexivity.
  - vm_compute. split; [split; [congruence|reflexivity]|reflexivity].
  - vm_compute. split; [split; [congruence|reflexivity]|reflexivity].
  - vm_compute. reflexivity.
  - intros r e' l0 Hrx. eapply wp_mono; [exact Hrx|]. intros _ c' l (l1 & payload & _ & _ & _ & _ & _ & Hs & _). exact Hs.
Defined.

(** The checksum detects every change of a single byte of a packet. *)
Theorem checksum_detects_change addr p i b b' seq ack :
  bytes p → Z.even addr = true → Z.of_nat (length p) < 2 ^ 30 →
  p !! i = Some b → 0 ≤ b' < 2 ^ 8 → b' ≠ b →
  fastpass_checksum (H:=generic_hash) addr (<[i := b']> p) seq ack ≠
  fastpass_checksum (H:=generic_hash) addr p seq ack.
Proof. apply checksum_detects_byte. Qed.

Lemma checksum_detects_change_witness :
  fastpass_checksum (H:=generic_hash) 0 [1; 2; 9; 4] 5 6 ≠ fastpass_checksum (H:=generic_hash) 0 [1; 2; 3; 4] 5 6.
Proof.
  apply (checksum_detects_change 0 [1; 2; 3; 4] 2 3 9); try reflexivity; try lia.
  repeat (apply Forall_cons; split; [lia|]); constructor.
Defined.

(** An ALLOC payload that ends within the last two bytes of the packet is
    rejected although it is complete: the length check counts the two type bytes
    twice. *)
Theorem alloc_at_end_rejected :
  let pkt := replicate 8 0 ++ [0x31; 0x01; 0; 5; 0; 7; 0x10; 0x10] in
  (** one destination and two timeslots: 2 + 2 + 2 + 2 bytes, all present *)
  (λ r, r.1.1) <$> process_alloc pkt 8 conn_e = Some (-1) ∧
  (λ r, r.1.1) <$> process_alloc (pkt ++ [0; 0]) 8 conn_e = Some 8.
Proof. split; vm_compute; reflexivity. Qed.

(** In a controller build with request data the counts of an A-REQ payload
    are read without a bound: a packet that ends after its last request makes the
    controller read past the end of the packet. *)
Theorem areq_data_read_past_end :
  let B := {| IS_ENDPOINT := false; EMULATION_ALGO := true; emu_req_data_bytes := 4; emu_alloc_data_bytes := 0 |} in
  process_areq B (replicate 8 0 ++ [0x20; 1; 0; 7; 0; 3]) 8 conn_c = None.
Proof. vm_compute. reflexivity. Qed.
