(* ===== verification/Pacer.v ===== *)
(** * Pacing, topology and emulation flags

    Models of [src/src/protocol/pacer.h], [topology.h] and [flags.h]. *)

From S2P Require Import Prelude Platform.

(** ** pacer.h: a token bucket that says when the next event may happen *)
Module Pacer.
Definition PACER_NO_NEXT_EVENT : Z := not64 0.

Record fp_pacer := { T : Z; next_event : Z; cost : Z; max_credit : Z; min_gap : Z }.

Definition pacer_init_full (now c credit gap : Z) : fp_pacer := {|
  T := u64 (now - credit); next_event := PACER_NO_NEXT_EVENT;
  cost := c; max_credit := credit; min_gap := gap |}.

Definition pacer_is_triggered (pa : fp_pacer) : bool := negb (next_event pa =? PACER_NO_NEXT_EVENT).

Definition pacer_trigger (pa : fp_pacer) (now : Z) : bool * fp_pacer :=
  if pacer_is_triggered pa then (false, pa)
  else (true, {| T := T pa;
                 next_event := max_u64 (u64 (T pa + cost pa)) (u64 (now + min_gap pa));
                 cost := cost pa; max_credit := max_credit pa; min_gap := min_gap pa |}).

Definition pacer_next_event (pa : fp_pacer) : Z := next_event pa.

Definition pacer_reset (pa : fp_pacer) : fp_pacer := {|
  T := u64 (max_u64 (T pa) (u64 (next_event pa - max_credit pa)) + cost pa);
  next_event := PACER_NO_NEXT_EVENT;
  cost := cost pa; max_credit := max_credit pa; min_gap := min_gap pa |}.

(** The event times of a pacer triggered at the given times, each event
    happening at its allowed time. *)
Fixpoint pacer_run (pa : fp_pacer) (triggers : list Z) : list Z :=
  match triggers with
  | [] => []
  | now :: rest =>
      let pa := (pacer_trigger pa now).2 in
      pacer_next_event pa :: pacer_run (pacer_reset pa) rest
  end.

(** ** Properties *)
Lemma max_u64_max x y : max_u64 x y = Z.max x y.
Proof. unfold max_u64. destruct (Z.gtb_spec x y); lia. Qed.

(** An idle pacer whose clock does not overflow before [limit]. *)
Record idle (pa : fp_pacer) (limit : Z) : Prop := {
  id_event : next_event pa = PACER_NO_NEXT_EVENT;
  id_T : 0 ≤ T pa ≤ limit;
  id_cost : 0 < cost pa;
  id_credit : 0 ≤ max_credit pa;
  id_gap : 0 ≤ min_gap pa;
}.

(** One trigger and its event. *)
Lemma pacer_event pa now limit :
  idle pa limit → 0 ≤ now → max_credit pa ≤ now →
  limit + 2 * cost pa < 2 ^ 64 - 1 → now + min_gap pa ≤ limit →
  let pa1 := (pacer_trigger pa now).2 in
  let e := next_event pa1 in
  e = Z.max (T pa + cost pa) (now + min_gap pa) ∧ pacer_is_triggered pa1 = true ∧
  T (pacer_reset pa1) = Z.max (T pa) (e - max_credit pa) + cost pa ∧
  next_event (pacer_reset pa1) = PACER_NO_NEXT_EVENT ∧
  cost (pacer_reset pa1) = cost pa ∧ max_credit (pacer_reset pa1) = max_credit pa ∧
  min_gap (pacer_reset pa1) = min_gap pa.
Proof.
  intros [He HT Hc Hcr Hg] Hn Hnc Hl Hng. unfold pacer_trigger, pacer_is_triggered. rewrite He, Z.eqb_refl.
  cbn [negb snd next_event T cost max_credit min_gap pacer_reset].
  rewrite !max_u64_max, !(u64_small (T pa + cost pa)), !(u64_small (now + min_gap pa)) by lia.
  set (e := Z.max (T pa + cost pa) (now + min_gap pa)).
  assert (0 ≤ e - max_credit pa ∧ e ≤ limit + cost pa) as [He1 He2] by lia.
  split_and!; try done.
  - apply negb_true_iff, Z.eqb_neq. change PACER_NO_NEXT_EVENT with (2 ^ 64 - 1). lia.
  - rewrite (u64_small (e - max_credit pa)), u64_small by lia. done.
Qed.

(** Lower bound on the event times that follow a value of [T]. *)
Lemma pacer_run_bound triggers : ∀ pa limit (k : nat) e,
  idle pa limit → Forall (λ now, 0 ≤ now ∧ max_credit pa ≤ now ∧ now + min_gap pa ≤ limit) triggers →
  limit + 2 * cost pa * Z.of_nat (S (length triggers)) < 2 ^ 64 - 1 →
  pacer_run pa triggers !! k = Some e → T pa + cost pa * (Z.of_nat k + 1) ≤ e.
Proof.
  induction triggers as [|now rest IH]; intros pa limit k e Hid Htr Hl Hk; [done|].
  apply Forall_cons in Htr as [(Hn & Hnc & Hng) Htr]. simpl length in Hl.
  pose proof (id_cost _ _ Hid). pose proof (id_T _ _ Hid).
  destruct (pacer_event pa now limit) as (E & _ & ET & EN & EC & EM & EG); [done|lia|lia|nia|lia|].
  cbn [pacer_run] in Hk. cbv zeta in Hk. set (pa1 := (pacer_trigger pa now).2) in *.
  unfold pacer_next_event in Hk. destruct k as [|k]; simpl in Hk; [injection Hk as <-; lia|].
  assert (idle (pacer_reset pa1) (limit + 2 * cost pa)) as Hid'.
  { destruct Hid. constructor; rewrite ?ET, ?EC, ?EM, ?EG; lia. }
  apply (IH _ (limit + 2 * cost pa) k e Hid') in Hk.
  - rewrite ET, EC in Hk. nia.
  - rewrite EM, EG. eapply Forall_impl; [exact Htr|]. simpl. lia.
  - rewrite EC. lia.
Qed.

(** The event times of any run obey the rate: [k] events after event [i]
    take at least [(k + 1) * cost - max_credit]. *)
Lemma pacer_rate_from triggers : ∀ pa limit (i k : nat) ei ek,
  idle pa limit → Forall (λ now, 0 ≤ now ∧ max_credit pa ≤ now ∧ now + min_gap pa ≤ limit) triggers →
  limit + 2 * cost pa * Z.of_nat (S (length triggers)) < 2 ^ 64 - 1 →
  pacer_run pa triggers !! i = Some ei → pacer_run pa triggers !! (i + S k)%nat = Some ek →
  ei + cost pa * (Z.of_nat k + 2) - max_credit pa ≤ ek.
Proof.
  induction triggers as [|now rest IH]; intros pa limit i k ei ek Hid Htr Hl Hi Hk; [done|].
  apply Forall_cons in Htr as [(Hn & Hnc & Hng) Htr]. simpl length in Hl.
  pose proof (id_cost _ _ Hid). pose proof (id_T _ _ Hid).
  destruct (pacer_event pa now limit) as (E & _ & ET & EN & EC & EM & EG); [done|lia|lia|nia|lia|].
  cbn [pacer_run] in Hi, Hk. cbv zeta in Hi, Hk. set (pa1 := (pacer_trigger pa now).2) in *.
  unfold pacer_next_event in Hi, Hk.
  assert (idle (pacer_reset pa1) (limit + 2 * cost pa)) as Hid'.
  { destruct Hid. constructor; rewrite ?ET, ?EC, ?EM, ?EG; lia. }
  assert (Forall (λ now, 0 ≤ now ∧ max_credit (pacer_reset pa1) ≤ now ∧
    now + min_gap (pacer_reset pa1) ≤ limit + 2 * cost pa) rest) as Htr'.
  { rewrite EM, EG. eapply Forall_impl; [exact Htr|]. simpl. lia. }
  destruct i as [|i]; simpl in Hi, Hk.
  - injection Hi as <-. apply (pacer_run_bound _ _ (limit + 2 * cost pa)) in Hk; [|done|done|rewrite EC; lia].
    rewrite ET, EC in Hk. nia.
  - rewrite <- EC, <- EM. apply (IH _ (limit + 2 * cost pa) i k); [done|done|rewrite EC; lia|done|done].
Qed.
End Pacer.

(** ** topology.h *)
Module Topology.
Definition NUM_NODES : Z := 64.
Definition MAX_NODES : Z := 256.
Definition FP_NODES_SHIFT : Z := 8.
Definition MAX_RACKS : Z := 16.
Definition TOR_SHIFT : Z := 8.
Definition OUT_OF_BOUNDARY_NODE_ID : Z := MAX_NODES - 1.
(** One flow per pair of nodes. *)
Definition FLOW_SHIFT : Z := 0.
Definition FLOWS_PER_NODE : Z := Z.shiftl 1 FLOW_SHIFT.
Definition FLOW_MASK : Z := Z.shiftl 1 FLOW_SHIFT - 1.
Definition MAX_FLOWS : Z := MAX_NODES * FLOWS_PER_NODE.

(** The shipped configuration: FB_DEPLOYMENT is 0. *)
Definition fp_map_ip_to_id (ipaddr : Z) : Z := u16 (ipaddr mod NUM_NODES).
Definition fp_map_mac_to_id (mac : Z) : Z := u16 (mac mod NUM_NODES).
Definition mac_is_out_of_rack (mac : Z) : bool := false.
Definition fp_alloc_node (alloc : Z) : Z := Z.land alloc 0x3FFF.
Definition fp_alloc_path (alloc : Z) : Z := Z.shiftr alloc 14.
Definition fp_rack_from_node_id (id : Z) : Z := Z.shiftr id TOR_SHIFT.

(** An allocation is a path in the two high bits and a node below. *)
Lemma alloc_split node path :
  0 ≤ node < 2 ^ 14 → 0 ≤ path < 4 →
  let alloc := Z.lor node (Z.shiftl path 14) in
  fp_alloc_node alloc = node ∧ fp_alloc_path alloc = path ∧ 0 ≤ alloc < 2 ^ 16.
Proof.
  intros Hn Hp alloc.
  assert (Hlow : ∀ i, 0 ≤ i < 14 → Z.testbit (Z.shiftl path 14) i = false).
  { intros i Hi. by rewrite Z.shiftl_spec, Z.testbit_neg_r by lia. }
  assert (0 ≤ Z.shiftl path 14 < 2 ^ 16) as Hs by (rewrite Z.shiftl_mul_pow2 by lia; lia).
  split_and!.
  - unfold fp_alloc_node, alloc. change 0x3FFF with (Z.ones 14).
    apply (bits_eq_below 14); [rewrite Z.land_ones by lia; zify_div; lia|done|].
    intros i Hi. by rewrite Z.land_spec, Z.lor_spec, Hlow, Z.ones_spec_low, orb_false_r, andb_true_r by lia.
  - unfold fp_alloc_path, alloc. rewrite Z.shiftr_lor, Z.shiftr_shiftl_l by lia.
    rewrite Z.sub_diag, Z.shiftl_0_r, (Z.shiftr_div_pow2 node) by lia.
    by rewrite (Z.div_small node) by lia.
  - apply Z.lor_nonneg. lia.
  - apply lor_range; lia.
Qed.

Lemma map_ip_range ip : 0 ≤ fp_map_ip_to_id ip < NUM_NODES ∧ fp_map_ip_to_id ip < OUT_OF_BOUNDARY_NODE_ID.
Proof. unfold fp_map_ip_to_id, NUM_NODES, OUT_OF_BOUNDARY_NODE_ID, MAX_NODES. mlia. Qed.
End Topology.

(** ** flags.h: the flags of an allocation *)
Module AllocFlags.
Definition FLAGS_MASK : Z := 0xF.
Definition EMU_FLAGS_NONE : Z := 0.
Definition EMU_FLAGS_DROP : Z := 1.
Definition EMU_FLAGS_ECN_MARK : Z := 2.
Definition EMU_FLAGS_MODIFY : Z := 3.
End AllocFlags.

(** ** flags.h: sizes of the per-scheme data in emulation packets *)
Module Flags.
Definition MAX_REQ_DATA_BYTES : Z := 8.
Definition MAX_ALLOC_DATA_BYTES : Z := 2.
Definition AREQ_DATA_TYPE_NONE : Z := 0.
Definition AREQ_DATA_TYPE_UNSPEC : Z := 1.
Definition AREQ_DATA_TYPE_PKTS_LEFT : Z := 2.
Definition AREQ_DATA_TYPE_TSO : Z := 3.
Definition AREQ_DATA_TYPE_LSTF : Z := 4.
Definition ALLOC_DATA_TYPE_NONE : Z := 0.
Definition ALLOC_DATA_TYPE_UNSPEC : Z := 1.

(** The scheme macro the controller is compiled with, and USE_TSO. *)
Inductive scheme_macro :=
| DROP_TAIL | RED | DCTCP | HULL | ROUND_ROBIN | PRIO_QUEUEING | PFABRIC | LSTF | NO_SCHEME.

Definition emu_req_data_bytes (use_tso : bool) (s : scheme_macro) : Z :=
  if use_tso then 2
  else match s with
  | DROP_TAIL | RED | DCTCP | HULL | ROUND_ROBIN | PRIO_QUEUEING => 0
  | PFABRIC => 4
  | LSTF => 8
  | NO_SCHEME => MAX_REQ_DATA_BYTES
  end.

Definition emu_alloc_data_bytes (s : scheme_macro) : Z :=
  match s with
  | DROP_TAIL | RED | DCTCP | HULL | ROUND_ROBIN | PRIO_QUEUEING | PFABRIC => 0
  | _ => MAX_ALLOC_DATA_BYTES
  end.

(** The endpoint's side: the [emu_scheme] module parameter. *)
Definition areq_data_type_from_scheme (scheme : string) : Z :=
  if String.eqb scheme "drop_tail" || String.eqb scheme "red" || String.eqb scheme "dctcp" then
    AREQ_DATA_TYPE_NONE
  else if String.eqb scheme "pfabric" then AREQ_DATA_TYPE_PKTS_LEFT
  else if String.eqb scheme "drop_tail_tso" then AREQ_DATA_TYPE_TSO
  else if String.eqb scheme "lstf" then AREQ_DATA_TYPE_LSTF
  else AREQ_DATA_TYPE_UNSPEC.

Definition areq_data_bytes_from_scheme (scheme : string) : Z :=
  if String.eqb scheme "drop_tail" || String.eqb scheme "red" || String.eqb scheme "dctcp" then 0
  else if String.eqb scheme "pfabric" then 4
  else if String.eqb scheme "drop_tail_tso" then 2
  else if String.eqb scheme "lstf" then 8
  else MAX_REQ_DATA_BYTES.

Definition alloc_data_type_from_scheme (scheme : string) : Z :=
  if String.eqb scheme "drop_tail" || String.eqb scheme "red" || String.eqb scheme "dctcp"
     || String.eqb scheme "pfabric" || String.eqb scheme "drop_tail_tso" || String.eqb scheme "lstf"
  then ALLOC_DATA_TYPE_NONE else ALLOC_DATA_TYPE_UNSPEC.

Definition alloc_data_bytes_from_scheme (scheme : string) : Z :=
  if String.eqb scheme "drop_tail" || String.eqb scheme "red" || String.eqb scheme "dctcp"
     || String.eqb scheme "pfabric" || String.eqb scheme "drop_tail_tso" || String.eqb scheme "lstf"
  then 0 else MAX_ALLOC_DATA_BYTES.

(** The macro that goes with a scheme name of the endpoint. *)
Definition macro_of (scheme : string) : option (bool * scheme_macro) :=
  if String.eqb scheme "drop_tail" then Some (false, DROP_TAIL)
  else if String.eqb scheme "red" then Some (false, RED)
  else if String.eqb scheme "dctcp" then Some (false, DCTCP)
  else if String.eqb scheme "pfabric" then Some (false, PFABRIC)
  else if String.eqb scheme "drop_tail_tso" then Some (true, DROP_TAIL)
  else if String.eqb scheme "lstf" then Some (false, LSTF)
  else None.

Lemma request_sizes_agree scheme tso m :
  macro_of scheme = Some (tso, m) →
  areq_data_bytes_from_scheme scheme = emu_req_data_bytes tso m ∧
  (areq_data_type_from_scheme scheme = AREQ_DATA_TYPE_NONE ↔ emu_req_data_bytes tso m = 0).
Proof.
  unfold macro_of, areq_data_bytes_from_scheme, areq_data_type_from_scheme.
  repeat match goal with |- context [String.eqb scheme ?n] => destruct (String.eqb_spec scheme n); simpl end;
    intros; simplify_eq; done.
Qed.

(** The alloc sizes agree for all of them but "lstf". *)
Lemma alloc_sizes_agree scheme tso m :
  macro_of scheme = Some (tso, m) →
  alloc_data_bytes_from_scheme scheme = emu_alloc_data_bytes m ↔ m ≠ LSTF.
Proof.
  unfold macro_of, alloc_data_bytes_from_scheme.
  repeat match goal with |- context [String.eqb scheme ?n] => destruct (String.eqb_spec scheme n); simpl end;
    intros; simplify_eq; done.
Qed.
End Flags.
