(* ===== verification/Ring.v ===== *)
(** * Rings between cores

    The interface that the admission algorithm expects of its rings
    ([RingOps]/[Ring]) and the implementation of
    [src/src/graph-algo/fp_ring.h] (the build without DPDK). *)

From S2P Require Import Prelude.

(** ** The interface

    [None] is -ENOBUFS for the enqueue operations and -ENOENT for dequeue. *)
Class RingOps (R A : Type) := {
  r_enqueue : A → R → option R;
  r_enqueue_bulk : list A → R → option R;
  r_dequeue : R → option (A * R);
}.

(** A ring is a FIFO list with [r_free] free places; [r_bulk_room r n] says that a
    bulk of [n] is accepted. *)
Class Ring (R A : Type) `{RingOps R A} := {
  r_wf : R → Prop;
  r_list : R → list A;
  r_free : R → nat;
  r_bulk_room : R → nat → Prop;
  r_enqueue_spec r x : r_wf r → (0 < r_free r)%nat →
    ∃ r', r_enqueue x r = Some r' ∧ r_wf r' ∧ r_list r' = r_list r ++ [x] ∧ r_free r = S (r_free r');
  r_enqueue_sound r x r' : r_wf r → r_enqueue x r = Some r' → r_wf r' ∧ r_list r' = r_list r ++ [x];
  r_enqueue_bulk_spec r xs : r_wf r → r_bulk_room r (length xs) →
    ∃ r', r_enqueue_bulk xs r = Some r' ∧ r_wf r' ∧ r_list r' = r_list r ++ xs;
  r_dequeue_spec r : r_wf r →
    match r_list r with
    | [] => r_dequeue r = None
    | x :: l => ∃ r', r_dequeue r = Some (x, r') ∧ r_wf r' ∧ r_list r' = l ∧ r_free r' = S (r_free r)
    end;
}.

(** [fp_ring_dequeue_burst]: up to [n] elements. *)
Fixpoint r_dequeue_burst {R A} `{RingOps R A} (n : nat) (r : R) : list A * R :=
  match n with
  | O => ([], r)
  | S n' =>
      match r_dequeue r with
      | Some (x, r') => let '(xs, r'') := r_dequeue_burst n' r' in (x :: xs, r'')
      | None => ([], r)
      end
  end.

Lemma dequeue_burst_spec {R A} `{Ring R A} n : ∀ r, r_wf r →
  let '(xs, r') := r_dequeue_burst n r in
  xs = take n (r_list r) ∧ r_wf r' ∧ r_list r' = drop n (r_list r).
Proof.
  induction n as [|n IH]; intros r Hr; cbn [r_dequeue_burst]; [by rewrite take_0, drop_0|].
  pose proof (r_dequeue_spec r Hr) as Hd. destruct (r_list r) as [|x l] eqn:E.
  - by rewrite Hd, E.
  - destruct Hd as (r' & -> & Hr' & El & _). specialize (IH r' Hr').
    destruct (r_dequeue_burst n r') as [xs r'']. rewrite El in IH. simpl. naive_solver.
Qed.

(** ** fp_ring.h *)
Record fp_ring (A : Type) := { head : Z; tail : Z; mask : Z; elem : list A }.
Arguments head {A}. Arguments tail {A}. Arguments mask {A}. Arguments elem {A}.

Section fp_ring.
Context {A : Type} `{!Inhabited A}.
Implicit Types (r : fp_ring A) (x : A).

(** The memory comes from malloc, so the slots hold anything. *)
Definition fp_ring_create (num_elems : Z) (garbage : list A) : fp_ring A :=
  {| head := 0; tail := 0; mask := u32 (num_elems - 1); elem := garbage |}.

Definition fp_ring_enqueue (x : A) (r : fp_ring A) : option (fp_ring A) :=
  if tail r =? u32 (head r + mask r) then None
  else Some {| head := head r; tail := u32 (tail r + 1); mask := mask r;
               elem := arr_set (elem r) (Z.land (tail r) (mask r)) x |}.

(** The return codes of the calls in the loop are ignored. *)
Fixpoint enqueue_each (xs : list A) (r : fp_ring A) : fp_ring A :=
  match xs with
  | [] => r
  | x :: xs' => enqueue_each xs' (default r (fp_ring_enqueue x r))
  end.

Definition fp_ring_enqueue_bulk (xs : list A) (r : fp_ring A) : option (fp_ring A) :=
  if u32 (tail r + Z.of_nat (length xs)) >? u32 (head r + mask r) then None
  else Some (enqueue_each xs r).

Definition fp_ring_dequeue (r : fp_ring A) : option (A * fp_ring A) :=
  if head r =? tail r then None
  else Some (arr_get (elem r) (Z.land (head r) (mask r)),
             {| head := u32 (head r + 1); tail := tail r; mask := mask r; elem := elem r |}).

Definition fp_ring_empty (r : fp_ring A) : bool := head r =? tail r.

#[export] Instance fp_ring_ops : RingOps (fp_ring A) A := {|
  r_enqueue := fp_ring_enqueue;
  r_enqueue_bulk := fp_ring_enqueue_bulk;
  r_dequeue := fp_ring_dequeue;
|}.

(** *** Invariant and abstraction *)
Definition ring_size (r : fp_ring A) : Z := u32 (tail r - head r).

Definition ring_slot (r : fp_ring A) (i : nat) : A :=
  arr_get (elem r) ((head r + Z.of_nat i) mod (mask r + 1)).

Definition ring_list (r : fp_ring A) : list A := ring_slot r <$> seq 0 (Z.to_nat (ring_size r)).

Record ring_wf (r : fp_ring A) : Prop := {
  rw_mask : ∃ k, 0 ≤ k < 32 ∧ mask r = 2 ^ k - 1;
  rw_elem : Z.of_nat (length (elem r)) = mask r + 1;
  rw_head : 0 ≤ head r < 2 ^ 32;
  rw_tail : 0 ≤ tail r < 2 ^ 32;
  rw_size : ring_size r ≤ mask r;
}.

Lemma pow32_divide k : 0 ≤ k < 32 → (2 ^ k | 2 ^ 32).
Proof.
  intros Hk. exists (2 ^ (32 - k)). rewrite <- Z.pow_add_r by lia. f_equal. lia.
Qed.

(** Indices: masking is reduction modulo the size, also across 2^32. *)
Lemma land_mask r (i : Z) : ring_wf r → Z.land i (mask r) = i mod (mask r + 1).
Proof.
  intros [(k & Hk & ->) _ _ _ _]. replace (2 ^ k - 1) with (Z.ones k) by (rewrite Z.ones_equiv; lia).
  rewrite Z.land_ones by lia. f_equal. rewrite Z.ones_equiv. lia.
Qed.

Lemma u32_mod r (i : Z) : ring_wf r → u32 i mod (mask r + 1) = i mod (mask r + 1).
Proof.
  intros [(k & Hk & ->) _ _ _ _]. replace (2 ^ k - 1 + 1) with (2 ^ k) by lia.
  assert (0 < 2 ^ k) by (apply Z.pow_pos_nonneg; lia).
  destruct (pow32_divide k Hk) as [q Hq]. unfold u32. rewrite Hq, (Z.mul_comm q).
  rewrite Z.rem_mul_r by nia. rewrite Z.add_mod, Z.mul_comm, Z.mod_mul, Z.add_0_r, !Z.mod_mod by lia. done.
Qed.

Lemma mask_pos r : ring_wf r → 0 ≤ mask r < 2 ^ 32.
Proof.
  intros [(k & Hk & ->) _ _ _ _]. assert (0 < 2 ^ k) by (apply Z.pow_pos_nonneg; lia).
  assert (2 ^ k < 2 ^ 32) by (apply Z.pow_lt_mono_r; lia). lia.
Qed.

Lemma length_ring_list r : length (ring_list r) = Z.to_nat (ring_size r).
Proof. unfold ring_list. by rewrite length_fmap, length_seq. Qed.

Lemma ring_size_range r : 0 ≤ ring_size r < 2 ^ 32.
Proof. apply u32_range. Qed.

Lemma ring_full r : ring_wf r → (tail r =? u32 (head r + mask r)) = bool_decide (ring_size r = mask r).
Proof.
  intros Hr. pose proof (mask_pos r Hr). destruct Hr. apply eq_bool_prop_intro.
  rewrite bool_decide_spec, Is_true_true, Z.eqb_eq. unfold ring_size. split; mlia.
Qed.

Lemma mod_inj_close a b m : 0 < m → a mod m = b mod m → 0 ≤ a - b < m → a = b.
Proof.
  intros Hm E Hab. assert ((a - b) mod m = 0) as E0 by (by rewrite Zminus_mod, E, Z.sub_diag).
  rewrite Z.mod_small in E0 by done. lia.
Qed.

Lemma tail_mod r : ring_wf r → tail r mod (mask r + 1) = (head r + ring_size r) mod (mask r + 1).
Proof.
  intros Hr. rewrite <- (u32_mod r (head r + ring_size r) Hr). f_equal.
  destruct Hr. unfold ring_size. clear -rw_head0 rw_tail0. mlia.
Qed.

(** Enqueue into a ring with room. *)
Lemma fp_ring_enqueue_spec r x :
  ring_wf r → ring_size r < mask r →
  ∃ r', fp_ring_enqueue x r = Some r' ∧ ring_wf r' ∧ ring_list r' = ring_list r ++ [x] ∧
    ring_size r' = ring_size r + 1 ∧ mask r' = mask r ∧ head r' = head r ∧ tail r' = u32 (tail r + 1).
Proof.
  intros Hr Hsz. pose proof (mask_pos r Hr) as Hm. unfold fp_ring_enqueue.
  rewrite (ring_full r Hr), bool_decide_eq_false_2 by lia. eexists. split; [done|].
  set (r' := {| head := head r |}).
  assert (ring_size r' = ring_size r + 1) as Hsz'.
  { destruct Hr. unfold ring_size in *. simpl. clear -Hsz Hm rw_head0 rw_tail0. mlia. }
  assert (ring_wf r') as Hr'.
  { destruct Hr. constructor; simpl; rewrite ?length_arr_set; try done; [apply u32_range|]. lia. }
  split_and!; try done. pose proof (ring_size_range r) as Hs0.
  unfold ring_list. rewrite Hsz', Z2Nat.inj_add, seq_app, fmap_app by lia. f_equal.
  - apply list_fmap_ext. intros i j [-> Hj]%lookup_seq. unfold ring_slot. simpl.
    rewrite (land_mask r _ Hr), arr_get_set; [|rewrite (rw_elem r Hr); apply Z.mod_pos_bound; lia|
      apply Z.mod_pos_bound; lia].
    rewrite decide_False; [done|]. rewrite (tail_mod r Hr). intros E.
    apply mod_inj_close in E; lia.
  - simpl. unfold ring_slot. simpl. rewrite (land_mask r _ Hr), Z2Nat.id by lia.
    rewrite arr_get_set; [|rewrite (rw_elem r Hr); apply Z.mod_pos_bound; lia|apply Z.mod_pos_bound; lia].
    by rewrite decide_True by (by rewrite (tail_mod r Hr)).
Qed.

Lemma fp_ring_enqueue_full r x : ring_wf r → ring_size r = mask r → fp_ring_enqueue x r = None.
Proof. intros Hr E. unfold fp_ring_enqueue. by rewrite (ring_full r Hr), bool_decide_eq_true_2. Qed.

Lemma fp_ring_dequeue_spec r :
  ring_wf r →
  match ring_list r with
  | [] => fp_ring_dequeue r = None
  | x :: l => ∃ r', fp_ring_dequeue r = Some (x, r') ∧ ring_wf r' ∧ ring_list r' = l ∧
      mask r' = mask r ∧ ring_size r' = ring_size r - 1
  end.
Proof.
  intros Hr. pose proof (mask_pos r Hr) as Hm. pose proof (ring_size_range r) as Hs.
  pose proof (rw_size r Hr) as Hsm. unfold fp_ring_dequeue, ring_list.
  destruct (Z.eqb_spec (head r) (tail r)) as [E|E].
  { assert (ring_size r = 0) as -> by (unfold ring_size; by rewrite E, Z.sub_diag). done. }
  assert (ring_size r ≠ 0) as Hne.
  { destruct Hr. unfold ring_size. clear -rw_head0 rw_tail0 E. mlia. }
  replace (Z.to_nat (ring_size r)) with (S (Z.to_nat (ring_size r - 1))) by lia.
  cbn [seq fmap list_fmap]. eexists. split.
  - f_equal. f_equal. unfold ring_slot. by rewrite (land_mask r _ Hr), Z.add_0_r.
  - set (r' := {| head := u32 (head r + 1) |}).
    assert (ring_size r' = ring_size r - 1) as Hs'.
    { destruct Hr. unfold ring_size in *. simpl. clear -rw_head0 rw_tail0 Hne. mlia. }
    split; [|split; [|done]].
    + destruct Hr. constructor; simpl; try done; [apply u32_range|lia].
    + unfold ring_list. rewrite Hs', <- fmap_S_seq, <- list_fmap_compose. apply list_fmap_ext.
      intros i j _. unfold ring_slot, compose. simpl. f_equal.
      rewrite <- Zplus_mod_idemp_l, (u32_mod r _ Hr), Zplus_mod_idemp_l. f_equal. lia.
Qed.

(** The bulk operation, away from the wrap-around of the 32-bit counters. *)
Definition fp_bulk_room r (n : nat) : Prop :=
  ring_size r + Z.of_nat n ≤ mask r ∧ tail r + Z.of_nat n < 2 ^ 32 ∧ head r + mask r < 2 ^ 32.

Lemma no_wrap_size r : ring_wf r → head r + mask r < 2 ^ 32 → tail r = head r + ring_size r.
Proof.
  intros Hr Hw. destruct Hr. unfold ring_size in *. clear -rw_head0 rw_tail0 rw_size0 Hw. mlia.
Qed.

Lemma enqueue_each_spec xs : ∀ r,
  ring_wf r → ring_size r + Z.of_nat (length xs) ≤ mask r →
  ring_wf (enqueue_each xs r) ∧ ring_list (enqueue_each xs r) = ring_list r ++ xs.
Proof.
  induction xs as [|x xs IH]; intros r Hr Hl; [by rewrite app_nil_r|]. cbn [enqueue_each].
  simpl length in Hl. destruct (fp_ring_enqueue_spec r x Hr) as (r' & -> & Hr' & El & Es & Em & _); [lia|].
  simpl default. destruct (IH r' Hr') as [Hw ->]; [rewrite Es, Em; lia|]. split; [done|].
  by rewrite El, <- app_assoc.
Qed.

Lemma fp_ring_enqueue_bulk_spec r xs :
  ring_wf r → fp_bulk_room r (length xs) →
  ∃ r', fp_ring_enqueue_bulk xs r = Some r' ∧ ring_wf r' ∧ ring_list r' = ring_list r ++ xs.
Proof.
  intros Hr (Hl & Ht & Hh). pose proof (rw_head r Hr). pose proof (rw_tail r Hr).
  pose proof (mask_pos r Hr). unfold fp_ring_enqueue_bulk. rewrite !u32_small by lia.
  rewrite Z.gtb_ltb, (proj2 (Z.ltb_ge _ _)).
  - eexists. split; [done|]. by apply enqueue_each_spec.
  - pose proof (no_wrap_size r Hr Hh). lia.
Qed.

#[export] Instance fp_ring_ring : Ring (fp_ring A) A.
Proof.
  refine {| r_wf := ring_wf; r_list := ring_list; r_free := λ r, Z.to_nat (mask r - ring_size r);
            r_bulk_room := fp_bulk_room; r_enqueue_spec := _ |}.
  - intros r x Hr Hl. destruct (fp_ring_enqueue_spec r x Hr) as (r' & ? & ? & ? & ? & ? & _); [lia|].
    exists r'. split_and!; [done..|]. lia.
  - intros r x r' Hr Hrun. cbn [r_enqueue fp_ring_ops] in Hrun.
    destruct (decide (ring_size r < mask r)) as [Hl|Hl].
    + destruct (fp_ring_enqueue_spec r x Hr Hl) as (r2 & E & ? & ? & _). by simplify_eq.
    + pose proof (rw_size r Hr). by rewrite fp_ring_enqueue_full in Hrun by (done || lia).
  - apply fp_ring_enqueue_bulk_spec.
  - intros r Hr. pose proof (fp_ring_dequeue_spec r Hr) as Hd. cbn [r_dequeue fp_ring_ops].
    destruct (ring_list r) as [|x l]; [done|]. destruct Hd as (r' & ? & ? & ? & ? & ?).
    exists r'. split_and!; try done. pose proof (rw_size r Hr). lia.
Defined.

(** A new ring is empty. *)
Lemma fp_ring_create_spec k garbage :
  0 ≤ k < 32 → Z.of_nat (length garbage) = 2 ^ k →
  ring_wf (fp_ring_create (2 ^ k) garbage) ∧ ring_list (fp_ring_create (2 ^ k) garbage) = [] ∧
  mask (fp_ring_create (2 ^ k) garbage) = 2 ^ k - 1.
Proof.
  intros Hk Hl. assert (0 < 2 ^ k) by (apply Z.pow_pos_nonneg; lia).
  assert (2 ^ k < 2 ^ 32) by (apply Z.pow_lt_mono_r; lia).
  assert (u32 (2 ^ k - 1) = 2 ^ k - 1) as E by (apply u32_small; lia).
  set (r := fp_ring_create (2 ^ k) garbage).
  assert (mask r = 2 ^ k - 1) as Em by exact E.
  split_and!; [|done|done]. constructor; rewrite ?Em; try done.
  - by exists k.
  - change (elem r) with garbage. lia.
  - change (ring_size r) with 0. lia.
Qed.
End fp_ring.
