(* ===== verification/Admission.v ===== *)
(** * The pipelined admission algorithm

    Model of the sequential timeslot allocator of [src/src/graph-algo]: bin.h,
    backlog.h, batch.h, admitted.h, admissible_structures.h,
    admissible_traffic.h and admissible_traffic.c.

    A core allocates a batch of [BATCH_SIZE] timeslots.  Demands travel between
    cores and the communication core in bins, through rings; a bin has one owner
    at a time, so it is passed by value, and the memory pools that provide empty
    bins need no state.  [None] is a failed [assert], a write outside a bin, or a
    wait for space in a ring that nobody empties.  Statistics ([adm_log_*]) are
    not modelled.  Oversubscription is compiled out
    (SUPPORTS_OVERSUBSCRIPTION is 0), so the rack state is left out. *)

From S2P Require Import Prelude Platform Pacer Ring.
Export Topology.

Definition BATCH_SIZE : Z := 16.
Definition BATCH_SHIFT : Z := 4.
Definition NUM_BINS : Z := 32.
Definition SMALL_BIN_SIZE : nat := 32.
Definition LARGE_BIN_SIZE : Z := MAX_NODES * MAX_NODES.
Definition RING_DEQUEUE_BURST_SIZE : nat := 8.
Definition SPENT_RING_DEQUEUE_SIZE : nat := 256.
Definition Q_IN_Q_OUT_BURST_SIZE : nat := 16.
Definition URGENT_NUM_TIMESLOTS_START : Z := BATCH_SIZE.
Definition URGENT_NUM_TIMESLOTS_END : Z := 1.
Definition TIMESLOT_SHIFT_PER_PRIORITY : Z := 1.
Definition TIMESLOTS_START_BEFORE : Z := Z.shiftl (BATCH_SIZE + NUM_BINS) TIMESLOT_SHIFT_PER_PRIORITY.

(** ** bin.h *)
Record backlog_edge := { be_src : Z; be_dst : Z; be_backlog : Z; be_metric : Z }.

#[export] Instance backlog_edge_inhabited : Inhabited backlog_edge :=
  populate {| be_src := 0; be_dst := 0; be_backlog := 0; be_metric := 0 |}.

(** The edges of a bin; its size is the length. *)
Abbreviation bin := (list backlog_edge).

Definition init_bin (b : bin) : bin := [].
Definition is_empty_bin (b : bin) : bool := bool_decide (length b = 0%nat).
Definition bin_size (b : bin) : nat := length b.

(** [capacity] is the number of edges the bin was allocated for. *)
Definition enqueue_bin_edge (capacity : Z) (b : bin) (e : backlog_edge) : option bin :=
  if Z.of_nat (length b) <? capacity then Some (b ++ [e]) else None.

(** The parameters are 16-bit, except the metric. *)
Definition enqueue_bin (capacity : Z) (b : bin) (src dst backlog metric : Z) : option bin :=
  enqueue_bin_edge capacity b
    {| be_src := u16 src; be_dst := u16 dst; be_backlog := u16 backlog; be_metric := u32 metric |}.

(** ** batch.h: which nodes are still free in which timeslot of the batch *)
Record batch_state := {
  allowed_mask : Z;
  src_endnodes : list Z;
  dst_endnodes : list Z;
  out_of_boundary_counts : list Z;
}.

Definition MAX_SRCS : Z := MAX_NODES.
Definition MAX_DSTS : Z := MAX_NODES.

(** The state that [batch_state_init] sets up. *)
Definition initial_batch (st : batch_state) (out_of_boundary_capacity num_nodes : Z) : batch_state := {|
  allowed_mask := Z.shiftl 1 BATCH_SIZE - 1;
  src_endnodes := replicate (Z.to_nat num_nodes) (not64 0) ++ drop (Z.to_nat num_nodes) (src_endnodes st);
  dst_endnodes := arr_set
    (replicate (Z.to_nat num_nodes) (not64 0) ++ drop (Z.to_nat num_nodes) (dst_endnodes st))
    OUT_OF_BOUNDARY_NODE_ID (not64 0);
  out_of_boundary_counts := replicate (Z.to_nat BATCH_SIZE) (u16 out_of_boundary_capacity);
|}.

(** The assertions of batch.h fail as [None]. *)
Definition batch_state_init (st : batch_state) (out_of_boundary_capacity num_nodes : Z) : option batch_state :=
  if num_nodes <=? MAX_NODES then Some (initial_batch st out_of_boundary_capacity num_nodes) else None.

(** [endnode_bitmap] of [batch_state_get_avail_bitmap]. *)
Definition endnode_bitmap (st : batch_state) (src dst : Z) : Z :=
  Z.land (Z.land (allowed_mask st) (arr_get (src_endnodes st) src)) (arr_get (dst_endnodes st) dst).

Definition batch_state_get_avail_bitmap (st : batch_state) (src dst : Z) : option Z :=
  if (src <? MAX_SRCS) && (dst <? MAX_DSTS) then Some (endnode_bitmap st src dst) else None.

(** [-(b)] on a 64-bit word. *)
Definition mask_of (b : bool) : Z := if b then not64 0 else 0.

(** The updates of [batch_state_set_occupied_conditional]. *)
Definition occupied_batch (st : batch_state) (src dst timeslot set_bitmask : Z) : batch_state :=
  let is_out_of_boundary := mask_of (dst =? OUT_OF_BOUNDARY_NODE_ID) in
  let is_set := mask_of (negb (set_bitmask =? 0)) in
  let counts := arr_set (out_of_boundary_counts st) timeslot
    (u16 (arr_get (out_of_boundary_counts st) timeslot + Z.land is_out_of_boundary is_set)) in
  let flip_mask := Z.lor is_out_of_boundary (mask_of (arr_get counts timeslot =? 0)) in
  {| allowed_mask := allowed_mask st;
     src_endnodes := arr_set (src_endnodes st) src (Z.lxor (arr_get (src_endnodes st) src) set_bitmask);
     dst_endnodes := arr_set (dst_endnodes st) dst
       (Z.lxor (arr_get (dst_endnodes st) dst) (Z.land set_bitmask flip_mask));
     out_of_boundary_counts := counts |}.

Definition batch_state_set_occupied_conditional (st : batch_state) (src dst timeslot set_bitmask : Z) :
    option batch_state :=
  if (src <? MAX_SRCS) && (dst <? MAX_DSTS) && (timeslot <=? BATCH_SIZE)
  then Some (occupied_batch st src dst timeslot set_bitmask) else None.

Definition batch_state_disallow_lsb_timeslot (st : batch_state) : batch_state := {|
  allowed_mask := Z.land (shl64 (allowed_mask st) 1) (Z.shiftl 1 BATCH_SIZE - 1);
  src_endnodes := src_endnodes st; dst_endnodes := dst_endnodes st;
  out_of_boundary_counts := out_of_boundary_counts st |}.

(** ** admitted.h: the pairs admitted in one timeslot *)
Abbreviation admitted_traffic := (list (Z * Z)).

Definition init_admitted_traffic (a : admitted_traffic) : admitted_traffic := [].

Definition insert_admitted_edge (a : admitted_traffic) (src dst : Z) : option admitted_traffic :=
  if (Z.of_nat (length a) <? MAX_NODES) && (src <? MAX_NODES) && (dst <? MAX_NODES)
  then Some (a ++ [(src, dst)]) else None.

(** ** admissible_traffic.h *)

(** The x86 shift takes its count modulo 64; when the count is that large the
    result is overwritten below. *)
Definition bin_index_from_timeslot (last_allocated current_timeslot : Z) : Z :=
  let gap := u32 (u32 (current_timeslot + BATCH_SIZE) - u32 last_allocated) in
  if gap <=? NUM_BINS then u16 (NUM_BINS + BATCH_SIZE - 1 - gap)
  else
    let gap := u32 (gap - (NUM_BINS + 1)) in
    let group_ind := u16 (Z.shiftr gap BATCH_SHIFT) in
    let bin_gap := u16 (Z.shiftr (Z.lor (shl64 (not64 0) (BATCH_SHIFT + 1)) (Z.land gap (BATCH_SIZE - 1)))
                                 ((1 + group_ind) mod 64)) in
    let is_large_gap := b2z (group_ind >=? BATCH_SHIFT) in
    let bin_gap := Z.lor bin_gap (Z.shiftl 1 15 - is_large_gap) in
    u16 (BATCH_SIZE - 1 - Z.land bin_gap (BATCH_SIZE - 1)).

Definition new_metric_after_alloc (current_timeslot batch_timeslot : Z) : Z :=
  u32 (current_timeslot + batch_timeslot).

Definition bin_after_alloc (batch_timeslot : Z) : Z := NUM_BINS + batch_timeslot.

(** ** One allocation core (struct seq_admission_core_state)

    [BIN_MASK_SIZE] is 1: the masks are single words. *)
Record core_state := {
  new_request_bins : list bin;
  non_empty_bins : Z;
  allowed_bins : Z;
  bstate : batch_state;
  admitted : list admitted_traffic;
  out_bin : bin;
  spent_bin : bin;
  current_timeslot : Z;
}.

Definition set_new_request_bins v c := {| new_request_bins := v; non_empty_bins := non_empty_bins c;
  allowed_bins := allowed_bins c; bstate := bstate c; admitted := admitted c; out_bin := out_bin c;
  spent_bin := spent_bin c; current_timeslot := current_timeslot c |}.
Definition set_non_empty_bins v c := {| new_request_bins := new_request_bins c; non_empty_bins := v;
  allowed_bins := allowed_bins c; bstate := bstate c; admitted := admitted c; out_bin := out_bin c;
  spent_bin := spent_bin c; current_timeslot := current_timeslot c |}.
Definition set_allowed_bins v c := {| new_request_bins := new_request_bins c;
  non_empty_bins := non_empty_bins c; allowed_bins := v; bstate := bstate c; admitted := admitted c;
  out_bin := out_bin c; spent_bin := spent_bin c; current_timeslot := current_timeslot c |}.
Definition set_bstate v c := {| new_request_bins := new_request_bins c;
  non_empty_bins := non_empty_bins c; allowed_bins := allowed_bins c; bstate := v;
  admitted := admitted c; out_bin := out_bin c; spent_bin := spent_bin c;
  current_timeslot := current_timeslot c |}.
Definition set_admitted v c := {| new_request_bins := new_request_bins c;
  non_empty_bins := non_empty_bins c; allowed_bins := allowed_bins c; bstate := bstate c;
  admitted := v; out_bin := out_bin c; spent_bin := spent_bin c;
  current_timeslot := current_timeslot c |}.
Definition set_out_bin v c := {| new_request_bins := new_request_bins c;
  non_empty_bins := non_empty_bins c; allowed_bins := allowed_bins c; bstate := bstate c;
  admitted := admitted c; out_bin := v; spent_bin := spent_bin c;
  current_timeslot := current_timeslot c |}.
Definition set_spent_bin v c := {| new_request_bins := new_request_bins c;
  non_empty_bins := non_empty_bins c; allowed_bins := allowed_bins c; bstate := bstate c;
  admitted := admitted c; out_bin := out_bin c; spent_bin := v;
  current_timeslot := current_timeslot c |}.
Definition set_current_timeslot v c := {| new_request_bins := new_request_bins c;
  non_empty_bins := non_empty_bins c; allowed_bins := allowed_bins c; bstate := bstate c;
  admitted := admitted c; out_bin := out_bin c; spent_bin := spent_bin c; current_timeslot := v |}.

(** [alloc_core_reset]: ready for a new batch. The asserts on the output bins are
    checked. *)
Definition alloc_core_reset (out_of_boundary_capacity num_nodes : Z) (core : core_state) : option core_state :=
  bs ← batch_state_init (bstate core) out_of_boundary_capacity num_nodes;
  if is_empty_bin (out_bin core) && is_empty_bin (spent_bin core) then
    Some {| new_request_bins := init_bin <$> new_request_bins core; non_empty_bins := 0;
            allowed_bins := 1; bstate := bs;
            admitted := admitted core; out_bin := out_bin core; spent_bin := spent_bin core;
            current_timeslot := current_timeslot core |}
  else None.

(** [alloc_core_init] with the bins of a new core. *)
Definition alloc_core_init (st : batch_state) (timeslot : Z) : core_state := {|
  new_request_bins := replicate (Z.to_nat (NUM_BINS + BATCH_SIZE)) [];
  non_empty_bins := 0; allowed_bins := 0; bstate := st;
  admitted := replicate (Z.to_nat BATCH_SIZE) []; out_bin := []; spent_bin := [];
  current_timeslot := timeslot |}.

Definition set_bin_non_empty (bin_index : Z) (core : core_state) : core_state :=
  set_non_empty_bins (Z.lor (non_empty_bins core) (shl64 1 bin_index)) core.

#[export] Instance core_state_inhabited : Inhabited core_state :=
  populate (alloc_core_init {| allowed_mask := 0; src_endnodes := []; dst_endnodes := [];
                               out_of_boundary_counts := [] |} 0).

Section algo.
Context {R : Type} `{RingOps R bin}.

(** What a core works on: its state, the queue to the next core and the queue of
    spent demands. *)
Record run := { core : core_state; q_out : R; q_spent : R }.

Abbreviation A := (M False run).

Definition upd_core (f : core_state → core_state) : A unit := modify (λ r,
  {| core := f (core r); q_out := q_out r; q_spent := q_spent r |}).

(** *** Output bins *)
Definition core_flush_q_spent : A unit :=
  r ← get;
  q ← deref (r_enqueue (spent_bin (core r)) (q_spent r));
  put {| core := set_spent_bin (init_bin (spent_bin (core r))) (core r); q_out := q_out r; q_spent := q |}.

Definition core_enqueue_to_q_spent (src dst metric : Z) : A unit :=
  r ← get;
  b ← deref (enqueue_bin (Z.of_nat SMALL_BIN_SIZE) (spent_bin (core r)) src dst 0 metric);
  upd_core (set_spent_bin b);;
  when (bool_decide (bin_size b = SMALL_BIN_SIZE)) core_flush_q_spent.

Definition core_flush_q_out : A unit :=
  r ← get;
  q ← deref (r_enqueue (out_bin (core r)) (q_out r));
  put {| core := set_out_bin (init_bin (out_bin (core r))) (core r); q_out := q; q_spent := q_spent r |}.

Definition core_enqueue_to_q_out_edge (e : backlog_edge) : A unit :=
  r ← get;
  b ← deref (enqueue_bin_edge (Z.of_nat SMALL_BIN_SIZE) (out_bin (core r)) e);
  upd_core (set_out_bin b);;
  when (bool_decide (bin_size b = SMALL_BIN_SIZE)) core_flush_q_out.

Definition core_enqueue_to_q_out (src dst backlog metric : Z) : A unit :=
  core_enqueue_to_q_out_edge
    {| be_src := u16 src; be_dst := u16 dst; be_backlog := u16 backlog; be_metric := u32 metric |}.

(** *** Incoming demands *)
Definition enqueue_to_bin (bin_index : Z) (e : backlog_edge) : A unit :=
  r ← get;
  b ← deref (enqueue_bin_edge LARGE_BIN_SIZE (arr_get (new_request_bins (core r)) bin_index) e);
  upd_core (set_new_request_bins (arr_set (new_request_bins (core r)) bin_index b));;
  upd_core (set_bin_non_empty bin_index).

Fixpoint incoming_bin_to_core (b : bin) : A unit :=
  match b with
  | [] => mret tt
  | e :: b' =>
      r ← get;
      enqueue_to_bin (bin_index_from_timeslot (be_metric e) (current_timeslot (core r))) e;;
      incoming_bin_to_core b'
  end.

(** *** Allocation *)

(** Returns true if the caller should handle the backlog. *)
Definition try_allocation (src dst backlog metric : Z) : A bool :=
  r ← get;
  let c := core r in
  timeslot_bitmap ← deref (batch_state_get_avail_bitmap (bstate c) src dst);
  if timeslot_bitmap =? 0 then mret true
  else
    let batch_timeslot := Z.land (__ffs timeslot_bitmap) (Z.shiftl 1 BATCH_SHIFT - 1) in
    let set_bit := Z.land timeslot_bitmap (u64 (- timeslot_bitmap)) in
    let backlog := u16 (backlog - 1) in
    bs ← deref (batch_state_set_occupied_conditional (bstate c) src dst batch_timeslot set_bit);
    upd_core (set_bstate bs);;
    let metric := new_metric_after_alloc (current_timeslot c) batch_timeslot in
    a ← deref (insert_admitted_edge (arr_get (admitted c) batch_timeslot) src dst);
    upd_core (set_admitted (arr_set (admitted c) batch_timeslot a));;
    (if negb (backlog =? 0) then
       enqueue_to_bin (bin_after_alloc batch_timeslot)
         {| be_src := src; be_dst := dst; be_backlog := backlog; be_metric := metric |}
     else core_enqueue_to_q_spent src dst metric);;
    mret false.

(** The loop of [try_allocation_bin] over the edges the bin held at the start. *)
Fixpoint try_allocation_edges (edges : bin) : A unit :=
  match edges with
  | [] => mret tt
  | e :: rest =>
      rc ← try_allocation (be_src e) (be_dst e) (be_backlog e) (be_metric e);
      when rc (core_enqueue_to_q_out (be_src e) (be_dst e) (be_backlog e) (be_metric e));;
      try_allocation_edges rest
  end.

Definition try_allocation_bin (bin_index : Z) : A unit :=
  r ← get;
  try_allocation_edges (arr_get (new_request_bins (core r)) bin_index).

(** The [while (mask)] loop of [try_allocation_core]. *)
Fixpoint try_allocation_loop (fuel : nat) : A unit :=
  r ← get;
  let mask := Z.land (non_empty_bins (core r)) (allowed_bins (core r)) in
  if mask =? 0 then mret tt
  else match fuel with
  | O => ub
  | S fuel' =>
      let bin_index := __ffs mask in
      upd_core (set_non_empty_bins
        (Z.lxor (non_empty_bins (core r)) (Z.land mask (u64 (- mask)))));;
      try_allocation_bin bin_index;;
      upd_core (λ c, set_new_request_bins
        (arr_set (new_request_bins c) bin_index (init_bin (arr_get (new_request_bins c) bin_index))) c);;
      try_allocation_loop fuel'
  end.

(** *** End of a batch *)
Fixpoint move_bin_to_q_out (b : bin) : A unit :=
  match b with
  | [] => mret tt
  | e :: b' => core_enqueue_to_q_out_edge e;; move_bin_to_q_out b'
  end.

(** [while (mask)] with [mask &= (mask - 1)]; a mask has 64 bits. *)
Fixpoint move_core_loop (fuel : nat) (mask : Z) : A unit :=
  if mask =? 0 then mret tt
  else match fuel with
  | O => ub
  | S fuel' =>
      r ← get;
      move_bin_to_q_out (arr_get (new_request_bins (core r)) (__ffs mask));;
      move_core_loop fuel' (Z.land mask (u64 (mask - 1)))
  end.

Definition move_core_to_q_out : A unit :=
  r ← get; move_core_loop 64 (non_empty_bins (core r)).

Definition wrap_up_flush : A unit :=
  move_core_to_q_out;;
  r ← get;
  when (negb (is_empty_bin (out_bin (core r)))) core_flush_q_out;;
  r ← get;
  when (negb (is_empty_bin (spent_bin (core r)))) core_flush_q_spent.

(** ** The communication core's side (struct seq_admissible_status)

    Indices of a source-destination pair. *)
Definition get_status_index (src dst : Z) : Z := u32 (Z.shiftl src FP_NODES_SHIFT + dst).

Record demand := {
  last_alloc_tslot : list Z;
  backlog_n : list Z;
  is_active : list Z;
  new_demands : bin;
  q_head : R;
}.

Definition set_last_alloc_tslot v d := {| last_alloc_tslot := v; backlog_n := backlog_n d;
  is_active := is_active d; new_demands := new_demands d; q_head := q_head d |}.
Definition set_backlog_n v d := {| last_alloc_tslot := last_alloc_tslot d; backlog_n := v;
  is_active := is_active d; new_demands := new_demands d; q_head := q_head d |}.
Definition set_is_active v d := {| last_alloc_tslot := last_alloc_tslot d; backlog_n := backlog_n d;
  is_active := v; new_demands := new_demands d; q_head := q_head d |}.
Definition set_new_demands v d := {| last_alloc_tslot := last_alloc_tslot d; backlog_n := backlog_n d;
  is_active := is_active d; new_demands := v; q_head := q_head d |}.
Definition set_q_head v d := {| last_alloc_tslot := last_alloc_tslot d; backlog_n := backlog_n d;
  is_active := is_active d; new_demands := new_demands d; q_head := v |}.

Abbreviation D := (M False demand).

(** [seq_reset_admissible_status] (without oversubscription). *)
Definition seq_reset_admissible_status (d : demand) : demand := {|
  last_alloc_tslot := replicate (Z.to_nat LARGE_BIN_SIZE) 0;
  backlog_n := replicate (Z.to_nat LARGE_BIN_SIZE) 0;
  is_active := replicate (Z.to_nat (LARGE_BIN_SIZE / 64)) 0;
  new_demands := new_demands d; q_head := q_head d |}.

Definition backlog_get (d : demand) (src dst : Z) : Z := arr_get (backlog_n d) (get_status_index src dst).

Definition backlog_non_active (src dst : Z) : D unit :=
  modify (λ d, set_is_active (__clear_bit (get_status_index src dst) (is_active d)) d).

Definition backlog_reset_pair (src dst : Z) : D unit :=
  modify (λ d, set_backlog_n (arr_set (backlog_n d) (get_status_index src dst) 0) d).

(** Returns whether the flow was inactive. *)
Definition backlog_increase (src dst amount : Z) : D bool :=
  if amount =? 0 then ub
  else
    d ← get;
    let index := get_status_index src dst in
    let was_set := negb (test_bit index (is_active d) =? 0) in
    put (set_is_active (__set_bit index (is_active d)) d);;
    if was_set then
      modify (λ d, set_backlog_n (arr_set (backlog_n d) index (u32 (arr_get (backlog_n d) index + amount))) d);;
      mret false
    else if arr_get (backlog_n d) index =? 0 then mret true else ub.

Definition _flush_backlog_now : D unit :=
  d ← get;
  q ← deref (r_enqueue (new_demands d) (q_head d));
  put (set_new_demands (init_bin (new_demands d)) (set_q_head q d)).

Definition seq_flush_backlog : D unit :=
  d ← get;
  if is_empty_bin (new_demands d) then mret tt else _flush_backlog_now.

Definition enqueue_new_demand (src dst amount : Z) : D unit :=
  d ← get;
  b ← deref (enqueue_bin (Z.of_nat SMALL_BIN_SIZE) (new_demands d) src dst amount
               (arr_get (last_alloc_tslot d) (get_status_index src dst)));
  put (set_new_demands b d);;
  when (bool_decide (bin_size b = SMALL_BIN_SIZE)) _flush_backlog_now.

Definition seq_add_backlog (src dst amount : Z) : D unit :=
  was_zero ← backlog_increase src dst amount;
  if (was_zero : bool) then enqueue_new_demand src dst amount else mret tt.

(** One entry of a spent bin. *)
Definition handle_spent_edge (e : backlog_edge) : D unit :=
  d ← get;
  let backlog := backlog_get d (be_src e) (be_dst e) in
  if backlog =? 0 then
    modify (λ d, set_last_alloc_tslot
      (arr_set (last_alloc_tslot d) (get_status_index (be_src e) (be_dst e)) (be_metric e)) d);;
    backlog_non_active (be_src e) (be_dst e)
  else
    backlog_reset_pair (be_src e) (be_dst e);;
    enqueue_new_demand (be_src e) (be_dst e) backlog.

Fixpoint handle_spent_edges (b : bin) : D unit :=
  match b with
  | [] => mret tt
  | e :: b' => handle_spent_edge e;; handle_spent_edges b'
  end.

(** [seq_handle_spent], on the bins taken from the ring of spent demands. *)
Fixpoint handle_spent_bins (bs : list bin) : D unit :=
  match bs with
  | [] => mret tt
  | b :: bs' => handle_spent_edges b;; handle_spent_bins bs'
  end.

Definition seq_handle_spent (q : R) : D R :=
  let '(bs, q) := r_dequeue_burst SPENT_RING_DEQUEUE_SIZE q in
  handle_spent_bins bs;; mret q.

Fixpoint reset_pairs (n : nat) (src dst : Z) : D unit :=
  match n with
  | O => mret tt
  | S n' => backlog_reset_pair src dst;; reset_pairs n' src (dst + 1)
  end.

Definition seq_reset_sender (src : Z) : D unit := reset_pairs (Z.to_nat MAX_NODES) src 0.
End algo.

#[global] Arguments run : clear implicits.
#[global] Arguments demand : clear implicits.

(** ** A core's main loop *)
Section main_loop.
Context {R RA : Type} `{RingOps R bin} `{RingOps RA admitted_traffic}.
(** ALGO_N_CORES *)
Context (n_cores : nat).

Record status := {
  out_of_boundary_capacity : Z;
  num_nodes : Z;
  dem : demand R;
  st_q_spent : R;
  q_admitted_out : RA;
  cores : list core_state;
  q_bin : list R;
}.

Definition set_dem v st := {| out_of_boundary_capacity := out_of_boundary_capacity st;
  num_nodes := num_nodes st; dem := v; st_q_spent := st_q_spent st;
  q_admitted_out := q_admitted_out st; cores := cores st; q_bin := q_bin st |}.
Definition set_q_admitted_out v st := {| out_of_boundary_capacity := out_of_boundary_capacity st;
  num_nodes := num_nodes st; dem := dem st; st_q_spent := st_q_spent st;
  q_admitted_out := v; cores := cores st; q_bin := q_bin st |}.
Definition set_cores v st := {| out_of_boundary_capacity := out_of_boundary_capacity st;
  num_nodes := num_nodes st; dem := dem st; st_q_spent := st_q_spent st;
  q_admitted_out := q_admitted_out st; cores := v; q_bin := q_bin st |}.
Definition set_q_bin v st := {| out_of_boundary_capacity := out_of_boundary_capacity st;
  num_nodes := num_nodes st; dem := dem st; st_q_spent := st_q_spent st;
  q_admitted_out := q_admitted_out st; cores := cores st; q_bin := v |}.
Definition set_st_q_spent v st := {| out_of_boundary_capacity := out_of_boundary_capacity st;
  num_nodes := num_nodes st; dem := dem st; st_q_spent := v;
  q_admitted_out := q_admitted_out st; cores := cores st; q_bin := q_bin st |}.

Abbreviation S_ := (M False status).

Context `{!Inhabited R}.
Context (core_index : nat).

Definition core_at (st : status) : core_state :=
  cores st !!! core_index.

Definition next_core : nat := (S core_index mod n_cores)%nat.

(** The part of the status that the core's own procedures use. *)
Definition get_run (st : status) : run R :=
  {| core := core_at st; q_out := q_bin st !!! next_core; q_spent := st_q_spent st |}.
Definition put_run (r : run R) (st : status) : status :=
  set_st_q_spent (q_spent r) (set_q_bin (<[next_core := q_out r]> (q_bin st))
    (set_cores (<[core_index := core r]> (cores st)) st)).

Definition on_run {A} (m : M False (run R) A) : S_ A := zoom get_run put_run m.

(** [process_new_requests]; returns the number of entries. *)
Fixpoint incoming_bins (bs : list bin) : S_ Z :=
  match bs with
  | [] => mret 0
  | b :: bs' =>
      on_run (incoming_bin_to_core b);;
      n ← incoming_bins bs';
      mret (Z.of_nat (bin_size b) + n)
  end.

Definition process_new_requests : S_ Z :=
  st ← get;
  let '(bs, q) := r_dequeue_burst RING_DEQUEUE_BURST_SIZE (q_head (dem st)) in
  put (set_dem (set_q_head q (dem st)) st);;
  incoming_bins bs.

Definition burst_q_in_to_q_out : S_ unit :=
  st ← get;
  let '(bs, q) := r_dequeue_burst Q_IN_Q_OUT_BURST_SIZE (q_bin st !!! core_index) in
  put (set_q_bin (<[core_index := q]> (q_bin st)) st);;
  match bs with
  | [] => mret tt
  | _ =>
      st ← get;
      q ← deref (r_enqueue_bulk bs (q_bin st !!! next_core));
      put (set_q_bin (<[next_core := q]> (q_bin st)) st)
  end.

(** The local variables of the loop. *)
Record locals := {
  prev_timeslot : Z;
  should_process_new_req : bool;
  processed_bins : Z;
  admitted_bins : Z;
  n_processed : Z;
}.

(** [for (bin = admitted_bins; bin < admit_gap; bin++)]: [k] timeslots from [bin]. *)
Fixpoint send_admitted (k : nat) (bin : Z) : S_ unit :=
  match k with
  | O => mret tt
  | S k' =>
      st ← get;
      q ← deref (r_enqueue (arr_get (admitted (core_at st)) bin) (q_admitted_out st));
      put (set_q_admitted_out q st);;
      on_run (upd_core (λ c, set_bstate (batch_state_disallow_lsb_timeslot (bstate c)) c));;
      send_admitted k' (bin + 1)
  end.

(** [for (bin = processed_bins; bin < new_processed_bins; bin++)] bts. *)
Fixpoint allow_bins (k : nat) (bin : Z) (mask : Z) : Z :=
  match k with
  | O => mask
  | S k' => allow_bins k' (bin + 1) (Z.lor mask (shl64 1 bin))
  end.

Definition MAX_DEMANDS_PER_BATCH : Z := MAX_NODES * BATCH_SIZE * Z.of_nat n_cores.

(** The part of an iteration that a new timeslot triggers: [None] for the jump to
    [wrap_up], else the updated locals. *)
Definition new_timeslot (first_timeslot now : Z) (v : locals) : S_ (option locals) :=
  let should := (u64 (first_timeslot - now) >? URGENT_NUM_TIMESLOTS_END)
                && (u64 (first_timeslot - now) <=? URGENT_NUM_TIMESLOTS_START) in
  let admit_gap := s64 (now - first_timeslot + 1) in
  admitted_bins' ←
    (if admit_gap <=? 0 then mret (admitted_bins v)
     else
       let admit_gap := Z.min admit_gap BATCH_SIZE in
       send_admitted (Z.to_nat (admit_gap - admitted_bins v)) (admitted_bins v);;
       mret admit_gap);
  if (0 <? admit_gap) && (admitted_bins' =? BATCH_SIZE) then mret None
  else
    let slot_gap := s64 (now - (first_timeslot + BATCH_SIZE - 1) + TIMESLOTS_START_BEFORE) in
    if slot_gap <? 0 then
      mret (Some {| prev_timeslot := now; should_process_new_req := should;
                    processed_bins := processed_bins v; admitted_bins := admitted_bins';
                    n_processed := n_processed v |})
    else
      let new_processed_bins :=
        if slot_gap >? TIMESLOTS_START_BEFORE then BATCH_SIZE + NUM_BINS
        else Z.shiftr slot_gap TIMESLOT_SHIFT_PER_PRIORITY in
      on_run (upd_core (λ c, set_allowed_bins
        (allow_bins (Z.to_nat (new_processed_bins - processed_bins v)) (processed_bins v) (allowed_bins c)) c));;
      mret (Some {| prev_timeslot := now; should_process_new_req := should;
                    processed_bins := new_processed_bins; admitted_bins := admitted_bins';
                    n_processed := n_processed v |}).

(** [handle_inputs] and [try_alloc]; returns the new [n_processed]. *)
Definition handle_inputs (alloc_fuel : nat) (v : locals) : S_ Z :=
  n ← (if n_processed v >=? MAX_DEMANDS_PER_BATCH then
         burst_q_in_to_q_out;; mret (n_processed v)
       else
         n ← (if should_process_new_req v then process_new_requests else mret 0);
         st ← get;
         match r_dequeue (q_bin st !!! core_index) with
         | Some (b, q) =>
             put (set_q_bin (<[core_index := q]> (q_bin st)) st);;
             on_run (incoming_bin_to_core b);;
             mret (n_processed v + n + Z.of_nat (bin_size b))
         | None => mret (n_processed v + n)
         end);
  on_run (try_allocation_loop alloc_fuel);;
  mret n.

(** The loop: one clock reading per iteration. *)
Fixpoint main_loop (alloc_fuel : nat) (first_timeslot : Z) (clock : list Z) (v : locals) : S_ unit :=
  match clock with
  | [] => ub
  | now :: clock' =>
      o ← (if now =? prev_timeslot v then mret (Some v) else new_timeslot first_timeslot now v);
      match o with
      | None => mret tt
      | Some v =>
          n ← handle_inputs alloc_fuel v;
          main_loop alloc_fuel first_timeslot clock'
            {| prev_timeslot := prev_timeslot v; should_process_new_req := should_process_new_req v;
               processed_bins := processed_bins v; admitted_bins := admitted_bins v; n_processed := n |}
      end
  end.

(** While no [admitted_traffic] buffers are free the core takes requests. *)
Fixpoint wait_for_admitted (fails : nat) (n : Z) : S_ Z :=
  match fails with
  | O => mret n
  | S fails' => k ← process_new_requests; wait_for_admitted fails' (n + k)
  end.

(** [clock] are the successive readings of the current timeslot (the monotonic
    clock scaled by [tslot_mul] and [tslot_shift]), the first one on entry;
    [alloc_fails] is how often the buffer pool was empty. *)
Definition seq_get_admissible_traffic (alloc_fuel alloc_fails : nat) (first_timeslot : Z) (clock : list Z) : S_ unit :=
  match clock with
  | [] => ub
  | now0 :: clock' =>
      st ← get;
      c ← deref (alloc_core_reset (out_of_boundary_capacity st) (num_nodes st) (core_at st));
      on_run (upd_core (λ _, c));;
      n ← wait_for_admitted alloc_fails 0;
      on_run (upd_core (λ c, set_admitted (init_admitted_traffic <$> admitted c) c));;
      main_loop alloc_fuel first_timeslot clock'
        {| prev_timeslot := u64 (now0 - 1); should_process_new_req := false; processed_bins := 0;
           admitted_bins := 0; n_processed := n |};;
      on_run wrap_up_flush;;
      burst_q_in_to_q_out;;
      on_run (upd_core (λ c, set_current_timeslot
        (u64 (current_timeslot c + Z.of_nat n_cores * BATCH_SIZE)) c))
  end.
End main_loop.
