(* ===== verification/AdmissionFacts.v ===== *)
(** * Facts about the admission structures

    The weight of the bins of a core, the bin index of a flow, and the effect of an
    allocation on the bitmaps of free timeslots. *)

From S2P Require Import Prelude Platform Lists Pacer Ring Admission.

(** The backlog that a bin holds for a flow. *)
Definition flow : Type := Z * Z.
Definition key (e : backlog_edge) : flow := (be_src e, be_dst e).
Definition amount (f : flow) (e : backlog_edge) : Z := if decide (key e = f) then be_backlog e else 0.
Definition flow_sum (f : flow) (b : bin) : Z := sum_of (amount f) b.
Definition flow_count (f : flow) (a : admitted_traffic) : Z := sum_of (λ p, if decide (p = f) then 1 else 0) a.

(** ** The bin of a flow *)

(** The bin of a flow that was last allocated [gap] timeslots before the end of
    the batch. The 16-bit group number makes it periodic in the gap. *)
Definition bin_of_gap (gap : Z) : Z :=
  if bool_decide (gap ≤ 32) then 47 - gap
  else let g := (gap - 33) mod 2 ^ 20 in
    if bool_decide (g < 16) then 15 - g / 2
    else if bool_decide (g < 32) then 15 - (8 + (g - 16) / 4)
    else if bool_decide (g < 48) then 15 - (12 + (g - 32) / 8)
    else if bool_decide (g < 64) then 1
    else 0.

(** The folding of the older flows, as the code computes it. *)
Definition fold_gap (g : Z) : Z :=
  let group_ind := u16 (Z.shiftr g BATCH_SHIFT) in
  let bin_gap := u16 (Z.shiftr (Z.lor (shl64 (not64 0) (BATCH_SHIFT + 1)) (Z.land g (BATCH_SIZE - 1)))
                               ((1 + group_ind) mod 64)) in
  let bin_gap := Z.lor bin_gap (Z.shiftl 1 15 - b2z (group_ind >=? BATCH_SHIFT)) in
  u16 (BATCH_SIZE - 1 - Z.land bin_gap (BATCH_SIZE - 1)).

Lemma fold_gap_periodic g : 0 ≤ g → fold_gap g = fold_gap (g mod 2 ^ 20).
Proof.
  intros Hg. unfold fold_gap.
  replace (Z.land (g mod 2 ^ 20) (BATCH_SIZE - 1)) with (Z.land g (BATCH_SIZE - 1)).
  2:{ change (BATCH_SIZE - 1) with (Z.ones 4). rewrite !Z.land_ones by lia. zify_div; lia. }
  replace (u16 (Z.shiftr (g mod 2 ^ 20) BATCH_SHIFT)) with (u16 (Z.shiftr g BATCH_SHIFT)); [done|].
  unfold BATCH_SHIFT. rewrite !Z.shiftr_div_pow2 by lia. mlia.
Qed.

Lemma fold_gap_large g : 64 ≤ g < 2 ^ 20 → fold_gap g = 0.
Proof.
  intros Hg. unfold fold_gap. cbv zeta. set (gi := u16 (Z.shiftr g BATCH_SHIFT)).
  assert (4 ≤ gi) as Hgi.
  { unfold gi, BATCH_SHIFT. rewrite Z.shiftr_div_pow2 by lia. mlia. }
  rewrite Z.geb_leb, (proj2 (Z.leb_le _ _)) by exact Hgi.
  set (x := u16 (Z.shiftr _ _)). change (Z.shiftl 1 15 - b2z true) with (Z.ones 15).
  replace (Z.land (Z.lor x (Z.ones 15)) (BATCH_SIZE - 1)) with 15; [done|].
  change (BATCH_SIZE - 1) with (Z.ones 4). change 15 with (Z.ones 4) at 1. symmetry.
  apply Z.bits_inj'. intros i Hi. rewrite Z.land_spec, Z.lor_spec.
  destruct (decide (i < 4)).
  - by rewrite !Z.ones_spec_low, orb_true_r by lia.
  - by rewrite (Z.ones_spec_high 4), andb_false_r by lia.
Qed.

Lemma fold_gap_small g :
  0 ≤ g < 64 → fold_gap g =
    if bool_decide (g < 16) then 15 - g / 2
    else if bool_decide (g < 32) then 15 - (8 + (g - 16) / 4)
    else if bool_decide (g < 48) then 15 - (12 + (g - 32) / 8)
    else if bool_decide (g < 64) then 1 else 0.
Proof.
  intros Hg. set (rhs := λ g, if bool_decide (g < 16) then 15 - g / 2
      else if bool_decide (g < 32) then 15 - (8 + (g - 16) / 4)
      else if bool_decide (g < 48) then 15 - (12 + (g - 32) / 8)
      else if bool_decide (g < 64) then 1 else 0).
  change (fold_gap g = rhs g).
  assert (forallb (λ g, bool_decide (fold_gap g = rhs g)) (seqZ 0 64) = true) as Hall by (vm_compute; reflexivity).
  rewrite forallb_forall in Hall. apply (bool_decide_eq_true_1 (fold_gap g = rhs g)), Hall.
  apply list_elem_of_In, elem_of_seqZ. lia.
Qed.

Lemma bin_index_spec last cur :
  bin_index_from_timeslot last cur = bin_of_gap (u32 (u32 (cur + BATCH_SIZE) - u32 last)).
Proof.
  unfold bin_index_from_timeslot, bin_of_gap.
  pose proof (u32_range (u32 (cur + BATCH_SIZE) - u32 last)) as Hr.
  set (gap := u32 (u32 (cur + BATCH_SIZE) - u32 last)) in *. clearbody gap.
  change NUM_BINS with 32. change BATCH_SIZE with 16 at 1.
  destruct (Z.leb_spec gap 32) as [Hg|Hg].
  { rewrite bool_decide_eq_true_2 by done. rewrite u16_small by lia. lia. }
  rewrite bool_decide_eq_false_2 by lia. cbv zeta.
  rewrite (u32_small (gap - (32 + 1))) by lia. replace (gap - (32 + 1)) with (gap - 33) by lia.
  fold (fold_gap (gap - 33)). rewrite fold_gap_periodic by lia.
  set (g := (gap - 33) mod 2 ^ 20). assert (0 ≤ g < 2 ^ 20) as Hg' by (unfold g; zify_div; lia).
  destruct (decide (g < 64)); [by apply fold_gap_small; lia|].
  by rewrite fold_gap_large, !bool_decide_eq_false_2 by lia.
Qed.

Lemma bin_of_gap_range gap : 0 ≤ gap < 2 ^ 32 → 0 ≤ bin_of_gap gap ≤ 47.
Proof.
  intros Hg. unfold bin_of_gap. repeat case_bool_decide; cbv zeta in *; zify_div; lia.
Qed.

(** Within 2^20 timeslots, a longer wait never moves a flow to a later bin. *)
Lemma bin_of_gap_antitone g1 g2 :
  0 ≤ g1 ≤ g2 → g2 < 2 ^ 20 + 33 → bin_of_gap g2 ≤ bin_of_gap g1.
Proof.
  intros H12 H2. unfold bin_of_gap. cbv zeta.
  assert (∀ g, 32 < g < 2 ^ 20 + 33 → (g - 33) mod 2 ^ 20 = g - 33) as Hmod by (intros; apply Z.mod_small; lia).
  destruct (bool_decide_reflect (g1 ≤ 32)), (bool_decide_reflect (g2 ≤ 32)); rewrite ?Hmod by lia;
    repeat case_bool_decide; zify_div; lia.
Qed.

(** ** The bitmaps of a batch *)
Definition src_free (st : batch_state) (s t : Z) : bool := Z.testbit (arr_get (src_endnodes st) s) t.
Definition dst_free (st : batch_state) (d t : Z) : bool := Z.testbit (arr_get (dst_endnodes st) d) t.

Record batch_ok (st : batch_state) : Prop := {
  bo_src : length (src_endnodes st) = 256%nat;
  bo_dst : length (dst_endnodes st) = 256%nat;
  bo_counts : length (out_of_boundary_counts st) = 16%nat;
  bo_src_range : Forall (λ w, 0 ≤ w < 2 ^ 64) (src_endnodes st);
  bo_dst_range : Forall (λ w, 0 ≤ w < 2 ^ 64) (dst_endnodes st);
  bo_allowed : 0 ≤ allowed_mask st < 2 ^ 16;
}.

Section avail.
Context (st : batch_state) (s d : Z).
Context (Hst : batch_ok st) (Hs : 0 ≤ s < 256) (Hd : 0 ≤ d < 256).

Lemma src_word : 0 ≤ arr_get (src_endnodes st) s < 2 ^ 64.
Proof using Hst Hs.
  clear Hd. apply (arr_get_Forall (λ w, 0 ≤ w < 2 ^ 64)); [apply Hst|]. rewrite (bo_src _ Hst). lia.
Qed.

Lemma dst_word : 0 ≤ arr_get (dst_endnodes st) d < 2 ^ 64.
Proof using Hst Hd.
  clear Hs. apply (arr_get_Forall (λ w, 0 ≤ w < 2 ^ 64)); [apply Hst|]. rewrite (bo_dst _ Hst). lia.
Qed.

Lemma avail_range : 0 ≤ endnode_bitmap st s d < 2 ^ 16.
Proof using Hst Hs Hd.
  unfold endnode_bitmap. pose proof src_word. pose proof dst_word.
  apply land_range; [|lia|lia]. apply land_range; [apply Hst|lia|lia].
Qed.

Lemma avail_bit t : Z.testbit (endnode_bitmap st s d) t = true →
  src_free st s t = true ∧ dst_free st d t = true ∧ Z.testbit (allowed_mask st) t = true.
Proof using Type.
  clear Hst Hs Hd. unfold endnode_bitmap, src_free, dst_free. rewrite !Z.land_spec, !andb_true_iff. naive_solver.
Qed.

(** The first free timeslot, as the code computes it. *)
Lemma first_timeslot_spec :
  let bm := endnode_bitmap st s d in
  bm ≠ 0 →
  let t := Z.land (__ffs bm) (Z.shiftl 1 BATCH_SHIFT - 1) in
  0 ≤ t < 16 ∧ Z.land bm (u64 (- bm)) = 2 ^ t ∧ src_free st s t = true ∧ dst_free st d t = true ∧
  Z.testbit (allowed_mask st) t = true ∧
  (∀ t', t' < t → Z.testbit bm t' = false).
Proof using Hst Hs Hd.
  intros bm Hne t. pose proof avail_range as Hr. fold bm in Hr.
  destruct (ffs_spec bm 16 Hr Hne) as (Hf & Hb & Hlow).
  assert (t = __ffs bm) as Et.
  { unfold t. change (Z.shiftl 1 BATCH_SHIFT - 1) with (Z.ones 4). rewrite Z.land_ones by lia.
    apply Z.mod_small. lia. }
  rewrite Et. clear t Et. destruct (avail_bit _ Hb) as (? & ? & ?). split_and!; try done; try lia.
  apply (land_neg_ffs 16); (done || lia).
Qed.
End avail.

(** Occupying a timeslot that is free at the source. *)
Section occupy.
Context (st : batch_state) (s d t : Z).
Context (Hst : batch_ok st) (Hs : 0 ≤ s < 256) (Hd : 0 ≤ d < 256) (Ht : 0 ≤ t < 16).
Context (Hfree : src_free st s t = true) (Hdfree : dst_free st d t = true).
Let st' : batch_state := occupied_batch st s d t (2 ^ t).

Lemma pow_t : 0 < 2 ^ t < 2 ^ 64.
Proof using Ht.
  clear st' Hfree Hdfree Hs Hd Hst. split; [apply Z.pow_pos_nonneg; lia|apply Z.pow_lt_mono_r; lia].
Qed.

Lemma occupy_src_free s' t' :
  0 ≤ s' < 256 → 0 ≤ t' → src_free st' s' t' = src_free st s' t' && negb (bool_decide (s' = s ∧ t' = t)).
Proof using All.
  intros Hs' Ht'. unfold src_free, st'. cbn [occupied_batch src_endnodes].
  rewrite arr_get_set by (rewrite ?(bo_src _ Hst); lia). case_decide as E.
  - subst s'. rewrite lxor_clear by (done || lia). f_equal. rewrite <- bool_decide_not.
    apply bool_decide_ext. naive_solver.
  - rewrite (bool_decide_eq_false_2 (s' = s ∧ t' = t)), andb_true_r by naive_solver. done.
Qed.

(** The destination's word loses bit [t] or stays. *)
Lemma flip_cases m : m = 0 ∨ m = not64 0 → Z.land (2 ^ t) m = 0 ∨ Z.land (2 ^ t) m = 2 ^ t.
Proof using Ht.
  pose proof pow_t. intros [-> | ->]; [left; apply Z.land_0_r|right].
  change (not64 0) with (Z.ones 64). rewrite Z.land_ones by lia. apply Z.mod_small. lia.
Qed.

Lemma occupy_dst_word : ∃ w, dst_endnodes st' = arr_set (dst_endnodes st) d w ∧ 0 ≤ w < 2 ^ 64 ∧
  (∀ i, Z.testbit w i = true → Z.testbit (arr_get (dst_endnodes st) d) i = true).
Proof using All.
  unfold st'. cbn [occupied_batch dst_endnodes]. eexists. split; [done|].
  pose proof (dst_word st d Hst Hd) as Hw. set (m := Z.lor _ _).
  assert (m = 0 ∨ m = not64 0) as Hm by (unfold m, mask_of; repeat destruct (_ =? _); simpl; auto).
  pose proof pow_t. destruct (flip_cases m Hm) as [-> | ->].
  - rewrite Z.lxor_0_r. done.
  - split; [apply lxor_range; lia|]. intros i. rewrite lxor_clear by (done || lia). by intros [? _]%andb_true_iff.
Qed.

Lemma occupy_ok : batch_ok st'.
Proof using Hst Hs Hd Ht Hfree Hdfree.
  destruct occupy_dst_word as (w & Ew & Hw & _). pose proof (src_word st s Hst Hs). pose proof pow_t.
  destruct Hst. constructor; try done; rewrite ?Ew; unfold st';
    cbn [occupied_batch src_endnodes out_of_boundary_counts]; rewrite ?length_arr_set; try done.
  - apply arr_set_Forall; [done|]. apply lxor_range; lia.
  - by apply arr_set_Forall.
Qed.

(** A destination inside the boundary is marked exactly when the boundary count
    of the timeslot is zero. *)
Lemma occupy_dst_free :
  d ≠ OUT_OF_BOUNDARY_NODE_ID → arr_get (out_of_boundary_counts st) t = 0 →
  out_of_boundary_counts st' = out_of_boundary_counts st ∧
  ∀ d' t', 0 ≤ d' < 256 → 0 ≤ t' →
    dst_free st' d' t' = dst_free st d' t' && negb (bool_decide (d' = d ∧ t' = t)).
Proof using All.
  intros Hne Hc. unfold dst_free, st'. cbn [occupied_batch dst_endnodes out_of_boundary_counts].
  rewrite (proj2 (Z.eqb_neq _ _) Hne). cbn [mask_of]. rewrite Z.land_0_l, Z.add_0_r, Hc. change (u16 0) with 0.
  rewrite (arr_get_set _ t t) by (rewrite ?(bo_counts _ Hst); lia). rewrite decide_True by done.
  rewrite Z.lor_0_l. cbn [mask_of Z.eqb]. pose proof pow_t.
  replace (Z.land (2 ^ t) (not64 0)) with (2 ^ t).
  2:{ change (not64 0) with (Z.ones 64). rewrite Z.land_ones by lia. symmetry. apply Z.mod_small. lia. }
  split.
  - apply list_eq. intros i. unfold arr_set. destruct (decide (i = Z.to_nat t)) as [->|Hi].
    + rewrite list_lookup_insert_eq by (rewrite (bo_counts _ Hst); lia). symmetry.
      destruct (lookup_lt_is_Some_2 (out_of_boundary_counts st) (Z.to_nat t)) as [x Hx];
        [rewrite (bo_counts _ Hst); lia|].
      rewrite Hx. unfold arr_get in Hc. by rewrite (list_lookup_total_correct _ _ _ Hx) in Hc; subst.
    + by rewrite list_lookup_insert_ne by done.
  - intros d' t' Hd' Ht'. rewrite arr_get_set by (rewrite ?(bo_dst _ Hst); lia). case_decide as E.
    + subst d'. rewrite lxor_clear by (done || lia). f_equal. rewrite <- bool_decide_not.
      apply bool_decide_ext. naive_solver.
    + rewrite (bool_decide_eq_false_2 (d' = d ∧ t' = t)), andb_true_r by naive_solver. done.
Qed.
End occupy.

(** The free timeslots of all sources. *)
Definition slots (st : batch_state) : Z := sum_of (popcount 16) (src_endnodes st).

Lemma slots_bound st : batch_ok st → 0 ≤ slots st ≤ 16 * 256.
Proof.
  intros Hst. split; [apply sum_of_nonneg, popcount_nonneg|]. unfold slots.
  etrans; [apply (sum_of_le _ 16); intros w; by apply popcount_le|]. rewrite (bo_src _ Hst). done.
Qed.

Lemma occupy_slots st s d t :
  batch_ok st → 0 ≤ s < 256 → 0 ≤ t < 16 → src_free st s t = true →
  slots (occupied_batch st s d t (2 ^ t)) = slots st - 1.
Proof.
  intros Hst Hs Ht Hf. unfold slots. cbn [occupied_batch src_endnodes].
  rewrite sum_of_set by (rewrite (bo_src _ Hst); lia). rewrite popcount_clear by done. lia.
Qed.
