(* ===== verification/AdmissionSpec.v ===== *)
(** * Correctness of the admission algorithm

    Each timeslot is a matching, no demand is lost or invented, and the
    allocation loop terminates. *)

From S2P Require Import Prelude Platform Lists Pacer Ring Admission AdmissionFacts.

(** Projections of an updated core. *)
Ltac core_simpl := cbn [core q_out q_spent new_request_bins non_empty_bins allowed_bins bstate admitted
  out_bin spent_bin current_timeslot set_new_request_bins set_bin_non_empty set_non_empty_bins
  set_allowed_bins set_bstate set_admitted set_out_bin set_spent_bin set_current_timeslot].

Section spec.
Context {R : Type} `{Ring R bin}.
Implicit Types (r : run R) (c : core_state).

(** ** Invariant *)
Record edge_ok (e : backlog_edge) : Prop := {
  eo_src : 0 ≤ be_src e < 256;
  eo_dst : 0 ≤ be_dst e < 256;
  eo_backlog : 0 < be_backlog e < 2 ^ 16;
  eo_metric : 0 ≤ be_metric e < 2 ^ 32;
}.

(** The bins, without the one whose entries are being allocated. *)
Definition others (o : option Z) (l : list bin) : list bin :=
  match o with None => l | Some i => arr_set l i [] end.

Definition bin_count (l : list bin) : Z := sum_of (λ b, Z.of_nat (length b)) l.

(** Each source appears at most once in a timeslot, and is then not free. *)
Definition src_matching (st : batch_state) (adm : list admitted_traffic) : Prop := ∀ t, 0 ≤ t < 16 →
  NoDup (arr_get adm t).*1 ∧
  ∀ p, p ∈ arr_get adm t → 0 ≤ p.1 < 256 ∧ 0 ≤ p.2 < 256 ∧ src_free st p.1 t = false.

(** A flow that was allocated in timeslot [t] of this batch waits in bin
    [NUM_BINS + t]; its source is busy then. *)
Definition waiting_busy (st : batch_state) (bins : list bin) : Prop := ∀ t e, 0 ≤ t < 16 →
  e ∈ arr_get bins (NUM_BINS + t) → src_free st (be_src e) t = false.

(** [k] entries are in hand; the bin [o] is being processed. *)
Record alloc_inv (o : option Z) (k : Z) (r : run R) : Prop := {
  ai_batch : batch_ok (bstate (core r));
  ai_bins : length (new_request_bins (core r)) = 48%nat;
  ai_adm : length (admitted (core r)) = 16%nat;
  ai_edges : ∀ i, 0 ≤ i < 48 → Forall edge_ok (arr_get (new_request_bins (core r)) i);
  ai_wait : waiting_busy (bstate (core r)) (new_request_bins (core r));
  ai_match : src_matching (bstate (core r)) (admitted (core r));
  ai_out : (length (out_bin (core r)) < SMALL_BIN_SIZE)%nat;
  ai_spent : (length (spent_bin (core r)) < SMALL_BIN_SIZE)%nat;
  ai_masks : 0 ≤ non_empty_bins (core r) < 2 ^ 48 ∧ 0 ≤ allowed_bins (core r) < 2 ^ 48;
  ai_marks : ∀ i, 0 ≤ i < 48 → o ≠ Some i → arr_get (new_request_bins (core r)) i ≠ [] →
    Z.testbit (non_empty_bins (core r)) i = true;
  ai_rings : r_wf (q_out r) ∧ r_wf (q_spent r);
  ai_index : ∀ i, o = Some i → 0 ≤ i < 48;
  ai_hand : 0 ≤ k;
  ai_room : let n := k + bin_count (others o (new_request_bins (core r))) in
    n ≤ LARGE_BIN_SIZE ∧ n < Z.of_nat (r_free (q_out r)) ∧ n < Z.of_nat (r_free (q_spent r));
}.

(** ** Accounting *)

(** The entries on the way to the next core, and on the way back to the
    communication core. *)
Definition out_entries (r : run R) : bin := concat (r_list (q_out r)) ++ out_bin (core r).
Definition spent_entries (r : run R) : bin := concat (r_list (q_spent r)) ++ spent_bin (core r).

(** The weight [g] of the entries in the bins. *)
Definition binned (g : backlog_edge → Z) (o : option Z) (r : run R) : Z :=
  sum_of (sum_of g) (others o (new_request_bins (core r))).

Definition admitted_count (f : flow) (r : run R) : Z := sum_of (flow_count f) (admitted (core r)).

(** Destinations: where no traffic leaves the boundary, each destination appears
    at most once in a timeslot, and is then not free. *)
Definition dst_matching (st : batch_state) (adm : list admitted_traffic) : Prop := ∀ t, 0 ≤ t < 16 →
  (∀ p, p ∈ arr_get adm t → p.2 ≠ OUT_OF_BOUNDARY_NODE_ID) →
  arr_get (out_of_boundary_counts st) t = 0 ∧ NoDup (arr_get adm t).*2 ∧
  ∀ p, p ∈ arr_get adm t → dst_free st p.2 t = false.

(** The timeslots that are left for a flow. *)
Definition avail (r : run R) (e : backlog_edge) : Z :=
  endnode_bitmap (bstate (core r)) (be_src e) (be_dst e).

Lemma length_others o (l : list bin) : length (others o l) = length l.
Proof. destruct o; [apply length_arr_set|done]. Qed.

Lemma bin_count_nonneg l : 0 ≤ bin_count l.
Proof. apply sum_of_nonneg. lia. Qed.

Lemma others_set o (l : list bin) j b :
  (∀ i, o = Some i → 0 ≤ i) → 0 ≤ j → o ≠ Some j → others o (arr_set l j b) = arr_set (others o l) j b.
Proof.
  intros Ho Hj Hne. destruct o as [i|]; [|done]. specialize (Ho i eq_refl). simpl. unfold arr_set.
  apply list_insert_insert_ne. assert (i ≠ j) by congruence. lia.
Qed.

Lemma others_get o (l : list bin) j :
  length l = 48%nat → (∀ i, o = Some i → 0 ≤ i < 48) → 0 ≤ j → o ≠ Some j → arr_get (others o l) j = arr_get l j.
Proof.
  intros Hl Ho Hj Hne. destruct o as [i|]; [|done]. specialize (Ho i eq_refl). simpl.
  rewrite arr_get_set by lia. rewrite decide_False; [done|congruence].
Qed.

(** Steps of a core that put [hb] into bins and [ho] on the queue to the next
    core, return [s] and admitting [a]. *)
Record progress (o : option Z) (r r' : run R) (hb ho s : bin) (a : list flow) : Prop := {
  pr_bins : ∀ g, binned g o r' = binned g o r + sum_of g hb;
  pr_out : out_entries r' = out_entries r ++ ho;
  pr_spent : spent_entries r' = spent_entries r ++ s;
  pr_admitted : ∀ f, admitted_count f r' = admitted_count f r + flow_count f a;
  pr_slots : slots (bstate (core r)) = slots (bstate (core r')) + Z.of_nat (length a);
  pr_marks : popcount 48 (non_empty_bins (core r')) ≤ popcount 48 (non_empty_bins (core r)) + Z.of_nat (length hb);
  pr_full : Forall (λ e, avail r' e = 0) ho;
  pr_src : ∀ s t, 0 ≤ s < 256 → 0 ≤ t →
    src_free (bstate (core r')) s t = true → src_free (bstate (core r)) s t = true;
  pr_avail : ∀ e, edge_ok e → avail r e = 0 → avail r' e = 0;
  pr_dst : dst_matching (bstate (core r)) (admitted (core r)) → dst_matching (bstate (core r')) (admitted (core r'));
  pr_time : current_timeslot (core r') = current_timeslot (core r);
  pr_mask : allowed_mask (bstate (core r')) = allowed_mask (bstate (core r));
  pr_closed : ∀ t, 0 ≤ t < 16 → Z.testbit (allowed_mask (bstate (core r))) t = false →
    arr_get (admitted (core r')) t = arr_get (admitted (core r)) t;
  pr_allowed : allowed_bins (core r') = allowed_bins (core r);
}.

Lemma progress_refl o r : progress o r r [] [] [] [].
Proof. constructor; intros; simpl; rewrite ?app_nil_r; try done; lia. Qed.

Lemma progress_trans o r1 r2 r3 hb1 ho1 s1 a1 hb2 ho2 s2 a2 :
  Forall edge_ok ho1 → progress o r1 r2 hb1 ho1 s1 a1 → progress o r2 r3 hb2 ho2 s2 a2 →
  progress o r1 r3 (hb1 ++ hb2) (ho1 ++ ho2) (s1 ++ s2) (a1 ++ a2).
Proof.
  intros Hok P Q. destruct P, Q. constructor.
  - intros g. rewrite pr_bins1, pr_bins0, sum_of_app. lia.
  - by rewrite pr_out1, pr_out0, app_assoc.
  - by rewrite pr_spent1, pr_spent0, app_assoc.
  - intros f. rewrite pr_admitted1, pr_admitted0. unfold flow_count. rewrite sum_of_app. lia.
  - rewrite length_app. lia.
  - rewrite length_app. lia.
  - apply Forall_app. split; [|done]. rewrite Forall_forall in Hok, pr_full0 |- *. auto.
  - auto.
  - auto.
  - auto.
  - congruence.
  - congruence.
  - intros t Ht Hb. rewrite pr_closed1, pr_closed0; [done|done|done|done|by rewrite pr_mask0].
  - congruence.
Qed.

(** What becomes of the entries [inp]: backlog is admitted or stays held, an
    entry is returned when nothing is left of it. *)
Definition belongs (f : flow) (e : backlog_edge) : Z := if decide (key e = f) then 1 else 0.
Definition present (f : flow) (b : bin) : Z := sum_of (belongs f) b.

Record conserves (inp hb ho s : bin) (a : list flow) : Prop := {
  cs_backlog : ∀ f, flow_sum f inp = flow_count f a + flow_sum f hb + flow_sum f ho;
  cs_entries : ∀ f, present f inp = present f hb + present f ho + present f s;
  cs_out : Forall edge_ok ho;
  cs_spent : Forall (λ e, be_backlog e = 0) s;
  cs_binned : (length hb ≤ length a)%nat;
}.

Lemma conserves_nil : conserves [] [] [] [] [].
Proof. by constructor. Qed.

Lemma conserves_app i1 hb1 ho1 s1 a1 i2 hb2 ho2 s2 a2 :
  conserves i1 hb1 ho1 s1 a1 → conserves i2 hb2 ho2 s2 a2 →
  conserves (i1 ++ i2) (hb1 ++ hb2) (ho1 ++ ho2) (s1 ++ s2) (a1 ++ a2).
Proof.
  intros P Q. destruct P, Q. unfold flow_sum, flow_count, present in *.
  constructor; try (by apply Forall_app); rewrite ?length_app; try lia; intros f;
    unfold flow_sum, flow_count, present; rewrite !sum_of_app; [rewrite cs_backlog0, cs_backlog1|rewrite cs_entries0, cs_entries1]; lia.
Qed.

Lemma sum_bins_set (g : bin → Z) o (l : list bin) j b :
  length l = 48%nat → (∀ i, o = Some i → 0 ≤ i < 48) → 0 ≤ j < 48 → o ≠ Some j →
  sum_of g (others o (arr_set l j b)) = sum_of g (others o l) - g (arr_get l j) + g b.
Proof.
  intros Hl Ho Hj Hne. rewrite others_set by (naive_solver lia).
  rewrite sum_of_set by (rewrite length_others; lia). by rewrite others_get by (done || lia).
Qed.

(** *** Entering a bin *)
Lemma enqueue_to_bin_spec o k r j e :
  alloc_inv o (k + 1) r → 0 ≤ k → 0 ≤ j < 48 → o ≠ Some j → edge_ok e →
  (NUM_BINS ≤ j → src_free (bstate (core r)) (be_src e) (j - NUM_BINS) = false) →
  wp (enqueue_to_bin j e) (λ _ r' l, l = [] ∧ alloc_inv o k r' ∧ progress o r r' [e] [] [] []) r.
Proof.
  intros Hi Hk Hj Ho He Hbusy. pose proof (ai_room _ _ _ Hi) as Hroom. cbv zeta in Hroom.
  set (bins := new_request_bins (core r)) in *. pose proof (ai_bins _ _ _ Hi) as Hlen. fold bins in Hlen.
  pose proof (ai_index _ _ _ Hi) as Hidx.
  assert (Z.of_nat (length (arr_get bins j)) ≤ bin_count (others o bins)) as Hle.
  { rewrite <- (others_get o bins j) by (done || lia).
    apply (sum_of_get (λ b, Z.of_nat (length b))); [lia|]. rewrite length_others. lia. }
  unfold enqueue_to_bin. apply wp_bind, wp_get. apply wp_bind. fold bins.
  eapply wp_deref.
  { unfold enqueue_bin_edge. rewrite (proj2 (Z.ltb_lt _ _)); [done|]. unfold LARGE_BIN_SIZE in *. lia. }
  apply wp_bind, wp_modify, wp_modify.
  set (b' := arr_get bins j ++ [e]).
  core_simpl.
  set (r' := {| core := _; q_out := _; q_spent := _ |}).
  assert (0 ≤ shl64 1 j < 2 ^ 48) as Hsh.
  { rewrite shl64_1 by lia. split; [apply Z.pow_nonneg; lia|apply Z.pow_lt_mono_r; lia]. }
  assert (Hget : ∀ i, 0 ≤ i → arr_get (arr_set bins j b') i = if decide (j = i) then b' else arr_get bins i).
  { intros i Hi0. apply arr_get_set; lia. }
  assert (∀ g : bin → Z, sum_of g (others o (arr_set bins j b')) = sum_of g (others o bins) - g (arr_get bins j) + g b') as Hsum.
  { intros g. by apply sum_bins_set. }
  split; [done|]. split.
  - destruct Hi. constructor; try done; unfold r'; core_simpl.
    + by rewrite length_arr_set.
    + intros i Hi. rewrite Hget by lia. case_decide; [subst i; apply Forall_app; split; [by apply ai_edges0|by constructor]|].
      by apply ai_edges0.
    + intros t e' Ht. rewrite Hget by (unfold NUM_BINS; lia). case_decide as E.
      * unfold b'. intros [Hin| ->%list_elem_of_singleton]%elem_of_app; [apply (ai_wait0 t e' Ht); by rewrite <- E|].
        replace t with (j - NUM_BINS) by lia. apply Hbusy. lia.
      * apply (ai_wait0 t e' Ht).
    + split; [apply lor_range; [apply ai_masks0|done|lia]|apply ai_masks0].
    + intros i Hi Hne. rewrite Hget, Z.lor_spec by lia. case_decide as E.
      * subst i. intros _. rewrite testbit_shl64, bool_decide_eq_true_2, Z.sub_diag by lia. by rewrite orb_true_r.
      * intros Hb. by rewrite ai_marks0.
    + unfold bin_count. rewrite Hsum. unfold b'. rewrite length_app. simpl length.
      unfold bin_count in Hroom. lia.
  - constructor; intros; unfold r', binned, out_entries, spent_entries, admitted_count, avail in *; core_simpl;
      rewrite ?app_nil_r; try done; try (simpl; lia).
    + rewrite Hsum. unfold b'. rewrite sum_of_app. fold bins. simpl. lia.
    + rewrite shl64_1 by lia. apply popcount_lor. lia.
Qed.

(** *** The queues out of a core *)

(** Steps that touch only the output bins and queues. *)
Record output_only (r r' : run R) : Prop := {
  oo_bins : new_request_bins (core r') = new_request_bins (core r);
  oo_marks : non_empty_bins (core r') = non_empty_bins (core r);
  oo_allowed : allowed_bins (core r') = allowed_bins (core r);
  oo_batch : bstate (core r') = bstate (core r);
  oo_admitted : admitted (core r') = admitted (core r);
  oo_time : current_timeslot (core r') = current_timeslot (core r);
  oo_out : (length (out_bin (core r')) < SMALL_BIN_SIZE)%nat;
  oo_spent : (length (spent_bin (core r')) < SMALL_BIN_SIZE)%nat;
  oo_rings : r_wf (q_out r') ∧ r_wf (q_spent r');
  oo_free_out : (r_free (q_out r) ≤ S (r_free (q_out r')))%nat;
  oo_free_spent : (r_free (q_spent r) ≤ S (r_free (q_spent r')))%nat;
}.

Lemma output_only_inv o k r r' : alloc_inv o (k + 1) r → 0 ≤ k → output_only r r' → alloc_inv o k r'.
Proof.
  intros I Hk [E1 E2 E3 E4 E5 E6 Ho Hs Hr Fo Fs]. destruct I.
  constructor; rewrite ?E1, ?E2, ?E3, ?E4, ?E5; try done. cbv zeta in *. lia.
Qed.

Lemma output_only_progress o r r' ho s :
  output_only r r' → out_entries r' = out_entries r ++ ho → spent_entries r' = spent_entries r ++ s →
  Forall (λ e, avail r e = 0) ho → progress o r r' [] ho s [].
Proof.
  intros [E1 E2 E3 E4 E5 E6 _ _ _ _ _] Ho Hs Ha.
  constructor; unfold binned, admitted_count, avail in *; intros; rewrite ?E1, ?E2, ?E4, ?E5; try done; simpl; try lia.
  all: congruence.
Qed.

(** One more entry for the next core: a full output bin is sent. *)
Lemma enqueue_out_step r e :
  (length (out_bin (core r)) < SMALL_BIN_SIZE)%nat → r_wf (q_out r) → (0 < r_free (q_out r))%nat →
  wp (core_enqueue_to_q_out_edge e) (λ _ r' l, l = [] ∧ ∃ b q,
    r' = {| core := set_out_bin b (core r); q_out := q; q_spent := q_spent r |} ∧
    out_entries r' = out_entries r ++ [e] ∧ (length b < SMALL_BIN_SIZE)%nat ∧ r_wf q ∧
    (r_free (q_out r) ≤ S (r_free q))%nat) r.
Proof.
  intros Hlen Hw Hfree. unfold core_enqueue_to_q_out_edge. apply wp_bind, wp_get. apply wp_bind. eapply wp_deref.
  { unfold enqueue_bin_edge. rewrite (proj2 (Z.ltb_lt _ _)); [done|]. unfold SMALL_BIN_SIZE in *. lia. }
  apply wp_bind, wp_modify. unfold when, bin_size, out_entries. case_bool_decide as Hfull.
  - unfold core_flush_q_out. apply wp_bind, wp_get. core_simpl.
    destruct (r_enqueue_spec (q_out r) (out_bin (core r) ++ [e]) Hw Hfree) as (q & Eq & Hq & Hlq & Hfq).
    apply wp_bind. eapply wp_deref; [exact Eq|]. apply wp_put. split; [done|]. exists [], q.
    split_and!; try done; [|by unfold SMALL_BIN_SIZE; simpl; lia|lia].
    core_simpl. rewrite Hlq, concat_app. simpl. by rewrite !app_nil_r, app_assoc.
  - apply wp_ret. split; [done|]. eexists _, _. split_and!; try done; [core_simpl; by rewrite app_assoc| |lia].
    rewrite length_app in *. unfold SMALL_BIN_SIZE in *. simpl in *. lia.
Qed.

(** Likewise for the entries that are returned. *)
Lemma enqueue_spent_step r src dst metric :
  (length (spent_bin (core r)) < SMALL_BIN_SIZE)%nat → r_wf (q_spent r) → (0 < r_free (q_spent r))%nat →
  wp (core_enqueue_to_q_spent src dst metric) (λ _ r' l, l = [] ∧ ∃ b q,
    r' = {| core := set_spent_bin b (core r); q_out := q_out r; q_spent := q |} ∧
    spent_entries r' = spent_entries r ++
      [{| be_src := u16 src; be_dst := u16 dst; be_backlog := 0; be_metric := u32 metric |}] ∧
    (length b < SMALL_BIN_SIZE)%nat ∧ r_wf q ∧ (r_free (q_spent r) ≤ S (r_free q))%nat) r.
Proof.
  intros Hlen Hw Hfree. unfold core_enqueue_to_q_spent. apply wp_bind, wp_get. apply wp_bind. eapply wp_deref.
  { unfold enqueue_bin, enqueue_bin_edge. rewrite (proj2 (Z.ltb_lt _ _)); [done|]. unfold SMALL_BIN_SIZE in *. lia. }
  change (u16 0) with 0. set (e := Build_backlog_edge _ _ _ _).
  apply wp_bind, wp_modify. unfold when, bin_size, spent_entries. case_bool_decide as Hfull.
  - unfold core_flush_q_spent. apply wp_bind, wp_get. core_simpl.
    destruct (r_enqueue_spec (q_spent r) (spent_bin (core r) ++ [e]) Hw Hfree) as (q & Eq & Hq & Hlq & Hfq).
    apply wp_bind. eapply wp_deref; [exact Eq|]. apply wp_put. split; [done|]. exists [], q.
    split_and!; try done; [|by unfold SMALL_BIN_SIZE; simpl; lia|lia].
    core_simpl. rewrite Hlq, concat_app. simpl. by rewrite !app_nil_r, app_assoc.
  - apply wp_ret. split; [done|]. eexists _, _. split_and!; try done; [core_simpl; by rewrite app_assoc| |lia].
    rewrite length_app in *. unfold SMALL_BIN_SIZE in *. simpl in *. lia.
Qed.

(** There is room for what is in hand. *)
Lemma hand_room o k r : alloc_inv o (k + 1) r → 0 ≤ k → (0 < r_free (q_out r))%nat ∧ (0 < r_free (q_spent r))%nat.
Proof.
  intros I Hk. pose proof (ai_room _ _ _ I) as Hroom. cbv zeta in Hroom.
  pose proof (bin_count_nonneg (others o (new_request_bins (core r)))). lia.
Qed.

Lemma core_enqueue_to_q_out_edge_spec o k r e :
  alloc_inv o (k + 1) r → 0 ≤ k → avail r e = 0 →
  wp (core_enqueue_to_q_out_edge e) (λ _ r' l, l = [] ∧ alloc_inv o k r' ∧ progress o r r' [] [e] [] []) r.
Proof.
  intros I Hk Ha. destruct (hand_room _ _ _ I Hk) as [Hfo _]. pose proof (ai_rings _ _ _ I) as [Hwo Hws].
  eapply wp_mono; [apply enqueue_out_step; [apply I|done..]|]. intros _ r' l (-> & b & q & -> & E & Hb & Hq & Hf).
  set (r' := {| core := _; q_out := _; q_spent := _ |}) in *.
  assert (output_only r r') as Hoo by (constructor; unfold r'; core_simpl; try done; try lia; apply I).
  split_and!; [done|by eapply output_only_inv|]. apply output_only_progress; [done..| |by constructor].
  by rewrite app_nil_r.
Qed.

Lemma core_enqueue_to_q_spent_spec o k r src dst metric :
  alloc_inv o (k + 1) r → 0 ≤ k →
  wp (core_enqueue_to_q_spent src dst metric) (λ _ r' l, l = [] ∧ alloc_inv o k r' ∧
    progress o r r' [] [] [{| be_src := u16 src; be_dst := u16 dst; be_backlog := 0; be_metric := u32 metric |}] []) r.
Proof.
  intros I Hk. destruct (hand_room _ _ _ I Hk) as [_ Hfs]. pose proof (ai_rings _ _ _ I) as [Hwo Hws].
  eapply wp_mono; [apply enqueue_spent_step; [apply I|done..]|]. intros _ r' l (-> & b & q & -> & E & Hb & Hq & Hf).
  set (r' := {| core := _; q_out := _; q_spent := _ |}) in *.
  assert (output_only r r') as Hoo by (constructor; unfold r'; core_simpl; try done; try lia; apply I).
  split_and!; [done|by eapply output_only_inv|]. apply output_only_progress; try done. by rewrite app_nil_r.
Qed.

(** *** Incoming demands *)

(** A demand that was not admitted in this batch enters one of the first
    [NUM_BINS] bins. *)
Definition arrives (r : run R) (e : backlog_edge) : Prop :=
  edge_ok e ∧ 15 < u32 (u32 (current_timeslot (core r) + BATCH_SIZE) - u32 (be_metric e)).

Lemma arrives_bin r e : arrives r e →
  0 ≤ bin_index_from_timeslot (be_metric e) (current_timeslot (core r)) < NUM_BINS.
Proof.
  intros [_ Hg]. rewrite bin_index_spec. set (g := u32 _) in *. pose proof (bin_of_gap_range g (u32_range _)).
  split; [lia|]. unfold bin_of_gap, NUM_BINS. cbv zeta. repeat case_bool_decide; zify_div; lia.
Qed.

Lemma incoming_bin_to_core_spec : ∀ b k r,
  alloc_inv None (k + Z.of_nat (length b)) r → 0 ≤ k → Forall (arrives r) b →
  wp (incoming_bin_to_core b) (λ _ r' l, l = [] ∧ alloc_inv None k r' ∧ progress None r r' b [] [] []) r.
Proof.
  induction b as [|e b IH]; intros k r I Hk Hb; cbn [incoming_bin_to_core].
  { apply wp_ret. rewrite Z.add_0_r in I. split_and!; [done..|apply progress_refl]. }
  apply Forall_cons in Hb as [He Hb]. pose proof (arrives_bin r e He) as Hj. unfold NUM_BINS in Hj.
  replace (k + Z.of_nat (length (e :: b))) with ((k + Z.of_nat (length b)) + 1) in I by (simpl; lia).
  apply wp_bind, wp_get, wp_bind.
  eapply wp_mono; [apply (enqueue_to_bin_spec None (k + Z.of_nat (length b))); try done; try lia; try apply He|].
  - unfold NUM_BINS. lia.
  - intros _ r1 l (-> & I1 & P1). eapply wp_mono; [apply (IH k r1 I1 Hk)|].
    + eapply Forall_impl; [exact Hb|]. intros e' [? ?]. split; [done|]. by rewrite (pr_time _ _ _ _ _ _ _ P1).
    + intros _ r2 l (-> & I2 & P2). split_and!; [done..|].
      by apply (progress_trans _ _ _ _ [e] [] [] [] b [] [] [] ltac:(done) P1 P2).
Qed.
End spec.
