(* ===== verification/AdmissionAlloc.v ===== *)
(** * The allocation loop of a core

    Admitting one timeslot to a flow, the pass over a bin and the loop over the
    bins: they keep the invariant, lose no demand, admitting every flow they can, and
    terminate. *)

From S2P Require Import Prelude Platform Lists Pacer Ring Admission AdmissionFacts AdmissionSpec.

(** ** Occupying a timeslot only takes timeslots away *)
Lemma occupy_avail st s d t s' d' :
  batch_ok st → 0 ≤ s < 256 → 0 ≤ d < 256 → 0 ≤ t < 16 → src_free st s t = true → dst_free st d t = true →
  0 ≤ s' < 256 → 0 ≤ d' < 256 → endnode_bitmap st s' d' = 0 →
  endnode_bitmap (occupied_batch st s d t (2 ^ t)) s' d' = 0.
Proof.
  intros Hst Hs Hd Ht Hf Hdf Hs' Hd' Hz. apply Z.bits_inj'. intros i Hi. rewrite Z.bits_0.
  apply (f_equal (λ w, Z.testbit w i)) in Hz. rewrite Z.bits_0 in Hz.
  unfold endnode_bitmap in *. rewrite !Z.land_spec in *.
  pose proof (occupy_src_free st s d t Hst Hs Hd Ht Hf Hdf s' i Hs' Hi) as E. unfold src_free in E. rewrite E.
  destruct (occupy_dst_word st s d t Hst Hs Hd Ht Hf Hdf) as (w & Ew & _ & Hw). rewrite Ew.
  rewrite arr_get_set by (rewrite ?(bo_dst _ Hst); lia).
  set (b := negb _). clearbody b. clear E. specialize (Hw i). cbn [allowed_mask occupied_batch].
  destruct (decide (d = d')) as [<-|Hdd].
  - destruct (Z.testbit w i); [|by rewrite andb_false_r]. rewrite Hw, andb_true_r in Hz by done.
    apply andb_false_iff in Hz as [-> | ->]; [done|]. by rewrite andb_false_r.
  - destruct (Z.testbit (allowed_mask st) i), (Z.testbit (arr_get (src_endnodes st) s') i); simpl in *; try done.
    by rewrite Hz, andb_false_r.
Qed.

Section alloc.
Context {R : Type} `{Ring R bin}.
Implicit Types (r : run R) (e : backlog_edge).

(** The core after admitting [e] in timeslot [t]. *)
Definition admitting (t : Z) (e : backlog_edge) (r : run R) : run R := {|
  core := set_admitted (arr_set (admitted (core r)) t (arr_get (admitted (core r)) t ++ [key e]))
    (set_bstate (occupied_batch (bstate (core r)) (be_src e) (be_dst e) t (2 ^ t)) (core r));
  q_out := q_out r; q_spent := q_spent r |}.

Section admitting.
Context (o : option Z) (k : Z) (r : run R) (t : Z) (e : backlog_edge).
Context (Hinv : alloc_inv o k r) (He : edge_ok e) (Ht : 0 ≤ t < 16).
Context (Hsrc : src_free (bstate (core r)) (be_src e) t = true).
Context (Hdst : dst_free (bstate (core r)) (be_dst e) t = true).

Lemma admit_src_free s t' :
  0 ≤ s < 256 → 0 ≤ t' → src_free (bstate (core (admitting t e r))) s t' =
    src_free (bstate (core r)) s t' && negb (bool_decide (s = be_src e ∧ t' = t)).
Proof using All. destruct Hinv, He. intros. by apply occupy_src_free. Qed.

Lemma admit_adm t' : 0 ≤ t' → arr_get (admitted (core (admitting t e r))) t' =
  if decide (t = t') then arr_get (admitted (core r)) t ++ [key e] else arr_get (admitted (core r)) t'.
Proof using Hinv Ht.
  intros Ht'. unfold admitting. core_simpl. apply arr_get_set; rewrite ?(ai_adm _ _ _ Hinv); lia.
Qed.

Lemma admit_new : be_src e ∉ (arr_get (admitted (core r)) t).*1.
Proof using Hinv Ht Hsrc.
  intros (p & Ep & Hp)%list_elem_of_fmap. destruct (ai_match _ _ _ Hinv t Ht) as [_ Hm].
  destruct (Hm p Hp) as (_ & _ & Hb). by rewrite <- Ep, Hsrc in Hb.
Qed.

Lemma admit_match : src_matching (bstate (core (admitting t e r))) (admitted (core (admitting t e r))).
Proof using All.
  intros t' Ht'. destruct (ai_match _ _ _ Hinv t' Ht') as [Hnd Hm]. rewrite admit_adm by lia.
  assert (∀ s, 0 ≤ s < 256 → src_free (bstate (core r)) s t' = false → src_free (bstate (core (admitting t e r))) s t' = false) as Hmono.
  { intros s Hs Hf. rewrite admit_src_free by lia. by rewrite Hf. }
  case_decide as E.
  - subst t'. split.
    + rewrite fmap_app. apply NoDup_app. split_and!; [done| |apply NoDup_singleton].
      intros s Hs ->%list_elem_of_singleton. by apply admit_new.
    + intros p [Hp| ->%list_elem_of_singleton]%elem_of_app.
      * destruct (Hm p Hp) as (? & ? & ?). auto.
      * pose proof (eo_src _ He). pose proof (eo_dst _ He). split_and!; simpl; try lia.
        rewrite admit_src_free by (done || lia). rewrite bool_decide_eq_true_2 by done. by rewrite andb_false_r.
  - split; [done|]. intros p Hp. destruct (Hm p Hp) as (? & ? & ?). auto.
Qed.

Lemma admit_dst_match :
  dst_matching (bstate (core r)) (admitted (core r)) →
  dst_matching (bstate (core (admitting t e r))) (admitted (core (admitting t e r))).
Proof using All.
  intros Hd t' Ht'. rewrite admit_adm by lia. destruct He as [Hs0 Hd0 _ _]. pose proof (ai_batch _ _ _ Hinv) as Hb.
  assert (∀ st', out_of_boundary_counts st' = arr_set (out_of_boundary_counts (bstate (core r))) t
    (arr_get (out_of_boundary_counts st') t) → t ≠ t' →
    arr_get (out_of_boundary_counts st') t' = arr_get (out_of_boundary_counts (bstate (core r))) t') as Hc.
  { intros st' -> Hne. rewrite arr_get_set by (rewrite ?(bo_counts _ Hb); lia). by rewrite decide_False. }
  case_decide as E.
  - subst t'. intros Hin. destruct (Hd t Ht) as (Hz & Hnd & Hm).
    { intros p Hp. apply Hin. apply elem_of_app. by left. }
    destruct (occupy_dst_free (bstate (core r)) (be_src e) (be_dst e) t Hb Hs0 Hd0 Ht Hsrc Hdst) as [Ec Hf].
    { apply (Hin (key e)). apply elem_of_app. right. by apply list_elem_of_singleton. }
    { done. }
    unfold admitting. core_simpl. split_and!.
    + by rewrite Ec.
    + rewrite fmap_app. apply NoDup_app. split_and!; [done| |apply NoDup_singleton].
      intros d (p & -> & Hp)%list_elem_of_fmap Hq%list_elem_of_singleton. simpl in Hq.
      specialize (Hm p Hp). by rewrite Hq, Hdst in Hm.
    + intros p [Hp| ->%list_elem_of_singleton]%elem_of_app; simpl.
      * destruct (ai_match _ _ _ Hinv t Ht) as [_ Hr]. destruct (Hr p Hp) as (_ & ? & _).
        rewrite Hf by lia. by rewrite (Hm p Hp).
      * rewrite Hf by lia. rewrite bool_decide_eq_true_2 by done. by rewrite andb_false_r.
  - intros Hin. destruct (Hd t' Ht' Hin) as (Hz & Hnd & Hm). split_and!; [|done|].
    + unfold admitting. core_simpl. rewrite Hc; [done| |done].
      cbn [occupied_batch out_of_boundary_counts].
      rewrite (arr_get_set _ t t) by (rewrite ?(bo_counts _ Hb); lia). by rewrite decide_True.
    + intros p Hp. specialize (Hm p Hp). destruct (ai_match _ _ _ Hinv t' Ht') as [_ Hr]. destruct (Hr p Hp) as (_ & ? & _).
      unfold admitting, dst_free in *. core_simpl.
      destruct (occupy_dst_word (bstate (core r)) (be_src e) (be_dst e) t Hb Hs0 Hd0 Ht Hsrc Hdst) as (w & Ew & _ & Hw).
      rewrite Ew, arr_get_set by (rewrite ?(bo_dst _ Hb); lia). case_decide as Edd; [|done].
      apply not_true_is_false. intros Hwt%Hw. rewrite Edd in Hwt. congruence.
Qed.

Lemma admit_inv : alloc_inv o k (admitting t e r).
Proof using All.
  pose proof admit_match as Hm. pose proof admit_src_free as Hf. destruct Hinv, He as [Hs0 Hd0 _ _]. constructor; try done.
  - by apply occupy_ok.
  - unfold admitting. core_simpl. by rewrite length_arr_set.
  - intros t' e' Ht' Hin. rewrite Hf; [|apply (eo_src e')|lia].
    + apply andb_false_iff. left. by apply (ai_wait t' e').
    + assert (Hj : 0 ≤ NUM_BINS + t' < 48) by (unfold NUM_BINS; lia).
      specialize (ai_edges _ Hj). rewrite Forall_forall in ai_edges. by apply ai_edges.
Qed.

Context (Hopen : Z.testbit (allowed_mask (bstate (core r))) t = true).

Lemma admit_progress : progress o r (admitting t e r) [] [] [] [key e].
Proof using All.
  pose proof admit_src_free as Hf. pose proof admit_dst_match as Hd. pose proof admit_adm as Hadm. destruct Hinv, He.
  constructor; try done; rewrite ?app_nil_r; try done.
  - intros g. simpl. unfold binned, admitting. core_simpl. lia.
  - intros f. unfold admitted_count, admitting. core_simpl. rewrite sum_of_set by (rewrite ai_adm; lia).
    unfold flow_count. rewrite sum_of_app. simpl. lia.
  - unfold admitting. core_simpl. rewrite occupy_slots by done. simpl. lia.
  - unfold admitting. core_simpl. simpl. lia.
  - intros s t' Hs Ht'. rewrite Hf by done. by intros [? _]%andb_true_iff.
  - intros e' He'. destruct He'. unfold avail, admitting. core_simpl. by apply occupy_avail.
  - intros t' Ht' Hc. rewrite Hadm by lia. rewrite decide_False; [done|]. intros <-. by rewrite Hopen in Hc.
Qed.
End admitting.

(** ** One flow *)

(** A flow that sits in the bin [o] was already admitted in the timeslot of that
    bin, if it has one. *)
Definition not_again (o : option Z) (e : backlog_edge) (r : run R) : Prop :=
  ∀ t, 0 ≤ t < 16 → o = Some (NUM_BINS + t) → src_free (bstate (core r)) (be_src e) t = false.

(** The entry that an admitted flow leaves: in a bin, or on the way back. *)
Definition rest_of (e : backlog_edge) (metric : Z) : backlog_edge :=
  {| be_src := be_src e; be_dst := be_dst e; be_backlog := be_backlog e - 1; be_metric := metric |}.

Lemma conserves_admit e m : edge_ok e →
  conserves [e] (if be_backlog e - 1 =? 0 then [] else [rest_of e m]) []
    (if be_backlog e - 1 =? 0 then [rest_of e m] else []) [key e].
Proof.
  intros [_ _ Hb _]. destruct (Z.eqb_spec (be_backlog e - 1) 0) as [E|E]; constructor; try done; try (simpl; lia);
    try (by repeat constructor); intros f; unfold flow_sum, flow_count, present, belongs, amount; simpl;
    change (key (rest_of e m)) with (key e); case_decide; simpl; lia.
Qed.

Lemma insert_admitted_ok o k r t e :
  alloc_inv o k r → edge_ok e → 0 ≤ t < 16 → src_free (bstate (core r)) (be_src e) t = true →
  insert_admitted_edge (arr_get (admitted (core r)) t) (be_src e) (be_dst e) =
    Some (arr_get (admitted (core r)) t ++ [key e]).
Proof.
  intros I He Ht Hf. destruct (ai_match _ _ _ I t Ht) as [Hnd Hm]. pose proof (admit_new o k r t e I Ht Hf) as Hn.
  unfold insert_admitted_edge. destruct He as [Hs Hd _ _]. change MAX_NODES with 256.
  assert (Z.of_nat (length (be_src e :: (arr_get (admitted (core r)) t).*1)) ≤ Z.max 0 256) as Hlen.
  { apply NoDup_bounded; [by constructor|]. intros x [->|(p & -> & Hp)%list_elem_of_fmap]%elem_of_cons; [lia|].
    destruct (Hm p Hp) as (? & _). lia. }
  simpl in Hlen. rewrite length_fmap in Hlen.
  rewrite (proj2 (Z.ltb_lt _ _)), (proj2 (Z.ltb_lt _ _)), (proj2 (Z.ltb_lt _ _)) by lia. done.
Qed.

Lemma try_allocation_spec o k r e :
  alloc_inv o (k + 1) r → 0 ≤ k → edge_ok e → not_again o e r →
  wp (try_allocation (be_src e) (be_dst e) (be_backlog e) (be_metric e)) (λ rc r' l, l = [] ∧
    if rc : bool then r' = r ∧ avail r e = 0
    else ∃ hb s, alloc_inv o k r' ∧ progress o r r' hb [] s [key e] ∧ conserves [e] hb [] s [key e]) r.
Proof.
  intros I Hk He Hna. pose proof (eo_src _ He) as Hs. pose proof (eo_dst _ He) as Hd. pose proof (eo_backlog _ He) as Hb.
  pose proof (ai_batch _ _ _ I) as Hbo. unfold try_allocation. apply wp_bind, wp_get. cbv zeta.
  apply wp_bind. eapply wp_deref.
  { unfold batch_state_get_avail_bitmap, MAX_SRCS, MAX_DSTS. change MAX_NODES with 256. by rewrite !(proj2 (Z.ltb_lt _ 256)) by lia. }
  fold (avail r e).
  destruct (Z.eqb_spec (avail r e) 0) as [Hz|Hz]; [by apply wp_ret|].
  destruct (first_timeslot_spec (bstate (core r)) (be_src e) (be_dst e) Hbo Hs Hd Hz) as (Ht & Ebit & Hsf & Hdf & Hop & _).
  fold (avail r e) in Ht, Ebit, Hsf, Hdf, Hop. rewrite Ebit. set (t := Z.land _ _) in *. clearbody t.
  rewrite u16_small by lia. apply wp_bind. eapply wp_deref.
  { unfold batch_state_set_occupied_conditional, MAX_SRCS, MAX_DSTS. change MAX_NODES with 256.
    by rewrite !(proj2 (Z.ltb_lt _ 256)), (proj2 (Z.leb_le _ _)) by (unfold BATCH_SIZE; lia). }
  apply wp_bind, wp_modify.
  apply wp_bind. eapply wp_deref; [by eapply insert_admitted_ok|]. apply wp_bind, wp_modify. core_simpl.
  fold (admitting t e r). apply wp_bind.
  pose proof (admit_inv o (k + 1) r t e I He Ht Hsf Hdf) as I'.
  pose proof (admit_progress o (k + 1) r t e I He Ht Hsf Hdf Hop) as P.
  set (m := new_metric_after_alloc _ _). pose proof (conserves_admit e m He) as C.
  destruct (Z.eqb_spec (be_backlog e - 1) 0) as [Eb|Eb]; cbn [negb].
  - eapply wp_mono; [by eapply core_enqueue_to_q_spent_spec|]. intros _ r' l (-> & I2 & P2).
    apply wp_ret. split; [done|]. exists [], [rest_of e m]. split_and!; [done| |done].
    replace (Build_backlog_edge _ _ _ _) with (rest_of e m) in P2.
    { by apply (progress_trans _ _ _ _ [] [] [] [key e] [] [] [rest_of e m] [] ltac:(done) P P2). }
    unfold rest_of. rewrite !u16_small, Eb by lia. f_equal. symmetry. apply u32_small, u32_range.
  - eapply wp_mono; [eapply (enqueue_to_bin_spec o k _ (bin_after_alloc t) (rest_of e m)); try done|].
    + unfold bin_after_alloc, NUM_BINS. lia.
    + intros ->. rewrite (Hna t Ht eq_refl) in Hsf. done.
    + constructor; simpl; try done; [lia|apply u32_range].
    + intros _. unfold bin_after_alloc. replace (NUM_BINS + t - NUM_BINS) with t by lia. simpl be_src.
      rewrite (admit_src_free o (k + 1)) by (done || lia). by rewrite bool_decide_eq_true_2, andb_false_r.
    + intros _ r' l (-> & I2 & P2). apply wp_ret. split; [done|]. exists [rest_of e m], [].
      split_and!; [done| |done]. by apply (progress_trans _ _ _ _ [] [] [] [key e] [rest_of e m] [] [] [] ltac:(done) P P2).
Qed.

(** ** One bin *)
Lemma try_allocation_edges_spec o : ∀ edges k r,
  alloc_inv o (k + Z.of_nat (length edges)) r → 0 ≤ k → Forall edge_ok edges →
  Forall (λ e, not_again o e r) edges →
  wp (try_allocation_edges edges) (λ _ r' l, l = [] ∧ alloc_inv o k r' ∧
    ∃ hb ho s a, progress o r r' hb ho s a ∧ conserves edges hb ho s a) r.
Proof.
  induction edges as [|e edges IH]; intros k r I Hk Hok Hna; cbn [try_allocation_edges].
  { apply wp_ret. split; [done|]. rewrite Z.add_0_r in I. split; [done|].
    exists [], [], [], []. split; [apply progress_refl|apply conserves_nil]. }
  apply Forall_cons in Hok as [He Hok]. apply Forall_cons in Hna as [Hn Hna].
  replace (k + Z.of_nat (length (e :: edges))) with ((k + Z.of_nat (length edges)) + 1) in I by (simpl; lia).
  apply wp_bind. eapply wp_mono; [apply (try_allocation_spec o (k + Z.of_nat (length edges))); (done || lia)|].
  intros rc r1 l (-> & Hrc). simpl app.
  assert (∀ hb ho s a r2, progress o r r2 hb ho s a → conserves [e] hb ho s a → alloc_inv o (k + Z.of_nat (length edges)) r2 →
    wp (try_allocation_edges edges) (λ _ r' l, l = [] ∧ alloc_inv o k r' ∧
      ∃ hb ho s a, progress o r r' hb ho s a ∧ conserves (e :: edges) hb ho s a) r2) as Hgo.
  { intros hb ho s a r2 P C I2. eapply wp_mono; [apply (IH k r2 I2 Hk Hok)|].
    - rewrite Forall_forall in Hna, Hok |- *. intros e' Hin t Ht Eo. specialize (Hna e' Hin t Ht Eo).
      apply not_true_is_false. intros Hf%(pr_src _ _ _ _ _ _ _ P); [congruence|apply (eo_src e'); auto|lia].
    - intros _ r' l (-> & I' & hb' & ho' & s' & a' & P' & C'). split_and!; [done..|].
      exists (hb ++ hb'), (ho ++ ho'), (s ++ s'), (a ++ a'). split.
      + eapply progress_trans; [apply C|exact P|exact P'].
      + by apply (conserves_app [e] _ _ _ _ edges). }
  destruct rc; cbn [when].
  - destruct Hrc as [-> Ha]. apply wp_bind. unfold core_enqueue_to_q_out.
    replace (Build_backlog_edge _ _ _ _) with e.
    2:{ destruct e, He; simpl in *. by rewrite !u16_small, u32_small by lia. }
    eapply wp_mono; [apply (core_enqueue_to_q_out_edge_spec o (k + Z.of_nat (length edges))); (done || lia)|].
    intros _ r2 l (-> & I2 & P2). simpl app. apply (Hgo [] [e] [] []); [done| |done].
    constructor; try done; try (by constructor); intros f; unfold flow_sum, present, flow_count; simpl; lia.
  - destruct Hrc as (hb & s & I2 & P & C). apply wp_bind, wp_ret. simpl app. by apply (Hgo hb [] s [key e]).
Qed.

(** ** The loop over the bins *)

(** What holds between the start of the loop and any later point. *)
Record balanced (r r' : run R) : Prop := {
  bl_backlog : ∀ f, admitted_count f r' + binned (amount f) None r' + flow_sum f (out_entries r') =
    admitted_count f r + binned (amount f) None r + flow_sum f (out_entries r);
  bl_entries : ∀ f,
    binned (belongs f) None r' + present f (out_entries r') + present f (spent_entries r') =
    binned (belongs f) None r + present f (out_entries r) + present f (spent_entries r);
  bl_out : ∃ ho, out_entries r' = out_entries r ++ ho ∧ Forall edge_ok ho ∧ Forall (λ e, avail r' e = 0) ho;
  bl_spent : ∃ s, spent_entries r' = spent_entries r ++ s ∧ Forall (λ e, be_backlog e = 0) s;
  bl_avail : ∀ e, edge_ok e → avail r e = 0 → avail r' e = 0;
  bl_dst : dst_matching (bstate (core r)) (admitted (core r)) → dst_matching (bstate (core r')) (admitted (core r'));
  bl_time : current_timeslot (core r') = current_timeslot (core r);
  bl_mask : allowed_mask (bstate (core r')) = allowed_mask (bstate (core r));
  bl_closed : ∀ t, 0 ≤ t < 16 → Z.testbit (allowed_mask (bstate (core r))) t = false →
    arr_get (admitted (core r')) t = arr_get (admitted (core r)) t;
  bl_allowed : allowed_bins (core r') = allowed_bins (core r);
}.

#[export] Instance balanced_preorder : PreOrder balanced.
Proof.
  split.
  - intros r. constructor; try done; exists []; by rewrite app_nil_r.
  - intros r1 r2 r3 P Q. destruct P, Q. constructor; try congruence; auto.
    3: { intros t Ht Hb. rewrite bl_closed1, bl_closed0; [done|done|done|done|by rewrite bl_mask0]. }
    + destruct bl_out0 as (h1 & E1 & Ok1 & F1), bl_out1 as (h2 & E2 & Ok2 & F2). exists (h1 ++ h2).
      split_and!; [by rewrite E2, E1, app_assoc|by apply Forall_app|]. apply Forall_app. split; [|done].
      rewrite Forall_forall in Ok1, F1 |- *. auto.
    + destruct bl_spent0 as (h1 & E1 & F1), bl_spent1 as (h2 & E2 & F2). exists (h1 ++ h2).
      split; [by rewrite E2, E1, app_assoc|by apply Forall_app].
Qed.

(** Removing and restoring the bin in work. *)
Definition clear_mark (i : Z) (r : run R) : run R := {|
  core := set_non_empty_bins (Z.lxor (non_empty_bins (core r)) (2 ^ i)) (core r);
  q_out := q_out r; q_spent := q_spent r |}.
Definition clear_bin (i : Z) (r : run R) : run R := {|
  core := set_new_request_bins (arr_set (new_request_bins (core r)) i []) (core r);
  q_out := q_out r; q_spent := q_spent r |}.

Lemma clear_mark_inv k i r :
  alloc_inv None k r → 0 ≤ i < 48 → Z.testbit (non_empty_bins (core r)) i = true →
  alloc_inv (Some i) (k + Z.of_nat (length (arr_get (new_request_bins (core r)) i))) (clear_mark i r).
Proof.
  intros I Hi Hb. destruct I. constructor; try done; unfold clear_mark; core_simpl; try lia.
  - split; [|apply ai_masks]. apply lxor_range; [apply ai_masks| |lia].
    split; [apply Z.pow_nonneg; lia|apply Z.pow_lt_mono_r; lia].
  - intros j Hj Hne Hb'. rewrite lxor_clear by (done || lia). rewrite ai_marks by done.
    apply bool_decide_eq_true_2. congruence.
  - by intros j [= <-].
  - cbv zeta in *. simpl others in *. unfold bin_count in *.
    rewrite sum_of_set by (rewrite ai_bins; lia). simpl length. lia.
Qed.

Lemma clear_bin_inv k i r : alloc_inv (Some i) k r → alloc_inv None k (clear_bin i r).
Proof.
  intros I. pose proof (ai_index _ _ _ I i eq_refl) as Hi. destruct I.
  assert (Hget : ∀ j, 0 ≤ j → arr_get (arr_set (new_request_bins (core r)) i []) j =
    if decide (i = j) then [] else arr_get (new_request_bins (core r)) j).
  { intros j Hj. apply arr_get_set; rewrite ?ai_bins; lia. }
  constructor; try done; unfold clear_bin; core_simpl.
  - by rewrite length_arr_set.
  - intros j Hj. rewrite Hget by lia. case_decide; [by constructor|by apply ai_edges].
  - intros t e Ht. rewrite Hget by (unfold NUM_BINS; lia). case_decide; [by intros ?%not_elem_of_nil|by apply ai_wait].
  - intros j Hj _. rewrite Hget by lia. case_decide; [done|]. intros Hne. apply ai_marks; [done|congruence|done].
Qed.

(** The pass over bin [i]. *)
Lemma loop_body_balanced k i r r2 hb ho s a :
  alloc_inv None k r → 0 ≤ i < 48 →
  progress (Some i) (clear_mark i r) r2 hb ho s a →
  conserves (arr_get (new_request_bins (core r)) i) hb ho s a →
  balanced r (clear_bin i r2).
Proof.
  intros I Hi P C. destruct P, C. pose proof (ai_bins _ _ _ I) as Hlen.
  assert (∀ g, binned g None r = binned g (Some i) (clear_mark i r) + sum_of g (arr_get (new_request_bins (core r)) i)) as Hb.
  { intros g. unfold binned, clear_mark. core_simpl. simpl others. rewrite sum_of_set by (rewrite Hlen; lia). simpl. lia. }
  constructor; try done.
  - intros f. rewrite Hb. change (binned (amount f) None (clear_bin i r2)) with (binned (amount f) (Some i) r2).
    rewrite pr_bins. change (out_entries (clear_bin i r2)) with (out_entries r2). rewrite pr_out.
    change (admitted_count f (clear_bin i r2)) with (admitted_count f r2). rewrite pr_admitted.
    specialize (cs_backlog f). unfold flow_sum, clear_mark, out_entries, admitted_count in *. core_simpl. rewrite sum_of_app. lia.
  - intros f. rewrite Hb. change (binned (belongs f) None (clear_bin i r2)) with (binned (belongs f) (Some i) r2).
    rewrite pr_bins. change (out_entries (clear_bin i r2)) with (out_entries r2). rewrite pr_out.
    change (spent_entries (clear_bin i r2)) with (spent_entries r2). rewrite pr_spent.
    specialize (cs_entries f). unfold present, clear_mark, out_entries, spent_entries in *. core_simpl. rewrite !sum_of_app. lia.
  - exists ho. done.
  - exists s. done.
Qed.

(** The number of passes that the state still allows. *)
Definition alloc_measure (r : run R) : Z := popcount 48 (non_empty_bins (core r)) + slots (bstate (core r)).

Lemma alloc_measure_bound o k r : alloc_inv o k r → 0 ≤ alloc_measure r ≤ 48 + 16 * 256.
Proof.
  intros I. pose proof (slots_bound _ (ai_batch _ _ _ I)). unfold alloc_measure.
  pose proof (popcount_nonneg 48 (non_empty_bins (core r))). pose proof (popcount_le 48 (non_empty_bins (core r))). lia.
Qed.

Lemma try_allocation_loop_spec k : ∀ fuel r,
  alloc_inv None k r → alloc_measure r ≤ Z.of_nat fuel →
  wp (try_allocation_loop fuel) (λ _ r' l, l = [] ∧ alloc_inv None k r' ∧ balanced r r' ∧
    Z.land (non_empty_bins (core r')) (allowed_bins (core r')) = 0) r.
Proof.
  induction fuel as [|fuel IH]; intros r I Hm; cbn [try_allocation_loop]; apply wp_bind, wp_get; cbv zeta;
    destruct (Z.eqb_spec (Z.land (non_empty_bins (core r)) (allowed_bins (core r))) 0) as [Hz|Hz];
    try (by apply wp_ret);
    destruct (ai_masks _ _ _ I) as [Hne Hal];
    assert (0 ≤ Z.land (non_empty_bins (core r)) (allowed_bins (core r)) < 2 ^ 48) as Hr by (apply land_range; lia);
    destruct (ffs_spec _ 48 Hr Hz) as (Hi & Hb & _); rewrite Z.land_spec in Hb; apply andb_true_iff in Hb as [Hb _];
    pose proof (land_neg_ffs 48 _ Hr ltac:(lia) Hz) as Elow;
    set (i := __ffs _) in *; clearbody i; pose proof (popcount_clear 48 _ i Hi Hb) as Hpop.
  { pose proof (popcount_nonneg 48 (Z.lxor (non_empty_bins (core r)) (2 ^ i))).
    pose proof (slots_bound _ (ai_batch _ _ _ I)). unfold alloc_measure in Hm. lia. }
  rewrite Elow. apply wp_bind, wp_modify. fold (clear_mark i r). unfold try_allocation_bin. apply wp_bind, wp_bind, wp_get.
  pose proof (clear_mark_inv k i r I Hi Hb) as I1. simpl app.
  change (new_request_bins (core (clear_mark i r))) with (new_request_bins (core r)).
  eapply wp_mono; [apply (try_allocation_edges_spec (Some i) _ k); [exact I1|by apply (ai_hand _ _ _ I)| |]|].
  - by apply (ai_edges _ _ _ I).
  - apply Forall_forall. intros e He t Ht [= ->]. by apply (ai_wait _ _ _ I t e Ht).
  - intros _ r2 l (-> & I2 & hb & ho & s & a & P & C). apply wp_bind, wp_modify. simpl app.
    change (wp (try_allocation_loop fuel) (λ _ r' l, l = [] ∧ alloc_inv None k r' ∧ balanced r r' ∧
      Z.land (non_empty_bins (core r')) (allowed_bins (core r')) = 0) (clear_bin i r2)).
    eapply wp_mono; [apply (IH (clear_bin i r2)); [by apply clear_bin_inv|]|].
    + pose proof (pr_slots _ _ _ _ _ _ _ P). pose proof (pr_marks _ _ _ _ _ _ _ P). pose proof (cs_binned _ _ _ _ _ C).
      unfold alloc_measure, clear_bin, clear_mark in *. core_simpl. cbn [core bstate non_empty_bins set_non_empty_bins] in *. lia.
    + intros _ r' l (-> & I' & B & E). split_and!; try done. etrans; [|exact B]. by eapply loop_body_balanced.
Qed.
End alloc.
