(* ===== verification/AdmissionBatch.v ===== *)
(** * A batch of timeslots

    The start of a batch ([alloc_core_reset]), its end ([wrap_up] in
    [seq_get_admissible_traffic]) and the communication core's accounting of
    demands. *)

From S2P Require Import Prelude Platform Lists Pacer Ring Admission AdmissionFacts AdmissionSpec.
From S2P Require Import AdmissionAlloc.

Section batch.
Context {R : Type} `{Ring R bin}.
Implicit Types (r : run R) (c : core_state).

(** ** Start of a batch *)

(** A core between batches. *)
Record core_ready (c : core_state) : Prop := {
  cr_bins : length (new_request_bins c) = 48%nat;
  cr_admitted : length (admitted c) = 16%nat;
  cr_out : out_bin c = [];
  cr_spent : spent_bin c = [];
  cr_src : length (src_endnodes (bstate c)) = 256%nat ∧ Forall (λ w, 0 ≤ w < 2 ^ 64) (src_endnodes (bstate c));
  cr_dst : length (dst_endnodes (bstate c)) = 256%nat ∧ Forall (λ w, 0 ≤ w < 2 ^ 64) (dst_endnodes (bstate c));
}.

(** The state that a batch starts from: the reset core with the empty buffers for
    its admitted traffic. *)
Definition fresh (c : core_state) : core_state := set_admitted (init_admitted_traffic <$> admitted c) c.

Lemma fresh_words n (l : list Z) : 0 ≤ n ≤ 256 → length l = 256%nat → Forall (λ w, 0 ≤ w < 2 ^ 64) l →
  let l' := replicate (Z.to_nat n) (not64 0) ++ drop (Z.to_nat n) l in
  length l' = 256%nat ∧ Forall (λ w, 0 ≤ w < 2 ^ 64) l'.
Proof.
  intros Hn Hl Hf l'. split.
  - unfold l'. rewrite length_app, length_replicate, length_drop. lia.
  - apply Forall_app. split; [by apply Forall_replicate|by apply Forall_drop].
Qed.

Lemma batch_init_ok st cap n :
  0 ≤ n ≤ 256 →
  length (src_endnodes st) = 256%nat ∧ Forall (λ w, 0 ≤ w < 2 ^ 64) (src_endnodes st) →
  length (dst_endnodes st) = 256%nat ∧ Forall (λ w, 0 ≤ w < 2 ^ 64) (dst_endnodes st) →
  batch_ok (initial_batch st cap n).
Proof.
  intros Hn [Hs1 Hs2] [Hd1 Hd2]. destruct (fresh_words n _ Hn Hs1 Hs2), (fresh_words n _ Hn Hd1 Hd2).
  constructor; cbn [initial_batch src_endnodes dst_endnodes out_of_boundary_counts allowed_mask]; try done.
  - by rewrite length_arr_set.
  - by apply arr_set_Forall.
Qed.

Lemma alloc_core_reset_spec cap n r :
  core_ready (core r) → 0 ≤ n ≤ 256 → r_wf (q_out r) → r_wf (q_spent r) →
  (0 < r_free (q_out r))%nat → (0 < r_free (q_spent r))%nat →
  ∃ c, alloc_core_reset cap n (core r) = Some c ∧
    let r' := {| core := fresh c; q_out := q_out r; q_spent := q_spent r |} in
    alloc_inv None 0 r' ∧ current_timeslot c = current_timeslot (core r) ∧ allowed_bins c = 1 ∧
    (∀ f, admitted_count f r' = 0) ∧ (∀ g, binned g None r' = 0) ∧ out_entries r' = out_entries r ∧
    spent_entries r' = spent_entries r ∧
    (cap = 0 → dst_matching (bstate c) (admitted (fresh c))).
Proof.
  intros [Hb Ha Ho Hs Hsrc Hdst] Hn Hwo Hws Hfo Hfs. unfold alloc_core_reset, batch_state_init. change MAX_NODES with 256.
  rewrite (proj2 (Z.leb_le n 256)), Ho, Hs by lia. simpl andb.
  eexists. split; [done|]. cbv zeta.
  assert (Hbin : ∀ i, arr_get (init_bin <$> new_request_bins (core r)) i = []).
  { intros i. unfold arr_get, init_bin.
    rewrite list_lookup_total_alt, list_lookup_fmap. by destruct (new_request_bins (core r) !! _). }
  assert (Hadm : ∀ i, arr_get (init_admitted_traffic <$> admitted (core r)) i = []).
  { intros i. unfold arr_get, init_admitted_traffic.
    rewrite list_lookup_total_alt, list_lookup_fmap. by destruct (admitted (core r) !! _). }
  assert (Hz : ∀ X (g : X → Z) l, (∀ x, x ∈ l → g x = 0) → sum_of g l = 0).
  { intros X g l Hg. induction l as [|x l IH]; [done|]. simpl.
    rewrite (Hg x), IH by (set_solver). done. }
  assert (Hsum : ∀ (g : bin → Z), g [] = 0 → sum_of g (init_bin <$> new_request_bins (core r)) = 0).
  { intros g Hg. apply Hz. by intros x (y & -> & _)%list_elem_of_fmap. }
  split_and!; try done.
  - constructor; unfold fresh; core_simpl; rewrite ?length_fmap; try done; rewrite ?Hs, ?Ho.
    + by apply batch_init_ok.
    + intros i _. by rewrite Hbin.
    + intros t e _. rewrite Hbin. by intros ?%not_elem_of_nil.
    + intros t _. rewrite Hadm. split; [constructor|]. by intros p ?%not_elem_of_nil.
    + unfold SMALL_BIN_SIZE. simpl. lia.
    + unfold SMALL_BIN_SIZE. simpl. lia.
    + intros i _ _. by rewrite Hbin.
    + cbv zeta. simpl others. unfold bin_count. rewrite Hsum by done. unfold LARGE_BIN_SIZE. change MAX_NODES with 256. lia.
  - intros f. apply Hz. by intros x (y & -> & _)%list_elem_of_fmap.
  - intros g. unfold binned, fresh. core_simpl. simpl others. by apply Hsum.
  - unfold out_entries. core_simpl. by rewrite Ho.
  - unfold spent_entries. core_simpl. by rewrite Hs.
  - intros ->. intros t Ht _. unfold fresh. core_simpl. rewrite Hadm. split_and!; [|constructor|by intros p ?%not_elem_of_nil].
    cbn [initial_batch out_of_boundary_counts]. unfold arr_get. apply lookup_total_replicate_2.
    unfold BATCH_SIZE. lia.
Qed.

(** ** End of a batch *)

(** The output side while the bins are drained: room for [n] more entries. *)
Record draining (n : Z) (r0 r : run R) : Prop := {
  dr_core : ∃ b, core r = set_out_bin b (core r0);
  dr_len : (length (out_bin (core r)) < SMALL_BIN_SIZE)%nat;
  dr_wf : r_wf (q_out r);
  dr_free : n < Z.of_nat (r_free (q_out r));
  dr_spent : q_spent r = q_spent r0;
}.

Lemma draining_step n r0 r e : draining (n + 1) r0 r → 0 ≤ n →
  wp (core_enqueue_to_q_out_edge e) (λ _ r' l, l = [] ∧ draining n r0 r' ∧ out_entries r' = out_entries r ++ [e]) r.
Proof.
  intros [(b0 & Ec) Hl Hw Hf Hs] Hn. eapply wp_mono; [apply enqueue_out_step; [done..|lia]|].
  intros _ r' l (-> & b & q & -> & E & Hb & Hq & Hfq). split_and!; [done| |done].
  constructor; core_simpl; try done; [|lia]. exists b. by rewrite Ec.
Qed.

Lemma move_bin_spec r0 : ∀ b n r, draining (n + Z.of_nat (length b)) r0 r → 0 ≤ n →
  wp (move_bin_to_q_out b) (λ _ r' l, l = [] ∧ draining n r0 r' ∧ out_entries r' = out_entries r ++ b) r.
Proof.
  induction b as [|e b IH]; intros n r Hd Hn; cbn [move_bin_to_q_out].
  { apply wp_ret. rewrite Z.add_0_r in Hd. by rewrite app_nil_r. }
  apply wp_bind. eapply wp_mono; [apply (draining_step (n + Z.of_nat (length b))); [|lia]|].
  { by replace (n + Z.of_nat (length b) + 1) with (n + Z.of_nat (length (e :: b))) by (simpl; lia). }
  intros _ r1 l (-> & Hd1 & E1). eapply wp_mono; [by apply IH|]. intros _ r2 l (-> & Hd2 & E2).
  split_and!; [done..|]. by rewrite E2, E1, <- app_assoc.
Qed.

Lemma concat_drop_skip (l : list bin) p i :
  (p ≤ i < length l)%nat → (∀ j, (p ≤ j < i)%nat → l !!! j = []) →
  concat (drop p l) = l !!! i ++ concat (drop (S i) l).
Proof.
  intros Hp He. remember (i - p)%nat as d eqn:Ed. revert p Hp He Ed. induction d as [|d IH]; intros p Hp He Ed.
  - replace p with i by lia. destruct (lookup_lt_is_Some_2 l i) as [x Hx]; [lia|].
    rewrite (drop_S l x i Hx). simpl. by rewrite (list_lookup_total_correct _ _ _ Hx).
  - destruct (lookup_lt_is_Some_2 l p) as [x Hx]; [lia|]. rewrite (drop_S l x p Hx). simpl.
    rewrite <- (list_lookup_total_correct _ _ _ Hx), (He p) by lia. apply (IH (S p)); [lia| |lia].
    intros j Hj. apply He. lia.
Qed.

Lemma concat_empty (l : list bin) : (∀ j, (j < length l)%nat → l !!! j = []) → concat l = [].
Proof.
  induction l as [|x l IH]; intros Hl; [done|]. simpl. pose proof (Hl 0%nat ltac:(simpl; lia)) as E. simpl in E. subst x.
  apply IH. intros j Hj. apply (Hl (S j)). simpl. lia.
Qed.

Lemma length_concat_count (l : list bin) : Z.of_nat (length (concat l)) = bin_count l.
Proof. induction l as [|b l IH]; [done|]. simpl. rewrite length_app. unfold bin_count in *. simpl. lia. Qed.

(** The loop over the marked bins, from bin [p] on. *)
Lemma move_core_loop_spec r0 bins : length bins = 48%nat → new_request_bins (core r0) = bins →
  ∀ fuel mask (p : nat) n r, 0 ≤ mask < 2 ^ 48 → (p ≤ 48)%nat → (48 ≤ fuel + p)%nat →
  (∀ j, 0 ≤ j < Z.of_nat p → Z.testbit mask j = false) →
  (∀ j, (p ≤ j < 48)%nat → bins !!! j ≠ [] → Z.testbit mask (Z.of_nat j) = true) →
  draining (n + bin_count (drop p bins)) r0 r → 0 ≤ n →
  wp (move_core_loop fuel mask) (λ _ r' l, l = [] ∧ draining n r0 r' ∧
    out_entries r' = out_entries r ++ concat (drop p bins)) r.
Proof.
  intros Hlen Hbins. induction fuel as [|fuel IH]; intros mask p n r Hm Hp Hfuel Hlow Hmark Hd Hn;
    cbn [move_core_loop]; destruct (Z.eqb_spec mask 0) as [Hz|Hz].
  - apply wp_ret. replace p with 48%nat in * by lia. rewrite drop_ge in * by lia. rewrite Z.add_0_r in Hd. by rewrite app_nil_r.
  - destruct (ffs_spec mask 48 Hm Hz) as (Hf & Hb & _). rewrite Hlow in Hb by lia. done.
  - apply wp_ret. assert (concat (drop p bins) = []) as E.
    { apply concat_empty. intros j Hj. rewrite length_drop in Hj. rewrite list_lookup_total_alt, lookup_drop, <- list_lookup_total_alt.
      destruct (bins !!! (p + j)%nat) eqn:Eb; [done|]. specialize (Hmark (p + j)%nat ltac:(lia)).
      rewrite Eb, Hz, Z.bits_0 in Hmark. by specialize (Hmark ltac:(done)). }
    rewrite <- length_concat_count, E in Hd. rewrite Z.add_0_r in Hd. by rewrite E, app_nil_r.
  - destruct (ffs_spec mask 48 Hm Hz) as (Hf & Hb & Hflow). pose proof (land_pred_ffs 48 mask) as Hpred.
    set (i := __ffs mask) in *. clearbody i.
    assert (Z.of_nat p ≤ i) as Hpi.
    { destruct (decide (Z.of_nat p ≤ i)); [done|]. rewrite Hlow in Hb by lia. done. }
    rewrite (concat_drop_skip bins p (Z.to_nat i)) in *; [|lia|].
    2:{ intros j Hj. destruct (bins !!! j) eqn:Eb; [done|]. specialize (Hmark j ltac:(lia)).
        rewrite Eb, Hflow in Hmark by lia. by specialize (Hmark ltac:(done)). }
    rewrite <- length_concat_count, (concat_drop_skip bins p (Z.to_nat i)), length_app in Hd.
    2:{ lia. }
    2:{ intros j Hj. destruct (bins !!! j) eqn:Eb; [done|]. specialize (Hmark j ltac:(lia)).
        rewrite Eb, Hflow in Hmark by lia. by specialize (Hmark ltac:(done)). }
    apply wp_bind, wp_get, wp_bind.
    replace (arr_get (new_request_bins (core r)) i) with (bins !!! Z.to_nat i).
    2:{ destruct Hd as [(b & ->) _ _ _ _]. core_simpl. by rewrite Hbins. }
    eapply wp_mono; [apply (move_bin_spec r0 _ (n + Z.of_nat (length (concat (drop (S (Z.to_nat i)) bins)))))|].
    + by replace (n + _ + _) with (n + Z.of_nat (length (bins !!! Z.to_nat i) + length (concat (drop (S (Z.to_nat i)) bins)))) by lia.
    + lia.
    + intros _ r1 l (-> & Hd1 & E1). rewrite length_concat_count in Hd1.
      eapply wp_mono; [apply (IH _ (S (Z.to_nat i)) n r1); try done; try lia|].
      * apply land_range; [done|apply u64_range|lia].
      * intros j Hj. rewrite Hpred by lia. destruct (decide (j = i)) as [->|]; [by rewrite bool_decide_eq_false_2, andb_false_r by congruence|].
        by rewrite Hflow by lia.
      * intros j Hj Hne. rewrite Hpred by lia. rewrite Hmark by (done || lia). apply bool_decide_eq_true_2. lia.
      * intros _ r2 l (-> & Hd2 & E2). split_and!; [done..|]. by rewrite E2, E1, <- app_assoc.
Qed.

(** A batch ends with every entry it held on the way: to the next core, or back. *)
Lemma wrap_up_flush_spec r : alloc_inv None 0 r →
  wp wrap_up_flush (λ _ r' l, l = [] ∧
    core r' = set_spent_bin [] (set_out_bin [] (core r)) ∧ r_wf (q_out r') ∧ r_wf (q_spent r') ∧
    concat (r_list (q_out r')) = out_entries r ++ concat (new_request_bins (core r)) ∧
    concat (r_list (q_spent r')) = spent_entries r) r.
Proof.
  intros I. destruct I. cbv zeta in ai_room. simpl others in ai_room. unfold wrap_up_flush, move_core_to_q_out.
  apply wp_bind, wp_bind, wp_get.
  eapply wp_mono; [apply (move_core_loop_spec r _ ai_bins eq_refl 64 _ 0 0); try done; try lia|].
  { intros j Hj. replace (new_request_bins (core r) !!! j) with (arr_get (new_request_bins (core r)) (Z.of_nat j)).
    - apply ai_marks; [lia|done].
    - unfold arr_get. by rewrite Nat2Z.id. }
  { constructor; try done; [|apply ai_rings|]. { by exists (out_bin (core r)); destruct r as [[]]. }
    rewrite drop_0. lia. }
  intros _ r1 l (-> & [(b & Ec) Hl Hw Hf Hs] & E1). rewrite drop_0 in E1. apply wp_bind, wp_get. simpl app.
  assert (Hspent : spent_bin (core r1) = spent_bin (core r)) by (by rewrite Ec).
  assert (wp (when (negb (is_empty_bin (out_bin (core r1)))) core_flush_q_out) (λ _ r2 l, l = [] ∧
    core r2 = set_out_bin [] (core r) ∧ r_wf (q_out r2) ∧ q_spent r2 = q_spent r ∧
    concat (r_list (q_out r2)) = out_entries r1) r1) as Hflush.
  { unfold when, is_empty_bin. case_bool_decide as Eb; cbn [negb].
    - apply wp_ret. apply nil_length_inv in Eb. unfold out_entries. rewrite Eb, app_nil_r. split_and!; try done.
      rewrite Ec in Eb |- *. core_simpl. cbn in Eb. by rewrite Eb.
    - unfold core_flush_q_out. apply wp_bind, wp_get.
      destruct (r_enqueue_spec (q_out r1) (out_bin (core r1)) Hw) as (q & Eq & Hq & Hlq & _); [lia|].
      apply wp_bind. eapply wp_deref; [exact Eq|]. apply wp_put. core_simpl. split_and!; try done.
      + by rewrite Ec.
      + rewrite Hlq, concat_app. simpl. by rewrite app_nil_r. }
  apply wp_bind. eapply wp_mono; [exact Hflush|]. intros _ r2 l (-> & Ec2 & Hw2 & Hs2 & E2). apply wp_bind, wp_get.
  unfold when, is_empty_bin. case_bool_decide as Eb; cbn [negb].
  - apply wp_ret. apply nil_length_inv in Eb. rewrite E2, E1, Hs2. split_and!; try done.
    + rewrite Ec2 in Eb |- *. cbn in Eb. unfold set_spent_bin, set_out_bin. core_simpl. by rewrite Eb.
    + apply ai_rings.
    + unfold spent_entries. rewrite Ec2 in Eb. cbn in Eb. by rewrite Eb, app_nil_r.
  - unfold core_flush_q_spent. apply wp_bind, wp_get.
    destruct (r_enqueue_spec (q_spent r2) (spent_bin (core r2))) as (q & Eq & Hq & Hlq & _).
    { rewrite Hs2. apply ai_rings. }
    { rewrite Hs2. pose proof (bin_count_nonneg (new_request_bins (core r))). lia. }
    apply wp_bind. eapply wp_deref; [exact Eq|]. apply wp_put. core_simpl. split_and!; try done.
    + by rewrite Ec2.
    + by rewrite E2, E1.
    + rewrite Hlq, concat_app, Ec2, Hs2. simpl. by rewrite app_nil_r.
Qed.
(** More entries may be taken in hand while there is room. *)
Lemma alloc_inv_hand k (r : run R) :
  alloc_inv None 0 r → 0 ≤ k →
  (let m := k + bin_count (new_request_bins (core r)) in
   m ≤ LARGE_BIN_SIZE ∧ m < Z.of_nat (r_free (q_out r)) ∧ m < Z.of_nat (r_free (q_spent r))) →
  alloc_inv None k r.
Proof. intros I Hk Hm. destruct I. by constructor. Qed.

Lemma allowed_inv o k m (r : run R) : alloc_inv o k r → 0 ≤ m < 2 ^ 48 →
  alloc_inv o k {| core := set_allowed_bins m (core r); q_out := q_out r; q_spent := q_spent r |}.
Proof. intros I Hm. destruct I. constructor; try done. split; [apply ai_masks|done]. Qed.
End batch.
