(* ===== verification/AdmissionDemand.v ===== *)
(** * The communication core's accounting of demands

    A flow is active while an entry for it travels through the allocation cores;
    demand that arrives meanwhile waits in the backlog counter, and is sent when
    the entry comes back spent. *)

From S2P Require Import Prelude Platform Window WindowFacts Lists Pacer Ring Admission AdmissionFacts.
From S2P Require Import AdmissionSpec.

Section demand.
Context {R : Type} `{Ring R bin}.
Implicit Types (d : demand R) (f : flow).

(** Projections of an updated demand state. *)
Ltac dem_simpl := cbn [last_alloc_tslot backlog_n is_active new_demands q_head set_last_alloc_tslot
  set_backlog_n set_is_active set_new_demands set_q_head].

Definition node (x : Z) : Prop := 0 ≤ x < 256.
Definition flow_ok f : Prop := node f.1 ∧ node f.2.
Definition idx f : Z := get_status_index f.1 f.2.

Lemma idx_eq f : flow_ok f → idx f = f.1 * 256 + f.2.
Proof.
  intros [H1 H2]. unfold node in *. unfold idx, get_status_index. change FP_NODES_SHIFT with 8.
  rewrite Z.shiftl_mul_pow2 by lia. change (2 ^ 8) with 256. rewrite u32_small; lia.
Qed.

Lemma idx_range f : flow_ok f → 0 ≤ idx f < 65536.
Proof. intros Hf. rewrite idx_eq by done. destruct Hf. unfold node in *. lia. Qed.

Lemma idx_inj f f' : flow_ok f → flow_ok f' → idx f = idx f' → f = f'.
Proof.
  intros Hf Hf'. rewrite !idx_eq by done. destruct f, f', Hf, Hf'. unfold node in *. simpl in *.
  intros. f_equal; lia.
Qed.

(** Is an entry of [f] on its way; the demand not yet sent; the entries that the
    communication core has sent or is about to send. *)
Definition active f d : bool := wbit (is_active d) (idx f).
Definition unsent f d : Z := arr_get (backlog_n d) (idx f).
Definition sent d : bin := concat (r_list (q_head d)) ++ new_demands d.

Record demand_ok (d : demand R) : Prop := {
  do_backlog : Z.of_nat (length (backlog_n d)) = 65536;
  do_last : Z.of_nat (length (last_alloc_tslot d)) = 65536;
  do_active : Z.of_nat (length (is_active d)) = 1024;
  do_idle : ∀ f, flow_ok f → active f d = false → unsent f d = 0;
  do_demands : (length (new_demands d) < SMALL_BIN_SIZE)%nat;
  do_ring : r_wf (q_head d);
}.

(** The demand of a flow that waits on this side. *)
Definition pending f d : Z := unsent f d + flow_sum f (sent d).

(** The entries of a flow that the allocation cores hold or return. *)
Definition outside f d : Z := b2z (active f d) - present f (sent d).

(** ** Sending an entry *)
Lemma enqueue_new_demand_spec d src dst n :
  demand_ok d → (0 < r_free (q_head d))%nat →
  wp (enqueue_new_demand src dst n) (λ _ d' l, l = [] ∧ demand_ok d' ∧
    last_alloc_tslot d' = last_alloc_tslot d ∧ backlog_n d' = backlog_n d ∧ is_active d' = is_active d ∧
    sent d' = sent d ++ [{| be_src := u16 src; be_dst := u16 dst; be_backlog := u16 n;
      be_metric := u32 (arr_get (last_alloc_tslot d) (get_status_index src dst)) |}] ∧
    (r_free (q_head d) ≤ S (r_free (q_head d')))%nat) d.
Proof.
  intros [Hb Hla Ha Hi Hl Hr] Hroom. unfold enqueue_new_demand. apply wp_bind, wp_get. apply wp_bind. eapply wp_deref.
  { unfold enqueue_bin, enqueue_bin_edge. rewrite (proj2 (Z.ltb_lt _ _)); [done|]. unfold SMALL_BIN_SIZE in *. lia. }
  set (e := Build_backlog_edge _ _ _ _). apply wp_bind, wp_put. unfold when, bin_size. case_bool_decide as Hfull.
  - unfold _flush_backlog_now. apply wp_bind, wp_get. dem_simpl.
    destruct (r_enqueue_spec (q_head d) (new_demands d ++ [e]) Hr Hroom) as (q & Eq & Hq & Hlq & Hfq).
    apply wp_bind. eapply wp_deref; [exact Eq|]. apply wp_put. split_and!; try done.
    + constructor; dem_simpl; try done. unfold SMALL_BIN_SIZE, init_bin. simpl. lia.
    + unfold sent. dem_simpl. rewrite Hlq, concat_app. simpl. by rewrite !app_nil_r, app_assoc.
    + dem_simpl. lia.
  - apply wp_ret. split_and!; try done; [| |dem_simpl; lia].
    + constructor; dem_simpl; try done. rewrite length_app in *. unfold SMALL_BIN_SIZE in *. simpl in *. lia.
    + unfold sent. dem_simpl. by rewrite app_assoc.
Qed.

(** Updates of the counters. *)
Lemma unsent_set f f' d v : demand_ok d → flow_ok f → flow_ok f' →
  arr_get (arr_set (backlog_n d) (idx f) v) (idx f') = if decide (f' = f) then v else unsent f' d.
Proof.
  intros Hd Hf Hf'. pose proof (idx_range f Hf). pose proof (idx_range f' Hf').
  rewrite arr_get_set by (rewrite ?(do_backlog _ Hd); lia).
  destruct (decide (f' = f)) as [->|Hne]; [by rewrite decide_True|].
  rewrite decide_False; [done|]. intros E. apply Hne. symmetry. by apply idx_inj.
Qed.

Lemma active_set f f' d : demand_ok d → flow_ok f → flow_ok f' →
  wbit (__set_bit (idx f) (is_active d)) (idx f') = bool_decide (f' = f) || active f' d.
Proof.
  intros Hd Hf Hf'. pose proof (idx_range f Hf). pose proof (idx_range f' Hf').
  rewrite wbit_set_bit by (rewrite ?(do_active _ Hd); lia). f_equal. apply bool_decide_ext.
  split; [by apply idx_inj|congruence].
Qed.

Lemma active_clear f f' d : demand_ok d → flow_ok f → flow_ok f' →
  wbit (__clear_bit (idx f) (is_active d)) (idx f') = negb (bool_decide (f' = f)) && active f' d.
Proof.
  intros Hd Hf Hf'. pose proof (idx_range f Hf). pose proof (idx_range f' Hf').
  rewrite wbit_clear_bit by (rewrite ?(do_active _ Hd); lia). f_equal. f_equal. apply bool_decide_ext.
  split; [by apply idx_inj|congruence].
Qed.

(** ** New demand *)
Lemma seq_add_backlog_spec d f n :
  demand_ok d → flow_ok f → 0 < n < 2 ^ 16 → 0 ≤ unsent f d → unsent f d + n < 2 ^ 32 → (0 < r_free (q_head d))%nat →
  wp (seq_add_backlog f.1 f.2 n) (λ _ d' l, l = [] ∧ demand_ok d' ∧
    (∀ f', flow_ok f' → pending f' d' = pending f' d + if decide (f' = f) then n else 0) ∧
    (∀ f', flow_ok f' → outside f' d' = outside f' d) ∧ active f d' = true ∧
    last_alloc_tslot d' = last_alloc_tslot d) d.
Proof.
  intros Hd Hf Hn Hu Hbound Hroom. pose proof Hd as Hd0. destruct Hd0 as [Hb Hla Ha Hi Hl Hr].
  unfold seq_add_backlog, backlog_increase. apply wp_bind. destruct (Z.eqb_spec n 0); [lia|].
  apply wp_bind, wp_get. cbv zeta. fold (idx f). rewrite test_bit_wbit. fold (active f d). apply wp_bind, wp_put.
  destruct (active f d) eqn:Eact.
  - apply wp_bind, wp_modify, wp_ret. dem_simpl. apply wp_ret. split; [done|].
    set (d' := set_backlog_n _ _).
    assert (Hact : ∀ f', flow_ok f' → active f' d' = active f' d).
    { intros f' Hf'. unfold active, d'. dem_simpl. fold (active f' d). rewrite active_set by done.
      case_bool_decide; [by subst; rewrite Eact|done]. }
    assert (Hun : ∀ f', flow_ok f' → unsent f' d' = unsent f' d + if decide (f' = f) then n else 0).
    { intros f' Hf'. unfold unsent, d'. dem_simpl. rewrite unsent_set by done. fold (unsent f d).
      case_decide; [subst; by rewrite u32_small by lia|unfold unsent; lia]. }
    split_and!; try done.
    + constructor; unfold d'; dem_simpl; try done.
      * by rewrite length_arr_set.
      * unfold __set_bit. by rewrite length_arr_set.
      * intros f' Hf' Hact'. fold d' in Hact' |- *. rewrite Hact in Hact' by done. rewrite Hun by done.
        case_decide; [subst; congruence|]. rewrite Z.add_0_r. by apply Hi.
    + intros f' Hf'. unfold pending. rewrite Hun by done. change (sent d') with (sent d). lia.
    + intros f' Hf'. unfold outside. rewrite Hact by done. done.
    + by rewrite Hact.
  - pose proof (Hi f Hf Eact) as Hz. unfold unsent in Hz. rewrite Hz. apply wp_ret.
    set (d1 := set_is_active _ _).
    assert (Hact : ∀ f', flow_ok f' → active f' d1 = bool_decide (f' = f) || active f' d).
    { intros f' Hf'. by apply active_set. }
    assert (demand_ok d1) as Hd1.
    { constructor; unfold d1; dem_simpl; try done; [unfold __set_bit; by rewrite length_arr_set|].
      intros f' Hf'. fold d1. rewrite Hact by done. intros [_ ?]%orb_false_iff. by apply Hi. }
    eapply wp_mono; [by apply enqueue_new_demand_spec|]. intros _ d' l (-> & Hd' & El & Eb & Ea & Es & Hfr).
    assert (∀ f', active f' d' = active f' d1) as Hact' by (intros; unfold active; by rewrite Ea).
    destruct Hf as [Hf1 Hf2]. unfold node in *. rewrite !u16_small in Es by lia.
    set (e := Build_backlog_edge _ _ _ _) in Es.
    assert (key e = f) as Ek by (by destruct f).
    split_and!; try done.
    + intros f' Hf'. unfold pending, unsent. rewrite Eb, Es. unfold flow_sum. rewrite sum_of_app. simpl.
      unfold amount at 2. rewrite Ek. change (sent d1) with (sent d). change (backlog_n d1) with (backlog_n d).
      change (be_backlog e) with n. repeat case_decide; (lia || congruence).
    + intros f' Hf'. unfold outside. rewrite Hact', Hact, Es by done. unfold present. rewrite sum_of_app. simpl.
      unfold belongs at 2. rewrite Ek. change (sent d1) with (sent d). case_decide.
      * subst f'. rewrite bool_decide_eq_true_2, Eact by done. simpl. lia.
      * rewrite bool_decide_eq_false_2 by congruence. simpl. lia.
    + rewrite Hact', Hact by done. by rewrite bool_decide_eq_true_2.
Qed.

(** ** A spent entry comes back *)
Definition spent_ok d (e : backlog_edge) : Prop :=
  flow_ok (key e) ∧ active (key e) d = true ∧ 0 ≤ unsent (key e) d < 2 ^ 16.

Lemma handle_spent_edge_spec d e :
  demand_ok d → spent_ok d e → (0 < r_free (q_head d))%nat →
  wp (handle_spent_edge e) (λ _ d' l, l = [] ∧ demand_ok d' ∧
    (∀ f, flow_ok f → pending f d' = pending f d) ∧
    (∀ f, flow_ok f → outside f d' = outside f d - belongs f e) ∧
    (∀ f, flow_ok f → f ≠ key e → active f d' = active f d ∧ unsent f d' = unsent f d) ∧
    active (key e) d' = negb (unsent (key e) d =? 0) ∧
    (r_free (q_head d) ≤ S (r_free (q_head d')))%nat) d.
Proof.
  intros Hd (Hf & Hact & Hu) Hroom. pose proof Hd as Hd0. destruct Hd0 as [Hb Hla Ha Hi Hl Hr].
  unfold handle_spent_edge. apply wp_bind, wp_get. cbv zeta. unfold backlog_get. fold (idx (key e)). fold (unsent (key e) d).
  change (get_status_index (be_src e) (be_dst e)) with (idx (key e)). change (arr_get (backlog_n d) (idx (key e))) with (unsent (key e) d).
  destruct (Z.eqb_spec (unsent (key e) d) 0) as [Hz|Hz].
  - apply wp_bind, wp_modify, wp_modify. dem_simpl. fold (idx (key e)). split; [done|].
    change (get_status_index (be_src e) (be_dst e)) with (idx (key e)). set (d' := set_is_active _ _).
    assert (Hact' : ∀ f, flow_ok f → active f d' = negb (bool_decide (f = key e)) && active f d).
    { intros f Hf'. by apply active_clear. }
    split_and!; try done.
    + constructor; unfold d'; dem_simpl; try done; try (by rewrite length_arr_set); [unfold __clear_bit; by rewrite length_arr_set|].
      intros f Hf'. fold d'. rewrite Hact' by done. change (unsent f d') with (unsent f d).
      case_bool_decide; [by subst|]. by apply Hi.
    + intros f Hf'. unfold outside. rewrite Hact' by done. change (sent d') with (sent d). unfold belongs.
      case_bool_decide; case_decide; try congruence; [subst; rewrite Hact|]; simpl; lia.
    + intros f Hf' Hne. rewrite Hact', bool_decide_eq_false_2 by done. done.
    + rewrite Hact', bool_decide_eq_true_2 by done. done.
    + unfold d'. dem_simpl. lia.
  - apply wp_bind, wp_modify. change (get_status_index (be_src e) (be_dst e)) with (idx (key e)). set (d1 := set_backlog_n _ _).
    assert (Hun : ∀ f, flow_ok f → unsent f d1 = if decide (f = key e) then 0 else unsent f d).
    { intros f Hf'. by apply unsent_set. }
    assert (demand_ok d1) as Hd1.
    { constructor; unfold d1; dem_simpl; try done; [by rewrite length_arr_set|].
      intros f Hf' Ea. fold d1. rewrite Hun by done. case_decide; [done|by apply Hi]. }
    eapply wp_mono; [by apply enqueue_new_demand_spec|]. intros _ d' l (-> & Hd' & El & Eb & Ea & Es & Hfr).
    assert (∀ f, active f d' = active f d) as Hact' by (intros; unfold active; by rewrite Ea).
    destruct Hf as [Hf1 Hf2]. unfold node in *. simpl in Hf1, Hf2. rewrite !u16_small in Es by lia.
    set (e' := Build_backlog_edge _ _ _ _) in Es. assert (key e' = key e) as Ek by done.
    assert (∀ f, unsent f d' = unsent f d1) as Hun' by (intros; unfold unsent; by rewrite Eb).
    split_and!; try done.
    + intros f Hf'. unfold pending. rewrite Hun', Hun, Es by done. unfold flow_sum. rewrite sum_of_app. simpl.
      unfold amount at 2. rewrite Ek. change (sent d1) with (sent d). change (be_backlog e') with (unsent (key e) d).
      repeat case_decide; subst; try congruence; lia.
    + intros f Hf'. unfold outside. rewrite Hact', Es. unfold present. rewrite sum_of_app. simpl.
      change (sent d1) with (sent d). unfold belongs at 2 4. rewrite Ek. lia.
    + intros f Hf' Hne. rewrite Hact', Hun', Hun by done. by rewrite decide_False.
    + by rewrite Hact'.
Qed.

(** A whole bin of spent entries, no two of one flow. *)
Lemma handle_spent_edges_spec : ∀ b d,
  demand_ok d → NoDup (key <$> b) → Forall (spent_ok d) b → (length b ≤ r_free (q_head d))%nat →
  wp (handle_spent_edges b) (λ _ d' l, l = [] ∧ demand_ok d' ∧
    (∀ f, flow_ok f → pending f d' = pending f d) ∧
    (∀ f, flow_ok f → outside f d' = outside f d - present f b) ∧
    (∀ f, flow_ok f → f ∉ key <$> b → active f d' = active f d ∧ unsent f d' = unsent f d) ∧
    (∀ e, e ∈ b → active (key e) d' = negb (unsent (key e) d =? 0)) ∧
    (r_free (q_head d) ≤ length b + r_free (q_head d'))%nat) d.
Proof.
  induction b as [|e b IH]; intros d Hd Hnd Hb Hroom; cbn [handle_spent_edges].
  { apply wp_ret. split_and!; try done; [intros f _; unfold present; simpl; lia|by intros e ?%not_elem_of_nil]. }
  apply NoDup_cons in Hnd as [Hni Hnd]. apply Forall_cons in Hb as [He Hb]. simpl in Hroom.
  apply wp_bind. eapply wp_mono; [apply handle_spent_edge_spec; (done || lia)|].
  intros _ d1 l (-> & Hd1 & Hp1 & Ho1 & Hs1 & Ha1 & Hr1).
  assert (Hsame : ∀ e', e' ∈ b → flow_ok (key e') → active (key e') d1 = active (key e') d ∧ unsent (key e') d1 = unsent (key e') d).
  { intros e' Hin Hok. apply Hs1; [done|]. intros E. apply Hni. rewrite <- E. apply list_elem_of_fmap. eauto. }
  eapply wp_mono; [apply (IH d1); [done..| |lia]|].
  { rewrite Forall_forall in Hb |- *. intros e' Hin. destruct (Hb e' Hin) as (Hok & ? & ?).
    destruct (Hsame e' Hin Hok) as [E1 E2]. unfold spent_ok. by rewrite E1, E2. }
  intros _ d2 l (-> & Hd2 & Hp2 & Ho2 & Hs2 & Ha2 & Hr2). split_and!; try done.
  - intros f Hf. by rewrite Hp2, Hp1.
  - intros f Hf. rewrite Ho2, Ho1 by done. unfold present. simpl. lia.
  - intros f Hf [Hne Hnin]%not_elem_of_cons. destruct (Hs2 f Hf Hnin) as [-> ->]. by apply Hs1.
  - intros e' [->|Hin]%elem_of_cons.
    + destruct (Hs2 (key e)) as [-> _]; [apply He|done|done].
    + rewrite Forall_forall in Hb. destruct (Hb e' Hin) as (Hok & _ & _). rewrite Ha2 by done. by destruct (Hsame e' Hin Hok) as [_ ->].
  - simpl. lia.
Qed.

Lemma handle_spent_bins_concat (bs : list bin) : ∀ d,
  handle_spent_bins bs d = handle_spent_edges (concat bs) d.
Proof.
  assert (Happ : ∀ b1 b2 d, handle_spent_edges (b1 ++ b2) d = (handle_spent_edges b1;; handle_spent_edges b2) d).
  { induction b1 as [|e b1 IH]; intros b2 d; cbn [handle_spent_edges app].
    - munfold. by destruct (handle_spent_edges b2 d) as [[[]]|].
    - munfold. destruct (handle_spent_edge e d) as [[[u d1] l1]|]; [|done]. specialize (IH b2 d1). munfold.
      rewrite IH. destruct (handle_spent_edges b1 d1) as [[[u1 d2] l2]|]; [|done].
      destruct (handle_spent_edges b2 d2) as [[[u2 d3] l3]|]; [|done]. by rewrite app_assoc. }
  induction bs as [|b bs IH]; intros d; [done|]. cbn [handle_spent_bins concat]. rewrite Happ. munfold.
  destruct (handle_spent_edges b d) as [[[u d1] l1]|]; [|done]. by rewrite IH.
Qed.

(** ** Resetting a sender *)
Lemma reset_pairs_spec src : node src → ∀ n dst d,
  demand_ok d → 0 ≤ dst → dst + Z.of_nat n ≤ 256 →
  wp (reset_pairs n src dst) (λ _ d' l, l = [] ∧ demand_ok d' ∧ sent d' = sent d ∧ is_active d' = is_active d ∧
    ∀ f, flow_ok f → unsent f d' =
      if bool_decide (f.1 = src ∧ dst ≤ f.2 < dst + Z.of_nat n) then 0 else unsent f d) d.
Proof.
  intros Hsrc. induction n as [|n IH]; intros dst d Hd Hdst Hn; cbn [reset_pairs].
  { apply wp_ret. split_and!; try done. intros f Hf. by rewrite bool_decide_eq_false_2 by lia. }
  assert (flow_ok (src, dst)) as Hf0 by (split; [done|]; unfold node; simpl; lia).
  apply wp_bind, wp_modify. change (get_status_index src dst) with (idx (src, dst)). set (d1 := set_backlog_n _ _).
  assert (Hun : ∀ f, flow_ok f → unsent f d1 = if decide (f = (src, dst)) then 0 else unsent f d).
  { intros f Hf'. by apply unsent_set. }
  assert (demand_ok d1) as Hd1.
  { destruct Hd as [Hb Hla Ha Hi Hl Hr]. constructor; unfold d1; dem_simpl; try done; [by rewrite length_arr_set|].
    intros f Hf' Ea. fold d1. rewrite Hun by done. case_decide; [done|by apply Hi]. }
  eapply wp_mono; [apply (IH (dst + 1) d1); (done || lia)|]. intros _ d' l (-> & Hd' & Es & Ea & Hun').
  split_and!; try done. intros f Hf. rewrite Hun', Hun by done.
  destruct f as [s x]. cbn [fst snd]. destruct (decide ((s, x) = (src, dst))) as [[= -> ->]|Hne].
  - rewrite (bool_decide_eq_true_2 (src = src ∧ dst ≤ dst < _)) by lia.
    rewrite decide_True by done. by destruct (bool_decide _).
  - rewrite decide_False by done. repeat case_bool_decide; try done; exfalso; [lia|]. apply Hne. f_equal; lia.
Qed.
End demand.
