(* ===== verification/AdmissionLoop.v ===== *)
(** * The main loop of an allocation core

    [seq_get_admissible_traffic] run to its end: the invariant of the loop, with the
    demands that still wait in the rings, and the timeslots that are output one by
    one while the allocation goes on. *)

From Stdlib Require Import Sorted.
From S2P Require Import Prelude Platform Lists Pacer Ring Admission AdmissionFacts AdmissionSpec.
From S2P Require Import AdmissionAlloc AdmissionBatch.

Section loop.
Context {R RA : Type} `{Ring R bin} `{Ring RA admitted_traffic} `{!Inhabited R} (n_cores core_index : nat).
Abbreviation status := (status (R:=R) (RA:=RA)).
Abbreviation next := (next_core n_cores core_index).
Implicit Types (st : status) (r : run R).

(** ** The rings of a core *)
Definition q_in st : R := q_bin st !!! core_index.
Definition run_of st : run R := get_run n_cores core_index st.

(** The core and its rings exist, and it does not pass demands on to itself. *)
Record shape st : Prop := {
  sh_core : (core_index < length (cores st))%nat;
  sh_in : (core_index < length (q_bin st))%nat;
  sh_next : (next < length (q_bin st))%nat;
  sh_apart : next ≠ core_index;
}.

Lemma run_put r st : shape st → run_of (put_run n_cores core_index r st) = r.
Proof using.
  intros [Hc _ Hn _]. unfold run_of, get_run, put_run, core_at. simpl. rewrite !list_lookup_total_insert_eq by done. by destruct r.
Qed.

Lemma q_in_put r st : shape st → q_in (put_run n_cores core_index r st) = q_in st.
Proof using. intros [_ _ _ Ha]. unfold q_in, put_run. simpl. by rewrite list_lookup_total_insert_ne. Qed.

Lemma shape_put r st : shape st → shape (put_run n_cores core_index r st).
Proof using. intros []. constructor; unfold put_run; simpl; by rewrite ?length_insert. Qed.

(** The demands that wait in the rings of the core. *)
Definition pending st : bin := concat (r_list (q_head (dem st))) ++ concat (r_list (q_in st)).

(** Everything the core knows of a flow, weighted with [g]; [a] is 1 for the
    timeslots that were admitted to it. *)
Definition backlog_of f st (h : bin) : Z := flow_sum f h + flow_sum f (pending st) + admitted_count f (run_of st) +
  binned (amount f) None (run_of st) + flow_sum f (out_entries (run_of st)).
Definition entries_of f st (h : bin) : Z := present f h + present f (pending st) + binned (belongs f) None (run_of st) +
  present f (out_entries (run_of st)) + present f (spent_entries (run_of st)).

(** ** The invariant

    [st0] is the state at the start of the batch, [n] timeslots were output, and the
    entries [h] are on their way from a ring into the core. *)
Record loop_ok st0 (n : Z) (h : bin) st : Prop := {
  lo_shape : shape st;
  lo_inv : alloc_inv None (Z.of_nat (length h + length (pending st))) (run_of st);
  lo_rings : r_wf (q_head (dem st)) ∧ r_wf (q_in st) ∧ r_wf (q_admitted_out st);
  lo_room : 16 - n ≤ Z.of_nat (r_free (q_admitted_out st));
  lo_arrives : Forall (arrives (run_of st)) (h ++ pending st);
  lo_index : 0 ≤ n ≤ 16;
  lo_sent : r_list (q_admitted_out st) = r_list (q_admitted_out st0) ++ take (Z.to_nat n) (admitted (core_at core_index st));
  lo_mask : ∀ t, 0 ≤ t < 16 → Z.testbit (allowed_mask (bstate (core_at core_index st))) t = bool_decide (n ≤ t);
  lo_backlog : ∀ f, backlog_of f st h = backlog_of f st0 [];
  lo_entries : ∀ f, entries_of f st h = entries_of f st0 [];
  lo_out : out_entries (run_of st0) `prefix_of` out_entries (run_of st);
  lo_spent : ∃ s, spent_entries (run_of st) = spent_entries (run_of st0) ++ s ∧ Forall (λ e, be_backlog e = 0) s;
  lo_time : current_timeslot (core_at core_index st) = current_timeslot (core_at core_index st0);
}.

Lemma arrives_time r r' e : current_timeslot (core r') = current_timeslot (core r) → arrives r e → arrives r' e.
Proof using. intros E [? ?]. split; [done|]. by rewrite E. Qed.

(** A step of the core's own, that leaves the rings of demands alone. *)
Lemma loop_ok_put st0 n h h' st r : loop_ok st0 n h st →
  alloc_inv None (Z.of_nat (length h' + length (pending st))) r →
  (∃ b, h = b ++ h') →
  (∀ f, flow_sum f h' + admitted_count f r + binned (amount f) None r + flow_sum f (out_entries r) =
    flow_sum f h + admitted_count f (run_of st) + binned (amount f) None (run_of st) + flow_sum f (out_entries (run_of st))) →
  (∀ f, present f h' + binned (belongs f) None r + present f (out_entries r) + present f (spent_entries r) =
    present f h + binned (belongs f) None (run_of st) + present f (out_entries (run_of st)) + present f (spent_entries (run_of st))) →
  out_entries (run_of st) `prefix_of` out_entries r →
  (∃ s, spent_entries r = spent_entries (run_of st) ++ s ∧ Forall (λ e, be_backlog e = 0) s) →
  current_timeslot (core r) = current_timeslot (core (run_of st)) →
  allowed_mask (bstate (core r)) = allowed_mask (bstate (core (run_of st))) →
  (∀ t, 0 ≤ t < n → arr_get (admitted (core r)) t = arr_get (admitted (core (run_of st))) t) →
  loop_ok st0 n h' (put_run n_cores core_index r st).
Proof using.
  intros [Hsh Hinv (Hw1 & Hw2 & Hw3) Hroom Harr Hn Hsent Hmask Hb He Ho (s0 & Es0 & Fs0) Ht] Hr (b & ->) Eb Ee Po (s & Es & Fs) Et Em Ea.
  pose proof (run_put r st Hsh) as Er. pose proof (q_in_put r st Hsh) as Eq.
  assert (core_at core_index (put_run n_cores core_index r st) = core r) as Ec by (change (core (run_of (put_run n_cores core_index r st)) = core r); by rewrite Er).
  assert (pending (put_run n_cores core_index r st) = pending st) as Ep by (unfold pending; by rewrite Eq).
  constructor; rewrite ?Er, ?Ep, ?Ec; try done.
  - by apply shape_put.
  - rewrite Eq. done.
  - apply Forall_app in Harr as [[_ Hh]%Forall_app Hp]. apply Forall_app.
    split; (eapply Forall_impl; [eassumption|]); intros e; by apply arrives_time.
  - etrans; [exact Hsent|]. f_equal. apply list_eq. intros i.
    destruct (decide (i < Z.to_nat n)%nat) as [Hi|Hi]; [|by rewrite !lookup_take_ge by lia].
    rewrite !lookup_take_lt by done. specialize (Ea (Z.of_nat i) ltac:(lia)). unfold arr_get in Ea. rewrite Nat2Z.id in Ea.
    change (core (run_of st)) with (core_at core_index st) in Ea.
    destruct (lookup_lt_is_Some_2 (admitted (core r)) i) as [x Hx]; [rewrite (ai_adm _ _ _ Hr); lia|].
    destruct (lookup_lt_is_Some_2 (admitted (core_at core_index st)) i) as [y Hy].
    { pose proof (ai_adm _ _ _ Hinv) as E. change (core (run_of st)) with (core_at core_index st) in E. rewrite E. lia. }
    by rewrite Hx, Hy, <- (list_lookup_total_correct _ _ _ Hx), <- (list_lookup_total_correct _ _ _ Hy), Ea.
  - intros t Ht'. rewrite Em. by apply Hmask.
  - intros f. rewrite <- Hb. unfold backlog_of. rewrite Er, Ep. specialize (Eb f). lia.
  - intros f. rewrite <- He. unfold entries_of. rewrite Er, Ep. specialize (Ee f). lia.
  - by etrans.
  - exists (s0 ++ s). split; [by rewrite Es, Es0, app_assoc|by apply Forall_app].
  - by rewrite Et.
Qed.

(** ** Demands enter the core *)
Lemma enter_bin st0 n b h st : loop_ok st0 n (b ++ h) st →
  wp (on_run n_cores core_index (incoming_bin_to_core b)) (λ _ st' l, l = [] ∧
    ∃ r, st' = put_run n_cores core_index r st ∧ loop_ok st0 n h st') st.
Proof using.
  intros Hl. pose proof Hl as [Hsh Hinv _ _ Harr _ _ _ _ _ _ _ _]. apply wp_zoom. change (get_run n_cores core_index st) with (run_of st).
  eapply wp_mono; [apply (incoming_bin_to_core_spec b (Z.of_nat (length h + length (pending st))))|].
  - eapply (eq_ind _ (λ k, alloc_inv None k (run_of st)) Hinv). rewrite length_app. lia.
  - lia.
  - by apply Forall_app in Harr as [[Hb _]%Forall_app _].
  - intros _ r l (-> & I & P). split; [done|]. exists r. split; [done|]. destruct P.
    eapply loop_ok_put; [exact Hl|exact I|by eexists|..]; try done.
    + intros f. rewrite pr_bins, pr_out, pr_admitted, app_nil_r. unfold flow_sum, flow_count. rewrite sum_of_app. simpl. lia.
    + intros f. rewrite pr_bins, pr_out, pr_spent, !app_nil_r. unfold present. rewrite sum_of_app. lia.
    + by rewrite pr_out, app_nil_r.
    + exists []. by rewrite pr_spent.
    + intros t Ht. apply pr_closed; [pose proof (lo_index _ _ _ _ Hl); lia|].
      etrans; [by apply (lo_mask _ _ _ _ Hl); pose proof (lo_index _ _ _ _ Hl); lia|]. by rewrite bool_decide_eq_false_2 by lia.
Qed.

(** Ring operations that move demands from the rings into [b]. *)
Lemma loop_ok_take st0 n b st st' : loop_ok st0 n [] st → shape st' → run_of st' = run_of st →
  core_at core_index st' = core_at core_index st → q_admitted_out st' = q_admitted_out st →
  r_wf (q_head (dem st')) → r_wf (q_in st') → b ++ pending st' ≡ₚ pending st → loop_ok st0 n b st'.
Proof using.
  intros [Hsh Hinv (Hw1 & Hw2 & Hw3) Hroom Harr Hn Hsent Hmask Hb He Ho Hs Ht] Hsh' Er Ec Eq Hh Hi Hp.
  assert (∀ g, sum_of g b + sum_of g (pending st') = sum_of g (pending st)) as Hsum.
  { intros g. rewrite <- sum_of_app. by apply sum_of_perm. }
  constructor; rewrite ?Er, ?Ec, ?Eq; try done.
  - apply Permutation_length in Hp. rewrite length_app in Hp. by rewrite Hp.
  - by rewrite Hp.
  - intros f. rewrite <- Hb. unfold backlog_of, flow_sum. rewrite Er. specialize (Hsum (amount f)). simpl. lia.
  - intros f. rewrite <- He. unfold entries_of, present. rewrite Er. specialize (Hsum (belongs f)). simpl. lia.
Qed.

Lemma take_in st0 n st b q : loop_ok st0 n [] st → r_dequeue (q_in st) = Some (b, q) →
  loop_ok st0 n b (set_q_bin (<[core_index := q]> (q_bin st)) st) ∧ r_list (q_in st) = b :: r_list q.
Proof using.
  intros Hl Eq. pose proof Hl as [Hsh _ (Hw1 & Hw2 & _) _ _ _ _ _ _ _ _ _ _]. pose proof Hsh as [Hc Hi Hn Ha].
  pose proof (r_dequeue_spec (q_in st) Hw2) as Hd. destruct (r_list (q_in st)) as [|x l] eqn:El; [congruence|].
  destruct Hd as (q' & E & Hq & El' & _). rewrite Eq in E. injection E as <- <-.
  assert (q_in (set_q_bin (<[core_index := q]> (q_bin st)) st) = q) as Ein by (unfold q_in; simpl; by rewrite list_lookup_total_insert_eq).
  split; [|by rewrite El']. apply (loop_ok_take _ _ _ st); try done.
  - constructor; simpl; by rewrite ?length_insert.
  - unfold run_of, get_run. simpl. by rewrite list_lookup_total_insert_ne.
  - by rewrite Ein.
  - unfold pending. rewrite Ein, El, El'. simpl. by rewrite !app_assoc, (Permutation_app_comm b).
Qed.

Lemma take_head st0 n st bs q : loop_ok st0 n [] st → r_dequeue_burst RING_DEQUEUE_BURST_SIZE (q_head (dem st)) = (bs, q) →
  loop_ok st0 n (concat bs) (set_dem (set_q_head q (dem st)) st).
Proof using.
  intros Hl Eq. pose proof Hl as [Hsh _ (Hw1 & Hw2 & _) _ _ _ _ _ _ _ _ _ _].
  pose proof (dequeue_burst_spec RING_DEQUEUE_BURST_SIZE (q_head (dem st)) Hw1) as Hd. rewrite Eq in Hd. destruct Hd as (Eb & Hq & El).
  apply (loop_ok_take _ _ _ st); try done.
  - by destruct Hsh.
  - unfold pending. change (q_in (set_dem _ st)) with (q_in st). simpl. rewrite El, Eb, app_assoc, <- concat_app, take_drop. done.
Qed.

Lemma incoming_bins_spec st0 n bs : ∀ st, loop_ok st0 n (concat bs) st →
  wp (incoming_bins n_cores core_index bs) (λ k st' l, l = [] ∧ k = Z.of_nat (length (concat bs)) ∧
    loop_ok st0 n [] st' ∧ pending st' = pending st ∧ q_in st' = q_in st) st.
Proof using.
  induction bs as [|b bs IH]; intros st Hl; cbn [incoming_bins]; [by apply wp_ret|].
  apply wp_bind. eapply wp_mono; [by apply (enter_bin st0 n b (concat bs))|]. intros _ st1 l (-> & r & -> & Hl1).
  apply wp_bind. eapply wp_mono; [by apply IH|]. intros k st2 l (-> & -> & Hl2 & Ep & Eq). apply wp_ret.
  split; [done|]. split; [unfold bin_size; simpl; rewrite length_app; lia|]. split; [done|].
  pose proof (q_in_put r st (lo_shape _ _ _ _ Hl)) as E1. rewrite Eq, E1. split; [|done]. rewrite Ep. unfold pending. by rewrite E1.
Qed.

Lemma new_requests_loop_ok st0 n st : loop_ok st0 n [] st →
  wp (process_new_requests n_cores core_index) (λ k st' l, l = [] ∧ loop_ok st0 n [] st' ∧
    k + Z.of_nat (length (pending st')) = Z.of_nat (length (pending st)) ∧ 0 ≤ k ∧ q_in st' = q_in st) st.
Proof using.
  intros Hl. unfold process_new_requests. apply wp_bind, wp_get.
  destruct (r_dequeue_burst RING_DEQUEUE_BURST_SIZE (q_head (dem st))) as [bs q] eqn:Eb.
  pose proof (take_head st0 n st bs q Hl Eb) as Hl1. apply wp_bind, wp_put. set (st1 := set_dem _ st) in *.
  eapply wp_mono; [by apply incoming_bins_spec|]. intros k st2 l (-> & -> & Hl2 & Ep & Eq). split; [done|]. split; [done|].
  split; [|split; [lia|by rewrite Eq]]. rewrite Ep.
  pose proof (dequeue_burst_spec RING_DEQUEUE_BURST_SIZE (q_head (dem st)) (proj1 (lo_rings _ _ _ _ Hl))) as Hd. rewrite Eb in Hd.
  destruct Hd as (E1 & _ & E2). unfold pending, st1. change (q_in (set_dem _ st)) with (q_in st). simpl. rewrite E2, !length_app.
  rewrite <- (take_drop RING_DEQUEUE_BURST_SIZE (r_list (q_head (dem st)))) at 2. rewrite concat_app, length_app, <- E1. lia.
Qed.

(** ** A timeslot is output *)
Lemma disallow_ok (bs : batch_state) : batch_ok bs → batch_ok (batch_state_disallow_lsb_timeslot bs).
Proof using.
  intros []. constructor; try done. cbn [batch_state_disallow_lsb_timeslot allowed_mask].
  change (Z.shiftl 1 BATCH_SIZE - 1) with (Z.ones 16). rewrite Z.land_ones by lia. zify_div; lia.
Qed.

Lemma disallow_bit (bs : batch_state) t : 0 ≤ t < 16 →
  Z.testbit (allowed_mask (batch_state_disallow_lsb_timeslot bs)) t = Z.testbit (allowed_mask bs) (t - 1).
Proof using.
  intros Ht. cbn [batch_state_disallow_lsb_timeslot allowed_mask]. change (Z.shiftl 1 BATCH_SIZE - 1) with (Z.ones 16).
  rewrite Z.land_spec, Z.ones_spec_low, andb_true_r, testbit_shl64, bool_decide_eq_true_2 by lia. done.
Qed.

Lemma upd_core_put f st : on_run n_cores core_index (upd_core f) st =
  Some (tt, put_run n_cores core_index {| core := f (core_at core_index st); q_out := q_out (run_of st); q_spent := q_spent (run_of st) |} st, []).
Proof using. done. Qed.

Lemma send_one st0 n st : loop_ok st0 n [] st → n < 16 →
  ∃ q, r_enqueue (arr_get (admitted (core_at core_index st)) n) (q_admitted_out st) = Some q ∧
    wp (on_run n_cores core_index (upd_core (λ c, set_bstate (batch_state_disallow_lsb_timeslot (bstate c)) c)))
      (λ _ st' l, l = [] ∧ loop_ok st0 (n + 1) [] st' ∧ pending st' = pending st ∧ q_in st' = q_in st) (set_q_admitted_out q st).
Proof using.
  intros [Hsh Hinv (Hw1 & Hw2 & Hw3) Hroom Harr Hn Hsent Hmask Hb He Ho Hs Ht] Hlt.
  destruct (r_enqueue_spec (q_admitted_out st) (arr_get (admitted (core_at core_index st)) n) Hw3) as (q & Eq & Hq & El & Hf); [lia|].
  exists q. split; [done|]. set (st1 := set_q_admitted_out q st). eapply wp_run; [apply upd_core_put|]. split; [done|].
  assert (shape st1) as Hsh1 by (by destruct Hsh). set (r1 := {| core := _ |}).
  pose proof (run_put r1 st1 Hsh1) as Er. pose proof (q_in_put r1 st1 Hsh1) as Eqi.
  assert (core_at core_index (put_run n_cores core_index r1 st1) = core r1) as Ec by (change (core (run_of (put_run n_cores core_index r1 st1)) = core r1); by rewrite Er).
  assert (pending (put_run n_cores core_index r1 st1) = pending st) as Ep by (unfold pending; by rewrite Eqi).
  pose proof (ai_adm _ _ _ Hinv) as Hadm. change (core (run_of st)) with (core_at core_index st) in Hadm.
  split; [|split; [done|by rewrite Eqi]]. constructor; rewrite ?Er, ?Ep, ?Ec; try done.
  - by apply shape_put.
  - destruct Hinv. constructor; try done. by apply disallow_ok.
  - rewrite Eqi. done.
  - change (q_admitted_out (put_run n_cores core_index r1 st1)) with q. lia.
  - lia.
  - change (q_admitted_out (put_run n_cores core_index r1 st1)) with q. rewrite El, Hsent, <- app_assoc. f_equal.
    change (admitted (core r1)) with (admitted (core_at core_index st)). replace (Z.to_nat (n + 1)) with (S (Z.to_nat n)) by lia.
    destruct (lookup_lt_is_Some_2 (admitted (core_at core_index st)) (Z.to_nat n)) as [x Hx]; [lia|].
    rewrite (take_S_r _ _ x Hx). unfold arr_get. by rewrite (list_lookup_total_correct _ _ _ Hx).
  - intros t Ht'. unfold r1. core_simpl. rewrite disallow_bit by done. destruct (decide (1 ≤ t)).
    + change (core_at core_index st1) with (core_at core_index st). rewrite Hmask by lia. apply bool_decide_ext. lia.
    + rewrite Z.testbit_neg_r, bool_decide_eq_false_2 by lia. done.
  - intros f. rewrite <- Hb. unfold backlog_of. by rewrite Er, Ep.
  - intros f. rewrite <- He. unfold entries_of. by rewrite Er, Ep.
Qed.

Lemma send_admitted_spec st0 k : ∀ n st, loop_ok st0 n [] st → n + Z.of_nat k ≤ 16 →
  wp (send_admitted n_cores core_index k n) (λ _ st' l, l = [] ∧ loop_ok st0 (n + Z.of_nat k) [] st' ∧
    pending st' = pending st ∧ q_in st' = q_in st) st.
Proof using.
  induction k as [|k IH]; intros n st Hl Hk; cbn [send_admitted].
  { apply wp_ret. by rewrite Z.add_0_r. }
  destruct (send_one st0 n st Hl) as (q & Eq & Hw); [lia|]. apply wp_bind, wp_get, wp_bind. eapply wp_deref; [exact Eq|].
  apply wp_bind, wp_put, wp_bind. eapply wp_mono; [exact Hw|]. intros _ st1 l (-> & Hl1 & Ep & Ei).
  eapply wp_mono; [apply (IH (n + 1) st1 Hl1); lia|]. intros _ st2 l (-> & Hl2 & Ep2 & Ei2). split; [done|].
  split; [by replace (n + Z.of_nat (S k)) with (n + 1 + Z.of_nat k) by lia|]. by rewrite Ep2, Ei2.
Qed.

(** ** One iteration *)
Lemma allocate_spec st0 n fuel st : loop_ok st0 n [] st → 48 + 16 * 256 ≤ Z.of_nat fuel →
  wp (on_run n_cores core_index (try_allocation_loop fuel)) (λ _ st' l, l = [] ∧ loop_ok st0 n [] st' ∧
    pending st' = pending st ∧ q_in st' = q_in st) st.
Proof using.
  intros Hl Hfuel. pose proof Hl as [Hsh Hinv _ _ _ Hn _ Hmask _ _ _ _ _]. apply wp_zoom. change (get_run n_cores core_index st) with (run_of st).
  pose proof (alloc_measure_bound _ _ _ Hinv) as Hm.
  eapply wp_mono; [apply (try_allocation_loop_spec _ fuel _ Hinv); lia|]. intros _ r l (-> & I & B & _). split; [done|].
  pose proof (q_in_put r st Hsh) as Eq. split; [|split; [unfold pending; by rewrite Eq|done]].
  eapply (loop_ok_put st0 n [] []); [exact Hl|exact I|by exists []|..]; try (by apply B).
  - destruct (bl_out _ _ B) as (ho & -> & _). by eexists.
  - intros t Ht. apply (bl_closed _ _ B); [lia|]. etrans; [by apply Hmask; lia|]. by rewrite bool_decide_eq_false_2 by lia.
Qed.

(** While fewer demands than the limit have been taken. *)
Lemma handle_inputs_spec st0 n fuel v st : loop_ok st0 n [] st → 48 + 16 * 256 ≤ Z.of_nat fuel →
  n_processed v + Z.of_nat (length (pending st)) < MAX_DEMANDS_PER_BATCH n_cores → 0 ≤ n_processed v →
  wp (handle_inputs n_cores core_index fuel v) (λ k st' l, l = [] ∧ loop_ok st0 n [] st' ∧
    k + Z.of_nat (length (pending st')) = n_processed v + Z.of_nat (length (pending st)) ∧ 0 ≤ k ∧
    length (r_list (q_in st')) = pred (length (r_list (q_in st)))) st.
Proof using.
  intros Hl Hfuel Hmax Hv. unfold handle_inputs. rewrite Z.geb_leb, (proj2 (Z.leb_gt _ _)) by lia.
  apply wp_bind, wp_bind.
  eapply (wp_mono _ (λ k st' l, l = [] ∧ loop_ok st0 n [] st' ∧ k + Z.of_nat (length (pending st')) = Z.of_nat (length (pending st)) ∧
    0 ≤ k ∧ q_in st' = q_in st)).
  { destruct (should_process_new_req v); [by apply new_requests_loop_ok|by apply wp_ret]. }
  intros k st1 l (-> & Hl1 & Ek & Hk & Ei). apply wp_bind, wp_get. change (q_bin st1 !!! core_index) with (q_in st1).
  pose proof (r_dequeue_spec (q_in st1) (proj1 (proj2 (lo_rings _ _ _ _ Hl1)))) as Hd.
  destruct (r_dequeue (q_in st1)) as [[b q]|] eqn:Eq.
  - destruct (take_in st0 n st1 b q Hl1 Eq) as [Hl2 El]. apply wp_bind, wp_put, wp_bind. set (st2 := set_q_bin _ st1) in *.
    eapply wp_mono; [apply (enter_bin st0 n b [] st2); by rewrite app_nil_r|]. intros _ st3 l (-> & r & -> & Hl3).
    apply wp_ret, wp_bind. pose proof (q_in_put r st2 (lo_shape _ _ _ _ Hl2)) as E3.
    eapply wp_mono; [by apply (allocate_spec st0 n fuel)|]. intros _ st4 l (-> & Hl4 & Ep4 & Ei4). apply wp_ret.
    assert (q_in st2 = q) as E2 by (destruct (lo_shape _ _ _ _ Hl1); unfold q_in, st2; simpl; by rewrite list_lookup_total_insert_eq).
    split; [done|]. split; [done|]. rewrite Ep4, Ei4, E3, E2, <- Ei, El. unfold bin_size. split; [|split; [lia|done]].
    assert (Z.of_nat (length b) + Z.of_nat (length (pending (put_run n_cores core_index r st2))) = Z.of_nat (length (pending st1))) as Es; [|lia].
    unfold pending. rewrite E3, E2, El. change (dem (put_run n_cores core_index r st2)) with (dem st1). simpl. rewrite !length_app. lia.
  - apply wp_ret, wp_bind. eapply wp_mono; [by apply (allocate_spec st0 n fuel)|]. intros _ st4 l (-> & Hl4 & Ep4 & Ei4). apply wp_ret.
    split; [done|]. split; [done|]. rewrite Ep4, Ei4, <- Ei. split; [lia|split; [lia|]].
    destruct (r_list (q_in st1)); [done|]. by destruct Hd as (? & [=] & _).
Qed.

(** ** A new timeslot *)
Lemma s64_small x : - 2 ^ 63 ≤ x < 2 ^ 63 → s64 x = x.
Proof using. intros Hx. mlia. Qed.

Lemma allow_bins_range k : ∀ b m, 0 ≤ b → b + Z.of_nat k ≤ 48 → 0 ≤ m < 2 ^ 48 → 0 ≤ allow_bins k b m < 2 ^ 48.
Proof using.
  induction k as [|k IH]; intros b m Hb Hk Hm; cbn [allow_bins]; [done|]. apply IH; [lia..|].
  apply lor_range; [done| |lia]. rewrite shl64_1 by lia. split; [apply Z.pow_nonneg; lia|apply Z.pow_lt_mono_r; lia].
Qed.

Lemma allow_spec st0 n st f : loop_ok st0 n [] st → (∀ m, 0 ≤ m < 2 ^ 48 → 0 ≤ f m < 2 ^ 48) →
  wp (on_run n_cores core_index (upd_core (λ c, set_allowed_bins (f (allowed_bins c)) c))) (λ _ st' l, l = [] ∧ loop_ok st0 n [] st' ∧
    pending st' = pending st ∧ q_in st' = q_in st) st.
Proof using.
  intros Hl Hf. pose proof Hl as [Hsh Hinv _ _ _ _ _ _ _ _ _ _ _]. eapply wp_run; [apply upd_core_put|]. set (r := {| core := _ |}).
  pose proof (q_in_put r st Hsh) as Eq. split; [done|]. split; [|split; [unfold pending; by rewrite Eq|done]].
  eapply (loop_ok_put st0 n [] []); [exact Hl| |by exists []|..]; try done.
  - destruct Hinv. constructor; try done. split; [apply ai_masks|]. by apply Hf, ai_masks.
  - exists []. by rewrite app_nil_r.
Qed.

(** The locals of the loop when the next reading of the clock is at least [lo]. *)
Record locals_ok (first_timeslot lo : Z) (v : locals) : Prop := {
  lk_admitted : 0 ≤ admitted_bins v ≤ Z.max 0 (lo - first_timeslot + 1);
  lk_processed : 0 ≤ processed_bins v ≤ 48;
}.

Lemma new_timeslot_early st0 first_timeslot now v st : 0 ≤ first_timeslot < 2 ^ 62 → 0 ≤ now < first_timeslot + 15 →
  locals_ok first_timeslot now v → loop_ok st0 (admitted_bins v) [] st →
  wp (new_timeslot n_cores core_index first_timeslot now v) (λ o st' l, l = [] ∧ ∃ v', o = Some v' ∧
    loop_ok st0 (admitted_bins v') [] st' ∧ locals_ok first_timeslot now v' ∧ prev_timeslot v' = now ∧
    n_processed v' = n_processed v ∧ pending st' = pending st ∧ q_in st' = q_in st) st.
Proof using.
  intros Hf Hnow [Ha Hp] Hl. unfold new_timeslot. rewrite (s64_small (now - first_timeslot + 1)) by lia.
  change BATCH_SIZE with 16. apply wp_bind.
  eapply (wp_mono _ (λ n' st' l, l = [] ∧ loop_ok st0 n' [] st' ∧ n' = Z.max 0 (now - first_timeslot + 1) ∧
    pending st' = pending st ∧ q_in st' = q_in st)).
  { destruct (Z.leb_spec (now - first_timeslot + 1) 0) as [Hg|Hg].
    - apply wp_ret. assert (admitted_bins v = 0) as E by lia. split_and!; try done. lia.
    - rewrite Z.min_l by lia. apply wp_bind. eapply wp_mono; [apply (send_admitted_spec st0 _ (admitted_bins v) st Hl); lia|].
      intros _ st' l (-> & Hl' & Ep & Ei). apply wp_ret. split; [done|]. split; [|split; [lia|done]].
      by replace (admitted_bins v + Z.of_nat (Z.to_nat (now - first_timeslot + 1 - admitted_bins v))) with (now - first_timeslot + 1) in Hl' by lia. }
  intros n' st1 l (-> & Hl1 & En & Ep1 & Ei1). cbv zeta.
  assert ((0 <? now - first_timeslot + 1) && (n' =? 16) = false) as -> by (apply andb_false_iff; right; apply Z.eqb_neq; lia).
  change TIMESLOTS_START_BEFORE with 96. replace (now - (first_timeslot + 16 - 1) + 96) with (now - first_timeslot + 81) by lia.
  rewrite (s64_small (now - first_timeslot + 81)) by lia.
  destruct (Z.ltb_spec (now - first_timeslot + 81) 0) as [Hs|Hs].
  - apply wp_ret. split; [done|]. eexists. split; [done|]. cbn [admitted_bins prev_timeslot n_processed]. split_and!; try done.
    constructor; cbn [admitted_bins processed_bins]; lia.
  - assert ((now - first_timeslot + 81 >? 96) = false) as -> by (rewrite Z.gtb_ltb; apply Z.ltb_ge; lia). unfold TIMESLOT_SHIFT_PER_PRIORITY. rewrite Z.shiftr_div_pow2 by lia.
    set (k := (now - first_timeslot + 81) / 2 ^ 1). assert (0 ≤ k ≤ 48) as Hk by (unfold k; zify_div; lia).
    apply wp_bind. eapply wp_mono; [apply (allow_spec st0 n' st1 (allow_bins (Z.to_nat (k - processed_bins v)) (processed_bins v)) Hl1)|].
    { intros m Hm. destruct (decide (processed_bins v ≤ k)); [apply allow_bins_range; [lia..|done]|].
      by replace (Z.to_nat (k - processed_bins v)) with 0%nat by lia. }
    intros _ st2 l (-> & Hl2 & Ep2 & Ei2). apply wp_ret. split; [done|]. eexists. split; [done|].
    cbn [admitted_bins prev_timeslot n_processed]. rewrite Ep2, Ei2. split_and!; try done.
    constructor; cbn [admitted_bins processed_bins]; lia.
Qed.

Lemma new_timeslot_late st0 first_timeslot now v st : 0 ≤ first_timeslot < 2 ^ 62 → first_timeslot + 15 ≤ now < 2 ^ 62 →
  0 ≤ admitted_bins v ≤ 15 → loop_ok st0 (admitted_bins v) [] st →
  wp (new_timeslot n_cores core_index first_timeslot now v) (λ o st' l, l = [] ∧ o = None ∧
    loop_ok st0 16 [] st' ∧ pending st' = pending st ∧ q_in st' = q_in st) st.
Proof using.
  intros Hf Hnow Ha Hl. unfold new_timeslot. rewrite (s64_small (now - first_timeslot + 1)) by lia.
  change BATCH_SIZE with 16. apply wp_bind. rewrite (proj2 (Z.leb_gt _ _)) by lia. rewrite Z.min_r by lia.
  apply wp_bind. eapply wp_mono; [apply (send_admitted_spec st0 _ (admitted_bins v) st Hl); lia|].
  intros _ st1 l (-> & Hl1 & Ep & Ei). apply wp_ret. cbv zeta. rewrite (proj2 (Z.ltb_lt _ _)), Z.eqb_refl by lia. cbn [andb].
  apply wp_ret. split_and!; try done.
  by replace (admitted_bins v + Z.of_nat (Z.to_nat (16 - admitted_bins v))) with 16 in Hl1 by lia.
Qed.

(** ** The loop

    [pre] are the readings of the clock while timeslots of the batch are left,
    [late] is the first one at or after the last timeslot. *)
Lemma main_loop_spec st0 fuel first_timeslot late post : 0 ≤ first_timeslot < 2 ^ 62 → first_timeslot + 15 ≤ late < 2 ^ 62 →
  48 + 16 * 256 ≤ Z.of_nat fuel → ∀ pre v st, StronglySorted Z.le pre → Forall (λ t, 0 ≤ t < first_timeslot + 15) pre →
  0 ≤ admitted_bins v ≤ 15 → 0 ≤ processed_bins v ≤ 48 → Forall (λ t, admitted_bins v ≤ Z.max 0 (t - first_timeslot + 1)) pre →
  prev_timeslot v ≠ late → loop_ok st0 (admitted_bins v) [] st →
  n_processed v + Z.of_nat (length (pending st)) < MAX_DEMANDS_PER_BATCH n_cores → 0 ≤ n_processed v →
  (length (r_list (q_in st)) ≤ length pre)%nat →
  wp (main_loop n_cores core_index fuel first_timeslot (pre ++ late :: post) v) (λ _ st' l, l = [] ∧
    loop_ok st0 16 [] st' ∧ r_list (q_in st') = []) st.
Proof using.
  intros Hf Hlate Hfuel. induction pre as [|now pre IH]; intros v st Hsort Hpre Ha Hp Hab Hprev Hl Hmax Hn Hlen; cbn [main_loop app].
  - rewrite (proj2 (Z.eqb_neq _ _)) by congruence. apply wp_bind. eapply wp_mono; [by apply (new_timeslot_late st0)|].
    intros _ st1 l (-> & -> & Hl1 & _ & Ei). apply wp_ret. split; [done|]. split; [done|]. rewrite Ei.
    by destruct (r_list (q_in st)); [|simpl in Hlen; lia].
  - apply StronglySorted_inv in Hsort as [Hsort Hle]. apply Forall_cons in Hpre as [Hnow Hpre]. apply Forall_cons in Hab as [Hab1 Hab].
    apply wp_bind. eapply (wp_mono _ (λ o st' l, l = [] ∧ ∃ v', o = Some v' ∧ loop_ok st0 (admitted_bins v') [] st' ∧
      0 ≤ admitted_bins v' ≤ 15 ∧ 0 ≤ processed_bins v' ≤ 48 ∧ Forall (λ t, admitted_bins v' ≤ Z.max 0 (t - first_timeslot + 1)) pre ∧
      prev_timeslot v' ≠ late ∧ n_processed v' = n_processed v ∧ pending st' = pending st ∧ q_in st' = q_in st)).
    { destruct (Z.eqb_spec now (prev_timeslot v)) as [E|E]; [apply wp_ret; split; [done|]; by exists v|].
      eapply wp_mono; [apply (new_timeslot_early st0 first_timeslot now v st); try done; by constructor; [lia|]|].
      intros o st' l (-> & v' & -> & Hl' & [Ha' Hp'] & Ev & En & Ep & Ei). split; [done|]. exists v'. split_and!; try done; try lia.
      rewrite Forall_forall in Hle |- *. intros t Ht. specialize (Hle t Ht). lia. }
    intros o st1 l (-> & v1 & -> & Hl1 & Ha1 & Hp1 & Hab1' & Hprev1 & En1 & Ep1 & Ei1). cbv iota beta.
    apply wp_bind. eapply wp_mono; [apply (handle_inputs_spec st0 _ fuel v1 st1 Hl1 Hfuel); rewrite ?Ep1, ?En1; done|].
    intros k st2 l (-> & Hl2 & Ek & Hk & Elen). eapply wp_mono; [apply IH; cbn [admitted_bins processed_bins prev_timeslot n_processed]; try done|].
    + rewrite Ek, En1, Ep1. done.
    + rewrite Elen, Ei1. simpl in Hlen. lia.
    + intros _ st3 l (-> & ? & ?). done.
Qed.

(** ** The whole batch *)

(** A core between batches, with the demands that wait for it: each was last given a
    timeslot before the batch, and there is room in the rings for all of them. *)
Record batch_ready st : Prop := {
  br_shape : shape st;
  br_core : core_ready (core_at core_index st);
  br_nodes : 0 ≤ num_nodes st ≤ 256;
  br_rings : r_wf (q_head (dem st)) ∧ r_wf (q_in st) ∧ r_wf (q_out (run_of st)) ∧ r_wf (q_spent (run_of st)) ∧ r_wf (q_admitted_out st);
  br_room : Z.of_nat (length (pending st)) < Z.of_nat (r_free (q_out (run_of st))) ∧
    Z.of_nat (length (pending st)) < Z.of_nat (r_free (q_spent (run_of st))) ∧ 16 ≤ Z.of_nat (r_free (q_admitted_out st));
  br_few : Z.of_nat (length (pending st)) ≤ LARGE_BIN_SIZE ∧ Z.of_nat (length (pending st)) < MAX_DEMANDS_PER_BATCH n_cores;
  br_arrives : Forall (arrives (run_of st)) (pending st);
}.

Lemma alloc_inv_less k r : alloc_inv None k r → 0 ≤ k → alloc_inv None 0 r.
Proof using. intros I Hk. destruct I. constructor; try done. cbv zeta in *. lia. Qed.

(** The state after the reset, with empty lists of admitted traffic. *)
Definition started (c : core_state) st : status :=
  put_run n_cores core_index {| core := fresh c; q_out := q_out (run_of st); q_spent := q_spent (run_of st) |} st.

Lemma start_spec st : batch_ready st → ∃ c,
  alloc_core_reset (out_of_boundary_capacity st) (num_nodes st) (core_at core_index st) = Some c ∧
  loop_ok (started c st) 0 [] (started c st) ∧ pending (started c st) = pending st ∧ q_in (started c st) = q_in st ∧
  (∀ f, backlog_of f (started c st) [] = flow_sum f (pending st) + flow_sum f (out_entries (run_of st))) ∧
  (∀ f, entries_of f (started c st) [] = present f (pending st) + present f (out_entries (run_of st)) + present f (spent_entries (run_of st))) ∧
  out_entries (run_of (started c st)) = out_entries (run_of st) ∧ spent_entries (run_of (started c st)) = spent_entries (run_of st) ∧
  current_timeslot (core_at core_index (started c st)) = current_timeslot (core_at core_index st).
Proof using.
  intros [Hsh Hready Hn (Hw1 & Hw2 & Hw3 & Hw4 & Hw5) (Hr1 & Hr2 & Hr3) [Hf1 Hf2] Harr].
  destruct (alloc_core_reset_spec (out_of_boundary_capacity st) (num_nodes st) (run_of st) Hready Hn Hw3 Hw4)
    as (c & Ec & I & Et & _ & Ha & Hb & Eo & Es & _); [lia..|]. exists c. split; [exact Ec|].
  set (r0 := {| core := fresh c |}) in *. pose proof (run_put r0 st Hsh) as Er. pose proof (q_in_put r0 st Hsh) as Eq.
  pose proof (shape_put r0 st Hsh) as Hsh1. change (put_run n_cores core_index r0 st) with (started c st) in *.
  assert (dem (started c st) = dem st ∧ q_admitted_out (started c st) = q_admitted_out st) as [Ed Ea] by done.
  set (st1 := started c st) in *. clearbody st1.
  assert (core_at core_index st1 = core r0) as Ecr by (change (core (run_of st1) = core r0); by rewrite Er).
  assert (pending st1 = pending st) as Ep by (unfold pending; by rewrite Eq, Ed).
  assert (bin_count (new_request_bins (core r0)) = 0) as Hz.
  { rewrite <- length_concat_count. specialize (Hb (λ _, 1)). unfold binned in Hb. simpl others in Hb.
    rewrite <- sum_of_concat in Hb. clear -Hb. induction (concat _) as [|x l IH]; [done|]. simpl in *. pose proof (sum_of_nonneg (λ _ : backlog_edge, 1) l ltac:(lia)). lia. }
  split; [|split; [done|split; [done|]]].
  - constructor; rewrite ?Er, ?Ep, ?Ecr, ?Eq, ?Ed, ?Ea; try done.
    + apply alloc_inv_hand; [done|lia|]. cbv zeta. rewrite Hz. change (q_out r0) with (q_out (run_of st)). change (q_spent r0) with (q_spent (run_of st)). simpl length. lia.
    + simpl app. eapply Forall_impl; [exact Harr|]. intros e. by apply arrives_time.
    + by rewrite take_0, app_nil_r.
    + intros t Ht. clear -Ec Ht. unfold r0, alloc_core_reset in *. core_simpl.
      destruct (batch_state_init _ _ _) as [bs|] eqn:Eb; [|done]. simpl in Ec. destruct (_ && _); [|done]. injection Ec as <-.
      unfold batch_state_init in Eb. destruct (_ <=? _); [|done]. injection Eb as <-. unfold fresh. core_simpl. cbn [initial_batch allowed_mask].
      change (Z.shiftl 1 BATCH_SIZE - 1) with (Z.ones 16). rewrite Z.ones_spec_low by lia. symmetry. apply bool_decide_eq_true_2. lia.
    + exists []. by rewrite app_nil_r.
  - rewrite Er, Ecr. split_and!; try done.
    + intros f. unfold backlog_of. rewrite Ep, Er, Ha, Hb, Eo. simpl. lia.
    + intros f. unfold entries_of. rewrite Ep, Er, Hb, Eo, Es. simpl. lia.
Qed.

(** Up to the [wrap_up]. *)
Lemma batch_loop_spec st fuel first_timeslot now0 pre late post : batch_ready st →
  48 + 16 * 256 ≤ Z.of_nat fuel → 0 ≤ first_timeslot < 2 ^ 62 → first_timeslot + 15 ≤ late < 2 ^ 62 →
  StronglySorted Z.le pre → Forall (λ t, 0 ≤ t < first_timeslot + 15) pre → 0 ≤ now0 ≤ late →
  (length (r_list (q_in st)) ≤ length pre)%nat →
  ∃ c, alloc_core_reset (out_of_boundary_capacity st) (num_nodes st) (core_at core_index st) = Some c ∧
  wp (main_loop n_cores core_index fuel first_timeslot (pre ++ late :: post)
        {| prev_timeslot := u64 (now0 - 1); should_process_new_req := false; processed_bins := 0; admitted_bins := 0; n_processed := 0 |})
    (λ _ st' l, l = [] ∧ loop_ok (started c st) 16 [] st' ∧ r_list (q_in st') = []) (started c st).
Proof using.
  intros Hst Hfuel Hf Hlate Hsort Hpre Hnow Hlen. destruct (start_spec st Hst) as (c & Ec & Hl & Ep & Eq & _).
  exists c. split; [done|]. pose proof (br_few st Hst) as [_ Hfew].
  apply (main_loop_spec (started c st)); cbn [admitted_bins processed_bins prev_timeslot n_processed]; try done; try lia.
  - eapply Forall_impl; [exact Hpre|]. intros t Ht. lia.
  - intros E. mlia.
  - rewrite Ep. lia.
  - by rewrite Eq.
Qed.

(** The state [st'] after a batch that started in [st0] and left the loop in [st]. *)
Record finished st0 st st' : Prop := {
  fi_shape : shape st';
  fi_core : core_ready (core_at core_index st');
  fi_time : current_timeslot (core_at core_index st') = u64 (current_timeslot (core_at core_index st0) + Z.of_nat n_cores * BATCH_SIZE);
  fi_rings : r_wf (q_head (dem st')) ∧ r_wf (q_in st') ∧ r_wf (q_out (run_of st')) ∧ r_wf (q_spent (run_of st')) ∧ r_wf (q_admitted_out st');
  fi_pending : pending st' = pending st;
  fi_in : r_list (q_in st') = [];
  fi_sent : r_list (q_admitted_out st') = r_list (q_admitted_out st0) ++ admitted (core_at core_index st);
  fi_out : concat (r_list (q_out (run_of st'))) = out_entries (run_of st) ++ concat (new_request_bins (core (run_of st)));
  fi_spent : concat (r_list (q_spent (run_of st'))) = spent_entries (run_of st);
}.

(** From the [wrap_up] to the end; no bin is left in the ring from the previous core. *)
Lemma finish_spec st0 st : loop_ok st0 16 [] st → r_list (q_in st) = [] →
  wp (on_run n_cores core_index wrap_up_flush;; burst_q_in_to_q_out n_cores core_index;;
      on_run n_cores core_index (upd_core (λ c, set_current_timeslot (u64 (current_timeslot c + Z.of_nat n_cores * BATCH_SIZE)) c)))
    (λ _ st' l, l = [] ∧ finished st0 st st') st.
Proof using.
  intros [Hsh Hinv (Hw1 & Hw2 & Hw3) _ _ _ Hsent _ _ _ _ _ Ht] Ein. apply wp_bind, wp_zoom. change (get_run n_cores core_index st) with (run_of st).
  assert (alloc_inv None 0 (run_of st)) as I0 by (eapply alloc_inv_less; [exact Hinv|lia]).
  eapply wp_mono; [by apply wrap_up_flush_spec|]. intros _ r l (-> & Ec & Hwo & Hws & Eo & Es).
  pose proof (run_put r st Hsh) as Er. pose proof (q_in_put r st Hsh) as Eq. pose proof (shape_put r st Hsh) as Hsh1.
  assert (dem (put_run n_cores core_index r st) = dem st ∧ q_admitted_out (put_run n_cores core_index r st) = q_admitted_out st) as [Ed Ea] by done.
  set (st1 := put_run n_cores core_index r st) in *. clearbody st1.
  apply wp_bind. unfold burst_q_in_to_q_out. apply wp_bind, wp_get. change (q_bin st1 !!! core_index) with (q_in st1). rewrite Eq.
  pose proof (dequeue_burst_spec Q_IN_Q_OUT_BURST_SIZE (q_in st) Hw2) as Hd. destruct (r_dequeue_burst _ _) as [bs q].
  rewrite Ein, drop_nil, take_nil in Hd. destruct Hd as (-> & Hq & Elq). apply wp_bind, wp_put, wp_ret.
  set (st2 := set_q_bin _ st1). pose proof Hsh1 as [Hc1 Hi1 Hn1 Ha1].
  assert (shape st2) as Hsh2 by (constructor; simpl; by rewrite ?length_insert).
  assert (run_of st2 = r) as Er2 by (rewrite <- Er; unfold run_of, get_run; simpl; by rewrite list_lookup_total_insert_ne).
  assert (q_in st2 = q) as Eq2 by (unfold q_in; simpl; by rewrite list_lookup_total_insert_eq).
  eapply wp_run; [apply upd_core_put|]. set (r3 := {| core := _ |}).
  pose proof (run_put r3 st2 Hsh2) as Er3. pose proof (q_in_put r3 st2 Hsh2) as Eq3. pose proof (shape_put r3 st2 Hsh2) as Hsh3.
  assert (dem (put_run n_cores core_index r3 st2) = dem st ∧ q_admitted_out (put_run n_cores core_index r3 st2) = q_admitted_out st) as [Ed3 Ea3] by done.
  set (st3 := put_run n_cores core_index r3 st2) in *. clearbody st3.
  assert (core_at core_index st2 = core r) as Ec2 by exact (f_equal core Er2).
  assert (core_at core_index st3 = core r3) as Ec3 by exact (f_equal core Er3).
  assert (q_out r3 = q_out r ∧ q_spent r3 = q_spent r) as [Eo3 Es3] by (split; [exact (f_equal q_out Er2)|exact (f_equal q_spent Er2)]).
  split; [done|].
  assert (core r3 = set_current_timeslot (u64 (current_timeslot (core r) + Z.of_nat n_cores * BATCH_SIZE)) (core r)) as Ecr by (unfold r3; cbn [core]; rewrite <- Ec2; done).
  constructor; rewrite ?Ec3, ?Er3, ?Eq3, ?Eq2, ?Ea3, ?Eo3, ?Es3, ?Ed3, ?Ecr, ?Ec; try done.
  - destruct I0. destruct ai_batch. constructor; core_simpl; done.
  - core_simpl. by rewrite <- Ht.
  - unfold pending. rewrite Ed3, Eq3, Eq2, Elq, Ein. done.
  - rewrite Hsent, firstn_all2; [done|]. pose proof (ai_adm _ _ _ Hinv) as E. change (core (run_of st)) with (core_at core_index st) in E. rewrite E. lia.
Qed.

Lemma put_put r1 r2 st : put_run n_cores core_index r2 (put_run n_cores core_index r1 st) = put_run n_cores core_index r2 st.
Proof using. unfold put_run. simpl. unfold set_st_q_spent, set_q_bin, set_cores. simpl. by rewrite !list_insert_insert_eq. Qed.

(** The procedure, when buffers for the admitted traffic are free at once. *)
Lemma batch_spec st fuel first_timeslot now0 pre late post : batch_ready st →
  48 + 16 * 256 ≤ Z.of_nat fuel → 0 ≤ first_timeslot < 2 ^ 62 → first_timeslot + 15 ≤ late < 2 ^ 62 →
  StronglySorted Z.le pre → Forall (λ t, 0 ≤ t < first_timeslot + 15) pre → 0 ≤ now0 ≤ late →
  (length (r_list (q_in st)) ≤ length pre)%nat →
  ∃ c st1, loop_ok (started c st) 16 [] st1 ∧ r_list (q_in st1) = [] ∧
    alloc_core_reset (out_of_boundary_capacity st) (num_nodes st) (core_at core_index st) = Some c ∧
  wp (seq_get_admissible_traffic n_cores core_index fuel 0 first_timeslot (now0 :: pre ++ late :: post)) (λ _ st' l, l = [] ∧
    finished (started c st) st1 st') st.
Proof using.
  intros Hst Hfuel Hf Hlate Hsort Hpre Hnow Hlen.
  destruct (batch_loop_spec st fuel first_timeslot now0 pre late post Hst Hfuel Hf Hlate Hsort Hpre Hnow Hlen) as (c & Ec & Hw).
  apply wp_inv in Hw as ([] & st1 & l & Hrun & -> & Hl1 & Ein). exists c, st1. split; [done|]. split; [done|]. split; [done|].
  pose proof (finish_spec (started c st) st1 Hl1 Ein) as Hfin. apply wp_inv in Hfin as ([] & st2 & l & Hend & -> & Hfin).
  pose proof (br_shape st Hst) as Hsh. unfold seq_get_admissible_traffic. apply wp_bind, wp_get, wp_bind. eapply wp_deref; [exact Ec|].
  apply wp_bind. eapply wp_run; [apply upd_core_put|]. set (r1 := {| core := _ |}). apply wp_bind, wp_ret, wp_bind.
  eapply wp_run; [apply upd_core_put|]. rewrite put_put.
  assert (core_at core_index (put_run n_cores core_index r1 st) = c) as Ec1 by exact (f_equal core (run_put r1 st Hsh)).
  assert ({| core := set_admitted (init_admitted_traffic <$> admitted (core_at core_index (put_run n_cores core_index r1 st))) (core_at core_index (put_run n_cores core_index r1 st));
    q_out := q_out (run_of (put_run n_cores core_index r1 st)); q_spent := q_spent (run_of (put_run n_cores core_index r1 st)) |} =
    {| core := fresh c; q_out := q_out (run_of st); q_spent := q_spent (run_of st) |}) as ->.
  { rewrite Ec1, (run_put r1 st Hsh). done. }
  fold (started c st). apply wp_bind. eapply wp_run; [exact Hrun|].   eapply wp_run; [exact Hend|]. split; [done|exact Hfin].
Qed.
End loop.
