(* ===== verification/AdmissionTheorems.v ===== *)
(** * Theorems about the admission algorithm *)

From Stdlib Require Import Sorted.
From S2P Require Import Prelude Platform Lists Pacer Ring Admission AdmissionFacts AdmissionSpec.
From S2P Require Import AdmissionAlloc AdmissionBatch AdmissionLoop.

(** ** A sample core *)
Definition sample_ring : fp_ring bin := fp_ring_create 64 (replicate 64 []).

Definition sample_core : core_state := alloc_core_init
  {| allowed_mask := 0; src_endnodes := replicate 256 0; dst_endnodes := replicate 256 0;
     out_of_boundary_counts := replicate 16 0 |} 1000.

Definition idle_run : run (fp_ring bin) := {| core := sample_core; q_out := sample_ring; q_spent := sample_ring |}.

(** The core at the start of a batch, with the boundary capacity [cap]. *)
Definition start_run (cap : Z) : run (fp_ring bin) :=
  match alloc_core_reset cap 256 sample_core with
  | Some c => {| core := fresh c; q_out := sample_ring; q_spent := sample_ring |}
  | None => idle_run
  end.

Definition edge (src dst backlog metric : Z) : backlog_edge :=
  {| be_src := src; be_dst := dst; be_backlog := backlog; be_metric := metric |}.

Definition sample_bin : bin := [edge 1 2 3 900; edge 3 2 1 950; edge 1 4 2 900].

(** All bins open. *)
Definition open_bins (r : run (fp_ring bin)) : run (fp_ring bin) :=
  {| core := set_allowed_bins (2 ^ 48 - 1) (core r); q_out := q_out r; q_spent := q_spent r |}.

Definition loaded_run (cap : Z) (b : bin) : run (fp_ring bin) :=
  match incoming_bin_to_core b (start_run cap) with
  | Some (_, r, _) => open_bins r
  | None => idle_run
  end.

Lemma sample_ring_ok : r_wf sample_ring ∧ r_free sample_ring = 63%nat.
Proof.
  destruct (fp_ring_create_spec 6 (replicate 64 ([] : bin)) ltac:(lia)) as (Hw & _ & _); [by vm_compute|].
  change (2 ^ 6) with 64 in Hw. split; [exact Hw|by vm_compute].
Qed.

Lemma sample_core_ready : core_ready sample_core.
Proof.
  constructor; [vm_compute; reflexivity..| |]; (split; [vm_compute; reflexivity|apply Forall_replicate; lia]).
Qed.

Lemma start_run_inv cap : alloc_inv None 0 (start_run cap).
Proof.
  destruct sample_ring_ok as [Hw Hf].
  destruct (alloc_core_reset_spec cap 256 idle_run sample_core_ready ltac:(lia) Hw Hw) as (c & Ec & I & _);
    [change (q_out idle_run) with sample_ring; rewrite Hf; lia|change (q_spent idle_run) with sample_ring; rewrite Hf; lia|].
  unfold start_run. change (core idle_run) with sample_core in Ec. rewrite Ec. exact I.
Qed.

Lemma loaded_run_inv cap b :
  (length b ≤ 60)%nat → bin_count (new_request_bins (core (start_run cap))) = 0 →
  r_free (q_out (start_run cap)) = 63%nat → r_free (q_spent (start_run cap)) = 63%nat →
  Forall (arrives (start_run cap)) b → alloc_inv None 0 (loaded_run cap b).
Proof.
  intros Hl Hc Ho Hs Hb. assert (alloc_inv None (0 + Z.of_nat (length b)) (start_run cap)) as I.
  { apply alloc_inv_hand; [apply start_run_inv|lia|]. cbv zeta. rewrite Hc, Ho, Hs. unfold LARGE_BIN_SIZE, MAX_NODES. lia. }
  pose proof (incoming_bin_to_core_spec b 0 _ I ltac:(lia) Hb) as Hw. unfold wp, loaded_run in *.
  destruct (incoming_bin_to_core b (start_run cap)) as [[[u r] l]|]; [|done]. destruct Hw as (_ & I' & _).
  by apply allowed_inv.
Qed.

Lemma sample_loaded_inv cap : cap = 0 ∨ cap = 16 → alloc_inv None 0 (loaded_run cap sample_bin).
Proof.
  intros Hcap. apply loaded_run_inv; [simpl; lia|by destruct Hcap as [-> | ->]; vm_compute..|].
  destruct Hcap as [-> | ->]; repeat (apply Forall_cons; split; [split; [constructor; simpl; lia|vm_compute; reflexivity]|]); constructor.
Qed.

(** The fuel that is enough for every core: 48 bins and 16 timeslots of 256
    sources. *)
Definition alloc_fuel : nat := 4144.

Section theorems.
Context {R : Type} `{Ring R bin}.
Implicit Types (r : run R).

Lemma alloc_fuel_enough r : alloc_inv None 0 r → alloc_measure r ≤ Z.of_nat alloc_fuel.
Proof. intros I. pose proof (alloc_measure_bound _ _ _ I). change (Z.of_nat alloc_fuel) with 4144. lia. Qed.

Lemma alloc_loop r : alloc_inv None 0 r →
  wp (try_allocation_loop alloc_fuel) (λ _ r' l, l = [] ∧ alloc_inv None 0 r' ∧ balanced r r' ∧
    Z.land (non_empty_bins (core r')) (allowed_bins (core r')) = 0) r.
Proof. intros I. apply try_allocation_loop_spec; [done|by apply alloc_fuel_enough]. Qed.

(** C19. Termination: the allocation loop of a core ends after at most 4144
    passes over bins, with every bin that is open for allocation empty, and no
    bin, admitted list or queue overflows on the way. *)
Theorem allocation_terminates r :
  alloc_inv None 0 r →
  ∃ r', try_allocation_loop alloc_fuel r = Some (tt, r', []) ∧ alloc_inv None 0 r' ∧
    ∀ i, 0 ≤ i < 48 → Z.testbit (allowed_bins (core r)) i = true → arr_get (new_request_bins (core r')) i = [].
Proof.
  intros I. pose proof (alloc_loop r I) as Hw. unfold wp in Hw.
  destruct (try_allocation_loop alloc_fuel r) as [[[[] r'] l]|]; [|done]. destruct Hw as (-> & I' & B & Hz).
  exists r'. split_and!; try done. intros i Hi Ha. destruct (arr_get (new_request_bins (core r')) i) eqn:E; [done|]. exfalso.
  assert (Z.testbit (non_empty_bins (core r')) i = true) as Hn by (apply (ai_marks _ _ _ I' i Hi); [done|by rewrite E]).
  apply (f_equal (λ w, Z.testbit w i)) in Hz. rewrite Z.land_spec, Hn, (bl_allowed _ _ B), Ha, Z.bits_0 in Hz. done.
Qed.

(** C17. Conservation: from a state in which every flow that waits in the bin of a
    timeslot of the batch (32 to 47) has a source that is busy in that timeslot, and
    bins and queues have room ([alloc_inv]), the allocation loop neither loses nor
    invents demand: for every flow, the timeslots admitted plus the backlog held in
    bins and in the queue to the next core stay the same, as does the number of
    entries of the flow; entries are returned to the communication core only when
    their backlog is used up. The condition fails for an entry that arrives with a
    last timeslot inside the batch: its demand can vanish
    ([appended_backlog_is_lost]). *)
Theorem allocation_conserves r :
  alloc_inv None 0 r →
  wp (try_allocation_loop alloc_fuel) (λ _ r' l,
    (∀ f, admitted_count f r' + binned (amount f) None r' + flow_sum f (out_entries r') =
          admitted_count f r + binned (amount f) None r + flow_sum f (out_entries r)) ∧
    (∀ f, binned (belongs f) None r' + present f (out_entries r') + present f (spent_entries r') =
          binned (belongs f) None r + present f (out_entries r) + present f (spent_entries r)) ∧
    ∃ s, spent_entries r' = spent_entries r ++ s ∧ Forall (λ e, be_backlog e = 0) s) r.
Proof.
  intros I. eapply wp_mono; [by apply alloc_loop|]. intros _ r' l (_ & _ & B & _). split_and!; apply B.
Qed.

(** C13. Matching: in every timeslot of the batch each source is admitted at
    most once, and so is each destination, when the boundary capacity is zero and
    no traffic leaves the boundary in that timeslot. *)
Theorem timeslots_are_matchings r :
  alloc_inv None 0 r → dst_matching (bstate (core r)) (admitted (core r)) →
  wp (try_allocation_loop alloc_fuel) (λ _ r' l, ∀ t, 0 ≤ t < 16 →
    let a := arr_get (admitted (core r')) t in
    NoDup a.*1 ∧ ((∀ p, p ∈ a → p.2 ≠ OUT_OF_BOUNDARY_NODE_ID) → NoDup a.*2)) r.
Proof.
  intros I Hd. eapply wp_mono; [by apply alloc_loop|]. intros _ r' l (_ & I' & B & _) t Ht. cbv zeta. split.
  - apply (ai_match _ _ _ I' t Ht).
  - intros Hb. apply (bl_dst _ _ B Hd t Ht Hb).
Qed.


End theorems.

(** C8. A whole batch of an allocation core, [seq_get_admissible_traffic], when the
    core works alone and the clock does not go back. Let every demand that waits in
    the core's two input rings have a last timeslot before the batch (one inside it
    can be lost, see [appended_backlog_is_lost]), be the demands few enough for a
    batch and the rings large enough ([batch_ready]), let buffers for the admitted
    traffic be free, and let the clock be read often enough to empty the ring from
    the previous core before it reaches the last timeslot of the batch. Then the
    procedure ends; it outputs 16 timeslots in which no source occurs twice; of
    every flow each timeslot of backlog that waited is admitted in one of them,
    passed on to the next core, or still waits in the ring of new demands, and each
    entry is passed on, returned to the communication core with its backlog used up,
    or still waits; and the core is ready for the next batch. *)
Theorem batch_accounts_for_demand {R RA : Type} `{Ring R bin} `{Ring RA admitted_traffic} `{!Inhabited R}
    (n_cores core_index : nat) (st : status (R:=R) (RA:=RA)) first_timeslot now0 pre late post :
  batch_ready n_cores core_index st → 0 ≤ first_timeslot < 2 ^ 62 → first_timeslot + 15 ≤ late < 2 ^ 62 →
  StronglySorted Z.le pre → Forall (λ t, 0 ≤ t < first_timeslot + 15) pre → 0 ≤ now0 ≤ late →
  (length (r_list (q_in core_index st)) ≤ length pre)%nat →
  ∃ st' ts onward spent,
    seq_get_admissible_traffic n_cores core_index alloc_fuel 0 first_timeslot (now0 :: pre ++ late :: post) st = Some (tt, st', []) ∧
    core_ready (core_at core_index st') ∧
    current_timeslot (core_at core_index st') = u64 (current_timeslot (core_at core_index st) + Z.of_nat n_cores * BATCH_SIZE) ∧
    r_list (q_admitted_out st') = r_list (q_admitted_out st) ++ ts ∧ length ts = 16%nat ∧ Forall (λ t, NoDup t.*1) ts ∧
    concat (r_list (q_out (run_of n_cores core_index st'))) = concat (r_list (q_out (run_of n_cores core_index st))) ++ onward ∧
    concat (r_list (q_spent (run_of n_cores core_index st'))) = concat (r_list (q_spent (run_of n_cores core_index st))) ++ spent ∧
    Forall (λ e, be_backlog e = 0) spent ∧ r_list (q_in core_index st') = [] ∧
    ∀ f, flow_sum f (pending core_index st) = sum_of (flow_count f) ts + flow_sum f onward + flow_sum f (pending core_index st') ∧
         present f (pending core_index st) = present f onward + present f spent + present f (pending core_index st').
Proof.
  intros Hst Hf Hlate Hsort Hpre Hnow Hlen.
  destruct (batch_spec n_cores core_index st alloc_fuel first_timeslot now0 pre late post) as (c & st1 & Hl & Ein & Ec & Hw); try done.
  apply wp_inv in Hw as ([] & st' & l & Hrun & -> & [_ Hcore Htime _ Hp Hin Hsent Hout Hspent]).
  destruct (start_spec n_cores core_index st Hst) as (c' & Ec' & _ & _ & _ & Eb & Ee & Eo & Es & Et).
  rewrite Ec in Ec'. injection Ec' as <-. destruct Hl as [_ I _ _ _ _ _ _ Hb He [onward Ho] (spent & Hs & Fs) _].
  destruct Hst as [_ [_ _ Cro Crs _ _] _ _ _ _ _].
  assert (out_entries (run_of n_cores core_index st) = concat (r_list (q_out (run_of n_cores core_index st))) ∧
    spent_entries (run_of n_cores core_index st) = concat (r_list (q_spent (run_of n_cores core_index st)))) as [Eo0 Es0].
  { unfold out_entries, spent_entries. change (core (run_of n_cores core_index st)) with (core_at core_index st). by rewrite Cro, Crs, !app_nil_r. }
  exists st', (admitted (core_at core_index st1)), (onward ++ concat (new_request_bins (core_at core_index st1))), spent.
  split_and!; try done.
  - by rewrite Htime, Et.
  - apply (ai_adm _ _ _ I).
  - apply Forall_lookup. intros t l Et'. pose proof (lookup_lt_Some _ _ _ Et') as Hlt. rewrite (ai_adm _ _ _ I : length (admitted (core_at core_index st1)) = 16%nat) in Hlt.
    destruct (ai_match _ _ _ I (Z.of_nat t) ltac:(lia)) as [Hnd _]. unfold arr_get in Hnd. rewrite Nat2Z.id in Hnd.
    change (core (run_of n_cores core_index st1)) with (core_at core_index st1) in Hnd. by rewrite (list_lookup_total_correct _ _ _ Et') in Hnd.
  - rewrite Hout, Ho, Eo, Eo0, <- app_assoc. done.
  - by rewrite Hspent, Hs, Es, Es0.
  - intros f. specialize (Hb f). specialize (He f). rewrite Eb in Hb. rewrite Ee in He. unfold backlog_of, entries_of in Hb, He.
    rewrite Ho, Eo in Hb, He. rewrite Hs, Es in He. rewrite Hp. unfold flow_sum, present, binned, admitted_count in *. simpl others in *.
    rewrite !sum_of_app, !sum_of_concat in *. change (core (run_of n_cores core_index st1)) with (core_at core_index st1) in *. simpl in Hb, He. lia.
Qed.

(** ** Instances on the sample core *)
Lemma allocation_terminates_witness :
  alloc_inv None 0 (loaded_run 0 sample_bin) ∧
  ∃ r', try_allocation_loop alloc_fuel (loaded_run 0 sample_bin) = Some (tt, r', []) ∧ alloc_inv None 0 r'.
Proof.
  split; [apply sample_loaded_inv; left; reflexivity|].
  destruct (allocation_terminates (loaded_run 0 sample_bin)) as (r' & E & I & _); [apply sample_loaded_inv; left; reflexivity|].
  exists r'. split; assumption.
Defined.

Lemma allocation_conserves_witness :
  alloc_inv None 0 (loaded_run 16 sample_bin) ∧
  wp (try_allocation_loop alloc_fuel) (λ _ r' _, ∃ s,
    spent_entries r' = spent_entries (loaded_run 16 sample_bin) ++ s ∧ Forall (λ e, be_backlog e = 0) s) (loaded_run 16 sample_bin).
Proof.
  split; [apply sample_loaded_inv; right; reflexivity|].
  eapply wp_mono; [apply (allocation_conserves (loaded_run 16 sample_bin)); apply sample_loaded_inv; right; reflexivity|].
  intros _ r' l (_ & _ & Hs). exact Hs.
Defined.

(** Destinations are free at the start of a batch with boundary capacity 0. *)
Lemma sample_dst_matching : dst_matching (bstate (core (loaded_run 0 sample_bin))) (admitted (core (loaded_run 0 sample_bin))).
Proof.
  intros t Ht _. assert (Hall : forallb (λ t, bool_decide (arr_get (out_of_boundary_counts (bstate (core (loaded_run 0 sample_bin)))) t = 0 ∧
    arr_get (admitted (core (loaded_run 0 sample_bin))) t = [])) (seqZ 0 16) = true) by (vm_compute; reflexivity).
  rewrite forallb_forall in Hall. specialize (Hall t). rewrite <- list_elem_of_In, elem_of_seqZ in Hall.
  specialize (Hall ltac:(lia)). apply bool_decide_eq_true_1 in Hall as [E1 E2]. rewrite E2.
  split_and!; [exact E1|constructor|by intros p ?%not_elem_of_nil].
Qed.

Lemma timeslots_are_matchings_witness :
  wp (try_allocation_loop alloc_fuel) (λ _ r' _, NoDup (arr_get (admitted (core r')) 3).*1) (loaded_run 0 sample_bin).
Proof.
  eapply wp_mono; [apply (timeslots_are_matchings (loaded_run 0 sample_bin));
    [apply sample_loaded_inv; left; reflexivity|apply sample_dst_matching]|].
  intros u r' l Hm. apply (Hm 3). lia.
Defined.


(** Two cores; demands wait in both input rings of the first. *)
Definition ring_with (b : bin) : fp_ring bin := default sample_ring (r_enqueue b sample_ring).

#[local] Instance sample_ring_inhabited : Inhabited (fp_ring bin) := populate sample_ring.

Definition sample_status : status (R:=fp_ring bin) (RA:=fp_ring admitted_traffic) := {|
  out_of_boundary_capacity := 0; num_nodes := 256;
  dem := {| last_alloc_tslot := []; backlog_n := []; is_active := []; new_demands := []; q_head := ring_with sample_bin |};
  st_q_spent := sample_ring; q_admitted_out := fp_ring_create 64 (replicate 64 []);
  cores := [sample_core; sample_core]; q_bin := [ring_with [edge 7 2 2 980]; sample_ring] |}.

Lemma ring_with_ok b : r_wf (ring_with b) ∧ r_list (ring_with b) = [b].
Proof.
  destruct sample_ring_ok as [Hw Hf]. destruct (r_enqueue_spec sample_ring b Hw) as (q & E & Hq & El & _); [rewrite Hf; lia|].
  unfold ring_with. rewrite E. split; [exact Hq|]. simpl default. rewrite El. by vm_compute.
Qed.

Lemma sample_pending : pending 0 sample_status = sample_bin ++ [edge 7 2 2 980].
Proof.
  unfold pending. change (q_head (dem sample_status)) with (ring_with sample_bin). change (q_in 0 sample_status) with (ring_with [edge 7 2 2 980]).
  by rewrite !(proj2 (ring_with_ok _)).
Qed.

Lemma sample_ready : batch_ready 2 0 sample_status.
Proof.
  destruct sample_ring_ok as [Hw Hf]. destruct (fp_ring_create_spec 6 (replicate 64 ([] : admitted_traffic)) ltac:(lia)) as (Hwa & _ & _); [by vm_compute|].
  constructor; rewrite ?sample_pending.
  - constructor; vm_compute; (lia || done).
  - exact sample_core_ready.
  - vm_compute. split; discriminate.
  - split_and!; try apply ring_with_ok; done.
  - change (q_out (run_of 2 0 sample_status)) with sample_ring. change (q_spent (run_of 2 0 sample_status)) with sample_ring. rewrite Hf. vm_compute. split_and!; congruence.
  - vm_compute. split; congruence.
  - repeat (apply Forall_cons; split; [split; [constructor; simpl; lia|vm_compute; reflexivity]|]). constructor.
Qed.

Lemma batch_accounts_for_demand_witness :
  ∃ st' ts onward, seq_get_admissible_traffic 2 0 alloc_fuel 0 1000 [980; 990; 995; 1003; 1015] sample_status = Some (tt, st', []) ∧
    ∀ f, flow_sum f (sample_bin ++ [edge 7 2 2 980]) = sum_of (flow_count f) ts + flow_sum f onward + flow_sum f (pending 0 st').
Proof.
  destruct (batch_accounts_for_demand 2 0 sample_status 1000 980 [990; 995; 1003] 1015 []) as
    (st' & ts & onward & spent & Hrun & _ & _ & _ & _ & _ & _ & _ & _ & _ & Hsum).
  - exact sample_ready.
  - lia.
  - lia.
  - repeat constructor; lia.
  - repeat constructor; lia.
  - lia.
  - change (q_in 0 sample_status) with (ring_with [edge 7 2 2 980]). rewrite (proj2 (ring_with_ok _)). simpl. lia.
  - exists st', ts, onward. split; [exact Hrun|]. intros f. rewrite <- sample_pending. apply (Hsum f).
Defined.

(** ** Where the code falls short *)

Section boundary.
Context {R : Type} `{Ring R bin}.
Implicit Types (r : run R).

(** The first timeslot is open, the destination [d] is free in it, and the boundary
    capacity is not used up. *)
Record boundary_open (d : Z) (st : batch_state) : Prop := {
  bd_inside : d ≠ OUT_OF_BOUNDARY_NODE_ID;
  bd_open : Z.testbit (allowed_mask st) 0 = true;
  bd_free : dst_free st d 0 = true;
  bd_count : 0 < arr_get (out_of_boundary_counts st) 0 < 2 ^ 16;
}.

Lemma occupied_open st s d : batch_ok st → 0 ≤ s < 256 → 0 ≤ d < 256 → boundary_open d st → src_free st s 0 = true →
  boundary_open d (occupied_batch st s d 0 1) ∧
  ∀ s', 0 ≤ s' < 256 → s' ≠ s → src_free (occupied_batch st s d 0 1) s' 0 = src_free st s' 0.
Proof using.
  intros Hst Hs Hd [Hin Hop Hfr Hc] Hsf. pose proof (occupy_src_free st s d 0 Hst Hs Hd ltac:(lia) Hsf Hfr) as Hsrc.
  change (2 ^ 0) with 1 in Hsrc. split; [|intros s' Hs' Hne; rewrite Hsrc, bool_decide_eq_false_2, andb_true_r by (done || naive_solver lia); done].
  assert (arr_get (out_of_boundary_counts (occupied_batch st s d 0 1)) 0 = arr_get (out_of_boundary_counts st) 0) as Ec.
  { cbn [occupied_batch out_of_boundary_counts]. rewrite (proj2 (Z.eqb_neq _ _) Hin). rewrite arr_get_set by (rewrite ?(bo_counts _ Hst); lia).
    rewrite decide_True by done. cbn [mask_of]. rewrite Z.land_0_l, Z.add_0_r. by apply u16_small; lia. }
  constructor; [done|done| |by rewrite Ec]. unfold dst_free. cbn [occupied_batch dst_endnodes].
  rewrite (proj2 (Z.eqb_neq _ _) Hin). rewrite (arr_get_set (dst_endnodes st)) by (rewrite ?(bo_dst _ Hst); lia). rewrite decide_True by done.
  rewrite arr_get_set by (rewrite ?(bo_counts _ Hst); lia). rewrite decide_True by done. cbn [mask_of]. rewrite Z.land_0_l, Z.add_0_r, u16_small by lia.
  rewrite (proj2 (Z.eqb_neq _ 0)) by lia. simpl. by rewrite Z.lxor_0_r.
Qed.

(** A source that is free gets the first timeslot, and the destination stays free. *)
Lemma admit_shared o k r e d : alloc_inv o (k + 1) r → 0 ≤ k → edge_ok e → be_dst e = d → be_backlog e = 1 →
  boundary_open d (bstate (core r)) → src_free (bstate (core r)) (be_src e) 0 = true →
  wp (try_allocation (be_src e) (be_dst e) (be_backlog e) (be_metric e)) (λ rc r' l, l = [] ∧ rc = false ∧ alloc_inv o k r' ∧
    bstate (core r') = occupied_batch (bstate (core r)) (be_src e) d 0 1 ∧
    admitted (core r') = arr_set (admitted (core r)) 0 (arr_get (admitted (core r)) 0 ++ [(be_src e, d)]) ∧
    new_request_bins (core r') = new_request_bins (core r) ∧ non_empty_bins (core r') = non_empty_bins (core r)) r.
Proof using.
  intros I Hk He Ed Eb Hb Hsf. pose proof Hb as [_ Hop Hdf _]. pose proof He as [Hs Hd _ _]. pose proof (ai_batch _ _ _ I) as Hbo.
  unfold try_allocation. apply wp_bind, wp_get. cbv zeta. apply wp_bind. eapply wp_deref.
  { unfold batch_state_get_avail_bitmap, MAX_SRCS, MAX_DSTS. change Topology.MAX_NODES with 256. by rewrite !(proj2 (Z.ltb_lt _ 256)) by lia. }
  set (bm := endnode_bitmap _ _ _). assert (Z.testbit bm 0 = true) as Hbit.
  { unfold bm, endnode_bitmap. rewrite !Z.land_spec, Hop. unfold src_free, dst_free in *. rewrite <- Ed in Hdf. by rewrite Hsf, Hdf. }
  pose proof (bit_nonzero _ _ Hbit) as Hne. rewrite (proj2 (Z.eqb_neq _ _) Hne).
  destruct (first_timeslot_spec (bstate (core r)) (be_src e) (be_dst e) Hbo Hs Hd Hne) as (Ht & Ebit & _ & _ & _ & Hmin).
  fold bm in Ht, Ebit, Hmin. rewrite Ebit. set (t := Z.land (__ffs bm) _) in *.
  assert (t = 0) as Et. { destruct (decide (0 < t)) as [Hlt|]; [|lia]. rewrite (Hmin 0 Hlt) in Hbit. done. }
  clearbody t. subst t. change (2 ^ 0) with 1. apply wp_bind. eapply wp_deref.
  { unfold batch_state_set_occupied_conditional, MAX_SRCS, MAX_DSTS. change Topology.MAX_NODES with 256.
    rewrite !(proj2 (Z.ltb_lt _ 256)) by lia. done. }
  apply wp_bind, wp_modify, wp_bind. eapply wp_deref; [by eapply insert_admitted_ok; [..|lia|]|]. apply wp_bind, wp_modify. core_simpl.
  rewrite Eb. change (u16 (1 - 1)) with 0. cbn [Z.eqb negb]. apply wp_bind. rewrite <- Ed in Hdf.
  pose proof (admit_inv o (k + 1) r 0 e I He ltac:(lia) Hsf Hdf) as I'. destruct (hand_room _ _ _ I' Hk) as [_ Hfs].
  fold (admitting 0 e r). change (bstate (core r)) with (bstate (core r)).
  eapply wp_mono; [eapply wp_and; [by eapply core_enqueue_to_q_spent_spec|apply enqueue_spent_step; [apply I'|apply I'|exact Hfs]]|].
  intros _ r' l [(-> & I2 & _) (_ & b & q & -> & _)]. apply wp_ret. rewrite <- Ed. done.
Qed.

Lemma edges_shared o d edges : ∀ k r, alloc_inv o (k + Z.of_nat (length edges)) r → 0 ≤ k → Forall edge_ok edges →
  Forall (λ e, be_dst e = d ∧ be_backlog e = 1) edges → NoDup (be_src <$> edges) → boundary_open d (bstate (core r)) →
  Forall (λ e, src_free (bstate (core r)) (be_src e) 0 = true) edges →
  wp (try_allocation_edges edges) (λ _ r' l, l = [] ∧ alloc_inv o k r' ∧ boundary_open d (bstate (core r')) ∧
    arr_get (admitted (core r')) 0 = arr_get (admitted (core r)) 0 ++ (key <$> edges) ∧
    non_empty_bins (core r') = non_empty_bins (core r)) r.
Proof using.
  induction edges as [|e edges IH]; intros k r I Hk Hok Hd Hnd Hb Hs; cbn [try_allocation_edges].
  { apply wp_ret. rewrite Z.add_0_r in I. simpl. by rewrite app_nil_r. }
  apply Forall_cons in Hok as [He Hok]. apply Forall_cons in Hd as [[Ed Eb] Hd]. apply Forall_cons in Hs as [Hse Hs].
  rewrite fmap_cons in Hnd. apply NoDup_cons in Hnd as [Hni Hnd].
  replace (k + Z.of_nat (length (e :: edges))) with ((k + Z.of_nat (length edges)) + 1) in I by (simpl; lia).
  apply wp_bind. eapply wp_mono; [apply (admit_shared o (k + Z.of_nat (length edges)) r e d); (done || lia)|].
  intros rc r1 l (-> & -> & I1 & E1 & E2 & _ & E4). apply wp_bind, wp_ret.
  destruct (occupied_open (bstate (core r)) (be_src e) d (ai_batch _ _ _ I)) as [Hb1 Hsrc]; [apply He|rewrite <- Ed; apply He|done|done|].
  eapply wp_mono; [apply (IH k r1); try done; [by rewrite E1|]|].
  - rewrite E1. rewrite Forall_forall in Hs, Hok |- *. intros e' He'. rewrite Hsrc; [by apply Hs|by apply Hok|].
    intros E. apply Hni. rewrite <- E. apply list_elem_of_fmap. by exists e'.
  - intros _ r2 l (-> & I2 & Hb2 & E5 & E6). split; [done|]. split; [done|]. split; [done|]. rewrite E5, E6, E2, E4.
    rewrite arr_get_set by (rewrite ?(ai_adm _ _ _ I); lia). rewrite decide_True by done. split; [|done].
    rewrite fmap_cons, <- app_assoc. unfold key at 2. by rewrite Ed.
Qed.

(** C38. Destinations are not exclusive: as long as the boundary count of a timeslot
    is not zero (the arbiter configures a capacity of 16), a destination inside the
    boundary is not marked as occupied. When the bin that is open holds requests of
    any number of different sources for one timeslot to the same destination, all
    free in the first timeslot, the allocation loop admits every one of them to that
    destination in that timeslot, and the destination still counts as free. *)
Theorem destination_not_exclusive r i d edges :
  alloc_inv None 0 r → 0 ≤ i < 48 → non_empty_bins (core r) = 2 ^ i → Z.testbit (allowed_bins (core r)) i = true →
  arr_get (new_request_bins (core r)) i = edges → Forall (λ e, be_dst e = d ∧ be_backlog e = 1) edges →
  NoDup (be_src <$> edges) → boundary_open d (bstate (core r)) →
  Forall (λ e, src_free (bstate (core r)) (be_src e) 0 = true) edges →
  wp (try_allocation_loop alloc_fuel) (λ _ r' l,
    arr_get (admitted (core r')) 0 = arr_get (admitted (core r)) 0 ++ ((λ s, (s, d)) <$> (be_src <$> edges)) ∧
    dst_free (bstate (core r')) d 0 = true) r.
Proof using.
  intros I Hi En Ha Ee Hd Hnd Hb Hs. assert (∃ n, alloc_fuel = S (S n)) as [n ->] by (exists (pred (pred alloc_fuel)); reflexivity).
  cbn [try_allocation_loop]. apply wp_bind, wp_get. cbv zeta. rewrite En.
  assert (Z.land (2 ^ i) (allowed_bins (core r)) = 2 ^ i) as El.
  { apply Z.bits_inj'. intros j Hj. rewrite Z.land_spec, testbit_pow2 by lia. case_bool_decide as E; [by subst j|done]. }
  assert (0 ≤ 2 ^ i < 2 ^ 48) as Hr by (split; [apply Z.pow_nonneg; lia|apply Z.pow_lt_mono_r; lia]).
  assert (2 ^ i ≠ 0) as Hne by (pose proof (Z.pow_pos_nonneg 2 i); lia).
  rewrite El. rewrite (proj2 (Z.eqb_neq _ _) Hne). destruct (ffs_spec (2 ^ i) 48 Hr Hne) as (Hf & Hbit & _).
  rewrite testbit_pow2 in Hbit by lia. apply bool_decide_eq_true_1 in Hbit.
  rewrite (land_neg_ffs 48 _ Hr ltac:(lia) Hne), Hbit. apply wp_bind, wp_modify.
  match goal with |- wp _ _ ?x => assert (x = clear_mark i r) as -> by (unfold clear_mark; by rewrite En) end.
  unfold try_allocation_bin. apply wp_bind, wp_bind, wp_get. pose proof (clear_mark_inv 0 i r I Hi) as I1. rewrite En, testbit_pow2, bool_decide_eq_true_2 in I1 by lia.
  specialize (I1 eq_refl). change (new_request_bins (core (clear_mark i r))) with (new_request_bins (core r)). rewrite Ee in I1 |- *.
  eapply wp_mono; [apply (edges_shared (Some i) d edges 0 (clear_mark i r) I1); try done|].
  { rewrite <- Ee. by apply (ai_edges _ _ _ I). }
  intros _ r2 l (-> & I2 & Hb2 & E1 & E2). apply wp_bind, wp_modify.
  assert (non_empty_bins (core r2) = 0) as Ez by (rewrite E2; unfold clear_mark; core_simpl; by rewrite En, Z.lxor_nilpotent).
  cbn [try_allocation_loop]. apply wp_bind, wp_get. core_simpl. rewrite Ez, Z.land_0_l. simpl. apply wp_ret.
  core_simpl. rewrite E1. split; [|apply Hb2]. change (admitted (core (clear_mark i r))) with (admitted (core r)). f_equal.
  rewrite <- list_fmap_compose. apply list_fmap_ext. intros j e Ej%list_elem_of_lookup_2. rewrite Forall_forall in Hd. destruct (Hd e Ej) as [<- _]. done.
Qed.
End boundary.

(** Three sources, one destination, with the configured capacity of 16. *)
Definition rivals : bin := [edge 1 2 1 900; edge 3 2 1 900; edge 7 2 1 900].

Lemma destination_not_exclusive_witness :
  wp (try_allocation_loop alloc_fuel) (λ _ r' _, arr_get (admitted (core r')) 0 = [(1, 2); (3, 2); (7, 2)]) (loaded_run 16 rivals).
Proof.
  eapply wp_mono; [apply (destination_not_exclusive (loaded_run 16 rivals) 0 2 rivals)|].
  - apply loaded_run_inv; [simpl; lia|vm_compute; reflexivity..|].
    repeat (apply Forall_cons; split; [split; [constructor; simpl; lia|vm_compute; reflexivity]|]). constructor.
  - lia.
  - vm_compute. reflexivity.
  - vm_compute. reflexivity.
  - vm_compute. reflexivity.
  - repeat constructor.
  - vm_compute. repeat constructor; intros Hin; repeat (apply elem_of_cons in Hin as [?|Hin]; [discriminate|]); by apply not_elem_of_nil in Hin.
  - constructor; [discriminate|vm_compute; reflexivity..|]. vm_compute. split; reflexivity.
  - repeat constructor; vm_compute; reflexivity.
  - intros _ r' l [E _]. rewrite E. vm_compute. reflexivity.
Defined.

(** A demand that arrives with a last allocation in timeslot [t + 1] of the
    current batch is put into the bin that serves timeslot [t]; when it is
    admitted in that timeslot the rest of its backlog is appended to the bin in
    work, which is then emptied: the backlog is lost. *)
Theorem appended_backlog_is_lost :
  (λ r, (admitted_count (5, 6) r.1.2, binned (amount (5, 6)) None r.1.2, length (out_entries r.1.2), length (spent_entries r.1.2)))
    <$> try_allocation_loop alloc_fuel (loaded_run 0 [edge 5 6 10 1001]) = Some (1, 0, 0%nat, 0%nat).
Proof. vm_compute. reflexivity. Qed.

(** ** The order of service *)

(** The bin of a flow is one of the 48 bins, and flows that were served
    longer ago are never put into a later bin than flows served more recently,
    for gaps up to 2^20 timeslots. *)
Theorem bins_order_by_age last1 last2 cur :
  0 ≤ last1 ≤ last2 → last2 ≤ cur + BATCH_SIZE → cur + BATCH_SIZE < 2 ^ 32 → cur + BATCH_SIZE - last1 < 2 ^ 20 + 33 →
  0 ≤ bin_index_from_timeslot last1 cur ≤ bin_index_from_timeslot last2 cur ∧ bin_index_from_timeslot last2 cur ≤ 47.
Proof.
  intros H1 H2 H3 H4. rewrite !bin_index_spec. rewrite !(u32_small (cur + BATCH_SIZE)), (u32_small last1), (u32_small last2) by lia.
  rewrite !u32_small by lia. pose proof (bin_of_gap_range (cur + BATCH_SIZE - last1) ltac:(lia)).
  pose proof (bin_of_gap_range (cur + BATCH_SIZE - last2) ltac:(lia)).
  pose proof (bin_of_gap_antitone (cur + BATCH_SIZE - last2) (cur + BATCH_SIZE - last1) ltac:(lia) ltac:(lia)). lia.
Qed.

Lemma bins_order_by_age_witness :
  0 ≤ bin_index_from_timeslot 100 1000 ≤ bin_index_from_timeslot 990 1000.
Proof.
  destruct (bins_order_by_age 100 990 1000) as [H _]; [lia|unfold BATCH_SIZE; lia..|exact H].
Defined.

(** Beyond that the order breaks: a flow that waited 2^20 + 33 timeslots is
    treated like one that waited 33, because the group number is truncated to 16
    bits. *)
Theorem bins_wrap_around : ∀ cur, 2 ^ 21 ≤ cur < 2 ^ 31 →
  bin_index_from_timeslot (cur + BATCH_SIZE - (2 ^ 20 + 33)) cur = 15 ∧
  bin_index_from_timeslot (cur + BATCH_SIZE - (2 ^ 20 + 32)) cur = 0.
Proof.
  intros cur Hc. rewrite !bin_index_spec. unfold BATCH_SIZE. rewrite !(u32_small (cur + 16)) by lia.
  rewrite (u32_small (cur + 16 - (2 ^ 20 + 33))), (u32_small (cur + 16 - (2 ^ 20 + 32))) by lia.
  replace (cur + 16 - (cur + 16 - (2 ^ 20 + 33))) with (2 ^ 20 + 33) by lia.
  replace (cur + 16 - (cur + 16 - (2 ^ 20 + 32))) with (2 ^ 20 + 32) by lia. split; vm_compute; reflexivity.
Qed.

Lemma bins_wrap_around_witness : bin_index_from_timeslot (2 ^ 22 + BATCH_SIZE - (2 ^ 20 + 33)) (2 ^ 22) = 15.
Proof. apply (bins_wrap_around (2 ^ 22)). lia. Defined.
