(* ===== verification/Timer.v ===== *)
(** * Timers and bitmaps of the communication core

    Model of [src/src/arbiter/fp_timer.h] (a timer wheel) and
    [src/src/arbiter/bigmap.h] (a bitmap with a summary word). *)

From S2P Require Import Prelude Platform Window WindowFacts Pacer.
Export Topology.

(** ** fp_timer.h *)
Module Timer.
Definition MAX_TIMER_SLOTS : Z := 1024.
Definition TIMER_GRANULARITY : Z := 16 * 1024.
Definition TIMER_NOT_SET_TIME : Z := not64 0.

(** The wheel and the timers it knows; a timer is named by a number. [slots] are
    the linked lists, [time] the field of each timer. *)
Record fp_timers := {
  head : Z;
  slots : list (list Z);
  time : gmap Z Z;
}.

Definition fp_init_timers (now : Z) : fp_timers := {|
  head := now / TIMER_GRANULARITY;
  slots := replicate (Z.to_nat MAX_TIMER_SLOTS) [];
  time := ∅ |}.

Definition fp_init_timer (tim : Z) (w : fp_timers) : fp_timers :=
  {| head := head w; slots := slots w; time := <[tim := TIMER_NOT_SET_TIME]> (time w) |}.

Definition time_of (w : fp_timers) (tim : Z) : Z := default TIMER_NOT_SET_TIME (time w !! tim).

(** [list_del]: the node leaves the list that it is on. *)
Definition list_del (tim : Z) (l : list (list Z)) : list (list Z) := filter (λ x, x ≠ tim) <$> l.

Definition fp_timer_reset (tim when_ : Z) (w : fp_timers) : fp_timers :=
  let when_ := when_ / TIMER_GRANULARITY in
  let slot := if when_ <=? head w then head w mod MAX_TIMER_SLOTS else when_ mod MAX_TIMER_SLOTS in
  let l := if negb (time_of w tim =? TIMER_NOT_SET_TIME) then list_del tim (slots w) else slots w in
  {| head := head w; slots := arr_set l slot (arr_get l slot ++ [tim]);
     time := <[tim := when_]> (time w) |}.

Definition fp_timer_stop (tim : Z) (w : fp_timers) : fp_timers :=
  if time_of w tim =? TIMER_NOT_SET_TIME then w
  else {| head := head w; slots := list_del tim (slots w);
          time := <[tim := TIMER_NOT_SET_TIME]> (time w) |}.

(** The timers of a slot that expire by [now], and the wheel without them. *)
Definition expire_slot (now slot : Z) (w : fp_timers) : fp_timers * list Z :=
  let expired := filter (λ x, time_of w x ≤ now) (arr_get (slots w) slot) in
  ({| head := head w;
      slots := arr_set (slots w) slot (filter (λ x, ¬ time_of w x ≤ now) (arr_get (slots w) slot));
      time := foldr (λ x m, <[x := TIMER_NOT_SET_TIME]> m) (time w) expired |}, expired).

Definition set_head (h : Z) (w : fp_timers) : fp_timers := {| head := h; slots := slots w; time := time w |}.

(** [while ((int64_t)now - (int64_t)timers->head >= 0)] *)
Fixpoint expire_loop (fuel : nat) (now : Z) (w : fp_timers) (l : list Z) : option (fp_timers * list Z) :=
  if s64 (s64 now - s64 (head w)) >=? 0 then
    match fuel with
    | O => None
    | S fuel' =>
        let '(w, expired) := expire_slot now (head w mod MAX_TIMER_SLOTS) w in
        expire_loop fuel' now (set_head (u64 (head w + 1)) w) (l ++ expired)
    end
  else Some (w, l).

(** [l] is the list that the expired timers are added to; [None] is the failed
    assertion. The assertion bounds the loop. *)
Definition fp_timer_get_expired (now : Z) (w : fp_timers) (l : list Z) : option (fp_timers * list Z) :=
  let now := now / TIMER_GRANULARITY in
  if u64 (now - head w) <? 100 * MAX_TIMER_SLOTS then
    '(w, l) ← expire_loop (Z.to_nat (100 * MAX_TIMER_SLOTS)) now w l;
    Some (set_head now w, l)
  else None.

(** *** Invariant *)
Definition armed (w : fp_timers) (tim : Z) : Prop := time_of w tim ≠ TIMER_NOT_SET_TIME.

(** The slot of a timer. *)
Definition slot_of (h t : Z) : Z := if bool_decide (t ≤ h) then h mod 1024 else t mod 1024.

(** Times are at most 2^50: the clock divided by the granularity. *)
Record wheel_ok (w : fp_timers) : Prop := {
  wo_slots : length (slots w) = 1024%nat;
  wo_head : 0 ≤ head w ≤ 2 ^ 50;
  wo_nodup : ∀ s, 0 ≤ s < 1024 → NoDup (arr_get (slots w) s);
  wo_range : ∀ tim, armed w tim → 0 ≤ time_of w tim < 2 ^ 50;
  wo_member : ∀ tim s, 0 ≤ s < 1024 →
    tim ∈ arr_get (slots w) s ↔ armed w tim ∧ s = slot_of (head w) (time_of w tim);
}.

Lemma time_of_insert w tim t x h sl :
  time_of {| head := h; slots := sl; time := <[tim := t]> (time w) |} x = if decide (x = tim) then t else time_of w x.
Proof.
  unfold time_of. simpl. destruct (decide (x = tim)) as [->|]; [by rewrite lookup_insert_eq|].
  by rewrite lookup_insert_ne.
Qed.

Lemma slot_of_range h t : 0 ≤ slot_of h t < 1024.
Proof. unfold slot_of. case_bool_decide; zify_div; lia. Qed.

Lemma arr_get_fmap {A B} `{Inhabited A} `{Inhabited B} (f : A → B) l i :
  0 ≤ i < Z.of_nat (length l) → arr_get (f <$> l) i = f (arr_get l i).
Proof.
  intros Hi. unfold arr_get. apply list_lookup_total_fmap. lia.
Qed.

Lemma elem_of_list_del w tim x s :
  length (slots w) = 1024%nat → 0 ≤ s < 1024 →
  x ∈ arr_get (list_del tim (slots w)) s ↔ x ≠ tim ∧ x ∈ arr_get (slots w) s.
Proof.
  intros Hl Hs. unfold list_del. rewrite arr_get_fmap by (rewrite Hl; lia). by rewrite list_elem_of_filter.
Qed.

(** *** Arming and stopping *)
Lemma fp_timer_stop_ok w tim : wheel_ok w →
  wheel_ok (fp_timer_stop tim w) ∧ ∀ x, time_of (fp_timer_stop tim w) x = if decide (x = tim) then TIMER_NOT_SET_TIME else time_of w x.
Proof.
  intros Hw. pose proof Hw as [Hl Hh Hnd Hr Hm]. unfold fp_timer_stop.
  destruct (Z.eqb_spec (time_of w tim) TIMER_NOT_SET_TIME) as [E|E].
  - split; [done|]. intros x. case_decide; by subst.
  - split; [|intros x; apply time_of_insert]. constructor; unfold armed; simpl; try done.
    + unfold list_del. by rewrite length_fmap.
    + intros s Hs. unfold list_del. rewrite arr_get_fmap by (rewrite Hl; lia). by apply NoDup_filter, Hnd.
    + intros x. rewrite time_of_insert. case_decide; [done|apply Hr].
    + intros x s Hs. rewrite time_of_insert, elem_of_list_del by done. case_decide as Ex.
      * subst. split; [by intros [? _]|by intros [? _]].
      * rewrite Hm by done. unfold armed. tauto.
Qed.

Lemma fp_timer_reset_ok w tim t : wheel_ok w → 0 ≤ t < 2 ^ 64 →
  wheel_ok (fp_timer_reset tim t w) ∧
  ∀ x, time_of (fp_timer_reset tim t w) x = if decide (x = tim) then t / TIMER_GRANULARITY else time_of w x.
Proof.
  intros Hw Ht. pose proof Hw as [Hl Hh Hnd Hr Hm].
  unfold fp_timer_reset. set (t' := t / TIMER_GRANULARITY).
  assert (0 ≤ t' < 2 ^ 50) as Ht' by (unfold t', TIMER_GRANULARITY; zify_div; lia).
  replace (if t' <=? head w then head w mod MAX_TIMER_SLOTS else t' mod MAX_TIMER_SLOTS) with (slot_of (head w) t').
  2:{ unfold slot_of, MAX_TIMER_SLOTS. destruct (Z.leb_spec t' (head w)); [by rewrite bool_decide_eq_true_2|by rewrite bool_decide_eq_false_2 by lia]. }
  set (l := if negb _ then _ else _). pose proof (slot_of_range (head w) t') as Hsl.
  assert (Hlen : length l = 1024%nat) by (unfold l; destruct (negb _); [unfold list_del; by rewrite length_fmap|done]).
  assert (Hin : ∀ x s, 0 ≤ s < 1024 → x ∈ arr_get l s ↔ x ≠ tim ∧ x ∈ arr_get (slots w) s).
  { intros x s Hs. unfold l. destruct (Z.eqb_spec (time_of w tim) TIMER_NOT_SET_TIME) as [E|E]; cbn [negb].
    - split; [|tauto]. intros Hx. split; [|done]. intros ->. apply Hm in Hx as [Ha _]; done.
    - by apply elem_of_list_del. }
  assert (Hndl : ∀ s, 0 ≤ s < 1024 → NoDup (arr_get l s)).
  { intros s Hs. unfold l. destruct (negb _); [|by apply Hnd]. unfold list_del. rewrite arr_get_fmap by (rewrite Hl; lia).
    by apply NoDup_filter, Hnd. }
  split; [|intros x; apply time_of_insert]. constructor; unfold armed; simpl; try done.
  - by rewrite length_arr_set.
  - intros s Hs. rewrite arr_get_set by (rewrite ?Hlen; lia). case_decide as E; [|by apply Hndl].
    apply NoDup_app. split_and!; [by apply Hndl| |apply NoDup_singleton].
    intros x Hx ->%list_elem_of_singleton. apply Hin in Hx as [? _]; [done|lia].
  - intros x. rewrite time_of_insert. case_decide; [done|apply Hr].
  - intros x s Hs. rewrite time_of_insert, arr_get_set by (rewrite ?Hlen; lia). destruct (decide (x = tim)) as [->|Ex].
    + assert (t' ≠ TIMER_NOT_SET_TIME) by (change TIMER_NOT_SET_TIME with (2 ^ 64 - 1); lia).
      case_decide as Es; [subst s|].
      * split; [done|]. intros _. apply elem_of_app. right. by apply list_elem_of_singleton.
      * rewrite Hin by done. split; [by intros [? _]|]. by intros [_ ->].
    + assert (x ∈ arr_get l s ↔ armed w x ∧ s = slot_of (head w) (time_of w x)) as E.
      { rewrite Hin, Hm by done. tauto. }
      case_decide as Es; [|exact E]. subst s. rewrite elem_of_app, list_elem_of_singleton.
      unfold armed in E. naive_solver.
Qed.

(** *** Expiry *)
Lemma time_of_clear w (ex : list Z) x h sl :
  time_of {| head := h; slots := sl; time := foldr (λ x m, <[x := TIMER_NOT_SET_TIME]> m) (time w) ex |} x =
    if decide (x ∈ ex) then TIMER_NOT_SET_TIME else time_of w x.
Proof.
  unfold time_of. cbn [time]. induction ex as [|y ex IH]; cbn [foldr].
  - rewrite decide_False; [done|apply not_elem_of_nil].
  - destruct (decide (x = y)) as [->|Hne].
    + rewrite lookup_insert_eq, decide_True; [done|]. by left.
    + rewrite lookup_insert_ne, IH by done. apply decide_ext. rewrite elem_of_cons. tauto.
Qed.

(** One slot of the wheel. *)
Lemma expire_slot_spec now w :
  wheel_ok w → head w ≤ now < 2 ^ 50 →
  let '(w', ex) := expire_slot now (head w mod MAX_TIMER_SLOTS) w in
  head w' = head w ∧ wheel_ok (set_head (head w + 1) w') ∧ NoDup ex ∧
  (∀ x, x ∈ ex → armed w x ∧ time_of w x ≤ now) ∧
  (∀ x, time_of w' x = if decide (x ∈ ex) then TIMER_NOT_SET_TIME else time_of w x) ∧
  (∀ x, armed w' x → head w < time_of w' x).
Proof.
  intros Hw Hnow. pose proof Hw as [Hl Hh Hnd Hr Hm]. unfold expire_slot. change MAX_TIMER_SLOTS with 1024.
  set (s0 := head w mod 1024). assert (0 ≤ s0 < 1024) as Hs0 by (unfold s0; zify_div; lia).
  set (ex := filter (λ x, time_of w x ≤ now) (arr_get (slots w) s0)).
  assert (Hex : ∀ x, x ∈ ex ↔ armed w x ∧ time_of w x ≤ now ∧ s0 = slot_of (head w) (time_of w x)).
  { intros x. unfold ex. rewrite list_elem_of_filter, Hm by done. tauto. }
  assert (Hslot : ∀ x, armed w x → x ∉ ex → head w < time_of w x).
  { intros x Ha Hx. destruct (decide (head w < time_of w x)); [done|]. exfalso. apply Hx, Hex. split_and!; [done|lia|].
    unfold slot_of. by rewrite bool_decide_eq_true_2 by lia. }
  split_and!; [done| |by apply NoDup_filter, Hnd|intros x [? [? _]]%Hex; done|intros x; apply time_of_clear|].
  2:{ intros x. unfold armed. rewrite time_of_clear. case_decide; [done|]. intros Ha. by apply Hslot. }
  constructor; unfold armed, set_head; simpl; try lia.
  - by rewrite length_arr_set.
  - intros s Hs. rewrite arr_get_set by (rewrite ?Hl; lia). case_decide; [by apply NoDup_filter, Hnd|by apply Hnd].
  - intros x. rewrite time_of_clear. case_decide; [done|apply Hr].
  - intros x s Hs. rewrite time_of_clear, arr_get_set by (rewrite ?Hl; lia).
    assert (x ∈ (if decide (s0 = s) then filter (λ x, ¬ time_of w x ≤ now) (arr_get (slots w) s0) else arr_get (slots w) s)
      ↔ x ∉ ex ∧ x ∈ arr_get (slots w) s) as ->.
    { destruct (decide (s0 = s)) as [<-|Hne].
      - rewrite list_elem_of_filter, Hex, Hm by done. tauto.
      - rewrite Hex, Hm by done. naive_solver. }
    rewrite Hm by done. destruct (decide (x ∈ ex)) as [Hx|Hx]; [naive_solver|].
    assert (armed w x → slot_of (head w + 1) (time_of w x) = slot_of (head w) (time_of w x)) as Heq.
    { intros Ha. specialize (Hslot x Ha Hx). unfold slot_of. rewrite (bool_decide_eq_false_2 (_ ≤ head w)) by lia.
      case_bool_decide; [|done]. by replace (time_of w x) with (head w + 1) by lia. }
    unfold armed in *. naive_solver.
Qed.

Lemma expire_loop_spec now : 0 ≤ now < 2 ^ 50 → ∀ fuel w l,
  wheel_ok w → head w ≤ now + 1 → now + 1 - head w ≤ Z.of_nat fuel →
  (head w = now + 1 → ∀ x, armed w x → now < time_of w x) →
  ∃ w' ex, expire_loop fuel now w l = Some (w', l ++ ex) ∧ wheel_ok w' ∧ head w' = now + 1 ∧ NoDup ex ∧
    (∀ x, x ∈ ex → armed w x ∧ time_of w x ≤ now) ∧
    (∀ x, time_of w' x = if decide (x ∈ ex) then TIMER_NOT_SET_TIME else time_of w x) ∧
    (∀ x, armed w' x → now < time_of w' x).
Proof.
  intros Hnow. induction fuel as [|fuel IH]; intros w l Hw Hle Hfuel Hlate; cbn [expire_loop].
  - pose proof (wo_head _ Hw). assert (head w = now + 1) as E by lia.
    destruct (Z.geb_spec (s64 (s64 now - s64 (head w))) 0) as [H1|H1]; [exfalso; mlia|].
    exists w, []. rewrite app_nil_r. split_and!; try done; [constructor|by intros x ?%not_elem_of_nil|by apply Hlate].
  - pose proof (wo_head _ Hw). destruct (Z.geb_spec (s64 (s64 now - s64 (head w))) 0) as [H1|H1].
    + assert (head w ≤ now) as Hn by mlia. pose proof (expire_slot_spec now w Hw ltac:(lia)) as Hs.
      destruct (expire_slot _ _ _) as [w1 ex]. destruct Hs as (Eh & Hw1 & Hnd1 & Hex1 & Ht1 & Hl1).
      rewrite Eh, u64_small by lia.
      destruct (IH (set_head (head w + 1) w1) (l ++ ex) Hw1) as (w2 & ex2 & E2 & Hw2 & Eh2 & Hnd2 & Hex2 & Ht2 & Hl2);
        [unfold set_head; simpl; lia..| |].
      { intros En x Ha. replace now with (head w) by (unfold set_head in En; simpl in En; lia). by apply Hl1. }
      change (time_of (set_head (head w + 1) w1)) with (time_of w1) in Ht2, Hex2.
      exists w2, (ex ++ ex2). rewrite E2, <- app_assoc. unfold armed in *.
      change (time_of (set_head (head w + 1) w1)) with (time_of w1) in Hex2.
      split_and!; try done.
      * apply NoDup_app. split_and!; try done. intros x Hx Hx2. destruct (Hex2 x Hx2) as [Ha _].
        apply Ha. rewrite Ht1. by rewrite decide_True.
      * intros x [Hx|Hx]%elem_of_app; [by apply Hex1|]. destruct (Hex2 x Hx) as [Ha Hb]. rewrite Ht1 in Ha, Hb.
        destruct (decide (x ∈ ex)); done.
      * intros x. rewrite Ht2, Ht1. repeat case_decide; try done; set_solver.
    + assert (head w = now + 1) as E by mlia.
      exists w, []. rewrite app_nil_r. split_and!; try done; [constructor|by intros x ?%not_elem_of_nil|by apply Hlate].
Qed.

(** Exactly the timers that are due are returned. *)
Lemma get_expired_spec now w l :
  wheel_ok w → 0 ≤ now < 2 ^ 64 → head w ≤ now / TIMER_GRANULARITY →
  now / TIMER_GRANULARITY - head w < 100 * MAX_TIMER_SLOTS →
  ∃ w' ex, fp_timer_get_expired now w l = Some (w', l ++ ex) ∧ wheel_ok w' ∧
    head w' = now / TIMER_GRANULARITY ∧ NoDup ex ∧
    (∀ x, x ∈ ex ↔ armed w x ∧ time_of w x ≤ now / TIMER_GRANULARITY) ∧
    (∀ x, time_of w' x = if decide (x ∈ ex) then TIMER_NOT_SET_TIME else time_of w x).
Proof.
  intros Hw Hnow Hle Hlim. unfold fp_timer_get_expired. set (n := now / TIMER_GRANULARITY) in *.
  assert (0 ≤ n < 2 ^ 50) as Hn by (unfold n, TIMER_GRANULARITY; zify_div; lia). pose proof (wo_head _ Hw).
  unfold MAX_TIMER_SLOTS in *. rewrite u64_small by lia. rewrite (proj2 (Z.ltb_lt _ _)) by lia.
  destruct (expire_loop_spec n Hn (Z.to_nat (100 * 1024)) w l Hw) as (w1 & ex & E & Hw1 & Eh & Hnd & Hex & Ht & Hlate); [lia..| |].
  { intros. lia. }
  rewrite E. simpl. exists (set_head n w1), ex. split_and!; try done.
  - destruct Hw1 as [Hl1 Hh1 Hnd1 Hr1 Hm1]. constructor; try done; [simpl; lia|]. intros x s Hs.
    change (arr_get (slots (set_head n w1)) s) with (arr_get (slots w1) s). rewrite Hm1 by done.
    change (armed (set_head n w1) x) with (armed w1 x). change (time_of (set_head n w1) x) with (time_of w1 x).
    rewrite Eh. cbn [head set_head].
    assert (armed w1 x → slot_of (n + 1) (time_of w1 x) = slot_of n (time_of w1 x)) as Heq.
    { intros Ha. specialize (Hlate x Ha). unfold slot_of. rewrite (bool_decide_eq_false_2 (_ ≤ n)) by lia.
      case_bool_decide; [|done]. by replace (time_of w1 x) with (n + 1) by lia. }
    split; intros [Ha ->]; (split; [done|]); by rewrite Heq.
  - intros x. split; [apply Hex|]. intros [Ha Hb]. destruct (decide (x ∈ ex)) as [|Hx]; [done|]. exfalso.
    specialize (Hlate x). unfold armed in *. rewrite Ht, decide_False in Hlate by done. specialize (Hlate Ha). lia.
Qed.
End Timer.

(** ** bigmap.h *)
Module Bigmap.
Record bigmap := { mask : list Z; summary : Z }.

Definition BIGMAP_WORDS : Z := (MAX_NODES + 63) / 64.

Definition bigmap_init (map : bigmap) : bigmap :=
  {| mask := replicate (Z.to_nat BIGMAP_WORDS) 0; summary := 0 |}.

Definition bigmap_set (index : Z) (map : bigmap) : bigmap :=
  let word := Z.shiftr index 6 in
  {| mask := arr_set (mask map) word (Z.lor (arr_get (mask map) word) (shl64 1 (Z.land index 0x3F)));
     summary := Z.lor (summary map) (shl64 1 word) |}.

Definition bigmap_clear (index : Z) (map : bigmap) : bigmap :=
  let word := Z.shiftr index 6 in
  let m := arr_set (mask map) word (Z.land (arr_get (mask map) word) (not64 (shl64 1 (Z.land index 0x3F)))) in
  {| mask := m;
     summary := if arr_get m word =? 0 then Z.land (summary map) (not64 (shl64 1 word)) else summary map |}.

Definition bigmap_empty (map : bigmap) : bool := summary map =? 0.

Definition bigmap_is_set (map : bigmap) (index : Z) : bool :=
  let word := Z.shiftr index 6 in
  negb (Z.land (arr_get (mask map) word) (shl64 1 (Z.land index 0x3F)) =? 0).

Definition bigmap_find (map : bigmap) : Z :=
  let word := u32 (__ffs (summary map)) in
  let offset := u32 (__ffs (arr_get (mask map) word)) in
  u32 (u32 (Z.shiftl word 6) + offset).

(** *** What the map represents *)
Definition bits (map : bigmap) : gset Z := list_to_set (filter (λ i, wbit (mask map) i = true) (seqZ 0 256)).

Record bigmap_ok (map : bigmap) : Prop := {
  bm_len : length (mask map) = 4%nat;
  bm_words : Forall (λ w, 0 ≤ w < 2 ^ 64) (mask map);
  bm_range : 0 ≤ summary map < 2 ^ 4;
  bm_summary : ∀ k, 0 ≤ k < 4 → Z.testbit (summary map) k = negb (arr_get (mask map) k =? 0);
}.

Lemma elem_of_bits map i : i ∈ bits map ↔ 0 ≤ i < 256 ∧ wbit (mask map) i = true.
Proof.
  unfold bits. rewrite elem_of_list_to_set, list_elem_of_filter, elem_of_seqZ. naive_solver lia.
Qed.

(** The index arithmetic. *)
Lemma index_word i : Z.shiftr i 6 = BIT_WORD i.
Proof. rewrite Z.shiftr_div_pow2 by lia. done. Qed.

Lemma index_bit i : shl64 1 (Z.land i 0x3F) = BIT_MASK i.
Proof. unfold BIT_MASK. change 0x3F with (Z.ones 6). by rewrite Z.land_ones by lia. Qed.

Lemma word_of_index i : 0 ≤ i < 256 → 0 ≤ BIT_WORD i < 4.
Proof. intros. unfold BIT_WORD. change BITS_PER_LONG with 64. zify_div; lia. Qed.

Section ops.
Context (map : bigmap) (i : Z) (Hok : bigmap_ok map) (Hi : 0 ≤ i < 256).

Lemma set_mask : mask (bigmap_set i map) = __set_bit i (mask map).
Proof using Type. clear Hok Hi. unfold bigmap_set, __set_bit. simpl. by rewrite index_word, index_bit. Qed.

Lemma clear_mask : mask (bigmap_clear i map) = __clear_bit i (mask map).
Proof using Type. clear Hok Hi. unfold bigmap_clear, __clear_bit. simpl. by rewrite index_word, index_bit. Qed.

Lemma bits_set : bits (bigmap_set i map) = {[ i ]} ∪ bits map.
Proof using All.
  apply set_eq. intros x. rewrite elem_of_union, elem_of_singleton, !elem_of_bits, set_mask.
  split.
  - intros [Hx Hb]. rewrite wbit_set_bit in Hb by (rewrite ?(bm_len _ Hok); lia).
    apply orb_true_iff in Hb as [->%bool_decide_eq_true_1|]; auto.
  - intros [->|[Hx Hb]]; (split; [done|]); rewrite wbit_set_bit by (rewrite ?(bm_len _ Hok); lia).
    + by rewrite bool_decide_eq_true_2.
    + by rewrite Hb, orb_true_r.
Qed.

Lemma bits_clear : bits (bigmap_clear i map) = bits map ∖ {[ i ]}.
Proof using All.
  apply set_eq. intros x. rewrite elem_of_difference, elem_of_singleton, !elem_of_bits, clear_mask.
  split.
  - intros [Hx Hb]. rewrite wbit_clear_bit in Hb by (rewrite ?(bm_len _ Hok); lia).
    apply andb_true_iff in Hb as [Hn Hb]. apply negb_true_iff, bool_decide_eq_false_1 in Hn. auto.
  - intros [[Hx Hb] Hne]. split; [done|]. rewrite wbit_clear_bit by (rewrite ?(bm_len _ Hok); lia).
    by rewrite Hb, bool_decide_eq_false_2.
Qed.

Lemma bigmap_set_ok : bigmap_ok (bigmap_set i map).
Proof using All.
  pose proof (word_of_index i Hi) as Hw. pose proof Hok as [Hl Hf Hr Hs].
  pose proof (words_set_bit i (mask map) Hl Hi Hf) as Hf'.
  assert (shl64 1 (BIT_WORD i) = 2 ^ BIT_WORD i) as Esh.
  { unfold shl64. rewrite Z.shiftl_1_l. apply u64_small. split; [apply Z.pow_nonneg; lia|apply Z.pow_lt_mono_r; lia]. }
  constructor; rewrite ?set_mask; try done; [unfold __set_bit; by rewrite length_arr_set|..];
    cbn [summary bigmap_set]; rewrite index_word, Esh.
  - apply lor_range; [done| |lia]. split; [apply Z.pow_nonneg; lia|apply Z.pow_lt_mono_r; lia].
  - intros k Hk. rewrite Z.lor_spec, testbit_pow2, Hs by lia. unfold __set_bit. rewrite arr_get_set by (rewrite ?Hl; lia).
    destruct (decide (BIT_WORD i = k)) as [->|Hne].
    + rewrite bool_decide_eq_true_2, orb_true_r by done. symmetry. apply negb_true_iff, Z.eqb_neq. intros E.
      apply (f_equal (λ w, Z.testbit w (i mod 64))) in E. rewrite Z.lor_spec, bit_mask_pow2, testbit_pow2 in E by (zify_div; lia).
      rewrite bool_decide_eq_true_2, orb_true_r, Z.bits_0 in E by done. done.
    + by rewrite bool_decide_eq_false_2, orb_false_r by congruence.
Qed.

Lemma bigmap_clear_ok : bigmap_ok (bigmap_clear i map).
Proof using All.
  pose proof (word_of_index i Hi) as Hw. pose proof Hok as [Hl Hf Hr Hs].
  pose proof (words_clear_bit i (mask map) Hl Hi Hf) as Hf'.
  assert (shl64 1 (BIT_WORD i) = 2 ^ BIT_WORD i) as Esh.
  { unfold shl64. rewrite Z.shiftl_1_l. apply u64_small. split; [apply Z.pow_nonneg; lia|apply Z.pow_lt_mono_r; lia]. }
  assert (Hcl : ∀ k, 0 ≤ k → Z.testbit (Z.land (summary map) (not64 (2 ^ BIT_WORD i))) k =
    Z.testbit (summary map) k && bool_decide (k ≠ BIT_WORD i)).
  { intros k Hk. rewrite Z.land_spec. destruct (decide (k < 64)); [|by rewrite (testbit_high (summary map) 4) by lia].
    by rewrite testbit_not64, testbit_pow2, bool_decide_not by lia. }
  constructor; rewrite ?clear_mask; try done; [unfold __clear_bit; by rewrite length_arr_set|..];
    change (summary (bigmap_clear i map)) with (if arr_get (mask (bigmap_clear i map)) (Z.shiftr i 6) =? 0
      then Z.land (summary map) (not64 (shl64 1 (Z.shiftr i 6))) else summary map); rewrite clear_mask, index_word, Esh.
  - destruct (_ =? 0); [|done]. apply land_range; [done| |lia]. apply not64_range.
    split; [apply Z.pow_nonneg; lia|apply Z.pow_lt_mono_r; lia].
  - intros k Hk. destruct (decide (k = BIT_WORD i)) as [->|Hne].
    + destruct (Z.eqb_spec (arr_get (__clear_bit i (mask map)) (BIT_WORD i)) 0) as [E|E]; cbn [negb].
      * by rewrite Hcl, bool_decide_eq_false_2, andb_false_r by (congruence || lia).
      * rewrite Hs by done. apply negb_true_iff, Z.eqb_neq. intros E0. apply E. unfold __clear_bit.
        rewrite arr_get_set by (rewrite ?Hl; lia). by rewrite decide_True, E0.
    + replace (arr_get (__clear_bit i (mask map)) k) with (arr_get (mask map) k).
      2:{ unfold __clear_bit. rewrite arr_get_set by (rewrite ?Hl; lia). by rewrite decide_False by congruence. }
      destruct (_ =? 0); [rewrite Hcl by lia|]; rewrite Hs by done; [|done].
      by rewrite bool_decide_eq_true_2, andb_true_r.
Qed.

Lemma bigmap_is_set_spec : bigmap_is_set map i = bool_decide (i ∈ bits map).
Proof using Hi.
  clear Hok. unfold bigmap_is_set. rewrite index_word, index_bit, bit_mask_pow2.
  assert (0 ≤ i mod 64 < 64) by (zify_div; lia). apply eq_bool_prop_intro.
  rewrite !Is_true_true, bool_decide_eq_true, elem_of_bits, negb_true_iff, Z.eqb_neq, wbit_mod. unfold BIT_WORD.
  change BITS_PER_LONG with 64. set (w := arr_get _ _). split.
  - intros Hne. split; [done|]. destruct (Z.testbit w (i mod 64)) eqn:E; [done|]. exfalso. apply Hne, Z.bits_inj'.
    intros j Hj. rewrite Z.land_spec, testbit_pow2, Z.bits_0 by lia. case_bool_decide; [by subst; rewrite E|apply andb_false_r].
  - intros [_ Hb] E. apply (f_equal (λ w, Z.testbit w (i mod 64))) in E.
    rewrite Z.land_spec, testbit_pow2, Z.bits_0, Hb, bool_decide_eq_true_2 in E by (done || lia). done.
Qed.
End ops.

Lemma bigmap_init_spec map : bigmap_ok (bigmap_init map) ∧ bits (bigmap_init map) = ∅.
Proof.
  split.
  - constructor; try done; [by repeat constructor|]. intros k Hk.
    assert (k = 0 ∨ k = 1 ∨ k = 2 ∨ k = 3) as [->|[->|[->| ->]]] by lia; done.
  - by vm_compute.
Qed.

(** The set bits lie in the words that the summary names. *)
Lemma find_spec map : bigmap_ok map →
  if bigmap_empty map then bits map = ∅
  else bigmap_find map ∈ bits map ∧ ∀ x, x ∈ bits map → bigmap_find map ≤ x.
Proof.
  intros [Hl Hf Hr Hs]. unfold bigmap_empty, bigmap_find.
  assert (Hnz : ∀ x, x ∈ bits map → Z.testbit (summary map) (BIT_WORD x) = true).
  { intros x [Hx Hb]%elem_of_bits. pose proof (word_of_index x Hx). rewrite Hs by done.
    apply negb_true_iff, Z.eqb_neq. intros E. unfold wbit in Hb. by rewrite E, Z.bits_0 in Hb. }
  destruct (Z.eqb_spec (summary map) 0) as [E|E].
  { apply set_eq. intros x. split; [|by intros ?%not_elem_of_empty]. intros Hx%Hnz. by rewrite E, Z.bits_0 in Hx. }
  destruct (ffs_spec _ 4 Hr E) as (Hw & Hwb & Hwl). set (w := __ffs (summary map)) in *. rewrite (u32_small w) by lia.
  rewrite Hs in Hwb by done. apply negb_true_iff, Z.eqb_neq in Hwb.
  assert (0 ≤ arr_get (mask map) w < 2 ^ 64) as Hword.
  { apply (arr_get_Forall (λ w, 0 ≤ w < 2 ^ 64)); [done|]. rewrite Hl. lia. }
  destruct (ffs_spec _ 64 Hword Hwb) as (Ho & Hob & Hol). set (o := __ffs (arr_get (mask map) w)) in *.
  rewrite (u32_small o), Z.shiftl_mul_pow2 by lia. change (2 ^ 6) with 64. rewrite (u32_small (w * 64)), u32_small by lia.
  assert (BIT_WORD (w * 64 + o) = w ∧ (w * 64 + o) mod 64 = o) as [E1 E2].
  { unfold BIT_WORD. change BITS_PER_LONG with 64. zify_div; lia. }
  split.
  - apply elem_of_bits. split; [lia|]. unfold wbit. change BITS_PER_LONG with 64. by rewrite E1, E2.
  - intros x Hx. pose proof (Hnz x Hx) as Hb. apply elem_of_bits in Hx as [Hx Hxb].
    destruct (decide (BIT_WORD x < w)) as [Hlt|Hge]; [by rewrite Hwl in Hb|].
    unfold BIT_WORD in *. change BITS_PER_LONG with 64 in *.
    destruct (decide (x / 64 = w)) as [Ew|Hne]; [|zify_div; lia].
    rewrite wbit_mod, Ew in Hxb. destruct (decide (x mod 64 < o)); [by rewrite Hol in Hxb|]. zify_div; lia.
Qed.
End Bigmap.
