(* ===== verification/Graph.v ===== *)
(** * Bipartite multigraphs and Euler splits

    Model of [src/src/graph-algo/graph.h] (bitmap representation),
    [euler_split.c] and [kapoor_rizzi.c].

    [None] is a failed [assert]. The vertices of the left side are numbered from
    0, those of the right side from [n]. *)

From S2P Require Import Prelude Platform.

Module Graph.
Definition MAX_DEGREE : Z := 64.
Definition MAX_GRAPH_NODES : Z := 64.

(** [neighbor_bitmaps] *)
Definition graph_edges : Type := list Z.

Record neighbor := { id : Z; index : Z }.
#[export] Instance neighbor_inhabited : Inhabited neighbor := populate {| id := 0; index := 0 |}.

(** [vertices[v].neighbors] *)
Record graph_structure := { n : Z; vertices : list (list neighbor) }.

Definition guard {A} (b : bool) (o : option A) : option A := if b then o else None.

Definition graph_structure_init (n0 : Z) (s : graph_structure) : option graph_structure :=
  guard (n0 <=? MAX_GRAPH_NODES) (Some {| n := n0; vertices := vertices s |}).

Definition graph_edges_init (e : graph_edges) (n0 : Z) : option graph_edges :=
  guard (n0 <=? MAX_GRAPH_NODES) (Some (replicate (Z.to_nat (2 * n0)) 0 ++ drop (Z.to_nat (2 * n0)) e)).

Definition has_neighbor (e : graph_edges) (vertex : Z) : bool := negb (arr_get e vertex =? 0).

(** [while (bitmap > 0)]: at most 64 bits. *)
Fixpoint degree_loop (fuel : nat) (bitmap degree : Z) : Z :=
  match fuel with
  | O => degree
  | S fuel' =>
      if bitmap >? 0 then degree_loop fuel' (Z.shiftr bitmap 1) (u8 (degree + Z.land bitmap 1))
      else degree
  end.

Definition get_degree (e : graph_edges) (vertex : Z) : Z := degree_loop 64 (arr_get e vertex) 0.

Definition get_max_degree (e : graph_edges) (n0 : Z) : Z :=
  foldl (λ m i, Z.max m (get_degree e i)) 0 (seqZ 0 (2 * n0)).

Definition neighbor_at (s : graph_structure) (u i : Z) : neighbor := arr_get (arr_get (vertices s) u) i.
Definition set_neighbor (s : graph_structure) (u i : Z) (nb : neighbor) : graph_structure :=
  {| n := n s; vertices := arr_set (vertices s) u (arr_set (arr_get (vertices s) u) i nb) |}.

Definition clear_bit_of (bitmap i : Z) : Z := Z.land bitmap (not64 (shl64 1 i)).
Definition set_bit_of (bitmap i : Z) : Z := Z.lor bitmap (shl64 1 i).

(** Removes the first edge of [u]; returns the other vertex and the positions of
    the edge at both ends. *)
Definition take_edge (s : graph_structure) (src : graph_edges) (u : Z) : option (Z * Z * Z * graph_edges) :=
  let u_bitmap := arr_get src u in
  guard ((u <? 2 * n s) && negb (u_bitmap =? 0))
    (let edge_index_u := __ffs u_bitmap in
     let v := id (neighbor_at s u edge_index_u) in
     let edge_index_v := index (neighbor_at s u edge_index_u) in
     let v_bitmap := arr_get src v in
     let src := arr_set src u (clear_bit_of u_bitmap edge_index_u) in
     let src := arr_set src v (clear_bit_of v_bitmap edge_index_v) in
     Some (v, edge_index_u, edge_index_v, src)).

Definition split_edge (s : graph_structure) (src dst : graph_edges) (u : Z) :
    option (Z * graph_edges * graph_edges) :=
  '(v, edge_index_u, edge_index_v, src) ← take_edge s src u;
  let u_bitmap := arr_get dst u in
  let v_bitmap := arr_get dst v in
  let dst := arr_set dst u (set_bit_of u_bitmap edge_index_u) in
  let dst := arr_set dst v (set_bit_of v_bitmap edge_index_v) in
  Some (v, src, dst).

Definition remove_edge_to_neighbor (s : graph_structure) (src : graph_edges) (u : Z) :
    option (Z * graph_edges) :=
  '(v, _, _, src) ← take_edge s src u;
  Some (v, src).

Definition add_edge (s : graph_structure) (e : graph_edges) (u v : Z) :
    option (graph_structure * graph_edges) :=
  let u_bitmap := arr_get e u in
  let v_bitmap := arr_get e v in
  guard ((u <? 2 * n s) && (v <? 2 * n s) && negb (not64 u_bitmap =? 0) && negb (not64 v_bitmap =? 0))
    (let edge_index_u := __ffs (not64 u_bitmap) in
     let edge_index_v := __ffs (not64 v_bitmap) in
     let e := arr_set e u (set_bit_of u_bitmap edge_index_u) in
     let e := arr_set e v (set_bit_of v_bitmap edge_index_v) in
     let s := set_neighbor s u edge_index_u {| id := v; index := edge_index_v |} in
     let s := set_neighbor s v edge_index_v {| id := u; index := edge_index_u |} in
     Some (s, e)).

Fixpoint add_edges_loop (l : list Z) (e1 e2 : graph_edges) : option graph_edges :=
  match l with
  | [] => Some e1
  | i :: l' =>
      guard (Z.land (arr_get e1 i) (arr_get e2 i) =? 0)
        (add_edges_loop l' (arr_set e1 i (Z.lor (arr_get e1 i) (arr_get e2 i))) e2)
  end.

Definition add_edges (e1 e2 : graph_edges) (n0 : Z) : option graph_edges := add_edges_loop (seqZ 0 (2 * n0)) e1 e2.

Definition copy_edges (src dst : graph_edges) (n0 : Z) : graph_edges :=
  take (Z.to_nat (2 * n0)) src ++ drop (Z.to_nat (2 * n0)) dst.

(** The loop returns at the first edge that fits. *)
Fixpoint set_edge_loop (l : list Z) (s : graph_structure) (existing e : graph_edges) (u v : Z) : graph_edges :=
  match l with
  | [] => e
  | i :: l' =>
      if (id (neighbor_at s u i) =? v) && negb (Z.testbit (arr_get e u) i) && negb (Z.testbit (arr_get existing u) i)
      then
        let v_bitmap := arr_get e v in
        let e := arr_set e u (set_bit_of (arr_get e u) i) in
        arr_set e v (set_bit_of v_bitmap (index (neighbor_at s u i)))
      else set_edge_loop l' s existing e u v
  end.

Definition set_edge (s : graph_structure) (existing e : graph_edges) (u v : Z) : graph_edges :=
  set_edge_loop (seqZ 0 MAX_DEGREE) s existing e u v.

Definition are_equal (e1 e2 : graph_edges) (n0 : Z) : bool :=
  forallb (λ i, arr_get e1 i =? arr_get e2 i) (seqZ 0 (2 * n0)).

Definition is_perfect_matching (e : graph_edges) (n0 : Z) : bool :=
  forallb (λ i, get_degree e i =? 1) (seqZ 0 (2 * n0)).

Definition is_consistent (s : graph_structure) (e : graph_edges) : bool :=
  forallb (λ i, forallb (λ j,
    negb (Z.testbit (arr_get e i) j) ||
    (let nb := neighbor_at s i j in
     let back := neighbor_at s (id nb) (index nb) in
     (id back =? i) && (index back =? j))) (seqZ 0 MAX_DEGREE)) (seqZ 0 (2 * n s)).

(** ** euler_split.c *)

(** [while (has_neighbor(edges_in, node))]: peels off two edges per round. *)
Fixpoint split_walk (fuel : nat) (s : graph_structure) (node cur : Z) (e : graph_edges * graph_edges * graph_edges) :
    option (graph_edges * graph_edges * graph_edges) :=
  let '(e_in, e1, e2) := e in
  if has_neighbor e_in node then
    match fuel with
    | O => None
    | S fuel' =>
        '(v, e_in, e1) ← split_edge s e_in e1 cur;
        guard (is_consistent s e_in && is_consistent s e1)
          ('(u, e_in, e2) ← split_edge s e_in e2 v;
           guard (is_consistent s e_in && is_consistent s e2)
             (split_walk fuel' s node u (e_in, e1, e2)))
    end
  else Some e.

Fixpoint split_nodes (fuel : nat) (l : list Z) (s : graph_structure) (e : graph_edges * graph_edges * graph_edges) :
    option (graph_edges * graph_edges * graph_edges) :=
  match l with
  | [] => Some e
  | node :: l' => e ← split_walk fuel s node node e; split_nodes fuel l' s e
  end.

(** A graph has at most [n * MAX_DEGREE] edges; each round takes two. *)
Definition split_fuel : nat := Z.to_nat (MAX_GRAPH_NODES * MAX_DEGREE).

Definition split (s : graph_structure) (e_in e1 e2 : graph_edges) : option (graph_edges * graph_edges * graph_edges) :=
  split_nodes split_fuel (seqZ 0 (n s)) s (e_in, e1, e2).

(** ** kapoor_rizzi.c *)
Definition MAX_MATCHINGS : Z := 48.
Definition MAX_STEPS : Z := 128.

Record kr_step := { src_index : Z; dst1_index : Z; dst2_index : Z }.
Record kr := { degree : Z; steps : list kr_step }.
Record matching_set := { num_matchings : Z; matchings : list graph_edges }.

Definition kr_init (degree0 : Z) : option kr := guard (degree0 >=? 1) (Some {| degree := degree0; steps := [] |}).

Definition set_kr_step (k : kr) (src_index0 dst1_index0 dst2_index0 : Z) : option kr :=
  guard (Z.of_nat (length (steps k)) <? MAX_STEPS)
    (Some {| degree := degree k; steps := steps k ++
      [{| src_index := src_index0; dst1_index := dst1_index0; dst2_index := dst2_index0 |}] |}).

Definition get_num_matchings (m : matching_set) : Z := num_matchings m.
Definition get_matching (m : matching_set) (i : Z) : option graph_edges :=
  guard (i <? num_matchings m) (Some (arr_get (matchings m) i)).

(** The steps name three different graphs. *)
Definition kr_split (s : graph_structure) (st : kr_step) (m : list graph_edges) : option (list graph_edges) :=
  '(e_in, e1, e2) ← split s (arr_get m (src_index st)) (arr_get m (dst1_index st)) (arr_get m (dst2_index st));
  Some (arr_set (arr_set (arr_set m (src_index st) e_in) (dst1_index st) e1) (dst2_index st) e2).

Fixpoint kr_steps (s : graph_structure) (l : list kr_step) (m : list graph_edges) : option (list graph_edges) :=
  match l with
  | [] => Some m
  | st :: l' => m ← kr_split s st m; kr_steps s l' m
  end.

Definition solve (k : kr) (s : graph_structure) (edges_in edges_arbitrary : graph_edges) (m : matching_set) :
    option matching_set :=
  let num := u8 (degree k + 1) in
  ms ← mapM (λ e, graph_edges_init e (n s)) (matchings m);
  e ← add_edges (arr_get ms num) edges_in (n s);
  let ms := arr_set ms num e in
  e ← add_edges (arr_get ms 0) edges_arbitrary (n s);
  let ms := arr_set ms 0 e in
  ms ← kr_steps s (steps k) ms;
  Some {| num_matchings := num; matchings := ms |}.
End Graph.
