(* ===== verification/GraphFacts.v ===== *)
(** * Euler splits halve the degrees

    In a graph whose degrees are all even, [split] terminates and distributes the
    edges over two graphs so that every vertex has half its degree in each. *)

From S2P Require Import Prelude Platform Lists Graph.
Import Graph.

(** ** The representation *)

(** Edge [j] of vertex [x] is present. *)
Definition edge_on (e : graph_edges) (x j : Z) : bool := Z.testbit (arr_get e x) j.

Definition deg (e : graph_edges) (x : Z) : Z := popcount 64 (arr_get e x).

Record words_ok (e : graph_edges) : Prop := {
  wk_len : length e = 128%nat;
  wk_range : Forall (λ w, 0 ≤ w < 2 ^ 64) e;
}.

(** The two ends of every present edge name each other, on opposite sides. *)
Record graph_ok (s : graph_structure) (e : graph_edges) : Prop := {
  go_words : words_ok e;
  go_edge : ∀ x j, 0 ≤ x < 2 * n s → 0 ≤ j < 64 → edge_on e x j = true →
    let nb := neighbor_at s x j in
    0 ≤ id nb < 2 * n s ∧ 0 ≤ index nb < 64 ∧ neighbor_at s (id nb) (index nb) = {| id := x; index := j |} ∧
    edge_on e (id nb) (index nb) = true ∧ (x < n s ↔ n s ≤ id nb);
}.

Lemma word_at e x : words_ok e → 0 ≤ x < 128 → 0 ≤ arr_get e x < 2 ^ 64.
Proof.
  intros [Hl Hr] Hx. apply (arr_get_Forall (λ w, 0 ≤ w < 2 ^ 64)); [done|]. rewrite Hl. lia.
Qed.

Lemma words_set e x w : words_ok e → 0 ≤ w < 2 ^ 64 → words_ok (arr_set e x w).
Proof. intros [Hl Hr] Hw. constructor; [by rewrite length_arr_set|by apply arr_set_Forall]. Qed.

Lemma get_set e x w y : words_ok e → 0 ≤ x < 128 → 0 ≤ y →
  arr_get (arr_set e x w) y = if decide (x = y) then w else arr_get e y.
Proof. intros He Hx Hy. apply arr_get_set; rewrite ?(wk_len _ He); lia. Qed.

Lemma pow_lt_64 j : 0 ≤ j < 64 → 0 ≤ 2 ^ j < 2 ^ 64.
Proof. intros. split; [apply Z.pow_nonneg; lia|apply Z.pow_lt_mono_r; lia]. Qed.

(** Clearing and setting an edge at one end. *)
Lemma clear_bit_of_spec w j i : 0 ≤ w < 2 ^ 64 → 0 ≤ j < 64 → 0 ≤ i →
  0 ≤ clear_bit_of w j < 2 ^ 64 ∧ Z.testbit (clear_bit_of w j) i = Z.testbit w i && bool_decide (i ≠ j).
Proof.
  intros Hw Hj Hi. unfold clear_bit_of. rewrite shl64_1 by done. pose proof (pow_lt_64 j Hj) as Hp. split.
  - apply land_range; [done|by apply not64_range|lia].
  - rewrite Z.land_spec. destruct (decide (i < 64)); [|by rewrite (testbit_high w 64) by lia].
    by rewrite testbit_not64, testbit_pow2, bool_decide_not by lia.
Qed.

Lemma set_bit_of_spec w j i : 0 ≤ w < 2 ^ 64 → 0 ≤ j < 64 → 0 ≤ i →
  0 ≤ set_bit_of w j < 2 ^ 64 ∧ Z.testbit (set_bit_of w j) i = Z.testbit w i || bool_decide (i = j).
Proof.
  intros Hw Hj Hi. unfold set_bit_of. rewrite shl64_1 by done. pose proof (pow_lt_64 j Hj) as Hp. split.
  - apply lor_range; [done|done|lia].
  - by rewrite Z.lor_spec, testbit_pow2 by lia.
Qed.

(** ** Moving one edge *)

(** Edge [(u, j)]-[(v, k)], taken away from or added to a graph. *)
Definition without (e : graph_edges) (u j v k : Z) : graph_edges :=
  arr_set (arr_set e u (clear_bit_of (arr_get e u) j)) v (clear_bit_of (arr_get e v) k).
Definition with_edge (e : graph_edges) (u j v k : Z) : graph_edges :=
  arr_set (arr_set e u (set_bit_of (arr_get e u) j)) v (set_bit_of (arr_get e v) k).

Definition at_end (u j v k x i : Z) : bool := bool_decide (x = u ∧ i = j ∨ x = v ∧ i = k).

Section move.
Context (e : graph_edges) (u j v k : Z).
Context (He : words_ok e) (Hu : 0 ≤ u < 128) (Hv : 0 ≤ v < 128) (Hj : 0 ≤ j < 64) (Hk : 0 ≤ k < 64) (Huv : u ≠ v).

Lemma without_words : words_ok (without e u j v k).
Proof using All.
  unfold without. apply words_set; [apply words_set|]; try done.
  - apply (clear_bit_of_spec _ _ 0); [by apply word_at|done|lia].
  - apply (clear_bit_of_spec _ _ 0); [by apply word_at|done|lia].
Qed.

Lemma without_edge x i : 0 ≤ x → 0 ≤ i →
  edge_on (without e u j v k) x i = edge_on e x i && negb (at_end u j v k x i).
Proof using All.
  intros Hx Hi. unfold edge_on, without, at_end.
  assert (words_ok (arr_set e u (clear_bit_of (arr_get e u) j))) as He1.
  { apply words_set; [done|]. apply (clear_bit_of_spec _ _ 0); [by apply word_at|done|lia]. }
  rewrite !get_set by (done || lia). destruct (decide (v = x)) as [<-|Hvx].
  - destruct (clear_bit_of_spec (arr_get e v) k i) as [_ ->]; [by apply word_at|done|done|]. f_equal.
    rewrite <- bool_decide_not. apply bool_decide_ext. naive_solver lia.
  - destruct (decide (u = x)) as [<-|Hux].
    + destruct (clear_bit_of_spec (arr_get e u) j i) as [_ ->]; [by apply word_at|done|done|]. f_equal.
      rewrite <- bool_decide_not. apply bool_decide_ext. naive_solver lia.
    + rewrite bool_decide_eq_false_2 by naive_solver. by rewrite andb_true_r.
Qed.

Lemma with_words : words_ok (with_edge e u j v k).
Proof using All.
  unfold with_edge. apply words_set; [apply words_set|]; try done.
  - apply (set_bit_of_spec _ _ 0); [by apply word_at|done|lia].
  - apply (set_bit_of_spec _ _ 0); [by apply word_at|done|lia].
Qed.

Lemma with_edge_on x i : 0 ≤ x → 0 ≤ i →
  edge_on (with_edge e u j v k) x i = edge_on e x i || at_end u j v k x i.
Proof using All.
  intros Hx Hi. unfold edge_on, with_edge, at_end.
  assert (words_ok (arr_set e u (set_bit_of (arr_get e u) j))) as He1.
  { apply words_set; [done|]. apply (set_bit_of_spec _ _ 0); [by apply word_at|done|lia]. }
  rewrite !get_set by (done || lia). destruct (decide (v = x)) as [<-|Hvx].
  - destruct (set_bit_of_spec (arr_get e v) k i) as [_ ->]; [by apply word_at|done|done|]. f_equal.
    apply bool_decide_ext. naive_solver lia.
  - destruct (decide (u = x)) as [<-|Hux].
    + destruct (set_bit_of_spec (arr_get e u) j i) as [_ ->]; [by apply word_at|done|done|]. f_equal.
      apply bool_decide_ext. naive_solver lia.
    + rewrite bool_decide_eq_false_2 by naive_solver. by rewrite orb_false_r.
Qed.
End move.

(** Degrees count the present edges. *)
Lemma deg_eq e x : deg e x = sum_of (λ i, b2z (edge_on e x i)) (seqZ 0 64).
Proof. done. Qed.

(** The three graphs of a split share out the edges of [d]. *)
Definition shared (s : graph_structure) (d : graph_edges) (e : graph_edges * graph_edges * graph_edges) : Prop :=
  ∀ x i, 0 ≤ x < 2 * n s → 0 ≤ i < 64 →
    b2z (edge_on e.1.1 x i) + b2z (edge_on e.1.2 x i) + b2z (edge_on e.2 x i) = b2z (edge_on d x i).

Lemma sum_of_add {X} (g1 g2 : X → Z) l : sum_of (λ x, g1 x + g2 x) l = sum_of g1 l + sum_of g2 l.
Proof. induction l as [|x l IH]; simpl; lia. Qed.

Lemma shared_deg s d e x : shared s d e → 0 ≤ x < 2 * n s →
  deg e.1.1 x + deg e.1.2 x + deg e.2 x = deg d x.
Proof.
  intros Hs Hx. rewrite !deg_eq, <- !sum_of_add. apply sum_of_ext_in. intros i Hi%elem_of_seqZ.
  apply Hs; lia.
Qed.

Lemma deg_change e e' x j :
  0 ≤ j < 64 → (∀ i, 0 ≤ i → i ≠ j → edge_on e' x i = edge_on e x i) →
  deg e' x = deg e x - b2z (edge_on e x j) + b2z (edge_on e' x j).
Proof.
  intros Hj He. apply popcount_change; [done|]. intros i Hi. destruct (decide (0 ≤ i)); [by apply He|].
  by rewrite !Z.testbit_neg_r by lia.
Qed.

Lemma deg_same e e' x : (∀ i, 0 ≤ i → edge_on e' x i = edge_on e x i) → deg e' x = deg e x.
Proof.
  intros He. rewrite !deg_eq. apply sum_of_ext_in. intros i Hi%elem_of_seqZ. rewrite He; [done|lia].
Qed.

(** How many of the two ends [x] is. *)
Definition ends (u v x : Z) : Z := b2z (bool_decide (x = u)) + b2z (bool_decide (x = v)).

Section take.
Context (s : graph_structure) (u j v k : Z).
Context (Hn : 0 ≤ n s ≤ 64) (Hu : 0 ≤ u < 2 * n s) (Hv : 0 ≤ v < 2 * n s) (Hj : 0 ≤ j < 64) (Hk : 0 ≤ k < 64).
Context (Huv : u < n s ↔ n s ≤ v).
Context (Eu : neighbor_at s u j = {| id := v; index := k |}) (Ev : neighbor_at s v k = {| id := u; index := j |}).

Lemma ends_differ : u ≠ v.
Proof using Huv. clear -Huv. lia. Qed.

Lemma at_end_mate x i : 0 ≤ x < 2 * n s → 0 ≤ i < 64 →
  neighbor_at s (id (neighbor_at s x i)) (index (neighbor_at s x i)) = {| id := x; index := i |} →
  at_end u j v k (id (neighbor_at s x i)) (index (neighbor_at s x i)) = at_end u j v k x i.
Proof using Eu Ev.
  clear -Eu Ev. intros Hx Hi Hback. unfold at_end. apply bool_decide_ext. split.
  - intros [[E1 E2]|[E1 E2]]; rewrite E1, E2 in Hback; [rewrite Eu in Hback|rewrite Ev in Hback]; injection Hback; auto.
  - intros [[-> ->]|[-> ->]]; [rewrite Eu|rewrite Ev]; simpl; auto.
Qed.

Lemma without_ok e : graph_ok s e → edge_on e u j = true → graph_ok s (without e u j v k).
Proof using All.
  pose proof ends_differ as Hne. intros [Hw He] Hon. constructor; [apply without_words; (done || lia)|].
  intros x i Hx Hi Hb. rewrite without_edge in Hb by (done || lia). apply andb_true_iff in Hb as [Hb Hend].
  cbv zeta. specialize (He x i Hx Hi Hb). cbv zeta in He. destruct He as (H1 & H2 & H3 & H4 & H5).
  split_and!; try done; try lia. rewrite without_edge by (done || lia). rewrite H4, at_end_mate by done. done.
Qed.

Lemma with_ok e : graph_ok s e → graph_ok s (with_edge e u j v k).
Proof using All.
  pose proof ends_differ as Hne. intros [Hw He]. constructor; [apply with_words; (done || lia)|].
  intros x i Hx Hi Hb. rewrite with_edge_on in Hb by (done || lia). cbv zeta.
  assert (at_end u j v k x i = true ∨ edge_on e x i = true) as [Hend|Hon] by (apply orb_true_iff in Hb; tauto).
  - unfold at_end in Hend. apply bool_decide_eq_true_1 in Hend as [[-> ->]|[-> ->]]; [rewrite Eu|rewrite Ev]; simpl;
      (split_and!; try done; try lia; [rewrite with_edge_on by (done || lia); unfold at_end; rewrite bool_decide_eq_true_2 by auto; by rewrite orb_true_r]).
  - specialize (He x i Hx Hi Hon). cbv zeta in He. destruct He as (H1 & H2 & H3 & H4 & H5).
    split_and!; try done; try lia. rewrite with_edge_on by (done || lia). by rewrite H4.
Qed.

Lemma deg_without e x : words_ok e → edge_on e u j = true → edge_on e v k = true → 0 ≤ x →
  deg (without e u j v k) x = deg e x - ends u v x.
Proof using All.
  pose proof ends_differ as Hne. intros Hw H1 H2 Hx. unfold ends.
  assert (Hon : ∀ i, 0 ≤ i → edge_on (without e u j v k) x i = edge_on e x i && negb (at_end u j v k x i)).
  { intros i Hi. apply without_edge; (done || lia). }
  unfold at_end in Hon. destruct (decide (x = u)) as [->|]; [|destruct (decide (x = v)) as [->|]].
  - rewrite (deg_change e _ u j Hj).
    + rewrite Hon, H1, (bool_decide_eq_false_2 (u = v)), !bool_decide_eq_true_2 by (auto || lia). simpl. lia.
    + intros i Hi Hij. rewrite Hon by done. rewrite bool_decide_eq_false_2, andb_true_r by naive_solver. done.
  - rewrite (deg_change e _ v k Hk).
    + rewrite Hon, H2, (bool_decide_eq_false_2 (v = u)), !bool_decide_eq_true_2 by (auto || lia). simpl. lia.
    + intros i Hi Hij. rewrite Hon by done. rewrite bool_decide_eq_false_2, andb_true_r by naive_solver. done.
  - rewrite (deg_same e).
    + rewrite !bool_decide_eq_false_2 by done. simpl. lia.
    + intros i Hi. rewrite Hon by done. rewrite bool_decide_eq_false_2, andb_true_r by naive_solver. done.
Qed.

Lemma deg_with e x : words_ok e → edge_on e u j = false → edge_on e v k = false → 0 ≤ x →
  deg (with_edge e u j v k) x = deg e x + ends u v x.
Proof using All.
  pose proof ends_differ as Hne. intros Hw H1 H2 Hx. unfold ends.
  assert (Hon : ∀ i, 0 ≤ i → edge_on (with_edge e u j v k) x i = edge_on e x i || at_end u j v k x i).
  { intros i Hi. apply with_edge_on; (done || lia). }
  unfold at_end in Hon. destruct (decide (x = u)) as [->|]; [|destruct (decide (x = v)) as [->|]].
  - rewrite (deg_change e _ u j Hj).
    + rewrite Hon, H1, (bool_decide_eq_false_2 (u = v)), !bool_decide_eq_true_2 by (auto || lia). simpl. lia.
    + intros i Hi Hij. rewrite Hon by done. rewrite bool_decide_eq_false_2, orb_false_r by naive_solver. done.
  - rewrite (deg_change e _ v k Hk).
    + rewrite Hon, H2, (bool_decide_eq_false_2 (v = u)), !bool_decide_eq_true_2 by (auto || lia). simpl. lia.
    + intros i Hi Hij. rewrite Hon by done. rewrite bool_decide_eq_false_2, orb_false_r by naive_solver. done.
  - rewrite (deg_same e).
    + rewrite !bool_decide_eq_false_2 by done. simpl. lia.
    + intros i Hi. rewrite Hon by done. rewrite bool_decide_eq_false_2, orb_false_r by naive_solver. done.
Qed.
End take.

Lemma take_edge_spec s e u :
  graph_ok s e → 0 ≤ n s ≤ 64 → 0 ≤ u < 2 * n s → arr_get e u ≠ 0 →
  ∃ v j k, take_edge s e u = Some (v, j, k, without e u j v k) ∧ 0 ≤ v < 2 * n s ∧ 0 ≤ j < 64 ∧ 0 ≤ k < 64 ∧
    (u < n s ↔ n s ≤ v) ∧ neighbor_at s u j = {| id := v; index := k |} ∧
    neighbor_at s v k = {| id := u; index := j |} ∧ edge_on e u j = true ∧ edge_on e v k = true.
Proof.
  intros [Hw He] Hn Hu Hne. destruct (ffs_spec _ 64 (word_at e u Hw ltac:(lia)) Hne) as (Hj & Hb & _).
  unfold take_edge, guard. rewrite (proj2 (Z.ltb_lt _ _)), (proj2 (Z.eqb_neq _ _) Hne) by lia. cbn [andb negb].
  set (j := __ffs (arr_get e u)) in *. specialize (He u j Hu Hj Hb). cbv zeta in He.
  destruct (neighbor_at s u j) as [v k] eqn:E. simpl in *. destruct He as (Hv & Hk & Hback & Hon & Hside).
  exists v, j, k. split_and!; done || lia.
Qed.

(** The assertions of the code hold. *)
Lemma graph_ok_consistent s e : graph_ok s e → is_consistent s e = true.
Proof.
  intros [_ He]. unfold is_consistent. apply forallb_forall. intros x Hx%list_elem_of_In%elem_of_seqZ.
  apply forallb_forall. intros i Hi%list_elem_of_In%elem_of_seqZ. change MAX_DEGREE with 64 in Hi.
  fold (edge_on e x i). destruct (edge_on e x i) eqn:E; [|done]. specialize (He x i ltac:(lia) ltac:(lia) E). cbv zeta in *.
  destruct He as (_ & _ & -> & _ & _). simpl. by rewrite !Z.eqb_refl.
Qed.

(** ** One round of the walk *)

(** Half an alternating walk: [u] sends an edge to the graph [dst]. *)
Lemma split_edge_spec s src dst u :
  graph_ok s src → graph_ok s dst → 0 ≤ n s ≤ 64 → 0 ≤ u < 2 * n s → arr_get src u ≠ 0 →
  (∀ x i, 0 ≤ x < 2 * n s → 0 ≤ i < 64 → edge_on src x i = true → edge_on dst x i = false) →
  ∃ v src' dst', split_edge s src dst u = Some (v, src', dst') ∧ graph_ok s src' ∧ graph_ok s dst' ∧
    0 ≤ v < 2 * n s ∧ (u < n s ↔ n s ≤ v) ∧
    (∀ x i, 0 ≤ x < 2 * n s → 0 ≤ i < 64 →
      b2z (edge_on src' x i) + b2z (edge_on dst' x i) = b2z (edge_on src x i) + b2z (edge_on dst x i) ∧
      (edge_on src' x i = true → edge_on src x i = true)) ∧
    (∀ x, 0 ≤ x → deg src' x = deg src x - ends u v x ∧ deg dst' x = deg dst x + ends u v x).
Proof.
  intros Hs Hd Hn Hu Hne Hdis. destruct (take_edge_spec s src u Hs Hn Hu Hne) as (v & j & k & E & Hv & Hj & Hk & Huv & Eu & Ev & On1 & On2).
  pose proof (Hdis u j Hu Hj On1) as Off1. pose proof (Hdis v k Hv Hk On2) as Off2.
  unfold split_edge. rewrite E. simpl. fold (with_edge dst u j v k).
  exists v, (without src u j v k), (with_edge dst u j v k).
  pose proof (go_words _ _ Hs) as Hsw. pose proof (go_words _ _ Hd) as Hdw.
  split_and!; try done; try lia.
  - by apply without_ok.
  - by apply with_ok.
  - intros x i Hx Hi. rewrite without_edge, with_edge_on by (done || lia).
    unfold at_end. case_bool_decide as Hend; cbn [negb]; [|rewrite andb_true_r, orb_false_r; done].
    destruct Hend as [[-> ->]|[-> ->]]; rewrite ?On1, ?On2, ?Off1, ?Off2; done.
  - intros x Hx. split; [by apply (deg_without s)|by apply (deg_with s)].
Qed.

(** The edges that are left, counted on the left side. *)
Definition left_edges (s : graph_structure) (e : graph_edges) : Z := sum_of (deg e) (seqZ 0 (n s)).

Lemma sum_indicator u m : 0 ≤ m → sum_of (λ x, b2z (bool_decide (x = u))) (seqZ 0 m) = b2z (bool_decide (0 ≤ u < m)).
Proof.
  intros Hm. case_bool_decide as Hu.
  - rewrite (sum_of_change (λ _, 0) _ u).
    + rewrite sum_of_zero. by rewrite bool_decide_eq_true_2.
    + apply NoDup_seqZ.
    + apply elem_of_seqZ. lia.
    + intros y Hy. by rewrite bool_decide_eq_false_2.
  - rewrite (sum_of_ext_in _ (λ _, 0)).
    + apply sum_of_zero.
    + intros x Hx%elem_of_seqZ. rewrite bool_decide_eq_false_2; [done|lia].
Qed.

Lemma left_edges_step s e e' u v : 0 ≤ n s → 0 ≤ u < 2 * n s → 0 ≤ v < 2 * n s → (u < n s ↔ n s ≤ v) →
  (∀ x, 0 ≤ x → deg e' x = deg e x - ends u v x) → left_edges s e' = left_edges s e - 1.
Proof.
  intros Hn Hu Hv Huv Hd. unfold left_edges.
  rewrite (sum_of_ext_in (deg e) (λ x, deg e' x + (b2z (bool_decide (x = u)) + b2z (bool_decide (x = v))))).
  - rewrite !sum_of_add, !sum_indicator by lia. case_bool_decide; case_bool_decide; simpl; lia.
  - intros x Hx%elem_of_seqZ. rewrite Hd by lia. unfold ends. lia.
Qed.

(** The walk from [node] is at [cur]; [d] are all the edges. *)
Record walk (s : graph_structure) (d : graph_edges) (node cur : Z) (e : graph_edges * graph_edges * graph_edges) : Prop := {
  wa_in : graph_ok s e.1.1;
  wa_1 : graph_ok s e.1.2;
  wa_2 : graph_ok s e.2;
  wa_shared : shared s d e;
  wa_diff : ∀ x, 0 ≤ x < 2 * n s →
    deg e.1.2 x - deg e.2 x = b2z (bool_decide (x = node)) - b2z (bool_decide (x = cur));
  wa_node : 0 ≤ node < n s;
  wa_cur : 0 ≤ cur < n s;
}.

Section walk.
Context (s : graph_structure) (d : graph_edges).
Context (Hn : 0 ≤ n s ≤ 64) (Heven : ∀ x, 0 ≤ x < 2 * n s → Z.Even (deg d x)).

Lemma deg_zero e x : words_ok e → 0 ≤ x < 128 → deg e x = 0 → arr_get e x = 0.
Proof using Type.
  clear. intros He Hx Hd. destruct (decide (arr_get e x = 0)) as [|Hne]; [done|]. exfalso.
  destruct (ffs_spec _ 64 (word_at e x He Hx) Hne) as (Hj & Hb & _).
  pose proof (popcount_clear 64 _ _ Hj Hb) as Hc. pose proof (popcount_nonneg 64 (Z.lxor (arr_get e x) (2 ^ __ffs (arr_get e x)))).
  unfold deg in Hd. lia.
Qed.

(** An odd degree is not zero. *)
Lemma walk_go node cur e : walk s d node cur e → has_neighbor e.1.1 node = true → arr_get e.1.1 cur ≠ 0.
Proof using Hn Heven.
  intros [H1 H2 H3 Hs Hd Hnode Hcur] Hnb. destruct (decide (cur = node)) as [->|Hne].
  { unfold has_neighbor in Hnb. apply negb_true_iff, Z.eqb_neq in Hnb. done. }
  intros E. pose proof (shared_deg s d e cur Hs ltac:(lia)) as Hsum. specialize (Hd cur ltac:(lia)).
  rewrite bool_decide_eq_false_2, bool_decide_eq_true_2 in Hd by done.
  destruct (Heven cur ltac:(lia)) as [q Hq]. unfold deg in Hsum at 1. rewrite E in Hsum. change (popcount 64 0) with 0 in Hsum.
  simpl in Hd. lia.
Qed.

Lemma shared_off e : shared s d e → ∀ x i, 0 ≤ x < 2 * n s → 0 ≤ i < 64 → edge_on e.1.1 x i = true →
  edge_on e.1.2 x i = false ∧ edge_on e.2 x i = false.
Proof using Type.
  clear. intros Hs x i Hx Hi Hon. specialize (Hs x i Hx Hi). rewrite Hon in Hs.
  destruct (edge_on e.1.2 x i), (edge_on e.2 x i), (edge_on d x i); simpl in Hs; (done || lia).
Qed.

Lemma walk_round node cur e_in e1 e2 :
  walk s d node cur (e_in, e1, e2) → has_neighbor e_in node = true →
  ∃ v e_in1 e1' u e_in2 e2', split_edge s e_in e1 cur = Some (v, e_in1, e1') ∧
    is_consistent s e_in1 && is_consistent s e1' = true ∧
    split_edge s e_in1 e2 v = Some (u, e_in2, e2') ∧ is_consistent s e_in2 && is_consistent s e2' = true ∧
    walk s d node u (e_in2, e1', e2') ∧ left_edges s e_in2 = left_edges s e_in - 2 ∧
    (∀ x, 0 ≤ x < 2 * n s → deg e_in2 x ≤ deg e_in x).
Proof using All.
  intros W Hnb. pose proof (walk_go _ _ _ W Hnb) as Hcur0. destruct W as [G1 G2 G3 Hsh Hd Hnode Hcur]. simpl in *.
  pose proof (shared_off _ Hsh) as Hoff. simpl in Hoff.
  destruct (split_edge_spec s e_in e1 cur G1 G2 Hn ltac:(lia) Hcur0) as (v & i1 & f1 & E1 & Gi1 & Gf1 & Hv & Hside & Hsum1 & Hdeg1).
  { intros. by apply Hoff. }
  assert (arr_get i1 v ≠ 0) as Hv0.
  { intros Ez. destruct (Hdeg1 v ltac:(lia)) as [Hdv Hfv].
    pose proof (shared_deg s d _ v Hsh ltac:(lia)) as Htot. simpl in Htot. specialize (Hd v ltac:(lia)).
    rewrite !bool_decide_eq_false_2 in Hd by lia. destruct (Heven v ltac:(lia)) as [q Hq].
    unfold ends in Hdv. rewrite bool_decide_eq_false_2, bool_decide_eq_true_2 in Hdv by lia.
    unfold deg in Hdv at 1. rewrite Ez in Hdv. change (popcount 64 0) with 0 in Hdv. simpl in Hd, Hdv. lia. }
  destruct (split_edge_spec s i1 e2 v Gi1 G3 Hn ltac:(lia) Hv0) as (u & i2 & f2 & E2 & Gi2 & Gf2 & Hu & Hside2 & Hsum2 & Hdeg2).
  { intros x i Hx Hi Hon. apply Hoff; [done..|]. by apply Hsum1. }
  exists v, i1, f1, u, i2, f2. rewrite !graph_ok_consistent by done. split_and!; try done.
  - constructor; simpl; try done; try lia.
    + intros x i Hx Hi. simpl. specialize (Hsh x i Hx Hi). simpl in Hsh. destruct (Hsum1 x i Hx Hi), (Hsum2 x i Hx Hi). lia.
    + intros x Hx. specialize (Hd x Hx). destruct (Hdeg1 x ltac:(lia)) as [_ ->], (Hdeg2 x ltac:(lia)) as [_ ->]. unfold ends. lia.
  - rewrite (left_edges_step s i1 i2 v u) by (lia || (intros; apply Hdeg2; lia)).
    rewrite (left_edges_step s e_in i1 cur v) by (lia || (intros; apply Hdeg1; lia)). lia.
  - intros x Hx. destruct (Hdeg1 x ltac:(lia)) as [Ha _], (Hdeg2 x ltac:(lia)) as [Hb _]. rewrite Hb, Ha. unfold ends.
    repeat case_bool_decide; simpl; lia.
Qed.

(** ** The whole walk *)
Lemma left_edges_nonneg e : 0 ≤ left_edges s e.
Proof using Type. apply sum_of_nonneg. intros x. apply popcount_nonneg. Qed.

Lemma left_edges_bound e : left_edges s e ≤ 64 * 64.
Proof using Hn.
  clear Heven. unfold left_edges. etrans; [apply (sum_of_le _ 64); intros x; by apply popcount_le|]. rewrite length_seqZ. lia.
Qed.

(** The walk ends where it began. *)
Lemma walk_closed node cur e : walk s d node cur e → has_neighbor e.1.1 node = false →
  walk s d node node e ∧ arr_get e.1.1 node = 0.
Proof using Hn Heven.
  intros W Hnb. unfold has_neighbor in Hnb. apply negb_false_iff, Z.eqb_eq in Hnb. split; [|done].
  replace cur with node in W; [done|]. destruct W as [G1 G2 G3 Hsh Hd Hnode Hcur].
  destruct (decide (node = cur)) as [|Hne]; [done|]. exfalso. pose proof (shared_deg s d _ node Hsh ltac:(lia)) as Htot.
  specialize (Hd node ltac:(lia)). rewrite bool_decide_eq_true_2, bool_decide_eq_false_2 in Hd by done.
  destruct (Heven node ltac:(lia)) as [q Hq]. unfold deg in Htot at 1. rewrite Hnb in Htot.
  change (popcount 64 0) with 0 in Htot. simpl in Hd. lia.
Qed.

Lemma split_walk_spec node : ∀ fuel cur e,
  walk s d node cur e → left_edges s e.1.1 ≤ Z.of_nat fuel →
  ∃ e', split_walk fuel s node cur e = Some e' ∧ walk s d node node e' ∧ arr_get e'.1.1 node = 0 ∧
    (∀ x, 0 ≤ x < 2 * n s → deg e'.1.1 x ≤ deg e.1.1 x).
Proof using All.
  induction fuel as [|fuel IH]; intros cur [[e_in e1] e2] W Hfuel; cbn [split_walk fst snd] in *;
    destruct (has_neighbor e_in node) eqn:Hnb.
  - exfalso. destruct (walk_round _ _ _ _ _ W Hnb) as (? & ? & ? & ? & e' & ? & _ & _ & _ & _ & _ & Hl & _).
    pose proof (left_edges_nonneg e'). lia.
  - exists (e_in, e1, e2). apply walk_closed in W as [W Hz]; done.
  - destruct (walk_round _ _ _ _ _ W Hnb) as (v & i1 & f1 & u & i2 & f2 & E1 & C1 & E2 & C2 & W' & Hl & Hle).
    rewrite E1. simpl. unfold guard. rewrite C1, E2. simpl. rewrite C2.
    destruct (IH u (i2, f1, f2) W') as (e' & -> & W2 & Hz & Hle'); [simpl; lia|]. exists e'.
    split_and!; [done..|]. intros x Hx. specialize (Hle x Hx). specialize (Hle' x Hx). simpl in *. lia.
  - exists (e_in, e1, e2). apply walk_closed in W as [W Hz]; done.
Qed.

(** ** All the nodes *)

(** Between two walks all vertices are balanced. *)
Definition balanced_at (e : graph_edges * graph_edges * graph_edges) : Prop :=
  graph_ok s e.1.1 ∧ graph_ok s e.1.2 ∧ graph_ok s e.2 ∧ shared s d e ∧
  ∀ x, 0 ≤ x < 2 * n s → deg e.1.2 x = deg e.2 x.

Lemma split_nodes_spec fuel : 64 * 64 ≤ Z.of_nat fuel → ∀ l e,
  Forall (λ x, 0 ≤ x < n s) l → balanced_at e →
  ∃ e', split_nodes fuel l s e = Some e' ∧ balanced_at e' ∧
    (∀ x, 0 ≤ x < 2 * n s → arr_get e.1.1 x = 0 ∨ x ∈ l → arr_get e'.1.1 x = 0).
Proof using All.
  intros Hfuel. induction l as [|node l IH]; intros e Hl Hb; cbn [split_nodes].
  { exists e. split_and!; try done. intros x _ [?|?%not_elem_of_nil]; done. }
  apply Forall_cons in Hl as [Hnode Hl]. destruct Hb as (G1 & G2 & G3 & Hsh & Hd).
  assert (walk s d node node e) as W.
  { constructor; try done. intros x Hx. specialize (Hd x Hx). lia. }
  destruct (split_walk_spec node fuel node e W) as (e1 & E1 & W1 & Hz1 & Hle1); [pose proof (left_edges_bound e.1.1); lia|].
  rewrite E1. simpl. destruct (IH e1 Hl) as (e2 & E2 & B2 & Hz2).
  { destruct W1 as [? ? ? ? Hd1 _ _]. split_and!; try done. intros x Hx. specialize (Hd1 x Hx). lia. }
  exists e2. split_and!; [done..|]. intros x Hx Hor. apply Hz2; [done|].
  assert (words_ok e1.1.1) as Hw1 by apply W1. assert (words_ok e.1.1) as Hw by apply G1.
  destruct Hor as [Hx0|[->|Hin]%elem_of_cons]; [left|by left|by right].
  apply deg_zero; [done|lia|]. pose proof (popcount_nonneg 64 (arr_get e1.1.1 x)). specialize (Hle1 x Hx).
  unfold deg in *. rewrite Hx0 in Hle1. change (popcount 64 0) with 0 in Hle1. lia.
Qed.

(** A graph without edges on the left has none on the right. *)
Lemma left_empty e : graph_ok s e → (∀ x, 0 ≤ x < n s → arr_get e x = 0) → ∀ x, 0 ≤ x < 2 * n s → arr_get e x = 0.
Proof using Hn.
  clear Heven. intros [Hw He] Hl x Hx. destruct (decide (x < n s)) as [|Hge]; [by apply Hl; lia|].
  destruct (decide (arr_get e x = 0)) as [|Hne]; [done|]. exfalso.
  destruct (ffs_spec _ 64 (word_at e x Hw ltac:(lia)) Hne) as (Hj & Hb & _).
  destruct (He x _ Hx Hj Hb) as (H1 & H2 & _ & Hon & Hside). unfold edge_on in Hon. rewrite Hl, Z.bits_0 in Hon by lia. done.
Qed.
End walk.

(** [split] halves every degree. *)
Lemma split_spec s e e1 e2 :
  graph_ok s e → 0 ≤ n s ≤ 64 → (∀ x, 0 ≤ x < 2 * n s → Z.Even (deg e x)) →
  words_ok e1 → words_ok e2 → (∀ x, 0 ≤ x < 2 * n s → arr_get e1 x = 0 ∧ arr_get e2 x = 0) →
  ∃ e' f1 f2, split s e e1 e2 = Some (e', f1, f2) ∧ graph_ok s f1 ∧ graph_ok s f2 ∧
    (∀ x, 0 ≤ x < 2 * n s → arr_get e' x = 0 ∧ deg f1 x = deg e x / 2 ∧ deg f2 x = deg e x / 2) ∧
    (∀ x i, 0 ≤ x < 2 * n s → 0 ≤ i < 64 → b2z (edge_on f1 x i) + b2z (edge_on f2 x i) = b2z (edge_on e x i)).
Proof.
  intros He Hn Heven Hw1 Hw2 Hz. unfold split.
  assert (Hempty : ∀ f, words_ok f → (∀ x, 0 ≤ x < 2 * n s → arr_get f x = 0) → graph_ok s f).
  { intros f Hf Hf0. constructor; [done|]. intros x i Hx Hi. unfold edge_on at 1. rewrite Hf0 by done. by rewrite Z.bits_0. }
  destruct (split_nodes_spec s e Hn Heven split_fuel ltac:(vm_compute; done) (seqZ 0 (n s)) (e, e1, e2))
    as ([[e' f1] f2] & E & (G1 & G2 & G3 & Hsh & Hd) & Hzero); simpl in *.
  { apply Forall_forall. intros x Hx%elem_of_seqZ. lia. }
  { split_and!; try done; try (apply Hempty; naive_solver).
    - intros x i Hx Hi. simpl. unfold edge_on. destruct (Hz x Hx) as [-> ->]. rewrite Z.bits_0. simpl. lia.
    - intros x Hx. simpl. unfold deg. by destruct (Hz x Hx) as [-> ->]. }
  assert (Hall : ∀ x, 0 ≤ x < 2 * n s → arr_get e' x = 0).
  { apply left_empty; [done|done|]. intros x Hx. apply Hzero; [lia|]. right. apply elem_of_seqZ. lia. }
  exists e', f1, f2. split_and!; try done.
  - intros x Hx. pose proof (shared_deg s e _ x Hsh Hx) as Hsum. simpl in Hsum. specialize (Hd x Hx).
    unfold deg in Hsum at 1. rewrite Hall in Hsum by done. change (popcount 64 0) with 0 in Hsum.
    split_and!; [by apply Hall|zify_div; lia..].
  - intros x i Hx Hi. specialize (Hsh x i Hx Hi). simpl in Hsh. unfold edge_on in Hsh at 1.
    rewrite Hall, Z.bits_0 in Hsh by done. simpl in Hsh. lia.
Qed.

(** ** Deciding that a graph is well formed *)
Definition edge_okb (s : graph_structure) (e : graph_edges) (x j : Z) : bool :=
  let nb := neighbor_at s x j in
  let back := neighbor_at s (id nb) (index nb) in
  negb (edge_on e x j) ||
  bool_decide (0 ≤ id nb < 2 * n s ∧ 0 ≤ index nb < 64 ∧ id back = x ∧ index back = j ∧
    edge_on e (id nb) (index nb) = true ∧ bool_decide (x < n s) = bool_decide (n s ≤ id nb)).

Definition graph_okb (s : graph_structure) (e : graph_edges) : bool :=
  forallb (λ x, forallb (edge_okb s e x) (seqZ 0 64)) (seqZ 0 (2 * n s)).

Lemma forallb_seqZ (P : Z → bool) a m : forallb P (seqZ a m) = true → ∀ x, a ≤ x < a + m → P x = true.
Proof.
  rewrite forallb_forall. intros Hall x Hx. apply Hall. rewrite <- list_elem_of_In. by apply elem_of_seqZ.
Qed.

Lemma graph_okb_ok s e : words_ok e → graph_okb s e = true → graph_ok s e.
Proof.
  intros Hw Hb. constructor; [done|]. intros x j Hx Hj Hon nb.
  pose proof (forallb_seqZ _ _ _ (forallb_seqZ _ _ _ Hb x ltac:(lia)) j ltac:(lia)) as Hj'.
  unfold edge_okb in Hj'. rewrite Hon in Hj'. cbn [negb orb] in Hj'. apply bool_decide_eq_true_1 in Hj'.
  fold nb in Hj'. destruct Hj' as (H1 & H2 & H3 & H4 & H5 & H6). split_and!; try (done || lia).
  - destruct (neighbor_at s (id nb) (index nb)) as [a b]. simpl in H3, H4. by subst.
  - repeat case_bool_decide; naive_solver.
Qed.

(** Termination and balance of the Euler split: for a bipartite graph whose
    degrees are all even, [split] ends within [split_fuel] rounds without a failed
    assertion; every edge goes to exactly one of the two halves, and every vertex
    has half its degree in each. *)
Theorem euler_split_halves s e e1 e2 :
  graph_ok s e → 0 ≤ n s ≤ 64 → (∀ x, 0 ≤ x < 2 * n s → Z.Even (deg e x)) →
  words_ok e1 → words_ok e2 → (∀ x, 0 ≤ x < 2 * n s → arr_get e1 x = 0 ∧ arr_get e2 x = 0) →
  ∃ e' f1 f2, split s e e1 e2 = Some (e', f1, f2) ∧ graph_ok s f1 ∧ graph_ok s f2 ∧
    (∀ x, 0 ≤ x < 2 * n s → arr_get e' x = 0 ∧ deg f1 x = deg e x / 2 ∧ deg f2 x = deg e x / 2) ∧
    (∀ x i, 0 ≤ x < 2 * n s → 0 ≤ i < 64 → b2z (edge_on f1 x i) + b2z (edge_on f2 x i) = b2z (edge_on e x i)).
Proof. apply split_spec. Qed.

(** The graph with two edges between each of two left and two right vertices. *)
Definition no_edges : graph_edges := replicate 128 0.
Definition sample_graph : graph_structure * graph_edges := foldl (λ g uv,
  default g (add_edge g.1 g.2 uv.1 uv.2))
  ({| n := 2; vertices := replicate 128 (replicate 64 {| id := 0; index := 0 |}) |}, no_edges)
  [(0, 2); (0, 3); (1, 2); (1, 3); (0, 2); (0, 3); (1, 2); (1, 3)].

Lemma no_edges_ok : words_ok no_edges.
Proof. constructor; [reflexivity|]. apply Forall_replicate. lia. Qed.

Lemma sample_words_ok : words_ok sample_graph.2.
Proof.
  constructor; [vm_compute; reflexivity|].
  assert (forallb (λ w, bool_decide (0 ≤ w < 2 ^ 64)) sample_graph.2 = true) as Hb by (vm_compute; reflexivity).
  apply Forall_forall. intros w Hw%list_elem_of_In. rewrite forallb_forall in Hb. apply (bool_decide_eq_true_1 _), Hb, Hw.
Qed.

Lemma sample_graph_ok : graph_ok sample_graph.1 sample_graph.2.
Proof. apply graph_okb_ok; [apply sample_words_ok|vm_compute; reflexivity]. Qed.

Lemma euler_split_halves_witness :
  graph_ok sample_graph.1 sample_graph.2 ∧
  ∃ e' f1 f2, split sample_graph.1 sample_graph.2 no_edges no_edges = Some (e', f1, f2) ∧ deg f1 0 = 2 ∧ deg f2 0 = 2.
Proof.
  split; [apply sample_graph_ok|].
  destruct (euler_split_halves sample_graph.1 sample_graph.2 no_edges no_edges sample_graph_ok) as (e' & f1 & f2 & E & _ & _ & Hd & _).
  - change (n sample_graph.1) with 2. lia.
  - intros x Hx. apply Z.even_spec. change (n sample_graph.1) with 2 in Hx.
    exact (forallb_seqZ (λ x, Z.even (deg sample_graph.2 x)) 0 4 ltac:(vm_compute; reflexivity) x ltac:(lia)).
  - exact no_edges_ok.
  - exact no_edges_ok.
  - intros x Hx. change (n sample_graph.1) with 2 in Hx. unfold arr_get, no_edges.
    rewrite lookup_total_replicate_2 by lia. split; reflexivity.
  - exists e', f1, f2. split; [exact E|]. destruct (Hd 0) as (_ & E1 & E2); [change (n sample_graph.1) with 2; lia|].
    rewrite E1, E2. split; vm_compute; reflexivity.
Defined.
