(* ===== verification/DemandTheorems.v ===== *)
(** * Theorems about the communication core's demand accounting *)

From S2P Require Import Prelude Platform Window Lists Pacer Ring Admission AdmissionFacts AdmissionSpec.
From S2P Require Import AdmissionDemand AdmissionTheorems.

Section theorems.
Context {R : Type} `{Ring R bin}.
Implicit Types (d : demand R) (f : flow).

(** C37. New demand of 1 to 2^16 - 1 timeslots, for a flow whose waiting demand
    stays below 2^32, with room in the ring of new demands, is neither lost nor
    duplicated by [seq_add_backlog]: the demand that waits on the communication core
    grows by exactly the requested amount, for the requested flow only; no flow gets
    a second entry in the allocation cores; and the flow is active afterwards. (A
    waiting demand of 2^16 or more is truncated later, when it is sent, see
    [accumulated_backlog_truncated].) *)
Theorem demand_is_added d f n :
  demand_ok d → flow_ok f → 0 < n < 2 ^ 16 → 0 ≤ unsent f d → unsent f d + n < 2 ^ 32 → (0 < r_free (q_head d))%nat →
  wp (seq_add_backlog f.1 f.2 n) (λ _ d' _, demand_ok d' ∧ active f d' = true ∧
    ∀ f', flow_ok f' → outside f' d' = outside f' d ∧ pending f' d' = pending f' d + if decide (f' = f) then n else 0) d.
Proof.
  intros Hd Hf Hn Hu Hb Hr. eapply wp_mono; [by apply seq_add_backlog_spec|].
  intros _ d' l (_ & Hd' & Hp & Ho & Ha & _). split_and!; [done..|]. intros f' Hf'. split; [by apply Ho|by apply Hp].
Qed.

(** C35. Spent entries that come back from the allocation cores (up to 256 bins in
    one call), of distinct active flows each with less than 2^16 timeslots waiting,
    and with room in the ring of new demands: each is taken out of the cores'
    account, without changing the demand that waits; a flow with demand left stays
    active and has been sent again, a flow without becomes inactive. (With 2^16
    timeslots or more waiting, the demand is truncated, see
    [accumulated_backlog_truncated].) *)
Theorem spent_is_settled d (q : R) :
  let b := concat (take 256 (r_list q)) in
  demand_ok d → r_wf q → NoDup (key <$> b) → Forall (spent_ok d) b → (length b ≤ r_free (q_head d))%nat →
  wp (seq_handle_spent q) (λ q' d' _, demand_ok d' ∧ r_wf q' ∧ r_list q' = drop 256 (r_list q) ∧
    (∀ f, flow_ok f → pending f d' = pending f d ∧ outside f d' = outside f d - present f b) ∧
    (∀ e, e ∈ b → active (key e) d' = negb (unsent (key e) d =? 0)) ∧
    (∀ f, flow_ok f → f ∉ key <$> b → active f d' = active f d)) d.
Proof.
  intros b Hd Hq Hnd Hb Hroom. unfold seq_handle_spent.
  pose proof (dequeue_burst_spec SPENT_RING_DEQUEUE_SIZE q Hq) as Hdq.
  destruct (r_dequeue_burst SPENT_RING_DEQUEUE_SIZE q) as [bs q']. destruct Hdq as (-> & Hq' & El).
  apply wp_bind. eapply wp_ext; [apply handle_spent_bins_concat|].
  eapply wp_mono; [by apply (handle_spent_edges_spec b)|].
  intros _ d' l (_ & Hd' & Hp & Ho & Hs & Ha & _). apply wp_ret. split_and!; try done.
  - intros f Hf. split; [by apply Hp|by apply Ho].
  - intros f Hf Hni. by apply Hs.
Qed.

(** Resetting a sender forgets the unsent demand of exactly that sender; what
    is already on its way stays. *)
Theorem reset_clears_sender d src :
  demand_ok d → node src →
  wp (seq_reset_sender src) (λ _ d' _, demand_ok d' ∧ sent d' = sent d ∧ is_active d' = is_active d ∧
    ∀ f, flow_ok f → unsent f d' = if decide (f.1 = src) then 0 else unsent f d) d.
Proof.
  intros Hd Hs. unfold seq_reset_sender.
  eapply wp_mono; [apply (reset_pairs_spec src Hs (Z.to_nat Topology.MAX_NODES) 0 d Hd); [lia|vm_compute; done]|].
  intros _ d' l (_ & Hd' & Es & Ea & Hu). split_and!; try done. intros f Hf. rewrite Hu by done.
  destruct Hf as [_ Hf2]. unfold node in Hf2. change (Z.of_nat (Z.to_nat Topology.MAX_NODES)) with 256.
  destruct (decide (f.1 = src)); [rewrite bool_decide_eq_true_2|rewrite bool_decide_eq_false_2]; (done || naive_solver lia).
Qed.
End theorems.

(** ** Samples *)

Section samples.
Context {R : Type} `{Ring R bin}.

(** [seq_reset_admissible_status] gives a state in which no flow is active. *)
Lemma reset_status_ok (d : demand R) : (length (new_demands d) < SMALL_BIN_SIZE)%nat → r_wf (q_head d) →
  demand_ok (seq_reset_admissible_status d) ∧ ∀ f, flow_ok f → unsent f (seq_reset_admissible_status d) = 0.
Proof.
  intros Hl Hr. assert (∀ f, flow_ok f → unsent f (seq_reset_admissible_status d) = 0) as Hz.
  { intros f Hf. pose proof (idx_range f Hf). unfold unsent, seq_reset_admissible_status. cbn [backlog_n].
    unfold arr_get. apply lookup_total_replicate_2. change LARGE_BIN_SIZE with 65536. lia. }
  split; [|done]. constructor; try done; try (intros f Hf _; by apply Hz);
    cbn [backlog_n last_alloc_tslot is_active seq_reset_admissible_status]; by rewrite length_replicate.
Qed.
End samples.

Definition idle_demand : demand (fp_ring bin) := seq_reset_admissible_status
  {| last_alloc_tslot := []; backlog_n := []; is_active := []; new_demands := []; q_head := sample_ring |}.

Lemma idle_demand_ok : demand_ok idle_demand ∧ ∀ f, flow_ok f → unsent f idle_demand = 0.
Proof. apply reset_status_ok; [vm_compute; lia|apply sample_ring_ok]. Qed.

(** After a request of 3 timeslots, and after a further one of 5. *)
Definition after {A} (m : M False (demand (fp_ring bin)) A) d := match m d with Some (_, d', _) => d' | None => d end.
Definition busy_demand := after (seq_add_backlog 1 2 3) idle_demand.
Definition waiting_demand := after (seq_add_backlog 1 2 5) busy_demand.

Lemma after_wp {A} (m : M False (demand (fp_ring bin)) A) (Q : demand (fp_ring bin) → Prop) d :
  wp m (λ _ d' _, Q d') d → Q (after m d).
Proof. unfold wp, after. by destruct (m d) as [[[]]|]. Qed.

Lemma flow_1_2 : flow_ok (1, 2).
Proof. split; unfold node; simpl; lia. Qed.

Lemma busy_demand_ok : demand_ok busy_demand ∧ active (1, 2) busy_demand = true.
Proof.
  destruct idle_demand_ok as [Hd Hz]. apply (after_wp (seq_add_backlog 1 2 3) (λ d, demand_ok d ∧ active (1, 2) d = true) idle_demand).
  eapply wp_mono; [apply (seq_add_backlog_spec idle_demand (1, 2) 3 Hd flow_1_2); rewrite ?Hz by apply flow_1_2; try lia; vm_compute; lia|].
  intros _ d' l (_ & ? & _ & _ & ? & _). done.
Qed.

Lemma waiting_demand_ok : demand_ok waiting_demand ∧ active (1, 2) waiting_demand = true.
Proof.
  destruct busy_demand_ok as [Hd _]. assert (unsent (1, 2) busy_demand = 0) as E by (vm_compute; reflexivity).
  apply (after_wp (seq_add_backlog 1 2 5) (λ d, demand_ok d ∧ active (1, 2) d = true) busy_demand).
  eapply wp_mono; [apply (seq_add_backlog_spec busy_demand (1, 2) 5 Hd flow_1_2); rewrite ?E; try lia; vm_compute; lia|].
  intros _ d' l (_ & ? & _ & _ & ? & _). done.
Qed.

Lemma demand_is_added_witness :
  demand_ok busy_demand ∧ flow_ok (1, 2) ∧
  wp (seq_add_backlog 1 2 5) (λ _ d' _, pending (1, 2) d' = pending (1, 2) busy_demand + 5) busy_demand.
Proof.
  split; [apply busy_demand_ok|split; [exact flow_1_2|]].
  assert (unsent (1, 2) busy_demand = 0) as E by (vm_compute; reflexivity).
  eapply wp_mono; [apply (demand_is_added busy_demand (1, 2) 5); [apply busy_demand_ok|exact flow_1_2|lia|rewrite E; lia|rewrite E; lia|vm_compute; lia]|].
  intros u d' l (_ & _ & Hp). destruct (Hp (1, 2) flow_1_2) as [_ Hp2]. rewrite decide_True in Hp2 by reflexivity. exact Hp2.
Defined.

(** The ring of spent entries with one entry in it. *)
Definition spent_ring : fp_ring bin := default sample_ring (r_enqueue [edge 1 2 0 1000] sample_ring).

Lemma spent_ring_ok : r_wf spent_ring ∧ r_list spent_ring = [[edge 1 2 0 1000]].
Proof.
  destruct sample_ring_ok as [Hw Hf].
  destruct (r_enqueue_spec sample_ring [edge 1 2 0 1000] Hw) as (r' & E & Hw' & El & _); [rewrite Hf; lia|].
  unfold spent_ring. rewrite E. simpl default. split; [exact Hw'|]. rewrite El. vm_compute. reflexivity.
Qed.

Lemma spent_is_settled_witness :
  wp (seq_handle_spent spent_ring) (λ _ d' _, pending (1, 2) d' = pending (1, 2) waiting_demand ∧ active (1, 2) d' = true) waiting_demand.
Proof.
  destruct spent_ring_ok as [Hw El]. destruct waiting_demand_ok as [Hd Ha].
  assert (unsent (1, 2) waiting_demand = 5) as Eu by (vm_compute; reflexivity).
  assert (concat (take 256 (r_list spent_ring)) = [edge 1 2 0 1000]) as Eb by (rewrite El; reflexivity).
  eapply wp_mono; [apply (spent_is_settled waiting_demand spent_ring Hd Hw); rewrite Eb|].
  - apply NoDup_singleton.
  - apply Forall_singleton. split_and!; [exact flow_1_2|exact Ha|change (key (edge 1 2 0 1000)) with (1, 2); rewrite Eu; lia..].
  - vm_compute. lia.
  - intros u d' l (_ & _ & _ & Hp & Hact & _). split; [apply (Hp (1, 2) flow_1_2)|].
    specialize (Hact (edge 1 2 0 1000)). rewrite Eb in Hact. specialize (Hact ltac:(apply list_elem_of_singleton; reflexivity)).
    change (key (edge 1 2 0 1000)) with (1, 2) in Hact. rewrite Eu in Hact. exact Hact.
Defined.

Lemma reset_clears_sender_witness :
  wp (seq_reset_sender 1) (λ _ d' _, unsent (1, 2) d' = 0) waiting_demand.
Proof.
  eapply wp_mono; [apply (reset_clears_sender waiting_demand 1); [apply waiting_demand_ok|unfold node; lia]|].
  intros u d' l (_ & _ & _ & Hu). rewrite (Hu (1, 2) flow_1_2). reflexivity.
Defined.

(** Demand that accumulates beyond 65535 timeslots while a flow is active is
    truncated to 16 bits when it is sent: here 65536 timeslots are lost. *)
Theorem accumulated_backlog_truncated :
  (λ r, (unsent (1, 2) r.1.2, be_backlog <$> sent r.1.2)) <$>
    (seq_add_backlog 1 2 10;; seq_add_backlog 1 2 65535;; seq_add_backlog 1 2 1;; handle_spent_edge (edge 1 2 0 1000))
      idle_demand = Some (0, [10; 0]).
Proof. vm_compute. reflexivity. Qed.
