(* ===== verification/SupportTheorems.v ===== *)
(** * Theorems about the arbiter's supporting structures

    Rings, timers, bitmaps, the pacer, and the address and size arithmetic of the
    configuration headers; the containers are shown to refine their abstract
    counterparts over whole sequences of operations. *)

From S2P Require Import Prelude Platform Window WindowFacts Pacer Ring Timer.

(** ** Rings refine bounded queues *)
Inductive ring_op (A : Type) := Enqueue (x : A) | Dequeue.
Arguments Enqueue {A} x.
Arguments Dequeue {A}.

(** What an operation answers: accepted or refused, an element or none. *)
Inductive ring_answer (A : Type) := Accepted (ok : bool) | Taken (x : option A).
Arguments Accepted {A} ok.
Arguments Taken {A} x.

Section rings.
Context {A : Type} `{Inhabited A}.
Implicit Types (r : fp_ring A) (l : list A).

Definition ring_step (o : ring_op A) r : fp_ring A * ring_answer A :=
  match o with
  | Enqueue x => match fp_ring_enqueue x r with Some r' => (r', Accepted true) | None => (r, Accepted false) end
  | Dequeue => match fp_ring_dequeue r with Some (x, r') => (r', Taken (Some x)) | None => (r, Taken None) end
  end.

(** A queue with room for [cap] elements. *)
Definition queue_step (cap : Z) (o : ring_op A) l : list A * ring_answer A :=
  match o with
  | Enqueue x => if decide (Z.of_nat (length l) < cap) then (l ++ [x], Accepted true) else (l, Accepted false)
  | Dequeue => match l with [] => ([], Taken None) | x :: l' => (l', Taken (Some x)) end
  end.

Fixpoint run_steps {S} (step : ring_op A → S → S * ring_answer A) (os : list (ring_op A)) (s : S) : S * list (ring_answer A) :=
  match os with
  | [] => (s, [])
  | o :: os' => let '(s1, a) := step o s in let '(s2, l) := run_steps step os' s1 in (s2, a :: l)
  end.

Lemma ring_step_refines r o : ring_wf r →
  let '(r', a) := ring_step o r in ring_wf r' ∧ mask r' = mask r ∧ queue_step (mask r) o (ring_list r) = (ring_list r', a).
Proof.
  intros Hr. pose proof (ring_size_range r). destruct o as [x|]; simpl.
  - rewrite length_ring_list, Z2Nat.id by lia. destruct (decide (ring_size r < mask r)) as [Hlt|Hge].
    + destruct (fp_ring_enqueue_spec r x Hr Hlt) as (r' & -> & Hr' & -> & _ & Em & _). done.
    + pose proof (rw_size r Hr). rewrite fp_ring_enqueue_full by (done || lia). done.
  - pose proof (fp_ring_dequeue_spec r Hr) as Hd. destruct (ring_list r) as [|x l] eqn:El.
    + rewrite Hd. by rewrite El.
    + destruct Hd as (r' & E & Hr' & <- & Em & _). rewrite E. by split_and!.
Qed.

(** Refinement: whatever sequence of enqueues and dequeues is made, also
    across the wrap-around of the 32-bit counters, an [fp_ring] gives the answers
    of a queue with room for [mask] elements and holds that queue's contents. *)
Theorem ring_refines_queue r os : ring_wf r →
  let '(r', answers) := run_steps ring_step os r in
  ring_wf r' ∧ run_steps (queue_step (mask r)) os (ring_list r) = (ring_list r', answers).
Proof.
  revert r. induction os as [|o os IH]; intros r Hr; cbn [run_steps]; [done|].
  pose proof (ring_step_refines r o Hr) as Hs. destruct (ring_step o r) as [r1 a]. destruct Hs as (Hr1 & Em & ->).
  specialize (IH r1 Hr1). destruct (run_steps ring_step os r1) as [r2 l]. destruct IH as [Hr2 E].
  rewrite <- Em. by rewrite E.
Qed.
End rings.

Definition wrapping_ring : fp_ring Z := {| Ring.head := 2 ^ 32 - 1; tail := 0; Ring.mask := 3; elem := [0; 0; 0; 7] |}.

Lemma ring_refines_queue_witness :
  ring_wf wrapping_ring ∧
  (run_steps ring_step [Enqueue 8; Enqueue 9; Enqueue 10; Dequeue; Dequeue] wrapping_ring).2
    = [Accepted true; Accepted true; Accepted false; Taken (Some 7); Taken (Some 8)].
Proof.
  assert (ring_wf wrapping_ring) as Hr.
  { constructor; cbn [Ring.head tail Ring.mask elem wrapping_ring].
    - exists 2. split; [lia|reflexivity].
    - reflexivity.
    - lia.
    - lia.
    - vm_compute. discriminate. }
  split; [exact Hr|].
  pose proof (ring_refines_queue wrapping_ring [Enqueue 8; Enqueue 9; Enqueue 10; Dequeue; Dequeue] Hr) as Href.
  destruct (run_steps ring_step _ wrapping_ring) as [r' l]. destruct Href as [_ E].
  apply (f_equal snd) in E. cbn [snd] in E |- *. rewrite <- E. vm_compute. reflexivity.
Defined.

(** Near the wrap-around of the counters the bulk enqueue goes wrong in both
    directions: it reports success and drops elements that do not fit, and
    refuses an element when the ring is empty. *)
Theorem ring_bulk_wraps :
  (r' ← fp_ring_enqueue_bulk [1; 2; 3; 4; 5]
     {| Ring.head := 2 ^ 32 - 8; tail := 2 ^ 32 - 3; Ring.mask := 7; elem := replicate 8 0 |};
   Some (ring_list r')) = Some (replicate 5 0 ++ [1; 2]) ∧
  fp_ring_enqueue_bulk [1] {| Ring.head := 2 ^ 32 - 6; tail := 2 ^ 32 - 6; Ring.mask := 7; elem := replicate 8 0 |} = None.
Proof. split; vm_compute; reflexivity. Qed.

(** ** The timer wheel refines a map of deadlines *)
Inductive timer_op := Arm (tim when_ : Z) | Stop (tim : Z) | Poll (now : Z).

(** The abstract timers: the time of the last poll, in ticks, and the deadline of
    every armed timer. *)
Record deadlines := { clock : Z; due : gmap Z Z }.

Definition deadline_step (o : timer_op) (d : deadlines) : deadlines :=
  match o with
  | Arm tim t => {| clock := clock d; due := <[tim := t / Timer.TIMER_GRANULARITY]> (due d) |}
  | Stop tim => {| clock := clock d; due := delete tim (due d) |}
  | Poll now => {| clock := now / Timer.TIMER_GRANULARITY; due := filter (λ p, now / Timer.TIMER_GRANULARITY < p.2) (due d) |}
  end.

(** The timers that a poll hands out. *)
Definition handed_out (o : timer_op) (d : deadlines) : gset Z :=
  match o with
  | Poll now => dom (filter (λ p, p.2 ≤ now / Timer.TIMER_GRANULARITY) (due d))
  | _ => ∅
  end.

(** Times are 64-bit; polls do not go back and are at most 100 rounds of the wheel
    apart (the assertion of the code). *)
Definition timely (o : timer_op) (d : deadlines) : Prop :=
  match o with
  | Arm _ t => 0 ≤ t < 2 ^ 64
  | Stop _ => True
  | Poll now => 0 ≤ now < 2 ^ 64 ∧ 0 ≤ now / Timer.TIMER_GRANULARITY - clock d < 100 * Timer.MAX_TIMER_SLOTS
  end.

Fixpoint timely_all (os : list timer_op) (d : deadlines) : Prop :=
  match os with [] => True | o :: os' => timely o d ∧ timely_all os' (deadline_step o d) end.

#[export] Instance timely_dec o d : Decision (timely o d).
Proof. destruct o; simpl; apply _. Defined.
#[export] Instance timely_all_dec os : ∀ d, Decision (timely_all os d).
Proof. induction os; intros d; simpl; apply _. Defined.

Definition timer_step (o : timer_op) (w : Timer.fp_timers) : option (Timer.fp_timers * list Z) :=
  match o with
  | Arm tim t => Some (Timer.fp_timer_reset tim t w, [])
  | Stop tim => Some (Timer.fp_timer_stop tim w, [])
  | Poll now => Timer.fp_timer_get_expired now w []
  end.

Fixpoint timer_run (os : list timer_op) (w : Timer.fp_timers) : option (Timer.fp_timers * list (list Z)) :=
  match os with
  | [] => Some (w, [])
  | o :: os' => '(w1, ex) ← timer_step o w; '(w2, exs) ← timer_run os' w1; Some (w2, ex :: exs)
  end.

Fixpoint handouts (os : list timer_op) (d : deadlines) : list (gset Z) :=
  match os with [] => [] | o :: os' => handed_out o d :: handouts os' (deadline_step o d) end.

Definition keeps (w : Timer.fp_timers) (d : deadlines) : Prop :=
  Timer.wheel_ok w ∧ Timer.head w = clock d ∧
  ∀ x, Timer.time_of w x = default Timer.TIMER_NOT_SET_TIME (due d !! x) ∧
       (∀ t, due d !! x = Some t → 0 ≤ t < 2 ^ 50).

(** An answer hands out a set of timers, each once. *)
Definition hands (ex : list Z) (s : gset Z) : Prop := NoDup ex ∧ ∀ x, x ∈ ex ↔ x ∈ s.

Lemma keeps_armed w d x : keeps w d → Timer.armed w x ↔ is_Some (due d !! x).
Proof.
  intros (_ & _ & Hx). destruct (Hx x) as [E Hr]. unfold Timer.armed. rewrite E.
  destruct (due d !! x) as [t|] eqn:Et; simpl; [|split; [intros Hn; by destruct Hn|by intros [? ?]]].
  specialize (Hr t eq_refl). split; [by eauto|]. intros _. change Timer.TIMER_NOT_SET_TIME with (2 ^ 64 - 1). lia.
Qed.

Lemma tick_range t : 0 ≤ t < 2 ^ 64 → 0 ≤ t / Timer.TIMER_GRANULARITY < 2 ^ 50.
Proof. intros Ht. unfold Timer.TIMER_GRANULARITY. zify_div; lia. Qed.

Lemma timer_step_refines o w d : keeps w d → timely o d →
  ∃ w' ex, timer_step o w = Some (w', ex) ∧ keeps w' (deadline_step o d) ∧ hands ex (handed_out o d).
Proof.
  intros K Ht. pose proof K as (Hw & Eh & Hx). unfold keeps, hands. destruct o as [tim t|tim|now]; simpl in *.
  - destruct (Timer.fp_timer_reset_ok w tim t Hw Ht) as [Hw' Ht']. eexists _, []. split_and!; [done|done|by unfold Timer.fp_timer_reset| |constructor|set_solver].
    intros x. rewrite Ht'. destruct (decide (x = tim)) as [->|]; [rewrite lookup_insert_eq|by rewrite lookup_insert_ne].
    split; [done|]. intros ? [= <-]. by apply tick_range.
  - destruct (Timer.fp_timer_stop_ok w tim Hw) as [Hw' Ht']. eexists _, []. split_and!; [done|done| | |constructor|set_solver].
    { unfold Timer.fp_timer_stop. by destruct (_ =? _). }
    intros x. rewrite Ht'. destruct (decide (x = tim)) as [->|]; [by rewrite lookup_delete_eq|by rewrite lookup_delete_ne].
  - destruct Ht as (Hr & Hle & Hlim). rewrite <- Eh in *.
    destruct (Timer.get_expired_spec now w [] Hw Hr ltac:(lia) Hlim) as (w' & ex & E & Hw' & Eh' & Hnd & Hex & Ht').
    simpl in E. exists w', ex. assert (Hmem : ∀ x, x ∈ ex ↔ ∃ t, due d !! x = Some t ∧ t ≤ now / Timer.TIMER_GRANULARITY).
    { intros x. rewrite Hex, (keeps_armed w d x K). destruct (Hx x) as [-> _]. split.
      - intros [[t Et] Hle']. rewrite Et in Hle'. eauto.
      - intros (t & Et & Hle'). rewrite Et. eauto. }
    split_and!; try done.
    + intros x. rewrite Ht'. destruct (Hx x) as [-> Hrx]. split; [|intros t [Et _]%map_lookup_filter_Some; eauto].
      destruct (decide (x ∈ ex)) as [Hin|Hni].
      * apply Hmem in Hin as (t & Et & Hle'). rewrite map_lookup_filter, Et. simpl. by rewrite option_guard_False by lia.
      * rewrite map_lookup_filter. destruct (due d !! x) as [t|] eqn:Et; [|done]. simpl.
        rewrite option_guard_True; [done|]. destruct (decide (t ≤ now / Timer.TIMER_GRANULARITY)); [|lia].
        exfalso. apply Hni, Hmem. eauto.
    + intros x. rewrite Hmem, elem_of_dom. unfold is_Some. by setoid_rewrite map_lookup_filter_Some.
Qed.

(** Refinement: a wheel that is armed, stopped and polled in any order hands
    out at each poll exactly the timers whose deadline has come, each once, and
    no others; it never fails, and the deadlines of the rest are kept. *)
Theorem timers_refine_deadlines os : ∀ w d, keeps w d → timely_all os d →
  ∃ w' exs, timer_run os w = Some (w', exs) ∧ keeps w' (foldl (λ d o, deadline_step o d) d os) ∧
    Forall2 hands exs (handouts os d).
Proof.
  induction os as [|o os IH]; intros w d K Ht; cbn [timer_run handouts foldl].
  { exists w, []. split_and!; [done..|constructor]. }
  destruct Ht as [Ho Ht]. destruct (timer_step_refines o w d K Ho) as (w1 & ex & -> & K1 & Hh).
  destruct (IH w1 _ K1 Ht) as (w2 & exs & E2 & K2 & Hhs). simpl. rewrite E2. simpl. exists w2, (ex :: exs).
  split_and!; [done..|by constructor].
Qed.

(** An initial wheel has no armed timer. *)
Lemma init_keeps now : 0 ≤ now < 2 ^ 64 →
  keeps (Timer.fp_init_timers now) {| clock := now / Timer.TIMER_GRANULARITY; due := ∅ |}.
Proof.
  intros Hn. pose proof (tick_range now Hn). split_and!; [|done|done].
  assert (∀ s, 0 ≤ s < 1024 → arr_get (Timer.slots (Timer.fp_init_timers now)) s = []) as Hs.
  { intros s Hs. unfold arr_get. apply lookup_total_replicate_2. change Timer.MAX_TIMER_SLOTS with 1024. lia. }
  constructor; try done; [simpl; lia|..].
  - intros s ?. rewrite Hs by done. constructor.
  - intros x s ?. rewrite Hs by done. split; [by intros ?%not_elem_of_nil|intros [Ha _]]. by destruct Ha.
Qed.

Definition sample_timer_ops : list timer_op :=
  [Arm 1 50000; Arm 2 90000; Arm 3 20000000; Stop 2; Poll 40000; Poll 60000; Arm 1 1000; Poll 60000].

Lemma timers_refine_deadlines_witness :
  keeps (Timer.fp_init_timers 0) {| clock := 0; due := ∅ |} ∧
  timely_all sample_timer_ops {| clock := 0; due := ∅ |} ∧
  ∃ w' exs, timer_run sample_timer_ops (Timer.fp_init_timers 0) = Some (w', exs) ∧
    Forall2 hands exs (handouts sample_timer_ops {| clock := 0; due := ∅ |}).
Proof.
  assert (timely_all sample_timer_ops {| clock := 0; due := ∅ |}) as Ht.
  { refine (bool_decide_unpack _ _). vm_compute. exact I. }
  split; [apply (init_keeps 0); lia|split; [exact Ht|]].
  destruct (timers_refine_deadlines sample_timer_ops (Timer.fp_init_timers 0) {| clock := 0; due := ∅ |}
    (init_keeps 0 ltac:(lia)) Ht) as (w' & exs & E & _ & Hh).
  exists w', exs. split; [exact E|exact Hh].
Defined.

(** ** Bitmaps refine sets *)
Inductive bigmap_op := SetBit (index : Z) | ClearBit (index : Z).

Definition bigmap_step (o : bigmap_op) (m : Bigmap.bigmap) : Bigmap.bigmap :=
  match o with SetBit i => Bigmap.bigmap_set i m | ClearBit i => Bigmap.bigmap_clear i m end.
Definition set_step (o : bigmap_op) (s : gset Z) : gset Z :=
  match o with SetBit i => {[ i ]} ∪ s | ClearBit i => s ∖ {[ i ]} end.
Definition op_index (o : bigmap_op) : Z := match o with SetBit i | ClearBit i => i end.

Lemma bigmap_steps_refine os : ∀ m, Forall (λ o, 0 ≤ op_index o < 256) os → Bigmap.bigmap_ok m →
  let m' := foldl (λ m o, bigmap_step o m) m os in
  Bigmap.bigmap_ok m' ∧ Bigmap.bits m' = foldl (λ s o, set_step o s) (Bigmap.bits m) os.
Proof.
  induction os as [|o os IH]; intros m Hos Hm; [done|]. apply Forall_cons in Hos as [Ho Hos]. simpl.
  assert (Bigmap.bigmap_ok (bigmap_step o m) ∧ Bigmap.bits (bigmap_step o m) = set_step o (Bigmap.bits m)) as [Hm' <-].
  { destruct o; simpl in *; [split; [by apply Bigmap.bigmap_set_ok|by apply Bigmap.bits_set]|
      split; [by apply Bigmap.bigmap_clear_ok|by apply Bigmap.bits_clear]]. }
  by apply IH.
Qed.

(** Refinement: after any sequence of sets and clears of indices below 256, an
    initialised bitmap holds exactly the set that the operations build: the test,
    the emptiness check and the search for the first member answer accordingly. *)
Theorem bigmap_refines_set m0 os : Forall (λ o, 0 ≤ op_index o < 256) os →
  let m := foldl (λ m o, bigmap_step o m) (Bigmap.bigmap_init m0) os in
  let s := foldl (λ s o, set_step o s) ∅ os in
  (∀ i, 0 ≤ i < 256 → Bigmap.bigmap_is_set m i = bool_decide (i ∈ s)) ∧
  (Bigmap.bigmap_empty m = true ↔ s = ∅) ∧
  (s ≠ ∅ → Bigmap.bigmap_find m ∈ s ∧ ∀ x, x ∈ s → Bigmap.bigmap_find m ≤ x).
Proof.
  intros Hos. destruct (Bigmap.bigmap_init_spec m0) as [H0 E0].
  destruct (bigmap_steps_refine os _ Hos H0) as [Hm Es]. rewrite E0 in Es. simpl.
  set (m := foldl _ _ os) in *. rewrite <- Es. pose proof (Bigmap.find_spec m Hm) as Hf.
  split_and!.
  - intros i Hi. by apply Bigmap.bigmap_is_set_spec.
  - destruct (Bigmap.bigmap_empty m); [done|]. destruct Hf as [Hin _]. split; [done|]. intros E. rewrite E in Hin. set_solver.
  - intros Hne. by destruct (Bigmap.bigmap_empty m).
Qed.

Lemma bigmap_refines_set_witness :
  let m := foldl (λ m o, bigmap_step o m) (Bigmap.bigmap_init {| Bigmap.mask := []; Bigmap.summary := 0 |})
    [SetBit 200; SetBit 70; ClearBit 70; SetBit 131] in
  Bigmap.bigmap_is_set m 200 = true ∧ Bigmap.bigmap_find m = 131.
Proof.
  destruct (bigmap_refines_set {| Bigmap.mask := []; Bigmap.summary := 0 |} [SetBit 200; SetBit 70; ClearBit 70; SetBit 131])
    as (Hs & _ & _); [repeat (constructor; [simpl; lia|]); constructor|].
  split; [rewrite (Hs 200) by lia|]; vm_compute; reflexivity.
Defined.

(** ** The pacer *)

(** The triggers that a pacer is given: late enough for the credit, and early
    enough for the clock. *)
Definition paced (pa : Pacer.fp_pacer) (limit now : Z) : Prop :=
  0 ≤ now ∧ Pacer.max_credit pa ≤ now ∧ now + Pacer.min_gap pa ≤ limit.

Lemma pacer_gap triggers : ∀ pa limit (i : nat) now e,
  Pacer.idle pa limit → Forall (paced pa limit) triggers →
  limit + 2 * Pacer.cost pa * Z.of_nat (S (length triggers)) < 2 ^ 64 - 1 →
  triggers !! i = Some now → Pacer.pacer_run pa triggers !! i = Some e → now + Pacer.min_gap pa ≤ e.
Proof.
  induction triggers as [|t rest IH]; intros pa limit i now e Hid Htr Hl Hi He; [done|].
  apply Forall_cons in Htr as [(Hn & Hnc & Hng) Htr]. simpl length in Hl.
  pose proof (Pacer.id_cost _ _ Hid). pose proof (Pacer.id_T _ _ Hid).
  destruct (Pacer.pacer_event pa t limit) as (E & _ & ET & EN & EC & EM & EG); [done|lia|lia|nia|lia|].
  cbn [Pacer.pacer_run] in He. cbv zeta in He. set (pa1 := (Pacer.pacer_trigger pa t).2) in *.
  unfold Pacer.pacer_next_event in He. destruct i as [|i]; simpl in Hi, He; [simplify_eq; lia|].
  rewrite <- EG. apply (IH _ (limit + 2 * Pacer.cost pa) i); [|..|done|done].
  - destruct Hid. constructor; rewrite ?ET, ?EC, ?EM, ?EG; lia.
  - unfold paced. rewrite EM, EG. eapply Forall_impl; [exact Htr|]. unfold paced. simpl. lia.
  - rewrite EC. lia.
Qed.

(** C36. Rate: the [k + 1] requests after the [i]-th that a pacer lets through take
    at least [(k + 2) * cost - max_credit] time together, and each request waits
    at least the minimal gap after its trigger. *)
Theorem pacer_limits_rate pa limit triggers :
  Pacer.idle pa limit → Forall (paced pa limit) triggers →
  limit + 2 * Pacer.cost pa * Z.of_nat (S (length triggers)) < 2 ^ 64 - 1 →
  let events := Pacer.pacer_run pa triggers in
  (∀ i k ei ek, events !! i = Some ei → events !! (i + S k)%nat = Some ek →
    ei + Pacer.cost pa * (Z.of_nat k + 2) - Pacer.max_credit pa ≤ ek) ∧
  (∀ i now e, triggers !! i = Some now → events !! i = Some e → now + Pacer.min_gap pa ≤ e).
Proof.
  intros Hid Htr Hl events. split.
  - intros i k ei ek. by apply (Pacer.pacer_rate_from triggers pa limit).
  - intros i now e. by apply (pacer_gap triggers pa limit).
Qed.

Definition sample_pacer : Pacer.fp_pacer := Pacer.pacer_init_full 1000 100 150 10.

Lemma pacer_limits_rate_witness :
  Pacer.pacer_run sample_pacer [2000; 2001; 2002; 2003] = [2010; 2060; 2160; 2260] ∧
  2010 + Pacer.cost sample_pacer * (Z.of_nat 2 + 2) - Pacer.max_credit sample_pacer ≤ 2260.
Proof.
  assert (Pacer.pacer_run sample_pacer [2000; 2001; 2002; 2003] = [2010; 2060; 2160; 2260]) as E by (vm_compute; reflexivity).
  split; [exact E|].
  destruct (pacer_limits_rate sample_pacer 3000 [2000; 2001; 2002; 2003]) as [Hr _].
  - constructor; vm_compute; try reflexivity; try discriminate; split; discriminate.
  - repeat (constructor; [vm_compute; repeat split; discriminate|]); constructor.
  - vm_compute. reflexivity.
  - apply (Hr 0%nat 2%nat); rewrite E; reflexivity.
Defined.

(** ** Addresses and sizes *)

(** Round trip: the 16-bit destination field of an allocation carries a node
    below 2^14 and one of four paths, and both are read back. *)
Theorem alloc_field_roundtrip node path :
  0 ≤ node < 2 ^ 14 → 0 ≤ path < 4 →
  let alloc := Z.lor node (Z.shiftl path 14) in
  Topology.fp_alloc_node alloc = node ∧ Topology.fp_alloc_path alloc = path ∧ 0 ≤ alloc < 2 ^ 16.
Proof. apply Topology.alloc_split. Qed.

Lemma alloc_field_roundtrip_witness :
  Topology.fp_alloc_node (Z.lor 37 (Z.shiftl 2 14)) = 37 ∧ Topology.fp_alloc_path (Z.lor 37 (Z.shiftl 2 14)) = 2.
Proof. destruct (alloc_field_roundtrip 37 2) as (H1 & H2 & _); [lia|lia|]. split; [exact H1|exact H2]. Defined.

(** Equivalence: for every scheme that has both a name at the endpoint and a
    macro at the controller, the two sides agree on the size of the data of a
    request; they agree on the size of the data of an allocation for every scheme
    but LSTF. *)
Theorem scheme_sizes_agree scheme tso m :
  Flags.macro_of scheme = Some (tso, m) →
  Flags.areq_data_bytes_from_scheme scheme = Flags.emu_req_data_bytes tso m ∧
  (Flags.areq_data_type_from_scheme scheme = Flags.AREQ_DATA_TYPE_NONE ↔ Flags.emu_req_data_bytes tso m = 0) ∧
  (Flags.alloc_data_bytes_from_scheme scheme = Flags.emu_alloc_data_bytes m ↔ m ≠ Flags.LSTF).
Proof.
  intros Hm. destruct (Flags.request_sizes_agree scheme tso m Hm) as [E1 E2].
  split_and!; [exact E1|exact E2|by apply (Flags.alloc_sizes_agree scheme tso)].
Qed.

Lemma scheme_sizes_agree_witness :
  Flags.areq_data_bytes_from_scheme "pfabric" = 4 ∧
  Flags.alloc_data_bytes_from_scheme "lstf" ≠ Flags.emu_alloc_data_bytes Flags.LSTF.
Proof.
  destruct (scheme_sizes_agree "pfabric" false Flags.PFABRIC eq_refl) as (E & _).
  destruct (scheme_sizes_agree "lstf" false Flags.LSTF eq_refl) as (_ & _ & E').
  split; [exact E|]. intros Heq. apply E' in Heq. apply Heq. reflexivity.
Defined.
