(* ===== verification/PathSelection.v ===== *)
(** * Path selection

    Model of [src/src/graph-algo/path_selection.c] (with its header, in the builds
    with paths) and of one round of [src/src/arbiter/path_sel_core.c]: the edges
    admitted in a timeslot are spread over the four paths of the network by two
    levels of Euler splits of the graph of racks.

    [None] is a failed [assert], an access outside an array, or a loop that does not
    end. The local variables of [select_paths] are not initialised: their contents
    are arguments. *)

From S2P Require Import Prelude Platform Pacer Ring Admission Graph.
Import Topology Graph.

(** ** path_selection.h *)
Module PathHeader.
Definition NUM_PATHS : Z := 4.
Definition DST_MASK : Z := 0x3FFF.
Definition PATH_MASK : Z := Z.land 0xFFFF (not64 DST_MASK).
Definition PATH_SHIFT : Z := 14.
End PathHeader.
Export PathHeader.

Definition MAX_NODES_PER_RACK : Z := 256.

(** ** From racks back to admitted edges *)
Module PathSel.
Record racks_to_nodes := { size : Z; admitted_indices : list Z }.
#[export] Instance racks_to_nodes_inhabited : Inhabited racks_to_nodes := populate {| size := 0; admitted_indices := [] |}.

(** [mappings], by rack pair *)
Abbreviation racks_to_nodes_mapping := (list racks_to_nodes).

Definition init_racks_to_nodes_mapping (map : racks_to_nodes_mapping) : racks_to_nodes_mapping :=
  (λ m, {| size := 0; admitted_indices := admitted_indices m |}) <$> map.

Definition get_rack_pair_index (src_rack dst_rack : Z) : option Z :=
  guard ((src_rack <? MAX_RACKS) && (dst_rack <? MAX_RACKS)) (Some (src_rack * MAX_RACKS + dst_rack)).

Definition map_edge (i : Z) (edge : Z * Z) (map : racks_to_nodes_mapping) : option racks_to_nodes_mapping :=
  rack_pair_index ← get_rack_pair_index (fp_rack_from_node_id edge.1) (fp_rack_from_node_id edge.2);
  let rack_pair := arr_get map rack_pair_index in
  guard (size rack_pair <? MAX_NODES_PER_RACK)
    (Some (arr_set map rack_pair_index {| size := u16 (size rack_pair + 1);
       admitted_indices := arr_set (admitted_indices rack_pair) (size rack_pair) i |})).

Fixpoint map_edges (i : Z) (edges : admitted_traffic) (map : racks_to_nodes_mapping) : option racks_to_nodes_mapping :=
  match edges with
  | [] => Some map
  | edge :: edges' => map ← map_edge i edge map; map_edges (i + 1) edges' map
  end.

Definition map_racks_to_nodes (admitted : admitted_traffic) (map : racks_to_nodes_mapping) : option racks_to_nodes_mapping :=
  map_edges 0 admitted map.

(** ** The graph of the racks *)
Record building := { structure : graph_structure; edges : graph_edges; src_rack_counts : list Z; dst_rack_counts : list Z;
  num_edges : Z }.

(** The body of both loops of [construct_graph]. *)
Definition add_rack_edge (src_rack dst_rack : Z) (b : building) : option building :=
  let num_racks := n (structure b) in
  '(s, e) ← add_edge (structure b) (edges b) (u8 src_rack) (u8 (dst_rack + num_racks));
  guard ((src_rack <? num_racks) && (dst_rack <? num_racks))
    (Some {| structure := s; edges := e;
       src_rack_counts := arr_set (src_rack_counts b) src_rack (u8 (arr_get (src_rack_counts b) src_rack + 1));
       dst_rack_counts := arr_set (dst_rack_counts b) dst_rack (u8 (arr_get (dst_rack_counts b) dst_rack + 1));
       num_edges := u16 (num_edges b + 1) |}).

Fixpoint add_admitted (admitted : admitted_traffic) (b : building) : option building :=
  match admitted with
  | [] => Some b
  | edge :: admitted' =>
      b ← add_rack_edge (fp_rack_from_node_id edge.1) (fp_rack_from_node_id edge.2) b;
      add_admitted admitted' b
  end.

Definition round_up_degree (max_degree : Z) : Z :=
  if negb (max_degree mod NUM_PATHS =? 0) then (max_degree / NUM_PATHS + 1) * NUM_PATHS else max_degree.

Definition find_max_degree (num_racks : Z) (b : building) : Z :=
  foldl (λ m i, Z.max (Z.max m (arr_get (src_rack_counts b) i)) (arr_get (dst_rack_counts b) i)) 0 (seqZ 0 num_racks).

(** [while (counts[rack] == max_degree) rack++] *)
Fixpoint next_rack (fuel : nat) (counts : list Z) (max_degree rack : Z) : option Z :=
  match fuel with
  | O => None
  | S fuel' =>
      count ← counts !! Z.to_nat rack;
      if count =? max_degree then next_rack fuel' counts max_degree (u8 (rack + 1)) else Some rack
  end.

(** The dummy edges. *)
Fixpoint add_dummies (fuel : nat) (max_degree src dst : Z) (b : building) : option building :=
  if num_edges b <? max_degree * n (structure b) then
    match fuel with
    | O => None
    | S fuel' =>
        src ← next_rack (S (Z.to_nat MAX_RACKS)) (src_rack_counts b) max_degree src;
        dst ← next_rack (S (Z.to_nat MAX_RACKS)) (dst_rack_counts b) max_degree dst;
        b ← add_rack_edge src dst b;
        add_dummies fuel' max_degree src dst b
    end
  else Some b.

Definition construct_graph (admitted : admitted_traffic) (s : graph_structure) (e : graph_edges) :
    option (graph_structure * graph_edges) :=
  let num_racks := n s in
  let zeros := replicate (Z.to_nat num_racks) 0 in
  b ← add_admitted admitted {| structure := s; edges := e; src_rack_counts := zeros; dst_rack_counts := zeros; num_edges := 0 |};
  let max_degree := u8 (round_up_degree (find_max_degree num_racks b)) in
  b ← add_dummies (Z.to_nat (max_degree * num_racks)) max_degree 0 0 b;
  guard (is_consistent (structure b) (edges b)) (Some (structure b, edges b)).

(** ** Assignment of paths *)
Definition assign_to_path (map : racks_to_nodes_mapping) (admitted : admitted_traffic) (src_rack dst_rack path : Z) :
    option (racks_to_nodes_mapping * admitted_traffic) :=
  rack_pair_index ← get_rack_pair_index src_rack dst_rack;
  let rack_pair := arr_get map rack_pair_index in
  guard (path <? NUM_PATHS)
    (if size rack_pair >? 0 then
       let admitted_index := arr_get (admitted_indices rack_pair) (size rack_pair - 1) in
       guard (admitted_index <? Z.of_nat (length admitted))
         (let edge := arr_get admitted admitted_index in
          let edge := (edge.1, u16 (Z.land edge.2 DST_MASK + Z.shiftl path PATH_SHIFT)) in
          Some (arr_set map rack_pair_index {| size := size rack_pair - 1; admitted_indices := admitted_indices rack_pair |},
                arr_set admitted admitted_index edge))
     else Some (map, admitted)).

(** [while (has_neighbor(edges, node))] *)
Fixpoint populate_walk (fuel : nat) (s : graph_structure) (path_0 path_1 node cur : Z)
    (st : graph_edges * racks_to_nodes_mapping * admitted_traffic) :
    option (graph_edges * racks_to_nodes_mapping * admitted_traffic) :=
  let '(e, map, admitted) := st in
  if has_neighbor e node then
    match fuel with
    | O => None
    | S fuel' =>
        '(v, e) ← remove_edge_to_neighbor s e cur;
        '(map, admitted) ← assign_to_path map admitted cur (u8 (v - n s)) path_0;
        guard (is_consistent s e)
          ('(u, e) ← remove_edge_to_neighbor s e v;
           '(map, admitted) ← assign_to_path map admitted u (u8 (v - n s)) path_1;
           guard (is_consistent s e) (populate_walk fuel' s path_0 path_1 node u (e, map, admitted)))
    end
  else Some st.

Fixpoint populate_nodes (fuel : nat) (l : list Z) (s : graph_structure) (path_0 path_1 : Z)
    (st : graph_edges * racks_to_nodes_mapping * admitted_traffic) :
    option (graph_edges * racks_to_nodes_mapping * admitted_traffic) :=
  match l with
  | [] => Some st
  | node :: l' =>
      st ← populate_walk fuel s path_0 path_1 node node st;
      populate_nodes fuel l' s path_0 path_1 st
  end.

Definition split_and_populate_paths (s : graph_structure) (e : graph_edges) (map : racks_to_nodes_mapping)
    (admitted : admitted_traffic) (path_0 path_1 : Z) : option (graph_edges * racks_to_nodes_mapping * admitted_traffic) :=
  guard ((path_0 <? NUM_PATHS) && (path_1 <? NUM_PATHS))
    (populate_nodes split_fuel (seqZ 0 (n s)) s path_0 path_1 (e, map, admitted)).

(** The contents of the local variables. *)
Record path_locals := { l_map : racks_to_nodes_mapping; l_structure : graph_structure; l_edges : list graph_edges }.

Definition select_paths (l : path_locals) (admitted : admitted_traffic) (num_racks : Z) : option admitted_traffic :=
  guard (num_racks <=? MAX_RACKS)
    (map ← map_racks_to_nodes admitted (init_racks_to_nodes_mapping (l_map l));
     s ← graph_structure_init num_racks (l_structure l);
     es ← mapM (λ e, graph_edges_init e num_racks) (l_edges l);
     '(s, e0) ← construct_graph admitted s (arr_get es 0);
     '(_, e1, e2) ← split s e0 (arr_get es 1) (arr_get es 2);
     '(_, map, admitted) ← split_and_populate_paths s e1 map admitted 0 1;
     '(_, map, admitted) ← split_and_populate_paths s e2 map admitted 2 3;
     Some admitted).

(** ** Validation *)
Definition bump (counts : list Z) (i : Z) : option (list Z) :=
  count ← counts !! Z.to_nat i; Some (arr_set counts i (u8 (count + 1))).

(** [src_rack_path_counts] and [dst_rack_path_counts] *)
Fixpoint count_paths (admitted : admitted_traffic) (counts : list Z * list Z) : option (list Z * list Z) :=
  match admitted with
  | [] => Some counts
  | edge :: admitted' =>
      let path := u8 (Z.shiftr (Z.land edge.2 PATH_MASK) PATH_SHIFT) in
      let src_rack := fp_rack_from_node_id edge.1 in
      let dst_rack := fp_rack_from_node_id (Z.land edge.2 DST_MASK) in
      srcs ← bump counts.1 (src_rack * NUM_PATHS + path);
      dsts ← bump counts.2 (dst_rack * NUM_PATHS + path);
      count_paths admitted' (srcs, dsts)
  end.

(** The packets of a rack on all paths. *)
Definition rack_total (counts : list Z) (i : Z) : Z :=
  foldl (λ c j, u16 (c + arr_get counts (i * NUM_PATHS + j))) 0 (seqZ 0 NUM_PATHS).

Definition max_rack_degree (num_racks : Z) (counts : list Z * list Z) : Z :=
  foldl (λ m i, Z.max (Z.max m (rack_total counts.1 i)) (rack_total counts.2 i)) 0 (seqZ 0 num_racks).

(** [counts0] are the contents of the two arrays; the loop sets the first
    [num_racks * NUM_PATHS] entries to 0. *)
Definition paths_are_valid (counts0 : list Z * list Z) (admitted : admitted_traffic) (num_racks : Z) : option bool :=
  let clear l := replicate (Z.to_nat (num_racks * NUM_PATHS)) 0 ++ drop (Z.to_nat (num_racks * NUM_PATHS)) l in
  guard (num_racks * NUM_PATHS <=? MAX_RACKS * NUM_PATHS)
    (counts ← count_paths admitted (clear counts0.1, clear counts0.2);
     let limit := u16 (round_up_degree (max_rack_degree num_racks counts)) / NUM_PATHS in
     Some (forallb (λ i, forallb (λ j, (arr_get counts.1 (i * NUM_PATHS + j) <=? limit) && (arr_get counts.2 (i * NUM_PATHS + j) <=? limit))
             (seqZ 0 NUM_PATHS)) (seqZ 0 num_racks))).

(** ** path_sel_core.c *)

(** arbiter/control.h *)
Definition NUM_RACKS : Z := 1.

(** One round of the loop, from the state of the rings [(q_admitted,
    q_path_selected)]; it waits until there is something to do. *)
Definition exec_path_sel_core_round {R} `{RingOps R admitted_traffic} (l : path_locals) (qs : R * R) : option (R * R) :=
  match r_dequeue qs.1 with
  | None => Some qs
  | Some (admitted, q_admitted) =>
      admitted ← select_paths l admitted NUM_RACKS;
      Some (q_admitted, default qs.2 (r_enqueue admitted qs.2))
  end.
End PathSel.
