(* ===== verification/PathFacts.v ===== *)
(** * Building the graph of the racks

    [add_edge] adds one edge to a well-formed graph, [edges_between] counts the
    edges of a pair of vertices, and [construct_graph] makes a regular graph that
    has at least as many edges between two racks as packets were admitted. *)

From S2P Require Import Prelude Platform Lists Pacer Ring Admission Graph GraphFacts PathSelection.
Import Topology Graph PathSel.

(** ** Edges between two vertices *)
Definition slot_to (s : graph_structure) (e : graph_edges) (a b i : Z) : bool :=
  edge_on e a i && (id (neighbor_at s a i) =? b).
Definition edges_between (s : graph_structure) (e : graph_edges) (a b : Z) : Z :=
  sum_of (λ i, b2z (slot_to s e a b i)) (seqZ 0 64).

(** The arrays have their sizes. *)
Definition struct_ok (s : graph_structure) : Prop :=
  length (vertices s) = 128%nat ∧ Forall (λ l, length l = 64%nat) (vertices s).

Lemma edges_between_nonneg s e a b : 0 ≤ edges_between s e a b.
Proof. apply sum_of_nonneg. intros i. by destruct (slot_to s e a b i). Qed.

(** The only slot of vertex [l] that changes is [m]. *)
Lemma between_change s s' e e' l m a b :
  0 ≤ m < 64 → (∀ i, 0 ≤ i < 64 → (a = l → i ≠ m) → slot_to s' e' a b i = slot_to s e a b i) →
  edges_between s' e' a b = edges_between s e a b +
    (if decide (a = l) then b2z (slot_to s' e' l b m) - b2z (slot_to s e l b m) else 0).
Proof.
  intros Hm Hsame. unfold edges_between. case_decide as Ea.
  - subst l. rewrite (sum_of_change_in (λ i, b2z (slot_to s e a b i)) _ m); [lia|apply NoDup_seqZ|apply elem_of_seqZ; lia|].
    intros i Hi%elem_of_seqZ Hne. by rewrite Hsame by auto with lia.
  - rewrite Z.add_0_r. apply sum_of_ext_in. intros i Hi%elem_of_seqZ. by rewrite Hsame by lia.
Qed.

(** ** Removing an edge *)

(** The ends of an edge, left vertex first. *)
Definition left_first (s : graph_structure) (u v : Z) : Z * Z := if decide (u < n s) then (u, v) else (v, u).

Lemma between_without s e u j v k a b :
  0 ≤ n s ≤ 64 → words_ok e → 0 ≤ u < 2 * n s → 0 ≤ v < 2 * n s → 0 ≤ j < 64 → 0 ≤ k < 64 → (u < n s ↔ n s ≤ v) →
  neighbor_at s u j = {| id := v; index := k |} → neighbor_at s v k = {| id := u; index := j |} →
  edge_on e u j = true → edge_on e v k = true → 0 ≤ a < n s →
  edges_between s (without e u j v k) a b = edges_between s e a b - b2z (bool_decide ((a, b) = left_first s u v)).
Proof.
  intros Hn Hw Hu Hv Hj Hk Huv Eu Ev On1 On2 Ha.
  assert (∀ x i, 0 ≤ x → 0 ≤ i → edge_on (without e u j v k) x i = edge_on e x i && negb (at_end u j v k x i)) as Hon.
  { intros x i Hx Hi. apply without_edge; (done || lia). }
  assert (∀ l m r, 0 ≤ m < 64 → l < n s → (∀ i, at_end u j v k l i = bool_decide (i = m)) → (∀ x i, x < n s → x ≠ l → at_end u j v k x i = false) →
    edge_on e l m = true → id (neighbor_at s l m) = r →
    edges_between s (without e u j v k) a b = edges_between s e a b - b2z (bool_decide ((a, b) = (l, r)))) as Hgen.
  { intros l m r Hm Hl Hend Hother Hlm Er. rewrite (between_change s s e _ l m).
    - case_decide as E; [subst l|rewrite bool_decide_eq_false_2 by congruence; simpl; lia].
      unfold slot_to. rewrite Hon, Hend, bool_decide_eq_true_2, Hlm, Er by (done || lia). simpl.
      destruct (Z.eqb_spec r b); [rewrite bool_decide_eq_true_2 by congruence|rewrite bool_decide_eq_false_2 by congruence]; simpl; lia.
    - done.
    - intros i Hi Hne. unfold slot_to. rewrite Hon by lia. destruct (decide (a = l)) as [->|Hal].
      + rewrite Hend, bool_decide_eq_false_2 by auto. by rewrite andb_true_r.
      + rewrite Hother by lia. by rewrite andb_true_r. }
  assert (u ≠ v) as Hne by lia. clear Hon.
  unfold left_first. case_decide as Hside; [apply (Hgen u j v)|apply (Hgen v k u)]; try done; try lia.
  - intros i. unfold at_end. apply bool_decide_ext. naive_solver.
  - intros x i Hx Hxl. unfold at_end. apply bool_decide_eq_false_2. intros [[? _]|[? _]]; [done|lia].
  - by rewrite Eu.
  - intros i. unfold at_end. apply bool_decide_ext. naive_solver.
  - intros x i Hx Hxl. unfold at_end. apply bool_decide_eq_false_2. intros [[? _]|[? _]]; [lia|done].
  - by rewrite Ev.
Qed.

(** ** Adding an edge *)
Lemma not_full e x : words_ok e → 0 ≤ x < 128 → deg e x < 64 → 0 ≤ not64 (arr_get e x) < 2 ^ 64 ∧ not64 (arr_get e x) ≠ 0.
Proof.
  intros He Hx Hd. pose proof (word_at e x He Hx) as Hw. split; [by apply not64_range|]. intros E.
  assert (deg e x = 64) as Hall; [|lia]. rewrite deg_eq, (sum_of_ext_in _ (λ _, 1)).
  - vm_compute. done.
  - intros i Hi%elem_of_seqZ. unfold edge_on. destruct (Z.testbit (arr_get e x) i) eqn:Eb; [done|].
    exfalso. assert (Z.testbit (not64 (arr_get e x)) i = true) as Ht by (rewrite testbit_not64 by lia; by rewrite Eb).
    by rewrite E, Z.bits_0 in Ht.
Qed.

Lemma neighbor_at_set s u i nb x j : struct_ok s → 0 ≤ u < 128 → 0 ≤ i < 64 → 0 ≤ x → 0 ≤ j →
  neighbor_at (set_neighbor s u i nb) x j = if decide (u = x ∧ i = j) then nb else neighbor_at s x j.
Proof.
  intros [Hl Hf] Hu Hi Hx Hj. unfold neighbor_at, set_neighbor. simpl. rewrite arr_get_set by (rewrite ?Hl; lia).
  destruct (decide (u = x)) as [->|Hne]; [|by rewrite decide_False by naive_solver].
  assert (length (arr_get (vertices s) x) = 64%nat) as Hlx by (apply (arr_get_Forall (λ l, length l = 64%nat)); [done|rewrite Hl; lia]).
  rewrite arr_get_set by (rewrite ?Hlx; lia). destruct (decide (i = j)) as [->|]; [by rewrite decide_True|by rewrite decide_False by naive_solver].
Qed.

Lemma struct_ok_set s u i nb : struct_ok s → 0 ≤ u < 128 → struct_ok (set_neighbor s u i nb).
Proof.
  intros [Hl Hf] Hu. split; simpl; [by rewrite length_arr_set|]. apply arr_set_Forall; [done|].
  rewrite length_arr_set. apply (arr_get_Forall (λ l, length l = 64%nat)); [done|rewrite Hl; lia].
Qed.

(** A graph does not depend on the slots that it does not use. *)
Lemma graph_ok_struct s s' e : n s' = n s → (∀ x i, 0 ≤ x < 2 * n s → 0 ≤ i < 64 → edge_on e x i = true → neighbor_at s' x i = neighbor_at s x i) →
  graph_ok s e → graph_ok s' e.
Proof.
  intros En Hs [Hw He]. constructor; [done|]. rewrite En. intros x j Hx Hj Hon. cbv zeta. rewrite Hs by done.
  specialize (He x j Hx Hj Hon). cbv zeta in He. destruct He as (H1 & H2 & H3 & H4 & H5). rewrite Hs by done. auto.
Qed.

Lemma add_edge_spec s e u v :
  graph_ok s e → struct_ok s → 0 ≤ n s ≤ 64 → 0 ≤ u < n s → n s ≤ v < 2 * n s → deg e u < 64 → deg e v < 64 →
  ∃ s' e', add_edge s e u v = Some (s', e') ∧ graph_ok s' e' ∧ struct_ok s' ∧ n s' = n s ∧
    (∀ x, 0 ≤ x → deg e' x = deg e x + ends u v x) ∧
    (∀ a b, 0 ≤ a < n s → edges_between s' e' a b = edges_between s e a b + b2z (bool_decide ((a, b) = (u, v)))).
Proof.
  intros He Hs Hn Hu Hv Hdu Hdv. pose proof (go_words _ _ He) as Hw.
  destruct (not_full e u Hw ltac:(lia) Hdu) as [Ru Nu]. destruct (not_full e v Hw ltac:(lia) Hdv) as [Rv Nv].
  destruct (ffs_spec _ 64 Ru Nu) as (Hj & Bj & _). destruct (ffs_spec _ 64 Rv Nv) as (Hk & Bk & _).
  rewrite testbit_not64 in Bj, Bk by lia. apply negb_true_iff in Bj, Bk.
  unfold add_edge, guard. rewrite !(proj2 (Z.ltb_lt _ _)), (proj2 (Z.eqb_neq _ _) Nu), (proj2 (Z.eqb_neq _ _) Nv) by lia. cbn [andb negb].
  set (j := __ffs (not64 (arr_get e u))) in *. set (k := __ffs (not64 (arr_get e v))) in *.
  set (s' := set_neighbor (set_neighbor s u j {| id := v; index := k |}) v k {| id := u; index := j |}).
  fold (with_edge e u j v k).
  assert (struct_ok (set_neighbor s u j {| id := v; index := k |})) as Hs1 by (apply struct_ok_set; [done|lia]).
  assert (∀ x i, 0 ≤ x → 0 ≤ i → neighbor_at s' x i = if decide (v = x ∧ k = i) then {| id := u; index := j |}
    else if decide (u = x ∧ j = i) then {| id := v; index := k |} else neighbor_at s x i) as Hnb.
  { intros x i Hx Hi. unfold s'. rewrite neighbor_at_set by (done || lia). case_decide; [done|]. by rewrite neighbor_at_set by (done || lia). }
  assert (neighbor_at s' u j = {| id := v; index := k |}) as Eu.
  { rewrite Hnb by lia. rewrite decide_False, decide_True by lia. done. }
  assert (neighbor_at s' v k = {| id := u; index := j |}) as Ev by (rewrite Hnb, decide_True by lia; done).
  assert (∀ x i, 0 ≤ x < 2 * n s → 0 ≤ i < 64 → edge_on e x i = true → neighbor_at s' x i = neighbor_at s x i) as Hsame.
  { intros x i Hx Hi Hon. rewrite Hnb by lia. unfold edge_on in Hon. rewrite !decide_False; [done|intros [<- <-]; congruence..]. }
  exists s', (with_edge e u j v k). split; [done|]. split; [|split; [|split; [done|split]]].
  - apply with_ok; try (done || (simpl; lia)). by apply (graph_ok_struct s).
  - apply struct_ok_set; [done|lia].
  - intros x Hx. apply (deg_with s'); try (done || (simpl; lia)).
  - intros a b Ha. rewrite (between_change s s' e _ u j); [|done|].
    + assert (∀ x i, 0 ≤ x → 0 ≤ i → edge_on (with_edge e u j v k) x i = edge_on e x i || at_end u j v k x i) as Hon.
      { intros x i Hx Hi. apply with_edge_on; (done || lia). }
      case_decide as Ea; [subst a|rewrite bool_decide_eq_false_2 by congruence; done].
      unfold slot_to. rewrite Hon, Eu by lia. unfold edge_on at 1 2. rewrite Bj. unfold at_end. rewrite bool_decide_eq_true_2 by auto. simpl.
      destruct (Z.eqb_spec v b); [rewrite bool_decide_eq_true_2 by congruence|rewrite bool_decide_eq_false_2 by congruence]; simpl; lia.
    + intros i Hi Hne. unfold slot_to. rewrite with_edge_on by (done || lia). unfold at_end.
      rewrite bool_decide_eq_false_2, orb_false_r by naive_solver lia. destruct (edge_on e a i) eqn:Ee; [|done]. by rewrite Hsame by (done || lia).
Qed.

(** ** Admitted edges, counted by rack *)
Definition src_rack (edge : Z * Z) : Z := fp_rack_from_node_id edge.1.
Definition dst_rack (edge : Z * Z) : Z := fp_rack_from_node_id edge.2.
Definition count_src (l : list (Z * Z)) (a : Z) : Z := sum_of (λ edge, b2z (bool_decide (a = src_rack edge))) l.
Definition count_dst (l : list (Z * Z)) (b : Z) : Z := sum_of (λ edge, b2z (bool_decide (b = dst_rack edge))) l.
Definition count_pair (l : list (Z * Z)) (a b : Z) : Z := sum_of (λ edge, b2z (bool_decide ((a, b) = (src_rack edge, dst_rack edge)))) l.

Lemma count_src_nonneg l a : 0 ≤ count_src l a.
Proof. apply sum_of_nonneg. intros. by case_bool_decide. Qed.
Lemma count_dst_nonneg l a : 0 ≤ count_dst l a.
Proof. apply sum_of_nonneg. intros. by case_bool_decide. Qed.

(** The largest number of packets that a rack sends or receives. *)
Definition rack_degree (num_racks : Z) (l : list (Z * Z)) : Z :=
  foldl (λ m i, Z.max (Z.max m (count_src l i)) (count_dst l i)) 0 (seqZ 0 num_racks).

Lemma fold_max_spec (f g : Z → Z) : ∀ l m, let r := foldl (λ m i, Z.max (Z.max m (f i)) (g i)) m l in
  m ≤ r ∧ (∀ i, i ∈ l → f i ≤ r ∧ g i ≤ r) ∧ (∀ b, m ≤ b → (∀ i, i ∈ l → f i ≤ b ∧ g i ≤ b) → r ≤ b).
Proof.
  induction l as [|x l IH]; intros m; simpl.
  { split_and!; [done|intros i Hi; by apply not_elem_of_nil in Hi|done]. }
  destruct (IH (Z.max (Z.max m (f x)) (g x))) as (H1 & H2 & H3). split_and!; [lia| |].
  - intros i [->|Hi]%elem_of_cons; [lia|by apply H2].
  - intros b Hb Hall. apply H3; [|intros i Hi; apply Hall; by right]. destruct (Hall x) as [? ?]; [by left|lia].
Qed.

Lemma fold_max_ext (f f' g g' : Z → Z) l : (∀ i, i ∈ l → f i = f' i ∧ g i = g' i) → ∀ m,
  foldl (λ m i, Z.max (Z.max m (f i)) (g i)) m l = foldl (λ m i, Z.max (Z.max m (f' i)) (g' i)) m l.
Proof.
  induction l as [|x l IH]; intros Heq m; simpl; [done|]. destruct (Heq x) as [-> ->]; [by left|]. apply IH. intros i Hi. apply Heq. by right.
Qed.

Lemma round_up_spec m : 0 ≤ m ≤ 64 → let d := round_up_degree m in m ≤ d ≤ 64 ∧ d mod 4 = 0.
Proof.
  intros Hm. unfold round_up_degree. change NUM_PATHS with 4. destruct (Z.eqb_spec (m mod 4) 0); simpl; zify_div; lia.
Qed.

(** ** Construction *)
Definition total (l : list Z) : Z := sum_of (λ c, c) l.

Lemma total_le (l : list Z) m : Forall (λ x, x ≤ m) l → total l ≤ m * Z.of_nat (length l).
Proof. unfold total. induction 1; simpl; lia. Qed.

Lemma total_max (l : list Z) m : Forall (λ x, x ≤ m) l → total l = m * Z.of_nat (length l) → Forall (λ x, x = m) l.
Proof.
  induction 1 as [|x l Hx Hl IH]; intros Hs; [constructor|]. pose proof (total_le l m Hl). unfold total in *. simpl in *.
  constructor; [lia|apply IH; lia].
Qed.

(** The rack counts are the degrees, and none exceeds [d]. *)
Record built (R d : Z) (b : building) : Prop := {
  bt_n : n (structure b) = R;
  bt_graph : graph_ok (structure b) (edges b);
  bt_struct : struct_ok (structure b);
  bt_src_len : Z.of_nat (length (src_rack_counts b)) = R;
  bt_dst_len : Z.of_nat (length (dst_rack_counts b)) = R;
  bt_src : ∀ r, 0 ≤ r < R → deg (edges b) r = arr_get (src_rack_counts b) r;
  bt_dst : ∀ r, 0 ≤ r < R → deg (edges b) (R + r) = arr_get (dst_rack_counts b) r;
  bt_src_max : Forall (λ c, 0 ≤ c ≤ d) (src_rack_counts b);
  bt_dst_max : Forall (λ c, 0 ≤ c ≤ d) (dst_rack_counts b);
  bt_src_sum : num_edges b = total (src_rack_counts b);
  bt_dst_sum : num_edges b = total (dst_rack_counts b);
}.

Definition between (b : building) : Z → Z → Z := edges_between (structure b) (edges b).

Lemma add_rack_edge_spec R d b src dst :
  built R d b → 0 ≤ R ≤ 16 → d ≤ 64 → 0 ≤ src < R → 0 ≤ dst < R →
  arr_get (src_rack_counts b) src < d → arr_get (dst_rack_counts b) dst < d →
  ∃ b', add_rack_edge src dst b = Some b' ∧ built R d b' ∧ num_edges b' = num_edges b + 1 ∧
    src_rack_counts b' = arr_set (src_rack_counts b) src (arr_get (src_rack_counts b) src + 1) ∧
    dst_rack_counts b' = arr_set (dst_rack_counts b) dst (arr_get (dst_rack_counts b) dst + 1) ∧
    (∀ x y, 0 ≤ x < R → 0 ≤ y < R → between b' x (R + y) = between b x (R + y) + b2z (bool_decide ((x, y) = (src, dst)))).
Proof.
  intros [En Hg Hst Hsl Hdl Hs Hd Hsm Hdm Hss Hds] HR Hd64 Hsrc Hdst Hcs Hcd.
  assert (0 ≤ arr_get (src_rack_counts b) src) as H0s by (apply (arr_get_Forall (λ c, 0 ≤ c ≤ d)); [done|lia]).
  assert (0 ≤ arr_get (dst_rack_counts b) dst) as H0d by (apply (arr_get_Forall (λ c, 0 ≤ c ≤ d)); [done|lia]).
  destruct (add_edge_spec (structure b) (edges b) src (R + dst) Hg Hst) as (s' & e' & E & Hg' & Hst' & En' & Hdeg & Hbet);
    rewrite ?En, ?Hs, ?Hd by lia; try lia.
  unfold add_rack_edge. rewrite En. replace (u8 src) with src by mlia. replace (u8 (dst + R)) with (R + dst) by mlia. rewrite E. simpl.
  unfold guard. rewrite !(proj2 (Z.ltb_lt _ _)) by lia. simpl.
  assert (num_edges b ≤ d * R) as Hne.
  { rewrite Hss, <- Hsl. apply total_le. eapply Forall_impl; [exact Hsm|]. simpl. lia. }
  assert (0 ≤ num_edges b) as Hne0.
  { rewrite Hss. clear -Hsm. unfold total. induction Hsm; simpl; lia. }
  replace (u16 (num_edges b + 1)) with (num_edges b + 1) by (unfold u16; rewrite Z.mod_small; nia).
  replace (u8 (arr_get (src_rack_counts b) src + 1)) with (arr_get (src_rack_counts b) src + 1) by mlia.
  replace (u8 (arr_get (dst_rack_counts b) dst + 1)) with (arr_get (dst_rack_counts b) dst + 1) by mlia.
  eexists. split; [done|]. simpl. split; [|split; [done|split; [done|split; [done|]]]].
  - constructor; simpl; try done; try congruence.
    + by rewrite length_arr_set.
    + by rewrite length_arr_set.
    + intros r Hr. rewrite Hdeg, arr_get_set, Hs by lia. unfold ends. rewrite (bool_decide_eq_false_2 (r = R + dst)) by lia.
      case_decide; [rewrite bool_decide_eq_true_2 by done; subst; simpl; lia|rewrite bool_decide_eq_false_2 by auto; simpl; lia].
    + intros r Hr. rewrite Hdeg, arr_get_set, Hd by lia. unfold ends. rewrite (bool_decide_eq_false_2 (R + r = src)) by lia.
      case_decide; [rewrite bool_decide_eq_true_2 by lia; subst; simpl; lia|rewrite bool_decide_eq_false_2 by lia; simpl; lia].
    + apply arr_set_Forall; [done|lia].
    + apply arr_set_Forall; [done|lia].
    + unfold total in *. rewrite sum_of_set by lia. lia.
    + unfold total in *. rewrite sum_of_set by lia. lia.
  - intros x y Hx Hy. unfold between. simpl. rewrite Hbet by lia. f_equal. f_equal. apply bool_decide_ext. split; intros [=]; f_equal; lia.
Qed.

Lemma add_admitted_spec R d l : ∀ b,
  built R d b → 0 ≤ R ≤ 16 → d ≤ 64 → Forall (λ edge, 0 ≤ src_rack edge < R ∧ 0 ≤ dst_rack edge < R) l →
  (∀ r, 0 ≤ r < R → arr_get (src_rack_counts b) r + count_src l r ≤ d ∧ arr_get (dst_rack_counts b) r + count_dst l r ≤ d) →
  ∃ b', add_admitted l b = Some b' ∧ built R d b' ∧
    (∀ r, 0 ≤ r < R → arr_get (src_rack_counts b') r = arr_get (src_rack_counts b) r + count_src l r ∧
                       arr_get (dst_rack_counts b') r = arr_get (dst_rack_counts b) r + count_dst l r) ∧
    (∀ x y, 0 ≤ x < R → 0 ≤ y < R → between b' x (R + y) = between b x (R + y) + count_pair l x y).
Proof.
  induction l as [|edge l IH]; intros b Hb HR Hd Hl Hc; simpl.
  { exists b. split_and!; try done; intros; simpl; split_and?; lia. }
  apply Forall_cons in Hl as [[Hs Hds] Hl]. fold (src_rack edge) (dst_rack edge).
  pose proof (count_src_nonneg l (src_rack edge)). pose proof (count_dst_nonneg l (dst_rack edge)).
  destruct (add_rack_edge_spec R d b (src_rack edge) (dst_rack edge) Hb HR Hd Hs Hds) as (b1 & E & Hb1 & _ & Es & Ed & Hbet).
  { destruct (Hc (src_rack edge) Hs) as [Hc1 _]. simpl in Hc1. rewrite bool_decide_eq_true_2 in Hc1 by done. simpl in Hc1. unfold count_src in *. lia. }
  { destruct (Hc (dst_rack edge) Hds) as [_ Hc1]. simpl in Hc1. rewrite bool_decide_eq_true_2 in Hc1 by done. simpl in Hc1. unfold count_dst in *. lia. }
  rewrite E. simpl. pose proof (bt_src_len _ _ _ Hb). pose proof (bt_dst_len _ _ _ Hb).
  assert (∀ r, 0 ≤ r < R →
    arr_get (src_rack_counts b1) r = arr_get (src_rack_counts b) r + b2z (bool_decide (r = src_rack edge)) ∧
    arr_get (dst_rack_counts b1) r = arr_get (dst_rack_counts b) r + b2z (bool_decide (r = dst_rack edge))) as Hr1.
  { intros r Hr. rewrite Es, Ed, !arr_get_set by lia. split; (case_decide as Er; [rewrite bool_decide_eq_true_2 by done; subst; simpl; lia
      |rewrite bool_decide_eq_false_2 by auto; simpl; lia]). }
  destruct (IH b1 Hb1 HR Hd Hl) as (b' & -> & Hb' & Hcs & Hbs).
  { intros r Hr. specialize (Hc r Hr). destruct (Hr1 r Hr) as [-> ->]. simpl in Hc. unfold count_src, count_dst in *. lia. }
  exists b'. split; [done|]. split; [done|]. split.
  - intros r Hr. destruct (Hcs r Hr) as [-> ->], (Hr1 r Hr) as [-> ->]. unfold count_src, count_dst. simpl. lia.
  - intros x y Hx Hy. rewrite Hbs, Hbet by done. unfold count_pair. simpl. lia.
Qed.

(** ** Dummy edges *)

Lemma all_full counts d : (∀ i, 0 ≤ i < Z.of_nat (length counts) → arr_get counts i = d) → total counts = d * Z.of_nat (length counts).
Proof.
  intros Hfull. assert (Forall (λ c, c = d) counts) as Hall.
  { apply Forall_lookup. intros i c Hi. pose proof (lookup_lt_Some _ _ _ Hi).
    rewrite <- (Hfull (Z.of_nat i)) by lia. unfold arr_get. rewrite Nat2Z.id. symmetry. by apply list_lookup_total_correct. }
  clear -Hall. unfold total. induction Hall; simpl; lia.
Qed.

(** While not all racks are full, a rack that is not full is found. *)
Lemma next_rack_spec counts d : Forall (λ c, 0 ≤ c ≤ d) counts → total counts < d * Z.of_nat (length counts) → Z.of_nat (length counts) ≤ 16 →
  ∀ fuel r, 0 ≤ r → (∀ i, 0 ≤ i < r → arr_get counts i = d) → Z.of_nat (length counts) - r < Z.of_nat fuel →
  ∃ r', next_rack fuel counts d r = Some r' ∧ r ≤ r' < Z.of_nat (length counts) ∧ (∀ i, 0 ≤ i < r' → arr_get counts i = d) ∧
    arr_get counts r' < d.
Proof.
  intros Hc Ht Hlen. induction fuel as [|fuel IH]; intros r Hr Hfull Hf; cbn [next_rack].
  - exfalso. rewrite (all_full counts d) in Ht by (intros; apply Hfull; lia). lia.
  - destruct (decide (r < Z.of_nat (length counts))) as [Hlt|Hge].
    + destruct (lookup_lt_is_Some_2 counts (Z.to_nat r)) as [c Ec]; [lia|]. rewrite Ec. simpl.
      assert (arr_get counts r = c) as Eg by (by apply list_lookup_total_correct).
      assert (0 ≤ c ≤ d) as Hcd by (by eapply (Forall_lookup_1 _ _ _ _ Hc)).
      destruct (Z.eqb_spec c d) as [->|Hne]; [|exists r; split_and!; (done || lia)].
      replace (u8 (r + 1)) with (r + 1) by mlia. destruct (IH (r + 1)) as (r' & E & H1 & H2 & H3); [lia| |lia|exists r'; split_and!; (done || lia)].
      intros i Hi. destruct (decide (i = r)) as [->|]; [done|apply Hfull; lia].
    + exfalso. rewrite (all_full counts d) in Ht by (intros; apply Hfull; lia). lia.
Qed.

Lemma full_set (counts : list Z) i x d r : Z.of_nat (length counts) ≤ 16 → 0 ≤ i < Z.of_nat (length counts) → r ≤ i →
  (∀ j, 0 ≤ j < r → arr_get counts j = d) → ∀ j, 0 ≤ j < r → arr_get (arr_set counts i x) j = d.
Proof. intros Hl Hi Hri Hf j Hj. rewrite arr_get_set, decide_False by lia. by apply Hf. Qed.

Lemma add_dummies_spec R d : 0 ≤ R ≤ 16 → d ≤ 64 → ∀ fuel src dst b,
  built R d b → 0 ≤ src → 0 ≤ dst → (∀ i, 0 ≤ i < src → arr_get (src_rack_counts b) i = d) →
  (∀ i, 0 ≤ i < dst → arr_get (dst_rack_counts b) i = d) → d * R - num_edges b ≤ Z.of_nat fuel →
  ∃ b', add_dummies fuel d src dst b = Some b' ∧ built R d b' ∧ d * R ≤ num_edges b' ∧
    (∀ x y, 0 ≤ x < R → 0 ≤ y < R → between b x (R + y) ≤ between b' x (R + y)).
Proof.
  intros HR Hd. induction fuel as [|fuel IH]; intros src dst b Hb Hsrc Hdst Hfs Hfd Hfuel; cbn [add_dummies]; rewrite (bt_n _ _ _ Hb).
  { destruct (Z.ltb_spec (num_edges b) (d * R)); [lia|]. by exists b. }
  destruct (Z.ltb_spec (num_edges b) (d * R)) as [Hlt|Hge]; [|by exists b].
  pose proof (bt_src_len _ _ _ Hb) as Hsl. pose proof (bt_dst_len _ _ _ Hb) as Hdl.
  destruct (next_rack_spec (src_rack_counts b) d (bt_src_max _ _ _ Hb)) with (fuel := S (Z.to_nat MAX_RACKS)) (r := src)
    as (s1 & -> & Hs1 & Hfs1 & Hcs); try done; try (rewrite Hsl; change MAX_RACKS with 16; lia).
  { rewrite Hsl. by rewrite <- (bt_src_sum _ _ _ Hb). }
  destruct (next_rack_spec (dst_rack_counts b) d (bt_dst_max _ _ _ Hb)) with (fuel := S (Z.to_nat MAX_RACKS)) (r := dst)
    as (d1 & Ed1 & Hd1 & Hfd1 & Hcd); try done; try (rewrite Hdl; change MAX_RACKS with 16; lia).
  { rewrite Hdl. by rewrite <- (bt_dst_sum _ _ _ Hb). }
  cbn [mbind option_bind]. rewrite Ed1. cbn [mbind option_bind].
  destruct (add_rack_edge_spec R d b s1 d1 Hb HR Hd) as (b1 & -> & Hb1 & En & Es & Edd & Hbet); try lia. cbn [mbind option_bind].
  destruct (IH s1 d1 b1 Hb1) as (b' & E & Hb' & Hn & Hle); [lia|lia| | |lia|].
  - rewrite Es. apply full_set; (done || lia).
  - rewrite Edd. apply full_set; (done || lia).
  - exists b'. split_and!; [done..|]. intros x y Hx Hy. specialize (Hle x y Hx Hy). rewrite Hbet in Hle by done.
    destruct (bool_decide _); simpl in Hle; lia.
Qed.

(** ** The whole construction *)

(** The admitted traffic fits the racks and the degrees of the graph. *)
Record fits_racks (R : Z) (l : list (Z * Z)) : Prop := {
  fr_racks : 0 ≤ R ≤ 16;
  fr_edges : Forall (λ edge, 0 ≤ src_rack edge < R ∧ 0 ≤ dst_rack edge < R) l;
  fr_degree : ∀ r, 0 ≤ r < R → count_src l r ≤ 64 ∧ count_dst l r ≤ 64;
}.

Lemma rack_degree_range R l : fits_racks R l → 0 ≤ rack_degree R l ≤ 64.
Proof.
  intros [HR _ Hd]. destruct (fold_max_spec (count_src l) (count_dst l) (seqZ 0 R) 0) as (H1 & _ & H3).
  split; [exact H1|]. apply H3; [lia|]. intros i Hi%elem_of_seqZ. apply Hd. lia.
Qed.

Lemma built_weaken R d d' b : (∀ r, 0 ≤ r < R → arr_get (src_rack_counts b) r ≤ d' ∧ arr_get (dst_rack_counts b) r ≤ d') →
  built R d b → built R d' b.
Proof.
  intros Hc [? ? ? Hsl Hdl ? ? Hs Hd ? ?].
  assert (∀ l, Z.of_nat (length l) = R → Forall (λ c, 0 ≤ c ≤ d) l → (∀ r, 0 ≤ r < R → arr_get l r ≤ d') → Forall (λ c, 0 ≤ c ≤ d') l) as Hgen.
  { intros l Hl Hf Hle. apply Forall_lookup. intros i c Hi. pose proof (lookup_lt_Some _ _ _ Hi). pose proof (Forall_lookup_1 _ _ _ _ Hf Hi) as Hc0.
    specialize (Hle (Z.of_nat i) ltac:(lia)). unfold arr_get in Hle. rewrite Nat2Z.id, (list_lookup_total_correct _ _ _ Hi) in Hle. simpl in Hc0. lia. }
  constructor; try done; apply Hgen; try done; intros r Hr; by apply Hc.
Qed.

Lemma construct_graph_spec R l s e :
  fits_racks R l → n s = R → struct_ok s → words_ok e → (∀ x, 0 ≤ x < 2 * R → arr_get e x = 0) →
  ∃ s' e', construct_graph l s e = Some (s', e') ∧ graph_ok s' e' ∧ n s' = R ∧
    (∀ x, 0 ≤ x < 2 * R → deg e' x = round_up_degree (rack_degree R l)) ∧
    (∀ x y, 0 ≤ x < R → 0 ≤ y < R → count_pair l x y ≤ edges_between s' e' x (R + y)).
Proof.
  intros Hfit En Hs He H0. pose proof Hfit as [HR Hl Hd]. unfold construct_graph. rewrite En.
  set (b0 := {| structure := s; edges := e; src_rack_counts := _; dst_rack_counts := _; num_edges := 0 |}).
  assert (∀ r, 0 ≤ r < R → arr_get (replicate (Z.to_nat R) 0) r = 0) as Hz by (intros; apply lookup_total_replicate_2; lia).
  assert (built R 64 b0) as Hb0.
  { constructor; simpl; try done; try (rewrite length_replicate; lia); try (apply Forall_replicate; lia).
    - constructor; [done|]. intros x j Hx Hj Hon. unfold edge_on in Hon. by rewrite H0, Z.bits_0 in Hon by lia.
    - intros r Hr. unfold deg. by rewrite H0, Hz by lia.
    - intros r Hr. unfold deg. by rewrite H0, Hz by lia.
    - unfold total. clear. induction (Z.to_nat R); simpl; [done|lia].
    - unfold total. clear. induction (Z.to_nat R); simpl; [done|lia]. }
  destruct (add_admitted_spec R 64 l b0 Hb0 HR ltac:(done) Hl) as (b1 & -> & Hb1 & Hc1 & Hbet1).
  { intros r Hr. simpl. rewrite Hz by done. by apply Hd. }
  cbn [mbind option_bind].
  assert (find_max_degree R b1 = rack_degree R l) as ->.
  { apply fold_max_ext. intros i Hi%elem_of_seqZ. destruct (Hc1 i) as [-> ->]; [lia|]. simpl. rewrite !Hz by lia. lia. }
  pose proof (rack_degree_range R l Hfit) as Hrd. destruct (round_up_spec _ Hrd) as [Hup Hmod]. set (d := round_up_degree (rack_degree R l)) in *.
  replace (u8 d) with d by mlia.
  assert (built R d b1) as Hb1d.
  { apply (built_weaken R 64); [|done]. intros r Hr. destruct (Hc1 r Hr) as [-> ->]. simpl. rewrite !Hz by done.
    destruct (fold_max_spec (count_src l) (count_dst l) (seqZ 0 R) 0) as (_ & Hmax & _). fold (rack_degree R l) in Hmax.
    destruct (Hmax r); [apply elem_of_seqZ; lia|lia]. }
  destruct (add_dummies_spec R d HR ltac:(lia) (Z.to_nat (d * R)) 0 0 b1 Hb1d) as (b2 & -> & Hb2 & Hn2 & Hle2); try lia.
  { pose proof (bt_src_sum _ _ _ Hb1d) as Es. assert (0 ≤ total (src_rack_counts b1)); [|lia].
    pose proof (bt_src_max _ _ _ Hb1d) as Hf. clear -Hf. unfold total. induction Hf; simpl; lia. }
  cbn [mbind option_bind]. rewrite (graph_ok_consistent _ _ (bt_graph _ _ _ Hb2)). unfold guard.
  exists (structure b2), (edges b2). split; [done|]. split; [apply Hb2|]. split; [apply Hb2|]. split.
  - assert (∀ l, Z.of_nat (length l) = R → Forall (λ c, 0 ≤ c ≤ d) l → num_edges b2 = total l → ∀ r, 0 ≤ r < R → arr_get l r = d) as Hall.
    { intros t Hlt Hft Ht r Hr. assert (Forall (λ c, c ≤ d) t) as Hft' by (eapply Forall_impl; [exact Hft|simpl; lia]).
      pose proof (total_le t d Hft'). apply (arr_get_Forall (λ c, c = d)); [|lia]. apply total_max; [done|]. lia. }
    intros x Hx. destruct (decide (x < R)).
    + rewrite (bt_src _ _ _ Hb2) by lia. apply Hall; try apply Hb2. lia.
    + replace x with (R + (x - R)) by lia. rewrite (bt_dst _ _ _ Hb2) by lia. apply Hall; try apply Hb2. lia.
  - intros x y Hx Hy. specialize (Hle2 x y Hx Hy). rewrite Hbet1 in Hle2 by done. unfold between in Hle2.
    pose proof (edges_between_nonneg (structure b0) (edges b0) x (R + y)). lia.
Qed.
