(* ===== verification/PathAssign.v ===== *)
(** * Assigning paths to the admitted edges

    [racks_to_nodes_mapping] as a stack of indices per pair of racks ([stack]), what
    [map_racks_to_nodes] fills it with, and the invariant [assigned] of the
    assignment: every edge of the graph that is removed gives a path to one packet
    between its racks, if one is left, so the packets on a path are never more than
    the edges removed for it. *)

From S2P Require Import Prelude Platform Pacer Ring Lists Admission Graph GraphFacts PathSelection PathFacts.

Import Topology Graph PathSel.

(** ** Stacks *)
Definition stack (map : racks_to_nodes_mapping) (a b : Z) : list Z :=
  let rp := arr_get map (a * 16 + b) in take (Z.to_nat (size rp)) (admitted_indices rp).

Definition rp_ok (rp : racks_to_nodes) : Prop := length (admitted_indices rp) = 256%nat ∧ 0 ≤ size rp ≤ 256.
Definition map_ok (map : racks_to_nodes_mapping) : Prop := length map = 256%nat ∧ Forall rp_ok map.

Definition in_racks (a : Z) : Prop := 0 ≤ a < 16.

Lemma pair_index a b : in_racks a → in_racks b → get_rack_pair_index a b = Some (a * 16 + b).
Proof.
  unfold in_racks. intros Ha Hb. unfold get_rack_pair_index, guard. change MAX_RACKS with 16. by rewrite !(proj2 (Z.ltb_lt _ _)) by lia.
Qed.

Lemma map_at map a b : map_ok map → in_racks a → in_racks b → rp_ok (arr_get map (a * 16 + b)).
Proof. unfold in_racks. intros [Hl Hm] Ha Hb. apply (arr_get_Forall rp_ok); [done|rewrite Hl; lia]. Qed.

Lemma map_ok_set map a b rp : map_ok map → rp_ok rp → map_ok (arr_set map (a * 16 + b) rp).
Proof. intros [Hl Hm] Hr. split; [by rewrite length_arr_set|by apply arr_set_Forall]. Qed.

Lemma stack_set map a b rp x y : map_ok map → in_racks a → in_racks b → in_racks x → in_racks y →
  stack (arr_set map (a * 16 + b) rp) x y =
    if decide ((x, y) = (a, b)) then take (Z.to_nat (size rp)) (admitted_indices rp) else stack map x y.
Proof.
  unfold in_racks. intros [Hl _] Ha Hb Hx Hy. unfold stack. rewrite arr_get_set by (rewrite ?Hl; lia).
  destruct (decide ((x, y) = (a, b))) as [[= -> ->]|Hne]; [by rewrite decide_True|].
  rewrite decide_False; [done|]. intros E. apply Hne. f_equal; lia.
Qed.

Lemma length_stack map a b : map_ok map → in_racks a → in_racks b → Z.of_nat (length (stack map a b)) = size (arr_get map (a * 16 + b)).
Proof. intros Hm Ha Hb. destruct (map_at map a b Hm Ha Hb) as [Hl Hs]. unfold stack. rewrite length_take, Hl. lia. Qed.

(** ** Filling the stacks *)

(** The positions, from [i] on, of the edges between two racks. *)
Fixpoint indices (i : Z) (l : list (Z * Z)) (a b : Z) : list Z :=
  match l with
  | [] => []
  | edge :: l' => (if decide ((a, b) = (src_rack edge, dst_rack edge)) then [i] else []) ++ indices (i + 1) l' a b
  end.

Lemma count_pair_cons edge l a b : count_pair (edge :: l) a b = b2z (bool_decide ((a, b) = (src_rack edge, dst_rack edge))) + count_pair l a b.
Proof. done. Qed.

Lemma length_indices l a b : ∀ i, Z.of_nat (length (indices i l a b)) = count_pair l a b.
Proof.
  induction l as [|edge l IH]; intros i; [done|]. cbn [indices]. rewrite count_pair_cons, length_app, Nat2Z.inj_add, IH.
  case_decide as E; [rewrite bool_decide_eq_true_2 by done|rewrite bool_decide_eq_false_2 by done]; done.
Qed.

Lemma elem_of_indices l a b : ∀ i j, j ∈ indices i l a b ↔
  i ≤ j < i + Z.of_nat (length l) ∧ (a, b) = (src_rack (arr_get l (j - i)), dst_rack (arr_get l (j - i))).
Proof.
  induction l as [|edge l IH]; intros i j; cbn [indices length].
  { rewrite elem_of_nil. lia. }
  rewrite elem_of_app, IH. assert (j ∈ (if decide ((a, b) = (src_rack edge, dst_rack edge)) then [i] else []) ↔
    j = i ∧ (a, b) = (src_rack edge, dst_rack edge)) as ->.
  { case_decide; [rewrite list_elem_of_singleton|rewrite elem_of_nil]; split; [by intros ->|by intros [-> _]|done|by intros [_ ?]]. }
  destruct (decide (j = i)) as [->|Hne].
  - rewrite Z.sub_diag. change (arr_get (edge :: l) 0) with edge. split; [intros [[_ ?]|?]; [split; [lia|done]|lia]|intros [_ ?]; by left].
  - assert (i < j → arr_get (edge :: l) (j - i) = arr_get l (j - (i + 1))) as Eg.
    { intros Hj. unfold arr_get. replace (Z.to_nat (j - i)) with (S (Z.to_nat (j - (i + 1)))) by lia. done. }
    split.
    + intros [[? _]|[Hj E]]; [done|]. rewrite Eg by lia. split; [lia|done].
    + intros [Hj E]. right. rewrite Eg in E by lia. split; [lia|done].
Qed.

Lemma NoDup_indices l a b : ∀ i, NoDup (indices i l a b).
Proof.
  induction l as [|edge l IH]; intros i; simpl; [constructor|]. apply NoDup_app. split; [case_decide; repeat constructor; apply not_elem_of_nil|].
  split; [|apply IH]. intros j Hj [Hj' _]%elem_of_indices. case_decide; [apply list_elem_of_singleton in Hj; lia|by apply not_elem_of_nil in Hj].
Qed.

Lemma map_edges_spec l : ∀ i map, map_ok map → Forall (λ edge, in_racks (src_rack edge) ∧ in_racks (dst_rack edge)) l →
  (∀ a b, in_racks a → in_racks b → Z.of_nat (length (stack map a b)) + count_pair l a b ≤ 256) →
  ∃ map', map_edges i l map = Some map' ∧ map_ok map' ∧ ∀ a b, in_racks a → in_racks b → stack map' a b = stack map a b ++ indices i l a b.
Proof.
  induction l as [|edge l IH]; intros i map Hm Hl Hc; simpl.
  { exists map. split_and!; try done. intros. by rewrite app_nil_r. }
  apply Forall_cons in Hl as [[Ha Hb] Hl]. unfold map_edge. fold (src_rack edge) (dst_rack edge). rewrite pair_index by done. simpl.
  set (a := src_rack edge) in *. set (b := dst_rack edge) in *. destruct (map_at map a b Hm Ha Hb) as [Hlen Hsz].
  pose proof (length_stack map a b Hm Ha Hb) as Els. set (rp := arr_get map (a * 16 + b)) in *.
  assert (0 ≤ count_pair l a b) as Hc0 by (apply sum_of_nonneg; intros; by case_bool_decide).
  assert (size rp < 256) as Hlt.
  { specialize (Hc a b Ha Hb). rewrite count_pair_cons, bool_decide_eq_true_2 in Hc by done. simpl in Hc. lia. }
  unfold guard. rewrite (proj2 (Z.ltb_lt _ _)) by done. simpl. replace (u16 (size rp + 1)) with (size rp + 1) by mlia.
  set (rp' := {| size := size rp + 1; admitted_indices := arr_set (admitted_indices rp) (size rp) i |}).
  assert (rp_ok rp') as Hrp' by (split; simpl; [by rewrite length_arr_set|lia]).
  assert (∀ x y, in_racks x → in_racks y → stack (arr_set map (a * 16 + b) rp') x y =
    stack map x y ++ if decide ((x, y) = (a, b)) then [i] else []) as Hst.
  { intros x y Hx Hy. rewrite stack_set by done. case_decide as E; [|by rewrite app_nil_r]. injection E as -> ->. simpl. unfold stack. fold rp.
    unfold arr_set. replace (Z.to_nat (size rp + 1)) with (S (Z.to_nat (size rp))) by lia.
    rewrite take_S_r with (x := i); [by rewrite take_insert_ge by lia|]. apply list_lookup_insert_eq. lia. }
  destruct (IH (i + 1) (arr_set map (a * 16 + b) rp')) as (map' & -> & Hm' & Hst').
  - by apply map_ok_set.
  - done.
  - intros x y Hx Hy. rewrite Hst by done. specialize (Hc x y Hx Hy). rewrite count_pair_cons in Hc. fold a b in Hc.
    rewrite length_app. case_decide as E; [rewrite bool_decide_eq_true_2 in Hc by done|rewrite bool_decide_eq_false_2 in Hc by done]; simpl in *; lia.
  - exists map'. split; [done|]. split; [done|]. intros x y Hx Hy. rewrite Hst', Hst by done. by rewrite <- app_assoc.
Qed.

(** ** The invariant of the assignment *)

Definition edge_path (edge : Z * Z) : Z := Z.shiftr edge.2 PATH_SHIFT.
Definition with_path (p : Z) (edge : Z * Z) : Z * Z := (edge.1, edge.2 + p * 2 ^ 14).

(** Edge [i] has no path yet. *)
Definition waits (orig : list (Z * Z)) (map : racks_to_nodes_mapping) (i : Z) : bool :=
  bool_decide (i ∈ stack map (src_rack (arr_get orig i)) (dst_rack (arr_get orig i))).

Definition on_path (orig : list (Z * Z)) (map : racks_to_nodes_mapping) (admitted : list (Z * Z)) (p i : Z) : bool :=
  negb (waits orig map i) && (edge_path (arr_get admitted i) =? p).

(** The packets of rack [a] on path [p], by source and by destination. *)
Definition sent_on (orig : list (Z * Z)) map admitted (p a : Z) : Z :=
  sum_of (λ i, b2z (on_path orig map admitted p i && bool_decide (a = src_rack (arr_get orig i)))) (seqZ 0 (Z.of_nat (length orig))).
Definition received_on (orig : list (Z * Z)) map admitted (p b : Z) : Z :=
  sum_of (λ i, b2z (on_path orig map admitted p i && bool_decide (b = dst_rack (arr_get orig i)))) (seqZ 0 (Z.of_nat (length orig))).

(** [left]: the edges that remain between two racks; [load]: the edges that were
    removed for a path, per vertex of the graph. *)
Record assigned (R : Z) (orig : list (Z * Z)) (left load : Z → Z → Z) (map : racks_to_nodes_mapping) (admitted : list (Z * Z)) : Prop := {
  as_map : map_ok map;
  as_len : length admitted = length orig;
  as_left : ∀ a b, 0 ≤ a < R → 0 ≤ b < R → Z.of_nat (length (stack map a b)) ≤ left a b;
  as_nodup : ∀ a b, 0 ≤ a < R → 0 ≤ b < R → NoDup (stack map a b);
  as_stack : ∀ a b i, 0 ≤ a < R → 0 ≤ b < R → i ∈ stack map a b →
    0 ≤ i < Z.of_nat (length orig) ∧ (a, b) = (src_rack (arr_get orig i), dst_rack (arr_get orig i));
  as_edge : ∀ i, 0 ≤ i < Z.of_nat (length orig) →
    if waits orig map i then arr_get admitted i = arr_get orig i
    else ∃ p, 0 ≤ p < 4 ∧ arr_get admitted i = with_path p (arr_get orig i);
  as_src : ∀ p a, 0 ≤ p < 4 → 0 ≤ a < R → sent_on orig map admitted p a ≤ load p a;
  as_dst : ∀ p b, 0 ≤ p < 4 → 0 ≤ b < R → received_on orig map admitted p b ≤ load p (R + b);
}.

Lemma rack_node x : 0 ≤ fp_rack_from_node_id x < 16 → 0 ≤ x < 2 ^ 12.
Proof. unfold fp_rack_from_node_id. rewrite Z.shiftr_div_pow2 by (vm_compute; done). change (2 ^ TOR_SHIFT) with 256. zify_div. lia. Qed.

Lemma with_path_spec p edge : in_racks (dst_rack edge) → 0 ≤ p < 4 →
  (edge.1, u16 (Z.land edge.2 DST_MASK + Z.shiftl p PATH_SHIFT)) = with_path p edge ∧ edge_path (with_path p edge) = p.
Proof.
  intros Hd%rack_node Hp. unfold with_path, edge_path. change DST_MASK with (Z.ones 14). change PATH_SHIFT with 14. simpl.
  rewrite Z.land_ones, Z.shiftl_mul_pow2, Z.shiftr_div_pow2, (Z.mod_small edge.2) by lia. split; [f_equal; mlia|zify_div; lia].
Qed.

Section assign.
Context (R : Z) (orig : list (Z * Z)) (HR : 0 ≤ R ≤ 16).
Context (Horig : Forall (λ edge, 0 ≤ src_rack edge < R ∧ 0 ≤ dst_rack edge < R) orig).

Lemma orig_racks i : 0 ≤ i < Z.of_nat (length orig) → 0 ≤ src_rack (arr_get orig i) < R ∧ 0 ≤ dst_rack (arr_get orig i) < R.
Proof using Horig. intros Hi. by apply (arr_get_Forall (λ edge, 0 ≤ src_rack edge < R ∧ 0 ≤ dst_rack edge < R)). Qed.

Lemma assigned_weaken left left' load load' map admitted :
  (∀ a b, 0 ≤ a < R → 0 ≤ b < R → Z.of_nat (length (stack map a b)) ≤ left a b → Z.of_nat (length (stack map a b)) ≤ left' a b) →
  (∀ p x, 0 ≤ p < 4 → 0 ≤ x < 2 * R → load p x ≤ load' p x) →
  assigned R orig left load map admitted → assigned R orig left' load' map admitted.
Proof using HR.
  intros Hl Hp [? ? H1 ? ? ? Hs Hd]. constructor; try done.
  - intros a b Ha Hb. apply Hl; auto.
  - intros p a Hpr Ha. specialize (Hs p a Hpr Ha). specialize (Hp p a Hpr ltac:(lia)). lia.
  - intros p b Hpr Hb. specialize (Hd p b Hpr Hb). specialize (Hp p (R + b) Hpr ltac:(lia)). lia.
Qed.

(** The top of a non-empty stack is taken off and gets path [p]. *)
Lemma assign_top left load map admitted a b p top rest :
  assigned R orig left load map admitted → 0 ≤ a < R → 0 ≤ b < R → 0 ≤ p < 4 → stack map a b = rest ++ [top] →
  let rp := arr_get map (a * 16 + b) in
  let map' := arr_set map (a * 16 + b) {| size := size rp - 1; admitted_indices := admitted_indices rp |} in
  let admitted' := arr_set admitted top (with_path p (arr_get orig top)) in
  assigned R orig (λ x y, left x y - b2z (bool_decide ((x, y) = (a, b))))
    (λ q x, load q x + if q =? p then ends a (R + b) x else 0) map' admitted'.
Proof using HR Horig.
  intros [Hm Hlen Hl Hnd Hst He Hs Hd] Ha Hb Hp Etop rp map' admitted'.
  destruct (map_at map a b Hm) as [Hrl Hrs]; [unfold in_racks; lia..|]. fold rp in Hrl, Hrs.
  assert (Z.of_nat (length (stack map a b)) = size rp) as Els by (apply length_stack; unfold in_racks; (done || lia)).
  rewrite Etop, length_app in Els. simpl in Els.
  destruct (Hst a b top Ha Hb) as [Htop Er]; [rewrite Etop; apply elem_of_app; right; by left|]. apply pair_equal_spec in Er as [Era Erb].
  assert (∀ x y, 0 ≤ x < R → 0 ≤ y < R → stack map' x y = if decide ((x, y) = (a, b)) then rest else stack map x y) as Hst'.
  { intros x y Hx Hy. unfold map'. rewrite stack_set by (unfold in_racks; (done || lia)). case_decide as E; [|done]. simpl.
    assert (stack map a b = take (Z.to_nat (size rp)) (admitted_indices rp)) as Es by done. rewrite Etop in Es.
    replace (Z.to_nat (size rp - 1)) with (length rest) by lia.
    transitivity (take (length rest) (take (Z.to_nat (size rp)) (admitted_indices rp))); [by rewrite take_take, Nat.min_l by lia|].
    rewrite <- Es. apply take_app_length. }
  assert (∀ i, i ≠ top → waits orig map' i = waits orig map i ∨ ¬ (0 ≤ i < Z.of_nat (length orig))) as Hw.
  { intros i Hi. destruct (decide (0 ≤ i < Z.of_nat (length orig))) as [Hr|]; [left|by right]. destruct (orig_racks i Hr).
    unfold waits. apply bool_decide_ext. rewrite Hst' by done. case_decide as E; [|done]. apply pair_equal_spec in E as [Ea Eb]. rewrite Ea, Eb, Etop.
    rewrite elem_of_app, list_elem_of_singleton. naive_solver. }
  pose proof (Hnd a b Ha Hb) as Hnd0. rewrite Etop in Hnd0. apply NoDup_app in Hnd0 as (Hndr & Hnin & _).
  assert (waits orig map top = true) as Hwt.
  { unfold waits. rewrite <- Era, <- Erb, Etop. apply bool_decide_eq_true_2, elem_of_app. right. by left. }
  assert (waits orig map' top = false) as Hwt'.
  { unfold waits. rewrite <- Era, <- Erb, Hst' by done. rewrite decide_True by done. apply bool_decide_eq_false_2.
    intros Hin. apply (Hnin top Hin). by left. }
  assert (∀ i, 0 ≤ i → arr_get admitted' i = if decide (top = i) then with_path p (arr_get orig top) else arr_get admitted i) as Hadm.
  { intros i Hi. apply arr_get_set; [rewrite Hlen|]; lia. }
  destruct (with_path_spec p (arr_get orig top)) as [_ Hpath]; [rewrite <- Erb; unfold in_racks; lia|done|].
  assert (∀ q c (f : Z → Z), 0 ≤ q < 4 →
    sum_of (λ i, b2z (on_path orig map' admitted' q i && bool_decide (c = f i))) (seqZ 0 (Z.of_nat (length orig))) =
    sum_of (λ i, b2z (on_path orig map admitted q i && bool_decide (c = f i))) (seqZ 0 (Z.of_nat (length orig))) +
    b2z ((q =? p) && bool_decide (c = f top))) as Hsum.
  { intros q c f Hq. rewrite (sum_of_change_in (λ i, b2z (on_path orig map admitted q i && bool_decide (c = f i))) _ top).
    - unfold on_path. rewrite Hwt, Hwt', Hadm, decide_True, Hpath by (done || lia). rewrite (Z.eqb_sym p q). simpl. lia.
    - apply NoDup_seqZ.
    - apply elem_of_seqZ. lia.
    - intros i Hi%elem_of_seqZ Hne. destruct (Hw i Hne) as [E|?]; [|lia]. unfold on_path. by rewrite E, Hadm, decide_False by (done || lia). }
  constructor.
  - apply map_ok_set; [done|]. split; simpl; [done|lia].
  - unfold admitted'. by rewrite length_arr_set.
  - intros x y Hx Hy. rewrite Hst' by done. specialize (Hl x y Hx Hy). case_decide as E.
    + injection E as -> ->. rewrite bool_decide_eq_true_2 by done. rewrite Etop, length_app in Hl. simpl in *. lia.
    + rewrite bool_decide_eq_false_2 by done. simpl. lia.
  - intros x y Hx Hy. rewrite Hst' by done. case_decide; [done|by apply Hnd].
  - intros x y i Hx Hy. rewrite Hst' by done. case_decide as E; [|by apply Hst]. injection E as -> ->. intros Hi. apply Hst; [done..|].
    rewrite Etop. apply elem_of_app. by left.
  - intros i Hi. rewrite Hadm by lia. destruct (decide (top = i)) as [<-|Hne]; [rewrite Hwt'; by exists p|].
    destruct (Hw i) as [->|?]; [congruence|by apply He|lia].
  - intros q x Hq Hx. unfold sent_on. rewrite (Hsum q x (λ i, src_rack (arr_get orig i)) Hq). specialize (Hs q x Hq Hx). unfold sent_on in Hs.
    rewrite <- Era. unfold ends. rewrite (bool_decide_eq_false_2 (x = R + b)) by lia. destruct (q =? p); cbn [andb b2z]; lia.
  - intros q x Hq Hx. unfold received_on. rewrite (Hsum q x (λ i, dst_rack (arr_get orig i)) Hq). specialize (Hd q x Hq Hx). unfold received_on in Hd.
    rewrite <- Erb. unfold ends. rewrite (bool_decide_eq_false_2 (R + x = a)), (bool_decide_ext (R + x = R + b) (x = b)) by lia.
    destruct (q =? p); cbn [andb b2z]; lia.
Qed.

Lemma assign_to_path_spec left load map admitted a b p :
  assigned R orig left load map admitted → 0 ≤ a < R → 0 ≤ b < R → 0 ≤ p < 4 → 0 < left a b →
  ∃ map' admitted', assign_to_path map admitted a b p = Some (map', admitted') ∧
    assigned R orig (λ x y, left x y - b2z (bool_decide ((x, y) = (a, b))))
      (λ q x, load q x + if q =? p then ends a (R + b) x else 0) map' admitted'.
Proof using HR Horig.
  intros Has Ha Hb Hp Hleft. pose proof Has as [Hm Hlen Hl _ Hst He _ _].
  pose proof (length_stack map a b Hm) as Els. destruct (map_at map a b Hm) as [Hrl Hrs]; [unfold in_racks; lia..|].
  unfold assign_to_path. rewrite pair_index by (unfold in_racks; lia). cbn [mbind option_bind]. unfold guard at 1.
  rewrite (proj2 (Z.ltb_lt p NUM_PATHS)) by (change NUM_PATHS with 4; lia). rewrite Z.gtb_ltb.
  destruct (Z.ltb_spec 0 (size (arr_get map (a * 16 + b)))) as [Hsz|Hsz].
  - destruct (stack map a b) as [|top rest _] eqn:Es using rev_ind; [specialize (Els ltac:(unfold in_racks; lia) ltac:(unfold in_racks; lia)); simpl in Els; lia|].
    destruct (Hst a b top Ha Hb) as [Htop Er]; [rewrite Es; apply elem_of_app; right; by left|].
    assert (arr_get (admitted_indices (arr_get map (a * 16 + b))) (size (arr_get map (a * 16 + b)) - 1) = top) as Etop.
    { specialize (Els ltac:(unfold in_racks; lia) ltac:(unfold in_racks; lia)). rewrite length_app in Els. simpl in Els.
      apply list_lookup_total_correct. unfold stack in Es. rewrite <- (lookup_take_lt _ (Z.to_nat (size (arr_get map (a * 16 + b))))), Es by lia.
      rewrite lookup_app_r by lia. by replace (_ - _)%nat with 0%nat by lia. }
    rewrite Etop, Hlen. unfold guard. rewrite (proj2 (Z.ltb_lt _ _)) by lia.
    assert (arr_get admitted top = arr_get orig top) as Eg.
    { specialize (He top Htop). apply pair_equal_spec in Er as [Era Erb]. unfold waits in He. rewrite <- Era, <- Erb, Es, bool_decide_eq_true_2 in He; [done|].
      apply elem_of_app. right. by left. }
    rewrite Eg. destruct (with_path_spec p (arr_get orig top)) as [-> _]; [apply pair_equal_spec in Er as [Era Erb]; rewrite <- Erb; unfold in_racks; lia|done|].
    eexists _, _. split; [done|]. by apply (assign_top _ _ _ _ a b p top rest).
  - exists map, admitted. split; [done|]. revert Has. apply assigned_weaken.
    + intros x y Hx Hy Hxy. case_bool_decide as E; simpl; [|lia]. injection E as -> ->.
      specialize (Els ltac:(unfold in_racks; lia) ltac:(unfold in_racks; lia)). lia.
    + intros q x Hq Hx. destruct (q =? p); unfold ends; repeat case_bool_decide; simpl; lia.
Qed.
End assign.

(** ** The walks of path selection

    [split_and_populate_paths] walks through a graph like the Euler split [split_walk],
    but gives paths to packets instead of adding the edges to graphs. Next to each of
    its walks runs an Euler split on ghost graphs that hold the edges removed for
    either path, which shows that both paths get half the edges of every rack. *)
(** ** One edge *)
Lemma split_edge_removed s e g u v e1 g' :
  graph_ok s e → graph_ok s g → 0 ≤ n s ≤ 64 → 0 ≤ u < 2 * n s →
  (∀ x i, 0 ≤ x < 2 * n s → 0 ≤ i < 64 → edge_on e x i = true → edge_on g x i = false) →
  split_edge s e g u = Some (v, e1, g') →
  remove_edge_to_neighbor s e u = Some (v, e1) ∧ graph_ok s e1 ∧ 0 ≤ v < 2 * n s ∧ (u < n s ↔ n s ≤ v) ∧
  (∀ x i, 0 ≤ x < 2 * n s → 0 ≤ i < 64 → edge_on e1 x i = true → edge_on e x i = true) ∧
  (∀ x, 0 ≤ x → deg g' x = deg g x + ends u v x) ∧
  (∀ a b, 0 ≤ a < n s → edges_between s e1 a b = edges_between s e a b - b2z (bool_decide ((a, b) = left_first s u v))).
Proof.
  intros He Hg Hn Hu Hoff E.
  assert (arr_get e u ≠ 0) as Hne.
  { intros Ez. unfold split_edge, take_edge, guard in E. rewrite Ez in E. change (0 =? 0) with true in E. by rewrite andb_false_r in E. }
  destruct (take_edge_spec s e u He Hn Hu Hne) as (v' & j & k & Et & Hv & Hj & Hk & Huv & Eu & Ev & On1 & On2).
  destruct (split_edge_spec s e g u He Hg Hn Hu Hne Hoff) as (v2 & e2 & g2 & E2 & He1 & _ & _ & _ & Hsub & Hdeg).
  rewrite E in E2. injection E2 as <- <- <-.
  unfold split_edge in E. rewrite Et in E. cbn [mbind option_bind] in E. injection E as <- <- <-.
  split; [unfold remove_edge_to_neighbor; by rewrite Et|]. split; [done|]. split; [done|]. split; [done|].
  split; [intros x i Hx Hi; by apply Hsub|]. split; [intros x Hx; by apply Hdeg|].
  intros a b Ha. apply between_without; try done. apply He.
Qed.

Section walks.
Context (R : Z) (orig : list (Z * Z)) (HR : 0 ≤ R ≤ 16).
Context (Horig : Forall (λ edge, 0 ≤ src_rack edge < R ∧ 0 ≤ dst_rack edge < R) orig).
Context (s : graph_structure) (En : n s = R).
Context (rest : Z → Z → Z) (Hrest : ∀ a b, 0 ≤ rest a b).

(** The edges that remain: those of [e], and others. *)
Definition remaining (e : graph_edges) (a b : Z) : Z := edges_between s e a (R + b) + rest a b.
Definition put (p : Z) (g : graph_edges) (load : Z → Z → Z) (q x : Z) : Z := if q =? p then deg g x else load q x.

Lemma half_round p e g u v e1 g' load map admitted :
  graph_ok s e → graph_ok s g → 0 ≤ u < 2 * R → 0 ≤ p < 4 →
  (∀ x i, 0 ≤ x < 2 * R → 0 ≤ i < 64 → edge_on e x i = true → edge_on g x i = false) →
  split_edge s e g u = Some (v, e1, g') →
  assigned R orig (remaining e) (put p g load) map admitted →
  ∃ map' admitted', remove_edge_to_neighbor s e u = Some (v, e1) ∧
    assign_to_path map admitted (left_first s u v).1 ((left_first s u v).2 - R) p = Some (map', admitted') ∧
    assigned R orig (remaining e1) (put p g' load) map' admitted' ∧
    graph_ok s e1 ∧ 0 ≤ v < 2 * R ∧ (u < R ↔ R ≤ v) ∧
    (∀ x i, 0 ≤ x < 2 * R → 0 ≤ i < 64 → edge_on e1 x i = true → edge_on e x i = true).
Proof using All.
  intros He Hg Hu Hp Hoff E Has.
  destruct (split_edge_removed s e g u v e1 g' He Hg ltac:(lia) ltac:(lia) ltac:(by rewrite En) E) as (Er & He1 & Hv & Huv & Hsub & Hdeg & Hbet).
  rewrite En in *. assert (0 ≤ (left_first s u v).1 < R ∧ R ≤ (left_first s u v).2 < 2 * R) as [Ha Hb].
  { unfold left_first. rewrite En. case_decide; simpl; lia. }
  set (a := (left_first s u v).1) in *. set (b := (left_first s u v).2) in *.
  assert (left_first s u v = (a, b)) as Elf by (by destruct (left_first s u v)).
  assert (∀ x, ends a b x = ends u v x) as Hends.
  { intros x. unfold a, b, left_first, ends. case_decide; simpl; lia. }
  destruct (assign_to_path_spec R orig HR Horig _ _ map admitted a (b - R) p Has Ha) as (map' & admitted' & Ea & Has'); [lia|done| |].
  { unfold remaining. replace (R + (b - R)) with b by lia. specialize (Hbet a b Ha). rewrite bool_decide_eq_true_2 in Hbet by done.
    pose proof (edges_between_nonneg s e1 a b). specialize (Hrest a (b - R)). simpl in Hbet. lia. }
  exists map', admitted'. split_and!; try done; try lia. revert Has'. apply assigned_weaken; [done| |].
  - intros x y Hx Hy. unfold remaining. rewrite Hbet, Elf by done.
    rewrite (bool_decide_ext ((x, R + y) = (a, b)) ((x, y) = (a, b - R))); [lia|]. split; intros [=]; f_equal; lia.
  - intros q x Hq Hx. unfold put. destruct (q =? p); [|lia]. replace (R + (b - R)) with b by lia. rewrite Hends, Hdeg by lia. lia.
Qed.

(** ** A walk *)
Context (p0 p1 : Z) (Hp0 : 0 ≤ p0 < 4) (Hp1 : 0 ≤ p1 < 4) (Hp : p0 ≠ p1) (load : Z → Z → Z).
Context (d : graph_edges) (Heven : ∀ x, 0 ≤ x < 2 * n s → Z.Even (deg d x)).

(** The state of the assignment when [g0] and [g1] hold the edges removed for the two paths. *)
Definition populating (e g0 g1 : graph_edges) (map : racks_to_nodes_mapping) (admitted : list (Z * Z)) : Prop :=
  assigned R orig (remaining e) (put p0 g0 (put p1 g1 load)) map admitted.

Lemma put_swap e g0 g1 map admitted : populating e g0 g1 map admitted ↔ assigned R orig (remaining e) (put p1 g1 (put p0 g0 load)) map admitted.
Proof using HR Hp.
  split; apply assigned_weaken; try done; intros q x _ _; unfold put; repeat case_match; lia.
Qed.

Lemma populate_walk_spec node : ∀ fuel cur e g0 g1 e' g0' g1' map admitted,
  walk s d node cur (e, g0, g1) → split_walk fuel s node cur (e, g0, g1) = Some (e', g0', g1') →
  populating e g0 g1 map admitted →
  ∃ map' admitted', populate_walk fuel s p0 p1 node cur (e, map, admitted) = Some (e', map', admitted') ∧ populating e' g0' g1' map' admitted'.
Proof using All.
  induction fuel as [|fuel IH]; intros cur e g0 g1 e' g0' g1' map admitted W E Has; cbn [split_walk populate_walk] in *;
    (destruct (has_neighbor e node) eqn:Hnb; [|injection E as <- <- <-; by exists map, admitted]); [done|].
  destruct (walk_round s d ltac:(lia) Heven _ _ _ _ _ W Hnb) as (v & e1 & f0 & u & e2 & f1 & E1 & C1 & E2 & C2 & W' & _).
  rewrite E1 in E. cbn [mbind option_bind] in E. unfold guard in E. rewrite C1, E2 in E. cbn [mbind option_bind] in E. rewrite C2 in E.
  pose proof (shared_off s d _ (wa_shared _ _ _ _ _ W)) as Hoff. simpl in Hoff. pose proof (wa_cur _ _ _ _ _ W) as Hcur. rewrite En in *.
  apply andb_true_iff in C1 as [C1 _], C2 as [C2 _].
  destruct (half_round p0 e g0 cur v e1 f0 (put p1 g1 load) map admitted) as (m1 & a1 & R1 & A1 & Has1 & G1 & Hv & Hside & Hsub); try done;
    [apply W|apply W|lia|intros; by apply Hoff|].
  apply (put_swap e1 f0 g1 m1 a1) in Has1.
  destruct (half_round p1 e1 g1 v u e2 f1 (put p0 f0 load) m1 a1) as (m2 & a2 & R2 & A2 & Has2 & _ & Hu & Hside2 & _); try done;
    [apply W|intros x i Hx Hi Hon; apply Hoff; [done..|by apply Hsub]|].
  apply (put_swap e2 f0 f1 m2 a2) in Has2.
  rewrite R1. cbn [mbind option_bind]. unfold left_first in A1, A2. rewrite En in *. rewrite decide_True in A1 by lia. rewrite decide_False in A2 by lia.
  replace (u8 (v - R)) with (v - R) by mlia. simpl in A1, A2. rewrite A1. cbn [mbind option_bind]. unfold guard. rewrite C1, R2.
  cbn [mbind option_bind]. rewrite A2. cbn [mbind option_bind]. rewrite C2. by eapply IH.
Qed.

Lemma populate_nodes_spec fuel : 64 * 64 ≤ Z.of_nat fuel → ∀ l e g0 g1 e' g0' g1' map admitted,
  Forall (λ x, 0 ≤ x < n s) l → balanced_at s d (e, g0, g1) → split_nodes fuel l s (e, g0, g1) = Some (e', g0', g1') →
  populating e g0 g1 map admitted →
  ∃ map' admitted', populate_nodes fuel l s p0 p1 (e, map, admitted) = Some (e', map', admitted') ∧ populating e' g0' g1' map' admitted'.
Proof using All.
  intros Hfuel. induction l as [|node l IH]; intros e g0 g1 e' g0' g1' map admitted Hl Hb E Has; cbn [split_nodes populate_nodes] in *.
  { injection E as <- <- <-. by exists map, admitted. }
  apply Forall_cons in Hl as [Hnode Hl]. destruct Hb as (G1 & G2 & G3 & Hsh & Hd).
  assert (walk s d node node (e, g0, g1)) as W.
  { constructor; try done. intros x Hx. specialize (Hd x Hx). lia. }
  destruct (split_walk_spec s d ltac:(lia) Heven node fuel node _ W) as ([[e1 f0] f1] & E1 & W1 & _ & _);
    [pose proof (left_edges_bound s ltac:(lia) e); simpl; lia|].
  rewrite E1 in E. cbn [mbind option_bind] in E.
  destruct (populate_walk_spec node fuel node _ _ _ _ _ _ map admitted W E1 Has) as (m1 & a1 & -> & Has1). cbn [mbind option_bind].
  apply (IH e1 f0 f1); try done. destruct W1 as [? ? ? ? Hd1 _ _]. split_and!; try done. intros x Hx. specialize (Hd1 x Hx). lia.
Qed.
End walks.

(** ** The whole function *)
Definition zeros : graph_edges := replicate 128 0.

Lemma zeros_ok : words_ok zeros ∧ ∀ x, 0 ≤ x < 128 → arr_get zeros x = 0.
Proof.
  split; [constructor; [done|by apply Forall_replicate]|]. intros x Hx. unfold arr_get, zeros. rewrite lookup_total_replicate_2; [done|lia].
Qed.

Lemma between_empty s e a b : (∀ i, 0 ≤ i < 64 → edge_on e a i = false) → edges_between s e a b = 0.
Proof.
  intros He. unfold edges_between. rewrite (sum_of_ext_in _ (λ _, 0)); [apply sum_of_zero|]. intros i Hi%elem_of_seqZ.
  unfold slot_to. by rewrite He by lia.
Qed.

Lemma split_and_populate_spec R orig s e rest load map admitted p0 p1 :
  0 ≤ R ≤ 16 → Forall (λ edge, 0 ≤ src_rack edge < R ∧ 0 ≤ dst_rack edge < R) orig → n s = R → (∀ a b, 0 ≤ rest a b) →
  0 ≤ p0 < 4 → 0 ≤ p1 < 4 → p0 ≠ p1 → graph_ok s e → (∀ x, 0 ≤ x < 2 * R → Z.Even (deg e x)) →
  assigned R orig (remaining R s rest e) load map admitted → (∀ x, load p0 x = 0 ∧ load p1 x = 0) →
  ∃ e' map' admitted', split_and_populate_paths s e map admitted p0 p1 = Some (e', map', admitted') ∧
    assigned R orig rest (λ q x, if (q =? p0) || (q =? p1) then deg e x / 2 else load q x) map' admitted'.
Proof.
  intros HR Ho En Hrest Hp0 Hp1 Hp He Heven Has Hload. destruct zeros_ok as [Hz Hz0].
  destruct (split_spec s e zeros zeros He) as (e' & f1 & f2 & E & _ & _ & Hdeg & _); rewrite ?En; try done; try lia.
  { intros x Hx. by rewrite Hz0 by lia. }
  assert (∀ f, words_ok f → (∀ x, 0 ≤ x < 2 * n s → arr_get f x = 0) → graph_ok s f) as Hempty.
  { intros f Hf Hf0. constructor; [done|]. intros x i Hx Hi. unfold edge_on at 1. rewrite Hf0 by done. by rewrite Z.bits_0. }
  assert (∀ x, 0 ≤ x < 128 → deg zeros x = 0) as Hdz by (intros x Hx; unfold deg; by rewrite Hz0).
  destruct (populate_nodes_spec R orig HR Ho s En rest Hrest p0 p1 Hp0 Hp1 Hp load e ltac:(by rewrite En) split_fuel ltac:(vm_compute; done)
    (seqZ 0 (n s)) e zeros zeros e' f1 f2 map admitted) as (map' & admitted' & Ep & Has').
  - apply Forall_forall. intros x Hx%elem_of_seqZ. lia.
  - split_and!; simpl; try done; try (apply Hempty; [done|]; intros x Hx; apply Hz0; lia).
    intros x i Hx Hi. simpl. unfold edge_on at 2 3. rewrite Hz0, Z.bits_0 by lia. simpl. lia.
  - done.
  - revert Has. apply assigned_weaken; [done|done|]. intros q x Hq Hx. unfold put. rewrite !Hdz by lia. destruct (Hload x).
    destruct (Z.eqb_spec q p0), (Z.eqb_spec q p1); subst; lia.
  - unfold split_and_populate_paths, guard. rewrite !(proj2 (Z.ltb_lt _ NUM_PATHS)) by (change NUM_PATHS with 4; lia). cbn [andb].
    exists e', map', admitted'. split; [done|]. revert Has'. apply assigned_weaken; [done| |].
    + intros a b Ha Hb. unfold remaining. rewrite between_empty; [lia|]. intros i Hi. unfold edge_on.
      destruct (Hdeg a) as (-> & _); [lia|]. by rewrite Z.bits_0.
    + intros q x Hq Hx. unfold put. destruct (Hdeg x) as (_ & -> & ->); [lia|]. destruct (q =? p0), (q =? p1); simpl; lia.
Qed.
