(* ===== verification/PathSpec.v ===== *)
(** * Specification of path selection

    When the packets of a timeslot are balanced over the paths ([balanced]), the
    result of [select_paths], and what [paths_are_valid] decides. *)

From S2P Require Import Prelude Platform Lists Pacer Ring Admission Graph GraphFacts PathSelection PathFacts PathAssign.
Import Topology Graph PathSel.

(** ** Specification *)

(** What the code reads of an edge with a path. *)
Definition path_of (edge : Z * Z) : Z := u8 (Z.shiftr (Z.land edge.2 PATH_MASK) PATH_SHIFT).
Definition node_of (edge : Z * Z) : Z := Z.land edge.2 DST_MASK.

Definition sends_on (l : list (Z * Z)) (a p : Z) : Z :=
  sum_of (λ e, b2z (bool_decide (src_rack e = a ∧ path_of e = p))) l.
Definition receives_on (l : list (Z * Z)) (b p : Z) : Z :=
  sum_of (λ e, b2z (bool_decide (fp_rack_from_node_id (node_of e) = b ∧ path_of e = p))) l.

Lemma sends_on_cons e l a p : sends_on (e :: l) a p = b2z (bool_decide (src_rack e = a ∧ path_of e = p)) + sends_on l a p.
Proof. done. Qed.
Lemma receives_on_cons e l b p :
  receives_on (e :: l) b p = b2z (bool_decide (fp_rack_from_node_id (node_of e) = b ∧ path_of e = p)) + receives_on l b p.
Proof. done. Qed.

(** The traffic without its paths. *)
Definition without_paths (l : list (Z * Z)) : list (Z * Z) := (λ e, (e.1, node_of e)) <$> l.

(** No rack sends or receives more packets on a path than its share of the largest
    degree of a rack, rounded up to a multiple of the number of paths. *)
Definition balanced (R : Z) (l : list (Z * Z)) : Prop :=
  let share := round_up_degree (rack_degree R (without_paths l)) / NUM_PATHS in
  ∀ a p, 0 ≤ a < R → 0 ≤ p < NUM_PATHS → sends_on l a p ≤ share ∧ receives_on l a p ≤ share.

(** ** Edges with paths *)
Lemma path_node_with p edge : in_racks (dst_rack edge) → 0 ≤ p < 4 →
  path_of (with_path p edge) = p ∧ node_of (with_path p edge) = edge.2.
Proof.
  intros Hd%rack_node Hp. unfold path_of, node_of, with_path. simpl. split.
  - rewrite Z.shiftr_land. change (Z.shiftr PATH_MASK PATH_SHIFT) with (Z.ones 2). change PATH_SHIFT with 14.
    rewrite Z.land_ones, Z.shiftr_div_pow2 by lia. replace ((edge.2 + p * 2 ^ 14) / 2 ^ 14) with p by (zify_div; lia). mlia.
  - change DST_MASK with (Z.ones 14). rewrite Z.land_ones by lia. rewrite Z.mod_add, Z.mod_small by lia. done.
Qed.

Lemma sum_of_index {X} `{!Inhabited X} (g : X → Z) (l : list X) : sum_of g l = sum_of (λ i, g (arr_get l i)) (seqZ 0 (Z.of_nat (length l))).
Proof.
  induction l as [|x l IH] using rev_ind; [done|]. rewrite length_app, Nat2Z.inj_add, seqZ_app, !sum_of_app, IH by (simpl; lia).
  f_equal.
  - apply sum_of_ext_in. intros i Hi%elem_of_seqZ. unfold arr_get. by rewrite lookup_total_app_l by lia.
  - rewrite Z.add_0_l. assert (seqZ (Z.of_nat (length l)) (Z.of_nat (length [x])) = [Z.of_nat (length l)]) as -> by (unfold seqZ; simpl; f_equal; lia).
    simpl sum_of. unfold arr_get. rewrite Nat2Z.id, lookup_total_app_r, Nat.sub_diag by lia. done.
Qed.

(** ** The result of [select_paths] *)

(** The shapes of the local variables. *)
Record locals_ok (l : path_locals) : Prop := {
  lk_map : length (l_map l) = 256%nat ∧ Forall (λ rp, length (admitted_indices rp) = 256%nat) (l_map l);
  lk_structure : struct_ok (l_structure l);
  lk_edges : length (l_edges l) = 3%nat ∧ Forall words_ok (l_edges l);
}.

Lemma init_map_ok l : locals_ok l →
  map_ok (init_racks_to_nodes_mapping (l_map l)) ∧
  ∀ a b, in_racks a → in_racks b → stack (init_racks_to_nodes_mapping (l_map l)) a b = [].
Proof.
  intros [[Hl Hf] _ _].
  assert (Forall (λ rp, rp_ok rp ∧ size rp = 0) (init_racks_to_nodes_mapping (l_map l))) as Hall.
  { apply Forall_fmap. eapply Forall_impl; [exact Hf|]. intros rp Hrp. split; [|done]. split; simpl; [done|lia]. }
  assert (length (init_racks_to_nodes_mapping (l_map l)) = 256%nat) as Hlen by (unfold init_racks_to_nodes_mapping; by rewrite length_fmap).
  split; [split; [done|by eapply Forall_impl; [exact Hall|intros ? []]]|]. intros a b Ha Hb. unfold stack.
  pose proof (arr_get_Forall (λ rp, rp_ok rp ∧ size rp = 0) _ (a * 16 + b) Hall) as [_ ->]; [rewrite Hlen; unfold in_racks in *; lia|done].
Qed.

Lemma count_pair_le l a b : count_pair l a b ≤ count_src l a.
Proof.
  unfold count_pair, count_src. induction l as [|e l IH]; simpl; [done|]. case_bool_decide as E.
  - injection E as -> ->. rewrite bool_decide_eq_true_2 by done. lia.
  - case_bool_decide; simpl; lia.
Qed.

Lemma fits_in_racks R l : fits_racks R l → Forall (λ e, in_racks (src_rack e) ∧ in_racks (dst_rack e)) l.
Proof. intros [HR Hl _]. eapply Forall_impl; [exact Hl|]. unfold in_racks. simpl. lia. Qed.

(** The assignment before the first walk. *)
Lemma assigned_init R l map : fits_racks R l → map_ok map →
  (∀ a b, in_racks a → in_racks b → stack map a b = indices 0 l a b) →
  assigned R l (count_pair l) (λ _ _, 0) map l.
Proof.
  intros Hfit Hm Hst. pose proof Hfit as [HR _ _]. pose proof (fits_in_racks R l Hfit) as Hin.
  assert (∀ i, 0 ≤ i < Z.of_nat (length l) → waits l map i = true) as Hw.
  { intros i Hi. pose proof (arr_get_Forall _ l i Hin Hi) as [? ?]. unfold waits. apply bool_decide_eq_true_2. rewrite Hst by done.
    apply elem_of_indices. rewrite Z.sub_0_r. split; [lia|done]. }
  constructor.
  - done.
  - done.
  - intros a b Ha Hb. rewrite Hst, length_indices by (unfold in_racks; lia). done.
  - intros a b Ha Hb. rewrite Hst by (unfold in_racks; lia). apply NoDup_indices.
  - intros a b i Ha Hb. rewrite Hst by (unfold in_racks; lia). rewrite elem_of_indices, Z.sub_0_r. intros [? ?]. split; [lia|done].
  - intros i Hi. by rewrite Hw.
  - intros p a _ _. unfold sent_on. rewrite (sum_of_ext_in _ (λ _, 0)); [by rewrite sum_of_zero|]. intros i Hi%elem_of_seqZ.
    unfold on_path. by rewrite Hw by lia.
  - intros p a _ _. unfold received_on. rewrite (sum_of_ext_in _ (λ _, 0)); [by rewrite sum_of_zero|]. intros i Hi%elem_of_seqZ.
    unfold on_path. by rewrite Hw by lia.
Qed.

(** When no edge is left every packet has its path. *)
Lemma assigned_done R orig load map l share : fits_racks R orig → assigned R orig (λ _ _, 0) load map l →
  (∀ p x, 0 ≤ p < 4 → 0 ≤ x < 2 * R → load p x ≤ share) →
  length l = length orig ∧ (∀ i, 0 ≤ i < Z.of_nat (length orig) → ∃ p, 0 ≤ p < 4 ∧ arr_get l i = with_path p (arr_get orig i)) ∧
  (∀ a p, 0 ≤ a < R → 0 ≤ p < NUM_PATHS → sends_on l a p ≤ share ∧ receives_on l a p ≤ share).
Proof.
  intros Hfit [Hm Hlen Hl _ _ He Hs Hd] Hload. pose proof Hfit as [HR Ho _].
  assert (∀ i, 0 ≤ i < Z.of_nat (length orig) → waits orig map i = false) as Hw.
  { intros i Hi. destruct (orig_racks R orig Ho i Hi) as [Ha Hb]. specialize (Hl _ _ Ha Hb). unfold waits.
    destruct (stack map _ _); [|simpl in Hl; lia]. apply bool_decide_eq_false_2, not_elem_of_nil. }
  assert (∀ i, 0 ≤ i < Z.of_nat (length orig) → ∃ p, 0 ≤ p < 4 ∧ arr_get l i = with_path p (arr_get orig i) ∧
    path_of (arr_get l i) = edge_path (arr_get l i) ∧ src_rack (arr_get l i) = src_rack (arr_get orig i) ∧
    fp_rack_from_node_id (node_of (arr_get l i)) = dst_rack (arr_get orig i)) as Hi.
  { intros i Hi. specialize (He i Hi). rewrite Hw in He by done. destruct He as (p & Hp & E). exists p.
    destruct (orig_racks R orig Ho i Hi) as [_ Hb]. rewrite E.
    destruct (path_node_with p (arr_get orig i)) as [-> Hn]; [unfold in_racks; lia|done|].
    destruct (with_path_spec p (arr_get orig i)) as [_ ->]; [unfold in_racks; lia|done|]. split_and!; try done; [lia..|]. by rewrite Hn. }
  split; [done|]. split; [intros i Hr; destruct (Hi i Hr) as (p & ? & ? & _); by exists p|].
  intros a p Ha Hp. change NUM_PATHS with 4 in Hp. specialize (Hs p a Hp Ha). specialize (Hd p a Hp Ha). split.
  - etrans; [|apply (Hload p a); lia]. etrans; [|exact Hs]. apply Z.eq_le_incl. unfold sends_on, sent_on. rewrite sum_of_index, Hlen.
    apply sum_of_ext_in. intros i Hr%elem_of_seqZ. destruct (Hi i ltac:(lia)) as (q & _ & _ & Ep & Es & _). unfold on_path. rewrite Hw, Ep, Es by lia.
    cbn [negb andb]. destruct (Z.eqb_spec (edge_path (arr_get l i)) p); repeat case_bool_decide; naive_solver.
  - etrans; [|apply (Hload p (R + a)); lia]. etrans; [|exact Hd]. apply Z.eq_le_incl. unfold receives_on, received_on. rewrite sum_of_index, Hlen.
    apply sum_of_ext_in. intros i Hr%elem_of_seqZ. destruct (Hi i ltac:(lia)) as (q & _ & _ & Ep & _ & Ed). unfold on_path. rewrite Hw, Ep, Ed by lia.
    cbn [negb andb]. destruct (Z.eqb_spec (edge_path (arr_get l i)) p); repeat case_bool_decide; naive_solver.
Qed.

Lemma edges_init_spec e R : words_ok e → 0 ≤ R ≤ 64 →
  ∃ e', graph_edges_init e R = Some e' ∧ words_ok e' ∧ ∀ x, 0 ≤ x < 2 * R → arr_get e' x = 0.
Proof.
  intros [Hl Hf] HR. unfold graph_edges_init, guard. rewrite (proj2 (Z.leb_le _ _)) by (change MAX_GRAPH_NODES with 64; lia).
  eexists. split; [done|]. split; [constructor|].
  - rewrite length_app, length_replicate, length_drop. lia.
  - apply Forall_app. split; [by apply Forall_replicate|by apply Forall_drop].
  - intros x Hx. unfold arr_get. rewrite lookup_total_app_l by (rewrite length_replicate; lia). apply lookup_total_replicate_2. lia.
Qed.

(** Filling the stacks. *)
Lemma map_racks_spec ls l R : locals_ok ls → fits_racks R l →
  ∃ map, map_racks_to_nodes l (init_racks_to_nodes_mapping (l_map ls)) = Some map ∧ assigned R l (count_pair l) (λ _ _, 0) map l.
Proof.
  intros Hls Hfit. pose proof Hfit as [HR Ho Hdeg]. destruct (init_map_ok ls Hls) as [Hm0 Hst0].
  destruct (map_edges_spec l 0 _ Hm0 (fits_in_racks R l Hfit)) as (map & Em & Hm & Hst).
  { intros a b Ha Hb. rewrite Hst0 by done. pose proof (count_pair_le l a b). simpl.
    destruct (decide (a < R)); [destruct (Hdeg a); unfold in_racks in *; lia|]. assert (count_src l a = 0); [|lia]. unfold count_src.
    rewrite (sum_of_ext_in _ (λ _, 0)); [apply sum_of_zero|]. intros e He. rewrite Forall_forall in Ho. specialize (Ho e He).
    rewrite bool_decide_eq_false_2; [done|lia]. }
  exists map. split; [done|]. apply assigned_init; [done|done|]. intros a b Ha Hb. by rewrite Hst, Hst0.
Qed.

(** The halves of a regular graph of degree [D]. *)
Record halves (R D : Z) (s : graph_structure) (e g1 g2 : graph_edges) : Prop := {
  ha_1 : graph_ok s g1;
  ha_2 : graph_ok s g2;
  ha_deg : ∀ x, 0 ≤ x < 2 * R → deg g1 x = D / 2 ∧ deg g2 x = D / 2;
  ha_pairs : ∀ a b, 0 ≤ a < R → 0 ≤ b < R →
    edges_between s e a (R + b) = edges_between s g1 a (R + b) + edges_between s g2 a (R + b);
}.

Lemma split_regular R D s e f1 f2 : 0 ≤ R ≤ 16 → n s = R → graph_ok s e → D mod 4 = 0 → (∀ x, 0 ≤ x < 2 * R → deg e x = D) →
  words_ok f1 → words_ok f2 → (∀ x, 0 ≤ x < 2 * R → arr_get f1 x = 0 ∧ arr_get f2 x = 0) →
  ∃ e' g1 g2, split s e f1 f2 = Some (e', g1, g2) ∧ halves R D s e g1 g2.
Proof.
  intros HR En Hg Hmod Hd Hf1 Hf2 Hz.
  destruct (split_spec s e f1 f2 Hg) as (e' & g1 & g2 & Es & Hg1 & Hg2 & Hhalf & Hshare); rewrite ?En; try done; try lia.
  { intros x Hx. rewrite Hd by lia. exists (2 * (D / 4)). apply Z_div_exact_full_2 in Hmod; lia. }
  rewrite En in *. exists e', g1, g2. split; [done|]. constructor; [done|done| |].
  - intros x Hx. destruct (Hhalf x Hx) as (_ & -> & ->). by rewrite Hd.
  - intros a b Ha Hb. unfold edges_between. rewrite <- sum_of_add. apply sum_of_ext_in. intros i Hi%elem_of_seqZ.
    specialize (Hshare a i ltac:(lia) ltac:(lia)). unfold slot_to.
    destruct (id (neighbor_at s a i) =? R + b); rewrite ?andb_true_r, ?andb_false_r; [by rewrite <- Hshare|done].
Qed.

Lemma populate_both R D s e g1 g2 map l : fits_racks R l → n s = R → 0 ≤ D → D mod 4 = 0 → halves R D s e g1 g2 →
  (∀ a b, 0 ≤ a < R → 0 ≤ b < R → count_pair l a b ≤ edges_between s e a (R + b)) →
  assigned R l (count_pair l) (λ _ _, 0) map l →
  ∃ h1 map1 l1 h2 map2 l2, split_and_populate_paths s g1 map l 0 1 = Some (h1, map1, l1) ∧
    split_and_populate_paths s g2 map1 l1 2 3 = Some (h2, map2, l2) ∧ length l2 = length l ∧
    (∀ i, 0 ≤ i < Z.of_nat (length l) → ∃ p, 0 ≤ p < 4 ∧ arr_get l2 i = with_path p (arr_get l i)) ∧
    (∀ a p, 0 ≤ a < R → 0 ≤ p < NUM_PATHS → sends_on l2 a p ≤ D / 4 ∧ receives_on l2 a p ≤ D / 4).
Proof.
  intros Hfit En HD Hmod [Hg1 Hg2 Hdeg Hpairs] Hle Has0. pose proof Hfit as [HR Ho _].
  assert (∀ g, (∀ x, 0 ≤ x < 2 * R → deg g x = D / 2) → ∀ x, 0 ≤ x < 2 * R → Z.Even (deg g x)) as Heven.
  { intros g Hgd x Hx. rewrite Hgd by done. exists (D / 4). apply Z_div_exact_full_2 in Hmod; [|lia]. rewrite Hmod at 1. replace (4 * (D / 4)) with ((2 * (D / 4)) * 2) by lia. rewrite Z.div_mul; lia. }
  destruct (split_and_populate_spec R l s g1 (λ a b, edges_between s g2 a (R + b)) (λ _ _, 0) map l 0 1) as (h1 & map1 & l1 & Ep1 & Has1); try done; try lia.
  { intros; apply edges_between_nonneg. }
  { apply Heven. intros x Hx. by apply Hdeg. }
  { revert Has0. apply assigned_weaken; [done| |done]. intros a b Ha Hb Hle0. unfold remaining. specialize (Hpairs a b Ha Hb). specialize (Hle a b Ha Hb). lia. }
  destruct (split_and_populate_spec R l s g2 (λ _ _, 0) (λ q x, if (q =? 0) || (q =? 1) then deg g1 x / 2 else 0) map1 l1 2 3)
    as (h2 & map2 & l2 & Ep2 & Has2); try done; try lia.
  { apply Heven. intros x Hx. by apply Hdeg. }
  { revert Has1. apply assigned_weaken; [done| |done]. intros a b Ha Hb. unfold remaining. lia. }
  exists h1, map1, l1, h2, map2, l2. split; [done|]. split; [done|].
  apply (assigned_done R l _ map2 l2 (D / 4) Hfit Has2). intros p x Hp Hx. destruct (Hdeg x Hx) as [-> ->].
  destruct ((p =? 2) || (p =? 3)), ((p =? 0) || (p =? 1)); zify_div; lia.
Qed.

Lemma select_paths_spec ls l R : locals_ok ls → fits_racks R l →
  ∃ l', select_paths ls l R = Some l' ∧ length l' = length l ∧
    (∀ i, 0 ≤ i < Z.of_nat (length l) → ∃ p, 0 ≤ p < 4 ∧ arr_get l' i = with_path p (arr_get l i)) ∧
    (∀ a p, 0 ≤ a < R → 0 ≤ p < NUM_PATHS →
      sends_on l' a p ≤ round_up_degree (rack_degree R l) / 4 ∧ receives_on l' a p ≤ round_up_degree (rack_degree R l) / 4).
Proof.
  intros Hls Hfit. pose proof Hfit as [HR _ _]. destruct (map_racks_spec ls l R Hls Hfit) as (map & Em & Has). destruct Hls as [_ Hstr [Hle Hwe]].
  destruct (l_edges ls) as [|e0 [|e1 [|e2 []]]] eqn:El; try done. rewrite !Forall_cons in Hwe. destruct Hwe as (Hw0 & Hw1 & Hw2 & _).
  destruct (edges_init_spec e0 R Hw0 ltac:(lia)) as (f0 & E0 & Hf0 & Z0), (edges_init_spec e1 R Hw1 ltac:(lia)) as (f1 & E1 & Hf1 & Z1),
    (edges_init_spec e2 R Hw2 ltac:(lia)) as (f2 & E2 & Hf2 & Z2).
  destruct (construct_graph_spec R l {| n := R; vertices := vertices (l_structure ls) |} f0 Hfit eq_refl Hstr Hf0 Z0) as (s & e & Eg & Hg & En & Hd & Hpairs).
  destruct (round_up_spec _ (rack_degree_range R l Hfit)) as [HD Hmod]. pose proof (rack_degree_range R l Hfit).
  assert (0 ≤ round_up_degree (rack_degree R l)) as HD0 by lia.
  destruct (split_regular R _ s e f1 f2 HR En Hg Hmod Hd Hf1 Hf2) as (e' & g1 & g2 & Es & Hh); [auto|].
  destruct (populate_both R _ s e g1 g2 map l Hfit En HD0 Hmod Hh Hpairs Has) as (h1 & map1 & l1 & h2 & map2 & l2 & Ep1 & Ep2 & Hres).
  exists l2. split; [|done]. unfold select_paths, graph_structure_init, guard. rewrite El.
  rewrite !(proj2 (Z.leb_le R _)) by (change MAX_RACKS with 16; change MAX_GRAPH_NODES with 64; lia). rewrite Em. simpl. rewrite E0, E1, E2. simpl.
  unfold arr_get. simpl. rewrite Eg. simpl. rewrite Es. simpl. rewrite Ep1. simpl. by rewrite Ep2.
Qed.

(** ** The validity check *)

(** Counts fit the arrays and the 8 bits of their entries. *)
Record countable (R : Z) (l : list (Z * Z)) : Prop := {
  cn_racks : 0 ≤ R ≤ 16;
  cn_edges : Forall (λ e, 0 ≤ src_rack e < R ∧ 0 ≤ fp_rack_from_node_id (node_of e) < R ∧ 0 ≤ e.2 < 2 ^ 16) l;
  cn_small : ∀ a p, 0 ≤ a < R → 0 ≤ p < NUM_PATHS → sends_on l a p ≤ 255 ∧ receives_on l a p ≤ 255;
}.

Lemma path_of_range e : 0 ≤ e.2 < 2 ^ 16 → 0 ≤ path_of e < 4.
Proof.
  intros He. unfold path_of. rewrite Z.shiftr_land. change (Z.shiftr PATH_MASK PATH_SHIFT) with (Z.ones 2).
  rewrite Z.land_ones by lia. mlia.
Qed.

(** [c]: counts by rack and path. *)
Definition count_at (c : list Z) (a p : Z) : Z := arr_get c (a * 4 + p).

Lemma bump_spec c a p : length c = 64%nat → in_racks a → 0 ≤ p < 4 → 0 ≤ count_at c a p < 255 →
  ∃ c', bump c (a * NUM_PATHS + p) = Some c' ∧ length c' = 64%nat ∧
    ∀ x q, in_racks x → 0 ≤ q < 4 → count_at c' x q = count_at c x q + b2z (bool_decide (a = x ∧ p = q)).
Proof.
  unfold in_racks, count_at. intros Hl Ha Hp Hc. change NUM_PATHS with 4. unfold bump.
  destruct (lookup_lt_is_Some_2 c (Z.to_nat (a * 4 + p))) as [v Ev]; [lia|]. rewrite Ev. simpl.
  assert (arr_get c (a * 4 + p) = v) as Eg by (by apply list_lookup_total_correct). rewrite Eg in Hc.
  replace (u8 (v + 1)) with (v + 1) by mlia. eexists. split; [done|]. split; [by rewrite length_arr_set|].
  intros x q Hx Hq. rewrite arr_get_set by lia. destruct (decide (a * 4 + p = x * 4 + q)) as [E|E].
  - rewrite bool_decide_eq_true_2 by lia. rewrite <- E, Eg. done.
  - rewrite bool_decide_eq_false_2 by lia. simpl. lia.
Qed.

Lemma count_paths_spec R l : ∀ c1 c2, 0 ≤ R ≤ 16 →
  Forall (λ e, 0 ≤ src_rack e < R ∧ 0 ≤ fp_rack_from_node_id (node_of e) < R ∧ 0 ≤ e.2 < 2 ^ 16) l →
  length c1 = 64%nat → length c2 = 64%nat →
  (∀ a p, 0 ≤ a < R → 0 ≤ p < 4 → 0 ≤ count_at c1 a p ∧ count_at c1 a p + sends_on l a p ≤ 255 ∧
    0 ≤ count_at c2 a p ∧ count_at c2 a p + receives_on l a p ≤ 255) →
  ∃ c1' c2', count_paths l (c1, c2) = Some (c1', c2') ∧
    ∀ a p, 0 ≤ a < R → 0 ≤ p < 4 → count_at c1' a p = count_at c1 a p + sends_on l a p ∧ count_at c2' a p = count_at c2 a p + receives_on l a p.
Proof.
  induction l as [|e l IH]; intros c1 c2 HR Hl H1 H2 Hc; cbn [count_paths].
  { exists c1, c2. split; [done|]. intros. simpl. lia. }
  apply Forall_cons in Hl as [(Hs & Hd & He) Hl]. pose proof (path_of_range e He) as Hp. fold (path_of e) (node_of e) (src_rack e).
  assert (∀ l a p, 0 ≤ sends_on l a p ∧ 0 ≤ receives_on l a p) as Hnn.
  { intros. split; apply sum_of_nonneg; intros; by case_bool_decide. }
  destruct (bump_spec c1 (src_rack e) (path_of e)) as (c1' & E1 & L1 & B1); [done|unfold in_racks; lia|done| |].
  { destruct (Hc _ _ Hs Hp) as (? & Hle & _). rewrite sends_on_cons, bool_decide_eq_true_2 in Hle by done. destruct (Hnn l (src_rack e) (path_of e)). simpl in Hle. lia. }
  destruct (bump_spec c2 (fp_rack_from_node_id (node_of e)) (path_of e)) as (c2' & E2 & L2 & B2); [done|unfold in_racks; lia|done| |].
  { destruct (Hc _ _ Hd Hp) as (_ & _ & ? & Hle). rewrite receives_on_cons, bool_decide_eq_true_2 in Hle by done.
    destruct (Hnn l (fp_rack_from_node_id (node_of e)) (path_of e)). simpl in Hle. lia. }
  simpl fst. simpl snd. rewrite E1. simpl mbind. rewrite E2. simpl mbind.
  destruct (IH c1' c2' HR Hl L1 L2) as (d1 & d2 & E & Hd12).
  - intros a p Ha Hpp. rewrite B1, B2 by (unfold in_racks; lia). specialize (Hc a p Ha Hpp). rewrite sends_on_cons, receives_on_cons in Hc.
    repeat case_bool_decide; simpl in *; lia.
  - exists d1, d2. split; [done|]. intros a p Ha Hpp. destruct (Hd12 a p Ha Hpp) as [-> ->]. rewrite B1, B2 by (unfold in_racks; lia).
    rewrite sends_on_cons, receives_on_cons. lia.
Qed.

Lemma sends_total l a : Forall (λ e, 0 ≤ e.2 < 2 ^ 16) l →
  sends_on l a 0 + sends_on l a 1 + sends_on l a 2 + sends_on l a 3 = count_src (without_paths l) a ∧
  receives_on l a 0 + receives_on l a 1 + receives_on l a 2 + receives_on l a 3 = count_dst (without_paths l) a.
Proof.
  induction 1 as [|e l He _ [IH1 IH2]]; [done|]. pose proof (path_of_range e He) as Hp.
  rewrite !sends_on_cons, !receives_on_cons. change (without_paths (e :: l)) with ((e.1, node_of e) :: without_paths l).
  change (count_src ((e.1, node_of e) :: without_paths l) a) with (b2z (bool_decide (a = src_rack e)) + count_src (without_paths l) a).
  change (count_dst ((e.1, node_of e) :: without_paths l) a) with (b2z (bool_decide (a = fp_rack_from_node_id (node_of e))) + count_dst (without_paths l) a).
  assert (∀ c, b2z (bool_decide (c = a ∧ path_of e = 0)) + b2z (bool_decide (c = a ∧ path_of e = 1)) +
    b2z (bool_decide (c = a ∧ path_of e = 2)) + b2z (bool_decide (c = a ∧ path_of e = 3)) = b2z (bool_decide (a = c))) as Hone.
  { intros c. destruct (decide (a = c)) as [<-|Hne].
    - rewrite (bool_decide_eq_true_2 (a = a)) by done. repeat case_bool_decide; simpl; lia.
    - by rewrite !bool_decide_eq_false_2 by (done || intros [? _]; congruence). }
  pose proof (Hone (src_rack e)). pose proof (Hone (fp_rack_from_node_id (node_of e))). lia.
Qed.

Lemma paths_are_valid_spec R l c1 c2 : countable R l → length c1 = 64%nat → length c2 = 64%nat →
  ∃ b, paths_are_valid (c1, c2) l R = Some b ∧ (b = true ↔ balanced R l).
Proof.
  intros [HR Hl Hsm] H1 H2. change NUM_PATHS with 4 in Hsm. unfold paths_are_valid, guard. rewrite (proj2 (Z.leb_le _ _)) by (change NUM_PATHS with 4; change MAX_RACKS with 16; lia).
  simpl fst. simpl snd. change (R * NUM_PATHS) with (R * 4).
  assert (∀ c : list Z, length c = 64%nat → length (replicate (Z.to_nat (R * 4)) 0 ++ drop (Z.to_nat (R * 4)) c) = 64%nat) as Hlen.
  { intros c Hc. rewrite length_app, length_replicate, length_drop. lia. }
  assert (∀ (c : list Z) a p, 0 ≤ a < R → 0 ≤ p < 4 → count_at (replicate (Z.to_nat (R * 4)) 0 ++ drop (Z.to_nat (R * 4)) c) a p = 0) as Hz.
  { intros c a p Ha Hp. unfold count_at, arr_get. rewrite lookup_total_app_l by (rewrite length_replicate; lia). apply lookup_total_replicate_2. lia. }
  destruct (count_paths_spec R l _ _ HR Hl (Hlen c1 H1) (Hlen c2 H2)) as (d1 & d2 & -> & Hd).
  { intros a p Ha Hp. rewrite !Hz by done. destruct (Hsm a p Ha Hp). lia. }
  cbn [mbind option_bind]. eexists. split; [done|].
  assert (∀ a p, 0 ≤ a < R → 0 ≤ p < 4 → arr_get d1 (a * 4 + p) = sends_on l a p ∧ arr_get d2 (a * 4 + p) = receives_on l a p ∧
    0 ≤ sends_on l a p ≤ 255 ∧ 0 ≤ receives_on l a p ≤ 255) as Hat.
  { intros a p Ha Hp. destruct (Hd a p Ha Hp) as [E1 E2]. rewrite Hz in E1, E2 by done. destruct (Hsm a p Ha Hp).
    split_and!; try done; apply sum_of_nonneg; intros; by case_bool_decide. }
  assert (∀ a, 0 ≤ a < R → rack_total d1 a = count_src (without_paths l) a ∧ rack_total d2 a = count_dst (without_paths l) a ∧
    0 ≤ count_src (without_paths l) a ≤ 1020 ∧ 0 ≤ count_dst (without_paths l) a ≤ 1020) as Htot.
  { intros a Ha. destruct (sends_total l a) as [<- <-]; [eapply Forall_impl; [exact Hl|simpl; tauto]|]. unfold rack_total.
    change (seqZ 0 NUM_PATHS) with [0; 1; 2; 3]. change NUM_PATHS with 4. cbn [foldl].
    destruct (Hat a 0 Ha ltac:(lia)) as (E0 & F0 & ? & ?), (Hat a 1 Ha ltac:(lia)) as (E1 & F1 & ? & ?), (Hat a 2 Ha ltac:(lia)) as (E2 & F2 & ? & ?),
      (Hat a 3 Ha ltac:(lia)) as (E3 & F3 & ? & ?). rewrite E0, E1, E2, E3, F0, F1, F2, F3.
    split_and!; try lia; mlia. }
  assert (max_rack_degree R (d1, d2) = rack_degree R (without_paths l)) as ->.
  { apply fold_max_ext. intros i Hi%elem_of_seqZ. destruct (Htot i) as (E1 & E2 & _); [lia|]. by simpl. }
  assert (0 ≤ rack_degree R (without_paths l) ≤ 1020) as Hdeg.
  { destruct (fold_max_spec (count_src (without_paths l)) (count_dst (without_paths l)) (seqZ 0 R) 0) as (Hlo & _ & Hhi). split; [exact Hlo|].
    apply Hhi; [lia|]. intros i Hi%elem_of_seqZ. destruct (Htot i) as (_ & _ & ? & ?); lia. }
  replace (u16 (round_up_degree (rack_degree R (without_paths l)))) with (round_up_degree (rack_degree R (without_paths l))).
  2: { unfold round_up_degree. change NUM_PATHS with 4. case_match; mlia. }
  unfold balanced. rewrite forallb_forall. setoid_rewrite <- list_elem_of_In. setoid_rewrite elem_of_seqZ. split.
  - intros Hall a p Ha Hp. specialize (Hall a ltac:(lia)). rewrite forallb_forall in Hall. specialize (Hall p).
    rewrite <- list_elem_of_In, elem_of_seqZ in Hall. specialize (Hall ltac:(lia)). apply andb_true_iff in Hall as [Ha1 Ha2].
    change NUM_PATHS with 4 in *. destruct (Hat a p Ha Hp) as (E1 & E2 & _). simpl in Ha1, Ha2. rewrite E1 in Ha1. rewrite E2 in Ha2. lia.
  - intros Hall a Ha. rewrite forallb_forall. intros p Hp%list_elem_of_In%elem_of_seqZ. change NUM_PATHS with 4 in *.
    destruct (Hat a p ltac:(lia) ltac:(lia)) as (E1 & E2 & _). simpl. rewrite E1, E2. destruct (Hall a p ltac:(lia) ltac:(lia)). apply andb_true_iff. lia.
Qed.

(** ** Corollaries *)
Lemma paths_kept R l l' : fits_racks R l → length l' = length l →
  (∀ i, 0 ≤ i < Z.of_nat (length l) → ∃ p, 0 ≤ p < 4 ∧ arr_get l' i = with_path p (arr_get l i)) →
  ∀ i e, l !! i = Some e → ∃ e', l' !! i = Some e' ∧ e'.1 = e.1 ∧ node_of e' = e.2 ∧ 0 ≤ path_of e' < NUM_PATHS.
Proof.
  intros Hfit Hlen He i e Hi. pose proof (lookup_lt_Some _ _ _ Hi). destruct (He (Z.of_nat i)) as (p & Hp & E); [lia|].
  pose proof (Forall_lookup_1 _ _ _ _ (fits_in_racks R l Hfit) Hi) as [_ Hd]. unfold arr_get in E. rewrite Nat2Z.id in E.
  rewrite (list_lookup_total_correct _ _ _ Hi) in E. destruct (lookup_lt_is_Some_2 l' i) as [e' Hi']; [lia|].
  rewrite (list_lookup_total_correct _ _ _ Hi') in E. subst e'. eexists. split; [done|].
  destruct (path_node_with p e Hd Hp) as [-> ->]. done.
Qed.

Lemma without_paths_kept l l' : length l' = length l →
  (∀ i e, l !! i = Some e → ∃ e', l' !! i = Some e' ∧ e'.1 = e.1 ∧ node_of e' = e.2 ∧ 0 ≤ path_of e' < NUM_PATHS) →
  without_paths l' = l.
Proof.
  intros Hlen Hk. apply list_eq. intros i. unfold without_paths. rewrite list_lookup_fmap. destruct (l !! i) as [[a b]|] eqn:E.
  - destruct (Hk i (a, b) E) as (e' & -> & E1 & E2 & _). simpl in *. by rewrite E1, E2.
  - apply lookup_ge_None in E. rewrite (proj2 (lookup_ge_None _ _)) by lia. done.
Qed.

(** Nodes below [MAX_NODES] are in one rack. *)
Lemma one_rack_fits l : NoDup l.*1 → Forall (λ e, 0 ≤ e.1 < NUM_NODES ∧ 0 ≤ e.2 < MAX_NODES) l →
  fits_racks 1 l ∧ rack_degree 1 l = Z.of_nat (length l).
Proof.
  intros Hnd Hl. change NUM_NODES with 64 in Hl. change MAX_NODES with 256 in Hl.
  assert (Forall (λ e, src_rack e = 0 ∧ dst_rack e = 0) l) as Hr.
  { eapply Forall_impl; [exact Hl|]. intros [a b] [Ha Hb]. simpl in *. unfold src_rack, dst_rack, fp_rack_from_node_id. simpl.
    rewrite !Z.shiftr_div_pow2 by (vm_compute; done). change (2 ^ TOR_SHIFT) with 256. rewrite !Z.div_small by lia. done. }
  assert (count_src l 0 = Z.of_nat (length l) ∧ count_dst l 0 = Z.of_nat (length l)) as [Hs Hd].
  { clear -Hr. unfold count_src, count_dst. induction Hr as [|e l [E1 E2] _ [IH1 IH2]]; [done|]. cbn [sum_of foldr length]. unfold sum_of in IH1, IH2.
    rewrite IH1, IH2, E1, E2. rewrite bool_decide_eq_true_2 by done. simpl b2z. lia. }
  assert (Z.of_nat (length l) ≤ 64) as Hle.
  { rewrite <- (length_fmap fst l). pose proof (NoDup_bounded l.*1 64 Hnd) as Hb. etrans; [apply Hb|lia].
    intros x Hx. apply list_elem_of_fmap in Hx as (e & -> & He). rewrite Forall_forall in Hl. by apply (Hl e). }
  split.
  - constructor; [lia| |].
    + eapply Forall_impl; [exact Hr|]. intros e [-> ->]. lia.
    + intros r Hr0. assert (r = 0) as -> by lia. lia.
  - unfold rack_degree. change (seqZ 0 1) with [0]. cbn [foldl]. rewrite Hs, Hd. lia.
Qed.
