(* ===== verification/PathTheorems.v ===== *)
(** * Theorems about path selection *)

From S2P Require Import Prelude Platform Lists Pacer Ring Admission Graph GraphFacts PathSelection PathFacts PathAssign PathSpec.
Import Topology Graph PathSel.

(** C9. Path selection: for admitted traffic in which no rack sends or receives more
    than 64 packets, [select_paths] ends without a failed assertion and gives every
    packet one of four paths, changing nothing else; no rack sends or receives more
    packets on a path than a quarter of the largest rack degree, rounded up. *)
Theorem select_paths_balances ls l R :
  locals_ok ls → fits_racks R l →
  ∃ l', select_paths ls l R = Some l' ∧ length l' = length l ∧
    (∀ i e, l !! i = Some e → ∃ e', l' !! i = Some e' ∧ e'.1 = e.1 ∧ node_of e' = e.2 ∧ 0 ≤ path_of e' < NUM_PATHS) ∧
    balanced R l'.
Proof.
  intros Hls Hfit. destruct (select_paths_spec ls l R Hls Hfit) as (l' & E & Hlen & He & Hb).
  pose proof (paths_kept R l l' Hfit Hlen He) as Hk. exists l'. split; [done|]. split; [done|]. split; [done|].
  unfold balanced. by rewrite (without_paths_kept l l' Hlen Hk).
Qed.

(** Two racks; rack 0 sends five packets, two of them to itself. *)
Definition sample_traffic : list (Z * Z) := [(0, 1); (1, 256); (2, 257); (3, 258); (4, 0); (256, 2); (257, 259)].
Definition sample_locals : path_locals := {|
  l_map := replicate 256 {| size := 7; admitted_indices := replicate 256 0 |};
  l_structure := {| n := 9; vertices := replicate 128 (replicate 64 {| id := 0; index := 0 |}) |};
  l_edges := replicate 3 (replicate 128 5) |}.

Lemma sample_locals_ok : locals_ok sample_locals.
Proof.
  constructor; cbn [l_map l_structure l_edges sample_locals].
  - split; [reflexivity|]. by apply Forall_replicate.
  - split; cbn [vertices]; [reflexivity|]. by apply Forall_replicate.
  - split; [reflexivity|]. apply Forall_replicate. constructor; [reflexivity|]. by apply Forall_replicate.
Qed.

Lemma sample_traffic_fits : fits_racks 2 sample_traffic.
Proof.
  constructor; [lia| |].
  - repeat constructor; vm_compute; discriminate.
  - intros r Hr. assert (r = 0 ∨ r = 1) as [-> | ->] by lia; vm_compute; split; discriminate.
Qed.

Lemma select_paths_balances_witness : ∃ l', select_paths sample_locals sample_traffic 2 = Some l' ∧ balanced 2 l'.
Proof.
  destruct (select_paths_balances sample_locals sample_traffic 2 sample_locals_ok sample_traffic_fits) as (l' & E & _ & _ & Hb).
  exists l'. split; [exact E|exact Hb].
Defined.

(** C28. [paths_are_valid] answers exactly whether the paths are balanced, whatever
    the contents of its arrays were. *)
Theorem paths_check_is_exact R l c1 c2 :
  countable R l → length c1 = 64%nat → length c2 = 64%nat →
  ∃ b, paths_are_valid (c1, c2) l R = Some b ∧ (b = true ↔ balanced R l).
Proof. apply paths_are_valid_spec. Qed.

(** Five packets on one path, where two are allowed. *)
Lemma paths_check_is_exact_witness : ¬ balanced 1 [(0, 1); (1, 2); (2, 3); (3, 4); (4, 5)].
Proof.
  destruct (paths_check_is_exact 1 [(0, 1); (1, 2); (2, 3); (3, 4); (4, 5)] (replicate 64 3) (replicate 64 9)) as (b & E & Hb).
  - constructor; [lia| |].
    + repeat constructor; vm_compute; done.
    + intros a p Ha Hp. assert (a = 0) as -> by lia. change NUM_PATHS with 4 in Hp.
      assert (p = 0 ∨ p = 1 ∨ p = 2 ∨ p = 3) as [-> | [-> | [-> | ->]]] by lia; vm_compute; split; discriminate.
  - reflexivity.
  - reflexivity.
  - assert (b = false) as -> by (vm_compute in E; congruence). intros Hbal. apply Hb in Hbal. discriminate.
Defined.

(** C25. A round of the path selection core in its configuration of one rack, with
    the rings as queues: if each source of the next timeslot is below [NUM_NODES]
    and admitted at most once, the destinations are below [MAX_NODES], and the
    outgoing ring has room, the timeslot is taken off the one queue and appended to
    the other with the same packets, at most a quarter of them, rounded up, on each
    path. (With a source that is admitted more often the round can fail, see
    [crowded_rack_fails].) *)
Theorem path_core_balances Rg `{Ring Rg (list (Z * Z))} ls (qs : Rg * Rg) l rest :
  locals_ok ls → r_wf qs.1 → r_wf qs.2 → (0 < r_free qs.2)%nat → r_list qs.1 = l :: rest →
  NoDup l.*1 → Forall (λ e, 0 ≤ e.1 < NUM_NODES ∧ 0 ≤ e.2 < MAX_NODES) l →
  ∃ q1 q2 l', exec_path_sel_core_round ls qs = Some (q1, q2) ∧ r_list q1 = rest ∧ r_list q2 = r_list qs.2 ++ [l'] ∧
    length l' = length l ∧
    (∀ i e, l !! i = Some e → ∃ e', l' !! i = Some e' ∧ e'.1 = e.1 ∧ node_of e' = e.2 ∧ 0 ≤ path_of e' < NUM_PATHS) ∧
    (∀ p, 0 ≤ p < NUM_PATHS → sends_on l' 0 p ≤ (Z.of_nat (length l) + 3) / 4).
Proof.
  intros Hls Hw1 Hw2 Hfree El Hnd Hl. pose proof (one_rack_fits l Hnd Hl) as [Hfit Hdeg].
  destruct (select_paths_spec ls l 1 Hls Hfit) as (l' & E & Hlen & He & Hb).
  pose proof (paths_kept 1 l l' Hfit Hlen He) as Hk.
  pose proof (r_dequeue_spec qs.1 Hw1) as Hdq. rewrite El in Hdq. destruct Hdq as (q1 & Edq & _ & Hq1 & _).
  destruct (r_enqueue_spec qs.2 l' Hw2 Hfree) as (q2 & Eq & _ & Hq2 & _).
  exists q1, q2, l'. unfold exec_path_sel_core_round. rewrite Edq. change NUM_RACKS with 1. rewrite E. simpl. rewrite Eq.
  split_and!; try done. intros p Hp. destruct (Hb 0 p ltac:(lia) Hp) as [Hs _]. rewrite Hdeg in Hs.
  etrans; [exact Hs|]. unfold round_up_degree. change NUM_PATHS with 4. case_match; zify_div; lia.
Qed.

Definition sample_path_ring : fp_ring (list (Z * Z)) :=
  default (fp_ring_create 4 (replicate 4 [])) (fp_ring_enqueue [(0, 1); (1, 2); (2, 3); (3, 4); (4, 255)] (fp_ring_create 4 (replicate 4 []))).

Lemma path_core_balances_witness : ∃ q1 q2 l', exec_path_sel_core_round sample_locals (sample_path_ring, fp_ring_create 4 (replicate 4 [])) = Some (q1, q2) ∧
  ring_list q2 = [l'] ∧ ∀ p, 0 ≤ p < 4 → sends_on l' 0 p ≤ 2.
Proof.
  destruct (path_core_balances (fp_ring (list (Z * Z))) sample_locals (sample_path_ring, fp_ring_create 4 (replicate 4 []))
    [(0, 1); (1, 2); (2, 3); (3, 4); (4, 255)] []) as (q1 & q2 & l' & E & _ & E2 & _ & _ & Hb).
  - exact sample_locals_ok.
  - constructor; [exists 2; split; [lia|reflexivity]|reflexivity|vm_compute; split; [discriminate|reflexivity]..|vm_compute; discriminate].
  - constructor; [exists 2; split; [lia|reflexivity]|reflexivity|vm_compute; split; [discriminate|reflexivity]..|vm_compute; discriminate].
  - vm_compute. lia.
  - reflexivity.
  - vm_compute. repeat constructor; intros Hin; repeat (apply elem_of_cons in Hin as [?|Hin]; [discriminate|]); by apply not_elem_of_nil in Hin.
  - repeat constructor; vm_compute; done.
  - exists q1, q2, l'. split; [exact E|]. split; [exact E2|]. intros p Hp. specialize (Hb p Hp). simpl length in Hb. change ((Z.of_nat 5 + 3) / 4) with 2 in Hb. exact Hb.
Defined.

(** A rack that sends 65 packets has more edges than a vertex has places. *)
Lemma crowded_rack_fails : select_paths sample_locals ((λ i, (i, i)) <$> seqZ 0 65) 1 = None.
Proof. vm_compute. reflexivity. Qed.
