(* ===== verification/GrantAccept.v ===== *)
(** * Partitions, edge lists and adjacency lists

    Model of [src/src/grant-accept]: partitioning.h, grant-accept.h and
    edgelist.h, and of [src/src/graph-algo/random.h]. [None] is an access outside an
    array. The lemmas state the operations on the lists that the arrays hold. *)

From S2P Require Import Prelude Lists Pacer.
Import Topology.

(** ** partitioning.h *)
Module Partitioning.
Definition PARTITION_N_NODES : Z := 128.
Definition N_PARTITIONS : Z := (MAX_NODES + PARTITION_N_NODES - 1) / PARTITION_N_NODES.
Definition PARTITION_OF (node : Z) : Z := node / PARTITION_N_NODES.
Definition PARTITION_IDX (node : Z) : Z := node mod PARTITION_N_NODES.
Definition first_in_partition (partition : Z) : Z := u16 (partition * PARTITION_N_NODES).
Definition last_in_partition (partition : Z) : Z :=
  if partition =? N_PARTITIONS - 1 then MAX_NODES - 1 else u16 (first_in_partition (u16 (partition + 1)) - 1).

(** [for (node = first_in_partition(p); node <= last_in_partition(p); node++)] *)
Definition nodes_of (partition : Z) : list Z :=
  seqZ (first_in_partition partition) (last_in_partition partition + 1 - first_in_partition partition).
End Partitioning.
Export Partitioning.

Module GA.

(** ** random.h *)
Definition GA_RAND_A : Z := 1664525.
Definition GA_RAND_C : Z := 1013904223.

(** The number and the next state of the generator. *)
Definition random_int (state max_val : Z) : Z * Z :=
  (Z.shiftr (u32 (Z.shiftr state 16 * max_val)) 16, u32 (state * GA_RAND_A + GA_RAND_C)).

(** ** grant-accept.h *)
Definition GA_MAX_DEGREE : Z := 256.

(** [(src, dst)] *)
Abbreviation ga_edge := (Z * Z)%type.

Record ga_adj := { degree : list Z; neigh : list (list Z) }.
#[export] Instance ga_adj_inhabited : Inhabited ga_adj := populate {| degree := []; neigh := [] |}.

Definition ga_reset_adj (adj : ga_adj) : ga_adj :=
  {| degree := replicate (Z.to_nat PARTITION_N_NODES) 0; neigh := neigh adj |}.

(** [neigh[node_index][i]] *)
Definition ga_neigh (adj : ga_adj) (node_index i : Z) : option Z :=
  l ← arr_read (neigh adj) node_index; arr_read l i.

Definition ga_adj_add_edge_by_src (adj : ga_adj) (src_index dst : Z) : option ga_adj :=
  d ← arr_read (degree adj) src_index;
  l ← arr_read (neigh adj) src_index;
  l ← arr_write l d dst;
  Some {| degree := arr_set (degree adj) src_index (u16 (d + 1)); neigh := arr_set (neigh adj) src_index l |}.

Definition ga_adj_add_edge_by_dst (adj : ga_adj) (src dst_index : Z) : option ga_adj :=
  d ← arr_read (degree adj) dst_index;
  l ← arr_read (neigh adj) dst_index;
  l ← arr_write l d src;
  Some {| degree := arr_set (degree adj) dst_index (u16 (d + 1)); neigh := arr_set (neigh adj) dst_index l |}.

Definition ga_adj_delete_neigh (adj : ga_adj) (node_index neigh_index : Z) : option ga_adj :=
  d ← arr_read (degree adj) node_index;
  let last_ind := u16 (d - 1) in
  l ← arr_read (neigh adj) node_index;
  last ← arr_read l last_ind;
  l ← arr_write l neigh_index last;
  Some {| degree := arr_set (degree adj) node_index last_ind; neigh := arr_set (neigh adj) node_index l |}.

(** ** edgelist.h *)
Definition EDGELIST_PARTITION_MAX_EDGES : Z := PARTITION_N_NODES.

Record ga_edgelist := { n : Z; edge : list ga_edge }.
#[export] Instance ga_edgelist_inhabited : Inhabited ga_edgelist := populate {| n := 0; edge := [] |}.

(** [dst[i].src[j]] *)
Definition ga_partd_edgelist : Type := list (list ga_edgelist).

Definition ga_edgelist_add (edgelist : ga_edgelist) (src dst : Z) : option ga_edgelist :=
  e ← arr_write (edge edgelist) (n edgelist) (src, dst);
  Some {| n := u32 (n edgelist + 1); edge := e |}.

Definition ga_get_edgelist (pedgelist : ga_partd_edgelist) (dst_partition src_partition : Z) : option ga_edgelist :=
  l ← arr_read pedgelist dst_partition; arr_read l src_partition.
Definition ga_set_edgelist (pedgelist : ga_partd_edgelist) (dst_partition src_partition : Z) (el : ga_edgelist) :
    ga_partd_edgelist :=
  arr_set pedgelist dst_partition (arr_set (arr_get pedgelist dst_partition) src_partition el).

Definition ga_partd_edgelist_add (pedgelist : ga_partd_edgelist) (src dst : Z) : option ga_partd_edgelist :=
  edgelist ← ga_get_edgelist pedgelist (PARTITION_OF dst) (PARTITION_OF src);
  edgelist ← ga_edgelist_add edgelist src dst;
  Some (ga_set_edgelist pedgelist (PARTITION_OF dst) (PARTITION_OF src) edgelist).

Definition ga_partd_edgelist_src_reset (pedgelist : ga_partd_edgelist) (src_partition : Z) : option ga_partd_edgelist :=
  for_each (λ dst_partition pedgelist,
    edgelist ← ga_get_edgelist pedgelist dst_partition src_partition;
    Some (ga_set_edgelist pedgelist dst_partition src_partition {| n := 0; edge := edge edgelist |}))
  (seqZ 0 N_PARTITIONS) pedgelist.

Definition ga_edges_to_adj_by_dst (edges : list ga_edge) (n_edges : Z) (adj : ga_adj) : option ga_adj :=
  for_each (λ i adj, e ← arr_read edges i; ga_adj_add_edge_by_dst adj e.1 (PARTITION_IDX e.2)) (seqZ 0 n_edges) adj.

Definition ga_edgelist_to_adj_by_dst (pedgelist : ga_partd_edgelist) (dst_partition : Z) (dest_adj : ga_adj) :
    option ga_adj :=
  for_each (λ src_partition dest_adj,
    edgelist ← ga_get_edgelist pedgelist dst_partition src_partition;
    ga_edges_to_adj_by_dst (edge edgelist) (n edgelist) dest_adj)
  (seqZ 0 N_PARTITIONS) dest_adj.

(** ** Nodes and partitions *)
Definition node (x : Z) : Prop := 0 ≤ x < 256.
Definition part (p : Z) : Prop := 0 ≤ p < 2.
Definition index (i : Z) : Prop := 0 ≤ i < 128.

Lemma node_split x : node x → part (PARTITION_OF x) ∧ index (PARTITION_IDX x) ∧ x = PARTITION_OF x * 128 + PARTITION_IDX x.
Proof. unfold node, part, index, PARTITION_OF, PARTITION_IDX, PARTITION_N_NODES. intros Hx. zify_div; lia. Qed.

Lemma elem_of_nodes_of x p : part p → x ∈ nodes_of p ↔ node x ∧ PARTITION_OF x = p.
Proof.
  unfold part, node, nodes_of. intros Hp. rewrite elem_of_seqZ.
  assert (p = 0 ∨ p = 1) as [-> | ->] by lia; unfold PARTITION_OF, PARTITION_N_NODES;
    [change (first_in_partition 0) with 0; change (last_in_partition 0) with 127
    |change (first_in_partition 1) with 128; change (last_in_partition 1) with 255]; zify_div; lia.
Qed.

Lemma NoDup_nodes_of p : NoDup (nodes_of p).
Proof. apply NoDup_seqZ. Qed.

(** ** Random numbers *)
Lemma random_int_spec state max_val : 0 ≤ state < 2 ^ 32 → 0 < max_val < 2 ^ 16 →
  let '(x, state') := random_int state max_val in 0 ≤ x < max_val ∧ 0 ≤ state' < 2 ^ 32.
Proof.
  intros Hs Hm. unfold random_int. split; [|apply u32_range].
  assert (0 ≤ Z.shiftr state 16 < 2 ^ 16) as Hh.
  { rewrite Z.shiftr_div_pow2 by lia. split; [apply Z.div_pos; lia|apply Z.div_lt_upper_bound; lia]. }
  rewrite u32_small by nia. rewrite Z.shiftr_div_pow2 by lia.
  split; [apply Z.div_pos; nia|apply Z.div_lt_upper_bound; nia].
Qed.

(** ** Adjacency lists *)
Definition nbrs (adj : ga_adj) (i : Z) : list Z :=
  take (Z.to_nat (arr_get (degree adj) i)) (arr_get (neigh adj) i).

Record adj_ok (adj : ga_adj) : Prop := {
  ao_degree : length (degree adj) = 128%nat;
  ao_neigh : length (neigh adj) = 128%nat;
  ao_range : ∀ i, index i → 0 ≤ arr_get (degree adj) i ≤ 256;
  ao_length : ∀ i, index i → length (arr_get (neigh adj) i) = 256%nat;
}.

Lemma length_nbrs adj i : adj_ok adj → index i → Z.of_nat (length (nbrs adj i)) = arr_get (degree adj) i.
Proof.
  intros Ha Hi. unfold nbrs. rewrite length_take, (ao_length _ Ha) by done.
  pose proof (ao_range _ Ha i Hi). lia.
Qed.

(** The arrays after a write to those of node [i]. *)
Lemma adj_set_ok adj i d l : adj_ok adj → index i → 0 ≤ d ≤ 256 → length l = 256%nat →
  let adj' := {| degree := arr_set (degree adj) i d; neigh := arr_set (neigh adj) i l |} in
  adj_ok adj' ∧ ∀ j, index j → nbrs adj' j = if decide (j = i) then take (Z.to_nat d) l else nbrs adj j.
Proof.
  intros Ha Hi Hd Hl adj'. pose proof (ao_degree _ Ha). pose proof (ao_neigh _ Ha). unfold index in *.
  split; [constructor; cbn [adj' degree neigh]|].
  - by rewrite length_arr_set.
  - by rewrite length_arr_set.
  - intros j Hj. unfold index in Hj. rewrite arr_get_set by lia. case_decide; [done|by apply (ao_range _ Ha)].
  - intros j Hj. unfold index in Hj. rewrite arr_get_set by lia. case_decide; [done|by apply (ao_length _ Ha)].
  - intros j Hj. unfold nbrs. cbn [adj' degree neigh]. rewrite !arr_get_set by lia.
    destruct (decide (i = j)), (decide (j = i)); congruence.
Qed.

Lemma ga_adj_add_edge_by_src_spec adj i x : adj_ok adj → index i → (length (nbrs adj i) < 256)%nat →
  ∃ adj', ga_adj_add_edge_by_src adj i x = Some adj' ∧ adj_ok adj' ∧
    ∀ j, index j → nbrs adj' j = if decide (j = i) then nbrs adj i ++ [x] else nbrs adj j.
Proof.
  intros Ha Hi Hlt. pose proof (length_nbrs adj i Ha Hi) as Hn. pose proof (ao_range _ Ha i Hi) as Hr.
  pose proof (ao_length _ Ha i Hi) as Hl. unfold index in Hi. unfold ga_adj_add_edge_by_src.
  rewrite !arr_read_get by (rewrite ?ao_degree, ?ao_neigh by done; lia). cbn [mbind option_bind].
  rewrite arr_write_set by lia. cbn [mbind option_bind]. eexists. split; [done|].
  rewrite u16_small by lia.
  destruct (adj_set_ok adj i (arr_get (degree adj) i + 1) (arr_set (arr_get (neigh adj) i) (arr_get (degree adj) i) x) Ha Hi)
    as [Ha' Hn']; [lia|by rewrite length_arr_set|]. split; [exact Ha'|].
  intros j Hj. rewrite (Hn' j Hj). case_decide; [|done]. unfold nbrs, arr_set.
  replace (Z.to_nat (arr_get (degree adj) i + 1)) with (S (Z.to_nat (arr_get (degree adj) i))) by lia.
  erewrite take_S_r by (apply list_lookup_insert_eq; lia). by rewrite take_insert_ge by lia.
Qed.

(** The two procedures differ in the order of their parameters. *)
Lemma ga_adj_add_edge_by_dst_eq adj x i : ga_adj_add_edge_by_dst adj x i = ga_adj_add_edge_by_src adj i x.
Proof. done. Qed.

Lemma ga_neigh_spec adj i k : adj_ok adj → index i → 0 ≤ k < arr_get (degree adj) i →
  ∃ x, ga_neigh adj i k = Some x ∧ nbrs adj i !! Z.to_nat k = Some x.
Proof.
  intros Ha Hi Hk. pose proof (ao_range _ Ha i Hi). pose proof (ao_length _ Ha i Hi) as Hl. unfold index in Hi.
  exists (arr_get (arr_get (neigh adj) i) k). unfold ga_neigh.
  rewrite arr_read_get by (rewrite ao_neigh by done; lia). cbn [mbind option_bind].
  rewrite arr_read_get by lia. split; [done|]. unfold nbrs.
  rewrite lookup_take_lt by lia. unfold arr_get at 2. apply list_lookup_lookup_total_lt. lia.
Qed.

(** The last neighbour takes the place of the deleted one. *)
Lemma swap_remove (l : list Z) k x y : l !! k = Some x → last l = Some y →
  l ≡ₚ x :: take (length l - 1) (<[k := y]> l).
Proof.
  intros Hk Hy. destruct (exists_last (l := l)) as (l' & z & ->); [by intros ->|].
  rewrite last_snoc in Hy. injection Hy as ->. rewrite length_app. cbn [length].
  replace (length l' + 1 - 1)%nat with (length l') by lia.
  destruct (decide (k < length l')%nat) as [Hlt|Hge].
  - rewrite lookup_app_l in Hk by done. rewrite insert_app_l by done.
    rewrite take_app_le, take_ge by (rewrite length_insert; lia).
    rewrite insert_take_drop by done. rewrite <- (take_drop_middle l' k x Hk) at 1.
    rewrite <- Permutation_cons_append, <- !Permutation_middle. constructor.
  - assert (k = length l') as ->.
    { apply lookup_lt_Some in Hk. rewrite length_app in Hk. simpl in Hk. lia. }
    rewrite list_lookup_middle in Hk by done. injection Hk as ->.
    rewrite take_insert_ge, take_app_length by lia. by rewrite Permutation_app_comm.
Qed.

Lemma ga_adj_delete_neigh_spec adj i k x : adj_ok adj → index i → 0 ≤ k → nbrs adj i !! Z.to_nat k = Some x →
  ∃ adj', ga_adj_delete_neigh adj i k = Some adj' ∧ adj_ok adj' ∧ nbrs adj i ≡ₚ x :: nbrs adj' i ∧
    ∀ j, index j → j ≠ i → nbrs adj' j = nbrs adj j.
Proof.
  intros Ha Hi Hk Hx. pose proof (length_nbrs adj i Ha Hi) as Hn. pose proof (ao_range _ Ha i Hi) as Hr.
  pose proof (ao_length _ Ha i Hi) as Hl. pose proof (lookup_lt_Some _ _ _ Hx) as Hlt. unfold index in Hi.
  set (d := arr_get (degree adj) i) in *. set (l := arr_get (neigh adj) i) in *.
  unfold ga_adj_delete_neigh. rewrite !arr_read_get by (rewrite ?ao_degree, ?ao_neigh by done; lia).
  cbn [mbind option_bind]. fold d l. rewrite u16_small by lia.
  rewrite arr_read_get by lia. cbn [mbind option_bind]. rewrite arr_write_set by lia. cbn [mbind option_bind].
  eexists. split; [done|].
  destruct (adj_set_ok adj i (d - 1) (arr_set l k (arr_get l (d - 1))) Ha Hi) as [Ha' Hn']; [lia|by rewrite length_arr_set|].
  split; [exact Ha'|]. split; [|intros j Hj Hne; by rewrite (Hn' j Hj), decide_False].
  rewrite (Hn' i) by done. rewrite decide_True by done. unfold nbrs in *. fold d l in Hx, Hn, Hlt |- *.
  assert (last (take (Z.to_nat d) l) = Some (arr_get l (d - 1))) as Hlast.
  { rewrite last_lookup. replace (pred (length (take (Z.to_nat d) l))) with (Z.to_nat (d - 1)) by lia.
    rewrite lookup_take_lt by lia. unfold arr_get. apply list_lookup_lookup_total_lt. lia. }
  rewrite (swap_remove _ _ _ _ Hx Hlast). constructor.
  replace (length (take (Z.to_nat d) l) - 1)%nat with (Z.to_nat (d - 1)) by lia. unfold arr_set.
  rewrite <- (take_insert_lt l (Z.to_nat d)) by lia. rewrite take_take. by replace (Z.to_nat (d - 1) `min` Z.to_nat d)%nat with (Z.to_nat (d - 1)) by lia.
Qed.

Lemma ga_reset_adj_spec adj : adj_ok adj → adj_ok (ga_reset_adj adj) ∧ ∀ j, index j → nbrs (ga_reset_adj adj) j = [].
Proof.
  intros Ha. assert (∀ i, index i → arr_get (degree (ga_reset_adj adj)) i = 0) as Hd.
  { intros i Hi. unfold index in Hi. unfold arr_get. cbn [ga_reset_adj degree]. rewrite list_lookup_total_alt, lookup_replicate_2; [done|].
    change (Z.to_nat PARTITION_N_NODES) with 128%nat. lia. }
  split; [constructor|].
  - reflexivity.
  - apply (ao_neigh _ Ha).
  - intros i Hi. rewrite (Hd i Hi). lia.
  - apply (ao_length _ Ha).
  - intros j Hj. unfold nbrs. by rewrite (Hd j Hj).
Qed.

(** ** Edge lists *)
Definition edges_of (el : ga_edgelist) : list ga_edge := take (Z.to_nat (n el)) (edge el).
Definition el_ok (el : ga_edgelist) : Prop := length (edge el) = 128%nat ∧ 0 ≤ n el ≤ 128.
Definition get_el (g : ga_partd_edgelist) (dp sp : Z) : ga_edgelist := arr_get (arr_get g dp) sp.
Definition edges (g : ga_partd_edgelist) (dp sp : Z) : list ga_edge := edges_of (get_el g dp sp).

Record pe_ok (g : ga_partd_edgelist) : Prop := {
  po_length : length g = 2%nat;
  po_src : ∀ dp, part dp → length (arr_get g dp) = 2%nat;
  po_el : ∀ dp sp, part dp → part sp → el_ok (get_el g dp sp);
}.

Lemma ga_get_edgelist_spec g dp sp : pe_ok g → part dp → part sp → ga_get_edgelist g dp sp = Some (get_el g dp sp).
Proof.
  intros Hg Hd Hs. pose proof (po_length _ Hg). pose proof (po_src _ Hg dp Hd). unfold part in *. unfold ga_get_edgelist.
  rewrite arr_read_get by lia. cbn [mbind option_bind]. by rewrite arr_read_get by lia.
Qed.

Lemma ga_set_edgelist_spec g dp sp el : pe_ok g → part dp → part sp → el_ok el →
  let g' := ga_set_edgelist g dp sp el in
  pe_ok g' ∧ ∀ d s, part d → part s → edges g' d s = if decide (d = dp ∧ s = sp) then edges_of el else edges g d s.
Proof.
  intros Hg Hd Hs He g'. pose proof (po_length _ Hg) as H1. pose proof (po_src _ Hg dp Hd) as H2. pose proof Hd as Hd'. pose proof Hs as Hs'. unfold part in Hd', Hs'.
  assert (∀ d s, part d → part s → get_el g' d s = if decide (d = dp ∧ s = sp) then el else get_el g d s) as Hget.
  { intros d s Hd2 Hs2. unfold part in Hd2, Hs2. unfold get_el, g', ga_set_edgelist. rewrite arr_get_set by lia. case_decide; [subst; rewrite arr_get_set by lia|].
    - case_decide; [subst; by rewrite decide_True|by rewrite decide_False by naive_solver].
    - by rewrite decide_False by naive_solver. }
  split; [constructor|].
  - unfold g', ga_set_edgelist. by rewrite length_arr_set.
  - intros d Hd2. pose proof Hd2 as Hd3. unfold part in Hd2. unfold g', ga_set_edgelist. rewrite arr_get_set by lia. case_decide; [by rewrite length_arr_set|by apply (po_src _ Hg)].
  - intros d s Hd2 Hs2. rewrite Hget by done. case_decide; [done|by apply (po_el _ Hg)].
  - intros d s Hd2 Hs2. unfold edges. rewrite Hget by done. by case_decide.
Qed.

Lemma ga_partd_edgelist_add_spec g src dst : pe_ok g → node src → node dst →
  (length (edges g (PARTITION_OF dst) (PARTITION_OF src)) < 128)%nat →
  ∃ g', ga_partd_edgelist_add g src dst = Some g' ∧ pe_ok g' ∧ ∀ dp sp, part dp → part sp →
    edges g' dp sp = if decide (dp = PARTITION_OF dst ∧ sp = PARTITION_OF src) then edges g dp sp ++ [(src, dst)] else edges g dp sp.
Proof.
  intros Hg Hs Hd Hlt. destruct (node_split src Hs) as (Hsp & _ & _), (node_split dst Hd) as (Hdp & _ & _).
  destruct (po_el _ Hg _ _ Hdp Hsp) as [Hl Hn]. unfold edges, edges_of in Hlt. rewrite length_take in Hlt.
  unfold ga_partd_edgelist_add. rewrite ga_get_edgelist_spec by done. cbn [mbind option_bind]. unfold ga_edgelist_add.
  rewrite arr_write_set by lia. cbn [mbind option_bind].
  eexists. split; [done|]. set (el := get_el g _ _) in *. rewrite u32_small by lia.
  destruct (ga_set_edgelist_spec g _ _ {| n := n el + 1; edge := arr_set (edge el) (n el) (src, dst) |} Hg Hdp Hsp) as [Hg' He'].
  { split; cbn [edge n]; [by rewrite length_arr_set|lia]. }
  split; [exact Hg'|]. intros dp sp Hdp' Hsp'. rewrite He' by done. case_decide as Hc; [|done]. destruct Hc as [-> ->].
  unfold edges, edges_of. fold el. cbn [n edge]. unfold arr_set.
  replace (Z.to_nat (n el + 1)) with (S (Z.to_nat (n el))) by lia.
  erewrite take_S_r by (apply list_lookup_insert_eq; lia). by rewrite take_insert_ge by lia.
Qed.

Lemma ga_partd_edgelist_src_reset_spec g p : pe_ok g → part p →
  ∃ g', ga_partd_edgelist_src_reset g p = Some g' ∧ pe_ok g' ∧ ∀ dp sp, part dp → part sp →
    edges g' dp sp = if decide (sp = p) then [] else edges g dp sp.
Proof.
  intros Hg Hp.
  destruct (for_each_inv (λ dst_partition pedgelist, edgelist ← ga_get_edgelist pedgelist dst_partition p;
      Some (ga_set_edgelist pedgelist dst_partition p {| n := 0; edge := edge edgelist |}))
    (λ done g', pe_ok g' ∧ ∀ dp sp, part dp → part sp → edges g' dp sp = if decide (sp = p ∧ dp ∈ done) then [] else edges g dp sp)
    (seqZ 0 N_PARTITIONS) g) as (g' & E & Hg' & He').
  - split; [done|]. intros dp sp _ _. by rewrite decide_False by set_solver.
  - intros dn x rest g1 Hx [Hg1 He1].
    assert (part x) as Hpx.
    { assert (x ∈ seqZ 0 N_PARTITIONS) as Hin by (rewrite Hx; set_solver). apply elem_of_seqZ in Hin. change N_PARTITIONS with 2 in Hin. unfold part. lia. }
    rewrite ga_get_edgelist_spec by done. cbn [mbind option_bind]. eexists. split; [done|].
    destruct (po_el _ Hg1 x p Hpx Hp) as [Hl Hn].
    destruct (ga_set_edgelist_spec g1 x p {| n := 0; edge := edge (get_el g1 x p) |} Hg1 Hpx Hp) as [Hg2 He2]; [split; cbn [n edge]; [done|lia]|].
    split; [done|]. intros dp sp Hdp Hsp. rewrite He2, He1 by done. unfold edges_of. cbn [n].
    destruct (decide (dp = x)), (decide (sp = p)), (decide (dp ∈ dn)); repeat case_decide; set_solver.
  - exists g'. split; [exact E|]. split; [done|]. intros dp sp Hdp Hsp. rewrite He' by done.
    assert (dp ∈ seqZ 0 N_PARTITIONS) by (apply elem_of_seqZ; change N_PARTITIONS with 2; unfold part in Hdp; lia).
    repeat case_decide; naive_solver.
Qed.

(** ** From edge lists to adjacency lists *)

(** The sources of the edges to the node with index [j]. *)
Definition sources_of (l : list ga_edge) (j : Z) : list Z :=
  (filter (λ e, PARTITION_IDX e.2 = j) l).*1.

Lemma sources_of_one e j : sources_of [e] j = if decide (PARTITION_IDX e.2 = j) then [e.1] else [].
Proof. unfold sources_of. rewrite filter_cons. by case_decide. Qed.

Lemma sources_of_app l1 l2 j : sources_of (l1 ++ l2) j = sources_of l1 j ++ sources_of l2 j.
Proof. unfold sources_of. by rewrite filter_app, fmap_app. Qed.

(** A loop over the indices of an edge list is a loop over its edges. *)
Lemma for_each_index {S} (f : ga_edge → S → option S) l : ∀ k i s, (i + k ≤ length l)%nat →
  for_each (λ j s, e ← arr_read l j; f e s) (seqZ (Z.of_nat i) (Z.of_nat k)) s = for_each f (take k (drop i l)) s.
Proof.
  induction k as [|k IH]; intros i s Hk; [done|].
  destruct (lookup_lt_is_Some_2 l i) as [e He]; [lia|].
  rewrite seqZ_cons, (drop_S _ _ _ He) by lia. cbn [for_each take].
  unfold arr_read at 1. rewrite (proj2 (Z.leb_le _ _)), Nat2Z.id, He by lia. cbn [mbind option_bind].
  destruct (f e s); [|done]. replace (Z.succ (Z.of_nat i)) with (Z.of_nat (Datatypes.S i)) by lia.
  replace (Z.pred (Z.of_nat (Datatypes.S k))) with (Z.of_nat k) by lia. apply IH. lia.
Qed.

Lemma for_each_edges {S} (f : ga_edge → S → option S) el s : el_ok el →
  for_each (λ i s, e ← arr_read (edge el) i; f e s) (seqZ 0 (n el)) s = for_each f (edges_of el) s.
Proof.
  intros [Hl Hn]. pose proof (for_each_index f (edge el) (Z.to_nat (n el)) 0 s ltac:(lia)) as E.
  by rewrite drop_0, Z2Nat.id in E by lia.
Qed.

Lemma ga_edges_to_adj_by_dst_spec el adj : el_ok el → adj_ok adj →
  Forall (λ e, node e.2) (edges_of el) →
  (∀ j, index j → (length (nbrs adj j ++ sources_of (edges_of el) j) ≤ 256)%nat) →
  ∃ adj', ga_edges_to_adj_by_dst (edge el) (n el) adj = Some adj' ∧ adj_ok adj' ∧
    ∀ j, index j → nbrs adj' j = nbrs adj j ++ sources_of (edges_of el) j.
Proof.
  intros Hel Ha Hnode Hlen. unfold ga_edges_to_adj_by_dst.
  rewrite (for_each_edges (λ e adj, ga_adj_add_edge_by_dst adj e.1 (PARTITION_IDX e.2)) el adj Hel).
  apply (for_each_inv _ (λ done adj', adj_ok adj' ∧ ∀ j, index j → nbrs adj' j = nbrs adj j ++ sources_of done j)).
  { split; [done|]. intros j Hj. by rewrite app_nil_r. }
  intros dn e rest adj1 Esplit [Ha1 Hn1].
  assert (node e.2) as Hne by (rewrite Forall_forall in Hnode; apply Hnode; rewrite Esplit; set_solver).
  destruct (node_split e.2 Hne) as (_ & Hidx & _). rewrite ga_adj_add_edge_by_dst_eq.
  destruct (ga_adj_add_edge_by_src_spec adj1 (PARTITION_IDX e.2) e.1 Ha1 Hidx) as (adj2 & E2 & Ha2 & Hn2).
  { specialize (Hlen _ Hidx). rewrite Hn1 by done. rewrite Esplit, sources_of_app in Hlen. unfold sources_of at 2 in Hlen.
    rewrite filter_cons_True in Hlen by done. rewrite !length_app in *. simpl in Hlen. lia. }
  exists adj2. split; [exact E2|]. split; [done|]. intros j Hj. rewrite Hn2, sources_of_app, sources_of_one by done.
  destruct (decide (j = PARTITION_IDX e.2)) as [->|Hne2].
  - rewrite decide_True by done. by rewrite Hn1, app_assoc by done.
  - rewrite decide_False by congruence. rewrite Hn1 by done. simpl. by rewrite app_nil_r.
Qed.
End GA.
