(* ===== verification/Pim.v ===== *)
(** * Parallel iterative matching

    Model of [src/src/grant-accept/pim.h], pim.c and pim_admissible_traffic.c in the
    build with a single admission core (PIM_SINGLE_ADMISSION_CORE), in which the
    partitions take turns. [None] is a failed [assert], an access outside an array, or
    a wait for space in a ring that nobody empties. Statistics are left out.

    [backlog_decrease], which the sources call but do not define, is a parameter;
    [pim_add_backlog], which calls [enqueue_bin] with parameters that it does not
    have, is left out. A bin and a list of admitted traffic have one owner at a time
    and are passed by value; the memory pools do not run out. *)

From S2P Require Import Prelude Pacer Ring Admission GrantAccept.
Import Topology GA.

Module Pim.
(** ** pim.h *)
Definition NUM_ITERATIONS : Z := 3.
Definition MAX_TRIES : nat := 10.
Definition PIM_BITMASKS_PER_8_BIT : Z := 8.
Definition PIM_BITMASK_WORD (node : Z) : Z := Z.shiftr node 3.
Definition PIM_BITMASK_SHIFT (node : Z) : Z := Z.land node (PIM_BITMASKS_PER_8_BIT - 1).

(** [struct admitted_traffic] of graph-algo/admitted.h *)
Record admitted_struct := { adm_partition : Z; adm_edges : admitted_traffic }.
#[export] Instance admitted_struct_inhabited : Inhabited admitted_struct := populate {| adm_partition := 0; adm_edges := [] |}.
Definition set_admitted_partition (a : admitted_struct) (partition_index : Z) : admitted_struct :=
  {| adm_partition := partition_index; adm_edges := adm_edges a |}.

(** [struct backlog] of graph-algo/backlog.h *)
Record backlog := { backlog_n : list Z; is_active : list Z }.
Definition backlog_init (b : backlog) : backlog :=
  {| backlog_n := replicate (Z.to_nat (MAX_NODES * MAX_NODES)) 0;
     is_active := replicate (Z.to_nat ((MAX_NODES * MAX_NODES + 63) / 64)) 0 |}.
Definition backlog_get (b : backlog) (src dst : Z) : option Z := arr_read (backlog_n b) (get_status_index src dst).

Record pim_core_state (R : Type) := {
  rand_state : Z; admitted : admitted_struct; grant_adj_index : list Z;
  src_endnodes : list Z; dst_endnodes : list Z; q_new_demands : R }.
Arguments rand_state {R}. Arguments admitted {R}. Arguments grant_adj_index {R}.
Arguments src_endnodes {R}. Arguments dst_endnodes {R}. Arguments q_new_demands {R}.

(** [R] are the rings of bins, [Q] is the ring of admitted traffic. *)
Record pim_state (R Q : Type) := {
  requests_by_src : list ga_adj; grants : ga_partd_edgelist; grants_by_dst : list ga_adj;
  accepts : ga_partd_edgelist; pim_backlog : backlog; new_demands : list bin;
  q_admitted_out : Q; cores : list (pim_core_state R) }.
Arguments requests_by_src {R Q}. Arguments grants {R Q}. Arguments grants_by_dst {R Q}. Arguments accepts {R Q}.
Arguments pim_backlog {R Q}. Arguments new_demands {R Q}. Arguments q_admitted_out {R Q}. Arguments cores {R Q}.

Section pim.
Context {R Q : Type} `{RingOps R bin} `{RingOps Q admitted_struct}.
Implicit Types (st : pim_state R Q) (core : pim_core_state R).

Definition set_requests v st : pim_state R Q := {| requests_by_src := v; grants := grants st; grants_by_dst := grants_by_dst st;
  accepts := accepts st; pim_backlog := pim_backlog st; new_demands := new_demands st; q_admitted_out := q_admitted_out st; cores := cores st |}.
Definition set_grants v st : pim_state R Q := {| requests_by_src := requests_by_src st; grants := v; grants_by_dst := grants_by_dst st;
  accepts := accepts st; pim_backlog := pim_backlog st; new_demands := new_demands st; q_admitted_out := q_admitted_out st; cores := cores st |}.
Definition set_grants_by_dst v st : pim_state R Q := {| requests_by_src := requests_by_src st; grants := grants st; grants_by_dst := v;
  accepts := accepts st; pim_backlog := pim_backlog st; new_demands := new_demands st; q_admitted_out := q_admitted_out st; cores := cores st |}.
Definition set_accepts v st : pim_state R Q := {| requests_by_src := requests_by_src st; grants := grants st; grants_by_dst := grants_by_dst st;
  accepts := v; pim_backlog := pim_backlog st; new_demands := new_demands st; q_admitted_out := q_admitted_out st; cores := cores st |}.
Definition set_backlog v st : pim_state R Q := {| requests_by_src := requests_by_src st; grants := grants st; grants_by_dst := grants_by_dst st;
  accepts := accepts st; pim_backlog := v; new_demands := new_demands st; q_admitted_out := q_admitted_out st; cores := cores st |}.
Definition set_new_demands v st : pim_state R Q := {| requests_by_src := requests_by_src st; grants := grants st; grants_by_dst := grants_by_dst st;
  accepts := accepts st; pim_backlog := pim_backlog st; new_demands := v; q_admitted_out := q_admitted_out st; cores := cores st |}.
Definition set_out v st : pim_state R Q := {| requests_by_src := requests_by_src st; grants := grants st; grants_by_dst := grants_by_dst st;
  accepts := accepts st; pim_backlog := pim_backlog st; new_demands := new_demands st; q_admitted_out := v; cores := cores st |}.
Definition set_cores v st : pim_state R Q := {| requests_by_src := requests_by_src st; grants := grants st; grants_by_dst := grants_by_dst st;
  accepts := accepts st; pim_backlog := pim_backlog st; new_demands := new_demands st; q_admitted_out := q_admitted_out st; cores := v |}.

Definition set_rand v core : pim_core_state R := {| rand_state := v; admitted := admitted core; grant_adj_index := grant_adj_index core;
  src_endnodes := src_endnodes core; dst_endnodes := dst_endnodes core; q_new_demands := q_new_demands core |}.
Definition set_admitted v core : pim_core_state R := {| rand_state := rand_state core; admitted := v; grant_adj_index := grant_adj_index core;
  src_endnodes := src_endnodes core; dst_endnodes := dst_endnodes core; q_new_demands := q_new_demands core |}.
Definition set_adj_index v core : pim_core_state R := {| rand_state := rand_state core; admitted := admitted core; grant_adj_index := v;
  src_endnodes := src_endnodes core; dst_endnodes := dst_endnodes core; q_new_demands := q_new_demands core |}.
Definition set_src_endnodes v core : pim_core_state R := {| rand_state := rand_state core; admitted := admitted core; grant_adj_index := grant_adj_index core;
  src_endnodes := v; dst_endnodes := dst_endnodes core; q_new_demands := q_new_demands core |}.
Definition set_dst_endnodes v core : pim_core_state R := {| rand_state := rand_state core; admitted := admitted core; grant_adj_index := grant_adj_index core;
  src_endnodes := src_endnodes core; dst_endnodes := v; q_new_demands := q_new_demands core |}.
Definition set_q_new_demands v core : pim_core_state R := {| rand_state := rand_state core; admitted := admitted core; grant_adj_index := grant_adj_index core;
  src_endnodes := src_endnodes core; dst_endnodes := dst_endnodes core; q_new_demands := v |}.

(** [pim_init_state] and [pim_reset_state]; [seeds] are the results of [rand()]. *)
Definition pim_reset_state st : option (pim_state R Q) :=
  st ← for_each (λ src_partition st,
      adj ← arr_read (requests_by_src st) src_partition;
      accepts ← ga_partd_edgelist_src_reset (accepts st) src_partition;
      Some (set_accepts accepts (set_requests (arr_set (requests_by_src st) src_partition (ga_reset_adj adj)) st)))
    (seqZ 0 N_PARTITIONS) st;
  Some (set_backlog (backlog_init (pim_backlog st)) st).

Definition pim_init_state st (q_new : list R) (q_out : Q) (seeds : list Z) : option (pim_state R Q) :=
  st ← pim_reset_state st;
  for_each (λ partition st,
      bins ← arr_write (new_demands st) partition [];
      core ← arr_read (cores st) partition;
      q ← arr_read q_new partition;
      seed ← arr_read seeds partition;
      Some (set_new_demands bins (set_cores (arr_set (cores st) partition (set_rand (u32 seed) (set_q_new_demands q core))) st)))
    (seqZ 0 N_PARTITIONS) (set_out q_out st).

(** ** pim.c: which nodes are allocated in this timeslot *)
Definition src_is_allocated core (src : Z) : option bool :=
  let src_index := PARTITION_IDX src in
  w ← arr_read (src_endnodes core) (PIM_BITMASK_WORD src_index);
  Some (Z.testbit w (PIM_BITMASK_SHIFT src_index)).

Definition dst_is_allocated st (dst : Z) : option bool :=
  core ← arr_read (cores st) (PARTITION_OF dst);
  let dst_index := PARTITION_IDX dst in
  w ← arr_read (dst_endnodes core) (PIM_BITMASK_WORD dst_index);
  Some (Z.testbit w (PIM_BITMASK_SHIFT dst_index)).

(** [endnodes[PIM_BITMASK_WORD(index)] |= (0x1 << PIM_BITMASK_SHIFT(index))] *)
Definition mark_bit (endnodes : list Z) (index : Z) : option (list Z) :=
  w ← arr_read endnodes (PIM_BITMASK_WORD index);
  Some (arr_set endnodes (PIM_BITMASK_WORD index) (u8 (Z.lor w (Z.shiftl 1 (PIM_BITMASK_SHIFT index))))).

Definition mark_src_allocated core (src : Z) : option (pim_core_state R) :=
  v ← mark_bit (src_endnodes core) (PARTITION_IDX src); Some (set_src_endnodes v core).
Definition mark_dst_allocated core (dst : Z) : option (pim_core_state R) :=
  v ← mark_bit (dst_endnodes core) (PARTITION_IDX dst); Some (set_dst_endnodes v core).

(** ** New demands *)
Definition _flush_backlog_now st (partition_index : Z) : option (pim_state R Q) :=
  core ← arr_read (cores st) partition_index;
  b ← arr_read (new_demands st) partition_index;
  q ← r_enqueue b (q_new_demands core);
  Some (set_new_demands (arr_set (new_demands st) partition_index [])
    (set_cores (arr_set (cores st) partition_index (set_q_new_demands q core)) st)).

Definition pim_flush_backlog st : option (pim_state R Q) :=
  for_each (λ partition st,
      b ← arr_read (new_demands st) partition;
      if is_empty_bin b then Some st else _flush_backlog_now st partition)
    (seqZ 0 N_PARTITIONS) st.

Definition process_incoming_bin st (partition_index : Z) (b : bin) : option (pim_state R Q) :=
  adj ← arr_read (requests_by_src st) partition_index;
  adj ← for_each (λ e adj, ga_adj_add_edge_by_src adj (PARTITION_IDX (be_src e)) (be_dst e)) b adj;
  Some (set_requests (arr_set (requests_by_src st) partition_index adj) st).

Definition process_new_requests st (partition_index : Z) : option (pim_state R Q) :=
  core ← arr_read (cores st) partition_index;
  let '(bins, q) := r_dequeue_burst RING_DEQUEUE_BURST_SIZE (q_new_demands core) in
  for_each (λ b st, process_incoming_bin st partition_index b) bins
    (set_cores (arr_set (cores st) partition_index (set_q_new_demands q core)) st).

(** ** One timeslot *)
Definition clear_bytes (n : Z) (l : list Z) : list Z := replicate (Z.to_nat n) 0 ++ drop (Z.to_nat n) l.

Definition pim_prepare (partition_index : Z) st : option (pim_state R Q) :=
  st ← process_new_requests st partition_index;
  core ← arr_read (cores st) partition_index;
  let core := set_src_endnodes (clear_bytes (PIM_BITMASK_WORD PARTITION_N_NODES) (src_endnodes core)) core in
  let core := set_dst_endnodes (clear_bytes (PIM_BITMASK_WORD PARTITION_N_NODES) (dst_endnodes core)) core in
  let core := set_admitted (set_admitted_partition {| adm_partition := 0; adm_edges := [] |} partition_index) core in
  Some (set_cores (arr_set (cores st) partition_index core) st).

(** "add the granted edge" and "record the index of the destination we granted to" *)
Definition add_grant (partition_index src dst_adj_index dst : Z) st : option (pim_state R Q) :=
  core ← arr_read (cores st) partition_index;
  grants ← ga_partd_edgelist_add (grants st) src dst;
  gai ← arr_write (grant_adj_index core) (PARTITION_IDX src) dst_adj_index;
  Some (set_grants grants (set_cores (arr_set (cores st) partition_index (set_adj_index gai core)) st)).

(** "pick a random destination to grant to" *)
Definition pick (partition_index src degree : Z) st : option (Z * Z * pim_state R Q) :=
  core ← arr_read (cores st) partition_index;
  adj ← arr_read (requests_by_src st) partition_index;
  let '(dst_adj_index, rand) := random_int (rand_state core) degree in
  dst ← ga_neigh adj (PARTITION_IDX src) dst_adj_index;
  Some (dst_adj_index, dst, set_cores (arr_set (cores st) partition_index (set_rand rand core)) st).

Definition src_degree (partition_index src : Z) st : option Z :=
  adj ← arr_read (requests_by_src st) partition_index; arr_read (degree adj) (PARTITION_IDX src).

Definition grant_first_it_src (partition_index src : Z) st : option (pim_state R Q) :=
  degree ← src_degree partition_index src st;
  if degree =? 0 then Some st else
  '(dst_adj_index, dst, st) ← pick partition_index src degree st;
  add_grant partition_index src dst_adj_index dst st.

Definition pim_do_grant_first_it (partition_index : Z) st : option (pim_state R Q) :=
  grants ← ga_partd_edgelist_src_reset (grants st) partition_index;
  for_each (grant_first_it_src partition_index) (nodes_of partition_index) (set_grants grants st).

(** The [do]-[while] loop, with the number of tries that are left. *)
Fixpoint find_dst (tries : nat) (partition_index src degree : Z) st : option (Z * Z * bool * pim_state R Q) :=
  '(dst_adj_index, dst, st) ← pick partition_index src degree st;
  dst_is_alloc ← dst_is_allocated st dst;
  match tries with
  | S (S _ as tries') => if (dst_is_alloc : bool) then find_dst tries' partition_index src degree st
                         else Some (dst_adj_index, dst, false, st)
  | _ => Some (dst_adj_index, dst, dst_is_alloc, st)
  end.

Definition grant_src (partition_index src : Z) st : option (pim_state R Q) :=
  core ← arr_read (cores st) partition_index;
  src_is_alloc ← src_is_allocated core src;
  if (src_is_alloc : bool) then Some st else
  degree ← src_degree partition_index src st;
  if degree =? 0 then Some st else
  '(dst_adj_index, dst, dst_is_alloc, st) ← find_dst MAX_TRIES partition_index src degree st;
  if (dst_is_alloc : bool) then Some st else add_grant partition_index src dst_adj_index dst st.

Definition pim_do_grant (partition_index : Z) st : option (pim_state R Q) :=
  grants ← ga_partd_edgelist_src_reset (grants st) partition_index;
  for_each (grant_src partition_index) (nodes_of partition_index) (set_grants grants st).

Definition accept_dst (partition_index dst : Z) st : option (pim_state R Q) :=
  adj ← arr_read (grants_by_dst st) partition_index;
  degree ← arr_read (degree adj) (PARTITION_IDX dst);
  if degree =? 0 then Some st else
  core ← arr_read (cores st) partition_index;
  let '(src_adj_index, rand) := random_int (rand_state core) degree in
  src ← ga_neigh adj (PARTITION_IDX dst) src_adj_index;
  accepts ← ga_partd_edgelist_add (accepts st) src dst;
  core ← mark_dst_allocated (set_rand rand core) dst;
  Some (set_accepts accepts (set_cores (arr_set (cores st) partition_index core) st)).

Definition pim_do_accept (partition_index : Z) st : option (pim_state R Q) :=
  adj ← arr_read (grants_by_dst st) partition_index;
  adj ← for_each (λ src_partition adj,
      edgelist ← ga_get_edgelist (grants st) partition_index src_partition;
      ga_edges_to_adj_by_dst (edge edgelist) (n edgelist) adj)
    (seqZ 0 N_PARTITIONS) (ga_reset_adj adj);
  for_each (accept_dst partition_index) (nodes_of partition_index)
    (set_grants_by_dst (arr_set (grants_by_dst st) partition_index adj) st).

Section decrease.
(** [backlog_decrease(backlog, src, dst)]: the remaining backlog of the pair. *)
Context (backlog_decrease : backlog → Z → Z → Z * backlog).

Definition process_accept (src_partition : Z) (e : ga_edge) st : option (pim_state R Q) :=
  core ← arr_read (cores st) src_partition;
  edges ← insert_admitted_edge (adm_edges (admitted core)) e.1 e.2;
  core ← mark_src_allocated (set_admitted {| adm_partition := adm_partition (admitted core); adm_edges := edges |} core) e.1;
  let st := set_cores (arr_set (cores st) src_partition core) st in
  waiting ← backlog_get (pim_backlog st) e.1 e.2;
  if waiting =? 0 then None else
  let '(remaining, b) := backlog_decrease (pim_backlog st) e.1 e.2 in
  let st := set_backlog b st in
  if negb (remaining =? 0) then Some st else
  grant_adj_index ← arr_read (grant_adj_index core) (PARTITION_IDX e.1);
  adj ← arr_read (requests_by_src st) (PARTITION_OF e.1);
  adj ← ga_adj_delete_neigh adj (PARTITION_IDX e.1) grant_adj_index;
  Some (set_requests (arr_set (requests_by_src st) (PARTITION_OF e.1) adj) st).

Definition process_accepts_from_partition (src_partition dst_partition : Z) st : option (pim_state R Q) :=
  edgelist ← ga_get_edgelist (accepts st) dst_partition src_partition;
  for_each (λ i st, e ← arr_read (edge edgelist) i; process_accept src_partition e st) (seqZ 0 (n edgelist)) st.

Definition pim_process_accepts (partition_index : Z) st : option (pim_state R Q) :=
  st ← for_each (process_accepts_from_partition partition_index) (seqZ 0 N_PARTITIONS) st;
  accepts ← ga_partd_edgelist_src_reset (accepts st) partition_index;
  Some (set_accepts accepts st).

Definition pim_complete_timeslot (partition_index : Z) st : option (pim_state R Q) :=
  core ← arr_read (cores st) partition_index;
  q ← r_enqueue (admitted core) (q_admitted_out st);
  Some (set_out q st).

(** ** pim_admissible_traffic.c *)
Definition pim_iteration (grant : Z → pim_state R Q → option (pim_state R Q)) st : option (pim_state R Q) :=
  st ← for_each grant (seqZ 0 N_PARTITIONS) st;
  st ← for_each pim_do_accept (seqZ 0 N_PARTITIONS) st;
  for_each pim_process_accepts (seqZ 0 N_PARTITIONS) st.

Definition pim_get_admissible_traffic st : option (pim_state R Q) :=
  st ← for_each pim_prepare (seqZ 0 N_PARTITIONS) st;
  st ← pim_iteration pim_do_grant_first_it st;
  st ← for_each (λ _ st, pim_iteration pim_do_grant st) (seqZ 1 (NUM_ITERATIONS - 1)) st;
  for_each pim_complete_timeslot (seqZ 0 N_PARTITIONS) st.
End decrease.

(** The statuses of the nodes, [true] for ALLOCATED. *)
Fixpoint check_edges (l : admitted_traffic) (status : list bool * list bool) : option (bool * (list bool * list bool)) :=
  match l with
  | [] => Some (true, status)
  | (src, dst) :: l' =>
      s ← arr_read status.1 src;
      if (s : bool) then Some (false, status) else
      d ← arr_read status.2 dst;
      if (d : bool) then Some (false, status) else
      check_edges l' (arr_set status.1 src true, arr_set status.2 dst true)
  end.

(** The loop over [partitions]; an empty ring would leave [admitted] uninitialised. *)
Fixpoint check_partitions (partitions : list Z) (status : list bool * list bool) (q : Q) : option (bool * Q) :=
  match partitions with
  | [] => Some (true, q)
  | _ :: partitions' =>
      '(a, q) ← r_dequeue q;
      '(ok, status) ← check_edges (adm_edges a) status;
      if (ok : bool) then check_partitions partitions' status (default q (r_enqueue a q)) else Some (false, q)
  end.

Definition pim_is_valid_admitted_traffic st : option (bool * pim_state R Q) :=
  let free := replicate (Z.to_nat MAX_NODES) false in
  '(ok, q) ← check_partitions (seqZ 0 N_PARTITIONS) (free, free) (q_admitted_out st);
  Some (ok, set_out q st).
End pim.
End Pim.
