(* ===== verification/PimFacts.v ===== *)
(** * Invariant of parallel iterative matching

    The state of [pim_state] as lists: the requests of a source ([req]), the demands
    on their way to them ([pend]), the backlog of a pair ([bl]), and the nodes that
    are allocated in the timeslot. [pim_shape] says that the arrays have their sizes,
    [demands_ok] that exactly the pairs with a backlog are requested, once each. *)

From S2P Require Import Prelude Lists Pacer Ring Admission GrantAccept Pim.
Import Topology GA Pim.

(** ** Bitmasks of 16 bytes *)
Definition bit (l : list Z) (i : Z) : bool := Z.testbit (arr_get l (PIM_BITMASK_WORD i)) (PIM_BITMASK_SHIFT i).

Lemma word_shift i : index i → 0 ≤ PIM_BITMASK_WORD i < 16 ∧ 0 ≤ PIM_BITMASK_SHIFT i < 8 ∧
  i = 8 * PIM_BITMASK_WORD i + PIM_BITMASK_SHIFT i.
Proof.
  unfold index, PIM_BITMASK_WORD, PIM_BITMASK_SHIFT, PIM_BITMASKS_PER_8_BIT. intros Hi.
  change (8 - 1) with (Z.ones 3). rewrite Z.land_ones, Z.shiftr_div_pow2 by lia. zify_div; lia.
Qed.

Lemma mark_bit_spec l i : length l = 16%nat → index i →
  ∃ l', mark_bit l i = Some l' ∧ length l' = 16%nat ∧ ∀ j, index j → bit l' j = bool_decide (j = i) || bit l j.
Proof.
  intros Hl Hi. destruct (word_shift i Hi) as (Hw & Hs & Ei). unfold mark_bit.
  rewrite arr_read_get by lia. cbn [mbind option_bind]. eexists. split; [done|]. split; [by rewrite length_arr_set|].
  intros j Hj. destruct (word_shift j Hj) as (Hw' & Hs' & Ej). unfold bit. rewrite arr_get_set by lia. case_decide as E.
  - rewrite <- E. unfold u8. rewrite Z.mod_pow2_bits_low, Z.lor_spec, Z.shiftl_1_l, testbit_pow2 by lia. rewrite orb_comm. f_equal.
    apply bool_decide_ext. split; [lia|by intros ->].
  - rewrite bool_decide_eq_false_2; [done|]. by intros ->.
Qed.

Lemma clear_bytes_spec l j : length l = 16%nat → index j →
  length (clear_bytes (PIM_BITMASK_WORD PARTITION_N_NODES) l) = 16%nat ∧
  bit (clear_bytes (PIM_BITMASK_WORD PARTITION_N_NODES) l) j = false.
Proof.
  intros Hl Hj. unfold clear_bytes. change (PIM_BITMASK_WORD PARTITION_N_NODES) with 16. rewrite drop_ge, app_nil_r by lia.
  split; [reflexivity|]. destruct (word_shift j Hj) as (Hw & Hs & _). unfold bit, arr_get.
  rewrite list_lookup_total_alt, lookup_replicate_2 by lia. apply Z.testbit_0_l.
Qed.

(** ** Views of the state *)
Section views.
Context {R Q : Type} `{!Inhabited R} `{Ring R bin}.
Implicit Types (st : pim_state R Q).

#[export] Instance pim_core_inhabited : Inhabited (pim_core_state R) := populate {| rand_state := 0;
  admitted := {| adm_partition := 0; adm_edges := [] |}; grant_adj_index := []; src_endnodes := []; dst_endnodes := [];
  q_new_demands := inhabitant |}.

Definition core st (p : Z) : pim_core_state R := arr_get (cores st) p.
Definition adj_of st (p : Z) : ga_adj := arr_get (requests_by_src st) p.
Definition req st (s : Z) : list Z := nbrs (adj_of st (PARTITION_OF s)) (PARTITION_IDX s).
Definition bl st (s d : Z) : Z := arr_get (backlog_n (pim_backlog st)) (s * 256 + d).
Definition src_used st (s : Z) : bool := bit (src_endnodes (core st (PARTITION_OF s))) (PARTITION_IDX s).
Definition dst_used st (d : Z) : bool := bit (dst_endnodes (core st (PARTITION_OF d))) (PARTITION_IDX d).
Definition adj_index st (s : Z) : Z := arr_get (grant_adj_index (core st (PARTITION_OF s))) (PARTITION_IDX s).
Definition out_edges st (p : Z) : admitted_traffic := adm_edges (admitted (core st p)).

(** The demands of partition [p] that are not requests yet. *)
Definition waiting st (p : Z) : list backlog_edge :=
  concat (r_list (q_new_demands (core st p))) ++ arr_get (new_demands st) p.
Definition dsts_of (s : Z) (l : list backlog_edge) : list Z := be_dst <$> filter (λ e, be_src e = s) l.
Definition pend st (s : Z) : list Z := dsts_of s (waiting st (PARTITION_OF s)).

Record core_ok (c : pim_core_state R) : Prop := {
  co_rand : 0 ≤ rand_state c < 2 ^ 32;
  co_index : length (grant_adj_index c) = 128%nat;
  co_src : length (src_endnodes c) = 16%nat;
  co_dst : length (dst_endnodes c) = 16%nat;
  co_ring : r_wf (q_new_demands c);
}.

Record pim_shape st : Prop := {
  ps_requests : length (requests_by_src st) = 2%nat;
  ps_adj : ∀ p, part p → adj_ok (adj_of st p);
  ps_by_dst : length (grants_by_dst st) = 2%nat;
  ps_adj_dst : ∀ p, part p → adj_ok (arr_get (grants_by_dst st) p);
  ps_grants : pe_ok (grants st);
  ps_accepts : pe_ok (accepts st);
  ps_backlog : length (backlog_n (pim_backlog st)) = Z.to_nat 65536;
  ps_cores : length (cores st) = 2%nat;
  ps_core : ∀ p, part p → core_ok (core st p);
}.

(** Exactly the pairs of nodes with a backlog are requested, [taken] from the ring, or
    wait, once each; those that wait do so in the partition of their source. *)
Record demands_with (taken : list backlog_edge) st : Prop := {
  do_nodup : ∀ s, node s → NoDup (req st s ++ dsts_of s taken ++ pend st s);
  do_backlog : ∀ s d, node s → (d ∈ req st s ++ dsts_of s taken ++ pend st s ↔ node d ∧ 0 < bl st s d);
  do_waiting : ∀ p e, part p → e ∈ waiting st p → node (be_src e) ∧ PARTITION_OF (be_src e) = p;
}.
Definition demands_ok : pim_state R Q → Prop := demands_with [].

Lemma status_index s d : node s → node d → get_status_index s d = s * 256 + d.
Proof.
  unfold node, get_status_index. intros Hs Hd. change FP_NODES_SHIFT with 8. rewrite Z.shiftl_mul_pow2 by lia. apply u32_small. lia.
Qed.

Lemma core_set st p c q : pim_shape st → part p → part q → arr_get (arr_set (cores st) p c) q = if decide (p = q) then c else core st q.
Proof. intros Hst Hp Hq. unfold part in *. apply arr_get_set; [rewrite (ps_cores _ Hst)|]; lia. Qed.

Lemma read_core st p : pim_shape st → part p → arr_read (cores st) p = Some (core st p).
Proof. intros Hst Hp. unfold part in Hp. apply arr_read_get. rewrite (ps_cores _ Hst). lia. Qed.

Lemma read_adj st p : pim_shape st → part p → arr_read (requests_by_src st) p = Some (adj_of st p).
Proof. intros Hst Hp. unfold part in Hp. apply arr_read_get. rewrite (ps_requests _ Hst). lia. Qed.

(** Changing one core, or the requests of one partition. *)
Lemma shape_set_core st p c : pim_shape st → part p → core_ok c → pim_shape (set_cores (arr_set (cores st) p c) st).
Proof.
  intros Hst Hp Hc. destruct Hst as [? ? ? ? ? ? ? Hlen Hcores]. constructor; try done; cbn [set_cores cores].
  - by rewrite length_arr_set.
  - intros q Hq. unfold core. cbn [set_cores cores]. rewrite arr_get_set by (unfold part in *; lia).
    case_decide; [done|by apply Hcores].
Qed.

Lemma shape_set_adj st p a : pim_shape st → part p → adj_ok a →
  let st' := set_requests (arr_set (requests_by_src st) p a) st in
  pim_shape st' ∧ ∀ s, node s → req st' s = if decide (PARTITION_OF s = p) then nbrs a (PARTITION_IDX s) else req st s.
Proof.
  intros Hst Hp Ha st'. destruct Hst as [Hlen Hadj ? ? ? ? ? ? ?].
  assert (∀ q, part q → adj_of st' q = if decide (p = q) then a else adj_of st q) as Hget.
  { intros q Hq. unfold adj_of, st'. cbn [set_requests requests_by_src]. apply arr_get_set; unfold part in *; lia. }
  split; [constructor; try done|].
  - cbn [st' set_requests requests_by_src]. by rewrite length_arr_set.
  - intros q Hq. rewrite (Hget q Hq). case_decide; [done|by apply Hadj].
  - intros s Hs. destruct (node_split s Hs) as (Hps & _ & _). unfold req. rewrite (Hget _ Hps).
    destruct (decide (p = PARTITION_OF s)), (decide (PARTITION_OF s = p)); congruence.
Qed.

(** A list of nodes without repetitions has at most 256 elements. *)
Lemma length_nodes l : NoDup l → (∀ x, x ∈ l → node x) → (length l ≤ 256)%nat.
Proof. intros Hl Hn. pose proof (NoDup_bounded l 256 Hl Hn). lia. Qed.

Lemma length_part l p : NoDup l → (∀ x, x ∈ l → node x ∧ PARTITION_OF x = p) → (length l ≤ 128)%nat.
Proof.
  intros Hl Hn. assert (Z.of_nat (length (PARTITION_IDX <$> l)) ≤ Z.max 0 128).
  - apply NoDup_bounded.
    + apply (NoDup_fmap_2_strong PARTITION_IDX l); [|done]. intros x y Hx Hy E.
      destruct (Hn x Hx) as [Hx1 Hx2], (Hn y Hy) as [Hy1 Hy2].
      destruct (node_split x Hx1) as (_ & _ & Ex), (node_split y Hy1) as (_ & _ & Ey). rewrite Ex, Ey. congruence.
    + intros x [y [-> Hy]]%list_elem_of_fmap. destruct (Hn y Hy) as [Hy1 _]. by destruct (node_split y Hy1) as (_ & Hi & _).
  - rewrite length_fmap in *. lia.
Qed.

Lemma dsts_of_app s l1 l2 : dsts_of s (l1 ++ l2) = dsts_of s l1 ++ dsts_of s l2.
Proof. unfold dsts_of. by rewrite filter_app, fmap_app. Qed.

Lemma dsts_of_other s l : (∀ e, e ∈ l → be_src e ≠ s) → dsts_of s l = [].
Proof. intros Hl. unfold dsts_of. by rewrite list_filter_none. Qed.

Lemma dsts_of_one s e : dsts_of s [e] = if decide (be_src e = s) then [be_dst e] else [].
Proof. unfold dsts_of. rewrite filter_cons. by case_decide. Qed.

(** ** New requests *)
Lemma add_requests_spec p (b : bin) adj : adj_ok adj → part p →
  (∀ e, e ∈ b → node (be_src e) ∧ PARTITION_OF (be_src e) = p) →
  (∀ s, node s → PARTITION_OF s = p → (length (nbrs adj (PARTITION_IDX s) ++ dsts_of s b) ≤ 256)%nat) →
  ∃ adj', for_each (λ e adj, ga_adj_add_edge_by_src adj (PARTITION_IDX (be_src e)) (be_dst e)) b adj = Some adj' ∧ adj_ok adj' ∧
    ∀ s, node s → PARTITION_OF s = p → nbrs adj' (PARTITION_IDX s) = nbrs adj (PARTITION_IDX s) ++ dsts_of s b.
Proof.
  intros Ha Hp Hb Hlen.
  apply (for_each_inv _ (λ dn adj', adj_ok adj' ∧
    ∀ s, node s → PARTITION_OF s = p → nbrs adj' (PARTITION_IDX s) = nbrs adj (PARTITION_IDX s) ++ dsts_of s dn)).
  { split; [done|]. intros s _ _. by rewrite app_nil_r. }
  intros dn e rest adj1 Eb [Ha1 Hn1]. destruct (Hb e) as [He1 He2]; [rewrite Eb; set_solver|].
  destruct (node_split _ He1) as (_ & Hi & Ee).
  destruct (ga_adj_add_edge_by_src_spec adj1 (PARTITION_IDX (be_src e)) (be_dst e) Ha1 Hi) as (adj2 & E2 & Ha2 & Hn2).
  { specialize (Hlen _ He1 He2). rewrite Hn1 by done. rewrite Eb, dsts_of_app in Hlen. unfold dsts_of at 2 in Hlen.
    rewrite filter_cons_True in Hlen by done. rewrite !length_app in *. simpl in Hlen. lia. }
  exists adj2. split; [exact E2|]. split; [done|]. intros s Hs Hsp. destruct (node_split _ Hs) as (_ & His & Es).
  rewrite Hn2, dsts_of_app, dsts_of_one by done.
  destruct (decide (PARTITION_IDX s = PARTITION_IDX (be_src e))) as [Ei|Hne].
  - assert (s = be_src e) as -> by (rewrite Es, Ee; congruence). rewrite decide_True by done. by rewrite Hn1, app_assoc by done.
  - rewrite decide_False by (intros Ei; by rewrite Ei in Hne). rewrite Hn1 by done. simpl. by rewrite app_nil_r.
Qed.

Lemma process_incoming_bin_spec p (b : bin) rest st : pim_shape st → part p → demands_with (b ++ rest) st →
  (∀ e, e ∈ b → node (be_src e) ∧ PARTITION_OF (be_src e) = p) →
  ∃ adj, let st' := set_requests (arr_set (requests_by_src st) p adj) st in
    process_incoming_bin st p b = Some st' ∧ pim_shape st' ∧ demands_with rest st' ∧ ∀ s, node s → req st' s = req st s ++ dsts_of s b.
Proof.
  intros Hst Hp Hd Hb. unfold process_incoming_bin. rewrite read_adj by done. cbn [mbind option_bind].
  destruct (add_requests_spec p b (adj_of st p) (ps_adj _ Hst p Hp) Hp Hb) as (adj & E & Ha & Hn).
  { intros s Hs Hsp. pose proof (do_nodup _ _ Hd s Hs) as Hnd. rewrite dsts_of_app, <- app_assoc, app_assoc in Hnd.
    unfold req at 1 in Hnd. rewrite Hsp in Hnd. apply length_nodes; [by apply NoDup_app in Hnd as [? _]|].
    intros x Hx. apply (do_backlog _ _ Hd s x Hs). unfold req at 1. rewrite Hsp, dsts_of_app. set_solver. }
  exists adj. cbv zeta. rewrite E. cbn [mbind option_bind]. split; [done|].
  destruct (shape_set_adj st p adj Hst Hp Ha) as [Hst' Hreq]. split; [done|].
  assert (∀ s, node s → req (set_requests (arr_set (requests_by_src st) p adj) st) s = req st s ++ dsts_of s b) as Hreq'.
  { intros s Hs. rewrite Hreq by done. case_decide as Ep.
    - unfold req. rewrite Ep. by apply Hn.
    - rewrite dsts_of_other, app_nil_r; [done|]. intros e He <-. by destruct (Hb e He). }
  split; [|exact Hreq']. constructor.
  - intros s Hs. rewrite Hreq' by done. pose proof (do_nodup _ _ Hd s Hs) as Hnd. rewrite dsts_of_app, <- app_assoc in Hnd. by rewrite <- app_assoc.
  - intros s d Hs. rewrite Hreq' by done. pose proof (do_backlog _ _ Hd s d Hs) as Hbl. rewrite dsts_of_app in Hbl.
    change (bl (set_requests _ st)) with (bl st). change (pend (set_requests _ st)) with (pend st). rewrite <- Hbl. set_solver.
  - apply (do_waiting _ _ Hd).
Qed.

(** What [process_new_requests] leaves alone. *)
Definition same_but_requests st st' : Prop :=
  grants st' = grants st ∧ grants_by_dst st' = grants_by_dst st ∧ accepts st' = accepts st ∧
  pim_backlog st' = pim_backlog st ∧ new_demands st' = new_demands st ∧ q_admitted_out st' = q_admitted_out st ∧
  cores st' = cores st.

Lemma process_bins_spec p : part p → ∀ (bins : list bin) st, pim_shape st → demands_with (concat bins) st →
  (∀ e, e ∈ concat bins → node (be_src e) ∧ PARTITION_OF (be_src e) = p) →
  ∃ st', for_each (λ b st, process_incoming_bin st p b) bins st = Some st' ∧ pim_shape st' ∧ demands_ok st' ∧
    same_but_requests st st' ∧ ∀ s, node s → req st' s = req st s ++ dsts_of s (concat bins).
Proof.
  intros Hp. induction bins as [|b bins IH]; intros st Hst Hd Hb.
  - exists st. unfold same_but_requests. split_and!; try done. intros s _. by rewrite app_nil_r.
  - destruct (process_incoming_bin_spec p b (concat bins) st Hst Hp Hd) as (adj & E & Hst1 & Hd1 & Hr1).
    { intros e He. apply Hb. simpl. set_solver. }
    destruct (IH _ Hst1 Hd1) as (st' & E' & Hst' & Hd' & Hsame & Hr').
    { intros e He. apply Hb. simpl. set_solver. }
    exists st'. cbn [for_each]. rewrite E. unfold same_but_requests in *. split_and!; try done; try (by destruct_and! Hsame).
    intros s Hs. cbn [concat]. by rewrite Hr', Hr1, dsts_of_app, app_assoc by done.
Qed.
End views.
