(* ===== verification/PimGrant.v ===== *)
(** * Preparing a timeslot, granting and accepting

    The specifications of [pim_prepare], of both grant procedures and of
    [pim_do_accept]. [granted ps st G] says that the edge lists of the source
    partitions [ps] hold the grants [G]: each of a source and one of its requests,
    neither of which is allocated. *)

From S2P Require Import Prelude Pacer Ring Lists Admission GrantAccept Pim PimFacts.

Import Topology GA Pim.

Section pim.
Context {R Q : Type} `{!Inhabited R} `{Ring R bin}.
Implicit Types (st : pim_state R Q).

(** ** Preparation *)

(** The requests of a source once its partition has taken the oldest eight bins. *)
Definition ready st (s : Z) : list Z :=
  req st s ++ dsts_of s (concat (take RING_DEQUEUE_BURST_SIZE (r_list (q_new_demands (core st (PARTITION_OF s)))))).
Lemma process_new_requests_spec p st : pim_shape st → part p → demands_ok st →
  ∃ st' q, process_new_requests st p = Some st' ∧ pim_shape st' ∧ demands_ok st' ∧
    grants st' = grants st ∧ accepts st' = accepts st ∧ q_admitted_out st' = q_admitted_out st ∧ pim_backlog st' = pim_backlog st ∧
    cores st' = arr_set (cores st) p (set_q_new_demands q (core st p)) ∧
    ∀ s, node s → req st' s = if decide (PARTITION_OF s = p) then ready st s else req st s.
Proof.
  intros Hst Hp Hd. unfold process_new_requests. rewrite read_core by done. cbn [mbind option_bind].
  destruct (ps_core _ Hst p Hp) as [Hrand Hix Hsrc Hdst Hring].
  pose proof (dequeue_burst_spec RING_DEQUEUE_BURST_SIZE (q_new_demands (core st p)) Hring) as Hburst.
  destruct (r_dequeue_burst _ _) as [bins q]. destruct Hburst as (Ebins & Hq & Eq).
  set (st1 := set_cores _ st).
  assert (pim_shape st1) as Hst1 by (apply shape_set_core; [done..|by constructor]).
  assert (∀ r, part r → waiting st r = (if decide (r = p) then concat bins else []) ++ waiting st1 r) as Hw.
  { intros r Hr. unfold waiting, core at 2. cbn [st1 set_cores cores new_demands]. rewrite core_set by done.
    destruct (decide (p = r)) as [->|]; [|by rewrite decide_False by congruence]. rewrite decide_True by done.
    cbn [set_q_new_demands q_new_demands]. rewrite Eq, Ebins, app_assoc. f_equal. by rewrite <- concat_app, take_drop. }
  assert (∀ e, e ∈ concat bins → node (be_src e) ∧ PARTITION_OF (be_src e) = p) as Hb.
  { intros e He. apply (do_waiting _ _ Hd p e Hp). rewrite Hw by done. rewrite decide_True by done. set_solver. }
  assert (∀ s, node s → pend st s = dsts_of s (concat bins) ++ pend st1 s) as Hpend.
  { intros s Hs. destruct (node_split s Hs) as (Hps & _ & _). unfold pend. rewrite Hw, dsts_of_app by done. f_equal.
    case_decide; [done|]. rewrite (dsts_of_other s (concat bins)); [done|]. intros e He <-. by destruct (Hb e He). }
  assert (demands_with (concat bins) st1) as Hd1.
  { constructor.
    - intros s Hs. rewrite <- Hpend by done. apply (do_nodup _ _ Hd s Hs).
    - intros s d Hs. rewrite <- Hpend by done. apply (do_backlog _ _ Hd s d Hs).
    - intros r e Hr He. apply (do_waiting _ _ Hd r e Hr). rewrite Hw by done. set_solver. }
  destruct (process_bins_spec p Hp bins st1 Hst1 Hd1 Hb) as (st' & E & Hst' & Hd' & Hsame & Hreq).
  destruct Hsame as (E1 & E2 & E3 & E4 & E5 & E6 & E7).
  exists st', q. split_and!; try done. intros s Hs. rewrite Hreq by done. case_decide as Ep.
  - unfold ready. by rewrite Ep, Ebins.
  - rewrite dsts_of_other; [apply app_nil_r|]. intros e He <-. by destruct (Hb e He).
Qed.

Lemma pim_prepare_spec p st : pim_shape st → part p → demands_ok st →
  ∃ st', pim_prepare p st = Some st' ∧ pim_shape st' ∧ demands_ok st' ∧
    accepts st' = accepts st ∧ q_admitted_out st' = q_admitted_out st ∧
    pim_backlog st' = pim_backlog st ∧ (∀ q, part q → q ≠ p → core st' q = core st q) ∧ admitted (core st' p) = {| adm_partition := p; adm_edges := [] |} ∧
    (∀ i, index i → bit (src_endnodes (core st' p)) i = false ∧ bit (dst_endnodes (core st' p)) i = false) ∧
    ∀ s, node s → req st' s = if decide (PARTITION_OF s = p) then ready st s else req st s.
Proof.
  intros Hst Hp Hd. destruct (process_new_requests_spec p st Hst Hp Hd) as (st1 & q & E & Hst1 & Hd1 & E1 & E2 & E3 & E4 & E5 & Hreq).
  unfold pim_prepare. rewrite E. cbn [mbind option_bind]. rewrite read_core by done. cbn [mbind option_bind].
  destruct (ps_core _ Hst1 p Hp) as [Hrand Hix Hsrc Hdst Hring].
  set (c := set_admitted _ _). set (st' := set_cores _ st1).
  assert (∀ r, part r → core st' r = if decide (p = r) then c else core st1 r) as Hcore.
  { intros r Hr. unfold core at 1. cbn [st' set_cores cores]. by apply core_set. }
  assert (pim_shape st') as Hst'.
  { apply shape_set_core; [done..|]. constructor; try done;
      [apply (clear_bytes_spec _ 0 Hsrc)|apply (clear_bytes_spec _ 0 Hdst)]; unfold index; lia. }
  exists st'. split; [done|]. split; [done|]. split; [|split_and!; try done].
  - assert (∀ r, part r → waiting st' r = waiting st1 r) as Hw.
    { intros r Hr. unfold waiting. rewrite Hcore by done. case_decide; [by subst|done]. }
    assert (∀ s, node s → pend st' s = pend st1 s) as Hpd.
    { intros s Hs. unfold pend. rewrite Hw; [done|]. by apply node_split. }
    constructor.
    + intros s Hs. rewrite Hpd by done. apply (do_nodup _ _ Hd1 s Hs).
    + intros s d Hs. rewrite Hpd by done. apply (do_backlog _ _ Hd1 s d Hs).
    + intros r e Hr. rewrite Hw by done. by apply (do_waiting _ _ Hd1).
  - intros r Hr Hne. rewrite Hcore, decide_False by done. unfold core. rewrite E5. by rewrite core_set, decide_False by done.
  - rewrite Hcore, decide_True by done. done.
  - rewrite Hcore, decide_True by done. cbn [c set_admitted set_dst_endnodes set_src_endnodes src_endnodes dst_endnodes].
    intros i Hi. split; [apply (clear_bytes_spec _ i Hsrc Hi)|apply (clear_bytes_spec _ i Hdst Hi)].
Qed.

(** ** Granting *)

(** What granting leaves alone: everything but the random numbers, the indices of
    the grants, and the edge lists of the grants. *)
Record same_but_grants st st' : Prop := {
  sg_requests : requests_by_src st' = requests_by_src st;
  sg_by_dst : grants_by_dst st' = grants_by_dst st;
  sg_accepts : accepts st' = accepts st;
  sg_backlog : pim_backlog st' = pim_backlog st;
  sg_new : new_demands st' = new_demands st;
  sg_out : q_admitted_out st' = q_admitted_out st;
  sg_core : ∀ p, part p → admitted (core st' p) = admitted (core st p) ∧ src_endnodes (core st' p) = src_endnodes (core st p) ∧
    dst_endnodes (core st' p) = dst_endnodes (core st p) ∧ q_new_demands (core st' p) = q_new_demands (core st p);
}.

#[export] Instance same_but_grants_preorder : PreOrder same_but_grants.
Proof.
  split.
  - intros st. constructor; naive_solver.
  - intros st1 st2 st3 H1 H2. destruct H1 as [? ? ? ? ? ? H1], H2 as [? ? ? ? ? ? H2]. constructor; try congruence.
    intros p Hp. destruct (H1 p Hp) as (? & ? & ? & ?), (H2 p Hp) as (? & ? & ? & ?). split_and!; congruence.
Qed.

Lemma same_req st st' s : same_but_grants st st' → req st' s = req st s.
Proof. intros Hs. unfold req, adj_of. by rewrite (sg_requests _ _ Hs). Qed.
Lemma same_used st st' x : same_but_grants st st' → node x → src_used st' x = src_used st x ∧ dst_used st' x = dst_used st x.
Proof.
  intros Hs Hx. destruct (node_split x Hx) as (Hp & _ & _). destruct (sg_core _ _ Hs _ Hp) as (_ & E1 & E2 & _).
  unfold src_used, dst_used. by rewrite E1, E2.
Qed.

(** A core with other random numbers and indices. *)
Lemma set_core_same st p c : pim_shape st → part p →
  admitted c = admitted (core st p) → src_endnodes c = src_endnodes (core st p) → dst_endnodes c = dst_endnodes (core st p) →
  q_new_demands c = q_new_demands (core st p) → same_but_grants st (set_cores (arr_set (cores st) p c) st).
Proof.
  intros Hst Hp E1 E2 E3 E4. constructor; try done. intros q Hq. unfold core at 1 3 5 7. cbn [set_cores cores].
  rewrite core_set by done. case_decide; [by subst|done].
Qed.

Lemma adj_index_other st p c s : pim_shape st → part p → node s → PARTITION_OF s ≠ p →
  adj_index (set_cores (arr_set (cores st) p c) st) s = adj_index st s.
Proof.
  intros Hst Hp Hs Hne. unfold adj_index, core at 1. cbn [set_cores cores].
  rewrite core_set by (done || by apply node_split). by rewrite decide_False by congruence.
Qed.

Lemma src_degree_spec p s st : pim_shape st → node s → PARTITION_OF s = p →
  src_degree p s st = Some (Z.of_nat (length (req st s))).
Proof.
  intros Hst Hs Hp. destruct (node_split s Hs) as (Hpp & Hi & _). rewrite Hp in Hpp. unfold src_degree. rewrite read_adj by done.
  cbn [mbind option_bind]. pose proof (ps_adj _ Hst p Hpp) as Ha. unfold req. rewrite Hp, length_nbrs by done.
  apply arr_read_get. rewrite (ao_degree _ Ha). exact Hi.
Qed.

Lemma pick_spec p s st : pim_shape st → node s → PARTITION_OF s = p → req st s ≠ [] →
  ∃ k d rand, let st' := set_cores (arr_set (cores st) p (set_rand rand (core st p))) st in
    pick p s (Z.of_nat (length (req st s))) st = Some (k, d, st') ∧ 0 ≤ k ∧
    req st s !! Z.to_nat k = Some d ∧ pim_shape st' ∧ same_but_grants st st' ∧ (∀ x, node x → adj_index st' x = adj_index st x).
Proof.
  intros Hst Hs Hp Hne. destruct (node_split s Hs) as (Hpp & Hi & _). rewrite Hp in Hpp.
  pose proof (ps_adj _ Hst p Hpp) as Ha. pose proof (ps_core _ Hst p Hpp) as [Hrand Hix Hsrc Hdst Hring].
  assert (Z.of_nat (length (req st s)) = arr_get (degree (adj_of st p)) (PARTITION_IDX s)) as Ed
    by (unfold req; rewrite Hp; by apply length_nbrs).
  pose proof (ao_range _ Ha _ Hi) as Hr. assert (0 < Z.of_nat (length (req st s))) by (destruct (req st s); [done|simpl; lia]).
  unfold pick. rewrite read_core, read_adj by done. cbn [mbind option_bind].
  pose proof (random_int_spec (rand_state (core st p)) (Z.of_nat (length (req st s))) Hrand ltac:(lia)) as Hrs.
  destruct (random_int _ _) as [k rand]. destruct Hrs as [Hk Hrand'].
  destruct (ga_neigh_spec (adj_of st p) (PARTITION_IDX s) k Ha Hi ltac:(lia)) as (d & En & El).
  rewrite En. cbn [mbind option_bind]. exists k, d, rand. cbv zeta. split; [done|]. split; [lia|].
  split; [unfold req; by rewrite Hp|]. split; [apply shape_set_core; [done..|by constructor]|].
  split; [by apply set_core_same|].
  intros x Hx. destruct (decide (PARTITION_OF x = p)) as [Ex|]; [|by apply adj_index_other].
  unfold adj_index, core. cbn [set_cores cores]. rewrite core_set, decide_True by (done || by apply node_split). by rewrite Ex.
Qed.

Lemma add_grant_spec p s k d st : pim_shape st → node s → PARTITION_OF s = p → node d →
  (length (edges (grants st) (PARTITION_OF d) p) < 128)%nat →
  ∃ st', add_grant p s k d st = Some st' ∧ pim_shape st' ∧ same_but_grants st st' ∧
    (∀ dp sp, part dp → part sp → edges (grants st') dp sp =
       if decide (dp = PARTITION_OF d ∧ sp = p) then edges (grants st) dp sp ++ [(s, d)] else edges (grants st) dp sp) ∧
    (∀ x, node x → adj_index st' x = if decide (x = s) then k else adj_index st x).
Proof.
  intros Hst Hs Hp Hd Hlt. destruct (node_split s Hs) as (Hpp & Hi & Es). rewrite Hp in Hpp, Es.
  pose proof (ps_core _ Hst p Hpp) as [Hrand Hix Hsrc Hdst Hring].
  unfold add_grant. rewrite read_core by done. cbn [mbind option_bind].
  destruct (ga_partd_edgelist_add_spec (grants st) s d (ps_grants _ Hst) Hs Hd) as (g & Eg & Hg & Hge); [by rewrite Hp|].
  rewrite Eg. cbn [mbind option_bind]. unfold index in Hi. rewrite arr_write_set by lia. cbn [mbind option_bind].
  set (c := set_adj_index _ _).
  assert (pim_shape (set_cores (arr_set (cores st) p c) st)) as Hst1.
  { apply shape_set_core; [done..|]. constructor; try done. cbn [c set_adj_index grant_adj_index]. by rewrite length_arr_set. }
  pose proof (set_core_same st p c Hst Hpp eq_refl eq_refl eq_refl eq_refl) as Hsame.
  eexists. split; [done|]. split; [destruct Hst1; by constructor|]. split; [destruct Hsame; by constructor|].
  split; [intros dp sp Hdp Hsp; rewrite <- Hp; by apply Hge|].
  intros x Hx. change (adj_index (set_grants g ?s0) x) with (adj_index s0 x).
  destruct (decide (PARTITION_OF x = p)) as [Ex|Hne].
  - unfold adj_index at 1. unfold core. cbn [set_grants set_cores cores]. rewrite Ex, core_set, decide_True by done.
    cbn [c set_adj_index grant_adj_index]. destruct (node_split x Hx) as (_ & Hix' & Ex2). unfold index in Hix'.
    rewrite arr_get_set by lia. unfold adj_index. rewrite Ex. destruct (decide (x = s)) as [->|Hxs]; [by rewrite decide_True|].
    rewrite decide_False; [done|]. intros Ei. apply Hxs. rewrite Ex2, Es. congruence.
  - rewrite decide_False by (intros ->; done). by apply adj_index_other.
Qed.

(** *** One source *)
Lemma same_demands st st' : same_but_grants st st' → demands_ok st → demands_ok st'.
Proof.
  intros Hs Hd.
  assert (∀ p, part p → waiting st' p = waiting st p) as Hw.
  { intros p Hp. destruct (sg_core _ _ Hs p Hp) as (_ & _ & _ & E). unfold waiting. by rewrite E, (sg_new _ _ Hs). }
  assert (∀ x, node x → pend st' x = pend st x) as Hpd.
  { intros x Hx. unfold pend. by rewrite Hw by (by apply node_split). }
  constructor.
  - intros x Hx. rewrite (same_req _ _ _ Hs), Hpd by done. apply (do_nodup _ _ Hd x Hx).
  - intros x d Hx. rewrite (same_req _ _ _ Hs), Hpd by done. unfold bl. rewrite (sg_backlog _ _ Hs). apply (do_backlog _ _ Hd x d Hx).
  - intros p e Hp. rewrite Hw by done. by apply (do_waiting _ _ Hd).
Qed.

Lemma req_node st s d : demands_ok st → node s → d ∈ req st s → node d.
Proof. intros Hd Hs Hin. apply (do_backlog _ _ Hd s d Hs). set_solver. Qed.

(** [o] is the destination that source [s] grants to. *)
Definition grant_step (p s : Z) st st' (o : option Z) : Prop :=
  pim_shape st' ∧ same_but_grants st st' ∧
  match o with
  | None => grants st' = grants st ∧ ∀ x, node x → adj_index st' x = adj_index st x
  | Some d => src_used st s = false ∧ dst_used st d = false ∧ 0 ≤ adj_index st' s ∧
      req st s !! Z.to_nat (adj_index st' s) = Some d ∧
      (∀ dp sp, part dp → part sp → edges (grants st') dp sp =
         if decide (dp = PARTITION_OF d ∧ sp = p) then edges (grants st) dp sp ++ [(s, d)] else edges (grants st) dp sp) ∧
      (∀ x, node x → x ≠ s → adj_index st' x = adj_index st x)
  end.

(** Nothing is allocated yet. *)
Definition fresh st : Prop := ∀ x, node x → src_used st x = false ∧ dst_used st x = false.

(** [f] grants for one source; if [first], for every one with requests. *)
Definition body_ok (first : Prop) (f : Z → Z → pim_state R Q → option (pim_state R Q)) : Prop :=
  ∀ p s st, pim_shape st → demands_ok st → node s → PARTITION_OF s = p → (first → fresh st) →
    (∀ dp, part dp → (length (edges (grants st) dp p) < 128)%nat) →
    ∃ st' o, f p s st = Some st' ∧ grant_step p s st st' o ∧ (first → req st s ≠ [] → o ≠ None).

Lemma nodes_of_req st s k d : demands_ok st → node s → req st s !! k = Some d → node d.
Proof. intros Hd Hs Hl. by apply (req_node st s d Hd Hs), list_elem_of_lookup_2 with k. Qed.

Lemma grants_set_cores st c : grants (set_cores c st) = grants st.
Proof. done. Qed.

Lemma grant_step_pick p s k d st st1 : pim_shape st → demands_ok st → node s → PARTITION_OF s = p → 
  pim_shape st1 → same_but_grants st st1 → grants st1 = grants st → (∀ x, node x → adj_index st1 x = adj_index st x) →
  0 ≤ k → req st s !! Z.to_nat k = Some d → src_used st s = false → dst_used st d = false →
  (∀ dp, part dp → (length (edges (grants st) dp p) < 128)%nat) →
  ∃ st', add_grant p s k d st1 = Some st' ∧ grant_step p s st st' (Some d).
Proof.
  intros Hst Hd Hs Hp Hst1 Hsame Eg Hix Hk Hlk Hus Hud Hlt.
  pose proof (nodes_of_req _ _ _ _ Hd Hs Hlk) as Hnd. destruct (node_split d Hnd) as (Hpd & _ & _).
  destruct (add_grant_spec p s k d st1 Hst1 Hs Hp Hnd) as (st' & E & Hst' & Hsame' & He & Hix'); [rewrite Eg; by apply Hlt|].
  exists st'. split; [exact E|]. unfold grant_step. rewrite (Hix' s) by done. rewrite decide_True by done.
  split; [done|]. split; [by etrans|]. split_and!; try done.
  - intros dp sp Hdp Hsp. by rewrite He, Eg by done.
  - intros x Hx Hne. by rewrite Hix', decide_False, Hix by done.
Qed.

Lemma grant_first_it_src_spec : body_ok True grant_first_it_src.
Proof.
  intros p s st Hst Hd Hs Hp Hfresh Hlt. unfold grant_first_it_src. rewrite src_degree_spec by done. cbn [mbind option_bind].
  case_match eqn:E0.
  - exists st, None. split; [done|]. split; [|intros _ Hne; destruct (req st s); [done|simpl in E0; lia]].
    by split_and!.
  - assert (req st s ≠ []) as Hne by (intros E; by rewrite E in E0).
    destruct (pick_spec p s st Hst Hs Hp Hne) as (k & d & rand & Epick & Hk & Hlk & Hst1 & Hsame & Hix). rewrite Epick. cbn [mbind option_bind].
    destruct (Hfresh I s Hs) as [Hus _]. destruct (Hfresh I d) as [_ Hud]; [by eapply nodes_of_req|].
    destruct (grant_step_pick p s k d st _ Hst Hd Hs Hp Hst1 Hsame eq_refl Hix Hk Hlk Hus Hud Hlt) as (st' & E' & Hstep).
    exists st', (Some d). split; [exact E'|]. split; [exact Hstep|done].
Qed.

Lemma src_is_allocated_spec st s p : pim_shape st → node s → PARTITION_OF s = p →
  src_is_allocated (core st p) s = Some (src_used st s).
Proof.
  intros Hst Hs Hp. destruct (node_split s Hs) as (Hpp & Hi & _). rewrite Hp in Hpp.
  destruct (word_shift _ Hi) as (Hw & _ & _). pose proof (co_src _ (ps_core _ Hst p Hpp)).
  unfold src_is_allocated. rewrite arr_read_get by lia. cbn [mbind option_bind]. unfold src_used. by rewrite Hp.
Qed.

Lemma dst_is_allocated_spec st d : pim_shape st → node d → dst_is_allocated st d = Some (dst_used st d).
Proof.
  intros Hst Hd. destruct (node_split d Hd) as (Hpp & Hi & _).
  destruct (word_shift _ Hi) as (Hw & _ & _). pose proof (co_dst _ (ps_core _ Hst _ Hpp)).
  unfold dst_is_allocated. rewrite read_core by done. cbn [mbind option_bind]. by rewrite arr_read_get by lia.
Qed.

Lemma find_dst_spec p s : ∀ tries st, pim_shape st → demands_ok st → node s → PARTITION_OF s = p → req st s ≠ [] →
  ∃ k d b st', find_dst tries p s (Z.of_nat (length (req st s))) st = Some (k, d, b, st') ∧ 0 ≤ k ∧
    req st s !! Z.to_nat k = Some d ∧ dst_used st d = b ∧ pim_shape st' ∧ same_but_grants st st' ∧ grants st' = grants st ∧
    (∀ x, node x → adj_index st' x = adj_index st x).
Proof.
  induction tries as [|tries IH]; intros st Hst Hd Hs Hp Hne; cbn [find_dst];
    destruct (pick_spec p s st Hst Hs Hp Hne) as (k & d & rand & Epick & Hk & Hlk & Hst1 & Hsame & Hix);
    rewrite Epick; cbn [mbind option_bind]; set (st1 := set_cores _ st) in *;
    pose proof (nodes_of_req _ _ _ _ Hd Hs Hlk) as Hnd; destruct (same_used _ _ d Hsame Hnd) as [_ Eu];
    rewrite (dst_is_allocated_spec st1 d Hst1 Hnd); cbn [mbind option_bind]; rewrite Eu.
  - exists k, d, (dst_used st d), st1. split_and!; done.
  - destruct tries as [|tries]; [exists k, d, (dst_used st d), st1; split_and!; done|].
    destruct (dst_used st d) eqn:Eud; [|exists k, d, false, st1; split_and!; done].
    assert (req st1 s = req st s) as Er by (by apply same_req). rewrite <- Er in Hne |- *.
    destruct (IH st1 Hst1 (same_demands _ _ Hsame Hd) Hs Hp Hne) as (k' & d' & b' & st' & E & Hk' & Hlk' & Eu' & Hst' & Hsame' & Eg' & Hix').
    rewrite Er in Hlk'. exists k', d', b', st'. split_and!; try done.
    + rewrite <- Eu'. symmetry. apply (same_used st st1); [done|]. by apply (nodes_of_req st s _ _ Hd Hs Hlk').
    + by etrans.
    + intros x Hx. by rewrite Hix', Hix.
Qed.

Lemma grant_src_spec : body_ok False grant_src.
Proof.
  intros p s st Hst Hd Hs Hp _ Hlt. destruct (node_split s Hs) as (Hpp & _ & _). rewrite Hp in Hpp.
  unfold grant_src. rewrite read_core by done. cbn [mbind option_bind]. rewrite src_is_allocated_spec by done. cbn [mbind option_bind].
  assert (grant_step p s st st None) as Hnone by (by split_and!).
  destruct (src_used st s) eqn:Eus; [by exists st, None|].
  rewrite src_degree_spec by done. cbn [mbind option_bind]. case_match eqn:E0; [by exists st, None|].
  assert (req st s ≠ []) as Hne by (intros E; by rewrite E in E0).
  destruct (find_dst_spec p s MAX_TRIES st Hst Hd Hs Hp Hne) as (k & d & b & st1 & E & Hk & Hlk & Eu & Hst1 & Hsame & Eg & Hix).
  rewrite E. cbn [mbind option_bind]. destruct b; [exists st1, None; split_and!; done|].
  destruct (grant_step_pick p s k d st st1 Hst Hd Hs Hp Hst1 Hsame Eg Hix Hk Hlk Eus Eu Hlt) as (st' & E' & Hstep).
  by exists st', (Some d).
Qed.

(** *** One partition *)
Record granted (ps : list Z) st (G : list ga_edge) : Prop := {
  gr_edges : ∀ dp sp, part dp → part sp → sp ∈ ps →
    edges (grants st) dp sp = filter (λ e, PARTITION_OF e.2 = dp ∧ PARTITION_OF e.1 = sp) G;
  gr_nodup : NoDup G.*1;
  gr_edge : ∀ s d, (s, d) ∈ G → node s ∧ node d ∧ PARTITION_OF s ∈ ps ∧ 0 ≤ adj_index st s ∧
    req st s !! Z.to_nat (adj_index st s) = Some d ∧ src_used st s = false ∧ dst_used st d = false;
}.

Lemma filter_fst_sub (P : ga_edge → Prop) `{∀ e, Decision (P e)} (G : list ga_edge) : NoDup G.*1 → NoDup (filter P G).*1.
Proof.
  induction G as [|e G IH]; [done|]. intros [Hne Hnd]%NoDup_cons. rewrite filter_cons. case_decide; [|by apply IH].
  apply NoDup_cons. split; [|by apply IH]. intros Hin. apply Hne. apply list_elem_of_fmap in Hin as (y & -> & Hy).
  apply list_elem_of_filter in Hy as [_ Hy]. by apply list_elem_of_fmap_2.
Qed.

Lemma granted_weaken ps st st' G : granted ps st G → same_but_grants st st' → grants st' = grants st →
  (∀ x, node x → adj_index st' x = adj_index st x) → granted ps st' G.
Proof.
  intros [He Hnd Hg] Hsame Eg Hix. constructor; [by rewrite Eg|done|]. intros s d Hin. destruct (Hg s d Hin) as (Hs & Hd & Hp & Hk & Hlk & Hus & Hud).
  rewrite (same_req _ _ s Hsame), Hix by done. destruct (same_used _ _ s Hsame Hs) as [-> _], (same_used _ _ d Hsame Hd) as [_ ->]. done.
Qed.

Lemma granted_snoc ps p s d st st' G : granted ps st G → node s → node d → PARTITION_OF s = p → p ∈ ps → s ∉ G.*1 →
  grant_step p s st st' (Some d) → granted ps st' (G ++ [(s, d)]).
Proof.
  intros [He Hnd Hg] Hs Hd Hp Hps Hnew (Hst' & Hsame & Hus & Hud & Hk & Hlk & He' & Hix). constructor.
  - intros dp sp Hdp Hsp Hin. rewrite He', filter_app, filter_cons, filter_nil by done. cbn [fst snd]. rewrite He by done.
    repeat case_decide; try (rewrite app_nil_r; done); try done; naive_solver.
  - rewrite fmap_app. apply NoDup_app. split; [done|]. split; [set_solver|]. apply NoDup_singleton.
  - intros s' d' [Hin|Hin]%elem_of_app.
    + destruct (Hg s' d' Hin) as (Hs' & Hd' & Hp' & Hk' & Hlk' & Hus' & Hud').
      assert (s' ≠ s) as Hne by (intros ->; apply Hnew; by apply (list_elem_of_fmap_2 fst _ (s, d'))).
      rewrite (same_req _ _ s' Hsame), Hix by done.
      destruct (same_used _ _ s' Hsame Hs') as [-> _], (same_used _ _ d' Hsame Hd') as [_ ->]. done.
    + apply list_elem_of_singleton in Hin as [= -> ->]. rewrite (same_req _ _ s Hsame).
      destruct (same_used _ _ s Hsame Hs) as [-> _], (same_used _ _ d Hsame Hd) as [_ ->]. by rewrite Hp.
Qed.

Lemma granted_room ps p s st G dp : granted ps st G → part dp → part p → p ∈ ps → node s → PARTITION_OF s = p → s ∉ G.*1 →
  (length (edges (grants st) dp p) < 128)%nat.
Proof.
  intros [He Hnd Hg] Hdp Hpp Hps Hs Hp Hnew. rewrite He by done. set (l := filter _ G).
  assert (length (s :: l.*1) ≤ 128)%nat as Hle; [|cbn [length] in Hle; rewrite length_fmap in Hle; lia].
  assert (∀ x, x ∈ l.*1 → x ∈ G.*1 ∧ node x ∧ PARTITION_OF x = p) as Hl.
  { intros x Hx. apply list_elem_of_fmap in Hx as ([x' d] & -> & Hin). apply list_elem_of_filter in Hin as [[_ Ep] Hin].
    split; [by apply (list_elem_of_fmap_2 fst _ (x', d))|]. split; [by destruct (Hg _ _ Hin)|done]. }
  apply (length_part _ p).
  - apply NoDup_cons. split; [intros Hin; by apply Hnew, Hl|by apply filter_fst_sub].
  - intros x [-> |Hx]%elem_of_cons; [done|by apply Hl].
Qed.

Lemma grant_phase_spec (first : Prop) f ps p st G : body_ok first f →
  pim_shape st → demands_ok st → part p → p ∉ ps → (∀ q, q ∈ ps → part q) → granted ps st G → (first → fresh st) →
  ∃ st' Gp, (g ← ga_partd_edgelist_src_reset (grants st) p; for_each (f p) (nodes_of p) (set_grants g st)) = Some st' ∧
    pim_shape st' ∧ same_but_grants st st' ∧ granted (ps ++ [p]) st' (G ++ Gp) ∧
    (first → ∀ s, node s → PARTITION_OF s = p → req st s ≠ [] → s ∈ Gp.*1).
Proof.
  intros Hf Hst Hd Hp Hnew Hps Hgr Hfresh.
  destruct (ga_partd_edgelist_src_reset_spec (grants st) p (ps_grants _ Hst) Hp) as (g & Eg & Hg & Hge). rewrite Eg. cbn [mbind option_bind].
  destruct (for_each_inv (f p) (λ dn st', ∃ Gp, pim_shape st' ∧ same_but_grants st st' ∧ granted (ps ++ [p]) st' (G ++ Gp) ∧
      (∀ s, s ∈ Gp.*1 → s ∈ dn) ∧ (first → ∀ s, s ∈ dn → req st s ≠ [] → s ∈ Gp.*1)) (nodes_of p) (set_grants g st))
    as (st' & E & Gp & Hst' & Hsame & Hgr' & _ & Hall).
  - exists []. split; [destruct Hst; by constructor|]. split; [constructor; by try split_and!|].
    split; [|split; set_solver]. rewrite app_nil_r. destruct Hgr as [He Hnd Hg1]. constructor; [|done|].
    + intros dp sp Hdp Hsp Hin. cbn [set_grants grants]. rewrite Hge by done. case_decide as Esp.
      * symmetry. apply list_filter_none. intros [s d] Hin' [_ E]. cbn [fst] in E. destruct (Hg1 s d Hin') as (_ & _ & Hps1 & _). congruence.
      * apply He; [done..|]. set_solver.
    + intros s d Hin. destruct (Hg1 s d Hin) as (? & ? & ? & ? & ? & ? & ?). split_and!; try done. set_solver.
  - intros dn s rest st1 Enodes (Gp & Hst1 & Hsame & Hgr1 & Hdn & Hall).
    assert (s ∈ nodes_of p) as Hin by (rewrite Enodes; set_solver). apply elem_of_nodes_of in Hin as [Hs Hsp]; [|done].
    assert (s ∉ (G ++ Gp).*1) as Hs_new.
    { rewrite fmap_app. intros [Hin|Hin]%elem_of_app.
      - apply list_elem_of_fmap in Hin as ([s' d'] & E & Hin). cbn [fst] in E. subst s'. destruct (gr_edge _ _ _ Hgr _ _ Hin) as (_ & _ & Hps1 & _). congruence.
      - apply Hdn in Hin. pose proof (NoDup_nodes_of p) as Hnd. rewrite Enodes in Hnd. apply NoDup_app in Hnd as (_ & Hdisj & _). by apply (Hdisj s Hin), elem_of_cons; left. }
    pose proof (same_demands _ _ Hsame Hd) as Hd1.
    destruct (Hf p s st1 Hst1 Hd1 Hs Hsp) as (st2 & o & E2 & Hstep & Hsome).
    + intros Hfi x Hx. destruct (same_used _ _ x Hsame Hx) as [-> ->]. by apply Hfresh.
    + intros dp Hdp. apply (granted_room (ps ++ [p]) p s st1 (G ++ Gp)); try done. set_solver.
    + exists st2. split; [exact E2|]. pose proof Hstep as (Hst2 & Hsame2 & Ho). destruct o as [d|].
      * destruct Ho as (_ & _ & _ & Hlk & _). exists (Gp ++ [(s, d)]). split; [done|]. split; [by etrans|]. rewrite app_assoc. split.
        { apply (granted_snoc _ p s d st1); try done; [by apply (nodes_of_req st1 s _ _ Hd1 Hs Hlk)|set_solver]. }
        rewrite fmap_app. cbn [fmap list_fmap fst]. split; [set_solver|]. intros Hfi x [Hx|Hx]%elem_of_app Hrx; set_solver.
      * destruct Ho as [Eg2 Hix]. exists Gp. split; [done|]. split; [by etrans|]. split; [by apply (granted_weaken _ st1)|]. split; [set_solver|].
        intros Hfi x [Hx|Hx]%elem_of_app Hrx; [by apply Hall|]. apply list_elem_of_singleton in Hx as ->.
        rewrite <- (same_req _ _ s Hsame) in Hrx. by destruct (Hsome Hfi Hrx).
  - exists st', Gp. split; [exact E|]. split_and!; try done. intros Hfi s Hs Hsp. apply Hall; [done|]. by apply elem_of_nodes_of.
Qed.
End pim.

(** ** Accepting

    The specification of [pim_do_accept]: every destination that was granted to
    accepts exactly one of its grants. [accepted ps G A] says that the edge lists hold
    the accepts [A] of the destination partitions [ps]. *)
Section pim.
Context {R Q : Type} `{!Inhabited R} `{Ring R bin}.
Implicit Types (st : pim_state R Q).

(** The sources that grant to [d]. *)
Definition granters st (d : Z) : list Z := nbrs (arr_get (grants_by_dst st) (PARTITION_OF d)) (PARTITION_IDX d).

(** What accepting leaves alone. *)
Record same_but_accepts st st' : Prop := {
  sa_requests : requests_by_src st' = requests_by_src st;
  sa_grants : grants st' = grants st;
  sa_backlog : pim_backlog st' = pim_backlog st;
  sa_new : new_demands st' = new_demands st;
  sa_out : q_admitted_out st' = q_admitted_out st;
  sa_core : ∀ p, part p → admitted (core st' p) = admitted (core st p) ∧ src_endnodes (core st' p) = src_endnodes (core st p) ∧
    grant_adj_index (core st' p) = grant_adj_index (core st p) ∧ q_new_demands (core st' p) = q_new_demands (core st p);
}.

#[export] Instance same_but_accepts_preorder : PreOrder same_but_accepts.
Proof.
  split.
  - intros st. constructor; naive_solver.
  - intros st1 st2 st3 H1 H2. destruct H1 as [? ? ? ? ? H1], H2 as [? ? ? ? ? H2]. constructor; try congruence.
    intros p Hp. destruct (H1 p Hp) as (? & ? & ? & ?), (H2 p Hp) as (? & ? & ? & ?). split_and!; congruence.
Qed.

(** [o] is the source that destination [d] accepts. *)
Definition accept_step (d : Z) st st' (o : option Z) : Prop :=
  pim_shape st' ∧ same_but_accepts st st' ∧ grants_by_dst st' = grants_by_dst st ∧
  match o with
  | None => granters st d = [] ∧ accepts st' = accepts st ∧ ∀ x, node x → dst_used st' x = dst_used st x
  | Some s => s ∈ granters st d ∧
      (∀ dp sp, part dp → part sp → edges (accepts st') dp sp =
         if decide (dp = PARTITION_OF d ∧ sp = PARTITION_OF s) then edges (accepts st) dp sp ++ [(s, d)] else edges (accepts st) dp sp) ∧
      ∀ x, node x → dst_used st' x = bool_decide (x = d) || dst_used st x
  end.

Lemma accept_dst_spec p d st : pim_shape st → node d → PARTITION_OF d = p → (∀ s, s ∈ granters st d → node s) →
  (∀ sp, part sp → (length (edges (accepts st) p sp) < 128)%nat) →
  ∃ st' o, accept_dst p d st = Some st' ∧ accept_step d st st' o.
Proof.
  intros Hst Hd Hp Hnode Hroom. destruct (node_split d Hd) as (Hpp & Hi & Ed). rewrite Hp in Hpp, Ed.
  pose proof (ps_core _ Hst p Hpp) as [Hrand Hix Hsrc Hdst Hring]. pose proof (ps_adj_dst _ Hst p Hpp) as Ha.
  pose proof (ao_range _ Ha _ Hi) as Hr. pose proof Hpp as Hpp'. unfold part in Hpp'. pose proof Hi as Hi'. unfold index in Hi'.
  unfold accept_dst. rewrite (arr_read_get (grants_by_dst st)) by (rewrite (ps_by_dst _ Hst); lia). cbn [mbind option_bind].
  rewrite (arr_read_get (degree _)) by (rewrite (ao_degree _ Ha); lia). cbn [mbind option_bind].
  pose proof (length_nbrs _ _ Ha Hi) as Hlen. case_match eqn:E0.
  { exists st, None. split; [done|]. split; [done|]. split; [done|]. split; [done|]. split; [|done].
    unfold granters. rewrite Hp. apply nil_length_inv. lia. }
  rewrite read_core by done. cbn [mbind option_bind].
  apply Z.eqb_neq in E0. set (deg := arr_get (degree _) _) in *.
  pose proof (random_int_spec (rand_state (core st p)) deg Hrand ltac:(lia)) as Hrs.
  destruct (random_int _ _) as [k rand]. destruct Hrs as [Hk Hrand'].
  destruct (ga_neigh_spec _ _ k Ha Hi Hk) as (s & En & El). rewrite En. cbn [mbind option_bind].
  assert (s ∈ granters st d) as Hin by (unfold granters; rewrite Hp; by eapply list_elem_of_lookup_2).
  pose proof (Hnode s Hin) as Hs. destruct (node_split s Hs) as (Hsp & _ & _).
  destruct (ga_partd_edgelist_add_spec (accepts st) s d (ps_accepts _ Hst) Hs Hd) as (g & Eg & Hg & Hge); [rewrite Hp; by apply Hroom|].
  rewrite Eg. cbn [mbind option_bind]. unfold mark_dst_allocated. cbn [set_rand dst_endnodes].
  destruct (mark_bit_spec (dst_endnodes (core st p)) _ Hdst Hi) as (l & Em & Hl & Hbit). rewrite Em. cbn [mbind option_bind].
  set (c := set_dst_endnodes l _).
  assert (pim_shape (set_cores (arr_set (cores st) p c) st)) as Hst1 by (apply shape_set_core; [done..|by constructor]).
  eexists _, (Some s). split; [done|]. split; [destruct Hst1; by constructor|]. split; [|split; [done|split; [done|split; [by apply Hge|]]]].
  - constructor; try done. intros q Hq. unfold core at 1 3 5 7. cbn [set_accepts set_cores cores]. rewrite core_set by done. case_decide; [by subst|done].
  - intros x Hx. destruct (node_split x Hx) as (Hxp & Hxi & Ex). unfold dst_used at 1, core. cbn [set_accepts set_cores cores].
    rewrite core_set by done. case_decide as Epx.
    + cbn [c set_dst_endnodes dst_endnodes]. rewrite Hbit by done. unfold dst_used. rewrite <- Epx. f_equal. apply bool_decide_ext.
      split; [intros E; rewrite Ex, Ed; congruence|by intros ->].
    + rewrite bool_decide_eq_false_2; [done|]. intros ->. congruence.
Qed.

(** ** Sorting the grants by destination *)
Lemma sources_sublist l j x : x ∈ sources_of l j → ∃ d, (x, d) ∈ l ∧ PARTITION_IDX d = j.
Proof.
  unfold sources_of. intros ([x' d] & -> & Hin)%list_elem_of_fmap. apply list_elem_of_filter in Hin as [Ej Hin]. by exists d.
Qed.

Lemma sort_grants p st0 st G : pim_shape st → part p → granted [0; 1] st0 G → grants st = grants st0 →
  ∃ adj, (a ← arr_read (grants_by_dst st) p;
      for_each (λ src_partition adj, edgelist ← ga_get_edgelist (grants st) p src_partition;
        ga_edges_to_adj_by_dst (edge edgelist) (n edgelist) adj) (seqZ 0 N_PARTITIONS) (ga_reset_adj a)) = Some adj ∧ adj_ok adj ∧
    ∀ d, node d → PARTITION_OF d = p → ∀ s, s ∈ nbrs adj (PARTITION_IDX d) ↔ (s, d) ∈ G.
Proof.
  intros Hst Hp [He Hnd Hg] Egr. rewrite <- Egr in He. pose proof (ps_grants _ Hst) as Hpe. pose proof Hp as Hp'. unfold part in Hp'.
  rewrite (arr_read_get (grants_by_dst st)) by (rewrite (ps_by_dst _ Hst); lia). cbn [mbind option_bind]. change (seqZ 0 N_PARTITIONS) with [0; 1]. cbn [for_each].
  destruct (ga_reset_adj_spec _ (ps_adj_dst _ Hst p Hp)) as [Ha0 Hn0]. set (adj0 := ga_reset_adj _) in *.
  assert (part 0 ∧ part 1) as [Hp0 Hp1] by (unfold part; lia).
  pose proof (He p 0 Hp Hp0 ltac:(set_solver)) as E0. pose proof (He p 1 Hp Hp1 ltac:(set_solver)) as E1.
  set (l0 := edges (grants st) p 0) in *. set (l1 := edges (grants st) p 1) in *.
  assert (∀ l sp, l = filter (λ e : ga_edge, PARTITION_OF e.2 = p ∧ PARTITION_OF e.1 = sp) G → Forall (λ e, node e.2) l) as Hnode.
  { intros l sp ->. apply Forall_forall. intros [s d] Hin. apply list_elem_of_filter in Hin as [_ Hin]. by destruct (Hg s d Hin) as (_ & ? & _). }
  assert (∀ j, NoDup (sources_of l0 j ++ sources_of l1 j) ∧ ∀ x, x ∈ sources_of l0 j ++ sources_of l1 j → node x) as Hsrc.
  { intros j. split.
    - apply NoDup_app. rewrite E0, E1. split; [by apply filter_fst_sub, filter_fst_sub|]. split; [|by apply filter_fst_sub, filter_fst_sub].
      intros x Hx0 Hx1. apply sources_sublist in Hx0 as (d0 & [[_ F0] _]%list_elem_of_filter & _), Hx1 as (d1 & [[_ F1] _]%list_elem_of_filter & _). cbn [fst] in *. lia.
    - rewrite E0, E1. intros x [Hx|Hx]%elem_of_app; apply sources_sublist in Hx as (d & [_ Hin]%list_elem_of_filter & _); by destruct (Hg x d Hin). }
  rewrite ga_get_edgelist_spec by done. cbn [mbind option_bind].
  destruct (ga_edges_to_adj_by_dst_spec (get_el (grants st) p 0) adj0 (po_el _ Hpe p 0 Hp Hp0) Ha0 (Hnode l0 0 E0)) as (adj1 & -> & Ha1 & Hn1).
  { intros j Hj. rewrite Hn0 by done. destruct (Hsrc j) as [Hj1 Hj2]. apply length_nodes; [by apply NoDup_app in Hj1 as [? _]|set_solver]. }
  rewrite ga_get_edgelist_spec by done. cbn [mbind option_bind].
  destruct (ga_edges_to_adj_by_dst_spec (get_el (grants st) p 1) adj1 (po_el _ Hpe p 1 Hp Hp1) Ha1 (Hnode l1 1 E1)) as (adj2 & -> & Ha2 & Hn2).
  { intros j Hj. rewrite Hn1, Hn0 by done. destruct (Hsrc j) as [Hj1 Hj2]. by apply length_nodes. }
  exists adj2. split; [done|]. split; [done|]. intros d Hd Hdp s. destruct (node_split d Hd) as (_ & Hi & Ed).
  rewrite Hn2, Hn1, Hn0 by done. change (edges_of (get_el (grants st) p 0)) with l0. change (edges_of (get_el (grants st) p 1)) with l1.
  rewrite app_nil_l, <- sources_of_app. split.
  - intros Hin. apply sources_sublist in Hin as (d' & Hin & Ei). rewrite E0, E1 in Hin.
    assert (PARTITION_OF d' = p ∧ (s, d') ∈ G) as [Ep HinG] by (apply elem_of_app in Hin as [[[? _] ?]%list_elem_of_filter|[[? _] ?]%list_elem_of_filter]; done).
    destruct (Hg s d' HinG) as (_ & Hd' & _). destruct (node_split d' Hd') as (_ & _ & Ed'). assert (d' = d) as -> by (rewrite Ed, Ed'; congruence). done.
  - intros Hin. destruct (Hg s d Hin) as (Hs & _ & Hps & _). unfold sources_of. apply list_elem_of_fmap. exists (s, d). split; [done|].
    apply list_elem_of_filter. split; [done|]. rewrite E0, E1. apply elem_of_app. rewrite !list_elem_of_filter. cbn [fst snd]. set_solver.
Qed.

(** ** One partition *)
Record accepted (ps : list Z) st0 st (G A : list ga_edge) : Prop := {
  ac_edges : ∀ dp sp, part dp → part sp → edges (accepts st) dp sp = filter (λ e, PARTITION_OF e.2 = dp ∧ PARTITION_OF e.1 = sp) A;
  ac_nodup : NoDup A.*2;
  ac_edge : ∀ s d, (s, d) ∈ A → (s, d) ∈ G ∧ PARTITION_OF d ∈ ps;
  ac_used : ∀ x, node x → dst_used st x = bool_decide (x ∈ A.*2) || dst_used st0 x;
}.

Lemma same_granted ps st st' G : same_but_accepts st st' → granted ps st G →
  (∀ s d, (s, d) ∈ G → dst_used st' d = false) → granted ps st' G.
Proof.
  intros Hsame [He Hnd Hg] Hfree. constructor; [by rewrite (sa_grants _ _ Hsame)|done|]. intros s d Hin.
  destruct (Hg s d Hin) as (Hs & Hd & Hp & Hk & Hlk & Hus & _). destruct (node_split s Hs) as (Hps & _ & _).
  destruct (sa_core _ _ Hsame _ Hps) as (_ & E1 & E2 & _). unfold adj_index, req, adj_of, src_used.
  rewrite E1, E2, (sa_requests _ _ Hsame). split_and!; try done. by apply (Hfree s).
Qed.

Lemma filter_snd_sub (P : ga_edge → Prop) `{∀ e, Decision (P e)} (G : list ga_edge) : NoDup G.*2 → NoDup (filter P G).*2.
Proof.
  induction G as [|e G IH]; [done|]. intros [Hne Hnd]%NoDup_cons. rewrite filter_cons. case_decide; [|by apply IH].
  apply NoDup_cons. split; [|by apply IH]. intros Hin. apply Hne. apply list_elem_of_fmap in Hin as (y & -> & Hy).
  apply list_elem_of_filter in Hy as [_ Hy]. by apply list_elem_of_fmap_2.
Qed.

Lemma accepted_room ps st0 st G A p sp d : accepted ps st0 st G A → (∀ s d, (s, d) ∈ G → node d) →
  part p → part sp → node d → PARTITION_OF d = p → d ∉ A.*2 → (length (edges (accepts st) p sp) < 128)%nat.
Proof.
  intros [He Hnd Ha _] HG Hp Hsp Hd Hdp Hnew. rewrite He by done. set (l := filter _ A).
  assert (length (d :: l.*2) ≤ 128)%nat as Hle; [|cbn [length] in Hle; rewrite length_fmap in Hle; lia].
  assert (∀ x, x ∈ l.*2 → x ∈ A.*2 ∧ node x ∧ PARTITION_OF x = p) as Hl.
  { intros x Hx. apply list_elem_of_fmap in Hx as ([s x'] & -> & Hin). apply list_elem_of_filter in Hin as [[Ep _] Hin].
    split; [by apply (list_elem_of_fmap_2 snd _ (s, x'))|]. split; [|done]. destruct (Ha s x' Hin) as [HinG _]. by apply (HG s). }
  apply (length_part _ p).
  - apply NoDup_cons. split; [intros Hin; by apply Hnew, Hl|by apply filter_snd_sub].
  - intros x [-> |Hx]%elem_of_cons; [done|by apply Hl].
Qed.

Lemma accepted_snoc ps st0 st st' G A s d : accepted ps st0 st G A → (s, d) ∈ G → node d → PARTITION_OF d ∈ ps → d ∉ A.*2 →
  (∀ dp sp, part dp → part sp → edges (accepts st') dp sp =
     if decide (dp = PARTITION_OF d ∧ sp = PARTITION_OF s) then edges (accepts st) dp sp ++ [(s, d)] else edges (accepts st) dp sp) →
  (∀ x, node x → dst_used st' x = bool_decide (x = d) || dst_used st x) → accepted ps st0 st' G (A ++ [(s, d)]).
Proof.
  intros [He Hnd Ha Hu] HG Hd Hp Hnew He' Hu'. constructor.
  - intros dp sp Hdp Hsp. rewrite He', filter_app, filter_cons, filter_nil by done. cbn [fst snd]. rewrite He by done.
    repeat case_decide; try (rewrite app_nil_r; done); try done; naive_solver.
  - rewrite fmap_app. apply NoDup_app. split; [done|]. split; [set_solver|]. apply NoDup_singleton.
  - intros s' d' [Hin|Hin]%elem_of_app; [by apply Ha|]. by apply list_elem_of_singleton in Hin as [= -> ->].
  - intros x Hx. rewrite Hu', Hu, fmap_app by done. rewrite orb_assoc. f_equal. cbn [fmap list_fmap snd].
    rewrite <- bool_decide_or. apply bool_decide_ext. set_solver.
Qed.

Lemma accept_phase_spec ps p st0 st G A : pim_shape st → part p → p ∉ ps → granted [0; 1] st0 G →
  same_but_accepts st0 st → accepted ps st0 st G A → (∀ d, d ∈ G.*2 → PARTITION_OF d ∈ ps → d ∈ A.*2) →
  ∃ st' A', pim_do_accept p st = Some st' ∧ pim_shape st' ∧ same_but_accepts st0 st' ∧ accepted (ps ++ [p]) st0 st' G A' ∧
    (∀ d, d ∈ G.*2 → PARTITION_OF d ∈ ps ++ [p] → d ∈ A'.*2).
Proof.
  intros Hst Hp Hnew Hgr Hsame Hac Hall.
  destruct (sort_grants p st0 st G Hst Hp Hgr (sa_grants _ _ Hsame)) as (adj & Eadj & Hadj & Hnbrs).
  assert (∀ s d, (s, d) ∈ G → node s ∧ node d) as HG by (intros s d Hin; by destruct (gr_edge _ _ _ Hgr s d Hin) as (? & ? & _)).
  unfold pim_do_accept. destruct (arr_read (grants_by_dst st) p) as [a|]; [|done]. cbn [mbind option_bind] in Eadj |- *. rewrite Eadj. cbn [mbind option_bind].
  set (st1 := set_grants_by_dst _ st).
  assert (∀ d, node d → PARTITION_OF d = p → ∀ s, s ∈ granters st1 d ↔ (s, d) ∈ G) as Hgran.
  { intros d Hd Hdp s. rewrite <- Hnbrs by done. unfold granters, st1. cbn [set_grants_by_dst grants_by_dst]. rewrite Hdp.
    unfold part in Hp. rewrite arr_get_set by (rewrite ?(ps_by_dst _ Hst); lia). by rewrite decide_True. }
  destruct (for_each_inv (accept_dst p) (λ dn st', ∃ A', pim_shape st' ∧ same_but_accepts st0 st' ∧ grants_by_dst st' = grants_by_dst st1 ∧
      accepted (ps ++ [p]) st0 st' G A' ∧ (∀ d, d ∈ A'.*2 → PARTITION_OF d = p → d ∈ dn) ∧
      (∀ d, d ∈ G.*2 → PARTITION_OF d ∈ ps ∨ d ∈ dn → d ∈ A'.*2)) (nodes_of p) st1) as (st' & E & A' & Hst' & Hsame' & _ & Hac' & _ & Hall').
  - exists A. split; [|split_and!].
    + destruct Hst as [? ? ? Hadj' ? ? ? ? ?]. constructor; try done; cbn [st1 set_grants_by_dst grants_by_dst]; [by rewrite length_arr_set|].
      intros q Hq. unfold part in *. rewrite arr_get_set by lia. case_decide; [done|by apply Hadj'].
    + destruct Hsame. by constructor.
    + done.
    + destruct Hac as [He Hnd Ha Hu]. constructor; try done. intros s d Hin. destruct (Ha s d Hin). set_solver.
    + intros d Hin Hdp. apply list_elem_of_fmap in Hin as ([s d'] & E & Hin). cbn [snd] in E. subst d'. destruct (ac_edge _ _ _ _ _ Hac s d Hin). congruence.
    + intros d Hin [Hd|Hd]; [by apply Hall|set_solver].
  - intros dn d rest st2 Enodes (A2 & Hst2 & Hsame2 & Eby & Hac2 & Hdn & Hall2).
    assert (d ∈ nodes_of p) as Hin by (rewrite Enodes; set_solver). apply elem_of_nodes_of in Hin as [Hd Hdp]; [|done].
    assert (∀ s, s ∈ granters st2 d ↔ (s, d) ∈ G) as Hgran2.
    { intros s. rewrite <- Hgran by done. unfold granters. by rewrite Eby. }
    assert (d ∉ A2.*2) as Hd_new.
    { intros Hin. apply Hdn in Hin; [|done]. pose proof (NoDup_nodes_of p) as Hnd. rewrite Enodes in Hnd.
      apply NoDup_app in Hnd as (_ & Hdisj & _). by apply (Hdisj d Hin), elem_of_cons; left. }
    destruct (accept_dst_spec p d st2 Hst2 Hd Hdp) as (st3 & o & E3 & Hst3 & Hsame3 & Eby3 & Ho).
    { intros s Hs. apply Hgran2 in Hs. by apply (HG s d). }
    { intros sp Hsp. apply (accepted_room (ps ++ [p]) st0 st2 G A2 p sp d); try done. intros s' d' Hin. by apply (HG s' d'). }
    exists st3. split; [exact E3|]. destruct o as [s|].
    + destruct Ho as (Hs & He & Hu). apply Hgran2 in Hs. exists (A2 ++ [(s, d)]). split; [done|]. split; [by etrans|]. split; [congruence|].
      split; [apply (accepted_snoc _ _ st2); try done; rewrite Hdp; set_solver|]. rewrite fmap_app. cbn [fmap list_fmap snd]. set_solver.
    + destruct Ho as (Hnone & Ea & Hu). exists A2. split; [done|]. split; [by etrans|]. split; [congruence|]. split; [|split; [set_solver|]].
      * destruct Hac2 as [He2 Hnd2 Ha2 Hu2]. constructor; [by rewrite Ea|done|done|]. intros x Hx. by rewrite Hu, Hu2.
      * intros x Hx [Hxp|[Hxd|Hxd]%elem_of_app]; [apply Hall2; auto..|]. apply list_elem_of_singleton in Hxd as ->.
        apply list_elem_of_fmap in Hx as ([s x'] & Ex & Hin). cbn [snd] in Ex. subst x'. apply Hgran2 in Hin. rewrite Hnone in Hin. by apply not_elem_of_nil in Hin.
  - exists st', A'. split; [exact E|]. split_and!; try done. intros d Hd Hdp. apply Hall'; [done|]. apply elem_of_app in Hdp as [Hdp|Hdp]; [by left|right].
    apply elem_of_nodes_of; [done|]. apply list_elem_of_singleton in Hdp. split; [|done]. apply list_elem_of_fmap in Hd as ([s d'] & -> & Hin). by apply (HG s d').
Qed.
End pim.
