(* ===== verification/PimRun.v ===== *)
(** * Processing the accepts, and iterations

    The specification of [pim_process_accepts]: every accepted edge is admitted, its
    backlog is decreased by one, and the request is deleted with the last of it.
    [processed L st st'] says that the edges [L] were processed from [st] to [st'].
    Then iterations and new requests. *)

From S2P Require Import Prelude Pacer Ring Lists Admission GrantAccept Pim PimFacts PimGrant.

Import Topology GA Pim.

(** [backlog_decrease] decreases the backlog of the pair by 1 and returns what is left. *)
Definition decreases (backlog_decrease : backlog → Z → Z → Z * backlog) : Prop := ∀ b s d v,
  backlog_get b s d = Some v → 0 < v →
  let '(remaining, b') := backlog_decrease b s d in
  remaining = v - 1 ∧ backlog_n b' = arr_set (backlog_n b) (get_status_index s d) (v - 1).

Section pim.
Context {R Q : Type} `{!Inhabited R} `{Ring R bin}.
Implicit Types (st : pim_state R Q).

Definition count (L : list ga_edge) (e : ga_edge) : Z := sum_of (λ e', b2z (bool_decide (e' = e))) L.

Lemma count_one s d x y : count [(s, d)] (x, y) = if decide (x = s ∧ y = d) then 1 else 0.
Proof.
  unfold count. unfold sum_of. simpl. case_decide as E; case_bool_decide as E'; [done|..|done]; exfalso; [|naive_solver].
  destruct E as [-> ->]. done.
Qed.

Lemma count_NoDup L e : NoDup L → count L e = if decide (e ∈ L) then 1 else 0.
Proof.
  induction L as [|e' L IH]; [done|]. intros [Hne Hnd]%NoDup_cons. unfold count in *. cbn [sum_of foldr]. fold (sum_of (λ e', b2z (bool_decide (e' = e))) L).
  rewrite IH by done. destruct (decide (e' = e)) as [->|Hn].
  - rewrite bool_decide_eq_true_2, (decide_False (P := e ∈ L)), decide_True by (done || by left). done.
  - rewrite bool_decide_eq_false_2 by done. repeat case_decide; set_solver.
Qed.

Record processed (L : list ga_edge) st st' : Prop := {
  pc_grants : grants st' = grants st;
  pc_by_dst : grants_by_dst st' = grants_by_dst st;
  pc_accepts : accepts st' = accepts st;
  pc_new : new_demands st' = new_demands st;
  pc_out : q_admitted_out st' = q_admitted_out st;
  pc_core : ∀ p, part p → dst_endnodes (core st' p) = dst_endnodes (core st p) ∧
    grant_adj_index (core st' p) = grant_adj_index (core st p) ∧ q_new_demands (core st' p) = q_new_demands (core st p) ∧
    admitted (core st' p) = {| adm_partition := adm_partition (admitted (core st p));
      adm_edges := out_edges st p ++ filter (λ e, PARTITION_OF e.1 = p) L |};
  pc_used : ∀ x, node x → src_used st' x = bool_decide (x ∈ L.*1) || src_used st x;
  pc_bl : ∀ s d, node s → node d → bl st' s d = bl st s d - count L (s, d);
  pc_req : ∀ s, node s → s ∉ L.*1 → req st' s = req st s;
}.

Lemma admitted_eta (a : admitted_struct) : {| adm_partition := adm_partition a; adm_edges := adm_edges a ++ [] |} = a.
Proof. destruct a. by rewrite app_nil_r. Qed.

Lemma processed_nil st : processed [] st st.
Proof.
  constructor; try done.
  - intros p Hp. split_and!; try done. unfold out_edges. by rewrite filter_nil, admitted_eta.
  - intros s d _ _. unfold count. simpl. lia.
Qed.

Lemma processed_app L L' st1 st2 st3 : processed L st1 st2 → processed L' st2 st3 → processed (L ++ L') st1 st3.
Proof.
  intros H1 H2. destruct H1 as [? ? ? ? ? Hc1 Hu1 Hb1 Hr1], H2 as [? ? ? ? ? Hc2 Hu2 Hb2 Hr2]. constructor; try congruence.
  - intros p Hp. destruct (Hc1 p Hp) as (? & ? & ? & E1), (Hc2 p Hp) as (? & ? & ? & E2). split_and!; try congruence.
    rewrite E2, filter_app, app_assoc. unfold out_edges at 1. by rewrite E1.
  - intros x Hx. rewrite Hu2, Hu1, fmap_app by done. rewrite orb_assoc. f_equal. rewrite <- bool_decide_or. apply bool_decide_ext. set_solver.
  - intros s d Hs Hd. rewrite Hb2, Hb1 by done. unfold count. rewrite sum_of_app. lia.
  - intros s Hs Hnew. rewrite fmap_app in Hnew. rewrite Hr2, Hr1; set_solver.
Qed.

(** ** One edge *)

(** Removing a request with the last of its backlog. *)
Lemma demands_step s d st st' : demands_ok st → node s → node d → d ∈ req st s →
  (∀ x, node x → pend st' x = pend st x) → (∀ p, part p → waiting st' p = waiting st p) →
  (∀ x y, node x → node y → bl st' x y = bl st x y - count [(s, d)] (x, y)) →
  (∀ x, node x → x ≠ s → req st' x = req st x) →
  (if decide (bl st s d = 1) then req st s ≡ₚ d :: req st' s else req st' s = req st s) → demands_ok st'.
Proof.
  intros Hd Hs Hdn Hin Hpend Hw Hbl Hreq Hreqs.
  assert (∀ x y, node x → node y → bl st' x y = if decide (x = s ∧ y = d) then bl st s d - 1 else bl st x y) as Hbl'.
  { intros x y Hx Hy. rewrite Hbl, count_one by done. repeat case_decide; destruct_and?; subst; try lia; naive_solver. }
  pose proof (do_nodup _ _ Hd s Hs) as Hnd. pose proof (do_backlog _ _ Hd s d Hs) as Hb.
  assert (0 < bl st s d) as Hpos by (apply Hb; set_solver).
  constructor.
  - intros x Hx. rewrite Hpend by done. destruct (decide (x = s)) as [->|Hne]; [|rewrite Hreq by done; by apply (do_nodup _ _ Hd)].
    case_decide as E1; [|rewrite Hreqs; done]. rewrite Hreqs in Hnd. by apply NoDup_cons in Hnd as [_ Hnd].
  - intros x y Hx. rewrite Hpend by done. pose proof (do_backlog _ _ Hd x y Hx) as Hxy.
    destruct (decide (x = s)) as [->|Hne].
    + case_decide as E1.
      * rewrite Hreqs in Hxy, Hnd. apply NoDup_cons in Hnd as [Hnot _]. destruct (decide (y = d)) as [->|Hyd].
        -- split; [done|]. intros [_ Hlt]. rewrite Hbl', decide_True in Hlt by done. lia.
        -- split; [intros Hyin|intros [Hy Hlt]].
           ++ destruct Hxy as [Hxy _]. destruct Hxy as [Hy Hlt]; [set_solver|]. split; [done|]. rewrite Hbl', decide_False by naive_solver. done.
           ++ rewrite Hbl', decide_False in Hlt by naive_solver. destruct Hxy as [_ Hxy]. specialize (Hxy (conj Hy Hlt)). set_solver.
      * rewrite Hreqs, Hxy. split; intros [Hy Hlt]; (split; [done|]); rewrite Hbl' in * by done; case_decide as E2; try done; destruct E2 as [_ ->]; lia.
    + rewrite Hreq, Hxy by done. split; intros [Hy Hlt]; (split; [done|]); rewrite Hbl', decide_False in * by naive_solver; done.
  - intros p e Hp. rewrite Hw by done. by apply (do_waiting _ _ Hd).
Qed.

(** What must hold of an accepted edge before it is processed. *)
Definition processable p st (e : ga_edge) : Prop :=
  node e.1 ∧ node e.2 ∧ PARTITION_OF e.1 = p ∧ 0 ≤ adj_index st e.1 ∧ req st e.1 !! Z.to_nat (adj_index st e.1) = Some e.2.

Lemma processable_after p L st st' e : processed L st st' → processable p st e → e.1 ∉ L.*1 → processable p st' e.
Proof.
  intros Hproc (Hs & Hd & Hp & Hk & Hlk) Hnew. destruct (node_split e.1 Hs) as (Hpp & _ & _).
  destruct (pc_core _ _ _ Hproc _ Hpp) as (_ & E & _). unfold processable.
  rewrite (pc_req _ _ _ Hproc) by done. unfold adj_index in *. by rewrite E.
Qed.

Lemma demands_set_accepts a st : demands_ok st → demands_ok (set_accepts a st).
Proof. intros [? ? ?]. by constructor. Qed.

Lemma processed_set_accepts a L st st' : processed L st st' → processed L (set_accepts a st) (set_accepts a st').
Proof. intros []. by constructor. Qed.

Context (backlog_decrease : backlog → Z → Z → Z * backlog).
Hypothesis Hdecrease : decreases backlog_decrease.

Lemma process_accept_spec p s d st : pim_shape st → demands_ok st → node s → node d → PARTITION_OF s = p →
  0 ≤ adj_index st s → req st s !! Z.to_nat (adj_index st s) = Some d → (length (out_edges st p) < 256)%nat →
  ∃ st', process_accept backlog_decrease p (s, d) st = Some st' ∧ pim_shape st' ∧ demands_ok st' ∧ processed [(s, d)] st st'.
Proof.
  intros Hst Hd Hs Hdn Hp Hk Hlk Hroom. destruct (node_split s Hs) as (Hpp & Hi & Es). rewrite Hp in Hpp, Es.
  pose proof (ps_core _ Hst p Hpp) as [Hrand Hix Hsrc Hdst Hring].
  assert (d ∈ req st s) as Hin by (by eapply list_elem_of_lookup_2).
  assert (0 < bl st s d) as Hpos by (apply (do_backlog _ _ Hd s d Hs); set_solver).
  pose proof (status_index s d Hs Hdn) as Eix. pose proof (ps_backlog _ Hst) as Hlen. pose proof Hs as Hs'. pose proof Hdn as Hdn'. unfold node in Hs', Hdn'.
  assert (backlog_get (pim_backlog st) s d = Some (bl st s d)) as Eget.
  { unfold backlog_get. rewrite Eix. apply arr_read_get. lia. }
  unfold process_accept. rewrite read_core by done. cbn [mbind option_bind fst snd].
  unfold insert_admitted_edge. change MAX_NODES with 256. fold (out_edges st p).
  rewrite (proj2 (Z.ltb_lt (Z.of_nat _) 256)), (proj2 (Z.ltb_lt s 256)), (proj2 (Z.ltb_lt d 256)) by lia. cbn [andb mbind option_bind].
  unfold mark_src_allocated. cbn [set_admitted src_endnodes].
  destruct (mark_bit_spec (src_endnodes (core st p)) _ Hsrc Hi) as (l & Em & Hl & Hbit). rewrite Em. cbn [mbind option_bind].
  set (c := set_src_endnodes l _). set (st1 := set_cores (arr_set (cores st) p c) st).
  change (pim_backlog st1) with (pim_backlog st). rewrite Eget. cbn [mbind option_bind].
  rewrite (proj2 (Z.eqb_neq (bl st s d) 0)) by lia.
  pose proof (Hdecrease (pim_backlog st) s d (bl st s d) Eget Hpos) as Hdec. destruct (backlog_decrease _ s d) as [remaining b].
  destruct Hdec as [Erem Eb]. rewrite Eix in Eb. set (st2 := set_backlog b st1).
  assert (∀ q, part q → core st2 q = if decide (p = q) then c else core st q) as Hcore.
  { intros q Hq. unfold core at 1. cbn [st2 st1 set_backlog set_cores cores]. by apply core_set. }
  assert (pim_shape st1) as Hst1 by (apply shape_set_core; [done..|by constructor]).
  assert (pim_shape st2) as Hst2.
  { destruct Hst1. constructor; try done. cbn [st2 set_backlog pim_backlog]. by rewrite Eb, length_arr_set. }
  assert (∀ x y, node x → node y → bl st2 x y = bl st x y - count [(s, d)] (x, y)) as Hbl.
  { intros x y Hx Hy. unfold node in Hx, Hy. unfold bl at 1. cbn [st2 set_backlog pim_backlog]. rewrite Eb, arr_get_set by lia.
    rewrite count_one. unfold bl. case_decide as E1; case_decide as E2; try lia. destruct E2 as [-> ->]. lia. }
  assert (processed [(s, d)] st st2) as Hproc.
  { constructor; try done.
    - intros q Hq. rewrite Hcore by done. rewrite filter_cons, filter_nil. cbn [fst]. rewrite Hp. repeat case_decide; subst; try done.
      unfold out_edges. by rewrite admitted_eta.
    - intros x Hx. destruct (node_split x Hx) as (Hxp & Hxi & Ex). unfold src_used at 1. rewrite Hcore by done. cbn [fmap list_fmap fst]. case_decide as E.
      + cbn [c set_src_endnodes src_endnodes]. rewrite Hbit by done. unfold src_used. rewrite <- E. f_equal. apply bool_decide_ext. rewrite list_elem_of_singleton.
        split; [intros Ei; rewrite Ex, Es; congruence|by intros ->].
      + rewrite bool_decide_eq_false_2; [done|]. rewrite list_elem_of_singleton. intros ->. congruence. }
  assert (∀ q, part q → waiting st2 q = waiting st q) as Hw by (intros q Hq; unfold waiting; rewrite Hcore by done; case_decide; [by subst|done]).
  assert (∀ x, node x → pend st2 x = pend st x) as Hpend by (intros x Hx; unfold pend; rewrite Hw by (by apply node_split); done).
  case_match eqn:E0; [apply negb_true_iff, Z.eqb_neq in E0|apply negb_false_iff, Z.eqb_eq in E0].
  - exists st2. split; [done|]. split; [done|]. split; [|done]. apply (demands_step s d st st2); try done. rewrite decide_False by lia. done.
  - change (grant_adj_index c) with (grant_adj_index (core st p)).
    assert (arr_get (grant_adj_index (core st p)) (PARTITION_IDX s) = adj_index st s) as Eai by (unfold adj_index; by rewrite Hp).
    unfold index in Hi. rewrite (arr_read_get (grant_adj_index _)) by lia. cbn [mbind option_bind]. rewrite Hp, read_adj by done. cbn [mbind option_bind].
    change (adj_of st2 p) with (adj_of st p). rewrite Eai. unfold req in Hlk. rewrite Hp in Hlk.
    destruct (ga_adj_delete_neigh_spec (adj_of st p) (PARTITION_IDX s) (adj_index st s) d (ps_adj _ Hst p Hpp) Hi Hk Hlk) as (adj & E & Ha & Hperm & Hother).
    rewrite E. cbn [mbind option_bind]. destruct (shape_set_adj st2 p adj Hst2 Hpp Ha) as [Hst3 Hreq]. set (st3 := set_requests _ st2) in *.
    assert (∀ x, node x → x ≠ s → req st3 x = req st x) as Hreq3.
    { intros x Hx Hne. rewrite Hreq by done. case_decide as Exp; [|done]. destruct (node_split x Hx) as (_ & Hxi & Ex).
      rewrite Hother; [unfold req; by rewrite Exp|done|]. intros Ei. apply Hne. rewrite Ex, Es. congruence. }
    exists st3. split; [done|]. split; [done|]. split.
    + apply (demands_step s d st st3); try done. rewrite decide_True by lia. rewrite (Hreq s Hs), decide_True by done.
      unfold req. by rewrite Hp.
    + destruct Hproc. constructor; try done. intros x Hx Hne. apply Hreq3; set_solver.
Qed.

(** ** The accepts of one source partition *)

Lemma process_edges_spec p E : part p → ∀ st, pim_shape st → demands_ok st → NoDup E.*1 → Forall (processable p st) E →
  (length (out_edges st p ++ E) ≤ 256)%nat →
  ∃ st', for_each (process_accept backlog_decrease p) E st = Some st' ∧ pim_shape st' ∧ demands_ok st' ∧ processed E st st'.
Proof using Hdecrease.
  intros Hpp. induction E as [|[s d] E IH]; intros st Hst Hd Hnd Hall Hroom.
  { exists st. split_and!; try done. apply processed_nil. }
  apply Forall_cons in Hall as [(Hs & Hdn & Hp & Hk & Hlk) Hall]. rewrite fmap_cons in Hnd. cbn [fst snd] in *. apply NoDup_cons in Hnd as [Hnew Hnd].
  rewrite length_app in Hroom. cbn [length] in Hroom.
  destruct (process_accept_spec p s d st Hst Hd Hs Hdn Hp Hk Hlk ltac:(lia)) as (st1 & E1 & Hst1 & Hd1 & Hproc).
  destruct (IH st1 Hst1 Hd1 Hnd) as (st2 & E2 & Hst2 & Hd2 & Hproc2).
  - rewrite Forall_forall in Hall |- *. intros e He. apply (processable_after p [(s, d)] st); [done|by apply Hall|].
    cbn [fmap list_fmap fst]. rewrite list_elem_of_singleton. intros Ee. apply Hnew. rewrite <- Ee. by apply (list_elem_of_fmap_2 fst).
  - destruct (pc_core _ _ _ Hproc p Hpp) as (_ & _ & _ & Ea). unfold out_edges at 1. rewrite Ea. cbn [adm_edges].
    rewrite filter_cons, filter_nil, !length_app. cbn [fst]. rewrite decide_True by done. simpl. lia.
  - exists st2. cbn [for_each]. rewrite E1. split_and!; try done. by apply (processed_app [(s, d)] E _ st1).
Qed.

Lemma process_phase_spec p st : part p → pim_shape st → demands_ok st →
  let L := edges (accepts st) 0 p ++ edges (accepts st) 1 p in
  NoDup L.*1 → Forall (processable p st) L → (length (out_edges st p ++ L) ≤ 256)%nat →
  ∃ st', pim_process_accepts backlog_decrease p st = Some st' ∧ pim_shape st' ∧ demands_ok st' ∧
    processed L st (set_accepts (accepts st) st') ∧
    ∀ dp sp, part dp → part sp → edges (accepts st') dp sp = if decide (sp = p) then [] else edges (accepts st) dp sp.
Proof using Hdecrease.
  intros Hpp Hst Hd L Hnd Hall Hroom. assert (part 0 ∧ part 1) as [Hp0 Hp1] by (unfold part; lia).
  unfold L in Hnd, Hall, Hroom. rewrite fmap_app in Hnd. apply NoDup_app in Hnd as (Hnd0 & Hdisj & Hnd1). apply Forall_app in Hall as [Hall0 Hall1].
  rewrite !length_app in Hroom. unfold pim_process_accepts. change (seqZ 0 N_PARTITIONS) with [0; 1]. cbn [for_each].
  pose proof (ps_accepts _ Hst) as Hpe.
  assert (∀ dp st1, part dp → accepts st1 = accepts st →
    process_accepts_from_partition backlog_decrease p dp st1 = for_each (process_accept backlog_decrease p) (edges (accepts st) dp p) st1) as Hfrom.
  { intros dp st1 Hdp Ea. unfold process_accepts_from_partition. rewrite Ea, ga_get_edgelist_spec by done. cbn [mbind option_bind].
    apply (for_each_edges (process_accept backlog_decrease p)), (po_el _ Hpe dp p Hdp Hpp). }
  rewrite (Hfrom 0 st Hp0 eq_refl).
  destruct (process_edges_spec p _ Hpp st Hst Hd Hnd0 Hall0) as (st1 & -> & Hst1 & Hd1 & Hproc1); [rewrite length_app; lia|].
  rewrite (Hfrom 1 st1 Hp1 (pc_accepts _ _ _ Hproc1)).
  destruct (process_edges_spec p (edges (accepts st) 1 p) Hpp st1 Hst1 Hd1 Hnd1) as (st2 & -> & Hst2 & Hd2 & Hproc2).
  - rewrite Forall_forall in Hall1 |- *. intros e He. apply (processable_after p _ st _ e Hproc1); [by apply Hall1|].
    intros Hin. by apply (Hdisj _ Hin), (list_elem_of_fmap_2 fst).
  - destruct (pc_core _ _ _ Hproc1 p Hpp) as (_ & _ & _ & Ea). unfold out_edges at 1. rewrite Ea. cbn [adm_edges].
    rewrite !length_app. pose proof (length_filter (λ e : ga_edge, PARTITION_OF e.1 = p) (edges (accepts st) 0 p)). lia.
  - cbn [mbind option_bind]. destruct (ga_partd_edgelist_src_reset_spec (accepts st2) p (ps_accepts _ Hst2) Hpp) as (g & Eg & Hg & Hge).
    rewrite Eg. cbn [mbind option_bind]. eexists. split; [done|].
    split; [destruct Hst2; by constructor|]. split; [by apply demands_set_accepts|].
    pose proof (processed_app _ _ _ _ _ Hproc1 Hproc2) as Hproc. split; [destruct Hproc; by constructor|].
    intros dp sp Hdp Hsp. cbn [set_accepts accepts]. rewrite Hge by done. by rewrite (pc_accepts _ _ _ Hproc).
Qed.
End pim.

(** ** Iterations of parallel iterative matching

    [matched st T]: the pairs [T] are admitted in the timeslot, their nodes are
    allocated, and no node occurs twice. One iteration extends [T]. *)
Section pim.
Context {R Q : Type} `{!Inhabited R} `{Ring R bin}.
Implicit Types (st : pim_state R Q).

Record matched st (T : list ga_edge) : Prop := {
  ma_out : ∀ p, part p → admitted (core st p) = {| adm_partition := p; adm_edges := filter (λ e, PARTITION_OF e.1 = p) T |};
  ma_src : ∀ x, node x → src_used st x = bool_decide (x ∈ T.*1);
  ma_dst : ∀ x, node x → dst_used st x = bool_decide (x ∈ T.*2);
  ma_nodup_src : NoDup T.*1;
  ma_nodup_dst : NoDup T.*2;
  ma_node : ∀ e, e ∈ T → node e.1 ∧ node e.2;
}.

(** Between iterations no accepts are left. *)
Definition no_accepts st : Prop := ∀ dp sp, part dp → part sp → edges (accepts st) dp sp = [].

(** What a timeslot leaves alone after its preparation. *)
Record same_queues st st' : Prop := {
  sq_new : new_demands st' = new_demands st;
  sq_out : q_admitted_out st' = q_admitted_out st;
  sq_core : ∀ p, part p → q_new_demands (core st' p) = q_new_demands (core st p);
}.
#[export] Instance same_queues_preorder : PreOrder same_queues.
Proof.
  split.
  - intros st. by constructor.
  - intros st1 st2 st3 [? ? H1] [? ? H2]. constructor; try congruence. intros p Hp. by rewrite H2, H1.
Qed.

(** ** From accepts to admitted pairs *)
Lemma same_accepts_demands st st' : same_but_accepts st st' → demands_ok st → demands_ok st'.
Proof.
  intros Hs Hd.
  assert (∀ p, part p → waiting st' p = waiting st p) as Hw.
  { intros p Hp. destruct (sa_core _ _ Hs p Hp) as (_ & _ & _ & E). unfold waiting. by rewrite E, (sa_new _ _ Hs). }
  assert (∀ x, req st' x = req st x) as Hr by (intros x; unfold req, adj_of; by rewrite (sa_requests _ _ Hs)).
  assert (∀ x, node x → pend st' x = pend st x) as Hpd.
  { intros x Hx. unfold pend. by rewrite Hw by (by apply node_split). }
  constructor.
  - intros x Hx. rewrite Hr, Hpd by done. apply (do_nodup _ _ Hd x Hx).
  - intros x d Hx. rewrite Hr, Hpd by done. unfold bl. rewrite (sa_backlog _ _ Hs). apply (do_backlog _ _ Hd x d Hx).
  - intros p e Hp. rewrite Hw by done. by apply (do_waiting _ _ Hd).
Qed.

(** The accepts, in the order in which they are processed. *)
Definition in_order (A : list ga_edge) : list ga_edge :=
  let part_of p := filter (λ e : ga_edge, PARTITION_OF e.2 = 0 ∧ PARTITION_OF e.1 = p) A ++
    filter (λ e : ga_edge, PARTITION_OF e.2 = 1 ∧ PARTITION_OF e.1 = p) A in part_of 0 ++ part_of 1.

Lemma in_order_perm A : (∀ e, e ∈ A → node e.1 ∧ node e.2) → in_order A ≡ₚ A.
Proof.
  induction A as [|[s d] A IH]; intros HA; [done|].
  destruct (HA (s, d)) as [Hs Hd]; [set_solver|]. destruct (node_split _ Hs) as (Hsp & _ & _), (node_split _ Hd) as (Hdp & _ & _).
  cbn [fst snd] in *. unfold part in *. specialize (IH (λ e He, HA e (list_elem_of_further _ _ _ He))). unfold in_order in *. rewrite !filter_cons. cbn [fst snd].
  assert ((PARTITION_OF s = 0 ∨ PARTITION_OF s = 1) ∧ (PARTITION_OF d = 0 ∨ PARTITION_OF d = 1)) as [[-> | ->] [-> | ->]] by lia;
    repeat (case_decide; [try lia|try lia]); revert IH;
    repeat match goal with |- context [?t] => match t with filter _ _ => generalize t; intros ? end end;
    intros IH; rewrite <- IH; rewrite <- ?app_assoc; cbn [app]; rewrite ?app_assoc, <- ?Permutation_middle, <- ?app_assoc; done.
Qed.

Lemma NoDup_fst_of (A G : list ga_edge) : NoDup A → NoDup G.*1 → (∀ e, e ∈ A → e ∈ G) → NoDup A.*1.
Proof.
  intros HA HG Hsub. apply (NoDup_fmap_2_strong fst A); [|done]. intros [s d] [s' d'] Hin Hin' E. cbn [fst] in E. subst s'.
  apply Hsub in Hin, Hin'. apply list_elem_of_lookup in Hin as [i Hi], Hin' as [j Hj].
  assert (i = j) as ->; [|congruence]. apply (NoDup_lookup G.*1 i j s HG); rewrite list_lookup_fmap; by rewrite ?Hi, ?Hj.
Qed.

(** [pim_do_grant] and [pim_do_grant_first_it] have this form. *)
Definition do_grant (f : Z → Z → pim_state R Q → option (pim_state R Q)) (p : Z) st : option (pim_state R Q) :=
  g ← ga_partd_edgelist_src_reset (grants st) p; for_each (f p) (nodes_of p) (set_grants g st).

Lemma part_01 : part 0 ∧ part 1.
Proof. unfold part. lia. Qed.

Lemma both_grants (first : Prop) f st : body_ok first f → pim_shape st → demands_ok st → (first → fresh st) →
  ∃ st' G, for_each (do_grant f) (seqZ 0 N_PARTITIONS) st = Some st' ∧ pim_shape st' ∧ same_but_grants st st' ∧ granted [0; 1] st' G ∧
    (first → (∃ s, node s ∧ req st s ≠ []) → G ≠ []).
Proof.
  intros Hf Hst Hd Hfresh. destruct part_01 as [Hp0 Hp1]. change (seqZ 0 N_PARTITIONS) with [0; 1]. cbn [for_each].
  assert (granted [] st []) as Hg0 by (constructor; [intros; set_solver|constructor|intros; set_solver]).
  destruct (grant_phase_spec first f [] 0 st [] Hf Hst Hd Hp0 ltac:(set_solver) ltac:(set_solver) Hg0 Hfresh) as (st1 & G0 & E0 & Hst1 & Hs1 & Hg1 & Hall0).
  unfold do_grant at 1. rewrite E0.
  destruct (grant_phase_spec first f [0] 1 st1 G0 Hf Hst1 (same_demands _ _ Hs1 Hd) Hp1 ltac:(set_solver)) as (st2 & G1 & E1 & Hst2 & Hs2 & Hg2 & Hall1).
  - intros q ->%list_elem_of_singleton. done.
  - done.
  - intros Hfi x Hx. destruct (same_used _ _ x Hs1 Hx) as [-> ->]. by apply Hfresh.
  - unfold do_grant. rewrite E1. exists st2, (G0 ++ G1). split_and!; try done; [by etrans|].
    intros Hfi (s & Hs & Hne) [-> ->]%app_nil. destruct (node_split s Hs) as (Hsp & _ & _). unfold part in Hsp.
    assert (PARTITION_OF s = 0 ∨ PARTITION_OF s = 1) as [E|E] by lia.
    + specialize (Hall0 Hfi s Hs E Hne). set_solver.
    + specialize (Hall1 Hfi s Hs E). rewrite (same_req _ _ s Hs1) in Hall1. specialize (Hall1 Hne). set_solver.
Qed.

Lemma both_accepts st G : pim_shape st → granted [0; 1] st G → no_accepts st →
  ∃ st' A, for_each pim_do_accept (seqZ 0 N_PARTITIONS) st = Some st' ∧ pim_shape st' ∧ same_but_accepts st st' ∧
    accepted [0; 1] st st' G A ∧ (G ≠ [] → A ≠ []).
Proof.
  intros Hst Hg Hno. destruct part_01 as [Hp0 Hp1]. change (seqZ 0 N_PARTITIONS) with [0; 1]. cbn [for_each].
  assert (accepted [] st st G []) as Ha0.
  { constructor; [intros; rewrite filter_nil; by apply Hno|constructor|intros; set_solver|done]. }
  destruct (accept_phase_spec [] 0 st st G [] Hst Hp0 ltac:(set_solver) Hg ltac:(done) Ha0 ltac:(set_solver)) as (st1 & A1 & -> & Hst1 & Hs1 & Ha1 & Hall1).
  destruct (accept_phase_spec [0] 1 st st1 G A1 Hst1 Hp1 ltac:(set_solver) Hg Hs1 Ha1 Hall1) as (st2 & A2 & -> & Hst2 & Hs2 & Ha2 & Hall2).
  exists st2, A2. split_and!; try done. intros Hne ->. destruct G as [|[s d] G]; [done|].
  destruct (gr_edge _ _ _ Hg s d) as (_ & Hd & _); [set_solver|]. destruct (node_split d Hd) as (Hdp & _ & _). unfold part in Hdp.
  assert (d ∈ ([] : list ga_edge).*2) as Hin; [|set_solver]. apply Hall2; [set_solver|].
  assert (PARTITION_OF d = 0 ∨ PARTITION_OF d = 1) by lia. set_solver.
Qed.

Context (backlog_decrease : backlog → Z → Z → Z * backlog).
Hypothesis Hdecrease : decreases backlog_decrease.

(** Both partitions process the accepts [A]. *)
Lemma both_process st A : pim_shape st → demands_ok st → NoDup A.*1 → (∀ e, e ∈ A → processable (PARTITION_OF e.1) st e) →
  (∀ dp sp, part dp → part sp → edges (accepts st) dp sp = filter (λ e, PARTITION_OF e.2 = dp ∧ PARTITION_OF e.1 = sp) A) →
  (∀ p, part p → (length (out_edges st p ++ filter (λ e, PARTITION_OF e.1 = p) (in_order A)) ≤ 256)%nat) →
  ∃ st', for_each (pim_process_accepts backlog_decrease) (seqZ 0 N_PARTITIONS) st = Some st' ∧ pim_shape st' ∧ demands_ok st' ∧
    processed (in_order A) st (set_accepts (accepts st) st') ∧ no_accepts st'.
Proof using Hdecrease.
  intros Hst Hd Hnd Hall He Hroom. destruct part_01 as [Hp0 Hp1]. change (seqZ 0 N_PARTITIONS) with [0; 1]. cbn [for_each].
  set (L0 := edges (accepts st) 0 0 ++ edges (accepts st) 1 0). set (L1 := edges (accepts st) 0 1 ++ edges (accepts st) 1 1).
  assert (in_order A = L0 ++ L1) as EA by (unfold in_order, L0, L1; by rewrite !He).
  assert (in_order A ≡ₚ A) as Hperm by (apply in_order_perm; intros e Hin; by destruct (Hall e Hin) as (? & ? & _)).
  assert (NoDup (L0 ++ L1).*1) as HndL by (rewrite <- EA, Hperm; done).
  assert (∀ p e, e ∈ edges (accepts st) 0 p ++ edges (accepts st) 1 p → part p → e ∈ A ∧ PARTITION_OF e.1 = p) as Hin.
  { intros p e Hin Hp. rewrite !He in Hin by done. by apply elem_of_app in Hin as [[[_ ?] ?]%list_elem_of_filter|[[_ ?] ?]%list_elem_of_filter]. }
  assert (∀ p, part p → Forall (processable p st) (edges (accepts st) 0 p ++ edges (accepts st) 1 p)) as Hpr.
  { intros p Hp. apply Forall_forall. intros e Hein. destruct (Hin p e Hein Hp) as [HeA <-]. by apply Hall. }
  rewrite fmap_app in HndL. apply NoDup_app in HndL as (Hnd0 & Hdisj & Hnd1).
  assert (∀ p, part p → filter (λ e, PARTITION_OF e.1 = p) (in_order A) = if decide (p = 0) then L0 else L1) as Hf.
  { intros p Hp. rewrite EA, filter_app. unfold part in Hp. assert (p = 0 ∨ p = 1) as [-> | ->] by lia.
    - rewrite list_filter_all, list_filter_none, app_nil_r; [done|..]; intros e Hein; [destruct (Hin 1 e Hein Hp1); lia|by destruct (Hin 0 e Hein Hp0)].
    - rewrite list_filter_none, list_filter_all; [done|..]; intros e Hein; [by destruct (Hin 1 e Hein Hp1)|destruct (Hin 0 e Hein Hp0); lia]. }
  destruct (process_phase_spec backlog_decrease Hdecrease 0 st Hp0 Hst Hd Hnd0 (Hpr 0 Hp0)) as (st1 & -> & Hst1 & Hd1 & Hproc1 & He1).
  { pose proof (Hroom 0 Hp0) as Hr. by rewrite Hf in Hr. }
  assert (edges (accepts st1) 0 1 ++ edges (accepts st1) 1 1 = L1) as EL1 by (by rewrite !He1 by done).
  destruct (process_phase_spec backlog_decrease Hdecrease 1 st1 Hp1 Hst1 Hd1) as (st2 & -> & Hst2 & Hd2 & Hproc2 & He2).
  - by rewrite EL1.
  - rewrite EL1. pose proof (Hpr 1 Hp1) as Hpr1. rewrite Forall_forall in Hpr1 |- *. intros e Hein.
    apply (processable_after 1 L0 st (set_accepts (accepts st) st1) e Hproc1); [by apply Hpr1|].
    intros Hein'. by apply (Hdisj _ Hein'), (list_elem_of_fmap_2 fst).
  - rewrite EL1. destruct (pc_core _ _ _ Hproc1 1 Hp1) as (_ & _ & _ & Ea). unfold out_edges.
    change (core (set_accepts (accepts st) st1) 1) with (core st1 1) in Ea. rewrite Ea. cbn [adm_edges].
    rewrite (list_filter_none _ L0), app_nil_r by (intros e Hein; destruct (Hin 0 e Hein Hp0); lia).
    pose proof (Hroom 1 Hp1) as Hr. by rewrite Hf in Hr.
  - exists st2. split_and!; try done.
    + rewrite EA. apply processed_app with (st2 := set_accepts (accepts st) st1); [done|]. rewrite <- EL1.
      apply (processed_set_accepts (accepts st)) in Hproc2. done.
    + intros dp sp Hdp Hsp. rewrite He2, He1 by done. unfold part in Hsp. repeat case_decide; try done. lia.
Qed.

(** ** One iteration *)
Lemma matched_room st T L p : matched st T → NoDup (T ++ L).*1 → (∀ e, e ∈ L → node e.1) → part p →
  (length (out_edges st p ++ filter (λ e, PARTITION_OF e.1 = p) L) ≤ 256)%nat.
Proof.
  intros Hm Hnd HL Hp. unfold out_edges. rewrite (ma_out _ _ Hm) by done. cbn [adm_edges]. rewrite <- filter_app.
  assert (length (filter (λ e : ga_edge, PARTITION_OF e.1 = p) (T ++ L)).*1 ≤ 256)%nat as Hle; [|by rewrite length_fmap in Hle].
  apply length_nodes; [by apply filter_fst_sub|]. intros x (e & -> & [_ He]%list_elem_of_filter)%list_elem_of_fmap.
  apply elem_of_app in He as [He|He]; [by apply (ma_node _ _ Hm)|by apply HL].
Qed.

Lemma matched_granted st0 st T G A : matched st0 T → same_but_grants st0 st → granted [0; 1] st G → (∀ e, e ∈ A → e ∈ G) → NoDup A.*2 →
  NoDup (T ++ A).*1 ∧ NoDup (T ++ A).*2 ∧ ∀ e, e ∈ A → node e.1 ∧ node e.2.
Proof.
  intros Hm Hsame Hg Hsub Hnd.
  assert (∀ s d, (s, d) ∈ A → node s ∧ node d ∧ s ∉ T.*1 ∧ d ∉ T.*2) as HA.
  { intros s d Hin. destruct (gr_edge _ _ _ Hg s d (Hsub _ Hin)) as (Hs & Hd & _ & _ & _ & Hus & Hud).
    destruct (same_used _ _ s Hsame Hs) as [Es _], (same_used _ _ d Hsame Hd) as [_ Ed].
    rewrite Es, (ma_src _ _ Hm) in Hus by done. rewrite Ed, (ma_dst _ _ Hm) in Hud by done.
    apply bool_decide_eq_false in Hus, Hud. done. }
  rewrite !fmap_app. split_and!.
  - apply NoDup_app. split; [apply (ma_nodup_src _ _ Hm)|]. split.
    + intros x Hx (e & -> & He)%list_elem_of_fmap. destruct e as [s d]. by destruct (HA s d He) as (_ & _ & ? & _).
    + apply (NoDup_fst_of A G); [by apply (NoDup_fmap_1 snd)|apply (gr_nodup _ _ _ Hg)|done].
  - apply NoDup_app. split; [apply (ma_nodup_dst _ _ Hm)|]. split; [|done].
    intros x Hx (e & -> & He)%list_elem_of_fmap. destruct e as [s d]. by destruct (HA s d He) as (_ & _ & _ & ?).
  - intros [s d] He. by destruct (HA s d He) as (? & ? & _).
Qed.

Lemma accepted_processable st st1 (G A : list ga_edge) : same_but_accepts st st1 → granted [0; 1] st G → (∀ e, e ∈ A → e ∈ G) →
  ∀ e, e ∈ A → processable (PARTITION_OF e.1) st1 e.
Proof.
  intros Hsame Hg Hsub [s d] Hin. destruct (gr_edge _ _ _ Hg s d (Hsub _ Hin)) as (Hs & Hd & _ & Hk & Hlk & _).
  destruct (node_split s Hs) as (Hp & _ & _). destruct (sa_core _ _ Hsame _ Hp) as (_ & _ & E & _).
  unfold processable. cbn [fst snd]. unfold adj_index, req, adj_of in *. by rewrite E, (sa_requests _ _ Hsame).
Qed.

Lemma matched_processed st st1 st2 st3 T G A L : matched st T → same_but_grants st st1 → granted [0; 1] st1 G →
  same_but_accepts st1 st2 → accepted [0; 1] st1 st2 G A → L ≡ₚ A → processed L st2 (set_accepts (accepts st2) st3) →
  NoDup (T ++ A).*1 → NoDup (T ++ A).*2 → (∀ e, e ∈ A → node e.1 ∧ node e.2) → matched st3 (T ++ L).
Proof.
  intros Hm Hs1 Hg Hs2 Ha HL Hproc Hnd1 Hnd2 Hnode. constructor.
  - intros p Hp. destruct (pc_core _ _ _ Hproc p Hp) as (_ & _ & _ & E). change (core (set_accepts _ st3) p) with (core st3 p) in E.
    unfold out_edges in E. destruct (sa_core _ _ Hs2 p Hp) as (E2 & _), (sg_core _ _ Hs1 p Hp) as (E1 & _).
    rewrite E, E2, E1, (ma_out _ _ Hm) by done. cbn [adm_edges adm_partition]. by rewrite filter_app.
  - intros x Hx. destruct (node_split x Hx) as (Hp & _ & _). destruct (sa_core _ _ Hs2 _ Hp) as (_ & E2 & _).
    change (src_used st3 x) with (src_used (set_accepts (accepts st2) st3) x). rewrite (pc_used _ _ _ Hproc) by done.
    destruct (same_used _ _ x Hs1 Hx) as [E1 _]. unfold src_used in E1 |- *. rewrite E2, E1. fold (src_used st x). rewrite (ma_src _ _ Hm) by done.
    rewrite <- bool_decide_or, fmap_app. apply bool_decide_ext. set_solver.
  - intros x Hx. destruct (node_split x Hx) as (Hp & _ & _). destruct (pc_core _ _ _ Hproc _ Hp) as (E & _).
    change (core (set_accepts _ st3) ?p) with (core st3 p) in E. unfold dst_used. rewrite E. fold (dst_used st2 x).
    rewrite (ac_used _ _ _ _ _ Ha) by done. destruct (same_used _ _ x Hs1 Hx) as [_ ->]. rewrite (ma_dst _ _ Hm) by done.
    rewrite <- bool_decide_or, fmap_app. apply bool_decide_ext. rewrite HL. set_solver.
  - by rewrite HL.
  - by rewrite HL.
  - intros e [He|He]%elem_of_app; [by apply (ma_node _ _ Hm)|]. rewrite HL in He. by apply Hnode.
Qed.

Lemma iteration_spec (first : Prop) f st T : body_ok first f → pim_shape st → demands_ok st → no_accepts st → matched st T → (first → T = []) →
  ∃ st' L, pim_iteration backlog_decrease (do_grant f) st = Some st' ∧ pim_shape st' ∧ demands_ok st' ∧ no_accepts st' ∧
    matched st' (T ++ L) ∧ same_queues st st' ∧ (∀ s d, node s → node d → bl st' s d = bl st s d - count L (s, d)) ∧
    (∀ e, e ∈ L → 0 < bl st e.1 e.2) ∧
    (first → (∃ s, node s ∧ req st s ≠ []) → L ≠ []).
Proof using Hdecrease.
  intros Hf Hst Hd Hno Hm Hfirst.
  destruct (both_grants first f st Hf Hst Hd) as (st1 & G & E1 & Hst1 & Hs1 & Hg & HneG).
  { intros Hfi x Hx. rewrite (ma_src _ _ Hm), (ma_dst _ _ Hm), (Hfirst Hfi) by done. done. }
  assert (no_accepts st1) as Hno1 by (intros dp sp Hdp Hsp; rewrite (sg_accepts _ _ Hs1); by apply Hno).
  destruct (both_accepts st1 G Hst1 Hg Hno1) as (st2 & A & E2 & Hst2 & Hs2 & Ha & HneA).
  assert (∀ e, e ∈ A → e ∈ G) as Hsub by (intros [s d] Hin; by destruct (ac_edge _ _ _ _ _ Ha s d Hin)).
  destruct (matched_granted st st1 T G A Hm Hs1 Hg Hsub (ac_nodup _ _ _ _ _ Ha)) as (Hnd1 & Hnd2 & Hnode).
  pose proof (in_order_perm A Hnode) as Hperm.
  destruct (both_process st2 A) as (st3 & E3 & Hst3 & Hd3 & Hproc & Hno3).
  - done.
  - by apply (same_accepts_demands st1), (same_demands st).
  - rewrite fmap_app in Hnd1. by apply NoDup_app in Hnd1 as (_ & _ & ?).
  - by apply (accepted_processable st1 st2 G A).
  - apply (ac_edges _ _ _ _ _ Ha).
  - intros p Hp. destruct (sa_core _ _ Hs2 p Hp) as (Ec2 & _), (sg_core _ _ Hs1 p Hp) as (Ec1 & _).
    unfold out_edges. rewrite Ec2, Ec1. apply (matched_room st T); [done|by rewrite Hperm| |done].
    intros e He. rewrite Hperm in He. by destruct (Hnode e He).
  - exists st3, (in_order A). unfold pim_iteration. rewrite E1. cbn [mbind option_bind]. rewrite E2. cbn [mbind option_bind].
    split_and!; try done.
    + by apply (matched_processed st st1 st2 st3 T G A).
    + constructor; [by rewrite <- (sg_new _ _ Hs1), <- (sa_new _ _ Hs2), <- (pc_new _ _ _ Hproc)|by rewrite <- (sg_out _ _ Hs1), <- (sa_out _ _ Hs2), <- (pc_out _ _ _ Hproc)|].
      intros p Hp. destruct (pc_core _ _ _ Hproc p Hp) as (_ & _ & E & _). change (core (set_accepts _ st3) p) with (core st3 p) in E.
      destruct (sa_core _ _ Hs2 p Hp) as (_ & _ & _ & Ec2), (sg_core _ _ Hs1 p Hp) as (_ & _ & _ & Ec1). congruence.
    + intros s d Hs Hdn. change (bl st3 s d) with (bl (set_accepts (accepts st2) st3) s d). rewrite (pc_bl _ _ _ Hproc) by done.
      unfold bl. by rewrite (sa_backlog _ _ Hs2), (sg_backlog _ _ Hs1).
    + intros [s d] Hin. rewrite Hperm in Hin. destruct (gr_edge _ _ _ Hg s d (Hsub _ Hin)) as (Hs & _ & _ & _ & Hlk & _).
      apply list_elem_of_lookup_2 in Hlk. rewrite (same_req _ _ s Hs1) in Hlk. apply (do_backlog _ _ Hd s d Hs). set_solver.
    + intros Hfi Hex EL. rewrite EL in Hperm. symmetry in Hperm. apply Permutation_nil_r in Hperm. by apply HneA; [apply HneG|].
Qed.
End pim.
