(* ===== verification/Phase.v ===== *)
(** * Phases of the partitions

    Model of [src/src/grant-accept/phase.h], with which the cores of parallel
    iterative matching (in a build with one core per partition) wait for each other,
    and of the order in which [pim_do_accept] and [pim_process_accepts] of pim.c call
    it: a core finishes its phase, and waits until it received every other partition.
    A step of [phase_step] is one call; the cores interleave in any order. *)

From S2P Require Import Prelude Lists Pacer Ring GrantAccept.
Import GA.

Module Phase.
Definition NONE_READY : Z := N_PARTITIONS.

Record partition_phase_state (R : Type) := { q_ready : R; phase : Z }.
Arguments q_ready {R}. Arguments phase {R}.

Definition create_queue_entry (phase partition_index : Z) : Z := Z.lor (shl64 phase 16) partition_index.
Definition get_phase_from_queue_entry (queue_entry : Z) : Z := u16 (Z.shiftr queue_entry 16).
Definition get_partition_from_queue_entry (queue_entry : Z) : Z := Z.land queue_entry 0xFFFF.

(** The events of a run. *)
Inductive phase_event := Finished (p : Z) | Passed (p : Z).
#[export] Instance phase_event_eq_dec : EqDecision phase_event.
Proof. solve_decision. Defined.

Section phase.
Context {R : Type} `{RingOps R Z}.
Definition phase_state : Type := list (partition_phase_state R).

Definition phase_state_init (q_ready : list R) : phase_state :=
  (λ q, {| q_ready := q; phase := 0 |}) <$> take (Z.to_nat N_PARTITIONS) q_ready.

(** The return code of the enqueue is ignored. *)
Definition phase_finished (partition_index : Z) (st : phase_state) : option phase_state :=
  s ← arr_read st partition_index;
  let phase := u16 (phase s + 1) in
  let queue_entry := create_queue_entry phase partition_index in
  for_each (λ i st,
      let partition := (partition_index + i) mod N_PARTITIONS in
      s ← arr_read st partition;
      Some (arr_set st partition {| q_ready := default (q_ready s) (r_enqueue queue_entry (q_ready s)); phase := Phase.phase s |}))
    (seqZ 1 (N_PARTITIONS - 1)) (arr_set st partition_index {| q_ready := q_ready s; phase := phase |}).

Definition phase_get_finished_partition (partition_index : Z) (st : phase_state) : option (Z * phase_state) :=
  s ← arr_read st partition_index;
  match r_dequeue (q_ready s) with
  | None => Some (NONE_READY, st)
  | Some (queue_entry, q) =>
      let entry_phase := get_phase_from_queue_entry queue_entry in
      if negb (entry_phase =? phase s) then
        Some (NONE_READY, arr_set st partition_index {| q_ready := default q (r_enqueue queue_entry q); phase := phase s |})
      else Some (get_partition_from_queue_entry queue_entry, arr_set st partition_index {| q_ready := q; phase := phase s |})
  end.

(** [count] of the waiting loop of each partition, [None] while it works on a phase. *)
Record phase_world := { phases : phase_state; waits : list (option Z) }.

Definition phase_step (p : Z) (w : phase_world) : option (phase_world * list phase_event) :=
  wait ← arr_read (waits w) p;
  match wait with
  | None =>
      st ← phase_finished p (phases w);
      Some ({| phases := st; waits := arr_set (waits w) p (Some 0) |}, [Finished p])
  | Some count =>
      '(partition, st) ← phase_get_finished_partition p (phases w);
      if partition =? NONE_READY then Some ({| phases := st; waits := waits w |}, [])
      else if count + 1 <? N_PARTITIONS - 1 then Some ({| phases := st; waits := arr_set (waits w) p (Some (count + 1)) |}, [])
      else Some ({| phases := st; waits := arr_set (waits w) p None |}, [Passed p])
  end.

(** A run of the partitions in the order of [schedule]. *)
Fixpoint phase_run (schedule : list Z) (w : phase_world) : option (phase_world * list phase_event) :=
  match schedule with
  | [] => Some (w, [])
  | p :: schedule' =>
      '(w, l) ← phase_step p w;
      '(w, l') ← phase_run schedule' w;
      Some (w, l ++ l')
  end.

Definition phase_start (rings : list R) : phase_world :=
  {| phases := phase_state_init rings; waits := replicate (Z.to_nat N_PARTITIONS) None |}.
End phase.

(** ** The invariant *)
Definition count_ev (e : phase_event) (l : list phase_event) : Z := sum_of (λ e', b2z (bool_decide (e' = e))) l.

Lemma count_ev_app e l l' : count_ev e (l ++ l') = count_ev e l + count_ev e l'.
Proof. apply sum_of_app. Qed.

Lemma count_ev_nonneg e l : 0 ≤ count_ev e l.
Proof. apply sum_of_nonneg. intros x. by case_bool_decide. Qed.

Lemma u16_succ f : u16 (u16 f + 1) = u16 (f + 1).
Proof. unfold u16. by rewrite Zplus_mod_idemp_l. Qed.

Lemma entry_spec k p : part p →
  get_phase_from_queue_entry (create_queue_entry (u16 k) p) = u16 k ∧ get_partition_from_queue_entry (create_queue_entry (u16 k) p) = p.
Proof.
  intros Hp. unfold part in Hp. pose proof (u16_range k) as Hk. set (x := u16 k) in *.
  unfold create_queue_entry, get_phase_from_queue_entry, get_partition_from_queue_entry, shl64.
  rewrite u64_small by (rewrite Z.shiftl_mul_pow2; lia).
  assert (Z.lor (Z.shiftl x 16) p = x * 2 ^ 16 + p) as ->.
  { rewrite <- Z.shiftl_mul_pow2, <- Z.add_lor_land by lia.
    assert (Z.land (Z.shiftl x 16) p = 0) as ->; [|lia]. apply (bits_eq_below 16); [rewrite Z.land_comm; apply land_range; try lia; apply Z.shiftl_nonneg; lia|lia|].
    intros i Hi. rewrite Z.land_spec, Z.shiftl_spec, Z.testbit_neg_r by lia. by rewrite Z.bits_0. }
  split.
  - rewrite Z.shiftr_div_pow2 by lia. unfold u16. rewrite Z.div_add_l, (Z.div_small p), Z.add_0_r by lia. apply Z.mod_small. lia.
  - change 0xFFFF with (Z.ones 16). rewrite Z.land_ones by lia. rewrite Z.add_comm, Z.mod_add, Z.mod_small; lia.
Qed.

Section barrier.
Context {R : Type} `{!Inhabited R} `{Ring R Z}.

#[export] Instance phase_inhabited : Inhabited (partition_phase_state R) := populate {| q_ready := inhabitant; phase := 0 |}.

(** [f] phases were finished, [c] barriers passed by a partition; [g] phases were
    finished by the other one, [q]. *)
Record part_ok (s : partition_phase_state R) (wait : option Z) (f c g q : Z) : Prop := {
  pt_phase : phase s = u16 f;
  pt_wait : match wait with None => c = f | Some n => n = 0 ∧ c = f - 1 end;
  pt_ring : r_wf (q_ready s);
  pt_list : r_list (q_ready s) = (λ k, create_queue_entry (u16 k) q) <$> seqZ (c + 1) (g - c);
  pt_free : 2 ≤ Z.of_nat (r_free (q_ready s)) + (g - c);
  pt_passed : 0 ≤ c ≤ g;
}.

Definition phase_world_ok (w : phase_world (R := R)) (tr : list phase_event) : Prop :=
  ∃ s0 s1 w0 w1, phases w = [s0; s1] ∧ waits w = [w0; w1] ∧
    part_ok s0 w0 (count_ev (Finished 0) tr) (count_ev (Passed 0) tr) (count_ev (Finished 1) tr) 1 ∧
    part_ok s1 w1 (count_ev (Finished 1) tr) (count_ev (Passed 1) tr) (count_ev (Finished 0) tr) 0.

(** What finishing a phase does to the two partitions. *)
Lemma part_finish s f c g q : part_ok s None f c g q → part_ok {| q_ready := q_ready s; phase := u16 (phase s + 1) |} (Some 0) (f + 1) c g q.
Proof.
  intros [Hp Hw Hr Hl Hf Hc]. constructor; try done; cbn [phase q_ready]; [|lia]. by rewrite Hp, u16_succ.
Qed.

Lemma part_notified s wait f c g q : part_ok s wait f c g q → g ≤ c + 1 →
  part_ok {| q_ready := default (q_ready s) (r_enqueue (create_queue_entry (u16 (g + 1)) q) (q_ready s)); phase := phase s |} wait f c (g + 1) q.
Proof.
  intros [Hp Hw Hr Hl Hf Hc] Hg. destruct (r_enqueue_spec (q_ready s) (create_queue_entry (u16 (g + 1)) q) Hr) as (r & -> & Hr' & Hl' & Hf'); [lia|].
  constructor; try done; cbn [phase q_ready from_option id]; [|lia|lia]. rewrite Hl', Hl.
  replace (g + 1 - c) with ((g - c) + 1) by lia. rewrite (seqZ_app (c + 1) (g - c) 1) by lia. rewrite fmap_app. f_equal.
  replace (c + 1 + (g - c)) with (g + 1) by lia. done.
Qed.

(** Polling: the partition passes if the other one finished the phase. *)
Lemma poll_spec st p s f c g q : part q → arr_read st p = Some s →
  part_ok s (Some 0) f c g q →
  if decide (f ≤ g) then ∃ r, phase_get_finished_partition p st = Some (q, arr_set st p {| q_ready := r; phase := phase s |}) ∧
    part_ok {| q_ready := r; phase := phase s |} None f (c + 1) g q
  else phase_get_finished_partition p st = Some (NONE_READY, st).
Proof.
  intros Hq Hs [Hp [_ Hw] Hr Hl Hf Hc]. unfold phase_get_finished_partition. rewrite Hs. cbn [mbind option_bind].
  pose proof (r_dequeue_spec _ Hr) as Hd. rewrite Hl in Hd. case_decide as Hfg.
  - rewrite seqZ_cons in Hd by lia. cbn [fmap list_fmap] in Hd. destruct Hd as (r & -> & Hr' & Hl' & Hf').
    destruct (entry_spec (c + 1) q Hq) as [-> ->]. replace (c + 1) with f by lia. rewrite Hp, Z.eqb_refl. cbn [negb]. exists r. split; [done|].
    constructor; try done; cbn [phase q_ready]; try lia. rewrite Hl'. do 2 f_equal; lia.
  - rewrite (seqZ_nil) in Hd by lia. cbn [fmap list_fmap] in Hd. by rewrite Hd.
Qed.

Lemma count_ev_snoc e e' l : count_ev e (l ++ [e']) = count_ev e l + (if decide (e' = e) then 1 else 0).
Proof. rewrite count_ev_app. unfold count_ev at 2. cbn [sum_of foldr]. repeat case_decide; case_bool_decide; simpl; naive_solver lia. Qed.

(** [p] polls: it passes when the other partition finished as many phases. *)
Definition may_pass (p : Z) (w : phase_world (R := R)) (tr : list phase_event) : Prop :=
  arr_get (waits w) p ≠ None ∧ count_ev (Finished p) tr ≤ count_ev (Finished (1 - p)) tr.

Ltac count_events := rewrite ?count_ev_snoc, ?app_nil_r; repeat (rewrite decide_True by done || rewrite decide_False by done); rewrite ?Z.add_0_r.

Lemma phase_step_0 w tr : phase_world_ok w tr →
  ∃ w' l, phase_step 0 w = Some (w', l) ∧ phase_world_ok w' (tr ++ l) ∧ (may_pass 0 w tr → l = [Passed 0]).
Proof.
  intros (s0 & s1 & w0 & w1 & Es & Ew & Ha & Hb). unfold may_pass. rewrite Ew.
  unfold phase_step. rewrite Ew. cbn [arr_read Z.leb Z.compare Z.to_nat lookup list_lookup mbind option_bind]. destruct w0 as [n|].
  - assert (n = 0) as -> by (by destruct (pt_wait _ _ _ _ _ _ Ha)).
    assert (part 1) as Hp1 by (unfold part; lia).
    pose proof (poll_spec (phases w) 0 s0 _ _ _ 1 Hp1 ltac:(by rewrite Es) Ha) as Hpoll. case_decide as Hfg.
    + destruct Hpoll as (r & -> & Hok). cbn [mbind option_bind]. change (1 =? NONE_READY) with false. change (0 + 1 <? N_PARTITIONS - 1) with false. cbn iota.
      do 2 eexists. split; [done|]. split; [|done]. rewrite Es. exists {| q_ready := r; phase := phase s0 |}, s1, None, w1. split; [done|]. split; [done|].
      count_events. done.
    + rewrite Hpoll. cbn [mbind option_bind]. change (NONE_READY =? NONE_READY) with true. cbn iota. do 2 eexists. split; [done|]. split.
      * rewrite app_nil_r. by exists s0, s1, (Some 0), w1.
      * change (1 - 0) with 1. intros [_ Hle]. lia.
  - unfold phase_finished. rewrite Es. cbn [arr_read Z.leb Z.compare Z.to_nat lookup list_lookup mbind option_bind].
    change (seqZ 1 (N_PARTITIONS - 1)) with [1]. cbn [for_each]. change ((0 + 1) mod N_PARTITIONS) with 1. cbn.
    do 2 eexists. split; [done|]. split; [|by intros [Hne _]].
    do 4 eexists. split; [done|]. split; [done|]. count_events. split; [by apply part_finish|].
    rewrite (pt_phase _ _ _ _ _ _ Ha). rewrite u16_succ. apply part_notified; [done|].
    pose proof (pt_wait _ _ _ _ _ _ Ha). destruct (pt_passed _ _ _ _ _ _ Ha). pose proof (pt_wait _ _ _ _ _ _ Hb). destruct w1; cbv beta iota in *; lia.
Qed.

Lemma phase_step_1 w tr : phase_world_ok w tr →
  ∃ w' l, phase_step 1 w = Some (w', l) ∧ phase_world_ok w' (tr ++ l) ∧ (may_pass 1 w tr → l = [Passed 1]).
Proof.
  intros (s0 & s1 & w0 & w1 & Es & Ew & Ha & Hb). unfold may_pass. rewrite Ew.
  unfold phase_step. rewrite Ew. cbn [arr_read Z.leb Z.compare Z.to_nat Pos.to_nat Pos.iter_op lookup list_lookup mbind option_bind]. destruct w1 as [n|].
  - assert (n = 0) as -> by (by destruct (pt_wait _ _ _ _ _ _ Hb)).
    assert (part 0) as Hp0 by (unfold part; lia).
    pose proof (poll_spec (phases w) 1 s1 _ _ _ 0 Hp0 ltac:(by rewrite Es) Hb) as Hpoll. case_decide as Hfg.
    + destruct Hpoll as (r & -> & Hok). cbn [mbind option_bind]. change (0 =? NONE_READY) with false. change (0 + 1 <? N_PARTITIONS - 1) with false. cbn iota.
      do 2 eexists. split; [done|]. split; [|done]. rewrite Es. exists s0, {| q_ready := r; phase := phase s1 |}, w0, None. split; [done|]. split; [done|].
      count_events. done.
    + rewrite Hpoll. cbn [mbind option_bind]. change (NONE_READY =? NONE_READY) with true. cbn iota. do 2 eexists. split; [done|]. split.
      * rewrite app_nil_r. by exists s0, s1, w0, (Some 0).
      * change (1 - 1) with 0. intros [_ Hle]. lia.
  - unfold phase_finished. rewrite Es. cbn [arr_read Z.leb Z.compare Z.to_nat Pos.to_nat Pos.iter_op lookup list_lookup mbind option_bind].
    change (seqZ 1 (N_PARTITIONS - 1)) with [1]. cbn [for_each]. change ((1 + 1) mod N_PARTITIONS) with 0. cbn.
    do 2 eexists. split; [done|]. split; [|by intros [Hne _]].
    do 4 eexists. split; [done|]. split; [done|]. count_events. split; [|by apply part_finish].
    rewrite (pt_phase _ _ _ _ _ _ Hb). rewrite u16_succ. apply part_notified; [done|].
    pose proof (pt_wait _ _ _ _ _ _ Hb). destruct (pt_passed _ _ _ _ _ _ Hb). pose proof (pt_wait _ _ _ _ _ _ Ha). destruct w0; cbv beta iota in *; lia.
Qed.

Lemma phase_step_spec p w tr : part p → phase_world_ok w tr →
  ∃ w' l, phase_step p w = Some (w', l) ∧ phase_world_ok w' (tr ++ l) ∧ (may_pass p w tr → l = [Passed p]).
Proof. unfold part. intros Hp. assert (p = 0 ∨ p = 1) as [-> | ->] by lia; [apply phase_step_0|apply phase_step_1]. Qed.

Lemma phase_run_spec schedule : ∀ w tr, Forall part schedule → phase_world_ok w tr →
  ∃ w' l, phase_run schedule w = Some (w', l) ∧ phase_world_ok w' (tr ++ l).
Proof.
  induction schedule as [|p schedule IH]; intros w tr Hs Hok; cbn [phase_run].
  { exists w, []. by rewrite app_nil_r. }
  apply Forall_cons in Hs as [Hp Hs]. destruct (phase_step_spec p w tr Hp Hok) as (w1 & l1 & -> & Hok1 & _). cbn [mbind option_bind].
  destruct (IH w1 _ Hs Hok1) as (w2 & l2 & -> & Hok2). cbn [mbind option_bind]. exists w2, (l1 ++ l2). by rewrite app_assoc.
Qed.

Lemma phase_start_ok (q0 q1 : R) : r_wf q0 → r_wf q1 → r_list q0 = [] → r_list q1 = [] → (2 ≤ r_free q0)%nat → (2 ≤ r_free q1)%nat →
  phase_world_ok (phase_start [q0; q1]) [].
Proof. intros. exists {| q_ready := q0; phase := 0 |}, {| q_ready := q1; phase := 0 |}, None, None. split; [done|]. split; [done|]. split; constructor; try done; simpl; lia. Qed.

Lemma world_ok_counts w tr p : part p → phase_world_ok w tr →
  count_ev (Passed p) tr ≤ count_ev (Finished (1 - p)) tr ∧ count_ev (Passed p) tr ≤ count_ev (Finished p) tr ≤ count_ev (Passed p) tr + 1.
Proof.
  intros Hp (s0 & s1 & w0 & w1 & _ & _ & Ha & Hb). unfold part in Hp.
  pose proof (pt_wait _ _ _ _ _ _ Ha). pose proof (pt_passed _ _ _ _ _ _ Ha). pose proof (pt_wait _ _ _ _ _ _ Hb). pose proof (pt_passed _ _ _ _ _ _ Hb).
  assert (p = 0 ∨ p = 1) as [-> | ->] by lia; [change (1 - 0) with 1|change (1 - 1) with 0]; destruct w0, w1; cbv beta iota in *; lia.
Qed.
End barrier.
End Phase.
