(* ===== verification/PimTheorems.v ===== *)
(** * Theorems about parallel iterative matching *)

From S2P Require Import Prelude Lists Pacer Ring Admission GrantAccept Pim PimFacts PimGrant PimRun Phase.
Import Topology GA Pim Phase.

Section pim.
Context {R Q : Type} `{!Inhabited R} `{Ring R bin} `{Ring Q admitted_struct}.
Implicit Types (st : pim_state R Q).

(** Between timeslots. *)
Record pim_ok st : Prop := {
  pk_shape : pim_shape st;
  pk_demands : demands_ok st;
  pk_accepts : no_accepts st;
  pk_out : r_wf (q_admitted_out st);
}.

(** The lists of admitted traffic of the two partitions. *)
Definition by_partition (T : list ga_edge) : list admitted_struct :=
  (λ p, {| adm_partition := p; adm_edges := filter (λ e, PARTITION_OF e.1 = p) T |}) <$> [0; 1].

Lemma both_prepared st : pim_shape st → demands_ok st → no_accepts st →
  ∃ st', for_each pim_prepare (seqZ 0 N_PARTITIONS) st = Some st' ∧ pim_shape st' ∧ demands_ok st' ∧ no_accepts st' ∧ matched st' [] ∧
    q_admitted_out st' = q_admitted_out st ∧ pim_backlog st' = pim_backlog st ∧ ∀ s, node s → req st' s = ready st s.
Proof.
  intros Hst Hd Hno. destruct part_01 as [Hp0 Hp1]. change (seqZ 0 N_PARTITIONS) with [0; 1]. cbn [for_each].
  destruct (pim_prepare_spec 0 st Hst Hp0 Hd) as (st1 & -> & Hst1 & Hd1 & Ea1 & Eo1 & Eb1 & Hc1 & Hadm1 & Hbits1 & Hr1).
  destruct (pim_prepare_spec 1 st1 Hst1 Hp1 Hd1) as (st2 & -> & Hst2 & Hd2 & Ea2 & Eo2 & Eb2 & Hc2 & Hadm2 & Hbits2 & Hr2).
  assert (core st2 0 = core st1 0) as E0 by (by apply Hc2). assert (core st1 1 = core st 1) as E1 by (by apply Hc1).
  assert (∀ x, node x → PARTITION_OF x = 0 ∨ PARTITION_OF x = 1) as H01.
  { intros x Hx. destruct (node_split x Hx) as (Hp & _ & _). unfold part in Hp. lia. }
  exists st2. split; [done|]. split; [done|]. split; [done|]. split; [|split; [constructor|split_and!]].
  - intros dp sp Hdp Hsp. rewrite Ea2, Ea1. by apply Hno.
  - intros p Hp. unfold part in Hp. assert (p = 0 ∨ p = 1) as [-> | ->] by lia; [by rewrite E0|done].
  - intros x Hx. destruct (node_split x Hx) as (_ & Hi & _). unfold src_used. destruct (H01 x Hx) as [-> | ->]; [rewrite E0; by apply Hbits1|by apply Hbits2].
  - intros x Hx. destruct (node_split x Hx) as (_ & Hi & _). unfold dst_used. destruct (H01 x Hx) as [-> | ->]; [rewrite E0; by apply Hbits1|by apply Hbits2].
  - constructor.
  - constructor.
  - intros e He. by apply not_elem_of_nil in He.
  - congruence.
  - congruence.
  - intros s Hs. rewrite Hr2 by done. unfold ready at 1. rewrite Hr1 by done. destruct (H01 s Hs) as [E|E]; rewrite E; simpl; [done|].
    unfold ready. by rewrite E, E1.
Qed.

Section decrease.
Context (backlog_decrease : backlog → Z → Z → Z * backlog).
Hypothesis Hdecrease : decreases backlog_decrease.

Lemma all_iterations st : pim_shape st → demands_ok st → no_accepts st → matched st [] →
  ∃ st' T, (st1 ← pim_iteration backlog_decrease pim_do_grant_first_it st;
      for_each (λ _ st, pim_iteration backlog_decrease pim_do_grant st) (seqZ 1 (NUM_ITERATIONS - 1)) st1) = Some st' ∧
    pim_shape st' ∧ demands_ok st' ∧ no_accepts st' ∧ matched st' T ∧ same_queues st st' ∧
    (∀ s d, node s → node d → bl st' s d = bl st s d - count T (s, d)) ∧
    (∀ e, e ∈ T → 0 < bl st e.1 e.2) ∧ ((∃ s, node s ∧ req st s ≠ []) → T ≠ []).
Proof using Hdecrease.
  intros Hst Hd Hno Hm.
  destruct (iteration_spec backlog_decrease Hdecrease True grant_first_it_src st [] grant_first_it_src_spec Hst Hd Hno Hm ltac:(done))
    as (st1 & L1 & E1 & Hst1 & Hd1 & Hno1 & Hm1 & Hq1 & Hb1 & Hpos1 & Hne).
  destruct (iteration_spec backlog_decrease Hdecrease False grant_src st1 _ grant_src_spec Hst1 Hd1 Hno1 Hm1 ltac:(done))
    as (st2 & L2 & E2 & Hst2 & Hd2 & Hno2 & Hm2 & Hq2 & Hb2 & Hpos2 & _).
  destruct (iteration_spec backlog_decrease Hdecrease False grant_src st2 _ grant_src_spec Hst2 Hd2 Hno2 Hm2 ltac:(done))
    as (st3 & L3 & E3 & Hst3 & Hd3 & Hno3 & Hm3 & Hq3 & Hb3 & Hpos3 & _).
  exists st3, ((([] ++ L1) ++ L2) ++ L3). change pim_do_grant_first_it with (do_grant (R := R) (Q := Q) grant_first_it_src). rewrite E1. cbn [mbind option_bind].
  change (seqZ 1 (NUM_ITERATIONS - 1)) with [1; 2]. cbn [for_each]. change pim_do_grant with (do_grant (R := R) (Q := Q) grant_src). rewrite E2, E3.
  assert (∀ L e, 0 ≤ count L e) as Hcount by (intros L e; apply sum_of_nonneg; intros x; by case_bool_decide).
  split_and!; try done.
  - by etrans; [|etrans].
  - intros s d Hs Hdn. rewrite Hb3, Hb2, Hb1 by done. unfold count. rewrite !sum_of_app. simpl. lia.
  - intros [s d] He. pose proof (ma_node _ _ Hm3 (s, d) He) as [Hs Hdn]. cbn [fst snd] in *.
    rewrite app_nil_l, !elem_of_app in He. destruct He as [[He|He]|He]; [by apply (Hpos1 (s, d))|apply Hpos2 in He|apply Hpos3 in He]; cbn [fst snd] in He.
    + rewrite Hb1 in He by done. specialize (Hcount L1 (s, d)). lia.
    + rewrite Hb2, Hb1 in He by done. pose proof (Hcount L1 (s, d)). pose proof (Hcount L2 (s, d)). lia.
  - intros Hex E. specialize (Hne I Hex). destruct L1; [done|]. done.
Qed.

Lemma both_completed st T : pim_shape st → demands_ok st → no_accepts st → matched st T → r_wf (q_admitted_out st) → (2 ≤ r_free (q_admitted_out st))%nat →
  ∃ q, for_each pim_complete_timeslot (seqZ 0 N_PARTITIONS) st = Some (set_out q st) ∧ r_wf q ∧
    r_list q = r_list (q_admitted_out st) ++ by_partition T.
Proof.
  intros Hst Hd Hno Hm Hq Hfree. destruct part_01 as [Hp0 Hp1]. change (seqZ 0 N_PARTITIONS) with [0; 1]. cbn [for_each].
  unfold pim_complete_timeslot at 1. rewrite read_core by done. cbn [mbind option_bind].
  destruct (r_enqueue_spec (q_admitted_out st) (admitted (core st 0)) Hq ltac:(lia)) as (q1 & -> & Hq1 & El1 & Ef1). cbn [mbind option_bind].
  unfold pim_complete_timeslot. change (cores (set_out q1 st)) with (cores st). rewrite read_core by done. cbn [mbind option_bind].
  change (q_admitted_out (set_out q1 st)) with q1.
  destruct (r_enqueue_spec q1 (admitted (core st 1)) Hq1 ltac:(lia)) as (q2 & -> & Hq2 & El2 & _). cbn [mbind option_bind].
  exists q2. split; [done|]. split; [done|]. rewrite El2, El1, !(ma_out _ _ Hm) by done. by rewrite <- app_assoc.
Qed.
End decrease.

(** C26. Parallel iterative matching: a timeslot ends without a failed assertion or
    an access outside an array, for any random numbers, and passes on one list per
    source partition. Together these admit a matching: no source and no destination
    occurs twice; every admitted pair had a backlog, which goes down by one, and no
    other backlog changes; when a request is ready, at least one pair is admitted.
    Afterwards exactly the pairs with a backlog are requested or wait, once each. *)
Theorem pim_admits_matching backlog_decrease st :
  decreases backlog_decrease → pim_ok st → (2 ≤ r_free (q_admitted_out st))%nat →
  ∃ st' T, pim_get_admissible_traffic backlog_decrease st = Some st' ∧ pim_ok st' ∧
    r_list (q_admitted_out st') = r_list (q_admitted_out st) ++ by_partition T ∧
    NoDup T.*1 ∧ NoDup T.*2 ∧ (∀ e, e ∈ T → node e.1 ∧ node e.2 ∧ 0 < bl st e.1 e.2) ∧
    (∀ s d, node s → node d → bl st' s d = if decide ((s, d) ∈ T) then bl st s d - 1 else bl st s d) ∧
    ((∃ s, node s ∧ ready st s ≠ []) → T ≠ []).
Proof.
  intros Hdec [Hst Hd Hno Hq] Hfree.
  destruct (both_prepared st Hst Hd Hno) as (st1 & E1 & Hst1 & Hd1 & Hno1 & Hm1 & Eo1 & Eb1 & Hr1).
  destruct (all_iterations backlog_decrease Hdec st1 Hst1 Hd1 Hno1 Hm1) as (st2 & T & E2 & Hst2 & Hd2 & Hno2 & Hm2 & Hq2 & Hb2 & Hpos & Hne).
  pose proof (sq_out _ _ Hq2) as Eo2. rewrite Eo1 in Eo2. rewrite <- Eo2 in Hq, Hfree.
  destruct (both_completed st2 T Hst2 Hd2 Hno2 Hm2 Hq Hfree) as (q & E3 & Hq3 & El3).
  exists (set_out q st2), T. split.
  { unfold pim_get_admissible_traffic. rewrite E1. cbn [mbind option_bind].
    destruct (pim_iteration _ _ st1) as [st1'|]; [|done]. cbn [mbind option_bind] in E2 |- *. rewrite E2. cbn [mbind option_bind]. exact E3. }
  split; [constructor; [destruct Hst2; by constructor|destruct Hd2; by constructor|done|done]|].
  split; [by rewrite <- Eo2|]. split; [apply (ma_nodup_src _ _ Hm2)|]. split; [apply (ma_nodup_dst _ _ Hm2)|].
  assert (∀ s d, bl st1 s d = bl st s d) as Hb1 by (intros s d; unfold bl; by rewrite Eb1).
  split; [intros e He; destruct (ma_node _ _ Hm2 e He); rewrite <- Hb1; by split_and!; [..|apply Hpos]|]. split.
  - intros s d Hs Hdn. change (bl (set_out q st2) s d) with (bl st2 s d). rewrite Hb2, Hb1 by done.
    assert (NoDup T) as HT by (apply (NoDup_fmap_1 fst), (ma_nodup_src _ _ Hm2)).
    assert (count T (s, d) = if decide ((s, d) ∈ T) then 1 else 0) as ->; [|case_decide; lia]. by apply count_NoDup.
  - intros (s & Hs & Hre). apply Hne. exists s. by rewrite Hr1.
Qed.
End pim.

(** ** The check of a timeslot *)

(** [status] marks the nodes of [l]. *)
Definition marks (status : list bool) (l : list Z) : Prop :=
  length status = 256%nat ∧ ∀ x, node x → arr_get status x = bool_decide (x ∈ l).

Lemma marks_set status l x : marks status l → node x → marks (arr_set status x true) (l ++ [x]).
Proof.
  intros [Hl Hm] Hx. split; [by rewrite length_arr_set|]. intros y Hy. unfold node in *. rewrite arr_get_set by lia. case_decide as E.
  - rewrite bool_decide_eq_true_2; set_solver.
  - rewrite Hm by done. apply bool_decide_ext. set_solver.
Qed.

Lemma check_edges_spec (l : admitted_traffic) : ∀ status srcs dsts, marks status.1 srcs → marks status.2 dsts →
  (∀ e, e ∈ l → node e.1 ∧ node e.2) → NoDup srcs → NoDup dsts →
  ∃ ok status', check_edges l status = Some (ok, status') ∧
    (ok = true ↔ NoDup (srcs ++ l.*1) ∧ NoDup (dsts ++ l.*2)) ∧
    (ok = true → marks status'.1 (srcs ++ l.*1) ∧ marks status'.2 (dsts ++ l.*2)).
Proof.
  induction l as [|[s d] l IH]; intros status srcs dsts Hm1 Hm2 Hl Hnd1 Hnd2; cbn [check_edges].
  { exists true, status. rewrite !app_nil_r. done. }
  destruct (Hl (s, d)) as [Hs Hd]; [set_solver|]. cbn [fst snd] in Hs, Hd. pose proof (proj1 Hm1) as Hl1. pose proof (proj1 Hm2) as Hl2.
  unfold node in Hs. rewrite (arr_read_get status.1) by lia. cbn [mbind option_bind]. rewrite (proj2 Hm1) by done.
  rewrite !fmap_cons. cbn [fst snd]. case_bool_decide as Es.
  { exists false, status. split; [done|]. split; [|done]. split; [done|]. intros [H1 _]. apply NoDup_app in H1 as (_ & H1 & _). set_solver. }
  unfold node in Hd. rewrite (arr_read_get status.2) by lia. cbn [mbind option_bind]. rewrite (proj2 Hm2) by done. case_bool_decide as Ed.
  { exists false, status. split; [done|]. split; [|done]. split; [done|]. intros [_ H2]. apply NoDup_app in H2 as (_ & H2 & _). set_solver. }
  assert (∀ (x : Z) l', NoDup l' → x ∉ l' → NoDup (l' ++ [x])) as Hsnoc.
  { intros x l' H1 H2. apply NoDup_app. split; [done|]. split; [set_solver|apply NoDup_singleton]. }
  destruct (IH (arr_set status.1 s true, arr_set status.2 d true) (srcs ++ [s]) (dsts ++ [d])) as (ok & status' & E & Hok & Hm).
  - by apply marks_set.
  - by apply marks_set.
  - intros e He. apply Hl. by right.
  - by apply Hsnoc.
  - by apply Hsnoc.
  - exists ok, status'. split; [exact E|]. rewrite <- !app_assoc in Hok, Hm. done.
Qed.

(** [pim_is_valid_admitted_traffic] answers exactly whether the two lists that
    wait longest admit a matching, and puts them back if they do. *)
Theorem pim_check_is_exact {R Q} `{Ring Q admitted_struct} (st : pim_state R Q) a0 a1 rest :
  r_wf (q_admitted_out st) → r_list (q_admitted_out st) = a0 :: a1 :: rest →
  let T := adm_edges a0 ++ adm_edges a1 in (∀ e, e ∈ T → node e.1 ∧ node e.2) →
  ∃ ok q, pim_is_valid_admitted_traffic st = Some (ok, set_out q st) ∧ (ok = true ↔ NoDup T.*1 ∧ NoDup T.*2) ∧
    (ok = true → r_wf q ∧ r_list q = rest ++ [a0; a1]).
Proof.
  intros Hq El T HT. unfold pim_is_valid_admitted_traffic. change (seqZ 0 N_PARTITIONS) with [0; 1]. cbn [check_partitions].
  set (free := replicate (Z.to_nat MAX_NODES) false).
  assert (marks free []) as Hfree.
  { split; [done|]. intros x Hx. unfold node in Hx. unfold arr_get, free. change MAX_NODES with 256. by rewrite list_lookup_total_alt, lookup_replicate_2 by lia. }
  pose proof (r_dequeue_spec _ Hq) as Hd. rewrite El in Hd. destruct Hd as (q1 & -> & Hq1 & El1 & Ef1). cbn [mbind option_bind].
  destruct (check_edges_spec (adm_edges a0) (free, free) [] [] Hfree Hfree) as (ok0 & status & -> & Hok0 & Hm0); [intros e He; apply HT; set_solver|constructor|constructor|].
  cbn [mbind option_bind]. rewrite !app_nil_l in Hok0, Hm0. unfold T. rewrite !fmap_app.
  destruct ok0.
  2: { exists false, q1. cbn [mbind option_bind]. split; [done|]. split; [|done]. split; [done|].
       intros [[H1 _]%NoDup_app [H2 _]%NoDup_app]. by apply Hok0. }
  destruct (Hm0 eq_refl) as [Hm1 Hm2]. destruct (proj1 Hok0 eq_refl) as [Hn1 Hn2].
  destruct (r_enqueue_spec q1 a0 Hq1 ltac:(lia)) as (q2 & -> & Hq2 & El2 & Ef2). cbn [from_option id].
  pose proof (r_dequeue_spec _ Hq2) as Hd. rewrite El2, El1 in Hd. cbn [app] in Hd. destruct Hd as (q3 & -> & Hq3 & El3 & Ef3). cbn [mbind option_bind].
  destruct (check_edges_spec (adm_edges a1) status _ _ Hm1 Hm2) as (ok1 & status' & -> & Hok1 & _); [intros e He; apply HT; set_solver|done|done|].
  cbn [mbind option_bind]. destruct ok1.
  - destruct (r_enqueue_spec q3 a1 Hq3 ltac:(lia)) as (q4 & -> & Hq4 & El4 & _). exists true, q4. cbn [mbind option_bind].
    split; [done|]. split; [done|]. intros _. split; [done|]. by rewrite El4, El3, <- app_assoc.
  - exists false, q3. cbn [mbind option_bind]. done.
Qed.

(** ** A concrete timeslot: the demands of pim_test.c *)
Definition sample_decrease (b : backlog) (s d : Z) : Z * backlog :=
  let v := arr_get (backlog_n b) (get_status_index s d) - 1 in
  (v, {| backlog_n := arr_set (backlog_n b) (get_status_index s d) v; is_active := is_active b |}).

Lemma sample_decreases : decreases sample_decrease.
Proof.
  intros b s d v Hv Hpos. unfold sample_decrease, backlog_get, arr_read in *. case_match; [|done]. unfold arr_get.
  by rewrite (list_lookup_total_correct _ _ _ Hv).
Qed.

Definition sample_bin : bin := (λ e, {| be_src := e.1; be_dst := e.2; be_backlog := 0; be_metric := 0 |}) <$> [(1, 3); (4, 5); (1, 5)].
Definition sample_ring {A} (garbage : A) : fp_ring A := fp_ring_create 8 (replicate 8 garbage).
Definition sample_core (q : fp_ring bin) : pim_core_state (fp_ring bin) := {|
  rand_state := 12345; admitted := {| adm_partition := 0; adm_edges := [] |}; grant_adj_index := replicate 128 0;
  src_endnodes := replicate 16 255; dst_endnodes := replicate 16 255; q_new_demands := q |}.
Definition sample_adj : ga_adj := {| degree := replicate 128 0; neigh := replicate 128 (replicate 256 9) |}.
Definition sample_lists : ga_partd_edgelist := replicate 2 (replicate 2 {| n := 0; edge := replicate 128 (7, 7) |}).
Definition sample_backlog : list Z := arr_set (arr_set (arr_set (replicate (Z.to_nat 65536) 0) (1 * 256 + 3) 2) (4 * 256 + 5) 2) (1 * 256 + 5) 2.

Definition sample_pim : pim_state (fp_ring bin) (fp_ring admitted_struct) := {|
  requests_by_src := [sample_adj; sample_adj]; grants := sample_lists; grants_by_dst := [sample_adj; sample_adj]; accepts := sample_lists;
  pim_backlog := {| backlog_n := sample_backlog; is_active := [] |}; new_demands := [[]; []];
  q_admitted_out := sample_ring {| adm_partition := 0; adm_edges := [] |};
  cores := [sample_core (default (sample_ring []) (fp_ring_enqueue sample_bin (sample_ring []))); sample_core (sample_ring [])] |}.

#[local] Instance bin_ring_inhabited : Inhabited (fp_ring bin) := populate (sample_ring []).

Lemma two_parts (P : Z → Prop) : P 0 → P 1 → ∀ p, part p → P p.
Proof. intros H0 H1 p Hp. unfold part in Hp. by assert (p = 0 ∨ p = 1) as [-> | ->] by lia. Qed.

Lemma sample_adj_ok : adj_ok sample_adj.
Proof.
  constructor; [done..| |]; intros i Hi; unfold index in Hi; unfold arr_get, sample_adj; cbn [degree neigh];
    rewrite list_lookup_total_alt, lookup_replicate_2 by lia; [simpl; lia|done].
Qed.

Lemma sample_lists_ok : pe_ok sample_lists.
Proof. constructor; [done|by apply two_parts|]. intros dp sp Hdp. revert sp. revert dp Hdp. refine (two_parts (λ dp, ∀ sp, part sp → _) _ _); by apply two_parts. Qed.

Lemma sample_shape : pim_shape sample_pim.
Proof.
  destruct (fp_ring_create_spec (A := bin) 3 (replicate 8 []) ltac:(lia) ltac:(done)) as (Hw0 & El0 & Em0).
  assert (ring_size (fp_ring_create (A := bin) 8 (replicate 8 [])) = 0) as Es by done.
  destruct (fp_ring_enqueue_spec (fp_ring_create 8 (replicate 8 [])) sample_bin Hw0 ltac:(done)) as (r & Er & Hr & _).
  assert (∀ q, ring_wf q → core_ok (sample_core q)) as Hcore by (intros q Hq; by constructor).
  constructor.
  - done.
  - apply two_parts; apply sample_adj_ok.
  - done.
  - apply two_parts; apply sample_adj_ok.
  - apply sample_lists_ok.
  - apply sample_lists_ok.
  - change (length sample_backlog = Z.to_nat 65536). unfold sample_backlog. by rewrite !length_arr_set, length_replicate.
  - done.
  - apply two_parts; apply Hcore; [unfold sample_ring; by rewrite Er|done].
Qed.

Lemma sample_waiting p : part p → waiting sample_pim p = if decide (p = 0) then sample_bin else [].
Proof. revert p. by apply two_parts. Qed.

Lemma sample_bl s d : node s → node d → bl sample_pim s d = if decide ((s, d) ∈ [(1, 3); (4, 5); (1, 5)]) then 2 else 0.
Proof.
  unfold node. intros Hs Hd. unfold bl. cbn [pim_backlog sample_pim backlog_n]. unfold sample_backlog.
  rewrite !arr_get_set by (rewrite ?length_arr_set, ?length_replicate; lia).
  assert (arr_get (replicate (Z.to_nat 65536) 0) (s * 256 + d) = 0) as ->.
  { unfold arr_get. rewrite list_lookup_total_alt, lookup_replicate_2 by lia. done. }
  destruct (decide ((s, d) ∈ _)) as [Hin|Hin]; rewrite !elem_of_cons, !pair_equal_spec in Hin; repeat case_decide; try done; exfalso.
  - destruct Hin as [Hin|[Hin|[Hin|Hin]]]; [lia..|]. by apply not_elem_of_nil in Hin.
  - apply Hin. lia.
  - apply Hin. lia.
  - apply Hin. lia.
Qed.

Lemma sample_demands : demands_ok sample_pim.
Proof.
  assert (∀ s, node s → req sample_pim s = []) as Hreq.
  { intros s Hs. destruct (node_split s Hs) as (Hp & Hi & _). unfold req, adj_of, nbrs.
    assert (arr_get (requests_by_src sample_pim) (PARTITION_OF s) = sample_adj) as ->.
    { revert Hp. generalize (PARTITION_OF s). by apply two_parts. }
    unfold arr_get at 1, sample_adj. cbn [degree]. unfold index in Hi. by rewrite list_lookup_total_alt, lookup_replicate_2 by lia. }
  assert (∀ s, node s → pend sample_pim s = (if decide (s = 1) then [3; 5] else if decide (s = 4) then [5] else [])) as Hpend.
  { intros s Hs. destruct (node_split s Hs) as (Hp & _ & Es). unfold pend. rewrite sample_waiting by done. unfold node in Hs.
    case_decide as E0.
    - unfold dsts_of, sample_bin. cbn [fmap list_fmap fst snd]. rewrite !filter_cons, filter_nil. cbn [be_src].
      repeat case_decide; subst; try lia; done.
    - rewrite !decide_False; [done|intros ->; by apply E0..]. }
  constructor.
  - intros s Hs. rewrite Hreq, Hpend by done. simpl. repeat case_decide; repeat constructor; set_solver.
  - intros s d Hs. rewrite Hreq, Hpend by done. cbn [dsts_of fmap list_fmap filter list_filter app]. split.
    + intros Hin. assert (node d ∧ (s, d) ∈ [(1, 3); (4, 5); (1, 5)]) as [Hd Hin2].
      { unfold node. repeat case_decide; subst; rewrite ?elem_of_cons in Hin; destruct_or?; subst; try (by apply not_elem_of_nil in Hin); set_solver by lia. }
      split; [done|]. by rewrite sample_bl, decide_True.
    + intros [Hd Hpos]. rewrite sample_bl in Hpos by done. case_decide as Hin; [|done].
      rewrite !elem_of_cons, !pair_equal_spec in Hin. destruct Hin as [[-> ->]|[[-> ->]|[[-> ->]|Hin]]]; [set_solver..|]. by apply not_elem_of_nil in Hin.
  - intros p e Hp He. rewrite sample_waiting in He by done. case_decide as E0; [subst|by apply not_elem_of_nil in He].
    unfold sample_bin in He. cbn [fmap list_fmap fst snd] in He. rewrite !elem_of_cons in He.
    destruct He as [-> |[-> |[-> |He]]]; [unfold node; simpl; split; [lia|done]..|]. by apply not_elem_of_nil in He.
Qed.

Lemma sample_pim_ok : pim_ok sample_pim.
Proof.
  constructor; [apply sample_shape|apply sample_demands|intros dp sp Hdp; revert sp; revert dp Hdp; refine (two_parts (λ dp, ∀ sp, part sp → _) _ _); by apply two_parts|].
  by apply (fp_ring_create_spec 3 (replicate 8 {| adm_partition := 0; adm_edges := [] |})).
Qed.

Lemma pim_admits_matching_witness : ∃ st' T, pim_get_admissible_traffic sample_decrease sample_pim = Some st' ∧
  ring_list (q_admitted_out st') = by_partition T ∧ NoDup T.*1 ∧ NoDup T.*2 ∧ T ≠ [].
Proof.
  destruct (pim_admits_matching sample_decrease sample_pim sample_decreases sample_pim_ok) as (st' & T & E & _ & El & H1 & H2 & _ & _ & Hne).
  - vm_compute. lia.
  - exists st', T. split; [exact E|]. split; [exact El|]. split; [exact H1|]. split; [exact H2|].
    apply Hne. exists 1. split; [unfold node; lia|]. discriminate.
Defined.

(** A list in which a destination occurs twice. *)
Definition sample_bad : fp_ring admitted_struct := default (sample_ring inhabitant)
  (r ← fp_ring_enqueue {| adm_partition := 0; adm_edges := [(1, 3); (4, 5)] |} (sample_ring inhabitant);
   fp_ring_enqueue {| adm_partition := 1; adm_edges := [(200, 5)] |} r).

Lemma pim_check_is_exact_witness : ∃ q, pim_is_valid_admitted_traffic (set_out sample_bad sample_pim) = Some (false, set_out q sample_pim).
Proof.
  destruct (pim_check_is_exact (set_out sample_bad sample_pim) {| adm_partition := 0; adm_edges := [(1, 3); (4, 5)] |}
    {| adm_partition := 1; adm_edges := [(200, 5)] |} []) as (ok & q & E & Hok & _).
  - constructor; [exists 3; split; [lia|reflexivity]|reflexivity|vm_compute; split; [discriminate|reflexivity]..|vm_compute; discriminate].
  - reflexivity.
  - intros e He. cbn [app adm_edges] in He. rewrite !elem_of_cons in He.
    destruct He as [-> |[-> |[-> |He]]]; [unfold node; simpl; lia..|]. by apply not_elem_of_nil in He.
  - exists q. destruct ok; [|exact E]. exfalso. destruct (proj1 Hok eq_refl) as [_ Hnd].
    apply (bool_decide_eq_true_2 _) in Hnd. vm_compute in Hnd. discriminate.
Defined.

(** C29. The phases are barriers: in every order of calls of the two partitions, no
    call fails, a partition passes its k-th barrier only after the other one finished
    its k-th phase and before it starts its own next phase, and a waiting partition
    passes with its next call once the other one finished as many phases as itself. *)
Theorem phases_are_barriers {R} `{!Inhabited R} `{Ring R Z} (q0 q1 : R) schedule :
  r_wf q0 → r_wf q1 → r_list q0 = [] → r_list q1 = [] → (2 ≤ r_free q0)%nat → (2 ≤ r_free q1)%nat → Forall part schedule →
  ∃ w tr, phase_run schedule (phase_start [q0; q1]) = Some (w, tr) ∧ ∀ p, part p →
    count_ev (Passed p) tr ≤ count_ev (Finished (1 - p)) tr ∧
    count_ev (Passed p) tr ≤ count_ev (Finished p) tr ≤ count_ev (Passed p) tr + 1 ∧
    (may_pass p w tr → ∃ w', phase_step p w = Some (w', [Passed p])).
Proof.
  intros Hq0 Hq1 El0 El1 Hf0 Hf1 Hs.
  destruct (phase_run_spec schedule _ [] Hs (phase_start_ok q0 q1 Hq0 Hq1 El0 El1 Hf0 Hf1)) as (w & tr & E & Hok).
  exists w, tr. split; [exact E|]. intros p Hp. destruct (world_ok_counts w tr p Hp Hok) as [H1 H2]. split; [done|]. split; [done|].
  intros Hm. destruct (phase_step_spec p w tr Hp Hok) as (w' & l & E' & _ & Hl). exists w'. by rewrite E', (Hl Hm).
Qed.

Definition phase_ring : fp_ring Z := fp_ring_create 4 (replicate 4 77).
#[local] Instance phase_ring_inhabited : Inhabited (fp_ring Z) := populate phase_ring.

(** Partition 1 finishes, polls in vain, and passes once partition 0 has finished; it
    finishes again, and partition 0 passes with its next call. *)
Lemma phases_are_barriers_witness : ∃ w w', phase_run [1; 1; 0; 1; 1] (phase_start [phase_ring; phase_ring]) =
    Some (w, [Finished 1; Finished 0; Passed 1; Finished 1]) ∧ phase_step 0 w = Some (w', [Passed 0]).
Proof.
  destruct (phases_are_barriers phase_ring phase_ring [1; 1; 0; 1; 1]) as (w & tr & E & Hp).
  - constructor; [exists 2; split; [lia|reflexivity]|reflexivity|vm_compute; split; [discriminate|reflexivity]..|vm_compute; discriminate].
  - constructor; [exists 2; split; [lia|reflexivity]|reflexivity|vm_compute; split; [discriminate|reflexivity]..|vm_compute; discriminate].
  - reflexivity.
  - reflexivity.
  - vm_compute. lia.
  - vm_compute. lia.
  - repeat constructor; discriminate.
  - assert (tr = [Finished 1; Finished 0; Passed 1; Finished 1] ∧ arr_get (waits w) 0 = Some 0) as [-> Hw]
      by (vm_compute in E; injection E as <- <-; split; reflexivity).
    destruct (Hp 0) as (_ & _ & Hnext); [split; [lia|reflexivity]|].
    destruct Hnext as [w' Hw']; [split; [rewrite Hw; discriminate|vm_compute; discriminate]|].
    exists w, w'. split; [exact E|exact Hw'].
Defined.
