(* ===== verification/Sjf.v ===== *)
(** * Shortest job first

    Model of [src/src/graph-algo/admissible_structures_sjf.h],
    [admissible_traffic_sjf.h] and [admissible_traffic_sjf.c], an earlier allocator
    that serves flows in the order of their backlogs: a core works through 256 bins
    of flows, allocates a batch of 64 timeslots, and passes on what is left.

    The rings are in a store and a core names those that it uses, because a core
    that works alone uses one ring for its input and its output. What other parties
    do while a core polls its queues is a script of events: the communication core
    adds demands, and the clock advances. [None] is a failed [assert], an access
    outside an array, a wait for space in a ring, or a wait that the script does not
    end. Bins and lists of admitted traffic have one owner at a time and are passed
    by value. Statistics and printing are left out. *)

From S2P Require Import Prelude Platform Pacer Ring.
Export Topology.

Module Sjf.
Definition BATCH_SIZE : Z := 64.
Definition BATCH_SHIFT : Z := 6.
Definition NONE_AVAILABLE : Z := 251.
Definition NUM_BINS_SHIFT : Z := 8.
Definition NUM_BINS : Z := 256.
Definition SMALL_BIN_SIZE : Z := MAX_NODES * MAX_NODES.
Definition LARGE_BIN_SIZE : Z := MAX_NODES * MAX_NODES.
Definition NUM_SRC_DST_PAIRS : Z := MAX_NODES * MAX_NODES.
Definition MAX_DSTS : Z := MAX_NODES.
Definition MAX_SRCS : Z := MAX_NODES.
Definition RING_DEQUEUE_BURST_SIZE : nat := 256.
Definition URGENT_Q_HEAD_TOKEN : Z := not64 0.

(** ** Bins: 16-bit indices into an array of flows *)
Record bin := { head : Z; tail : Z; edges : list (Z * Z) }.
#[export] Instance bin_inhabited : Inhabited bin := populate {| head := 0; tail := 0; edges := [] |}.

Definition init_bin (b : bin) : bin := {| head := 0; tail := 0; edges := edges b |}.
Definition is_empty_bin (b : bin) : bool := head b =? tail b.

Definition enqueue_bin (b : bin) (src dst : Z) : option bin :=
  edges ← arr_write (edges b) (tail b) (src, dst);
  Some {| head := head b; tail := u16 (tail b + 1); edges := edges |}.

Definition peek_head_bin (b : bin) : option (Z * Z) := arr_read (edges b) (head b).

Definition dequeue_bin (b : bin) : option bin :=
  if is_empty_bin b then None else Some {| head := u16 (head b + 1); tail := tail b; edges := edges b |}.

(** The array is not initialised. *)
Definition create_bin (size : Z) (garbage : list (Z * Z)) : bin :=
  {| head := 0; tail := 0; edges := take (Z.to_nat size) garbage |}.

(** ** Admitted traffic of a timeslot *)
Abbreviation admitted_traffic := (list (Z * Z)).

Definition init_admitted_traffic (a : admitted_traffic) : admitted_traffic := [].

Definition insert_admitted_edge (a : admitted_traffic) (src dst : Z) : option admitted_traffic :=
  if (Z.of_nat (length a) <? MAX_NODES) && (src <? MAX_SRCS) && (dst <? MAX_DSTS) then Some (a ++ [(src, dst)]) else None.

(** ** The nodes and racks that are free in each timeslot of the batch *)
Record batch_state := {
  oversubscribed : bool;
  inter_rack_capacity : Z;
  out_of_boundary_capacity : Z;
  allowed_mask : Z;
  src_endnodes : list Z;
  dst_endnodes : list Z;
  src_rack_bitmaps : list Z;
  dst_rack_bitmaps : list Z;
  src_rack_counts : list Z;
  dst_rack_counts : list Z;
  out_of_boundary_counts : list Z;
}.

Definition get_rack_from_id (id : Z) : Z := u16 (Z.shiftr id TOR_SHIFT).

(** The first [n] elements are [v]. *)
Definition fill {A} (n : Z) (v : A) (l : list A) : list A := replicate (Z.to_nat n) v ++ drop (Z.to_nat n) l.

Definition init_batch_state (st : batch_state) (over : bool) (rack_capacity boundary_capacity num_nodes : Z) : option batch_state :=
  if num_nodes <=? MAX_NODES then Some {|
    oversubscribed := over; inter_rack_capacity := rack_capacity; out_of_boundary_capacity := boundary_capacity;
    allowed_mask := not64 0;
    src_endnodes := fill num_nodes (not64 0) (src_endnodes st);
    dst_endnodes := arr_set (fill num_nodes (not64 0) (dst_endnodes st)) OUT_OF_BOUNDARY_NODE_ID (not64 0);
    src_rack_bitmaps := if over then fill num_nodes (not64 0) (src_rack_bitmaps st) else src_rack_bitmaps st;
    dst_rack_bitmaps := if over then fill num_nodes (not64 0) (dst_rack_bitmaps st) else dst_rack_bitmaps st;
    src_rack_counts := if over then replicate (Z.to_nat (MAX_RACKS * BATCH_SIZE)) 0 else src_rack_counts st;
    dst_rack_counts := if over then replicate (Z.to_nat (MAX_RACKS * BATCH_SIZE)) 0 else dst_rack_counts st;
    out_of_boundary_counts := replicate (Z.to_nat BATCH_SIZE) 0 |}
  else None.

Definition available_bitmap (st : batch_state) (src dst : Z) : option Z :=
  s ← arr_read (src_endnodes st) src;
  d ← arr_read (dst_endnodes st) dst;
  let endnode_bitmap := Z.land (Z.land (allowed_mask st) s) d in
  if oversubscribed st then
    sr ← arr_read (src_rack_bitmaps st) (get_rack_from_id src);
    if dst =? OUT_OF_BOUNDARY_NODE_ID then Some (Z.land endnode_bitmap sr)
    else
      dr ← arr_read (dst_rack_bitmaps st) (get_rack_from_id dst);
      Some (Z.land endnode_bitmap (Z.land sr dr))
  else Some endnode_bitmap.

Definition get_first_timeslot (st : batch_state) (src dst : Z) : option Z :=
  if (src <? MAX_SRCS) && (dst <? MAX_DSTS) then
    bitmap ← available_bitmap st src dst;
    Some (if bitmap =? 0 then NONE_AVAILABLE else u8 (__ffs bitmap))
  else None.

(** [l[i] & ~(1 << timeslot)] *)
Definition clear_timeslot (l : list Z) (i timeslot : Z) : option (list Z) :=
  v ← arr_read l i; arr_write l i (Z.land v (not64 (shl64 1 timeslot))).

(** A 16-bit counter goes up; when it reaches the capacity, the timeslot is cleared
    in the bitmap. *)
Definition count_timeslot (counts bitmaps : list Z) (index i timeslot capacity : Z) : option (list Z * list Z) :=
  n ← arr_read counts index;
  counts ← arr_write counts index (u16 (n + 1));
  if u16 (n + 1) =? capacity then bitmaps ← clear_timeslot bitmaps i timeslot; Some (counts, bitmaps)
  else Some (counts, bitmaps).

Definition set_timeslot_occupied (st : batch_state) (src dst timeslot : Z) : option batch_state :=
  if (src <? MAX_SRCS) && (dst <? MAX_DSTS) && (timeslot <=? BATCH_SIZE) then
    srcs ← clear_timeslot (src_endnodes st) src timeslot;
    '(counts, dsts) ← (if dst =? OUT_OF_BOUNDARY_NODE_ID then
        count_timeslot (out_of_boundary_counts st) (dst_endnodes st) timeslot dst timeslot (out_of_boundary_capacity st)
      else dsts ← clear_timeslot (dst_endnodes st) dst timeslot; Some (out_of_boundary_counts st, dsts));
    '(src_counts, src_racks) ← (if oversubscribed st then
        let rack := get_rack_from_id src in
        count_timeslot (src_rack_counts st) (src_rack_bitmaps st) (BATCH_SIZE * rack + timeslot) rack timeslot (inter_rack_capacity st)
      else Some (src_rack_counts st, src_rack_bitmaps st));
    '(dst_counts, dst_racks) ← (if oversubscribed st && negb (dst =? OUT_OF_BOUNDARY_NODE_ID) then
        let rack := get_rack_from_id dst in
        count_timeslot (dst_rack_counts st) (dst_rack_bitmaps st) (BATCH_SIZE * rack + timeslot) rack timeslot (inter_rack_capacity st)
      else Some (dst_rack_counts st, dst_rack_bitmaps st));
    Some {| oversubscribed := oversubscribed st; inter_rack_capacity := inter_rack_capacity st;
            out_of_boundary_capacity := out_of_boundary_capacity st; allowed_mask := allowed_mask st;
            src_endnodes := srcs; dst_endnodes := dsts; src_rack_bitmaps := src_racks; dst_rack_bitmaps := dst_racks;
            src_rack_counts := src_counts; dst_rack_counts := dst_counts; out_of_boundary_counts := counts |}
  else None.

Definition disallow_first (st : batch_state) : batch_state := {|
  oversubscribed := oversubscribed st; inter_rack_capacity := inter_rack_capacity st;
  out_of_boundary_capacity := out_of_boundary_capacity st; allowed_mask := shl64 (allowed_mask st) 1;
  src_endnodes := src_endnodes st; dst_endnodes := dst_endnodes st; src_rack_bitmaps := src_rack_bitmaps st;
  dst_rack_bitmaps := dst_rack_bitmaps st; src_rack_counts := src_rack_counts st; dst_rack_counts := dst_rack_counts st;
  out_of_boundary_counts := out_of_boundary_counts st |}.

(** ** The status that all cores share; [flows] are 32-bit atomic backlogs *)
Record admissible_status := {
  current_timeslot : Z;
  st_oversubscribed : bool;
  st_out_of_boundary_capacity : Z;
  st_inter_rack_capacity : Z;
  num_nodes : Z;
  last_alloc_tslot : list Z;
  flows : list Z;
}.

Definition set_flows (v : list Z) (s : admissible_status) : admissible_status := {| current_timeslot := current_timeslot s;
  st_oversubscribed := st_oversubscribed s; st_out_of_boundary_capacity := st_out_of_boundary_capacity s;
  st_inter_rack_capacity := st_inter_rack_capacity s; num_nodes := num_nodes s; last_alloc_tslot := last_alloc_tslot s; flows := v |}.
Definition set_last_alloc (v : list Z) (s : admissible_status) : admissible_status := {| current_timeslot := current_timeslot s;
  st_oversubscribed := st_oversubscribed s; st_out_of_boundary_capacity := st_out_of_boundary_capacity s;
  st_inter_rack_capacity := st_inter_rack_capacity s; num_nodes := num_nodes s; last_alloc_tslot := v; flows := flows s |}.
Definition advance_timeslot (s : admissible_status) : admissible_status := {| current_timeslot := u64 (current_timeslot s + BATCH_SIZE);
  st_oversubscribed := st_oversubscribed s; st_out_of_boundary_capacity := st_out_of_boundary_capacity s;
  st_inter_rack_capacity := st_inter_rack_capacity s; num_nodes := num_nodes s; last_alloc_tslot := last_alloc_tslot s; flows := flows s |}.

Definition reset_admissible_status (over : bool) (rack_capacity boundary_capacity num_nodes : Z) : admissible_status := {|
  current_timeslot := NUM_BINS; st_oversubscribed := over; st_out_of_boundary_capacity := boundary_capacity;
  st_inter_rack_capacity := rack_capacity; num_nodes := num_nodes;
  last_alloc_tslot := replicate (Z.to_nat NUM_SRC_DST_PAIRS) 0; flows := replicate (Z.to_nat NUM_SRC_DST_PAIRS) 0 |}.

Definition get_status_index (src dst : Z) : Z := Z.shiftl src FP_NODES_SHIFT + dst.

(** [x += v] on an atomic; the value after it. *)
Definition atomic32_add_return (l : list Z) (i v : Z) : option (Z * list Z) :=
  x ← arr_read l i; l ← arr_write l i (s32 (x + v)); Some (s32 (x + v), l).

(** A flow that waits keeps a backlog of 1. *)
Definition reset_flow (s : admissible_status) (src dst : Z) : option admissible_status :=
  let index := get_status_index src dst in
  x ← arr_read (flows s) index;
  let backlog := u32 x in
  if negb (backlog =? 0) then
    '(r, l) ← atomic32_add_return (flows s) index (- u32 (backlog + 1));
    if u32 r =? u32 (- (backlog + 1)) then l ← arr_write l index 0; Some (set_flows l s)
    else l ← arr_write l index 1; Some (set_flows l s)
  else Some s.

Definition reset_sender (s : admissible_status) (src : Z) : option admissible_status :=
  for_each (λ dst s, reset_flow s src dst) (seqZ 0 MAX_NODES) s.

Definition bin_index_from_src_dst (s : admissible_status) (src dst : Z) : option Z :=
  if (src <? MAX_SRCS) && (dst <? MAX_DSTS) then
    x ← arr_read (flows s) (get_status_index src dst);
    let backlog := u32 x in
    if backlog =? 0 then None
    else Some (if backlog <=? NUM_BINS then u16 (backlog - 1) else NUM_BINS - 1)
  else None.

(** ** One allocation core; the rings are positions in the stores *)
Record admission_core_state := {
  new_request_bins : list bin;
  outgoing_bins : list (option bin);
  temporary_bins : list (option bin);
  bstate : batch_state;
  admitted : list admitted_traffic;
  is_head : bool;
  q_bin_in : Z;
  q_bin_out : Z;
  q_urgent_in : Z;
  q_urgent_out : Z;
}.

Definition set_new_request_bins v c := {| new_request_bins := v; outgoing_bins := outgoing_bins c; temporary_bins := temporary_bins c;
  bstate := bstate c; admitted := admitted c; is_head := is_head c; q_bin_in := q_bin_in c; q_bin_out := q_bin_out c;
  q_urgent_in := q_urgent_in c; q_urgent_out := q_urgent_out c |}.
Definition set_outgoing_bins v c := {| new_request_bins := new_request_bins c; outgoing_bins := v; temporary_bins := temporary_bins c;
  bstate := bstate c; admitted := admitted c; is_head := is_head c; q_bin_in := q_bin_in c; q_bin_out := q_bin_out c;
  q_urgent_in := q_urgent_in c; q_urgent_out := q_urgent_out c |}.
Definition set_temporary_bins v c := {| new_request_bins := new_request_bins c; outgoing_bins := outgoing_bins c; temporary_bins := v;
  bstate := bstate c; admitted := admitted c; is_head := is_head c; q_bin_in := q_bin_in c; q_bin_out := q_bin_out c;
  q_urgent_in := q_urgent_in c; q_urgent_out := q_urgent_out c |}.
Definition set_bstate v c := {| new_request_bins := new_request_bins c; outgoing_bins := outgoing_bins c; temporary_bins := temporary_bins c;
  bstate := v; admitted := admitted c; is_head := is_head c; q_bin_in := q_bin_in c; q_bin_out := q_bin_out c;
  q_urgent_in := q_urgent_in c; q_urgent_out := q_urgent_out c |}.
Definition set_admitted v c := {| new_request_bins := new_request_bins c; outgoing_bins := outgoing_bins c; temporary_bins := temporary_bins c;
  bstate := bstate c; admitted := v; is_head := is_head c; q_bin_in := q_bin_in c; q_bin_out := q_bin_out c;
  q_urgent_in := q_urgent_in c; q_urgent_out := q_urgent_out c |}.
Definition set_is_head v c := {| new_request_bins := new_request_bins c; outgoing_bins := outgoing_bins c; temporary_bins := temporary_bins c;
  bstate := bstate c; admitted := admitted c; is_head := v; q_bin_in := q_bin_in c; q_bin_out := q_bin_out c;
  q_urgent_in := q_urgent_in c; q_urgent_out := q_urgent_out c |}.

(** The core for a new batch; [None] if a pool of bins is incomplete. *)
Definition alloc_core_reset (c : admission_core_state) (s : admissible_status) : option admission_core_state :=
  bs ← init_batch_state (bstate c) (st_oversubscribed s) (st_inter_rack_capacity s) (st_out_of_boundary_capacity s) (num_nodes s);
  out ← mapM id (outgoing_bins c);
  Some {| new_request_bins := init_bin <$> new_request_bins c; outgoing_bins := (λ b, Some (init_bin b)) <$> out;
          temporary_bins := temporary_bins c; bstate := bs;
          admitted := replicate (Z.to_nat BATCH_SIZE) (init_admitted_traffic []); is_head := false;
          q_bin_in := q_bin_in c; q_bin_out := q_bin_out c; q_urgent_in := q_urgent_in c; q_urgent_out := q_urgent_out c |}.

(** What the first loop of [get_admissible_traffic] asserts. *)
Definition bins_reset (c : admission_core_state) : bool :=
  forallb (λ b, is_empty_bin b && (head b =? 0)) (new_request_bins c) &&
  forallb (λ o, match o with Some b => is_empty_bin b && (head b =? 0) | None => false end) (outgoing_bins c).

Definition alloc_core_init (bs : batch_state) (garbage : list (Z * Z)) (bin_in bin_out urgent_in urgent_out : Z) : admission_core_state := {|
  new_request_bins := replicate (Z.to_nat NUM_BINS) (create_bin SMALL_BIN_SIZE garbage);
  outgoing_bins := replicate (Z.to_nat NUM_BINS) (Some (create_bin LARGE_BIN_SIZE garbage));
  temporary_bins := replicate (Z.to_nat NUM_BINS) None;
  bstate := bs; admitted := []; is_head := false;
  q_bin_in := bin_in; q_bin_out := bin_out; q_urgent_in := urgent_in; q_urgent_out := urgent_out |}.

(** ** Edges in the rings: a bin, a source and a destination *)
Definition MAKE_EDGE (bin src dst : Z) : Z := Z.lor (Z.lor (shl64 bin 32) (u32 (Z.shiftl src 16))) dst.
Definition EDGE_BIN (edge : Z) : Z := u16 (Z.shiftr edge 32).
Definition EDGE_SRC (edge : Z) : Z := u16 (Z.shiftr edge 16).
Definition EDGE_DST (edge : Z) : Z := u16 edge.

(** What happens between two polls of the core: demands are added, and the clock is
    at [ev_time]. *)
Record event := { ev_demands : list (Z * Z * Z); ev_time : Z }.

Section algo.
Context {Rb Re Ra : Type} `{RingOps Rb bin} `{RingOps Re Z} `{RingOps Ra admitted_traffic}.
Context `{!Inhabited Rb} `{!Inhabited Re}.

Record world := {
  status : admissible_status;
  core : admission_core_state;
  q_head : Re;
  q_admitted_out : Ra;
  bin_rings : list Rb;
  urgent_rings : list Re;
  script : list event;
}.

Definition set_status v w := {| status := v; core := core w; q_head := q_head w; q_admitted_out := q_admitted_out w;
  bin_rings := bin_rings w; urgent_rings := urgent_rings w; script := script w |}.
Definition set_core v w := {| status := status w; core := v; q_head := q_head w; q_admitted_out := q_admitted_out w;
  bin_rings := bin_rings w; urgent_rings := urgent_rings w; script := script w |}.
Definition set_q_head v w := {| status := status w; core := core w; q_head := v; q_admitted_out := q_admitted_out w;
  bin_rings := bin_rings w; urgent_rings := urgent_rings w; script := script w |}.
Definition set_q_admitted_out v w := {| status := status w; core := core w; q_head := q_head w; q_admitted_out := v;
  bin_rings := bin_rings w; urgent_rings := urgent_rings w; script := script w |}.
Definition set_bin_rings v w := {| status := status w; core := core w; q_head := q_head w; q_admitted_out := q_admitted_out w;
  bin_rings := v; urgent_rings := urgent_rings w; script := script w |}.
Definition set_urgent_rings v w := {| status := status w; core := core w; q_head := q_head w; q_admitted_out := q_admitted_out w;
  bin_rings := bin_rings w; urgent_rings := v; script := script w |}.
Definition set_script v w := {| status := status w; core := core w; q_head := q_head w; q_admitted_out := q_admitted_out w;
  bin_rings := bin_rings w; urgent_rings := urgent_rings w; script := v |}.

Abbreviation W := (M False world).

(** ** Access to the rings *)
Definition enqueue_bin_out (b : bin) : W unit :=
  w ← get;
  r ← deref (arr_read (bin_rings w) (q_bin_out (core w)));
  r ← deref (r_enqueue b r);
  modify (λ w, set_bin_rings (arr_set (bin_rings w) (q_bin_out (core w)) r) w).

Definition dequeue_bin_in : W (option bin) :=
  w ← get;
  r ← deref (arr_read (bin_rings w) (q_bin_in (core w)));
  match r_dequeue r with
  | None => mret None
  | Some (b, r) => modify (λ w, set_bin_rings (arr_set (bin_rings w) (q_bin_in (core w)) r) w);; mret (Some b)
  end.

Definition enqueue_urgent_out (edge : Z) : W unit :=
  w ← get;
  r ← deref (arr_read (urgent_rings w) (q_urgent_out (core w)));
  r ← deref (r_enqueue edge r);
  modify (λ w, set_urgent_rings (arr_set (urgent_rings w) (q_urgent_out (core w)) r) w).

Definition dequeue_urgent_in : W (list Z) :=
  w ← get;
  r ← deref (arr_read (urgent_rings w) (q_urgent_in (core w)));
  let '(es, r) := r_dequeue_burst RING_DEQUEUE_BURST_SIZE r in
  modify (λ w, set_urgent_rings (arr_set (urgent_rings w) (q_urgent_in (core w)) r) w);;
  mret es.

Definition dequeue_head : W (list Z) :=
  w ← get;
  let '(es, r) := r_dequeue_burst RING_DEQUEUE_BURST_SIZE (q_head w) in
  modify (set_q_head r);;
  mret es.

(** ** Demands, from the communication core *)
Definition add_backlog_no_enqueue (src dst backlog_increase : Z) : W (option Z) :=
  w ← get;
  '(r, l) ← deref (atomic32_add_return (flows (status w)) (get_status_index src dst) backlog_increase);
  modify (λ w, set_status (set_flows l (status w)) w);;
  mret (if r =? backlog_increase then Some (MAKE_EDGE 0 src dst) else None).

Definition add_backlog (src dst backlog_increase : Z) : W unit :=
  o ← add_backlog_no_enqueue src dst backlog_increase;
  match o with
  | None => mret tt
  | Some edge => w ← get; r ← deref (r_enqueue edge (q_head w)); modify (set_q_head r)
  end.

Fixpoint add_demands (l : list (Z * Z * Z)) : W unit :=
  match l with
  | [] => mret tt
  | (src, dst, n) :: l' => add_backlog src dst n;; add_demands l'
  end.

(** The next event of the script; the clock. *)
Definition observe : W Z :=
  w ← get;
  match script w with
  | [] => ub
  | e :: es => modify (set_script es);; add_demands (ev_demands e);; mret (ev_time e)
  end.

(** ** Allocation *)

(** The loop of [try_allocation]; 1 if backlog remains. *)
Fixpoint try_allocation_loop (fuel : nat) (src dst : Z) : W Z :=
  match fuel with
  | O => ub
  | S fuel' =>
      w ← get;
      batch_timeslot ← deref (get_first_timeslot (bstate (core w)) src dst);
      if batch_timeslot =? NONE_AVAILABLE then mret 1
      else
        bs ← deref (set_timeslot_occupied (bstate (core w)) src dst batch_timeslot);
        a ← deref (arr_read (admitted (core w)) batch_timeslot);
        a ← deref (insert_admitted_edge a src dst);
        let index := get_status_index src dst in
        tslots ← deref (arr_write (last_alloc_tslot (status w)) index (u64 (current_timeslot (status w) + batch_timeslot)));
        '(r, l) ← deref (atomic32_add_return (flows (status w)) index (-1));
        modify (λ w, set_status (set_flows l (set_last_alloc tslots (status w)))
          (set_core (set_admitted (arr_set (admitted (core w)) batch_timeslot a) (set_bstate bs (core w))) w));;
        if negb (r =? 0) then try_allocation_loop fuel' src dst else mret 0
  end.

(** Every round takes one of the 64 timeslots. *)
Definition try_allocation (src dst : Z) : W Z := try_allocation_loop (S (Z.to_nat BATCH_SIZE)) src dst.

Definition enqueue_outgoing (bin_index src dst : Z) : W unit :=
  w ← get;
  o ← deref (arr_read (outgoing_bins (core w)) bin_index);
  b ← deref o;
  b ← deref (enqueue_bin b src dst);
  modify (λ w, set_core (set_outgoing_bins (arr_set (outgoing_bins (core w)) bin_index (Some b)) (core w)) w).

(** [k] bounds the number of rounds; the bin after it. *)
Fixpoint try_allocation_bin (k : nat) (in_bin : bin) : W bin :=
  if is_empty_bin in_bin then mret in_bin
  else match k with
  | O => ub
  | S k' =>
      '(src, dst) ← deref (peek_head_bin in_bin);
      rc ← try_allocation src dst;
      when (rc =? 1)
        (w ← get;
         bin_index ← deref (bin_index_from_src_dst (status w) src dst);
         enqueue_outgoing bin_index src dst);;
      b ← deref (dequeue_bin in_bin);
      try_allocation_bin k' b
  end.

(** The indices have 16 bits. *)
Definition bin_rounds : nat := Z.to_nat (2 ^ 16).

(** ** New requests *)
Definition enqueue_new_request (bin_index src dst : Z) : W unit :=
  w ← get;
  b ← deref (arr_read (new_request_bins (core w)) bin_index);
  b ← deref (enqueue_bin b src dst);
  modify (λ w, set_core (set_new_request_bins (arr_set (new_request_bins (core w)) bin_index b) (core w)) w).

Definition process_one_new_request (src dst bin_index current_bin : Z) : W unit :=
  if bin_index <? current_bin then
    rc ← try_allocation src dst;
    when (rc =? 1)
      (w ← get;
       bin_index ← deref (bin_index_from_src_dst (status w) src dst);
       enqueue_urgent_out (MAKE_EDGE bin_index src dst))
  else enqueue_new_request bin_index src dst.

(** Edges of a burst; true if the token was found, after which the rest of the
    burst is not looked at. *)
Fixpoint process_urgent_edges (es : list Z) (current_bin : Z) : W bool :=
  match es with
  | [] => mret false
  | edge :: es' =>
      if edge =? URGENT_Q_HEAD_TOKEN then
        modify (λ w, set_core (set_is_head true (core w)) w);; mret true
      else
        process_one_new_request (EDGE_SRC edge) (EDGE_DST edge) (EDGE_BIN edge) current_bin;;
        process_urgent_edges es' current_bin
  end.

(** The loop at [process_q_urgent]; true if it is left for [process_head]. *)
Fixpoint process_q_urgent (fuel : nat) (current_bin : Z) : W bool :=
  match fuel with
  | O => ub
  | S fuel' =>
      es ← dequeue_urgent_in;
      token ← process_urgent_edges es current_bin;
      if (token : bool) then mret true
      else if bool_decide (es = []) then mret false
      else process_q_urgent fuel' current_bin
  end.

Fixpoint process_head_edges (es : list Z) (current_bin : Z) : W unit :=
  match es with
  | [] => mret tt
  | edge :: es' =>
      w ← get;
      bin_index ← deref (bin_index_from_src_dst (status w) (EDGE_SRC edge) (EDGE_DST edge));
      process_one_new_request (EDGE_SRC edge) (EDGE_DST edge) bin_index current_bin;;
      process_head_edges es' current_bin
  end.

(** The loop at [process_head]. *)
Fixpoint process_head (fuel : nat) (current_bin : Z) : W unit :=
  match fuel with
  | O => ub
  | S fuel' =>
      es ← dequeue_head;
      process_head_edges es current_bin;;
      if bool_decide (es = []) then mret tt else process_head fuel' current_bin
  end.

(** A ring for flows is emptied in fewer bursts. *)
Definition ring_bursts : nat := Z.to_nat (2 ^ 17).

(** Preceded by what happens until the call; the clock after it. *)
Definition process_new_requests (current_bin : Z) : W Z :=
  now ← observe;
  w ← get;
  go_head ← (if is_head (core w) then mret true else process_q_urgent ring_bursts current_bin);
  (if (go_head : bool) then process_head ring_bursts current_bin else mret tt);;
  mret now.

(** ** A batch *)

(** New requests are processed until the next bin arrives. *)
Fixpoint wait_for_bin (fuel : nat) (bin_num : Z) : W bin :=
  o ← dequeue_bin_in;
  match o with
  | Some b => mret b
  | None => match fuel with O => ub | S fuel' => process_new_requests bin_num;; wait_for_bin fuel' bin_num end
  end.

Definition pass_on_bin (bin_num : Z) : W unit :=
  w ← get;
  o ← deref (arr_read (outgoing_bins (core w)) bin_num);
  b ← deref o;
  enqueue_bin_out b;;
  modify (λ w, set_core (set_outgoing_bins (arr_set (outgoing_bins (core w)) bin_num None) (core w)) w).

Definition process_bin (bin_num : Z) : W unit :=
  w ← get;
  bin_in ← wait_for_bin (length (script w)) bin_num;
  bin_in ← try_allocation_bin bin_rounds bin_in;
  w ← get;
  new ← deref (arr_read (new_request_bins (core w)) bin_num);
  new ← try_allocation_bin bin_rounds new;
  modify (λ w, set_core (set_new_request_bins (arr_set (new_request_bins (core w)) bin_num new) (core w)) w);;
  when (bin_num >=? BATCH_SIZE) (pass_on_bin (bin_num - BATCH_SIZE));;
  modify (λ w, set_core (set_temporary_bins (arr_set (temporary_bins (core w)) bin_num (Some bin_in)) (core w)) w).

(** The [do]-loop that waits for the start of a timeslot. *)
Fixpoint pace (fuel : nat) (tslot_mul tslot_shift bin_num start_timeslot : Z) : W unit :=
  match fuel with
  | O => ub
  | S fuel' =>
      now ← process_new_requests bin_num;
      let now_timeslot := Z.shiftr (u64 (now * tslot_mul)) tslot_shift in
      w ← get;
      if negb (is_head (core w)) || (now_timeslot <? start_timeslot) then pace fuel' tslot_mul tslot_shift bin_num start_timeslot
      else mret tt
  end.

Definition output_timeslot (first_timeslot tslot_mul tslot_shift bin_num : Z) : W unit :=
  w ← get;
  when (bin_num mod 4 =? 0) (pace (length (script w)) tslot_mul tslot_shift bin_num (u64 (first_timeslot + bin_num)));;
  w ← get;
  a ← deref (arr_read (admitted (core w)) bin_num);
  q ← deref (r_enqueue a (q_admitted_out w));
  modify (set_q_admitted_out q);;
  modify (λ w, set_core (set_bstate (disallow_first (bstate (core w))) (core w)) w).

Fixpoint each_bin (f : Z → W unit) (l : list Z) : W unit :=
  match l with
  | [] => mret tt
  | i :: l' => f i;; each_bin f l'
  end.

(** Requests of the last bin that came too late. *)
Fixpoint move_last_bin (k : nat) (last_new_bin : bin) : W unit :=
  if is_empty_bin last_new_bin then
    modify (λ w, set_core (set_new_request_bins (arr_set (new_request_bins (core w)) (NUM_BINS - 1) last_new_bin) (core w)) w)
  else match k with
  | O => ub
  | S k' =>
      '(src, dst) ← deref (peek_head_bin last_new_bin);
      enqueue_outgoing (NUM_BINS - 1) src dst;;
      b ← deref (dequeue_bin last_new_bin);
      move_last_bin k' b
  end.

(** The second half of [get_admissible_traffic]: the timeslots [bins] are output, and
    what is left is passed on. *)
Definition finish_batch (first_timeslot tslot_mul tslot_shift : Z) (bins : list Z) : W unit :=
  each_bin (output_timeslot first_timeslot tslot_mul tslot_shift) bins;;
  enqueue_urgent_out URGENT_Q_HEAD_TOKEN;;
  w ← get;
  last ← deref (arr_read (new_request_bins (core w)) (NUM_BINS - 1));
  move_last_bin bin_rounds last;;
  each_bin pass_on_bin (seqZ (NUM_BINS - BATCH_SIZE) BATCH_SIZE);;
  modify (λ w, set_core (set_temporary_bins (replicate (Z.to_nat NUM_BINS) None) (set_outgoing_bins (temporary_bins (core w)) (core w))) w);;
  modify (λ w, set_status (advance_timeslot (status w)) w).

Definition get_admissible_traffic (first_timeslot tslot_mul tslot_shift : Z) : W unit :=
  w ← get;
  c ← deref (alloc_core_reset (core w) (status w));
  modify (set_core c);;
  deref (if bins_reset c then Some tt else None);;
  process_new_requests 0;;
  each_bin process_bin (seqZ 0 NUM_BINS);;
  finish_batch first_timeslot tslot_mul tslot_shift (seqZ 0 BATCH_SIZE).
End algo.
Arguments world : clear implicits.
End Sjf.
