(* ===== verification/SjfFacts.v ===== *)
(** * Shortest job first: bins, edges and where flows wait

    Bins as lists of flows, the edges in the rings, and the invariant [placed]: a flow
    waits in exactly one place when it has a backlog, in a bin that does not exceed it. *)

From S2P Require Import Prelude Platform Lists Pacer Ring Sjf.
Import Sjf.

Abbreviation flow := (Z * Z)%type.

(** Sources are nodes, destinations nodes or the one that stands for the outside. *)
Definition flow_ok (nn : Z) (f : flow) : Prop := 0 ≤ f.1 < nn ∧ (0 ≤ f.2 < nn ∨ f.2 = OUT_OF_BOUNDARY_NODE_ID).

Definition idx (f : flow) : Z := get_status_index f.1 f.2.

Lemma sjf_idx_eq f : idx f = f.1 * 256 + f.2.
Proof. unfold idx, get_status_index. rewrite Z.shiftl_mul_pow2 by done. done. Qed.

Section nodes.
Context (nn : Z) (Hnn : 0 ≤ nn ≤ 255).

Lemma flow_small f : flow_ok nn f → 0 ≤ f.1 < 255 ∧ 0 ≤ f.2 < 256.
Proof using Hnn. unfold flow_ok, OUT_OF_BOUNDARY_NODE_ID, MAX_NODES. lia. Qed.

Lemma sjf_idx_range f : flow_ok nn f → 0 ≤ idx f < 255 * 256.
Proof using Hnn. intros Hf%flow_small. rewrite sjf_idx_eq. lia. Qed.

Lemma sjf_idx_inj f g : flow_ok nn f → flow_ok nn g → idx f = idx g → f = g.
Proof using Hnn. intros Hf%flow_small Hg%flow_small. rewrite !sjf_idx_eq. destruct f, g. simpl in *. intros E. f_equal; lia. Qed.

(** There are less than 2^16 flows. *)
Lemma flows_bounded (l : list flow) : NoDup l → (∀ f, f ∈ l → flow_ok nn f) → Z.of_nat (length l) ≤ 255 * 256.
Proof using Hnn.
  intros Hnd Hl. rewrite <- (length_fmap idx). etrans; [apply (NoDup_bounded _ (255 * 256))|lia].
  - apply NoDup_fmap_2_strong; [|done]. intros f g Hf Hg. by apply sjf_idx_inj; apply Hl.
  - intros x (f & -> & Hf)%list_elem_of_fmap. by apply sjf_idx_range, Hl.
Qed.
End nodes.

(** ** Bins *)
Definition bin_wf (b : bin) : Prop := 0 ≤ head b ≤ tail b ∧ tail b < 2 ^ 16 ∧ Z.of_nat (length (edges b)) = 2 ^ 16.

(** All flows since the bin was emptied, and those that are still in it. *)
Definition history (b : bin) : list flow := take (Z.to_nat (tail b)) (edges b).
Definition bin_flows (b : bin) : list flow := drop (Z.to_nat (head b)) (history b).

Lemma length_history b : bin_wf b → Z.of_nat (length (history b)) = tail b.
Proof. intros (? & ? & ?). unfold history. rewrite length_take. lia. Qed.

Lemma history_flows b : head b = 0 → history b = bin_flows b.
Proof. intros E. unfold bin_flows. by rewrite E. Qed.

Lemma init_bin_wf b : bin_wf b → bin_wf (init_bin b) ∧ history (init_bin b) = [] ∧ bin_flows (init_bin b) = [].
Proof. intros (? & ? & ?). split_and!; [|done..]. by unfold bin_wf. Qed.

Lemma is_empty_bin_spec b : bin_wf b → is_empty_bin b = bool_decide (bin_flows b = []).
Proof.
  intros Hb. pose proof (length_history b Hb) as Hl. destruct Hb as (? & ? & ?). unfold is_empty_bin.
  assert (Z.of_nat (length (bin_flows b)) = tail b - head b) as E by (unfold bin_flows; rewrite length_drop; lia).
  case_bool_decide as Hn.
  - rewrite Hn in E. apply Z.eqb_eq. simpl in E. lia.
  - apply Z.eqb_neq. intros Eh. apply Hn, nil_length_inv. lia.
Qed.

Lemma enqueue_bin_spec b f : bin_wf b → tail b < 2 ^ 16 - 1 →
  ∃ b', enqueue_bin b f.1 f.2 = Some b' ∧ bin_wf b' ∧ head b' = head b ∧ history b' = history b ++ [f] ∧
    bin_flows b' = bin_flows b ++ [f].
Proof.
  intros Hb Ht. pose proof (length_history b Hb) as Hl. destruct Hb as (Hh & Ht' & He). unfold enqueue_bin.
  rewrite arr_write_set by lia. cbn [mbind option_bind]. eexists. split; [done|].
  assert (history {| head := head b; tail := u16 (tail b + 1); edges := arr_set (edges b) (tail b) (f.1, f.2) |} = history b ++ [f]) as Eh.
  { unfold history. cbn [tail edges]. rewrite u16_small by lia. unfold arr_set. rewrite Z2Nat.inj_add, Nat.add_1_r by lia.
    rewrite (take_S_r _ _ f); [|by rewrite list_lookup_insert_eq by lia; destruct f]. by rewrite take_insert_ge by lia. }
  split_and!; [|done|done|].
  - unfold bin_wf. cbn [head tail edges]. rewrite length_arr_set, u16_small by lia. lia.
  - unfold bin_flows. rewrite Eh. cbn [head]. apply drop_app_le. lia.
Qed.

Lemma head_bin_spec b f l : bin_wf b → bin_flows b = f :: l →
  is_empty_bin b = false ∧ peek_head_bin b = Some f ∧
  ∃ b', dequeue_bin b = Some b' ∧ bin_wf b' ∧ history b' = history b ∧ bin_flows b' = l.
Proof.
  intros Hb El. assert (is_empty_bin b = false) as Ee by (by rewrite is_empty_bin_spec, El by done).
  split; [done|]. pose proof (length_history b Hb) as Hl.
  assert (history b !! Z.to_nat (head b) = Some f) as Hf by (unfold bin_flows in El; by rewrite <- (Nat.add_0_r (Z.to_nat _)), <- lookup_drop, El).
  assert (Z.to_nat (head b) < length (history b))%nat as Hlt by (by eapply lookup_lt_Some).
  unfold history in Hf. apply lookup_take_Some in Hf as [Hf _]. destruct Hb as (? & ? & ?). split.
  - unfold peek_head_bin, arr_read. by rewrite (proj2 (Z.leb_le 0 _)) by lia.
  - unfold dequeue_bin. rewrite Ee. eexists. split; [done|]. split_and!; [|done|].
    + unfold bin_wf. cbn [head tail edges]. rewrite u16_small by lia. lia.
    + unfold bin_flows. cbn [head]. change (history {| head := _; tail := _; edges := _ |}) with (history b).
      rewrite u16_small by lia. rewrite Z2Nat.inj_add by lia. unfold bin_flows in El. rewrite <- drop_drop, El. done.
Qed.

(** ** Edges *)
Definition edge_of (p : Z * flow) : Z := MAKE_EDGE p.1 p.2.1 p.2.2.

Lemma lor_shiftl_add a c n : 0 ≤ n → 0 ≤ c < 2 ^ n → Z.lor (a * 2 ^ n) c = a * 2 ^ n + c.
Proof.
  intros Hn Hc. rewrite <- Z.shiftl_mul_pow2 by done. symmetry. rewrite Z.add_nocarry_lxor, <- Z.lxor_lor; [done|..].
  all: apply Z.bits_inj'; intros i Hi; rewrite Z.land_spec, Z.shiftl_spec, Z.bits_0 by done;
    destruct (decide (i < n)); [by rewrite Z.testbit_neg_r by lia|by rewrite (testbit_high c n), andb_false_r by (done || lia)].
Qed.

Lemma edge_of_eq l s d : 0 ≤ l < 256 → 0 ≤ s < 256 → 0 ≤ d < 256 → edge_of (l, (s, d)) = l * 2 ^ 32 + s * 2 ^ 16 + d.
Proof.
  intros Hl Hs Hd. unfold edge_of, MAKE_EDGE, shl64. cbn [fst snd]. rewrite !Z.shiftl_mul_pow2, u64_small, u32_small by lia.
  rewrite lor_shiftl_add by lia. replace (l * 2 ^ 32 + s * 2 ^ 16) with ((l * 2 ^ 16 + s) * 2 ^ 16) by lia.
  rewrite lor_shiftl_add; lia.
Qed.

Lemma edge_fields l f : 0 ≤ l < 256 → 0 ≤ f.1 < 256 → 0 ≤ f.2 < 256 →
  EDGE_BIN (edge_of (l, f)) = l ∧ EDGE_SRC (edge_of (l, f)) = f.1 ∧ EDGE_DST (edge_of (l, f)) = f.2 ∧
  (edge_of (l, f) =? URGENT_Q_HEAD_TOKEN) = false.
Proof.
  destruct f as [s d]. cbn [fst snd]. intros Hl Hs Hd. rewrite edge_of_eq by done. unfold EDGE_BIN, EDGE_SRC, EDGE_DST.
  rewrite !Z.shiftr_div_pow2 by done. change URGENT_Q_HEAD_TOKEN with (2 ^ 64 - 1).
  split_and!; [mlia..|]. apply Z.eqb_neq. lia.
Qed.

(** ** Where flows wait

    [P] lists the flows that wait, each with the bin that it waits in; [B] are the
    backlogs. *)
Section placed.
Context (nn : Z).
Implicit Types (B : flow → Z) (P : list (Z * flow)).

Record placed B P : Prop := {
  pl_once : NoDup P.*2;
  pl_bin : ∀ l f, (l, f) ∈ P → flow_ok nn f ∧ 0 ≤ l < 256 ∧ l < B f;
  pl_all : ∀ f, flow_ok nn f → 0 ≤ B f ∧ (B f ≠ 0 → f ∈ P.*2);
}.

#[export] Instance placed_perm B : Proper ((≡ₚ) ==> iff) (placed B).
Proof.
  assert (∀ P P', P ≡ₚ P' → placed B P → placed B P') as Hi; [|by intros P P' E; split; apply Hi].
  intros P P' E [H1 H2 H3]. split; [by rewrite <- E|intros l f; rewrite <- E; apply H2|].
  intros f Hf. rewrite <- E. by apply H3.
Qed.

Lemma placed_flow B P f : placed B P → f ∈ P.*2 → flow_ok nn f ∧ 0 < B f.
Proof. intros [_ Hb _] ([l f'] & -> & Hin)%list_elem_of_fmap. specialize (Hb _ _ Hin). naive_solver lia. Qed.

(** A flow is served [k] times; what is left waits elsewhere. *)
Lemma placed_serve B B' P l f k : placed B ((l, f) :: P) → 0 ≤ k ≤ B f →
  (∀ g, flow_ok nn g → B' g = if decide (g = f) then B f - k else B g) →
  (B' f = 0 → placed B' P) ∧ (∀ l', 0 ≤ l' < 256 → l' < B' f → placed B' ((l', f) :: P)).
Proof.
  intros [Hnd Hbin Hall] Hk HB. rewrite fmap_cons in Hnd. apply NoDup_cons in Hnd as [Hf Hnd]. cbn [snd] in Hf.
  destruct (Hbin l f ltac:(by left)) as (Hok & _).
  assert (∀ l' g, (l', g) ∈ P → flow_ok nn g ∧ 0 ≤ l' < 256 ∧ l' < B' g) as Hbin'.
  { intros l' g Hin. destruct (Hbin l' g ltac:(by right)) as (Hg & ? & ?). split_and!; try done; try lia.
    rewrite HB, decide_False; [done| |done]. intros ->. apply Hf. apply list_elem_of_fmap. by exists (l', f). }
  assert (∀ g, flow_ok nn g → 0 ≤ B' g ∧ (B' g ≠ 0 → g = f ∨ g ∈ P.*2)) as Hall'.
  { intros g Hg. rewrite HB by done. destruct (Hall g Hg) as [? Hin]. case_decide; [by split; [lia|left]|]. split; [done|].
    intros Hn. apply Hin, elem_of_cons in Hn as [->|Hn]; [done|by right]. }
  split.
  - intros E0. split; [done|done|]. intros g Hg. destruct (Hall' g Hg) as [? Hin]. split; [done|]. intros Hn.
    destruct (Hin Hn) as [->|]; [lia|done].
  - intros l' Hl' Hlt. split.
    + rewrite fmap_cons. by apply NoDup_cons.
    + intros l1 g [[= -> ->]|Hin]%elem_of_cons; [|by apply Hbin']. by split_and!; try lia.
    + intros g Hg. destruct (Hall' g Hg) as [? Hin]. split; [done|]. intros Hn. rewrite fmap_cons. apply elem_of_cons.
      by destruct (Hin Hn) as [->|]; [left|right].
Qed.

(** A flow moves to another bin. *)
Lemma placed_move B P l l' f : placed B ((l, f) :: P) → 0 ≤ l' < 256 → l' < B f → placed B ((l', f) :: P).
Proof.
  intros Hp Hl' Hlt. destruct (pl_bin _ _ Hp l f ltac:(by left)) as (Hf & ? & ?).
  apply (placed_serve B B P l f 0 Hp); [lia| |done..]. intros g Hg. case_decide; [subst; lia|done].
Qed.

(** Demand for a flow; it starts to wait if it had no backlog. *)
Lemma placed_demand B B' P f n : placed B P → flow_ok nn f → 0 < n →
  (∀ g, flow_ok nn g → B' g = if decide (g = f) then B f + n else B g) →
  placed B' (if decide (B f = 0) then (0, f) :: P else P).
Proof.
  intros [Hnd Hbin Hall] Hok Hn HB.
  assert (∀ g, flow_ok nn g → B g ≤ B' g) as Hle by (intros g Hg; rewrite HB by done; case_decide; [subst; lia|done]).
  assert (∀ l' g, (l', g) ∈ P → flow_ok nn g ∧ 0 ≤ l' < 256 ∧ l' < B' g) as Hbin'.
  { intros l g Hin. destruct (Hbin l g Hin) as (Hg & ? & ?). specialize (Hle g Hg). split_and!; try done; lia. }
  assert (∀ g, flow_ok nn g → 0 ≤ B' g) as Hpos by (intros g Hg; specialize (Hle g Hg); destruct (Hall g Hg); lia).
  assert (B' f = B f + n) as Ef by (by rewrite HB, decide_True). destruct (Hall f Hok) as [Hf0 Hf].
  case_decide as E.
  - split.
    + rewrite fmap_cons. apply NoDup_cons. split; [|done]. intros ([l g] & Eg & Hin)%list_elem_of_fmap. cbn [snd] in Eg. subst g.
      destruct (Hbin l f Hin). lia.
    + intros l g [[= -> ->]|Hin]%elem_of_cons; [|by apply Hbin']. split_and!; try done; lia.
    + intros g Hg. split; [by apply Hpos|]. rewrite HB by done. intros Hng. rewrite fmap_cons. apply elem_of_cons.
      case_decide; [by left|]. right. by apply Hall.
  - split; [done|done|]. intros g Hg. split; [by apply Hpos|]. rewrite HB by done. intros Hng.
    case_decide; [subst; by apply Hf|]. by apply Hall.
Qed.
End placed.

(** ** Rows of bins, each with its number *)
Definition lev (l : Z) (fs : list flow) : list (Z * flow) := (l,.) <$> fs.
Definition spread {X} (fl : X → list flow) (levels : list Z) (xs : list X) : list (Z * flow) :=
  concat (zip_with (λ l x, lev l (fl x)) levels xs).

Lemma lev_flows l fs : (lev l fs).*2 = fs.
Proof. unfold lev. rewrite <- list_fmap_compose. by apply list_fmap_id. Qed.

Lemma elem_of_lev l fs l' f : (l', f) ∈ lev l fs ↔ l' = l ∧ f ∈ fs.
Proof. unfold lev. rewrite list_elem_of_fmap. naive_solver. Qed.

(** One bin of the row and the others. *)
Lemma spread_split {X} (fl : X → list flow) : ∀ (i : nat) levels (xs : list X) l x, levels !! i = Some l → xs !! i = Some x →
  ∃ rest, spread fl levels xs ≡ₚ lev l (fl x) ++ rest ∧ ∀ x', spread fl levels (<[i:=x']> xs) ≡ₚ lev l (fl x') ++ rest.
Proof.
  induction i as [|i IH]; intros [|l0 levels] [|x0 xs] l x El Ex; simplify_eq/=; [by exists (spread fl levels xs)|].
  destruct (IH levels xs l x El Ex) as (rest & E & E'). exists (lev l0 (fl x0) ++ rest). unfold spread in *. cbn [zip_with concat].
  split; [rewrite E|intros x'; rewrite E']; by rewrite !(Permutation_app_comm (lev l0 _)), <- app_assoc, (Permutation_app_comm rest).
Qed.

(** A row of 256 bins. *)
Lemma row_split {X} `{!Inhabited X} (fl : X → list flow) (xs : list X) i : 0 ≤ i < 256 → Z.of_nat (length xs) = 256 →
  ∃ rest, spread fl (seqZ 0 256) xs ≡ₚ lev i (fl (arr_get xs i)) ++ rest ∧
    ∀ x', spread fl (seqZ 0 256) (arr_set xs i x') ≡ₚ lev i (fl x') ++ rest.
Proof.
  intros Hi Hl. apply spread_split.
  - apply lookup_seqZ. lia.
  - unfold arr_get. apply list_lookup_lookup_total_lt. lia.
Qed.

Lemma elem_of_row {X} `{!Inhabited X} (fl : X → list flow) (xs : list X) i f : 0 ≤ i < 256 → Z.of_nat (length xs) = 256 →
  f ∈ fl (arr_get xs i) → f ∈ (spread fl (seqZ 0 256) xs).*2.
Proof.
  intros Hi Hl Hf. destruct (row_split fl xs i Hi Hl) as (rest & -> & _). rewrite fmap_app, lev_flows. set_solver.
Qed.

(** Lists of flows up to the order. *)
Ltac perm := apply (Permutation_count_occ (prod_eq_dec (EqDecision0 := Z.eq_dec))); intros ?; rewrite ?count_occ_app; simpl; rewrite ?count_occ_app;
  repeat (case_match; try done); lia.

(** ** The timeslots of a batch

    In each of them the sources are distinct, and so are the destinations other than the
    outside, which takes up to [cap] flows unless [cap] is 0. *)
Definition outside (a : list flow) : Z := sum_of (λ f, b2z (f.2 =? OUT_OF_BOUNDARY_NODE_ID)) a.

Record slot_ok (nn cap : Z) (a : list flow) : Prop := {
  so_flows : Forall (flow_ok nn) a;
  so_src : NoDup a.*1;
  so_dst : NoDup (filter (λ d, d ≠ OUT_OF_BOUNDARY_NODE_ID) a.*2);
  so_outside : cap ≠ 0 → outside a ≤ cap;
}.

(** How often a flow is admitted. *)
Definition times (a : list flow) (f : flow) : Z := sum_of (λ g, b2z (bool_decide (g = f))) a.
Definition served (adm : list (list flow)) (f : flow) : Z := sum_of (λ a, times a f) adm.

Lemma times_snoc a g f : times (a ++ [g]) f = times a f + if decide (f = g) then 1 else 0.
Proof. unfold times. rewrite sum_of_app. cbn [sum_of foldr]. case_decide; case_bool_decide; simplify_eq; cbn [b2z]; lia. Qed.

Lemma outside_le a : 0 ≤ outside a ≤ Z.of_nat (length a).
Proof.
  split; [apply sum_of_nonneg; intros f; by destruct (f.2 =? _)|]. etrans; [apply (sum_of_le _ 1); intros f; by destruct (f.2 =? _)|lia].
Qed.

Lemma slot_length nn cap a : 0 ≤ nn ≤ 255 → slot_ok nn cap a → Z.of_nat (length a) ≤ 255.
Proof.
  intros Hn [Hf Hs _ _]. rewrite <- (length_fmap fst). etrans; [apply (NoDup_bounded _ nn Hs)|lia].
  intros x (f & -> & Hin)%list_elem_of_fmap. by destruct (proj1 (Forall_forall _ _) Hf f Hin).
Qed.

(** The batch has output its timeslots below [t]. *)
Record batch_ok (nn cap t : Z) (bs : batch_state) (adm : list (list flow)) : Prop := {
  bo_over : oversubscribed bs = false;
  bo_cap : out_of_boundary_capacity bs = cap;
  bo_mask : allowed_mask bs = 2 ^ 64 - 2 ^ t;
  bo_len : Z.of_nat (length (src_endnodes bs)) = 256 ∧ Z.of_nat (length (dst_endnodes bs)) = 256 ∧
    Z.of_nat (length (out_of_boundary_counts bs)) = 64 ∧ Z.of_nat (length adm) = 64;
  bo_src : ∀ s, 0 ≤ s < nn → 0 ≤ arr_get (src_endnodes bs) s < 2 ^ 64 ∧
    ∀ u, 0 ≤ u < 64 → Z.testbit (arr_get (src_endnodes bs) s) u = bool_decide (s ∉ (arr_get adm u).*1);
  bo_dst : ∀ d, 0 ≤ d < nn → 0 ≤ arr_get (dst_endnodes bs) d < 2 ^ 64 ∧
    ∀ u, 0 ≤ u < 64 → Z.testbit (arr_get (dst_endnodes bs) d) u = bool_decide (d ∉ (arr_get adm u).*2);
  bo_out : 0 ≤ arr_get (dst_endnodes bs) OUT_OF_BOUNDARY_NODE_ID < 2 ^ 64 ∧
    ∀ u, 0 ≤ u < 64 → arr_get (out_of_boundary_counts bs) u = outside (arr_get adm u) ∧
      Z.testbit (arr_get (dst_endnodes bs) OUT_OF_BOUNDARY_NODE_ID) u = bool_decide (cap = 0 ∨ outside (arr_get adm u) ≠ cap);
  bo_slot : ∀ u, 0 ≤ u < 64 → slot_ok nn cap (arr_get adm u);
}.

Lemma clear_timeslot_spec l i t : 0 ≤ i < Z.of_nat (length l) → 0 ≤ t < 64 → 0 ≤ arr_get l i < 2 ^ 64 →
  ∃ v, clear_timeslot l i t = Some (arr_set l i v) ∧ 0 ≤ v < 2 ^ 64 ∧
    ∀ u, Z.testbit v u = Z.testbit (arr_get l i) u && bool_decide (u ≠ t).
Proof.
  intros Hi Ht Hl. unfold clear_timeslot. rewrite arr_read_get by done. cbn [mbind option_bind]. rewrite arr_write_set by done.
  eexists. split; [done|]. assert (0 ≤ not64 (shl64 1 t)) as Hp by apply not64_range, shl64_range.
  split; [apply land_range; lia|]. intros u. rewrite Z.land_spec, shl64_1 by done.
  destruct (decide (0 ≤ u < 64)) as [Hu|Hu].
  - by rewrite testbit_not64, testbit_pow2, bool_decide_not by lia.
  - assert (Z.testbit (arr_get l i) u = false) as ->; [|done].
    destruct (decide (u < 0)); [by apply Z.testbit_neg_r|by apply (testbit_high _ 64); lia].
Qed.

(** The word of a node after it was taken. *)
Lemma taken_bit (x : Z) (L : list Z) (u t : Z) :
  bool_decide (x ∉ L) && bool_decide (u ≠ t) = bool_decide (x ∉ (if decide (u = t) then L ++ [x] else L)).
Proof.
  case_decide as E.
  - rewrite (bool_decide_eq_false_2 (u ≠ t)) by (intros Hn; by apply Hn). rewrite andb_false_r. symmetry. apply bool_decide_eq_false_2. set_solver.
  - by rewrite (bool_decide_eq_true_2 (u ≠ t)), andb_true_r by done.
Qed.

(** A flow does not fit into a timeslot. *)
Definition busy (cap : Z) (f : flow) (a : list flow) : Prop :=
  f.1 ∈ a.*1 ∨ (if decide (f.2 = OUT_OF_BOUNDARY_NODE_ID) then cap ≠ 0 ∧ outside a = cap else f.2 ∈ a.*2).

Section batch.
Context (nn cap : Z) (Hnn : 0 ≤ nn ≤ 255).

Lemma busy_spec t bs adm f u : batch_ok nn cap t bs adm → flow_ok nn f → 0 ≤ u < 64 →
  Z.testbit (arr_get (src_endnodes bs) f.1) u = false ∨ Z.testbit (arr_get (dst_endnodes bs) f.2) u = false ↔ busy cap f (arr_get adm u).
Proof using Hnn.
  intros Hb Hf Hu. destruct (bo_src _ _ _ _ _ Hb f.1 (proj1 Hf)) as [_ ->]; [|done]. unfold busy.
  assert (Z.testbit (arr_get (dst_endnodes bs) f.2) u = false ↔
    if decide (f.2 = OUT_OF_BOUNDARY_NODE_ID) then cap ≠ 0 ∧ outside (arr_get adm u) = cap else f.2 ∈ (arr_get adm u).*2) as ->.
  - destruct (decide (f.2 = OUT_OF_BOUNDARY_NODE_ID)) as [E|E].
    + rewrite E. destruct (bo_out _ _ _ _ _ Hb) as [_ Ho]. destruct (Ho u Hu) as [_ ->]. rewrite bool_decide_eq_false. lia.
    + destruct (proj2 Hf) as [Hd|]; [|done]. destruct (bo_dst _ _ _ _ _ Hb f.2 Hd) as [_ ->]; [|done]. rewrite bool_decide_eq_false.
      split; [apply dec_stable|tauto].
  - rewrite bool_decide_eq_false. split; (intros [Hx|]; [left|by right]); [by apply dec_stable|tauto].
Qed.

Lemma get_first_timeslot_spec t bs adm f : batch_ok nn cap t bs adm → 0 ≤ t ≤ 64 → flow_ok nn f →
  ∃ u, get_first_timeslot bs f.1 f.2 = Some u ∧
    (u = NONE_AVAILABLE ∧ (∀ k, t ≤ k < 64 → busy cap f (arr_get adm k)) ∨ t ≤ u < 64 ∧
    Z.testbit (arr_get (src_endnodes bs) f.1) u = true ∧ Z.testbit (arr_get (dst_endnodes bs) f.2) u = true).
Proof using Hnn.
  intros Hb Ht Hf. pose proof (flow_small nn Hnn f Hf). destruct (bo_len _ _ _ _ _ Hb) as (? & ? & _ & _).
  unfold get_first_timeslot, available_bitmap. unfold MAX_SRCS, MAX_DSTS, MAX_NODES.
  rewrite !(proj2 (Z.ltb_lt _ _)) by lia. cbn [andb]. rewrite (bo_over _ _ _ _ _ Hb), !arr_read_get by lia. cbn [mbind option_bind].
  set (s := arr_get _ f.1). set (d := arr_get _ f.2).
  assert (0 ≤ s) as Hs by (apply (bo_src _ _ _ _ _ Hb), Hf).
  assert (0 ≤ d) as Hd by (destruct (proj2 Hf) as [Hd|Hd]; [by apply (bo_dst _ _ _ _ _ Hb)|subst d; rewrite Hd; apply (bo_out _ _ _ _ _ Hb)]).
  assert (0 < 2 ^ t) by (apply Z.pow_pos_nonneg; lia). assert (2 ^ t ≤ 2 ^ 64) by (apply Z.pow_le_mono_r; lia).
  pose proof (bo_mask _ _ _ _ _ Hb) as Em. set (x := Z.land _ d).
  assert (0 ≤ x < 2 ^ 64) as Hx by (apply land_range; [apply land_range; rewrite ?Em; lia|lia..]).
  assert (2 ^ 64 - 2 ^ t = (2 ^ (64 - t) - 1) * 2 ^ t) as Emul
    by (rewrite Z.mul_sub_distr_r, <- Z.pow_add_r by lia; f_equal; [f_equal; lia|lia]).
  eexists. split; [done|]. destruct (Z.eqb_spec x 0) as [E0|Hn].
  { left. split; [done|]. intros k Hk. apply (busy_spec t bs adm f k Hb Hf); [lia|]. apply (f_equal (λ z, Z.testbit z k)) in E0.
    unfold x in E0. rewrite !Z.land_spec, Em, Emul, Z.bits_0, <- Z.shiftl_mul_pow2, Z.shiftl_spec in E0 by lia.
    change (2 ^ (64 - t) - 1) with (Z.pred (2 ^ (64 - t))) in E0. rewrite <- Z.ones_equiv, Z.ones_spec_low in E0 by lia.
    cbn [andb] in E0. by apply andb_false_iff in E0. }
  right. destruct (ffs_spec x 64 Hx Hn) as (Hu & Hbit & _). unfold u8. rewrite Z.mod_small by lia.
  unfold x in Hbit at 1. rewrite !Z.land_spec, !andb_true_iff in Hbit. destruct Hbit as [[Hm ?] ?]. split_and!; try done; try lia.
  destruct (decide (t ≤ __ffs x)) as [|Hlt]; [done|]. exfalso. rewrite Em in Hm.
  rewrite Emul, Z.mul_pow2_bits_low in Hm by lia. done.
Qed.

(** A timeslot after a flow was admitted to it. *)
Lemma slot_snoc a f : slot_ok nn cap a → flow_ok nn f → f.1 ∉ a.*1 → (f.2 ≠ OUT_OF_BOUNDARY_NODE_ID → f.2 ∉ a.*2) →
  (f.2 = OUT_OF_BOUNDARY_NODE_ID → cap = 0 ∨ outside a ≠ cap) → slot_ok nn cap (a ++ [f]).
Proof using Hnn.
  intros [Hf Hs Hd Ho] Hok Hs' Hd' Ho'. split.
  - apply Forall_app. split; [done|by apply Forall_singleton].
  - rewrite fmap_app. apply NoDup_app. split_and!; [done| |apply NoDup_singleton]. intros x Hx ->%list_elem_of_singleton. done.
  - rewrite fmap_app, filter_app. apply NoDup_app. split_and!; [done| |apply NoDup_filter, NoDup_singleton].
    intros x [Hn Hx]%list_elem_of_filter [_ ->%list_elem_of_singleton]%list_elem_of_filter. by apply Hd'.
  - intros Hc. unfold outside. rewrite sum_of_app. fold (outside a). cbn [sum_of foldr]. specialize (Ho Hc).
    destruct (Z.eqb_spec f.2 OUT_OF_BOUNDARY_NODE_ID) as [E|]; cbn [b2z]; [|lia]. destruct (Ho' E); lia.
Qed.

Lemma fmap_slot {A} (g : flow → A) adm u v f : 0 ≤ u < Z.of_nat (length adm) → 0 ≤ v →
  g <$> arr_get (arr_set adm u (arr_get adm u ++ [f])) v = if decide (v = u) then (g <$> arr_get adm u) ++ [g f] else g <$> arr_get adm v.
Proof. intros Hu Hv. rewrite arr_get_set by done. case_decide; [subst; rewrite decide_True by done; by rewrite fmap_app|by rewrite decide_False]. Qed.

Lemma occupy_src t bs adm f u : batch_ok nn cap t bs adm → flow_ok nn f → 0 ≤ u < 64 →
  Z.testbit (arr_get (src_endnodes bs) f.1) u = true →
  ∃ v, clear_timeslot (src_endnodes bs) f.1 u = Some (arr_set (src_endnodes bs) f.1 v) ∧
    popcount 64 v = popcount 64 (arr_get (src_endnodes bs) f.1) - 1 ∧
    ∀ s, 0 ≤ s < nn → 0 ≤ arr_get (arr_set (src_endnodes bs) f.1 v) s < 2 ^ 64 ∧ ∀ k, 0 ≤ k < 64 →
      Z.testbit (arr_get (arr_set (src_endnodes bs) f.1 v) s) k = bool_decide (s ∉ (arr_get (arr_set adm u (arr_get adm u ++ [f])) k).*1).
Proof using Hnn.
  intros Hb Hf Hu Hbit. pose proof (flow_small nn Hnn f Hf). destruct (bo_len _ _ _ _ _ Hb) as (? & _ & _ & ?).
  destruct (bo_src _ _ _ _ _ Hb f.1 (proj1 Hf)) as [Hr Hbits].
  destruct (clear_timeslot_spec (src_endnodes bs) f.1 u) as (v & -> & Hv & Hvb); [lia..|]. exists v. split; [done|]. split.
  - rewrite (popcount_change 64 (arr_get (src_endnodes bs) f.1) v u); [|lia|].
    + rewrite Hvb, Hbit, bool_decide_eq_false_2 by (by intros Hn; apply Hn). cbn [andb b2z]. lia.
    + intros i Hi. by rewrite Hvb, bool_decide_eq_true_2, andb_true_r.
  - intros s Hs. destruct (bo_src _ _ _ _ _ Hb s Hs) as [Hrs Hbs]. rewrite arr_get_set by lia. destruct (decide (f.1 = s)) as [E|E]; (split; [done|]); intros k Hk; rewrite fmap_slot by lia.
    + subst s. rewrite Hvb, Hbits, taken_bit by done. by destruct (decide (k = u)) as [->|].
    + rewrite Hbs by done. apply bool_decide_ext. destruct (decide (k = u)) as [->|]; [set_solver|done].
Qed.

Lemma outside_snoc a f : outside (a ++ [f]) = outside a + b2z (f.2 =? OUT_OF_BOUNDARY_NODE_ID).
Proof. unfold outside. rewrite sum_of_app. cbn [sum_of foldr]. lia. Qed.

Lemma occupy_dst t bs adm f u : batch_ok nn cap t bs adm → flow_ok nn f → 0 ≤ u < 64 →
  Z.testbit (arr_get (dst_endnodes bs) f.2) u = true →
  ∃ counts dsts, (if f.2 =? OUT_OF_BOUNDARY_NODE_ID then
      count_timeslot (out_of_boundary_counts bs) (dst_endnodes bs) u f.2 u (out_of_boundary_capacity bs)
    else dsts ← clear_timeslot (dst_endnodes bs) f.2 u; Some (out_of_boundary_counts bs, dsts)) = Some (counts, dsts) ∧
    length counts = length (out_of_boundary_counts bs) ∧ length dsts = length (dst_endnodes bs) ∧
    (∀ d, 0 ≤ d < nn → 0 ≤ arr_get dsts d < 2 ^ 64 ∧
      ∀ k, 0 ≤ k < 64 → Z.testbit (arr_get dsts d) k = bool_decide (d ∉ (arr_get (arr_set adm u (arr_get adm u ++ [f])) k).*2)) ∧
    0 ≤ arr_get dsts OUT_OF_BOUNDARY_NODE_ID < 2 ^ 64 ∧ ∀ k, 0 ≤ k < 64 →
      arr_get counts k = outside (arr_get (arr_set adm u (arr_get adm u ++ [f])) k) ∧
      Z.testbit (arr_get dsts OUT_OF_BOUNDARY_NODE_ID) k =
        bool_decide (cap = 0 ∨ outside (arr_get (arr_set adm u (arr_get adm u ++ [f])) k) ≠ cap).
Proof using Hnn.
  intros Hb Hf Hu Hbit. pose proof (flow_small nn Hnn f Hf). destruct (bo_len _ _ _ _ _ Hb) as (_ & ? & ? & ?).
  destruct (bo_out _ _ _ _ _ Hb) as [Hro Ho]. rewrite (bo_cap _ _ _ _ _ Hb).
  assert (∀ k, 0 ≤ k < 64 → outside (arr_get (arr_set adm u (arr_get adm u ++ [f])) k) =
    outside (arr_get adm k) + if decide (k = u) then b2z (f.2 =? OUT_OF_BOUNDARY_NODE_ID) else 0) as Eo.
  { intros k Hk. rewrite arr_get_set by lia. destruct (decide (u = k)) as [->|]; [by rewrite decide_True, outside_snoc by done|rewrite decide_False by congruence; lia]. }
  assert (∀ d k, 0 ≤ d < nn → 0 ≤ k < 64 → (k = u → d ≠ f.2) → Z.testbit (arr_get (dst_endnodes bs) d) k =
    bool_decide (d ∉ (arr_get (arr_set adm u (arr_get adm u ++ [f])) k).*2)) as Eother.
  { intros d k Hd Hk Hn. destruct (bo_dst _ _ _ _ _ Hb d Hd) as [_ ->]; [|done]. rewrite fmap_slot by lia. apply bool_decide_ext.
    destruct (decide (k = u)) as [->|]; [specialize (Hn eq_refl); set_solver|done]. }
  destruct (Z.eqb_spec f.2 OUT_OF_BOUNDARY_NODE_ID) as [E|E].
  - destruct (Ho u Hu) as [Ec Eb]. pose proof (slot_length nn cap _ Hnn (bo_slot _ _ _ _ _ Hb u Hu)). pose proof (outside_le (arr_get adm u)).
    unfold count_timeslot. rewrite arr_read_get, Ec by lia. cbn [mbind option_bind]. rewrite arr_write_set by lia. cbn [mbind option_bind].
    rewrite u16_small by lia. rewrite E in Hbit. rewrite Hbit in Eb. symmetry in Eb. apply bool_decide_eq_true_1 in Eb.
    assert (∀ k, 0 ≤ k < 64 → arr_get (arr_set (out_of_boundary_counts bs) u (outside (arr_get adm u) + 1)) k =
      outside (arr_get (arr_set adm u (arr_get adm u ++ [f])) k)) as Ecs.
    { intros k Hk. rewrite Eo, arr_get_set by lia. destruct (Ho k Hk) as [Eck _]. destruct (decide (u = k)) as [->|].
      - rewrite decide_True by done. by cbn [b2z].
      - rewrite decide_False by done. lia. }
    assert (∀ d, 0 ≤ d < nn → d ≠ f.2) as Hne by (intros d Hd; rewrite E; unfold OUT_OF_BOUNDARY_NODE_ID, MAX_NODES; lia).
    destruct (Z.eqb_spec (outside (arr_get adm u) + 1) cap) as [Ecap|Ecap].
    + rewrite <- E in Hro. destruct (clear_timeslot_spec (dst_endnodes bs) f.2 u) as (v & -> & Hv & Hvb); [lia..|]. cbn [mbind option_bind].
      eexists _, _. split; [done|]. rewrite !length_arr_set. split_and!; [done..| | | |].
      * intros d Hd. rewrite arr_get_set, decide_False by (by (lia || apply not_eq_sym, Hne)). split; [by apply (bo_dst _ _ _ _ _ Hb)|].
        intros k Hk. apply Eother; try done. intros _. by apply Hne.
      * rewrite <- E, arr_get_set, decide_True by (done || lia). apply Hv.
      * rewrite <- E, arr_get_set, decide_True by (done || lia). apply Hv.
      * intros k Hk. split; [by apply Ecs|]. rewrite <- E, arr_get_set, decide_True by (done || lia). rewrite Hvb, Eo by done.
        rewrite E. destruct (Ho k Hk) as [_ ->]. rewrite <- bool_decide_and. apply bool_decide_ext. destruct (decide (k = u)) as [->|]; cbn [b2z]; lia.
    + eexists _, _. split; [done|]. rewrite !length_arr_set. split_and!; [done..| |apply Hro|apply Hro|].
      * intros d Hd. split; [by apply (bo_dst _ _ _ _ _ Hb)|]. intros k Hk. apply Eother; try done. intros _. by apply Hne.
      * intros k Hk. split; [by apply Ecs|]. rewrite Eo by done. destruct (Ho k Hk) as [_ ->]. apply bool_decide_ext. destruct (decide (k = u)) as [->|]; cbn [b2z]; lia.
  - destruct (proj2 Hf) as [Hd|]; [|done]. destruct (bo_dst _ _ _ _ _ Hb f.2 Hd) as [Hr Hbits].
    destruct (clear_timeslot_spec (dst_endnodes bs) f.2 u) as (v & -> & Hv & Hvb); [lia..|]. cbn [mbind option_bind].
    eexists _, _. split; [done|]. rewrite !length_arr_set. split_and!; [done..| | | |].
    + intros d Hd'. rewrite arr_get_set by lia. destruct (decide (f.2 = d)) as [Ed|Ed].
      * split; [done|]. intros k Hk. subst d. rewrite Hvb, Hbits, fmap_slot, taken_bit by lia. by destruct (decide (k = u)) as [->|].
      * split; [by apply (bo_dst _ _ _ _ _ Hb)|]. intros k Hk. apply Eother; try done.
    + rewrite arr_get_set, decide_False by (done || lia). apply Hro.
    + rewrite arr_get_set, decide_False by (done || lia). apply Hro.
    + intros k Hk. rewrite (arr_get_set (dst_endnodes bs)), decide_False by (done || unfold OUT_OF_BOUNDARY_NODE_ID, MAX_NODES; lia).
      rewrite Eo by done. destruct (Ho k Hk) as [-> ->]. cbn [b2z]. by destruct (decide (k = u)); rewrite Z.add_0_r.
Qed.

Lemma occupy_spec t bs adm f u : batch_ok nn cap t bs adm → flow_ok nn f → 0 ≤ u < 64 →
  Z.testbit (arr_get (src_endnodes bs) f.1) u = true → Z.testbit (arr_get (dst_endnodes bs) f.2) u = true →
  ∃ bs', set_timeslot_occupied bs f.1 f.2 u = Some bs' ∧
    insert_admitted_edge (arr_get adm u) f.1 f.2 = Some (arr_get adm u ++ [f]) ∧
    batch_ok nn cap t bs' (arr_set adm u (arr_get adm u ++ [f])) ∧
    popcount 64 (arr_get (src_endnodes bs') f.1) = popcount 64 (arr_get (src_endnodes bs) f.1) - 1.
Proof using Hnn.
  intros Hb Hf Hu Hs Hd. pose proof (flow_small nn Hnn f Hf). destruct (bo_len _ _ _ _ _ Hb) as (Hl1 & Hl2 & Hl3 & Hl4).
  pose proof (slot_length nn cap _ Hnn (bo_slot _ _ _ _ _ Hb u Hu)).
  destruct (occupy_src t bs adm f u Hb Hf Hu Hs) as (v & Ev & Hpop & Hsrc).
  destruct (occupy_dst t bs adm f u Hb Hf Hu Hd) as (counts & dsts & Ed & Lc & Ld & Hdst & Hout).
  unfold set_timeslot_occupied, insert_admitted_edge. unfold MAX_SRCS, MAX_DSTS, MAX_NODES, BATCH_SIZE.
  rewrite !(proj2 (Z.ltb_lt _ _)), (proj2 (Z.leb_le _ _)) by lia. cbn [andb]. rewrite Ev. cbn [mbind option_bind]. rewrite Ed.
  cbn [mbind option_bind]. rewrite (bo_over _ _ _ _ _ Hb). cbn [andb mbind option_bind].
  eexists. split; [done|]. split; [by destruct f|]. split; [|cbn [src_endnodes]; by rewrite arr_get_set, decide_True by (done || lia)].
  split; cbn [oversubscribed out_of_boundary_capacity allowed_mask src_endnodes dst_endnodes out_of_boundary_counts]; try done.
  - by apply (bo_cap _ _ _ _ _ Hb).
  - by apply (bo_mask _ _ _ _ _ Hb).
  - rewrite !length_arr_set, Lc, Ld. done.
  - intros k Hk. rewrite arr_get_set by lia. destruct (decide (u = k)) as [<-|]; [|by apply (bo_slot _ _ _ _ _ Hb)].
    apply slot_snoc; [by apply (bo_slot _ _ _ _ _ Hb)|done|..].
    + destruct (bo_src _ _ _ _ _ Hb f.1 (proj1 Hf)) as [_ E]. rewrite E in Hs by done. by apply bool_decide_eq_true_1 in Hs.
    + intros Hn. destruct (proj2 Hf) as [Hd'|]; [|done]. destruct (bo_dst _ _ _ _ _ Hb f.2 Hd') as [_ E]. rewrite E in Hd by done.
      by apply bool_decide_eq_true_1 in Hd.
    + intros En. rewrite En in Hd. destruct (bo_out _ _ _ _ _ Hb) as [_ E]. destruct (E u Hu) as [_ E2]. rewrite E2 in Hd.
      by apply bool_decide_eq_true_1 in Hd.
Qed.

Lemma served_insert adm u f g : 0 ≤ u < Z.of_nat (length adm) →
  served (arr_set adm u (arr_get adm u ++ [f])) g = served adm g + if decide (g = f) then 1 else 0.
Proof using. intros Hu. unfold served. rewrite (sum_of_set _ adm) by done. rewrite times_snoc. lia. Qed.
End batch.

(** ** Total correctness, without the log *)
Definition wpe {S A} (m : M False S A) (Q : A → S → Prop) (s : S) : Prop := wp m (λ a s' _, Q a s') s.

Section wpe.
Context {S : Type}.
Implicit Types (s : S).

Lemma wpe_bind {A B} (m : M False S A) (k : A → M False S B) Q s : wpe m (λ a, wpe (k a) Q) s → wpe (m ≫= k) Q s.
Proof. exact (wp_bind m k (λ b s' _, Q b s') s). Qed.

(** The first two of three commands. *)
Lemma wpe_bind2 {A B C} (m : M False S A) (k : A → M False S B) (r : B → M False S C) Q s :
  wpe (m ≫= k) (λ b, wpe (r b) Q) s → wpe (m ≫= λ a, k a ≫= r) Q s.
Proof.
  unfold wpe, wp, mbind, M_bind. destruct (m s) as [[[a s1] l1]|]; [|done]. destruct (k a s1) as [[[b s2] l2]|]; [|done].
  by destruct (r b s2) as [[[c s3] l3]|].
Qed.

Lemma wpe_mono {A} (m : M False S A) (Q R : A → S → Prop) s : wpe m Q s → (∀ a s', Q a s' → R a s') → wpe m R s.
Proof. intros Hm Hi. eapply wp_mono; [exact Hm|]. eauto. Qed.

Lemma wpe_ret {A} (a : A) (Q : A → S → Prop) s : Q a s → wpe (mret a) Q s.
Proof. done. Qed.

Lemma wpe_get (Q : S → S → Prop) s : Q s s → wpe get Q s.
Proof. done. Qed.

Lemma wpe_modify f (Q : unit → S → Prop) s : Q tt (f s) → wpe (modify f) Q s.
Proof. done. Qed.

Lemma wpe_deref {A} (o : option A) a (Q : A → S → Prop) s : o = Some a → Q a s → wpe (deref o) Q s.
Proof. by intros ->. Qed.

Lemma wpe_when b (m : M False S unit) Q s : (b = true → wpe m Q s) → (b = false → Q tt s) → wpe (when b m) Q s.
Proof. destruct b; intros H1 H2; [by apply H1|by apply H2]. Qed.

Lemma wpe_inv {A} (m : M False S A) (Q : A → S → Prop) s : wpe m Q s → ∃ a s' l, m s = Some (a, s', l) ∧ Q a s'.
Proof. exact (wp_inv m (λ b s' _, Q b s') s). Qed.
End wpe.

(** The next command, if it is simple. *)
Ltac wgo := repeat lazymatch goal with
  | |- wpe (_ ≫= _) _ _ => apply wpe_bind
  | |- wpe get _ _ => apply wpe_get
  | |- wpe (modify _) _ _ => apply wpe_modify
  | |- wpe (mret _) _ _ => apply wpe_ret
  end.
Tactic Notation "wread" "by" tactic3(t) := eapply wpe_deref; [t|].

Ltac wsimpl := cbn [status core q_head q_admitted_out bin_rings urgent_rings script set_status set_core set_q_head set_q_admitted_out
  set_bin_rings set_urgent_rings set_script new_request_bins outgoing_bins temporary_bins bstate admitted is_head q_bin_in q_bin_out
  q_urgent_in q_urgent_out set_new_request_bins set_outgoing_bins set_temporary_bins set_bstate set_admitted set_is_head
  current_timeslot st_oversubscribed st_out_of_boundary_capacity st_inter_rack_capacity num_nodes last_alloc_tslot flows
  set_flows set_last_alloc advance_timeslot fst snd] in *.
