(* ===== verification/SjfBatch.v ===== *)
(** * Shortest job first: a batch

    Total correctness of the parts of [get_admissible_traffic]: the allocation of a flow
    and of a bin, new requests, and the loops over bins and timeslots. *)

From S2P Require Import Prelude Platform Lists Pacer Ring Sjf SjfFacts.
Import Sjf.

Section batch.
Context (nn cap : Z) (Hnn : 0 ≤ nn ≤ 255).
Context {Rb Re Ra : Type} `{Ring Rb bin} `{Ring Re Z} `{Ring Ra admitted_traffic} `{!Inhabited Rb} `{!Inhabited Re}.
Abbreviation world := (world Rb Re Ra).
Implicit Types (w : world) (f g : flow).

Definition backlog w f : Z := arr_get (flows (status w)) (idx f).

(** What an allocation changes. *)
Definition served_world w fl tslots bs adm : world :=
  set_status (set_flows fl (set_last_alloc tslots (status w))) (set_core (set_admitted adm (set_bstate bs (core w))) w).

(** The state that the allocation works on, with timeslots below [t] output. *)
Record engine_ok (t : Z) w : Prop := {
  en_flows : Z.of_nat (length (flows (status w))) = 2 ^ 16;
  en_last : Z.of_nat (length (last_alloc_tslot (status w))) = 2 ^ 16;
  en_batch : batch_ok nn cap t (bstate (core w)) (admitted (core w));
  en_backlog : ∀ f, flow_ok nn f → 0 ≤ backlog w f < 2 ^ 31;
}.

(** Flow [f] was admitted [k] times. *)
Record allocated (t : Z) f k w w' : Prop := {
  al_frame : ∃ fl tslots bs adm, w' = served_world w fl tslots bs adm;
  al_ok : engine_ok t w';
  al_backlog : ∀ g, flow_ok nn g → backlog w' g = if decide (g = f) then backlog w f - k else backlog w g;
  al_served : ∀ g, served (admitted (core w')) g = served (admitted (core w)) g + if decide (g = f) then k else 0;
  al_past : ∀ u, 0 ≤ u < t → arr_get (admitted (core w')) u = arr_get (admitted (core w)) u;
  al_grow : ∀ u, 0 ≤ u < 64 → arr_get (admitted (core w)) u `prefix_of` arr_get (admitted (core w')) u;
}.

Lemma allocated_refl t f w : engine_ok t w → allocated t f 0 w w.
Proof using.
  intros Hw. split; [|done|..].
  - exists (flows (status w)), (last_alloc_tslot (status w)), (bstate (core w)), (admitted (core w)). by destruct w as [[] [] ? ? ? ? ?].
  - intros g Hg. case_decide; [subst; lia|done].
  - intros g. case_decide; lia.
  - done.
  - done.
Qed.

Lemma allocated_trans t f k k' w w1 w2 : flow_ok nn f → allocated t f k w w1 → allocated t f k' w1 w2 → allocated t f (k + k') w w2.
Proof using.
  intros Hf [(fl & la & bs & adm & E) _ Hb Hs Hp Hgr] [(fl' & la' & bs' & adm' & E') Hok Hb' Hs' Hp' Hgr']. split; [|done|..].
  - exists fl', la', bs', adm'. by rewrite E', E.
  - intros g Hg. rewrite Hb', !Hb by done. rewrite (decide_True (P := f = f)) by done. case_decide; lia.
  - intros g. rewrite Hs', Hs. case_decide; lia.
  - intros u Hu. by rewrite Hp', Hp.
  - intros u Hu. by etrans; [apply Hgr|apply Hgr'].
Qed.

(** One timeslot for a flow. *)
Lemma try_step t f w u : 0 ≤ t → engine_ok t w → flow_ok nn f → 0 < backlog w f → t ≤ u < 64 →
  Z.testbit (arr_get (src_endnodes (bstate (core w))) f.1) u = true →
  Z.testbit (arr_get (dst_endnodes (bstate (core w))) f.2) u = true →
  ∃ bs a, set_timeslot_occupied (bstate (core w)) f.1 f.2 u = Some bs ∧ arr_read (admitted (core w)) u = Some a ∧
    insert_admitted_edge a f.1 f.2 = Some (a ++ [f]) ∧
    popcount 64 (arr_get (src_endnodes bs) f.1) = popcount 64 (arr_get (src_endnodes (bstate (core w))) f.1) - 1 ∧
    ∀ tslots, length tslots = length (last_alloc_tslot (status w)) →
      allocated t f 1 w (served_world w (arr_set (flows (status w)) (idx f) (backlog w f - 1)) tslots bs (arr_set (admitted (core w)) u (a ++ [f]))).
Proof using Hnn.
  intros Ht [Hfl Hla Hb Hbl] Hf Hpos Hu Hs Hd. pose proof (sjf_idx_range nn Hnn f Hf).
  destruct (occupy_spec nn cap Hnn t _ _ f u Hb Hf) as (bs & E1 & E2 & Hb' & Hpop); [lia|done|done|].
  destruct (bo_len _ _ _ _ _ Hb) as (_ & _ & _ & Hadm). exists bs, (arr_get (admitted (core w)) u).
  split; [done|]. split; [apply arr_read_get; lia|]. split; [done|]. split; [done|]. intros tslots Hts.
  assert (∀ g, flow_ok nn g → arr_get (arr_set (flows (status w)) (idx f) (backlog w f - 1)) (idx g) =
    if decide (g = f) then backlog w f - 1 else backlog w g) as EB.
  { intros g Hg. pose proof (sjf_idx_range nn Hnn g Hg). rewrite arr_get_set by lia.
    destruct (decide (g = f)) as [->|Hne]; [by rewrite decide_True|]. rewrite decide_False; [done|]. intros E. by apply Hne, (sjf_idx_inj nn Hnn). }
  split; [by eexists _, _, _, _|..].
  - split; wsimpl; unfold served_world; wsimpl; rewrite ?length_arr_set; try done; [by rewrite Hts|].
    intros g Hg. unfold backlog, served_world. wsimpl. rewrite EB by done. destruct (decide (g = f)); [|by apply Hbl].
    subst. specialize (Hbl f Hf). lia.
  - intros g Hg. unfold backlog at 1. unfold served_world. wsimpl. by rewrite EB.
  - intros g. unfold served_world. wsimpl. apply served_insert. lia.
  - intros k Hk. unfold served_world. wsimpl. rewrite arr_get_set, decide_False by lia. done.
  - intros k Hk. unfold served_world. wsimpl. rewrite arr_get_set by lia. destruct (decide (u = k)) as [<-|]; [by eexists|done].
Qed.

(** No timeslot from [t] on can take the flow. *)
Definition stuck (t : Z) f w : Prop := ∀ u, t ≤ u < 64 → busy cap f (arr_get (admitted (core w)) u).

Lemma sjf_try_allocation_loop_spec t f : 0 ≤ t ≤ 64 → flow_ok nn f → ∀ fuel w, engine_ok t w → 0 < backlog w f →
  popcount 64 (arr_get (src_endnodes (bstate (core w))) f.1) < Z.of_nat fuel →
  wpe (try_allocation_loop fuel f.1 f.2) (λ rc w', ∃ k, allocated t f k w w' ∧
    0 ≤ k ≤ popcount 64 (arr_get (src_endnodes (bstate (core w))) f.1) ∧
    (rc = 0 ∧ backlog w' f = 0 ∨ rc = 1 ∧ 0 < backlog w' f ∧ stuck t f w')) w.
Proof using Hnn.
  intros Ht Hf. pose proof (sjf_idx_range nn Hnn f Hf). induction fuel as [|fuel IH]; intros w Hw Hpos Hpop.
  { pose proof (popcount_nonneg 64 (arr_get (src_endnodes (bstate (core w))) f.1)). lia. }
  cbn [try_allocation_loop]. wgo. destruct (get_first_timeslot_spec nn cap Hnn t _ _ f (en_batch _ _ Hw) Ht Hf) as (u & Eu & Hu).
  wread by exact Eu. pose proof (popcount_nonneg 64 (arr_get (src_endnodes (bstate (core w))) f.1)) as Hp0.
  destruct (Z.eqb_spec u NONE_AVAILABLE) as [->|Hn].
  { wgo. exists 0. split; [by apply allocated_refl|]. split; [lia|]. destruct Hu as [[_ Hu]|]; [by right|unfold NONE_AVAILABLE in *; lia]. }
  destruct Hu as [[]|(Hu & Hs & Hd)]; [done|].
  destruct (try_step t f w u ltac:(lia) Hw Hf Hpos Hu Hs Hd) as (bs & a & E1 & E2 & E3 & Epop & Hal).
  wgo. wread by exact E1. wgo. wread by exact E2. wgo. wread by exact E3. wgo. pose proof (en_last _ _ Hw). pose proof (en_flows _ _ Hw).
  wread by (apply arr_write_set; change (get_status_index f.1 f.2) with (idx f); lia). wgo.
  assert (s32 (backlog w f + -1) = backlog w f - 1) as Es by (pose proof (en_backlog _ _ Hw f Hf); mlia).
  wread by (unfold atomic32_add_return; change (get_status_index f.1 f.2) with (idx f); rewrite arr_read_get by lia; cbn [mbind option_bind];
    fold (backlog w f); rewrite arr_write_set by lia; cbn [mbind option_bind]; rewrite Es; done).
  cbv iota beta. wgo. specialize (Hal _ (length_arr_set (last_alloc_tslot (status w)) (get_status_index f.1 f.2) (u64 (current_timeslot (status w) + u)))).
  match goal with |- wpe _ _ ?x => set (w1 := x) end. change (served_world _ _ _ _ _) with w1 in Hal. 
  assert (backlog w1 f = backlog w f - 1) as Eb by (by rewrite (al_backlog _ _ _ _ _ Hal), decide_True).
  rewrite <- Eb. destruct (Z.eqb_spec (backlog w1 f) 0) as [E0|E0]; cbn [negb].
  { wgo. exists 1. split; [done|]. split; [|by left]. pose proof (popcount_nonneg 64 (arr_get (src_endnodes bs) f.1)). lia. }
  assert (arr_get (src_endnodes (bstate (core w1))) f.1 = arr_get (src_endnodes bs) f.1) as Ebs by done.
  eapply wpe_mono; [apply IH; [apply (al_ok _ _ _ _ _ Hal)|lia|rewrite Ebs; lia]|].
  intros rc w2 (k & Hal2 & Hk & Hrc). exists (1 + k). split; [by eapply allocated_trans|]. rewrite Ebs in Hk. split; [lia|done].
Qed.

Lemma sjf_try_allocation_spec t f w : 0 ≤ t ≤ 64 → flow_ok nn f → engine_ok t w → 0 < backlog w f →
  wpe (try_allocation f.1 f.2) (λ rc w', ∃ k, allocated t f k w w' ∧ 0 ≤ k ≤ 64 ∧
    (rc = 0 ∧ backlog w' f = 0 ∨ rc = 1 ∧ 0 < backlog w' f ∧ stuck t f w')) w.
Proof using Hnn.
  intros Ht Hf Hw Hpos. pose proof (popcount_le 64 (arr_get (src_endnodes (bstate (core w))) f.1) ltac:(lia)).
  eapply wpe_mono; [apply (sjf_try_allocation_loop_spec t f Ht Hf); [done|done|change (Z.of_nat (S (Z.to_nat BATCH_SIZE))) with 65; lia]|].
  intros rc w' (k & ? & ? & ?). exists k. split; [done|]. split; [lia|done].
Qed.
(** ** The bin of a flow *)
Definition level (n : Z) : Z := Z.min (n - 1) 255.

Lemma sjf_bin_index_spec t f w : engine_ok t w → flow_ok nn f → 0 < backlog w f →
  bin_index_from_src_dst (status w) f.1 f.2 = Some (level (backlog w f)).
Proof using Hnn.
  intros Hw Hf Hpos. pose proof (flow_small nn Hnn f Hf). pose proof (sjf_idx_range nn Hnn f Hf). pose proof (en_flows _ _ Hw).
  pose proof (en_backlog _ _ Hw f Hf). unfold bin_index_from_src_dst, MAX_SRCS, MAX_DSTS, MAX_NODES.
  rewrite !(proj2 (Z.ltb_lt _ _)) by lia. cbn [andb]. change (get_status_index f.1 f.2) with (idx f). rewrite arr_read_get by lia.
  cbn [mbind option_bind]. fold (backlog w f). rewrite u32_small by lia. rewrite (proj2 (Z.eqb_neq _ 0)) by lia.
  unfold NUM_BINS, level. destruct (Z.leb_spec (backlog w f) 256); f_equal; [rewrite u16_small; lia|lia].
Qed.

(** ** Outgoing bins *)
Definition out_flows (o : option bin) : list flow := from_option bin_flows [] o.
Definition wait_out w : list (Z * flow) := spread out_flows (seqZ 0 256) (outgoing_bins (core w)).

(** The first [k] bins have been passed on. *)
Definition out_ok (k : Z) w : Prop := Z.of_nat (length (outgoing_bins (core w))) = 256 ∧ ∀ j, 0 ≤ j < 256 →
  if decide (j < k) then arr_get (outgoing_bins (core w)) j = None
  else ∃ b, arr_get (outgoing_bins (core w)) j = Some b ∧ bin_wf b ∧ head b = 0.

Lemma enqueue_outgoing_spec k j f w P B : out_ok k w → 0 ≤ j < 256 → k ≤ j → placed nn B (P ++ (j, f) :: wait_out w) →
  wpe (enqueue_outgoing j f.1 f.2) (λ _ w', ∃ out, w' = set_core (set_outgoing_bins out (core w)) w ∧ out_ok k w' ∧
    wait_out w' ≡ₚ (j, f) :: wait_out w) w.
Proof using Hnn.
  intros [Hl Ho] Hj Hk Hpl. pose proof (Ho j Hj) as Hoj. rewrite decide_False in Hoj by lia. destruct Hoj as (b & Eb & Hb & Hh).
  destruct (row_split out_flows (outgoing_bins (core w)) j Hj Hl) as (rest & Er & Er'). rewrite Eb in Er. cbn [out_flows from_option] in Er.
  assert (tail b < 2 ^ 16 - 1) as Ht.
  { rewrite <- length_history, history_flows by done. assert (placed nn B (lev j (bin_flows b) ++ P ++ (j, f) :: rest)) as [Hnd Hbin _].
    { eapply placed_perm; [|exact Hpl]. unfold wait_out. rewrite Er. perm. }
    rewrite fmap_app, lev_flows in Hnd. apply NoDup_app in Hnd as [Hnd _].
    pose proof (flows_bounded nn Hnn (bin_flows b) Hnd) as Hle. enough (Z.of_nat (length (bin_flows b)) ≤ 255 * 256) by lia. apply Hle.
    intros g Hg. apply (Hbin j g), elem_of_app. left. by apply elem_of_lev. }
  destruct (enqueue_bin_spec b f Hb Ht) as (b' & Ee & Hb' & Hh' & _ & Ef). unfold enqueue_outgoing. wgo.
  wread by (apply arr_read_get; lia). wgo. wread by exact Eb. wgo. wread by exact Ee. wgo.
  eexists. split; [done|]. split.
  - split; wsimpl; rewrite ?length_arr_set; [done|]. intros i Hi. rewrite arr_get_set by lia. destruct (decide (j = i)) as [<-|]; [|by apply Ho].
    rewrite decide_False by lia. exists b'. split; [done|]. split; [done|]. congruence.
  - unfold wait_out. wsimpl. rewrite Er', Er. cbn [out_flows from_option]. rewrite Ef. unfold lev. rewrite fmap_app. perm.
Qed.

(** ** Steps of a batch

    No timeslot is lost or invented, the timeslots grow, and those below [t] stay. *)
Record evolves (t : Z) w w' : Prop := {
  ev_total : ∀ g, flow_ok nn g → backlog w' g + served (admitted (core w')) g = backlog w g + served (admitted (core w)) g;
  ev_past : ∀ u, 0 ≤ u < t → arr_get (admitted (core w')) u = arr_get (admitted (core w)) u;
  ev_grow : ∀ u, 0 ≤ u < 64 → arr_get (admitted (core w)) u `prefix_of` arr_get (admitted (core w')) u;
}.

Lemma evolves_same t w w' : flows (status w') = flows (status w) → admitted (core w') = admitted (core w) → evolves t w w'.
Proof using. intros Ef Ea. split; [|by rewrite Ea..]. intros g _. unfold backlog. by rewrite Ef, Ea. Qed.

Lemma evolves_trans t w w1 w2 : evolves t w w1 → evolves t w1 w2 → evolves t w w2.
Proof using.
  intros [Ht1 Hp1 Hg1] [Ht2 Hp2 Hg2]. split.
  - intros g Hg. by rewrite Ht2, Ht1.
  - intros u Hu. by rewrite Hp2, Hp1.
  - intros u Hu. by etrans; [apply Hg1|apply Hg2].
Qed.

Lemma allocated_evolves t f k w w' : allocated t f k w w' → evolves t w w'.
Proof using. intros [_ _ Hb Hs Hp Hg]. split; [|done..]. intros g Hok. rewrite Hb, Hs by done. case_decide; [subst; lia|lia]. Qed.

Lemma busy_grow f a a' : slot_ok nn cap a' → a `prefix_of` a' → busy cap f a → busy cap f a'.
Proof using Hnn.
  intros Hs' [r ->] [Hs|Hd]; [left|right]; [rewrite fmap_app; set_solver|].
  case_decide; [|rewrite fmap_app; set_solver]. destruct Hd as [Hc Ho]. split; [done|]. pose proof (so_outside _ _ _ Hs' Hc) as Hle.
  unfold outside in *. rewrite sum_of_app in *. fold (outside a) (outside r) in *. pose proof (outside_le r). lia.
Qed.

Lemma stuck_evolves t f w w' : engine_ok t w' → 0 ≤ t → evolves t w w' → stuck t f w → stuck t f w'.
Proof using Hnn.
  intros Hw' Ht He Hs u Hu. eapply busy_grow; [apply (bo_slot _ _ _ _ _ (en_batch _ _ Hw')); lia|apply (ev_grow _ _ _ He); lia|by apply Hs].
Qed.

Lemma engine_ok_same t w w' : status w' = status w → bstate (core w') = bstate (core w) → admitted (core w') = admitted (core w) →
  engine_ok t w → engine_ok t w'.
Proof using. intros E1 E2 E3 [? ? Hb ?]. split; rewrite ?E1, ?E2, ?E3; try done. unfold backlog. by rewrite E1. Qed.

(** What the allocation of a bin changes. *)
Definition binned_world w fl tslots bs adm out : world :=
  set_status (set_flows fl (set_last_alloc tslots (status w)))
    (set_core (set_outgoing_bins out (set_admitted adm (set_bstate bs (core w)))) w).

Record allocated_bin (k t i : Z) (fs : list flow) P w w' : Prop := {
  ab_frame : ∃ fl tslots bs adm out, w' = binned_world w fl tslots bs adm out;
  ab_ok : engine_ok t w';
  ab_out : out_ok k w';
  ab_placed : placed nn (backlog w') (P ++ wait_out w');
  ab_evolves : evolves t w w';
  ab_kept : (wait_out w).*2 ⊆ (wait_out w').*2;
  ab_all : 64 ≤ i → fs ⊆ (wait_out w').*2;
  ab_stuck : ∀ f, f ∈ (wait_out w').*2 → f ∈ (wait_out w).*2 ∨ stuck t f w';
}.

Lemma allocated_bin_nil k t i P w : engine_ok t w → out_ok k w → placed nn (backlog w) (P ++ wait_out w) → allocated_bin k t i [] P w w.
Proof using Hnn.
  intros Hw Ho Hp. split.
  - exists (flows (status w)), (last_alloc_tslot (status w)), (bstate (core w)), (admitted (core w)), (outgoing_bins (core w)).
    by destruct w as [[] [] ? ? ? ? ?].
  - done.
  - done.
  - done.
  - by apply evolves_same.
  - done.
  - intros _ g Hg. by apply elem_of_nil in Hg.
  - by left.
Qed.

Lemma allocated_bin_cons k t i f fs P w w1 w2 : 0 ≤ t →
  (∃ fl tslots bs adm out, w1 = binned_world w fl tslots bs adm out) → evolves t w w1 → (wait_out w).*2 ⊆ (wait_out w1).*2 →
  (64 ≤ i → f ∈ (wait_out w1).*2) → (∀ g, g ∈ (wait_out w1).*2 → g ∈ (wait_out w).*2 ∨ stuck t g w1) →
  allocated_bin k t i fs P w1 w2 → allocated_bin k t i (f :: fs) P w w2.
Proof using Hnn.
  intros Ht (fl & la & bs & adm & out & E) Hev Hkept Hall Hst [(fl' & la' & bs' & adm' & out' & E') Hok Ho Hp Hev' Hk' Ha' Hs'].
  split; try done.
  - exists fl', la', bs', adm', out'. by rewrite E', E.
  - by eapply evolves_trans.
  - by etrans.
  - intros Hi g [->|Hg]%elem_of_cons; [by apply Hk', Hall|by apply Ha'].
  - intros g Hg. destruct (Hs' g Hg) as [Hg1|]; [|by right]. destruct (Hst g Hg1); [by left|]. right. by eapply stuck_evolves.
Qed.

(** One flow of a bin. *)
Definition serve_flow f : M False world unit :=
  rc ← try_allocation f.1 f.2;
  when (rc =? 1)
    (w ← get;
     bin_index ← deref (bin_index_from_src_dst (status w) f.1 f.2);
     enqueue_outgoing bin_index f.1 f.2).

Lemma serve_flow_spec k t i f P w : 0 ≤ t ≤ 64 → k ≤ Z.max 0 (i - 64) → engine_ok t w → out_ok k w →
  placed nn (backlog w) ((i, f) :: P ++ wait_out w) →
  wpe (serve_flow f) (λ _ w', (∃ fl tslots bs adm out, w' = binned_world w fl tslots bs adm out) ∧ engine_ok t w' ∧ out_ok k w' ∧
    evolves t w w' ∧ (wait_out w).*2 ⊆ (wait_out w').*2 ∧ (64 ≤ i → f ∈ (wait_out w').*2) ∧
    (∀ g, g ∈ (wait_out w').*2 → g ∈ (wait_out w).*2 ∨ stuck t g w') ∧ placed nn (backlog w') (P ++ wait_out w')) w.
Proof using Hnn.
  intros Ht Hk Hw Ho Hp. destruct (pl_bin _ _ _ Hp i f) as (Hf & Hi & Hpos); [by left|].
  unfold serve_flow. wgo. eapply wpe_mono; [apply (sjf_try_allocation_spec t f w Ht Hf Hw); lia|].
  intros rc w1 (n & Hal & Hn & Hrc). pose proof (al_ok _ _ _ _ _ Hal) as Hw1. pose proof (allocated_evolves _ _ _ _ _ Hal) as Hev.
  destruct (al_frame _ _ _ _ _ Hal) as (fl & la & bs & adm & E1).
  assert (out_ok k w1) as Ho1 by (by rewrite E1). assert (wait_out w1 = wait_out w) as Eo by (by rewrite E1).
  pose proof (al_backlog _ _ _ _ _ Hal f Hf) as Eb. rewrite decide_True in Eb by done.
  pose proof (en_backlog _ _ Hw1 f Hf) as Hb1.
  destruct (placed_serve nn _ (backlog w1) _ _ _ n Hp) as [P0 P1]; [lia|apply (al_backlog _ _ _ _ _ Hal)|].
  destruct Hrc as [[-> E0]|(-> & Hpos1 & Hst)]; cbn [Z.eqb].
  { apply wpe_when; [done|intros _]. split; [exists fl, la, bs, adm, (outgoing_bins (core w)); rewrite E1; by destruct w as [[] [] ? ? ? ? ?]|].
    rewrite Eo. split_and!; [done..|intros; exfalso; lia|by left|by apply P0]. }
  apply wpe_when; [intros _|done]. wgo. wread by exact (sjf_bin_index_spec t f w1 Hw1 Hf Hpos1).
  assert (placed nn (backlog w1) (P ++ (level (backlog w1 f), f) :: wait_out w1)) as Hp1.
  { eapply placed_perm; [|apply (P1 (level (backlog w1 f))); unfold level; lia]. rewrite Eo. perm. }
  eapply wpe_mono; [eapply (enqueue_outgoing_spec k); [done|..|exact Hp1]; unfold level; lia|].
  intros [] w2 (out & E2 & Ho2 & Ew). assert (engine_ok t w2) as Hw2 by (rewrite E2; by apply (engine_ok_same t w1)).
  assert (evolves t w1 w2) as He2 by (rewrite E2; by apply evolves_same).
  assert (∀ g, g ∈ (wait_out w2).*2 ↔ g = f ∨ g ∈ (wait_out w).*2) as Hin by (intros g; by rewrite Ew, Eo, fmap_cons, elem_of_cons).
  split_and!; [exists fl, la, bs, adm, out; by rewrite E2, E1|done|done|by eapply evolves_trans|..].
  - intros g Hg. apply Hin. by right.
  - intros _. apply Hin. by left.
  - intros g [->|]%Hin; [right; eapply stuck_evolves; [done|lia|done|done]|by left].
  - assert (backlog w2 = backlog w1) as -> by (by rewrite E2). by rewrite Ew.
Qed.

Lemma try_allocation_bin_spec k t i P : 0 ≤ t ≤ 64 → k ≤ Z.max 0 (i - 64) → ∀ n b w, (length (bin_flows b) ≤ n)%nat → bin_wf b →
  engine_ok t w → out_ok k w → placed nn (backlog w) (lev i (bin_flows b) ++ P ++ wait_out w) →
  wpe (try_allocation_bin n b) (λ b' w', bin_wf b' ∧ bin_flows b' = [] ∧ history b' = history b ∧
    allocated_bin k t i (bin_flows b) P w w') w.
Proof using Hnn.
  intros Ht Hk. induction n as [|n IH]; intros b w Hn Hb Hw Ho Hp; destruct (bin_flows b) as [|f fs] eqn:Ef.
  1, 3: cbn [try_allocation_bin]; rewrite is_empty_bin_spec, Ef by done; cbn [bool_decide]; wgo;
    split_and!; [done..|by apply allocated_bin_nil].
  { simpl in Hn. lia. }
  destruct (head_bin_spec b f fs Hb Ef) as (Ee & Ep & b' & Ed & Hb' & Eh & Ef'). cbn [try_allocation_bin]. rewrite Ee.
  wgo. wread by exact Ep. cbv iota beta. destruct f as [src dst].
  apply wpe_bind2. eapply wpe_mono; [apply (serve_flow_spec k t i (src, dst) (lev i fs ++ P)); try done|].
  { eapply placed_perm; [|exact Hp]. unfold lev. rewrite fmap_cons. perm. }
  intros [] w1 (Hfr & Hw1 & Ho1 & Hev & Hkept & Hall & Hst & Hp1). wgo. wread by exact Ed.
  eapply wpe_mono; [apply IH; [rewrite Ef'; simpl in Hn; lia|done..|]|].
  { rewrite Ef'. eapply placed_perm; [|exact Hp1]. perm. }
  intros b2 w2 (Hb2 & Ef2 & Eh2 & Hab). split_and!; [done|done|congruence|]. rewrite Ef' in Hab.
  eapply allocated_bin_cons; [lia|done..].
Qed.

(** ** Demands *)
Definition demand_of (d : Z * Z * Z) : flow := (d.1.1, d.1.2).
Definition demanded (l : list (Z * Z * Z)) f : Z := sum_of (λ d, if decide (demand_of d = f) then d.2 else 0) l.
Definition edge0 f : Z := edge_of (0, f).

Lemma demanded_nonneg l f : Forall (λ d, 0 < d.2) l → 0 ≤ demanded l f.
Proof using.
  induction 1 as [|d l Hd _ IH]; [done|]. change (demanded (d :: l) f) with ((if decide (demand_of d = f) then d.2 else 0) + demanded l f).
  case_decide; lia.
Qed.

Lemma add_backlog_spec w Q X src dst n : Z.of_nat (length (flows (status w))) = 2 ^ 16 → r_wf (q_head w) →
  r_list (q_head w) = edge0 <$> Q → (0 < r_free (q_head w))%nat → placed nn (backlog w) (lev 0 Q ++ X) →
  flow_ok nn (src, dst) → 0 < n → backlog w (src, dst) + n < 2 ^ 31 →
  wpe (add_backlog src dst n) (λ _ w', ∃ fl q Qn, w' = set_q_head q (set_status (set_flows fl (status w)) w) ∧
    length fl = length (flows (status w)) ∧ r_wf q ∧ r_list q = edge0 <$> Q ++ Qn ∧ (length Qn ≤ 1)%nat ∧
    (r_free (q_head w) ≤ S (r_free q))%nat ∧ placed nn (backlog w') (lev 0 (Q ++ Qn) ++ X) ∧
    (∀ f, flow_ok nn f → backlog w' f = backlog w f + if decide ((src, dst) = f) then n else 0) ∧
    ∀ f, f ∈ Qn → backlog w f = 0) w.
Proof using Hnn.
  intros Hfl Hq El Hfree Hp Hf Hn Hmax. pose proof (sjf_idx_range nn Hnn _ Hf). destruct (pl_all _ _ _ Hp _ Hf) as [Hb0 _].
  set (fl := arr_set (flows (status w)) (idx (src, dst)) (backlog w (src, dst) + n)).
  assert (∀ w', flows (status w') = fl → ∀ f, flow_ok nn f → backlog w' f = backlog w f + if decide ((src, dst) = f) then n else 0) as HB.
  { intros w' E f Hok. pose proof (sjf_idx_range nn Hnn f Hok). unfold backlog at 1. rewrite E. unfold fl. rewrite arr_get_set by lia.
    destruct (decide ((src, dst) = f)) as [<-|Hne]; [by rewrite decide_True|]. rewrite decide_False, Z.add_0_r; [done|].
    intros E'. by apply Hne, (sjf_idx_inj nn Hnn). }
  assert (∀ w', flows (status w') = fl → placed nn (backlog w') (if decide (backlog w (src, dst) = 0) then (0, (src, dst)) :: lev 0 Q ++ X else lev 0 Q ++ X)) as HP.
  { intros w' E. eapply placed_demand; [exact Hp|done|exact Hn|]. intros g Hg. rewrite (HB w' E g Hg).
    destruct (decide ((src, dst) = g)) as [<-|]; [by rewrite decide_True|]. rewrite decide_False by congruence. lia. }
  unfold add_backlog, add_backlog_no_enqueue. wgo.
  assert (s32 (backlog w (src, dst) + n) = backlog w (src, dst) + n) as Es by mlia.
  wread by (unfold atomic32_add_return; change (get_status_index src dst) with (idx (src, dst)); rewrite arr_read_get by lia; cbn [mbind option_bind];
    fold (backlog w (src, dst)); rewrite arr_write_set by lia; cbn [mbind option_bind]; rewrite Es; done).
  cbv iota beta. wgo. fold fl. assert (length fl = length (flows (status w))) as Lf by apply length_arr_set.
  destruct (Z.eqb_spec (backlog w (src, dst) + n) n) as [E0|E0].
  - assert (backlog w (src, dst) = 0) as E by lia. wgo. wsimpl. 
    destruct (r_enqueue_spec (q_head w) (MAKE_EDGE 0 src dst) Hq Hfree) as (q & Eq & Hq' & Elq & Efree).
    wread by exact Eq. wgo. exists fl, q, [(src, dst)]. split; [done|]. split_and!; try done; try lia.
    + rewrite Elq, El, fmap_app. done.
    + specialize (HP (set_q_head q (set_status (set_flows fl (status w)) w)) eq_refl). rewrite decide_True in HP by done.
      eapply placed_perm; [|exact HP]. unfold lev. rewrite fmap_app. perm.
    + by apply HB.
    + intros f Hin. by apply list_elem_of_singleton in Hin as ->.
  - wgo. exists fl, (q_head w), []. rewrite app_nil_r. split; [by destruct w|]. split_and!; try done; try (simpl; lia).
    + specialize (HP (set_status (set_flows fl (status w)) w) eq_refl). by rewrite decide_False in HP by lia.
    + by apply HB.
    + intros f Hin. by apply elem_of_nil in Hin.
Qed.

Lemma add_demands_spec X l : ∀ w Q, Z.of_nat (length (flows (status w))) = 2 ^ 16 → r_wf (q_head w) →
  r_list (q_head w) = edge0 <$> Q → (length l ≤ r_free (q_head w))%nat → placed nn (backlog w) (lev 0 Q ++ X) →
  Forall (λ d, flow_ok nn (demand_of d) ∧ 0 < d.2) l → (∀ f, flow_ok nn f → backlog w f + demanded l f < 2 ^ 31) →
  wpe (add_demands l) (λ _ w', ∃ fl q Qn, w' = set_q_head q (set_status (set_flows fl (status w)) w) ∧
    length fl = length (flows (status w)) ∧ r_wf q ∧ r_list q = edge0 <$> Q ++ Qn ∧ (length Qn ≤ length l)%nat ∧
    (r_free (q_head w) ≤ length l + r_free q)%nat ∧ placed nn (backlog w') (lev 0 (Q ++ Qn) ++ X) ∧
    (∀ f, flow_ok nn f → backlog w' f = backlog w f + demanded l f) ∧ ∀ f, f ∈ Qn → backlog w f = 0) w.
Proof using Hnn.
  induction l as [|[[src dst] n] l IH]; intros w Q Hfl Hq El Hfree Hp Hl Hmax.
  { cbn [add_demands]. wgo. exists (flows (status w)), (q_head w), []. rewrite app_nil_r. split; [by destruct w as [[] ? ? ? ? ? ?]|].
    split_and!; try done; try lia; [intros f _; unfold demanded; simpl; lia|]. intros f Hin. by apply elem_of_nil in Hin. }
  apply Forall_cons in Hl as [[Hf Hn] Hl]. change (demand_of (src, dst, n)) with (src, dst) in Hf. cbn [snd] in Hn. simpl length in Hfree.
  assert (∀ f, flow_ok nn f → demanded ((src, dst, n) :: l) f = (if decide ((src, dst) = f) then n else 0) + demanded l f) as Edem by done.
  pose proof (λ f, demanded_nonneg l f ltac:(eapply Forall_impl; [exact Hl|by intros ? []])) as Hnonneg.
  cbn [add_demands]. wgo. eapply wpe_mono; [apply (add_backlog_spec w Q X); try done; [lia|]|].
  { specialize (Hmax _ Hf). rewrite Edem, decide_True in Hmax by done. specialize (Hnonneg (src, dst)). lia. }
  intros [] w1 (fl & q & Q1 & E1 & Lf & Hq1 & El1 & Ln & Hfr & Hp1 & HB1 & HQ1).
  eapply wpe_mono; [apply (IH w1 (Q ++ Q1)); try (by rewrite E1); try done|].
  - rewrite E1. wsimpl. by rewrite Lf.
  - rewrite E1. wsimpl. lia.
  - intros f Hok. rewrite HB1 by done. specialize (Hmax f Hok). rewrite Edem in Hmax by done. lia.
  - intros [] w2 (fl2 & q2 & Q2 & E2 & Lf2 & Hq2 & El2 & Ln2 & Hfr2 & Hp2 & HB2 & HQ2). rewrite E1 in Lf2, Hfr2. wsimpl.
    exists fl2, q2, (Q1 ++ Q2). rewrite app_assoc. split; [by rewrite E2, E1|]. split_and!; try done.
    + by rewrite Lf2.
    + rewrite length_app. cbn [length]. lia.
    + cbn [length]. lia.
    + intros f Hok. rewrite HB2, HB1, Edem by done. lia.
    + intros f [Hin|Hin]%elem_of_app; [by apply HQ1|]. assert (flow_ok nn f) as Hok.
      { apply (placed_flow _ _ _ _ Hp2), list_elem_of_fmap. exists (0, f). split; [done|]. apply elem_of_app. left. apply elem_of_lev. split; [done|]. set_solver. }
      pose proof (HQ2 f Hin) as E0. rewrite HB1 in E0 by done. destruct (pl_all _ _ _ Hp f Hok) as [? _].
      destruct (decide ((src, dst) = f)); lia.
Qed.

(** ** Bins of new requests *)
Definition new_bin w (j : Z) : bin := arr_get (new_request_bins (core w)) j.
Definition wait_new w : list (Z * flow) := spread bin_flows (seqZ 0 256) (new_request_bins (core w)).

Definition new_ok w : Prop := Z.of_nat (length (new_request_bins (core w))) = 256 ∧ ∀ j, 0 ≤ j < 256 →
  bin_wf (new_bin w j) ∧ NoDup (history (new_bin w j)) ∧ ∀ f, f ∈ history (new_bin w j) → flow_ok nn f.

Lemma enqueue_new_request_spec j f w : new_ok w → 0 ≤ j < 256 → flow_ok nn f → f ∉ history (new_bin w j) →
  wpe (enqueue_new_request j f.1 f.2) (λ _ w', ∃ nw, w' = set_core (set_new_request_bins nw (core w)) w ∧ new_ok w' ∧
    wait_new w' ≡ₚ (j, f) :: wait_new w ∧ history (new_bin w' j) = history (new_bin w j) ++ [f] ∧
    head (new_bin w' j) = head (new_bin w j) ∧ ∀ i, 0 ≤ i < 256 → i ≠ j → new_bin w' i = new_bin w i) w.
Proof using Hnn.
  intros [Hl Hn] Hj Hf Hnew. destruct (Hn j Hj) as (Hb & Hnd & Hok).
  assert (tail (new_bin w j) < 2 ^ 16 - 1) as Ht.
  { rewrite <- length_history by done. pose proof (flows_bounded nn Hnn _ Hnd Hok). lia. }
  destruct (enqueue_bin_spec _ f Hb Ht) as (b & Ee & Hb' & Hh & Ehist & Ef).
  destruct (row_split bin_flows (new_request_bins (core w)) j Hj Hl) as (rest & Er & Er').
  unfold enqueue_new_request. wgo. wread by (apply arr_read_get; lia). wgo. wread by exact Ee. wgo.
  assert (∀ i, 0 ≤ i < 256 → new_bin (set_core (set_new_request_bins (arr_set (new_request_bins (core w)) j b) (core w)) w) i =
    if decide (j = i) then b else new_bin w i) as Eb by (intros i Hi; unfold new_bin; wsimpl; by rewrite arr_get_set by lia).
  eexists. split; [done|]. split; [|split; [|split_and!]].
  - split; [wsimpl; by rewrite length_arr_set|]. intros i Hi. rewrite Eb by done. destruct (decide (j = i)) as [<-|]; [|by apply Hn].
    rewrite Ehist. split; [done|]. split.
    + apply NoDup_app. split_and!; [done| |apply NoDup_singleton]. by intros x Hx ->%list_elem_of_singleton.
    + intros g [Hg|Hg%list_elem_of_singleton]%elem_of_app; [by apply Hok|by subst].
  - unfold wait_new. wsimpl. rewrite Er', Er, Ef. fold (new_bin w j). unfold lev. rewrite fmap_app. perm.
  - by rewrite Eb, decide_True by done.
  - by rewrite Eb, decide_True by done.
  - intros i Hi Hij. by rewrite Eb, decide_False by congruence.
Qed.

(** ** The rings of the core, which uses one ring for both ends *)
Context (bi ui : Z).
Definition bin_ring w : Rb := arr_get (bin_rings w) bi.
Definition urgent_ring w : Re := arr_get (urgent_rings w) ui.

Record rings_ok w : Prop := {
  ri_bin : q_bin_in (core w) = bi ∧ q_bin_out (core w) = bi ∧ 0 ≤ bi < Z.of_nat (length (bin_rings w));
  ri_urgent : q_urgent_in (core w) = ui ∧ q_urgent_out (core w) = ui ∧ 0 ≤ ui < Z.of_nat (length (urgent_rings w));
  ri_wf : r_wf (bin_ring w) ∧ r_wf (urgent_ring w) ∧ r_wf (q_head w) ∧ r_wf (q_admitted_out w);
}.

Lemma burst_spec {R A} `{Ring R A} n : ∀ r, r_wf r → let '(xs, r') := r_dequeue_burst n r in
  xs = take n (r_list r) ∧ r_wf r' ∧ r_list r' = drop n (r_list r) ∧ (r_free r' = length xs + r_free r)%nat.
Proof using Hnn.
  induction n as [|n IH]; intros r Hr; cbn [r_dequeue_burst]; [by rewrite take_0, drop_0|].
  pose proof (r_dequeue_spec r Hr) as Hd. destruct (r_list r) as [|x l] eqn:E; [by rewrite Hd, E|].
  destruct Hd as (r' & -> & Hr' & El & Ef). specialize (IH r' Hr'). destruct (r_dequeue_burst n r') as [xs r'']. rewrite El in IH.
  simpl. naive_solver lia.
Qed.

Lemma enqueue_urgent_spec e w : rings_ok w → (0 < r_free (urgent_ring w))%nat →
  wpe (enqueue_urgent_out e) (λ _ w', ∃ rs, w' = set_urgent_rings rs w ∧ rings_ok w' ∧
    r_list (urgent_ring w') = r_list (urgent_ring w) ++ [e] ∧ r_free (urgent_ring w) = S (r_free (urgent_ring w'))) w.
Proof using.
  intros [Hb (Ei & Eo & Hu) (Hw1 & Hw2 & Hw3)] Hfree. unfold enqueue_urgent_out. wgo. rewrite Eo.
  wread by (apply arr_read_get; done). wgo. destruct (r_enqueue_spec (urgent_ring w) e Hw2 Hfree) as (r & Er & Hr & El & Ef).
  wread by exact Er. wgo. assert (urgent_ring (set_urgent_rings (arr_set (urgent_rings w) ui r) w) = r) as E.
  { unfold urgent_ring. wsimpl. by rewrite arr_get_set, decide_True by (done || lia). }
  rewrite ?Eo, ?Ei. eexists. split; [done|]. rewrite E. split; [|done]. split; [done|wsimpl; by rewrite length_arr_set|]. rewrite E. done.
Qed.

Lemma dequeue_urgent_spec w : rings_ok w →
  wpe dequeue_urgent_in (λ es w', ∃ rs, w' = set_urgent_rings rs w ∧ rings_ok w' ∧ es = take 256 (r_list (urgent_ring w)) ∧
    r_list (urgent_ring w') = drop 256 (r_list (urgent_ring w)) ∧ (r_free (urgent_ring w') = length es + r_free (urgent_ring w))%nat) w.
Proof using Hnn.
  intros [Hb (Ei & Eo & Hu) (Hw1 & Hw2 & Hw3)]. unfold dequeue_urgent_in. wgo. rewrite Ei.
  wread by (apply arr_read_get; done). pose proof (burst_spec RING_DEQUEUE_BURST_SIZE (urgent_ring w) Hw2) as Hd.
  unfold urgent_ring in Hd. destruct (r_dequeue_burst _ _) as [es r]. destruct Hd as (Ees & Hr & El & Ef). wgo.
  assert (urgent_ring (set_urgent_rings (arr_set (urgent_rings w) ui r) w) = r) as E.
  { unfold urgent_ring. wsimpl. by rewrite arr_get_set, decide_True by (done || lia). }
  rewrite ?Eo, ?Ei. eexists. split; [done|]. rewrite E. split; [|done]. split; [done|wsimpl; by rewrite length_arr_set|]. rewrite E. done.
Qed.

Lemma dequeue_head_spec w : rings_ok w →
  wpe dequeue_head (λ es w', ∃ q, w' = set_q_head q w ∧ rings_ok w' ∧ es = take 256 (r_list (q_head w)) ∧
    r_list (q_head w') = drop 256 (r_list (q_head w)) ∧ (r_free (q_head w') = length es + r_free (q_head w))%nat) w.
Proof using Hnn.
  intros [Hb Hu (Hw1 & Hw2 & Hw3 & Hw4)]. unfold dequeue_head. wgo.
  pose proof (burst_spec RING_DEQUEUE_BURST_SIZE (q_head w) Hw3) as Hd. destruct (r_dequeue_burst _ _) as [es r].
  destruct Hd as (Ees & Hr & El & Ef). wgo. eexists. split; [done|]. split; [by split|]. done.
Qed.

(** A loop over a queue of new flows, for an invariant that does not read the queue. *)
Section head.
Context (cur : Z) (I : list flow → world → Prop).
Hypothesis I_rings : ∀ Q w, I Q w → rings_ok w.
Hypothesis I_queue : ∀ Q w q, I Q w → r_wf q → I Q (set_q_head q w).
Hypothesis I_flow : ∀ f Q w, I (f :: Q) w → flow_ok nn f ∧
  wpe (bin_index ← deref (bin_index_from_src_dst (status w) f.1 f.2); process_one_new_request f.1 f.2 bin_index cur)
    (λ _ w', I Q w' ∧ q_head w' = q_head w) w.

Lemma process_head_edges_spec Q' : ∀ Q w, I (Q ++ Q') w →
  wpe (process_head_edges (edge0 <$> Q) cur) (λ _ w', I Q' w' ∧ q_head w' = q_head w) w.
Proof using I_flow Hnn.
  induction Q as [|f Q IH]; intros w Hw; cbn [process_head_edges fmap list_fmap]; [wgo; done|]. rewrite <- app_comm_cons in Hw.
  destruct (I_flow f _ w Hw) as [Hf Hstep]. pose proof (flow_small nn Hnn f Hf).
  destruct (edge_fields 0 f) as (_ & Es & Ed & _); [lia..|]. change (edge0 f) with (edge_of (0, f)). rewrite !Es, !Ed.
  apply wpe_bind, wpe_get, wpe_bind2. eapply wpe_mono; [exact Hstep|]. intros [] w1 [Hw1 Eq1].
  eapply wpe_mono; [by apply IH|]. intros [] w2 [Hw2 Eq2]. split; [done|congruence].
Qed.

Lemma process_head_spec fuel : ∀ Q w, (length Q < fuel)%nat → I Q w → r_list (q_head w) = edge0 <$> Q →
  wpe (process_head fuel cur) (λ _ w', I [] w' ∧ r_list (q_head w') = [] ∧ (r_free (q_head w) ≤ r_free (q_head w'))%nat) w.
Proof using I_flow I_queue I_rings Hnn.
  induction fuel as [|fuel IH]; intros Q w Hfuel Hw El; [lia|]. cbn [process_head]. wgo.
  eapply wpe_mono; [apply dequeue_head_spec; eauto|]. intros es w1 (q & E1 & Hr1 & Ees & El1 & Ef1).
  assert (I (take 256 Q ++ drop 256 Q) w1) as Hw1 by (rewrite take_drop, E1; apply I_queue; [done|rewrite E1 in Hr1; apply (ri_wf _ Hr1)]).
  rewrite El, <- fmap_take in Ees. rewrite El, <- fmap_drop in El1. rewrite Ees. wgo.
  eapply wpe_mono; [by apply process_head_edges_spec|]. intros [] w2 [Hw2 Eq2]. rewrite <- Ees.
  case_bool_decide as Ee.
  - wgo. rewrite Ee in Ees. symmetry in Ees. apply fmap_nil_inv in Ees. rewrite Eq2. destruct Q; [|done]. cbn [drop] in Hw2.
    split; [done|]. split; [done|lia].
  - eapply wpe_mono; [apply (IH (drop 256 Q)); [|done|by rewrite Eq2]|].
    + destruct Q; [by rewrite Ees in Ee|]. rewrite length_drop. simpl in *. lia.
    + intros [] w3 (? & ? & ?). split_and!; [done|done|]. rewrite Eq2 in *. lia.
Qed.
End head.

(** ** The first requests of a batch

    All of them are put into the bins of new requests. [P] is what waits elsewhere. *)
Definition sorted_world w nw rs q : world := set_q_head q (set_urgent_rings rs (set_core (set_new_request_bins nw (core w)) w)).

Record sorting w0 P w : Prop := {
  sg_frame : ∃ nw rs q, w = sorted_world w0 nw rs q;
  sg_new : new_ok w;
  sg_heads : ∀ j, 0 ≤ j < 256 → head (new_bin w j) = 0;
  sg_rings : rings_ok w;
  sg_placed : placed nn (backlog w) (P ++ wait_new w);
}.

#[local] Instance sorting_perm w0 : Proper ((≡ₚ) ==> (=) ==> iff) (sorting w0).
Proof using. intros P P' E w ? <-. split; intros [? ? ? ? Hp]; (split; [done..|]); [by rewrite <- E|by rewrite E]. Qed.

Lemma sort_flow w0 P l l' f w : sorting w0 ((l, f) :: P) w → 0 ≤ l' < 256 → l' < backlog w f →
  wpe (process_one_new_request f.1 f.2 l' 0) (λ _ w', sorting w0 P w' ∧ q_head w' = q_head w ∧ urgent_rings w' = urgent_rings w) w.
Proof using Hnn.
  intros [(nw & rs & q & E) Hn Hh Hr Hp] Hl' Hlt. unfold process_one_new_request. rewrite (proj2 (Z.ltb_ge _ _)) by lia.
  destruct (pl_bin _ _ _ Hp l f) as (Hf & _); [by left|]. pose proof (placed_move _ _ _ _ _ _ Hp Hl' Hlt) as Hp'.
  assert (f ∉ history (new_bin w l')) as Hnew.
  { rewrite history_flows by (by apply Hh). intros Hin. destruct Hp as [Hnd _ _]. rewrite <- app_comm_cons, fmap_cons in Hnd.
    apply NoDup_cons in Hnd as [Hnd _]. apply Hnd. rewrite fmap_app. apply elem_of_app. right. by apply (elem_of_row _ _ l'), Hin; [|apply Hn]. }
  eapply wpe_mono; [by apply enqueue_new_request_spec|]. intros [] w' (nw' & E' & Hn' & Ew & _ & Hh' & Ho).
  split; [|by rewrite E']. split; [by exists nw', rs, q; rewrite E', E|done|..].
  - intros j Hj. destruct (decide (j = l')) as [->|Hne]; [by rewrite Hh', Hh|]. by rewrite Ho, Hh.
  - rewrite E'. by destruct Hr.
  - assert (backlog w' = backlog w) as -> by (by rewrite E'). eapply placed_perm; [|exact Hp']. rewrite Ew. perm.
Qed.

Lemma sort_edge w0 P l f w : sorting w0 ((l, f) :: P) w →
  EDGE_BIN (edge_of (l, f)) = l ∧ EDGE_SRC (edge_of (l, f)) = f.1 ∧ EDGE_DST (edge_of (l, f)) = f.2 ∧
  (edge_of (l, f) =? URGENT_Q_HEAD_TOKEN) = false ∧ 0 ≤ l < 256 ∧ l < backlog w f.
Proof using Hnn.
  intros Hs. destruct (pl_bin _ _ _ (sg_placed _ _ _ Hs) l f) as (Hf & Hl & Hlt); [by left|]. pose proof (flow_small nn Hnn f Hf).
  destruct (edge_fields l f) as (? & ? & ? & ?); [lia..|done].
Qed.

Lemma sort_urgent_edges w0 P rest Q : ∀ U w, sorting w0 (U ++ P) w →
  (∀ w', sorting w0 P w' → q_head w' = q_head w → urgent_rings w' = urgent_rings w → wpe (process_urgent_edges rest 0) Q w') →
  wpe (process_urgent_edges ((edge_of <$> U) ++ rest) 0) Q w.
Proof using Hnn.
  induction U as [|[l f] U IH]; intros w Hw Hrest; [by apply Hrest|]. rewrite fmap_cons, <- app_comm_cons in *.
  destruct (sort_edge _ _ _ _ _ Hw) as (Eb & Es & Ed & Et & Hl & Hlt). cbn [process_urgent_edges]. rewrite Et, Eb, Es, Ed.
  apply wpe_bind. eapply wpe_mono; [by apply (sort_flow w0 (U ++ P) l)|]. intros [] w1 (Hw1 & Eq & Eu).
  apply IH; [done|]. intros w' Hw' Eq' Eu'. apply Hrest; [done|congruence..].
Qed.

Definition headed w : world := set_core (set_is_head true (core w)) w.

Lemma sort_urgent w0 P fuel : ∀ U w, (length U < fuel)%nat → sorting w0 (U ++ P) w →
  r_list (urgent_ring w) = (edge_of <$> U) ++ [URGENT_Q_HEAD_TOKEN] →
  wpe (process_q_urgent fuel 0) (λ go w', go = true ∧ sorting (headed w0) P w' ∧ q_head w' = q_head w ∧
    r_list (urgent_ring w') = [] ∧ (r_free (urgent_ring w) ≤ r_free (urgent_ring w'))%nat) w.
Proof using Hnn.
  induction fuel as [|fuel IH]; intros U w Hfuel Hw El; [lia|]. cbn [process_q_urgent]. apply wpe_bind.
  eapply wpe_mono; [by apply dequeue_urgent_spec, Hw|]. intros es w1 (rs & E1 & Hr1 & Ees & El1 & Ef1).
  assert (sorting w0 (U ++ P) w1) as Hw1.
  { destruct Hw as [(nw & rs0 & q & E) Hn Hh _ Hp]. subst w1. split; [exists nw, rs, q; by rewrite E|exact Hn|exact Hh|exact Hr1|exact Hp]. }
  assert (q_head w1 = q_head w) as Eq1 by (by rewrite E1). rewrite El in Ees, El1. apply wpe_bind.
  destruct (decide (length U < 256)%nat) as [Hlt|Hge].
  - rewrite take_ge in Ees by (rewrite length_app, length_fmap; simpl; lia). rewrite drop_ge in El1 by (rewrite length_app, length_fmap; simpl; lia).
    rewrite Ees. apply (sort_urgent_edges w0 P); [done|]. intros w2 Hw2 Eq2 Eu2. cbn [process_urgent_edges]. rewrite Z.eqb_refl. wgo. cbv iota. wgo.
    split; [done|]. assert (urgent_ring (set_core (set_is_head true (core w2)) w2) = urgent_ring w1) as Eu by (unfold urgent_ring; wsimpl; by rewrite Eu2).
    rewrite Eu. split; [|split_and!; [wsimpl; congruence|done|lia]].
    destruct Hw2 as [(nw & rs2 & q & E) Hn Hh Hr Hp].
    split; [exists nw, rs2, q; by rewrite E|exact Hn|exact Hh|by destruct Hr|exact Hp].
  - rewrite take_app_le, <- fmap_take in Ees by (rewrite length_fmap; lia). rewrite drop_app_le, <- fmap_drop in El1 by (rewrite length_fmap; lia).
    rewrite Ees. rewrite <- (app_nil_r (edge_of <$> _)). rewrite <- (take_drop 256 U), <- app_assoc in Hw1.
    eapply sort_urgent_edges; [exact Hw1|]. intros w2 Hw2 Eq2 Eu2. cbn [process_urgent_edges]. wgo. cbv iota.
    assert (urgent_ring w2 = urgent_ring w1) as Eu by (unfold urgent_ring; by rewrite Eu2).
    rewrite app_nil_r, bool_decide_eq_false_2 by (intros En%fmap_nil_inv; apply (f_equal length) in En; rewrite length_take in En; cbn [length] in En; lia).
    eapply wpe_mono; [apply (IH (drop 256 U)); [rewrite length_drop; lia|done|by rewrite Eu]|].
    intros go w3 (-> & ? & Eq3 & ? & ?). split_and!; [done|done|congruence|done|]. rewrite Eu in *. lia.
Qed.

Definition demands_ok (l : list (Z * Z * Z)) : Prop := Forall (λ d, flow_ok nn (demand_of d) ∧ 0 < d.2) l.

Lemma observe_spec X e es w Q : script w = e :: es → Z.of_nat (length (flows (status w))) = 2 ^ 16 → r_wf (q_head w) →
  r_list (q_head w) = edge0 <$> Q → (length (ev_demands e) ≤ r_free (q_head w))%nat → placed nn (backlog w) (lev 0 Q ++ X) →
  demands_ok (ev_demands e) → (∀ f, flow_ok nn f → backlog w f + demanded (ev_demands e) f < 2 ^ 31) →
  wpe observe (λ now w', now = ev_time e ∧ ∃ fl q Qn, w' = set_q_head q (set_status (set_flows fl (status w)) (set_script es w)) ∧
    length fl = length (flows (status w)) ∧ r_wf q ∧ r_list q = edge0 <$> Q ++ Qn ∧ (length Qn ≤ length (ev_demands e))%nat ∧
    (r_free (q_head w) ≤ length (ev_demands e) + r_free q)%nat ∧ placed nn (backlog w') (lev 0 (Q ++ Qn) ++ X) ∧
    (∀ f, flow_ok nn f → backlog w' f = backlog w f + demanded (ev_demands e) f) ∧ ∀ f, f ∈ Qn → backlog w f = 0) w.
Proof using Hnn.
  intros Es Hfl Hq El Hfree Hp Hd Hmax. unfold observe. wgo. rewrite Es. wgo.
  eapply wpe_mono; [by apply (add_demands_spec X (ev_demands e) (set_script es w) Q)|]. intros [] w' Hw'. wgo. done.
Qed.

Lemma bursts_bound B (P : list (Z * flow)) : placed nn B P → (length P < ring_bursts)%nat.
Proof using Hnn.
  intros Hp. rewrite <- (length_fmap snd). pose proof (flows_bounded nn Hnn P.*2 (pl_once _ _ _ Hp)) as Hl.
  assert (Z.of_nat ring_bursts = 2 ^ 17) as E by (unfold ring_bursts; by rewrite Z2Nat.id). enough (Z.of_nat (length P.*2) ≤ 255 * 256) by lia.
  apply Hl. intros f Hf. by apply (placed_flow _ _ _ _ Hp).
Qed.

Lemma first_requests_spec w U Q R e es : engine_ok 0 w → rings_ok w → is_head (core w) = false → script w = e :: es →
  new_ok w → (∀ j, 0 ≤ j < 256 → head (new_bin w j) = 0) → wait_new w = [] →
  r_list (urgent_ring w) = (edge_of <$> U) ++ [URGENT_Q_HEAD_TOKEN] → r_list (q_head w) = edge0 <$> Q →
  placed nn (backlog w) (U ++ lev 0 Q ++ R) → (length (ev_demands e) ≤ r_free (q_head w))%nat → demands_ok (ev_demands e) →
  (∀ f, flow_ok nn f → backlog w f + demanded (ev_demands e) f < 2 ^ 31) →
  wpe (process_new_requests 0) (λ _ w', ∃ fl nw rs q,
    w' = sorted_world (headed (set_status (set_flows fl (status w)) (set_script es w))) nw rs q ∧
    engine_ok 0 w' ∧ new_ok w' ∧ (∀ j, 0 ≤ j < 256 → head (new_bin w' j) = 0) ∧ rings_ok w' ∧
    r_list (urgent_ring w') = [] ∧ (r_free (urgent_ring w) ≤ r_free (urgent_ring w'))%nat ∧
    r_list (q_head w') = [] ∧ (r_free (q_head w) ≤ length (ev_demands e) + r_free (q_head w'))%nat ∧
    placed nn (backlog w') (R ++ wait_new w') ∧
    ∀ f, flow_ok nn f → backlog w' f = backlog w f + demanded (ev_demands e) f) w.
Proof using Hnn.
  intros Hw Hr Hhd Es Hn Hh Ewn Eu Eq Hp Hfree Hd Hmax. unfold process_new_requests. apply wpe_bind.
  eapply wpe_mono; [apply (observe_spec (U ++ R) e es w Q Es (en_flows _ _ Hw)); try done; [apply Hr|eapply placed_perm; [|exact Hp]; perm]|].
  intros now w1 (-> & fl & q & Qn & E1 & Lf & Hq & El1 & _ & Hf1 & Hp1 & HB & _). set (w0 := set_status (set_flows fl (status w)) (set_script es w)).
  assert (engine_ok 0 w0) as Hw0.
  { destruct Hw as [Hw1 Hw2 Hw3 Hw4]. split; [wsimpl; unfold w0; wsimpl; by rewrite Lf|done|done|]. intros f Hf.
    assert (backlog w0 f = backlog w1 f) as -> by (by rewrite E1). pose proof (HB f Hf) as E. pose proof (Hmax f Hf). destruct (pl_all _ _ _ Hp1 f Hf). lia. }
  assert (sorting w0 (U ++ lev 0 (Q ++ Qn) ++ R) w1) as Hs.
  { split; [exists (new_request_bins (core w)), (urgent_rings w), q; rewrite E1; by destruct w as [? [] ? ? ? ? ?]|by rewrite E1|by rewrite E1|rewrite E1; by destruct Hr as [? ? (? & ? & ? & ?)]|].
    assert (wait_new w1 = []) as -> by (by rewrite E1). eapply placed_perm; [|exact Hp1]. perm. }
  assert (urgent_ring w1 = urgent_ring w) as Eu1 by (by rewrite E1). apply wpe_bind, wpe_get. assert (is_head (core w1) = false) as -> by (by rewrite E1).
  cbv iota. apply wpe_bind. eapply wpe_mono; [apply (sort_urgent w0 (lev 0 (Q ++ Qn) ++ R) _ U); [|exact Hs|by rewrite Eu1]|].
  { pose proof (bursts_bound _ _ (sg_placed _ _ _ Hs)) as Hb. rewrite !length_app in Hb. lia. }
  intros go w2 (-> & Hs2 & Eq2 & Eu2 & Hf2). cbv iota. apply wpe_bind. assert (q_head w2 = q) as Eq2' by (by rewrite Eq2, E1).
  assert (engine_ok 0 (headed w0)) as Hw0' by (by apply (engine_ok_same 0 w0)).
  assert (∀ Q w, sorting (headed w0) (lev 0 Q ++ R) w → engine_ok 0 w) as Heng.
  { intros Q' w' [(nw & rs & q' & E) _ _ _ _]. by apply (engine_ok_same 0 (headed w0)); rewrite ?E. }
  eapply wpe_mono; [apply (process_head_spec 0 (λ Q w', sorting (headed w0) (lev 0 Q ++ R) w' ∧ urgent_rings w' = urgent_rings w2)) with (Q := Q ++ Qn)|].
  - intros Q' w' [Hs' _]. apply Hs'.
  - intros Q' w' q' [[(nw & rs & q0 & E) Hn' Hh' Hr' Hp'] Eu'] Hq'. split; [|done].
    split; [exists nw, rs, q'; by rewrite E|exact Hn'|exact Hh'|by destruct Hr' as [? ? (? & ? & ? & ?)]|exact Hp'].
  - intros f Q' w' [Hs' Eu']. destruct (pl_bin _ _ _ (sg_placed _ _ _ Hs') 0 f) as (Hf & _ & Hpos); [by left|]. split; [done|].
    apply wpe_bind. wread by (by apply (sjf_bin_index_spec 0); [eapply Heng|..]). eapply wpe_mono; [eapply (sort_flow (headed w0) (lev 0 Q' ++ R) 0); [exact Hs'|unfold level; lia..]|].
    intros [] w3 (Hs3 & Eq3 & Eu3). split; [split; [done|congruence]|done].
  - pose proof (bursts_bound _ _ (sg_placed _ _ _ Hs2)) as Hb. rewrite !length_app in Hb. unfold lev in Hb. rewrite length_fmap, length_app in Hb. rewrite length_app. lia.
  - done.
  - by rewrite Eq2'.
  - intros [] w3 ([Hs3 Eu3] & El3 & Hf3). wgo. pose proof (Heng [] w3 Hs3) as Hw3. destruct Hs3 as [(nw & rs & q3 & E3) Hn3 Hh3 Hr3 Hp3].
    assert (urgent_ring w3 = urgent_ring w2) as Eur by (unfold urgent_ring; by rewrite Eu3).
    exists fl, nw, rs, q3. split; [exact E3|]. split_and!; try done.
    + by rewrite Eur.
    + rewrite Eur. by rewrite Eu1 in Hf2.
    + rewrite Eq2' in Hf3. lia.
    + intros f Hf. assert (backlog w3 f = backlog w1 f) as -> by (by rewrite E3, E1). by apply HB.
Qed.

(** ** Passing bins on *)
Lemma enqueue_bin_out_spec b w : rings_ok w → (0 < r_free (bin_ring w))%nat →
  wpe (enqueue_bin_out b) (λ _ w', ∃ rs, w' = set_bin_rings rs w ∧ rings_ok w' ∧
    r_list (bin_ring w') = r_list (bin_ring w) ++ [b] ∧ r_free (bin_ring w) = S (r_free (bin_ring w'))) w.
Proof using.
  intros [(Ei & Eo & Hb) Hu (Hw1 & Hw2 & Hw3)] Hfree. unfold enqueue_bin_out. wgo. rewrite Eo.
  wread by (apply arr_read_get; done). wgo. destruct (r_enqueue_spec (bin_ring w) b Hw1 Hfree) as (r & Er & Hr & El & Ef).
  wread by exact Er. wgo. rewrite Eo. assert (bin_ring (set_bin_rings (arr_set (bin_rings w) bi r) w) = r) as E.
  { unfold bin_ring. wsimpl. by rewrite arr_get_set, decide_True by (done || lia). }
  eexists. split; [done|]. rewrite E. split; [|done]. split; [wsimpl; by rewrite length_arr_set|done|]. rewrite E. done.
Qed.

Lemma dequeue_bin_in_spec b l w : rings_ok w → r_list (bin_ring w) = b :: l →
  wpe dequeue_bin_in (λ o w', o = Some b ∧ ∃ rs, w' = set_bin_rings rs w ∧ rings_ok w' ∧
    r_list (bin_ring w') = l ∧ r_free (bin_ring w') = S (r_free (bin_ring w))) w.
Proof using.
  intros [(Ei & Eo & Hb) Hu (Hw1 & Hw2 & Hw3)] El. unfold dequeue_bin_in. wgo. rewrite Ei.
  wread by (apply arr_read_get; done). pose proof (r_dequeue_spec (bin_ring w) Hw1) as Hd. rewrite El in Hd.
  destruct Hd as (r & Er & Hr & El' & Ef). unfold bin_ring in Er at 1. rewrite Er. wgo. rewrite Ei. split; [done|].
  assert (bin_ring (set_bin_rings (arr_set (bin_rings w) bi r) w) = r) as E.
  { unfold bin_ring. wsimpl. by rewrite arr_get_set, decide_True by (done || lia). }
  eexists. split; [done|]. rewrite E. split; [|done]. split; [wsimpl; by rewrite length_arr_set|done|]. rewrite E. done.
Qed.

Lemma pass_on_bin_spec k w : out_ok k w → 0 ≤ k < 256 → rings_ok w → (0 < r_free (bin_ring w))%nat →
  wpe (pass_on_bin k) (λ _ w', ∃ rs out b, w' = set_core (set_outgoing_bins out (core w)) (set_bin_rings rs w) ∧ rings_ok w' ∧
    out_ok (k + 1) w' ∧ bin_wf b ∧ r_list (bin_ring w') = r_list (bin_ring w) ++ [b] ∧
    r_free (bin_ring w) = S (r_free (bin_ring w')) ∧ wait_out w ≡ₚ lev k (bin_flows b) ++ wait_out w') w.
Proof using.
  intros [Hl Ho] Hk Hr Hfree. pose proof (Ho k Hk) as Hok. rewrite decide_False in Hok by lia. destruct Hok as (b & Eb & Hb & _).
  destruct (row_split out_flows (outgoing_bins (core w)) k Hk Hl) as (rest & Er & Er'). rewrite Eb in Er.
  unfold pass_on_bin. wgo. wread by (apply arr_read_get; lia). wgo. wread by exact Eb. wgo.
  eapply wpe_mono; [by apply enqueue_bin_out_spec|]. intros [] w1 (rs & -> & Hr1 & El & Ef). wgo.
  eexists rs, _, b. split; [done|]. split; [by destruct Hr1|]. split; [|split; [done|split; [exact El|split; [exact Ef|]]]].
  - split; wsimpl; [by rewrite length_arr_set|]. intros j Hj. rewrite arr_get_set by lia. destruct (decide (k = j)) as [->|Hne].
    + by rewrite decide_True by lia.
    + pose proof (Ho j Hj) as Hoj. destruct (decide (j < k)); [by rewrite decide_True by lia|by rewrite decide_False by lia].
  - unfold wait_out at 2. wsimpl. rewrite Er'. unfold wait_out. rewrite Er. done.
Qed.

(** ** The loop over the bins

    [ins] are the bins that have not arrived yet, [outs] those that were passed on. *)
Definition binning_world w fl tslots bs adm out nw tmp rs : world :=
  set_bin_rings rs (set_core (set_temporary_bins tmp (set_new_request_bins nw (core (binned_world w fl tslots bs adm out))))
    (binned_world w fl tslots bs adm out)).

Record binning w0 (i m k c : Z) ins outs w : Prop := {
  bg_frame : ∃ fl tslots bs adm out nw tmp rs, w = binning_world w0 fl tslots bs adm out nw tmp rs;
  bg_engine : engine_ok 0 w;
  bg_rings : rings_ok w;
  bg_new : new_ok w;
  bg_out : out_ok k w;
  bg_done : ∀ j, 0 ≤ j < m → bin_flows (new_bin w j) = [];
  bg_ring : r_list (bin_ring w) = ins ++ outs ∧ Z.of_nat (length ins) = 256 - i ∧ Z.of_nat (length outs) = k;
  bg_bins : Forall bin_wf (ins ++ outs);
  bg_room : (256 ≤ r_free (bin_ring w) + length (ins ++ outs))%nat;
  bg_placed : placed nn (backlog w) (spread bin_flows (seqZ i (256 - i)) ins ++ spread bin_flows (seqZ 0 k) outs ++ wait_new w ++ wait_out w);
  bg_stuck : ∀ f, f ∈ (spread bin_flows (seqZ 0 k) outs ++ wait_out w).*2 → stuck 0 f w;
  bg_last : ∀ f, f ∈ history (new_bin w 255) → f ∈ bin_flows (new_bin w 255) ∨ f ∈ (spread bin_flows (seqZ 0 k) outs ++ wait_out w).*2;
  bg_tmp : Z.of_nat (length (temporary_bins (core w))) = 256 ∧
    ∀ j, 0 ≤ j < c → ∃ b, arr_get (temporary_bins (core w)) j = Some b ∧ bin_wf b;
  bg_evolves : evolves 0 w0 w;
}.

Lemma spread_snoc n bs b : 0 ≤ n → Z.of_nat (length bs) = n →
  spread bin_flows (seqZ 0 (n + 1)) (bs ++ [b]) = spread bin_flows (seqZ 0 n) bs ++ lev n (bin_flows b).
Proof using.
  intros Hn Hl. unfold spread. rewrite seqZ_app by lia. rewrite zip_with_app by (rewrite length_seqZ; lia). rewrite concat_app.
  simpl. by rewrite app_nil_r.
Qed.

(** What an allocated bin means for the flows that were stuck or are in the last bin. *)
Lemma allocated_stuck k i fs P S w w' : (∀ f, f ∈ (S ++ wait_out w).*2 → stuck 0 f w) → allocated_bin k 0 i fs P w w' →
  ∀ f, f ∈ (S ++ wait_out w').*2 → stuck 0 f w'.
Proof using Hnn.
  intros Hs Hab f. pose proof (ab_ok _ _ _ _ _ _ _ Hab). pose proof (ab_evolves _ _ _ _ _ _ _ Hab).
  rewrite fmap_app, elem_of_app. intros [Hf|Hf].
  - eapply stuck_evolves; [done|lia|done|]. apply Hs. rewrite fmap_app, elem_of_app. by left.
  - destruct (ab_stuck _ _ _ _ _ _ _ Hab f Hf) as [Hf'|]; [|done]. eapply stuck_evolves; [done|lia|done|].
    apply Hs. rewrite fmap_app, elem_of_app. by right.
Qed.

Lemma seqZ_first i n : 0 < n → seqZ i n = i :: seqZ (i + 1) (n - 1).
Proof using. intros Hn. by rewrite seqZ_cons by lia. Qed.

Lemma bin_rounds_bound b : bin_wf b → (length (bin_flows b) ≤ bin_rounds)%nat.
Proof using.
  intros Hb. pose proof (length_history b Hb) as Hl. destruct Hb as (? & ? & ?). unfold bin_flows. rewrite length_drop.
  assert (Z.of_nat bin_rounds = 2 ^ 16) by (unfold bin_rounds; by rewrite Z2Nat.id). lia.
Qed.

(** The next bin arrives and is allocated. *)
Lemma take_bin_spec w0 i m k c b ins outs fuel w : binning w0 i m k c (b :: ins) outs w → 0 ≤ i → k ≤ Z.max 0 (i - 64) →
  wpe (bin_in ← wait_for_bin fuel i; try_allocation_bin bin_rounds bin_in)
    (λ b' w', bin_wf b' ∧ binning w0 (i + 1) m k c ins outs w') w.
Proof using Hnn.
  intros [(fl & la & bs & adm & out & nw & tmp & rs & E) He Hr Hn Ho Hd (Hl & Hli & Hlo) Hb Hroom Hp Hst Hlast Htmp Hev] Hi Hk.
  simpl length in Hli. apply Forall_cons in Hb as [Hb Hbs]. apply wpe_bind.
  assert (wpe (wait_for_bin fuel i) (λ b' w', b' = b ∧ ∃ rs, w' = set_bin_rings rs w ∧ rings_ok w' ∧
    r_list (bin_ring w') = ins ++ outs ∧ r_free (bin_ring w') = S (r_free (bin_ring w))) w) as Hwait.
  { destruct fuel; cbn [wait_for_bin]; apply wpe_bind; (eapply wpe_mono; [by apply (dequeue_bin_in_spec b (ins ++ outs))|]); by intros o w' [-> Hw']. }
  eapply wpe_mono; [exact Hwait|]. intros b' w1 (-> & rs1 & E1 & Hr1 & El1 & Ef1).
  rewrite (seqZ_first i) in Hp by lia. replace (256 - i - 1) with (256 - (i + 1)) in Hp by lia.
  change (spread bin_flows (i :: ?l) (b :: ins)) with (lev i (bin_flows b) ++ spread bin_flows l ins) in Hp.
  set (P := spread bin_flows (seqZ (i + 1) (256 - (i + 1))) ins ++ spread bin_flows (seqZ 0 k) outs ++ wait_new w).
  eapply wpe_mono; [apply (try_allocation_bin_spec k 0 i P)|].
  - lia.
  - lia.
  - by apply bin_rounds_bound.
  - done.
  - rewrite E1. by apply (engine_ok_same 0 w).
  - by rewrite E1.
  - rewrite E1. eapply placed_perm; [|exact Hp]. change (wait_out (set_bin_rings rs1 w)) with (wait_out w). unfold P. perm.
  - intros b2 w2 (Hb2 & _ & _ & Hab). split; [done|]. destruct (ab_frame _ _ _ _ _ _ _ Hab) as (fl2 & la2 & bs2 & adm2 & out2 & E2).
    assert (wait_new w2 = wait_new w) as Ewn by (by rewrite E2, E1). assert (∀ j, new_bin w2 j = new_bin w j) as Enb by (by rewrite E2, E1).
    assert (bin_ring w2 = bin_ring w1) as Erb by (by rewrite E2). assert (wait_out w1 = wait_out w) as Ewo by (by rewrite E1).
    split.
    + exists fl2, la2, bs2, adm2, out2, nw, tmp, rs1. by rewrite E2, E1, E.
    + apply (ab_ok _ _ _ _ _ _ _ Hab).
    + rewrite E2. by destruct Hr1.
    + rewrite E2, E1. exact Hn.
    + apply (ab_out _ _ _ _ _ _ _ Hab).
    + intros j Hj. rewrite Enb. by apply Hd.
    + rewrite Erb, El1. split; [done|lia].
    + done.
    + rewrite Erb, Ef1. simpl in Hroom. lia.
    + rewrite Ewn. eapply placed_perm; [|apply (ab_placed _ _ _ _ _ _ _ Hab)]. unfold P. by rewrite <- !app_assoc.
    + eapply allocated_stuck; [|exact Hab]. rewrite E1. exact Hst.
    + intros f. rewrite Enb. intros Hf. destruct (Hlast f Hf) as [|Hf']; [by left|]. right. rewrite fmap_app, elem_of_app in *.
      destruct Hf' as [|Hf']; [by left|]. right. apply (ab_kept _ _ _ _ _ _ _ Hab). by rewrite Ewo.
    + rewrite E2, E1. exact Htmp.
    + eapply evolves_trans; [exact Hev|]. eapply evolves_trans; [|apply (ab_evolves _ _ _ _ _ _ _ Hab)]. rewrite E1. by apply evolves_same.
Qed.

(** The new requests of a bin are allocated; [r] comes after that. *)
Lemma serve_new_spec w0 i m k c ins outs w (r : M False world unit) Q : binning w0 i m k c ins outs w → 0 ≤ m < 256 → k ≤ Z.max 0 (m - 64) →
  (∀ w', binning w0 i (m + 1) k c ins outs w' → wpe r Q w') →
  wpe (w ← get;
    new ← deref (arr_read (new_request_bins (core w)) m);
    new ← try_allocation_bin bin_rounds new;
    modify (λ w, set_core (set_new_request_bins (arr_set (new_request_bins (core w)) m new) (core w)) w);; r) Q w.
Proof using Hnn.
  intros [(fl & la & bs & adm & out & nw & tmp & rs & E) He Hr [Hnl Hn] Ho Hd Hl Hb Hroom Hp Hst Hlast Htmp Hev] Hm Hk Hnext.
  destruct (Hn m Hm) as (Hbm & Hndm & Hokm). destruct (row_split bin_flows (new_request_bins (core w)) m Hm Hnl) as (rest & Er & Er').
  fold (new_bin w m) in Er. wgo. wread by (apply arr_read_get; lia). wgo. fold (new_bin w m).
  set (P := spread bin_flows (seqZ i (256 - i)) ins ++ spread bin_flows (seqZ 0 k) outs ++ rest).
  eapply wpe_mono; [apply (try_allocation_bin_spec k 0 m P); [lia|lia|by apply bin_rounds_bound|done..|]|].
  { eapply placed_perm; [|exact Hp]. unfold wait_new. rewrite Er. unfold P. perm. }
  intros b w1 (Hb1 & Ef1 & Eh1 & Hab). apply wpe_bind, wpe_modify, Hnext. destruct (ab_frame _ _ _ _ _ _ _ Hab) as (fl1 & la1 & bs1 & adm1 & out1 & E1).
  assert (new_request_bins (core w1) = new_request_bins (core w)) as Enr by (by rewrite E1). rewrite Enr.
  set (w2 := set_core (set_new_request_bins (arr_set (new_request_bins (core w)) m b) (core w1)) w1).
  assert (∀ j, 0 ≤ j < 256 → new_bin w2 j = if decide (m = j) then b else new_bin w j) as Enb.
  { intros j Hj. unfold new_bin, w2. wsimpl. by rewrite arr_get_set by lia. }
  assert (wait_new w2 ≡ₚ rest) as Ewn.
  { unfold wait_new, w2. wsimpl. rewrite Er', Ef1. done. }
  assert (bin_ring w2 = bin_ring w) as Erb by (unfold w2; by rewrite E1).
  split.
  - exists fl1, la1, bs1, adm1, out1, (arr_set (new_request_bins (core w)) m b), tmp, rs. unfold w2. by rewrite E1, E.
  - apply (engine_ok_same 0 w1); [done..|]. apply (ab_ok _ _ _ _ _ _ _ Hab).
  - unfold w2. rewrite E1. by destruct Hr.
  - split; [unfold w2; wsimpl; by rewrite length_arr_set|]. intros j Hj. rewrite Enb by done. destruct (decide (m = j)) as [<-|]; [|by apply Hn].
    by rewrite Eh1.
  - apply (ab_out _ _ _ _ _ _ _ Hab).
  - intros j Hj. rewrite Enb by lia. destruct (decide (m = j)); [done|]. apply Hd. lia.
  - by rewrite Erb.
  - done.
  - by rewrite Erb.
  - assert (backlog w2 = backlog w1) as -> by done. eapply placed_perm; [|apply (ab_placed _ _ _ _ _ _ _ Hab)].
    change (wait_out w2) with (wait_out w1). rewrite Ewn. unfold P. by rewrite <- !app_assoc.
  - exact (allocated_stuck _ _ _ _ _ _ _ Hst Hab).
  - intros f. rewrite Enb by lia. change (wait_out w2) with (wait_out w1). destruct (decide (m = 255)) as [->|Hne].
    + rewrite Eh1. intros Hf. right. rewrite fmap_app, elem_of_app. destruct (Hlast f Hf) as [Hf'|Hf'].
      * right. by apply (ab_all _ _ _ _ _ _ _ Hab).
      * rewrite fmap_app, elem_of_app in Hf'. destruct Hf' as [|Hf']; [by left|right]. by apply (ab_kept _ _ _ _ _ _ _ Hab).
    + intros Hf. destruct (Hlast f Hf) as [|Hf']; [by left|right]. rewrite fmap_app, elem_of_app in *.
      destruct Hf' as [|Hf']; [by left|right]. by apply (ab_kept _ _ _ _ _ _ _ Hab).
  - unfold w2. rewrite E1. exact Htmp.
  - eapply evolves_trans; [exact Hev|]. eapply evolves_trans; [apply (ab_evolves _ _ _ _ _ _ _ Hab)|]. by apply evolves_same.
Qed.

(** A bin is passed on. *)
Lemma binning_pass w0 i m k c ins outs w : binning w0 i m k c ins outs w → 0 ≤ k < 256 → k < i →
  wpe (pass_on_bin k) (λ _ w', ∃ b, binning w0 i m (k + 1) c ins (outs ++ [b]) w') w.
Proof using Hnn.
  intros [(fl & la & bs & adm & out & nw & tmp & rs & E) He Hr Hn Ho Hd (Hl & Hli & Hlo) Hb Hroom Hp Hst Hlast Htmp Hev] Hk Hi.
  rewrite length_app in Hroom.
  eapply wpe_mono; [apply (pass_on_bin_spec k w Ho Hk Hr); lia|].
  intros [] w1 (rs1 & out1 & b & E1 & Hr1 & Ho1 & Hbw & El1 & Ef1 & Ewo). exists b.
  assert (wait_new w1 = wait_new w) as Ewn by (by rewrite E1). assert (∀ j, new_bin w1 j = new_bin w j) as Enb by (by rewrite E1).
  assert (∀ f, f ∈ (spread bin_flows (seqZ 0 (k + 1)) (outs ++ [b]) ++ wait_out w1).*2 ↔
    f ∈ (spread bin_flows (seqZ 0 k) outs ++ wait_out w).*2) as Ein.
  { intros f. rewrite spread_snoc, Ewo by lia. by rewrite <- app_assoc. }
  split; rewrite ?Enb.
  - exists fl, la, bs, adm, out1, nw, tmp, rs1. by rewrite E1, E.
  - rewrite E1. by apply (engine_ok_same 0 w).
  - done.
  - by rewrite E1.
  - done.
  - intros j Hj. rewrite Enb. by apply Hd.
  - rewrite El1, Hl, length_app, app_assoc. simpl. split; [done|lia].
  - rewrite app_assoc. apply Forall_app. split; [done|by apply Forall_singleton].
  - rewrite !length_app. simpl. lia.
  - rewrite Ewn, spread_snoc by lia. assert (backlog w1 = backlog w) as -> by (by rewrite E1). eapply placed_perm; [|exact Hp]. rewrite Ewo. perm.
  - intros f Hf%Ein. rewrite E1. by apply Hst.
  - intros f Hf. destruct (Hlast f Hf); [by left|right]. by apply Ein.
  - by rewrite E1.
  - eapply evolves_trans; [exact Hev|]. rewrite E1. by apply evolves_same.
Qed.

Lemma process_bin_spec w0 i ins outs w : 0 ≤ i < 256 → binning w0 i i (Z.max 0 (i - 64)) i ins outs w →
  wpe (process_bin i) (λ _ w', ∃ ins' outs', binning w0 (i + 1) (i + 1) (Z.max 0 (i + 1 - 64)) (i + 1) ins' outs' w') w.
Proof using Hnn.
  intros Hi Hw. destruct ins as [|b ins]; [destruct (bg_ring _ _ _ _ _ _ _ _ Hw) as (_ & ? & _); simpl in *; lia|].
  unfold process_bin. apply wpe_bind, wpe_get, wpe_bind2. eapply wpe_mono; [eapply take_bin_spec; [exact Hw|lia|lia]|].
  intros b1 w1 [Hb1 Hw1]. apply (serve_new_spec w0 (i + 1) i (Z.max 0 (i - 64)) i ins outs); [done|lia|lia|]. intros w2 Hw2.
  assert (∀ k outs' w3, k = Z.max 0 (i + 1 - 64) → binning w0 (i + 1) (i + 1) k i ins outs' w3 →
    wpe (modify (λ w, set_core (set_temporary_bins (arr_set (temporary_bins (core w)) i (Some b1)) (core w)) w))
      (λ _ w', ∃ ins' outs', binning w0 (i + 1) (i + 1) (Z.max 0 (i + 1 - 64)) (i + 1) ins' outs' w') w3) as Hlast.
  { intros k outs' w3 -> Hw3. wgo. exists ins, outs'.
    destruct Hw3 as [(fl & la & bs & adm & out & nw & tmp & rs & E) He Hr Hn Ho Hd Hl Hb Hroom Hp Hst Hlast [Htl Htmp] Hev]. split; try done.
    - exists fl, la, bs, adm, out, nw, (arr_set (temporary_bins (core w3)) i (Some b1)), rs. by rewrite E.
    - by apply (engine_ok_same 0 w3).
    - by destruct Hr.
    - split; wsimpl; [by rewrite length_arr_set|]. intros j Hj. rewrite arr_get_set by lia. destruct (decide (i = j)); [by exists b1|]. apply Htmp. lia.
    - eapply evolves_trans; [exact Hev|]. by apply evolves_same. }
  apply wpe_bind, wpe_when; unfold BATCH_SIZE; intros Hc.
  - apply Z.geb_le in Hc. rewrite Z.max_r in Hw2 by lia. eapply wpe_mono; [eapply binning_pass; [exact Hw2|lia|lia]|].
    intros [] w3 [b3 Hw3]. eapply Hlast, Hw3. lia.
  - rewrite Z.geb_leb, Z.leb_gt in Hc. eapply Hlast, Hw2. lia.
Qed.

Lemma each_bin_spec (f : Z → M False world unit) (I : Z → world → Prop) n : ∀ i w, I i w → 0 ≤ n →
  (∀ j w, i ≤ j < i + n → I j w → wpe (f j) (λ _ w', I (j + 1) w') w) → wpe (each_bin f (seqZ i n)) (λ _ w', I (i + n) w') w.
Proof using.
  intros i w Hw Hn. revert i w Hw. pattern n. apply natlike_ind; [|clear n Hn|done].
  - intros i w Hw _. rewrite Z.add_0_r. done.
  - intros n Hn IH i w Hw Hf. rewrite seqZ_first by lia. replace (Z.succ n - 1) with n by lia. cbn [each_bin]. apply wpe_bind.
    eapply wpe_mono; [apply Hf; [lia|done]|]. intros [] w1 Hw1. replace (i + Z.succ n) with (i + 1 + n) by lia. apply IH; [done|].
    intros j w2 Hj. apply Hf. lia.
Qed.

Lemma sjf_process_bins_spec w0 ins w : binning w0 0 0 0 0 ins [] w →
  wpe (each_bin process_bin (seqZ 0 NUM_BINS)) (λ _ w', ∃ outs, binning w0 256 256 192 256 [] outs w') w.
Proof using Hnn.
  intros Hw. eapply wpe_mono.
  - apply (each_bin_spec process_bin (λ i w, ∃ ins' outs', binning w0 i i (Z.max 0 (i - 64)) i ins' outs' w)); [by exists ins, []|done|].
    intros j w1 Hj (ins1 & outs1 & Hw1). by eapply process_bin_spec.
  - intros [] w1 (ins1 & outs1 & Hw1). change (0 + NUM_BINS) with 256 in Hw1. change (Z.max 0 (256 - 64)) with 192 in Hw1.
    destruct ins1 as [|b l]; [by exists outs1|]. destruct (bg_ring _ _ _ _ _ _ _ _ Hw1) as (_ & Hl & _). simpl in Hl. lia.
Qed.

End batch.
