(* ===== verification/SjfPacing.v ===== *)
(** * Shortest job first: the output of a batch

    The second half of a batch: the timeslots are output one by one, at their times, and
    new demand is served meanwhile from those that are left; then the bins are passed on. *)

From S2P Require Import Prelude Platform Lists Pacer Ring Sjf SjfFacts SjfBatch.
Import Sjf.

(** Demands that are still to come. *)
Definition pending (es : list event) (f : flow) : Z := sum_of (λ e, demanded (ev_demands e) f) es.
Definition num_demands (es : list event) : nat := length (concat (ev_demands <$> es)).

(** ** When demand may arrive

    A flow that starts to wait while timeslot [b] is due is only found if its bin was
    passed, or is the last one. *)
Definition on_time (b : Z) (e : event) : bool := forallb (λ d, let n := demanded (ev_demands e) (demand_of d) in (n <=? b) || (256 <=? n)) (ev_demands e).

(** The events after the start of a timeslot. *)
Fixpoint paced (tslot_mul tslot_shift b start : Z) (es : list event) : option (list event) :=
  match es with
  | [] => None
  | e :: es' =>
      if negb (on_time b e) then None
      else if Z.shiftr (u64 (ev_time e * tslot_mul)) tslot_shift <? start then paced tslot_mul tslot_shift b start es' else Some es'
  end.

(** The events after those of the timeslots of a batch; [None] if they do not suffice. *)
Fixpoint paced_batch (first_timeslot tslot_mul tslot_shift : Z) (bins : list Z) (es : list event) : option (list event) :=
  match bins with
  | [] => Some es
  | b :: bins' =>
      es' ← (if b mod 4 =? 0 then paced tslot_mul tslot_shift b (u64 (first_timeslot + b)) es else Some es);
      paced_batch first_timeslot tslot_mul tslot_shift bins' es'
  end.

Section pacing.
Context (nn cap : Z) (Hnn : 0 ≤ nn ≤ 255) (bi ui : Z).
Context {Rb Re Ra : Type} `{Ring Rb bin} `{Ring Re Z} `{Ring Ra admitted_traffic} `{!Inhabited Rb} `{!Inhabited Re}.
Abbreviation world := (world Rb Re Ra).
Abbreviation engine_ok := (engine_ok nn cap).
Abbreviation placed := (placed nn).
Abbreviation new_ok := (new_ok nn).
Abbreviation rings_ok := (rings_ok bi ui).
Abbreviation urgent_ring := (urgent_ring ui).
Abbreviation bin_ring := (bin_ring bi).
Abbreviation demands_ok := (demands_ok nn).
Implicit Types (w : world) (f g : flow).

(** ** The state while the timeslots are output

    [w2] is the state after the loop over the bins, [R] the flows in the bins that were
    passed on, [T] what is demanded and admitted of each flow in total, [Q] the flows
    that have just arrived. *)
Definition pacing_world w fl tslots bs adm nw urs q qo es : world :=
  set_script es (set_q_admitted_out qo (set_q_head q (set_urgent_rings urs
    (set_core (set_new_request_bins nw (core (served_world w fl tslots bs adm))) (served_world w fl tslots bs adm))))).

Record pacing w2 R T (t : Z) Q w : Prop := {
  pg_frame : ∃ fl tslots bs adm nw urs q qo es, w = pacing_world w2 fl tslots bs adm nw urs q qo es;
  pg_engine : engine_ok t w;
  pg_rings : rings_ok w;
  pg_new : new_ok w;
  pg_done : ∀ j, 0 ≤ j < 255 → bin_flows (new_bin w j) = [];
  pg_last : ∀ f, f ∈ history (new_bin w 255) → f ∈ bin_flows (new_bin w 255) ∨ f ∈ (R ++ wait_out w2).*2;
  pg_places : ∃ U, r_list (urgent_ring w) = edge_of <$> U ∧ placed (backlog w) (lev 0 Q ++ U ++ R ++ wait_new w ++ wait_out w2);
  pg_room : (S (num_demands (script w) + length Q) ≤ r_free (urgent_ring w))%nat;
  pg_out : r_list (q_admitted_out w) = r_list (q_admitted_out w2) ++ take (Z.to_nat t) (admitted (core w));
  pg_out_room : 64 - t ≤ Z.of_nat (r_free (q_admitted_out w));
  pg_total : ∀ f, flow_ok nn f → backlog w f + served (admitted (core w)) f + pending (script w) f = T f;
  pg_grow : ∀ u, 0 ≤ u < 64 → arr_get (admitted (core w2)) u `prefix_of` arr_get (admitted (core w)) u;
  pg_demands : Forall (λ e, demands_ok (ev_demands e)) (script w);
}.

Lemma history_bin_flows b b' f : bin_wf b → head b' = head b → history b' = history b ++ [f] → bin_flows b' = bin_flows b ++ [f].
Proof using.
  intros Hb Hh E. pose proof (length_history b Hb). destruct Hb as (? & ? & ?). unfold bin_flows. rewrite Hh, E. apply drop_app_le. lia.
Qed.

Lemma take_past t (l l' : list (list flow)) : 0 ≤ t ≤ Z.of_nat (length l) → length l' = length l →
  (∀ u, 0 ≤ u < t → arr_get l' u = arr_get l u) → take (Z.to_nat t) l' = take (Z.to_nat t) l.
Proof using.
  intros Ht Hl Hu. apply list_eq. intros i. destruct (decide (i < Z.to_nat t)%nat) as [Hi|Hi].
  - rewrite !lookup_take_lt by done. specialize (Hu (Z.of_nat i) ltac:(lia)). unfold arr_get in Hu. rewrite Nat2Z.id in Hu.
    rewrite !list_lookup_lookup_total_lt by lia. by rewrite Hu.
  - rewrite !lookup_take_ge by lia. done.
Qed.

(** A flow whose bin was passed is served at once; what is left is passed on as urgent. *)
Lemma pacing_serve w2 R T t f Q w : 0 ≤ t ≤ 64 → pacing w2 R T t (f :: Q) w → level (backlog w f) < t →
  wpe (process_one_new_request f.1 f.2 (level (backlog w f)) t) (λ _ w', pacing w2 R T t Q w' ∧ script w' = script w ∧
    q_head w' = q_head w ∧ ∀ g, flow_ok nn g → g ≠ f → backlog w' g = backlog w g) w.
Proof using Hnn.
  intros Ht [(fl & la & bs & adm & nw & urs & q & qo & es & E) He Hr Hn Hd Hlast (U & EU & Hp) Hroom Hout Hor Htot Hgr Hdem] Hlt.
  unfold process_one_new_request. rewrite (proj2 (Z.ltb_lt _ _)) by done. destruct (pl_bin _ _ _ Hp 0 f) as (Hf & _ & Hpos); [by left|].
  apply wpe_bind. eapply wpe_mono; [by apply (sjf_try_allocation_spec nn cap Hnn t f w Ht Hf He)|]. intros rc w1 (k & Hal & Hk & Hrc).
  pose proof (al_ok _ _ _ _ _ _ _ Hal) as He1. destruct (al_frame _ _ _ _ _ _ _ Hal) as (fl1 & la1 & bs1 & adm1 & E1).
  pose proof (al_backlog _ _ _ _ _ _ _ Hal) as HB1. pose proof (HB1 f Hf) as Ef. rewrite decide_True in Ef by done.
  pose proof (en_backlog _ _ _ _ He1 f Hf) as Hb1. pose proof (allocated_evolves _ _ _ _ _ _ _ Hal) as Hev.
  destruct (placed_serve nn (backlog w) (backlog w1) (lev 0 Q ++ U ++ R ++ wait_new w ++ wait_out w2) 0 f k) as [P0 P1]; [exact Hp|lia|exact HB1|].
  assert (∀ rs U', rings_ok (set_urgent_rings rs w1) → r_list (urgent_ring (set_urgent_rings rs w1)) = edge_of <$> U' →
    placed (backlog w1) (lev 0 Q ++ U' ++ R ++ wait_new w ++ wait_out w2) →
    (S (num_demands (script w) + length Q) ≤ r_free (urgent_ring (set_urgent_rings rs w1)))%nat →
    pacing w2 R T t Q (set_urgent_rings rs w1)) as Hdone.
  { intros rs U' Hr' EU' Hp' Hroom'. destruct (bo_len _ _ _ _ _ (en_batch _ _ _ _ He)) as (_ & _ & _ & Hla).
    destruct (bo_len _ _ _ _ _ (en_batch _ _ _ _ He1)) as (_ & _ & _ & Hla1). split.
    - exists fl1, la1, bs1, adm1, nw, rs, q, qo, es. by rewrite E1, E.
    - by apply (engine_ok_same nn cap t w1).
    - done.
    - rewrite E1. exact Hn.
    - rewrite E1. exact Hd.
    - rewrite E1. exact Hlast.
    - exists U'. split; [done|]. by rewrite E1 in *.
    - rewrite E1 in *. exact Hroom'.
    - wsimpl. rewrite (take_past t (admitted (core w))); [|lia|lia|apply (ev_past _ _ _ _ Hev)]. by rewrite E1.
    - rewrite E1. exact Hor.
    - intros g Hg. pose proof (ev_total _ _ _ _ Hev g Hg) as Et. specialize (Htot g Hg). wsimpl.
      change (backlog (set_urgent_rings rs w1) g) with (backlog w1 g). assert (script w1 = script w) as -> by (by rewrite E1). lia.
    - intros u Hu. wsimpl. etrans; [by apply Hgr|by apply (ev_grow _ _ _ _ Hev)].
    - rewrite E1. exact Hdem. }
  assert (∀ g, flow_ok nn g → g ≠ f → backlog w1 g = backlog w g) as Hoth by (intros g Hg Hne; by rewrite HB1, decide_False).
  assert (urgent_ring w1 = urgent_ring w) as Eu1 by (by rewrite E1). cbn [length] in Hroom.
  assert (rings_ok w1) as Hr1 by (rewrite E1; by destruct Hr).
  destruct Hrc as [[-> E0]|(-> & Hpos1 & _)]; cbn [Z.eqb].
  - apply wpe_when; [done|intros _]. specialize (Hdone (urgent_rings w1) U). replace (set_urgent_rings (urgent_rings w1) w1) with w1 in Hdone by (by destruct w1).
    split; [apply Hdone; [done|by rewrite Eu1|by apply P0|rewrite Eu1; lia]|]. split_and!; [by rewrite E1..|done].
  - apply wpe_when; [intros _|done]. wgo. wread by exact (sjf_bin_index_spec nn cap Hnn t f w1 He1 Hf Hpos1).
    eapply wpe_mono; [apply (enqueue_urgent_spec bi ui _ w1 Hr1); rewrite Eu1; lia|]. intros [] w3 (rs & -> & Hr3 & El3 & Ef3).
    split; [|split_and!; [by rewrite E1..|exact Hoth]]. apply (Hdone rs (U ++ [(level (backlog w1 f), f)])); [done|..].
    + rewrite El3, Eu1, EU, fmap_app. done.
    + eapply placed_perm; [|apply (P1 (level (backlog w1 f))); unfold level; lia]. perm.
    + rewrite Eu1 in Ef3. lia.
Qed.
(** A flow with a large backlog goes to the last bin. *)
Lemma pacing_new w2 R T t f Q w : 0 ≤ t ≤ 64 → pacing w2 R T t (f :: Q) w → level (backlog w f) = 255 →
  wpe (process_one_new_request f.1 f.2 (level (backlog w f)) t) (λ _ w', pacing w2 R T t Q w' ∧ script w' = script w ∧
    q_head w' = q_head w ∧ ∀ g, flow_ok nn g → g ≠ f → backlog w' g = backlog w g) w.
Proof using Hnn.
  intros Ht [(fl & la & bs & adm & nw & urs & q & qo & es & E) He Hr Hn Hd Hlast (U & EU & Hp) Hroom Hout Hor Htot Hgr Hdem] Hlv.
  rewrite Hlv. unfold process_one_new_request. rewrite (proj2 (Z.ltb_ge _ _)) by lia.
  destruct (pl_bin _ _ _ Hp 0 f) as (Hf & _ & Hpos); [by left|].
  assert (f ∉ history (new_bin w 255)) as Hnew.
  { intros Hin. destruct Hp as [Hnd _ _]. change (lev 0 (f :: Q)) with ((0, f) :: lev 0 Q) in Hnd. rewrite <- app_comm_cons, fmap_cons in Hnd.
    apply NoDup_cons in Hnd as [Hnd _]. apply Hnd. rewrite !fmap_app, !elem_of_app. right. right.
    destruct (Hlast f Hin) as [Hf'|Hf']; [right; left; by apply (elem_of_row _ _ 255); [|apply Hn|]|].
    rewrite fmap_app, elem_of_app in Hf'. destruct Hf'; [by left|by right; right]. }
  eapply wpe_mono; [by apply (enqueue_new_request_spec nn Hnn 255 f w Hn)|].
  intros [] w1 (nw1 & E1 & Hn1 & Ewn & Ehist & Hh & Hoth). cbn [length] in Hroom.
  assert (bin_flows (new_bin w1 255) = bin_flows (new_bin w 255) ++ [f]) as Ebf by (apply history_bin_flows; [apply Hn; lia|done..]).
  split; [|by rewrite E1]. split.
  - exists fl, la, bs, adm, nw1, urs, q, qo, es. by rewrite E1, E.
  - rewrite E1. by apply (engine_ok_same nn cap t w).
  - rewrite E1. by destruct Hr.
  - done.
  - intros j Hj. rewrite Hoth by lia. by apply Hd.
  - intros g. rewrite Ehist, Ebf. intros [Hg|Hg]%elem_of_app; [|left; apply elem_of_app; by right].
    destruct (Hlast g Hg); [left; apply elem_of_app; by left|by right].
  - exists U. split; [by rewrite E1|]. assert (backlog w1 = backlog w) as -> by (by rewrite E1).
    change (lev 0 (f :: Q)) with ((0, f) :: lev 0 Q) in Hp. rewrite <- app_comm_cons in Hp.
    eapply placed_perm; [|apply (placed_move nn _ _ _ 255 _ Hp); [lia|unfold level in Hlv; lia]]. rewrite Ewn. perm.
  - rewrite E1. change (urgent_ring (set_core _ w)) with (urgent_ring w). wsimpl. lia.
  - by rewrite E1.
  - by rewrite E1.
  - intros g Hg. rewrite E1. by apply Htot.
  - by rewrite E1.
  - by rewrite E1.
Qed.

(** The loop over the flows that have just arrived. *)
Definition arrived w2 R T t es Q w : Prop := pacing w2 R T t Q w ∧ script w = es ∧
  ∀ f, f ∈ Q → level (backlog w f) < t ∨ level (backlog w f) = 255.

Lemma arrived_flow w2 R T t es f Q w : 0 ≤ t ≤ 64 → arrived w2 R T t es (f :: Q) w → flow_ok nn f ∧
  wpe (bin_index ← deref (bin_index_from_src_dst (status w) f.1 f.2); process_one_new_request f.1 f.2 bin_index t)
    (λ _ w', arrived w2 R T t es Q w' ∧ q_head w' = q_head w) w.
Proof using Hnn.
  intros Ht (Hw & Hes & HQ). destruct (pg_places _ _ _ _ _ _ Hw) as (U & EU & Hp).
  destruct (pl_bin _ _ _ Hp 0 f) as (Hf & _ & Hpos); [by left|]. split; [done|]. apply wpe_bind.
  wread by exact (sjf_bin_index_spec nn cap Hnn t f w (pg_engine _ _ _ _ _ _ Hw) Hf Hpos).
  assert (∀ g, g ∈ Q → flow_ok nn g ∧ g ≠ f) as HQf.
  { intros g Hg. split.
    - apply (pl_bin _ _ _ Hp 0 g). apply elem_of_app. left. apply elem_of_lev. split; [done|by right].
    - intros ->. pose proof (pl_once _ _ _ Hp) as Hnd. rewrite fmap_app, lev_flows in Hnd. apply NoDup_app in Hnd as [Hnd _].
      apply NoDup_cons in Hnd as [Hnd _]. done. }
  assert (wpe (process_one_new_request f.1 f.2 (level (backlog w f)) t) (λ _ w', pacing w2 R T t Q w' ∧ script w' = script w ∧
    q_head w' = q_head w ∧ ∀ g, flow_ok nn g → g ≠ f → backlog w' g = backlog w g) w) as Hstep.
  { destruct (HQ f ltac:(by left)); [by apply pacing_serve|by apply pacing_new]. }
  eapply wpe_mono; [exact Hstep|]. intros [] w1 (Hw1 & Es1 & Eq1 & HB1). split; [|done]. split; [done|]. split; [congruence|].
  intros g Hg. destruct (HQf g Hg) as [Hok Hne]. rewrite HB1 by done. apply HQ. by right.
Qed.

(** Between polls: nothing has arrived. *)
Definition polled w2 R T t es w : Prop := pacing w2 R T t [] w ∧ script w = es ∧
  r_list (q_head w) = [] ∧ (num_demands es ≤ r_free (q_head w))%nat.

Lemma num_demands_cons e es : num_demands (e :: es) = (length (ev_demands e) + num_demands es)%nat.
Proof using. unfold num_demands. rewrite fmap_cons. cbn [concat]. apply length_app. Qed.
Lemma demanded_zero l f : (∀ d, d ∈ l → demand_of d ≠ f) → demanded l f = 0.
Proof using.
  induction l as [|d l IH]; intros Hl; [done|]. change (demanded (d :: l) f) with ((if decide (demand_of d = f) then d.2 else 0) + demanded l f).
  rewrite decide_False by (apply Hl; by left). rewrite IH; [done|]. intros d' Hd'. apply Hl. by right.
Qed.

Lemma on_time_demanded t e f : on_time t e = true → demanded (ev_demands e) f ≠ 0 → demanded (ev_demands e) f ≤ t ∨ 256 ≤ demanded (ev_demands e) f.
Proof using.
  unfold on_time. rewrite forallb_forall. intros Hall Hne. destruct (decide (Exists (λ d, demand_of d = f) (ev_demands e))) as [Hex|Hnex].
  - apply Exists_exists in Hex as (d & Hd & <-). specialize (Hall d (proj1 (list_elem_of_In _ _) Hd)). cbv zeta in Hall.
    apply orb_true_iff in Hall as [Hl|Hl]; apply Z.leb_le in Hl; [by left|by right].
  - destruct Hne. apply demanded_zero. intros d Hd E. apply Hnex, Exists_exists. by exists d.
Qed.

Lemma pending_nonneg es f : Forall (λ e, demands_ok (ev_demands e)) es → 0 ≤ pending es f.
Proof using.
  induction 1 as [|e es He _ IH]; [done|]. change (pending (e :: es) f) with (demanded (ev_demands e) f + pending es f).
  enough (0 ≤ demanded (ev_demands e) f) by lia. apply demanded_nonneg. eapply Forall_impl; [exact He|]. by intros d [_ Hd].
Qed.

Lemma times_nonneg a f : 0 ≤ times a f.
Proof using. apply sum_of_nonneg. intros g. by case_bool_decide. Qed.

Lemma served_nonneg adm f : 0 ≤ served adm f.
Proof using. apply sum_of_nonneg. intros a. apply times_nonneg. Qed.

Section poll.
Context (w2 : world) (R : list (Z * flow)) (T : flow → Z).
Hypothesis is_head_w2 : is_head (core w2) = true.
Hypothesis T_bound : ∀ f, flow_ok nn f → T f < 2 ^ 31.

Lemma observe_paced t e es w : 0 ≤ t ≤ 64 → polled w2 R T t (e :: es) w → on_time t e = true →
  wpe observe (λ now w', now = ev_time e ∧ ∃ Q, arrived w2 R T t es Q w' ∧ r_list (q_head w') = edge0 <$> Q ∧
    (num_demands es ≤ r_free (q_head w'))%nat) w.
Proof using Hnn T_bound.
  intros Ht (Hw & Es & Eq & Hfree) Hon. rewrite num_demands_cons in Hfree.
  destruct Hw as [(fl & la & bs & adm & nw & urs & q & qo & es' & E) He Hr Hn Hd Hlast (U & EU & Hp) Hroom Hout Hor Htot Hgr Hdem].
  rewrite Es in *. apply Forall_cons in Hdem as [Hde Hdem]. rewrite num_demands_cons in Hroom. cbn [length] in Hroom.
  assert (∀ f, flow_ok nn f → backlog w f + demanded (ev_demands e) f + pending es f ≤ T f) as HT.
  { intros f Hf. rewrite <- Htot by done. change (pending (e :: es) f) with (demanded (ev_demands e) f + pending es f).
    pose proof (served_nonneg (admitted (core w)) f). lia. }
  eapply wpe_mono; [eapply (observe_spec nn Hnn (U ++ R ++ wait_new w ++ wait_out w2) e es w []); [done|apply (en_flows _ _ _ _ He)|apply (ri_wf _ _ _ Hr)|exact Eq|lia|exact Hp|exact Hde|]|].
  { intros f Hf. specialize (HT f Hf). specialize (T_bound f Hf). pose proof (pending_nonneg es f Hdem). lia. }
  intros now w1 (-> & fl1 & q1 & Qn & E1 & Lf & Hq & El & Ln & Hf1 & Hp1 & HB & HQ). split; [done|]. exists Qn. cbn [app] in *.
  split; [|rewrite E1; split; [done|wsimpl; lia]]. split; [|split; [by rewrite E1|]].
  - split.
    + exists fl1, la, bs, adm, nw, urs, q1, qo, es. by rewrite E1, E.
    + destruct He as [He1 He2 He3 He4]. split; [rewrite E1; wsimpl; by rewrite Lf|by rewrite E1|by rewrite E1|].
      intros f Hf. destruct (pl_all _ _ _ Hp1 f Hf) as [? _]. rewrite HB in * by done. specialize (HT f Hf). specialize (T_bound f Hf).
      pose proof (pending_nonneg es f Hdem). lia.
    + rewrite E1. by destruct Hr as [? ? (? & ? & ? & ?)].
    + by rewrite E1.
    + by rewrite E1.
    + by rewrite E1.
    + exists U. split; [by rewrite E1|]. assert (wait_new w1 = wait_new w) as -> by (by rewrite E1). exact Hp1.
    + rewrite E1. change (urgent_ring (set_q_head _ _)) with (urgent_ring w). wsimpl. lia.
    + by rewrite E1.
    + by rewrite E1.
    + intros f Hf. rewrite HB by done. rewrite E1. wsimpl. rewrite <- Htot by done.
      change (pending (e :: es) f) with (demanded (ev_demands e) f + pending es f). lia.
    + by rewrite E1.
    + by rewrite E1.
  - intros f Hf. pose proof (HQ f Hf) as E0. destruct (pl_bin _ _ _ Hp1 0 f) as (Hok & _ & Hpos).
    { apply elem_of_app. left. by apply elem_of_lev. }
    rewrite HB, E0, Z.add_0_l in * by done. destruct (on_time_demanded t e f Hon); unfold level; lia.
Qed.

Lemma sjf_poll_spec t e es w : 0 ≤ t ≤ 64 → polled w2 R T t (e :: es) w → on_time t e = true →
  wpe (process_new_requests t) (λ now w', now = ev_time e ∧ polled w2 R T t es w') w.
Proof using Hnn T_bound is_head_w2.
  intros Ht Hw Hon. unfold process_new_requests. apply wpe_bind. eapply wpe_mono; [by apply (observe_paced t e es)|].
  intros now w1 (-> & Q & Hw1 & Eq1 & Hf1). apply wpe_bind, wpe_get.
  assert (is_head (core w1) = true) as -> by (destruct Hw1 as [Hw1 _]; destruct (pg_frame _ _ _ _ _ _ Hw1) as (? & ? & ? & ? & ? & ? & ? & ? & ? & ->); done).
  wgo. cbv iota. wgo. eapply wpe_mono; [apply (process_head_spec nn Hnn bi ui t (arrived w2 R T t es)) with (Q := Q)|].
  - intros Q' w' [Hw' _]. apply (pg_rings _ _ _ _ _ _ Hw').
  - intros Q' w' q' ([(fl & la & bs & adm & nw & urs & q & qo & es' & E) He Hr Hn Hd Hlast HU Hroom Hout Hor Htot Hgr Hdem] & Es & HQ') Hq'.
    split; [|done]. split; try done.
    + exists fl, la, bs, adm, nw, urs, q', qo, es'. by rewrite E.
    + by apply (engine_ok_same nn cap t w').
    + by destruct Hr as [? ? (? & ? & ? & ?)].
  - intros f Q' w' Hw'. by apply arrived_flow.
  - destruct Hw1 as [Hw1 _]. destruct (pg_places _ _ _ _ _ _ Hw1) as (U & _ & Hp). pose proof (bursts_bound nn Hnn _ _ Hp) as Hb.
    rewrite length_app in Hb. unfold lev in Hb. rewrite length_fmap in Hb. lia.
  - done.
  - done.
  - intros [] w3 ((Hw3 & Es3 & _) & El3 & Hf3). wgo. split; [done|]. split; [done|]. split; [done|]. split; [done|]. lia.
Qed.

(** Waiting for a timeslot. *)
Lemma pace_spec tslot_mul tslot_shift t start : 0 ≤ t ≤ 64 → ∀ fuel es es' w, (length es ≤ fuel)%nat → polled w2 R T t es w →
  paced tslot_mul tslot_shift t start es = Some es' → wpe (pace fuel tslot_mul tslot_shift t start) (λ _ w', polled w2 R T t es' w') w.
Proof using Hnn T_bound is_head_w2.
  intros Ht. induction fuel as [|fuel IH]; intros [|e es] es' w Hlen Hw Hpc; cbn [paced length] in *; [done|lia|done|].
  destruct (on_time t e) eqn:Hon; [|done]. cbn [negb] in Hpc. cbn [pace]. apply wpe_bind.
  eapply wpe_mono; [by apply (sjf_poll_spec t e es)|]. intros now w1 [-> Hw1]. cbv zeta. apply wpe_bind, wpe_get.
  assert (is_head (core w1) = true) as -> by (destruct Hw1 as [Hw1 _]; destruct (pg_frame _ _ _ _ _ _ Hw1) as (? & ? & ? & ? & ? & ? & ? & ? & ? & ->); done).
  cbn [negb orb]. destruct (_ <? start); [|simplify_eq; by wgo]. apply (IH es); [lia|done|done].
Qed.

(** A timeslot is output, and closed for further flows. *)
Lemma mask_next t : 0 ≤ t < 64 → shl64 (2 ^ 64 - 2 ^ t) 1 = 2 ^ 64 - 2 ^ (t + 1).
Proof using.
  intros Ht. unfold shl64, u64. rewrite Z.shiftl_mul_pow2 by lia. rewrite Z.pow_add_r by lia.
  assert (0 < 2 ^ t ≤ 2 ^ 63) by (split; [apply Z.pow_pos_nonneg; lia|apply Z.pow_le_mono_r; lia]).
  replace ((2 ^ 64 - 2 ^ t) * 2 ^ 1) with (2 ^ 64 - 2 ^ t * 2 ^ 1 + 1 * 2 ^ 64) by lia. rewrite Z.mod_add by lia. apply Z.mod_small. lia.
Qed.

Lemma output_spec t es w : 0 ≤ t < 64 → polled w2 R T t es w →
  wpe (w ← get;
    a ← deref (arr_read (admitted (core w)) t);
    q ← deref (r_enqueue a (q_admitted_out w));
    modify (set_q_admitted_out q);;
    modify (λ w, set_core (set_bstate (disallow_first (bstate (core w))) (core w)) w)) (λ _ w', polled w2 R T (t + 1) es w') w.
Proof using.
  intros Ht (Hw & Es & Eq & Hfree).
  destruct Hw as [(fl & la & bs & adm & nw & urs & q & qo & es' & E) He Hr Hn Hd Hlast HU Hroom Hout Hor Htot Hgr Hdem].
  destruct (bo_len _ _ _ _ _ (en_batch _ _ _ _ He)) as (_ & _ & _ & Hla).
  wgo. wread by (apply arr_read_get; lia). wgo.
  destruct (r_enqueue_spec (q_admitted_out w) (arr_get (admitted (core w)) t)) as (qo' & Eqo & Hqo & Elo & Efo); [apply (ri_wf _ _ _ Hr)|lia|].
  wread by exact Eqo. wgo. split; [|done]. split; try done.
  - exists fl, la, (disallow_first (bstate (core w))), adm, nw, urs, q, qo', es'. by rewrite E.
  - destruct He as [He1 He2 [Hb1 Hb2 Hb3 Hb4 Hb5 Hb6 Hb7 Hb8] He4]. split; [done|done| |exact He4]. split; try done. wsimpl.
    unfold disallow_first. cbn [allowed_mask]. rewrite Hb3. apply mask_next. lia.
  - by destruct Hr as [? ? (? & ? & ? & ?)].
  - wsimpl. rewrite Elo, Hout, <- app_assoc. f_equal. rewrite Z2Nat.inj_add, Nat.add_1_r by lia. symmetry. apply take_S_r.
    unfold arr_get. apply list_lookup_lookup_total_lt. lia.
  - wsimpl. lia.
Qed.

Lemma output_timeslot_spec first_timeslot tslot_mul tslot_shift t es es' w : 0 ≤ t < 64 → polled w2 R T t es w →
  (if t mod 4 =? 0 then paced tslot_mul tslot_shift t (u64 (first_timeslot + t)) es else Some es) = Some es' →
  wpe (output_timeslot first_timeslot tslot_mul tslot_shift t) (λ _ w', polled w2 R T (t + 1) es' w') w.
Proof using Hnn T_bound is_head_w2.
  intros Ht Hw Hes. unfold output_timeslot. apply wpe_bind, wpe_get, wpe_bind, wpe_when; intros Hm; rewrite Hm in Hes.
  - assert (script w = es) as -> by apply Hw. eapply wpe_mono; [by eapply pace_spec; [lia|done|done|]|]. intros [] w1 Hw1. by apply output_spec.
  - simplify_eq. by apply output_spec.
Qed.

Lemma output_batch_spec first_timeslot tslot_mul tslot_shift es es' w : polled w2 R T 0 es w →
  paced_batch first_timeslot tslot_mul tslot_shift (seqZ 0 BATCH_SIZE) es = Some es' →
  wpe (each_bin (output_timeslot first_timeslot tslot_mul tslot_shift) (seqZ 0 BATCH_SIZE)) (λ _ w', polled w2 R T 64 es' w') w.
Proof using Hnn T_bound is_head_w2.
  intros Hw Hes. set (I := λ j w, ∃ es, polled w2 R T j es w ∧ paced_batch first_timeslot tslot_mul tslot_shift (seqZ j (64 - j)) es = Some es').
  eapply wpe_mono; [apply (each_bin_spec _ I 64 0); [by exists es|lia|]|].
  - intros j w1 Hj (es1 & Hw1 & Hes1). rewrite seqZ_first in Hes1 by lia. cbn [paced_batch] in Hes1. apply bind_Some in Hes1 as (es2 & E2 & Hes2).
    eapply wpe_mono; [by eapply output_timeslot_spec; [lia|done|]|]. intros [] w3 Hw3. exists es2. split; [done|].
    by replace (64 - (j + 1)) with (64 - j - 1) by lia.
  - intros [] w1 (es1 & Hw1 & Hes1). change (seqZ (0 + 64) (64 - (0 + 64))) with (@nil Z) in Hes1. cbn [paced_batch] in Hes1. by simplify_eq.
Qed.
End poll.

(** ** The end of a batch

    Requests of the last bin go to its outgoing bin. *)
Lemma move_last_spec k P B : k ≤ 255 → ∀ n b w, (length (bin_flows b) ≤ n)%nat → bin_wf b → out_ok k w →
  placed B (P ++ lev 255 (bin_flows b) ++ wait_out w) →
  wpe (move_last_bin n b) (λ _ w', ∃ out b', w' = set_core (set_new_request_bins (arr_set (new_request_bins (core w)) 255 b')
      (set_outgoing_bins out (core w))) w ∧ bin_wf b' ∧ out_ok k w' ∧ wait_out w' ≡ₚ lev 255 (bin_flows b) ++ wait_out w) w.
Proof using Hnn.
  intros Hk. induction n as [|n IH]; intros b w Hn Hb Ho Hp; destruct (bin_flows b) as [|f fs] eqn:Ef.
  1, 3: cbn [move_last_bin]; rewrite is_empty_bin_spec, Ef by done; cbn [bool_decide]; wgo; exists (outgoing_bins (core w)), b;
    split; [by destruct w as [? [] ? ? ? ? ?]|done].
  { simpl in Hn. lia. }
  destruct (head_bin_spec b f fs Hb Ef) as (Ee & Ep & b' & Ed & Hb' & _ & Ef'). cbn [move_last_bin]. rewrite Ee.
  wgo. wread by exact Ep. destruct f as [src dst]. cbv iota beta. wgo. change (NUM_BINS - 1) with 255.
  eapply wpe_mono; [eapply (enqueue_outgoing_spec nn Hnn k 255 (src, dst) w (P ++ lev 255 fs) B Ho); [lia|lia|]|].
  { eapply placed_perm; [|exact Hp]. unfold lev. rewrite fmap_cons. perm. }
  intros [] w1 (out & -> & Ho1 & Ew). wgo. wread by exact Ed.
  eapply wpe_mono; [apply IH; [rewrite Ef'; simpl in Hn; lia|done|done|]|].
  { rewrite Ef'. eapply placed_perm; [|exact Hp]. rewrite Ew. unfold lev. rewrite fmap_cons. perm. }
  intros [] w2 (out2 & b2 & -> & Hb2 & Ho2 & Ew2). exists out2, b2. split; [done|]. split; [done|]. split; [done|]. rewrite Ew2, Ef', Ew.
  unfold lev. rewrite fmap_cons. perm.
Qed.

(** The remaining bins are passed on. *)
Lemma pass_rest_spec w0 outs : out_ok 192 w0 → rings_ok w0 → r_list (bin_ring w0) = outs → Z.of_nat (length outs) = 192 → Forall bin_wf outs →
  (256 ≤ r_free (bin_ring w0) + length outs)%nat →
  wpe (each_bin pass_on_bin (seqZ 192 64)) (λ _ w', ∃ rs out outs', w' = set_core (set_outgoing_bins out (core w0)) (set_bin_rings rs w0) ∧
    rings_ok w' ∧ r_list (bin_ring w') = outs' ∧ Z.of_nat (length outs') = 256 ∧ Forall bin_wf outs' ∧
    spread bin_flows (seqZ 0 192) outs ++ wait_out w0 ≡ₚ spread bin_flows (seqZ 0 256) outs') w0.
Proof using.
  intros Ho Hr El Hl Hb Hroom.
  set (I := λ k w', ∃ rs out outs', w' = set_core (set_outgoing_bins out (core w0)) (set_bin_rings rs w0) ∧ out_ok k w' ∧ rings_ok w' ∧
    r_list (bin_ring w') = outs' ∧ Z.of_nat (length outs') = k ∧ Forall bin_wf outs' ∧ (256 ≤ r_free (bin_ring w') + length outs')%nat ∧
    spread bin_flows (seqZ 0 192) outs ++ wait_out w0 ≡ₚ spread bin_flows (seqZ 0 k) outs' ++ wait_out w').
  eapply wpe_mono; [apply (each_bin_spec _ I 64 192); [|lia|]|].
  - exists (bin_rings w0), (outgoing_bins (core w0)), outs. split; [by destruct w0 as [? [] ? ? ? ? ?]|done].
  - intros j w Hj (rs & out & outs' & E & Ho' & Hr' & El' & Hl' & Hb' & Hroom' & Ep).
    eapply wpe_mono; [apply (pass_on_bin_spec bi ui j w Ho'); [lia|done|lia]|].
    intros [] w' (rs2 & out2 & b & E2 & Hr2 & Ho2 & Hb2 & El2 & Ef2 & Ew2). exists rs2, out2, (outs' ++ [b]). split; [by rewrite E2, E|].
    split; [done|]. split; [done|]. split; [by rewrite El2, El'|]. rewrite length_app. cbn [length]. split; [lia|].
    split; [apply Forall_app; split; [done|by apply Forall_singleton]|]. split; [lia|].
    rewrite Ep, spread_snoc, Ew2 by lia. by rewrite <- app_assoc.
  - intros [] w (rs & out & outs' & E & [Hol Ho'] & Hr' & El' & Hl' & Hb' & _ & Ep). exists rs, out, outs'. split_and!; try done.
    rewrite Ep. enough (wait_out w = []) as -> by (by rewrite app_nil_r). unfold wait_out, spread.
    assert (outgoing_bins (core w) = replicate 256 None) as ->; [|done]. apply list_eq. intros i. destruct (decide (i < 256)%nat) as [Hi|Hi].
    + specialize (Ho' (Z.of_nat i) ltac:(lia)). rewrite decide_True in Ho' by lia. unfold arr_get in Ho'. rewrite Nat2Z.id in Ho'.
      rewrite lookup_replicate_2, list_lookup_lookup_total_lt by lia. by rewrite Ho'.
    + rewrite !lookup_ge_None_2 by (rewrite ?length_replicate; lia). done.
Qed.
End pacing.
