(* ===== verification/SjfTheorems.v ===== *)
(** * Theorems about shortest job first *)

From S2P Require Import Prelude Platform Lists Pacer Ring Sjf SjfFacts SjfBatch SjfPacing.
Import Sjf.

Section sjf.
Context (nn cap : Z) (Hnn : 0 ≤ nn ≤ 255) (Hcap : 0 ≤ cap) (bi ui : Z).
Context {Rb Re Ra : Type} `{Ring Rb bin} `{Ring Re Z} `{Ring Ra admitted_traffic} `{!Inhabited Rb} `{!Inhabited Re}.
Abbreviation world := (world Rb Re Ra).
Implicit Types (w : world) (f g : flow).

(** ** Between batches

    The core works alone: its rings [bi] and [ui] are input and output. The ring of bins
    holds all 256, that of urgent flows ends with the token, and every flow with a
    backlog waits in one place. *)
Record ready w : Prop := {
  rd_config : num_nodes (status w) = nn ∧ st_oversubscribed (status w) = false ∧ st_out_of_boundary_capacity (status w) = cap;
  rd_flows : Z.of_nat (length (flows (status w))) = 2 ^ 16 ∧ Z.of_nat (length (last_alloc_tslot (status w))) = 2 ^ 16;
  rd_nodes : Z.of_nat (length (src_endnodes (bstate (core w)))) = 256 ∧ Z.of_nat (length (dst_endnodes (bstate (core w)))) = 256;
  rd_new : Z.of_nat (length (new_request_bins (core w))) = 256 ∧ Forall bin_wf (new_request_bins (core w));
  rd_out : ∃ bs, outgoing_bins (core w) = Some <$> bs ∧ Z.of_nat (length bs) = 256 ∧ Forall bin_wf bs;
  rd_tmp : Z.of_nat (length (temporary_bins (core w))) = 256;
  rd_rings : rings_ok bi ui w;
  rd_bins : Z.of_nat (length (r_list (bin_ring bi w))) = 256 ∧ Forall bin_wf (r_list (bin_ring bi w));
  rd_places : ∃ U Q, r_list (urgent_ring ui w) = (edge_of <$> U) ++ [URGENT_Q_HEAD_TOKEN] ∧ r_list (q_head w) = edge0 <$> Q ∧
    placed nn (backlog w) (U ++ lev 0 Q ++ spread bin_flows (seqZ 0 256) (r_list (bin_ring bi w)));
}.

Lemma fill_spec n v (l : list Z) : 0 ≤ n ≤ 256 → Z.of_nat (length l) = 256 → Z.of_nat (length (fill n v l)) = 256 ∧
  ∀ i, 0 ≤ i < n → arr_get (fill n v l) i = v.
Proof using.
  intros Hn Hl. split; [unfold fill; rewrite length_app, length_replicate, length_drop; lia|]. intros i Hi. unfold arr_get, fill.
  rewrite lookup_total_app_l by (rewrite length_replicate; lia). apply lookup_total_replicate_2. lia.
Qed.

Lemma fresh_batch (bs : batch_state) rack_capacity : Z.of_nat (length (src_endnodes bs)) = 256 → Z.of_nat (length (dst_endnodes bs)) = 256 →
  ∃ bs', init_batch_state bs false rack_capacity cap nn = Some bs' ∧ batch_ok nn cap 0 bs' (replicate (Z.to_nat BATCH_SIZE) []).
Proof using Hnn Hcap.
  intros Hs Hd. unfold init_batch_state, MAX_NODES. rewrite (proj2 (Z.leb_le _ _)) by lia. eexists. split; [done|].
  destruct (fill_spec nn (not64 0) (src_endnodes bs)) as [Ls Gs]; [lia|done|]. destruct (fill_spec nn (not64 0) (dst_endnodes bs)) as [Ld Gd]; [lia|done|].
  assert (∀ u, arr_get (replicate (Z.to_nat BATCH_SIZE) (@nil flow)) u = []) as E0.
  { intros u. unfold arr_get. change (@nil flow) with (@inhabitant (list flow) _) at 2. rewrite list_lookup_total_alt.
    destruct (replicate _ _ !! _) as [x|] eqn:E; [|done]. by apply lookup_replicate in E as [-> _]. }
  assert (∀ u, 0 ≤ u < 64 → Z.testbit (not64 0) u = true) as Eb by (intros u Hu; by rewrite testbit_not64, Z.bits_0 by done).
  assert (0 ≤ not64 0 < 2 ^ 64) as Hr by done. split; cbn [oversubscribed out_of_boundary_capacity allowed_mask src_endnodes dst_endnodes out_of_boundary_counts]; try done.
  - rewrite length_arr_set. split_and!; [lia..|reflexivity|reflexivity].
  - intros s Hs'. rewrite Gs by done. split; [done|]. intros u Hu. rewrite Eb, E0, bool_decide_eq_true_2 by (done || apply not_elem_of_nil). done.
  - intros d Hd'. unfold OUT_OF_BOUNDARY_NODE_ID, MAX_NODES. rewrite arr_get_set, decide_False, Gd by lia. split; [done|].
    intros u Hu. rewrite Eb, E0, bool_decide_eq_true_2 by (done || apply not_elem_of_nil). done.
  - unfold OUT_OF_BOUNDARY_NODE_ID, MAX_NODES. rewrite arr_get_set, decide_True by (done || lia). split; [done|]. intros u Hu.
    rewrite E0, Eb by done. unfold arr_get. rewrite lookup_total_replicate_2 by (unfold BATCH_SIZE; lia). split; [done|].
    symmetry. apply bool_decide_eq_true_2. unfold outside. simpl. lia.
  - intros u Hu. rewrite E0. split; [done|constructor|constructor|]. intros _. unfold outside. simpl. lia.
Qed.

Lemma mapM_id_some {A} (l : list A) : mapM id (Some <$> l) = Some l.
Proof using. induction l as [|x l IH]; [done|]. rewrite fmap_cons. cbn [mapM id mbind option_bind]. by rewrite IH. Qed.

Lemma served_fresh n f : served (replicate n []) f = 0.
Proof using. induction n as [|n IH]; [done|]. change (served (replicate (S n) []) f) with (times [] f + served (replicate n []) f). by rewrite IH. Qed.

Lemma spread_empty fl levels (bs : list bin) : Forall (λ b, fl b = []) bs → spread fl levels bs = [].
Proof using.
  intros Hb. revert levels. induction Hb as [|b bs Hb _ IH]; intros [|l levels]; try done. unfold spread. cbn [zip_with concat]. rewrite Hb.
  apply IH.
Qed.

Lemma get_fmap_init (l : list bin) j : 0 ≤ j < Z.of_nat (length l) → arr_get (init_bin <$> l) j = init_bin (arr_get l j).
Proof using. intros Hj. unfold arr_get. apply list_lookup_total_fmap. lia. Qed.

Lemma reset_bins_empty c (s : admissible_status) c' : alloc_core_reset c s = Some c' → bins_reset c' = true.
Proof using.
  unfold alloc_core_reset. destruct (init_batch_state _ _ _ _ _) as [bs|]; [|done]. cbn [mbind option_bind].
  destruct (mapM id (outgoing_bins c)) as [out|]; [|done]. cbn [mbind option_bind]. intros [= <-]. unfold bins_reset. wsimpl.
  apply andb_true_iff. split; apply forallb_forall; intros b (b' & -> & _)%list_elem_of_In%list_elem_of_fmap; done.
Qed.

(** The core at the start of a batch. *)
Lemma reset_spec w : ready w → (∀ f, flow_ok nn f → backlog w f < 2 ^ 31) →
  ∃ c, alloc_core_reset (core w) (status w) = Some c ∧
    (∃ bs', c = {| new_request_bins := init_bin <$> new_request_bins (core w); outgoing_bins := outgoing_bins c; temporary_bins := temporary_bins (core w);
      bstate := bs'; admitted := replicate (Z.to_nat BATCH_SIZE) []; is_head := false; q_bin_in := q_bin_in (core w);
      q_bin_out := q_bin_out (core w); q_urgent_in := q_urgent_in (core w); q_urgent_out := q_urgent_out (core w) |}) ∧
    engine_ok nn cap 0 (set_core c w) ∧ new_ok nn (set_core c w) ∧ (∀ j, 0 ≤ j < 256 → head (new_bin (set_core c w) j) = 0) ∧
    wait_new (set_core c w) = [] ∧ out_ok 0 (set_core c w) ∧ wait_out (set_core c w) = [].
Proof using Hnn Hcap.
  intros [(En & Eo & Ec) [Hf Hl] [Hs Hd] [Hnl Hnb] (bs & Ebs & Hbl & Hbb) _ _ _ (U & Q & _ & _ & Hp)] Hmax.
  destruct (fresh_batch (bstate (core w)) (st_inter_rack_capacity (status w)) Hs Hd) as (bs' & Eb & Hb).
  unfold alloc_core_reset. rewrite En, Eo, Ec, Eb. cbn [mbind option_bind]. rewrite Ebs, mapM_id_some. cbn [mbind option_bind].
  eexists. split; [done|]. set (c := {| new_request_bins := _ |}).
  assert (∀ j, 0 ≤ j < 256 → ∃ b, bin_wf b ∧ new_bin (set_core c w) j = init_bin b) as Hnew.
  { intros j Hj. exists (arr_get (new_request_bins (core w)) j). split; [by apply arr_get_Forall; [|lia]|]. apply get_fmap_init. lia. }
  assert (∀ b, bin_wf b → bin_flows (init_bin b) = []) as Hinit by (intros b Hb'; by apply init_bin_wf).
  split; [by exists bs'|]. split; [|split; [|split; [|split; [|split]]]].
  - split; [done..|]. intros f Hok. split; [by apply (pl_all _ _ _ Hp)|by apply Hmax].
  - split; [wsimpl; unfold c; wsimpl; by rewrite length_fmap|]. intros j Hj. destruct (Hnew j Hj) as (b & Hb' & ->).
    destruct (init_bin_wf b Hb') as (? & -> & _). split; [done|]. split; [constructor|]. intros f Hin. by apply not_elem_of_nil in Hin.
  - intros j Hj. destruct (Hnew j Hj) as (b & _ & ->). done.
  - apply spread_empty, Forall_fmap. eapply Forall_impl; [exact Hnb|]. exact Hinit.
  - split; [wsimpl; unfold c; wsimpl; by rewrite length_fmap|]. intros j Hj. rewrite decide_False by lia. exists (init_bin (arr_get bs j)).
    split; [|split; [by apply init_bin_wf, arr_get_Forall; [|lia]|done]]. wsimpl. unfold c. wsimpl. unfold arr_get.
    rewrite (list_lookup_total_fmap (λ b, Some (init_bin b))) by lia. done.
  - unfold wait_out. wsimpl. unfold c. wsimpl. unfold spread. clear -Hbb Hinit. revert Hbb. generalize (seqZ 0 256).
    induction bs as [|b bs IH]; intros [|l ls] Hb'; try done. apply Forall_cons in Hb' as [Hb1 Hb2]. cbn [fmap list_fmap zip_with concat out_flows from_option].
    rewrite Hinit by done. apply (IH ls Hb2).
Qed.

(** ** A batch *)
Definition total w f : Z := backlog w f + pending (script w) f.

(** What the caller provides: the demands and room in the rings. *)
Record batch_input w e es : Prop := {
  bi_script : script w = e :: es;
  bi_demands : Forall (λ e, demands_ok nn (ev_demands e)) (script w);
  bi_total : ∀ f, flow_ok nn f → total w f < 2 ^ 31;
  bi_head : (num_demands (script w) ≤ r_free (q_head w))%nat;
  bi_urgent : (S (num_demands es) ≤ r_free (urgent_ring ui w))%nat;
  bi_out : (64 ≤ r_free (q_admitted_out w))%nat;
}.

(** After the loop over the bins. *)
Record halfway w es outs w2 : Prop := {
  hw_polled : polled nn cap bi ui w2 (spread bin_flows (seqZ 0 192) outs) (total w) 0 es w2;
  hw_head : is_head (core w2) = true;
  hw_config : num_nodes (status w2) = num_nodes (status w) ∧ st_oversubscribed (status w2) = st_oversubscribed (status w) ∧
    st_out_of_boundary_capacity (status w2) = st_out_of_boundary_capacity (status w);
  hw_queue : q_admitted_out w2 = q_admitted_out w;
  hw_out : out_ok 192 w2;
  hw_bins : r_list (bin_ring bi w2) = outs ∧ Z.of_nat (length outs) = 192 ∧ Forall bin_wf outs ∧ (256 ≤ r_free (bin_ring bi w2) + length outs)%nat;
  hw_tmp : Z.of_nat (length (temporary_bins (core w2))) = 256 ∧ ∀ j, 0 ≤ j < 256 → ∃ b, arr_get (temporary_bins (core w2)) j = Some b ∧ bin_wf b;
  hw_stuck : ∀ f, flow_ok nn f → 0 < backlog w2 f → stuck cap 0 f w2;
}.

Lemma arr_get_in {A} `{Inhabited A} (P : A → Prop) (l : list A) : (∀ j, 0 ≤ j < Z.of_nat (length l) → P (arr_get l j)) → Forall P l.
Proof using.
  intros Hl. apply Forall_lookup. intros i x Hi. pose proof (lookup_lt_Some _ _ _ Hi). specialize (Hl (Z.of_nat i) ltac:(lia)).
  unfold arr_get in Hl. rewrite Nat2Z.id in Hl. by rewrite (list_lookup_total_correct _ _ _ Hi) in Hl.
Qed.

(** After the requests that waited have been sorted into the bins of new requests. *)
Record sorted w e es w1 : Prop := {
  so_engine : engine_ok nn cap 0 w1;
  so_new : new_ok nn w1 ∧ ∀ j, 0 ≤ j < 256 → head (new_bin w1 j) = 0;
  so_rings : rings_ok bi ui w1;
  so_urgent : r_list (urgent_ring ui w1) = [] ∧ (r_free (urgent_ring ui w) ≤ r_free (urgent_ring ui w1))%nat;
  so_queue : r_list (q_head w1) = [] ∧ (r_free (q_head w) ≤ length (ev_demands e) + r_free (q_head w1))%nat;
  so_placed : placed nn (backlog w1) (spread bin_flows (seqZ 0 256) (r_list (bin_ring bi w)) ++ wait_new w1);
  so_backlog : ∀ f, flow_ok nn f → backlog w1 f = backlog w f + demanded (ev_demands e) f;
  so_served : ∀ f, served (admitted (core w1)) f = 0;
  so_outgoing : out_ok 0 w1 ∧ wait_out w1 = [];
  so_same : bin_ring bi w1 = bin_ring bi w ∧ temporary_bins (core w1) = temporary_bins (core w) ∧ q_admitted_out w1 = q_admitted_out w ∧
    script w1 = es ∧ is_head (core w1) = true ∧ num_nodes (status w1) = num_nodes (status w) ∧
    st_oversubscribed (status w1) = st_oversubscribed (status w) ∧
    st_out_of_boundary_capacity (status w1) = st_out_of_boundary_capacity (status w);
}.

Lemma input_total w e es f : batch_input w e es → flow_ok nn f →
  0 ≤ demanded (ev_demands e) f ∧ 0 ≤ pending es f ∧ total w f = backlog w f + demanded (ev_demands e) f + pending es f.
Proof using.
  intros [Es Hdem Htot _ _ _] Hf. rewrite Es in Hdem. apply Forall_cons in Hdem as [Hde Hdem].
  split; [apply demanded_nonneg; eapply Forall_impl; [exact Hde|by intros d [_ Hd]]|]. split; [by apply (pending_nonneg nn)|].
  unfold total. rewrite Es. change (pending (e :: es) f) with (demanded (ev_demands e) f + pending es f). lia.
Qed.

Lemma first_sorted w e es c : ready w → batch_input w e es → alloc_core_reset (core w) (status w) = Some c →
  wpe (process_new_requests 0) (λ _ w1, sorted w e es w1) (set_core c w).
Proof using Hnn Hcap.
  intros Hw Hin Ec. pose proof Hin as [Es Hdem Htot Hhead Hurg Hout]. destruct (rd_places _ Hw) as (U & Q & EU & EQ & Hp).
  rewrite Es in Hdem, Hhead. apply Forall_cons in Hdem as [Hde _]. rewrite num_demands_cons in Hhead.
  destruct (reset_spec w Hw) as (c' & Ec' & (bs' & E) & He0 & Hn0 & Hh0 & Ewn0 & Ho0 & Ewo0).
  { intros f Hf. specialize (Htot f Hf). pose proof (input_total _ _ _ f Hin Hf). lia. }
  assert (c' = c) as -> by congruence. clear Ec'. set (w0 := set_core c w) in *.
  assert (rings_ok bi ui w0) as Hr0 by (destruct (rd_rings _ Hw) as [(? & ? & ?) (? & ? & ?) ?]; unfold w0; rewrite E; by split).
  eapply wpe_mono; [eapply (first_requests_spec nn cap Hnn bi ui w0 U Q (spread bin_flows (seqZ 0 256) (r_list (bin_ring bi w))) e es);
    [done|done|unfold w0; by rewrite E|exact Es|done|done|done|exact EU|exact EQ|exact Hp|change (q_head w0) with (q_head w); lia|done|]|].
  { intros f Hf. specialize (Htot f Hf). pose proof (input_total _ _ _ f Hin Hf). change (backlog w0 f) with (backlog w f). lia. }
  intros now w1 (fl & nw & rs & q & E1 & He1 & Hn1 & Hh1 & Hr1 & Eu1 & Hfu1 & Eq1 & Hfq1 & Hp1 & HB1).
  split; try done.
  - intros f. rewrite E1. unfold w0. rewrite E. apply served_fresh.
  - by rewrite E1.
  - rewrite E1. unfold w0. by rewrite E.
Qed.

Lemma sorted_binning w e es w1 : ready w → sorted w e es w1 → binning nn cap bi ui w1 0 0 0 0 (r_list (bin_ring bi w)) [] w1.
Proof using.
  intros Hw [He Hn Hr _ _ Hp _ _ [Ho Ewo] (Ebr & Etmp & _)]. destruct (rd_bins _ Hw) as [Hbl Hbw]. split; rewrite ?Ewo, ?app_nil_r.
  - exists (flows (status w1)), (last_alloc_tslot (status w1)), (bstate (core w1)), (admitted (core w1)), (outgoing_bins (core w1)),
      (new_request_bins (core w1)), (temporary_bins (core w1)), (bin_rings w1). by destruct w1 as [[] [] ? ? ? ? ?].
  - done.
  - done.
  - apply Hn.
  - done.
  - intros j Hj. lia.
  - rewrite Ebr. simpl. split; [done|lia].
  - exact Hbw.
  - lia.
  - exact Hp.
  - intros f Hf. by apply not_elem_of_nil in Hf.
  - intros f Hf. left. rewrite <- history_flows; [done|]. apply Hn. lia.
  - rewrite Etmp. split; [apply (rd_tmp _ Hw)|]. intros j Hj. lia.
  - by apply evolves_same.
Qed.

Lemma no_new w : new_ok nn w → (∀ j, 0 ≤ j < 256 → bin_flows (new_bin w j) = []) → wait_new w = [].
Proof using. intros [Hl _] Hd. apply spread_empty, arr_get_in. rewrite Hl. exact Hd. Qed.

Lemma binning_halfway w e es w1 outs w2 : batch_input w e es → sorted w e es w1 → binning nn cap bi ui w1 256 256 192 256 [] outs w2 →
  halfway w es outs w2.
Proof using.
  intros Hin [_ _ _ [Eu1 Hfu1] [Eq1 Hfq1] _ HB1 Hsv1 _ (_ & _ & Eqa1 & Es1 & Ehd1 & Ec1)]. pose proof Hin as [Es Hdem Htot Hhead Hurg Hout].
  intros [(fl2 & la2 & bs2 & adm2 & out2 & nw2 & tmp2 & rs2 & E2) He2 Hr2 Hn2 Ho2 Hd2 (El2 & _ & Hl2) Hbs2 Hroom2 Hp2 Hst2 Hlast2 Htmp2 Hev2].
  rewrite Es in Hdem, Hhead. apply Forall_cons in Hdem as [_ Hdem]. rewrite num_demands_cons in Hhead.
  cbn [app] in El2, Hbs2, Hroom2. change (spread bin_flows (seqZ 256 (256 - 256)) [] ++ ?l) with l in Hp2. pose proof (no_new w2 Hn2 Hd2) as Ewn2.
  assert (urgent_ring ui w2 = urgent_ring ui w1) as Eur by (by rewrite E2). assert (script w2 = es) as Es2 by (by rewrite E2).
  assert (q_head w2 = q_head w1) as Eqh by (by rewrite E2). assert (q_admitted_out w2 = q_admitted_out w) as Eqa by (by rewrite E2).
  split; try done; [|by rewrite E2..|].
  - split; [|rewrite Eqh; split_and!; [done..|lia]]. split; try done.
    + exists (flows (status w2)), (last_alloc_tslot (status w2)), (bstate (core w2)), (admitted (core w2)),
        (new_request_bins (core w2)), (urgent_rings w2), (q_head w2), (q_admitted_out w2), (script w2). by destruct w2 as [[] [] ? ? ? ? ?].
    + intros j Hj. apply Hd2. lia.
    + exists []. split; [by rewrite Eur|]. exact Hp2.
    + rewrite Es2, Eur. cbn [length]. lia.
    + by rewrite take_0, app_nil_r.
    + rewrite Eqa. lia.
    + intros f Hf. rewrite Es2. pose proof (ev_total _ _ _ _ Hev2 f Hf) as Et. rewrite HB1, Hsv1 in Et by done.
      pose proof (input_total _ _ _ f Hin Hf). lia.
    + by rewrite Es2.
  - intros f Hf Hpf. apply Hst2. destruct (pl_all _ _ _ Hp2 f Hf) as [_ Hin2]. rewrite Ewn2 in Hin2. apply Hin2. lia.
Qed.

Lemma first_half w e es c : ready w → batch_input w e es → alloc_core_reset (core w) (status w) = Some c →
  wpe (process_new_requests 0;; each_bin process_bin (seqZ 0 NUM_BINS)) (λ _ w2, ∃ outs, halfway w es outs w2) (set_core c w).
Proof using Hnn Hcap.
  intros Hw Hin Ec. apply wpe_bind. eapply wpe_mono; [by apply (first_sorted w e es c)|]. intros now w1 Hw1.
  eapply wpe_mono; [by apply (sjf_process_bins_spec nn cap Hnn bi ui w1 (r_list (bin_ring bi w))), (sorted_binning w e es)|]. intros [] w2 (outs & Hb2). exists outs. by apply (binning_halfway w e es w1).
Qed.

Lemma some_bins (l : list (option bin)) : Z.of_nat (length l) = 256 → (∀ j, 0 ≤ j < 256 → ∃ b, arr_get l j = Some b ∧ bin_wf b) →
  ∃ bs, l = Some <$> bs ∧ Z.of_nat (length bs) = 256 ∧ Forall bin_wf bs.
Proof using.
  intros Hl Hb. rewrite <- Hl in Hb. apply (arr_get_in (λ o, ∃ b, o = Some b ∧ bin_wf b)) in Hb. enough (∃ bs, l = Some <$> bs ∧ Forall bin_wf bs) as (bs & -> & Hbs).
  { exists bs. split; [done|]. split; [|done]. by rewrite length_fmap in Hl. }
  clear Hl. induction Hb as [|o l (b & -> & Hb) _ (bs & -> & Hbs)]; [by exists []|]. exists (b :: bs). split; [done|]. by constructor.
Qed.

Lemma times_prefix a a' f : a `prefix_of` a' → times a f ≤ times a' f.
Proof using. intros [r ->]. unfold times. rewrite sum_of_app. pose proof (times_nonneg r f). unfold times in *. lia. Qed.

Lemma served_prefix adm adm' f : length adm = length adm' → (∀ u, 0 ≤ u < Z.of_nat (length adm) → arr_get adm u `prefix_of` arr_get adm' u) →
  served adm f ≤ served adm' f.
Proof using.
  revert adm'. induction adm as [|a adm IH]; intros [|a' adm'] Hl Hu; try done. simpl in Hl.
  change (times a f + served adm f ≤ times a' f + served adm' f).
  pose proof (times_prefix a a' f (Hu 0 ltac:(simpl; lia))). enough (served adm f ≤ served adm' f) by lia. apply IH; [lia|].
  intros u Hu'. specialize (Hu (u + 1) ltac:(simpl; lia)). unfold arr_get in *. rewrite Z2Nat.inj_add, Nat.add_1_r in Hu by lia. exact Hu.
Qed.

(** The last bin of new requests is the only one that may hold flows. *)
Lemma last_new w : new_ok nn w → (∀ j, 0 ≤ j < 255 → bin_flows (new_bin w j) = []) → wait_new w ≡ₚ lev 255 (bin_flows (new_bin w 255)).
Proof using.
  intros [Hl _] Hd. destruct (row_split bin_flows (new_request_bins (core w)) 255) as (rest & Er & Er'); [lia|done|].
  fold (new_bin w 255) in Er. unfold wait_new. rewrite Er. enough (rest = []) as -> by (by rewrite app_nil_r).
  specialize (Er' inhabitant). rewrite spread_empty in Er'; [by apply Permutation_nil in Er'|].
  apply arr_get_in. rewrite length_arr_set. intros j Hj. rewrite arr_get_set by lia. destruct (decide (255 = j)); [done|]. apply Hd. lia.
Qed.

(** What was admitted, when the timeslots have been output. *)
Lemma output_done w es es' outs w2 w3 : halfway w es outs w2 →
  polled nn cap bi ui w2 (spread bin_flows (seqZ 0 192) outs) (total w) 64 es' w3 →
  let adm := admitted (core w3) in
  Z.of_nat (length adm) = 64 ∧ r_list (q_admitted_out w3) = r_list (q_admitted_out w) ++ adm ∧
  Forall (slot_ok nn cap) adm ∧ (∀ f, flow_ok nn f → total w3 f + served adm f = total w f) ∧
  ∀ f, flow_ok nn f → pending es' f = pending es f → 0 < backlog w3 f → Forall (busy cap f) adm.
Proof using Hnn.
  intros [[Hw2 [Es2 _]] _ _ Eq2 _ _ _ Hst] [Hw3 [Es3 _]]. cbv zeta. pose proof (en_batch _ _ _ _ (pg_engine _ _ _ _ _ _ _ _ _ _ Hw3)) as Hb3.
  pose proof (en_batch _ _ _ _ (pg_engine _ _ _ _ _ _ _ _ _ _ Hw2)) as Hb2.
  destruct (bo_len _ _ _ _ _ Hb3) as (_ & _ & _ & Hl3). destruct (bo_len _ _ _ _ _ Hb2) as (_ & _ & _ & Hl2).
  split; [done|]. split; [|split; [|split]].
  - rewrite (pg_out _ _ _ _ _ _ _ _ _ _ Hw3), Eq2. f_equal. apply take_ge. lia.
  - apply arr_get_in. rewrite Hl3. apply (bo_slot _ _ _ _ _ Hb3).
  - intros f Hf. rewrite <- (pg_total _ _ _ _ _ _ _ _ _ _ Hw3 f Hf). unfold total. lia.
  - intros f Hf Epend Hpos. pose proof (pg_total _ _ _ _ _ _ _ _ _ _ Hw3 f Hf) as T3. pose proof (pg_total _ _ _ _ _ _ _ _ _ _ Hw2 f Hf) as T2.
    rewrite Es3 in T3. rewrite Es2 in T2. pose proof (pg_grow _ _ _ _ _ _ _ _ _ _ Hw3) as Hgr.
    pose proof (served_prefix (admitted (core w2)) (admitted (core w3)) f) as Hle. rewrite Hl2 in Hle. specialize (Hle ltac:(lia) Hgr).
    specialize (Hst f Hf ltac:(lia)). apply arr_get_in. rewrite Hl3. intros u Hu.
    eapply (busy_grow nn cap Hnn); [by apply (bo_slot _ _ _ _ _ Hb3)|by apply Hgr|apply Hst; lia].
Qed.

(** The token, the last bin and the other bins that are left are passed on. *)
Definition closed_world w urs nw out rs : world :=
  set_core (set_outgoing_bins out (set_new_request_bins nw (core w))) (set_bin_rings rs (set_urgent_rings urs w)).

Record closed w w' : Prop := {
  cl_frame : ∃ urs nw out rs, w' = closed_world w urs nw out rs;
  cl_rings : rings_ok bi ui w';
  cl_new : Z.of_nat (length (new_request_bins (core w'))) = 256 ∧ Forall bin_wf (new_request_bins (core w'));
  cl_bins : Z.of_nat (length (r_list (bin_ring bi w'))) = 256 ∧ Forall bin_wf (r_list (bin_ring bi w'));
  cl_urgent : ∃ U, r_list (urgent_ring ui w') = (edge_of <$> U) ++ [URGENT_Q_HEAD_TOKEN] ∧
    placed nn (backlog w') (U ++ spread bin_flows (seqZ 0 256) (r_list (bin_ring bi w')));
}.

Lemma closing_spec w2 outs T es w (r : M False world unit) Q : (∀ w', closed w w' → wpe r Q w') → out_ok 192 w2 → r_list (bin_ring bi w2) = outs → Z.of_nat (length outs) = 192 → Forall bin_wf outs →
  (256 ≤ r_free (bin_ring bi w2) + length outs)%nat → polled nn cap bi ui w2 (spread bin_flows (seqZ 0 192) outs) T 64 es w →
  wpe (enqueue_urgent_out URGENT_Q_HEAD_TOKEN;;
    w ← get;
    last ← deref (arr_read (new_request_bins (core w)) (NUM_BINS - 1));
    move_last_bin bin_rounds last;;
    each_bin pass_on_bin (seqZ (NUM_BINS - BATCH_SIZE) BATCH_SIZE);; r) Q w.
Proof using Hnn.
  intros Hnext Ho El Hl Hb Hroom ([(fl & la & bs & adm & nw & urs & q & qo & es0 & E) He Hr Hn Hd _ (U & EU & Hp) Hur _ _ _ _ _] & _).
  apply wpe_bind. eapply wpe_mono; [apply (enqueue_urgent_spec bi ui URGENT_Q_HEAD_TOKEN w Hr); lia|]. intros [] w4 (urs4 & E4 & Hr4 & El4 & _).
  assert (bin_ring bi w4 = bin_ring bi w2) as Ebr by (by rewrite E4, E). assert (out_ok 192 w4) as Ho4 by (by rewrite E4, E).
  assert (new_bin w4 255 = new_bin w 255) as Enb by (by rewrite E4). assert (wait_out w4 = wait_out w2) as Ewo by (by rewrite E4, E).
  assert (backlog w4 = backlog w) as EB4 by (by rewrite E4).
  wgo. wread by (apply arr_read_get; rewrite E4; pose proof (proj1 Hn); wsimpl; unfold NUM_BINS; lia). change (NUM_BINS - 1) with 255. wgo.
  fold (new_bin w4 255). rewrite Enb. destruct (proj2 Hn 255) as (Hb255 & _); [lia|].
  assert (placed nn (backlog w4) ((U ++ spread bin_flows (seqZ 0 192) outs) ++ lev 255 (bin_flows (new_bin w 255)) ++ wait_out w4)) as Hp4.
  { rewrite EB4, Ewo. eapply placed_perm; [|exact Hp]. rewrite (last_new w Hn Hd). change (lev 0 []) with (@nil (Z * flow)). perm. }
  eapply wpe_mono; [eapply (move_last_spec nn Hnn 192 (U ++ spread bin_flows (seqZ 0 192) outs) (backlog w4)); [lia|by apply bin_rounds_bound|exact Hb255|exact Ho4|exact Hp4]|].
  intros [] w5 (out5 & b5 & E5 & Hb5 & Ho5 & Ew5). assert (rings_ok bi ui w5) as Hr5 by (rewrite E5; by destruct Hr4).
  assert (bin_ring bi w5 = bin_ring bi w2) as Ebr5 by (by rewrite E5).
  apply wpe_bind. change (seqZ (NUM_BINS - BATCH_SIZE) BATCH_SIZE) with (seqZ 192 64).
  eapply wpe_mono; [apply (pass_rest_spec bi ui w5 outs Ho5 Hr5); rewrite ?Ebr5; done|].
  intros [] w6 (rs6 & out6 & outs6 & E6 & Hr6 & El6 & Hl6 & Hb6 & Ep6).
  apply Hnext. split; [|done| |by rewrite El6|].
  - eexists _, _, _, _. by rewrite E6, E5, E4.
  - rewrite E6, E5, E4. wsimpl. rewrite length_arr_set. destruct Hn as [Hnl Hnw]. split; [done|]. apply arr_set_Forall; [|done].
    apply arr_get_in. rewrite Hnl. intros j Hj. by apply Hnw.
  - exists U. assert (urgent_ring ui w6 = urgent_ring ui w4) as -> by (by rewrite E6, E5). rewrite El4, EU. split; [done|].
    assert (backlog w6 = backlog w4) as -> by (by rewrite E6, E5). rewrite El6. eapply placed_perm; [|exact Hp4]. rewrite <- Ep6, Ew5. perm.
Qed.

Lemma ready_again w es es' outs w2 w3 w6 : ready w → halfway w es outs w2 →
  polled nn cap bi ui w2 (spread bin_flows (seqZ 0 192) outs) (total w) 64 es' w3 → closed w3 w6 →
  ready (set_status (advance_timeslot (status w6)) (set_core (set_temporary_bins (replicate (Z.to_nat NUM_BINS) None)
    (set_outgoing_bins (temporary_bins (core w6)) (core w6))) w6)).
Proof using.
  intros Hrd [_ _ (Ec1 & Ec2 & Ec3) _ _ _ [Htl Htmp] _] ([(fl & la & bs & adm & nw & urs & q & qo & es0 & E3) He3 _ _ _ _ _ _ _ _ _ _ _] & _ & Eq3 & _).
  intros [(urs6 & nw6 & out6 & rs6 & E6) Hr6 Hn6 Hb6 (U & EU & Hp)]. destruct (bo_len _ _ _ _ _ (en_batch _ _ _ _ He3)) as (Ls & Ld & _ & _).
  split.
  - rewrite E6, E3. unfold closed_world, pacing_world, served_world. wsimpl. rewrite Ec1, Ec2, Ec3. apply Hrd.
  - rewrite E6. by destruct He3.
  - rewrite E6. done.
  - exact Hn6.
  - apply some_bins; rewrite E6, E3; done.
  - done.
  - by destruct Hr6.
  - exact Hb6.
  - exists U, []. split; [exact EU|]. split; [rewrite E6; exact Eq3|]. exact Hp.
Qed.

(** C27. A batch of the shortest-job-first allocator, of a core that works alone
    (its rings are input and output) on a network of at most 255 nodes that is not
    oversubscribed, with room in the rings and totals of demand below 2^31, if
    demand is on time: what a flow asks for while timeslot [b] is awaited is at most
    [b] or at least 256 timeslots ([on_time]; other demand is lost, see
    [late_demand_is_lost]). The batch ends without a failed assertion, an access
    outside an array or a wait for room, and outputs 64 timeslots in each of which
    sources and destinations are distinct, apart from the outside, which takes up to
    its capacity. No timeslot of demand is lost or invented: the backlogs, what is
    still to be demanded and what was admitted make up the total of before. Every
    flow with a backlog waits in exactly one place for the next batch, in a bin that
    its backlog covers ([ready]). The allocation is maximal: a flow that keeps a
    backlog, without new demand while the timeslots were output, fits into none of
    them. *)
Theorem sjf_batch w e es es' first_timeslot tslot_mul tslot_shift :
  ready w → batch_input w e es → paced_batch first_timeslot tslot_mul tslot_shift (seqZ 0 BATCH_SIZE) es = Some es' →
  wp (get_admissible_traffic first_timeslot tslot_mul tslot_shift) (λ _ w' _, ready w' ∧ script w' = es' ∧
    ∃ adm, Z.of_nat (length adm) = BATCH_SIZE ∧ r_list (q_admitted_out w') = r_list (q_admitted_out w) ++ adm ∧
      Forall (slot_ok nn cap) adm ∧
      (∀ f, flow_ok nn f → backlog w' f + pending es' f + served adm f = backlog w f + pending (script w) f) ∧
      ∀ f, flow_ok nn f → pending es' f = pending es f → 0 < backlog w' f → Forall (busy cap f) adm) w.
Proof using Hnn Hcap.
  intros Hw Hin Hes. destruct (reset_spec w Hw) as (c & Ec & _).
  { intros f Hf. pose proof (bi_total _ _ _ Hin f Hf). pose proof (input_total _ _ _ f Hin Hf). lia. }
  match goal with |- wp ?m ?Q w => change (wpe m (λ a w', Q a w' []) w) end. unfold get_admissible_traffic.
  apply wpe_bind, wpe_get, wpe_bind. wread by exact Ec. apply wpe_bind, wpe_modify, wpe_bind.
  wread by (by rewrite (reset_bins_empty _ _ _ Ec)). apply wpe_bind2.
  eapply wpe_mono; [by apply (first_half w e es c)|]. intros [] w2 (outs & Hw2). pose proof Hw2 as [Hp2 Hhd2 _ _ Ho2 (El2 & Hl2 & Hb2 & Hroom2) _ _].
  unfold finish_batch. apply wpe_bind. eapply wpe_mono; [eapply (output_batch_spec nn cap Hnn); [exact Hhd2|apply (bi_total _ _ _ Hin)|exact Hp2|exact Hes]|].
  intros [] w3 Hw3. pose proof (output_done w es es' outs w2 w3 Hw2 Hw3) as (Ladm & Eout & Hslots & Htot & Hbusy).
  eapply closing_spec; [|done..]. intros w6 Hw6. wgo. split; [exact (ready_again w es es' outs w2 w3 w6 Hw Hw2 Hw3 Hw6)|].
  destruct (cl_frame _ _ Hw6) as (urs & nw & out & rs & E6). split; [rewrite E6; apply Hw3|]. exists (admitted (core w3)).
  split; [done|]. split; [by rewrite E6|]. split; [done|]. split.
  - intros f Hf. specialize (Htot f Hf). unfold total in Htot. assert (script w3 = es') as Es3 by apply Hw3. rewrite Es3 in Htot. rewrite E6. exact Htot.
  - intros f Hf Epend Hpos. apply Hbusy; [done|done|]. by rewrite E6 in Hpos.
Qed.
End sjf.

(** ** The start, and concrete runs *)
Section start.
Context (nn cap : Z) (Hnn : 0 ≤ nn ≤ 255) (bi ui : Z).
Context {Rb Re Ra : Type} `{Ring Rb bin} `{Ring Re Z} `{Ring Ra admitted_traffic} `{!Inhabited Rb} `{!Inhabited Re}.

Lemma create_bin_wf garbage : Z.of_nat (length garbage) = 2 ^ 16 → bin_wf (create_bin LARGE_BIN_SIZE garbage) ∧ bin_flows (create_bin LARGE_BIN_SIZE garbage) = [].
Proof using. intros Hg. split; [|done]. split; [done|]. split; [done|]. unfold create_bin. cbn [edges]. rewrite length_take. unfold LARGE_BIN_SIZE, MAX_NODES. lia. Qed.

Lemma new_status rack_capacity : let s := reset_admissible_status false rack_capacity cap nn in
  (num_nodes s = nn ∧ st_oversubscribed s = false ∧ st_out_of_boundary_capacity s = cap) ∧
  Z.of_nat (length (flows s)) = 2 ^ 16 ∧ Z.of_nat (length (last_alloc_tslot s)) = 2 ^ 16 ∧ ∀ i, 0 ≤ i < 2 ^ 16 → arr_get (flows s) i = 0.
Proof using.
  intros s. unfold s, reset_admissible_status. cbn [num_nodes st_oversubscribed st_out_of_boundary_capacity flows last_alloc_tslot].
  rewrite !length_replicate, !(Z2Nat.id NUM_SRC_DST_PAIRS) by (unfold NUM_SRC_DST_PAIRS, MAX_NODES; lia).
  split; [split_and!; reflexivity|]. split; [reflexivity|]. split; [reflexivity|]. intros i Hi. unfold arr_get.
  apply lookup_total_replicate_2. apply Z2Nat.inj_lt; unfold NUM_SRC_DST_PAIRS, MAX_NODES; lia.
Qed.

(** A core with a full ring of empty bins and the token is ready. *)
Lemma start_ready bs garbage rack_capacity qh qo brs urs es :
  Z.of_nat (length garbage) = 2 ^ 16 → Z.of_nat (length (src_endnodes bs)) = 256 → Z.of_nat (length (dst_endnodes bs)) = 256 →
  0 ≤ bi < Z.of_nat (length brs) → 0 ≤ ui < Z.of_nat (length urs) →
  r_wf (arr_get brs bi) → r_wf (arr_get urs ui) → r_wf qh → r_wf qo →
  r_list (arr_get brs bi) = replicate (Z.to_nat NUM_BINS) (create_bin LARGE_BIN_SIZE garbage) →
  r_list (arr_get urs ui) = [URGENT_Q_HEAD_TOKEN] → r_list qh = [] →
  ready nn cap bi ui {| status := reset_admissible_status false rack_capacity cap nn; core := alloc_core_init bs garbage bi bi ui ui;
    q_head := qh; q_admitted_out := qo; bin_rings := brs; urgent_rings := urs; script := es |}.
Proof using Hnn.
  intros Hg Hs Hd Hbi Hui Hw1 Hw2 Hw3 Hw4 Eb Eu Eq. destruct (create_bin_wf garbage Hg) as [Hb Ef].
  destruct (new_status rack_capacity) as (Ec & El1 & El2 & E0). revert Ec El1 El2 E0. generalize (reset_admissible_status false rack_capacity cap nn).
  intros s Ec El1 El2 E0. assert (Z.of_nat (Z.to_nat NUM_BINS) = 256) as En by reflexivity. unfold alloc_core_init.
  change (create_bin SMALL_BIN_SIZE garbage) with (create_bin LARGE_BIN_SIZE garbage). revert Eb Hb Ef.
  generalize (create_bin LARGE_BIN_SIZE garbage). revert En. generalize (Z.to_nat NUM_BINS). intros n En b Eb Hb Ef.
  split; unfold bin_ring, urgent_ring; wsimpl; rewrite ?length_replicate.
  - exact Ec.
  - by split.
  - by split.
  - split; [exact En|]. by apply Forall_replicate.
  - exists (replicate n b). rewrite fmap_replicate, length_replicate. split; [reflexivity|]. split; [exact En|]. by apply Forall_replicate.
  - exact En.
  - destruct Hbi, Hui. split; unfold bin_ring, urgent_ring; wsimpl; by split_and!.
  - rewrite Eb, length_replicate. split; [exact En|]. by apply Forall_replicate.
  - exists [], []. split; [exact Eu|]. split; [exact Eq|]. rewrite Eb, spread_empty by (by apply Forall_replicate).
    split; [constructor|intros l f Hin; by apply not_elem_of_nil in Hin|]. intros f Hf. pose proof (sjf_idx_range nn Hnn f Hf).
    unfold backlog. wsimpl. rewrite E0 by lia. split; [lia|]. by intros [].
Qed.
End start.

#[export] Instance fp_ring_inhabited {A} : Inhabited (fp_ring A) := populate (fp_ring_create 1 []).

(** Five nodes, of which up to two may send outside at a time, with new rings. *)
Definition no_state : batch_state := {| oversubscribed := false; inter_rack_capacity := 0; out_of_boundary_capacity := 0; allowed_mask := 0;
  src_endnodes := replicate 256 0; dst_endnodes := replicate 256 0; src_rack_bitmaps := []; dst_rack_bitmaps := []; src_rack_counts := [];
  dst_rack_counts := []; out_of_boundary_counts := [] |}.
Definition blank : list flow := replicate (Z.to_nat LARGE_BIN_SIZE) (0, 0).
Definition new_ring {A} `{Inhabited A} (n : Z) (l : list A) : fp_ring A := enqueue_each l (fp_ring_create n (replicate (Z.to_nat n) inhabitant)).
Definition sjf_start (es : list event) : world (fp_ring bin) (fp_ring Z) (fp_ring admitted_traffic) := {|
  status := reset_admissible_status false 0 2 5; core := alloc_core_init no_state blank 0 0 0 0;
  q_head := new_ring 128 []; q_admitted_out := new_ring 256 [];
  bin_rings := [new_ring 512 (replicate (Z.to_nat NUM_BINS) (create_bin LARGE_BIN_SIZE blank))];
  urgent_rings := [new_ring 128 [URGENT_Q_HEAD_TOKEN]]; script := es |}.

(** Demands before the batch, and while its timeslots 100, 104, ... are awaited. *)
Definition calm (t : Z) : event := {| ev_demands := []; ev_time := t |}.
Definition sample_events : list event :=
  {| ev_demands := [(1, 2, 3); (1, 3, 70); (3, 2, 1); (4, 255, 9)]; ev_time := 50 |} :: calm 90 :: calm 100 ::
  {| ev_demands := [(2, 1, 3); (0, 3, 300)]; ev_time := 104 |} :: (calm ∘ (λ i, 108 + 4 * i) <$> seqZ 0 14).

Lemma new_ring_spec {A} `{!Inhabited A} k (l : list A) : 0 ≤ k < 32 → Z.of_nat (length l) < 2 ^ k →
  ring_wf (new_ring (2 ^ k) l) ∧ ring_list (new_ring (2 ^ k) l) = l.
Proof.
  intros Hk Hl. assert (0 < 2 ^ k) by (apply Z.pow_pos_nonneg; lia).
  destruct (fp_ring_create_spec k (replicate (Z.to_nat (2 ^ k)) (inhabitant : A))) as (Hw & El & Em); [done|rewrite length_replicate; lia|].
  unfold new_ring. destruct (enqueue_each_spec l _ Hw) as [Hw' El']; [rewrite Em; change (ring_size _) with 0; lia|]. split; [done|].
  by rewrite El', El.
Qed.

Lemma length_blank : Z.of_nat (length blank) = 2 ^ 16.
Proof. unfold blank. rewrite length_replicate. apply (Z2Nat.id (2 ^ 16)). lia. Qed.

Lemma sjf_start_ready es : ready 5 2 0 0 (sjf_start es).
Proof.
  destruct (new_ring_spec 7 [URGENT_Q_HEAD_TOKEN]) as [Hw2 El2]; [lia|reflexivity|].
  destruct (new_ring_spec 7 (@nil Z)) as [Hw3 El3]; [lia|reflexivity|]. destruct (new_ring_spec 8 (@nil admitted_traffic)) as [Hw4 El4]; [lia|reflexivity|].
  assert (0 ≤ 5 ≤ 255) as Hnn by lia. assert (0 ≤ 0 < 1) as H01 by lia.
  destruct (new_ring_spec 9 (replicate (Z.to_nat NUM_BINS) (create_bin LARGE_BIN_SIZE blank))) as [Hw1 El1]; [lia|rewrite length_replicate; reflexivity|].
  exact (start_ready 5 2 Hnn 0 0 no_state blank 0 _ _ [_] [_] es length_blank eq_refl eq_refl H01 H01 Hw1 Hw2 Hw3 Hw4 El1 El2 El3).
Qed.

(** The total of a flow is at most that of all demands. *)
Lemma pending_le nn es f : Forall (λ e, demands_ok nn (ev_demands e)) es →
  pending es f ≤ sum_of (λ e, sum_of (λ d, d.2) (ev_demands e)) es.
Proof.
  induction 1 as [|e es He _ IH]; [done|]. change (demanded (ev_demands e) f + pending es f ≤
    sum_of (λ d, d.2) (ev_demands e) + sum_of (λ e, sum_of (λ d, d.2) (ev_demands e)) es). enough (demanded (ev_demands e) f ≤ sum_of (λ d, d.2) (ev_demands e)) by lia.
  clear IH. induction He as [|d l [_ Hd] _ IH]; [done|].
  change ((if decide (demand_of d = f) then d.2 else 0) + demanded l f ≤ d.2 + sum_of (λ d, d.2) l). case_decide; lia.
Qed.

Lemma sjf_start_backlog es f : flow_ok 5 f → backlog (sjf_start es) f = 0.
Proof.
  intros Hf. destruct (new_status 5 2 0) as (_ & _ & _ & E). apply E. pose proof (sjf_idx_range 5 ltac:(lia) f Hf). lia.
Qed.

Lemma sjf_sample_demands : Forall (λ e, demands_ok 5 (ev_demands e)) sample_events.
Proof. repeat constructor; vm_compute; try tauto; intuition congruence. Qed.

Lemma sjf_batch_witness : wp (get_admissible_traffic 100 1 0) (λ _ w' _, ready 5 2 0 0 w' ∧ script w' = []) (sjf_start sample_events).
Proof.
  eapply wp_mono; [apply (sjf_batch 5 2 ltac:(lia) ltac:(lia) 0 0 (sjf_start sample_events) (hd (calm 0) sample_events) (tl sample_events) [])|].
  - apply sjf_start_ready.
  - split; [reflexivity|exact sjf_sample_demands| |vm_compute; lia..].
    intros f Hf. unfold total. rewrite sjf_start_backlog by done. pose proof (pending_le 5 _ f sjf_sample_demands) as Hle.
    change (script (sjf_start sample_events)) with sample_events. eapply Z.le_lt_trans; [exact Hle|]. vm_compute. reflexivity.
  - vm_compute. reflexivity.
  - intros [] w' l (Hw & Es & _). split; [exact Hw|exact Es].
Defined.

(** ** Where it goes wrong *)

(** *** Bins that nobody looks at *)
Section unseen.
Context {Rb Re Ra : Type} `{Ring Rb bin} `{Ring Re Z} `{Ring Ra admitted_traffic} `{!Inhabited Rb} `{!Inhabited Re}.
Abbreviation world := (world Rb Re Ra).
Abbreviation W := (M False world).
Implicit Types (w : world) (f : flow).

(** A flow can be put into the bin. *)
Definition roomy (b : bin) : Prop := 0 ≤ tail b < Z.of_nat (length (edges b)) ∧ Z.of_nat (length (edges b)) = 2 ^ 16.

Lemma wf_roomy b : bin_wf b → roomy b.
Proof using. intros (? & ? & El). split; [rewrite El; lia|done]. Qed.

Definition with_new (nb : list bin) w : world := set_core (set_new_request_bins nb (core w)) w.

(** [nb] are bins of new requests that differ from those of [w] below the last. *)
Record other_bins w (nb : list bin) : Prop := {
  ob_len : Z.of_nat (length nb) = 256 ∧ Z.of_nat (length (new_request_bins (core w))) = 256;
  ob_last : arr_get nb 255 = arr_get (new_request_bins (core w)) 255;
  ob_room : ∀ j, 0 ≤ j < 255 → roomy (arr_get nb j) ∧ roomy (arr_get (new_request_bins (core w)) j);
}.

(** Both are undefined, or both end with the same result and worlds that differ in
    bins of new requests below the last only. *)
Definition same_outcome {A} (o o' : option (A * world * list (Prelude.event False))) : Prop :=
  match o, o' with
  | Some (a, w, l), Some (a', w', l') => a' = a ∧ l' = l ∧ ∃ nb, w' = with_new nb w ∧ other_bins w nb
  | None, None => True
  | _, _ => False
  end.
Definition blind {A} (m : W A) : Prop := ∀ w nb, other_bins w nb → same_outcome (m w) (m (with_new nb w)).

Lemma blind_ret {A} (a : A) : blind (mret a : W A).
Proof using. intros w nb Hb. split; [done|]. split; [done|]. by exists nb. Qed.

Lemma blind_ub {A} : blind (ub : W A).
Proof using. done. Qed.

Lemma blind_deref {A} (o : option A) : blind (deref o : W A).
Proof using. intros w nb Hb. destruct o; [by apply blind_ret|done]. Qed.

Lemma blind_bind {A A'} (m : W A) (k : A → W A') : blind m → (∀ a, blind (k a)) → blind (m ≫= k).
Proof using.
  intros Hm Hk w nb Hb. specialize (Hm w nb Hb). unfold mbind, M_bind.
  destruct (m w) as [[[a w1] l]|], (m (with_new nb w)) as [[[a' w1'] l']|]; try done.
  destruct Hm as (-> & -> & nb' & -> & Hb'). specialize (Hk a w1 nb' Hb').
  destruct (k a w1) as [[[b w2] l2]|], (k a (with_new nb' w1)) as [[[b' w2'] l2']|]; try done.
  destruct Hk as (-> & -> & Hrest). done.
Qed.

(** What is read does not depend on the bins of new requests. *)
Lemma blind_get {A} (k : world → W A) : (∀ w nb, k (with_new nb w) = k w) → (∀ w, blind (k w)) → blind (get ≫= k).
Proof using.
  intros Hk Hb w nb Hw. specialize (Hb w w nb Hw). unfold mbind, M_bind, get. rewrite Hk.
  by destruct (k w w) as [[[a w1] l]|], (k w (with_new nb w)) as [[[a' w1'] l']|].
Qed.

Lemma blind_modify (f : world → world) : (∀ w nb, f (with_new nb w) = with_new nb (f w)) →
  (∀ w, new_request_bins (core (f w)) = new_request_bins (core w)) → blind (modify f).
Proof using.
  intros Hf Hn w nb [Hl Hlast Hr]. unfold modify. split; [done|]. split; [done|]. exists nb. split; [apply Hf|]. by split; rewrite Hn.
Qed.

Lemma blind_when b (m : W unit) : blind m → blind (when b m).
Proof using. destruct b; [done|]. intros _. apply blind_ret. Qed.
End unseen.

Create HintDb blind discriminated.
#[export] Hint Resolve blind_ret blind_ub blind_deref : blind.

Ltac blind_tac :=
  repeat (intros; match goal with
  | |- blind _ => solve [auto 1 with blind nocore]
  | |- blind (get ≫= _) => apply blind_get; [reflexivity|]
  | |- blind (_ ≫= _) => apply blind_bind
  | |- blind (modify _) => apply blind_modify; [reflexivity|reflexivity]
  | |- blind (when _ _) => apply blind_when
  | |- blind (if ?b then _ else _) => destruct b
  | |- blind (match ?p with _ => _ end) => destruct p
  | |- blind (let _ := _ in _) => cbv zeta
  end).

Section procedures.
Context {Rb Re Ra : Type} `{Ring Rb bin} `{Ring Re Z} `{Ring Ra admitted_traffic} `{!Inhabited Rb} `{!Inhabited Re}.
Abbreviation world := (world Rb Re Ra).
Abbreviation W := (M False world).

Lemma blind_add_backlog s d n : blind (add_backlog s d n : W unit).
Proof using. unfold add_backlog, add_backlog_no_enqueue. blind_tac. Qed.
#[local] Hint Resolve blind_add_backlog : blind.

Lemma blind_add_demands l : blind (add_demands l : W unit).
Proof using. induction l as [|[[s d] n] l IH]; cbn [add_demands]; blind_tac. Qed.
#[local] Hint Resolve blind_add_demands : blind.

Lemma blind_observe : blind (observe : W Z).
Proof using. unfold observe. blind_tac. Qed.
#[local] Hint Resolve blind_observe : blind.

Lemma blind_dequeue_head : blind (dequeue_head : W (list Z)).
Proof using. unfold dequeue_head. blind_tac. Qed.

Lemma blind_dequeue_urgent : blind (dequeue_urgent_in : W (list Z)).
Proof using. unfold dequeue_urgent_in. blind_tac. Qed.

Lemma blind_enqueue_urgent e : blind (enqueue_urgent_out e : W unit).
Proof using. unfold enqueue_urgent_out. blind_tac. Qed.
#[local] Hint Resolve blind_dequeue_head blind_dequeue_urgent blind_enqueue_urgent : blind.

Lemma blind_try_allocation s d : blind (try_allocation s d : W Z).
Proof using. unfold try_allocation. generalize (S (Z.to_nat BATCH_SIZE)). intros fuel. induction fuel; cbn [try_allocation_loop]; blind_tac. Qed.
#[local] Hint Resolve blind_try_allocation : blind.

Lemma roomy_enqueue b s d : roomy b → ∃ b', enqueue_bin b s d = Some b' ∧ roomy b'.
Proof using.
  intros [Ht Hl]. unfold enqueue_bin. rewrite arr_write_set by lia. cbn [mbind option_bind]. eexists. split; [done|].
  unfold roomy. cbn [tail edges]. rewrite length_arr_set, Hl. split; [|done]. apply u16_range.
Qed.

(** A flow may be put into a bin that differs. *)
Lemma blind_enqueue_new j s d : blind (enqueue_new_request j s d : W unit).
Proof using.
  intros w nb [[Hl Hl'] Hlast Hr]. unfold enqueue_new_request, deref, get, modify, mbind, M_bind.
  change (new_request_bins (core (with_new nb w))) with nb. unfold arr_read.
  destruct (Z.leb_spec 0 j) as [Hj|]; [|done]. destruct (decide (j < 256)) as [Hj'|Hj'].
  2: { rewrite !lookup_ge_None_2 by lia. done. }
  rewrite !list_lookup_lookup_total_lt by lia. fold (arr_get nb j). fold (arr_get (new_request_bins (core w)) j).
  assert (∀ b b', (0 ≤ j < 255 → roomy b ∧ roomy b') → (j = 255 → b = b') →
    other_bins (with_new (arr_set (new_request_bins (core w)) j b) w) (arr_set nb j b')) as Hset.
  { intros b b' Hbb E. split; simpl; rewrite ?length_arr_set; [done|..].
    - rewrite !arr_get_set by lia. destruct (decide (j = 255)) as [->|]; [symmetry; by apply E|done].
    - intros i Hi. rewrite !arr_get_set by lia. destruct (decide (j = i)) as [->|]; [split; by apply Hbb|by apply Hr]. }
  destruct (decide (j = 255)) as [->|Hne].
  - rewrite Hlast. destruct (enqueue_bin _ s d) as [b|]; [|done]. split; [done|]. split; [done|].
    exists (arr_set nb 255 b). split; [reflexivity|]. apply (Hset b b); [lia|intros _; reflexivity].
  - destruct (Hr j ltac:(lia)) as [R1 R2]. destruct (roomy_enqueue _ s d R1) as (b' & -> & Rb').
    destruct (roomy_enqueue _ s d R2) as (b & -> & Rb0). split; [done|]. split; [done|].
    exists (arr_set nb j b'). split; [reflexivity|]. apply (Hset b b'); [intros _; split; assumption|intros E; destruct (Hne E)].
Qed.
#[local] Hint Resolve blind_enqueue_new : blind.

Lemma blind_one_new_request s d j t : blind (process_one_new_request s d j t : W unit).
Proof using. unfold process_one_new_request. blind_tac. Qed.
#[local] Hint Resolve blind_one_new_request : blind.

Lemma blind_urgent_edges es t : blind (process_urgent_edges es t : W bool).
Proof using. induction es; cbn [process_urgent_edges]; blind_tac. Qed.
#[local] Hint Resolve blind_urgent_edges : blind.

Lemma blind_q_urgent fuel t : blind (process_q_urgent fuel t : W bool).
Proof using. induction fuel; cbn [process_q_urgent]; blind_tac. Qed.

Lemma blind_head_edges es t : blind (process_head_edges es t : W unit).
Proof using. induction es; cbn [process_head_edges]; blind_tac. Qed.
#[local] Hint Resolve blind_head_edges : blind.

Lemma blind_head fuel t : blind (process_head fuel t : W unit).
Proof using. induction fuel; cbn [process_head]; blind_tac. Qed.
#[local] Hint Resolve blind_q_urgent blind_head : blind.

Lemma blind_new_requests t : blind (process_new_requests t : W Z).
Proof using. unfold process_new_requests. blind_tac. Qed.
#[local] Hint Resolve blind_new_requests : blind.

Lemma blind_pace fuel mul shift b start : blind (pace fuel mul shift b start : W unit).
Proof using. induction fuel; cbn [pace]; blind_tac. Qed.
#[local] Hint Resolve blind_pace : blind.

Lemma blind_output first mul shift b : blind (output_timeslot first mul shift b : W unit).
Proof using. unfold output_timeslot. blind_tac. Qed.
#[local] Hint Resolve blind_output : blind.

Lemma blind_each (f : Z → W unit) l : (∀ i, blind (f i)) → blind (each_bin f l).
Proof using. intros Hf. induction l; cbn [each_bin]; blind_tac. Qed.

Lemma blind_pass_on b : blind (pass_on_bin b : W unit).
Proof using. unfold pass_on_bin, enqueue_bin_out. blind_tac. Qed.

Lemma blind_enqueue_outgoing j s d : blind (enqueue_outgoing j s d : W unit).
Proof using. unfold enqueue_outgoing. blind_tac. Qed.
#[local] Hint Resolve blind_pass_on blind_enqueue_outgoing : blind.

(** The last bin is the same in both. *)
Lemma blind_set_last b : blind (modify (λ w, set_core (set_new_request_bins
  (arr_set (new_request_bins (core w)) (NUM_BINS - 1) b) (core w)) w) : W unit).
Proof using.
  change (NUM_BINS - 1) with 255. intros w nb [[Hl Hl'] Hlast Hr]. unfold modify. split; [done|]. split; [done|].
  exists (arr_set nb 255 b). split; [done|]. split; simpl; rewrite ?length_arr_set; [done|..].
  - by rewrite !arr_get_set, !decide_True by lia.
  - intros j Hj. rewrite !arr_get_set, !decide_False by lia. by apply Hr.
Qed.
#[local] Hint Resolve blind_set_last : blind.

Lemma blind_move_last k b : blind (move_last_bin k b : W unit).
Proof using. revert b. induction k; intros b; cbn [move_last_bin]; blind_tac. Qed.

Lemma blind_last {A} (k : bin → W A) : (∀ b, blind (k b)) →
  blind (w ← get; last ← deref (arr_read (new_request_bins (core w)) (NUM_BINS - 1)); k last).
Proof using.
  intros Hk w nb Hb. unfold mbind, M_bind, get, deref. pose proof Hb as [[Hl Hl'] Hlast _].
  change (new_request_bins (core (with_new nb w))) with nb. change (NUM_BINS - 1) with 255.
  rewrite !arr_read_get, Hlast by lia. specialize (Hk (arr_get (new_request_bins (core w)) 255) w nb Hb).
  by destruct (k _ w) as [[[a w1] l]|], (k _ (with_new nb w)) as [[[a' w1'] l']|].
Qed.

Lemma blind_rest : blind (enqueue_urgent_out URGENT_Q_HEAD_TOKEN;;
  w ← get;
  last ← deref (arr_read (new_request_bins (core w)) (NUM_BINS - 1));
  move_last_bin bin_rounds last;;
  each_bin pass_on_bin (seqZ (NUM_BINS - BATCH_SIZE) BATCH_SIZE);;
  modify (λ w, set_core (set_temporary_bins (replicate (Z.to_nat NUM_BINS) None) (set_outgoing_bins (temporary_bins (core w)) (core w))) w);;
  modify (λ w, set_status (advance_timeslot (status w)) w) : W unit).
Proof using.
  apply blind_bind; [auto with blind|intros _].
  apply blind_last. intros b. apply blind_bind; [apply blind_move_last|intros _].
  apply blind_bind; [apply blind_each; auto with blind|intros _]. blind_tac.
Qed.
End procedures.

Section late.
Context {Rb Re Ra : Type} `{Ring Rb bin} `{Ring Re Z} `{Ring Ra admitted_traffic} `{!Inhabited Rb} `{!Inhabited Re}.
Abbreviation world := (world Rb Re Ra).
Abbreviation W := (M False world).
Implicit Types (w : world).

Lemma run_step {A A'} (m : W A) (k : A → W A') w a w1 : m w = Some (a, w1, []) → (m ≫= k) w = k a w1.
Proof using. intros E. unfold mbind, M_bind. rewrite E. by destruct (k a w1) as [[[]]|]. Qed.

Lemma burst_nil (r : Re) k : r_wf r → r_list r = [] → r_dequeue_burst k r = ([], r).
Proof using. intros Hr El. destruct k; [done|]. cbn [r_dequeue_burst]. pose proof (r_dequeue_spec r Hr) as Hd. rewrite El in Hd. by rewrite Hd. Qed.

Lemma burst_one (r r' : Re) x k : r_dequeue r = Some (x, r') → r_wf r' → r_list r' = [] → r_dequeue_burst (S k) r = ([x], r').
Proof using. intros Ed Hr El. cbn [r_dequeue_burst]. by rewrite Ed, burst_nil. Qed.

(** A poll that finds nothing. *)
Lemma poll_nothing k b w : r_wf (q_head w) → r_list (q_head w) = [] → process_head (S k) b w = Some (tt, w, []).
Proof using.
  intros Hr El.
  cbn [process_head]. rewrite (run_step _ _ w [] w); [by destruct w|]. unfold dequeue_head. munfold. rewrite burst_nil by done. by destruct w.
Qed.

(** The world once the demand [n] of flow [f] has been counted. *)
Definition counted (f : flow) (n : Z) (es : list event) (q : Re) w : world :=
  set_q_head q (set_status (set_flows (arr_set (flows (status w)) (idx f) n) (status w)) (set_script es w)).

Lemma same_bind {A A'} (m : W A) (k : A → W A') w w' : same_outcome (m w) (m w') → (∀ a, blind (k a)) →
  same_outcome ((m ≫= k) w) ((m ≫= k) w').
Proof using.
  intros Hm Hk. unfold mbind, M_bind. destruct (m w) as [[[a w1] l]|], (m w') as [[[a' w1'] l']|]; try done.
  destruct Hm as (-> & -> & nb & -> & Hb). specialize (Hk a w1 nb Hb).
  destruct (k a w1) as [[[c w2] l2]|], (k a (with_new nb w1)) as [[[c' w2'] l2']|]; try done.
  destruct Hk as (-> & -> & Hrest). done.
Qed.

(** Further demand of a flow with a backlog does not make it wait. *)
Lemma add_backlog_active (f : flow) m w : Z.of_nat (length (flows (status w))) = 2 ^ 16 → flow_ok 255 f →
  0 < backlog w f → 0 < m → backlog w f + m < 2 ^ 31 →
  add_backlog f.1 f.2 m w = Some (tt, set_status (set_flows (arr_set (flows (status w)) (idx f) (backlog w f + m)) (status w)) w, []).
Proof using.
  intros Hl Hf Hb Hm Hmax. pose proof (sjf_idx_range 255 ltac:(lia) f Hf). unfold add_backlog, add_backlog_no_enqueue. munfold.
  unfold atomic32_add_return. change (get_status_index f.1 f.2) with (idx f). rewrite arr_read_get by lia. cbn [mbind option_bind].
  fold (backlog w f). rewrite arr_write_set by lia. cbn [mbind option_bind]. assert (s32 (backlog w f + m) = backlog w f + m) as -> by mlia.
  by rewrite (proj2 (Z.eqb_neq _ m)) by lia.
Qed.

(** The poll that gets the late demand puts the flow into a bin of new requests. *)
Lemma late_poll (f : flow) n b t es w : flow_ok 255 f → Z.of_nat (length (flows (status w))) = 2 ^ 16 → backlog w f = 0 →
  is_head (core w) = true → r_wf (q_head w) → r_list (q_head w) = [] → (0 < r_free (q_head w))%nat →
  script w = {| ev_demands := [(f.1, f.2, n)]; ev_time := t |} :: es → 0 ≤ b < n → n < 256 →
  Z.of_nat (length (new_request_bins (core w))) = 256 → Forall roomy (new_request_bins (core w)) →
  ∃ q late, r_wf q ∧ r_list q = [] ∧ enqueue_bin (arr_get (new_request_bins (core w)) (n - 1)) f.1 f.2 = Some late ∧
    process_new_requests b w = Some (t, with_new (arr_set (new_request_bins (core w)) (n - 1) late) (counted f n es q w), []).
Proof using.
  intros Hf Hfl Hb0 Hhd Hwf Hq Hfree Hs Hb Hn Hl Hroom. pose proof (sjf_idx_range 255 ltac:(lia) f Hf) as Hi. pose proof (flow_small 255 ltac:(lia) f Hf).
  set (edge := MAKE_EDGE 0 f.1 f.2). destruct (r_enqueue_spec (q_head w) edge Hwf Hfree) as (q1 & Eq1 & Hq1 & El1 & _). rewrite Hq in El1.
  pose proof (r_dequeue_spec q1 Hq1) as Hd. rewrite El1 in Hd. destruct Hd as (q2 & Ed & Hq2 & El2 & _).
  assert (roomy (arr_get (new_request_bins (core w)) (n - 1))) as Hr by (apply arr_get_Forall; [done|lia]).
  destruct (roomy_enqueue _ f.1 f.2 Hr) as (late & El & _). exists q2, late. split; [done|]. split; [done|]. split; [done|].
  unfold process_new_requests. rewrite (run_step _ _ w t (counted f n es q1 w)).
  2: { unfold observe. rewrite (run_step _ _ w w w) by done. rewrite Hs. cbn [ev_demands ev_time add_demands].
    rewrite (run_step _ _ _ tt (set_script es w)) by done. rewrite (run_step _ _ _ tt (counted f n es q1 w)); [done|].
    rewrite (run_step _ _ _ tt (counted f n es q1 w)); [done|]. unfold add_backlog.
    assert (add_backlog_no_enqueue f.1 f.2 n (set_script es w) = Some (Some edge, counted f n es (q_head w) w, [])) as E.
    { unfold add_backlog_no_enqueue. munfold. unfold atomic32_add_return. change (get_status_index f.1 f.2) with (idx f).
      change (flows (status (set_script es w))) with (flows (status w)). rewrite arr_read_get by lia. cbn [mbind option_bind].
      fold (backlog w f). rewrite Hb0, arr_write_set by lia. cbn [mbind option_bind]. change (0 + n) with n.
      assert (s32 n = n) as -> by mlia. rewrite Z.eqb_refl. by destruct w as [[] [] ? ? ? ? ?]. }
    rewrite (run_step _ _ _ _ _ E). unfold get, deref, modify, mbind, M_bind. cbn [q_head counted set_q_head]. rewrite Eq1. done. }
  rewrite (run_step _ _ _ (counted f n es q1 w) (counted f n es q1 w)) by done. change (is_head (core (counted f n es q1 w))) with (is_head (core w)).
  rewrite Hhd. rewrite (run_step _ _ _ true (counted f n es q1 w)) by done. cbv iota.
  set (w1 := with_new (arr_set (new_request_bins (core w)) (n - 1) late) (counted f n es q2 w)).
  assert (process_head ring_bursts b (counted f n es q1 w) = Some (tt, w1, [])) as E; [|by rewrite (run_step _ _ _ _ _ E)].
  assert (∃ k, ring_bursts = S (S k)) as [k Ek] by (exists (Z.to_nat (2 ^ 17 - 2)); unfold ring_bursts; lia). rewrite Ek.
  change (process_head (S (S k)) b) with (es ← dequeue_head; process_head_edges es b;; (if bool_decide (es = []) then mret tt else process_head (S k) b) : W unit).
  rewrite (run_step _ _ _ [edge] (counted f n es q2 w)).
  2: { unfold dequeue_head. munfold. cbn [q_head counted set_q_head].
    pose proof (burst_one q1 q2 edge 255 Ed Hq2 El2) as Eb. change (S 255) with RING_DEQUEUE_BURST_SIZE in Eb. by rewrite Eb. }
  assert (process_head_edges [edge] b (counted f n es q2 w) = Some (tt, w1, [])) as E1.
  { cbn [process_head_edges]. destruct (edge_fields 0 f) as (_ & Es & Edd & _); [lia|lia|lia|]. rewrite (run_step _ _ _ _ _ eq_refl).
    change edge with (edge_of (0, f)). rewrite Es, Edd. unfold bin_index_from_src_dst, MAX_SRCS, MAX_DSTS, MAX_NODES.
    rewrite !(proj2 (Z.ltb_lt _ _)) by lia. cbn [andb]. change (get_status_index f.1 f.2) with (idx f).
    change (flows (status (counted f n es q2 w))) with (arr_set (flows (status w)) (idx f) n).
    rewrite arr_read_get by (rewrite length_arr_set; lia). cbn [mbind option_bind]. rewrite arr_get_set, decide_True, u32_small by (done || lia).
    rewrite (proj2 (Z.eqb_neq n 0)), (proj2 (Z.leb_le n NUM_BINS)), u16_small by (unfold NUM_BINS; lia).
    rewrite (run_step _ _ _ _ _ eq_refl). unfold process_one_new_request. rewrite (proj2 (Z.ltb_ge (n - 1) b)) by lia.
    rewrite (run_step _ _ _ tt w1); [done|]. unfold enqueue_new_request. rewrite (run_step _ _ _ _ _ eq_refl).
    change (new_request_bins (core (counted f n es q2 w))) with (new_request_bins (core w)). rewrite arr_read_get by lia.
    rewrite (run_step _ _ _ _ _ eq_refl), El, (run_step _ _ _ _ _ eq_refl). done. }
  rewrite (run_step _ _ _ _ _ E1). rewrite bool_decide_eq_false_2 by done.
  exact (poll_nothing k b w1 Hq2 El2).
Qed.

End late.

(** Node 3 asks for 20 timeslots to node 4 while timeslot 4 is awaited. *)
Definition waiting_core : world (fp_ring bin) (fp_ring Z) (fp_ring admitted_traffic) :=
  let w := sjf_start ({| ev_demands := [(3, 4, 20)]; ev_time := 1000 |} :: replicate 14 (calm 1000)) in
  set_core (set_is_head true (core w)) w.


(** A whole batch with such a demand: afterwards the flow waits in no ring. *)
Definition waiting (w : world (fp_ring bin) (fp_ring Z) (fp_ring admitted_traffic)) : list flow :=
  concat (bin_flows <$> ring_list (bin_ring 0 w)) ++
  ((λ e, (EDGE_SRC e, EDGE_DST e)) <$> filter (λ e, e ≠ URGENT_Q_HEAD_TOKEN) (ring_list (urgent_ring 0 w)) ++ ring_list (q_head w)).

Definition late_events : list event := calm 0 :: calm 1000 :: {| ev_demands := [(3, 4, 20)]; ev_time := 1000 |} :: replicate 14 (calm 1000).

Example late_demand_run : match get_admissible_traffic 0 1 0 (sjf_start late_events) with
  | Some (_, w, _) => bool_decide (arr_get (flows (status w)) (idx (3, 4)) = 20) && bool_decide (waiting w = [])
  | None => false end = true.
Proof. vm_compute. reflexivity. Qed.

Definition two_flows : list event := {| ev_demands := [(1, 2, 70); (1, 3, 200)]; ev_time := 1000 |} :: replicate 16 (calm 1000).
Definition third_flow : list event := {| ev_demands := [(1, 4, 64)]; ev_time := 1000 |} :: replicate 16 (calm 1000).

(** [reset_sender] leaves a backlog of 1 to a flow that waits in a large bin. If the next batch
    has no timeslot left for it, the flow is to go into the first outgoing bin, which has been
    passed on: the assertion of [enqueue_bin] fails. Without the reset the batch ends. *)
Theorem reset_sender_breaks_batch : ∃ w s, get_admissible_traffic 0 1 0 (sjf_start two_flows) = Some (tt, w, []) ∧
  reset_sender (status w) 1 = Some s ∧ arr_get (flows s) (idx (1, 3)) = 1 ∧
  get_admissible_traffic 0 1 0 (set_script third_flow (set_status s w)) = None ∧
  get_admissible_traffic 0 1 0 (set_script third_flow w) ≠ None.
Proof.
  assert (match get_admissible_traffic 0 1 0 (sjf_start two_flows) with
    | Some (_, w, l) => match reset_sender (status w) 1 with
      | Some s => bool_decide (l = []) && bool_decide (arr_get (flows s) (idx (1, 3)) = 1) &&
          match get_admissible_traffic 0 1 0 (set_script third_flow (set_status s w)) with None => true | _ => false end &&
          match get_admissible_traffic 0 1 0 (set_script third_flow w) with None => false | _ => true end
      | None => false end
    | None => false end = true) as Hrun by (vm_compute; reflexivity).
  destruct (get_admissible_traffic 0 1 0 (sjf_start two_flows)) as [[[[] w] l]|]; [|done].
  destruct (reset_sender (status w) 1) as [s|] eqn:Es; [|done]. exists w, s.
  apply andb_true_iff in Hrun as [[[Hl Hx]%andb_true_iff H1]%andb_true_iff H2]. apply bool_decide_eq_true_1 in Hl as ->. apply bool_decide_eq_true_1 in Hx.
  split; [done|]. split; [done|]. split; [done|]. split; [by destruct (get_admissible_traffic 0 1 0 (set_script third_flow (set_status s w)))|].
  by destruct (get_admissible_traffic 0 1 0 (set_script third_flow w)).
Qed.
