(* ===== verification/Comm.v ===== *)
(** * The communication core

    Model of [src/src/arbiter/comm_core.c]: the per-endpoint state of the arbiter,
    the handlers that the control protocol calls, the queues of allocations and
    reports, and the filling of packets. [src/src/arbiter/comm_log.h] (counters
    and log lines) is left out, as are the Ethernet addresses that are copied
    between headers. A procedure takes the value of [rte_get_timer_cycles()] as an
    argument: one call of a handler reads the clock once. *)

From S2P Require Import Prelude Platform Window Protocol Codec Pacer Timer PathSelection GrantAccept.
Export Pacer AllocFlags Timer PathHeader Partitioning.

Definition ALLOC_REPORT_QUEUE_SIZE : Z := Z.shiftl 1 (FP_NODES_SHIFT + 1).
Definition ALLOC_REPORT_QUEUE_MASK : Z := ALLOC_REPORT_QUEUE_SIZE - 1.

(** ** State *)
Record pending_alloc := { al_dst : Z; al_timeslot : Z; al_flags : Z; al_id : Z; al_data : list Z }.
#[export] Instance pending_alloc_inhabited : Inhabited pending_alloc :=
  populate {| al_dst := 0; al_timeslot := 0; al_flags := 0; al_id := 0; al_data := [] |}.

(** [head] and [tail] are free-running; the array has 256 entries. *)
Record pending_alloc_queue := { allocs : list pending_alloc; pq_head : Z; pq_tail : Z }.

Record alloc_report_queue := { is_pending : list Z; q_pending : list Z; rq_head : Z; rq_tail : Z }.

Record end_node_state := {
  conn : fpproto_conn;
  pending_allocs : pending_alloc_queue;
  demands : list Z;
  alloc_to_dst : list Z;
  acked_allocs : list Z;
  report_queue : alloc_report_queue;
  tx_pacer : fp_pacer;
  dst_ip : Z;
  controller_ip : Z;
}.

Definition set_conn v en := {| conn := v; pending_allocs := pending_allocs en; demands := demands en;
  alloc_to_dst := alloc_to_dst en; acked_allocs := acked_allocs en; report_queue := report_queue en;
  tx_pacer := tx_pacer en; dst_ip := dst_ip en; controller_ip := controller_ip en |}.
Definition set_pending_allocs v en := {| conn := conn en; pending_allocs := v; demands := demands en;
  alloc_to_dst := alloc_to_dst en; acked_allocs := acked_allocs en; report_queue := report_queue en;
  tx_pacer := tx_pacer en; dst_ip := dst_ip en; controller_ip := controller_ip en |}.
Definition set_demands v en := {| conn := conn en; pending_allocs := pending_allocs en; demands := v;
  alloc_to_dst := alloc_to_dst en; acked_allocs := acked_allocs en; report_queue := report_queue en;
  tx_pacer := tx_pacer en; dst_ip := dst_ip en; controller_ip := controller_ip en |}.
Definition set_alloc_to_dst v en := {| conn := conn en; pending_allocs := pending_allocs en; demands := demands en;
  alloc_to_dst := v; acked_allocs := acked_allocs en; report_queue := report_queue en;
  tx_pacer := tx_pacer en; dst_ip := dst_ip en; controller_ip := controller_ip en |}.
Definition set_acked_allocs v en := {| conn := conn en; pending_allocs := pending_allocs en; demands := demands en;
  alloc_to_dst := alloc_to_dst en; acked_allocs := v; report_queue := report_queue en;
  tx_pacer := tx_pacer en; dst_ip := dst_ip en; controller_ip := controller_ip en |}.
Definition set_report_queue v en := {| conn := conn en; pending_allocs := pending_allocs en; demands := demands en;
  alloc_to_dst := alloc_to_dst en; acked_allocs := acked_allocs en; report_queue := v;
  tx_pacer := tx_pacer en; dst_ip := dst_ip en; controller_ip := controller_ip en |}.
Definition set_tx_pacer v en := {| conn := conn en; pending_allocs := pending_allocs en; demands := demands en;
  alloc_to_dst := alloc_to_dst en; acked_allocs := acked_allocs en; report_queue := report_queue en;
  tx_pacer := v; dst_ip := dst_ip en; controller_ip := controller_ip en |}.
Definition set_addrs d c en := {| conn := conn en; pending_allocs := pending_allocs en; demands := demands en;
  alloc_to_dst := alloc_to_dst en; acked_allocs := acked_allocs en; report_queue := report_queue en;
  tx_pacer := tx_pacer en; dst_ip := d; controller_ip := c |}.

(** [end_nodes] and the [comm_core_state] of the core; the timers of end node
    [i] have the number [i] in the wheels. *)
Record comm_state := {
  end_nodes : list end_node_state;
  alloc_enc_space : list Z;
  latest_timeslot : list Z;
  timeout_timers : fp_timers;
  tx_timers : fp_timers;
}.

Definition set_end_nodes v st := {| end_nodes := v; alloc_enc_space := alloc_enc_space st;
  latest_timeslot := latest_timeslot st; timeout_timers := timeout_timers st; tx_timers := tx_timers st |}.
Definition set_alloc_enc_space v st := {| end_nodes := end_nodes st; alloc_enc_space := v;
  latest_timeslot := latest_timeslot st; timeout_timers := timeout_timers st; tx_timers := tx_timers st |}.
Definition set_latest_timeslot v st := {| end_nodes := end_nodes st; alloc_enc_space := alloc_enc_space st;
  latest_timeslot := v; timeout_timers := timeout_timers st; tx_timers := tx_timers st |}.
Definition set_timeout_timers v st := {| end_nodes := end_nodes st; alloc_enc_space := alloc_enc_space st;
  latest_timeslot := latest_timeslot st; timeout_timers := v; tx_timers := tx_timers st |}.
Definition set_tx_timers v st := {| end_nodes := end_nodes st; alloc_enc_space := alloc_enc_space st;
  latest_timeslot := latest_timeslot st; timeout_timers := timeout_timers st; tx_timers := v |}.

(** Calls into the admission algorithm (graph-algo/admissible.h), and the packets
    handed to the network. *)
Inductive comm_call :=
| AddBacklog (src dst amount start_id : Z) (p_extra : option (list Z))
| ResetSender (src : Z)
| HandleSpentDemands
| FlushBacklog
| SendPacket (node_id : Z) (ip_packet : list Z)
| SendArp
| FreePktdesc (pd : option fpproto_pktdesc)
| FreeMbuf.

Abbreviation C_ := (M comm_call comm_state).

Definition get_node (node_id : Z) : C_ end_node_state :=
  st ← get; deref (end_nodes st !! Z.to_nat node_id).
Definition upd_node (node_id : Z) (f : end_node_state → end_node_state) : C_ unit :=
  modify (λ st, set_end_nodes (alter f (Z.to_nat node_id) (end_nodes st)) st).

(** [(int32_t)a - (int32_t)b]. A difference that does not fit is undefined in C;
    it wraps with the compiler option -fwrapv, which no build file of the
    repository passes. *)
Definition diff32 (fwrapv : bool) (a b : Z) : option Z :=
  let d := s32 a - s32 b in
  if (- 2 ^ 31 <=? d) && (d <? 2 ^ 31) then Some d
  else if fwrapv then Some (s32 d) else None.

(** An array store; undefined outside the array. *)
Definition store {A} (l : list A) (i : Z) (x : A) : option (list A) :=
  if (0 <=? i) && (i <? Z.of_nat (length l)) then Some (arr_set l i x) else None.

(** ** Transmissions and reports *)
Definition trigger_request (now node_id : Z) : C_ unit :=
  en ← get_node node_id;
  let '(fired, pa) := pacer_trigger (tx_pacer en) now in
  upd_node node_id (set_tx_pacer pa);;
  when fired (modify (λ st, set_tx_timers (fp_timer_reset node_id (pacer_next_event pa) (tx_timers st)) st)).

Definition trigger_report (now node_id dst : Z) : C_ unit :=
  en ← get_node node_id;
  let q := report_queue en in
  p ← deref (is_pending q !! Z.to_nat dst);
  if negb (p =? 0) then mret tt
  else
    upd_node node_id (set_report_queue {|
      is_pending := arr_set (is_pending q) dst 1;
      q_pending := arr_set (q_pending q) (Z.land (rq_tail q) ALLOC_REPORT_QUEUE_MASK) dst;
      rq_head := rq_head q; rq_tail := u32 (rq_tail q + 1) |});;
    trigger_request now node_id.

Definition report_empty (q : alloc_report_queue) : bool := rq_head q =? rq_tail q.

Definition report_pop (q : alloc_report_queue) : option (Z * alloc_report_queue) :=
  if report_empty q then None
  else
    let node := arr_get (q_pending q) (Z.land (rq_head q) ALLOC_REPORT_QUEUE_MASK) in
    p ← is_pending q !! Z.to_nat node;
    if p =? 0 then None
    else Some (node, {| is_pending := arr_set (is_pending q) node 0; q_pending := q_pending q;
                        rq_head := u32 (rq_head q + 1); rq_tail := rq_tail q |}).

(** ** Handlers of the control protocol *)
Section handlers.
Context (B : build) (fwrapv : bool) (now : Z) (node_id : Z).

Definition cancel_retrans_timer : C_ unit :=
  modify (λ st, set_timeout_timers (fp_timer_stop node_id (timeout_timers st)) st).

Definition set_retrans_timer (when_ : Z) : C_ unit :=
  modify (λ st, set_timeout_timers (fp_timer_reset node_id when_ (timeout_timers st)) st).

Fixpoint repeat_backlog (k : nat) (dst id : Z) (data : option (list Z)) : C_ unit :=
  match k with
  | O => mret tt
  | S k' => call (AddBacklog node_id dst 1 (u16 id) data);; repeat_backlog k' dst (id + 1) data
  end.

(** The demand that a 16-bit count stands for. *)
Definition expand_demand (orig_demand count : Z) : Z :=
  let demand := u32 (orig_demand - 2 ^ 15) in
  u32 (demand + Z.land (u32 (count - demand)) 0xFFFF).

(** An increase of the demand to [dst]. [pkt] is the memory of the packet buffer
    from the requests on; [counts] and [data] are the positions of the request data
    in an emulation build. Returns their new values. *)
Definition add_demand (pkt : list Z) (dst orig_demand demand_diff counts data : Z) : C_ (Z * Z) :=
  if EMULATION_ALGO B then
    c ← deref (ld8 pkt counts);
    '(orig_demand, demand_diff) ←
      (if (emu_req_data_bytes B >? 0) && negb (c =? demand_diff) && (demand_diff >? c) then
         let missing := if c =? 0 then None else Some (drop (Z.to_nat data) pkt) in
         repeat_backlog (Z.to_nat (demand_diff - c)) dst (Z.land orig_demand 0xFFFF) missing;;
         mret (u32 (orig_demand + (demand_diff - c)), c)
       else mret (orig_demand, demand_diff));
    call (AddBacklog node_id dst demand_diff (Z.land orig_demand 0xFFFF) (Some (drop (Z.to_nat data) pkt)));;
    mret (counts + 1, data + emu_req_data_bytes B * c)
  else
    call (AddBacklog node_id dst demand_diff 0 None);;
    mret (counts, data).

(** The loop over the [n - i] remaining requests; false if it returned early. *)
Fixpoint areq_loop (k : nat) (pkt : list Z) (i counts data : Z) : C_ bool :=
  match k with
  | O => mret true
  | S k' =>
      dst ← deref (ld16 pkt (4 * i));
      count ← deref (ld16 pkt (4 * i + 2));
      if negb (node_id <? NUM_NODES) then mret false
      else if negb (Z.shiftr dst FLOW_SHIFT <? NUM_NODES) then mret false
      else
        en ← get_node node_id;
        orig_demand ← deref (demands en !! Z.to_nat dst);
        let demand := expand_demand orig_demand count in
        demand_diff ← deref (diff32 fwrapv demand orig_demand);
        '(counts, data) ←
          (if demand_diff >? 0 then
             p ← add_demand pkt dst orig_demand demand_diff counts data;
             upd_node node_id (λ en, set_demands (arr_set (demands en) dst demand) en);;
             mret p
           else mret (counts, data));
        areq_loop k' pkt (i + 1) counts data
  end.

Definition handle_areq (dst_and_count : list Z) (n : Z) : C_ unit :=
  let counts := 4 * n in
  let data := if Z.odd n then counts + n + 1 else counts + n in
  fin ← areq_loop (Z.to_nat n) dst_and_count 0 counts data;
  if (fin : bool) then trigger_request now node_id else mret tt.

Definition handle_reset : C_ unit :=
  call (ResetSender node_id);;
  upd_node node_id (λ en, set_demands (replicate (Z.to_nat MAX_FLOWS) 0) (set_alloc_to_dst (replicate (Z.to_nat MAX_FLOWS) 0)
    (set_acked_allocs (replicate (Z.to_nat MAX_FLOWS) 0) (set_report_queue {|
      is_pending := replicate (Z.to_nat MAX_FLOWS) 0; q_pending := q_pending (report_queue en);
      rq_head := 0; rq_tail := 0 |} en)))).

(** [pd->dsts[(descriptor >> 4) - 1]] *)
Definition desc_dst (pd : fpproto_pktdesc) (descriptor : Z) : option Z :=
  let i := Z.shiftr descriptor 4 - 1 in
  if i <? 0 then None else pd_dsts pd !! Z.to_nat i.

Definition push_alloc (a : pending_alloc) (q : pending_alloc_queue) : pending_alloc_queue :=
  {| allocs := arr_set (allocs q) (wnd_pos (pq_tail q)) a; pq_head := pq_head q; pq_tail := u32 (pq_tail q + 1) |}.

Fixpoint requeue_loop (k : nat) (pd : fpproto_pktdesc) (i : Z) : C_ unit :=
  match k with
  | O => mret tt
  | S k' =>
      descriptor ← deref (pd_tslot_desc pd !! Z.to_nat i);
      dst ← deref (desc_dst pd descriptor);
      emu ← deref (pd_emu_tslot_desc pd !! Z.to_nat i);
      upd_node node_id (λ en, let q := pending_allocs en in
        set_pending_allocs (push_alloc {| al_dst := dst; al_timeslot := pd_base_tslot pd;
          al_flags := Z.land descriptor FLAGS_MASK; al_id := emu_id emu;
          al_data := al_data (arr_get (allocs q) (wnd_pos (pq_tail q))) |} q) en);;
      requeue_loop k' pd (i + 1)
  end.

Fixpoint report_dsts (dsts : list Z) : C_ unit :=
  match dsts with
  | [] => mret tt
  | dst :: dsts' => trigger_report now node_id dst;; report_dsts dsts'
  end.

Definition handle_skipped_ack (p : option fpproto_pktdesc) : C_ unit :=
  pd ← deref p;
  when (RETRANSMIT_UNACKED_ALLOCS B)
    (requeue_loop (Z.to_nat (pd_used_alloc_tslot pd)) pd 0;;
     report_dsts (take (Z.to_nat (pd_n_dsts pd)) (pd_dsts pd))).

Fixpoint neg_ack_loop (areqs : list fpproto_areq_desc) : C_ unit :=
  match areqs with
  | [] => mret tt
  | a :: areqs' =>
      let dst := u16 (src_dst_key a) in
      en ← get_node node_id;
      acked ← deref (acked_allocs en !! Z.to_nat dst);
      d ← deref (diff32 fwrapv (tslots a) acked);
      when (d >? 0) (trigger_report now node_id dst);;
      neg_ack_loop areqs'
  end.

Definition handle_neg_ack (p : option fpproto_pktdesc) : C_ unit :=
  pd ← deref p;
  neg_ack_loop (take (Z.to_nat (pd_n_areq pd)) (pd_areq pd)).

(** Acknowledges the allocations of the packet (with retransmission) ... *)
Fixpoint ack_allocs_loop (k : nat) (pd : fpproto_pktdesc) (i : Z) : C_ unit :=
  match k with
  | O => mret tt
  | S k' =>
      descriptor ← deref (pd_tslot_desc pd !! Z.to_nat i);
      dst ← deref (desc_dst pd descriptor);
      en ← get_node node_id;
      acked ← deref (acked_allocs en !! Z.to_nat dst);
      upd_node node_id (set_acked_allocs (arr_set (acked_allocs en) dst (u32 (acked + 1))));;
      ack_allocs_loop k' pd (i + 1)
  end.

(** ... or its totals. *)
Fixpoint ack_areqs_loop (areqs : list fpproto_areq_desc) : C_ unit :=
  match areqs with
  | [] => mret tt
  | a :: areqs' =>
      let dst := u16 (src_dst_key a) in
      en ← get_node node_id;
      acked ← deref (acked_allocs en !! Z.to_nat dst);
      new_acked ← deref (diff32 fwrapv (tslots a) acked);
      when (new_acked >? 0)
        (upd_node node_id (set_acked_allocs (arr_set (acked_allocs en) dst (u32 (acked + new_acked)))));;
      ack_areqs_loop areqs'
  end.

Definition handle_ack (p : option fpproto_pktdesc) : C_ unit :=
  pd ← deref p;
  if RETRANSMIT_UNACKED_ALLOCS B then ack_allocs_loop (Z.to_nat (pd_used_alloc_tslot pd)) pd 0
  else ack_areqs_loop (take (Z.to_nat (pd_n_areq pd)) (pd_areq pd)).

(** [proto_ops] *)
Definition proto_ops : fpproto_ops := {|
  has_handle_reset := true; has_handle_ack := true; has_handle_neg_ack := true; has_handle_skipped_ack := true;
  has_trigger_request := true; has_handle_alloc := false; has_handle_areq := true; alloc_bytes_per_tslot := 0 |}.

(** A call of the protocol; [handle_alloc] is NULL and never called. *)
Definition dispatch (c : proto_call) : C_ unit :=
  match c with
  | CHandleReset => handle_reset
  | CHandleAck pd => handle_ack pd
  | CHandleNegAck pd => handle_neg_ack pd
  | CHandleSkippedAck pd => handle_skipped_ack pd
  | CTriggerRequest => trigger_request now node_id
  | CHandleAlloc _ _ _ _ _ => ub
  | CHandleAreq bytes n => handle_areq bytes n
  | CSetTimer when_ => set_retrans_timer when_
  | CCancelTimer => cancel_retrans_timer
  | CFree pd => call (FreePktdesc pd)
  end.

Fixpoint dispatch_all (l : list (event proto_call)) : C_ unit :=
  match l with
  | [] => mret tt
  | EvBug site :: l' => bug_on true site;; dispatch_all l'
  | EvCall c :: l' => dispatch c;; dispatch_all l'
  end.

(** The protocol hands the payload of a packet to [handle_areq], which finds the
    memory [tail] of the packet buffer behind it. *)
Definition beyond (tail : list Z) (c : proto_call) : proto_call :=
  match c with CHandleAreq bytes n => CHandleAreq (bytes ++ tail) n | _ => c end.
Definition beyond_event (tail : list Z) (e : event proto_call) : event proto_call :=
  match e with EvCall c => EvCall (beyond tail c) | EvBug site => EvBug site end.
Definition after_packet {A} (tail : list Z) (m : P A) : P A := λ c,
  match m c with
  | Some (a, c', l) => Some (a, c', beyond_event tail <$> l)
  | None => None
  end.

(** A procedure of the protocol on the end node's connection. The handlers do not
    use the connection, so they are run after the procedure, in the order of the
    calls. *)
Definition on_conn {A} (m : P A) : C_ A :=
  en ← get_node node_id;
  '(a, c, l) ← deref (m (conn en));
  upd_node node_id (set_conn c);;
  dispatch_all l;;
  mret a.
End handlers.

(** ** Newly allocated timeslots *)
Definition MAX_ADMITTED_PER_LOOP : Z := 4 * 16.

(** An edge of graph-algo/admitted.h or, in an emulation build, of
    emulation/admitted.h. *)
Inductive admitted_edge :=
| Edge (src dst : Z)
| EmuEdge (src dst flags id : Z) (data : list Z).

Record admitted_traffic := { ad_partition : Z; ad_edges : list admitted_edge }.

(** [src], [dst] and [flags] *)
Definition get_admitted_fields (e : admitted_edge) : Z * Z * Z :=
  match e with
  | EmuEdge src dst flags _ _ => (src, dst, flags)
  | Edge src dst_encoding =>
      (src, Z.land dst_encoding DST_MASK, u8 (Z.shiftr (Z.land dst_encoding PATH_MASK) PATH_SHIFT))
  end.

(** The first [n] bytes of [to] become those of [from]. *)
Definition memcpy (n : Z) (from to : list Z) : list Z := take (Z.to_nat n) from ++ drop (Z.to_nat n) to.

Definition fill_algo_fields_in_alloc (B : build) (e : admitted_edge) (a : pending_alloc) : pending_alloc :=
  match e with
  | EmuEdge _ _ _ id data =>
      {| al_dst := al_dst a; al_timeslot := al_timeslot a; al_flags := al_flags a; al_id := id;
         al_data := memcpy (emu_alloc_data_bytes B) data (al_data a) |}
  | Edge _ _ => a
  end.

Definition get_partition (a : admitted_traffic) : Z := ad_partition a.

Section allocated.
Context (B : build) (now : Z).

(** "is the timeslot queue full? aka is head one more than tail?" *)
Definition make_room (q : pending_alloc_queue) : pending_alloc_queue :=
  if pq_head q =? u32 (pq_tail q + 1)
  then {| allocs := allocs q; pq_head := u32 (pq_head q + 1); pq_tail := pq_tail q |} else q.

Fixpoint admitted_loop (current_timeslot : Z) (edges : list admitted_edge) : C_ unit :=
  match edges with
  | [] => mret tt
  | e :: edges' =>
      let '(src, dst, flags) := get_admitted_fields e in
      en ← get_node src;
      let q := make_room (pending_allocs en) in
      let a := arr_get (allocs q) (wnd_pos (pq_tail q)) in
      let a := fill_algo_fields_in_alloc B e {| al_dst := dst;
        al_timeslot := Z.land (Z.shiftr current_timeslot 4) 0xFFFF; al_flags := Z.land flags FLAGS_MASK;
        al_id := al_id a; al_data := al_data a |} in
      n ← deref (alloc_to_dst en !! Z.to_nat dst);
      upd_node src (λ en, set_pending_allocs (push_alloc a q)
        (set_alloc_to_dst (arr_set (alloc_to_dst en) dst (u32 (n + 1))) en));;
      trigger_report now src dst;;
      admitted_loop current_timeslot edges'
  end.

(** [admitted] are the batches that [rte_ring_dequeue_burst] returned, at most
    [MAX_ADMITTED_PER_LOOP]. *)
Fixpoint process_allocated_traffic_one_q (admitted : list admitted_traffic) : C_ unit :=
  match admitted with
  | [] => mret tt
  | a :: admitted' =>
      let partition := get_partition a in
      st ← get;
      t ← deref (latest_timeslot st !! Z.to_nat partition);
      let current_timeslot := u64 (t + 1) in
      modify (set_latest_timeslot (arr_set (latest_timeslot st) partition current_timeslot));;
      admitted_loop current_timeslot (ad_edges a);;
      process_allocated_traffic_one_q admitted'
  end.

(** One queue, or one per allocation core in an emulation build. *)
Fixpoint process_allocated_traffic (q_admitted : list (list admitted_traffic)) : C_ unit :=
  match q_admitted with
  | [] => mret tt
  | q :: qs => process_allocated_traffic_one_q q;; process_allocated_traffic qs
  end.
End allocated.

(** ** Filling packets *)

(** The fields of a descriptor that the communication core fills in. *)
Definition pd_set_areq (n : Z) (areq : list fpproto_areq_desc) (pd : fpproto_pktdesc) : fpproto_pktdesc := {|
  pd_sent_timestamp := pd_sent_timestamp pd; pd_seqno := pd_seqno pd; pd_ack_seq := pd_ack_seq pd;
  pd_ack_vec := pd_ack_vec pd; pd_send_reset := pd_send_reset pd; pd_reset_timestamp := pd_reset_timestamp pd;
  pd_n_areq := n; pd_areq := areq;
  pd_areq_data_type := pd_areq_data_type pd; pd_areq_data_bytes := pd_areq_data_bytes pd;
  pd_areq_data_counts := pd_areq_data_counts pd; pd_areq_data := pd_areq_data pd;
  pd_alloc_tslot := pd_alloc_tslot pd; pd_used_alloc_tslot := pd_used_alloc_tslot pd;
  pd_base_tslot := pd_base_tslot pd; pd_n_dsts := pd_n_dsts pd; pd_dsts := pd_dsts pd;
  pd_tslot_desc := pd_tslot_desc pd; pd_emu_tslot_desc := pd_emu_tslot_desc pd;
|}.
Definition pd_set_alloc (alloc used base n : Z) (dsts descs : list Z) (emu : list fpproto_emu_desc)
    (pd : fpproto_pktdesc) : fpproto_pktdesc := {|
  pd_sent_timestamp := pd_sent_timestamp pd; pd_seqno := pd_seqno pd; pd_ack_seq := pd_ack_seq pd;
  pd_ack_vec := pd_ack_vec pd; pd_send_reset := pd_send_reset pd; pd_reset_timestamp := pd_reset_timestamp pd;
  pd_n_areq := pd_n_areq pd; pd_areq := pd_areq pd;
  pd_areq_data_type := pd_areq_data_type pd; pd_areq_data_bytes := pd_areq_data_bytes pd;
  pd_areq_data_counts := pd_areq_data_counts pd; pd_areq_data := pd_areq_data pd;
  pd_alloc_tslot := alloc; pd_used_alloc_tslot := used; pd_base_tslot := base; pd_n_dsts := n;
  pd_dsts := dsts; pd_tslot_desc := descs; pd_emu_tslot_desc := emu;
|}.

(** The arrays of the descriptor and the counters while allocations are added. *)
Record alloc_enc := {
  n_dsts : Z; n_tslot : Z; en_dsts : list Z; en_desc : list Z; en_emu : list fpproto_emu_desc }.

Section fill.
Context (B : build) (now node_id : Z).

(** At most [FASTPASS_PKT_MAX_AREQ] reports. *)
Fixpoint report_loop (fuel : nat) (areq : list fpproto_areq_desc) (n_areq : Z) :
    C_ (list fpproto_areq_desc * Z) :=
  en ← get_node node_id;
  if negb (report_empty (report_queue en)) && (n_areq <? FASTPASS_PKT_MAX_AREQ) then
    match fuel with
    | O => ub
    | S fuel' =>
        '(node, q) ← deref (report_pop (report_queue en));
        upd_node node_id (set_report_queue q);;
        let unsent_allocs := u32 (pq_tail (pending_allocs en) - pq_head (pending_allocs en)) in
        n ← deref (alloc_to_dst en !! Z.to_nat node);
        areq ← deref (store areq n_areq {| src_dst_key := node; tslots := u32 (n - unsent_allocs) |});
        report_loop fuel' areq (n_areq + 1)
    end
  else mret (areq, n_areq).

Definition fill_packet_report (pd : fpproto_pktdesc) : C_ fpproto_pktdesc :=
  '(areq, n_areq) ← report_loop (Z.to_nat FASTPASS_PKT_MAX_AREQ) (pd_areq pd) 0;
  en ← get_node node_id;
  when (negb (report_empty (report_queue en))) (trigger_request now node_id);;
  mret (pd_set_areq n_areq areq pd).

(** From the label [next_alloc] to [cleanup]. The loop leaves when 63
    allocations are in the packet. *)
Fixpoint next_alloc (fuel : nat) (x : alloc_enc) : C_ alloc_enc :=
  match fuel with
  | O => ub
  | S fuel' =>
      en ← get_node node_id;
      st ← get;
      let q := pending_allocs en in
      let cur_alloc := arr_get (allocs q) (wnd_pos (pq_head q)) in
      let dst := al_dst cur_alloc in
      e ← deref (alloc_enc_space st !! Z.to_nat dst);
      if (e =? 0) && (n_dsts x =? 15) then mret x
      else
        '(e, n, dsts) ←
          (if e =? 0 then
             dsts ← deref (store (en_dsts x) (n_dsts x) dst);
             let e := u8 (n_dsts x + 1) in
             modify (set_alloc_enc_space (arr_set (alloc_enc_space st) dst e));;
             mret (e, n_dsts x + 1, dsts)
           else mret (e, n_dsts x, en_dsts x));
        desc ← deref (store (en_desc x) (n_tslot x)
          (u8 (Z.lor (Z.shiftl e 4) (Z.land (al_flags cur_alloc) FLAGS_MASK))));
        emu ← (if EMULATION_ALGO B then
            old ← deref (en_emu x !! Z.to_nat (n_tslot x));
            mret (arr_set (en_emu x) (n_tslot x) {| emu_id := al_id cur_alloc;
              emu_data := memcpy (emu_alloc_data_bytes B) (al_data cur_alloc) (emu_data old) |})
          else mret (en_emu x));
        let q := {| allocs := allocs q; pq_head := u32 (pq_head q + 1); pq_tail := pq_tail q |} in
        upd_node node_id (set_pending_allocs q);;
        let x := {| n_dsts := n; n_tslot := n_tslot x + 1; en_dsts := dsts; en_desc := desc; en_emu := emu |} in
        if negb (pq_tail q =? pq_head q) && (n_tslot x <=? FASTPASS_PKT_MAX_ALLOC_TSLOTS B - 2)
        then next_alloc fuel' x else mret x
  end.

(** "we set core->alloc_enc_space back to zeros" *)
Fixpoint cleanup_loop (dsts : list Z) : C_ unit :=
  match dsts with
  | [] => mret tt
  | dst :: dsts' =>
      st ← get;
      sp ← deref (store (alloc_enc_space st) dst 0);
      modify (set_alloc_enc_space sp);;
      cleanup_loop dsts'
  end.

Definition fill_packet_alloc (pd : fpproto_pktdesc) : C_ fpproto_pktdesc :=
  en ← get_node node_id;
  let q := pending_allocs en in
  let x := {| n_dsts := 0; n_tslot := 0; en_dsts := pd_dsts pd; en_desc := pd_tslot_desc pd;
              en_emu := pd_emu_tslot_desc pd |} in
  '(x, base) ←
    (if pq_head q =? pq_tail q then mret (x, pd_base_tslot pd)
     else
       x ← next_alloc (Z.to_nat (FASTPASS_PKT_MAX_ALLOC_TSLOTS B)) x;
       cleanup_loop (take (Z.to_nat (n_dsts x)) (en_dsts x));;
       mret (x, al_timeslot (arr_get (allocs q) (wnd_pos (pq_head q)))));
  let used := n_tslot x in
  '(n, desc, emu) ←
    (if Z.odd used then
       desc ← deref (store (en_desc x) used 0);
       emu ← (if EMULATION_ALGO B then
           old ← deref (en_emu x !! Z.to_nat used);
           mret (arr_set (en_emu x) used {| emu_id := 0; emu_data := emu_data old |})
         else mret (en_emu x));
       mret (used + 1, desc, emu)
     else mret (used, en_desc x, en_emu x));
  mret (pd_set_alloc n used base (n_dsts x) (en_dsts x) desc emu pd).
End fill.

(** ** Transmission *)

(** A packet buffer: the address of its payload, and the bytes that the IPv4
    payload may fill. *)
Record mbuf := { mb_addr : Z; mb_payload : list Z }.

Definition sizeof_ether_hdr : Z := 14.
Definition sizeof_ipv4_hdr : Z := 20.

(** The IPv4 header, with checksum field [csum] in host order. *)
Definition ipv4_header (len csum src dst : Z) : list Z :=
  [0x45; u8 (Z.shiftl 46 2)] ++ be16 len ++ be16 0 ++ be16 0 ++ [77; IPPROTO_FASTPASS] ++
  [csum mod 2 ^ 8; csum / 2 ^ 8] ++ be32 src ++ be32 dst.

Section transmit.
Context (B : build) (fwrapv : bool) `{H : HashOps} (now node_id : Z).

(** The IPv4 packet; NO_HW_CHECKSUM is defined. *)
Definition make_packet (en : end_node_state) (pd : fpproto_pktdesc) (m : mbuf) : option (list Z) :=
  '(data_len, e, _) ← fpproto_encode_packet B pd (mb_addr m) (FASTPASS_MAX_PAYLOAD B) 26
    {| e_buf := mb_payload m; e_curp := 0; e_remaining := 0 |};
  let ipv4_length := u16 (sizeof_ipv4_hdr + data_len) in
  let header := ipv4_header ipv4_length 0 (controller_ip en) (dst_ip en) in
  let csum := fp_fold (fp_csum_partial (mb_addr m - sizeof_ipv4_hdr) header 0) in
  Some (take (Z.to_nat ipv4_length)
    (ipv4_header ipv4_length csum (controller_ip en) (dst_ip en) ++ e_buf e)).

(** [pool] is what [fpproto_pktdesc_alloc] returns and [m] what
    [rte_pktmbuf_alloc] returns. *)
Definition tx_end_node (pool : option fpproto_pktdesc) (m : option mbuf) : C_ unit :=
  upd_node node_id (λ en, set_tx_pacer (pacer_reset (tx_pacer en)) en);;
  on_conn B fwrapv now node_id fpproto_prepare_to_send;;
  match pool with
  | None => trigger_request now node_id
  | Some pd =>
      pd ← fill_packet_alloc B node_id pd;
      pd ← fill_packet_report now node_id pd;
      pd ← on_conn B fwrapv now node_id (fpproto_commit_packet pd now);
      match m with
      | None => mret tt
      | Some m =>
          en ← get_node node_id;
          out_pkt ← deref (make_packet en pd m);
          call (SendPacket node_id out_pkt)
      end
  end.
End transmit.

(** ** Reception *)
Definition ETHER_TYPE_IPv4 : Z := 0x0800.
Definition ETHER_TYPE_ARP : Z := 0x0806.
Definition IPPROTO_FASTPASS_WATCHDOG : Z := 223.
Definition IPPROTO_FASTPASS_KILL : Z := 225.

(** What became of a packet; a kill packet ends the program. *)
Inductive rx_outcome := RxDone | RxWatchdog | RxKill.

Section receive.
Context (B : build) (fwrapv : bool) `{H : HashOps}.

(** [buf] is the memory of the packet buffer from its Ethernet header on, of
    which the first [data_len] bytes were received. *)
Definition comm_rx (now addr : Z) (buf : list Z) (data_len : Z) : C_ rx_outcome :=
  let ip := sizeof_ether_hdr in
  let cleanup (r : rx_outcome) : C_ rx_outcome := call FreeMbuf;; mret r in
  ether_type ← deref (ld16 buf 12);
  if ether_type =? ETHER_TYPE_ARP then call SendArp;; cleanup RxDone
  else if negb (ether_type =? ETHER_TYPE_IPv4) then cleanup RxDone
  else
    next_proto_id ← deref (ld8 buf (ip + 9));
    if next_proto_id =? IPPROTO_FASTPASS_WATCHDOG then cleanup RxWatchdog
    else if next_proto_id =? IPPROTO_FASTPASS_KILL then mret RxKill
    else if negb (next_proto_id =? IPPROTO_FASTPASS) then cleanup RxDone
    else
      ip_total_len ← deref (ld16 buf (ip + 2));
      version_ihl ← deref (ld8 buf ip);
      let ip_hdr_len := Z.land version_ihl 0xF in
      if sizeof_ether_hdr + ip_total_len >? data_len then cleanup RxDone
      else if (ip_hdr_len <? 5) || (ip_total_len <? 4 * ip_hdr_len) then cleanup RxDone
      else
        src_addr ← deref (ld32 buf (ip + 12));
        dst_addr ← deref (ld32 buf (ip + 16));
        let req_src := fp_map_ip_to_id src_addr in
        upd_node req_src (set_addrs src_addr dst_addr);;
        let payload_len := Z.to_nat (ip_total_len - 4 * ip_hdr_len) in
        let req_pkt := drop (Z.to_nat (sizeof_ether_hdr + sizeof_ipv4_hdr)) buf in
        when (req_src <? MAX_NODES)
          (on_conn B fwrapv now req_src (after_packet (drop payload_len req_pkt)
            (fpproto_handle_rx_complete B now now addr (take payload_len req_pkt))));;
        cleanup RxDone.
End receive.

(** ** The main loop *)
Definition PREFETCH_OFFSET : Z := 3.

(** A received packet and the clock when the loop gets to it. *)
Record rx_mbuf := { rx_addr : Z; rx_buf : list Z; rx_len : Z; rx_now : Z }.

Section main.
Context (B : build) (fwrapv : bool) `{H : HashOps}.

(** The two loops of [do_rx_burst] return whether a watchdog packet was seen, or
    [None] if the program ended. *)
Fixpoint rx_until_deadline (deadline_monotonic : Z) (pkts : list rx_mbuf) (saw_watchdog : bool) :
    C_ (option bool) :=
  match pkts with
  | [] => mret (Some saw_watchdog)
  | p :: pkts' =>
      if rx_now p <? deadline_monotonic then
        res ← comm_rx B fwrapv (rx_now p) (rx_addr p) (rx_buf p) (rx_len p);
        match res with
        | RxKill => mret None
        | RxWatchdog => rx_until_deadline deadline_monotonic pkts' true
        | RxDone => rx_until_deadline deadline_monotonic pkts' saw_watchdog
        end
      else call FreeMbuf;; rx_until_deadline deadline_monotonic pkts' saw_watchdog
  end.

(** [res = saw_watchdog || comm_rx(...)]: nothing is done with the packets after
    a watchdog packet. *)
Fixpoint rx_remaining (pkts : list rx_mbuf) (saw_watchdog : bool) : C_ (option bool) :=
  match pkts with
  | [] => mret (Some saw_watchdog)
  | p :: pkts' =>
      if saw_watchdog then rx_remaining pkts' true
      else
        res ← comm_rx B fwrapv (rx_now p) (rx_addr p) (rx_buf p) (rx_len p);
        match res with
        | RxKill => mret None
        | RxWatchdog => rx_remaining pkts' true
        | RxDone => rx_remaining pkts' false
        end
  end.

Definition do_rx_burst (deadline_monotonic : Z) (pkts : list rx_mbuf) : C_ (option bool) :=
  let n := Z.to_nat (Z.of_nat (length pkts) - PREFETCH_OFFSET) in
  r ← rx_until_deadline deadline_monotonic (take n pkts) false;
  match r with
  | None => mret None
  | Some saw_watchdog => rx_remaining (drop n pkts) saw_watchdog
  end.

Fixpoint retrans_timers (now : Z) (lst : list Z) : C_ unit :=
  match lst with
  | [] => mret tt
  | node_id :: lst' =>
      on_conn B fwrapv now node_id (fpproto_handle_timeout now);;
      retrans_timers now lst'
  end.

(** [mem node_id]: what the two allocations of the transmission return. *)
Fixpoint transmit_timers (now : Z) (mem : Z → option fpproto_pktdesc * option mbuf) (lst : list Z) : C_ unit :=
  match lst with
  | [] => mret tt
  | node_id :: lst' =>
      tx_end_node B fwrapv now node_id (mem node_id).1 (mem node_id).2;;
      transmit_timers now mem lst'
  end.

(** What the environment supplies to one turn of the loop. *)
Record turn := {
  t_deadline : Z;
  t_rx : list rx_mbuf;
  t_now : Z;
  t_admitted : list (list admitted_traffic);
  t_mem : Z → option fpproto_pktdesc * option mbuf;
}.

(** The turn after the packets are read. Announcements to a backup arbiter follow it
    in the file Backup; RUN_WITH_BACKUP is 0. *)
Definition comm_turn (t : turn) : C_ unit :=
  st ← get;
  '(w, lst) ← deref (fp_timer_get_expired (t_now t) (timeout_timers st) []);
  modify (set_timeout_timers w);;
  retrans_timers (t_now t) lst;;
  process_allocated_traffic B (t_now t) (t_admitted t);;
  call HandleSpentDemands;;
  call FlushBacklog;;
  st ← get;
  '(w, lst) ← deref (fp_timer_get_expired (t_now t) (tx_timers st) []);
  modify (set_tx_timers w);;
  transmit_timers (t_now t) (t_mem t) lst.

(** One turn of the [while (1)] of [exec_comm_core] on the master arbiter;
    false if the program ended. *)
Definition exec_comm_core_turn (t : turn) : C_ bool :=
  r ← do_rx_burst (t_deadline t) (t_rx t);
  match r with
  | None => mret false
  | Some _ => comm_turn t;; mret true
  end.
End main.

(** ** Initialisation *)

(** One node after [comm_init_global_structs] ([end_nodes] is a zeroed static
    array). [start] is the initialised connection. *)
Definition init_end_node (start : fpproto_conn) (now send_cost max_burst min_trigger_gap : Z) : end_node_state := {|
  conn := start;
  pending_allocs := {|
    allocs := replicate 256 {| al_dst := 0; al_timeslot := 0; al_flags := 0; al_id := 0; al_data := [0; 0] |};
    pq_head := 0; pq_tail := 0 |};
  demands := replicate (Z.to_nat MAX_FLOWS) 0;
  alloc_to_dst := replicate (Z.to_nat MAX_FLOWS) 0;
  acked_allocs := replicate (Z.to_nat MAX_FLOWS) 0;
  report_queue := {| is_pending := replicate (Z.to_nat MAX_FLOWS) 0;
    q_pending := replicate (Z.to_nat ALLOC_REPORT_QUEUE_SIZE) 0; rq_head := 0; rq_tail := 0 |};
  tx_pacer := pacer_init_full now send_cost max_burst min_trigger_gap;
  dst_ip := 0; controller_ip := 0 |}.

(** The core after [comm_init_core] and the timer initialisation of
    [exec_comm_core]. *)
Definition comm_init (start : fpproto_conn) (now send_cost max_burst min_trigger_gap first_time_slot : Z) : comm_state := {|
  end_nodes := replicate (Z.to_nat MAX_NODES) (init_end_node start now send_cost max_burst min_trigger_gap);
  alloc_enc_space := replicate (Z.to_nat MAX_FLOWS) 0;
  latest_timeslot := replicate (Z.to_nat N_PARTITIONS) (u64 (first_time_slot - 1));
  timeout_timers := fp_init_timers now;
  tx_timers := fp_init_timers now |}.
