(* ===== verification/CommInv.v ===== *)
(** * The queues of an end node and the invariant of the communication core

    Lists arrays with free-running 32-bit indices: the queue of destinations
    with a pending report is a FIFO list without duplicates, and the queue of
    pending allocations a FIFO list while it holds at most 256 entries. Then the
    invariant of the core, and triples for the procedures of one node. *)

From S2P Require Import Prelude Platform Lists Window WindowFacts WindowSpec WindowMarks Protocol ConnFacts ConnSpec ConnAck ConnSend ConnInwnd ConnSafe Codec Pacer Timer.
From S2P Require Import Comm.

Export Lists.

(** ** The report queue *)
Definition rq_len (q : alloc_report_queue) : Z := u32 (rq_tail q - rq_head q).
Definition queued (q : alloc_report_queue) : list Z := circ (q_pending q) (rq_head q) (rq_len q).

(** The queue holds each destination whose flag is set, once. *)
Record rq_ok (q : alloc_report_queue) : Prop := {
  ro_flags : length (is_pending q) = 256%nat;
  ro_cells : length (q_pending q) = 512%nat;
  ro_idx : 0 ≤ rq_head q < 2 ^ 32 ∧ 0 ≤ rq_tail q < 2 ^ 32;
  ro_nodup : NoDup (queued q);
  ro_range : Forall (λ d, 0 ≤ d < 256) (queued q);
  ro_member : ∀ d, 0 ≤ d < 256 → d ∈ queued q ↔ arr_get (is_pending q) d ≠ 0;
}.

Lemma queue_mask x : Z.land x ALLOC_REPORT_QUEUE_MASK = x mod 512.
Proof. change ALLOC_REPORT_QUEUE_MASK with (Z.ones 9). rewrite Z.land_ones by lia. done. Qed.

Lemma rq_len_range q : 0 ≤ rq_len q < 2 ^ 32.
Proof. apply u32_range. Qed.

Lemma length_queued q : length (queued q) = Z.to_nat (rq_len q).
Proof. apply length_circ. Qed.

Lemma rq_len_bound q : rq_ok q → rq_len q ≤ 256.
Proof.
  intros Hq. pose proof (nodup_range_length (queued q) 256 ltac:(lia) (ro_nodup q Hq) (ro_range q Hq)) as Hl.
  rewrite length_queued in Hl. pose proof (rq_len_range q). lia.
Qed.

Lemma report_empty_spec q : rq_ok q → report_empty q = bool_decide (queued q = []).
Proof.
  intros Hq. unfold report_empty. pose proof (ro_idx q Hq) as [Hh Ht]. pose proof (length_queued q) as Hl.
  apply eq_bool_prop_intro. rewrite !Is_true_true, Z.eqb_eq, bool_decide_eq_true. split.
  - intros E. apply nil_length_inv. rewrite Hl. unfold rq_len. rewrite E, Z.sub_diag. done.
  - intros E. rewrite E in Hl. simpl in Hl. pose proof (rq_len_range q). unfold rq_len in *. mlia.
Qed.

Definition report_push (dst : Z) (q : alloc_report_queue) : alloc_report_queue := {|
  is_pending := arr_set (is_pending q) dst 1;
  q_pending := arr_set (q_pending q) (Z.land (rq_tail q) ALLOC_REPORT_QUEUE_MASK) dst;
  rq_head := rq_head q; rq_tail := u32 (rq_tail q + 1) |}.

Section report_queue.
Context (q : alloc_report_queue) (Hq : rq_ok q).

Lemma queued_push dst : queued (report_push dst q) = queued q ++ [dst].
Proof using Hq.
  pose proof (rq_len_bound q Hq). pose proof (rq_len_range q).
  unfold queued, rq_len, report_push. simpl. rewrite u32_diff_succ, queue_mask.
  fold (rq_len q). rewrite (u32_small (rq_len q + 1)) by lia.
  replace (rq_tail q mod 512) with ((rq_head q + rq_len q) mod Z.of_nat (length (q_pending q))).
  - apply circ_push. rewrite (ro_cells q Hq). lia.
  - rewrite (ro_cells q Hq). unfold rq_len. change (Z.of_nat 512) with 512. mlia.
Qed.

Lemma report_push_ok dst : 0 ≤ dst < 256 → arr_get (is_pending q) dst = 0 → rq_ok (report_push dst q).
Proof using Hq.
  intros Hd Hz. pose proof (ro_member q Hq dst Hd) as Hm.
  constructor; rewrite ?queued_push; simpl; rewrite ?length_arr_set; try apply Hq.
  - split; [apply Hq|apply u32_range].
  - apply NoDup_app. split; [apply Hq|]. split; [|apply NoDup_singleton].
    intros x Hx ->%list_elem_of_singleton. by apply Hm in Hx.
  - apply Forall_app. split; [apply Hq|by apply Forall_singleton].
  - intros d Hd'. rewrite elem_of_app, list_elem_of_singleton, arr_get_set by (rewrite ?(ro_flags q Hq); lia).
    destruct (decide (dst = d)) as [->|Hne]; [split; [done|by right]|].
    rewrite (ro_member q Hq d Hd'). naive_solver.
Qed.

Lemma report_pop_spec x rest : queued q = x :: rest →
  ∃ q', report_pop q = Some (x, q') ∧ rq_ok q' ∧ queued q' = rest ∧ 0 ≤ x < 256.
Proof using Hq.
  intros E. pose proof (rq_len_bound q Hq). pose proof (rq_len_range q).
  assert (0 < rq_len q) as Hlen.
  { pose proof (length_queued q) as Hl. rewrite E in Hl. simpl in Hl. lia. }
  pose proof (ro_range q Hq) as Hr. rewrite E in Hr. apply Forall_cons in Hr as [Hx Hr]. cbv beta in Hx.
  pose proof (ro_nodup q Hq) as Hnd. rewrite E in Hnd. apply NoDup_cons in Hnd as [Hxr Hnd].
  assert (queued q = arr_get (q_pending q) (rq_head q mod 512) ::
    circ (q_pending q) (rq_head q + 1) (rq_len q - 1)) as Eq.
  { unfold queued. rewrite circ_pop by done. by rewrite (ro_cells q Hq). }
  rewrite E in Eq. injection Eq as Ex Er.
  unfold report_pop. rewrite report_empty_spec, bool_decide_eq_false_2 by (done || by rewrite E).
  rewrite queue_mask, <- Ex.
  destruct (lookup_lt_is_Some_2 (is_pending q) (Z.to_nat x)) as [p Hp]; [rewrite (ro_flags q Hq); lia|].
  simpl. rewrite Hp. simpl.
  assert (arr_get (is_pending q) x = p) as Epx by (unfold arr_get; by apply list_lookup_total_correct).
  assert (p ≠ 0) as Hpn by (rewrite <- Epx; apply (ro_member q Hq x Hx); rewrite E; set_solver).
  rewrite (proj2 (Z.eqb_neq p 0)) by done. eexists. split; [done|].
  set (q' := Build_alloc_report_queue _ _ _ _).
  assert (queued q' = rest) as Eq'.
  { unfold queued, rq_len, q'. simpl. rewrite u32_diff_pred. fold (rq_len q). rewrite (u32_small (rq_len q - 1)) by lia.
    rewrite Er. apply circ_mod; rewrite (ro_cells q Hq); [lia|]. change (Z.of_nat 512) with (2 ^ 9).
    by apply u32_mod_pow2. }
  split; [|done]. constructor; rewrite ?Eq'; simpl; rewrite ?length_arr_set; try apply Hq; try done.
  - split; [apply u32_range|apply Hq].
  - intros d Hd. rewrite arr_get_set by (rewrite ?(ro_flags q Hq); lia).
    pose proof (ro_member q Hq d Hd) as Hm. rewrite E, elem_of_cons in Hm.
    destruct (decide (x = d)) as [->|Hne]; [by split; [intros Hin|]|]. rewrite <- Hm. naive_solver.
Qed.
End report_queue.

(** The queue that [handle_reset] leaves. *)
Lemma rq_ok_empty cells : length cells = 512%nat →
  let q := {| is_pending := replicate 256 0; q_pending := cells; rq_head := 0; rq_tail := 0 |} in
  rq_ok q ∧ queued q = [].
Proof.
  intros Hc q. assert (queued q = []) as E by (apply circ_0). split; [|done].
  constructor; rewrite ?E; simpl; try done; try lia; [constructor|].
  intros d Hd. split; [by intros ?%not_elem_of_nil|]. intros Hn. exfalso. apply Hn. unfold arr_get.
  apply (lookup_total_replicate_2 256 (0 : Z) (Z.to_nat d)). lia.
Qed.

(** ** The queue of pending allocations *)
Definition pq_len (q : pending_alloc_queue) : Z := u32 (pq_tail q - pq_head q).
Definition unsent (q : pending_alloc_queue) : list pending_alloc := circ (allocs q) (pq_head q) (pq_len q).

Record pending_ok (q : pending_alloc_queue) : Prop := {
  pk_cells : length (allocs q) = 256%nat;
  pk_idx : 0 ≤ pq_head q < 2 ^ 32 ∧ 0 ≤ pq_tail q < 2 ^ 32;
  pk_dst : Forall (λ a, 0 ≤ al_dst a < 256) (allocs q);
  pk_data : Forall (λ a, length (al_data a) = 2%nat) (allocs q);
}.

Section pending.
Context (q : pending_alloc_queue) (Hq : pending_ok q).

Lemma push_alloc_ok a : 0 ≤ al_dst a < 256 → length (al_data a) = 2%nat → pending_ok (push_alloc a q).
Proof using Hq.
  intros Ha Hl. constructor; simpl; rewrite ?length_arr_set; [apply Hq|split; [apply Hq|apply u32_range]|..].
  all: by apply arr_set_Forall; [apply Hq|].
Qed.

(** The entry at an index. *)
Lemma alloc_at x : let a := arr_get (allocs q) (wnd_pos x) in 0 ≤ al_dst a < 256 ∧ length (al_data a) = 2%nat.
Proof using Hq.
  assert (0 ≤ wnd_pos x < Z.of_nat (length (allocs q))) as Hx.
  { rewrite (pk_cells q Hq), wnd_pos_mod. zify_div. lia. }
  split; [apply (arr_get_Forall _ _ _ (pk_dst q Hq) Hx)|apply (arr_get_Forall _ _ _ (pk_data q Hq) Hx)].
Qed.

(** While there is room the allocation goes to the end of the queue. *)
Lemma unsent_push a : pq_len q < 256 → unsent (push_alloc a q) = unsent q ++ [a].
Proof using Hq.
  intros Hl. pose proof (u32_range (pq_tail q - pq_head q)) as Hr. fold (pq_len q) in Hr.
  unfold unsent, pq_len, push_alloc. simpl. rewrite u32_diff_succ, wnd_pos_mod.
  fold (pq_len q). rewrite (u32_small (pq_len q + 1)) by lia.
  replace (pq_tail q mod 256) with ((pq_head q + pq_len q) mod Z.of_nat (length (allocs q))).
  - apply circ_push. rewrite (pk_cells q Hq). lia.
  - rewrite (pk_cells q Hq). unfold pq_len. change (Z.of_nat 256) with 256. mlia.
Qed.

Definition pop_alloc : pending_alloc_queue :=
  {| allocs := allocs q; pq_head := u32 (pq_head q + 1); pq_tail := pq_tail q |}.

Lemma pop_alloc_ok : pending_ok pop_alloc.
Proof using Hq. constructor; simpl; [apply Hq|split; [apply u32_range|apply Hq]|apply Hq..]. Qed.

Lemma unsent_pop : 0 < pq_len q →
  unsent q = arr_get (allocs q) (wnd_pos (pq_head q)) :: unsent pop_alloc.
Proof using Hq.
  intros Hl. pose proof (u32_range (pq_tail q - pq_head q)) as Hr. fold (pq_len q) in Hr.
  unfold unsent at 1. rewrite circ_pop by done. rewrite (pk_cells q Hq), wnd_pos_mod. f_equal.
  unfold unsent, pq_len, pop_alloc. simpl. rewrite u32_diff_pred. fold (pq_len q). rewrite (u32_small (pq_len q - 1)) by lia.
  apply circ_mod; rewrite (pk_cells q Hq); [lia|]. change (Z.of_nat 256) with (2 ^ 8).
  symmetry. by apply u32_mod_pow2.
Qed.

Lemma pq_empty : (pq_head q =? pq_tail q) = bool_decide (unsent q = []).
Proof using Hq.
  pose proof (pk_idx q Hq) as [Hh Ht]. pose proof (length_circ (allocs q) (pq_head q) (pq_len q)) as Hl.
  fold (unsent q) in Hl. apply eq_bool_prop_intro. rewrite !Is_true_true, Z.eqb_eq, bool_decide_eq_true. split.
  - intros E. apply nil_length_inv. rewrite Hl. unfold pq_len. by rewrite E, Z.sub_diag.
  - intros E. rewrite E in Hl. simpl in Hl. pose proof (u32_range (pq_tail q - pq_head q)). unfold pq_len in *. mlia.
Qed.

Lemma length_unsent : Z.of_nat (length (unsent q)) = pq_len q.
Proof. unfold unsent. rewrite length_circ. pose proof (u32_range (pq_tail q - pq_head q)). unfold pq_len. lia. Qed.
End pending.

(** ** Invariant of the communication core

    The state of every end node is well formed, each packet descriptor waiting for
    an acknowledgement can be handed back to the handlers, and nothing waits
    without a timer: a node whose report queue is not empty has its pacer
    triggered, and a triggered pacer has its transmission timer armed. *)
(** ** Descriptors *)

(** What the handlers use of the descriptor of an unacknowledged packet. *)
Record pd_valid (B : build) (pd : fpproto_pktdesc) : Prop := {
  pv_areq : Forall (λ a, u16 (src_dst_key a) < 256) (take (Z.to_nat (pd_n_areq pd)) (pd_areq pd));
  pv_used : 0 ≤ pd_used_alloc_tslot pd ≤ Z.of_nat (length (pd_tslot_desc pd));
  pv_desc : Forall (λ d, ∃ dst, desc_dst pd d = Some dst ∧ 0 ≤ dst < 256)
    (take (Z.to_nat (pd_used_alloc_tslot pd)) (pd_tslot_desc pd));
  pv_dsts : Forall (λ d, 0 ≤ d < 256) (take (Z.to_nat (pd_n_dsts pd)) (pd_dsts pd));
  pv_emu : EMULATION_ALGO B = true → pd_used_alloc_tslot pd ≤ Z.of_nat (length (pd_emu_tslot_desc pd));
}.

Lemma pd_valid_header B pd a b r t q v : pd_valid B pd → pd_valid B (pd_set_header a b r t q v pd).
Proof. intros []. by constructor. Qed.

(** ** Nodes *)
Record node_ok (B : build) (en : end_node_state) : Prop := {
  no_conn : conn_ok (conn en);
  no_ops : ops (conn en) = proto_ops;
  no_pds : ∀ s pd, out_pd (conn en) s = Some pd → pd_valid B pd;
  no_demands : length (demands en) = 256%nat;
  no_alloc : length (alloc_to_dst en) = 256%nat;
  no_acked : length (acked_allocs en) = 256%nat;
  no_reports : rq_ok (report_queue en);
  no_pending : pending_ok (pending_allocs en);
}.

(** The pacer of a node at time [clk]: it does not run ahead of the clock by more
    than a tick of the timer wheel. *)
Record pacer_ok (clk : Z) (pa : fp_pacer) : Prop := {
  pc_cost : 0 < cost pa ≤ max_credit pa;
  pc_credit : max_credit pa < 2 ^ 32 ∧ max_credit pa ≤ clk;
  pc_gap : 0 ≤ min_gap pa < 2 ^ 32;
  pc_T : 0 ≤ T pa ≤ clk + 2 ^ 14;
  pc_clk : clk < 2 ^ 62;
}.

(** A triggered pacer and its event. *)
Record pending_event (pa : fp_pacer) (latest : Z) : Prop := {
  pe_triggered : pacer_is_triggered pa = true;
  pe_after : T pa + cost pa ≤ next_event pa;
  pe_credit : max_credit pa ≤ next_event pa;
  pe_latest : next_event pa ≤ latest;
}.

(** The transmission timer agrees with the pacer. *)
Definition timer_ok (clk : Z) (w : fp_timers) (i : Z) (pa : fp_pacer) : Prop :=
  if pacer_is_triggered pa then
    pending_event pa (clk + 2 ^ 33) ∧ time_of w i = next_event pa / TIMER_GRANULARITY
  else time_of w i = TIMER_NOT_SET_TIME.

(** The timer has fired and the node is about to transmit. *)
Definition fired_ok (clk : Z) (w : fp_timers) (i : Z) (pa : fp_pacer) : Prop :=
  pending_event pa (clk + 2 ^ 14) ∧ time_of w i = TIMER_NOT_SET_TIME.

(** Reports do not wait unless a transmission is scheduled. *)
Definition woken (en : end_node_state) : Prop :=
  queued (report_queue en) ≠ [] → pacer_is_triggered (tx_pacer en) = true.

(** The wheel was turned recently enough for the assertion of
    [fp_timer_get_expired]. *)
Definition timely (clk : Z) (w : fp_timers) : Prop :=
  Timer.head w ≤ clk / TIMER_GRANULARITY < Timer.head w + 100 * MAX_TIMER_SLOTS.

(** [X] are the nodes whose timer has fired, [Y] those that may have a report
    without a scheduled transmission; both are empty between turns. *)
Record comm_ok (B : build) (clk : Z) (X Y : gset Z) (st : comm_state) : Prop := {
  co_nodes : length (end_nodes st) = 256%nat;
  co_node : ∀ i en, end_nodes st !! i = Some en → node_ok B en ∧ pacer_ok clk (tx_pacer en);
  co_fired : ∀ i en, end_nodes st !! i = Some en → Z.of_nat i ∈ X →
    fired_ok clk (tx_timers st) (Z.of_nat i) (tx_pacer en);
  co_timer : ∀ i en, end_nodes st !! i = Some en → Z.of_nat i ∉ X →
    timer_ok clk (tx_timers st) (Z.of_nat i) (tx_pacer en) ∧ (Z.of_nat i ∉ Y → woken en);
  co_enc : alloc_enc_space st = replicate 256 0;
  co_latest : length (latest_timeslot st) = 2%nat;
  co_wheels : wheel_ok (timeout_timers st) ∧ wheel_ok (tx_timers st);
  co_range : ∀ x, armed (tx_timers st) x ∨ armed (timeout_timers st) x → 0 ≤ x < 256;
  co_ticks : timely clk (timeout_timers st) ∧ timely clk (tx_timers st);
}.

(** ** Updates of one node *)
Section update.
Context (B : build) (clk : Z).

Lemma lookup_node st i : length (end_nodes st) = 256%nat → 0 ≤ i < 256 →
  ∃ en, end_nodes st !! Z.to_nat i = Some en.
Proof. intros Hl Hi. apply lookup_lt_is_Some_2. lia. Qed.

(** [st'] differs from [st] in node [i] and its timers. *)
Record changes (i : Z) (en' : end_node_state) (st st' : comm_state) : Prop := {
  ch_nodes : end_nodes st' = <[Z.to_nat i := en']> (end_nodes st);
  ch_enc : alloc_enc_space st' = alloc_enc_space st;
  ch_latest : latest_timeslot st' = latest_timeslot st;
  ch_wheels : wheel_ok (timeout_timers st') ∧ wheel_ok (tx_timers st');
  ch_times : ∀ x, x ≠ i → time_of (tx_timers st') x = time_of (tx_timers st) x ∧
    time_of (timeout_timers st') x = time_of (timeout_timers st) x;
  ch_heads : Timer.head (timeout_timers st') = Timer.head (timeout_timers st) ∧
    Timer.head (tx_timers st') = Timer.head (tx_timers st);
}.

Lemma comm_ok_changes X Y Y' st st' i en' :
  comm_ok B clk X Y st → 0 ≤ i < 256 → i ∉ X → changes i en' st st' →
  (∀ j, j ≠ i → j ∉ Y' → j ∉ Y) →
  node_ok B en' → pacer_ok clk (tx_pacer en') → timer_ok clk (tx_timers st') i (tx_pacer en') →
  (i ∉ Y' → woken en') → comm_ok B clk X Y' st'.
Proof.
  intros Hst Hi HX [En Ee El Ew Et [Eh1 Eh2]] HY Hok Hp Ht Hw.
  assert (Hlook : ∀ j en, <[Z.to_nat i := en']> (end_nodes st) !! j = Some en →
    (Z.of_nat j = i ∧ en = en') ∨ (Z.of_nat j ≠ i ∧ end_nodes st !! j = Some en)).
  { intros j en Hj. apply list_lookup_insert_Some in Hj as [(<- & <- & _)|[Hne Hj]];
      [left; split; [lia|done]|right; split; [lia|done]]. }
  constructor; rewrite ?En, ?Ee, ?El, ?length_insert; try apply Hst; try done.
  - intros j en Hj. apply Hlook in Hj as [[_ ->]|[_ Hj]]; [done|by apply (co_node _ _ _ _ _ Hst j)].
  - intros j en Hj Hin. apply Hlook in Hj as [[Ej _]|[Hne Hj]]; [by rewrite Ej in Hin|].
    destruct (co_fired _ _ _ _ _ Hst j en Hj Hin) as [He Htm]. split; [done|]. by rewrite (proj1 (Et _ Hne)).
  - intros j en Hj Hnin. apply Hlook in Hj as [[Ej ->]|[Hne Hj]]; [by rewrite Ej|].
    destruct (co_timer _ _ _ _ _ Hst j en Hj Hnin) as [Htm Hwk]. split; [|by intros; apply Hwk, HY].
    unfold timer_ok in *. by rewrite (proj1 (Et _ Hne)).
  - intros x Hx. destruct (decide (x = i)) as [->|Hne]; [done|].
    apply (co_range _ _ _ _ _ Hst x). unfold armed in *. destruct (Et x Hne) as [E1 E2]. by rewrite E1, E2 in Hx.
  - unfold timely. rewrite Eh1, Eh2. apply Hst.
Qed.

Lemma comm_ok_weaken X Y Y' st : Y ⊆ Y' → comm_ok B clk X Y st → comm_ok B clk X Y' st.
Proof.
  intros HY [? ? ? Ht ? ? ? ? ?]. constructor; try done. intros i en Hi Hx.
  destruct (Ht i en Hi Hx) as [? ?]. split; [done|]. set_solver.
Qed.
End update.

(** ** Triples for the procedures of one node *)

(** Node [i] steps by [R], the other nodes stay as they are. *)
Definition node_step (R : relation end_node_state) (i : Z) (st st' : comm_state) : Prop :=
  (∀ j, j ≠ Z.to_nat i → end_nodes st' !! j = end_nodes st !! j) ∧
  ∀ en, end_nodes st !! Z.to_nat i = Some en → ∃ en', end_nodes st' !! Z.to_nat i = Some en' ∧ R en en'.

#[export] Instance node_step_preorder R i `{!PreOrder R} : PreOrder (node_step R i).
Proof.
  split; [intros st; split; [done|]; intros en E; exists en; done|].
  intros a b c [Hab1 Hab2] [Hbc1 Hbc2]. split; [intros j Hj; by rewrite Hbc1, Hab1|].
  intros en E. destruct (Hab2 en E) as (en1 & E1 & H1). destruct (Hbc2 en1 E1) as (en2 & E2 & H2).
  exists en2. split; [done|by trans en1].
Qed.

(** Handlers do not touch the connection. *)
Definition same_conn (en en' : end_node_state) : Prop := conn en' = conn en.

(** Handlers that only ask for transmissions: what waited for transmission still
    does, in the same order. *)
Record asks (en en' : end_node_state) : Prop := {
  as_conn : conn en' = conn en;
  as_pending : pending_allocs en' = pending_allocs en;
  as_alloc : alloc_to_dst en' = alloc_to_dst en;
  as_queue : queued (report_queue en) `prefix_of` queued (report_queue en');
  as_pacer : pacer_is_triggered (tx_pacer en) = true → tx_pacer en' = tx_pacer en;
}.

#[export] Instance same_conn_preorder : PreOrder same_conn.
Proof. split; [done|]. unfold same_conn. intros a b c H1 H2. congruence. Qed.

#[export] Instance asks_preorder : PreOrder asks.
Proof.
  split; [done|]. intros a b c [? ? ? ? Hp1] [? ? ? ? Hp2]. constructor; try congruence; [by etrans|].
  intros Ht. specialize (Hp1 Ht). rewrite <- Hp1. apply Hp2. by rewrite Hp1.
Qed.

(** The steps that a procedure may make on its node. *)
Class StepRel (R : relation end_node_state) : Prop := {
  sr_preorder :: PreOrder R;
  sr_pacer : ∀ en pa, (pacer_is_triggered (tx_pacer en) = true → pa = tx_pacer en) → R en (set_tx_pacer pa en);
  sr_queue : ∀ en q, queued (report_queue en) `prefix_of` queued q → R en (set_report_queue q en);
}.

#[export] Instance same_conn_step : StepRel same_conn.
Proof. by split; try apply _. Qed.

#[export] Instance asks_step : StepRel asks | 100.
Proof. by split; try apply _. Qed.

Section triples.
Context (B : build) (clk : Z) (i : Z) (Hi : 0 ≤ i < 256) (R : relation end_node_state) `{!StepRel R}.

(** [hsafe] procedures keep the invariant, on a node whose timer is not being
    handled, and step by [R]. *)
Definition hsafe {A} (m : C_ A) : Prop := ∀ X Y st, i ∉ X → comm_ok B clk X Y st →
  wp m (λ _ st' l, comm_ok B clk X Y st' ∧ no_bug l ∧ node_step R i st st') st.

Lemma hsafe_bind {A A'} (m : C_ A) (k : A → C_ A') : hsafe m → (∀ a, hsafe (k a)) → hsafe (m ≫= k).
Proof using StepRel0.
  intros Hm Hk X Y st HX Hst. apply wp_bind. eapply wp_mono; [by apply Hm|].
  intros a st1 l1 (Hst1 & Hl1 & E1). eapply wp_mono; [by apply Hk|].
  intros b st2 l2 (Hst2 & Hl2 & E2). split; [done|]. split; [by apply no_bug_app|by trans st1].
Qed.

Lemma hsafe_ret {A} (a : A) : hsafe (mret a).
Proof using StepRel0. intros X Y st HX Hst. apply wp_ret. split; [done|]. split; [apply no_bug_nil|done]. Qed.

Lemma hsafe_call c : hsafe (call c).
Proof using StepRel0. intros X Y st HX Hst. apply wp_call. split; [done|]. split; [by repeat constructor|done]. Qed.

Lemma hsafe_when b (m : C_ unit) : (b = true → hsafe m) → hsafe (when b m).
Proof using StepRel0. destruct b; intros Hm; [by apply Hm|apply hsafe_ret]. Qed.

Lemma hsafe_if {A} (b : bool) (m1 m2 : C_ A) : hsafe m1 → hsafe m2 → hsafe (if b then m1 else m2).
Proof using. by destruct b. Qed.

Lemma hsafe_deref {A A'} (o : option A) (k : A → C_ A') :
  is_Some o → (∀ a, o = Some a → hsafe (k a)) → hsafe (deref o ≫= k).
Proof using. intros [a ->] Hk X Y st HX Hst. apply wp_bind. eapply wp_deref; [done|]. by apply (Hk a). Qed.

Lemma wp_get_node {A} (k : end_node_state → C_ A) (Q : A → comm_state → list (event comm_call) → Prop) st en :
  end_nodes st !! Z.to_nat i = Some en → wp (k en) Q st → wp (get_node i ≫= k) Q st.
Proof using. intros E Hk. unfold get_node. apply wp_bind, wp_bind, wp_get. eapply wp_deref; [done|]. done. Qed.

Lemma hsafe_get_node {A} (k : end_node_state → C_ A) : (∀ en, node_ok B en → hsafe (k en)) → hsafe (get_node i ≫= k).
Proof using Hi.
  intros Hk X Y st HX Hst. destruct (lookup_node st i (co_nodes _ _ _ _ _ Hst) Hi) as [en E].
  eapply wp_get_node; [done|]. apply (Hk en); try done. by apply (co_node _ _ _ _ _ Hst (Z.to_nat i)).
Qed.

(** An update of the node that leaves the pacer alone and queues no report. *)
Definition keeps_node (f : end_node_state → end_node_state) : Prop := ∀ en, node_ok B en →
  node_ok B (f en) ∧ tx_pacer (f en) = tx_pacer en ∧ R en (f en) ∧
  (queued (report_queue (f en)) ≠ [] → queued (report_queue en) ≠ []).

Lemma upd_nodes_eq st en f : end_nodes st !! Z.to_nat i = Some en →
  alter f (Z.to_nat i) (end_nodes st) = <[Z.to_nat i := f en]> (end_nodes st).
Proof using.
  intros E. apply list_eq. intros j. destruct (decide (j = Z.to_nat i)) as [->|Hne].
  - rewrite list_lookup_alter_eq, E, list_lookup_insert_eq; [done|by eapply lookup_lt_Some].
  - by rewrite list_lookup_alter_ne, list_lookup_insert_ne.
Qed.

Lemma changes_step st st' en en' (R' : relation end_node_state) :
  changes i en' st st' → end_nodes st !! Z.to_nat i = Some en → R' en en' → node_step R' i st st'.
Proof using.
  intros Hch E HR. split; rewrite (ch_nodes _ _ _ _ Hch).
  - intros j Hj. by apply list_lookup_insert_ne.
  - intros en0 E0. assert (en0 = en) as -> by congruence. exists en'. split; [|done].
    apply list_lookup_insert_eq. by eapply lookup_lt_Some.
Qed.

Lemma upd_node_changes st f en : end_nodes st !! Z.to_nat i = Some en →
  wheel_ok (timeout_timers st) ∧ wheel_ok (tx_timers st) →
  changes i (f en) st (set_end_nodes (alter f (Z.to_nat i) (end_nodes st)) st).
Proof using. intros E Hw. constructor; simpl; try done. by apply upd_nodes_eq. Qed.

Lemma hsafe_upd_node f : keeps_node f → hsafe (upd_node i f).
Proof using Hi.
  intros Hf X Y st HX Hst. destruct (lookup_node st i (co_nodes _ _ _ _ _ Hst) Hi) as [en E].
  destruct (co_node _ _ _ _ _ Hst _ _ E) as [Hok Hp]. destruct (Hf en Hok) as (Hok' & Epa & HR & Hq).
  destruct (co_timer _ _ _ _ _ Hst _ _ E) as [Htm Hwk]; [by rewrite Z2Nat.id by lia|].
  rewrite Z2Nat.id in Htm, Hwk by lia. unfold upd_node. apply wp_modify.
  pose proof (upd_node_changes st f en E (co_wheels _ _ _ _ _ Hst)) as Hch.
  split; [|split; [apply no_bug_nil|by eapply changes_step]].
  eapply (comm_ok_changes B clk X Y); [done|done|done|exact Hch|done|done| | |]; rewrite ?Epa; try done.
  intros HY Hne. rewrite Epa. by apply Hwk; [|apply Hq].
Qed.
End triples.
