(* ===== verification/CommHandlers.v ===== *)
(** * Handlers of the communication core

    Every handler that the control protocol calls keeps the invariant, on any
    request payload and on the descriptor of any unacknowledged packet. *)

From S2P Require Import Prelude Platform Window WindowFacts WindowSpec WindowMarks Protocol ConnFacts.
From S2P Require Import ConnSpec ConnAck ConnSend ConnInwnd ConnSafe Codec Pacer Timer Comm CommInv.

(** ** Triggering a transmission *)
Lemma pacer_trigger_ok clk pa : pacer_ok clk pa → pacer_is_triggered pa = false →
  ∃ pa', pacer_trigger pa clk = (true, pa') ∧ pacer_ok clk pa' ∧ pending_event pa' (clk + 2 ^ 33).
Proof.
  intros [Hc Hcr Hg HT Hk] Ht. unfold pacer_trigger. rewrite Ht. eexists. split; [done|].
  rewrite max_u64_max, !u64_small by lia. set (e := Z.max _ _). split; [by constructor|].
  constructor; cbn [T cost max_credit min_gap next_event]; try (unfold e; lia).
  unfold pacer_is_triggered. cbn [next_event].
  apply negb_true_iff, Z.eqb_neq. change PACER_NO_NEXT_EVENT with (2 ^ 64 - 1). unfold e. lia.
Qed.

Section handlers.
Context (B : build) (clk : Z) (i : Z) (Hi : 0 ≤ i < 256).

Lemma timer_ok_reset w pa : wheel_ok w → pending_event pa (clk + 2 ^ 33) → pacer_ok clk pa →
  let w' := fp_timer_reset i (pacer_next_event pa) w in
  wheel_ok w' ∧ timer_ok clk w' i pa ∧ ∀ x, x ≠ i → time_of w' x = time_of w x.
Proof using.
  intros Hw Hpe Hp w'.
  assert (0 ≤ next_event pa < 2 ^ 64) as Hr.
  { pose proof (pe_after _ _ Hpe). pose proof (pe_latest _ _ Hpe). destruct Hp. lia. }
  destruct (fp_timer_reset_ok w i (next_event pa) Hw Hr) as [Hw' Ht]. split; [done|].
  split; [|intros x Hx; unfold w', pacer_next_event; by rewrite Ht, decide_False].
  unfold timer_ok. rewrite (pe_triggered _ _ Hpe). split; [done|].
  unfold w', pacer_next_event. by rewrite Ht, decide_True.
Qed.

Lemma node_ok_tx_pacer pa en : node_ok B en → node_ok B (set_tx_pacer pa en).
Proof using. by intros []. Qed.

(** The node is scheduled afterwards. *)
Lemma trigger_request_spec X Y st en : i ∉ X → comm_ok B clk X Y st → end_nodes st !! Z.to_nat i = Some en →
  wp (trigger_request clk i) (λ _ st' l, comm_ok B clk X (Y ∖ {[ i ]}) st' ∧ l = [] ∧
    ∃ pa, pacer_is_triggered pa = true ∧ (pacer_is_triggered (tx_pacer en) = true → pa = tx_pacer en) ∧
      changes i (set_tx_pacer pa en) st st') st.
Proof using Hi.
  intros HX Hst E. destruct (co_node _ _ _ _ _ Hst _ _ E) as [Hok Hp].
  destruct (co_timer _ _ _ _ _ Hst _ _ E) as [Htm Hwk]; [by rewrite Z2Nat.id by lia|].
  rewrite Z2Nat.id in Htm, Hwk by lia.
  unfold trigger_request. eapply wp_get_node; [done|]. unfold upd_node.
  destruct (pacer_is_triggered (tx_pacer en)) eqn:Etr.
  - unfold pacer_trigger. rewrite Etr. apply wp_bind, wp_modify, wp_ret.
    assert (changes i (set_tx_pacer (tx_pacer en) en) st
      (set_end_nodes (alter (set_tx_pacer (tx_pacer en)) (Z.to_nat i) (end_nodes st)) st)) as Hch
      by (by apply upd_node_changes, Hst).
    split; [|split; [done|by eauto]].
    eapply (comm_ok_changes B clk X Y); [done|done|done|exact Hch|set_solver|by apply node_ok_tx_pacer|done|done|by intros _ _].
  - destruct (pacer_trigger_ok clk _ Hp Etr) as (pa & -> & Hp' & Hpe). apply wp_bind, wp_modify. simpl when.
    apply wp_modify. set (st' := set_tx_timers _ _).
    destruct (timer_ok_reset (tx_timers st) pa (proj2 (co_wheels _ _ _ _ _ Hst)) Hpe Hp') as (Hw' & Htm' & Hfr).
    assert (changes i (set_tx_pacer pa en) st st') as Hch.
    { constructor; simpl; try done; [by erewrite upd_nodes_eq|split; [apply Hst|done]|].
      intros x Hx. split; [by apply Hfr|done]. }
    pose proof (pe_triggered _ _ Hpe) as Hpt. split; [|split; [done|by exists pa]].
    eapply (comm_ok_changes B clk X Y); [done|done|done|exact Hch|set_solver|by apply node_ok_tx_pacer|done|done|by intros _ _].
Qed.

(** ** Queueing a report *)
Lemma node_ok_report_queue q en : rq_ok q → node_ok B en → node_ok B (set_report_queue q en).
Proof using. by intros Hq []. Qed.

Lemma changes_trans st st1 st2 en1 en2 : changes i en1 st st1 → changes i en2 st1 st2 → changes i en2 st st2.
Proof using.
  intros [En1 Ee1 El1 Ew1 Et1 [? ?]] [En2 Ee2 El2 Ew2 Et2 [? ?]]. constructor; [|congruence..|done| |split; congruence].
  - by rewrite En2, En1, list_insert_insert_eq.
  - intros x Hx. destruct (Et1 x Hx), (Et2 x Hx). split; congruence.
Qed.

(** The destination is queued afterwards, the others keep their order, and the
    node is scheduled. *)
Lemma trigger_report_spec X Y st en dst :
  i ∉ X → 0 ≤ dst < 256 → comm_ok B clk X Y st → end_nodes st !! Z.to_nat i = Some en →
  wp (trigger_report clk i dst) (λ _ st' l, comm_ok B clk X Y st' ∧ l = [] ∧
    ∃ pa q, rq_ok q ∧ changes i (set_tx_pacer pa (set_report_queue q en)) st st' ∧
      (pacer_is_triggered (tx_pacer en) = true → pa = tx_pacer en) ∧
      queued q = if decide (dst ∈ queued (report_queue en)) then queued (report_queue en)
                 else queued (report_queue en) ++ [dst]) st.
Proof using Hi.
  intros HX Hd Hst E. destruct (co_node _ _ _ _ _ Hst _ _ E) as [Hok Hp].
  destruct (co_timer _ _ _ _ _ Hst _ _ E) as [Htm Hwk]; [by rewrite Z2Nat.id by lia|].
  rewrite Z2Nat.id in Htm, Hwk by lia. pose proof (no_reports _ _ Hok) as Hq.
  unfold trigger_report. eapply wp_get_node; [done|]. cbv zeta. apply wp_bind.
  destruct (lookup_lt_is_Some_2 (is_pending (report_queue en)) (Z.to_nat dst)) as [p Hpd];
    [rewrite (ro_flags _ Hq); lia|].
  eapply wp_deref; [done|].
  assert (arr_get (is_pending (report_queue en)) dst = p) as Ep by (by apply list_lookup_total_correct).
  pose proof (ro_member _ Hq dst Hd) as Hm. rewrite Ep in Hm.
  destruct (Z.eqb_spec p 0) as [->|Hne]; cbn [negb].
  - rewrite decide_False by (rewrite Hm; naive_solver). fold (report_push dst (report_queue en)).
    set (q := report_push dst (report_queue en)).
    assert (rq_ok q) as Hq' by (by apply report_push_ok). apply wp_bind. unfold upd_node. apply wp_modify.
    set (st1 := set_end_nodes _ st).
    assert (changes i (set_report_queue q en) st st1) as Hch1.
    { refine (upd_node_changes i st (set_report_queue q) en E _). apply Hst. }
    assert (comm_ok B clk X (Y ∪ {[ i ]}) st1) as Hst1.
    { eapply (comm_ok_changes B clk X Y _ st st1 i); [done|done|done|exact Hch1|set_solver| |done|done|set_solver].
      by apply node_ok_report_queue. }
    assert (end_nodes st1 !! Z.to_nat i = Some (set_report_queue q en)) as E1.
    { rewrite (ch_nodes _ _ _ _ Hch1). apply list_lookup_insert_eq. by eapply lookup_lt_Some. }
    eapply wp_mono; [by eapply trigger_request_spec|]. intros _ st' l (Hst' & -> & pa & _ & Hpa & Hch2).
    split; [eapply comm_ok_weaken; [|done]; set_solver|]. split; [done|].
    exists pa, q. split; [done|]. split; [by eapply changes_trans|]. split; [done|]. by apply queued_push.
  - apply wp_ret. split; [done|]. split; [done|].
    exists (tx_pacer en), (report_queue en). split; [done|]. rewrite decide_True by (by apply Hm).
    split; [|done]. constructor; try done; [|apply Hst].
    rewrite list_insert_id; [done|]. rewrite E. by destruct en.
Qed.

End handlers.

Section triggers.
Context (B : build) (clk : Z) (i : Z) (Hi : 0 ≤ i < 256) (R : relation end_node_state) `{!StepRel R}.

Lemma hsafe_trigger_request : hsafe B clk i R (trigger_request clk i).
Proof using Hi StepRel0.
  intros X Y st HX Hst. destruct (lookup_node st i (co_nodes _ _ _ _ _ Hst) Hi) as [en E].
  eapply wp_mono; [by eapply trigger_request_spec|]. intros _ st' l (Hst' & -> & pa & _ & Hpa & Hch).
  split; [|split; [apply no_bug_nil|by eapply changes_step, sr_pacer]].
  eapply comm_ok_weaken; [|done]. set_solver.
Qed.

Lemma hsafe_trigger_report dst : 0 ≤ dst < 256 → hsafe B clk i R (trigger_report clk i dst).
Proof using Hi StepRel0.
  intros Hd X Y st HX Hst. destruct (lookup_node st i (co_nodes _ _ _ _ _ Hst) Hi) as [en E].
  eapply wp_mono; [by eapply trigger_report_spec|]. intros _ st' l (Hst' & -> & pa & q & _ & Hch & Hpa & Eq).
  split; [done|]. split; [apply no_bug_nil|]. eapply changes_step; [exact Hch|done|].
  trans (set_report_queue q en); [|by apply sr_pacer]. apply sr_queue. rewrite Eq. case_decide; [done|].
  by apply prefix_app_r.
Qed.
End triggers.

(** ** The handlers *)
#[export] Hint Resolve hsafe_ret hsafe_call hsafe_trigger_request hsafe_trigger_report hsafe_upd_node : hsafe.
#[export] Hint Extern 0 (StepRel _) => apply _ : hsafe.

Ltac hsafe_step :=
  match goal with
  | |- hsafe _ _ _ _ (get_node _ ≫= _) => apply hsafe_get_node; [done|]; intros ? ?
  | |- hsafe _ _ _ _ (deref _ ≫= _) => apply hsafe_deref
  | |- hsafe _ _ _ ?R (_ ≫= _) => apply (hsafe_bind _ _ _ R); [|intros ?]
  | |- hsafe _ _ _ _ (if _ then _ else _) => apply hsafe_if
  | |- hsafe _ _ _ ?R (when _ _) => apply (hsafe_when _ _ _ R); intros ?
  | |- hsafe _ _ _ _ _ => solve [auto with hsafe]
  end.
Ltac hsafe_steps := repeat first [hsafe_step | progress cbv zeta | case_match].

Lemma diff32_wrap a b : is_Some (diff32 true a b).
Proof. unfold diff32. by destruct (_ && _). Qed.

Lemma lookup_256 {A} (l : list A) i : length l = 256%nat → i < 256 → is_Some (l !! Z.to_nat i).
Proof. intros Hl Hi. apply lookup_lt_is_Some_2. lia. Qed.

(** The updates of the handlers. *)
Lemma keeps_demands B f : (∀ en, length (f en) = length (demands en)) → keeps_node B same_conn (λ en, set_demands (f en) en).
Proof. intros Hf en []. split_and!; try done. constructor; try done. simpl. by rewrite Hf. Qed.

Lemma keeps_acked B l : length l = 256%nat → keeps_node B same_conn (set_acked_allocs l).
Proof. intros Hl en []. by split_and!. Qed.

Lemma keeps_pending B f : (∀ en, node_ok B en → pending_ok (f en)) → keeps_node B same_conn (λ en, set_pending_allocs (f en) en).
Proof. intros Hf en Hen. pose proof (Hf en Hen). destruct Hen. by split_and!. Qed.

Section quiet.
Context (B : build) (clk : Z) (i : Z) (Hi : 0 ≤ i < 256) (R : relation end_node_state) `{!StepRel R}.

Lemma hsafe_neg_ack areqs : Forall (λ a, u16 (src_dst_key a) < 256) areqs →
  hsafe B clk i R (neg_ack_loop true clk i areqs).
Proof using Hi StepRel0.
  induction 1 as [|a areqs Ha _ IH]; cbn [neg_ack_loop]; [auto with hsafe|]. cbv zeta.
  pose proof (u16_range (src_dst_key a)). hsafe_step. hsafe_step; [apply lookup_256; [apply H0|done]|]. intros acked _.
  hsafe_step; [apply diff32_wrap|]. intros d _. hsafe_step; [|done]. hsafe_step.
  apply (hsafe_trigger_report _ _ _ Hi _); lia.
Qed.

(** The protocol's timer. *)
Lemma hsafe_timeouts f : (∀ w, wheel_ok w → wheel_ok (f w) ∧ Timer.head (f w) = Timer.head w ∧
    ∀ x, x ≠ i → time_of (f w) x = time_of w x) →
  hsafe B clk i R (modify (λ st, set_timeout_timers (f (timeout_timers st)) st)).
Proof using Hi StepRel0.
  intros Hf X Y st HX Hst. apply wp_modify. split; [|split; [apply no_bug_nil|]].
  - destruct Hst as [? ? ? ? ? ? [Hw ?] Hr [Hk ?]]. destruct (Hf _ Hw) as (Hw' & Eh & Ht).
    constructor; try done; [|split; [unfold timely; simpl; by rewrite Eh|done]]. intros x Hx. destruct (decide (x = i)) as [->|Hne]; [done|]. apply Hr. unfold armed in *. simpl in Hx.
    by rewrite Ht in Hx.
  - split; [done|]. intros en E. by exists en.
Qed.

(** What a handler may be called with. *)
Definition call_valid (k : proto_call) : Prop :=
  match k with
  | CHandleAck o | CHandleNegAck o | CHandleSkippedAck o => ∃ pd, o = Some pd ∧ pd_valid B pd
  | CHandleAlloc _ _ _ _ _ => False
  | CHandleAreq bytes n => 0 ≤ n < 64 ∧ 4 * n ≤ Z.of_nat (length bytes) ∧
      (EMULATION_ALGO B = true → 5 * n ≤ Z.of_nat (length bytes))
  | CSetTimer t => 0 ≤ t < 2 ^ 64
  | _ => True
  end.

(** The calls that only ask for transmissions or set the timer. *)
Definition quiet (k : proto_call) : bool :=
  match k with
  | CHandleNegAck _ | CTriggerRequest | CSetTimer _ | CCancelTimer | CFree _ => true
  | _ => false
  end.

Lemma hsafe_quiet k : call_valid k → quiet k = true → hsafe B clk i R (dispatch B true clk i k).
Proof using Hi StepRel0.
  intros Hk Hq. destruct k; simpl in Hk; try done; cbn [dispatch].
  - destruct Hk as (pd' & -> & Hpd). unfold handle_neg_ack. hsafe_step; [by eexists|]. intros pd [= <-].
    apply hsafe_neg_ack, Hpd.
  - auto with hsafe.
  - unfold set_retrans_timer. apply (hsafe_timeouts (fp_timer_reset i when)). intros w Hw.
    destruct (fp_timer_reset_ok w i when Hw Hk) as [? Ht]. split; [done|]. split; [done|]. intros x Hx. by rewrite Ht, decide_False.
  - unfold cancel_retrans_timer. apply (hsafe_timeouts (fp_timer_stop i)). intros w Hw.
    destruct (fp_timer_stop_ok w i Hw) as [? Ht]. split; [done|].
    split; [unfold fp_timer_stop; by destruct (_ =? _)|]. intros x Hx. by rewrite Ht, decide_False.
  - auto with hsafe.
Qed.
End quiet.

Section dispatch.
Context (B : build) (clk : Z) (i : Z) (Hi : 0 ≤ i < 256).
Hypothesis (Hctl : IS_ENDPOINT B = false) (Hdata : reads_areq_data B = false).
Implicit Types pd : fpproto_pktdesc.

(** Procedures that keep the invariant and whose result satisfies [Q]. *)
Definition hsafe_post {A} (Q : A → Prop) (m : C_ A) : Prop := ∀ X Y st, i ∉ X → comm_ok B clk X Y st →
  wp m (λ a st' l, Q a ∧ comm_ok B clk X Y st' ∧ no_bug l ∧ node_step same_conn i st st') st.

Lemma hsafe_post_ret {A} (Q : A → Prop) a : Q a → hsafe_post Q (mret a).
Proof using.
  intros HQ X Y st HX Hst. apply wp_ret. split; [done|]. split; [done|]. split; [apply no_bug_nil|done].
Qed.

Lemma hsafe_post_bind {A A'} (P : A → Prop) (Q : A' → Prop) (m : C_ A) k :
  hsafe_post P m → (∀ a, P a → hsafe_post Q (k a)) → hsafe_post Q (m ≫= k).
Proof using.
  intros Hm Hk X Y st HX Hst. apply wp_bind. eapply wp_mono; [by apply Hm|].
  intros a st1 l1 (Ha & Hst1 & Hl1 & E1). eapply wp_mono; [by apply (Hk a Ha X Y)|].
  intros b st2 l2 (Hb & Hst2 & Hl2 & E2). split; [done|]. split; [done|]. split; [by apply no_bug_app|by trans st1].
Qed.

Lemma hsafe_post_hsafe {A} (m : C_ A) : hsafe_post (λ _, True) m ↔ hsafe B clk i same_conn m.
Proof using Hi.
  split; intros Hm X Y st HX Hst; (eapply wp_mono; [by apply (Hm X Y)|]); naive_solver.
Qed.

Lemma hsafe_post_deref {A} (o : option A) : is_Some o → hsafe_post (λ _, True) (deref o).
Proof using.
  intros [a ->] X Y st HX Hst. eapply wp_deref; [done|]. split; [done|]. split; [done|]. split; [apply no_bug_nil|done].
Qed.

(** The position of the counts moves on by one. *)
Lemma hsafe_add_demand pkt dst orig diff counts data :
  (EMULATION_ALGO B = true → 0 ≤ counts < Z.of_nat (length pkt)) →
  hsafe_post (λ r, EMULATION_ALGO B = true → r.1 = counts + 1) (add_demand B i pkt dst orig diff counts data).
Proof using Hi Hctl Hdata.
  intros Hc. unfold add_demand. pose proof (no_request_data _ Hdata) as Hd. rewrite Hctl in Hd.
  assert (∀ c, hsafe_post (λ _, True) (call c)) as Hcall.
  { intros c. apply hsafe_post_hsafe, hsafe_call. apply _. }
  destruct (EMULATION_ALGO B); simpl in Hd.
  - rewrite Hd. simpl andb. cbv iota. specialize (Hc eq_refl).
    eapply hsafe_post_bind; [apply hsafe_post_deref, ld8_some; lia|]. intros c _.
    eapply hsafe_post_bind; [by apply (hsafe_post_ret (λ _, True))|]. intros [o d] _.
    eapply hsafe_post_bind; [done|]. intros _ _. by apply hsafe_post_ret.
  - eapply hsafe_post_bind; [done|]. intros _ _. by apply hsafe_post_ret.
Qed.

Lemma hsafe_areq_loop pkt k : ∀ j counts data, 0 ≤ j → 4 * (j + Z.of_nat k) ≤ Z.of_nat (length pkt) →
  (EMULATION_ALGO B = true → 0 ≤ counts ∧ counts + Z.of_nat k ≤ Z.of_nat (length pkt)) →
  hsafe B clk i same_conn (areq_loop B true i k pkt j counts data).
Proof using Hi Hctl Hdata.
  induction k as [|k IH]; intros j counts data Hj Hl Hc; cbn [areq_loop]; [auto with hsafe|].
  hsafe_step; [apply ld16_some; lia|]. intros dst _. hsafe_step; [apply ld16_some; lia|]. intros count _.
  hsafe_step; [auto with hsafe|]. destruct (Z.ltb_spec (Z.shiftr dst FLOW_SHIFT) NUM_NODES) as [Hd|Hd]; cbn [negb];
    [|auto with hsafe].
  change (Z.shiftr dst FLOW_SHIFT) with dst in Hd. change NUM_NODES with 64 in Hd.
  hsafe_step. hsafe_step; [apply lookup_256; [apply H|lia]|]. intros orig _. cbv zeta.
  hsafe_step; [apply diff32_wrap|]. intros diff _. apply hsafe_post_hsafe.
  apply (hsafe_post_bind (λ r : Z * Z, EMULATION_ALGO B = true → counts ≤ r.1 ≤ counts + 1)).
  - destruct (diff >? 0); [|apply hsafe_post_ret; simpl; lia].
    eapply hsafe_post_bind; [apply hsafe_add_demand; intros He; specialize (Hc He); lia|]. intros p Hp.
    apply (hsafe_post_bind (λ _, True)); [|intros _ _; apply hsafe_post_ret; intros He; specialize (Hp He); lia].
    apply hsafe_post_hsafe, hsafe_upd_node; [done|]. apply keeps_demands. intros en'. apply length_arr_set.
  - intros [counts' data'] Hc'. simpl in Hc'. apply hsafe_post_hsafe, IH; [lia|lia|].
    intros He. specialize (Hc He). specialize (Hc' He). lia.
Qed.

Lemma hsafe_handle_areq bytes n : call_valid B (CHandleAreq bytes n) →
  hsafe B clk i same_conn (handle_areq B true clk i bytes n).
Proof using Hi Hctl Hdata.
  intros (Hn & Hl & Hc). unfold handle_areq. cbv zeta. hsafe_step; [apply hsafe_areq_loop; [lia|lia|]|hsafe_steps].
  intros He. specialize (Hc He). lia.
Qed.

Lemma hsafe_handle_reset : hsafe B clk i same_conn (handle_reset i).
Proof using Hi.
  unfold handle_reset. hsafe_steps. apply hsafe_upd_node; [done|]. intros en Hok.
  destruct (rq_ok_empty (q_pending (report_queue en)) (ro_cells _ (no_reports _ _ Hok))) as [Hq E].
  split; [|split; [done|split; [done|]]]; [|intros Hne; exfalso; apply Hne; exact E].
  destruct Hok. constructor; try done; apply length_replicate.
Qed.

Lemma hsafe_requeue pd k : ∀ j, 0 ≤ j → j + Z.of_nat k ≤ pd_used_alloc_tslot pd → pd_valid B pd →
  EMULATION_ALGO B = true → hsafe B clk i same_conn (requeue_loop i k pd j).
Proof using Hi.
  induction k as [|k IH]; intros j Hj Hl Hpd Hemu; cbn [requeue_loop]; [auto with hsafe|].
  pose proof (pv_used _ _ Hpd) as [? ?]. pose proof (pv_emu _ _ Hpd Hemu).
  hsafe_step; [apply lookup_lt_is_Some_2; lia|]. intros desc Hdesc.
  pose proof (pv_desc _ _ Hpd) as Hd. rewrite Forall_lookup in Hd.
  destruct (Hd (Z.to_nat j) desc) as (dst & Edst & Hdst); [rewrite lookup_take_lt by lia; done|].
  hsafe_step; [by rewrite Edst|]. intros dst' [= <-]%(eq_trans (eq_sym Edst)).
  hsafe_step; [apply lookup_lt_is_Some_2; lia|]. intros emu _. hsafe_step; [|apply IH; lia || done].
  apply hsafe_upd_node; [done|]. apply (keeps_pending B (λ en, push_alloc _ _)).
  intros en Hen. apply push_alloc_ok; [apply Hen|done|]. apply (alloc_at _ (no_pending _ _ Hen)).
Qed.

Lemma hsafe_report_dsts dsts : Forall (λ d, 0 ≤ d < 256) dsts → hsafe B clk i same_conn (report_dsts clk i dsts).
Proof using Hi. induction 1; cbn [report_dsts]; hsafe_steps. Qed.

Lemma hsafe_ack_areqs areqs : Forall (λ a, u16 (src_dst_key a) < 256) areqs →
  hsafe B clk i same_conn (ack_areqs_loop true i areqs).
Proof using Hi.
  induction 1 as [|a areqs Ha _ IH]; cbn [ack_areqs_loop]; [auto with hsafe|]. cbv zeta.
  hsafe_step. hsafe_step; [apply lookup_256; [apply H|done]|]. intros acked _.
  hsafe_step; [apply diff32_wrap|]. intros d _. hsafe_step; [|done]. hsafe_step.
  apply hsafe_upd_node; [done|]. apply keeps_acked. rewrite length_arr_set. apply H.
Qed.

Lemma hsafe_ack_allocs pd k : ∀ j, 0 ≤ j → j + Z.of_nat k ≤ pd_used_alloc_tslot pd → pd_valid B pd →
  hsafe B clk i same_conn (ack_allocs_loop i k pd j).
Proof using Hi.
  induction k as [|k IH]; intros j Hj Hl Hpd; cbn [ack_allocs_loop]; [auto with hsafe|].
  pose proof (pv_used _ _ Hpd) as [? ?].
  hsafe_step; [apply lookup_lt_is_Some_2; lia|]. intros desc Hdesc.
  pose proof (pv_desc _ _ Hpd) as Hd. rewrite Forall_lookup in Hd.
  destruct (Hd (Z.to_nat j) desc) as (dst & Edst & Hdst); [rewrite lookup_take_lt by lia; done|].
  hsafe_step; [by rewrite Edst|]. intros dst' [= <-]%(eq_trans (eq_sym Edst)).
  hsafe_step. hsafe_step; [apply lookup_256; [apply H1|lia]|]. intros acked _. hsafe_step; [|apply IH; lia || done].
  apply hsafe_upd_node; [done|]. apply keeps_acked. rewrite length_arr_set. apply H1.
Qed.

Lemma hsafe_dispatch k : call_valid B k → hsafe B clk i same_conn (dispatch B true clk i k).
Proof using Hi Hctl Hdata.
  intros Hk. destruct (quiet k) eqn:Eq; [by apply (hsafe_quiet _ _ _ Hi same_conn)|].
  destruct k; simpl in Hk; try done; cbn [dispatch].
  - apply hsafe_handle_reset.
  - destruct Hk as (pd' & -> & Hpd). unfold handle_ack. hsafe_step; [by eexists|]. intros pd [= <-].
    pose proof (pv_used _ _ Hpd). hsafe_step; [apply hsafe_ack_allocs; [lia|lia|done]|].
    apply hsafe_ack_areqs, Hpd.
  - destruct Hk as (pd' & -> & Hpd). unfold handle_skipped_ack. hsafe_step; [by eexists|]. intros pd [= <-].
    pose proof (pv_used _ _ Hpd). apply (hsafe_when _ _ _ same_conn). intros Hr.
    apply (hsafe_bind _ _ _ same_conn); [apply hsafe_requeue; [lia|lia|done|]|intros _; apply hsafe_report_dsts, Hpd].
    unfold RETRANSMIT_UNACKED_ALLOCS in Hr. by apply andb_true_iff in Hr as [_ ?].
  - by apply hsafe_handle_areq.
Qed.

Definition log_valid (l : list (event proto_call)) : Prop :=
  Forall (λ e, match e with EvBug _ => False | EvCall k => call_valid B k end) l.

Lemma hsafe_dispatch_all l : log_valid l → hsafe B clk i same_conn (dispatch_all B true clk i l).
Proof using Hi Hctl Hdata.
  induction 1 as [|e l He _ IH]; cbn [dispatch_all]; [auto with hsafe|]. destruct e as [|k]; [done|].
  hsafe_step; [by apply hsafe_dispatch|done].
Qed.

Lemma hsafe_dispatch_quiet l : log_valid l → Forall (λ k, quiet k = true) (calls l) →
  hsafe B clk i asks (dispatch_all B true clk i l).
Proof using Hi.
  induction 1 as [|e l He _ IH]; cbn [dispatch_all]; [auto with hsafe|]. destruct e as [|k]; [done|].
  intros [Hk Hl]%Forall_cons. hsafe_step; [|by apply IH]. by apply (hsafe_quiet _ _ _ Hi asks).
Qed.

(** In an emulation build the buffer goes on for 63 bytes behind the packet, or the
    call is no request. *)
Lemma call_from_valid en tail k : node_ok B en → call_from (conn en) k →
  (EMULATION_ALGO B = true → 63 ≤ Z.of_nat (length tail) ∨ quiet k = true) → call_valid B (beyond tail k).
Proof using.
  intros Hen Hk Htail. pose proof (no_ops _ _ Hen) as Eo. pose proof (no_pds _ _ Hen) as Hpds.
  destruct k; simpl in *; try done; try (destruct Hk as (s & pd' & -> & Hs); eauto).
  - destruct Hk as [Hk _]. by rewrite Eo in Hk.
  - rewrite length_app. split; [apply Hk|]. split; [lia|]. intros [?|?]%Htail; [lia|done].
Qed.

Lemma log_from_valid en l : node_ok B en → log_from (conn en) l → Forall (λ k, quiet k = true) (calls l) → log_valid l.
Proof using.
  intros Hen Hl. induction Hl as [|[s|k] l Hk _ IH]; [constructor|done|]. intros [Hq Hqs]%Forall_cons.
  constructor; [|by apply IH]. pose proof (call_from_valid en [] k Hen Hk (λ _, or_intror Hq)) as Hv.
  by destruct k.
Qed.

Lemma hsafe_dispatch_from en l : node_ok B en → log_from (conn en) l → Forall (λ k, quiet k = true) (calls l) →
  hsafe B clk i asks (dispatch_all B true clk i l).
Proof using Hi. intros Hen Hl Hq. by eapply hsafe_dispatch_quiet, Hq; eapply log_from_valid. Qed.

Lemma log_from_valid_after en tail l : node_ok B en → log_from (conn en) l →
  (EMULATION_ALGO B = true → 63 ≤ Z.of_nat (length tail)) → log_valid (beyond_event tail <$> l).
Proof using.
  intros Hen Hl Htail. apply Forall_fmap. eapply Forall_impl; [exact Hl|]. intros [|k] Hk; [done|].
  apply (call_from_valid en); [done|done|]. intros He. left. by apply Htail.
Qed.

Lemma wp_after_packet {A} tail (m : P A) Q c : wp m (λ a c' l, Q a c' (beyond_event tail <$> l)) c →
  wp (after_packet tail m) Q c.
Proof using. unfold wp, after_packet. by destruct (m c) as [[[a c'] l]|]. Qed.

(** A procedure of the protocol on the connection of the node, and the handlers
    on its log. *)
Lemma on_conn_wp {A} (m : P A) X Y st en (Q : A → comm_state → list (event comm_call) → Prop) :
  i ∉ X → comm_ok B clk X Y st → end_nodes st !! Z.to_nat i = Some en →
  wp m (λ a c' l, conn_ok c' ∧ ops c' = proto_ops ∧ (∀ s pd, out_pd c' s = Some pd → pd_valid B pd) ∧
    ∀ st1, comm_ok B clk X Y st1 → end_nodes st1 = <[Z.to_nat i := set_conn c' en]> (end_nodes st) →
      wp (dispatch_all B true clk i l) (λ _ st' l', Q a st' l') st1) (conn en) →
  wp (on_conn B true clk i m) Q st.
Proof using Hi.
  intros HX Hst E Hm. unfold on_conn. eapply wp_get_node; [done|].
  destruct (wp_inv _ _ _ Hm) as (a & c' & l & Hrun & Hc' & Eo & Hpds & Hl). apply wp_bind.
  eapply wp_deref; [exact Hrun|]. apply wp_bind. unfold upd_node. apply wp_modify.
  set (st1 := set_end_nodes _ st).
  assert (changes i (set_conn c' en) st st1) as Hch.
  { refine (upd_node_changes i st (set_conn c') en E _). apply Hst. }
  destruct (co_node _ _ _ _ _ Hst _ _ E) as [Hok Hp].
  destruct (co_timer _ _ _ _ _ Hst _ _ E) as [Htm Hwk]; [by rewrite Z2Nat.id by lia|].
  rewrite Z2Nat.id in Htm, Hwk by lia.
  assert (comm_ok B clk X Y st1) as Hst1.
  { eapply (comm_ok_changes B clk X Y _ st st1 i); [done|done|done|exact Hch|done| |done|done|done].
    by destruct Hok. }
  apply wp_bind. eapply wp_mono; [apply Hl; [done|apply (ch_nodes _ _ _ _ Hch)]|].
  intros [] st2 l2 HQ. apply wp_ret. simpl. by rewrite app_nil_r.
Qed.

(** The core keeps its invariant if the handlers do on the log. *)
Lemma on_conn_spec {A} (R : relation end_node_state) (m : P A) X Y st en (Q : A → fpproto_conn → Prop) :
  i ∉ X → comm_ok B clk X Y st → end_nodes st !! Z.to_nat i = Some en →
  wp m (λ a c' l, Q a c' ∧ conn_ok c' ∧ hsafe B clk i R (dispatch_all B true clk i l) ∧ ops c' = proto_ops ∧
    ∀ s pd, out_pd c' s = Some pd → pd_valid B pd) (conn en) →
  wp (on_conn B true clk i m) (λ a st' l, comm_ok B clk X Y st' ∧ no_bug l ∧
    node_step (λ en en', ∃ c', Q a c' ∧ R (set_conn c' en) en') i st st') st.
Proof using Hi.
  intros HX Hst E Hm. apply (on_conn_wp m X Y st en); [done..|].
  eapply wp_mono; [exact Hm|]. intros a c' l (HQ & Hc' & Hl & Eo & Hpds). split; [done|]. split; [done|]. split; [done|].
  intros st1 Hst1 En. eapply wp_mono; [by apply Hl|]. intros _ st2 l2 (Hst2 & Hl2 & [Ho2 Hn2]).
  split; [done|]. split; [done|]. split.
  - intros j Hj. rewrite Ho2, En by done. by apply list_lookup_insert_ne.
  - intros en0 E0. assert (en0 = en) as -> by congruence.
    destruct (Hn2 (set_conn c' en)) as (en' & E' & HR).
    { rewrite En. apply list_lookup_insert_eq. by eapply lookup_lt_Some. }
    exists en'. split; [done|]. by exists c'.
Qed.

(** A procedure that handles a packet. *)
Lemma on_conn_safe (m : P unit) tail X Y st : i ∉ X → safe m → comm_ok B clk X Y st →
  (EMULATION_ALGO B = true → 63 ≤ Z.of_nat (length tail)) →
  wp (on_conn B true clk i (after_packet tail m)) (λ _ st' l, comm_ok B clk X Y st' ∧ no_bug l) st.
Proof using Hi Hctl Hdata.
  intros HX Hm Hst Htail. destruct (lookup_node st i (co_nodes _ _ _ _ _ Hst) Hi) as [en E].
  destruct (co_node _ _ _ _ _ Hst _ _ E) as [Hok _].
  eapply wp_mono; [apply (on_conn_spec same_conn _ X Y st en (λ _ _, True)); [done|done|done|]|].
  - apply wp_after_packet. eapply wp_mono; [apply Hm, Hok|]. intros a c' l (Hc' & Hl & [(Eo & _ & _) Hp] & _).
    split; [done|]. split; [done|]. split; [by eapply hsafe_dispatch_all, log_from_valid_after|].
    rewrite <- (no_ops _ _ Hok). split; [congruence|]. intros s pd Hs. by eapply (no_pds _ _ Hok), Hp.
  - intros a st' l (Hst' & Hl & _). done.
Qed.
End dispatch.
