(* ===== verification/CommFill.v ===== *)
(** * Filling packets

    [fill_packet_alloc] moves a prefix of the pending allocations into the packet:
    the longest one with at most 63 allocations and 15 distinct destinations. The
    descriptors it writes decode to exactly these allocations. *)

From S2P Require Import Prelude Platform Window WindowFacts WindowSpec WindowMarks Protocol ConnFacts.
From S2P Require Import ConnSpec ConnAck ConnSend ConnInwnd ConnSafe Codec Pacer Timer Comm CommInv.

(** ** Destinations of a packet *)

(** [seen] extended by the destinations of [p], in the order of appearance. *)
Fixpoint add_dsts (seen : list Z) (p : list pending_alloc) : list Z :=
  match p with
  | [] => seen
  | a :: p' => add_dsts (if decide (al_dst a ∈ seen) then seen else seen ++ [al_dst a]) p'
  end.
Definition dsts_of (p : list pending_alloc) : list Z := add_dsts [] p.

Definition fits (p : list pending_alloc) : Prop := (length p ≤ 63)%nat ∧ (length (dsts_of p) ≤ 15)%nat.

Lemma add_dsts_prefix p : ∀ D, D `prefix_of` add_dsts D p.
Proof.
  induction p as [|a p IH]; intros D; simpl; [done|]. etrans; [|apply IH].
  case_decide; [done|]. by apply prefix_app_r.
Qed.

Lemma add_dsts_app p1 p2 : ∀ D, add_dsts D (p1 ++ p2) = add_dsts (add_dsts D p1) p2.
Proof. induction p1 as [|a p1 IH]; intros D; simpl; [done|apply IH]. Qed.

Lemma add_dsts_NoDup p : ∀ D, NoDup D → NoDup (add_dsts D p).
Proof.
  induction p as [|a p IH]; intros D HD; simpl; [done|]. apply IH. case_decide as Hin; [done|].
  apply NoDup_app. split; [done|]. split; [|apply NoDup_singleton]. by intros x Hx ->%list_elem_of_singleton.
Qed.

Lemma add_dsts_Forall (P : Z → Prop) p : ∀ D, Forall P D → Forall (λ a, P (al_dst a)) p → Forall P (add_dsts D p).
Proof.
  induction p as [|a p IH]; intros D HD Hp; simpl; [done|]. apply Forall_cons in Hp as [Ha Hp].
  apply IH; [|done]. case_decide; [done|]. apply Forall_app. split; [done|by apply Forall_singleton].
Qed.

Lemma elem_of_add_dsts p : ∀ D x, x ∈ add_dsts D p ↔ x ∈ D ∨ x ∈ al_dst <$> p.
Proof.
  induction p as [|a p IH]; intros D x; simpl; [set_solver|]. rewrite IH, elem_of_cons.
  case_decide; [set_solver|]. rewrite elem_of_app, list_elem_of_singleton. tauto.
Qed.

(** ** The encoding space *)

(** One more than the position of a destination, 0 if it has none. *)
Definition code (D : list Z) (d : Z) : Z :=
  match list_find (.= d) D with Some (k, _) => Z.of_nat k + 1 | None => 0 end.

Lemma code_lookup D d k : NoDup D → D !! k = Some d → code D d = Z.of_nat k + 1.
Proof.
  intros Hnd Hk. unfold code. destruct (list_find (.= d) D) as [[j x]|] eqn:E.
  - apply list_find_Some in E as (Hj & -> & _). by rewrite (NoDup_lookup D k j d Hnd Hk Hj).
  - apply list_find_None in E. rewrite Forall_lookup in E. by specialize (E k d Hk).
Qed.

Lemma code_not D d : d ∉ D → code D d = 0.
Proof.
  intros Hd. unfold code. destruct (list_find (.= d) D) as [[j x]|] eqn:E; [|done].
  apply list_find_Some in E as (Hj & -> & _). exfalso. apply Hd. by eapply list_elem_of_lookup_2.
Qed.

Lemma code_zero D d : code D d = 0 ↔ d ∉ D.
Proof.
  split; [|apply code_not]. intros E Hd. unfold code in E. destruct (list_find (.= d) D) as [[j x]|] eqn:F; [lia|].
  apply list_find_None in F. rewrite Forall_forall in F. by apply (F d).
Qed.

(** [alloc_enc_space] while the destinations [D] are in the packet. *)
Definition enc_space_ok (D sp : list Z) : Prop :=
  length sp = 256%nat ∧ ∀ d, 0 ≤ d < 256 → arr_get sp d = code D d.

Lemma enc_space_zero : enc_space_ok [] (replicate 256 0).
Proof. split; [done|]. intros d Hd. apply (lookup_total_replicate_2 256 (0 : Z) (Z.to_nat d)). lia. Qed.

Lemma enc_space_add D sp d : enc_space_ok D sp → NoDup D → d ∉ D → 0 ≤ d < 256 →
  enc_space_ok (D ++ [d]) (arr_set sp d (Z.of_nat (length D) + 1)).
Proof.
  intros [Hl Hsp] Hnd Hd Hr. split; [by rewrite length_arr_set|]. intros d' Hd'.
  rewrite arr_get_set by (rewrite ?Hl; lia).
  assert (NoDup (D ++ [d])) as Hnd'.
  { apply NoDup_app. split; [done|]. split; [|apply NoDup_singleton]. by intros x Hx ->%list_elem_of_singleton. }
  case_decide as E; [subst d'|].
  - symmetry. apply code_lookup; [done|]. by apply lookup_snoc_Some; right.
  - rewrite Hsp by done. destruct (decide (d' ∈ D)) as [Hin|Hnin].
    + apply list_elem_of_lookup in Hin as [k Hk]. rewrite (code_lookup D d' k Hnd Hk). symmetry.
      apply code_lookup; [done|]. by apply lookup_app_l_Some.
    + rewrite !code_not; [done| |done]. rewrite elem_of_app, list_elem_of_singleton. naive_solver.
Qed.

(** ** Descriptors *)

(** Byte [b] stands for allocation [a] when the packet has destinations [D]. *)
Definition describes (D : list Z) (b : Z) (a : pending_alloc) : Prop :=
  0 ≤ b < 256 ∧ (1 ≤ Z.shiftr b 4 ∧ D !! Z.to_nat (Z.shiftr b 4 - 1) = Some (al_dst a)) ∧
  Z.land b FLAGS_MASK = Z.land (al_flags a) FLAGS_MASK.

Lemma describes_prefix D D' b a : D `prefix_of` D' → describes D b a → describes D' b a.
Proof. intros HD (Hb & [H1 Hk] & Hf). split; [done|]. split; [|done]. split; [done|]. by eapply prefix_lookup_Some. Qed.

Lemma desc_byte k f : 0 ≤ k < 15 →
  let b := u8 (Z.lor (Z.shiftl (k + 1) 4) (Z.land f FLAGS_MASK)) in
  0 ≤ b < 256 ∧ Z.shiftr b 4 = k + 1 ∧ Z.land b FLAGS_MASK = Z.land f FLAGS_MASK.
Proof.
  intros Hk b. assert (Z.land f FLAGS_MASK = f mod 16) as Ef.
  { change FLAGS_MASK with (Z.ones 4). by rewrite Z.land_ones by lia. }
  assert (Z.lor (Z.shiftl (k + 1) 4) (f mod 16) = (k + 1) * 16 + f mod 16) as El.
  { rewrite <- Z.add_nocarry_lor; [by rewrite Z.shiftl_mul_pow2 by lia|].
    apply Z.bits_inj'. intros n Hn. rewrite Z.land_spec, Z.shiftl_spec, Z.bits_0 by lia.
    destruct (decide (n < 4)); [by rewrite Z.testbit_neg_r by lia|].
    change 16 with (2 ^ 4). by rewrite Z.mod_pow2_bits_high, andb_false_r by lia. }
  assert (b = (k + 1) * 16 + f mod 16) as Eb.
  { unfold b. rewrite Ef, El. unfold u8. apply Z.mod_small. zify_div. lia. }
  split; [rewrite Eb; zify_div; lia|]. split.
  - rewrite Z.shiftr_div_pow2, Eb by lia. zify_div. lia.
  - rewrite Ef, Eb. change FLAGS_MASK with (Z.ones 4). rewrite Z.land_ones by lia. zify_div. lia.
Qed.

(** ** The loop over the pending allocations *)
Section fill.
Context (B : build) (i : Z) (Hbytes : 0 ≤ emu_alloc_data_bytes B ≤ 2).

(** [st] with node [i] and the encoding space replaced. *)
Definition filled (st : comm_state) (en : end_node_state) (sp : list Z) : comm_state :=
  set_alloc_enc_space sp (set_end_nodes (<[Z.to_nat i := en]> (end_nodes st)) st).

(** The packet under construction, with destinations [D]. *)
Record enc_ok (x : alloc_enc) (D : list Z) : Prop := {
  eo_n : n_dsts x = Z.of_nat (length D);
  eo_max : (length D ≤ 15)%nat;
  eo_dsts : take (length D) (en_dsts x) = D;
  eo_ldsts : length (en_dsts x) = 15%nat;
  eo_ldesc : length (en_desc x) = 64%nat;
  eo_lemu : EMULATION_ALGO B = true → length (en_emu x) = 64%nat;
  eo_edata : Forall (λ e, length (emu_data e) = 2%nat) (en_emu x);
  eo_tslot : 0 ≤ n_tslot x ≤ 63;
}.

(** Entry [k] of the packet stands for [a]. *)
Definition entry_for (x : alloc_enc) (D : list Z) (k : nat) (a : pending_alloc) : Prop :=
  (∃ b, en_desc x !! k = Some b ∧ describes D b a) ∧
  (EMULATION_ALGO B = true → ∃ e old, en_emu x !! k = Some e ∧ emu_id e = al_id a ∧
     emu_data e = memcpy (emu_alloc_data_bytes B) (al_data a) old).

(** The first [n] entries are the same. *)
Definition same_entries (n : Z) (x x' : alloc_enc) : Prop := ∀ k, (k < Z.to_nat n)%nat →
  en_desc x' !! k = en_desc x !! k ∧ (EMULATION_ALGO B = true → en_emu x' !! k = en_emu x !! k).

Lemma entry_for_same x x' D D' k a n : same_entries n x x' → (k < Z.to_nat n)%nat → D `prefix_of` D' →
  entry_for x D k a → entry_for x' D' k a.
Proof.
  intros Hs Hk HD [(b & Hb & Hd) He]. destruct (Hs k Hk) as [E1 E2]. split.
  - exists b. rewrite E1. split; [done|by eapply describes_prefix].
  - intros Hemu. rewrite E2 by done. by apply He.
Qed.

Lemma store_some {A} (l : list A) j v : 0 ≤ j < Z.of_nat (length l) → store l j v = Some (arr_set l j v).
Proof. intros Hj. unfold store. by rewrite (proj2 (Z.leb_le _ _)), (proj2 (Z.ltb_lt _ _)) by lia. Qed.

(** The code of the destination, entered first if it is new. *)
Lemma intern_dst st x D dst :
  enc_space_ok D (alloc_enc_space st) → NoDup D → enc_ok x D → 0 ≤ dst < 256 →
  let D' := if decide (dst ∈ D) then D else D ++ [dst] in
  (length D' ≤ 15)%nat → ∀ e, arr_get (alloc_enc_space st) dst = e →
  wp (if e =? 0 then
        dsts ← deref (store (en_dsts x) (n_dsts x) dst);
        let e := u8 (n_dsts x + 1) in
        modify (set_alloc_enc_space (arr_set (alloc_enc_space st) dst e));;
        mret (e, n_dsts x + 1, dsts)
      else mret (e, n_dsts x, en_dsts x) : C_ (Z * Z * list Z)) (λ r st' l, l = [] ∧
    ∃ sp dsts k, st' = set_alloc_enc_space sp st ∧ enc_space_ok D' sp ∧ (k < 15)%nat ∧ D' !! k = Some dst ∧
      r = (Z.of_nat k + 1, Z.of_nat (length D'), dsts) ∧ length dsts = 15%nat ∧ take (length D') dsts = D') st.
Proof.
  intros Hsp Hnd Hx Hd D' Hmax e He. rewrite (proj2 Hsp dst Hd) in He.
  pose proof (eo_n _ _ Hx) as En. pose proof (eo_ldsts _ _ Hx) as Hl. unfold D' in *.
  case_decide as Hin.
  - apply list_elem_of_lookup in Hin as [k Hk]. rewrite (code_lookup D dst k Hnd Hk) in He. subst e.
    rewrite (proj2 (Z.eqb_neq _ _)) by lia. apply wp_ret. split; [done|].
    exists (alloc_enc_space st), (en_dsts x), k. rewrite En. pose proof (lookup_lt_Some _ _ _ Hk).
    split; [by destruct st|]. split; [done|]. split; [lia|]. split; [done|]. split; [done|].
    split; [done|apply Hx].
  - rewrite code_not in He by done. subst e. rewrite Z.eqb_refl. rewrite length_app in Hmax. simpl in Hmax.
    rewrite store_some by (rewrite En, Hl; lia). apply wp_bind. eapply wp_deref; [done|].
    apply wp_bind, wp_modify, wp_ret. split; [done|].
    assert (u8 (n_dsts x + 1) = Z.of_nat (length D) + 1) as -> by (rewrite En; apply Z.mod_small; lia).
    eexists _, _, (length D). split; [done|]. split; [by apply enc_space_add|].
    split; [lia|]. split; [by apply lookup_snoc_Some; right|].
    rewrite En, length_app. simpl length. rewrite Nat2Z.inj_add. split; [done|].
    split; [by rewrite length_arr_set|]. unfold arr_set. rewrite Nat2Z.id.
    rewrite Nat.add_1_r, (take_S_r _ _ dst); [|apply list_lookup_insert_eq; lia].
    rewrite take_insert_ge by lia. by rewrite (eo_dsts _ _ Hx).
Qed.

(** The packet after allocation [a] with descriptor byte [b] is added. *)
Definition put_entry (x : alloc_enc) (a : pending_alloc) (b n : Z) (dsts : list Z) (old : fpproto_emu_desc) :
    alloc_enc := {|
  n_dsts := n; n_tslot := n_tslot x + 1; en_dsts := dsts; en_desc := arr_set (en_desc x) (n_tslot x) b;
  en_emu := if EMULATION_ALGO B then arr_set (en_emu x) (n_tslot x) {| emu_id := al_id a;
      emu_data := memcpy (emu_alloc_data_bytes B) (al_data a) (emu_data old) |} else en_emu x |}.

Lemma wp_put_entry {A} x D a b n dsts (k : alloc_enc → C_ A) Q st :
  enc_ok x D → (∀ old, length (emu_data old) = 2%nat → wp (k (put_entry x a b n dsts old)) Q st) →
  wp (desc ← deref (store (en_desc x) (n_tslot x) b);
      emu ← (if EMULATION_ALGO B then
          old ← deref (en_emu x !! Z.to_nat (n_tslot x));
          mret (arr_set (en_emu x) (n_tslot x) {| emu_id := al_id a;
            emu_data := memcpy (emu_alloc_data_bytes B) (al_data a) (emu_data old) |})
        else mret (en_emu x));
      k {| n_dsts := n; n_tslot := n_tslot x + 1; en_dsts := dsts; en_desc := desc; en_emu := emu |}) Q st.
Proof.
  intros Hx Hk. pose proof (eo_tslot _ _ Hx). pose proof (eo_ldesc _ _ Hx) as Hl. apply wp_bind.
  eapply wp_deref; [apply store_some; lia|]. apply wp_bind. unfold put_entry in Hk.
  destruct (EMULATION_ALGO B) eqn:Eemu.
  - pose proof (eo_lemu _ _ Hx Eemu). apply wp_bind.
    destruct (lookup_lt_is_Some_2 (en_emu x) (Z.to_nat (n_tslot x))) as [old Hold]; [lia|].
    eapply wp_deref; [done|]. apply wp_ret, (Hk old). by eapply (Forall_lookup_1 _ _ _ _ (eo_edata _ _ Hx)).
  - by apply wp_ret, (Hk {| emu_id := 0; emu_data := [0; 0] |}).
Qed.

Lemma put_entry_ok x D D' a b n dsts old :
  length (al_data a) = 2%nat → length (emu_data old) = 2%nat →
  enc_ok x D → n_tslot x ≤ 62 → n = Z.of_nat (length D') → (length D' ≤ 15)%nat → length dsts = 15%nat →
  take (length D') dsts = D' → enc_ok (put_entry x a b n dsts old) D'.
Proof.
  intros Ha Ho [? ? ? ? ? ? He ?] Ht -> Hmax Hl Hd. unfold put_entry.
  constructor; simpl; rewrite ?length_arr_set; try done; [| |lia].
  - intros E. rewrite E, length_arr_set. auto.
  - destruct (EMULATION_ALGO B); [|done]. apply arr_set_Forall; [done|]. simpl. unfold memcpy.
    rewrite length_app, length_take, length_drop. lia.
Qed.

Lemma put_entry_entries x D D' a b n dsts old :
  enc_ok x D → describes D' b a →
  same_entries (n_tslot x) x (put_entry x a b n dsts old) ∧
  entry_for (put_entry x a b n dsts old) D' (Z.to_nat (n_tslot x)) a.
Proof.
  intros Hx Hb. pose proof (eo_tslot _ _ Hx). pose proof (eo_ldesc _ _ Hx). split.
  - intros k Hk. unfold put_entry, arr_set. simpl. split; [by rewrite list_lookup_insert_ne by lia|].
    intros ->. by rewrite list_lookup_insert_ne by lia.
  - split.
    + exists b. split; [|done]. apply list_lookup_insert_eq. lia.
    + intros Hemu. pose proof (eo_lemu _ _ Hx Hemu). unfold put_entry. simpl. rewrite Hemu.
      eexists _, (emu_data old). split; [apply list_lookup_insert_eq; lia|done].
Qed.

(** What the loop has done: [p] moved into the packet, [rest] left. *)
Record loop_done (st : comm_state) (en : end_node_state) (x : alloc_enc) (D : list Z)
    (x' : alloc_enc) (st' : comm_state) (p rest : list pending_alloc) : Prop := {
  ld_split : unsent (pending_allocs en) = p ++ rest;
  ld_state : ∃ q sp, st' = filled st (set_pending_allocs q en) sp ∧ pending_ok q ∧ unsent q = rest ∧
    allocs q = allocs (pending_allocs en) ∧ enc_space_ok (add_dsts D p) sp;
  ld_enc : enc_ok x' (add_dsts D p);
  ld_count : n_tslot x' = n_tslot x + Z.of_nat (length p);
  ld_same : same_entries (n_tslot x) x x';
  ld_new : ∀ j a, p !! j = Some a → entry_for x' (add_dsts D p) (Z.to_nat (n_tslot x) + j) a;
  ld_stop : rest = [] ∨ n_tslot x' = 63 ∨
    (length (add_dsts D p) = 15%nat ∧ ∃ a rest', rest = a :: rest' ∧ al_dst a ∉ add_dsts D p);
}.

Lemma filled_filled st en en' sp sp' : filled (filled st en sp) en' sp' = filled st en' sp'.
Proof. unfold filled. simpl. by rewrite list_insert_insert_eq. Qed.

Lemma filled_same st en q : end_nodes st !! Z.to_nat i = Some en → q = pending_allocs en →
  filled st (set_pending_allocs q en) (alloc_enc_space st) = st.
Proof.
  intros E ->. unfold filled. rewrite list_insert_id; [by destruct st|]. rewrite E. by destruct en.
Qed.
End fill.

Section loop.
Context (B : build) (i : Z) (Hctl : IS_ENDPOINT B = false) (Hbytes : 0 ≤ emu_alloc_data_bytes B ≤ 2).

(** One more allocation in front of what the rest of the loop does. *)
Lemma loop_cons st en q1 sp1 x D a x1 x' st' p rest :
  let D1 := if decide (al_dst a ∈ D) then D else D ++ [al_dst a] in
  unsent (pending_allocs en) = a :: unsent q1 → allocs q1 = allocs (pending_allocs en) → 0 ≤ n_tslot x →
  same_entries B (n_tslot x) x x1 → entry_for B x1 D1 (Z.to_nat (n_tslot x)) a → n_tslot x1 = n_tslot x + 1 →
  loop_done B i (filled i st (set_pending_allocs q1 en) sp1) (set_pending_allocs q1 en) x1 D1 x' st' p rest →
  loop_done B i st en x D x' st' (a :: p) rest.
Proof.
  intros D1 Eu Eal H0 Hs He Ht [Hsp (q & sp & -> & Hq & Eq & Ea & Henc) Hx' Hc Hs' Hn Hst].
  simpl in Hsp. assert (add_dsts D (a :: p) = add_dsts D1 p) as ED by done.
  constructor; rewrite ?ED; try done.
  - by rewrite Eu, Hsp.
  - exists q, sp. rewrite filled_filled. split_and!; try done. by rewrite Ea.
  - rewrite Hc, Ht. simpl length. lia.
  - intros k Hk. destruct (Hs k Hk) as [E1 E2]. destruct (Hs' k) as [E1' E2']; [lia|].
    split; [by rewrite E1'|]. intros Hemu. by rewrite E2', E2.
  - intros [|j] b Hj; simpl in Hj.
    + injection Hj as <-. rewrite Nat.add_0_r.
      eapply entry_for_same; [exact Hs'|lia|apply add_dsts_prefix|done].
    + specialize (Hn j b Hj). replace (Z.to_nat (n_tslot x) + S j)%nat with (Z.to_nat (n_tslot x1) + j)%nat by lia.
      done.
Qed.

Lemma loop_stop st en x D :
  end_nodes st !! Z.to_nat i = Some en → pending_ok (pending_allocs en) → enc_space_ok D (alloc_enc_space st) →
  enc_ok B x D → (unsent (pending_allocs en) = [] ∨ n_tslot x = 63 ∨
    length D = 15%nat ∧ ∃ a rest', unsent (pending_allocs en) = a :: rest' ∧ al_dst a ∉ D) →
  loop_done B i st en x D x st [] (unsent (pending_allocs en)).
Proof.
  intros E Hq Hsp Hx Hst. constructor; simpl; try done; [|lia].
  exists (pending_allocs en), (alloc_enc_space st). by rewrite filled_same.
Qed.

Lemma next_alloc_spec fuel : ∀ st en x D,
  end_nodes st !! Z.to_nat i = Some en → pending_ok (pending_allocs en) → unsent (pending_allocs en) ≠ [] →
  enc_space_ok D (alloc_enc_space st) → NoDup D → enc_ok B x D → n_tslot x ≤ 62 → 63 - n_tslot x ≤ Z.of_nat fuel →
  wp (next_alloc B i fuel x) (λ x' st' l, l = [] ∧ ∃ p rest, loop_done B i st en x D x' st' p rest) st.
Proof using Hctl Hbytes.
  induction fuel as [|fuel IH]; intros st en x D E Hq Hne Hsp Hnd Hx Ht Hf; [lia|]. cbn [next_alloc].
  pose proof (eo_tslot _ _ _ Hx) as Ht0.
  assert (0 < pq_len (pending_allocs en)) as Hlen.
  { pose proof (length_unsent (pending_allocs en)). destruct (unsent (pending_allocs en)); simpl in *; [done|lia]. }
  pose proof (unsent_pop _ Hq Hlen) as Eu. set (a := arr_get _ _) in *.
  destruct (alloc_at _ Hq (pq_head (pending_allocs en))) as [Ha Hdat]. fold a in Ha, Hdat.
  eapply wp_get_node; [done|]. apply wp_bind, wp_get. cbv zeta. fold a. apply wp_bind.
  destruct (lookup_lt_is_Some_2 (alloc_enc_space st) (Z.to_nat (al_dst a))) as [e He];
    [rewrite (proj1 Hsp); lia|].
  eapply wp_deref; [done|].
  assert (arr_get (alloc_enc_space st) (al_dst a) = e) as Ee by (by apply list_lookup_total_correct).
  set (D1 := if decide (al_dst a ∈ D) then D else D ++ [al_dst a]).
  destruct ((e =? 0) && (n_dsts x =? 15)) eqn:Estop.
  { apply andb_true_iff in Estop as [E0%Z.eqb_eq E15%Z.eqb_eq].
    rewrite (proj2 Hsp _ Ha), E0 in Ee. apply code_zero in Ee. pose proof (eo_n _ _ _ Hx).
    apply wp_ret. split; [done|]. exists [], (unsent (pending_allocs en)). apply loop_stop; try done.
    right. right. split; [lia|]. eauto. }
  assert (length D1 ≤ 15)%nat as Hmax.
  { unfold D1. pose proof (eo_max _ _ _ Hx). pose proof (eo_n _ _ _ Hx). case_decide as Hin; [done|].
    rewrite (proj2 Hsp _ Ha), code_not in Ee by done. subst e. rewrite length_app. simpl in *. lia. }
  apply wp_bind. eapply wp_mono; [by apply (intern_dst B st x D)|].
  intros r st1 l (-> & sp & dsts & k & -> & Hsp1 & Hk & Hkd & -> & Hld & Htd). fold D1 in Hsp1, Hkd, Htd |- *.
  destruct (desc_byte (Z.of_nat k) (al_flags a)) as (Hb1 & Hb2 & Hb3); [lia|].
  set (b := u8 _) in *. assert (describes D1 b a) as Hdesc.
  { split; [done|]. rewrite Hb2. replace (Z.to_nat (Z.of_nat k + 1 - 1)) with k by lia. split; [split; [lia|done]|done]. }
  fold (pop_alloc (pending_allocs en)).
  refine (wp_put_entry B x D a b (Z.of_nat (length D1)) dsts (λ x', upd_node i (set_pending_allocs (pop_alloc (pending_allocs en)));;
    if negb (pq_tail (pop_alloc (pending_allocs en)) =? pq_head (pop_alloc (pending_allocs en)))
       && (n_tslot x' <=? FASTPASS_PKT_MAX_ALLOC_TSLOTS B - 2) then next_alloc B i fuel x' else mret x') _ _ Hx _).
  intros old Hold. set (x1 := put_entry _ _ _ _ _ _ _).
  assert (enc_ok B x1 D1) as Hx1 by (by eapply put_entry_ok).
  destruct (put_entry_entries B x D D1 a b (Z.of_nat (length D1)) dsts old Hx Hdesc) as [Hsame Hent].
  fold x1 in Hsame, Hent. apply wp_bind. unfold upd_node. apply wp_modify.
  set (q1 := pop_alloc (pending_allocs en)) in *. pose proof (pop_alloc_ok _ Hq) as Hq1. fold q1 in Hq1.
  assert (set_end_nodes (alter (set_pending_allocs q1) (Z.to_nat i) (end_nodes (set_alloc_enc_space sp st)))
    (set_alloc_enc_space sp st) = filled i st (set_pending_allocs q1 en) sp) as ->.
  { unfold filled. simpl. by erewrite upd_nodes_eq. }
  set (st1 := filled _ _ _ _). assert (end_nodes st1 !! Z.to_nat i = Some (set_pending_allocs q1 en)) as E1.
  { apply list_lookup_insert_eq. by eapply lookup_lt_Some. }
  rewrite Z.eqb_sym, (pq_empty q1 Hq1). change (FASTPASS_PKT_MAX_ALLOC_TSLOTS B) with (if IS_ENDPOINT B then 0 else 64).
  rewrite Hctl. change (64 - 2) with 62.
  assert (NoDup D1) as Hnd1 by (exact (add_dsts_NoDup [a] D Hnd)).
  case_bool_decide as Hemp; cbn [negb andb]; [|destruct (Z.leb_spec (n_tslot x1) 62) as [Hle|Hgt]].
  - apply wp_ret. split; [done|]. exists [a], (unsent q1).
    eapply loop_cons; [exact Eu|done|lia|exact Hsame|exact Hent|done|].
    apply loop_stop; [done|done|exact Hsp1|done|by left].
  - eapply wp_mono; [apply (IH st1 (set_pending_allocs q1 en) x1 D1); try done; simpl; lia|].
    intros x' st' l (-> & p & rest & Hdone). split; [done|]. exists (a :: p), rest.
    eapply loop_cons; [exact Eu|done|lia|exact Hsame|exact Hent|done|exact Hdone].
  - apply wp_ret. split; [done|]. exists [a], (unsent q1).
    eapply loop_cons; [exact Eu|done|lia|exact Hsame|exact Hent|done|].
    apply loop_stop; [done|done|exact Hsp1|done|]. right. left. simpl in Hgt |- *. lia.
Qed.
End loop.

(** ** The whole procedure *)

(** A descriptor from the pool: arrays of the declared sizes, contents unknown. *)
Record pool_pd (B : build) (pd : fpproto_pktdesc) : Prop := {
  pp_areq : length (pd_areq pd) = 10%nat;
  pp_dsts : length (pd_dsts pd) = 15%nat;
  pp_desc : length (pd_tslot_desc pd) = 64%nat;
  pp_emu : EMULATION_ALGO B = true → length (pd_emu_tslot_desc pd) = 64%nat;
  pp_edata : Forall (λ e, length (emu_data e) = 2%nat) (pd_emu_tslot_desc pd);
}.

(** The descriptor carries the allocations [p]. *)
Record packs (B : build) (pd : fpproto_pktdesc) (p : list pending_alloc) : Prop := {
  pk_used : pd_used_alloc_tslot pd = Z.of_nat (length p);
  pk_even : pd_alloc_tslot pd = 2 * ((Z.of_nat (length p) + 1) / 2);
  pk_n : pd_n_dsts pd = Z.of_nat (length (dsts_of p));
  pk_dsts : take (length (dsts_of p)) (pd_dsts pd) = dsts_of p;
  pk_entries : ∀ j a, p !! j = Some a →
    (∃ b, pd_tslot_desc pd !! j = Some b ∧ describes (dsts_of p) b a) ∧
    (EMULATION_ALGO B = true → ∃ e old, pd_emu_tslot_desc pd !! j = Some e ∧ emu_id e = al_id a ∧
       emu_data e = memcpy (emu_alloc_data_bytes B) (al_data a) old);
  pk_pad : Z.odd (Z.of_nat (length p)) = true → pd_tslot_desc pd !! length p = Some 0;
  pk_base : ∀ a p', p = a :: p' → pd_base_tslot pd = al_timeslot a;
}.

Lemma fits_nil : fits [].
Proof. split; simpl; lia. Qed.

Section procedure.
Context (B : build) (i : Z) (Hctl : IS_ENDPOINT B = false) (Hbytes : 0 ≤ emu_alloc_data_bytes B ≤ 2).

Lemma cleanup_loop_spec dsts : ∀ st, length (alloc_enc_space st) = 256%nat → Forall (λ d, 0 ≤ d < 256) dsts →
  wp (cleanup_loop dsts) (λ _ st' l, l = [] ∧ ∃ sp, st' = set_alloc_enc_space sp st ∧ length sp = 256%nat ∧
    ∀ d, 0 ≤ d < 256 → arr_get sp d = if decide (d ∈ dsts) then 0 else arr_get (alloc_enc_space st) d) st.
Proof.
  induction dsts as [|d0 dsts IH]; intros st Hl Hr; cbn [cleanup_loop].
  { apply wp_ret. split; [done|]. exists (alloc_enc_space st). split; [by destruct st|].
    split; [done|]. intros d Hd. by rewrite decide_False by set_solver. }
  apply Forall_cons in Hr as [H0 Hr]. apply wp_bind, wp_get, wp_bind.
  eapply wp_deref; [apply store_some; rewrite Hl; lia|]. apply wp_bind, wp_modify.
  eapply wp_mono; [apply IH; [simpl; by rewrite length_arr_set|done]|].
  intros _ st' l (-> & sp & -> & Hsp & Hd). split; [done|]. exists sp. split; [done|]. split; [done|].
  intros d Hdr. rewrite Hd by done. simpl. rewrite arr_get_set by (rewrite ?Hl; lia).
  destruct (decide (d ∈ dsts)); [by rewrite decide_True by set_solver|].
  destruct (decide (d0 = d)) as [->|]; [by rewrite decide_True by set_solver|by rewrite decide_False by set_solver].
Qed.

Lemma all_zero sp : length sp = 256%nat → (∀ d, 0 ≤ d < 256 → arr_get sp d = 0) → sp = replicate 256 0.
Proof.
  intros Hl Hz. apply list_eq. intros k. destruct (decide (k < 256)%nat).
  - rewrite lookup_replicate_2 by done. apply list_lookup_alt. split; [lia|].
    specialize (Hz (Z.of_nat k)). unfold arr_get in Hz. rewrite Nat2Z.id in Hz. apply Hz. lia.
  - rewrite !lookup_ge_None_2; [done|rewrite length_replicate; lia|lia].
Qed.

Lemma not_fits p a : (length p = 63)%nat ∨ (length (dsts_of p) = 15%nat ∧ al_dst a ∉ dsts_of p) → ¬ fits (p ++ [a]).
Proof.
  unfold fits, dsts_of. rewrite add_dsts_app, length_app. simpl. intros [Hl|[Hl Hn]] [H1 H2]; [lia|].
  rewrite decide_False, length_app in H2 by done. simpl in H2. lia.
Qed.

(** The loop and the cleanup, on an empty packet. *)
Lemma fill_loop_spec st en pd :
  end_nodes st !! Z.to_nat i = Some en → pending_ok (pending_allocs en) → alloc_enc_space st = replicate 256 0 →
  pool_pd B pd →
  let x0 := {| n_dsts := 0; n_tslot := 0; en_dsts := pd_dsts pd; en_desc := pd_tslot_desc pd;
               en_emu := pd_emu_tslot_desc pd |} in
  let q := pending_allocs en in
  wp (if pq_head q =? pq_tail q then mret (x0, pd_base_tslot pd)
      else
        x ← next_alloc B i (Z.to_nat (FASTPASS_PKT_MAX_ALLOC_TSLOTS B)) x0;
        cleanup_loop (take (Z.to_nat (n_dsts x)) (en_dsts x));;
        mret (x, al_timeslot (arr_get (allocs q) (wnd_pos (pq_head q)))) : C_ (alloc_enc * Z))
    (λ r st' l, l = [] ∧ ∃ p rest q', unsent q = p ++ rest ∧ fits p ∧
       (rest = [] ∨ ∃ a rest', rest = a :: rest' ∧ ¬ fits (p ++ [a])) ∧
       pending_ok q' ∧ unsent q' = rest ∧ st' = filled i st (set_pending_allocs q' en) (replicate 256 0) ∧
       enc_ok B r.1 (dsts_of p) ∧ n_tslot r.1 = Z.of_nat (length p) ∧
       (∀ j a, p !! j = Some a → entry_for B r.1 (dsts_of p) j a) ∧
       (∀ a p', p = a :: p' → r.2 = al_timeslot a)) st.
Proof using Hctl Hbytes.
  intros E Hq Henc Hpd x0 q.
  assert (enc_ok B x0 []) as Hx0 by (destruct Hpd; constructor; simpl; try done; lia).
  rewrite (pq_empty q Hq). case_bool_decide as Hemp.
  { apply wp_ret. split; [done|]. exists [], [], q. split; [done|]. split; [apply fits_nil|].
    split; [by left|]. split; [done|]. split; [done|]. rewrite <- Henc, filled_same by done. by split_and!. }
  apply wp_bind. eapply wp_mono; [apply (next_alloc_spec B i Hctl Hbytes _ st en x0 []); try done|].
  - rewrite Henc. apply enc_space_zero.
  - constructor.
  - change (FASTPASS_PKT_MAX_ALLOC_TSLOTS B) with (if IS_ENDPOINT B then 0 else 64). rewrite Hctl. simpl n_tslot. lia.
  - intros x st1 l (-> & p & rest & [Hsp (q' & sp & -> & Hq' & Eq & _ & Hspo) Hx Hc _ Hn Hstop]).
    fold (dsts_of p) in *. simpl in Hc. apply wp_bind.
    rewrite (eo_n _ _ _ Hx), Nat2Z.id, (eo_dsts _ _ _ Hx).
    assert (Forall (λ d, 0 ≤ d < 256) (dsts_of p)) as Hr.
    { apply add_dsts_Forall; [constructor|].
      pose proof (circ_Forall _ (allocs q) (pq_head q) (pq_len q) (pk_dst _ Hq) ltac:(unfold q; rewrite (pk_cells _ Hq); lia)) as Hall.
      fold (unsent q) in Hall. unfold q in Hall. rewrite Hsp in Hall. by apply Forall_app in Hall as [? _]. }
    eapply wp_mono; [apply cleanup_loop_spec; [apply Hspo|done]|].
    intros _ st2 l (-> & sp2 & -> & Hl2 & Hz). apply wp_ret. split; [done|].
    assert (sp2 = replicate 256 0) as ->.
    { apply all_zero; [done|]. intros d Hd. rewrite Hz by done. case_decide as Hin; [done|].
      simpl. by rewrite (proj2 Hspo d Hd), code_not. }
    exists p, rest, q'. split; [done|]. split; [split; [pose proof (eo_tslot _ _ _ Hx); lia|apply Hx]|].
    split; [|split_and!; try done].
    + destruct Hstop as [->|Hs]; [by left|]. destruct rest as [|a rest]; [by left|]. right. exists a, rest.
      split; [done|]. apply not_fits. destruct Hs as [H63|[H15 (a' & r' & [= <- <-] & Hn')]]; [left; lia|by right].
    + intros a p' ->. simpl. simpl in Hsp.
      assert (0 < pq_len q) as Hlen.
      { pose proof (length_unsent q) as HL. unfold q in HL. rewrite Hsp in HL. simpl in HL. unfold q. lia. }
      pose proof (unsent_pop q Hq Hlen) as Eu. unfold q in Eu at 1. rewrite Hsp in Eu. by injection Eu as -> _.
Qed.

Lemma fill_packet_alloc_spec st en pd :
  end_nodes st !! Z.to_nat i = Some en → pending_ok (pending_allocs en) → alloc_enc_space st = replicate 256 0 →
  pool_pd B pd →
  wp (fill_packet_alloc B i pd) (λ pd' st' l, l = [] ∧ ∃ p rest q, unsent (pending_allocs en) = p ++ rest ∧ fits p ∧
    (rest = [] ∨ ∃ a rest', rest = a :: rest' ∧ ¬ fits (p ++ [a])) ∧ pending_ok q ∧ unsent q = rest ∧
    st' = filled i st (set_pending_allocs q en) (replicate 256 0) ∧ pool_pd B pd' ∧ packs B pd' p) st.
Proof using Hctl Hbytes.
  intros E Hq Henc Hpd. unfold fill_packet_alloc. eapply wp_get_node; [done|]. cbv zeta. apply wp_bind.
  eapply wp_mono; [by apply fill_loop_spec|].
  intros [x base] st' l (-> & p & rest & q & Hsp & Hfit & Hmax & Hq' & Eq & -> & Hx & Hn & Hent & Hbase).
  cbn [fst snd] in *. pose proof (eo_tslot _ _ _ Hx) as Ht. pose proof (eo_ldesc _ _ _ Hx) as Hld.
  assert (Hgo : ∀ n desc emu, n = 2 * ((Z.of_nat (length p) + 1) / 2) → length desc = 64%nat →
    (EMULATION_ALGO B = true → length emu = 64%nat) → Forall (λ e, length (emu_data e) = 2%nat) emu →
    same_entries B (n_tslot x) x {| n_dsts := 0; n_tslot := 0; en_dsts := []; en_desc := desc; en_emu := emu |} →
    (Z.odd (Z.of_nat (length p)) = true → desc !! length p = Some 0) →
    pool_pd B (pd_set_alloc n (n_tslot x) base (n_dsts x) (en_dsts x) desc emu pd) ∧
    packs B (pd_set_alloc n (n_tslot x) base (n_dsts x) (en_dsts x) desc emu pd) p).
  { intros n desc emu Ev Hl Hle Hed Hs Hpad. split; [constructor; simpl; try apply Hpd; try apply Hx; done|].
    constructor; simpl; try done; try apply Hx. intros j a Hj. pose proof (lookup_lt_Some _ _ _ Hj).
    destruct (entry_for_same B x _ _ (dsts_of p) j a _ Hs ltac:(lia) ltac:(done) (Hent j a Hj)) as [H1 H2].
    by split. }
  apply wp_bind. destruct (Z.odd (n_tslot x)) eqn:Eodd.
  - apply wp_bind. eapply wp_deref; [apply store_some; lia|]. apply wp_bind.
    assert (2 * ((Z.of_nat (length p) + 1) / 2) = n_tslot x + 1) as Ev.
    { rewrite Zodd_mod in Eodd. apply Zeq_bool_eq in Eodd. zify_div. lia. }
    assert (length (arr_set (en_desc x) (n_tslot x) 0) = 64%nat) as Hl1 by (by rewrite length_arr_set).
    assert (arr_set (en_desc x) (n_tslot x) 0 !! length p = Some 0) as Hp0.
    { unfold arr_set. rewrite Hn, Nat2Z.id. apply list_lookup_insert_eq. lia. }
    destruct (EMULATION_ALGO B) eqn:Eemu.
    + pose proof (eo_lemu _ _ _ Hx Eemu). apply wp_bind.
      destruct (lookup_lt_is_Some_2 (en_emu x) (Z.to_nat (n_tslot x))) as [old Hold]; [lia|].
      eapply wp_deref; [done|]. do 3 apply wp_ret. split; [done|]. exists p, rest, q.
      split; [done|]. split; [done|]. split; [done|]. split; [done|]. split; [done|]. split; [done|].
      apply Hgo; try done; [by rewrite length_arr_set| |].
      { apply arr_set_Forall; [apply Hx|]. by apply (Forall_lookup_1 _ _ _ _ (eo_edata _ _ _ Hx) Hold). }
      intros k Hk. unfold arr_set. simpl.
      split; [|intros _]; by rewrite list_lookup_insert_ne by lia.
    + do 3 apply wp_ret. split; [done|]. exists p, rest, q.
      split; [done|]. split; [done|]. split; [done|]. split; [done|]. split; [done|]. split; [done|].
      apply Hgo; try done; [apply Hx|]. intros k Hk. unfold arr_set. simpl.
      split; [by rewrite list_lookup_insert_ne by lia|by rewrite Eemu].
  - do 2 apply wp_ret. split; [done|]. exists p, rest, q.
    split; [done|]. split; [done|]. split; [done|]. split; [done|]. split; [done|]. split; [done|].
    apply Hgo; try done; [| |apply Hx|by rewrite <- Hn, Eodd].
    + rewrite <- Z.negb_even in Eodd. apply negb_false_iff in Eodd. apply Z.even_spec in Eodd as [m Em]. zify_div. lia.
    + apply Hx.
Qed.
End procedure.
