(* ===== verification/CommTx.v ===== *)
(** * Transmission

    Reports, and the whole of [tx_end_node]: on every memory-allocation outcome it
    is defined, keeps the invariant, and what it sends is the encoding of the
    oldest pending allocations and reports of the node. *)

From S2P Require Import Prelude Platform Window WindowFacts WindowSpec WindowMarks Protocol ConnFacts.
From S2P Require Import ConnSpec ConnAck ConnSend ConnInwnd ConnSafe Codec Pacer Timer Comm CommInv.
From S2P Require Import CommHandlers CommFill.

(** ** Reports *)

(** The report about destination [d]. *)
Definition report_of (en : end_node_state) (d : Z) : fpproto_areq_desc := {|
  src_dst_key := d; tslots := u32 (arr_get (alloc_to_dst en) d - pq_len (pending_allocs en)) |}.

Definition with_reports (st : comm_state) (i : Z) (q : alloc_report_queue) (en : end_node_state) : comm_state :=
  set_end_nodes (<[Z.to_nat i := set_report_queue q en]> (end_nodes st)) st.

Lemma take_insert_snoc {A} (l : list A) n x : (n < length l)%nat → take (S n) (<[n := x]> l) = take n l ++ [x].
Proof.
  intros Hn. rewrite (take_S_r _ _ x) by (by apply list_lookup_insert_eq). by rewrite take_insert_ge by lia.
Qed.

Lemma take_min {A} n (l : list A) : take (Nat.min n (length l)) l = take n l.
Proof. destruct (decide (n ≤ length l)%nat); [by rewrite Nat.min_l|]. by rewrite Nat.min_r, !take_ge by lia. Qed.

Lemma drop_min {A} n (l : list A) : drop (Nat.min n (length l)) l = drop n l.
Proof. destruct (decide (n ≤ length l)%nat); [by rewrite Nat.min_l|]. by rewrite Nat.min_r, !drop_ge by lia. Qed.

Section report.
Context (i : Z).

(** The [m] oldest reports are now in the packet, after the [n] it had. *)
Definition reported (st : comm_state) (en : end_node_state) (areq : list fpproto_areq_desc) (n m : nat)
    (r : list fpproto_areq_desc * Z) (st' : comm_state) : Prop :=
  ∃ q, rq_ok q ∧ queued q = drop m (queued (report_queue en)) ∧ st' = with_reports st i q en ∧
    r.2 = Z.of_nat (n + m) ∧ length r.1 = 10%nat ∧
    take (n + m) r.1 = take n areq ++ (report_of en <$> take m (queued (report_queue en))).

Lemma reported_none st en areq n :
  end_nodes st !! Z.to_nat i = Some en → rq_ok (report_queue en) → length areq = 10%nat →
  reported st en areq n 0 (areq, Z.of_nat n) st.
Proof.
  intros E Hq Hl. exists (report_queue en). rewrite Nat.add_0_r, take_0, drop_0, app_nil_r.
  unfold with_reports. rewrite list_insert_id by (rewrite E; by destruct en). by destruct st.
Qed.

Lemma reported_cons st en areq n d ds q1 m r st' : length areq = 10%nat → (n < 10)%nat →
  queued (report_queue en) = d :: ds → queued q1 = ds →
  reported (with_reports st i q1 en) (set_report_queue q1 en) (<[n := report_of en d]> areq) (S n) m r st' →
  reported st en areq n (S m) r st'.
Proof.
  intros Hl Hn Eq Eq1 (q & Hq & Eq' & -> & Er & Hl' & Htk). exists q.
  change (report_queue (set_report_queue q1 en)) with q1 in Eq', Htk. rewrite Eq1 in Eq', Htk. rewrite Eq.
  split; [done|]. split; [done|]. split; [unfold with_reports; simpl; by rewrite list_insert_insert_eq|].
  split; [rewrite Er; lia|]. split; [done|]. rewrite Nat.add_succ_r. cbn [Nat.add] in Htk. rewrite Htk.
  rewrite firstn_cons, fmap_cons, take_insert_snoc by lia. by rewrite <- app_assoc.
Qed.

(** The loop takes the oldest reports, as many as there is room for. *)
Lemma report_loop_spec fuel : ∀ st en areq n,
  end_nodes st !! Z.to_nat i = Some en → rq_ok (report_queue en) → length (alloc_to_dst en) = 256%nat →
  length areq = 10%nat → (n ≤ 10)%nat → (10 - n ≤ fuel)%nat →
  wp (report_loop i fuel areq (Z.of_nat n)) (λ r st' l, l = [] ∧
    reported st en areq n (Nat.min (10 - n) (length (queued (report_queue en)))) r st') st.
Proof.
  induction fuel as [|fuel IH]; intros st en areq n E Hq Hal Hl Hn Hf; cbn [report_loop].
  all: eapply wp_get_node; [done|]; rewrite report_empty_spec by done.
  all: case_bool_decide as Hemp; cbn [negb andb].
  1, 3: apply wp_ret; split; [done|]; rewrite Hemp, Nat.min_0_r; by apply reported_none.
  all: destruct (Z.ltb_spec (Z.of_nat n) FASTPASS_PKT_MAX_AREQ) as [Hlt|Hge]; change FASTPASS_PKT_MAX_AREQ with 10 in *.
  2, 4: apply wp_ret; split; [done|]; replace (10 - n)%nat with 0%nat by lia; by apply reported_none.
  1: lia.
  destruct (queued (report_queue en)) as [|d ds] eqn:Eq; [done|].
  destruct (report_pop_spec _ Hq d ds Eq) as (q1 & Epop & Hq1 & Eq1 & Hd). apply wp_bind.
  eapply wp_deref; [exact Epop|]. apply wp_bind. unfold upd_node. apply wp_modify. apply wp_bind.
  destruct (lookup_lt_is_Some_2 (alloc_to_dst en) (Z.to_nat d)) as [v Hv]; [lia|]. eapply wp_deref; [done|].
  apply wp_bind. eapply wp_deref; [apply store_some; lia|].
  assert (arr_get (alloc_to_dst en) d = v) as Ev by (by apply list_lookup_total_correct).
  rewrite <- Ev. fold (pq_len (pending_allocs en)). fold (report_of en d).
  erewrite upd_nodes_eq by done. fold (with_reports st i q1 en).
  replace (Z.of_nat n + 1) with (Z.of_nat (S n)) by lia.
  eapply wp_mono; [apply (IH (with_reports st i q1 en) (set_report_queue q1 en)); try done; try lia|].
  - apply list_lookup_insert_eq. by eapply lookup_lt_Some.
  - by rewrite length_arr_set.
  - intros r st' l [-> Hr]. split; [done|].
    replace (Nat.min (10 - n) (length (d :: ds))) with (S (Nat.min (10 - S n) (length ds))) by (simpl; lia).
    eapply reported_cons; [done|lia|done|exact Eq1|]. unfold arr_set in Hr. rewrite Nat2Z.id in Hr.
    simpl in Hr |- *. by rewrite Eq1 in Hr.
Qed.
End report.

(** ** Before the packet is filled *)
Lemma pacer_reset_ok clk pa : pacer_ok clk pa → pending_event pa (clk + 2 ^ 14) →
  pacer_ok clk (pacer_reset pa) ∧ pacer_is_triggered (pacer_reset pa) = false.
Proof.
  intros [Hc Hcr Hg HT Hk] [_ Ha Hcd Hl]. split; [|done].
  constructor; cbn [pacer_reset T cost max_credit min_gap next_event]; try done.
  rewrite max_u64_max, (u64_small (next_event pa - max_credit pa)), u64_small by lia. lia.
Qed.

Section transmit.
Context (B : build) (clk : Z) (i : Z) (Hi : 0 ≤ i < 256).

(** The timer of the node has been handled. *)
Lemma comm_ok_reset X Y st en :
  i ∉ X → comm_ok B clk ({[ i ]} ∪ X) Y st → end_nodes st !! Z.to_nat i = Some en →
  comm_ok B clk X (Y ∪ {[ i ]})
    (set_end_nodes (<[Z.to_nat i := set_tx_pacer (pacer_reset (tx_pacer en)) en]> (end_nodes st)) st).
Proof using Hi.
  intros HX Hst E. destruct (co_node _ _ _ _ _ Hst _ _ E) as [Hok Hp].
  destruct (co_fired _ _ _ _ _ Hst _ _ E) as [Hpe Ht]; [rewrite Z2Nat.id by lia; set_solver|].
  rewrite Z2Nat.id in Ht by lia. destruct (pacer_reset_ok clk _ Hp Hpe) as [Hp' Htr].
  set (en' := set_tx_pacer _ en).
  assert (Hlook : ∀ j e, <[Z.to_nat i := en']> (end_nodes st) !! j = Some e →
    (Z.of_nat j = i ∧ e = en') ∨ (Z.of_nat j ≠ i ∧ end_nodes st !! j = Some e)).
  { intros j e Hj. apply list_lookup_insert_Some in Hj as [(<- & <- & _)|[Hne Hj]];
      [left; split; [lia|done]|right; split; [lia|done]]. }
  constructor; simpl; rewrite ?length_insert; try apply Hst.
  - intros j e Hj. apply Hlook in Hj as [[_ ->]|[_ Hj]]; [|by apply (co_node _ _ _ _ _ Hst j)].
    split; [by apply node_ok_tx_pacer|done].
  - intros j e Hj Hin. apply Hlook in Hj as [[Ej _]|[_ Hj]]; [by rewrite Ej in Hin|].
    apply (co_fired _ _ _ _ _ Hst j); [done|set_solver].
  - intros j e Hj Hnin. apply Hlook in Hj as [[Ej ->]|[Hne Hj]].
    + rewrite Ej. split; [|set_solver]. unfold timer_ok. change (tx_pacer en') with (pacer_reset (tx_pacer en)). by rewrite Htr.
    + destruct (co_timer _ _ _ _ _ Hst j e Hj) as [? Hw]; [set_solver|]. split; [done|set_solver].
Qed.

Lemma quiet_calls_app l1 l2 : Forall (λ k, quiet k = true) (calls (l1 ++ l2)) ↔
  Forall (λ k, quiet k = true) (calls l1) ∧ Forall (λ k, quiet k = true) (calls l2).
Proof using. rewrite calls_app. apply Forall_app. Qed.

Lemma quiet_timer_events c : Forall (λ k, quiet k = true) (calls (timer_events c)).
Proof using.
  unfold timer_events. destruct (marks_from _ _) as [|s l]; [by repeat constructor|].
  destruct (out_pd c s); by repeat constructor.
Qed.

Lemma quiet_fall_off c : Forall (λ k, quiet k = true) (calls (fall_off_events c)).
Proof using.
  unfold fall_off_events. case_bool_decide; [|constructor]. apply quiet_calls_app. split; [|by repeat constructor].
  destruct (time_after_eq64 _ _); [|constructor]. apply quiet_calls_app. split; [|apply quiet_timer_events].
  unfold neg_events. destruct (has_handle_neg_ack _); by repeat constructor.
Qed.

(** [fpproto_prepare_to_send] makes room in the window. *)
Lemma prepare_on_conn X Y st en :
  i ∉ X → comm_ok B clk X Y st → end_nodes st !! Z.to_nat i = Some en →
  wp (on_conn B true clk i fpproto_prepare_to_send) (λ _ st' l, comm_ok B clk X Y st' ∧ no_bug l ∧
    node_step (λ en en', ∃ c', (Window.head (outwnd c') = Window.head (outwnd (conn en)) ∧
      wnd_edge (outwnd c') ∉ wnd_set (outwnd c')) ∧ asks (set_conn c' en) en') i st st') st.
Proof using Hi.
  intros HX Hst E. destruct (co_node _ _ _ _ _ Hst _ _ E) as [Hok _]. pose proof (no_conn _ _ Hok) as Hc.
  eapply wp_mono; [eapply (on_conn_spec B clk i Hi asks _ X Y st en (λ _ c', Window.head (outwnd c') =
    Window.head (outwnd (conn en)) ∧ wnd_edge (outwnd c') ∉ wnd_set (outwnd c'))); [done|done|done|]|].
  - eapply wp_mono; [apply fpproto_prepare_to_send_spec, Hc|].
    intros [] c' l (Hc' & Hh & Hset & Hpd & (v & f & w & u & Ec) & ->).
    split; [split; [done|]; rewrite (edge_head (outwnd (conn en))) by done; set_solver|].
    assert (ops c' = ops (conn en)) as Eo by (by rewrite Ec).
    split; [constructor; [done|rewrite Eo; apply Hc]|].
    split; [eapply hsafe_dispatch_from; [done|done|by apply log_fall_off, Hc|apply quiet_fall_off]|].
    split; [rewrite Eo; apply Hok|]. intros s pd. rewrite Hpd. case_decide; [done|]. apply (no_pds _ _ Hok).
  - intros [] st' l (Hst' & Hl & [Ho Hn]). split; [done|]. split; [done|]. split; [done|].
    intros en0 E0. assert (en0 = en) as -> by congruence. by apply Hn.
Qed.

(** ** The reports of the packet *)
Lemma fill_packet_report_spec X Y st en pd :
  i ∉ X → comm_ok B clk X Y st → end_nodes st !! Z.to_nat i = Some en → pool_pd B pd →
  wp (fill_packet_report clk i pd) (λ pd' st' l, comm_ok B clk X (Y ∖ {[ i ]}) st' ∧ l = [] ∧
    (∃ areq, pd' = pd_set_areq (Z.of_nat (length (take 10 (queued (report_queue en))))) areq pd ∧ length areq = 10%nat ∧
      take (length (take 10 (queued (report_queue en)))) areq = report_of en <$> take 10 (queued (report_queue en))) ∧
    ∃ q pa, changes i (set_tx_pacer pa (set_report_queue q en)) st st' ∧
      queued q = drop 10 (queued (report_queue en))) st.
Proof using Hi.
  intros HX Hst E Hpd. destruct (co_node _ _ _ _ _ Hst _ _ E) as [Hok Hp].
  destruct (co_timer _ _ _ _ _ Hst _ _ E) as [Htm Hwk]; [by rewrite Z2Nat.id by lia|].
  rewrite Z2Nat.id in Htm, Hwk by lia. unfold fill_packet_report. apply wp_bind.
  eapply wp_mono; [apply (report_loop_spec i _ st en (pd_areq pd) 0); try done; try apply Hok; try apply Hpd; lia|].
  intros [areq n] st1 l [-> (q & Hq & Eq & -> & En & Hl & Htk)]. cbn [fst snd] in *.
  set (qs := queued (report_queue en)) in *. change (10 - 0)%nat with 10%nat in *. change (take 0 _) with (@nil fpproto_areq_desc) in Htk.
  cbn [Nat.add app] in *. rewrite drop_min in Eq. rewrite take_min in Htk. rewrite <- (length_take qs 10) in En, Htk.
  set (st1 := with_reports st i q en). set (en1 := set_report_queue q en).
  assert (changes i en1 st st1) as Hch by (constructor; try done; apply Hst).
  assert (end_nodes st1 !! Z.to_nat i = Some en1) as E1.
  { apply list_lookup_insert_eq. by eapply lookup_lt_Some. }
  assert (node_ok B en1) as Hok1 by (by apply node_ok_report_queue).
  eapply wp_get_node; [done|]. rewrite report_empty_spec by done. apply wp_bind.
  assert (Hpost : ∃ areq0, pd_set_areq n areq pd = pd_set_areq (Z.of_nat (length (take 10 qs))) areq0 pd ∧
    length areq0 = 10%nat ∧ take (length (take 10 qs)) areq0 = report_of en <$> take 10 qs) by (exists areq; by subst n).
  case_bool_decide as Hemp; simpl when.
  - apply wp_ret, wp_ret. split; [|split; [done|split; [done|]]].
    + eapply (comm_ok_changes B clk X Y _ st st1 i); [done|done|done|exact Hch|set_solver|done|done|done|].
      intros _ Hne. by destruct Hne.
    + exists q, (tx_pacer en). split; [done|exact Eq].
  - assert (comm_ok B clk X (Y ∪ {[ i ]}) st1) as Hst1.
    { eapply (comm_ok_changes B clk X Y _ st st1 i); [done|done|done|exact Hch|set_solver|done|done|done|set_solver]. }
    eapply wp_mono; [by eapply (trigger_request_spec B clk i Hi X _ st1 en1)|].
    intros _ st' l (Hst' & -> & pa & _ & _ & Hch'). apply wp_ret.
    split; [eapply comm_ok_weaken; [|done]; set_solver|]. split; [done|]. split; [done|].
    exists q, pa. split; [by eapply changes_trans|exact Eq].
Qed.
End transmit.

(** ** The descriptor and its encoding *)
Section encode.
Context (B : build) (Hctl : IS_ENDPOINT B = false) (Hbytes : 0 ≤ emu_alloc_data_bytes B ≤ 2).

(** A descriptor with allocations and reports can be handed back to the handlers. *)
Lemma filled_valid pd p n areq :
  pool_pd B pd → packs B pd p → fits p → Forall (λ a, 0 ≤ al_dst a < 256) p →
  Forall (λ a, u16 (src_dst_key a) < 256) (take (Z.to_nat n) areq) → pd_valid B (pd_set_areq n areq pd).
Proof using.
  intros Hpp Hpk [Hlp _] Hr Ha.
  assert (Forall (λ d, 0 ≤ d < 256) (dsts_of p)) as Hd by (apply add_dsts_Forall; [constructor|done]).
  constructor; simpl; [done|..].
  - rewrite (pk_used _ _ _ Hpk), (pp_desc _ _ Hpp). lia.
  - rewrite (pk_used _ _ _ Hpk), Nat2Z.id. apply Forall_lookup. intros k b Hk.
    apply lookup_take_Some in Hk as [Hk Hlt]. destruct (lookup_lt_is_Some_2 p k Hlt) as [a Hpa].
    destruct (pk_entries _ _ _ Hpk k a Hpa) as [(b' & Hb' & _ & [H1 Hdk] & _) _].
    assert (b' = b) as -> by congruence. exists (al_dst a). split; [|by apply (Forall_lookup_1 _ _ _ _ Hr Hpa)].
    unfold desc_dst. rewrite (proj2 (Z.ltb_ge _ _)) by lia. simpl.
    rewrite <- (pk_dsts _ _ _ Hpk) in Hdk. by apply lookup_take_Some in Hdk as [? _].
  - by rewrite (pk_n _ _ _ Hpk), Nat2Z.id, (pk_dsts _ _ _ Hpk).
  - intros Hemu. rewrite (pk_used _ _ _ Hpk), (pp_emu _ _ Hpp Hemu). lia.
Qed.

Lemma filled_pd_ok pd p n areq a b r t q v :
  pool_pd B pd → packs B pd p → fits p → length areq = 10%nat → 0 ≤ n ≤ 10 →
  pd_ok B (pd_set_header a b r t q v (pd_set_areq n areq pd)).
Proof using Hctl Hbytes.
  intros Hpp Hpk [Hlp Hld] Hl Hn. constructor; simpl; rewrite ?Hl, ?(pp_dsts _ _ Hpp), ?(pp_desc _ _ Hpp),
    ?(pk_n _ _ _ Hpk), ?(pk_even _ _ _ Hpk); try lia.
  - zify_div. lia.
  - intros Hemu. rewrite (pp_emu _ _ Hpp Hemu). zify_div. lia.
  - intros d Hd. pose proof (proj1 (Forall_forall _ _) (pp_edata _ _ Hpp) d Hd) as Hlen. simpl in Hlen. lia.
  - by rewrite Hctl, andb_false_r.
Qed.

(** Such a packet fits the payload buffer. *)
Lemma filled_fits pd p : pd_ok B pd → packs B pd p → fits p → 0 ≤ pd_n_areq pd ≤ 10 →
  8 + Z.of_nat (length (body_bytes B pd)) ≤ FASTPASS_MAX_PAYLOAD B.
Proof using Hctl Hbytes.
  intros Hok Hpk [Hlp Hld] Hn. unfold body_bytes. rewrite !length_app, !Nat2Z.inj_add.
  assert (FASTPASS_MAX_PAYLOAD B = 92 + 64 * (if EMULATION_ALGO B then 5 else 1)) as ->.
  { unfold FASTPASS_MAX_PAYLOAD, FASTPASS_PKT_AREQ_LEN, FASTPASS_PKT_ALLOC_LEN, FASTPASS_PKT_MAX_ALLOC_TSLOTS,
      MAX_ALLOC_BYTES_PER_TSLOT. rewrite Hctl. by destruct (EMULATION_ALGO B). }
  assert (Z.of_nat (length (if pd_send_reset pd then reset_bytes pd else [])) ≤ 8) as H1.
  { destruct (pd_send_reset pd); [|simpl; lia]. change (length (reset_bytes pd)) with 8%nat. lia. }
  assert (Z.of_nat (length (if pd_n_areq pd >? 0 then areq_bytes B pd else [])) ≤ 42) as H2.
  { destruct (pd_n_areq pd >? 0); [|simpl; lia]. rewrite (length_areq_bytes B pd Hok). lia. }
  assert (Z.of_nat (length (if has_alloc B pd then alloc_bytes B pd else [])) ≤
    34 + 64 * (if EMULATION_ALGO B then 5 else 1)) as H3; [|lia].
  destruct (has_alloc B pd); [|destruct (EMULATION_ALGO B); simpl; lia].
  rewrite (length_alloc_bytes B pd Hok). unfold alloc_len.
  pose proof (pk_n _ _ _ Hpk). pose proof (pk_even _ _ _ Hpk).
  assert (0 ≤ pd_alloc_tslot pd ≤ 64) by (zify_div; lia). destruct (EMULATION_ALGO B); nia.
Qed.

(** The packet that goes out: the IPv4 header and the encoded descriptor. *)
Definition ip_packet `{HashOps} (en : end_node_state) (pd : fpproto_pktdesc) (m : mbuf) : list Z :=
  let body := packet B pd 26 (fastpass_checksum (mb_addr m) (packet B pd 26 0) (pd_seqno pd) (pd_ack_seq pd)) in
  let len := 20 + Z.of_nat (length body) in
  ipv4_header len (fp_fold (fp_csum_partial (mb_addr m - 20) (ipv4_header len 0 (controller_ip en) (dst_ip en)) 0))
    (controller_ip en) (dst_ip en) ++ body.

Lemma make_packet_spec `{HashOps} en pd p m :
  pd_ok B pd → packs B pd p → fits p → 0 ≤ pd_n_areq pd ≤ 10 →
  FASTPASS_MAX_PAYLOAD B ≤ Z.of_nat (length (mb_payload m)) → make_packet B en pd m = Some (ip_packet en pd m).
Proof using Hctl Hbytes.
  intros Hok Hpk Hf Hn Hm. pose proof (filled_fits pd p Hok Hpk Hf Hn) as Hfit.
  assert (FASTPASS_MAX_PAYLOAD B ≤ 412) as Hmax.
  { unfold FASTPASS_MAX_PAYLOAD, FASTPASS_PKT_AREQ_LEN, FASTPASS_PKT_ALLOC_LEN, FASTPASS_PKT_MAX_ALLOC_TSLOTS,
      MAX_ALLOC_BYTES_PER_TSLOT. rewrite Hctl. by destruct (EMULATION_ALGO B). }
  assert (26 ≤ FASTPASS_MAX_PAYLOAD B) as Hmin.
  { unfold FASTPASS_MAX_PAYLOAD, FASTPASS_PKT_AREQ_LEN, FASTPASS_PKT_ALLOC_LEN, FASTPASS_PKT_MAX_ALLOC_TSLOTS,
      MAX_ALLOC_BYTES_PER_TSLOT. rewrite Hctl. by destruct (EMULATION_ALGO B). }
  unfold make_packet.
  destruct (wp_inv _ _ _ (encode_packet_spec B pd Hok {| e_buf := mb_payload m; e_curp := 0; e_remaining := 0 |}
    (mb_addr m) (FASTPASS_MAX_PAYLOAD B) 26 Hfit ltac:(lia) Hm)) as (r & e & l & -> & Er & _ & Ht).
  cbn [mbind option_bind]. cbv zeta. unfold ip_packet. set (body := packet B pd 26 _) in *.
  assert (Z.of_nat (length body) = r) as Eb.
  { unfold body. by rewrite (length_packet B pd 26), Er. }
  rewrite u16_small by (unfold sizeof_ipv4_hdr; lia). unfold sizeof_ipv4_hdr. rewrite <- Eb. f_equal.
  replace (Z.to_nat (20 + Z.of_nat (length body))) with (20 + length body)%nat by lia.
  rewrite <- Eb, Nat2Z.id in Ht. clearbody body. rewrite (take_app_add' (ipv4_header _ _ _ _) _ 20) by done.
  by rewrite Ht.
Qed.
End encode.

(** ** The whole transmission *)

(** [pd] is what node [en] sent when it became [en']: the oldest allocations that
    fit, and the ten oldest reports ([qs] is the report queue after the packet
    that leaves the window was reported lost). *)
Record transmission (B : build) (en en' : end_node_state) (pd : fpproto_pktdesc) : Prop := {
  tr_allocs : ∃ p, unsent (pending_allocs en) = p ++ unsent (pending_allocs en') ∧ fits p ∧ packs B pd p ∧
    (unsent (pending_allocs en') = [] ∨
     ∃ a rest, unsent (pending_allocs en') = a :: rest ∧ ¬ fits (p ++ [a]));
  tr_reports : ∃ qs, queued (report_queue en) `prefix_of` qs ∧
    pd_n_areq pd = Z.of_nat (length (take 10 qs)) ∧
    take (Z.to_nat (pd_n_areq pd)) (pd_areq pd) = report_of en' <$> take 10 qs ∧
    drop 10 qs `prefix_of` queued (report_queue en');
  tr_counts : alloc_to_dst en' = alloc_to_dst en;
  tr_seqno : pd_seqno pd = Window.head (outwnd (conn en)) + 1;
  tr_stored : out_pd (conn en') (pd_seqno pd) = Some pd;
}.

Section tx.
Context (B : build) `{H : HashOps} (clk : Z) (i : Z) (Hi : 0 ≤ i < 256).
Hypothesis (Hctl : IS_ENDPOINT B = false) (Hbytes : 0 ≤ emu_alloc_data_bytes B ≤ 2).

Lemma filled_changes X Y st en q : comm_ok B clk X Y st →
  changes i (set_pending_allocs q en) st (filled i st (set_pending_allocs q en) (replicate 256 0)).
Proof using.
  intros Hst. constructor; simpl; try done; [|apply Hst]. by rewrite (co_enc _ _ _ _ _ Hst).
Qed.

Lemma node_ok_pending q en : pending_ok q → node_ok B en → node_ok B (set_pending_allocs q en).
Proof using. by intros Hq []. Qed.

(** The new packet joins the unacknowledged ones. *)
Lemma commit_on_conn X Y st en pd t :
  i ∉ X → comm_ok B clk X Y st → end_nodes st !! Z.to_nat i = Some en → pd_valid B pd →
  Window.head (outwnd (conn en)) + 1 < 2 ^ 64 → wnd_edge (outwnd (conn en)) ∉ wnd_set (outwnd (conn en)) →
  wp (on_conn B true clk i (fpproto_commit_packet pd t)) (λ r st' l, comm_ok B clk X Y st' ∧ no_bug l ∧
    node_step (λ en en', ∃ c', (r = committed (conn en) pd t ∧ out_pd c' (pd_seqno r) = Some r) ∧
      asks (set_conn c' en) en') i st st') st.
Proof using Hi.
  intros HX Hst E Hpd Hh He. destruct (co_node _ _ _ _ _ Hst _ _ E) as [Hok _]. pose proof (no_conn _ _ Hok) as Hc.
  eapply wp_mono; [eapply (on_conn_spec B clk i Hi asks _ X Y st en
    (λ r c', r = committed (conn en) pd t ∧ out_pd c' (pd_seqno r) = Some r)); [done|done|done|]|].
  - eapply wp_mono; [apply fpproto_commit_packet_spec; [apply Hc|done|done]|].
    intros r c' l (-> & [Hc' Hh' Hset Hp (v & f & w & u & Ec)] & ->).
    split; [split; [done|]; rewrite Hp; by rewrite decide_True|].
    assert (ops c' = ops (conn en)) as Eo by (by rewrite Ec).
    split; [constructor; [done|rewrite Eo; apply Hc]|].
    split; [eapply hsafe_dispatch_from; [done|done|by apply log_timer_events|apply quiet_timer_events]|].
    split; [rewrite Eo; apply Hok|]. intros s pd'. rewrite Hp. case_decide; [|apply (no_pds _ _ Hok)].
    intros [= <-]. by apply pd_valid_header.
  - intros r st' l (Hst' & Hl & [Ho Hn]). split; [done|]. split; [done|]. split; [done|].
    intros en0 E0. assert (en0 = en) as -> by congruence. by apply Hn.
Qed.

(** Everything after the memory was allocated. *)
Lemma tx_packet_spec X Y st en pd0 (m : option mbuf) :
  i ∉ X → comm_ok B clk X Y st → end_nodes st !! Z.to_nat i = Some en → pool_pd B pd0 →
  Window.head (outwnd (conn en)) + 1 < 2 ^ 64 → wnd_edge (outwnd (conn en)) ∉ wnd_set (outwnd (conn en)) →
  (∀ mb, m = Some mb → FASTPASS_MAX_PAYLOAD B ≤ Z.of_nat (length (mb_payload mb))) →
  wp (pd ← fill_packet_alloc B i pd0;
      pd ← fill_packet_report clk i pd;
      pd ← on_conn B true clk i (fpproto_commit_packet pd clk);
      match m with
      | None => mret tt
      | Some m =>
          en ← get_node i;
          out_pkt ← deref (make_packet B en pd m);
          call (SendPacket i out_pkt)
      end) (λ _ st' l, comm_ok B clk X (Y ∖ {[ i ]}) st' ∧ no_bug l ∧
    node_step (λ en en', ∃ pd, transmission B en en' pd ∧
      ∀ mb, m = Some mb → SendPacket i (ip_packet B en' pd mb) ∈ calls l) i st st') st.
Proof using Hi Hctl Hbytes.
  intros HX Hst E Hpool Hh Hedge Hm. destruct (co_node _ _ _ _ _ Hst _ _ E) as [Hok Hp].
  destruct (co_timer _ _ _ _ _ Hst _ _ E) as [Htm Hwk]; [by rewrite Z2Nat.id by lia|].
  rewrite Z2Nat.id in Htm, Hwk by lia. apply wp_bind.
  eapply wp_mono; [apply (fill_packet_alloc_spec B i Hctl Hbytes st en pd0 E); [apply Hok|apply Hst|done]|].
  intros pd1 st1 l (-> & p & rest & q & Eu & Hfit & Hmax & Hq & Eq & -> & Hpool1 & Hpk).
  pose proof (filled_changes X Y st en q Hst) as Hch1. set (st1 := filled _ _ _ _) in *.
  set (en1 := set_pending_allocs q en) in *.
  assert (comm_ok B clk X Y st1) as Hst1.
  { eapply (comm_ok_changes B clk X Y _ st st1 i); [done|done|done|exact Hch1|done| |done|done|done].
    by apply node_ok_pending. }
  assert (end_nodes st1 !! Z.to_nat i = Some en1) as E1 by (apply list_lookup_insert_eq; by eapply lookup_lt_Some).
  apply wp_bind. eapply wp_mono; [by apply (fill_packet_report_spec B clk i Hi X Y st1 en1 pd1)|].
  intros pd2 st2 l (Hst2 & -> & (areq & -> & Hla & Htk) & q' & pa & Hch2 & Eq').
  change (report_queue en1) with (report_queue en) in *. set (qs := queued (report_queue en)) in *.
  set (en2 := set_tx_pacer pa (set_report_queue q' en1)) in *.
  assert (end_nodes st2 !! Z.to_nat i = Some en2) as E2.
  { rewrite (ch_nodes _ _ _ _ Hch2). apply list_lookup_insert_eq. by eapply lookup_lt_Some. }
  assert (Forall (λ d, 0 ≤ d < 256) qs) as Hqs by (apply (ro_range _ (no_reports _ _ Hok))).
  assert (pd_valid B (pd_set_areq (Z.of_nat (length (take 10 qs))) areq pd1)) as Hval.
  { apply (filled_valid B pd1 p); [done|done|done| |].
    - pose proof (no_pending _ _ Hok) as Hpend.
      assert (Forall (λ a, 0 ≤ al_dst a < 256) (unsent (pending_allocs en))) as Hall.
      { apply circ_Forall; [apply Hpend|rewrite (pk_cells _ Hpend); lia]. }
      rewrite Eu in Hall. by apply Forall_app in Hall as [? _].
    - rewrite Nat2Z.id, Htk. apply Forall_fmap, Forall_take. eapply Forall_impl; [exact Hqs|].
      intros d Hd. cbv beta in Hd. simpl. rewrite u16_small by (simpl; lia). simpl. lia. }
  set (pd2 := pd_set_areq _ areq pd1) in *. apply wp_bind.
  eapply wp_mono; [by apply (commit_on_conn X (Y ∖ {[ i ]}) st2 en2 pd2 clk)|].
  intros r st3 l3 (Hst3 & Hl3 & Ho3 & Hn3).
  destruct (Hn3 en2 E2) as (en3 & E3 & c' & (Er & Hstored) & [Ac Ap Aa Aq _]). simpl in Ac, Ap, Aa, Aq.
  assert (transmission B en en3 r) as Htr.
  { constructor.
    - exists p. rewrite Ap. simpl. rewrite Eq. split; [done|]. split; [done|]. split; [|done].
      subst r. by destruct Hpk.
    - exists qs. split; [done|]. subst r. simpl. rewrite Nat2Z.id, Htk. split; [done|]. split; [|by rewrite <- Eq'].
      apply list_fmap_ext. intros _ d _. unfold report_of. rewrite Aa, Ap. done.
    - by rewrite Aa.
    - by subst r.
    - by rewrite Ac. }
  assert (Hstep : ∀ l, (∀ mb, m = Some mb → SendPacket i (ip_packet B en3 r mb) ∈ calls l) →
    node_step (λ en en', ∃ pd, transmission B en en' pd ∧
      ∀ mb, m = Some mb → SendPacket i (ip_packet B en' pd mb) ∈ calls l) i st st3).
  { intros l Hl. split.
    - intros j Hj. rewrite Ho3 by done. rewrite (ch_nodes _ _ _ _ Hch2), (ch_nodes _ _ _ _ Hch1).
      by rewrite !list_lookup_insert_ne.
    - intros en0 E0. assert (en0 = en) as -> by congruence. exists en3. split; [done|]. by exists r. }
  destruct m as [mb|].
  - eapply wp_get_node; [done|]. apply wp_bind.
    assert (0 ≤ Z.of_nat (length (take 10 qs)) ≤ 10) as Hn10 by (rewrite length_take; lia).
    eapply wp_deref.
    { apply (make_packet_spec B Hctl Hbytes en3 r p); [| |done|by subst r|by apply Hm].
      - subst r. by apply (filled_pd_ok B Hctl Hbytes pd1 p).
      - subst r. by destruct Hpk. }
    apply wp_call. split; [done|]. split.
    + simpl. apply no_bug_app. split; [done|]. by repeat constructor.
    + apply Hstep. intros mb' [= <-]. simpl. rewrite calls_app, elem_of_app. right. simpl. set_solver.
  - apply wp_ret. split; [done|]. split; [simpl; by rewrite app_nil_r|]. by apply Hstep.
Qed.

Lemma transmission_pre en0 en en' pd :
  unsent (pending_allocs en0) = unsent (pending_allocs en) → alloc_to_dst en0 = alloc_to_dst en →
  queued (report_queue en0) `prefix_of` queued (report_queue en) →
  Window.head (outwnd (conn en0)) = Window.head (outwnd (conn en)) →
  transmission B en en' pd → transmission B en0 en' pd.
Proof using.
  intros Eu Ea Hq Eh [Hp (qs & Hqs & Hr) Hc Hs Ho]. constructor; try congruence.
  - by rewrite Eu.
  - exists qs. split; [by etrans|done].
Qed.

(** What the memory allocations of a transmission may return. *)
Definition mem_ok (pool : option fpproto_pktdesc) (m : option mbuf) : Prop :=
  (∀ pd, pool = Some pd → pool_pd B pd) ∧
  (∀ mb, m = Some mb → FASTPASS_MAX_PAYLOAD B ≤ Z.of_nat (length (mb_payload mb))).

(** The node after a transmission, and what was sent: nothing if there was no
    memory. *)
Definition tx_step (pool : option fpproto_pktdesc) (m : option mbuf) (l : list (event comm_call))
    (en en' : end_node_state) : Prop :=
  pool = None ∨ ∃ pd, transmission B en en' pd ∧
    ∀ mb, m = Some mb → SendPacket i (ip_packet B en' pd mb) ∈ calls l.

Lemma node_step_trans_l (R1 R2 R3 : relation end_node_state) st st1 st' :
  node_step R1 i st st1 → node_step R2 i st1 st' → (∀ a b c, R1 a b → R2 b c → R3 a c) → node_step R3 i st st'.
Proof using.
  intros [Ho1 Hn1] [Ho2 Hn2] HR. split; [intros j Hj; by rewrite Ho2, Ho1|].
  intros en E. destruct (Hn1 en E) as (en1 & E1 & H1). destruct (Hn2 en1 E1) as (en2 & E2 & H2). eauto.
Qed.

Lemma tx_end_node_spec X Y st en pool m :
  i ∉ X → comm_ok B clk ({[ i ]} ∪ X) Y st → end_nodes st !! Z.to_nat i = Some en → mem_ok pool m →
  Window.head (outwnd (conn en)) + 1 < 2 ^ 64 →
  wp (tx_end_node B true clk i pool m) (λ _ st' l,
    comm_ok B clk X Y st' ∧ no_bug l ∧ node_step (tx_step pool m l) i st st') st.
Proof using Hi Hctl Hbytes.
  intros HX Hst E [Hpool Hm] Hh. unfold tx_end_node. apply wp_bind. unfold upd_node. apply wp_modify.
  erewrite upd_nodes_eq by done. pose proof (comm_ok_reset B clk i Hi X Y st en HX Hst E) as Hst1.
  set (en1 := set_tx_pacer (pacer_reset (tx_pacer en)) en) in *. set (st1 := set_end_nodes _ st) in *.
  assert (end_nodes st1 !! Z.to_nat i = Some en1) as E1 by (apply list_lookup_insert_eq; by eapply lookup_lt_Some).
  assert (node_step (λ a b, b = set_tx_pacer (pacer_reset (tx_pacer a)) a) i st st1) as Hs1.
  { split; [intros j Hj; by apply list_lookup_insert_ne|]. intros en0 E0. assert (en0 = en) as -> by congruence. eauto. }
  apply wp_bind. eapply wp_mono; [by apply (prepare_on_conn B clk i Hi X (Y ∪ {[ i ]}) st1 en1)|].
  intros _ st2 l2 (Hst2 & Hl2 & Hs2). pose proof (node_step_trans_l _ _ (λ en en2,
    (Window.head (outwnd (conn en2)) = Window.head (outwnd (conn en)) ∧
     wnd_edge (outwnd (conn en2)) ∉ wnd_set (outwnd (conn en2))) ∧
    unsent (pending_allocs en) = unsent (pending_allocs en2) ∧ alloc_to_dst en = alloc_to_dst en2 ∧
    queued (report_queue en) `prefix_of` queued (report_queue en2)) _ _ _ Hs1 Hs2) as Hs.
  destruct Hs as [Ho2 Hn2].
  { intros a b c -> (c' & (Hhd & Hed) & [Ac Ap Aa Aq _]). simpl in *. rewrite Ac, Ap, Aa. by split_and!. }
  destruct (Hn2 en E) as (en2 & E2 & (Hh2 & Hed2) & Eu2 & Ea2 & Hq2).
  destruct pool as [pd0|].
  - eapply wp_mono; [apply (tx_packet_spec X (Y ∪ {[ i ]}) st2 en2 pd0 m); try done; [by apply Hpool|by rewrite Hh2]|].
    intros _ st3 l3 (Hst3 & Hl3 & [Ho3 Hn3]). split; [eapply comm_ok_weaken; [|done]; set_solver|].
    split; [simpl; by apply no_bug_app|]. split; [intros j Hj; by rewrite Ho3, Ho2|].
    intros en0 E0. assert (en0 = en) as -> by congruence.
    destruct (Hn3 en2 E2) as (en3 & E3 & pd & Htr & Hsend). exists en3. split; [done|]. right. exists pd.
    split; [by apply (transmission_pre en en2)|]. intros mb Emb. simpl. rewrite calls_app, elem_of_app. right.
    by apply Hsend.
  - eapply wp_mono; [by apply (trigger_request_spec B clk i Hi X (Y ∪ {[ i ]}) st2 en2)|].
    intros _ st3 l3 (Hst3 & -> & pa & _ & _ & Hch). split; [eapply comm_ok_weaken; [|done]; set_solver|].
    split; [simpl; by rewrite app_nil_r|]. split.
    + intros j Hj. rewrite (ch_nodes _ _ _ _ Hch), list_lookup_insert_ne by done. by apply Ho2.
    + intros en0 E0. eexists. split; [|by left]. rewrite (ch_nodes _ _ _ _ Hch).
      apply list_lookup_insert_eq. by eapply lookup_lt_Some.
Qed.
End tx.
