(* ===== verification/CommTurn.v ===== *)
(** * The main loop of the communication core

    A received packet with arbitrary bytes, and one turn of the loop, are defined
    and keep the invariant; a node whose transmission is due gets its reports in
    that turn. *)

From S2P Require Import Prelude Platform Window WindowFacts WindowSpec WindowMarks Protocol ConnFacts.
From S2P Require Import ConnSpec ConnAck ConnSend ConnInwnd ConnSafe Codec Pacer Timer Comm CommInv.
From S2P Require Import CommHandlers CommFill CommTx.

(** ** Time passes *)
Lemma pending_event_mono pa t t' : t ≤ t' → pending_event pa t → pending_event pa t'.
Proof. intros Ht []. constructor; [done..|lia]. Qed.

Lemma comm_ok_clock B clk clk' X Y st : clk ≤ clk' < 2 ^ 62 →
  timely clk' (timeout_timers st) → timely clk' (tx_timers st) →
  comm_ok B clk X Y st → comm_ok B clk' X Y st.
Proof.
  intros Hk Hk1 Hk2 [Hl Hn Hf Ht He Hla Hw Hr _]. constructor; try done.
  - intros i en E. destruct (Hn i en E) as [Hok []]. split; [done|]. constructor; try done; lia.
  - intros i en E Hin. destruct (Hf i en E Hin) as [Hp Htm]. split; [|done].
    eapply pending_event_mono; [|exact Hp]. lia.
  - intros i en E Hin. destruct (Ht i en E Hin) as [Htm Hwk]. split; [|done]. unfold timer_ok in *.
    destruct (pacer_is_triggered _); [|done]. destruct Htm as [Hp Htm]. split; [|done].
    eapply pending_event_mono; [|exact Hp]. lia.
Qed.

Section turn.
Context (B : build) `{H : HashOps}.
Hypothesis (Hctl : IS_ENDPOINT B = false) (Hdata : reads_areq_data B = false)
  (Hbytes : 0 ≤ emu_alloc_data_bytes B ≤ 2).

(** ** Reception *)

(** The buffer of a received packet is large enough for the headers. In an
    emulation build it goes on for 63 bytes behind the packet of [len] bytes. *)
Definition buf_ok (buf : list Z) : Prop := 34 ≤ Z.of_nat (length buf).
Definition room_behind (buf : list Z) (len : Z) : Prop :=
  EMULATION_ALGO B = true → len + 63 ≤ Z.of_nat (length buf).
Definition rx_ok (p : rx_mbuf) : Prop := buf_ok (rx_buf p) ∧ room_behind (rx_buf p) (rx_len p).

Definition rx_safe {A} (clk : Z) (m : C_ A) : Prop := ∀ st, comm_ok B clk ∅ ∅ st →
  wp m (λ _ st' l, comm_ok B clk ∅ ∅ st' ∧ no_bug l) st.

Lemma rx_safe_bind {A A'} clk (m : C_ A) (k : A → C_ A') :
  rx_safe clk m → (∀ a, rx_safe clk (k a)) → rx_safe clk (m ≫= k).
Proof using.
  intros Hm Hk st Hst. apply wp_bind. eapply wp_mono; [by apply Hm|]. intros a st1 l1 [Hst1 Hl1].
  eapply wp_mono; [by apply Hk|]. intros b st2 l2 [Hst2 Hl2]. split; [done|by apply no_bug_app].
Qed.

Lemma rx_safe_deref {A A'} clk (o : option A) (k : A → C_ A') :
  is_Some o → (∀ a, rx_safe clk (k a)) → rx_safe clk (deref o ≫= k).
Proof using. intros [a ->] Hk st Hst. apply wp_bind. eapply wp_deref; [done|]. by apply (Hk a). Qed.

Lemma rx_safe_ret {A} clk (a : A) : rx_safe clk (mret a).
Proof using. intros st Hst. apply wp_ret. split; [done|apply no_bug_nil]. Qed.

Lemma rx_safe_call clk c : rx_safe clk (call c).
Proof using. intros st Hst. apply wp_call. split; [done|by repeat constructor]. Qed.

Lemma rx_safe_hsafe {A} clk i R (m : C_ A) : hsafe B clk i R m → rx_safe clk m.
Proof using.
  intros Hm st Hst. eapply wp_mono; [apply (Hm ∅ ∅); [apply not_elem_of_empty|done]|]. intros a st' l (? & ? & _). done.
Qed.

Lemma keeps_addrs d c : keeps_node B same_conn (set_addrs d c).
Proof using. intros en []. by split_and!. Qed.

Lemma comm_rx_safe clk addr buf len : buf_ok buf → room_behind buf len → rx_safe clk (comm_rx B true clk addr buf len).
Proof using Hctl Hdata.
  intros Hbuf Hroom. unfold buf_ok in Hbuf. unfold comm_rx. cbv zeta.
  assert (Hclean : ∀ r, rx_safe clk (call FreeMbuf;; mret r : C_ rx_outcome)).
  { intros r. apply rx_safe_bind; [apply rx_safe_call|]. intros _. apply rx_safe_ret. }
  change sizeof_ether_hdr with 14.
  apply rx_safe_deref; [apply ld16_some; lia|]. intros et.
  destruct (et =? ETHER_TYPE_ARP); [apply rx_safe_bind; [apply rx_safe_call|done]|].
  destruct (negb (et =? ETHER_TYPE_IPv4)); [done|].
  apply rx_safe_deref; [apply ld8_some; lia|]. intros proto.
  destruct (proto =? IPPROTO_FASTPASS_WATCHDOG); [done|].
  destruct (proto =? IPPROTO_FASTPASS_KILL); [apply rx_safe_ret|].
  destruct (negb (proto =? IPPROTO_FASTPASS)); [done|].
  apply rx_safe_deref; [apply ld16_some; lia|]. intros total.
  apply rx_safe_deref; [apply ld8_some; lia|]. intros ihl.
  destruct (Z.gtb_spec (14 + total) len) as [|Hlen]; [done|].
  destruct (Z.ltb_spec (Z.land ihl 15) 5) as [|Hihl]; cbn [orb]; [done|].
  destruct (Z.ltb_spec total (4 * Z.land ihl 15)) as [|Htotal]; [done|].
  apply rx_safe_deref; [apply ld32_some; lia|]. intros src.
  apply rx_safe_deref; [apply ld32_some; lia|]. intros dst.
  pose proof (map_ip_range src) as [Hsrc _]. change NUM_NODES with 64 in Hsrc.
  set (i := fp_map_ip_to_id src) in *. assert (0 ≤ i < 256) as Hi by lia.
  apply rx_safe_bind; [apply (rx_safe_hsafe clk i same_conn); by apply hsafe_upd_node; [|apply keeps_addrs]|].
  intros _. apply rx_safe_bind; [|done]. unfold when. destruct (i <? MAX_NODES); [|apply rx_safe_ret].
  intros st Hst. apply on_conn_safe; [done|done|done|apply not_elem_of_empty|by apply safe_rx_complete|done|].
  intros He. specialize (Hroom He). rewrite !length_drop. change sizeof_ipv4_hdr with 20. lia.
Qed.

(** ** New allocations *)
Definition edge_ok (e : admitted_edge) : Prop :=
  let '(src, dst, _) := get_admitted_fields e in
  0 ≤ src < 256 ∧ 0 ≤ dst < 256 ∧ match e with EmuEdge _ _ _ _ data => length data = 2%nat | _ => True end.

Definition admitted_ok (a : admitted_traffic) : Prop :=
  0 ≤ ad_partition a < 2 ∧ Forall edge_ok (ad_edges a).

(** Between the timers and the transmissions of a turn a node only accumulates
    things to send. *)
Record waits (en en' : end_node_state) : Prop := {
  wt_head : Window.head (outwnd (conn en')) = Window.head (outwnd (conn en));
  wt_queue : queued (report_queue en) `prefix_of` queued (report_queue en');
  wt_pacer : pacer_is_triggered (tx_pacer en) = true → tx_pacer en' = tx_pacer en;
}.

#[export] Instance waits_preorder : PreOrder waits.
Proof using.
  split; [done|]. intros a b c [? ? Hp1] [? ? Hp2]. constructor; try congruence; [by etrans|].
  intros Ht. specialize (Hp1 Ht). rewrite <- Hp1. apply Hp2. by rewrite Hp1.
Qed.

(** Every node waits. *)
Definition all_wait (st st' : comm_state) : Prop :=
  ∀ j en, end_nodes st !! j = Some en → ∃ en', end_nodes st' !! j = Some en' ∧ waits en en'.

#[export] Instance all_wait_preorder : PreOrder all_wait.
Proof using.
  split; [intros st j en E; by exists en|]. intros a b c Hab Hbc j en E.
  destruct (Hab j en E) as (en1 & E1 & H1). destruct (Hbc j en1 E1) as (en2 & E2 & H2). exists en2. split; [done|by trans en1].
Qed.

Lemma node_step_wait (R : relation end_node_state) i st st' :
  (∀ en en', R en en' → waits en en') → node_step R i st st' → all_wait st st'.
Proof using.
  intros HR [Ho Hn] j en E. destruct (decide (j = Z.to_nat i)) as [->|Hj].
  - destruct (Hn en E) as (en' & E' & Hr). eauto.
  - exists en. by rewrite Ho.
Qed.

(** A step of the part of the turn before the transmissions. *)
Definition waiting {A} (clk : Z) (m : C_ A) : Prop := ∀ st, comm_ok B clk ∅ ∅ st →
  wp m (λ _ st' l, comm_ok B clk ∅ ∅ st' ∧ no_bug l ∧ all_wait st st') st.

Lemma waiting_bind {A A'} clk (m : C_ A) (k : A → C_ A') :
  waiting clk m → (∀ a, waiting clk (k a)) → waiting clk (m ≫= k).
Proof using.
  intros Hm Hk st Hst. apply wp_bind. eapply wp_mono; [by apply Hm|]. intros a st1 l1 (Hst1 & Hl1 & Hw1).
  eapply wp_mono; [by apply Hk|]. intros b st2 l2 (Hst2 & Hl2 & Hw2). split; [done|].
  split; [by apply no_bug_app|by trans st1].
Qed.

Lemma waiting_ret {A} clk (a : A) : waiting clk (mret a).
Proof using. intros st Hst. apply wp_ret. split; [done|]. split; [apply no_bug_nil|done]. Qed.

Lemma waiting_call clk c : waiting clk (call c).
Proof using. intros st Hst. apply wp_call. split; [done|]. split; [by repeat constructor|done]. Qed.

Lemma length_memcpy n (from to : list Z) : 0 ≤ n ≤ 2 → length from = 2%nat → length to = 2%nat →
  length (memcpy n from to) = 2%nat.
Proof using. intros Hn Hf Ht. unfold memcpy. rewrite length_app, length_take, length_drop. lia. Qed.

Lemma make_room_ok q : pending_ok q → pending_ok (make_room q).
Proof using.
  intros Hq. unfold make_room. destruct (_ =? _); [|done].
  constructor; simpl; try apply Hq. split; [apply u32_range|apply Hq].
Qed.

Lemma admitted_loop_waits clk t edges : Forall edge_ok edges → waiting clk (admitted_loop B clk t edges).
Proof using Hbytes.
  induction 1 as [|e edges He _ IH]; cbn [admitted_loop]; [apply waiting_ret|]. unfold edge_ok in He.
  destruct (get_admitted_fields e) as [[src dst] flags] eqn:Ef. destruct He as (Hs & Hd & He).
  intros st Hst. destruct (lookup_node st src (co_nodes _ _ _ _ _ Hst) Hs) as [en E].
  destruct (co_node _ _ _ _ _ Hst _ _ E) as [Hok Hp].
  destruct (co_timer _ _ _ _ _ Hst _ _ E) as [Htm Hwk]; [apply not_elem_of_empty|]. rewrite Z2Nat.id in Htm, Hwk by lia.
  eapply wp_get_node; [done|]. cbv zeta. set (q := make_room _).
  assert (pending_ok q) as Hq by (apply make_room_ok, Hok).
  destruct (alloc_at q Hq (pq_tail q)) as [_ Hdat]. set (a0 := arr_get _ _) in *.
  set (a := fill_algo_fields_in_alloc _ _ _).
  assert (0 ≤ al_dst a < 256 ∧ length (al_data a) = 2%nat) as [Ha1 Ha2].
  { unfold a. destruct e as [s d|s d f id data]; simpl; (split; [done|]); [done|by apply length_memcpy]. }
  apply wp_bind. destruct (lookup_256 (alloc_to_dst en) dst (no_alloc _ _ Hok)) as [n Hn]; [lia|].
  eapply wp_deref; [done|]. apply wp_bind. unfold upd_node. apply wp_modify. erewrite upd_nodes_eq by done.
  set (en1 := set_pending_allocs _ _). set (st1 := set_end_nodes _ st).
  assert (changes src en1 st st1) as Hch by (constructor; try done; apply Hst).
  assert (node_ok B en1) as Hok1.
  { destruct Hok. constructor; try done; [simpl; by rewrite length_arr_set|by apply push_alloc_ok]. }
  assert (comm_ok B clk ∅ ∅ st1) as Hst1.
  { eapply (comm_ok_changes B clk ∅ ∅ _ st st1 src); [done|done|apply not_elem_of_empty|exact Hch|done|done|done|done|done]. }
  assert (all_wait st st1) as Hw1.
  { apply (node_step_wait waits src); [done|]. eapply changes_step; [exact Hch|done|]. done. }
  apply wp_bind. eapply wp_mono; [apply (hsafe_trigger_report B clk src Hs asks dst Hd ∅ ∅); [apply not_elem_of_empty|done]|].
  intros _ st2 l2 (Hst2 & Hl2 & Hs2). eapply wp_mono; [by apply IH|]. intros _ st3 l3 (Hst3 & Hl3 & Hw3).
  split; [done|]. split; [simpl; by apply no_bug_app|]. trans st1; [done|]. trans st2; [|done].
  apply (node_step_wait asks src); [|done]. intros x y [Hc _ _ Hqp Hpc]. constructor; [by rewrite Hc|done|done].
Qed.

Lemma one_q_waits clk ads : Forall admitted_ok ads → waiting clk (process_allocated_traffic_one_q B clk ads).
Proof using Hbytes.
  induction 1 as [|a ads [Hpt He] _ IH]; cbn [process_allocated_traffic_one_q]; [apply waiting_ret|].
  cbv zeta. unfold get_partition. intros st Hst. apply wp_bind, wp_get, wp_bind.
  destruct (lookup_lt_is_Some_2 (latest_timeslot st) (Z.to_nat (ad_partition a))) as [t Ht];
    [rewrite (co_latest _ _ _ _ _ Hst); lia|].
  eapply wp_deref; [done|]. apply wp_bind, wp_modify. set (st1 := set_latest_timeslot _ st).
  assert (comm_ok B clk ∅ ∅ st1) as Hst1.
  { destruct Hst. constructor; try done. simpl. by rewrite length_arr_set. }
  apply wp_bind. eapply wp_mono; [by apply admitted_loop_waits|]. intros _ st2 l2 (Hst2 & Hl2 & Hw2).
  eapply wp_mono; [by apply IH|]. intros _ st3 l3 (Hst3 & Hl3 & Hw3).
  split; [done|]. split; [simpl; by apply no_bug_app|]. trans st2; [exact Hw2|done].
Qed.

Lemma process_allocated_waits clk qs : Forall (Forall admitted_ok) qs → waiting clk (process_allocated_traffic B clk qs).
Proof using Hbytes.
  induction 1 as [|q qs Hq _ IH]; cbn [process_allocated_traffic]; [apply waiting_ret|].
  apply waiting_bind; [by apply one_q_waits|done].
Qed.

(** ** Retransmission timers *)
Lemma quiet_timeout c now l : l = take_while (expired c now) (marks_from (outwnd c) (next_timeout_seqno c)) ≫= neg_events c →
  Forall (λ k, quiet k = true) (calls l).
Proof using.
  intros ->. induction (take_while _ _) as [|s ss IH]; [constructor|]. rewrite bind_cons. apply quiet_calls_app.
  split; [|done]. unfold neg_events. destruct (has_handle_neg_ack _); by repeat constructor.
Qed.

Lemma timeout_waits clk i now : 0 ≤ i < 256 → waiting clk (on_conn B true clk i (fpproto_handle_timeout now)).
Proof using Hctl Hdata.
  intros Hi st Hst. destruct (lookup_node st i (co_nodes _ _ _ _ _ Hst) Hi) as [en E].
  destruct (co_node _ _ _ _ _ Hst _ _ E) as [Hok _]. pose proof (no_conn _ _ Hok) as Hc.
  eapply wp_mono; [eapply (on_conn_spec B clk i Hi asks _ ∅ ∅ st en
    (λ _ c', Window.head (outwnd c') = Window.head (outwnd (conn en)))); [apply not_elem_of_empty|done|done|]|].
  - pose proof (safe_handle_timeout now (conn en) Hc) as Hs.
    pose proof (fpproto_handle_timeout_spec (conn en) now (ok_wf _ Hc)) as Hf.
    unfold wp in *. destruct (fpproto_handle_timeout now (conn en)) as [[[[] c'] l]|]; [|done].
    destruct Hs as (Hc' & Hl & Hev & _). destruct Hf as (f & v & lt & -> & _ & -> & Hrest).
    split; [done|]. split; [done|]. split; [|split; [apply Hok|intros s pd Hs; by eapply (no_pds _ _ Hok), (ev_pds _ _ Hev)]].
    eapply hsafe_dispatch_from; [done|done|exact Hl|]. apply quiet_calls_app.
    split; [by eapply quiet_timeout|].
    destruct (drop _ _); [destruct Hrest as [_ ->]; constructor|].
    destruct Hrest as (_ & pd & _ & ->). by repeat constructor.
  - intros [] st' l (Hst' & Hl & [Ho Hn]). split; [done|]. split; [done|].
    intros j en0 E0. destruct (decide (j = Z.to_nat i)) as [->|Hj]; [|exists en0; by rewrite Ho].
    assert (en0 = en) as -> by congruence. destruct (Hn en E) as (en' & E' & c' & Hh & [Hcn _ _ Hq Hpc]).
    exists en'. split; [done|]. constructor; [by rewrite Hcn|done|done].
Qed.

Lemma retrans_waits clk lst : Forall (λ i, 0 ≤ i < 256) lst → waiting clk (retrans_timers B true clk lst).
Proof using Hctl Hdata.
  induction 1 as [|i lst Hi _ IH]; cbn [retrans_timers]; [apply waiting_ret|].
  apply waiting_bind; [by apply timeout_waits|done].
Qed.

(** ** Transmission timers *)

(** No sequence number is about to wrap around. *)
Definition heads_ok (st : comm_state) : Prop :=
  ∀ j en, end_nodes st !! j = Some en → Window.head (outwnd (conn en)) + 1 < 2 ^ 64.

(** What happened to the nodes that transmitted. *)
Definition transmitted (mem : Z → option fpproto_pktdesc * option mbuf) (l : list (event comm_call))
    (st : comm_state) (i : Z) : Prop :=
  ∀ en, end_nodes st !! Z.to_nat i = Some en → ∃ en', tx_step B i (mem i).1 (mem i).2 l en en'.

Lemma tx_step_log i pool m l1 l l2 en en' : tx_step B i pool m l en en' → tx_step B i pool m (l1 ++ l ++ l2) en en'.
Proof using Hbytes.
  intros [->|(pd & Htr & Hs)]; [by left|]. right. exists pd. split; [done|]. intros mb Em.
  rewrite !calls_app, !elem_of_app. specialize (Hs mb Em). tauto.
Qed.

Lemma transmit_timers_spec clk mem lst : ∀ st,
  NoDup lst → Forall (λ i, 0 ≤ i < 256) lst → comm_ok B clk (list_to_set lst) ∅ st →
  (∀ i en, i ∈ lst → end_nodes st !! Z.to_nat i = Some en → Window.head (outwnd (conn en)) + 1 < 2 ^ 64) →
  (∀ i, mem_ok B (mem i).1 (mem i).2) →
  wp (transmit_timers B true clk mem lst) (λ _ st' l, comm_ok B clk ∅ ∅ st' ∧ no_bug l ∧
    Forall (transmitted mem l st) lst) st.
Proof using Hctl Hbytes.
  induction lst as [|i lst IH]; intros st Hnd Hr Hst Hh Hmem; cbn [transmit_timers].
  { apply wp_ret. split; [done|]. split; [apply no_bug_nil|constructor]. }
  apply NoDup_cons in Hnd as [Hi Hnd]. apply Forall_cons in Hr as [Hir Hr]. cbv beta in Hir. simpl in Hst.
  destruct (lookup_node st i (co_nodes _ _ _ _ _ Hst) Hir) as [en E]. apply wp_bind.
  eapply wp_mono; [apply (tx_end_node_spec B clk i Hir Hctl Hbytes (list_to_set lst) ∅ st en);
    [by rewrite elem_of_list_to_set|done|done|done|apply (Hh i en); [left|done]]|].
  intros _ st1 l1 (Hst1 & Hl1 & [Ho Hn]).
  assert (Hsame : ∀ j, j ∈ lst → end_nodes st1 !! Z.to_nat j = end_nodes st !! Z.to_nat j).
  { intros j Hj. apply Ho. rewrite Forall_forall in Hr. specialize (Hr j Hj). cbv beta in Hr.
    intros Ej. assert (j = i) by lia. by subst. }
  eapply wp_mono; [apply IH; try done|].
  - intros j en' Hj E'. rewrite Hsame in E' by done. apply (Hh j en'); [by right|done].
  - intros _ st2 l2 (Hst2 & Hl2 & Htr). split; [done|]. split; [by apply no_bug_app|]. constructor.
    + intros en0 E0. destruct (Hn en0 E0) as (en' & _ & Hs). exists en'. by apply (tx_step_log i _ _ [] l1 l2).
    + apply Forall_forall. intros j Hj en0 E0. rewrite Forall_forall in Htr.
      destruct (Htr j Hj en0) as [en' Hs]; [by rewrite Hsame|]. exists en'.
      rewrite <- (app_nil_r l2). by apply (tx_step_log j _ _ l1 l2 []).
Qed.

(** ** The turn *)
Record turn_ok (t : turn) : Prop := {
  tu_admitted : Forall (Forall admitted_ok) (t_admitted t);
  tu_mem : ∀ i, mem_ok B (t_mem t i).1 (t_mem t i).2;
}.

(** The wheels after the expired timers were taken out. *)
Lemma comm_ok_timeouts clk st : comm_ok B clk ∅ ∅ st → 0 ≤ clk < 2 ^ 62 →
  ∃ w lst, fp_timer_get_expired clk (timeout_timers st) [] = Some (w, lst) ∧
    comm_ok B clk ∅ ∅ (set_timeout_timers w st) ∧ Forall (λ i, 0 ≤ i < 256) lst.
Proof using.
  intros Hst Hk. pose proof (co_ticks _ _ _ _ _ Hst) as [[Hh1 Hh2] Htx].
  destruct (get_expired_spec clk (timeout_timers st) [] (proj1 (co_wheels _ _ _ _ _ Hst))) as
    (w & ex & Eex & Hw & Hhd & _ & Hin & Htm); [lia|done|lia|].
  exists w, ex. split; [done|]. split.
  - destruct Hst as [? ? ? ? ? ? [_ ?] Hr _]. constructor; try done.
    + intros x [Hx|Hx]; apply Hr; [by left|]. right. unfold armed in *. simpl in Hx. rewrite Htm in Hx.
      by destruct (decide (x ∈ ex)).
    + split; [|done]. unfold timely. simpl. rewrite Hhd. change MAX_TIMER_SLOTS with 1024. lia.
  - apply Forall_forall. intros x Hx. apply (co_range _ _ _ _ _ Hst). right. by apply Hin in Hx as [? _].
Qed.

(** The nodes whose transmission is due, and only these, are taken from the wheel. *)
Lemma comm_ok_fired clk st : comm_ok B clk ∅ ∅ st → 0 ≤ clk < 2 ^ 62 →
  ∃ w lst, fp_timer_get_expired clk (tx_timers st) [] = Some (w, lst) ∧ NoDup lst ∧
    comm_ok B clk (list_to_set lst) ∅ (set_tx_timers w st) ∧ Forall (λ i, 0 ≤ i < 256) lst ∧
    ∀ i en, 0 ≤ i → end_nodes st !! Z.to_nat i = Some en → pacer_is_triggered (tx_pacer en) = true →
      next_event (tx_pacer en) ≤ clk → i ∈ lst.
Proof using.
  intros Hst Hk. pose proof (co_ticks _ _ _ _ _ Hst) as [Hto [Hh1 Hh2]].
  destruct (get_expired_spec clk (tx_timers st) [] (proj2 (co_wheels _ _ _ _ _ Hst))) as
    (w & ex & Eex & Hw & Hhd & Hnd & Hin & Htm); [lia|done|lia|].
  exists w, ex. split; [done|]. split; [done|].
  assert (Hnode : ∀ j en, end_nodes st !! j = Some en → timer_ok clk (tx_timers st) (Z.of_nat j) (tx_pacer en) ∧ woken en).
  { intros j en E. destruct (co_timer _ _ _ _ _ Hst j en E) as [Ht Hwk]; [apply not_elem_of_empty|].
    split; [done|]. apply Hwk, not_elem_of_empty. }
  split; [|split].
  - destruct Hst as [? ? _ _ ? ? [? _] Hr _]. constructor; try done.
    + intros j en E Hj. rewrite elem_of_list_to_set in Hj. destruct (Hnode j en E) as [Ht _].
      pose proof (proj1 (Hin _) Hj) as [Ha Hle]. unfold timer_ok in Ht. unfold armed in Ha.
      destruct (pacer_is_triggered (tx_pacer en)) eqn:Etr; [|by rewrite Ht in Ha].
      destruct Ht as [[? ? ? ?] Et]. split; [|simpl; by rewrite Htm, decide_True].
      constructor; try done. rewrite Et in Hle. unfold TIMER_GRANULARITY in Hle. zify_div. lia.
    + intros j en E Hj. rewrite elem_of_list_to_set in Hj. destruct (Hnode j en E) as [Ht Hwk]. split; [|done].
      unfold timer_ok in *. simpl. by rewrite Htm, decide_False.
    + intros x [Hx|Hx]; apply Hr; [left|by right]. unfold armed in *. simpl in Hx. rewrite Htm in Hx.
      by destruct (decide (x ∈ ex)).
    + split; [done|]. unfold timely. simpl. rewrite Hhd. change MAX_TIMER_SLOTS with 1024. lia.
  - apply Forall_forall. intros x Hx. apply (co_range _ _ _ _ _ Hst). left. by apply Hin in Hx as [? _].
  - intros i en Hi E Htr Hle. apply Hin. destruct (Hnode _ en E) as [Ht _]. rewrite Z2Nat.id in Ht by done.
    unfold timer_ok in Ht. rewrite Htr in Ht. destruct Ht as [[? Ha Hc ?] Et]. unfold armed. rewrite Et.
    unfold TIMER_GRANULARITY, TIMER_NOT_SET_TIME. change (not64 0) with (2 ^ 64 - 1).
    split; [zify_div; lia|]. apply Z.div_le_mono; lia.
Qed.

(** A report that waits at a node whose transmission is due is sent. *)
Definition delivers (t : turn) (l : list (event comm_call)) (st : comm_state) : Prop :=
  ∀ i en d mb, 0 ≤ i → end_nodes st !! Z.to_nat i = Some en → d ∈ take 10 (queued (report_queue en)) →
    next_event (tx_pacer en) ≤ t_now t → (t_mem t i).1 ≠ None → (t_mem t i).2 = Some mb →
    ∃ pd en', SendPacket i (ip_packet B en' pd mb) ∈ calls l ∧
      d ∈ src_dst_key <$> take (Z.to_nat (pd_n_areq pd)) (pd_areq pd).

Lemma prefix_take_elem {A} (l1 l2 : list A) n x : l1 `prefix_of` l2 → x ∈ take n l1 → x ∈ take n l2.
Proof using.
  intros [k ->] Hx. rewrite take_app, elem_of_app. by left.
Qed.

Lemma comm_turn_spec t st : turn_ok t → 0 ≤ t_now t < 2 ^ 62 → comm_ok B (t_now t) ∅ ∅ st → heads_ok st →
  wp (comm_turn B true t) (λ _ st' l, comm_ok B (t_now t) ∅ ∅ st' ∧ no_bug l ∧ delivers t l st) st.
Proof using Hctl Hdata Hbytes.
  intros [Had Hmem] Hk Hst Hh. unfold comm_turn. set (clk := t_now t) in *. apply wp_bind, wp_get.
  destruct (comm_ok_timeouts clk st Hst Hk) as (w & lst & Ew & Hst1 & Hr). apply wp_bind.
  eapply wp_deref; [exact Ew|]. apply wp_bind, wp_modify.
  apply wp_bind. eapply wp_mono; [by apply (retrans_waits clk lst Hr)|]. intros _ st2 l2 (Hst2 & Hl2 & Hw2).
  apply wp_bind. eapply wp_mono; [by apply (process_allocated_waits clk _ Had)|]. intros _ st3 l3 (Hst3 & Hl3 & Hw3).
  assert (all_wait st st3) as Hw by (trans st2; [exact Hw2|done]).
  apply wp_bind, wp_call, wp_bind, wp_call, wp_bind, wp_get.
  destruct (comm_ok_fired clk st3 Hst3 Hk) as (w' & fired & Ew' & Hnd & Hst4 & Hr4 & Hdue). apply wp_bind.
  eapply wp_deref; [exact Ew'|]. apply wp_bind, wp_modify.
  eapply wp_mono; [apply transmit_timers_spec; [exact Hnd|exact Hr4|exact Hst4| |exact Hmem]|].
  - intros i en Hi E. simpl in E. rewrite Forall_forall in Hr4. specialize (Hr4 i Hi).
    destruct (lookup_node st i (co_nodes _ _ _ _ _ Hst) Hr4) as [en0 E0].
    destruct (Hw _ _ E0) as (en' & E' & [Hhd _ _]). assert (en' = en) as -> by congruence.
    rewrite Hhd. by eapply Hh.
  - intros _ st5 l5 (Hst5 & Hl5 & Htr). split; [done|]. split.
    { simpl. rewrite !no_bug_app. split; [done|]. split; [done|]. by repeat (constructor; [done|]). }
    intros i en d mb Hi E Hd Hle Hpool Em.
    destruct (co_timer _ _ _ _ _ Hst _ en E) as [_ Hwk]; [apply not_elem_of_empty|].
    assert (pacer_is_triggered (tx_pacer en) = true) as Htrig.
    { apply Hwk; [apply not_elem_of_empty|]. intros En. rewrite En in Hd. by apply elem_of_nil in Hd. }
    destruct (Hw _ _ E) as (en3 & E3 & [_ Hq Hpa]). specialize (Hpa Htrig).
    assert (i ∈ fired) as Hin by (apply (Hdue i en3 Hi E3); by rewrite Hpa).
    rewrite Forall_forall in Htr. destruct (Htr i Hin en3 E3) as [en' [Hn|(pd & Htx & Hsend)]]; [done|].
    exists pd, en'. split.
    + specialize (Hsend mb Em). simpl. rewrite !calls_app. set_solver.
    + destruct (tr_reports _ _ _ _ Htx) as (qs & Hqs & _ & Etk & _). rewrite Etk, <- list_fmap_compose.
      apply list_elem_of_fmap. exists d. split; [done|].
      apply (prefix_take_elem (queued (report_queue en))); [by trans (queued (report_queue en3))|done].
Qed.
End turn.
