(* ===== verification/CommLoop.v ===== *)
(** * Framing, and runs of the main loop

    What the procedures of the communication core leave alone: the positions of
    the timer wheels move only when the expired timers are taken out, and only
    requests and resets touch the demands. Then whole runs of the loop. *)

From S2P Require Import Prelude Platform Window WindowFacts WindowSpec WindowMarks Protocol ConnFacts ConnSpec ConnAck ConnSend ConnInwnd ConnSafe Codec RoundTrip Pacer Timer.
From S2P Require Import Comm CommInv CommHandlers CommFill CommTx CommTurn.

(** Whenever [m] returns, the part [f] of the state is as before and the calls
    satisfy [P]. *)
Definition frame {T A} (f : comm_state → T) (P : comm_call → Prop) (m : C_ A) : Prop :=
  ∀ st a st' l, m st = Some (a, st', l) → f st' = f st ∧ Forall P (calls l).

Lemma run_bind {A A'} (m : C_ A) (k : A → C_ A') st b st' l : (m ≫= k) st = Some (b, st', l) →
  ∃ a st1 l1 l2, m st = Some (a, st1, l1) ∧ k a st1 = Some (b, st', l2) ∧ l = l1 ++ l2.
Proof.
  unfold mbind, M_bind. destruct (m st) as [[[a st1] l1]|]; [|done].
  destruct (k a st1) as [[[b' st2] l2]|] eqn:E; [|done]. intros [= -> -> <-]. by exists a, st1, l1, l2.
Qed.

Section rules.
Context {T : Type} (f : comm_state → T) (P : comm_call → Prop).

Lemma frame_bind {A A'} (m : C_ A) (k : A → C_ A') : frame f P m → (∀ a, frame f P (k a)) → frame f P (m ≫= k).
Proof.
  intros Hm Hk st b st' l (a & st1 & l1 & l2 & E1 & E2 & ->)%run_bind. apply Hm in E1 as [E1 H1].
  apply Hk in E2 as [E2 H2]. split; [congruence|]. rewrite calls_app. by apply Forall_app.
Qed.

Lemma frame_ret {A} (a : A) : frame f P (mret a).
Proof. by intros st b st' l [= _ -> <-]. Qed.

Lemma frame_ub {A} : @frame T A f P ub.
Proof. by intros st b st' l. Qed.

Lemma frame_get : frame f P get.
Proof. by intros st b st' l [= _ -> <-]. Qed.

Lemma frame_call c : P c → frame f P (call c).
Proof. intros Hc st b st' l [= _ -> <-]. split; [done|]. by constructor. Qed.

Lemma frame_bug_on b site : frame f P (bug_on b site).
Proof. intros st b' st' l. unfold bug_on. intros [= _ -> <-]. split; [done|]. by destruct b. Qed.

Lemma frame_deref {A} (o : option A) : frame f P (deref o).
Proof. intros st b st' l. destruct o; [|done]. by intros [= _ -> <-]. Qed.

Lemma frame_modify g : (∀ st, f (g st) = f st) → frame f P (modify g).
Proof. intros Hg st b st' l [= _ <- <-]. split; [apply Hg|constructor]. Qed.

Lemma frame_when b (m : C_ unit) : frame f P m → frame f P (when b m).
Proof. destruct b; [done|]. intros _. apply frame_ret. Qed.

Lemma frame_get_node i : frame f P (get_node i).
Proof. apply frame_bind; [apply frame_get|]. intros. apply frame_deref. Qed.
End rules.

Create HintDb frame.
#[export] Hint Resolve frame_ret frame_ub frame_get frame_call frame_bug_on frame_deref frame_when frame_get_node : frame.

Ltac frame :=
  repeat (intros; match goal with
  | |- frame _ _ (_ ≫= _) => apply frame_bind
  | |- frame _ _ (when _ _) => apply frame_when
  | |- frame _ _ (if ?b then _ else _) => destruct b
  | |- frame _ _ (match ?p with _ => _ end) => destruct p
  | |- frame _ _ (let _ := _ in _) => cbv zeta
  | |- frame _ _ _ => solve [eauto with frame]
  end).

(** ** Positions of the wheels *)
Definition positions (st : comm_state) : Z * Z :=
  (Timer.head (timeout_timers st), Timer.head (tx_timers st)).

Abbreviation keeps := (frame positions (λ _, True)).

Lemma keeps_upd_node i f : keeps (upd_node i f).
Proof. by apply frame_modify. Qed.

Lemma keeps_stop i : keeps (modify (λ st, set_timeout_timers (fp_timer_stop i (timeout_timers st)) st)).
Proof. apply frame_modify. intros st. unfold positions, fp_timer_stop. simpl. by destruct (_ =? _). Qed.

Lemma keeps_reset i t : keeps (modify (λ st, set_timeout_timers (fp_timer_reset i t (timeout_timers st)) st)).
Proof. by apply frame_modify. Qed.

Lemma keeps_reset_tx i t : keeps (modify (λ st, set_tx_timers (fp_timer_reset i t (tx_timers st)) st)).
Proof. by apply frame_modify. Qed.

Lemma keeps_latest x : keeps (modify (set_latest_timeslot x)).
Proof. by apply frame_modify. Qed.

Lemma keeps_enc x : keeps (modify (set_alloc_enc_space x)).
Proof. by apply frame_modify. Qed.

#[export] Hint Resolve keeps_upd_node keeps_stop keeps_reset keeps_reset_tx keeps_latest keeps_enc : frame.

Section keeps.
Context (B : build) (fwrapv : bool) `{H : HashOps} (now : Z).

Lemma keeps_trigger_request i : keeps (trigger_request now i).
Proof. unfold trigger_request. frame. Qed.
#[local] Hint Resolve keeps_trigger_request : frame.

Lemma keeps_trigger_report i d : keeps (trigger_report now i d).
Proof. unfold trigger_report. frame. Qed.
#[local] Hint Resolve keeps_trigger_report : frame.

Lemma keeps_repeat_backlog i k : ∀ dst id data, keeps (repeat_backlog i k dst id data).
Proof. induction k; simpl; frame. Qed.
#[local] Hint Resolve keeps_repeat_backlog : frame.

Lemma keeps_areq_loop i k : ∀ pkt j c d, keeps (areq_loop B fwrapv i k pkt j c d).
Proof. induction k; simpl; unfold add_demand; frame. Qed.

Lemma keeps_requeue_loop i k : ∀ pd j, keeps (requeue_loop i k pd j).
Proof. induction k; simpl; frame. Qed.

Lemma keeps_report_dsts i ds : keeps (report_dsts now i ds).
Proof. induction ds; simpl; frame. Qed.

Lemma keeps_neg_ack_loop i l : keeps (neg_ack_loop fwrapv now i l).
Proof. induction l; simpl; frame. Qed.

Lemma keeps_ack_allocs_loop i k : ∀ pd j, keeps (ack_allocs_loop i k pd j).
Proof. induction k; simpl; frame. Qed.

Lemma keeps_ack_areqs_loop i l : keeps (ack_areqs_loop fwrapv i l).
Proof. induction l; simpl; frame. Qed.
#[local] Hint Resolve keeps_areq_loop keeps_requeue_loop keeps_report_dsts keeps_neg_ack_loop
  keeps_ack_allocs_loop keeps_ack_areqs_loop : frame.

Lemma keeps_dispatch i c : keeps (dispatch B fwrapv now i c).
Proof.
  destruct c; simpl; unfold handle_reset, handle_ack, handle_neg_ack, handle_skipped_ack, handle_areq,
    set_retrans_timer, cancel_retrans_timer; frame.
Qed.
#[local] Hint Resolve keeps_dispatch : frame.

Lemma keeps_dispatch_all i l : keeps (dispatch_all B fwrapv now i l).
Proof. induction l as [|[c|s] l IH]; simpl; frame. Qed.
#[local] Hint Resolve keeps_dispatch_all : frame.

Lemma keeps_on_conn {A} i (m : P A) : keeps (on_conn B fwrapv now i m).
Proof. unfold on_conn. frame. Qed.
#[local] Hint Resolve keeps_on_conn : frame.

Lemma keeps_comm_rx addr buf len : keeps (comm_rx B fwrapv now addr buf len).
Proof. unfold comm_rx. frame. Qed.

Lemma keeps_admitted_loop t es : keeps (admitted_loop B now t es).
Proof. induction es; simpl; frame. Qed.
#[local] Hint Resolve keeps_admitted_loop : frame.

Lemma keeps_one_q q : keeps (process_allocated_traffic_one_q B now q).
Proof. induction q; simpl; frame. Qed.
#[local] Hint Resolve keeps_one_q : frame.

Lemma keeps_process_allocated qs : keeps (process_allocated_traffic B now qs).
Proof. induction qs; simpl; frame. Qed.

Lemma keeps_report_loop i fuel : ∀ l n, keeps (report_loop i fuel l n).
Proof. induction fuel; simpl; frame. Qed.

Lemma keeps_next_alloc i fuel : ∀ x, keeps (next_alloc B i fuel x).
Proof. induction fuel; simpl; frame. Qed.

Lemma keeps_cleanup_loop ds : keeps (cleanup_loop ds).
Proof. induction ds; simpl; frame. Qed.
#[local] Hint Resolve keeps_report_loop keeps_next_alloc keeps_cleanup_loop : frame.

Lemma keeps_tx_end_node i pool m : keeps (tx_end_node B fwrapv now i pool m).
Proof. unfold tx_end_node, fill_packet_alloc, fill_packet_report. frame. Qed.
#[local] Hint Resolve keeps_tx_end_node : frame.

Lemma keeps_retrans_timers lst : keeps (retrans_timers B fwrapv now lst).
Proof. induction lst; simpl; frame. Qed.

Lemma keeps_transmit_timers mem lst : keeps (transmit_timers B fwrapv now mem lst).
Proof. induction lst; simpl; frame. Qed.
End keeps.

Lemma wp_keeps {A} (m : C_ A) Q st : keeps m → wp m Q st →
  wp m (λ a st' l, Q a st' l ∧ positions st' = positions st) st.
Proof.
  intros Hm. unfold wp. destruct (m st) as [[[a st'] l]|] eqn:E; [|done].
  intros HQ. split; [done|by eapply Hm].
Qed.

(** ** Signed differences *)

(** [m0] is [m], unless it is undefined. *)
Definition up_to_overflow {A} (m0 m : C_ A) : Prop := ∀ st, m0 st = None ∨ m0 st = m st.

Lemma up_to_refl {A} (m : C_ A) : up_to_overflow m m.
Proof. intros st. by right. Qed.

Lemma up_to_bind {A A'} (m0 m : C_ A) (k0 k : A → C_ A') :
  up_to_overflow m0 m → (∀ a, up_to_overflow (k0 a) (k a)) → up_to_overflow (m0 ≫= k0) (m ≫= k).
Proof.
  intros Hm Hk st. unfold mbind, M_bind. destruct (Hm st) as [->|E]; [by left|]. rewrite E.
  destruct (m st) as [[[a st1] l]|]; [|by right]. destruct (Hk a st1) as [->|E1]; [by left|]. rewrite E1. by right.
Qed.

Lemma up_to_when b (m0 m : C_ unit) : up_to_overflow m0 m → up_to_overflow (when b m0) (when b m).
Proof. destruct b; [done|]. intros _. apply up_to_refl. Qed.

Lemma up_to_diff fwrapv a b : up_to_overflow (deref (diff32 fwrapv a b)) (deref (diff32 true a b)).
Proof.
  unfold diff32. destruct (_ && _); [apply up_to_refl|]. destruct fwrapv; [apply up_to_refl|]. intros st. by left.
Qed.

Create HintDb upto discriminated.
#[export] Hint Resolve up_to_diff : upto.

Ltac up_to :=
  repeat (intros; match goal with
  | |- up_to_overflow ?m0 ?m => constr_eq m0 m; apply up_to_refl
  | |- up_to_overflow _ _ => solve [auto 1 with upto nocore]
  | |- up_to_overflow (_ ≫= _) _ => apply up_to_bind
  | |- up_to_overflow (when _ _) _ => apply up_to_when
  | |- up_to_overflow (if ?b then _ else _) _ => destruct b
  | |- up_to_overflow (match ?p with _ => _ end) _ => destruct p
  | |- up_to_overflow (let _ := _ in _) _ => cbv zeta
  end).

Section overflow.
Context (B : build) (fwrapv : bool) `{H : HashOps} (now : Z).

Lemma up_to_areq_loop i k : ∀ pkt j c d, up_to_overflow (areq_loop B fwrapv i k pkt j c d) (areq_loop B true i k pkt j c d).
Proof. induction k; simpl; up_to. Qed.

Lemma up_to_neg_ack_loop i l : up_to_overflow (neg_ack_loop fwrapv now i l) (neg_ack_loop true now i l).
Proof. induction l; simpl; up_to. Qed.

Lemma up_to_ack_areqs_loop i l : up_to_overflow (ack_areqs_loop fwrapv i l) (ack_areqs_loop true i l).
Proof. induction l; simpl; up_to. Qed.
#[local] Hint Resolve up_to_areq_loop up_to_neg_ack_loop up_to_ack_areqs_loop : upto.

Lemma up_to_dispatch i c : up_to_overflow (dispatch B fwrapv now i c) (dispatch B true now i c).
Proof. destruct c; simpl; unfold handle_ack, handle_neg_ack, handle_areq; up_to. Qed.
#[local] Hint Resolve up_to_dispatch : upto.

Lemma up_to_dispatch_all i l : up_to_overflow (dispatch_all B fwrapv now i l) (dispatch_all B true now i l).
Proof. induction l as [|[c|s] l IH]; simpl; up_to. Qed.
#[local] Hint Resolve up_to_dispatch_all : upto.

Lemma up_to_on_conn {A} i (m : P A) : up_to_overflow (on_conn B fwrapv now i m) (on_conn B true now i m).
Proof. unfold on_conn. up_to. Qed.
#[local] Hint Resolve up_to_on_conn : upto.

Lemma up_to_comm_rx addr buf len : up_to_overflow (comm_rx B fwrapv now addr buf len) (comm_rx B true now addr buf len).
Proof. unfold comm_rx. up_to. Qed.

Lemma up_to_tx_end_node i pool m : up_to_overflow (tx_end_node B fwrapv now i pool m) (tx_end_node B true now i pool m).
Proof. unfold tx_end_node. up_to. Qed.
#[local] Hint Resolve up_to_comm_rx up_to_tx_end_node : upto.

Lemma up_to_retrans_timers lst : up_to_overflow (retrans_timers B fwrapv now lst) (retrans_timers B true now lst).
Proof. induction lst; simpl; up_to. Qed.

Lemma up_to_transmit_timers mem lst : up_to_overflow (transmit_timers B fwrapv now mem lst) (transmit_timers B true now mem lst).
Proof. induction lst; simpl; up_to. Qed.
End overflow.

Section overflow_turn.
Context (B : build) (fwrapv : bool) `{H : HashOps}.
#[local] Hint Resolve up_to_comm_rx up_to_retrans_timers up_to_transmit_timers : upto.

Lemma up_to_until_deadline dl pkts : ∀ saw,
  up_to_overflow (rx_until_deadline B fwrapv dl pkts saw) (rx_until_deadline B true dl pkts saw).
Proof. induction pkts; simpl; up_to. Qed.

Lemma up_to_remaining pkts : ∀ saw, up_to_overflow (rx_remaining B fwrapv pkts saw) (rx_remaining B true pkts saw).
Proof. induction pkts; simpl; up_to. Qed.
#[local] Hint Resolve up_to_until_deadline up_to_remaining : upto.

Lemma up_to_do_rx_burst dl pkts : up_to_overflow (do_rx_burst B fwrapv dl pkts) (do_rx_burst B true dl pkts).
Proof. unfold do_rx_burst. up_to. Qed.

Lemma up_to_comm_turn t : up_to_overflow (comm_turn B fwrapv t) (comm_turn B true t).
Proof. unfold comm_turn. up_to. Qed.
End overflow_turn.

(** ** Demands *)
Definition all_demands (st : comm_state) : list (list Z) := demands <$> end_nodes st.

(** Calls that do not change the demand in the allocator. *)
Definition no_demand (c : comm_call) : Prop :=
  match c with AddBacklog _ _ _ _ _ | ResetSender _ => False | _ => True end.

Abbreviation keeps_demand := (frame all_demands no_demand).

Lemma demand_upd_node i f : (∀ en, demands (f en) = demands en) → keeps_demand (upd_node i f).
Proof.
  intros Hf. apply frame_modify. intros st. unfold all_demands. simpl.
  apply list_eq. intros j. rewrite !list_lookup_fmap.
  destruct (decide (j = Z.to_nat i)) as [->|Hj]; [|by rewrite list_lookup_alter_ne].
  rewrite list_lookup_alter_eq. destruct (end_nodes st !! Z.to_nat i); simpl; [by rewrite Hf|done].
Qed.

Lemma demand_timeouts (f : comm_state → fp_timers) : keeps_demand (modify (λ st, set_timeout_timers (f st) st)).
Proof. by apply frame_modify. Qed.

Lemma demand_tx (f : comm_state → fp_timers) : keeps_demand (modify (λ st, set_tx_timers (f st) st)).
Proof. by apply frame_modify. Qed.

#[export] Hint Resolve demand_timeouts demand_tx : frame.
#[export] Hint Extern 1 (frame all_demands _ (upd_node _ _)) => (by apply demand_upd_node) : frame.
#[export] Hint Extern 1 (frame all_demands _ (call _)) => (by apply frame_call) : frame.

Section demand.
Context (B : build) (fwrapv : bool) (now i : Z).

Lemma demand_trigger_request : keeps_demand (trigger_request now i).
Proof. unfold trigger_request. frame. Qed.
#[local] Hint Resolve demand_trigger_request : frame.

Lemma demand_trigger_report d : keeps_demand (trigger_report now i d).
Proof. unfold trigger_report. frame. Qed.
#[local] Hint Resolve demand_trigger_report : frame.

Lemma demand_requeue_loop k : ∀ pd j, keeps_demand (requeue_loop i k pd j).
Proof. induction k; simpl; frame. Qed.

Lemma demand_report_dsts ds : keeps_demand (report_dsts now i ds).
Proof. induction ds; simpl; frame. Qed.

Lemma demand_ack_allocs_loop k : ∀ pd j, keeps_demand (ack_allocs_loop i k pd j).
Proof. induction k; simpl; frame. Qed.

Lemma demand_ack_areqs_loop l : keeps_demand (ack_areqs_loop fwrapv i l).
Proof. induction l; simpl; frame. Qed.
#[local] Hint Resolve demand_requeue_loop demand_report_dsts demand_ack_allocs_loop demand_ack_areqs_loop : frame.

Lemma demand_dispatch_ack l : Forall (λ k, ack_call k = true) (calls l) →
  keeps_demand (dispatch_all B fwrapv now i l).
Proof.
  induction l as [|[s|c] l IH]; intros Hl; cbn [dispatch_all]; [frame| |].
  - apply frame_bind; [frame|]. intros _. by apply IH.
  - apply Forall_cons in Hl as [Hc Hl]. apply frame_bind; [|intros _; by apply IH].
    destruct c; try done; simpl; unfold handle_ack, handle_skipped_ack, set_retrans_timer, cancel_retrans_timer; frame.
Qed.
End demand.

(** ** Runs of the communication core

    The invariant of one turn carries over to the next as time passes. A run is a
    sequence of bursts and turns of the main loop from the initial state. *)
(** ** A burst of packets *)
Section loop.
Context (B : build) `{H : HashOps}.
Hypothesis (Hctl : IS_ENDPOINT B = false) (Hdata : reads_areq_data B = false)
  (Hbytes : 0 ≤ emu_alloc_data_bytes B ≤ 2).

(** The loop reaches the packets in order, from time [clk] to time [t]. *)
Fixpoint in_order (clk : Z) (pkts : list rx_mbuf) (t : Z) : Prop :=
  match pkts with
  | [] => clk ≤ t
  | p :: pkts' => clk ≤ rx_now p ∧ in_order (rx_now p) pkts' t
  end.

(** The loop takes the expired timers out of the wheels often enough. *)
Definition in_reach (t : Z) (pos : Z * Z) : Prop :=
  0 ≤ t < 2 ^ 62 ∧ t / TIMER_GRANULARITY < pos.1 + 100 * MAX_TIMER_SLOTS ∧
  t / TIMER_GRANULARITY < pos.2 + 100 * MAX_TIMER_SLOTS.

Lemma in_order_le clk pkts t : in_order clk pkts t → clk ≤ t.
Proof using. revert clk. induction pkts as [|p pkts IH]; simpl; intros clk Ho; [done|]. destruct Ho as [? ?%IH]. lia. Qed.

Lemma in_order_app clk l1 l2 t : in_order clk (l1 ++ l2) t → ∃ t1, in_order clk l1 t1 ∧ in_order t1 l2 t.
Proof using.
  revert clk. induction l1 as [|p l1 IH]; simpl; intros clk Ho; [exists clk; done|].
  destruct Ho as [? (t1 & ? & ?)%IH]. by exists t1.
Qed.

Lemma in_reach_le t t' pos : 0 ≤ t ≤ t' → in_reach t' pos → in_reach t pos.
Proof using.
  intros Ht (? & ? & ?). pose proof (Z.div_le_mono t t' TIMER_GRANULARITY ltac:(done) ltac:(lia)).
  unfold in_reach. lia.
Qed.

Lemma pacer_clk clk X Y st : comm_ok B clk X Y st → 0 ≤ clk.
Proof using.
  intros Hst. destruct (lookup_node st 0 (co_nodes _ _ _ _ _ Hst) ltac:(lia)) as [en E].
  destruct (co_node _ _ _ _ _ Hst _ _ E) as [_ [? ? ? ? ?]]. lia.
Qed.

Lemma comm_ok_later clk t st : clk ≤ t → in_reach t (positions st) → comm_ok B clk ∅ ∅ st → comm_ok B t ∅ ∅ st.
Proof using.
  intros Ht (? & H1 & H2) Hst. destruct (co_ticks _ _ _ _ _ Hst) as [[? _] [? _]].
  pose proof (Z.div_le_mono clk t TIMER_GRANULARITY ltac:(done) Ht). simpl in *.
  apply (comm_ok_clock B clk); [lia|unfold timely; lia..|done].
Qed.

(** What a burst does, from time [clk] to time [t]. *)
Definition burst_safe {A} (clk t : Z) (m : C_ A) : Prop := ∀ st, comm_ok B clk ∅ ∅ st → in_reach t (positions st) →
  wp m (λ _ st' l, comm_ok B t ∅ ∅ st' ∧ no_bug l ∧ positions st' = positions st) st.

Lemma burst_bind {A A'} clk t1 t (m : C_ A) (k : A → C_ A') : clk ≤ t1 ≤ t →
  burst_safe clk t1 m → (∀ a, burst_safe t1 t (k a)) → burst_safe clk t (m ≫= k).
Proof using.
  intros Ht Hm Hk st Hst Hr. apply wp_bind. pose proof (pacer_clk _ _ _ _ Hst).
  eapply wp_mono; [apply Hm; [done|by eapply in_reach_le; [|exact Hr]; lia]|]. intros a st1 l1 (Hst1 & Hl1 & E1).
  eapply wp_mono; [apply Hk; [done|by rewrite E1]|]. intros b st2 l2 (Hst2 & Hl2 & E2).
  split; [done|]. split; [by apply no_bug_app|congruence].
Qed.

Lemma burst_ret {A} clk t (a : A) : clk ≤ t → burst_safe clk t (mret a).
Proof using.
  intros Ht st Hst Hr. apply wp_ret. split; [by eapply comm_ok_later|]. split; [apply no_bug_nil|done].
Qed.

Lemma burst_call clk t c : clk ≤ t → burst_safe clk t (call c).
Proof using.
  intros Ht st Hst Hr. apply wp_call. split; [by eapply comm_ok_later|]. split; [by repeat constructor|done].
Qed.

Lemma burst_rx clk p : clk ≤ rx_now p → rx_ok B p →
  burst_safe clk (rx_now p) (comm_rx B true (rx_now p) (rx_addr p) (rx_buf p) (rx_len p)).
Proof using Hctl Hdata.
  intros Ht [Hb Hroom] st Hst Hr. eapply wp_mono; [apply wp_keeps; [apply keeps_comm_rx|]|].
  - apply (comm_rx_safe B Hctl Hdata); [done|done|]. by eapply comm_ok_later.
  - intros a st' l [[? ?] ?]. done.
Qed.

Lemma burst_until_deadline dl pkts : ∀ clk t saw, Forall (rx_ok B) pkts → in_order clk pkts t →
  burst_safe clk t (rx_until_deadline B true dl pkts saw).
Proof using Hctl Hdata.
  induction pkts as [|p pkts IH]; intros clk t saw Hb Ho; cbn [rx_until_deadline]; [by apply burst_ret|].
  apply Forall_cons in Hb as [Hp Hb]. destruct Ho as [Hc Ho]. pose proof (in_order_le _ _ _ Ho).
  destruct (_ <? _); (eapply burst_bind; [split; [exact Hc|done]| |]).
  - by apply burst_rx.
  - intros []; [by apply IH..|by apply burst_ret].
  - by apply burst_call.
  - intros _. by apply IH.
Qed.

Lemma burst_remaining pkts : ∀ clk t saw, Forall (rx_ok B) pkts → in_order clk pkts t →
  burst_safe clk t (rx_remaining B true pkts saw).
Proof using Hctl Hdata.
  induction pkts as [|p pkts IH]; intros clk t saw Hb Ho; cbn [rx_remaining]; [by apply burst_ret|].
  apply Forall_cons in Hb as [Hp Hb]. destruct Ho as [Hc Ho]. pose proof (in_order_le _ _ _ Ho).
  destruct saw.
  { apply IH; [done|]. destruct pkts; simpl in *; [lia|]. split; [lia|apply Ho]. }
  eapply burst_bind; [split; [exact Hc|done]|by apply burst_rx|].
  intros []; [by apply IH..|by apply burst_ret].
Qed.

Lemma burst_do_rx clk t dl pkts : Forall (rx_ok B) pkts → in_order clk pkts t →
  burst_safe clk t (do_rx_burst B true dl pkts).
Proof using Hctl Hdata.
  intros Hb Ho. unfold do_rx_burst. set (n := Z.to_nat _). rewrite <- (take_drop n pkts) in Hb, Ho.
  apply Forall_app in Hb as [Hb1 Hb2]. apply in_order_app in Ho as (t1 & Ho1 & Ho2).
  pose proof (in_order_le _ _ _ Ho1). pose proof (in_order_le _ _ _ Ho2).
  eapply burst_bind; [split; [exact H0|done]|by apply burst_until_deadline|].
  intros [saw|]; [by apply burst_remaining|by apply burst_ret].
Qed.

(** ** A turn *)
Lemma get_expired_head now w l w' ex : fp_timer_get_expired now w l = Some (w', ex) →
  Timer.head w' = now / TIMER_GRANULARITY.
Proof using.
  unfold fp_timer_get_expired. destruct (_ <? _); [|done]. intros E.
  apply bind_Some in E as ([w1 l1] & _ & [= <- _]). done.
Qed.

Lemma turn_positions t st a st' l : comm_turn B true t st = Some (a, st', l) →
  positions st' = (t_now t / TIMER_GRANULARITY, t_now t / TIMER_GRANULARITY).
Proof using.
  unfold comm_turn. intros (st0 & st1 & ? & l1 & [= <- <-] & E & _)%run_bind.
  apply run_bind in E as ([w lst] & st2 & ? & l2 & E2 & E & _).
  destruct (fp_timer_get_expired _ (timeout_timers st) []) as [p|] eqn:Ew; [|done]. injection E2 as -> <- _.
  apply run_bind in E as (? & st3 & ? & l3 & [= _ <- _] & E & _).
  apply run_bind in E as (? & st4 & ? & l4 & [E4 _]%keeps_retrans_timers & E & _).
  apply run_bind in E as (? & st5 & ? & l5 & [E5 _]%keeps_process_allocated & E & _).
  apply run_bind in E as (? & st6 & ? & l6 & [= _ <- _] & E & _).
  apply run_bind in E as (? & st7 & ? & l7 & [= _ <- _] & E & _).
  apply run_bind in E as (? & ? & ? & l8 & [= <- <- _] & E & _).
  apply run_bind in E as ([w' lst'] & st9 & ? & l9 & E9 & E & _).
  destruct (fp_timer_get_expired _ (tx_timers st5) []) as [p|] eqn:Ew'; [|done]. injection E9 as -> <- _.
  apply run_bind in E as (? & st10 & ? & l10 & [= _ <- _] & [E _]%keeps_transmit_timers & _).
  rewrite E. apply get_expired_head in Ew, Ew'. unfold positions in *. simpl in *.
  rewrite Ew'. rewrite E4 in E5. rewrite Ew in E5. by injection E5 as -> _.
Qed.

(** ** Runs *)

(** Events of the main loop, from the initial state. [t] is the time at the end
    of a burst. *)
Inductive run (st0 : comm_state) (clk0 : Z) : Z → comm_state → Prop :=
| run_start : run st0 clk0 clk0 st0
| run_burst clk st dl pkts t r st' l :
    run st0 clk0 clk st → Forall (rx_ok B) pkts → in_order clk pkts t → in_reach t (positions st) →
    do_rx_burst B true dl pkts st = Some (r, st', l) → run st0 clk0 t st'
| run_turn clk st t st' l :
    run st0 clk0 clk st → clk ≤ t_now t → in_reach (t_now t) (positions st) → turn_ok B t → heads_ok st →
    comm_turn B true t st = Some (tt, st', l) → run st0 clk0 (t_now t) st'.

Lemma turn_safe clk t st : comm_ok B clk ∅ ∅ st → clk ≤ t_now t → in_reach (t_now t) (positions st) →
  turn_ok B t → heads_ok st →
  wp (comm_turn B true t) (λ _ st' l, comm_ok B (t_now t) ∅ ∅ st' ∧ no_bug l ∧ delivers B t l st) st.
Proof using Hctl Hdata Hbytes.
  intros Hst Ht Hr Htok Hh. apply comm_turn_spec; try done; [apply Hr|by eapply comm_ok_later].
Qed.

Lemma run_ok st0 clk0 clk st : comm_ok B clk0 ∅ ∅ st0 → run st0 clk0 clk st → comm_ok B clk ∅ ∅ st.
Proof using Hctl Hdata Hbytes.
  intros H0. induction 1 as [|clk st dl pkts t r st' l _ IH Hb Ho Hr E|clk st t st' l _ IH Ht Hr Htok Hh E]; [done| |].
  - pose proof (burst_do_rx clk t dl pkts Hb Ho st IH Hr) as Hw. unfold wp in Hw. by rewrite E in Hw; destruct Hw.
  - pose proof (turn_safe clk t st IH Ht Hr Htok Hh) as Hw. unfold wp in Hw. by rewrite E in Hw; destruct Hw.
Qed.

(** ** The initial state *)
Record config_ok (now send_cost max_burst min_trigger_gap : Z) : Prop := {
  cf_cost : 0 < send_cost ≤ max_burst;
  cf_burst : max_burst < 2 ^ 32 ∧ max_burst ≤ now;
  cf_gap : 0 ≤ min_trigger_gap < 2 ^ 32;
  cf_now : now < 2 ^ 62;
}.

Lemma wheel_ok_init now : 0 ≤ now < 2 ^ 62 → wheel_ok (fp_init_timers now).
Proof using.
  intros Hn. assert (∀ tim, time_of (fp_init_timers now) tim = TIMER_NOT_SET_TIME) as Ht.
  { intros tim. unfold time_of, fp_init_timers. simpl. by rewrite lookup_empty. }
  assert (∀ s, 0 ≤ s < 1024 → arr_get (slots (fp_init_timers now)) s = []) as Hs.
  { intros s Hs. apply (lookup_total_replicate_2 1024 ([] : list Z) (Z.to_nat s)). lia. }
  constructor; unfold armed; simpl.
  - done.
  - unfold TIMER_GRANULARITY. zify_div. lia.
  - intros s Hr. rewrite Hs by done. constructor.
  - intros tim. by rewrite Ht.
  - intros tim s Hr. rewrite Hs, Ht by done. split; [by intros ?%elem_of_nil|by intros [? _]].
Qed.

Lemma comm_init_ok start cost burst gap now slot : conn_ok start → ops start = proto_ops →
  (∀ s, out_pd start s = None) → config_ok now cost burst gap →
  comm_ok B now ∅ ∅ (comm_init start now cost burst gap slot).
Proof using.
  intros Hc Hops Hpd [? ? ? ?]. assert (0 ≤ now < 2 ^ 62) as Hn by lia.
  pose proof (wheel_ok_init now Hn) as Hw.
  assert (∀ tim, time_of (fp_init_timers now) tim = TIMER_NOT_SET_TIME) as Ht.
  { intros tim. unfold time_of, fp_init_timers. simpl. by rewrite lookup_empty. }
  destruct (rq_ok_empty (replicate 512 0) (length_replicate _ _)) as [Hq Eq].
  assert (Hlook : ∀ i en, end_nodes (comm_init start now cost burst gap slot) !! i = Some en →
    en = init_end_node start now cost burst gap) by (intros i en [? _]%lookup_replicate; done).
  assert (timely now (fp_init_timers now)) as Htm by (unfold timely; simpl; change MAX_TIMER_SLOTS with 1024; lia).
  constructor; try done.
  - intros i en ->%Hlook. split.
    + constructor; try done; [simpl; intros s pd; by rewrite Hpd|].
      constructor; try done; apply Forall_replicate; simpl; [lia|done].
    + constructor; simpl; try done; [lia..|]. rewrite u64_small by lia. lia.
  - intros i en ->%Hlook _. split; [simpl; unfold timer_ok; simpl; apply Ht|]. intros _ Hne. by destruct Hne.
  - intros x [Hx|Hx]; unfold armed in Hx; simpl in Hx; by rewrite Ht in Hx.
Qed.

(** The connections that [fpproto_init_conn] makes. *)
Lemma init_conn_fresh now rw st : wp (fpproto_init_conn B now proto_ops rw st) (λ _ c l,
  conn_ok c ∧ ops c = proto_ops ∧ (∀ s, out_pd c s = None)) (zero_conn proto_ops 0 0).
Proof using.
  eapply wp_mono; [by apply init_spec; [apply out_wf_zero|]|].
  intros _ c l (Hc & Hr & _ & Ho & _). split; [done|]. split; [done|]. intros s. unfold out_pd.
  rewrite decide_False; [done|]. rewrite (ir_empty _ _ _ _ Hr). apply not_elem_of_empty.
Qed.
End loop.
