(* ===== verification/CommDemand.v ===== *)
(** * Requests and reports

    An A-REQ payload carries the low 16 bits of the totals that the end node has
    requested so far. [handle_areq] recovers the totals and hands exactly the
    increases to the allocator. Then acknowledged and lost reports. *)

From S2P Require Import Prelude Platform Window WindowFacts WindowSpec WindowMarks Protocol ConnFacts ConnSpec ConnAck ConnSend ConnInwnd ConnSafe Codec RoundTrip Pacer Timer.
From S2P Require Import Comm CommInv CommHandlers.

(** ** Abstract specification *)

(** The total requested to each destination, unbounded. *)
Definition totals := Z → Z.
Definition raise (D : totals) (d t : Z) : totals := λ x, if decide (x = d) then D d `max` t else D x.

(** The increases that requests for the totals [(d, t)] make, with the totals
    before them. *)
Fixpoint increases (D : totals) (reqs : list (Z * Z)) : list (Z * Z * Z) :=
  match reqs with
  | [] => []
  | (d, t) :: reqs' => (if D d <? t then [(d, D d, t)] else []) ++ increases (raise D d t) reqs'
  end.

Definition raise_all (D : totals) (reqs : list (Z * Z)) : totals := foldl (λ D r, raise D r.1 r.2) D reqs.

(** The totals are within [b] of the known ones, close enough to be told from
    their low bits. *)
Fixpoint near (b : Z) (D : totals) (reqs : list (Z * Z)) : Prop :=
  match reqs with
  | [] => True
  | (d, t) :: reqs' => D d - b ≤ t < D d + b ∧ near b (raise D d t) reqs'
  end.

(** The demands of a node stand for the totals. *)
Definition tracks (dem : list Z) (D : totals) : Prop :=
  length dem = 256%nat ∧ ∀ d, 0 ≤ d < 256 → arr_get dem d = u32 (D d).

Lemma tracks_lookup dem D d : tracks dem D → 0 ≤ d < 256 → dem !! Z.to_nat d = Some (u32 (D d)).
Proof.
  intros [Hl Ht] Hd. destruct (lookup_lt_is_Some_2 dem (Z.to_nat d)) as [v Hv]; [lia|].
  rewrite <- (Ht d Hd). unfold arr_get. by rewrite Hv, (list_lookup_total_correct _ _ _ Hv).
Qed.

Lemma tracks_raise dem D d t : tracks dem D → 0 ≤ d < 256 → D d < t →
  tracks (arr_set dem d (u32 t)) (raise D d t).
Proof.
  intros [Hl Ht] Hd Hlt. split; [by rewrite length_arr_set|]. intros x Hx. rewrite arr_get_set by lia.
  unfold raise. destruct (decide (d = x)) as [->|]; [|rewrite decide_False by done; by apply Ht].
  rewrite decide_True by done. f_equal. lia.
Qed.

Lemma tracks_ext dem D D' : (∀ x, D x = D' x) → tracks dem D → tracks dem D'.
Proof. intros HD [Hl Ht]. split; [done|]. intros x Hx. rewrite <- HD. by apply Ht. Qed.

(** ** Decoding *)
Lemma expand_demand_exact D t : D - 2 ^ 15 ≤ t < D + 2 ^ 15 → expand_demand (u32 D) (u16 t) = u32 t.
Proof.
  intros Ht. unfold expand_demand. change 0xFFFF with (Z.ones 16). rewrite Z.land_ones by lia. mlia.
Qed.

Lemma diff32_true a b : diff32 true a b = Some (s32 (a - b)).
Proof.
  unfold diff32. assert (s32 (s32 a - s32 b) = s32 (a - b)) as E by mlia.
  destruct (_ && _) eqn:Eb; [|by rewrite E]. apply andb_prop in Eb as [?%Z.leb_le ?%Z.ltb_lt].
  rewrite <- E. f_equal. mlia.
Qed.

Lemma diff32_exact D t : D - 2 ^ 31 ≤ t < D + 2 ^ 31 → diff32 true (u32 t) (u32 D) = Some (t - D).
Proof. intros Ht. rewrite diff32_true. f_equal. mlia. Qed.

Lemma ld16_drop (pkt : list Z) n o : 0 ≤ o → ld16 (drop n pkt) o = ld16 pkt (Z.of_nat n + o).
Proof.
  intros Ho. unfold ld16, ld8. rewrite !(proj2 (Z.ltb_ge _ 0)) by lia. rewrite !lookup_drop.
  by replace (n + Z.to_nat o)%nat with (Z.to_nat (Z.of_nat n + o)) by lia;
    replace (n + Z.to_nat (o + 1))%nat with (Z.to_nat (Z.of_nat n + o + 1)) by lia.
Qed.

Lemma areq_entries_at k pkt j d c rest : 0 ≤ j →
  areq_entries (S k) (drop (Z.to_nat (4 * j)) pkt) = Some ((d, c) :: rest) →
  ld16 pkt (4 * j) = Some d ∧ ld16 pkt (4 * j + 2) = Some c ∧
  areq_entries k (drop (Z.to_nat (4 * (j + 1))) pkt) = Some rest.
Proof.
  intros Hj E. cbn [areq_entries] in E. rewrite !ld16_drop, Z2Nat.id, Z.add_0_r, drop_drop in E by lia.
  apply bind_Some in E as (? & E1 & E). apply bind_Some in E as (? & E2 & E).
  apply bind_Some in E as (? & E3 & [= -> -> ->]). split; [done|]. split; [done|].
  rewrite <- E3. f_equal. f_equal. lia.
Qed.

(** ** The handler *)
Section demand.
Context (B : build) (clk i : Z).
Hypothesis (Hctl : IS_ENDPOINT B = false) (Hdata : reads_areq_data B = false) (Hi : 0 ≤ i < 64).

(** The call of [add_backlog] for an increase; the data of the requests starts at
    [data]. *)
Definition backlog_call (pkt : list Z) (data : Z) (r : Z * Z * Z) : comm_call :=
  let '(d, D, t) := r in
  if EMULATION_ALGO B then AddBacklog i d (t - D) (u16 D) (Some (drop (Z.to_nat data) pkt))
  else AddBacklog i d (t - D) 0 None.

Lemma add_demand_spec pkt d D t counts data st :
  (EMULATION_ALGO B = true → 0 ≤ counts < Z.of_nat (length pkt)) →
  wp (add_demand B i pkt d (u32 D) (t - D) counts data) (λ r st' l,
    (EMULATION_ALGO B = true → r.1 = counts + 1) ∧ r.2 = data ∧ st' = st ∧ l = [EvCall (backlog_call pkt data (d, D, t))]) st.
Proof using Hctl Hdata Hi.
  intros Hc. unfold add_demand, backlog_call, reads_areq_data in *. rewrite Hctl in Hdata.
  destruct (EMULATION_ALGO B); [|by repeat (apply wp_bind || apply wp_call || apply wp_ret)].
  simpl in Hdata. apply negb_false_iff, Z.eqb_eq in Hdata. destruct (ld8_some pkt counts) as [c Ec]; [specialize (Hc eq_refl); lia|].
  apply wp_bind. eapply wp_deref; [exact Ec|]. rewrite Hdata. apply wp_bind. simpl andb. cbv iota.
  apply wp_ret, wp_bind, wp_call, wp_ret. simpl. split; [done|]. split; [lia|]. split; [done|].
  change 0xFFFF with (Z.ones 16). rewrite Z.land_ones by lia. do 4 f_equal. mlia.
Qed.

Definition with_demands (st : comm_state) (en : end_node_state) (dem : list Z) : comm_state :=
  set_end_nodes (<[Z.to_nat i := set_demands dem en]> (end_nodes st)) st.

Lemma areq_loop_spec pkt k : ∀ j counts data st en D reqs, 0 ≤ j →
  end_nodes st !! Z.to_nat i = Some en → tracks (demands en) D → near (2 ^ 15) D reqs →
  Forall (λ r, 0 ≤ r.1 < 64) reqs →
  (EMULATION_ALGO B = true → 0 ≤ counts ∧ counts + Z.of_nat k ≤ Z.of_nat (length pkt)) →
  areq_entries k (drop (Z.to_nat (4 * j)) pkt) = Some ((λ r, (r.1, u16 r.2)) <$> reqs) →
  wp (areq_loop B true i k pkt j counts data) (λ fin st' l, fin = true ∧
    l = EvCall <$> (backlog_call pkt data <$> increases D reqs) ∧
    ∃ dem, tracks dem (raise_all D reqs) ∧ st' = with_demands st en dem) st.
Proof using Hctl Hdata Hi.
  induction k as [|k IH]; intros j counts data st en D reqs Hj E Htr Hnear Hr Hc Hent.
  { destruct reqs; [|done]. apply wp_ret. split_and!; [done..|]. exists (demands en). split; [done|].
    unfold with_demands. replace (set_demands (demands en) en) with en by (by destruct en).
    rewrite list_insert_id by done. by destruct st. }
  destruct reqs as [|[d t] reqs].
  { simpl in Hent. by repeat apply bind_Some in Hent as (? & _ & Hent). }
  apply areq_entries_at in Hent as (E1 & E2 & Hent); [|done]. cbn [fst snd] in *.
  apply Forall_cons in Hr as [Hd Hr]. simpl in Hd. destruct Hnear as [Hn Hnear].
  cbn [areq_loop]. apply wp_bind. eapply wp_deref; [exact E1|]. apply wp_bind. eapply wp_deref; [exact E2|].
  change NUM_NODES with 64. rewrite (proj2 (Z.ltb_lt i 64)) by lia. simpl negb. cbv iota.
  change FLOW_SHIFT with 0. rewrite Z.shiftr_0_r, (proj2 (Z.ltb_lt d 64)) by lia. simpl negb. cbv iota.
  eapply wp_get_node; [done|]. assert (0 ≤ d < 256) as Hd' by lia. pose proof (tracks_lookup _ _ d Htr Hd') as Ed.
  apply wp_bind. eapply wp_deref; [exact Ed|]. cbv zeta. rewrite expand_demand_exact by done.
  apply wp_bind. eapply wp_deref; [apply diff32_exact; lia|]. cbn [increases]. rewrite fmap_app, fmap_app.
  destruct (Z.ltb_spec (D d) t) as [Hlt|Hge].
  - rewrite (proj2 (Z.gtb_lt _ _)) by lia. apply wp_bind, wp_bind.
    eapply wp_mono; [apply add_demand_spec; intros He; specialize (Hc He); lia|].
    intros [counts' data'] st1 l1 (Ec & Edat & -> & ->). simpl in Ec, Edat. subst data'. apply wp_bind. unfold upd_node. apply wp_modify, wp_ret. erewrite upd_nodes_eq by done.
    eapply wp_mono; [apply (IH (j + 1) counts' data _ (set_demands (arr_set (demands en) d (u32 t)) en)
      (raise D d t) reqs); try done; [lia|apply list_lookup_insert_eq; by eapply lookup_lt_Some|by apply tracks_raise; [|lia|]|
      intros He; specialize (Hc He); specialize (Ec He); lia]|].
    intros fin st' l (-> & -> & dem & Hdem & ->). split; [done|]. split; [done|].
    exists dem. split; [done|]. unfold with_demands. simpl. by rewrite list_insert_insert_eq.
  - assert ((t - D d >? 0) = false) as -> by (rewrite Z.gtb_ltb; apply Z.ltb_ge; lia). apply wp_bind, wp_ret.
    eapply wp_mono; [apply (IH (j + 1) counts data st en (raise D d t) reqs); try done; [lia| |intros He; specialize (Hc He); lia]|].
    + apply (tracks_ext _ D); [|done]. intros x. unfold raise. case_decide; [subst; lia|done].
    + intros fin st' l (-> & -> & Hrest). done.
Qed.

Lemma comm_ok_demands st en dem : comm_ok B clk ∅ ∅ st → end_nodes st !! Z.to_nat i = Some en →
  length dem = 256%nat → comm_ok B clk ∅ ∅ (with_demands st en dem).
Proof using Hi.
  intros Hst E Hl. destruct (co_node _ _ _ _ _ Hst _ _ E) as [Hok Hp].
  destruct (co_timer _ _ _ _ _ Hst _ _ E) as [Htm Hwk]; [apply not_elem_of_empty|].
  rewrite Z2Nat.id in Htm, Hwk by lia.
  apply (comm_ok_changes B clk ∅ ∅ ∅ st _ i (set_demands dem en)); try done; [lia| |].
  - constructor; try done; apply Hst.
  - by destruct Hok.
Qed.

(** The increases are handed over in order, the totals are recorded, and a
    transmission is scheduled. *)
Lemma handle_areq_spec pkt n data st en D reqs : comm_ok B clk ∅ ∅ st →
  end_nodes st !! Z.to_nat i = Some en → tracks (demands en) D → near (2 ^ 15) D reqs →
  Forall (λ r, 0 ≤ r.1 < 64) reqs → data = (if Z.odd n then 5 * n + 1 else 5 * n) →
  0 ≤ n → (EMULATION_ALGO B = true → 5 * n ≤ Z.of_nat (length pkt)) →
  areq_entries (Z.to_nat n) pkt = Some ((λ r, (r.1, u16 r.2)) <$> reqs) →
  wp (handle_areq B true clk i pkt n) (λ _ st' l,
    l = EvCall <$> (backlog_call pkt data <$> increases D reqs) ∧ comm_ok B clk ∅ ∅ st' ∧
    ∃ dem pa, tracks dem (raise_all D reqs) ∧ pacer_is_triggered pa = true ∧
      end_nodes st' = <[Z.to_nat i := set_tx_pacer pa (set_demands dem en)]> (end_nodes st)) st.
Proof using Hctl Hdata Hi.
  intros Hst E Htr Hnear Hr -> Hn Hc Hent. unfold handle_areq. cbv zeta. apply wp_bind.
  eapply wp_mono; [apply (areq_loop_spec pkt (Z.to_nat n) 0 _ _ st en D reqs); try done;
    intros He; specialize (Hc He); lia|].
  intros fin st1 l1 (-> & -> & dem & Hdem & ->). cbv iota.
  pose proof (comm_ok_demands st en dem Hst E (proj1 Hdem)) as Hst1.
  assert (end_nodes (with_demands st en dem) !! Z.to_nat i = Some (set_demands dem en)) as E1
    by (apply list_lookup_insert_eq; by eapply lookup_lt_Some).
  eapply wp_mono; [apply (trigger_request_spec B clk i ltac:(lia) ∅ ∅ _ _ (not_elem_of_empty i) Hst1 E1)|].
  intros _ st2 l2 (Hst2 & -> & pa & Hpa & _ & Hch). rewrite app_nil_r. split; [|split].
  - by replace (if Z.odd n then 4 * n + n + 1 else 4 * n + n) with (if Z.odd n then 5 * n + 1 else 5 * n)
      by (destruct (Z.odd n); lia).
  - eapply comm_ok_weaken; [|exact Hst2]. intros x [? _]%elem_of_difference. done.
  - exists dem, pa. split; [done|]. split; [done|]. rewrite (ch_nodes _ _ _ _ Hch). unfold with_demands. simpl.
    by rewrite list_insert_insert_eq.
Qed.
End demand.

(** ** Acknowledged and lost reports

    The totals that an end node has acknowledged only grow, and the report of a
    destination is queued again when a packet with a newer total was lost. *)
Section reports.
Context (B : build) (clk i : Z) (Hi : 0 ≤ i < 256).

(** ** Lost packets *)

(** The total of [a] is newer than the acknowledged one. *)
Definition newer (acked : list Z) (a : fpproto_areq_desc) : Prop :=
  0 < s32 (tslots a - arr_get acked (u16 (src_dst_key a))).

(** The reports queued by [neg_ack_loop]. *)
Definition requeued (areqs : list fpproto_areq_desc) (en en' : end_node_state) : Prop :=
  acked_allocs en' = acked_allocs en ∧ queued (report_queue en) `prefix_of` queued (report_queue en') ∧
  (∀ d, d ∈ queued (report_queue en') ↔ d ∈ queued (report_queue en) ∨
    ∃ a, a ∈ areqs ∧ u16 (src_dst_key a) = d ∧ newer (acked_allocs en) a).

Lemma neg_ack_loop_spec areqs : ∀ st en, Forall (λ a, u16 (src_dst_key a) < 256) areqs →
  comm_ok B clk ∅ ∅ st → end_nodes st !! Z.to_nat i = Some en →
  wp (neg_ack_loop true clk i areqs) (λ _ st' l, comm_ok B clk ∅ ∅ st' ∧ l = [] ∧
    node_step (requeued areqs) i st st') st.
Proof using Hi.
  induction areqs as [|a areqs IH]; intros st en Hr Hst E; cbn [neg_ack_loop].
  { apply wp_ret. split; [done|]. split; [done|]. split; [done|]. intros en0 E0. exists en0. split; [done|].
    split; [done|]. split; [done|]. intros d. split; [by left|]. intros [?|(a & Ha & _)]; [done|by apply elem_of_nil in Ha]. }
  apply Forall_cons in Hr as [Ha Hr]. cbv beta in Ha. pose proof (u16_range (src_dst_key a)).
  destruct (co_node _ _ _ _ _ Hst _ _ E) as [Hok _]. cbv zeta. eapply wp_get_node; [done|].
  destruct (lookup_256 (acked_allocs en) (u16 (src_dst_key a)) (no_acked _ _ Hok) Ha) as [v Hv].
  assert (arr_get (acked_allocs en) (u16 (src_dst_key a)) = v) as Ev by (by apply list_lookup_total_correct).
  apply wp_bind. eapply wp_deref; [exact Hv|]. apply wp_bind. eapply wp_deref; [apply diff32_true|].
  apply wp_bind. assert (newer (acked_allocs en) a ↔ 0 < s32 (tslots a - v)) as Hn by (unfold newer; by rewrite Ev).
  set (Q := λ d, d ∈ queued (report_queue en) ∨ d = u16 (src_dst_key a) ∧ newer (acked_allocs en) a).
  assert (Hstep : ∀ st1 en1, comm_ok B clk ∅ ∅ st1 → end_nodes st1 = <[Z.to_nat i := en1]> (end_nodes st) →
    acked_allocs en1 = acked_allocs en → queued (report_queue en) `prefix_of` queued (report_queue en1) →
    (∀ d, d ∈ queued (report_queue en1) ↔ Q d) →
    wp (neg_ack_loop true clk i areqs) (λ _ st' l, comm_ok B clk ∅ ∅ st' ∧ [] ++ l = [] ∧
      node_step (requeued (a :: areqs)) i st st') st1).
  { intros st1 en1 Hst1 En Eac Hpre Hq.
    assert (end_nodes st1 !! Z.to_nat i = Some en1) as E1
      by (rewrite En; apply list_lookup_insert_eq; by eapply lookup_lt_Some).
    eapply wp_mono; [by apply (IH st1 en1)|]. intros _ st' l (Hst' & -> & [Ho Hs]). split; [done|]. split; [done|].
    split; [intros j Hj; rewrite Ho, En by done; by apply list_lookup_insert_ne|].
    intros en0 E0. assert (en0 = en) as -> by congruence. destruct (Hs en1 E1) as (en' & E' & Ea & Hp & Hd).
    exists en'. split; [done|]. split; [congruence|]. split; [by etrans|]. intros d. rewrite Hd, Hq. unfold Q.
    rewrite Eac. setoid_rewrite elem_of_cons. naive_solver. }
  destruct (Z.gtb_spec (s32 (tslots a - v)) 0) as [Hlt|Hge]; simpl when.
  - assert (0 ≤ u16 (src_dst_key a) < 256) as Hd by lia.
    eapply wp_mono; [apply (trigger_report_spec B clk i Hi ∅ ∅ st en _ (not_elem_of_empty i) Hd Hst E)|].
    intros _ st1 l1 (Hst1 & -> & pa & q & _ & Hch & _ & Eq).
    apply (Hstep st1 _ Hst1 (ch_nodes _ _ _ _ Hch)); [done|simpl; rewrite Eq; case_decide; [done|by apply prefix_app_r]|].
    intros d. simpl. rewrite Eq. unfold Q. case_decide; [|rewrite elem_of_app, list_elem_of_singleton]; naive_solver lia.
  - apply wp_ret, (Hstep st en); try done; [by rewrite list_insert_id|]. intros d. unfold Q. naive_solver lia.
Qed.

Lemma handle_neg_ack_spec pd st en : comm_ok B clk ∅ ∅ st → end_nodes st !! Z.to_nat i = Some en → pd_valid B pd →
  wp (handle_neg_ack true clk i (Some pd)) (λ _ st' l, comm_ok B clk ∅ ∅ st' ∧ l = [] ∧
    node_step (requeued (take (Z.to_nat (pd_n_areq pd)) (pd_areq pd))) i st st') st.
Proof using Hi.
  intros Hst E Hpd. unfold handle_neg_ack. apply wp_bind. eapply wp_deref; [done|]. simpl.
  by apply (neg_ack_loop_spec _ st en); [apply Hpd|..].
Qed.

(** ** Acknowledged packets *)
Definition with_acked (st : comm_state) (en : end_node_state) (acked : list Z) : comm_state :=
  set_end_nodes (<[Z.to_nat i := set_acked_allocs acked en]> (end_nodes st)) st.

(** A report of total [t] to destination [d]. *)
Definition reports (a : fpproto_areq_desc) (r : Z * Z) : Prop :=
  u16 (src_dst_key a) = r.1 ∧ tslots a = u32 r.2 ∧ 0 ≤ r.1 < 256.

Lemma ack_areqs_loop_spec areqs rs : Forall2 reports areqs rs → ∀ st en A,
  end_nodes st !! Z.to_nat i = Some en → tracks (acked_allocs en) A → near (2 ^ 31) A rs →
  wp (ack_areqs_loop true i areqs) (λ _ st' l, l = [] ∧
    ∃ acked, tracks acked (raise_all A rs) ∧ st' = with_acked st en acked) st.
Proof using Hi.
  induction 1 as [|a [d t] areqs rs (Ed & Et & Hd) _ IH]; intros st en A E Htr Hn; cbn [ack_areqs_loop].
  { apply wp_ret. split; [done|]. exists (acked_allocs en). split; [done|]. unfold with_acked.
    replace (set_acked_allocs (acked_allocs en) en) with en by (by destruct en).
    rewrite list_insert_id by done. by destruct st. }
  simpl in Ed, Et, Hd. destruct Hn as [Hn Hnear]. cbv zeta. eapply wp_get_node; [done|]. rewrite Ed, Et.
  apply wp_bind. eapply wp_deref; [by apply tracks_lookup|]. apply wp_bind.
  eapply wp_deref; [by apply diff32_exact|]. apply wp_bind.
  destruct (Z.gtb_spec (t - A d) 0) as [Hlt|Hge]; simpl when.
  - unfold upd_node. apply wp_modify. erewrite upd_nodes_eq by done.
    replace (u32 (u32 (A d) + (t - A d))) with (u32 t) by mlia.
    set (en1 := set_acked_allocs _ en).
    eapply wp_mono; [apply (IH (set_end_nodes (<[Z.to_nat i := en1]> (end_nodes st)) st) en1 (raise A d t));
      [apply list_lookup_insert_eq; by eapply lookup_lt_Some|by apply tracks_raise; [|lia|lia]|done]|].
    intros _ st' l (-> & acked & Hac & ->). split; [done|]. exists acked. split; [done|].
    unfold with_acked. simpl. by rewrite list_insert_insert_eq.
  - apply wp_ret. eapply wp_mono; [apply (IH st en (raise A d t)); [done| |done]|].
    + apply (tracks_ext _ A); [|done]. intros x. unfold raise. case_decide; [subst; lia|done].
    + intros _ st' l (-> & Hrest). done.
Qed.

Lemma handle_ack_spec pd rs st en A : RETRANSMIT_UNACKED_ALLOCS B = false →
  end_nodes st !! Z.to_nat i = Some en → tracks (acked_allocs en) A → near (2 ^ 31) A rs →
  Forall2 reports (take (Z.to_nat (pd_n_areq pd)) (pd_areq pd)) rs →
  wp (handle_ack B true i (Some pd)) (λ _ st' l, l = [] ∧
    ∃ acked, tracks acked (raise_all A rs) ∧ st' = with_acked st en acked) st.
Proof using Hi.
  intros HB E Htr Hn Hrs. unfold handle_ack. apply wp_bind. eapply wp_deref; [done|]. simpl. rewrite HB.
  by apply (ack_areqs_loop_spec _ rs).
Qed.
End reports.
