(* ===== verification/CommRequest.v ===== *)
(** * A request packet at the arbiter

    Composition of the protocol with the communication core: the requests in a
    received packet end up as demand in the allocator. *)

From S2P Require Import Prelude Platform Window WindowFacts WindowSpec WindowMarks Protocol ConnFacts.
From S2P Require Import ConnSpec ConnAck ConnSend ConnInwnd ConnSafe Codec RoundTrip Pacer Timer Comm.
From S2P Require Import CommInv CommHandlers CommTurn CommLoop CommDemand.

(** The demand that calls add to the allocator: source, destination and number of
    timeslots. *)
Definition demand_of (c : comm_call) : option (Z * Z * Z) :=
  match c with AddBacklog i d n _ _ => Some (i, d, n) | _ => None end.
Definition demanded (l : list (event comm_call)) : list (Z * Z * Z) := omap demand_of (calls l).

Lemma demanded_app l1 l2 : demanded (l1 ++ l2) = demanded l1 ++ demanded l2.
Proof. unfold demanded. by rewrite calls_app, omap_app. Qed.

Lemma demanded_none l : Forall no_demand (calls l) → demanded l = [].
Proof.
  intros Hl. unfold demanded. induction Hl as [|c cs Hc _ IH]; [done|]. simpl. by destruct c.
Qed.

(** The demand for the increases of the totals. *)
Definition new_demand (i : Z) (D : totals) (reqs : list (Z * Z)) : list (Z * Z * Z) :=
  (λ r : Z * Z * Z, (i, r.1.1, r.2 - r.1.2)) <$> increases D reqs.

Lemma calls_fmap {C} (cs : list C) : calls (EvCall <$> cs) = cs.
Proof. induction cs as [|c cs IH]; [done|]. cbn. f_equal. exact IH. Qed.

Lemma demanded_backlog B i pkt data rs :
  demanded (EvCall <$> (backlog_call B i pkt data <$> rs)) = (λ r : Z * Z * Z, (i, r.1.1, r.2 - r.1.2)) <$> rs.
Proof.
  unfold demanded. rewrite calls_fmap. induction rs as [|[[d D] t] rs IH]; [done|].
  rewrite !fmap_cons. cbn [omap list_omap]. rewrite <- IH. unfold backlog_call at 1.
  by destruct (EMULATION_ALGO B).
Qed.

(** ** Requests in front of the rest of the buffer *)
Lemma ld8_before (l tail : list Z) o x : ld8 l o = Some x → ld8 (l ++ tail) o = Some x.
Proof. unfold ld8. destruct (o <? 0); [done|]. apply lookup_app_l_Some. Qed.

Lemma ld16_before (l tail : list Z) o x : ld16 l o = Some x → ld16 (l ++ tail) o = Some x.
Proof.
  unfold ld16. intros (a & Ea & E)%bind_Some. rewrite (ld8_before _ tail _ _ Ea). simpl.
  apply bind_Some in E as (b & Eb & E). by rewrite (ld8_before _ tail _ _ Eb).
Qed.

Lemma ld8_length (l : list Z) o x : ld8 l o = Some x → o < Z.of_nat (length l).
Proof. unfold ld8. destruct (o <? 0) eqn:Eo; [done|]. intros Hl%lookup_lt_Some. lia. Qed.

Lemma areq_entries_app tail n : ∀ bytes r, areq_entries n bytes = Some r →
  areq_entries n (bytes ++ tail) = Some r ∧ Z.of_nat n * 4 ≤ Z.of_nat (length bytes).
Proof.
  induction n as [|n IH]; intros bytes r E; cbn [areq_entries] in *; [split; [done|lia]|].
  apply bind_Some in E as (d & Ed & E). apply bind_Some in E as (c & Ec & E). apply bind_Some in E as (rest & Er & E).
  assert (4 ≤ Z.of_nat (length bytes)) as Hl.
  { unfold ld16 in Ec. apply bind_Some in Ec as (? & _ & Ec). apply bind_Some in Ec as (? & Hb%ld8_length & _). lia. }
  destruct (IH _ _ Er) as [Er' Hl']. rewrite length_drop in Hl'. split; [|lia].
  rewrite (ld16_before _ tail _ _ Ed), (ld16_before _ tail _ _ Ec), drop_app_le by lia. simpl. by rewrite Er'.
Qed.

Lemma beyond_ack tail l : Forall (λ k, ack_call k = true) (calls l) → beyond_event tail <$> l = l.
Proof.
  induction l as [|[s|k] l IH]; intros Hl; [done|by rewrite fmap_cons, IH|].
  apply Forall_cons in Hl as [Hk Hl]. rewrite fmap_cons, IH by done. by destruct k.
Qed.

Section request.
Context (B : build) `{H : HashOps} (clk i : Z).
Hypothesis (Hctl : IS_ENDPOINT B = false) (Hdata : reads_areq_data B = false) (Hi : 0 ≤ i < 64).

Lemma dispatch_cons e l : dispatch_all B true clk i (e :: l) =
  (match e with EvBug s => bug_on true s | EvCall c => dispatch B true clk i c end;; dispatch_all B true clk i l).
Proof using. by destruct e. Qed.

Lemma dispatch_app l1 l2 : ∀ st (Q : unit → comm_state → list (event comm_call) → Prop),
  wp (dispatch_all B true clk i l1) (λ _ st1 la,
    wp (dispatch_all B true clk i l2) (λ u st2 lb, Q u st2 (la ++ lb)) st1) st →
  wp (dispatch_all B true clk i (l1 ++ l2)) Q st.
Proof using.
  induction l1 as [|e l1 IH]; intros st Q Hw; [exact Hw|]. cbn [app]. rewrite dispatch_cons in Hw |- *.
  apply wp_bind. apply wp_bind_inv in Hw. eapply wp_mono; [exact Hw|]. intros [] st1 l Hw1. apply IH.
  eapply wp_mono; [exact Hw1|]. intros [] st2 la Hw2. cbv beta in Hw2.
  eapply wp_mono; [exact Hw2|]. intros u st3 lb HQ. cbv beta in HQ. by rewrite app_assoc.
Qed.

(** The state of the node after the requests. *)
Definition took_requests (D : totals) (reqs : list (Z * Z)) (st : comm_state) : Prop :=
  ∃ en, end_nodes st !! Z.to_nat i = Some en ∧ tracks (demands en) (raise_all D reqs) ∧
    pacer_is_triggered (tx_pacer en) = true.

Lemma dispatch_request l1 payload n st en D reqs : comm_ok B clk ∅ ∅ st →
  end_nodes st !! Z.to_nat i = Some en → log_valid B l1 → Forall (λ k, ack_call k = true) (calls l1) →
  tracks (demands en) D → near (2 ^ 15) D reqs → Forall (λ r, 0 ≤ r.1 < 64) reqs →
  0 ≤ n → (EMULATION_ALGO B = true → 5 * n ≤ Z.of_nat (length payload)) →
  areq_entries (Z.to_nat n) payload = Some ((λ r, (r.1, u16 r.2)) <$> reqs) →
  wp (dispatch_all B true clk i (l1 ++ [EvCall (CHandleAreq payload n)])) (λ _ st' l,
    comm_ok B clk ∅ ∅ st' ∧ demanded l = new_demand i D reqs ∧ took_requests D reqs st') st.
Proof using Hctl Hdata Hi.
  intros Hst E Hl1 Hk Htr Hn Hr Hn0 Hlen Hent. apply dispatch_app. assert (0 ≤ i < 256) as Hi' by lia.
  pose proof (hsafe_dispatch_all B clk i Hi' Hctl Hdata l1 Hl1 ∅ ∅ st (not_elem_of_empty i) Hst) as Hs.
  apply wp_inv in Hs as ([] & st1 & la & Erun & Hst1 & _ & [_ Hn1]). eapply wp_run; [exact Erun|].
  apply (demand_dispatch_ack B true clk i l1 Hk) in Erun as [Ed Hcalls].
  destruct (Hn1 en E) as (en1 & E1 & _).
  assert (demands en1 = demands en) as Edem.
  { assert (all_demands st1 !! Z.to_nat i = all_demands st !! Z.to_nat i) as Ej by (by rewrite Ed).
    unfold all_demands in Ej. rewrite !list_lookup_fmap, E, E1 in Ej. by injection Ej. }
  cbn [dispatch_all dispatch]. apply wp_bind.
  rewrite <- Edem in Htr.
  eapply wp_mono; [by apply (handle_areq_spec B clk i Hctl Hdata Hi payload n (if Z.odd n then 5 * n + 1 else 5 * n) st1 en1 D reqs)|].
  intros _ st2 lb (-> & Hst2 & dem & pa & Hdem & Hpa & En). apply wp_ret. rewrite app_nil_r.
  split; [done|]. rewrite demanded_app, (demanded_none la Hcalls), demanded_backlog. split; [done|].
  eexists. rewrite En. split; [apply list_lookup_insert_eq; by eapply lookup_lt_Some|]. done.
Qed.
End request.

(** ** From the packet buffer *)

(** A received buffer with an IPv4 packet, without options, whose payload is
    [pkt]. *)
Record datagram (buf : list Z) (data_len src dst : Z) (pkt : list Z) : Prop := {
  dg_type : ld16 buf 12 = Some ETHER_TYPE_IPv4;
  dg_proto : ld8 buf 23 = Some IPPROTO_FASTPASS;
  dg_total : ld16 buf 16 = Some (20 + Z.of_nat (length pkt));
  dg_ihl : ld8 buf 14 = Some 0x45;
  dg_len : 34 + Z.of_nat (length pkt) ≤ data_len;
  dg_src : ld32 buf 26 = Some src;
  dg_dst : ld32 buf 30 = Some dst;
  dg_payload : take (length pkt) (drop 34 buf) = pkt;
}.

(** Such a buffer: an Ethernet header and an IPv4 header in front of [pkt]. *)
Definition frame_of (src dst : Z) (pkt : list Z) : list Z :=
  replicate 12 0 ++ be16 ETHER_TYPE_IPv4 ++ ipv4_header (20 + Z.of_nat (length pkt)) 0 src dst ++ pkt.

Lemma datagram_frame src dst pkt : 0 ≤ src < 2 ^ 32 → 0 ≤ dst < 2 ^ 32 → Z.of_nat (length pkt) < 2 ^ 15 →
  datagram (frame_of src dst pkt) (34 + Z.of_nat (length pkt)) src dst pkt.
Proof.
  intros Hs Hd Hl. unfold frame_of, ipv4_header.
  constructor; [reflexivity|reflexivity| |reflexivity|lia| | |].
  - etrans; [apply (ld16_be16 (20 + Z.of_nat (length pkt)) [])|]. f_equal. apply u16_small. lia.
  - etrans; [apply (ld32_be32 src (be32 dst ++ pkt))|]. f_equal. apply u32_small. lia.
  - etrans; [apply (ld32_be32 dst pkt)|]. f_equal. apply u32_small. lia.
  - etrans; [|apply (firstn_all pkt)]. reflexivity.
Qed.

Section rx.
Context (Bs Br : build) `{H : HashOps} `{HH : !HashOk H} (pd : fpproto_pktdesc) (min_size clk i : Z).
Hypothesis (Hctl : IS_ENDPOINT Br = false) (Hdata : reads_areq_data Br = false) (Hi : 0 ≤ i < 64).
Hypothesis (Hpd : pd_ok Bs pd) (Hnoreset : pd_send_reset pd = false) (Hnoalloc : has_alloc Bs pd = false).
Hypothesis (Hn : 0 < pd_n_areq pd < 64).

(** The packet asks for the totals [reqs]. *)
Definition asks_for (reqs : list (Z * Z)) : Prop :=
  areq_pair <$> take (Z.to_nat (pd_n_areq pd)) (pd_areq pd) = (λ r, (r.1, u16 r.2)) <$> reqs.

Definition csum_of (addr : Z) : Z := fastpass_checksum addr (packet Bs pd min_size 0) (pd_seqno pd) (pd_ack_seq pd).

(** The packet is new to the connection and in its windows. *)
Record fresh (c : fpproto_conn) : Prop := {
  fr_seq : 0 ≤ pd_seqno pd < 2 ^ 64 ∧ u64 (pd_seqno pd - (in_max_seqno c - 2 ^ 14)) < 2 ^ 16;
  fr_ack : 0 ≤ pd_ack_seq pd < 2 ^ 64 ∧ u64 (pd_ack_seq pd - (Window.head (outwnd c) - 2 ^ 16 + 1)) < 2 ^ 16;
  fr_new : at_most_once_may_accept c (pd_seqno pd) = 0;
}.

Lemma request_on_conn addr addr' tail st en D reqs : csum_of addr' = csum_of addr →
  (EMULATION_ALGO Br = true → 63 ≤ Z.of_nat (length tail)) → comm_ok Br clk ∅ ∅ st →
  end_nodes st !! Z.to_nat i = Some en → fresh (conn en) → asks_for reqs →
  tracks (demands en) D → near (2 ^ 15) D reqs → Forall (λ r, 0 ≤ r.1 < 64) reqs →
  wp (on_conn Br true clk i (after_packet tail
      (fpproto_handle_rx_complete Br clk clk addr' (packet Bs pd min_size (csum_of addr)))))
    (λ _ st' l, comm_ok Br clk ∅ ∅ st' ∧ demanded l = new_demand i D reqs ∧ took_requests i D reqs st') st.
Proof using All.
  intros Eck Htail Hst E [Hs Ha Hnew] Hreq Htr Hnear Hr. destruct (co_node _ _ _ _ _ Hst _ _ E) as [Hok _].
  assert (0 ≤ i < 256) as Hi' by lia.
  apply (on_conn_wp Br clk i Hi' _ ∅ ∅ st en); [apply not_elem_of_empty|done|done|].
  pose proof (safe_rx_complete Br clk clk addr' (packet Bs pd min_size (csum_of addr)) Hdata (conn en) (no_conn _ _ Hok)) as H1.
  pose proof (request_delivered Bs Br pd min_size Hpd Hnoreset Hnoalloc Hn (conn en) clk clk addr addr'
    (ok_wf _ (no_conn _ _ Hok)) Hdata Eck Hs Ha Hnew) as H2.
  apply wp_after_packet. eapply wp_mono; [apply (wp_and _ _ _ _ H1 H2)|].
  intros [] c' l [(Hc' & _ & [(Eo & _ & _) Hev] & _) (l1 & payload & [Hlog Hack] & -> & Hent & _)].
  split; [done|]. split; [by rewrite Eo, (no_ops _ _ Hok)|]. split.
  { intros s pd' Hpd'. by eapply (no_pds _ _ Hok), Hev. }
  intros st1 Hst1 En. rewrite (no_ops _ _ Hok). rewrite Hreq in Hent.
  destruct (areq_entries_app tail _ _ _ Hent) as [Hent' Hlen].
  pose proof (log_from_valid_after Br en tail l1 Hok Hlog Htail) as Hv.
  rewrite fmap_app, beyond_ack in * by done. cbn [fmap list_fmap beyond_event beyond].
  apply (dispatch_request Br clk i Hctl Hdata Hi l1 (payload ++ tail) (pd_n_areq pd) st1 (set_conn c' en) D reqs); try done.
  - rewrite En. apply list_lookup_insert_eq. by eapply lookup_lt_Some.
  - lia.
  - intros He. specialize (Htail He). rewrite length_app. lia.
Qed.

(** The packet arrives as the payload of [buf]. *)
Lemma request_received addr addr' buf data_len src dst st en D reqs : csum_of addr' = csum_of addr →
  comm_ok Br clk ∅ ∅ st → end_nodes st !! Z.to_nat i = Some en → fresh (conn en) → asks_for reqs →
  tracks (demands en) D → near (2 ^ 15) D reqs → Forall (λ r, 0 ≤ r.1 < 64) reqs →
  datagram buf data_len src dst (packet Bs pd min_size (csum_of addr)) → room_behind Br buf data_len →
  fp_map_ip_to_id src = i →
  wp (comm_rx Br true clk addr' buf data_len) (λ r st' l, r = RxDone ∧
    comm_ok Br clk ∅ ∅ st' ∧ demanded l = new_demand i D reqs ∧ took_requests i D reqs st') st.
Proof using All.
  intros Eck Hst E Hf Hreq Htr Hnear Hr [D1 D2 D3 D4 D5 D6 D7 D8] Hroom Hmap. set (pkt := packet Bs pd min_size (csum_of addr)) in *.
  unfold comm_rx. cbv zeta. change sizeof_ether_hdr with 14. change sizeof_ipv4_hdr with 20.
  apply wp_bind. eapply wp_deref; [exact D1|]. cbn [Z.eqb Pos.eqb negb]. change (ETHER_TYPE_IPv4 =? ETHER_TYPE_ARP) with false.
  change (negb (ETHER_TYPE_IPv4 =? ETHER_TYPE_IPv4)) with false. cbv iota.
  apply wp_bind. eapply wp_deref; [exact D2|]. change (IPPROTO_FASTPASS =? IPPROTO_FASTPASS_WATCHDOG) with false.
  change (IPPROTO_FASTPASS =? IPPROTO_FASTPASS_KILL) with false. change (negb (IPPROTO_FASTPASS =? IPPROTO_FASTPASS)) with false.
  cbv iota. apply wp_bind. eapply wp_deref; [exact D3|]. apply wp_bind. eapply wp_deref; [exact D4|].
  change (Z.land 69 15) with 5. rewrite Z.gtb_ltb, !(proj2 (Z.ltb_ge _ _)) by lia. cbv iota. cbn [orb].
  apply wp_bind. eapply wp_deref; [exact D6|]. apply wp_bind. eapply wp_deref; [exact D7|]. rewrite Hmap.
  apply wp_bind. assert (0 ≤ i < 256) as Hi' by lia.
  pose proof (hsafe_upd_node Br clk i Hi' same_conn (set_addrs src dst) (keeps_addrs Br src dst) ∅ ∅ st
    (not_elem_of_empty i) Hst) as [Hst1 _].
  unfold upd_node. apply wp_modify. set (st1 := set_end_nodes _ st) in *.
  assert (end_nodes st1 !! Z.to_nat i = Some (set_addrs src dst en)) as E1.
  { simpl. erewrite upd_nodes_eq by done. apply list_lookup_insert_eq. by eapply lookup_lt_Some. }
  change (i <? MAX_NODES) with (i <? 256). rewrite (proj2 (Z.ltb_lt _ _)) by lia. unfold when.
  replace (Z.to_nat (20 + Z.of_nat (length pkt) - 4 * 5)) with (length pkt) by lia.
  change (Z.to_nat (14 + 20)) with 34%nat. rewrite D8. apply wp_bind.
  assert (EMULATION_ALGO Br = true → 63 ≤ Z.of_nat (length (drop (length pkt) (drop 34 buf)))) as Htail.
  { intros He. specialize (Hroom He). rewrite !length_drop. lia. }
  eapply wp_mono; [by apply (request_on_conn addr addr' _ st1 (set_addrs src dst en) D reqs)|].
  intros _ st2 l (Hst2 & Hl & Ht). apply wp_bind, wp_call, wp_ret. split; [done|]. split; [done|]. split; [|done].
  simpl. rewrite demanded_app, Hl. by rewrite app_nil_r.
Qed.
End rx.
