(* ===== verification/CommTheorems.v ===== *)
(** * Theorems about the communication core *)

From S2P Require Import Prelude Platform Window WindowFacts WindowSpec WindowMarks Protocol ConnFacts.
From S2P Require Import ConnSpec ConnAck ConnSend ConnInwnd ConnSafe Codec RoundTrip Pacer Timer Comm CommInv.
From S2P Require Import CommHandlers CommFill CommTx CommTurn CommLoop CommDemand CommRequest.
From S2P Require Import Checksum Samples.

(** ** Running cores *)

(** [st0] is the state of a controller that starts its main loop at time [clk0]. *)
Record booted (B : build) (clk0 : Z) (st0 : comm_state) : Prop := {
  bt_controller : IS_ENDPOINT B = false;
  bt_no_data : reads_areq_data B = false;
  bt_bytes : 0 ≤ emu_alloc_data_bytes B ≤ 2;
  bt_state : ∃ now rst_win tmo start l cost burst gap slot,
    fpproto_init_conn B now proto_ops rst_win tmo (zero_conn proto_ops 0 0) = Some (tt, start, l) ∧
    config_ok clk0 cost burst gap ∧ st0 = comm_init start clk0 cost burst gap slot;
}.

Lemma booted_ok B clk0 st0 : booted B clk0 st0 → comm_ok B clk0 ∅ ∅ st0.
Proof.
  intros [? ? ? (now & rw & tmo & start & l & cost & burst & gap & slot & E & Hcf & ->)].
  pose proof (init_conn_fresh B now rw tmo) as Hw. unfold wp in Hw. rewrite E in Hw. destruct Hw as (? & ? & ?).
  by apply comm_init_ok.
Qed.

Lemma booted_run_ok B `{H : HashOps} clk0 st0 clk st : booted B clk0 st0 → run B st0 clk0 clk st →
  comm_ok B clk ∅ ∅ st.
Proof. intros Hb. pose proof (booted_ok _ _ _ Hb). destruct Hb. by apply run_ok. Qed.

(** The core of the examples. *)
Definition start_c : fpproto_conn :=
  final (fpproto_init_conn controller 0 proto_ops 2000000000 1000000) (zero_conn proto_ops 0 0).
Definition core0 : comm_state := comm_init start_c (2 ^ 30) 1000 2000 100 5.

Lemma core0_booted : booted controller (2 ^ 30) core0.
Proof.
  constructor; [done..|]. pose proof (init_conn_fresh controller 0 2000000000 1000000) as Hw. apply wp_inv in Hw as
    ([] & c & l & E & _). exists 0, 2000000000, 1000000, c, l, 1000, 2000, 100, 5. split; [done|]. split; [by constructor|].
  unfold core0, start_c, final. by rewrite E.
Qed.

Lemma core0_heads : heads_ok core0.
Proof.
  intros j en [-> _]%lookup_replicate. apply Z.ltb_lt. vm_compute. reflexivity.
Qed.

(** A turn in which one timeslot of node 3 is given to destination 5. *)
Definition no_mem : Z → option fpproto_pktdesc * option mbuf := λ _, (None, None).
Definition turn1 : turn := {| t_deadline := 0; t_rx := []; t_now := 2 ^ 30 + 100;
  t_admitted := [[{| ad_partition := 0; ad_edges := [Edge 3 5] |}]]; t_mem := no_mem |}.

Lemma turn1_ok : turn_ok controller turn1.
Proof. constructor; [|by intros i; split]. do 2 (constructor; [|constructor]). split; [simpl; lia|].
  constructor; [vm_compute; intuition congruence|constructor].
Qed.

Definition core1 : comm_state := match comm_turn controller true turn1 core0 with Some (_, st, _) => st | None => core0 end.

Lemma core1_run : run controller core0 (2 ^ 30) (t_now turn1) core1.
Proof.
  pose proof core0_booted as Hb. pose proof (booted_ok _ _ _ Hb) as Hok. destruct Hb as [Hc Hd Hby _].
  assert (in_reach (t_now turn1) (positions core0)) as Hr by (vm_compute; intuition congruence).
  pose proof (turn_safe controller Hc Hd Hby (2 ^ 30) turn1 core0 Hok ltac:(simpl; lia) Hr turn1_ok core0_heads) as Hw.
  apply wp_inv in Hw as ([] & st & l & E & _).
  apply (run_turn _ _ _ (2 ^ 30) core0 turn1 core1 l); [constructor|simpl; lia|done|apply turn1_ok|apply core0_heads|].
  unfold core1. by rewrite E.
Qed.

(** C3. Safety, for builds of the arbiter that parse no request data. In every state
    that the main loop can reach from its initialisation, with received packets of
    arbitrary contents and any sequence of allocated timeslots, the invariant of the
    core holds, and a further burst of packets and a further turn of the loop are
    defined - no access is out of bounds, no timer assertion fails and no
    FASTPASS_BUG_ON fires - if signed differences wrap (-fwrapv, which no build file
    passes). The build that leaves -fwrapv out does the same unless a signed
    difference of totals overflows, which is undefined
    ([demand_difference_overflows] shows packets that do it). Assumed of the
    environment: the clock stays below 2^62 and gets to a burst or turn before the
    timer wheels lag it by 100 * 1024 ticks, no sequence number reaches 2^64, a
    packet buffer holds the headers (and in an emulation build 63 bytes behind the
    packet), the memory pools return buffers of their size, and allocated timeslots
    name nodes below 256 and one of the two partitions. *)
Theorem comm_core_safe (B : build) `{H : HashOps} clk0 st0 clk st :
  booted B clk0 st0 → run B st0 clk0 clk st →
  comm_ok B clk ∅ ∅ st ∧
  (∀ deadline pkts t, Forall (rx_ok B) pkts → in_order clk pkts t → in_reach t (positions st) →
    ∃ r st' l, do_rx_burst B true deadline pkts st = Some (r, st', l) ∧ no_bug l ∧
      (do_rx_burst B false deadline pkts st = None ∨ do_rx_burst B false deadline pkts st = Some (r, st', l))) ∧
  (∀ t, clk ≤ t_now t → in_reach (t_now t) (positions st) → turn_ok B t → heads_ok st →
    ∃ st' l, comm_turn B true t st = Some (tt, st', l) ∧ no_bug l ∧
      (comm_turn B false t st = None ∨ comm_turn B false t st = Some (tt, st', l))).
Proof.
  intros Hb Hrun. pose proof (booted_run_ok B _ _ _ _ Hb Hrun) as Hst. destruct Hb as [Hc Hd Hby _]. split; [done|]. split.
  - intros dl pkts t Hp Ho Hr.
    pose proof (burst_do_rx B Hc Hd clk t dl pkts Hp Ho st Hst Hr) as (r & st' & l & E & _ & Hl & _)%wp_inv.
    exists r, st', l. rewrite <- E. split; [done|]. split; [done|]. apply up_to_do_rx_burst.
  - intros t Ht Hr Htok Hh.
    pose proof (turn_safe B Hc Hd Hby clk t st Hst Ht Hr Htok Hh) as ([] & st' & l & E & _ & Hl & _)%wp_inv.
    exists st', l. rewrite <- E. split; [done|]. split; [done|]. apply up_to_comm_turn.
Qed.

Lemma comm_core_safe_witness : comm_ok controller (2 ^ 30 + 100) ∅ ∅ core1.
Proof. exact (proj1 (comm_core_safe controller (2 ^ 30) core0 (2 ^ 30 + 100) core1 core0_booted core1_run)). Defined.

(** C10. Delivery: no report waits without a scheduled transmission. When one of
    the ten oldest reports of a node waits, the transmission is due within 2^33
    cycles of the clock, and the first turn of the loop at or after that time
    sends the node a packet that carries the report, provided that memory for the
    packet is available. *)
Theorem reports_are_delivered (B : build) `{H : HashOps} clk0 st0 clk st i en d :
  booted B clk0 st0 → run B st0 clk0 clk st → 0 ≤ i → end_nodes st !! Z.to_nat i = Some en →
  d ∈ take 10 (queued (report_queue en)) →
  next_event (tx_pacer en) ≤ clk + 2 ^ 33 ∧
  ∀ t mb, clk ≤ t_now t → in_reach (t_now t) (positions st) → turn_ok B t → heads_ok st →
    next_event (tx_pacer en) ≤ t_now t → (t_mem t i).1 ≠ None → (t_mem t i).2 = Some mb →
    ∃ st' l pd en', comm_turn B true t st = Some (tt, st', l) ∧ SendPacket i (ip_packet B en' pd mb) ∈ calls l ∧
      d ∈ src_dst_key <$> take (Z.to_nat (pd_n_areq pd)) (pd_areq pd).
Proof.
  intros Hb Hrun Hi E Hd. pose proof (booted_run_ok B _ _ _ _ Hb Hrun) as Hst. destruct Hb as [Hc Hdat Hby _]. split.
  - destruct (co_timer _ _ _ _ _ Hst _ _ E (not_elem_of_empty _)) as [Ht Hw]. unfold timer_ok in Ht.
    rewrite Hw in Ht; [by destruct Ht as [[] _]|apply not_elem_of_empty|]. intros En. rewrite En in Hd.
    by apply elem_of_nil in Hd.
  - intros t mb Ht Hr Htok Hh Hle Hp Hm.
    pose proof (turn_safe B Hc Hdat Hby clk t st Hst Ht Hr Htok Hh) as ([] & st' & l & Erun & _ & _ & Hdel)%wp_inv.
    destruct (Hdel i en d mb) as (pd & en' & Hs & Hin); try done. by exists st', l, pd, en'.
Qed.

Definition empty_pd : fpproto_pktdesc := {|
  pd_sent_timestamp := 0; pd_seqno := 0; pd_ack_seq := 0; pd_ack_vec := 0; pd_send_reset := false;
  pd_reset_timestamp := 0; pd_n_areq := 0; pd_areq := replicate 10 {| src_dst_key := 0; tslots := 0 |};
  pd_areq_data_type := 0; pd_areq_data_bytes := 0; pd_areq_data_counts := []; pd_areq_data := [];
  pd_alloc_tslot := 0; pd_used_alloc_tslot := 0; pd_base_tslot := 0; pd_n_dsts := 0; pd_dsts := replicate 15 0;
  pd_tslot_desc := replicate 64 0; pd_emu_tslot_desc := [] |}.
Definition buffer : mbuf := {| mb_addr := 0; mb_payload := replicate 200 0 |}.
Definition turn2 : turn := {| t_deadline := 0; t_rx := []; t_now := 2 ^ 30 + 5000; t_admitted := [];
  t_mem := λ _, (Some empty_pd, Some buffer) |}.

Lemma turn2_ok : turn_ok controller turn2.
Proof.
  constructor; [constructor|]. intros i. split.
  - intros pd [= <-]. constructor; [done..|constructor].
  - intros mb [= <-]. vm_compute. congruence.
Qed.

Definition node3 : end_node_state :=
  default (init_end_node start_c 0 0 0 0) (end_nodes core1 !! 3%nat).

Lemma core1_ok : comm_ok controller (2 ^ 30 + 100) ∅ ∅ core1.
Proof. exact (booted_run_ok controller _ _ _ _ core0_booted core1_run). Qed.

Lemma core1_node3 : end_nodes core1 !! Z.to_nat 3 = Some node3.
Proof.
  destruct (lookup_node core1 3 (co_nodes _ _ _ _ _ core1_ok) ltac:(lia)) as [en E].
  rewrite E. unfold node3. change 3%nat with (Z.to_nat 3). by rewrite E.
Qed.

Lemma core1_heads : heads_ok core1.
Proof.
  assert (forallb (λ en, Window.head (outwnd (conn en)) + 1 <? 2 ^ 64) (end_nodes core1) = true) as Hall
    by (vm_compute; reflexivity).
  intros j en E%list_elem_of_lookup_2%list_elem_of_In. rewrite forallb_forall in Hall. by apply Z.ltb_lt, Hall.
Qed.

Lemma reports_are_delivered_witness :
  ∃ st' l pd en', comm_turn controller true turn2 core1 = Some (tt, st', l) ∧
    SendPacket 3 (ip_packet controller en' pd buffer) ∈ calls l ∧
    5 ∈ src_dst_key <$> take (Z.to_nat (pd_n_areq pd)) (pd_areq pd).
Proof.
  assert (5 ∈ take 10 (queued (report_queue node3))) as Hd by (apply (bool_decide_unpack _); vm_compute; reflexivity).
  refine (proj2 (reports_are_delivered controller (2 ^ 30) core0 (2 ^ 30 + 100) core1 3 node3 5 core0_booted core1_run
    ltac:(lia) core1_node3 Hd) turn2 buffer _ _ turn2_ok core1_heads _ _ eq_refl).
  - simpl. lia.
  - vm_compute. intuition congruence.
  - vm_compute. congruence.
  - done.
Defined.

Lemma tracks_zero : tracks (replicate 256 0) (λ _, 0).
Proof.
  split; [done|]. intros d Hd. apply (arr_get_Forall (λ x, x = u32 0) (replicate 256 0)); [by apply Forall_replicate|].
  rewrite length_replicate. lia.
Qed.

Lemma node3_demands : tracks (demands node3) (λ _, 0).
Proof. assert (demands node3 = replicate 256 0) as -> by (vm_compute; reflexivity). exact tracks_zero. Qed.

(** Requests: when an A-REQ payload carries the low 16 bits of the totals
    [reqs] of a node, and each total is within 2^15 of the known one, the handler
    hands exactly the increases to the allocator, in order, with the totals before
    them as first id, records the new totals, ignores older totals, and schedules
    a transmission. *)
Theorem requests_are_tracked (B : build) clk i pkt n st en D reqs :
  IS_ENDPOINT B = false → reads_areq_data B = false → 0 ≤ i < 64 →
  comm_ok B clk ∅ ∅ st → end_nodes st !! Z.to_nat i = Some en → tracks (demands en) D → near (2 ^ 15) D reqs →
  Forall (λ r, 0 ≤ r.1 < 64) reqs →
  0 ≤ n → (EMULATION_ALGO B = true → 5 * n ≤ Z.of_nat (length pkt)) →
  areq_entries (Z.to_nat n) pkt = Some ((λ r, (r.1, u16 r.2)) <$> reqs) →
  wp (handle_areq B true clk i pkt n) (λ _ st' l,
    l = EvCall <$> (backlog_call B i pkt (if Z.odd n then 5 * n + 1 else 5 * n) <$> increases D reqs) ∧
    comm_ok B clk ∅ ∅ st' ∧
    ∃ dem pa, tracks dem (raise_all D reqs) ∧ pacer_is_triggered pa = true ∧
      end_nodes st' = <[Z.to_nat i := set_tx_pacer pa (set_demands dem en)]> (end_nodes st)) st.
Proof. intros Hc Hd Hi Hst E Htr Hn Hr Hn0 Hl Hent. by apply handle_areq_spec. Qed.

(** Node 3 asks for 70000 timeslots to 5 in three steps; the second request
    arrives late. *)
Definition req_bytes (reqs : list (Z * Z)) : list Z := reqs ≫= λ r, be16 r.1 ++ be16 r.2.
Definition three_requests : list (Z * Z) := [(5, 30000); (5, 20000); (9, 7)].

Lemma requests_are_tracked_witness :
  wp (handle_areq controller true (2 ^ 30 + 100) 3 (req_bytes three_requests) 3)
    (λ _ _ l, l = EvCall <$> [AddBacklog 3 5 30000 0 None; AddBacklog 3 9 7 0 None]) core1.
Proof.
  eapply wp_mono; [apply (requests_are_tracked controller (2 ^ 30 + 100) 3 (req_bytes three_requests) 3 core1 node3
    (λ _, 0) three_requests eq_refl eq_refl ltac:(lia) core1_ok core1_node3)|].
  - exact node3_demands.
  - vm_compute. intuition congruence.
  - repeat (constructor; [simpl; lia|]). constructor.
  - lia.
  - intros He. discriminate He.
  - reflexivity.
  - intros _ st' l [-> _]. reflexivity.
Defined.

(** C4. Request path, end to end: a packet in which an endpoint encodes requests for
    the totals [reqs] (the low 16 bits of each) reaches the arbiter as the payload
    of an IPv4 packet from node [i]. If the packet is new and each total is within
    2^15 of the known one, [comm_rx] hands exactly the increases to the allocator,
    as demand of node [i]; the totals are recorded, the node is scheduled for a
    transmission and the invariant of the core holds. Signed differences wrap; in an
    emulation build the buffer goes on for 63 bytes behind the packet. *)
Theorem requests_reach_allocator (Bs B : build) `{H : HashOps} `{!HashOk H} pd min_size max_len addr addr' e0
    clk i st en D reqs :
  IS_ENDPOINT B = false → reads_areq_data B = false → 0 ≤ i < 64 →
  pd_ok Bs pd → pd_send_reset pd = false → has_alloc Bs pd = false → 0 < pd_n_areq pd < 64 → asks_for pd reqs →
  8 + Z.of_nat (length (body_bytes Bs pd)) ≤ max_len → min_size ≤ max_len < 2 ^ 31 →
  max_len ≤ Z.of_nat (length (e_buf e0)) → csum_of Bs pd min_size addr' = csum_of Bs pd min_size addr →
  comm_ok B clk ∅ ∅ st → end_nodes st !! Z.to_nat i = Some en → fresh pd (conn en) →
  tracks (demands en) D → near (2 ^ 15) D reqs → Forall (λ r, 0 ≤ r.1 < 64) reqs →
  wp (fpproto_encode_packet Bs pd addr max_len min_size) (λ n e' _, ∀ buf data_len src dst,
    datagram buf data_len src dst (take (Z.to_nat n) (e_buf e')) → room_behind B buf data_len →
    fp_map_ip_to_id src = i →
    wp (comm_rx B true clk addr' buf data_len) (λ r st' l, r = RxDone ∧
      comm_ok B clk ∅ ∅ st' ∧ demanded l = new_demand i D reqs ∧ took_requests i D reqs st') st) e0.
Proof.
  intros Hc Hd Hi Hpd Hr Ha Hn Hreq Hl1 Hl2 Hl3 Hck Hst E Hf Htr Hnear Hrs.
  eapply wp_mono; [by apply (encode_packet_spec Bs pd Hpd)|]. intros n e' l (_ & _ & ->) buf data_len src dst Hdg Hroom Hmap.
  by apply (request_received Bs B pd min_size clk i Hc Hd Hi Hpd Hr Ha Hn addr addr' buf data_len src dst st en D reqs).
Qed.

(** The first packet of the sample endpoint, sent by node 3 (address 10.0.0.67). *)
Definition request_packet : fpproto_pktdesc := committed (set_in_sync true conn_e) request_pd 100.

Lemma request_packet_ok : pd_ok endpoint request_packet.
Proof.
  constructor; try (vm_compute; split; congruence); try (vm_compute; congruence).
  intros d Hd. apply not_elem_of_nil in Hd. destruct Hd.
Qed.

Lemma requests_reach_allocator_witness :
  wp (fpproto_encode_packet endpoint request_packet 0 200 40) (λ n e' _,
    wp (comm_rx controller true (2 ^ 30 + 100) 0 (frame_of 0x0A000043 0 (take (Z.to_nat n) (e_buf e'))) 74)
      (λ _ _ l, demanded l = [(3, 7, 3); (3, 9, 5)]) core1) {| e_buf := replicate 200 0; e_curp := 0; e_remaining := 0 |}.
Proof.
  set (e0 := {| e_buf := replicate 200 0; e_curp := 0; e_remaining := 0 |}).
  assert (8 + Z.of_nat (length (body_bytes endpoint request_packet)) ≤ 200) as Hl by (vm_compute; congruence).
  pose proof (encode_packet_spec endpoint request_packet request_packet_ok e0 0 200 40 Hl ltac:(lia) ltac:(vm_compute; congruence)) as He.
  eapply wp_mono; [eapply wp_and; [apply (requests_reach_allocator endpoint controller request_packet 40 200 0 0 e0
    (2 ^ 30 + 100) 3 core1 node3 (λ _, 0) [(7, 3); (9, 5)])|exact He]|].
  - reflexivity.
  - reflexivity.
  - lia.
  - exact request_packet_ok.
  - reflexivity.
  - reflexivity.
  - vm_compute. split; reflexivity.
  - vm_compute. reflexivity.
  - exact Hl.
  - lia.
  - vm_compute. congruence.
  - reflexivity.
  - exact core1_ok.
  - exact core1_node3.
  - constructor; [vm_compute; intuition congruence..|vm_compute; reflexivity].
  - exact node3_demands.
  - vm_compute. intuition congruence.
  - repeat (constructor; [simpl; lia|]). constructor.
  - intros n e' l [Hrx (_ & _ & Ep)].
    assert (Z.of_nat (length (take (Z.to_nat n) (e_buf e'))) = 40) as El by (rewrite Ep; vm_compute; reflexivity).
    eapply wp_mono; [apply (Hrx (frame_of 0x0A000043 0 (take (Z.to_nat n) (e_buf e'))) 74 0x0A000043 0)|].
    + replace 74 with (34 + Z.of_nat (length (take (Z.to_nat n) (e_buf e')))) by lia. apply datagram_frame; lia.
    + intros Hemu. discriminate Hemu.
    + reflexivity.
    + intros r st' l' (_ & _ & Hdem & _). rewrite Hdem. reflexivity.
Defined.

(** C18. Transmission of allocations: [fill_packet_alloc] removes from a node's
    queue the longest prefix with at most 63 allocations to at most 15 distinct
    destinations; the descriptor it fills decodes to exactly these allocations in
    order, and the scratch space that maps destinations to codes is clean again. *)
Theorem packets_carry_oldest (B : build) i st en pd :
  IS_ENDPOINT B = false → 0 ≤ emu_alloc_data_bytes B ≤ 2 → 0 ≤ i < 256 →
  end_nodes st !! Z.to_nat i = Some en → pending_ok (pending_allocs en) → alloc_enc_space st = replicate 256 0 →
  pool_pd B pd →
  wp (fill_packet_alloc B i pd) (λ pd' st' l, l = [] ∧ ∃ p rest q,
    unsent (pending_allocs en) = p ++ rest ∧ fits p ∧ (rest = [] ∨ ∃ a rest', rest = a :: rest' ∧ ¬ fits (p ++ [a])) ∧
    unsent q = rest ∧ end_nodes st' = <[Z.to_nat i := set_pending_allocs q en]> (end_nodes st) ∧
    alloc_enc_space st' = replicate 256 0 ∧ packs B pd' p) st.
Proof.
  intros Hc Hby Hi E Hq Hsp Hpd. eapply wp_mono; [by apply (fill_packet_alloc_spec B i Hc Hby st en pd E)|].
  intros pd' st' l (-> & p & rest & q & H1 & H2 & H3 & H4 & H5 & -> & _ & H6). split; [done|]. by exists p, rest, q.
Qed.

Lemma packets_carry_oldest_witness :
  wp (fill_packet_alloc controller 3 empty_pd) (λ pd' _ _, ∃ p rest,
    unsent (pending_allocs node3) = p ++ rest ∧ packs controller pd' p) core1.
Proof.
  eapply wp_mono; [apply (packets_carry_oldest controller 3 core1 node3 empty_pd eq_refl)|].
  - simpl. lia.
  - lia.
  - exact core1_node3.
  - exact (no_pending _ _ (proj1 (co_node _ _ _ _ _ core1_ok _ _ core1_node3))).
  - exact (co_enc _ _ _ _ _ core1_ok).
  - constructor; [done..|constructor].
  - intros pd' st' l (_ & p & rest & q & Ep & _ & _ & _ & _ & _ & Hp). exists p, rest.
    split; [exact Ep|exact Hp].
Defined.

(** Refinement: the report queue is a FIFO queue without duplicates.
    [trigger_report] appends the destination unless it waits already and leaves
    the other nodes alone; [report_pop] fails on the empty queue, and otherwise
    removes and returns the oldest destination. *)
Theorem report_queue_refines_fifo (B : build) clk i st en :
  comm_ok B clk ∅ ∅ st → 0 ≤ i < 256 → end_nodes st !! Z.to_nat i = Some en →
  (∀ d, 0 ≤ d < 256 → wp (trigger_report clk i d) (λ _ st' l, comm_ok B clk ∅ ∅ st' ∧ l = [] ∧
    node_step (λ en en', queued (report_queue en') =
      if decide (d ∈ queued (report_queue en)) then queued (report_queue en)
      else queued (report_queue en) ++ [d]) i st st') st) ∧
  (queued (report_queue en) = [] → report_pop (report_queue en) = None) ∧
  (∀ d ds, queued (report_queue en) = d :: ds → ∃ q, report_pop (report_queue en) = Some (d, q) ∧ queued q = ds).
Proof.
  intros Hst Hi E. destruct (co_node _ _ _ _ _ Hst _ _ E) as [Hok _]. pose proof (no_reports _ _ Hok) as Hq. split.
  - intros d Hd. eapply wp_mono; [apply (trigger_report_spec B clk i Hi ∅ ∅ st en d (not_elem_of_empty i) Hd Hst E)|].
    intros _ st' l (Hst' & -> & pa & q & _ & Hch & _ & Eq). split; [done|]. split; [done|].
    eapply changes_step; [exact Hch|done|exact Eq].
  - split.
    + intros Eq. unfold report_pop. by rewrite report_empty_spec, Eq.
    + intros d ds Eq. destruct (report_pop_spec _ Hq d ds Eq) as (q & ? & _ & ? & _). by exists q.
Qed.

Lemma report_queue_refines_fifo_witness :
  ∃ q, report_pop (report_queue node3) = Some (5, q) ∧ queued q = [].
Proof.
  assert (queued (report_queue node3) = [5]) as E by (vm_compute; reflexivity).
  destruct (report_queue_refines_fifo controller (2 ^ 30 + 100) 3 core1 node3 core1_ok ltac:(lia) core1_node3) as [_ [_ Hp]].
  exact (Hp 5 [] E).
Defined.

(** Lost packets: when a packet was not received, [handle_neg_ack] queues the
    report of a destination again exactly if the packet carried a newer total
    than the acknowledged one, behind the reports that wait; no total changes. *)
Theorem lost_reports_are_requeued (B : build) clk i st en pd :
  comm_ok B clk ∅ ∅ st → 0 ≤ i < 256 → end_nodes st !! Z.to_nat i = Some en → pd_valid B pd →
  wp (handle_neg_ack true clk i (Some pd)) (λ _ st' l, comm_ok B clk ∅ ∅ st' ∧ l = [] ∧
    ∃ en', end_nodes st' = <[Z.to_nat i := en']> (end_nodes st) ∧
      acked_allocs en' = acked_allocs en ∧ queued (report_queue en) `prefix_of` queued (report_queue en') ∧
      ∀ d, d ∈ queued (report_queue en') ↔ d ∈ queued (report_queue en) ∨
        ∃ a, a ∈ take (Z.to_nat (pd_n_areq pd)) (pd_areq pd) ∧ u16 (src_dst_key a) = d ∧
          0 < s32 (tslots a - arr_get (acked_allocs en) d)) st.
Proof.
  intros Hst Hi E Hpd. eapply wp_mono; [by apply (handle_neg_ack_spec B clk i Hi pd st en)|].
  intros _ st' l (Hst' & -> & [Ho Hn]). split; [done|]. split; [done|]. destruct (Hn en E) as (en' & E' & Ha & Hp & Hd).
  exists en'. split; [|split; [done|split; [done|]]].
  - apply list_eq. intros j. destruct (decide (j = Z.to_nat i)) as [->|Hj].
    + rewrite E'. symmetry. apply list_lookup_insert_eq. by eapply lookup_lt_Some.
    + by rewrite Ho, list_lookup_insert_ne.
  - intros d. rewrite Hd. unfold newer. naive_solver.
Qed.

(** A packet with reports for destinations 5 and 6. *)
Definition lost_pd : fpproto_pktdesc := pd_set_areq 2
  ([{| src_dst_key := 5; tslots := 1 |}; {| src_dst_key := 6; tslots := 4 |}] ++ replicate 8 {| src_dst_key := 0; tslots := 0 |})
  empty_pd.

Lemma lost_reports_are_requeued_witness :
  wp (handle_neg_ack true (2 ^ 30 + 100) 3 (Some lost_pd)) (λ _ st' _, ∃ en',
    end_nodes st' = <[3%nat := en']> (end_nodes core1) ∧ 6 ∈ queued (report_queue en')) core1.
Proof.
  eapply wp_mono; [apply (lost_reports_are_requeued controller (2 ^ 30 + 100) 3 core1 node3 lost_pd core1_ok)|].
  - lia.
  - exact core1_node3.
  - constructor; [|vm_compute; intuition congruence|constructor|constructor|done].
    repeat (constructor; [vm_compute; reflexivity|]). constructor.
  - intros _ st' l (_ & _ & en' & E & _ & _ & Hq). exists en'. split; [exact E|]. apply Hq. right.
    exists {| src_dst_key := 6; tslots := 4 |}. split; [right; left|]. split; [done|].
    assert (acked_allocs node3 = replicate 256 0) as -> by (vm_compute; reflexivity). vm_compute. reflexivity.
Defined.

(** Acknowledged packets: in a build that does not retransmit allocations
    [handle_ack] raises the acknowledged total of each destination in the packet
    to the reported one, and never lowers it. *)
Theorem acknowledged_totals_grow (B : build) i st en pd rs A : RETRANSMIT_UNACKED_ALLOCS B = false → 0 ≤ i < 256 →
  end_nodes st !! Z.to_nat i = Some en → tracks (acked_allocs en) A → near (2 ^ 31) A rs →
  Forall2 reports (take (Z.to_nat (pd_n_areq pd)) (pd_areq pd)) rs →
  wp (handle_ack B true i (Some pd)) (λ _ st' l, l = [] ∧ ∃ acked,
    tracks acked (raise_all A rs) ∧ (∀ d, A d ≤ raise_all A rs d) ∧ st' = with_acked i st en acked) st.
Proof.
  intros HB Hi E Htr Hn Hrs. eapply wp_mono; [by apply (handle_ack_spec B i Hi pd rs st en A)|].
  intros _ st' l (-> & acked & Hac & ->). split; [done|]. exists acked. split; [done|]. split; [|done].
  clear. revert A. induction rs as [|r rs IH]; intros A d; [done|]. simpl. etrans; [|apply IH].
  unfold raise. case_decide; [subst|]; lia.
Qed.

Lemma acknowledged_totals_grow_witness :
  wp (handle_ack controller true 3 (Some lost_pd)) (λ _ st' _, ∃ acked, arr_get acked 6 = 4 ∧ st' = with_acked 3 core1 node3 acked) core1.
Proof.
  eapply wp_mono; [apply (acknowledged_totals_grow controller 3 core1 node3 lost_pd [(5, 1); (6, 4)] (λ _, 0))|].
  - reflexivity.
  - lia.
  - exact core1_node3.
  - assert (acked_allocs node3 = replicate 256 0) as -> by (vm_compute; reflexivity). exact tracks_zero.
  - vm_compute. intuition congruence.
  - repeat (constructor; [split; [reflexivity|split; [reflexivity|simpl; lia]]|]). constructor.
  - intros _ st' l (_ & acked & Hac & _ & ->). exists acked. split; [|done]. rewrite (proj2 Hac 6) by lia. reflexivity.
Defined.

(** Overflow: the test whether the queue of pending allocations is full
    compares free-running counters with "head is one more than tail" and does not
    hold when 256 allocations wait: the next allocation takes the place of the
    oldest one, which is lost, and is sent twice itself. *)
Theorem full_queue_overwrites q a : pending_ok q → pq_len q = 256 →
  make_room q = q ∧ ∃ oldest rest, unsent q = oldest :: rest ∧
    unsent (push_alloc a (make_room q)) = a :: rest ++ [a].
Proof.
  intros Hq Hlen. pose proof (pk_idx _ Hq) as [Hh Ht]. pose proof (pk_cells _ Hq) as Hl.
  assert (make_room q = q) as Er.
  { unfold make_room. destruct (Z.eqb_spec (pq_head q) (u32 (pq_tail q + 1))) as [E|]; [|done].
    exfalso. unfold pq_len in Hlen. mlia. }
  split; [done|]. rewrite Er. unfold unsent. rewrite Hlen, circ_pop, Hl by lia. change (256 - 1) with 255.
  exists (arr_get (allocs q) (pq_head q mod 256)), (circ (allocs q) (pq_head q + 1) 255). split; [done|].
  assert (pq_len (push_alloc a q) = 257) as ->.
  { unfold pq_len, push_alloc. simpl. rewrite u32_diff_succ. fold (pq_len q). by rewrite Hlen. }
  rewrite circ_pop by lia. simpl allocs. simpl pq_head. rewrite length_arr_set, Hl, wnd_pos_mod.
  change (Z.of_nat 256) with 256. change (257 - 1) with (255 + 1).
  assert (pq_tail q mod 256 = pq_head q mod 256) as Et by (unfold pq_len in Hlen; mlia).
  rewrite Et. f_equal.
  - rewrite arr_get_set, decide_True; [done|done|rewrite Hl; mlia|mlia].
  - replace (pq_head q mod 256) with ((pq_head q + 1 + 255) mod Z.of_nat (length (allocs q))) by (rewrite Hl; mlia).
    apply circ_push. rewrite Hl. lia.
Qed.

Definition full_queue : pending_alloc_queue := {|
  allocs := replicate 256 {| al_dst := 1; al_timeslot := 0; al_flags := 0; al_id := 0; al_data := [0; 0] |};
  pq_head := 0; pq_tail := 256 |}.

Lemma full_queue_overwrites_witness :
  let a := {| al_dst := 2; al_timeslot := 0; al_flags := 0; al_id := 0; al_data := [0; 0] |} in
  ∃ rest, unsent (push_alloc a (make_room full_queue)) = a :: rest ++ [a].
Proof.
  intros a. destruct (full_queue_overwrites full_queue a) as [_ (o & rest & _ & E)]; [|reflexivity|exists rest; exact E].
  constructor; [reflexivity|simpl; lia|apply Forall_replicate; simpl; lia|by apply Forall_replicate].
Defined.

(** Undefined behaviour: without -fwrapv the difference of two totals in
    [handle_areq] overflows a signed 32-bit integer when the total of a flow goes
    from 2^31 - 1 to 2^31 timeslots; with -fwrapv the one new timeslot is handed
    to the allocator. *)
Theorem demand_difference_overflows (B : build) clk i d st en :
  IS_ENDPOINT B = false → EMULATION_ALGO B = false → 0 ≤ i < 64 → 0 ≤ d < 64 →
  comm_ok B clk ∅ ∅ st → end_nodes st !! Z.to_nat i = Some en →
  tracks (demands en) (λ x, if decide (x = d) then 2 ^ 31 - 1 else 0) →
  handle_areq B false clk i (req_bytes [(d, 2 ^ 31)]) 1 st = None ∧
  wp (handle_areq B true clk i (req_bytes [(d, 2 ^ 31)]) 1) (λ _ _ l,
    l = [EvCall (backlog_call B i (req_bytes [(d, 2 ^ 31)]) 6 (d, 2 ^ 31 - 1, 2 ^ 31))]) st.
Proof.
  intros Hc He Hi Hr Hst E Htr. assert (reads_areq_data B = false) as Hd by (unfold reads_areq_data; by rewrite He). split.
  - pose proof (tracks_lookup _ _ d Htr ltac:(lia)) as Ed. cbv beta in Ed. rewrite decide_True in Ed by done.
    unfold handle_areq. cbv zeta. change (Z.to_nat 1) with 1%nat. cbn [areq_loop].
    assert (ld16 (req_bytes [(d, 2 ^ 31)]) (4 * 0) = Some d) as E1
      by (change (req_bytes [(d, 2 ^ 31)]) with (be16 d ++ be16 0); change (4 * 0) with 0; rewrite ld16_be16; f_equal; mlia).
    assert (ld16 (req_bytes [(d, 2 ^ 31)]) (4 * 0 + 2) = Some 0) as E2 by reflexivity.
    rewrite E1, E2. unfold mbind, M_bind, get_node, get, deref, mret, M_ret. simpl.
    change NUM_NODES with 64. rewrite (proj2 (Z.ltb_lt i 64)) by lia. simpl.
    change FLOW_SHIFT with 0. rewrite Z.shiftr_0_r, (proj2 (Z.ltb_lt d 64)) by lia. simpl.
    unfold mbind, M_bind. rewrite E. simpl. rewrite Ed. reflexivity.
  - eapply wp_mono; [apply (handle_areq_spec B clk i Hc Hd Hi (req_bytes [(d, 2 ^ 31)]) 1 6 st en
      (λ x, if decide (x = d) then 2 ^ 31 - 1 else 0) [(d, 2 ^ 31)]); try done; try (by rewrite He)|].
    + simpl. rewrite decide_True by done. lia.
    + repeat constructor; simpl; lia.
    + pose proof (areq_entries_bytes [{| src_dst_key := d; tslots := 2 ^ 31 |}] []) as Hb. rewrite app_nil_r in Hb.
      etrans; [exact Hb|]. simpl. unfold areq_pair. simpl. by rewrite (u16_small d) by lia.
    + intros _ st' l (-> & _). cbn [increases]. rewrite decide_True by done. reflexivity.
Qed.

(** A node that has requested 2^31 - 1 timeslots to destination 5. *)
Definition core1_full : comm_state := with_demands 3 core1 node3 (arr_set (replicate 256 0) 5 (2 ^ 31 - 1)).

Lemma demand_difference_overflows_witness :
  handle_areq controller false (2 ^ 30 + 100) 3 (req_bytes [(5, 2 ^ 31)]) 1 core1_full = None.
Proof.
  refine (proj1 (demand_difference_overflows controller (2 ^ 30 + 100) 3 5 core1_full
    (set_demands (arr_set (replicate 256 0) 5 (2 ^ 31 - 1)) node3) eq_refl eq_refl _ _ _ _ _)); [lia|lia|..].
  - apply comm_ok_demands; [lia|exact core1_ok|exact core1_node3|reflexivity].
  - apply list_lookup_insert_eq. rewrite (co_nodes _ _ _ _ _ core1_ok). simpl. lia.
  - split; [reflexivity|]. intros d Hd. cbn [demands set_demands].
    rewrite arr_get_set by (simpl; lia). destruct (decide (d = 5)) as [->|Hne]; [by rewrite decide_True|].
    rewrite decide_False by congruence. apply (arr_get_Forall (λ x, x = u32 0) (replicate 256 0)); [by apply Forall_replicate|].
    rewrite length_replicate. lia.
Defined.

(** The allocations to [d], and those to other destinations, that wait at a node;
    and the number of timeslots that it was sent for [d]. *)
Definition unsent_to (en : end_node_state) (d : Z) : list pending_alloc :=
  filter (λ a, al_dst a = d) (unsent (pending_allocs en)).
Definition unsent_elsewhere (en : end_node_state) (d : Z) : list pending_alloc :=
  filter (λ a, al_dst a ≠ d) (unsent (pending_allocs en)).
Definition sent_to (en : end_node_state) (d : Z) : Z :=
  arr_get (alloc_to_dst en) d - Z.of_nat (length (unsent_to en d)).

Lemma unsent_split en d : pq_len (pending_allocs en) =
  Z.of_nat (length (unsent_to en d)) + Z.of_nat (length (unsent_elsewhere en d)).
Proof.
  rewrite <- length_unsent. unfold unsent_to, unsent_elsewhere.
  induction (unsent (pending_allocs en)) as [|a l IH]; [done|]. rewrite !filter_cons.
  destruct (decide (al_dst a = d)), (decide (al_dst a ≠ d)); simpl; lia || done.
Qed.

(** C33. Reports: the packet carries the ten oldest reports, or all if there are
    fewer, in order, and another transmission is scheduled for the rest. The
    reported total of a destination is the number of timeslots sent for it, less
    the number of unsent allocations to other destinations (modulo 2^32): it is
    too small whenever allocations to other destinations wait. *)
Theorem reported_totals (B : build) clk i st en pd :
  0 ≤ i < 256 → comm_ok B clk ∅ ∅ st → end_nodes st !! Z.to_nat i = Some en → pool_pd B pd →
  wp (fill_packet_report clk i pd) (λ pd' st' l, l = [] ∧ comm_ok B clk ∅ ∅ st' ∧
    take (Z.to_nat (pd_n_areq pd')) (pd_areq pd') = (λ d, {| src_dst_key := d;
      tslots := u32 (sent_to en d - Z.of_nat (length (unsent_elsewhere en d))) |}) <$> take 10 (queued (report_queue en)) ∧
    ∃ q pa, end_nodes st' = <[Z.to_nat i := set_tx_pacer pa (set_report_queue q en)]> (end_nodes st) ∧
      queued q = drop 10 (queued (report_queue en)) ∧ (queued q ≠ [] → pacer_is_triggered pa = true)) st.
Proof.
  intros Hi Hst E Hpd.
  eapply wp_mono; [by apply (fill_packet_report_spec B clk i Hi ∅ ∅ st en pd (not_elem_of_empty i))|].
  intros pd' st' l (Hst' & -> & (areq & -> & _ & Htk) & q & pa & Hch & Hq). split; [done|].
  assert (comm_ok B clk ∅ ∅ st') as Hok by (eapply comm_ok_weaken; [|exact Hst']; by intros x [? _]%elem_of_difference).
  split; [done|]. split.
  - simpl. rewrite Nat2Z.id, Htk. apply list_fmap_ext. intros k d _. unfold report_of, sent_to.
    rewrite (unsent_split en d). do 2 f_equal. lia.
  - exists q, pa. split; [apply (ch_nodes _ _ _ _ Hch)|]. split; [done|]. intros Hne.
    assert (end_nodes st' !! Z.to_nat i = Some (set_tx_pacer pa (set_report_queue q en))) as E'
      by (rewrite (ch_nodes _ _ _ _ Hch); apply list_lookup_insert_eq; by eapply lookup_lt_Some).
    destruct (co_timer _ _ _ _ _ Hok _ _ E' (not_elem_of_empty _)) as [_ Hw]. apply Hw; [apply not_elem_of_empty|done].
Qed.

(** The report about the timeslot to 5 while it waits itself. *)
Lemma reported_totals_witness :
  wp (fill_packet_report (2 ^ 30 + 100) 3 empty_pd) (λ pd' _ _,
    take (Z.to_nat (pd_n_areq pd')) (pd_areq pd') = [{| src_dst_key := 5; tslots := 0 |}]) core1.
Proof.
  eapply wp_mono; [apply (reported_totals controller (2 ^ 30 + 100) 3 core1 node3 empty_pd)|].
  - lia.
  - exact core1_ok.
  - exact core1_node3.
  - constructor; [done..|constructor].
  - intros pd' st' l (_ & _ & E & _). rewrite E. vm_compute. reflexivity.
Defined.
