(* ===== verification/Backup.v ===== *)
(** * The backup arbiter and announcements

    Model of [src/src/arbiter/watchdog.h], [igmp.h], [arp.h] and of the rest of
    [comm_core.c]: the announcements that a master with a backup sends, the loop
    in which a backup waits for the master's to stay away, and the turn of
    [exec_comm_core] that chooses between them. Logging is left out, and frames
    that the loop only queues leave with [SendPacket].

    The thresholds are products of seconds and clock rates; they are parameters
    in ticks. Attempts to allocate and to send a frame are lists of outcomes.

    After the model: what the loop of a backup does, and when it takes over. *)

From S2P Require Import Prelude Platform Protocol ConnFacts ConnSpec ConnAck ConnSend ConnInwnd ConnSafe Codec Pacer Timer.
From S2P Require Import Comm CommInv CommHandlers CommFill CommTx CommTurn CommLoop Samples CommTheorems.

Module Backup.
Definition FP_WATCHDOG_HDR_LEN : Z := 8.
Definition IGMP_IPV4_HDR_LEN : Z := 8.
Definition IPPROTO_IGMP : Z := 2.
Definition TYPE_MEMBERSHIP_REPORT : Z := 0x16.
Definition CONTROLLER_GROUP_ADDR : Z := 0xEF010101.
Definition fp_igmp_group_mac : list Z := [0x01; 0x00; 0x5E; 0x01; 0x01; 0x01].
Definition ARP_HTYPE_ETHERNET : Z := 1.
Definition ARP_OP_REQUEST : Z := 1.
Definition ETHER_ADDR_LEN : Z := 6.

(** 192.168.1.1 *)
Definition arbiter_ip : Z := 0xC0A80101.

(** ** Frames *)
Definition ether_header (d_addr s_addr : list Z) (ether_type : Z) : list Z := d_addr ++ s_addr ++ be16 ether_type.

(** The checksum is left to the hardware. *)
Definition group_header (len ttl proto src_addr : Z) : list Z :=
  [0x45; 0] ++ be16 len ++ be16 0 ++ be16 0x4000 ++ [ttl; proto] ++ [0; 0] ++ be32 src_addr ++ be32 CONTROLLER_GROUP_ADDR.

(** A 64-bit integer in the byte order of the host. *)
Definition host64 (v : Z) : list Z := (λ i, Z.land (Z.shiftr v (8 * i)) 0xFF) <$> seqZ 0 8.

Definition make_watchdog (eth_addr : list Z) (our_ip now : Z) : list Z :=
  ether_header fp_igmp_group_mac eth_addr ETHER_TYPE_IPv4 ++
  group_header (sizeof_ipv4_hdr + FP_WATCHDOG_HDR_LEN) 77 IPPROTO_FASTPASS_WATCHDOG our_ip ++ host64 now.

Definition igmp_header (csum : Z) : list Z :=
  [TYPE_MEMBERSHIP_REPORT; 0] ++ [csum mod 2 ^ 8; csum / 2 ^ 8] ++ be32 CONTROLLER_GROUP_ADDR.

(** [addr] is the address of the IGMP header. *)
Definition make_igmp (eth_addr : list Z) (our_ip addr : Z) : list Z :=
  ether_header fp_igmp_group_mac eth_addr ETHER_TYPE_IPv4 ++
  group_header (sizeof_ipv4_hdr + IGMP_IPV4_HDR_LEN) 1 IPPROTO_IGMP our_ip ++
  igmp_header (fp_fold (fp_csum_partial addr (igmp_header 0) 0)).

Definition make_arp (eth_addr : list Z) (oper : Z) (sha : list Z) (spa : Z) (tha : list Z) (tpa : Z) : list Z :=
  ether_header (replicate 6 0xFF) eth_addr ETHER_TYPE_ARP ++
  be16 ARP_HTYPE_ETHERNET ++ be16 ETHER_TYPE_IPv4 ++ [ETHER_ADDR_LEN; 4] ++ be16 oper ++ sha ++ be32 spa ++ tha ++ be32 tpa.

Definition make_gratuitous_arp (eth_addr : list Z) (src_ip : Z) : list Z :=
  make_arp eth_addr ARP_OP_REQUEST eth_addr src_ip (replicate 6 0) src_ip.

(** ** State *)
Record backup_state := { comm : comm_state; last_rx_watchdog : Z; last_tx_watchdog : Z; last_igmp : Z }.

Definition set_comm v s := {| comm := v; last_rx_watchdog := last_rx_watchdog s; last_tx_watchdog := last_tx_watchdog s; last_igmp := last_igmp s |}.
Definition set_last_rx v s := {| comm := comm s; last_rx_watchdog := v; last_tx_watchdog := last_tx_watchdog s; last_igmp := last_igmp s |}.
Definition set_last_tx v s := {| comm := comm s; last_rx_watchdog := last_rx_watchdog s; last_tx_watchdog := v; last_igmp := last_igmp s |}.
Definition set_last_igmp v s := {| comm := comm s; last_rx_watchdog := last_rx_watchdog s; last_tx_watchdog := last_tx_watchdog s; last_igmp := v |}.

Inductive backup_call :=
| CommCall (c : comm_call)
| SendFrame (frame : list Z)
| FreeFrame.

Abbreviation K_ := (M backup_call backup_state).

Definition lift_event (e : event comm_call) : event backup_call :=
  match e with EvBug s => EvBug s | EvCall c => EvCall (CommCall c) end.

(** A procedure of the communication core. *)
Definition lift {A} (m : C_ A) : K_ A := λ s,
  match m (comm s) with
  | Some (a, st, l) => Some (a, set_comm st s, lift_event <$> l)
  | None => None
  end.

(** An attempt: whether memory is found, and whether the frame is sent. *)
Record attempt := { allocated : bool; sent : bool }.

Fixpoint send_watchdog (frame : list Z) (l : list attempt) : K_ unit :=
  match l with
  | [] => ub
  | x :: l' =>
      if negb (allocated x) then send_watchdog frame l'
      else if sent x then call (SendFrame frame)
      else call FreeFrame;; send_watchdog frame l'
  end.

(** [send_igmp] and [send_gratuitous_arp] pass on the NULL of a failed allocation. *)
Fixpoint send_frame (frame : list Z) (l : list attempt) : K_ unit :=
  match l with
  | [] => ub
  | x :: l' =>
      if negb (allocated x) then ub
      else if sent x then call (SendFrame frame)
      else call FreeFrame;; send_frame frame l'
  end.

Section loops.
Context (B : build) (fwrapv I_AM_MASTER RUN_WITH_BACKUP : bool) `{H : HashOps} (eth_addr : list Z).
Context (trigger_threshold packet_gap igmp_interval : Z).

Definition send_igmp (addr : Z) (l : list attempt) : K_ unit := send_frame (make_igmp eth_addr arbiter_ip addr) l.
Definition send_gratuitous_arp (l : list attempt) : K_ unit := send_frame (make_gratuitous_arp eth_addr arbiter_ip) l.

(** ** Waiting for the master's announcements to stay away *)
Definition watchdog_rx (buf : list Z) : K_ bool :=
  let cleanup (r : bool) : K_ bool := call (CommCall FreeMbuf);; mret r in
  ether_type ← deref (ld16 buf 12);
  if negb (ether_type =? ETHER_TYPE_IPv4) then cleanup false
  else
    next_proto_id ← deref (ld8 buf (sizeof_ether_hdr + 9));
    cleanup (next_proto_id =? IPPROTO_FASTPASS_WATCHDOG).

(** [rx_now] of a packet is the clock after it was looked at. *)
Fixpoint watchdog_burst (pkts : list rx_mbuf) : K_ unit :=
  match pkts with
  | [] => mret tt
  | p :: pkts' =>
      b ← watchdog_rx (rx_buf p);
      when b (modify (set_last_rx (rx_now p)));;
      watchdog_burst pkts'
  end.

(** What the environment supplies to one round of [watchdog_loop]. *)
Record poll := {
  p_now : Z;
  p_rx : list rx_mbuf;
  p_alloc_now : Z;
  p_admitted : list (list admitted_traffic);
  p_arp : list attempt;
  p_igmp : list attempt;
  p_addr : Z;
}.

Definition watchdog_round (p : poll) : K_ unit :=
  watchdog_burst (p_rx p);;
  lift (process_allocated_traffic B (p_alloc_now p) (p_admitted p));;
  s ← get;
  when (u64 (p_now p - last_igmp s) >? igmp_interval)
    (modify (set_last_igmp (p_now p));;
     send_gratuitous_arp (p_arp p);;
     send_igmp (p_addr p) (p_igmp p)).

(** The rounds that are left when the loop ends; [None] while it waits. *)
Fixpoint watchdog_rounds (now : Z) (polls : list poll) : K_ (option (list poll)) :=
  s ← get;
  if u64 (last_rx_watchdog s - now) <? trigger_threshold then
    match polls with
    | [] => mret None
    | p :: polls' => watchdog_round p;; watchdog_rounds (p_now p) polls'
    end
  else mret (Some polls).

Definition watchdog_loop (now : Z) (polls : list poll) : K_ (option (list poll)) :=
  modify (set_last_rx now);;
  watchdog_rounds now polls.

(** ** The main loop *)

(** Before the loop; the wait for the start time is left out. [timeouts] and [tx] are
    the clock when the wheels are set up. *)
Definition exec_start (igmp_now watchdog_now : Z) (arp1 arp2 igmp : list attempt) (addr timeouts tx : Z) : K_ unit :=
  modify (set_last_igmp igmp_now);;
  modify (set_last_tx watchdog_now);;
  send_gratuitous_arp arp1;;
  send_gratuitous_arp arp2;;
  when RUN_WITH_BACKUP (send_igmp addr igmp);;
  modify (λ s, set_comm (set_timeout_timers (fp_init_timers timeouts) (comm s)) s);;
  modify (λ s, set_comm (set_tx_timers (fp_init_timers tx) (comm s)) s).

(** What [turn] leaves out; [x_time] is the clock when the watchdog frame that is sent
    was made. *)
Record extra := { x_igmp : list attempt; x_addr : Z; x_watchdog : list attempt; x_time : Z; x_now : Z; x_polls : list poll }.

(** After the transmissions of a turn. *)
Definition announce (now : Z) (x : extra) : K_ unit :=
  s ← get;
  when (RUN_WITH_BACKUP && (u64 (now - last_igmp s) >? igmp_interval))
    (modify (set_last_igmp now);;
     send_igmp (x_addr x) (x_igmp x));;
  s ← get;
  when (RUN_WITH_BACKUP && (u64 (now - last_tx_watchdog s) >? packet_gap))
    (send_watchdog (make_watchdog eth_addr arbiter_ip (x_time x)) (x_watchdog x);;
     modify (set_last_tx now)).

(** The rounds of [watchdog_loop] that were not needed. *)
Inductive outcome := Ended | Waiting | Goes_on (polls : list poll).

(** One turn of the [while (1)] of [exec_comm_core], on any arbiter. *)
Definition exec_turn (t : turn) (x : extra) : K_ outcome :=
  r ← lift (do_rx_burst B fwrapv (t_deadline t) (t_rx t));
  match r with
  | None => mret Ended
  | Some saw_watchdog =>
      if saw_watchdog && negb I_AM_MASTER then
        r ← watchdog_loop (x_now x) (x_polls x);
        mret (match r with None => Waiting | Some polls => Goes_on polls end)
      else
        lift (comm_turn B fwrapv t);;
        announce (t_now t) x;;
        mret (Goes_on (x_polls x))
  end.
End loops.
End Backup.

Import Backup.

(** ** Procedures of the communication core *)
Lemma wp_lift {A} (m : C_ A) Q s :
  wp m (λ a st l, Q a (set_comm st s) (lift_event <$> l)) (comm s) → wp (lift m) Q s.
Proof. unfold wp, lift. by destruct (m (comm s)) as [[[a st] l]|]. Qed.

Lemma no_bug_lift l : no_bug l → no_bug (lift_event <$> l).
Proof. intros Hl. apply Forall_fmap. eapply Forall_impl; [exact Hl|]. by intros []. Qed.

(** ** Sending *)

(** Some attempts fail to send before one succeeds. *)
Definition sends (l : list attempt) : Prop :=
  ∃ k rest, l = replicate k {| allocated := true; sent := false |} ++ {| allocated := true; sent := true |} :: rest.

Lemma send_frame_spec frame l s : sends l → wp (send_frame frame l) (λ _ s' l', s' = s ∧ no_bug l' ∧
  ∃ k, calls l' = replicate k FreeFrame ++ [SendFrame frame]) s.
Proof.
  intros (k & rest & ->). induction k as [|k IH]; simpl.
  - apply wp_call. split; [done|]. split; [by repeat constructor|]. by exists 0%nat.
  - apply wp_bind, wp_call. eapply wp_mono; [exact IH|]. intros _ s' l' (-> & Hl & n & E). split; [done|].
    split; [by constructor|]. exists (S n). simpl. unfold calls in *. simpl. by rewrite E.
Qed.

(** The checksum of a membership report verifies, wherever the report is in memory. *)
Lemma igmp_checksum addr : let csum := fp_fold (fp_csum_partial addr (igmp_header 0) 0) in
  fp_fold (fp_csum_partial addr (igmp_header csum) 0) = 0.
Proof.
  cbv zeta. unfold fp_csum_partial. change (Z.of_nat (length (igmp_header _)) <? 4) with false. cbv iota.
  destruct (Z.odd addr); [destruct (Z.testbit (addr + 1) 1)|destruct (Z.testbit addr 1)]; vm_compute; reflexivity.
Qed.

(** ** Reception *)
Definition is_watchdog (buf : list Z) : bool :=
  match ld16 buf 12, ld8 buf 23 with
  | Some ether_type, Some proto => (ether_type =? ETHER_TYPE_IPv4) && (proto =? IPPROTO_FASTPASS_WATCHDOG)
  | _, _ => false
  end.

(** The last time a watchdog packet was seen. *)
Definition last_seen (pkts : list rx_mbuf) (d : Z) : Z :=
  foldl (λ d p, if is_watchdog (rx_buf p) then rx_now p else d) d pkts.

Lemma buf_ok_loads buf : buf_ok buf → is_Some (ld16 buf 12) ∧ is_Some (ld8 buf 23).
Proof. unfold buf_ok. intros Hb. split; [apply ld16_some|apply ld8_some]; lia. Qed.

Lemma watchdog_rx_spec buf s : buf_ok buf → wp (watchdog_rx buf) (λ b s' l, b = is_watchdog buf ∧ s' = s ∧ no_bug l) s.
Proof.
  intros [[e He] [p Hp]]%buf_ok_loads. unfold watchdog_rx, is_watchdog. rewrite He. apply wp_bind, (wp_deref _ e); [done|].
  destruct (e =? ETHER_TYPE_IPv4); simpl.
  - apply wp_bind, (wp_deref _ p); [done|]. rewrite Hp. apply wp_bind, wp_call, wp_ret. split; [done|]. split; [done|]. by repeat constructor.
  - rewrite Hp. apply wp_bind, wp_call, wp_ret. split; [done|]. split; [done|]. by repeat constructor.
Qed.

Lemma watchdog_burst_spec pkts : ∀ s, Forall (λ p, buf_ok (rx_buf p)) pkts →
  wp (watchdog_burst pkts) (λ _ s' l, s' = set_last_rx (last_seen pkts (last_rx_watchdog s)) s ∧ no_bug l) s.
Proof.
  induction pkts as [|p pkts IH]; intros s Hb; cbn [watchdog_burst].
  - apply wp_ret. split; [by destruct s|apply no_bug_nil].
  - apply Forall_cons in Hb as [Hp Hb]. apply wp_bind. eapply wp_mono; [by apply watchdog_rx_spec|]. intros b ? l (-> & -> & Hl).
    change (last_seen (p :: pkts) (last_rx_watchdog s)) with
      (last_seen pkts (if is_watchdog (rx_buf p) then rx_now p else last_rx_watchdog s)).
    destruct (is_watchdog _); cbn [when]; (apply wp_bind; first [apply wp_modify|apply wp_ret]);
      (eapply wp_mono; [by apply IH|]); intros _ s' l' [-> Hl']; (split; [done|]); simpl; by apply no_bug_app.
Qed.

(** No packet of the burst is a watchdog packet. *)
Definition no_watchdog (pkts : list rx_mbuf) : bool := forallb (λ p, negb (is_watchdog (rx_buf p))) pkts.

Lemma last_seen_spec pkts : ∀ clk t d, in_order clk pkts t →
  if no_watchdog pkts then last_seen pkts d = d
  else clk ≤ last_seen pkts d ≤ t ∧ last_seen pkts d ∈ rx_now <$> pkts.
Proof.
  induction pkts as [|p pkts IH]; intros clk t d Ho; [done|]. destruct Ho as [Hc Ho]. pose proof (in_order_le _ _ _ Ho).
  change (last_seen (p :: pkts) d) with (last_seen pkts (if is_watchdog (rx_buf p) then rx_now p else d)).
  change (no_watchdog (p :: pkts)) with (negb (is_watchdog (rx_buf p)) && no_watchdog pkts).
  specialize (IH (rx_now p) t (if is_watchdog (rx_buf p) then rx_now p else d) Ho).
  destruct (is_watchdog (rx_buf p)), (no_watchdog pkts); simpl; [|split; [lia|apply elem_of_cons; right; apply IH]|exact IH|
    split; [lia|apply elem_of_cons; right; apply IH]].
  rewrite IH. split; [lia|apply elem_of_cons; by left].
Qed.

(** ** Rounds of the loop *)
Section loop.
Context (B : build) (Hbytes : 0 ≤ emu_alloc_data_bytes B ≤ 2) (eth_addr : list Z) (trigger_threshold igmp_interval : Z).
Context (Hthreshold : 0 < trigger_threshold ≤ 2 ^ 63).

(** The clock advances between the start of a round and what was seen before, the
    packets are looked at in order and within the threshold, and frames can be sent. *)
Record poll_ok (clk : Z) (p : poll) : Prop := {
  po_now : clk < p_now p;
  po_rx : Forall (λ x, buf_ok (rx_buf x) ∧ rx_now x < p_now p + trigger_threshold) (p_rx p);
  po_order : in_order (p_now p) (p_rx p) (p_alloc_now p);
  po_admitted : Forall (Forall admitted_ok) (p_admitted p);
  po_arp : sends (p_arp p);
  po_igmp : sends (p_igmp p);
}.

(** Rounds from time [clk] to time [t]. *)
Fixpoint polls_ok (clk : Z) (polls : list poll) (t : Z) : Prop :=
  match polls with
  | [] => clk ≤ t
  | p :: polls' => poll_ok clk p ∧ polls_ok (p_alloc_now p) polls' t
  end.

Lemma polls_ok_le clk polls t : polls_ok clk polls t → clk ≤ t.
Proof using. revert clk. induction polls as [|p polls IH]; simpl; intros clk Hp; [done|]. destruct Hp as [[? _ ?%in_order_le _ _ _] ?%IH]. lia. Qed.

Lemma announcements_spec p s : sends (p_arp p) → sends (p_igmp p) →
  wp (modify (set_last_igmp (p_now p));; send_gratuitous_arp eth_addr (p_arp p);; send_igmp eth_addr (p_addr p) (p_igmp p))
    (λ _ s' l, s' = set_last_igmp (p_now p) s ∧ no_bug l) s.
Proof using.
  intros Ha Hi. apply wp_bind, wp_modify, wp_bind. eapply wp_mono; [by apply send_frame_spec|]. intros _ ? l1 (-> & Hl1 & _).
  eapply wp_mono; [by apply send_frame_spec|]. intros _ ? l2 (-> & Hl2 & _). split; [done|]. simpl. by apply no_bug_app.
Qed.

Lemma round_spec clk p s : poll_ok clk p → comm_ok B clk ∅ ∅ (comm s) → in_reach (p_alloc_now p) (positions (comm s)) →
  wp (watchdog_round B eth_addr igmp_interval p) (λ _ s' l, comm_ok B (p_alloc_now p) ∅ ∅ (comm s') ∧ no_bug l ∧
    positions (comm s') = positions (comm s) ∧ last_rx_watchdog s' = last_seen (p_rx p) (last_rx_watchdog s)) s.
Proof using Hbytes.
  intros [Hnow Hrx Hord Had Harp Hig] Hst Hr. pose proof (in_order_le _ _ _ Hord). unfold watchdog_round. apply wp_bind.
  eapply wp_mono; [apply watchdog_burst_spec; eapply Forall_impl; [exact Hrx|]; by intros x [? _]|]. intros _ ? l1 [-> Hl1].
  apply wp_bind, wp_lift. eapply wp_mono.
  { apply wp_keeps; [apply keeps_process_allocated|]. apply (process_allocated_waits B Hbytes); [done|].
    eapply comm_ok_later; [|exact Hr|exact Hst]; lia. }
  intros _ st l2 ((Hst2 & Hl2 & _) & Hpos). apply wp_bind, wp_get.
  destruct (_ >? _); cbn [when].
  - eapply wp_mono; [by apply announcements_spec|]. intros _ s' l3 [-> Hl3]. split; [done|]. split; [|done].
    rewrite !no_bug_app. split_and!; try done; [by apply no_bug_lift|apply no_bug_nil].
  - apply wp_ret. split; [done|]. split; [|done]. rewrite !no_bug_app. split_and!; try done; [by apply no_bug_lift|apply no_bug_nil..].
Qed.

(** What is left after the first round without a watchdog packet. *)
Fixpoint after_quiet (polls : list poll) : option (list poll) :=
  match polls with
  | [] => None
  | p :: polls' => if no_watchdog (p_rx p) then Some polls' else after_quiet polls'
  end.

Lemma rounds_stop now polls s : trigger_threshold ≤ u64 (last_rx_watchdog s - now) →
  wp (watchdog_rounds B eth_addr trigger_threshold igmp_interval now polls) (λ r s' l, r = Some polls ∧ s' = s ∧ l = []) s.
Proof using. intros Hth. destruct polls; cbn [watchdog_rounds]; apply wp_bind, wp_get; by rewrite (proj2 (Z.ltb_ge _ _) Hth). Qed.

Lemma rounds_spec polls : ∀ clk now s t, polls_ok clk polls t → now ≤ last_rx_watchdog s ≤ clk → last_rx_watchdog s < now + trigger_threshold →
  0 ≤ now → comm_ok B clk ∅ ∅ (comm s) → in_reach t (positions (comm s)) →
  wp (watchdog_rounds B eth_addr trigger_threshold igmp_interval now polls) (λ r s' l, r = after_quiet polls ∧ no_bug l ∧
    positions (comm s') = positions (comm s) ∧ ∃ clk', clk ≤ clk' ≤ t ∧ comm_ok B clk' ∅ ∅ (comm s')) s.
Proof using Hbytes Hthreshold.
  induction polls as [|p polls IH]; intros clk now s t Hp Hl Hth Hnow Hst Hr; pose proof (polls_ok_le _ _ _ Hp) as Hle; cbn [watchdog_rounds];
    apply wp_bind, wp_get; assert (t < 2 ^ 62) by apply Hr; rewrite u64_small, (proj2 (Z.ltb_lt _ _)) by lia.
  - apply wp_ret. split; [done|]. split; [apply no_bug_nil|]. split; [done|]. exists clk. by split.
  - destruct Hp as [Hp Hps]. pose proof Hp as [Hnow' Hrx Hord _ _ _]. pose proof (polls_ok_le _ _ _ Hps). pose proof (in_order_le _ _ _ Hord).
    apply wp_bind. eapply wp_mono; [apply (round_spec clk); [exact Hp|exact Hst|eapply in_reach_le; [|exact Hr]; lia]|].
    intros _ s1 l1 (Hst1 & Hl1 & Epos & Elast). pose proof (last_seen_spec _ _ _ (last_rx_watchdog s) Hord) as Hseen. cbn [after_quiet].
    destruct (no_watchdog (p_rx p)).
    + eapply wp_mono; [apply rounds_stop; rewrite Elast, Hseen; unfold u64; zify_div; lia|]. intros r s' l (-> & -> & ->).
      split; [done|]. rewrite app_nil_r. split; [done|]. split; [done|]. exists (p_alloc_now p). split; [lia|done].
    + destruct Hseen as [Hb Hin]. apply list_elem_of_fmap in Hin as (x & Ex & Hx). rewrite Forall_forall in Hrx. destruct (Hrx x Hx) as [_ Hx2].
      eapply wp_mono; [apply (IH (p_alloc_now p) (p_now p) s1 t); rewrite ?Epos, ?Elast; try done; lia|].
      intros r s' l (Er & Hl' & Epos' & clk' & Hc & Hst'). split; [done|]. split; [simpl; by apply no_bug_app|]. split; [congruence|].
      exists clk'. split; [lia|done].
Qed.
End loop.

(** ** The master's announcements *)
Lemma announcement_is_seen (eth_addr : list Z) our_ip now : length eth_addr = 6%nat →
  let frame := make_watchdog eth_addr our_ip now in
  length frame = 42%nat ∧ ld16 frame 12 = Some ETHER_TYPE_IPv4 ∧ ld8 frame 23 = Some IPPROTO_FASTPASS_WATCHDOG.
Proof. destruct eth_addr as [|? [|? [|? [|? [|? [|? []]]]]]]; try done. Qed.

Lemma is_watchdog_announcement (eth_addr : list Z) our_ip now : length eth_addr = 6%nat →
  buf_ok (make_watchdog eth_addr our_ip now) ∧ is_watchdog (make_watchdog eth_addr our_ip now) = true.
Proof.
  intros He. destruct (announcement_is_seen eth_addr our_ip now He) as (El & E1 & E2). unfold buf_ok, is_watchdog.
  rewrite E1, E2, El. split; [done|reflexivity].
Qed.

Lemma rx_announcement B fwrapv `{H : HashOps} clk addr (eth_addr : list Z) our_ip now len st : length eth_addr = 6%nat →
  comm_rx B fwrapv clk addr (make_watchdog eth_addr our_ip now) len st = Some (RxWatchdog, st, [EvCall FreeMbuf]).
Proof.
  intros He. destruct (announcement_is_seen eth_addr our_ip now He) as (_ & E1 & E2). unfold comm_rx. munfold.
  rewrite E1. change (sizeof_ether_hdr + 9) with 23. rewrite E2. reflexivity.
Qed.

Lemma burst_announcement B fwrapv `{H : HashOps} deadline p (eth_addr : list Z) our_ip now st : length eth_addr = 6%nat →
  rx_buf p = make_watchdog eth_addr our_ip now → do_rx_burst B fwrapv deadline [p] st = Some (Some true, st, [EvCall FreeMbuf]).
Proof.
  intros He Ep. unfold do_rx_burst. change (Z.to_nat _) with 0%nat. cbn [take drop rx_until_deadline rx_remaining]. munfold.
  rewrite Ep, rx_announcement by done. reflexivity.
Qed.

(** C30. A backup that receives an announcement of the master waits, polling for further ones, and
    takes over after the first poll that finds none: the loop compares the time
    of the last announcement minus the time of the poll, which wraps around, so that the
    time for which the master is silent does not matter, whatever the threshold is. While it waits nothing is undefined,
    no check fails and the invariant of the communication core is kept. *)
Theorem backup_takes_over (B : build) (fwrapv with_backup : bool) `{H : HashOps} (eth_addr master_addr : list Z)
    threshold gap interval clk s t x p our_ip sent_at until :
  0 ≤ emu_alloc_data_bytes B ≤ 2 → 0 < threshold ≤ 2 ^ 63 → length master_addr = 6%nat →
  t_rx t = [p] → rx_buf p = make_watchdog master_addr our_ip sent_at →
  comm_ok B clk ∅ ∅ (comm s) → clk ≤ x_now x → polls_ok threshold (x_now x) (x_polls x) until → in_reach until (positions (comm s)) →
  wp (exec_turn B fwrapv false with_backup eth_addr threshold gap interval t x) (λ r s' l,
    r = match after_quiet (x_polls x) with Some polls => Goes_on polls | None => Waiting end ∧ no_bug l ∧
    ∃ clk', clk ≤ clk' ≤ until ∧ comm_ok B clk' ∅ ∅ (comm s')) s.
Proof.
  intros Hb Hth He Et Ep Hst Hx Hps Hr. unfold exec_turn. apply wp_bind, wp_lift. unfold wp at 1.
  rewrite Et, (burst_announcement B fwrapv (t_deadline t) p _ _ _ (comm s) He Ep). cbn [andb negb].
  apply wp_bind. unfold watchdog_loop. apply wp_bind, wp_modify.
  pose proof (polls_ok_le _ _ _ _ Hps). assert (0 ≤ clk) by (eapply pacer_clk; exact Hst).
  eapply wp_mono; [apply (rounds_spec B Hb eth_addr threshold interval Hth (x_polls x) (x_now x) (x_now x) _ until Hps); try done; simpl; try lia|].
  { eapply comm_ok_later; [exact Hx|eapply in_reach_le; [|exact Hr]; lia|exact Hst]. }
  intros r s' l (-> & Hl & _ & clk' & Hc & Hst'). apply wp_ret. split; [done|]. split.
  - simpl. rewrite app_nil_r. by constructor.
  - exists clk'. split; [lia|done].
Qed.

(** The sample core as a backup: an announcement arrives, another one with the first poll, and none
    with the second, 60 ticks later. *)
Definition master_frame : list Z := make_watchdog [2; 0; 0; 0; 0; 1] arbiter_ip 7.
Definition frame_at (time : Z) : rx_mbuf := {| rx_addr := 64; rx_buf := master_frame; rx_len := 42; rx_now := time |}.
Definition once : list attempt := [{| allocated := true; sent := true |}].
Definition poll_at (time : Z) (pkts : list rx_mbuf) : poll :=
  {| p_now := time; p_rx := pkts; p_alloc_now := time + 20; p_admitted := [[]]; p_arp := once; p_igmp := once; p_addr := 34 |}.
Definition two_polls : list poll := [poll_at (2 ^ 30 + 40) [frame_at (2 ^ 30 + 50)]; poll_at (2 ^ 30 + 110) []].
Definition backup0 : backup_state := {| comm := core0; last_rx_watchdog := 0; last_tx_watchdog := 0; last_igmp := 0 |}.
Definition backup_turn : turn := {| t_deadline := 2 ^ 31; t_rx := [frame_at (2 ^ 30 + 10)]; t_now := 2 ^ 30 + 20; t_admitted := []; t_mem := no_mem |}.
Definition backup_extra : extra := {| x_igmp := once; x_addr := 34; x_watchdog := once; x_time := 9; x_now := 2 ^ 30 + 20; x_polls := two_polls |}.

Lemma backup_takes_over_witness : wp (exec_turn controller true false true [2; 0; 0; 0; 0; 2] 1000000 50000 1000000 backup_turn backup_extra)
  (λ r s' l, r = Goes_on [] ∧ no_bug l) backup0.
Proof.
  pose proof (bt_bytes _ _ _ core0_booted) as Hb. pose proof (booted_ok _ _ _ core0_booted) as Hok. eapply wp_mono.
  - apply (backup_takes_over controller true true [2; 0; 0; 0; 0; 2] [2; 0; 0; 0; 0; 1] 1000000 50000 1000000 (2 ^ 30) backup0 backup_turn backup_extra
      (frame_at (2 ^ 30 + 10)) arbiter_ip 7 (2 ^ 30 + 130)); try done.
    + assert (sends once) as Hs by (by exists 0%nat, []).
      assert (Forall (Forall admitted_ok) [[]]) as Ha by (constructor; constructor).
      split; [split; [done| | |exact Ha|exact Hs..]|split; [split; [done|constructor|done|exact Ha|exact Hs..]|done]].
      * constructor; [|constructor]. split; [|done]. unfold buf_ok. vm_compute. congruence.
      * split; done.
  - intros r s' l (-> & Hl & _). split; [reflexivity|exact Hl].
Defined.
