(* ===== verification/Tsq.v ===== *)
(** * The timeslot queueing discipline of the endpoint

    Model of [src/src/kernel-mod/sch_timeslot.c] and [sch_timeslot.h]: packets that
    the endpoint sends are classified, data packets are grouped into timeslots per
    destination, and the timeslots wait until [tsq_handle_now] is told to admit
    one. The scheduler that is built on it ([struct tsq_ops], its private data
    after the queue's) is an instance of [TsqOps].

    Procedures of the kernel are arguments: [psched_l2t_ns] is the transmission
    time of a packet, [skb_flow_dissect] has been applied to the packet
    ([flow_keys]), [csum_replace2] updates a checksum; an argument [nomem] says
    whether an allocation fails. The statistics counters, the watchdog and the
    files in /proc are left out. Of the spin locks, [hash_tbl_lock] is modelled:
    acquiring a lock that is held, and releasing one that is not, is undefined.
    The other locks are released in the block that acquires them. *)

From S2P Require Import Prelude Platform Protocol Pacer.
Export Topology AllocFlags.

(** ** Packets: what the code reads of a [struct sk_buff] *)
Record iphdr := { ip_ihl : Z; ip_tos : Z; ip_tot_len : Z; ip_protocol : Z; ip_check : Z; ip_daddr : Z }.
(** The first word of the destination address, and of the flow label. *)
Record ipv6hdr := { ip6_daddr0 : Z; ip6_flow_lbl0 : Z }.
(** The protocol and the two ports, in host order. *)
Record flow_keys := { ip_proto : Z; port_src : Z; port_dst : Z }.

Record sk_buff := {
  skb_addr : Z;            (** the address of the buffer *)
  skb_protocol : Z;        (** ethertype, in host order *)
  h_dest : Z;              (** destination MAC address *)
  iph : iphdr;
  iph6 : ipv6hdr;
  skb_keys : option flow_keys;  (** what [skb_flow_dissect] finds *)
  pkt_len : Z;             (** [qdisc_pkt_len] *)
  tcp_doff : Z;
  skb_transport : list Z;  (** the bytes from the transport header on *)
  gso_segs : option Z;     (** [skb_is_gso], with the number of segments *)
}.

(** linux/if_ether.h and linux/in.h *)
Definition ETH_P_ALL : Z := 0x0003.
Definition ETH_P_IP : Z := 0x0800.
Definition ETH_P_ARP : Z := 0x0806.
Definition ETH_P_IPV6 : Z := 0x86DD.
Definition ETH_P_1588 : Z := 0x88F7.
Definition IPPROTO_IGMP : Z := 2.
Definition IPPROTO_TCP : Z := 6.
Definition IPPROTO_UDP : Z := 17.

Definition TSLOT_ACTION_ADMIT_HEAD : Z := 0x0.
Definition TSLOT_ACTION_ADMIT_BY_ID : Z := 0x1.
Definition TSLOT_ACTION_DROP_BY_ID : Z := 0x2.
Definition TSLOT_ACTION_MODIFY_BY_ID : Z := 0x3.

(** ** State *)

(** A list of packets linked by [next], and in a flow the id of its timeslot. *)
Record timeslot_skb_q := { skbs : list sk_buff; tslot_id : Z }.

Record tsq_dst := { dst_key : Z; skb_qs : list timeslot_skb_q; credit : Z; next_id : Z }.

(** [struct tsq_sched_data] with the length and the limit of its [struct Qdisc];
    [priv] is the data of the scheduler built on the queue. The hash table of trees
    of flows is a map from their keys. *)
Record tsq_sched_data (P : Type) := {
  sch_limit : Z;
  qlen : Z;
  hash_tbl_log : Z;
  tslot_mul : Z;
  tslot_shift : Z;
  data_rate : Z;
  tslot_len_approx : Z;
  hash_tbl_lock : bool;
  dst_hash_tbl : gmap Z tsq_dst;
  enqueue_skb_q : list sk_buff;
  reg_prio : list sk_buff;
  hi_prio : list sk_buff;
  prequeue : list sk_buff;
  dropqueue : list sk_buff;
  current_timeslot : Z;
  flows : Z;
  inactive_flows : Z;
  priv : P;
}.
Arguments sch_limit {P} _. Arguments qlen {P} _. Arguments hash_tbl_log {P} _. Arguments tslot_mul {P} _.
Arguments tslot_shift {P} _. Arguments data_rate {P} _. Arguments tslot_len_approx {P} _.
Arguments hash_tbl_lock {P} _. Arguments dst_hash_tbl {P} _. Arguments enqueue_skb_q {P} _.
Arguments reg_prio {P} _. Arguments hi_prio {P} _. Arguments prequeue {P} _. Arguments dropqueue {P} _.
Arguments current_timeslot {P} _. Arguments flows {P} _. Arguments inactive_flows {P} _. Arguments priv {P} _.

Definition set_sch_limit {P} (v : Z) (q : tsq_sched_data P) : tsq_sched_data P := {| sch_limit := v; qlen := qlen q;
  hash_tbl_log := hash_tbl_log q; tslot_mul := tslot_mul q; tslot_shift := tslot_shift q; data_rate := data_rate q;
  tslot_len_approx := tslot_len_approx q; hash_tbl_lock := hash_tbl_lock q; dst_hash_tbl := dst_hash_tbl q;
  enqueue_skb_q := enqueue_skb_q q; reg_prio := reg_prio q; hi_prio := hi_prio q; prequeue := prequeue q;
  dropqueue := dropqueue q; current_timeslot := current_timeslot q; flows := flows q;
  inactive_flows := inactive_flows q; priv := priv q |}.
Definition set_qlen {P} (v : Z) (q : tsq_sched_data P) : tsq_sched_data P := {| sch_limit := sch_limit q; qlen := v;
  hash_tbl_log := hash_tbl_log q; tslot_mul := tslot_mul q; tslot_shift := tslot_shift q; data_rate := data_rate q;
  tslot_len_approx := tslot_len_approx q; hash_tbl_lock := hash_tbl_lock q; dst_hash_tbl := dst_hash_tbl q;
  enqueue_skb_q := enqueue_skb_q q; reg_prio := reg_prio q; hi_prio := hi_prio q; prequeue := prequeue q;
  dropqueue := dropqueue q; current_timeslot := current_timeslot q; flows := flows q;
  inactive_flows := inactive_flows q; priv := priv q |}.
Definition set_hash_tbl_log {P} (v : Z) (q : tsq_sched_data P) : tsq_sched_data P := {| sch_limit := sch_limit q;
  qlen := qlen q; hash_tbl_log := v; tslot_mul := tslot_mul q; tslot_shift := tslot_shift q;
  data_rate := data_rate q; tslot_len_approx := tslot_len_approx q; hash_tbl_lock := hash_tbl_lock q;
  dst_hash_tbl := dst_hash_tbl q; enqueue_skb_q := enqueue_skb_q q; reg_prio := reg_prio q; hi_prio := hi_prio q;
  prequeue := prequeue q; dropqueue := dropqueue q; current_timeslot := current_timeslot q; flows := flows q;
  inactive_flows := inactive_flows q; priv := priv q |}.
Definition set_data_rate {P} (v : Z) (q : tsq_sched_data P) : tsq_sched_data P := {| sch_limit := sch_limit q;
  qlen := qlen q; hash_tbl_log := hash_tbl_log q; tslot_mul := tslot_mul q; tslot_shift := tslot_shift q;
  data_rate := v; tslot_len_approx := tslot_len_approx q; hash_tbl_lock := hash_tbl_lock q;
  dst_hash_tbl := dst_hash_tbl q; enqueue_skb_q := enqueue_skb_q q; reg_prio := reg_prio q; hi_prio := hi_prio q;
  prequeue := prequeue q; dropqueue := dropqueue q; current_timeslot := current_timeslot q; flows := flows q;
  inactive_flows := inactive_flows q; priv := priv q |}.
Definition set_hash_tbl_lock {P} (v : bool) (q : tsq_sched_data P) : tsq_sched_data P := {|
  sch_limit := sch_limit q; qlen := qlen q; hash_tbl_log := hash_tbl_log q; tslot_mul := tslot_mul q;
  tslot_shift := tslot_shift q; data_rate := data_rate q; tslot_len_approx := tslot_len_approx q;
  hash_tbl_lock := v; dst_hash_tbl := dst_hash_tbl q; enqueue_skb_q := enqueue_skb_q q; reg_prio := reg_prio q;
  hi_prio := hi_prio q; prequeue := prequeue q; dropqueue := dropqueue q; current_timeslot := current_timeslot q;
  flows := flows q; inactive_flows := inactive_flows q; priv := priv q |}.
Definition set_dst_hash_tbl {P} (v : gmap Z tsq_dst) (q : tsq_sched_data P) : tsq_sched_data P := {|
  sch_limit := sch_limit q; qlen := qlen q; hash_tbl_log := hash_tbl_log q; tslot_mul := tslot_mul q;
  tslot_shift := tslot_shift q; data_rate := data_rate q; tslot_len_approx := tslot_len_approx q;
  hash_tbl_lock := hash_tbl_lock q; dst_hash_tbl := v; enqueue_skb_q := enqueue_skb_q q; reg_prio := reg_prio q;
  hi_prio := hi_prio q; prequeue := prequeue q; dropqueue := dropqueue q; current_timeslot := current_timeslot q;
  flows := flows q; inactive_flows := inactive_flows q; priv := priv q |}.
Definition set_enqueue_skb_q {P} (v : list sk_buff) (q : tsq_sched_data P) : tsq_sched_data P := {|
  sch_limit := sch_limit q; qlen := qlen q; hash_tbl_log := hash_tbl_log q; tslot_mul := tslot_mul q;
  tslot_shift := tslot_shift q; data_rate := data_rate q; tslot_len_approx := tslot_len_approx q;
  hash_tbl_lock := hash_tbl_lock q; dst_hash_tbl := dst_hash_tbl q; enqueue_skb_q := v; reg_prio := reg_prio q;
  hi_prio := hi_prio q; prequeue := prequeue q; dropqueue := dropqueue q; current_timeslot := current_timeslot q;
  flows := flows q; inactive_flows := inactive_flows q; priv := priv q |}.
Definition set_reg_prio {P} (v : list sk_buff) (q : tsq_sched_data P) : tsq_sched_data P := {|
  sch_limit := sch_limit q; qlen := qlen q; hash_tbl_log := hash_tbl_log q; tslot_mul := tslot_mul q;
  tslot_shift := tslot_shift q; data_rate := data_rate q; tslot_len_approx := tslot_len_approx q;
  hash_tbl_lock := hash_tbl_lock q; dst_hash_tbl := dst_hash_tbl q; enqueue_skb_q := enqueue_skb_q q; reg_prio := v;
  hi_prio := hi_prio q; prequeue := prequeue q; dropqueue := dropqueue q; current_timeslot := current_timeslot q;
  flows := flows q; inactive_flows := inactive_flows q; priv := priv q |}.
Definition set_hi_prio {P} (v : list sk_buff) (q : tsq_sched_data P) : tsq_sched_data P := {|
  sch_limit := sch_limit q; qlen := qlen q; hash_tbl_log := hash_tbl_log q; tslot_mul := tslot_mul q;
  tslot_shift := tslot_shift q; data_rate := data_rate q; tslot_len_approx := tslot_len_approx q;
  hash_tbl_lock := hash_tbl_lock q; dst_hash_tbl := dst_hash_tbl q; enqueue_skb_q := enqueue_skb_q q;
  reg_prio := reg_prio q; hi_prio := v; prequeue := prequeue q; dropqueue := dropqueue q;
  current_timeslot := current_timeslot q; flows := flows q; inactive_flows := inactive_flows q; priv := priv q |}.
Definition set_prequeue {P} (v : list sk_buff) (q : tsq_sched_data P) : tsq_sched_data P := {|
  sch_limit := sch_limit q; qlen := qlen q; hash_tbl_log := hash_tbl_log q; tslot_mul := tslot_mul q;
  tslot_shift := tslot_shift q; data_rate := data_rate q; tslot_len_approx := tslot_len_approx q;
  hash_tbl_lock := hash_tbl_lock q; dst_hash_tbl := dst_hash_tbl q; enqueue_skb_q := enqueue_skb_q q;
  reg_prio := reg_prio q; hi_prio := hi_prio q; prequeue := v; dropqueue := dropqueue q;
  current_timeslot := current_timeslot q; flows := flows q; inactive_flows := inactive_flows q; priv := priv q |}.
Definition set_dropqueue {P} (v : list sk_buff) (q : tsq_sched_data P) : tsq_sched_data P := {|
  sch_limit := sch_limit q; qlen := qlen q; hash_tbl_log := hash_tbl_log q; tslot_mul := tslot_mul q;
  tslot_shift := tslot_shift q; data_rate := data_rate q; tslot_len_approx := tslot_len_approx q;
  hash_tbl_lock := hash_tbl_lock q; dst_hash_tbl := dst_hash_tbl q; enqueue_skb_q := enqueue_skb_q q;
  reg_prio := reg_prio q; hi_prio := hi_prio q; prequeue := prequeue q; dropqueue := v;
  current_timeslot := current_timeslot q; flows := flows q; inactive_flows := inactive_flows q; priv := priv q |}.
Definition set_priv {P} (v : P) (q : tsq_sched_data P) : tsq_sched_data P := {| sch_limit := sch_limit q;
  qlen := qlen q; hash_tbl_log := hash_tbl_log q; tslot_mul := tslot_mul q; tslot_shift := tslot_shift q;
  data_rate := data_rate q; tslot_len_approx := tslot_len_approx q; hash_tbl_lock := hash_tbl_lock q;
  dst_hash_tbl := dst_hash_tbl q; enqueue_skb_q := enqueue_skb_q q; reg_prio := reg_prio q; hi_prio := hi_prio q;
  prequeue := prequeue q; dropqueue := dropqueue q; current_timeslot := current_timeslot q; flows := flows q;
  inactive_flows := inactive_flows q; priv := v |}.
Definition set_flows {P} (n i : Z) (q : tsq_sched_data P) : tsq_sched_data P := {| sch_limit := sch_limit q;
  qlen := qlen q; hash_tbl_log := hash_tbl_log q; tslot_mul := tslot_mul q; tslot_shift := tslot_shift q;
  data_rate := data_rate q; tslot_len_approx := tslot_len_approx q; hash_tbl_lock := hash_tbl_lock q;
  dst_hash_tbl := dst_hash_tbl q; enqueue_skb_q := enqueue_skb_q q; reg_prio := reg_prio q; hi_prio := hi_prio q;
  prequeue := prequeue q; dropqueue := dropqueue q; current_timeslot := current_timeslot q; flows := n;
  inactive_flows := i; priv := priv q |}.
Definition set_timeslot {P} (m s l t : Z) (q : tsq_sched_data P) : tsq_sched_data P := {| sch_limit := sch_limit q;
  qlen := qlen q; hash_tbl_log := hash_tbl_log q; tslot_mul := m; tslot_shift := s; data_rate := data_rate q;
  tslot_len_approx := l; hash_tbl_lock := hash_tbl_lock q; dst_hash_tbl := dst_hash_tbl q;
  enqueue_skb_q := enqueue_skb_q q; reg_prio := reg_prio q; hi_prio := hi_prio q; prequeue := prequeue q;
  dropqueue := dropqueue q; current_timeslot := t; flows := flows q; inactive_flows := inactive_flows q;
  priv := priv q |}.

(** Calls into the kernel, in the order in which they are made. *)
Inductive kernel_call :=
| QdiscDrop (skb : sk_buff)
| KfreeSkb (skb : sk_buff)
| NetifSchedule       (** [qdisc_unthrottled] and [__netif_schedule] *)
| QdiscThrottled
| TaskletSchedule     (** the enqueue tasklet *)
| SetRetransTimer (when : Z)
| CancelRetransTimer
| SendPktdesc (pd : fpproto_pktdesc)
| FreePktdesc (pd : option fpproto_pktdesc).

Abbreviation K P := (M kernel_call P).
Abbreviation T P := (M kernel_call (tsq_sched_data P)).

(** [struct tsq_ops]. The first arguments are clocks; [prepare_to_send] may be
    NULL and returns the packet with its new headers. *)
Class TsqOps (P : Type) := {
  new_qdisc : Z → Z → Z → Z → K P Z;
  stop_qdisc : K P unit;
  add_timeslot : Z → Z → sk_buff → K P unit;
  prepare_to_send : option (sk_buff → option (list Z) → K P sk_buff);
}.

(** ** Lists of packets *)
Definition skb_q_enqueue (q : list sk_buff) (skb : sk_buff) : list sk_buff := q ++ [skb].
Definition skb_q_dequeue (q : list sk_buff) : option sk_buff * list sk_buff :=
  match q with [] => (None, []) | skb :: q' => (Some skb, q') end.
(** When [what] is empty its tail pointer is not initialised, and a list that has
    packets must not take it over. *)
Definition skb_q_append (q what : list sk_buff) : option (list sk_buff) :=
  match what, q with
  | [], _ :: _ => None
  | _, _ => Some (q ++ what)
  end.

Section tsq.
Context {P : Type} `{!TsqOps P}.
(** [psched_l2t_ns] at a data rate. *)
Context (psched_l2t_ns : Z → Z → Z).

Definition lock_hash_tbl : T P unit :=
  q ← get; if hash_tbl_lock q then ub else modify (set_hash_tbl_lock true).
Definition unlock_hash_tbl : T P unit :=
  q ← get; if hash_tbl_lock q then modify (set_hash_tbl_lock false) else ub.

(** A procedure of the scheduler on its private data. *)
Definition on_priv {A} (m : K P A) : T P A := zoom priv set_priv m.

(** Stores through a pointer to a flow. *)
Definition put_dst (dst : tsq_dst) : T P unit :=
  modify (λ q, set_dst_hash_tbl (<[dst_key dst := dst]> (dst_hash_tbl q)) q).

Definition dst_lookup (nomem : bool) (key : Z) (create_if_missing : bool) : T P (option tsq_dst) :=
  q ← get;
  match dst_hash_tbl q !! key with
  | Some dst => mret (Some dst)
  | None =>
      if negb create_if_missing then mret None
      else if nomem then mret None
      else
        let dst := {| dst_key := key; skb_qs := []; credit := 0; next_id := 0 |} in
        put_dst dst;;
        modify (λ q, set_flows (u32 (flows q + 1)) (u32 (inactive_flows q + 1)) q);;
        mret (Some dst)
  end.

(** ** Classification *)
Definition get_dst_mac (skb : sk_buff) : Z := h_dest skb.

Definition get_priority (skb : sk_buff) : Z :=
  if negb (skb_protocol skb =? ETH_P_IP) then 0 else Z.shiftr (ip_tos (iph skb)) 2.

(** The queue of a packet that does not wait for a timeslot; [None] is NULL. *)
Inductive prio_queue := REG_PRIO | HI_PRIO.

Definition classify_hi_prio (skb : sk_buff) : option prio_queue :=
  let proto := skb_protocol skb in
  if proto =? ETH_P_ARP then Some REG_PRIO
  else if (proto =? ETH_P_1588) || (proto =? ETH_P_ALL) then
    if get_dst_mac skb =? 0x011b19000000 then Some HI_PRIO else Some REG_PRIO
  else if (proto =? ETH_P_IPV6) || (proto =? ETH_P_IP) then
    match skb_keys skb with
    | None => Some REG_PRIO
    | Some keys =>
        if ip_proto keys =? IPPROTO_IGMP then Some REG_PRIO
        else if ip_proto keys =? IPPROTO_UDP then
          if port_dst keys =? 123 then Some HI_PRIO
          else if Z.land (port_dst keys - 1) (Z.lnot 1) =? 318 then Some HI_PRIO
          else None
        else if ip_proto keys =? IPPROTO_TCP then
          if (port_src keys =? 22) || (port_dst keys =? 22) then Some REG_PRIO else None
        else if ip_proto keys =? IPPROTO_FASTPASS then Some HI_PRIO
        else None
    end
  else Some REG_PRIO.

(** CLASSIFY_BY_IP is 1. *)
Definition data_key (skb : sk_buff) : Z :=
  let dst_id :=
    if skb_protocol skb =? ETH_P_IPV6 then fp_map_ip_to_id (ip6_daddr0 (iph6 skb))
    else fp_map_ip_to_id (ip_daddr (iph skb)) in
  let flow_id := get_priority skb in
  Z.lor (Z.shiftl dst_id FLOW_SHIFT) (Z.land flow_id FLOW_MASK).

Definition classify_data (nomem : bool) (skb : sk_buff) : T P (option tsq_dst) :=
  dst_lookup nomem (data_key skb) true.

(** ** Arriving packets *)

(** Returns whether the packet was accepted (NET_XMIT_SUCCESS). *)
Definition tsq_enqueue (skb : sk_buff) : T P bool :=
  match classify_hi_prio skb with
  | Some prio =>
      modify (λ q, match prio with
        | REG_PRIO => set_reg_prio (skb_q_enqueue (reg_prio q) skb) q
        | HI_PRIO => set_hi_prio (skb_q_enqueue (hi_prio q) skb) q
        end);;
      modify (λ q, set_qlen (u32 (qlen q + 1)) q);;
      call NetifSchedule;;
      mret true
  | None =>
      q ← get;
      if qlen q >=? sch_limit q then
        call (QdiscDrop skb);; mret false
      else
        modify (λ q, set_enqueue_skb_q (skb_q_enqueue (enqueue_skb_q q) skb) q);;
        modify (λ q, set_qlen (u32 (qlen q + 1)) q);;
        call TaskletSchedule;;
        mret true
  end.

(** [enqueue_to_prequeue] *)
Definition enqueue_to_prequeue (skb : sk_buff) : T P unit :=
  modify (λ q, set_prequeue (skb_q_enqueue (prequeue q) skb) q);;
  call NetifSchedule.

(** [enqueue_single_skb] up to the call of [add_timeslot]: puts the packet into
    its flow, and returns the key when it opened a new timeslot. The error exits
    do not release the lock. *)
Definition enqueue_to_flow (nomem_dst nomem_slot : bool) (skb : sk_buff) : T P (option Z) :=
  q ← get;
  let cost := s64 (psched_l2t_ns (data_rate q) (pkt_len skb)) in
  lock_hash_tbl;;
  o ← classify_data nomem_dst skb;
  match o with
  | None => enqueue_to_prequeue skb;; mret None
  | Some dst =>
      if cost >? credit dst then
        if nomem_slot then enqueue_to_prequeue skb;; mret None
        else
          when (bool_decide (skb_qs dst = []))
            (modify (λ q, set_flows (flows q) (u32 (inactive_flows q - 1)) q));;
          let timeslot_q := {| skbs := skb_q_enqueue [] skb; tslot_id := next_id dst |} in
          put_dst {| dst_key := dst_key dst; skb_qs := skb_qs dst ++ [timeslot_q];
                     credit := s64 (tslot_len_approx q - cost); next_id := u16 (next_id dst + 1) |};;
          unlock_hash_tbl;;
          mret (Some (dst_key dst))
      else
        timeslot_q ← deref (last (skb_qs dst));
        let timeslot_q := {| skbs := skb_q_enqueue (skbs timeslot_q) skb; tslot_id := tslot_id timeslot_q |} in
        put_dst {| dst_key := dst_key dst; skb_qs := removelast (skb_qs dst) ++ [timeslot_q];
                   credit := s64 (credit dst - cost); next_id := next_id dst |};;
        unlock_hash_tbl;;
        mret None
  end.

Definition enqueue_single_skb (now : Z) (nomem_dst nomem_slot : bool) (skb : sk_buff) : T P unit :=
  o ← enqueue_to_flow nomem_dst nomem_slot skb;
  match o with
  | None => mret tt
  | Some key => on_priv (add_timeslot now key skb)
  end.

(** The tasklet takes all the packets that have arrived; the clock and the
    allocations of the [i]-th one are [env i]. *)
Definition take_enqueued : T P (list sk_buff) :=
  q ← get; modify (set_enqueue_skb_q []);; mret (enqueue_skb_q q).

Fixpoint enqueue_skbs (env : nat → Z * bool * bool) (l : list sk_buff) : T P unit :=
  match l with
  | [] => mret tt
  | skb :: l' =>
      let '(now, nomem_dst, nomem_slot) := env O in
      enqueue_single_skb now nomem_dst nomem_slot skb;;
      enqueue_skbs (λ i, env (S i)) l'
  end.

Definition enqueue_tasklet_func (env : nat → Z * bool * bool) : T P unit :=
  l ← take_enqueued; enqueue_skbs env l.

(** ** Allocated timeslots *)

(** The timeslot that an action refers to, by its position in the flow. *)
Definition find_timeslot (action id : Z) (qs : list timeslot_skb_q) : option nat :=
  if action =? TSLOT_ACTION_ADMIT_HEAD then Some O
  else if (action =? TSLOT_ACTION_ADMIT_BY_ID) || (action =? TSLOT_ACTION_DROP_BY_ID)
       || (action =? TSLOT_ACTION_MODIFY_BY_ID)
  then fst <$> list_find (λ s, tslot_id s = id) qs
  else None.

Fixpoint prepare_all (f : sk_buff → option (list Z) → K P sk_buff) (data : option (list Z))
    (l : list sk_buff) : T P (list sk_buff) :=
  match l with
  | [] => mret []
  | skb :: l' => skb ← on_priv (f skb data); l' ← prepare_all f data l'; mret (skb :: l')
  end.

(** The number of timeslots handled, 0 or 1. The first two error exits do not
    release the lock. *)
Definition tsq_handle_now (key action id : Z) (data : option (list Z)) : T P Z :=
  lock_hash_tbl;;
  o ← dst_lookup false key false;
  match o with
  | None => mret 0
  | Some dst =>
      if bool_decide (skb_qs dst = []) then mret 0
      else
        match find_timeslot action id (skb_qs dst) with
        | None => unlock_hash_tbl;; mret 0
        | Some i =>
            timeslot_q ← deref (skb_qs dst !! i);
            let qs := delete i (skb_qs dst) in
            put_dst {| dst_key := dst_key dst; skb_qs := qs;
                       credit := if bool_decide (qs = []) then 0 else credit dst;
                       next_id := next_id dst |};;
            when (bool_decide (qs = []))
              (modify (λ q, set_flows (flows q) (u32 (inactive_flows q + 1)) q));;
            unlock_hash_tbl;;
            (if action =? TSLOT_ACTION_DROP_BY_ID then
               q ← get;
               l ← deref (skb_q_append (dropqueue q) (skbs timeslot_q));
               modify (set_dropqueue l)
             else
               skbs' ← (match prepare_to_send with
                        | Some f => if action =? TSLOT_ACTION_MODIFY_BY_ID
                                    then prepare_all f data (skbs timeslot_q)
                                    else mret (skbs timeslot_q)
                        | None => mret (skbs timeslot_q)
                        end);
               q ← get;
               l ← deref (skb_q_append (prequeue q) skbs');
               modify (set_prequeue l));;
            call NetifSchedule;;
            mret 1
        end
  end.

(** The flow must exist: the result of the lookup is used unchecked. *)
Definition tsq_reset_ids (key : Z) : T P unit :=
  lock_hash_tbl;;
  o ← dst_lookup false key false;
  dst ← deref o;
  put_dst {| dst_key := dst_key dst;
             skb_qs := imap (λ i s, {| skbs := skbs s; tslot_id := u16 (Z.of_nat i) |}) (skb_qs dst);
             credit := credit dst; next_id := u16 (Z.of_nat (length (skb_qs dst))) |};;
  unlock_hash_tbl.

(** ** Departing packets *)
Definition out_got_skb (skb : sk_buff) : T P (option sk_buff) :=
  modify (λ q, set_qlen (u32 (qlen q - 1)) q);; mret (Some skb).

(** [skb_q_dequeue] clears the [next] pointer of the packet, so the loop over the
    drop queue drops one packet. *)
Definition tsq_dequeue : T P (option sk_buff) :=
  q ← get;
  match skb_q_dequeue (hi_prio q) with
  | (Some skb, l) => modify (set_hi_prio l);; out_got_skb skb
  | _ =>
  match skb_q_dequeue (reg_prio q) with
  | (Some skb, l) => modify (set_reg_prio l);; out_got_skb skb
  | _ =>
  match skb_q_dequeue (prequeue q) with
  | (Some skb, l) => modify (set_prequeue l);; out_got_skb skb
  | _ =>
      (match skb_q_dequeue (dropqueue q) with
       | (Some skb, l) =>
           modify (set_dropqueue l);;
           modify (λ q, set_qlen (u32 (qlen q - 1)) q);;
           call (QdiscDrop skb)
       | _ => mret tt
       end);;
      call QdiscThrottled;;
      mret None
  end end end.

(** ** Configuration *)
Fixpoint kfree_skbs (l : list sk_buff) : T P unit :=
  match l with
  | [] => mret tt
  | skb :: l' => call (KfreeSkb skb);; kfree_skbs l'
  end.

(** The flows are freed in the order of the hash table, which is that of the map
    here. *)
Definition tsq_tc_reset : T P unit :=
  q ← get;
  kfree_skbs (reg_prio q);; modify (set_reg_prio []);;
  kfree_skbs (hi_prio q);; modify (set_hi_prio []);;
  kfree_skbs (enqueue_skb_q q);; modify (set_enqueue_skb_q []);;
  kfree_skbs (prequeue q);; modify (set_prequeue []);;
  kfree_skbs (dropqueue q);; modify (set_dropqueue []);;
  lock_hash_tbl;;
  kfree_skbs ((map_to_list (dst_hash_tbl q)) ≫= (λ kd, skb_qs kd.2 ≫= skbs));;
  modify (set_dst_hash_tbl ∅);;
  unlock_hash_tbl;;
  modify (set_flows 0 0).

(** Rehashing keeps the flows. *)
Definition tsq_tc_resize (nomem has_tbl : bool) (log : Z) : T P Z :=
  q ← get;
  if has_tbl && (log =? hash_tbl_log q) then mret 0
  else if nomem then mret (-12)
  else modify (set_hash_tbl_log log);; mret 0.

(** The attributes of a netlink message. Those that are no longer supported are
    [deprecated]. *)
Record tc_attrs := {
  TCA_PLIMIT : option Z;
  TCA_BUCKETS_LOG : option Z;
  TCA_DATA_RATE : option Z;
  TCA_TIMESLOT_MUL : option Z;
  TCA_TIMESLOT_SHIFT : option Z;
  deprecated : bool;
}.

(** [1 << shift] on an [int], divided by [mul]. *)
Definition tslot_len (mul shift : Z) : option Z :=
  if (0 <=? shift) && (shift <? 31) && negb (mul =? 0) then Some (u32 (Z.shiftl 1 shift) / mul) else None.

Definition set_tslot (now_real mul shift : Z) : T P unit :=
  len ← deref (tslot_len mul shift);
  modify (set_timeslot mul shift len (Z.shiftr (u64 (now_real * mul)) shift)).

(** [opt] is NULL, or the error or the result of [nla_parse_nested]. The errors
    found in the attributes are overwritten by the result of the resize. *)
Definition tsq_tc_change (now_real : Z) (nomem has_tbl : bool) (opt : option (Z + tc_attrs)) : T P Z :=
  match opt with
  | None => mret (-22)
  | Some (inl err) => mret err
  | Some (inr tb) =>
      q ← get;
      (match TCA_PLIMIT tb with
       | Some nval => when (nval >? 0) (modify (set_sch_limit nval))
       | None => mret tt
       end);;
      let fp_log := match TCA_BUCKETS_LOG tb with
        | Some nval => if (nval >=? 1) && (nval <=? 18) then nval else hash_tbl_log q
        | None => hash_tbl_log q
        end in
      (match TCA_DATA_RATE tb with
       | Some rate => when (negb (rate =? 0)) (modify (set_data_rate rate))
       | None => mret tt
       end);;
      let mul := default (tslot_mul q) (TCA_TIMESLOT_MUL tb) in
      let shift := default (tslot_shift q) (TCA_TIMESLOT_SHIFT tb) in
      let changed := bool_decide (is_Some (TCA_TIMESLOT_MUL tb)) || bool_decide (is_Some (TCA_TIMESLOT_SHIFT tb)) in
      err ← tsq_tc_resize nomem has_tbl fp_log;
      when ((err =? 0) && changed) (set_tslot now_real mul shift);;
      mret err
  end.

(** [nomem_proc] and [nomem_cleanup]: creating the file in /proc, allocating the
    clean-up object. *)
Definition tsq_tc_init (now now_real : Z) (nomem_proc nomem_cleanup nomem_tbl : bool) (opt : option (Z + tc_attrs)) : T P Z :=
  modify (set_sch_limit 10000);;
  modify (set_hash_tbl_log 10);;
  modify (set_data_rate (10 ^ 9 / 8));;
  modify (set_dst_hash_tbl ∅);;
  modify (set_enqueue_skb_q []);;
  modify (set_reg_prio []);;
  modify (set_hi_prio []);;
  modify (set_prequeue []);;
  modify (set_dropqueue []);;
  set_tslot now_real 1 20;;
  modify (set_flows 0 0);;
  if nomem_proc then mret (-38)
  else if nomem_cleanup then mret (-12)
  else
    err ← (match opt with
           | Some _ => tsq_tc_change now_real nomem_tbl false opt
           | None => q ← get; tsq_tc_resize nomem_tbl false (hash_tbl_log q)
           end);
    if negb (err =? 0) then mret err
    else
      q ← get;
      on_priv (new_qdisc now now_real (tslot_mul q) (tslot_shift q)).

Definition tsq_tc_destroy : T P unit :=
  on_priv stop_qdisc;;
  tsq_tc_reset.

(** Forgets the flows without packets. *)
Definition tsq_garbage_collect : T P unit :=
  lock_hash_tbl;;
  modify (λ q, set_dst_hash_tbl (filter (λ kd, skb_qs kd.2 ≠ []) (dst_hash_tbl q)) q);;
  unlock_hash_tbl.
End tsq.
