(* ===== verification/TsqFacts.v ===== *)
(** * Facts about the timeslot queue

    The operations on a flow as functions ([flow_add], [flow_take], [flow_renumber]),
    the invariant of the queue ([tsq_ok]), and the specification of each procedure
    in terms of them: a flow is a list of timeslots, none of them empty; packets
    are added to the last one or to a new one, and a timeslot leaves as a whole. *)

From S2P Require Import Prelude Platform Protocol Pacer Tsq.

(** ** Operations on a flow *)
Definition new_flow (key : Z) : tsq_dst := {| dst_key := key; skb_qs := []; credit := 0; next_id := 0 |}.

(** The new flow, and whether a timeslot was opened. *)
Definition flow_add (cost len : Z) (skb : sk_buff) (f : tsq_dst) : tsq_dst * bool :=
  if cost >? credit f then
    ({| dst_key := dst_key f; skb_qs := skb_qs f ++ [{| skbs := [skb]; tslot_id := next_id f |}];
        credit := s64 (len - cost); next_id := u16 (next_id f + 1) |}, true)
  else
    ({| dst_key := dst_key f;
        skb_qs := removelast (skb_qs f) ++
          match last (skb_qs f) with
          | Some s => [{| skbs := skbs s ++ [skb]; tslot_id := tslot_id s |}]
          | None => []
          end;
        credit := s64 (credit f - cost); next_id := next_id f |}, false).

Definition flow_take (i : nat) (f : tsq_dst) : tsq_dst :=
  let qs := delete i (skb_qs f) in
  {| dst_key := dst_key f; skb_qs := qs; credit := if bool_decide (qs = []) then 0 else credit f;
     next_id := next_id f |}.

Definition flow_renumber (f : tsq_dst) : tsq_dst := {| dst_key := dst_key f;
  skb_qs := imap (λ i s, {| skbs := skbs s; tslot_id := u16 (Z.of_nat i) |}) (skb_qs f);
  credit := credit f; next_id := u16 (Z.of_nat (length (skb_qs f))) |}.

(** ** Invariants *)
Record flow_ok (len : Z) (k : Z) (f : tsq_dst) : Prop := {
  fl_key : dst_key f = k;
  fl_slots : Forall (λ s, skbs s ≠ []) (skb_qs f);
  fl_idle : skb_qs f = [] → credit f = 0;
  fl_credit : - 2 ^ 33 ≤ credit f ≤ len;
}.

Definition flow_of {P} (q : tsq_sched_data P) (k : Z) : tsq_dst := default (new_flow k) (dst_hash_tbl q !! k).
Definition waiting {P} (q : tsq_sched_data P) (k : Z) : Z := Z.of_nat (length (skb_qs (flow_of q k))).

Record tsq_ok {P} (q : tsq_sched_data P) : Prop := {
  tq_lock : hash_tbl_lock q = false;
  tq_len : 0 ≤ tslot_len_approx q < 2 ^ 32;
  tq_flows : ∀ k f, dst_hash_tbl q !! k = Some f → 0 ≤ k < MAX_FLOWS ∧ flow_ok (tslot_len_approx q) k f;
}.

Lemma flow_ok_new len k : 0 ≤ len → flow_ok len k (new_flow k).
Proof. intros Hl. constructor; simpl; try done; lia. Qed.

Lemma flow_of_ok {P} (q : tsq_sched_data P) k : tsq_ok q → flow_ok (tslot_len_approx q) k (flow_of q k).
Proof.
  intros Hq. unfold flow_of. destruct (dst_hash_tbl q !! k) as [f|] eqn:E; [by apply (tq_flows q Hq)|].
  apply flow_ok_new. apply Hq.
Qed.

(** The packet, its cost and the flow that it goes to. *)
Lemma flow_add_ok cost len skb k f :
  0 < cost < 2 ^ 32 → 0 ≤ len < 2 ^ 32 → flow_ok len k f → flow_ok len k (flow_add cost len skb f).1.
Proof.
  intros Hc Hl [Hk Hs Hi Hcr]. unfold flow_add. destruct (Z.gtb_spec cost (credit f)) as [Hgt|Hle]; constructor; simpl; try done.
  - apply Forall_app. split; [done|]. by repeat constructor.
  - intros E. by destruct (skb_qs f).
  - mlia.
  - destruct (skb_qs f) as [|s l _] using rev_ind; [constructor|]. rewrite removelast_last, last_snoc.
    apply Forall_app in Hs as [Hs _]. apply Forall_app. split; [done|]. repeat constructor. simpl. by destruct (skbs s).
  - intros E. destruct (skb_qs f) as [|s l _] using rev_ind; [rewrite Hi in Hle by done; lia|].
    rewrite last_snoc in E. by destruct (removelast _).
  - mlia.
Qed.

(** A new timeslot is opened when there is no credit left, in particular when
    none is waiting. *)
Lemma flow_add_slots cost len skb k f : 0 < cost → flow_ok len k f →
  let '(f', opened) := flow_add cost len skb f in
  if opened then skb_qs f' = skb_qs f ++ [{| skbs := [skb]; tslot_id := next_id f |}]
  else ∃ qs s, skb_qs f = qs ++ [s] ∧ skb_qs f' = qs ++ [{| skbs := skbs s ++ [skb]; tslot_id := tslot_id s |}].
Proof.
  intros Hc Hf. unfold flow_add. destruct (Z.gtb_spec cost (credit f)) as [Hgt|Hle]; [done|]. simpl.
  destruct (skb_qs f) as [|s l _] eqn:E using rev_ind; [rewrite (fl_idle _ _ _ Hf E) in Hle; lia|].
  exists l, s. split; [done|]. by rewrite removelast_last, last_snoc.
Qed.

Lemma flow_add_length cost len skb k f : 0 < cost → flow_ok len k f →
  Z.of_nat (length (skb_qs (flow_add cost len skb f).1)) =
  Z.of_nat (length (skb_qs f)) + b2z (flow_add cost len skb f).2.
Proof.
  intros Hc Hf. pose proof (flow_add_slots cost len skb k f Hc Hf) as Hs.
  destruct (flow_add cost len skb f) as [f' []]; simpl; [rewrite Hs, length_app; simpl; lia|].
  destruct Hs as (qs & s & -> & ->). rewrite !length_app. simpl. lia.
Qed.

Lemma flow_take_ok len k f i : 0 ≤ len → flow_ok len k f → flow_ok len k (flow_take i f).
Proof.
  intros Hl [Hk Hs Hi Hcr]. constructor; simpl; try done.
  - by apply Forall_delete.
  - intros E. by rewrite bool_decide_eq_true_2.
  - case_bool_decide; lia.
Qed.

Lemma flow_renumber_ok len k f : flow_ok len k f → flow_ok len k (flow_renumber f).
Proof.
  intros [Hk Hs Hi Hcr]. constructor; simpl; try done.
  - apply Forall_lookup. intros i s. rewrite list_lookup_imap. destruct (skb_qs f !! i) as [s'|] eqn:E; [|done].
    intros [= <-]. simpl. by apply (Forall_lookup_1 _ _ _ _ Hs E).
  - intros E. apply Hi. apply nil_length_inv. by rewrite <- (length_imap (λ i s, {| skbs := skbs s; tslot_id := u16 (Z.of_nat i) |})), E.
Qed.

(** ** The state after a flow was stored *)
Section stored.
Context {P : Type}.
Implicit Types q : tsq_sched_data P.

(** [q'] is [q] with the flow [f] at [k]; the counts of flows may have changed. *)
Definition stored (k : Z) (f : tsq_dst) q q' : Prop :=
  ∃ n i, q' = set_flows n i (set_dst_hash_tbl (<[k := f]> (dst_hash_tbl q)) q).

(** The state after a store between taking and releasing the lock. *)
Lemma stored_unlock k f q m n i : hash_tbl_lock q = false → <[k := f]> m = <[k := f]> (dst_hash_tbl q) →
  stored k f q (set_hash_tbl_lock false (set_dst_hash_tbl (<[k := f]> m)
    (set_flows n i (set_dst_hash_tbl m (set_hash_tbl_lock true q))))).
Proof. intros El Em. exists n, i. destruct q. simpl in *. by rewrite El, Em. Qed.

Lemma set_flows_twice q n i n' i' : set_flows n i (set_flows n' i' q) = set_flows n i q.
Proof. done. Qed.

Lemma stored_ok k f q q' : tsq_ok q → 0 ≤ k < MAX_FLOWS → flow_ok (tslot_len_approx q) k f → stored k f q q' → tsq_ok q'.
Proof.
  intros [Hlk Hlen Hfl] Hk Hf (n & i & ->). constructor; simpl; try done.
  intros k' f' [[<- <-]|[Hne E]]%lookup_insert_Some; [done|by apply Hfl].
Qed.

Lemma flow_of_stored k f q q' k' : stored k f q q' → flow_of q' k' = if decide (k = k') then f else flow_of q k'.
Proof.
  intros (n & i & ->). unfold flow_of. simpl. case_decide as E; [subst; by rewrite lookup_insert_eq|by rewrite lookup_insert_ne].
Qed.

Lemma stored_frame k f q q' : stored k f q q' →
  priv q' = priv q ∧ prequeue q' = prequeue q ∧ dropqueue q' = dropqueue q ∧ enqueue_skb_q q' = enqueue_skb_q q ∧
  hi_prio q' = hi_prio q ∧ reg_prio q' = reg_prio q ∧ tslot_len_approx q' = tslot_len_approx q ∧
  data_rate q' = data_rate q ∧ qlen q' = qlen q ∧ sch_limit q' = sch_limit q.
Proof. by intros (n & i & ->). Qed.

Lemma waiting_stored k f q q' k' : stored k f q q' →
  waiting q' k' = if decide (k = k') then Z.of_nat (length (skb_qs f)) else waiting q k'.
Proof. intros Hs. unfold waiting. rewrite (flow_of_stored k f q q') by done. by case_decide. Qed.
End stored.

Lemma data_key_range skb : 0 ≤ data_key skb < NUM_NODES.
Proof.
  unfold data_key. change FLOW_MASK with 0. change FLOW_SHIFT with 0. rewrite Z.land_0_r, Z.lor_0_r, Z.shiftl_0_r.
  case_match; apply map_ip_range.
Qed.

(** ** Symbolic execution *)
Ltac tsq_step :=
  match goal with
  | |- wp (_ ≫= _) _ _ => apply wp_bind
  | |- wp (mret _) _ _ => apply wp_ret
  | |- wp get _ _ => apply wp_get
  | |- wp (modify _) _ _ => apply wp_modify
  | |- wp (call _) _ _ => apply wp_call
  end.
Ltac tsq_steps := repeat (tsq_step; cbv beta; simpl app).

(** ** Specifications *)

(** The scheduler's [prepare_to_send] changes packets only. *)
Class PreparesOk (P : Type) `{!TsqOps P} : Prop := {
  prepares_defined : ∀ f, prepare_to_send (P:=P) = Some f → ∀ skb data p, ∃ skb', f skb data p = Some (skb', p, []);
}.

Section specs.
Context {P : Type} `{!TsqOps P}.
Context (psched_l2t_ns : Z → Z → Z).
Implicit Types q : tsq_sched_data P.

(** The cost of a packet; the kernel's times are positive and fit. *)
Definition cost_of q (skb : sk_buff) : Z := psched_l2t_ns (data_rate q) (pkt_len skb).
Definition costs_ok : Prop := ∀ rate len, 0 < psched_l2t_ns rate len < 2 ^ 32.

Lemma lock_unlock_id q : hash_tbl_lock q = false → set_hash_tbl_lock false (set_hash_tbl_lock true q) = q.
Proof. destruct q; simpl. by intros ->. Qed.

Lemma wp_lock q (Φ : unit → tsq_sched_data P → list (event kernel_call) → Prop) :
  hash_tbl_lock q = false → Φ tt (set_hash_tbl_lock true q) [] → wp lock_hash_tbl Φ q.
Proof. intros E HΦ. unfold lock_hash_tbl. tsq_steps. rewrite E. by apply wp_modify. Qed.

Lemma wp_unlock q (Φ : unit → tsq_sched_data P → list (event kernel_call) → Prop) :
  hash_tbl_lock q = true → Φ tt (set_hash_tbl_lock false q) [] → wp unlock_hash_tbl Φ q.
Proof. intros E HΦ. unfold unlock_hash_tbl. tsq_steps. rewrite E. by apply wp_modify. Qed.

(** [enqueue_to_flow] with memory: the packet is added to its flow, and the key is
    returned when a timeslot was opened. *)
Lemma enqueue_to_flow_spec q skb : costs_ok → tsq_ok q →
  let '(f, opened) := flow_add (cost_of q skb) (tslot_len_approx q) skb (flow_of q (data_key skb)) in
  wp (enqueue_to_flow psched_l2t_ns false false skb)
    (λ r q' l, l = [] ∧ stored (data_key skb) f q q' ∧ r = if opened then Some (data_key skb) else None) q.
Proof.
  intros Hcost Hq. destruct (flow_add _ _ _ _) as [f opened] eqn:Ef.
  pose proof (flow_of_ok q (data_key skb) Hq) as Hf. pose proof (tq_lock q Hq) as Hlk.
  pose proof (Hcost (data_rate q) (pkt_len skb)) as Hc. fold (cost_of q skb) in Hc.
  unfold enqueue_to_flow. tsq_steps. apply wp_lock; [done|]. tsq_steps.
  assert (s64 (psched_l2t_ns (data_rate q) (pkt_len skb)) = cost_of q skb) as -> by (unfold cost_of in *; mlia).
  set (k := data_key skb) in *. set (q1 := set_hash_tbl_lock true q).
  assert (wp (classify_data (P:=P) false skb) (λ o q' l, l = [] ∧ o = Some (flow_of q k) ∧
    ∃ n i m, q' = set_flows n i (set_dst_hash_tbl m q1) ∧
      ∀ f, <[k := f]> m = <[k := f]> (dst_hash_tbl q)) q1) as Hcl.
  { unfold classify_data, dst_lookup. fold k. tsq_steps. unfold flow_of.
    change (dst_hash_tbl q1) with (dst_hash_tbl q).
    destruct (dst_hash_tbl q !! k) as [f0|] eqn:E; simpl default; tsq_steps.
    - split; [done|]. split; [done|]. exists (flows q), (inactive_flows q), (dst_hash_tbl q). split; [|done].
      by unfold q1; destruct q.
    - unfold put_dst. tsq_steps. split; [done|]. split; [done|].
      eexists _, _, _. split; [reflexivity|]. intros f0. simpl. by rewrite insert_insert_eq. }
  eapply wp_mono; [exact Hcl|]. intros o q2 l (-> & -> & n & i & m & -> & Em). clear Hcl.
  unfold flow_add in Ef. fold k in Ef.
  destruct (Z.gtb_spec (cost_of q skb) (credit (flow_of q k))) as [Hgt|Hle]; injection Ef as <- <-.
  - tsq_steps.
    assert (∀ b (Φ : unit → tsq_sched_data P → list (event kernel_call) → Prop) q3,
      (∀ n i, Φ tt (set_flows n i q3) []) →
      wp (when b (modify (λ q, set_flows (flows q) (u32 (inactive_flows q - 1)) q))) Φ q3) as Hwhen.
    { intros b Φ q3 HΦ. destruct b; simpl when; [by apply wp_modify|]. apply wp_ret.
      specialize (HΦ (flows q3) (inactive_flows q3)). by destruct q3. }
    apply Hwhen. intros n' i'. unfold put_dst. tsq_steps. apply wp_unlock; [done|]. tsq_steps.
    rewrite (fl_key _ _ _ Hf). split; [done|]. split; [|done]. rewrite set_flows_twice. by apply stored_unlock.
  - destruct (skb_qs (flow_of q k)) as [|s l _] eqn:E using rev_ind; [rewrite (fl_idle _ _ _ Hf E) in Hle; lia|].
    tsq_step. eapply wp_deref; [apply last_snoc|]. unfold put_dst. tsq_steps. apply wp_unlock; [done|]. tsq_steps.
    split; [done|]. rewrite last_snoc, (fl_key _ _ _ Hf). split; [|done]. by apply stored_unlock.
Qed.

(** [enqueue_to_flow] without memory: it does the same if it needs none, and
    otherwise ends with the lock held. *)
Lemma enqueue_to_flow_nomem d s q skb : hash_tbl_lock q = false →
  enqueue_to_flow psched_l2t_ns d s skb q = enqueue_to_flow psched_l2t_ns false false skb q ∨
  ∃ q' l, enqueue_to_flow psched_l2t_ns d s skb q = Some (None, q', l) ∧ no_bug l ∧ hash_tbl_lock q' = true.
Proof using.
  intros El. unfold enqueue_to_flow, classify_data, dst_lookup, lock_hash_tbl, enqueue_to_prequeue, put_dst, call, ub,
    get, modify, mret, M_ret, mbind, M_bind. rewrite El. cbn.
  assert (∀ c, no_bug [EvCall (c : kernel_call)]) as Hl by (by repeat constructor).
  destruct (dst_hash_tbl q !! data_key skb) as [f|]; cbn.
  - destruct s; [|by left]. destruct (_ >? _); [|by left]. right. cbn. eauto.
  - destruct d; cbn; [right; cbn; eauto|]. destruct s; [|by left]. destruct (_ >? _); [|by left]. right. cbn. eauto.
Qed.

(** ** Handling an allocated timeslot *)
Lemma find_timeslot_valid action id qs i : qs ≠ [] → find_timeslot action id qs = Some i → is_Some (qs !! i).
Proof.
  intros Hne. unfold find_timeslot. destruct (action =? _); [intros [= <-]; by destruct qs|].
  destruct (_ || _ || _); [|done]. intros ([j s] & E & ->)%fmap_Some. simpl.
  apply list_find_Some in E as (E & _). by exists s.
Qed.

Lemma prepare_all_spec `{!PreparesOk P} f data l q : prepare_to_send (P:=P) = Some f →
  wp (prepare_all f data l) (λ l' q' ev, ev = [] ∧ q' = q ∧ length l' = length l) q.
Proof.
  intros Hf. induction l as [|skb l IH]; simpl; tsq_steps; [done|]. unfold on_priv. apply wp_zoom.
  destruct (prepares_defined f Hf skb data (priv q)) as [skb' E]. eapply wp_run; [exact E|]. tsq_steps.
  assert (set_priv (priv q) q = q) as -> by (by destruct q).
  eapply wp_mono; [exact IH|]. intros l' q' ev (-> & -> & Hl). tsq_steps. split; [done|]. split; [done|]. simpl. by rewrite Hl.
Qed.

(** Where the packets of a timeslot go. *)
Definition handled (action : Z) (s : timeslot_skb_q) q q' : Prop :=
  if action =? TSLOT_ACTION_DROP_BY_ID then q' = set_dropqueue (dropqueue q ++ skbs s) q
  else ∃ out, q' = set_prequeue (prequeue q ++ out) q ∧ length out = length (skbs s) ∧
    (action ≠ TSLOT_ACTION_MODIFY_BY_ID → out = skbs s).

Lemma skb_q_append_some a b : b ≠ [] → skb_q_append a b = Some (a ++ b).
Proof. intros Hb. unfold skb_q_append. by destruct b, a. Qed.

(** A flow with timeslots: the timeslot that the action refers to leaves it. *)
Lemma tsq_handle_now_spec `{!PreparesOk P} q key action id data f : tsq_ok q →
  dst_hash_tbl q !! key = Some f → skb_qs f ≠ [] →
  wp (tsq_handle_now key action id data) (λ r q' l,
    match find_timeslot action id (skb_qs f) with
    | None => r = 0 ∧ q' = q ∧ l = []
    | Some i => r = 1 ∧ l = [EvCall NetifSchedule] ∧
        ∃ s q1, skb_qs f !! i = Some s ∧ stored key (flow_take i f) q q1 ∧ handled action s q1 q'
    end) q.
Proof.
  intros Hq Ef Hne. pose proof (tq_lock q Hq) as Hlk. destruct (tq_flows q Hq key f Ef) as [Hk Hf].
  unfold tsq_handle_now. tsq_steps. apply wp_lock; [done|]. set (q1 := set_hash_tbl_lock true q).
  unfold dst_lookup. tsq_steps. change (dst_hash_tbl q1) with (dst_hash_tbl q). rewrite Ef. tsq_steps.
  rewrite bool_decide_eq_false_2 by done.
  destruct (find_timeslot action id (skb_qs f)) as [i|] eqn:Ei.
  2: { tsq_steps. apply wp_unlock; [done|]. tsq_steps. split; [done|]. split; [|done]. by apply lock_unlock_id. }
  destruct (find_timeslot_valid action id (skb_qs f) i Hne Ei) as [s Es].
  assert (skbs s ≠ []) as Hs by (by apply (Forall_lookup_1 _ _ _ _ (fl_slots _ _ _ Hf) Es)).
  tsq_steps. eapply wp_deref; [exact Es|]. unfold put_dst. tsq_steps.
  assert (∀ b (Φ : unit → tsq_sched_data P → list (event kernel_call) → Prop) q3,
    (∀ n i, Φ tt (set_flows n i q3) []) →
    wp (when b (modify (λ q, set_flows (flows q) (u32 (inactive_flows q + 1)) q))) Φ q3) as Hwhen.
  { intros b Φ q3 HΦ. destruct b; simpl when; [by apply wp_modify|]. apply wp_ret.
    specialize (HΦ (flows q3) (inactive_flows q3)). by destruct q3. }
  apply Hwhen. intros n i'. tsq_step. apply wp_unlock; [done|].
  fold (flow_take i f). change (dst_key (flow_take i f)) with (dst_key f). rewrite (fl_key _ _ _ Hf).
  set (q2 := set_hash_tbl_lock false _).
  assert (stored key (flow_take i f) q q2) as Hst.
  { exists n, i'. unfold q2, q1. clear -Hlk. destruct q. simpl in *. by rewrite Hlk. }
  destruct (stored_frame _ _ _ _ Hst) as (_ & Epre & Edrop & _). clearbody q2. clear q1.
  tsq_step.
  assert (∀ (m : T P unit), wp m (λ _ q' l, l = [] ∧ handled action s q2 q') q2 →
    wp m (λ _ q3 l1, wp (call NetifSchedule;; mret 1) (λ r q' l, r = 1 ∧ l1 ++ l = [EvCall NetifSchedule] ∧
      ∃ s' q1, skb_qs f !! i = Some s' ∧ stored key (flow_take i f) q q1 ∧ handled action s' q1 q') q3) q2) as Hfin.
  { intros m Hm. eapply wp_mono; [exact Hm|]. intros [] q' l (-> & Hh). tsq_steps. split; [done|]. split; [done|].
    by exists s, q2. }
  apply Hfin. clear Hfin. unfold handled. destruct (action =? TSLOT_ACTION_DROP_BY_ID).
  - tsq_steps. eapply wp_deref; [by apply skb_q_append_some|]. by tsq_steps.
  - assert (∀ (m : T P (list sk_buff)),
      wp m (λ out q' l, l = [] ∧ q' = q2 ∧ length out = length (skbs s) ∧
        (action ≠ TSLOT_ACTION_MODIFY_BY_ID → out = skbs s)) q2 →
      wp (skbs' ← m; q ← get; l ← deref (skb_q_append (prequeue q) skbs'); modify (set_prequeue l))
        (λ _ q' l, l = [] ∧ ∃ out, q' = set_prequeue (prequeue q2 ++ out) q2 ∧ length out = length (skbs s) ∧
          (action ≠ TSLOT_ACTION_MODIFY_BY_ID → out = skbs s)) q2) as Hout.
    { intros m Hm. tsq_step. eapply wp_mono; [exact Hm|]. intros out q' l (-> & -> & Hl & Ho). tsq_steps.
      eapply wp_deref; [apply skb_q_append_some; intros ->; by destruct (skbs s)|]. tsq_steps. eauto 10. }
    apply Hout. destruct prepare_to_send as [pf|] eqn:Ep; [|by tsq_steps].
    destruct (Z.eqb_spec action TSLOT_ACTION_MODIFY_BY_ID) as [Ea|Ea]; [|by tsq_steps].
    eapply wp_mono; [by apply prepare_all_spec|]. intros l' q' ev (-> & -> & Hl). done.
Qed.

Lemma tsq_reset_ids_spec q key f : tsq_ok q → dst_hash_tbl q !! key = Some f →
  wp (tsq_reset_ids key) (λ _ q' l, l = [] ∧ stored key (flow_renumber f) q q') q.
Proof.
  intros Hq Ef. pose proof (tq_lock q Hq) as Hlk. destruct (tq_flows q Hq key f Ef) as [Hk Hf].
  unfold tsq_reset_ids. tsq_steps. apply wp_lock; [done|]. set (q1 := set_hash_tbl_lock true q).
  unfold dst_lookup. tsq_steps. change (dst_hash_tbl q1) with (dst_hash_tbl q). rewrite Ef. tsq_steps.
  eapply wp_deref; [done|]. unfold put_dst. tsq_steps. apply wp_unlock; [done|]. split; [done|].
  fold (flow_renumber f). change (dst_key (flow_renumber f)) with (dst_key f). rewrite (fl_key _ _ _ Hf). exists (flows q), (inactive_flows q).
  unfold q1. clear -Hlk. destruct q. simpl in *. by rewrite Hlk.
Qed.
End specs.
