(* ===== verification/Endpoint.v ===== *)
(** * The endpoint's scheduler

    Model of [src/src/kernel-mod/sch_fastpass.c] (and [sch_fastpass.h]): the demand
    accounting per destination, the queue of flows that have something to request,
    the handlers of the control protocol, the sending of requests, and the instance
    of [TsqOps] that the scheduler is for the timeslot queue.

    The type [K] of procedures works on the scheduler's own state, [T] on the whole
    queueing discipline. A procedure takes as arguments the clocks it reads: [now] is
    [fp_monotonic_time_ns()] and [now_real] is [fp_get_time_ns()]. The locks of
    destinations and of the connection are modelled like [hash_tbl_lock]; the other
    two are released in the block that acquires them. Statistics, [/proc] output, the
    timers of the kernel and the creation of the socket are left out. *)

From S2P Require Import Prelude Platform Window Protocol Codec Pacer Tsq.
Export Pacer.Pacer Tsq.

Definition FASTPASS_REQUEST_WINDOW_SIZE : Z := Z.shiftl 1 13.
Definition MAX_REQ_DATA_PER_DST : Z := 256.
Definition ECN_CE : Z := 0x3.
Definition FLOW_UNQUEUED : Z := 0.
Definition FLOW_REQUEST_QUEUE : Z := 1.

(** The module parameters at their defaults. *)
Definition req_cost : Z := Z.shiftl 2 20.
Definition req_bucketlen : Z := 4 * Z.shiftl 2 20.
Definition req_min_gap : Z := 1000.
Definition reset_window_us : Z := 2 * 10 ^ 6.
Definition retrans_timeout_ns : Z := 200000.
Definition NSEC_PER_USEC : Z := 1000.

(** ** State *)
Record request_data := { rd_data : list Z; num_tslots : Z; unreq_tslots : Z }.
#[export] Instance request_data_inhabited : Inhabited request_data :=
  populate {| rd_data := []; num_tslots := 0; unreq_tslots := 0 |}.

Record fp_dst := {
  demand_tslots : Z;
  requested_tslots : Z;
  acked_tslots : Z;
  alloc_tslots : Z;
  used_tslots : Z;
  lock : bool;
  state : Z;
  areq_data : list request_data;
  areq_data_head : Z;
  areq_data_tail : Z;
  areq_data_next_to_send : Z;
}.

Definition set_demand_tslots (v : Z) (d : fp_dst) : fp_dst := {| demand_tslots := v;
  requested_tslots := requested_tslots d; acked_tslots := acked_tslots d; alloc_tslots := alloc_tslots d;
  used_tslots := used_tslots d; lock := lock d; state := state d; areq_data := areq_data d;
  areq_data_head := areq_data_head d; areq_data_tail := areq_data_tail d;
  areq_data_next_to_send := areq_data_next_to_send d |}.
Definition set_requested_tslots (v : Z) (d : fp_dst) : fp_dst := {| demand_tslots := demand_tslots d;
  requested_tslots := v; acked_tslots := acked_tslots d; alloc_tslots := alloc_tslots d;
  used_tslots := used_tslots d; lock := lock d; state := state d; areq_data := areq_data d;
  areq_data_head := areq_data_head d; areq_data_tail := areq_data_tail d;
  areq_data_next_to_send := areq_data_next_to_send d |}.
Definition set_acked_tslots (v : Z) (d : fp_dst) : fp_dst := {| demand_tslots := demand_tslots d;
  requested_tslots := requested_tslots d; acked_tslots := v; alloc_tslots := alloc_tslots d;
  used_tslots := used_tslots d; lock := lock d; state := state d; areq_data := areq_data d;
  areq_data_head := areq_data_head d; areq_data_tail := areq_data_tail d;
  areq_data_next_to_send := areq_data_next_to_send d |}.
Definition set_alloc_tslots (v : Z) (d : fp_dst) : fp_dst := {| demand_tslots := demand_tslots d;
  requested_tslots := requested_tslots d; acked_tslots := acked_tslots d; alloc_tslots := v;
  used_tslots := used_tslots d; lock := lock d; state := state d; areq_data := areq_data d;
  areq_data_head := areq_data_head d; areq_data_tail := areq_data_tail d;
  areq_data_next_to_send := areq_data_next_to_send d |}.
Definition set_used_tslots (v : Z) (d : fp_dst) : fp_dst := {| demand_tslots := demand_tslots d;
  requested_tslots := requested_tslots d; acked_tslots := acked_tslots d; alloc_tslots := alloc_tslots d;
  used_tslots := v; lock := lock d; state := state d; areq_data := areq_data d; areq_data_head := areq_data_head d;
  areq_data_tail := areq_data_tail d; areq_data_next_to_send := areq_data_next_to_send d |}.
Definition set_lock (v : bool) (d : fp_dst) : fp_dst := {| demand_tslots := demand_tslots d;
  requested_tslots := requested_tslots d; acked_tslots := acked_tslots d; alloc_tslots := alloc_tslots d;
  used_tslots := used_tslots d; lock := v; state := state d; areq_data := areq_data d;
  areq_data_head := areq_data_head d; areq_data_tail := areq_data_tail d;
  areq_data_next_to_send := areq_data_next_to_send d |}.
Definition set_state (v : Z) (d : fp_dst) : fp_dst := {| demand_tslots := demand_tslots d;
  requested_tslots := requested_tslots d; acked_tslots := acked_tslots d; alloc_tslots := alloc_tslots d;
  used_tslots := used_tslots d; lock := lock d; state := v; areq_data := areq_data d;
  areq_data_head := areq_data_head d; areq_data_tail := areq_data_tail d;
  areq_data_next_to_send := areq_data_next_to_send d |}.
Definition set_areq_data (l : list request_data) (h t n : Z) (d : fp_dst) : fp_dst := {|
  demand_tslots := demand_tslots d; requested_tslots := requested_tslots d; acked_tslots := acked_tslots d;
  alloc_tslots := alloc_tslots d; used_tslots := used_tslots d; lock := lock d; state := state d; areq_data := l;
  areq_data_head := h; areq_data_tail := t; areq_data_next_to_send := n |}.

#[export] Instance fp_dst_inhabited : Inhabited fp_dst := populate {| demand_tslots := 0; requested_tslots := 0;
  acked_tslots := 0; alloc_tslots := 0; used_tslots := 0; lock := false; state := 0; areq_data := [];
  areq_data_head := 0; areq_data_tail := 0; areq_data_next_to_send := 0 |}.

(** The counters of all flows have the prefix [q_]. *)
Record fp_sched_data := {
  unreq_flows : list Z;
  unreq_dsts_head : Z;
  unreq_dsts_tail : Z;
  dsts : list fp_dst;
  request_pacer : fp_pacer;
  is_destroyed : bool;
  conn : fpproto_conn;
  conn_lock : bool;
  q_demand_tslots : Z;
  q_requested_tslots : Z;
  q_alloc_tslots : Z;
  q_acked_tslots : Z;
  q_used_tslots : Z;
  emu_areq_data_type : Z;
  emu_areq_data_bytes : Z;
  emu_alloc_data_type : Z;
  q_alloc_data_bytes : Z;
}.

Definition set_unreq (l : list Z) (h t : Z) (q : fp_sched_data) : fp_sched_data := {| unreq_flows := l;
  unreq_dsts_head := h; unreq_dsts_tail := t; dsts := dsts q; request_pacer := request_pacer q;
  is_destroyed := is_destroyed q; conn := conn q; conn_lock := conn_lock q; q_demand_tslots := q_demand_tslots q;
  q_requested_tslots := q_requested_tslots q; q_alloc_tslots := q_alloc_tslots q;
  q_acked_tslots := q_acked_tslots q; q_used_tslots := q_used_tslots q; emu_areq_data_type := emu_areq_data_type q;
  emu_areq_data_bytes := emu_areq_data_bytes q; emu_alloc_data_type := emu_alloc_data_type q;
  q_alloc_data_bytes := q_alloc_data_bytes q |}.
Definition set_dsts (v : list fp_dst) (q : fp_sched_data) : fp_sched_data := {| unreq_flows := unreq_flows q;
  unreq_dsts_head := unreq_dsts_head q; unreq_dsts_tail := unreq_dsts_tail q; dsts := v;
  request_pacer := request_pacer q; is_destroyed := is_destroyed q; conn := conn q; conn_lock := conn_lock q;
  q_demand_tslots := q_demand_tslots q; q_requested_tslots := q_requested_tslots q;
  q_alloc_tslots := q_alloc_tslots q; q_acked_tslots := q_acked_tslots q; q_used_tslots := q_used_tslots q;
  emu_areq_data_type := emu_areq_data_type q; emu_areq_data_bytes := emu_areq_data_bytes q;
  emu_alloc_data_type := emu_alloc_data_type q; q_alloc_data_bytes := q_alloc_data_bytes q |}.
Definition set_request_pacer (v : fp_pacer) (q : fp_sched_data) : fp_sched_data := {| unreq_flows := unreq_flows q;
  unreq_dsts_head := unreq_dsts_head q; unreq_dsts_tail := unreq_dsts_tail q; dsts := dsts q; request_pacer := v;
  is_destroyed := is_destroyed q; conn := conn q; conn_lock := conn_lock q; q_demand_tslots := q_demand_tslots q;
  q_requested_tslots := q_requested_tslots q; q_alloc_tslots := q_alloc_tslots q;
  q_acked_tslots := q_acked_tslots q; q_used_tslots := q_used_tslots q; emu_areq_data_type := emu_areq_data_type q;
  emu_areq_data_bytes := emu_areq_data_bytes q; emu_alloc_data_type := emu_alloc_data_type q;
  q_alloc_data_bytes := q_alloc_data_bytes q |}.
Definition set_is_destroyed (v : bool) (q : fp_sched_data) : fp_sched_data := {| unreq_flows := unreq_flows q;
  unreq_dsts_head := unreq_dsts_head q; unreq_dsts_tail := unreq_dsts_tail q; dsts := dsts q;
  request_pacer := request_pacer q; is_destroyed := v; conn := conn q; conn_lock := conn_lock q;
  q_demand_tslots := q_demand_tslots q; q_requested_tslots := q_requested_tslots q;
  q_alloc_tslots := q_alloc_tslots q; q_acked_tslots := q_acked_tslots q; q_used_tslots := q_used_tslots q;
  emu_areq_data_type := emu_areq_data_type q; emu_areq_data_bytes := emu_areq_data_bytes q;
  emu_alloc_data_type := emu_alloc_data_type q; q_alloc_data_bytes := q_alloc_data_bytes q |}.
Definition set_conn (v : fpproto_conn) (q : fp_sched_data) : fp_sched_data := {| unreq_flows := unreq_flows q;
  unreq_dsts_head := unreq_dsts_head q; unreq_dsts_tail := unreq_dsts_tail q; dsts := dsts q;
  request_pacer := request_pacer q; is_destroyed := is_destroyed q; conn := v; conn_lock := conn_lock q;
  q_demand_tslots := q_demand_tslots q; q_requested_tslots := q_requested_tslots q;
  q_alloc_tslots := q_alloc_tslots q; q_acked_tslots := q_acked_tslots q; q_used_tslots := q_used_tslots q;
  emu_areq_data_type := emu_areq_data_type q; emu_areq_data_bytes := emu_areq_data_bytes q;
  emu_alloc_data_type := emu_alloc_data_type q; q_alloc_data_bytes := q_alloc_data_bytes q |}.
Definition set_conn_lock (v : bool) (q : fp_sched_data) : fp_sched_data := {| unreq_flows := unreq_flows q;
  unreq_dsts_head := unreq_dsts_head q; unreq_dsts_tail := unreq_dsts_tail q; dsts := dsts q;
  request_pacer := request_pacer q; is_destroyed := is_destroyed q; conn := conn q; conn_lock := v;
  q_demand_tslots := q_demand_tslots q; q_requested_tslots := q_requested_tslots q;
  q_alloc_tslots := q_alloc_tslots q; q_acked_tslots := q_acked_tslots q; q_used_tslots := q_used_tslots q;
  emu_areq_data_type := emu_areq_data_type q; emu_areq_data_bytes := emu_areq_data_bytes q;
  emu_alloc_data_type := emu_alloc_data_type q; q_alloc_data_bytes := q_alloc_data_bytes q |}.
Definition set_q_demand_tslots (v : Z) (q : fp_sched_data) : fp_sched_data := {| unreq_flows := unreq_flows q;
  unreq_dsts_head := unreq_dsts_head q; unreq_dsts_tail := unreq_dsts_tail q; dsts := dsts q;
  request_pacer := request_pacer q; is_destroyed := is_destroyed q; conn := conn q; conn_lock := conn_lock q;
  q_demand_tslots := v; q_requested_tslots := q_requested_tslots q; q_alloc_tslots := q_alloc_tslots q;
  q_acked_tslots := q_acked_tslots q; q_used_tslots := q_used_tslots q; emu_areq_data_type := emu_areq_data_type q;
  emu_areq_data_bytes := emu_areq_data_bytes q; emu_alloc_data_type := emu_alloc_data_type q;
  q_alloc_data_bytes := q_alloc_data_bytes q |}.
Definition set_q_requested_tslots (v : Z) (q : fp_sched_data) : fp_sched_data := {| unreq_flows := unreq_flows q;
  unreq_dsts_head := unreq_dsts_head q; unreq_dsts_tail := unreq_dsts_tail q; dsts := dsts q;
  request_pacer := request_pacer q; is_destroyed := is_destroyed q; conn := conn q; conn_lock := conn_lock q;
  q_demand_tslots := q_demand_tslots q; q_requested_tslots := v; q_alloc_tslots := q_alloc_tslots q;
  q_acked_tslots := q_acked_tslots q; q_used_tslots := q_used_tslots q; emu_areq_data_type := emu_areq_data_type q;
  emu_areq_data_bytes := emu_areq_data_bytes q; emu_alloc_data_type := emu_alloc_data_type q;
  q_alloc_data_bytes := q_alloc_data_bytes q |}.
Definition set_q_alloc_tslots (v : Z) (q : fp_sched_data) : fp_sched_data := {| unreq_flows := unreq_flows q;
  unreq_dsts_head := unreq_dsts_head q; unreq_dsts_tail := unreq_dsts_tail q; dsts := dsts q;
  request_pacer := request_pacer q; is_destroyed := is_destroyed q; conn := conn q; conn_lock := conn_lock q;
  q_demand_tslots := q_demand_tslots q; q_requested_tslots := q_requested_tslots q; q_alloc_tslots := v;
  q_acked_tslots := q_acked_tslots q; q_used_tslots := q_used_tslots q; emu_areq_data_type := emu_areq_data_type q;
  emu_areq_data_bytes := emu_areq_data_bytes q; emu_alloc_data_type := emu_alloc_data_type q;
  q_alloc_data_bytes := q_alloc_data_bytes q |}.
Definition set_q_acked_tslots (v : Z) (q : fp_sched_data) : fp_sched_data := {| unreq_flows := unreq_flows q;
  unreq_dsts_head := unreq_dsts_head q; unreq_dsts_tail := unreq_dsts_tail q; dsts := dsts q;
  request_pacer := request_pacer q; is_destroyed := is_destroyed q; conn := conn q; conn_lock := conn_lock q;
  q_demand_tslots := q_demand_tslots q; q_requested_tslots := q_requested_tslots q;
  q_alloc_tslots := q_alloc_tslots q; q_acked_tslots := v; q_used_tslots := q_used_tslots q;
  emu_areq_data_type := emu_areq_data_type q; emu_areq_data_bytes := emu_areq_data_bytes q;
  emu_alloc_data_type := emu_alloc_data_type q; q_alloc_data_bytes := q_alloc_data_bytes q |}.
Definition set_q_used_tslots (v : Z) (q : fp_sched_data) : fp_sched_data := {| unreq_flows := unreq_flows q;
  unreq_dsts_head := unreq_dsts_head q; unreq_dsts_tail := unreq_dsts_tail q; dsts := dsts q;
  request_pacer := request_pacer q; is_destroyed := is_destroyed q; conn := conn q; conn_lock := conn_lock q;
  q_demand_tslots := q_demand_tslots q; q_requested_tslots := q_requested_tslots q;
  q_alloc_tslots := q_alloc_tslots q; q_acked_tslots := q_acked_tslots q; q_used_tslots := v;
  emu_areq_data_type := emu_areq_data_type q; emu_areq_data_bytes := emu_areq_data_bytes q;
  emu_alloc_data_type := emu_alloc_data_type q; q_alloc_data_bytes := q_alloc_data_bytes q |}.
Definition set_emu_scheme (t b at_ ab : Z) (q : fp_sched_data) : fp_sched_data := {| unreq_flows := unreq_flows q;
  unreq_dsts_head := unreq_dsts_head q; unreq_dsts_tail := unreq_dsts_tail q; dsts := dsts q;
  request_pacer := request_pacer q; is_destroyed := is_destroyed q; conn := conn q; conn_lock := conn_lock q;
  q_demand_tslots := q_demand_tslots q; q_requested_tslots := q_requested_tslots q;
  q_alloc_tslots := q_alloc_tslots q; q_acked_tslots := q_acked_tslots q; q_used_tslots := q_used_tslots q;
  emu_areq_data_type := t; emu_areq_data_bytes := b; emu_alloc_data_type := at_; q_alloc_data_bytes := ab |}.

(** [fpproto_ops] of the endpoint *)
Definition fastpass_sch_proto_ops (B : build) (alloc_data_bytes : Z) : fpproto_ops := {|
  has_handle_reset := true; has_handle_ack := true; has_handle_neg_ack := true; has_handle_skipped_ack := false;
  has_trigger_request := true; has_handle_alloc := true; has_handle_areq := true;
  alloc_bytes_per_tslot := if EMULATION_ALGO B then 3 + alloc_data_bytes else MAX_ALLOC_BYTES_PER_TSLOT B |}.

Abbreviation F := (K fp_sched_data).
Abbreviation Q := (T fp_sched_data).

Definition atomic_add (a v : Z) : Z := s32 (v + a).

(** ** Destinations *)
Definition read_dst (index : Z) : F fp_dst := q ← get; deref (dsts q !! Z.to_nat index).
Definition upd_dst (index : Z) (f : fp_dst → fp_dst) : F unit :=
  modify (λ q, set_dsts (alter f (Z.to_nat index) (dsts q)) q).

Definition get_dst (index : Z) : F unit :=
  dst ← read_dst index;
  if lock dst then ub else upd_dst index (set_lock true).
Definition release_dst (index : Z) : F unit :=
  dst ← read_dst index;
  if lock dst then upd_dst index (set_lock false) else ub.

Definition lock_conn : F unit := q ← get; if conn_lock q then ub else modify (set_conn_lock true).
Definition unlock_conn : F unit := q ← get; if conn_lock q then modify (set_conn_lock false) else ub.

Definition trigger_tx (now : Z) : F unit :=
  modify (λ q, set_request_pacer (pacer_trigger (request_pacer q) now).2 q).

Definition unreq_dsts_enqueue_if_not_queued (now dst_id : Z) : F unit :=
  dst ← read_dst dst_id;
  if negb (state dst =? FLOW_UNQUEUED) then mret tt
  else
    modify (λ q, set_unreq (arr_set (unreq_flows q) (unreq_dsts_tail q mod MAX_FLOWS) (u16 dst_id))
      (unreq_dsts_head q) (u32 (unreq_dsts_tail q + 1)) q);;
    upd_dst dst_id (set_state FLOW_REQUEST_QUEUE);;
    trigger_tx now.

(** The destination is returned locked. *)
Definition unreq_dsts_dequeue_and_get : F (option Z) :=
  q ← get;
  if unreq_dsts_head q =? unreq_dsts_tail q then mret None
  else
    let dst_id := arr_get (unreq_flows q) (unreq_dsts_head q mod MAX_FLOWS) in
    modify (set_unreq (unreq_flows q) (u32 (unreq_dsts_head q + 1)) (unreq_dsts_tail q));;
    get_dst dst_id;;
    upd_dst dst_id (set_state FLOW_UNQUEUED);;
    mret (Some dst_id).

Definition flow_inc_used (index amount : Z) : F unit :=
  upd_dst index (λ d, set_used_tslots (u64 (used_tslots d + amount)) d);;
  modify (λ q, set_q_used_tslots (u64 (q_used_tslots q + amount)) q).
Definition flow_dec_used (index amount : Z) : F unit :=
  upd_dst index (λ d, set_used_tslots (u64 (used_tslots d - amount)) d);;
  modify (λ q, set_q_used_tslots (u64 (q_used_tslots q - amount)) q).

Definition flow_inc_demand (now dst_id amount : Z) : F unit :=
  upd_dst dst_id (λ d, set_demand_tslots (u64 (demand_tslots d + amount)) d);;
  unreq_dsts_enqueue_if_not_queued now dst_id;;
  modify (λ q, set_q_demand_tslots (atomic_add amount (q_demand_tslots q)) q).

(** ** Request data of a new timeslot (emulation) *)

(** [n] bytes of TCP payload, or zeros. Reading past the buffer is undefined. *)
Definition custom_data (n : Z) (skb : sk_buff) : option (list Z) :=
  if negb (skb_protocol skb =? ETH_P_IP) then Some (replicate (Z.to_nat n) 0)
  else if negb (ip_protocol (iph skb) =? IPPROTO_TCP) then Some (replicate (Z.to_nat n) 0)
  else
    let data_length := u32 (ip_tot_len (iph skb) - Z.shiftl (ip_ihl (iph skb) + tcp_doff skb) 2) in
    if data_length =? 0 then Some (replicate (Z.to_nat n) 0)
    else
      let bytes := take (Z.to_nat n) (drop (Z.to_nat (4 * tcp_doff skb)) (skb_transport skb)) in
      if Z.of_nat (length bytes) =? n then Some bytes else None.
Definition get_custom_packet_data : sk_buff → option (list Z) := custom_data 4.
Definition get_lstf_packet_data : sk_buff → option (list Z) := custom_data 8.

(** The new contents of the bytes [old]. *)
Definition copy_request_data_from_pkt (type : Z) (old : list Z) (skb : sk_buff) : option (list Z) :=
  if type =? Flags.AREQ_DATA_TYPE_PKTS_LEFT then
    bs ← get_custom_packet_data skb; Some (bs ++ drop 4 old)
  else if type =? Flags.AREQ_DATA_TYPE_TSO then
    Some (u8 (default 1 (gso_segs skb)) :: drop 1 old)
  else if type =? Flags.AREQ_DATA_TYPE_LSTF then
    bs ← get_lstf_packet_data skb; Some (bs ++ drop 8 old)
  else Some old.

Definition fpq_add_timeslot (B : build) (now dst_id : Z) (skb : sk_buff) : F unit :=
  get_dst dst_id;;
  flow_inc_demand now dst_id 1;;
  q ← get;
  (if EMULATION_ALGO B && negb (emu_areq_data_bytes q =? 0) then
     dst ← read_dst dst_id;
     let l := areq_data dst in
     let h := areq_data_head dst in
     let t := areq_data_tail dst in
     if (t + 1) mod MAX_REQ_DATA_PER_DST =? h mod MAX_REQ_DATA_PER_DST then
       let i := (t - 1) mod MAX_REQ_DATA_PER_DST in
       let r := arr_get l i in
       upd_dst dst_id (set_areq_data (arr_set l i {| rd_data := rd_data r; num_tslots := u16 (num_tslots r + 1);
         unreq_tslots := u16 (unreq_tslots r + 1) |}) h t (areq_data_next_to_send dst))
     else
       let i := t mod MAX_REQ_DATA_PER_DST in
       data ← deref (copy_request_data_from_pkt (emu_areq_data_type q) (rd_data (arr_get l i)) skb);
       upd_dst dst_id (set_areq_data (arr_set l i {| rd_data := data; num_tslots := 1; unreq_tslots := 1 |})
         h (u16 (t + 1)) (areq_data_next_to_send dst))
   else mret tt);;
  release_dst dst_id.

(** ** Marking *)
Section marking.
Context (csum_replace2 : Z → Z → Z → Z).

(** The first half-word of the IPv4 header as it is loaded. *)
Definition ip_word (h : iphdr) : Z := Z.lor 0x40 (ip_ihl h) + ip_tos h * 2 ^ 8.

Definition set_iph (h : iphdr) (skb : sk_buff) : sk_buff := {| skb_addr := skb_addr skb;
  skb_protocol := skb_protocol skb; h_dest := h_dest skb; iph := h; iph6 := iph6 skb; skb_keys := skb_keys skb;
  pkt_len := pkt_len skb; tcp_doff := tcp_doff skb; skb_transport := skb_transport skb; gso_segs := gso_segs skb |}.
Definition set_iph6 (h : ipv6hdr) (skb : sk_buff) : sk_buff := {| skb_addr := skb_addr skb;
  skb_protocol := skb_protocol skb; h_dest := h_dest skb; iph := iph skb; iph6 := h; skb_keys := skb_keys skb;
  pkt_len := pkt_len skb; tcp_doff := tcp_doff skb; skb_transport := skb_transport skb; gso_segs := gso_segs skb |}.

Definition mark_ecn (skb : sk_buff) : sk_buff :=
  if skb_protocol skb =? ETH_P_IP then
    let h := iph skb in
    let h' := {| ip_ihl := ip_ihl h; ip_tos := Z.lor (ip_tos h) ECN_CE; ip_tot_len := ip_tot_len h;
      ip_protocol := ip_protocol h; ip_check := ip_check h; ip_daddr := ip_daddr h |} in
    set_iph {| ip_ihl := ip_ihl h'; ip_tos := ip_tos h'; ip_tot_len := ip_tot_len h'; ip_protocol := ip_protocol h';
      ip_check := csum_replace2 (ip_check h') (ip_word h) (ip_word h'); ip_daddr := ip_daddr h' |} skb
  else if skb_protocol skb =? ETH_P_IPV6 then
    let h := iph6 skb in
    set_iph6 {| ip6_daddr0 := ip6_daddr0 h; ip6_flow_lbl0 := u8 (Z.lor (ip6_flow_lbl0 h) (Z.shiftl ECN_CE 4)) |} skb
  else skb.

Definition fpq_prepare_to_send (skb : sk_buff) (data : option (list Z)) : F sk_buff :=
  q ← get;
  mret (if emu_alloc_data_type q =? Flags.ALLOC_DATA_TYPE_NONE then mark_ecn skb else skb).
End marking.

(** ** Handlers that work on the scheduler's state *)
Section scheduler.
Context (B : build) `{H : HashOps}.

(** The [while (1)] loop that drops acknowledged request data. It does not end
    when all the entries of the queue are 0; otherwise every 256 steps take
    something off [delta]. *)
Fixpoint ack_data_loop (fuel : nat) (dst_id delta : Z) : F unit :=
  match fuel with
  | O => ub
  | S fuel' =>
      dst ← read_dst dst_id;
      let l := areq_data dst in
      let i := areq_data_head dst mod MAX_REQ_DATA_PER_DST in
      let r := arr_get l i in
      if num_tslots r <=? delta then
        upd_dst dst_id (set_areq_data l (u16 (areq_data_head dst + 1)) (areq_data_tail dst) (areq_data_next_to_send dst));;
        let delta := delta - num_tslots r in
        if delta =? 0 then mret tt else ack_data_loop fuel' dst_id delta
      else
        upd_dst dst_id (set_areq_data (arr_set l i {| rd_data := rd_data r; num_tslots := u16 (num_tslots r - delta);
          unreq_tslots := unreq_tslots r |}) (areq_data_head dst) (areq_data_tail dst) (areq_data_next_to_send dst))
  end.

Definition handle_ack_areq (now : Z) (a : fpproto_areq_desc) : F unit :=
  let dst_id := u32 (src_dst_key a) in
  get_dst dst_id;;
  dst ← read_dst dst_id;
  let new_acked := tslots a in
  (if acked_tslots dst <? new_acked then
     bug_on (new_acked >? demand_tslots dst) "handle_ack: acked more than demand";;
     let delta := u64 (new_acked - acked_tslots dst) in
     modify (λ q, set_q_acked_tslots (u64 (q_acked_tslots q + delta)) q);;
     upd_dst dst_id (set_acked_tslots new_acked);;
     (if negb (requested_tslots dst =? demand_tslots dst) then unreq_dsts_enqueue_if_not_queued now dst_id
      else mret tt);;
     q ← get;
     when (EMULATION_ALGO B && negb (emu_areq_data_bytes q =? 0))
       (ack_data_loop (256 * S (Z.to_nat delta)) dst_id delta)
   else mret tt);;
  release_dst dst_id.

Fixpoint for_areqs (f : fpproto_areq_desc → F unit) (l : list fpproto_areq_desc) : F unit :=
  match l with
  | [] => mret tt
  | a :: l' => f a;; for_areqs f l'
  end.

Definition handle_ack (now : Z) (p : option fpproto_pktdesc) : F unit :=
  pd ← deref p;
  for_areqs (handle_ack_areq now) (take (Z.to_nat (pd_n_areq pd)) (pd_areq pd)).

Definition handle_neg_ack_areq (now : Z) (a : fpproto_areq_desc) : F unit :=
  let dst_id := u32 (src_dst_key a) in
  get_dst dst_id;;
  dst ← read_dst dst_id;
  (if tslots a <=? acked_tslots dst then mret tt
   else unreq_dsts_enqueue_if_not_queued now dst_id);;
  release_dst dst_id.

Definition handle_neg_ack (now : Z) (p : option fpproto_pktdesc) : F unit :=
  pd ← deref p;
  for_areqs (handle_neg_ack_areq now) (take (Z.to_nat (pd_n_areq pd)) (pd_areq pd)).

Definition cancel_retrans_timer : F unit := call CancelRetransTimer.
Definition set_retrans_timer (when_ : Z) : F unit := call (SetRetransTimer when_).

(** Calls of the protocol that concern the scheduler only. *)
Definition dispatch_own (now : Z) (c : proto_call) : F unit :=
  match c with
  | CHandleAck pd => handle_ack now pd
  | CHandleNegAck pd => handle_neg_ack now pd
  | CTriggerRequest => trigger_tx now
  | CSetTimer when_ => set_retrans_timer when_
  | CCancelTimer => cancel_retrans_timer
  | CFree pd => call (FreePktdesc pd)
  | CHandleReset | CHandleSkippedAck _ | CHandleAlloc _ _ _ _ _ | CHandleAreq _ _ => ub
  end.

Fixpoint dispatch_all {S} (f : proto_call → K S unit) (l : list (event proto_call)) : K S unit :=
  match l with
  | [] => mret tt
  | EvBug site :: l' => bug_on true site;; dispatch_all f l'
  | EvCall c :: l' => f c;; dispatch_all f l'
  end.

(** A procedure of the protocol on the connection, and the callbacks that it made.
    They are run after it, in order: they do not use the connection, except for the
    forced reset of [handle_report], and of what [fpproto_perform_rx_callbacks] does
    after that callback only the statistics concern the connection. *)
Definition conn_run {A} (m : P A) : F (A * list (event proto_call)) :=
  q ← get;
  '(a, c, l) ← deref (m (conn q));
  modify (set_conn c);;
  mret (a, l).

Definition on_conn {A} (now : Z) (m : P A) : F A :=
  '(a, l) ← conn_run m;
  dispatch_all (dispatch_own now) l;;
  mret a.

(** ** Requests *)

(** The request data copied into the packet for one destination: the count, the
    data, and whether all of it went in. *)
Fixpoint add_areq_data (fuel : nat) (dst_id bytes wanted count : Z) (data : list Z) : F (Z * list Z * bool) :=
  match fuel with
  | O => ub
  | S fuel' =>
      if Z.of_nat (length data) + bytes <=? FASTPASS_PKT_MAX_AREQ_DATA B then
        dst ← read_dst dst_id;
        let l := areq_data dst in
        let n := areq_data_next_to_send dst in
        let i := n mod MAX_REQ_DATA_PER_DST in
        let r := arr_get l i in
        let unreq := u16 (unreq_tslots r - 1) in
        upd_dst dst_id (set_areq_data (arr_set l i {| rd_data := rd_data r; num_tslots := num_tslots r;
            unreq_tslots := unreq |}) (areq_data_head dst) (areq_data_tail dst)
          (if unreq =? 0 then u16 (n + 1) else n));;
        let count := u8 (count + 1) in
        let data := data ++ take (Z.to_nat bytes) (rd_data r) in
        if count =? wanted then mret (count, data, true)
        else add_areq_data fuel' dst_id bytes wanted count data
      else mret (count, data, false)
  end.

(** The request data for a destination, and the total that it is possible to
    request. *)
Definition request_data_for (now dst_id new_requested : Z) (data : list Z) : F (Z * Z * list Z) :=
  q ← get;
  dst ← read_dst dst_id;
  let bytes := emu_areq_data_bytes q in
  if negb (EMULATION_ALGO B) || (bytes =? 0) || (new_requested =? requested_tslots dst) then
    mret (new_requested, 0, data)
  else
    '(count, data, all) ← add_areq_data (S (Z.to_nat (FASTPASS_PKT_MAX_AREQ_DATA B))) dst_id bytes
                            (u64 (new_requested - requested_tslots dst)) 0 data;
    if (all : bool) then mret (new_requested, count, data)
    else
      unreq_dsts_enqueue_if_not_queued now dst_id;;
      mret (u64 (requested_tslots dst + count), count, data).

(** The requests of a packet, the counts of their data, and the data. *)
Record req_pkt := { rp_areq : list fpproto_areq_desc; rp_counts : list Z; rp_data : list Z }.

(** One request is added, and the destination released. *)
Definition request_flow (now dst_id new_requested : Z) (rp : req_pkt) : F req_pkt :=
  '(new_requested, count, data) ← request_data_for now dst_id new_requested (rp_data rp);
  dst ← read_dst dst_id;
  modify (λ q, set_q_requested_tslots
    (u64 (q_requested_tslots q + (new_requested - requested_tslots dst))) q);;
  upd_dst dst_id (set_requested_tslots new_requested);;
  release_dst dst_id;;
  mret {| rp_areq := rp_areq rp ++ [{| src_dst_key := dst_id; tslots := new_requested |}];
          rp_counts := rp_counts rp ++ [count]; rp_data := data |}.

(** The loop over the flows that wait; at most 256 wait, and one that is put back
    ends the loop. *)
Fixpoint request_loop (fuel : nat) (now : Z) (rp : req_pkt) : F req_pkt :=
  match fuel with
  | O => ub
  | S fuel' =>
      if Z.of_nat (length (rp_areq rp)) <? FASTPASS_PKT_MAX_AREQ then
        o ← unreq_dsts_dequeue_and_get;
        match o with
        | None => mret rp
        | Some dst_id =>
            dst ← read_dst dst_id;
            let new_requested := Z.min (demand_tslots dst)
              (u64 (acked_tslots dst + FASTPASS_REQUEST_WINDOW_SIZE - 1)) in
            if new_requested <=? acked_tslots dst then
              release_dst dst_id;; request_loop fuel' now rp
            else
              rp ← request_flow now dst_id new_requested rp;
              q ← get;
              if EMULATION_ALGO B
                 && (Z.of_nat (length (rp_data rp)) + emu_areq_data_bytes q >? FASTPASS_PKT_MAX_AREQ_DATA B)
              then mret rp else request_loop fuel' now rp
        end
      else mret rp
  end.

(** The descriptor of the packet; the protocol fills in the header. *)
Definition request_pktdesc (type : Z) (rp : req_pkt) : fpproto_pktdesc := {|
  pd_sent_timestamp := 0; pd_seqno := 0; pd_ack_seq := 0; pd_ack_vec := 0; pd_send_reset := false;
  pd_reset_timestamp := 0; pd_n_areq := Z.of_nat (length (rp_areq rp)); pd_areq := rp_areq rp;
  pd_areq_data_type := type; pd_areq_data_bytes := Z.of_nat (length (rp_data rp));
  pd_areq_data_counts := rp_counts rp; pd_areq_data := rp_data rp; pd_alloc_tslot := 0; pd_used_alloc_tslot := 0;
  pd_base_tslot := 0; pd_n_dsts := 0; pd_dsts := []; pd_tslot_desc := []; pd_emu_tslot_desc := [] |}.

(** [send_request] is three critical sections: *)
Definition send_prepare (now : Z) : F bool :=
  lock_conn;;
  q ← get;
  if is_destroyed q then unlock_conn;; mret false
  else on_conn now fpproto_prepare_to_send;; unlock_conn;; mret true.

Definition send_build (now : Z) : F fpproto_pktdesc :=
  q ← get;
  rp ← request_loop (S (Z.to_nat MAX_FLOWS)) now {| rp_areq := []; rp_counts := []; rp_data := [] |};
  mret (request_pktdesc (emu_areq_data_type q) rp).

Definition send_commit (now : Z) (pd : fpproto_pktdesc) : F unit :=
  lock_conn;;
  q ← get;
  if is_destroyed q then unlock_conn
  else
    pd ← on_conn now (fpproto_commit_packet pd now);
    unlock_conn;;
    call (SendPktdesc pd);;
    q ← get;
    when (negb (q_requested_tslots q =? u64 (q_demand_tslots q))) (trigger_tx now).

Definition send_request (now : Z) (nomem : bool) : F unit :=
  if nomem then trigger_tx now
  else
    ok ← send_prepare now;
    if (ok : bool) then pd ← send_build now; send_commit now pd
    else mret tt.

Definition maintenance_tasklet_func (now : Z) (nomem : bool) : F unit :=
  q ← get;
  if pacer_is_triggered (request_pacer q) && time_after_eq64 now (pacer_next_event (request_pacer q)) then
    modify (set_request_pacer (pacer_reset (request_pacer q)));;
    send_request now nomem
  else mret tt.

Definition retrans_tasklet_func (now : Z) : F unit :=
  lock_conn;;
  q ← get;
  (if is_destroyed q then mret tt else on_conn now (fpproto_handle_timeout now));;
  unlock_conn.

(** ** Creation and destruction *)

(** [proc_ok] and [sock_err]: the results of [fastpass_proc_init] and
    [connect_ctrl_socket]. *)
Definition fpq_new_qdisc (emu_scheme : string) (proc_err sock_err : Z) (now now_real mul shift : Z) : F Z :=
  q ← get;
  modify (set_unreq (unreq_flows q) 0 0);;
  (if EMULATION_ALGO B then
     modify (set_emu_scheme (Flags.areq_data_type_from_scheme emu_scheme) (Flags.areq_data_bytes_from_scheme emu_scheme)
       (Flags.alloc_data_type_from_scheme emu_scheme) (Flags.alloc_data_bytes_from_scheme emu_scheme))
   else mret tt);;
  modify (λ q, set_dsts (set_lock false <$> dsts q) q);;
  modify (set_request_pacer (pacer_init_full now req_cost req_bucketlen req_min_gap));;
  if negb (proc_err =? 0) then mret proc_err
  else
    modify (set_is_destroyed false);;
    modify (set_conn_lock false);;
    on_conn now (fpproto_init_conn B now_real
      (fastpass_sch_proto_ops B (Flags.alloc_data_bytes_from_scheme emu_scheme))
      (reset_window_us * NSEC_PER_USEC) retrans_timeout_ns);;
    if negb (sock_err =? 0) then on_conn now fpproto_destroy_conn;; mret sock_err
    else mret 0.

Definition fpq_stop_qdisc : F unit :=
  lock_conn;;
  modify (set_is_destroyed true);;
  unlock_conn;;
  on_conn 0 fpproto_destroy_conn.
End scheduler.

(** ** Handlers that work on the whole queueing discipline *)
Section endpoint.
Context (B : build) `{H : HashOps}.
Context (csum_replace2 : Z → Z → Z → Z).
Context (emu_scheme : string) (proc_err sock_err : Z).

#[export] Instance fastpass_tsq_ops : TsqOps fp_sched_data := {|
  new_qdisc := fpq_new_qdisc B emu_scheme proc_err sock_err;
  stop_qdisc := fpq_stop_qdisc B;
  add_timeslot := fpq_add_timeslot B;
  prepare_to_send := Some (fpq_prepare_to_send csum_replace2);
|}.

(** All the request data has to be sent again. *)
Definition reset_areq_data (d : fp_dst) : fp_dst :=
  let h := areq_data_head d in
  let t := areq_data_tail d in
  let l := foldl (λ l cur, let i := cur mod MAX_REQ_DATA_PER_DST in let r := arr_get l i in
      arr_set l i {| rd_data := rd_data r; num_tslots := num_tslots r; unreq_tslots := num_tslots r |})
    (areq_data d) (seqZ h (t - h)) in
  set_areq_data l h t h d.

Definition reset_flow (now dst_id : Z) : Q unit :=
  on_priv (get_dst dst_id);;
  dst ← on_priv (read_dst dst_id);
  if demand_tslots dst =? used_tslots dst then on_priv (release_dst dst_id)
  else
    on_priv (
      upd_dst dst_id (λ d, set_used_tslots 0 (set_requested_tslots 0 (set_acked_tslots 0 (set_alloc_tslots 0
        (set_demand_tslots (u64 (demand_tslots d - used_tslots d)) d)))));;
      when (EMULATION_ALGO B) (upd_dst dst_id reset_areq_data);;
      dst ← read_dst dst_id;
      modify (λ q, set_q_demand_tslots (atomic_add (demand_tslots dst) (q_demand_tslots q)) q);;
      unreq_dsts_enqueue_if_not_queued now dst_id;;
      release_dst dst_id);;
    tsq_reset_ids dst_id.

Fixpoint reset_flows (k : nat) (now idx base_idx : Z) : Q unit :=
  match k with
  | O => mret tt
  | S k' =>
      reset_flow now (Z.land (u32 (idx + base_idx)) (MAX_FLOWS - 1));;
      reset_flows k' now (idx + 1) base_idx
  end.

Definition handle_reset (now : Z) : Q unit :=
  let base_idx := Z.land (jhash_1word (u32 now) 0) (MAX_FLOWS - 1) in
  on_priv (modify (λ q, set_q_used_tslots 0 (set_q_acked_tslots 0 (set_q_alloc_tslots 0
    (set_q_requested_tslots 0 (set_q_demand_tslots 0 q))))));;
  reset_flows (Z.to_nat MAX_FLOWS) now 0 base_idx.

(** ** Allocations *)
Definition handle_single_alloc (dst_id flags id : Z) (data : option (list Z)) : Q Z :=
  if EMULATION_ALGO B then
    if flags =? EMU_FLAGS_NONE then tsq_handle_now dst_id TSLOT_ACTION_ADMIT_BY_ID id data
    else if flags =? EMU_FLAGS_DROP then tsq_handle_now dst_id TSLOT_ACTION_DROP_BY_ID id data
    else if (flags =? EMU_FLAGS_ECN_MARK) || (flags =? EMU_FLAGS_MODIFY) then
      tsq_handle_now dst_id TSLOT_ACTION_MODIFY_BY_ID id data
    else mret 0
  else
    tsq_handle_now dst_id TSLOT_ACTION_ADMIT_HEAD 0 None;;
    mret 1.

(** One allocation within the demand. *)
Definition admit_alloc (dst_id flags id : Z) (data : option (list Z)) : Q unit :=
  on_priv (flow_inc_used dst_id 1;;
           upd_dst dst_id (λ d, set_alloc_tslots (u64 (alloc_tslots d + 1)) d);;
           release_dst dst_id);;
  handled_tslots ← handle_single_alloc dst_id flags id data;
  when (EMULATION_ALGO B && (handled_tslots =? 0))
    (on_priv (get_dst dst_id;;
              flow_dec_used dst_id 1;;
              upd_dst dst_id (λ d, set_alloc_tslots (u64 (alloc_tslots d - 1)) d);;
              release_dst dst_id));;
  when (handled_tslots =? 1)
    (on_priv (modify (λ q, set_q_alloc_tslots (atomic_add 1 (q_alloc_tslots q)) q))).

(** The loop over the [k] remaining timeslots from the [i]-th; [data] is the
    offset of [alloc_data] from [tslots]. *)
Fixpoint alloc_loop (k : nat) (dst_ids : list Z) (n_dst : Z) (tslots : list Z) (n_tslots i data : Z) : Q unit :=
  match k with
  | O => mret tt
  | S k' =>
      spec ← deref (tslots !! Z.to_nat i);
      let dst_id_idx := Z.shiftr spec 4 in
      if dst_id_idx =? 0 then alloc_loop k' dst_ids n_dst tslots n_tslots (i + 1) data
      else if dst_id_idx >? n_dst then mret tt
      else
        dst_id ← deref (dst_ids !! Z.to_nat (dst_id_idx - 1));
        let flags := Z.land spec FLAGS_MASK in
        id ← (if EMULATION_ALGO B then deref (ld16 tslots (n_tslots + 2 * i)) else mret 0);
        on_priv (get_dst dst_id);;
        dst ← on_priv (read_dst dst_id);
        if negb (used_tslots dst =? demand_tslots dst) then
          admit_alloc dst_id flags id (Some (drop (Z.to_nat data) tslots));;
          q ← on_priv get;
          alloc_loop k' dst_ids n_dst tslots n_tslots (i + 1)
            (if EMULATION_ALGO B then data + q_alloc_data_bytes q else data)
        else
          on_priv (release_dst dst_id);;
          alloc_loop k' dst_ids n_dst tslots n_tslots (i + 1) data
  end.

Definition handle_alloc (now : Z) (dst_ids : list Z) (n_dst : Z) (tslots : list Z) (n_tslots : Z) : Q unit :=
  on_priv (trigger_tx now);;
  alloc_loop (Z.to_nat n_tslots) dst_ids n_dst tslots n_tslots 0 (3 * n_tslots).

(** ** Allocation reports *)

(** The total that a 16-bit count stands for. *)
Definition expand_count (alloc count_low : Z) : Z :=
  let count := u64 (alloc - 2 ^ 15) in u64 (count + u16 (count_low - count)).

(** False when the loop is left for a reset. *)
Definition handle_report (now now_real dst_id count_low : Z) : Q bool :=
  on_priv (get_dst dst_id);;
  dst ← on_priv (read_dst dst_id);
  let count := expand_count (alloc_tslots dst) count_low in
  if s64 (count - alloc_tslots dst) >? 0 then
    let n_lost := u64 (count - alloc_tslots dst) in
    if s64 (count - requested_tslots dst) >? 0 then
      on_priv (release_dst dst_id);;
      on_priv (lock_conn;; on_conn B now (fpproto_force_reset B now_real);; unlock_conn);;
      handle_reset now;;
      mret false
    else
      on_priv (
        (if EMULATION_ALGO B then mret tt
         else
           upd_dst dst_id (λ d, set_alloc_tslots (u64 (alloc_tslots d + n_lost)) d);;
           flow_inc_used dst_id n_lost;;
           flow_inc_demand now dst_id n_lost;;
           modify (λ q, set_q_alloc_tslots (atomic_add n_lost (q_alloc_tslots q)) q));;
        release_dst dst_id);;
      mret true
  else on_priv (release_dst dst_id);; mret true.

Fixpoint areq_loop (k : nat) (now now_real : Z) (dst_and_count : list Z) (i : Z) : Q unit :=
  match k with
  | O => mret tt
  | S k' =>
      dst_id ← deref (ld16 dst_and_count (4 * i));
      count_low ← deref (ld16 dst_and_count (4 * i + 2));
      more ← handle_report now now_real dst_id count_low;
      if (more : bool) then areq_loop k' now now_real dst_and_count (i + 1) else mret tt
  end.

Definition handle_areq (now now_real : Z) (dst_and_count : list Z) (n : Z) : Q unit :=
  on_priv (trigger_tx now);;
  areq_loop (Z.to_nat n) now now_real dst_and_count 0.

(** ** Received packets *)
Definition dispatch (now now_real : Z) (c : proto_call) : Q unit :=
  match c with
  | CHandleReset => handle_reset now
  | CHandleAlloc _ dst_ids n_dst tslots n_tslots => handle_alloc now dst_ids n_dst tslots n_tslots
  | CHandleAreq dst_and_count n => handle_areq now now_real dst_and_count n
  | _ => on_priv (dispatch_own B now c)
  end.

Definition on_conn_rx {A} (now now_real : Z) (m : P A) : Q A :=
  '(a, l) ← on_priv (conn_run m);
  dispatch_all (dispatch now now_real) l;;
  mret a.

Definition ctrl_rcv_handler (now now_real addr : Z) (pkt : list Z) : Q unit :=
  on_priv lock_conn;;
  q ← on_priv get;
  '(ret, pkt) ← (if is_destroyed q then mret (None, pkt)
                 else on_conn_rx now now_real (fpproto_handle_rx_packet B now_real now_real addr pkt));
  on_priv unlock_conn;;
  match ret with
  | None => mret tt
  | Some in_seq =>
      ok ← on_conn_rx now now_real (fpproto_perform_rx_callbacks B pkt);
      if (ok : bool) then
        on_priv (lock_conn;;
                 q ← get;
                 (if is_destroyed q then mret tt else on_conn B now (fpproto_successful_rx in_seq));;
                 unlock_conn)
      else mret tt
  end.
End endpoint.
