(* ===== verification/EndpointFacts.v ===== *)
(** * The state of the endpoint's scheduler

    The invariant of the counters of a destination ([dst_ok]) and of the scheduler
    ([fp_ok]), and the rules for the sections of code that work on one destination
    ([sect]): what such a section does is given by the destination before and after
    it, because the request queue follows the destination's state. *)

From S2P Require Import Prelude Platform Window WindowFacts Protocol ConnFacts ConnSpec ConnSafe Codec Pacer Lists.
From S2P Require Import Tsq TsqFacts Endpoint.

(** ** The queue of flows with something to request *)
Definition reqs (q : fp_sched_data) : list Z :=
  circ (unreq_flows q) (unreq_dsts_head q) (u32 (unreq_dsts_tail q - unreq_dsts_head q)).

Record queue_ok (q : fp_sched_data) : Prop := {
  qo_cells : length (unreq_flows q) = 256%nat;
  qo_idx : 0 ≤ unreq_dsts_head q < 2 ^ 32 ∧ 0 ≤ unreq_dsts_tail q < 2 ^ 32;
  qo_nodup : NoDup (reqs q);
  qo_range : Forall (λ d, 0 ≤ d < 256) (reqs q);
  qo_member : ∀ i d, dsts q !! i = Some d →
    (state d = FLOW_UNQUEUED ∨ state d = FLOW_REQUEST_QUEUE) ∧ (state d = FLOW_REQUEST_QUEUE ↔ Z.of_nat i ∈ reqs q);
}.

Lemma reqs_length q : Z.of_nat (length (reqs q)) = u32 (unreq_dsts_tail q - unreq_dsts_head q).
Proof. unfold reqs. rewrite length_circ. pose proof (u32_range (unreq_dsts_tail q - unreq_dsts_head q)). lia. Qed.

Lemma reqs_bound q : queue_ok q → Z.of_nat (length (reqs q)) ≤ 256.
Proof.
  intros Hq. pose proof (nodup_range_length (reqs q) 256 ltac:(lia) (qo_nodup q Hq) (qo_range q Hq)). lia.
Qed.

(** An element outside the queue: there is room for it. *)
Lemma reqs_room q i : queue_ok q → 0 ≤ i < 256 → i ∉ reqs q → Z.of_nat (length (reqs q)) < 256.
Proof.
  intros Hq Hi Hn.
  pose proof (nodup_range_length (i :: reqs q) 256 ltac:(lia)) as Hl. simpl in Hl.
  assert (S (length (reqs q)) ≤ Z.to_nat 256)%nat; [|lia]. apply Hl.
  - by apply NoDup_cons; split; [|apply qo_nodup].
  - apply Forall_cons. split; [done|apply Hq].
Qed.

Lemma max_flows : MAX_FLOWS = 256.
Proof. done. Qed.

Lemma reqs_push q i l : length (unreq_flows q) = 256%nat → Z.of_nat (length (reqs q)) < 256 →
  l = arr_set (unreq_flows q) (unreq_dsts_tail q mod MAX_FLOWS) i →
  circ l (unreq_dsts_head q) (u32 (u32 (unreq_dsts_tail q + 1) - unreq_dsts_head q)) = reqs q ++ [i].
Proof.
  intros Hc Hl ->. rewrite reqs_length in Hl. rewrite u32_diff_succ. unfold reqs.
  pose proof (u32_range (unreq_dsts_tail q - unreq_dsts_head q)) as Hr.
  set (n := u32 (unreq_dsts_tail q - unreq_dsts_head q)) in *. rewrite (u32_small (n + 1)) by lia.
  rewrite max_flows. replace (unreq_dsts_tail q mod 256) with ((unreq_dsts_head q + n) mod Z.of_nat (length (unreq_flows q))).
  - apply circ_push. rewrite Hc. lia.
  - rewrite Hc. unfold n. change (Z.of_nat 256) with 256. mlia.
Qed.

Lemma reqs_pop q x rest : queue_ok q → reqs q = x :: rest →
  arr_get (unreq_flows q) (unreq_dsts_head q mod MAX_FLOWS) = x ∧
  circ (unreq_flows q) (u32 (unreq_dsts_head q + 1))
    (u32 (unreq_dsts_tail q - u32 (unreq_dsts_head q + 1))) = rest.
Proof.
  intros Hq E. pose proof (reqs_length q) as Hl. pose proof (u32_range (unreq_dsts_tail q - unreq_dsts_head q)) as Hr.
  rewrite E in Hl. simpl in Hl. unfold reqs in E. set (n := u32 (unreq_dsts_tail q - unreq_dsts_head q)) in *.
  rewrite circ_pop, (qo_cells q Hq) in E by lia. injection E as Ex Er. rewrite max_flows. split; [done|].
  rewrite u32_diff_pred. fold n. rewrite (u32_small (n - 1)) by lia. rewrite <- Er.
  apply circ_mod; rewrite (qo_cells q Hq); [lia|]. change (Z.of_nat 256) with (2 ^ 8). by apply u32_mod_pow2.
Qed.

(** ** Sections on one destination *)

(** What a section leaves alone. *)
Record frame_ok (q q' : fp_sched_data) : Prop := {
  fr_conn : conn q' = conn q;
  fr_lock : conn_lock q' = conn_lock q;
  fr_destroyed : is_destroyed q' = is_destroyed q;
  fr_type : emu_areq_data_type q' = emu_areq_data_type q;
  fr_bytes : emu_areq_data_bytes q' = emu_areq_data_bytes q;
  fr_alloc : emu_alloc_data_type q' = emu_alloc_data_type q ∧ q_alloc_data_bytes q' = q_alloc_data_bytes q;
}.

#[export] Instance frame_ok_preorder : PreOrder frame_ok.
Proof. split; [done|]. intros a b c [? ? ? ? ? [? ?]] [? ? ? ? ? [? ?]]. constructor; try split; congruence. Qed.

(** Destination [i] goes from [d] to [d']; it joins the queue if it was not in it
    and is afterwards. *)
Record fstep (i : Z) (d d' : fp_dst) (q q' : fp_sched_data) : Prop := {
  fs_dsts : dsts q' = <[Z.to_nat i := d']> (dsts q);
  fs_state : state d' = state d ∨ state d' = FLOW_REQUEST_QUEUE;
  fs_reqs : reqs q' = if decide (state d' = state d) then reqs q else reqs q ++ [i];
  fs_cells : length (unreq_flows q') = length (unreq_flows q);
  fs_idx : 0 ≤ unreq_dsts_head q < 2 ^ 32 ∧ 0 ≤ unreq_dsts_tail q < 2 ^ 32 →
    0 ≤ unreq_dsts_head q' < 2 ^ 32 ∧ 0 ≤ unreq_dsts_tail q' < 2 ^ 32;
  fs_frame : frame_ok q q';
}.

Lemma queue_ok_fstep i d d' q q' : 0 ≤ i < 256 → queue_ok q → dsts q !! Z.to_nat i = Some d →
  fstep i d d' q q' → queue_ok q'.
Proof.
  intros Hi [Hc Hx Hnd Hr Hm] E [Ed Es Er Ecl Eix _].
  destruct (Hm _ _ E) as [Hst Hin]. rewrite Z2Nat.id in Hin by lia.
  assert (∀ j dj, dsts q' !! j = Some dj → (j = Z.to_nat i ∧ dj = d') ∨ (j ≠ Z.to_nat i ∧ dsts q !! j = Some dj)) as Hl.
  { intros j dj. rewrite Ed. intros [(<- & <- & _)|[? ?]]%list_lookup_insert_Some; [by left|by right]. }
  destruct (decide (state d' = state d)) as [Eq|Hne].
  - constructor; rewrite ?Er, ?Ecl; auto. intros j dj Hj.
    apply Hl in Hj as [[-> ->]|[_ Hj]]; [|by apply Hm]. rewrite Eq, Z2Nat.id by lia. done.
  - destruct Es as [?|Es]; [done|]. assert (state d = FLOW_UNQUEUED) as E0 by (destruct Hst; congruence).
    assert (i ∉ reqs q) as Hn by (rewrite <- Hin, E0; done).
    constructor; rewrite ?Er, ?Ecl; auto.
    + apply NoDup_app. split; [done|]. split; [|apply NoDup_singleton]. by intros x Hx' ->%list_elem_of_singleton.
    + apply Forall_app. split; [done|by apply Forall_singleton].
    + intros j dj Hj. rewrite elem_of_app, list_elem_of_singleton. apply Hl in Hj as [[-> ->]|[Hne' Hj]].
      * rewrite Z2Nat.id by lia. split; [by right|]. split; [by right|done].
      * destruct (Hm _ _ Hj) as [? Hj']. split; [done|]. rewrite Hj'. split; [by left|]. intros [?|Ej]; [done|]. lia.
Qed.

Lemma fstep_trans i d d1 d2 q q1 q2 : fstep i d d1 q q1 → fstep i d1 d2 q1 q2 →
  state d = FLOW_UNQUEUED ∨ state d = FLOW_REQUEST_QUEUE → fstep i d d2 q q2.
Proof.
  intros [Ed1 Es1 Er1 Ec1 Ei1 Ef1] [Ed2 Es2 Er2 Ec2 Ei2 Ef2] Hst. constructor.
  - by rewrite Ed2, Ed1, list_insert_insert_eq.
  - destruct Es2 as [-> | ->]; [done|by right].
  - rewrite Er2, Er1. unfold FLOW_UNQUEUED, FLOW_REQUEST_QUEUE in *.
    repeat case_decide; try done; exfalso; intuition congruence.
  - congruence.
  - intros Hx. by apply Ei2, Ei1.
  - by trans q1.
Qed.

Lemma fstep_refl i d q : dsts q !! Z.to_nat i = Some d → fstep i d d q q.
Proof.
  intros E. constructor; try done; [by rewrite list_insert_id|by left|by rewrite decide_True].
Qed.

(** The state is that of the caller's section. *)
Section sections.
Context (B : build) (i : Z) (Hi : 0 ≤ i < 256).

(** The endpoint sends no request data (the schemes drop_tail, red and dctcp). *)
Definition no_data (q : fp_sched_data) : Prop := EMULATION_ALGO B = true → emu_areq_data_bytes q = 0.

Definition sect (d : fp_dst) {A} (m : F A) (Φ : A → fp_dst → Prop) : Prop := ∀ q,
  queue_ok q → no_data q → dsts q !! Z.to_nat i = Some d →
  wp m (λ a q' l, l = [] ∧ ∃ d', Φ a d' ∧ fstep i d d' q q') q.

Lemma sect_bind {A A'} d (m : F A) (k : A → F A') Φ Ψ :
  sect d m Φ → (∀ a d1, Φ a d1 → sect d1 (k a) Ψ) → sect d (m ≫= k) Ψ.
Proof using Hi.
  intros Hm Hk q Hq Hd E. apply wp_bind. eapply wp_mono; [by apply Hm|]. intros a q1 l1 (-> & d1 & HΦ & H1).
  eapply wp_mono; [apply (Hk a d1 HΦ)|].
  - by eapply queue_ok_fstep.
  - unfold no_data. rewrite (fr_bytes _ _ (fs_frame _ _ _ _ _ H1)). done.
  - rewrite (fs_dsts _ _ _ _ _ H1). apply list_lookup_insert_eq. by eapply lookup_lt_Some.
  - intros b q2 l2 (-> & d2 & HΨ & H2). split; [done|]. exists d2. split; [done|].
    eapply fstep_trans; [done|done|]. by apply (qo_member q Hq _ _ E).
Qed.

Lemma sect_ret {A} d (a : A) (Φ : A → fp_dst → Prop) : Φ a d → sect d (mret a) Φ.
Proof using. intros HΦ q _ _ E. apply wp_ret. split; [done|]. exists d. split; [done|by apply fstep_refl]. Qed.

Lemma sect_read d (Φ : fp_dst → fp_dst → Prop) : Φ d d → sect d (read_dst i) Φ.
Proof using.
  intros HΦ q _ _ E. unfold read_dst. apply wp_bind, wp_get. eapply wp_deref; [exact E|]. split; [done|].
  exists d. split; [done|by apply fstep_refl].
Qed.

Lemma upd_dsts (q : fp_sched_data) d f : dsts q !! Z.to_nat i = Some d →
  alter f (Z.to_nat i) (dsts q) = <[Z.to_nat i := f d]> (dsts q).
Proof using.
  intros E. apply list_eq. intros j. destruct (decide (j = Z.to_nat i)) as [->|Hne].
  - rewrite list_lookup_alter_eq, E, list_lookup_insert_eq; [done|by eapply lookup_lt_Some].
  - by rewrite list_lookup_alter_ne, list_lookup_insert_ne.
Qed.

Lemma sect_upd d f (Φ : unit → fp_dst → Prop) : state (f d) = state d → Φ tt (f d) → sect d (upd_dst i f) Φ.
Proof using.
  intros Es HΦ q _ _ E. unfold upd_dst. apply wp_modify. split; [done|]. exists (f d). split; [done|].
  constructor; simpl; try done; [by apply upd_dsts|by left|by rewrite decide_True].
Qed.

(** Updates of the pacer and of the counters of all flows. *)
Lemma sect_counter d f (Φ : unit → fp_dst → Prop) :
  (∀ q, dsts (f q) = dsts q ∧ unreq_flows (f q) = unreq_flows q ∧ unreq_dsts_head (f q) = unreq_dsts_head q ∧
    unreq_dsts_tail (f q) = unreq_dsts_tail q ∧ frame_ok q (f q)) → Φ tt d → sect d (modify f) Φ.
Proof using.
  intros Hf HΦ q _ _ E. apply wp_modify. split; [done|]. exists d. split; [done|].
  destruct (Hf q) as (E1 & E2 & E3 & E4 & Hfr).
  constructor; rewrite ?E1, ?E2, ?E3, ?E4; try done; [by rewrite list_insert_id|by left|].
  rewrite decide_True by done. unfold reqs. by rewrite E2, E3, E4.
Qed.

Lemma sect_get {A} d (k : fp_sched_data → F A) Φ : (∀ q, no_data q → sect d (k q) Φ) → sect d (get ≫= k) Φ.
Proof using. intros Hk q Hq Hd E. apply wp_bind, wp_get. eapply wp_mono; [by apply (Hk q Hd)|]. done. Qed.

Lemma sect_bug_on d b site (Φ : unit → fp_dst → Prop) : b = false → Φ tt d → sect d (bug_on b site) Φ.
Proof using. intros -> HΦ. by apply (sect_ret d tt). Qed.

Lemma sect_mono {A} d (m : F A) (Φ Ψ : A → fp_dst → Prop) : sect d m Φ → (∀ a d', Φ a d' → Ψ a d') → sect d m Ψ.
Proof using.
  intros Hm HΨ q Hq Hd E. eapply wp_mono; [by apply Hm|]. intros a q' l (-> & d' & HΦ & Hs). eauto.
Qed.

Lemma sect_get_dst d (Φ : unit → fp_dst → Prop) : lock d = false → Φ tt (set_lock true d) → sect d (get_dst i) Φ.
Proof using Hi.
  intros El HΦ. unfold get_dst. eapply sect_bind; [by apply (sect_read d (λ a d', a = d ∧ d' = d))|].
  intros a d1 [-> ->]. rewrite El. by apply sect_upd.
Qed.

Lemma sect_release d (Φ : unit → fp_dst → Prop) : lock d = true → Φ tt (set_lock false d) → sect d (release_dst i) Φ.
Proof using Hi.
  intros El HΦ. unfold release_dst. eapply sect_bind; [by apply (sect_read d (λ a d', a = d ∧ d' = d))|].
  intros a d1 [-> ->]. rewrite El. by apply sect_upd.
Qed.

Lemma sect_trigger d now (Φ : unit → fp_dst → Prop) : Φ tt d → sect d (trigger_tx now) Φ.
Proof using. intros HΦ. unfold trigger_tx. by apply sect_counter. Qed.

(** The flow is in the queue afterwards. *)
Lemma sect_enqueue d now (Φ : unit → fp_dst → Prop) :
  Φ tt (set_state FLOW_REQUEST_QUEUE d) → sect d (unreq_dsts_enqueue_if_not_queued now i) Φ.
Proof using Hi.
  intros HΦ q Hq Hd E. unfold unreq_dsts_enqueue_if_not_queued, read_dst.
  apply wp_bind, wp_bind, wp_get. eapply wp_deref; [exact E|].
  destruct (qo_member q Hq _ _ E) as [Hst Hin]. rewrite Z2Nat.id in Hin by lia.
  destruct (Z.eqb_spec (state d) FLOW_UNQUEUED) as [E0|Hne]; simpl negb; cbv iota.
  - assert (i ∉ reqs q) as Hn by (rewrite <- Hin, E0; done).
    apply wp_bind, wp_modify. unfold upd_dst. apply wp_bind, wp_modify. unfold trigger_tx. apply wp_modify.
    split; [done|]. exists (set_state FLOW_REQUEST_QUEUE d). split; [done|].
    constructor; simpl; [by apply upd_dsts|by right| |by rewrite length_arr_set|intros [? ?]; split; [done|apply u32_range]|done].
    rewrite decide_False by (by rewrite E0). unfold reqs at 1. simpl. rewrite (u16_small i) by lia.
    apply reqs_push; [apply Hq|by eapply reqs_room|done].
  - apply wp_ret. split; [done|]. exists (set_state FLOW_REQUEST_QUEUE d). split; [done|].
    assert (state d = FLOW_REQUEST_QUEUE) as E1 by (by destruct Hst).
    assert (set_state FLOW_REQUEST_QUEUE d = d) as -> by (destruct d; simpl in *; by subst). by apply fstep_refl.
Qed.

Lemma sect_inc_used d n (Φ : unit → fp_dst → Prop) :
  Φ tt (set_used_tslots (u64 (used_tslots d + n)) d) → sect d (flow_inc_used i n) Φ.
Proof using Hi.
  intros HΦ. unfold flow_inc_used.
  eapply (sect_bind _ _ _ (λ _ d', d' = set_used_tslots (u64 (used_tslots d + n)) d)); [by apply sect_upd|].
  intros [] d1 ->. by apply sect_counter.
Qed.

Lemma sect_dec_used d n (Φ : unit → fp_dst → Prop) :
  Φ tt (set_used_tslots (u64 (used_tslots d - n)) d) → sect d (flow_dec_used i n) Φ.
Proof using Hi.
  intros HΦ. unfold flow_dec_used.
  eapply (sect_bind _ _ _ (λ _ d', d' = set_used_tslots (u64 (used_tslots d - n)) d)); [by apply sect_upd|].
  intros [] d1 ->. by apply sect_counter.
Qed.

Lemma sect_inc_demand d now n (Φ : unit → fp_dst → Prop) :
  Φ tt (set_state FLOW_REQUEST_QUEUE (set_demand_tslots (u64 (demand_tslots d + n)) d)) →
  sect d (flow_inc_demand now i n) Φ.
Proof using Hi.
  intros HΦ. unfold flow_inc_demand.
  eapply (sect_bind _ _ _ (λ _ d', d' = set_demand_tslots (u64 (demand_tslots d + n)) d)); [by apply sect_upd|].
  intros [] d1 ->.
  eapply (sect_bind _ _ _ (λ _ d', d' = set_state FLOW_REQUEST_QUEUE (set_demand_tslots (u64 (demand_tslots d + n)) d)));
    [by apply sect_enqueue|].
  intros [] d2 ->. by apply sect_counter.
Qed.
End sections.
