(* ===== verification/EndpointOwn.v ===== *)
(** * The scheduler's handlers

    The invariant [fp_ok] of the scheduler, and that the handlers of the control
    protocol that work on the scheduler alone keep it, with the totals of every
    destination ([own_step]): acknowledgements and losses change what is
    acknowledged and what waits to be requested, nothing else. *)

From S2P Require Import Prelude Platform Window WindowFacts WindowSpec WindowMarks Protocol ConnFacts ConnSpec ConnAck ConnSend ConnInwnd ConnSafe.
From S2P Require Import Codec Pacer Lists Tsq TsqFacts Endpoint EndpointFacts.

(** ** Invariant *)

(** The counters of a destination. The last bound keeps the 64-bit counters from
    wrapping: the demand grows by the timeslots that were allocated and lost, which
    were requested and not used. *)
Record dst_num (d : fp_dst) : Prop := {
  do_used : 0 ≤ used_tslots d ≤ demand_tslots d;
  do_alloc : alloc_tslots d = used_tslots d;
  do_acked : 0 ≤ acked_tslots d ≤ requested_tslots d;
  do_requested : requested_tslots d ≤ demand_tslots d;
  do_window : requested_tslots d ≤ acked_tslots d + FASTPASS_REQUEST_WINDOW_SIZE - 1;
  do_bound : demand_tslots d + Z.max 0 (requested_tslots d - used_tslots d) ≤ 2 ^ 62 + 2;
}.

(** No flow is forgotten: what has not been requested waits in the queue, or some
    request is not acknowledged. *)
Record dst_ok (d : fp_dst) : Prop := {
  do_num :> dst_num d;
  do_wants : requested_tslots d < demand_tslots d → state d = FLOW_REQUEST_QUEUE ∨ acked_tslots d < requested_tslots d;
}.

Definition requested_of (q : fp_sched_data) (i : Z) : Z := requested_tslots (arr_get (dsts q) i).

(** The requests of a packet that is not acknowledged yet were made. *)
Definition areq_valid (q : fp_sched_data) (a : fpproto_areq_desc) : Prop :=
  0 ≤ src_dst_key a < 256 ∧ tslots a ≤ requested_of q (src_dst_key a).
Definition pd_valid (q : fp_sched_data) (pd : fpproto_pktdesc) : Prop :=
  Forall (areq_valid q) (take (Z.to_nat (pd_n_areq pd)) (pd_areq pd)).

(** [cl]: the lock of the connection is held. *)
Record fp_ok (B : build) (cl : bool) (q : fp_sched_data) : Prop := {
  fo_len : length (dsts q) = 256%nat;
  fo_dst : ∀ i d, dsts q !! i = Some d → dst_ok d ∧ lock d = false;
  fo_queue : queue_ok q;
  fo_lock : conn_lock q = cl;
  fo_conn : conn_ok (conn q);
  fo_pds : ∀ s pd, out_pd (conn q) s = Some pd → pd_valid q pd;
  fo_data : no_data B q;
  fo_ops : ops (conn q) = fastpass_sch_proto_ops B (q_alloc_data_bytes q) ∧ 0 ≤ q_alloc_data_bytes q;
}.

Lemma dst_at B cl q i : fp_ok B cl q → 0 ≤ i < 256 → ∃ d, dsts q !! Z.to_nat i = Some d ∧ dst_ok d ∧ lock d = false.
Proof.
  intros Hq Hi. destruct (lookup_lt_is_Some_2 (dsts q) (Z.to_nat i)) as [d E]; [rewrite (fo_len _ _ _ Hq); lia|].
  exists d. split; [done|]. by eapply (fo_dst _ _ _ Hq).
Qed.

Lemma requested_at q i d : dsts q !! Z.to_nat i = Some d → requested_of q i = requested_tslots d.
Proof. intros E. unfold requested_of, arr_get. by rewrite (list_lookup_total_correct _ _ _ E). Qed.

(** ** Totals *)

(** What was demanded, used, allocated and requested. *)
Definition totals (d : fp_dst) : Z * Z * Z * Z := (demand_tslots d, used_tslots d, alloc_tslots d, requested_tslots d).

(** Of the kernel, the handlers use the timer and the allocator; no check fails. *)
Definition quiet (l : list (event kernel_call)) : Prop :=
  Forall (λ e, match e with EvCall (SetRetransTimer _ | CancelRetransTimer | FreePktdesc _) => True | _ => False end) l.

Lemma quiet_nil : quiet [].
Proof. constructor. Qed.
Lemma quiet_app l1 l2 : quiet (l1 ++ l2) ↔ quiet l1 ∧ quiet l2.
Proof. apply Forall_app. Qed.

Record own_step (q q' : fp_sched_data) : Prop := {
  os_totals : ∀ i, totals <$> (dsts q' !! i) = totals <$> (dsts q !! i);
  os_reqs : reqs q `prefix_of` reqs q';
  os_alloc : q_alloc_data_bytes q' = q_alloc_data_bytes q;
  os_bytes : emu_areq_data_bytes q' = emu_areq_data_bytes q;
  os_destroyed : is_destroyed q' = is_destroyed q;
}.

#[export] Instance own_step_preorder : PreOrder own_step.
Proof. split; [done|]. intros a b c [H1 R1 ? ? ?] [H2 R2 ? ? ?]. constructor; [|by trans (reqs b)|congruence..]. intros i. by rewrite H2, H1. Qed.

Lemma own_step_requested q q' i : own_step q q' → requested_of q' i = requested_of q i.
Proof.
  intros [Ht _ _ _ _]. specialize (Ht (Z.to_nat i)). unfold requested_of, arr_get. rewrite !list_lookup_total_alt.
  destruct (dsts q' !! Z.to_nat i), (dsts q !! Z.to_nat i); simpl in *; try done.
  unfold totals in Ht. by injection Ht.
Qed.

Lemma pd_valid_mono q q' pd : (∀ i, 0 ≤ i < 256 → requested_of q i ≤ requested_of q' i) → pd_valid q pd → pd_valid q' pd.
Proof.
  intros Hm Hpd. eapply Forall_impl; [exact Hpd|]. intros a [Hk Ha]. split; [done|]. specialize (Hm _ Hk). lia.
Qed.

Lemma pd_valid_own q q' pd : own_step q q' → pd_valid q pd → pd_valid q' pd.
Proof. intros Hs. apply pd_valid_mono. intros i _. by rewrite (own_step_requested q q') by done. Qed.

(** ** Sections of the handlers *)
Lemma requested_fstep i d d' q q' j : fstep i d d' q q' → dsts q !! Z.to_nat i = Some d → 0 ≤ i → 0 ≤ j →
  requested_of q' j = if decide (i = j) then requested_tslots d' else requested_of q j.
Proof.
  intros Hs E Hi Hj. unfold requested_of, arr_get. rewrite (fs_dsts _ _ _ _ _ Hs).
  case_decide as Eij; [subst; by rewrite list_lookup_total_insert_eq by (by eapply lookup_lt_Some)|].
  by rewrite list_lookup_total_insert_ne by lia.
Qed.

Section handlers.
Context (B : build) `{H : HashOps}.

Lemma fp_ok_fstep cl i d d' q q' : 0 ≤ i < 256 → fp_ok B cl q → dsts q !! Z.to_nat i = Some d → fstep i d d' q q' →
  dst_ok d' → lock d' = false →
  (requested_tslots d ≤ requested_tslots d' ∨ ∀ s, out_pd (conn q) s = None) → fp_ok B cl q'.
Proof using.
  intros Hi Hq E Hs Hd Hl Hr. pose proof (fs_frame _ _ _ _ _ Hs) as Hf. constructor.
  - rewrite (fs_dsts _ _ _ _ _ Hs), length_insert. apply Hq.
  - intros j dj. rewrite (fs_dsts _ _ _ _ _ Hs). intros [(_ & <- & _)|[_ Hj]]%list_lookup_insert_Some; [done|].
    by apply (fo_dst _ _ _ Hq j).
  - by eapply queue_ok_fstep, Hs; [|apply Hq|].
  - rewrite (fr_lock _ _ Hf). apply Hq.
  - rewrite (fr_conn _ _ Hf). apply Hq.
  - intros s pd. rewrite (fr_conn _ _ Hf). destruct Hr as [Hr|Hr]; [|by rewrite Hr].
    intros Hpd%(fo_pds _ _ _ Hq). eapply pd_valid_mono, Hpd.
    intros j Hj. rewrite (requested_fstep i d d' q q') by (done || lia). case_decide; [|lia]. subst.
    by rewrite (requested_at q j d).
  - unfold no_data. rewrite (fr_bytes _ _ Hf). apply Hq.
  - destruct (fr_alloc _ _ Hf) as [_ ->]. rewrite (fr_conn _ _ Hf). apply Hq.
Qed.

Lemma own_step_fstep i d d' q q' : 0 ≤ i < 256 → dsts q !! Z.to_nat i = Some d → fstep i d d' q q' → totals d' = totals d →
  own_step q q'.
Proof using.
  intros Hi E Hs Ht. pose proof (fs_frame _ _ _ _ _ Hs) as Hf.
  constructor; [| |by apply (fr_alloc _ _ Hf)|apply (fr_bytes _ _ Hf)|apply (fr_destroyed _ _ Hf)].
  2: { rewrite (fs_reqs _ _ _ _ _ Hs). case_decide; [done|by apply prefix_app_r]. }
  intros j. rewrite (fs_dsts _ _ _ _ _ Hs). destruct (decide (j = Z.to_nat i)) as [->|Hne].
  - rewrite list_lookup_insert_eq, E by (by eapply lookup_lt_Some). simpl. by rewrite Ht.
  - by rewrite list_lookup_insert_ne.
Qed.

(** [own] procedures keep the invariant and the totals. *)
Definition own (cl : bool) {A} (m : F A) : Prop := ∀ q, fp_ok B cl q →
  wp m (λ _ q' l, fp_ok B cl q' ∧ quiet l ∧ own_step q q' ∧ conn q' = conn q) q.

Lemma own_sect cl i (m : F unit) q : 0 ≤ i < 256 → fp_ok B cl q →
  (∀ d, dsts q !! Z.to_nat i = Some d → dst_ok d → lock d = false →
    sect B i d m (λ _ d', dst_ok d' ∧ lock d' = false ∧ totals d' = totals d)) →
  wp m (λ _ q' l, fp_ok B cl q' ∧ quiet l ∧ own_step q q' ∧ conn q' = conn q) q.
Proof using.
  intros Hi Hq Hm. destruct (dst_at _ _ _ i Hq Hi) as (d & E & Hd & Hl).
  eapply wp_mono; [apply (Hm d E Hd Hl); [apply Hq|apply Hq|done]|].
  intros a q' l (-> & d' & (Hd' & Hl' & Ht) & Hs). split; [|split; [apply quiet_nil|split]].
  - eapply fp_ok_fstep; try done. unfold totals in Ht. injection Ht as _ _ _ ->. by left.
  - by eapply own_step_fstep.
  - apply (fr_conn _ _ (fs_frame _ _ _ _ _ Hs)).
Qed.

Lemma own_bind cl {A A'} (m : F A) (k : A → F A') : own cl m → (∀ a, own cl (k a)) → own cl (m ≫= k).
Proof using.
  intros Hm Hk q Hq. apply wp_bind. eapply wp_mono; [by apply Hm|]. intros a q1 l1 (Hq1 & Hl1 & Hs1 & Ec1).
  eapply wp_mono; [by apply Hk|]. intros b q2 l2 (Hq2 & Hl2 & Hs2 & Ec2). split; [done|].
  split; [by apply quiet_app|]. split; [by trans q1|congruence].
Qed.

Lemma own_ret cl {A} (a : A) : own cl (mret a).
Proof using. intros q Hq. apply wp_ret. split; [done|]. split; [apply quiet_nil|]. by split; [|]. Qed.

Lemma own_call cl c : quiet [EvCall c] → own cl (call c).
Proof using. intros Hc q Hq. apply wp_call. split; [done|]. split; [done|]. by split; [|]. Qed.

(** Updates of the pacer and of the counters of all flows. *)
Lemma own_counter cl f : (∀ q, dsts (f q) = dsts q ∧ unreq_flows (f q) = unreq_flows q ∧
    unreq_dsts_head (f q) = unreq_dsts_head q ∧ unreq_dsts_tail (f q) = unreq_dsts_tail q ∧ frame_ok q (f q)) →
  own cl (modify f).
Proof using.
  intros Hf q Hq. apply wp_modify. destruct (Hf q) as (E1 & E2 & E3 & E4 & [Ec El Ed Et Eb [_ Ea]]).
  assert (reqs (f q) = reqs q) as Er by (unfold reqs; by rewrite E2, E3, E4).
  split; [|split; [apply quiet_nil|split; [constructor; by rewrite ?E1, ?Ea, ?Eb, ?Ed, ?Er|done]]].
  destruct Hq as [? ? [? ? ? ? ?] ? ? ? ? ?].
  constructor; rewrite ?E1, ?Ec, ?El, ?Ea; try done; [|unfold pd_valid, areq_valid, requested_of|unfold no_data]; rewrite ?E1, ?Eb; try done.
  constructor; rewrite ?E1, ?E2, ?E3, ?E4, ?Er; done.
Qed.

Lemma own_trigger cl now : own cl (trigger_tx now).
Proof using. unfold trigger_tx. by apply own_counter. Qed.

(** A destination whose request is acknowledged. *)
Lemma dst_num_ack d n : dst_num d → acked_tslots d < n ≤ requested_tslots d → dst_num (set_acked_tslots n d).
Proof using. intros [] ?. constructor; simpl; lia. Qed.

Lemma dst_ok_queued d : dst_num d → dst_ok (set_state FLOW_REQUEST_QUEUE d).
Proof using. intros []. constructor; [done|]. by left. Qed.
Lemma dst_num_lock d v : dst_num d → dst_num (set_lock v d).
Proof using. by intros []. Qed.
Lemma dst_ok_lock d v : dst_ok d → dst_ok (set_lock v d).
Proof using. intros [Hn Hw]. constructor; [by apply dst_num_lock|exact Hw]. Qed.

Lemma handle_ack_areq_own cl now q a : fp_ok B cl q → areq_valid q a →
  wp (handle_ack_areq B now a) (λ _ q' l, fp_ok B cl q' ∧ quiet l ∧ own_step q q' ∧ conn q' = conn q) q.
Proof using.
  intros Hq [Hk Ha]. apply (own_sect cl (src_dst_key a)); [done|done|]. intros d E Hd Hl.
  rewrite (requested_at _ _ _ E) in Ha. unfold handle_ack_areq. rewrite (u32_small (src_dst_key a)) by lia. cbv zeta.
  set (i := src_dst_key a) in *.
  eapply (sect_bind B i Hk _ _ _ (λ _ d', d' = set_lock true d)); [by apply sect_get_dst|]. intros [] d1 ->.
  eapply (sect_bind B i Hk _ _ _ (λ x d', x = set_lock true d ∧ d' = set_lock true d)); [by apply sect_read|]. intros x d1 [-> ->].
  simpl acked_tslots. simpl demand_tslots. simpl requested_tslots.
  eapply (sect_bind B i Hk _ _ _ (λ _ d', dst_ok d' ∧ lock d' = true ∧ totals d' = totals d)).
  - destruct (Z.ltb_spec (acked_tslots d) (tslots a)) as [Hlt|Hge]; [|apply sect_ret; by split; [apply dst_ok_lock|]].
    assert (dst_num (set_acked_tslots (tslots a) (set_lock true d))) as Hd2.
    { apply dst_num_ack; [by apply dst_num_lock, Hd|]. simpl. lia. }
    eapply (sect_bind B i Hk _ _ _ (λ _ d', d' = set_lock true d)).
    { apply sect_bug_on; [|done]. destruct (Z.gtb_spec (tslots a) (demand_tslots d)); [|done].
      pose proof (do_requested _ Hd). lia. }
    intros [] d1 ->. eapply (sect_bind B i Hk _ _ _ (λ _ d', d' = set_lock true d)); [by apply sect_counter|]. intros [] d1 ->.
    eapply (sect_bind B i Hk _ _ _ (λ _ d', d' = set_acked_tslots (tslots a) (set_lock true d))); [by apply sect_upd|]. intros [] d1 ->.
    eapply (sect_bind B i Hk _ _ _ (λ _ d', dst_ok d' ∧ lock d' = true ∧ totals d' = totals d)).
    + destruct (Z.eqb_spec (requested_tslots d) (demand_tslots d)); simpl negb; cbv iota; [apply sect_ret|apply sect_enqueue; [done|]].
      * split; [|done]. constructor; [done|]. simpl. lia.
      * split; [by apply dst_ok_queued|done].
    + intros [] d1 Hd1. apply sect_get. intros q' Hdata. unfold no_data in Hdata.
      destruct (EMULATION_ALGO B); [rewrite (Hdata eq_refl)|]; by apply sect_ret.
  - intros [] d1 (Hd1 & Hl1 & Ht1). apply sect_release; [done|done|]. by split; [apply dst_ok_lock|].
Qed.

Lemma handle_neg_ack_areq_own cl now q a : fp_ok B cl q → areq_valid q a →
  wp (handle_neg_ack_areq now a) (λ _ q' l, fp_ok B cl q' ∧ quiet l ∧ own_step q q' ∧ conn q' = conn q) q.
Proof using.
  intros Hq [Hk Ha]. apply (own_sect cl (src_dst_key a)); [done|done|]. intros d E Hd Hl.
  unfold handle_neg_ack_areq. rewrite (u32_small (src_dst_key a)) by lia. cbv zeta. set (i := src_dst_key a) in *.
  eapply (sect_bind B i Hk _ _ _ (λ _ d', d' = set_lock true d)); [by apply sect_get_dst|]. intros [] d1 ->.
  eapply (sect_bind B i Hk _ _ _ (λ x d', x = set_lock true d ∧ d' = set_lock true d)); [by apply sect_read|]. intros x d1 [-> ->].
  eapply (sect_bind B i Hk _ _ _ (λ _ d', dst_ok d' ∧ lock d' = true ∧ totals d' = totals d)).
  - destruct (_ <=? _); [apply sect_ret|apply sect_enqueue; [done|]];
      (split; [|done]); [by apply dst_ok_lock|by apply dst_ok_queued, dst_num_lock, Hd].
  - intros [] d1 (Hd1 & Hl1 & Ht1). apply sect_release; [done|done|]. by split; [apply dst_ok_lock|].
Qed.

(** All the requests of a packet. *)
Lemma for_areqs_own cl f l : (∀ q a, fp_ok B cl q → areq_valid q a →
    wp (f a) (λ _ q' l, fp_ok B cl q' ∧ quiet l ∧ own_step q q' ∧ conn q' = conn q) q) →
  ∀ q, fp_ok B cl q → Forall (areq_valid q) l →
  wp (for_areqs f l) (λ _ q' ev, fp_ok B cl q' ∧ quiet ev ∧ own_step q q' ∧ conn q' = conn q) q.
Proof using.
  intros Hf. induction l as [|a l IH]; intros q Hq Hl; simpl; [by apply own_ret|].
  apply Forall_cons in Hl as [Ha Hl]. apply wp_bind. eapply wp_mono; [by apply Hf|].
  intros [] q1 l1 (Hq1 & Hl1 & Hs1 & Ec1). eapply wp_mono; [apply (IH q1 Hq1)|].
  - eapply Forall_impl; [exact Hl|]. intros b [Hb1 Hb2]. split; [done|]. by rewrite (own_step_requested q q1).
  - intros [] q2 l2 (Hq2 & Hl2 & Hs2 & Ec2). split; [done|]. split; [by apply quiet_app|]. split; [by trans q1|congruence].
Qed.

Lemma handle_ack_own cl now q pd : fp_ok B cl q → pd_valid q pd →
  wp (handle_ack B now (Some pd)) (λ _ q' l, fp_ok B cl q' ∧ quiet l ∧ own_step q q' ∧ conn q' = conn q) q.
Proof using.
  intros Hq Hpd. unfold handle_ack. apply wp_bind. eapply wp_deref; [done|].
  by apply for_areqs_own; [apply handle_ack_areq_own|..].
Qed.

Lemma handle_neg_ack_own cl now q pd : fp_ok B cl q → pd_valid q pd →
  wp (handle_neg_ack now (Some pd)) (λ _ q' l, fp_ok B cl q' ∧ quiet l ∧ own_step q q' ∧ conn q' = conn q) q.
Proof using.
  intros Hq Hpd. unfold handle_neg_ack. apply wp_bind. eapply wp_deref; [done|].
  by apply for_areqs_own; [apply handle_neg_ack_areq_own|..].
Qed.

(** ** The calls of a procedure of the protocol *)

(** Calls that concern the scheduler only, on valid descriptors. *)
Definition own_call_valid (q : fp_sched_data) (c : proto_call) : Prop :=
  match c with
  | CHandleAck o | CHandleNegAck o => ∃ pd, o = Some pd ∧ pd_valid q pd
  | CTriggerRequest | CSetTimer _ | CCancelTimer | CFree _ => True
  | CHandleReset | CHandleSkippedAck _ | CHandleAlloc _ _ _ _ _ | CHandleAreq _ _ => False
  end.

Definition log_valid (P : proto_call → Prop) (l : list (event proto_call)) : Prop :=
  Forall (λ e, match e with EvBug _ => False | EvCall c => P c end) l.

Lemma own_call_valid_own q q' c : own_step q q' → own_call_valid q c → own_call_valid q' c.
Proof using. intros Hs. destruct c; simpl; try done; intros (pd' & -> & Hpd); exists pd'; (split; [done|]; by eapply pd_valid_own). Qed.

Lemma dispatch_own_ok cl now q c : fp_ok B cl q → own_call_valid q c →
  wp (dispatch_own B now c) (λ _ q' l, fp_ok B cl q' ∧ quiet l ∧ own_step q q' ∧ conn q' = conn q) q.
Proof using.
  intros Hq. destruct c; simpl; try done.
  - intros (pd' & -> & Hpd). by apply handle_ack_own.
  - intros (pd' & -> & Hpd). by apply handle_neg_ack_own.
  - intros _. by apply own_trigger.
  - intros _. apply own_call; [by repeat constructor|done].
  - intros _. apply own_call; [by repeat constructor|done].
  - intros _. apply own_call; [by repeat constructor|done].
Qed.

Lemma dispatch_all_own cl now l : ∀ q, fp_ok B cl q → log_valid (own_call_valid q) l →
  wp (dispatch_all (dispatch_own B now) l) (λ _ q' ev, fp_ok B cl q' ∧ quiet ev ∧ own_step q q' ∧ conn q' = conn q) q.
Proof using.
  induction l as [|[s|c] l IH]; intros q Hq Hl; simpl; [by apply own_ret|by apply Forall_cons in Hl as [[] _]|].
  apply Forall_cons in Hl as [Hc Hl]. apply wp_bind. eapply wp_mono; [by apply dispatch_own_ok|].
  intros [] q1 l1 (Hq1 & Hl1 & Hs1 & Ec1). eapply wp_mono; [apply (IH q1 Hq1)|].
  - eapply Forall_impl; [exact Hl|]. intros [|k] Hk; [done|]. by eapply own_call_valid_own.
  - intros [] q2 l2 (Hq2 & Hl2 & Hs2 & Ec2). split; [done|]. split; [by apply quiet_app|]. split; [by trans q1|congruence].
Qed.

(** A new connection with the same configuration, whose packets were known. *)
Lemma fp_ok_conn cl q c : fp_ok B cl q → conn_ok c → ops c = ops (conn q) →
  (∀ s pd, out_pd c s = Some pd → pd_valid q pd) → fp_ok B cl (set_conn c q) ∧ own_step q (set_conn c q).
Proof using. intros [? ? [] ? ? ? ? [Eo ?]] Hc Ec Hp. split; [|done]. constructor; try done. simpl. by rewrite Ec. Qed.

(** What is logged on the connection of a valid state. *)
Lemma log_own_valid cl q l : fp_ok B cl q → log_from (conn q) l →
  Forall (λ e, match e with EvCall (CHandleReset | CHandleSkippedAck _ | CHandleAlloc _ _ _ _ _ | CHandleAreq _ _) => False | _ => True end) l →
  log_valid (own_call_valid q) l.
Proof using.
  intros Hq Hl Ho. apply Forall_forall. intros e He. unfold log_from in Hl. rewrite Forall_forall in Hl, Ho.
  specialize (Hl e He). specialize (Ho e He). destruct e as [|c]; [done|].
  destruct c; simpl in *; try done; destruct Hl as (s & pd' & -> & Hs); exists pd'; (split; [done|]; by eapply (fo_pds _ _ _ Hq)).
Qed.

Lemma on_conn_own {A} cl now (m : P A) q (Φ : A → fpproto_conn → Prop) : fp_ok B cl q →
  wp m (λ a c l, conn_ok c ∧ ops c = ops (conn q) ∧ (∀ s pd, out_pd c s = Some pd → pd_valid q pd) ∧
    log_valid (own_call_valid q) l ∧ Φ a c) (conn q) →
  wp (on_conn B now m) (λ a q' l, fp_ok B cl q' ∧ quiet l ∧ own_step q q' ∧ Φ a (conn q')) q.
Proof using.
  intros Hq Hm. unfold on_conn, conn_run. apply wp_bind, wp_bind, wp_get.
  destruct (wp_inv _ _ _ Hm) as (a & c & l & Hrun & Hc & Eo & Hp & Hl & HΦ).
  apply wp_bind. eapply wp_deref; [exact Hrun|]. apply wp_bind, wp_modify, wp_ret. simpl app.
  destruct (fp_ok_conn cl q c Hq Hc Eo Hp) as [Hq1 Hs1]. apply wp_bind.
  eapply wp_mono; [apply (dispatch_all_own cl now l (set_conn c q) Hq1)|].
  - eapply Forall_impl; [exact Hl|]. intros [|k] Hk; [done|]. by eapply own_call_valid_own.
  - intros [] q2 l2 (Hq2 & Hl2 & Hs2 & Ec2). apply wp_ret. rewrite app_nil_r, Ec2.
    split; [done|]. split; [done|]. split; [by trans (set_conn c q)|done].
Qed.
End handlers.
