(* ===== verification/EndpointSend.v ===== *)
(** * Sending requests

    A request packet takes the flows that wait, in order, until it has ten requests
    ([requests_for]); each asks for the whole demand of its flow as far as the
    request window reaches. The procedures that send keep the invariant and change
    nothing but what has been requested. *)

From S2P Require Import Prelude Platform Window WindowFacts WindowSpec WindowMarks Protocol ConnFacts ConnSpec ConnAck ConnSend ConnInwnd ConnSafe.
From S2P Require Import Codec Pacer Lists Tsq TsqFacts Endpoint EndpointFacts EndpointOwn.

(** ** What a packet asks for *)
Definition new_requested (d : fp_dst) : Z :=
  Z.min (demand_tslots d) (acked_tslots d + FASTPASS_REQUEST_WINDOW_SIZE - 1).

(** The requests for at most [n] of the flows [l], and the flows that are left. *)
Fixpoint requests_for (D : Z → fp_dst) (n : nat) (l : list Z) : list fpproto_areq_desc * list Z :=
  match l with
  | [] => ([], [])
  | x :: l' =>
      match n with
      | O => ([], l)
      | S n' =>
          if new_requested (D x) <=? acked_tslots (D x) then requests_for D n l'
          else let '(a, r) := requests_for D n' l' in
               ({| src_dst_key := x; tslots := new_requested (D x) |} :: a, r)
      end
  end.

Definition dst_of (q : fp_sched_data) (i : Z) : fp_dst := arr_get (dsts q) i.

Lemma dst_of_lookup q i d : dsts q !! Z.to_nat i = Some d → dst_of q i = d.
Proof. intros E. unfold dst_of, arr_get. by apply list_lookup_total_correct. Qed.

Lemma requests_for_ext D D' l : ∀ n, (∀ x, x ∈ l → new_requested (D x) = new_requested (D' x) ∧ acked_tslots (D x) = acked_tslots (D' x)) →
  requests_for D n l = requests_for D' n l.
Proof.
  induction l as [|x l IH]; intros n Hx; [done|]. simpl. destruct n as [|n]; [done|].
  destruct (Hx x) as [E1 E2]; [by left|]. rewrite E1, E2.
  rewrite (IH (S n)), (IH n) by (intros y Hy; apply Hx; by right). done.
Qed.

Lemma requests_for_length D l : ∀ n, (length (requests_for D n l).1 ≤ n)%nat.
Proof.
  induction l as [|x l IH]; intros n; simpl; [lia|]. destruct n as [|n]; [simpl; lia|].
  destruct (_ <=? _); [apply IH|]. specialize (IH n). destruct (requests_for D n l). simpl in *. lia.
Qed.

(** Requests are for waiting flows, and what is left waited. *)
Lemma requests_for_keys D l : ∀ n,
  (∀ a, a ∈ (requests_for D n l).1 → src_dst_key a ∈ l ∧ tslots a = new_requested (D (src_dst_key a)) ∧
     acked_tslots (D (src_dst_key a)) < tslots a).
Proof.
  induction l as [|x l IH]; intros n a; simpl; [by intros ?%not_elem_of_nil|]. destruct n as [|n]; [by intros ?%not_elem_of_nil|].
  destruct (Z.leb_spec (new_requested (D x)) (acked_tslots (D x))).
  - intros Ha. apply IH in Ha as (? & ? & ?). split; [by right|done].
  - specialize (IH n). destruct (requests_for D n l) as [a' r]. simpl. intros [->|Ha]%elem_of_cons.
    + split; [by left|]. by split.
    + apply IH in Ha as (? & ? & ?). split; [by right|done].
Qed.

Lemma requests_for_rest D l : ∀ n, (requests_for D n l).2 `suffix_of` l.
Proof.
  induction l as [|x l IH]; intros n; simpl; [done|]. destruct n as [|n]; [done|].
  destruct (_ <=? _); [by apply suffix_cons_r|]. specialize (IH n). destruct (requests_for D n l). by apply suffix_cons_r.
Qed.

(** ** Steps that send *)

(** Demands small enough that the counters do not wrap in the next step. *)
Definition calm (q : fp_sched_data) : Prop := ∀ i d, dsts q !! i = Some d → demand_tslots d ≤ 2 ^ 61.

Definition usage (d : fp_dst) : Z * Z * Z := (demand_tslots d, used_tslots d, alloc_tslots d).

(** Demand and allocations stay, the requested totals do not go back. *)
Record send_step (q q' : fp_sched_data) : Prop := {
  ss_usage : ∀ i, usage <$> (dsts q' !! i) = usage <$> (dsts q !! i);
  ss_requested : ∀ i, 0 ≤ i < 256 → requested_of q i ≤ requested_of q' i;
  ss_alloc : q_alloc_data_bytes q' = q_alloc_data_bytes q;
  ss_bytes : emu_areq_data_bytes q' = emu_areq_data_bytes q;
  ss_destroyed : is_destroyed q' = is_destroyed q;
}.

#[export] Instance send_step_preorder : PreOrder send_step.
Proof.
  split; [intros q; by constructor|]. intros a b c [H1 R1 ? ? ?] [H2 R2 ? ? ?].
  constructor; [|intros i Hi; specialize (R1 i Hi); specialize (R2 i Hi); lia|congruence..]. intros i. by rewrite H2, H1.
Qed.

Lemma send_step_own q q' : own_step q q' → send_step q q'.
Proof.
  intros Hs. constructor; try apply Hs.
  - intros i. pose proof (os_totals _ _ Hs i) as Ht. destruct (dsts q' !! i), (dsts q !! i); simpl in *; try done.
    unfold totals, usage in *. injection Ht as -> -> -> _. done.
  - intros i _. by rewrite (own_step_requested q q').
Qed.

Section send.
Context (B : build) `{H : HashOps}.

(** The section that requests more for a flow. *)
Lemma dst_ok_request d : dst_ok d → demand_tslots d ≤ 2 ^ 61 →
  dst_ok (set_state FLOW_UNQUEUED (if new_requested d <=? acked_tslots d then d else set_requested_tslots (new_requested d) d)) ∧
  requested_tslots d ≤ new_requested d.
Proof using.
  intros [[] _] Hc. change FASTPASS_REQUEST_WINDOW_SIZE with 8192 in *.
  assert (requested_tslots d ≤ new_requested d) as Hr by (unfold new_requested; change FASTPASS_REQUEST_WINDOW_SIZE with 8192; lia).
  split; [|done]. unfold new_requested in *. change FASTPASS_REQUEST_WINDOW_SIZE with 8192 in *.
  destruct (Z.leb_spec (Z.min (demand_tslots d) (acked_tslots d + 8192 - 1)) (acked_tslots d)); (constructor; [constructor|]); simpl;
    change FASTPASS_REQUEST_WINDOW_SIZE with 8192; try lia.
Qed.

(** The oldest flow is taken off the queue and locked. *)
Lemma dequeue_spec cl q : fp_ok B cl q →
  wp unreq_dsts_dequeue_and_get (λ o q' l, l = [] ∧
    match reqs q with
    | [] => o = None ∧ q' = q
    | x :: rest => o = Some x ∧ 0 ≤ x < 256 ∧ ∃ d, dsts q !! Z.to_nat x = Some d ∧ dst_ok d ∧ lock d = false ∧
        dsts q' = <[Z.to_nat x := set_state FLOW_UNQUEUED (set_lock true d)]> (dsts q) ∧
        reqs q' = rest ∧ queue_ok q' ∧ frame_ok q q'
    end) q.
Proof using.
  intros Hq. pose proof (fo_queue _ _ _ Hq) as Hqu. unfold unreq_dsts_dequeue_and_get. apply wp_bind, wp_get.
  pose proof (reqs_length q) as Hlen. destruct (qo_idx q Hqu) as [Hh Ht].
  destruct (reqs q) as [|x rest] eqn:E.
  - simpl in Hlen. rewrite (proj2 (Z.eqb_eq _ _)) by mlia. by apply wp_ret.
  - simpl in Hlen. rewrite (proj2 (Z.eqb_neq _ _)) by (intros Eq; rewrite Eq, Z.sub_diag in Hlen; change (u32 0) with 0 in Hlen; lia).
    destruct (reqs_pop q x rest Hqu E) as [Ex Er]. cbv zeta. rewrite Ex.
    pose proof (qo_range q Hqu) as Hr. rewrite E in Hr. apply Forall_cons in Hr as [Hx Hr]. cbv beta in Hx.
    destruct (dst_at _ _ _ x Hq Hx) as (d & Ed & Hd & Hl).
    apply wp_bind, wp_modify. unfold get_dst, read_dst. apply wp_bind, wp_bind, wp_bind, wp_get.
    eapply wp_deref; [exact Ed|]. rewrite Hl. unfold upd_dst. apply wp_modify. apply wp_bind, wp_modify, wp_ret.
    split; [done|]. split; [done|]. split; [done|]. exists d. split; [done|]. split; [done|]. split; [done|].
    set (q' := set_dsts _ _).
    assert (dsts q' = <[Z.to_nat x := set_state FLOW_UNQUEUED (set_lock true d)]> (dsts q)) as Ed'.
    { unfold q'. simpl. rewrite (upd_dsts x q d) by done.
      apply list_eq. intros j. destruct (decide (j = Z.to_nat x)) as [->|Hne].
      - rewrite list_lookup_alter_eq, !list_lookup_insert_eq; [done|by eapply lookup_lt_Some..].
      - by rewrite list_lookup_alter_ne, !list_lookup_insert_ne. }
    assert (reqs q' = rest) as Er' by exact Er.
    pose proof (qo_nodup q Hqu) as Hnd. rewrite E in Hnd. apply NoDup_cons in Hnd as [Hxr Hnd].
    split; [done|]. split; [done|]. split; [|done]. constructor; rewrite ?Er'; try done; [apply Hqu|split; [apply u32_range|done]|].
    intros j dj. rewrite Ed'. intros [(<- & <- & _)|[Hne Hj]]%list_lookup_insert_Some.
    + simpl. split; [by left|]. rewrite Z2Nat.id by lia. done.
    + destruct (qo_member q Hqu j dj Hj) as [? Hj']. split; [done|]. rewrite Hj', E, elem_of_cons. split; [|by right].
      intros [?|?]; [lia|done].
Qed.

(** A section that starts after the flow was taken. *)
Lemma fp_ok_taken cl q q1 q2 x d d2 : fp_ok B cl q → 0 ≤ x < 256 → dsts q !! Z.to_nat x = Some d → dst_ok d →
  dsts q1 = <[Z.to_nat x := set_state FLOW_UNQUEUED (set_lock true d)]> (dsts q) → queue_ok q1 → frame_ok q q1 →
  fstep x (set_state FLOW_UNQUEUED (set_lock true d)) d2 q1 q2 →
  dst_ok d2 → lock d2 = false → requested_tslots d ≤ requested_tslots d2 →
  fp_ok B cl q2 ∧ dsts q2 = <[Z.to_nat x := d2]> (dsts q).
Proof using.
  intros Hq Hx E Hd Ed1 Hqu1 Hf1 Hs Hd2 Hl2 Hr. pose proof (fs_frame _ _ _ _ _ Hs) as Hf2.
  assert (frame_ok q q2) as Hf by (by trans q1).
  assert (dsts q2 = <[Z.to_nat x := d2]> (dsts q)) as Ed2 by (by rewrite (fs_dsts _ _ _ _ _ Hs), Ed1, list_insert_insert_eq).
  split; [|done]. constructor.
  - rewrite Ed2, length_insert. apply Hq.
  - intros j dj. rewrite Ed2. intros [(_ & <- & _)|[_ Hj]]%list_lookup_insert_Some; [done|]. by apply (fo_dst _ _ _ Hq j).
  - eapply queue_ok_fstep; [exact Hx|exact Hqu1| |exact Hs]. rewrite Ed1. apply list_lookup_insert_eq. by eapply lookup_lt_Some.
  - rewrite (fr_lock _ _ Hf). apply Hq.
  - rewrite (fr_conn _ _ Hf). apply Hq.
  - intros s pd. rewrite (fr_conn _ _ Hf). intros Hpd%(fo_pds _ _ _ Hq). eapply pd_valid_mono, Hpd.
    intros j Hj. unfold requested_of, arr_get. rewrite Ed2. destruct (decide (j = x)) as [->|Hne].
    + rewrite list_lookup_total_insert_eq by (by eapply lookup_lt_Some). by rewrite (list_lookup_total_correct _ _ _ E).
    + by rewrite list_lookup_total_insert_ne by lia.
  - unfold no_data. rewrite (fr_bytes _ _ Hf). apply Hq.
  - destruct (fr_alloc _ _ Hf) as [_ ->]. rewrite (fr_conn _ _ Hf). apply Hq.
Qed.

(** ** The loop *)
Definition no_request_data (rp : req_pkt) : Prop := rp_data rp = [].

Definition add_request (x : Z) (n : Z) (rp : req_pkt) : req_pkt := {|
  rp_areq := rp_areq rp ++ [{| src_dst_key := x; tslots := n |}]; rp_counts := rp_counts rp ++ [0]; rp_data := rp_data rp |}.

Lemma request_flow_sect now x d n rp : 0 ≤ x < 256 → lock d = true →
  sect B x d (request_flow B now x n rp) (λ rp' d', rp' = add_request x n rp ∧
    d' = set_lock false (set_requested_tslots n d)).
Proof using.
  intros Hx Hl. unfold request_flow.
  eapply (sect_bind B x Hx _ _ _ (λ r d', r = (n, 0, rp_data rp) ∧ d' = d)).
  { unfold request_data_for. apply sect_get. intros q Hd. 
    eapply (sect_bind B x Hx _ _ _ (λ r d', r = d ∧ d' = d)); [by apply sect_read|]. intros r d1 [-> ->].
    unfold no_data in Hd. destruct (EMULATION_ALGO B); [rewrite (Hd eq_refl)|]; by apply sect_ret. }
  intros r d1 [-> ->].
  eapply (sect_bind B x Hx _ _ _ (λ r d', r = d ∧ d' = d)); [by apply sect_read|]. intros r d1 [-> ->].
  eapply (sect_bind B x Hx _ _ _ (λ _ d', d' = d)); [by apply sect_counter|]. intros [] d1 ->.
  eapply (sect_bind B x Hx _ _ _ (λ _ d', d' = set_requested_tslots n d)); [by apply sect_upd|]. intros [] d1 ->.
  eapply (sect_bind B x Hx _ _ _ (λ _ d', d' = set_lock false (set_requested_tslots n d))); [by apply sect_release|].
  intros [] d1 ->. by apply sect_ret.
Qed.

(** What the loop does from a state on. *)
Record asked (q : fp_sched_data) (new : list fpproto_areq_desc) (rest : list Z) (q' : fp_sched_data) : Prop := {
  ak_step : send_step q q';
  ak_reqs : reqs q' = rest;
  ak_conn : conn q' = conn q;
  ak_requested : ∀ a, a ∈ new → requested_of q' (src_dst_key a) = tslots a;
  ak_other : ∀ i, 0 ≤ i < 256 → i ∉ (src_dst_key <$> new) → requested_of q' i = requested_of q i;
}.

Lemma usage_insert q q' x d d2 : dsts q !! Z.to_nat x = Some d → dsts q' = <[Z.to_nat x := d2]> (dsts q) →
  usage d2 = usage d → ∀ i, usage <$> (dsts q' !! i) = usage <$> (dsts q !! i).
Proof using.
  intros E -> Hu i. destruct (decide (i = Z.to_nat x)) as [->|Hne].
  - rewrite list_lookup_insert_eq, E by (by eapply lookup_lt_Some). simpl. by rewrite Hu.
  - by rewrite list_lookup_insert_ne.
Qed.

Lemma requested_insert q q' x d d2 i : dsts q !! Z.to_nat x = Some d → dsts q' = <[Z.to_nat x := d2]> (dsts q) → 0 ≤ x → 0 ≤ i →
  requested_of q' i = if decide (x = i) then requested_tslots d2 else requested_of q i.
Proof using.
  intros E Eq Hx Hi. unfold requested_of, arr_get. rewrite Eq. case_decide as Exi.
  - subst. by rewrite list_lookup_total_insert_eq by (by eapply lookup_lt_Some).
  - by rewrite list_lookup_total_insert_ne by lia.
Qed.

Lemma calm_usage q q' : (∀ i, usage <$> (dsts q' !! i) = usage <$> (dsts q !! i)) → calm q → calm q'.
Proof using.
  intros Hu Hc i d' E. specialize (Hu i). rewrite E in Hu. destruct (dsts q !! i) as [d|] eqn:Ed; [|done].
  simpl in Hu. unfold usage in Hu. injection Hu as -> _ _. by apply (Hc i d).
Qed.

(** One flow: the queue shrinks, and if a request is made it is added. *)
Lemma request_step cl now q rp x rest d : fp_ok B cl q → calm q → reqs q = x :: rest → dsts q !! Z.to_nat x = Some d →
  0 ≤ x < 256 → ∀ q1, dst_ok d → dsts q1 = <[Z.to_nat x := set_state FLOW_UNQUEUED (set_lock true d)]> (dsts q) →
  reqs q1 = rest → queue_ok q1 → frame_ok q q1 →
  let n := new_requested d in
  wp (if n <=? acked_tslots d then release_dst x;; mret rp else request_flow B now x n rp)
    (λ rp' q' l, l = [] ∧ fp_ok B cl q' ∧
      asked q (if n <=? acked_tslots d then [] else [{| src_dst_key := x; tslots := n |}]) rest q' ∧
      rp' = (if n <=? acked_tslots d then rp else add_request x n rp) ∧
      dsts q' = <[Z.to_nat x := dst_of q' x]> (dsts q)) q1.
Proof using.
  intros Hq Hc Er E Hx q1 Hd Ed1 Er1 Hqu1 Hf1 n.
  set (d1 := set_state FLOW_UNQUEUED (set_lock true d)) in *.
  assert (dsts q1 !! Z.to_nat x = Some d1) as E1 by (rewrite Ed1; apply list_lookup_insert_eq; by eapply lookup_lt_Some).
  assert (no_data B q1) as Hdata1 by (unfold no_data; rewrite (fr_bytes _ _ Hf1); apply Hq).
  set (m := if n <=? acked_tslots d then release_dst x;; mret rp else request_flow B now x n rp).
  set (d2 := if n <=? acked_tslots d then set_state FLOW_UNQUEUED (set_lock false d)
             else set_lock false (set_requested_tslots n d1)).
  assert (sect B x d1 m (λ rp' d', rp' = (if n <=? acked_tslots d then rp else add_request x n rp) ∧ d' = d2)) as Hm.
  { unfold m, d2. destruct (n <=? acked_tslots d).
    - eapply (sect_bind B x Hx _ _ _ (λ _ d', d' = set_state FLOW_UNQUEUED (set_lock false d))); [by apply sect_release|].
      intros [] d3 ->. by apply sect_ret.
    - by apply request_flow_sect. }
  eapply wp_mono; [by apply Hm|]. intros rp' q' l (-> & d' & [-> ->] & Hs).
  destruct (dst_ok_request d Hd (Hc _ _ E)) as [Hd2 Hr2]. fold n in Hd2, Hr2.
  assert (d2 = set_lock false (set_state FLOW_UNQUEUED (if n <=? acked_tslots d then d else set_requested_tslots n d))) as Ed2
    by (unfold d2; by destruct (n <=? _)).
  destruct (fp_ok_taken cl q q1 q' x d d2 Hq Hx E Hd Ed1 Hqu1 Hf1 Hs) as [Hq' Ed'].
  { rewrite Ed2. by apply dst_ok_lock. }
  { unfold d2. by destruct (n <=? _). }
  { unfold d2. destruct (n <=? _); simpl; [lia|done]. }
  assert (frame_ok q q') as Hf by (trans q1; [done|apply Hs]).
  assert (usage d2 = usage d) as Hu by (unfold d2; by destruct (n <=? _)).
  assert (∀ i, 0 ≤ i < 256 → requested_of q' i = if decide (x = i) then requested_tslots d2 else requested_of q i) as Hreq
    by (intros i Hi; apply (requested_insert q q' x d d2); (done || lia)).
  assert (requested_of q x = requested_tslots d) as Hrq by (by apply requested_at).
  split; [done|]. split; [done|]. split; [|split; [done|]].
  - assert (state d2 = state d1) as Es by (unfold d2; by destruct (n <=? _)).
    assert (reqs q' = rest) as Er' by (by rewrite (fs_reqs _ _ _ _ _ Hs), decide_True, Er1 by done).
    assert (∀ i, 0 ≤ i < 256 → x ≠ i → requested_of q' i = requested_of q i) as Hoth by (intros i Hi Hne; by rewrite Hreq, decide_False).
    assert (requested_of q' x = if n <=? acked_tslots d then requested_tslots d else n) as Hnew.
    { rewrite Hreq, decide_True by done. unfold d2. by destruct (n <=? _). }
    constructor; [constructor| | | |]; try done.
    + by apply (usage_insert q q' x d d2).
    + intros i Hi. destruct (decide (x = i)) as [<-|Hne]; [|by rewrite Hoth]. rewrite Hrq, Hnew. destruct (n <=? _); lia.
    + by destruct (fr_alloc _ _ Hf).
    + by destruct Hf.
    + by destruct Hf.
    + by destruct Hf.
    + intros a Ha. destruct (n <=? acked_tslots d); [by apply not_elem_of_nil in Ha|]. apply list_elem_of_singleton in Ha as ->. done.
    + intros i Hi Hn. destruct (decide (x = i)) as [<-|Hne]; [|by apply Hoth]. rewrite Hnew, Hrq.
      destruct (n <=? acked_tslots d); [done|]. destruct Hn. by left.
  - rewrite Ed' at 1. f_equal. symmetry. apply dst_of_lookup. rewrite Ed'. apply list_lookup_insert_eq. by eapply lookup_lt_Some.
Qed.

Lemma asked_trans q a1 r1 q1 a2 r2 q2 : asked q a1 r1 q1 → asked q1 a2 r2 q2 →
  (∀ a, a ∈ a1 → 0 ≤ src_dst_key a < 256 ∧ src_dst_key a ∉ (src_dst_key <$> a2)) → asked q (a1 ++ a2) r2 q2.
Proof using.
  intros [S1 E1 C1 R1 O1] [S2 E2 C2 R2 O2] Hd. constructor; [by trans q1|done|congruence| |].
  - intros a [Ha|Ha]%elem_of_app; [|by apply R2]. destruct (Hd a Ha) as [? ?]. rewrite O2 by done. by apply R1.
  - intros i Hi. rewrite fmap_app, not_elem_of_app. intros [? ?]. rewrite O2, O1; done.
Qed.

Lemma asked_nil q : asked q [] (reqs q) q.
Proof using. constructor; [done|done|done|intros a Ha; by apply not_elem_of_nil in Ha|done]. Qed.
End send.
