(* ===== verification/EndpointRequest.v ===== *)
(** * The request packets of the endpoint

    The loop of [send_request] takes the flows given by [requests_for], and the
    packet is recorded in the connection: the state in which it can be acknowledged,
    or found lost. *)

From S2P Require Import Prelude Platform Window WindowFacts WindowSpec WindowMarks Protocol ConnFacts ConnSpec ConnAck ConnSend ConnInwnd ConnSafe ConnLog.
From S2P Require Import Codec Pacer Lists Tsq TsqFacts Endpoint EndpointFacts EndpointOwn EndpointSend.

(** A flow that was not asked for is left as it was. *)
Lemma dst_of_insert (q q' : fp_sched_data) x y : dsts q' = <[Z.to_nat x := dst_of q' x]> (dsts q) → 0 ≤ x → 0 ≤ y → x ≠ y →
  dst_of q' y = dst_of q y.
Proof. intros E Hx Hy Hne. unfold dst_of at 1, arr_get. rewrite E. by rewrite list_lookup_total_insert_ne by lia. Qed.

Section request.
Context (B : build) `{H : HashOps}.

Lemma calm_step q q' : send_step q q' → calm q → calm q'.
Proof using. intros Hs. apply calm_usage, Hs. Qed.

(** The requests and what is left of the queue, for a packet with [n] free places. *)
Definition taken (n : nat) (q : fp_sched_data) : list fpproto_areq_desc * list Z := requests_for (dst_of q) n (reqs q).

Definition places (rp : req_pkt) : nat := 10 - length (rp_areq rp).

(** What the loop adds to a packet. *)
Record requested (cl : bool) (q : fp_sched_data) (rp rp' : req_pkt) (q' : fp_sched_data) : Prop := {
  rq_ok : fp_ok B cl q';
  rq_areq : rp_areq rp' = rp_areq rp ++ (taken (places rp) q).1;
  rq_data : rp_data rp' = [];
  rq_asked : asked q (taken (places rp) q).1 (taken (places rp) q).2 q';
}.

(** One flow more. *)
Lemma taken_cons q q' x rest n : reqs q = x :: rest → queue_ok q → reqs q' = rest →
  dsts q' = <[Z.to_nat x := dst_of q' x]> (dsts q) →
  taken (S n) q = if new_requested (dst_of q x) <=? acked_tslots (dst_of q x) then taken (S n) q'
                  else let '(a, r) := taken n q' in ({| src_dst_key := x; tslots := new_requested (dst_of q x) |} :: a, r).
Proof using.
  intros E Hq E' Ed. unfold taken. rewrite E, E'. simpl.
  pose proof (qo_nodup q Hq) as Hnd. rewrite E in Hnd. apply NoDup_cons in Hnd as [Hx _].
  pose proof (qo_range q Hq) as Hr. rewrite E in Hr. apply Forall_cons in Hr as [Hxr Hr]. rewrite Forall_forall in Hr. cbv beta in Hxr.
  assert (∀ m, requests_for (dst_of q) m rest = requests_for (dst_of q') m rest) as Hext; [|by rewrite !Hext].
  intros m. apply requests_for_ext. intros y Hy. specialize (Hr y Hy). cbv beta in Hr.
  assert (x ≠ y) by congruence. by rewrite (dst_of_insert q q' x y) by (done || lia).
Qed.

(** The destinations of the packet's other requests are different. *)
Lemma asked_cons cl q q1 q2 x rest n (b : bool) : fp_ok B cl q → fp_ok B cl q1 → reqs q = x :: rest → 0 ≤ x < 256 →
  asked q (if b then [] else [{| src_dst_key := x; tslots := n |}]) rest q1 →
  ∀ m, asked q1 (taken m q1).1 (taken m q1).2 q2 →
  asked q ((if b then [] else [{| src_dst_key := x; tslots := n |}]) ++ (taken m q1).1) (taken m q1).2 q2.
Proof using.
  intros Hq Hq1 E Hx Ha1 m Ha2. eapply asked_trans; [exact Ha1|exact Ha2|].
  intros a Ha. destruct b; [by apply not_elem_of_nil in Ha|]. apply list_elem_of_singleton in Ha as ->. simpl. split; [done|].
  intros (a & Ea & Hin)%list_elem_of_fmap. apply requests_for_keys in Hin as [Hin _]. rewrite <- Ea, (ak_reqs _ _ _ _ Ha1) in Hin.
  pose proof (qo_nodup q (fo_queue _ _ _ Hq)) as Hnd. rewrite E in Hnd. by apply NoDup_cons in Hnd as [? _].
Qed.

Lemma request_loop_spec cl now fuel : ∀ rp q, fp_ok B cl q → calm q → (length (reqs q) < fuel)%nat → rp_data rp = [] →
  wp (request_loop B fuel now rp) (λ rp' q' l, l = [] ∧ requested cl q rp rp' q') q.
Proof using.
  induction fuel as [|fuel IH]; intros rp q Hq Hc Hf Hd; [lia|]. cbn [request_loop]. change FASTPASS_PKT_MAX_AREQ with 10.
  destruct (Z.ltb_spec (Z.of_nat (length (rp_areq rp))) 10) as [Hlt|Hge].
  2: { apply wp_ret. split; [done|]. assert (taken (places rp) q = ([], reqs q)) as Et.
       { unfold places, taken. replace (10 - length (rp_areq rp))%nat with O by lia. by destruct (reqs q). }
       constructor; rewrite ?Et, ?app_nil_r; try done. apply asked_nil. }
  apply wp_bind. eapply wp_mono; [by eapply dequeue_spec|]. intros o q1 l1 (-> & Ho).
  destruct (reqs q) as [|x rest] eqn:E.
  { destruct Ho as [-> ->]. apply wp_ret. split; [done|]. assert (taken (places rp) q = ([], reqs q)) as Et by (unfold taken; by rewrite E).
    constructor; rewrite ?Et, ?app_nil_r; try done. apply asked_nil. }
  destruct Ho as (-> & Hx & d & Ed & Hdo & Hl & Ed1 & Er1 & Hqu1 & Hf1).
  set (d1 := set_state FLOW_UNQUEUED (set_lock true d)) in *.
  assert (dst_of q x = d) as Edx by (by apply dst_of_lookup).
  apply wp_bind. unfold read_dst at 1. apply wp_bind, wp_get. eapply (wp_deref _ d1).
  { rewrite Ed1. apply list_lookup_insert_eq. by eapply lookup_lt_Some. }
  cbv zeta. simpl demand_tslots. simpl acked_tslots.
  pose proof (do_requested _ Hdo). pose proof (do_acked _ Hdo). pose proof (Hc _ _ Ed).
  assert (Z.min (demand_tslots d) (u64 (acked_tslots d + FASTPASS_REQUEST_WINDOW_SIZE - 1)) = new_requested d) as ->.
  { unfold new_requested. change FASTPASS_REQUEST_WINDOW_SIZE with 8192. mlia. }
  pose proof (request_step B cl now q rp x rest d Hq Hc E Ed Hx q1 Hdo Ed1 Er1 Hqu1 Hf1) as Hstep. cbv zeta in Hstep.
  assert (∀ q2 rp2, fp_ok B cl q2 → asked q (if new_requested d <=? acked_tslots d then [] else [{| src_dst_key := x; tslots := new_requested d |}]) rest q2 →
    rp2 = (if new_requested d <=? acked_tslots d then rp else add_request x (new_requested d) rp) →
    dsts q2 = <[Z.to_nat x := dst_of q2 x]> (dsts q) →
    wp (request_loop B fuel now rp2) (λ rp' q' l, l = [] ∧ requested cl q rp rp' q') q2) as Hnext.
  { intros q2 rp2 Hq2 Ha2 Erp Ed2. eapply wp_mono; [apply IH|].
    - done.
    - by apply (calm_step q), Hc; apply Ha2.
    - rewrite (ak_reqs _ _ _ _ Ha2). simpl in Hf. lia.
    - rewrite Erp. by destruct (_ <=? _).
    - intros rp' q' l (-> & [Hok Har Hda Has]). split; [done|].
      pose proof (taken_cons q q2 x rest (9 - length (rp_areq rp)) E (fo_queue _ _ _ Hq) (ak_reqs _ _ _ _ Ha2) Ed2) as Et.
      rewrite Edx in Et. replace (S (9 - length (rp_areq rp))) with (places rp) in Et by (unfold places; lia).
      pose proof (asked_cons cl q q2 q' x rest (new_requested d) (new_requested d <=? acked_tslots d) Hq Hq2 E Hx Ha2 _ Has) as Hall.
      constructor; [done| |done|]; rewrite Et; destruct (new_requested d <=? acked_tslots d); subst rp2.
      + done.
      + rewrite Har. unfold places. simpl. rewrite length_app. simpl. replace (10 - (length (rp_areq rp) + 1))%nat with (9 - length (rp_areq rp))%nat by lia.
        destruct (taken (9 - length (rp_areq rp)) q2). simpl. by rewrite <- app_assoc.
      + done.
      + unfold places in *. simpl in *. rewrite length_app in Hall. simpl in Hall. replace (10 - (length (rp_areq rp) + 1))%nat with (9 - length (rp_areq rp))%nat in Hall by lia.
        by destruct (taken (9 - length (rp_areq rp)) q2). }
  clear IH. destruct (new_requested d <=? acked_tslots d) eqn:Eb.
  - apply wp_seq_ret in Hstep. apply wp_bind. eapply wp_mono; [exact Hstep|]. intros [] q2 l (-> & Hq2 & Ha2 & Erp & Ed2).
    eapply wp_mono; [by apply (Hnext q2 rp)|]. done.
  - apply wp_bind. eapply wp_mono; [exact Hstep|]. intros rp2 q2 l (-> & Hq2 & Ha2 & Erp & Ed2). apply wp_bind, wp_get.
    assert (EMULATION_ALGO B && (Z.of_nat (length (rp_data rp2)) + emu_areq_data_bytes q2 >? FASTPASS_PKT_MAX_AREQ_DATA B) = false) as ->.
    { pose proof (fo_data _ _ _ Hq2) as Hnd. unfold no_data in Hnd. unfold FASTPASS_PKT_MAX_AREQ_DATA. destruct (EMULATION_ALGO B); [|done].
      rewrite (Hnd eq_refl), Erp. simpl. by rewrite Hd. }
    eapply wp_mono; [by apply (Hnext q2 rp2)|]. done.
Qed.

(** ** Sections that hold the lock of the connection *)
Lemma fp_ok_lock cl cl' q : fp_ok B cl q → fp_ok B cl' (set_conn_lock cl' q) ∧ own_step q (set_conn_lock cl' q).
Proof using. intros [? ? [] ? ? ? ? ?]. by split; [constructor|]. Qed.

Lemma wp_lock_conn q (Φ : unit → fp_sched_data → list (event kernel_call) → Prop) :
  fp_ok B false q → Φ tt (set_conn_lock true q) [] → wp lock_conn Φ q.
Proof using. intros Hq HΦ. unfold lock_conn. apply wp_bind, wp_get. rewrite (fo_lock _ _ _ Hq). by apply wp_modify. Qed.

Lemma wp_unlock_conn q (Φ : unit → fp_sched_data → list (event kernel_call) → Prop) :
  fp_ok B true q → Φ tt (set_conn_lock false q) [] → wp unlock_conn Φ q.
Proof using. intros Hq HΦ. unfold unlock_conn. apply wp_bind, wp_get. rewrite (fo_lock _ _ _ Hq). by apply wp_modify. Qed.

(** Procedures of the protocol whose calls concern the scheduler only. *)
Lemma log_header_valid cl q l : fp_ok B cl q → log_from (conn q) l → logged (header_call (ops (conn q)) false) l →
  log_valid (own_call_valid q) l.
Proof using.
  intros Hq Hl Ho. eapply log_own_valid; [exact Hq|exact Hl|]. eapply Forall_impl; [exact Ho|].
  intros [|k] Hk; [done|]. destruct k; try done. simpl in Hk. by rewrite (proj1 (fo_ops _ _ _ Hq)) in Hk.
Qed.

Lemma on_conn_header {A} cl now (m : P A) q (Φ : A → fpproto_conn → Prop) : fp_ok B cl q →
  logs (λ c, ops c = ops (conn q)) (header_call (ops (conn q)) false) m →
  wp m (λ a c l, conn_ok c ∧ log_from (conn q) l ∧ evolves (conn q) c ∧ Φ a c) (conn q) →
  wp (on_conn B now m) (λ a q' l, fp_ok B cl q' ∧ quiet l ∧ own_step q q' ∧ Φ a (conn q')) q.
Proof using.
  intros Hq Hlog Hm. eapply on_conn_own; [done|]. destruct (wp_inv _ _ _ Hm) as (a & c & l & Hrun & Hc & Hl & [Hcfg Hpd] & HΦ).
  specialize (Hlog (conn q) eq_refl). rewrite Hrun in Hlog. destruct Hlog as [Hlog _].
  eapply wp_run; [exact Hrun|]. split; [done|]. split; [apply Hcfg|]. split; [intros s pd Hs%Hpd; by apply (fo_pds _ _ _ Hq s)|].
  split; [by eapply log_header_valid|done].
Qed.

(** The same under the lock, when the queue is not destroyed. *)
Lemma locked_header now (m : P unit) q : fp_ok B false q → safe m → (∀ o, logs (λ c, ops c = o) (header_call o false) m) →
  wp (lock_conn;; q ← get; (if is_destroyed q then mret tt else on_conn B now m);; unlock_conn)
    (λ _ q' l, fp_ok B false q' ∧ quiet l ∧ own_step q q') q.
Proof using.
  intros Hq Hm Hlog. destruct (fp_ok_lock false true q Hq) as [Hq1 Hs1]. apply wp_bind, wp_lock_conn; [done|]. apply wp_bind, wp_get.
  apply wp_bind. set (q1 := set_conn_lock true q) in *.
  assert (∀ q2 l2, fp_ok B true q2 → quiet l2 → own_step q1 q2 →
    wp unlock_conn (λ _ q' l, fp_ok B false q' ∧ quiet ([] ++ [] ++ l2 ++ l) ∧ own_step q q') q2) as Hend.
  { intros q2 l2 Hq2 Hl2 Hs2. apply wp_unlock_conn; [done|]. destruct (fp_ok_lock true false q2 Hq2) as [Hq3 Hs3].
    split; [done|]. split; [by rewrite app_nil_r|]. trans q2; [by trans q1|done]. }
  destruct (is_destroyed q1); [by apply wp_ret, Hend; [|apply quiet_nil|]|].
  eapply wp_mono; [apply (on_conn_header true now _ q1 (λ _ _, True)); [done| |]|].
  - apply Hlog.
  - eapply wp_mono; [apply Hm, Hq1|]. by intros a c l (? & ? & ? & _).
  - intros [] q2 l2 (Hq2 & Hl2 & Hs2 & _). by apply Hend.
Qed.

Lemma retrans_spec now q : fp_ok B false q →
  wp (retrans_tasklet_func B now) (λ _ q' l, fp_ok B false q' ∧ quiet l ∧ own_step q q') q.
Proof using. intros Hq. by apply locked_header; [|apply safe_handle_timeout|intros; apply header_timeout]. Qed.

(** ** The sections of [send_request] *)
Lemma send_prepare_spec now q : fp_ok B false q →
  wp (send_prepare B now) (λ r q' l, fp_ok B false q' ∧ quiet l ∧ own_step q q' ∧ r = negb (is_destroyed q) ∧
    (r = true → wnd_edge (outwnd (conn q')) ∉ wnd_set (outwnd (conn q')) ∧ head (outwnd (conn q')) = head (outwnd (conn q)))) q.
Proof using.
  intros Hq. destruct (fp_ok_lock false true q Hq) as [Hq1 Hs1]. apply wp_bind, wp_lock_conn; [done|]. apply wp_bind, wp_get.
  set (q1 := set_conn_lock true q) in *. change (is_destroyed q1) with (is_destroyed q). destruct (is_destroyed q).
  { apply wp_bind, wp_unlock_conn; [done|]. apply wp_ret. destruct (fp_ok_lock true false q1 Hq1) as [Hq3 Hs3].
    split; [done|]. split; [apply quiet_nil|]. split; [by trans q1|done]. }
  apply wp_bind. eapply wp_mono.
  { apply (on_conn_header true now _ q1 (λ _ c, wnd_edge (outwnd c) ∉ wnd_set (outwnd c) ∧ head (outwnd c) = head (outwnd (conn q)))); [done|apply header_prepare|].
    pose proof (fo_conn _ _ _ Hq1) as Hc. eapply wp_mono; [apply wp_and|].
    - by apply safe_prepare_to_send.
    - apply fpproto_prepare_to_send_spec, Hc.
    - intros a c l [(? & ? & ? & _) (_ & Hh & Hset & _)]. split; [done|]. split; [done|]. split; [done|]. split; [|done].
      rewrite (edge_head (outwnd (conn q1))), Hset by done. set_solver. }
  intros [] q2 l2 (Hq2 & Hl2 & Hs2 & Hc2). apply wp_bind, wp_unlock_conn; [done|]. apply wp_ret.
  destruct (fp_ok_lock true false q2 Hq2) as [Hq3 Hs3]. split; [done|]. split; [by rewrite !app_nil_r|].
  split; [trans q2; [by trans q1|done]|done].
Qed.

Lemma send_build_spec cl now q : fp_ok B cl q → calm q →
  wp (send_build B now) (λ pd q' l, l = [] ∧ fp_ok B cl q' ∧ asked q (taken 10 q).1 (taken 10 q).2 q' ∧
    pd_areq pd = (taken 10 q).1 ∧ pd_n_areq pd = Z.of_nat (length (pd_areq pd)) ∧ pd_areq_data pd = [] ∧ pd_n_dsts pd = 0) q.
Proof using.
  intros Hq Hc. unfold send_build. apply wp_bind, wp_get. apply wp_bind.
  pose proof (reqs_bound q (fo_queue _ _ _ Hq)). change (Z.to_nat MAX_FLOWS) with 256%nat.
  eapply wp_mono; [apply request_loop_spec; [done|done|lia|done]|]. intros rp q' l (-> & [Hok Har Hda Has]).
  apply wp_ret. simpl in Har. by split_and!.
Qed.

(** The requests of a new packet are valid. *)
Lemma asked_valid q q' n : queue_ok q → asked q (taken n q).1 (taken n q).2 q' →
  Forall (areq_valid q') (taken n q).1.
Proof using.
  intros Hq Ha. apply Forall_forall. intros a Hin. pose proof (ak_requested _ _ _ _ Ha a Hin) as Er.
  apply requests_for_keys in Hin as [Hin _]. pose proof (qo_range q Hq) as Hr. rewrite Forall_forall in Hr.
  split; [by apply Hr|]. lia.
Qed.

Lemma send_step_requested q q' : send_step q q' → (∀ i, 0 ≤ i < 256 → requested_of q i ≤ requested_of q' i).
Proof using. by intros []. Qed.

(** The packet [pd] was sent on the connection of [q], which knows it now. *)
Record packet_sent (q q' : fp_sched_data) (pd : fpproto_pktdesc) (l : list (event kernel_call)) : Prop := {
  sn_log : ∃ l1 l2, l = l1 ++ EvCall (SendPktdesc pd) :: l2 ∧ quiet l1 ∧ quiet l2;
  sn_known : out_pd (conn q') (head (outwnd (conn q)) + 1) = Some pd;
  sn_seqno : pd_seqno pd = head (outwnd (conn q)) + 1;
  sn_head : head (outwnd (conn q')) = head (outwnd (conn q)) + 1;
}.

Lemma log_timers c c' q : log_valid (own_call_valid q) (restart_events c c').
Proof using.
  unfold restart_events, timer_events. constructor; [done|]. destruct (marks_from _ _) as [|s l]; [constructor|].
  destruct (out_pd _ s); by repeat constructor.
Qed.

Lemma send_commit_spec now pd q : fp_ok B false q → head (outwnd (conn q)) + 1 < 2 ^ 64 →
  wnd_edge (outwnd (conn q)) ∉ wnd_set (outwnd (conn q)) → pd_valid q pd → is_destroyed q = false →
  wp (send_commit B now pd) (λ _ q' l, fp_ok B false q' ∧ own_step q q' ∧
    packet_sent q q' (committed (conn q) pd now) l) q.
Proof using.
  intros Hq Hh He Hpd Hdes. destruct (fp_ok_lock false true q Hq) as [Hq1 Hs1]. apply wp_bind, wp_lock_conn; [done|]. apply wp_bind, wp_get.
  set (q1 := set_conn_lock true q) in *. change (is_destroyed q1) with (is_destroyed q). rewrite Hdes.
  apply wp_bind. eapply wp_mono.
  { apply (on_conn_own B true now _ q1 (λ r c, r = committed (conn q) pd now ∧
      out_pd c (head (outwnd (conn q)) + 1) = Some r ∧ head (outwnd c) = head (outwnd (conn q)) + 1)); [done|].
    eapply wp_mono; [apply fpproto_commit_packet_spec; [apply Hq|done|done]|].
    intros r c l (-> & [Hc Hh' Hset Hpds (v & f & w & u & E)] & ->). split; [|split; [by subst c|split; [|split; [apply log_timers|]]]].
    - constructor; [done|]. subst c. apply Hq.
    - intros s pd'. rewrite Hpds. case_decide; [intros [= <-]|by apply (fo_pds _ _ _ Hq1)].
      exact Hpd.
    - split; [done|]. split; [by rewrite Hpds, decide_True|done]. }
  intros r q2 l2 (Hq2 & Hl2 & Hs2 & -> & Hout & Hhead). apply wp_bind, wp_unlock_conn; [done|].
  destruct (fp_ok_lock true false q2 Hq2) as [Hq3 Hs3]. set (q3 := set_conn_lock false q2) in *.
  apply wp_bind, wp_call, wp_bind, wp_get.
  assert (own_step q q3) as Hs by (trans q2; [by trans q1|done]).
  set (b := negb _). 
  assert (wp (when b (trigger_tx now)) (λ _ q' l, fp_ok B false q' ∧ quiet l ∧ own_step q3 q' ∧ conn q' = conn q3) q3) as Htr.
  { destruct b; [by apply own_trigger|]. by apply own_ret. }
  eapply wp_mono; [exact Htr|]. intros [] q4 l4 (Hq4 & Hl4 & Hs4 & Ec4). split; [done|]. split; [by trans q3|].
  constructor; rewrite ?Ec4; try done. exists l2, l4. split; [|done]. simpl. done.
Qed.

(** What [send_request] does when it sends: [q1] is the state after the packet that
    falls off the window was given up. *)
Record request_sent (q q1 q' : fp_sched_data) (pd : fpproto_pktdesc) (l : list (event kernel_call)) : Prop := {
  rs_before : own_step q q1;
  rs_areq : pd_areq pd = (taken 10 q1).1;
  rs_n_areq : pd_n_areq pd = Z.of_nat (length (pd_areq pd));
  rs_asked : ∀ a, a ∈ pd_areq pd → requested_of q' (src_dst_key a) = tslots a;
  rs_other : ∀ i, 0 ≤ i < 256 → i ∉ (src_dst_key <$> pd_areq pd) → requested_of q' i = requested_of q i;
  rs_reqs : (taken 10 q1).2 `prefix_of` reqs q';
  rs_sent : packet_sent q q' pd l;
}.

Lemma send_request_spec now nomem q : fp_ok B false q → calm q → head (outwnd (conn q)) + 1 < 2 ^ 64 →
  wp (send_request B now nomem) (λ _ q' l, fp_ok B false q' ∧ send_step q q' ∧
    if nomem || is_destroyed q then own_step q q' ∧ quiet l else ∃ q1 pd, request_sent q q1 q' pd l) q.
Proof using.
  intros Hq Hc Hh. unfold send_request. destruct nomem; simpl orb.
  { eapply wp_mono; [by apply own_trigger|]. intros [] q' l (Hq' & Hl & Hs & _). by split; [|split; [apply send_step_own|]]. }
  apply wp_bind. eapply wp_mono; [by apply send_prepare_spec|]. intros r q1 l1 (Hq1 & Hl1 & Hs1 & -> & Hw).
  pose proof (os_destroyed _ _ Hs1) as Ed. destruct (is_destroyed q); simpl negb in *; cbv iota.
  { apply wp_ret. rewrite app_nil_r. by split; [|split; [apply send_step_own|]]. }
  destruct (Hw eq_refl) as [He Hh1]. apply wp_bind.
  assert (calm q1) as Hc1 by (apply (calm_step q); [by apply send_step_own|done]).
  eapply wp_mono; [by apply send_build_spec|]. intros pd q2 l2 (-> & Hq2 & Ha & Ear & En & Ed0 & _).
  pose proof (ak_step _ _ _ _ Ha) as Hs2. pose proof (ak_conn _ _ _ _ Ha) as Ec2.
  eapply wp_mono.
  { apply send_commit_spec; [done|by rewrite Ec2, Hh1|by rewrite Ec2| |by rewrite (ss_destroyed _ _ Hs2)].
    unfold pd_valid. rewrite En, Nat2Z.id, firstn_all, Ear. by eapply asked_valid, Ha; apply Hq1. }
  intros [] q3 l3 (Hq3 & Hs3 & [(la & lb & -> & Hla & Hlb) Hk Hsq Hhd]).
  split; [done|]. split; [trans q1; [by apply send_step_own|]; trans q2; [done|by apply send_step_own]|].
  exists q1, (committed (conn q2) pd now). constructor.
  - done.
  - exact Ear.
  - exact En.
  - intros a Hin. rewrite (own_step_requested q2 q3) by done. apply (ak_requested _ _ _ _ Ha). by rewrite <- Ear.
  - intros i Hi Hn. rewrite (own_step_requested q2 q3) by done.
    assert (i ∉ (src_dst_key <$> (taken 10 q1).1)) as Hn' by (by rewrite <- Ear). rewrite (ak_other _ _ _ _ Ha i Hi Hn'). by apply own_step_requested.
  - rewrite <- (ak_reqs _ _ _ _ Ha). apply Hs3.
  - assert (head (outwnd (conn q2)) = head (outwnd (conn q))) as Hh2 by (by rewrite Ec2).
    rewrite Hh2 in Hk, Hhd, Hsq. constructor; try done. exists (l1 ++ la), lb. rewrite <- app_assoc. split; [done|].
    split; [by apply quiet_app|done].
Qed.

Lemma quiet_no_bug l : quiet l → no_bug l.
Proof using. intros Hl. eapply Forall_impl; [exact Hl|]. by intros []. Qed.

(** The maintenance tasklet sends when the pacer says so. *)
Lemma maintenance_spec now nomem q : fp_ok B false q → calm q → head (outwnd (conn q)) + 1 < 2 ^ 64 →
  wp (maintenance_tasklet_func B now nomem) (λ _ q' l, fp_ok B false q' ∧ send_step q q' ∧ no_bug l) q.
Proof using.
  intros Hq Hc Hh. unfold maintenance_tasklet_func. apply wp_bind, wp_get. destruct (_ && _).
  2: { apply wp_ret. split; [done|]. split; [done|apply no_bug_nil]. }
  apply wp_bind. eapply wp_mono; [apply (own_counter B false (set_request_pacer (pacer_reset (request_pacer q)))); [done|exact Hq]|].
  intros [] q1 l1 (Hq1 & Hl1 & Hs1 & Ec1).
  eapply wp_mono; [apply send_request_spec; [done|eapply calm_step, Hc; by apply send_step_own|by rewrite Ec1]|].
  intros [] q2 l2 (Hq2 & Hs2 & Hl2). split; [done|]. split; [trans q1; [by apply send_step_own|done]|].
  simpl app. apply no_bug_app. split; [by apply quiet_no_bug|]. destruct (nomem || is_destroyed q1); [by apply quiet_no_bug, Hl2|].
  destruct Hl2 as (q3 & pd & [_ _ _ _ _ _ [(la & lb & -> & Hla & Hlb) _ _ _]]).
  apply no_bug_app. split; [by apply quiet_no_bug|]. by constructor; [|apply quiet_no_bug].
Qed.
End request.
