(* ===== verification/EndpointState.v ===== *)
(** * The state of the whole endpoint

    The invariant [ep_ok] ties the timeslot queue to the scheduler's counters: the
    timeslots that wait in a flow are those that were demanded and not used. The
    rules lift the sections of the scheduler to the whole state. *)

From S2P Require Import Prelude Platform Window WindowFacts WindowSpec WindowMarks Protocol ConnFacts ConnSpec ConnAck ConnSend ConnInwnd ConnSafe.
From S2P Require Import Codec Pacer Lists Tsq TsqFacts Endpoint EndpointFacts EndpointOwn EndpointSend EndpointRequest.

Notation ep_state := (tsq_sched_data fp_sched_data).

(** ** Packets of a flow *)
Definition of_flow (k : Z) (l : list sk_buff) : list sk_buff := filter (λ skb, data_key skb = k) l.

(** The packets of a flow that were classified, the next to depart first. *)
Definition inside (k : Z) (q : ep_state) : list sk_buff :=
  of_flow k (prequeue q) ++ (skb_qs (flow_of q k) ≫= skbs).

Lemma of_flow_app k l1 l2 : of_flow k (l1 ++ l2) = of_flow k l1 ++ of_flow k l2.
Proof. apply filter_app. Qed.

Definition pure_flow (k : Z) (f : tsq_dst) : Prop := Forall (λ skb, data_key skb = k) (skb_qs f ≫= skbs).

Lemma of_flow_pure k l : Forall (λ skb, data_key skb = k) l → of_flow k l = l.
Proof.
  intros Hl. unfold of_flow. induction Hl as [|x l Hx _ IH]; [done|]. by rewrite filter_cons_True, IH.
Qed.

Lemma of_flow_other k k' l : Forall (λ skb, data_key skb = k) l → k ≠ k' → of_flow k' l = [].
Proof.
  intros Hl Hne. unfold of_flow. induction Hl as [|x l Hx _ IH]; [done|]. rewrite filter_cons_False; [done|]. by rewrite Hx.
Qed.

(** ** Invariant *)
Definition unused (p : fp_sched_data) (k : Z) : Z := demand_tslots (dst_of p k) - used_tslots (dst_of p k).

(** [adding]: the flow whose new timeslot has not been demanded yet. *)
Record ep_ok (B : build) (cl : bool) (adding : option Z) (q : ep_state) : Prop := {
  eo_tsq : tsq_ok q;
  eo_fp : fp_ok B cl (priv q);
  eo_link : ∀ k, 0 ≤ k < 256 → waiting q k = unused (priv q) k + b2z (bool_decide (adding = Some k));
  eo_pure : ∀ k, pure_flow k (flow_of q k);
}.

(** What the handlers of received packets leave alone. *)
Record ep_step (B : build) (q q' : ep_state) : Prop := {
  es_arrived : enqueue_skb_q q' = enqueue_skb_q q;
  es_prio : hi_prio q' = hi_prio q ∧ reg_prio q' = reg_prio q;
  es_qlen : qlen q' = qlen q ∧ sch_limit q' = sch_limit q;
  es_rate : tslot_len_approx q' = tslot_len_approx q ∧ data_rate q' = data_rate q;
  es_inside : EMULATION_ALGO B = false → ∀ k, inside k q' = inside k q;
}.

#[export] Instance ep_step_preorder B : PreOrder (ep_step B).
Proof.
  split; [done|]. intros a b c [? [? ?] [? ?] [? ?] I1] [? [? ?] [? ?] [? ?] I2].
  constructor; try split; try congruence. intros Hb k. by rewrite I2, I1.
Qed.

Lemma ep_step_priv B q p : ep_step B q (set_priv p q).
Proof. done. Qed.

Lemma tsq_ok_priv (q : ep_state) p : tsq_ok q → tsq_ok (set_priv p q).
Proof. by intros []. Qed.

(** The scheduler changes its own state. *)
Lemma ep_set_priv B cl cl' A A' q p : ep_ok B cl A q → fp_ok B cl' p →
  (∀ k, 0 ≤ k < 256 → unused p k + b2z (bool_decide (A' = Some k)) = unused (priv q) k + b2z (bool_decide (A = Some k))) →
  ep_ok B cl' A' (set_priv p q).
Proof.
  intros [Ht Hf Hl Hp] Hp' Hu. constructor; [by apply tsq_ok_priv|done| |exact Hp].
  intros k Hk. rewrite Hu by done. exact (Hl k Hk).
Qed.

Lemma unused_usage p p' k : (∀ i, usage <$> (dsts p' !! i) = usage <$> (dsts p !! i)) → unused p' k = unused p k.
Proof.
  intros Hu. specialize (Hu (Z.to_nat k)). unfold unused, dst_of, arr_get. rewrite !list_lookup_total_alt.
  destruct (dsts p' !! Z.to_nat k), (dsts p !! Z.to_nat k); simpl in *; try done. unfold usage in Hu. by injection Hu as -> -> _.
Qed.

Lemma ep_send_step B cl cl' A q p : ep_ok B cl A q → fp_ok B cl' p → send_step (priv q) p → ep_ok B cl' A (set_priv p q).
Proof. intros Hq Hp Hs. eapply ep_set_priv; [done|done|]. intros k Hk. by rewrite (unused_usage (priv q)) by apply Hs. Qed.

Lemma ep_own_step B cl cl' A q p : ep_ok B cl A q → fp_ok B cl' p → own_step (priv q) p → ep_ok B cl' A (set_priv p q).
Proof. intros Hq Hp Hs. by eapply ep_send_step, send_step_own. Qed.

Lemma wp_on_priv {A} (m : F A) (q : ep_state) (Φ : A → ep_state → list (event kernel_call) → Prop) :
  wp m (λ a p l, Φ a (set_priv p q) l) (priv q) → wp (on_priv m) Φ q.
Proof. apply wp_zoom. Qed.

(** ** Sections on a destination *)
Section at_dst.
Context (B : build) (i : Z) (Hi : 0 ≤ i < 256).

Record at_dst (d : fp_dst) (q : ep_state) : Prop := {
  ad_queue : queue_ok (priv q);
  ad_data : no_data B (priv q);
  ad_dst : dsts (priv q) !! Z.to_nat i = Some d;
}.

Lemma at_dst_start cl A q : ep_ok B cl A q → ∃ d, at_dst d q ∧ dst_ok d ∧ lock d = false.
Proof using Hi.
  intros Hq. destruct (dst_at B cl (priv q) i (eo_fp _ _ _ _ Hq) Hi) as (d & E & Hd). exists d.
  split; [|done]. by constructor; [apply (eo_fp _ _ _ _ Hq)..|].
Qed.

Lemma at_dst_fstep d d' q p : at_dst d q → fstep i d d' (priv q) p → at_dst d' (set_priv p q).
Proof using Hi.
  intros [Hq Hd E] Hs. constructor; simpl.
  - by eapply queue_ok_fstep.
  - unfold no_data. by rewrite (fr_bytes _ _ (fs_frame _ _ _ _ _ Hs)).
  - rewrite (fs_dsts _ _ _ _ _ Hs). apply list_lookup_insert_eq. by eapply lookup_lt_Some.
Qed.

Lemma wp_section {A} d (m : F A) Ψ q (Φ : A → ep_state → list (event kernel_call) → Prop) : at_dst d q → sect B i d m Ψ →
  (∀ a d' p, Ψ a d' → fstep i d d' (priv q) p → at_dst d' (set_priv p q) → Φ a (set_priv p q) []) →
  wp (on_priv m) Φ q.
Proof using Hi.
  intros Ha Hm HΦ. apply wp_on_priv. eapply wp_mono; [apply Hm; apply Ha|].
  intros a p l (-> & d' & HΨ & Hs). eapply HΦ; [exact HΨ|exact Hs|]. by eapply at_dst_fstep.
Qed.

Lemma dst_of_fstep d d' p p' k : dsts p !! Z.to_nat i = Some d → fstep i d d' p p' → 0 ≤ k →
  dst_of p' k = if decide (i = k) then d' else dst_of p k.
Proof using Hi.
  intros E Hs Hk. unfold dst_of, arr_get. rewrite (fs_dsts _ _ _ _ _ Hs). case_decide as Ek.
  - subst. by rewrite list_lookup_total_insert_eq by (by eapply lookup_lt_Some).
  - by rewrite list_lookup_total_insert_ne by lia.
Qed.

Lemma unused_fstep d d' p p' k : dsts p !! Z.to_nat i = Some d → fstep i d d' p p' → 0 ≤ k →
  unused p' k = if decide (i = k) then demand_tslots d' - used_tslots d' else unused p k.
Proof using Hi.
  intros E Hs Hk. unfold unused. rewrite (dst_of_fstep d d' p p' k E Hs Hk). by case_decide.
Qed.

(** The sections of one handler add up. *)
Lemma section_trans cl A q d d1 d2 p p2 : ep_ok B cl A q → dsts (priv q) !! Z.to_nat i = Some d →
  fstep i d d1 (priv q) p → fstep i d1 d2 p p2 → fstep i d d2 (priv q) p2.
Proof using Hi.
  intros Hq E H1 H2. eapply fstep_trans; [exact H1|exact H2|].
  by apply (qo_member _ (fo_queue _ _ _ (eo_fp _ _ _ _ Hq)) _ _ E).
Qed.

(** A section that has ended. *)
Lemma ep_fstep cl A A' q q' p d d' : ep_ok B cl A q → dsts (priv q) !! Z.to_nat i = Some d → fstep i d d' (priv q) p →
  q' = set_priv p q → dst_ok d' → lock d' = false →
  (requested_tslots d ≤ requested_tslots d' ∨ ∀ s, out_pd (conn (priv q)) s = None) →
  (∀ k, 0 ≤ k < 256 → (if decide (i = k) then demand_tslots d' - used_tslots d' else unused (priv q) k) + b2z (bool_decide (A' = Some k))
     = unused (priv q) k + b2z (bool_decide (A = Some k))) →
  ep_ok B cl A' q'.
Proof using Hi.
  intros Hq E Hs -> Hd Hl Hr Hu. eapply ep_set_priv; [exact Hq| |].
  - by apply (fp_ok_fstep B cl i d d' (priv q) p Hi (eo_fp _ _ _ _ Hq) E Hs).
  - intros k Hk. rewrite <- Hu by done. f_equal. apply (unused_fstep d); [done|done|lia].
Qed.

(** A destination [d] that has been locked: the scheduler's state is [p]. *)
Record locked (q : ep_state) (d : fp_dst) (p : fp_sched_data) : Prop := {
  lk_dst : dsts (priv q) !! Z.to_nat i = Some d;
  lk_ok : dst_ok d;
  lk_lock : lock d = false;
  lk_step : fstep i d (set_lock true d) (priv q) p;
  lk_at : at_dst (set_lock true d) (set_priv p q);
}.

Lemma wp_locked {A'} cl A q (k : fp_dst → Q A') Φ : ep_ok B cl A q →
  (∀ d p, locked q d p → wp (k (set_lock true d)) Φ (set_priv p q)) →
  wp (on_priv (get_dst i);; dst ← on_priv (read_dst i); k dst) Φ q.
Proof using Hi.
  intros Hq Hk. destruct (at_dst_start cl A q Hq) as (d & Had & Hd & Hl). pose proof (ad_dst _ _ Had) as Ed.
  apply wp_bind. eapply wp_section; [exact Had|by apply (sect_get_dst B i Hi d (λ _ d', d' = set_lock true d))|].
  intros [] d1 p -> Hs Had1. apply wp_bind.
  eapply wp_section; [exact Had1|by apply (sect_read B i _ (λ r d', r = set_lock true d ∧ d' = set_lock true d))|].
  intros r d2 p2 [-> ->] Hs2 Had2. change (set_priv p2 (set_priv p q)) with (set_priv p2 q) in *.
  apply Hk. constructor; try done. by eapply section_trans.
Qed.

(** The end of the section, when the unused demand is that of the start. *)
Lemma locked_end cl A q d p d' p' : ep_ok B cl A q → locked q d p → fstep i (set_lock true d) d' p p' → dst_ok d' → lock d' = false →
  (requested_tslots d ≤ requested_tslots d' ∨ ∀ s, out_pd (conn (priv q)) s = None) →
  demand_tslots d' - used_tslots d' = demand_tslots d - used_tslots d →
  ep_ok B cl A (set_priv p' q) ∧ fstep i d d' (priv q) p'.
Proof using Hi.
  intros Hq [E Hd Hl Hs Ha] Hs' Hd' Hl' Hr Hu. pose proof (section_trans cl A q d _ _ p p' Hq E Hs Hs') as Hs2. split; [|done].
  eapply (ep_fstep cl A A); [exact Hq|exact E|exact Hs2|done|done|done|done|].
  intros k Hk. case_decide; [|done]. subst k. unfold unused. by rewrite (dst_of_lookup _ _ _ E), Hu.
Qed.

Lemma wp_release cl A q d p (Φ : unit → ep_state → list (event kernel_call) → Prop) : ep_ok B cl A q → locked q d p →
  (∀ p', ep_ok B cl A (set_priv p' q) → fstep i d (set_lock false d) (priv q) p' → Φ tt (set_priv p' q) []) →
  wp (on_priv (release_dst i)) Φ (set_priv p q).
Proof using Hi.
  intros Hq Hlk HΦ. pose proof Hlk as [E Hd Hl Hs Ha].
  eapply wp_section; [exact Ha|by apply (sect_release B i Hi _ (λ _ d', d' = set_lock false d))|].
  intros [] d' p' -> Hs' _. change (set_priv p' (set_priv p q)) with (set_priv p' q).
  destruct (locked_end cl A q d p _ p' Hq Hlk Hs') as [? ?]; [by apply dst_ok_lock|done|by left|done|]. by apply HΦ.
Qed.
End at_dst.
