(* ===== verification/EndpointAlloc.v ===== *)
(** * Allocations of the endpoint

    [handle_alloc] keeps the invariant. Without network emulation it admits, for
    every timeslot that the arbiter allocated, the oldest timeslot of the flow, and
    is specified by the function [admit_all]. *)

From S2P Require Import Prelude Platform Window WindowFacts WindowSpec WindowMarks Protocol ConnFacts ConnSpec ConnAck ConnSend ConnInwnd ConnSafe.
From S2P Require Import Codec Pacer Lists Tsq TsqFacts Endpoint EndpointFacts EndpointOwn EndpointSend EndpointRequest EndpointState.

(** Of the kernel, the handlers of received packets use the scheduler as well. *)
Definition rx_quiet (l : list (event kernel_call)) : Prop :=
  Forall (λ e, match e with EvCall (NetifSchedule | SetRetransTimer _ | CancelRetransTimer | FreePktdesc _) => True | _ => False end) l.

Lemma rx_quiet_nil : rx_quiet [].
Proof. constructor. Qed.
Lemma rx_quiet_app l1 l2 : rx_quiet (l1 ++ l2) ↔ rx_quiet l1 ∧ rx_quiet l2.
Proof. apply Forall_app. Qed.
Lemma rx_quiet_of l : quiet l → rx_quiet l.
Proof. intros Hl. eapply Forall_impl; [exact Hl|]. by intros [|[]]. Qed.
Lemma rx_quiet_no_bug l : rx_quiet l → no_bug l.
Proof. intros Hl. eapply Forall_impl; [exact Hl|]. by intros []. Qed.
#[export] Hint Resolve rx_quiet_nil : flex.

(** ** What an allocation does *)

(** The oldest timeslot of flow [k] is admitted. *)
Record admits (k : Z) (q q' : ep_state) : Prop := {
  am_slot : ∃ s rest, skb_qs (flow_of q k) = s :: rest ∧ skb_qs (flow_of q' k) = rest ∧ prequeue q' = prequeue q ++ skbs s;
  am_other : ∀ k', k ≠ k' → flow_of q' k' = flow_of q k';
}.

(** The timeslots of every flow and the admitted packets after the allocations
    [specs], where [ids] are the destinations; of flow [adding] one timeslot has
    not been demanded yet. *)
Fixpoint admit_all (adding : option Z) (ids specs : list Z) (fl : Z → list timeslot_skb_q) : (Z → list timeslot_skb_q) * list sk_buff :=
  match specs with
  | [] => (fl, [])
  | spec :: specs' =>
      let idx := Z.shiftr spec 4 in
      if idx =? 0 then admit_all adding ids specs' fl
      else if idx >? Z.of_nat (length ids) then (fl, [])
      else
        let k := nth (Z.to_nat (idx - 1)) ids 0 in
        match fl k with
        | s :: rest =>
            if bool_decide (adding = Some k ∧ rest = []) then admit_all adding ids specs' fl
            else
              let '(fl', out) := admit_all adding ids specs' (λ k', if decide (k = k') then rest else fl k') in
              (fl', skbs s ++ out)
        | [] => admit_all adding ids specs' fl
        end
  end.

Lemma admit_all_ext adding ids specs : ∀ fl fl', (∀ k, fl k = fl' k) →
  (∀ k, (admit_all adding ids specs fl).1 k = (admit_all adding ids specs fl').1 k) ∧
  (admit_all adding ids specs fl).2 = (admit_all adding ids specs fl').2.
Proof.
  induction specs as [|spec specs IH]; intros fl fl' He; simpl; [done|].
  destruct (_ =? 0); [by apply IH|]. destruct (_ >? _); [done|]. rewrite <- He.
  set (k := nth _ ids 0). destruct (fl k) as [|s rest]; [by apply IH|]. case_bool_decide; [by apply IH|].
  destruct (IH (λ k', if decide (k = k') then rest else fl k') (λ k', if decide (k = k') then rest else fl' k')) as [I1 I2].
  { intros k'. by case_decide. }
  destruct (admit_all _ _ _ (λ k', if decide (k = k') then rest else fl k')) as [f1 o1],
    (admit_all _ _ _ (λ k', if decide (k = k') then rest else fl' k')) as [f2 o2]. simpl in *. split; [done|by rewrite I2].
Qed.

(** Admitting does not change the order of a flow's packets. *)
Lemma admits_inside k q q' : pure_flow k (flow_of q k) → admits k q q' → ∀ k', inside k' q' = inside k' q.
Proof.
  intros Hp [(s & rest & E & E' & Epre) Ho] k'. unfold inside. rewrite Epre, of_flow_app. unfold pure_flow in Hp.
  rewrite E in Hp. simpl in Hp. apply Forall_app in Hp as [Hs _]. destruct (decide (k = k')) as [<-|Hne].
  - rewrite E', E. simpl. rewrite (of_flow_pure k (skbs s)) by done. by rewrite app_assoc.
  - rewrite Ho, (of_flow_other k k' (skbs s)), app_nil_r by done. done.
Qed.

Section effects.
Context (B : build) `{H : HashOps}.
Implicit Types q : ep_state.

(** A flow with timeslots is in the table. *)
Lemma flow_present (q : ep_state) k : skb_qs (flow_of q k) ≠ [] → dst_hash_tbl q !! k = Some (flow_of q k).
Proof using. unfold flow_of. by destruct (dst_hash_tbl q !! k). Qed.

(** What the timeslot queue does with an allocation: [n] is the number of
    timeslots handled. *)
Record alloc_effect (k n : Z) (q q' : ep_state) : Prop := {
  ae_ok : tsq_ok q';
  ae_priv : priv q' = priv q;
  ae_n : n = 0 ∨ n = 1;
  ae_waiting : ∀ k', waiting q' k' = waiting q k' - (if decide (k = k') then n else 0);
  ae_pure : (∀ k, pure_flow k (flow_of q k)) → ∀ k, pure_flow k (flow_of q' k);
  ae_admits : EMULATION_ALGO B = false → n = 1 ∧ admits k q q';
  ae_frame : enqueue_skb_q q' = enqueue_skb_q q ∧ (hi_prio q' = hi_prio q ∧ reg_prio q' = reg_prio q) ∧
    (qlen q' = qlen q ∧ sch_limit q' = sch_limit q) ∧ tslot_len_approx q' = tslot_len_approx q ∧ data_rate q' = data_rate q;
}.

Lemma pure_delete k f i : pure_flow k f → pure_flow k (flow_take i f).
Proof using.
  unfold pure_flow. simpl. rewrite !Forall_forall. intros Hf x (s & Hx & Hs)%list_elem_of_bind. apply Hf, list_elem_of_bind.
  exists s. split; [done|]. apply list_elem_of_lookup in Hs as [j Hj]. apply list_elem_of_lookup.
  rewrite list_lookup_delete in Hj. case_decide; eauto.
Qed.

Lemma alloc_effect_none k q : tsq_ok q → EMULATION_ALGO B = true → alloc_effect k 0 q q.
Proof using.
  intros Hq Hb. constructor; try done; [by left| |by rewrite Hb]. intros k'. case_decide; lia.
Qed.

Lemma alloc_effect_take k action f i s q q1 q' : tsq_ok q → dst_hash_tbl q !! k = Some f → skb_qs f !! i = Some s →
  (EMULATION_ALGO B = false → action = TSLOT_ACTION_ADMIT_HEAD ∧ i = O) →
  stored k (flow_take i f) q q1 → handled action s q1 q' → alloc_effect k 1 q q'.
Proof using.
  intros Hq Ef Es Hh Hst Hhd. destruct (tq_flows q Hq k f Ef) as [Hk Hf].
  assert (flow_of q k = f) as Efl by (unfold flow_of; by rewrite Ef).
  pose proof (stored_frame _ _ _ _ Hst) as (Ep & Epre & Edr & Een & Ehi & Erg & Elen & Erate & Eql & Elim).
  assert (tsq_ok q1) as Hq1 by (eapply stored_ok, Hst; [done|done|]; apply flow_take_ok; [apply Hq|done]).
  assert (∀ k', flow_of q' k' = flow_of q1 k' ∧ hash_tbl_lock q' = hash_tbl_lock q1 ∧ dst_hash_tbl q' = dst_hash_tbl q1 ∧
    priv q' = priv q1 ∧ enqueue_skb_q q' = enqueue_skb_q q1 ∧ hi_prio q' = hi_prio q1 ∧ reg_prio q' = reg_prio q1 ∧
    qlen q' = qlen q1 ∧ sch_limit q' = sch_limit q1 ∧ tslot_len_approx q' = tslot_len_approx q1 ∧ data_rate q' = data_rate q1) as Hfr.
  { intros k'. unfold handled in Hhd. destruct (_ =? _); [by subst q'|]. by destruct Hhd as (out & -> & _). }
  constructor.
  - destruct (Hfr 0) as (_ & E1 & E2 & _ & _ & _ & _ & _ & _ & E3 & _). destruct Hq1 as [? ? ?]. constructor; rewrite ?E1, ?E2, ?E3; done.
  - destruct (Hfr 0) as (_ & _ & _ & -> & _). done.
  - by right.
  - intros k'. destruct (Hfr k') as [E _]. unfold waiting at 1. rewrite E. fold (waiting q1 k').
    rewrite (waiting_stored k (flow_take i f) q q1 k' Hst). case_decide as Ek; [|lia]. subst k'. unfold waiting. rewrite Efl. simpl.
    pose proof (lookup_lt_Some _ _ _ Es). rewrite length_delete by eauto. lia.
  - intros Hp k'. destruct (Hfr k') as [E _]. rewrite E, (flow_of_stored k (flow_take i f) q q1 k' Hst). case_decide; [|done]. subst k'.
    apply pure_delete. rewrite <- Efl. apply Hp.
  - intros Hb. destruct (Hh Hb) as [-> ->]. split; [done|]. unfold handled in Hhd. simpl in Hhd. destruct Hhd as (out & -> & _ & Ho).
    constructor.
    + exists s, (tail (skb_qs f)). rewrite Efl. destruct (skb_qs f) as [|s' l] eqn:El; [done|]. injection Es as ->. split; [done|].
      change (flow_of (set_prequeue (prequeue q1 ++ out) q1) k) with (flow_of q1 k).
      rewrite (flow_of_stored k (flow_take 0 f) q q1 k Hst), decide_True by done. simpl. rewrite El. split; [done|].
      by rewrite Epre, (Ho ltac:(done)).
    + intros k' Hne. change (flow_of (set_prequeue (prequeue q1 ++ out) q1) k') with (flow_of q1 k').
      by rewrite (flow_of_stored k (flow_take 0 f) q q1 k' Hst), decide_False.
  - destruct (Hfr 0) as (_ & _ & _ & _ & E1 & E2 & E3 & E4 & E5 & E6 & E7). rewrite E1, E2, E3, E4, E5, E6, E7. split_and!; congruence.
Qed.

Lemma alloc_effect_priv k n p p' q q' : alloc_effect k n (set_priv p q) q' → alloc_effect k n (set_priv p' q) (set_priv p' q').
Proof using.
  intros [? ? ? ? ? Ha ?]. constructor; try done; [by apply tsq_ok_priv|]. intros Hb. destruct (Ha Hb) as [? [? ?]]. by split.
Qed.

Lemma waiting_slots q k : 0 < waiting q k → skb_qs (flow_of q k) ≠ [].
Proof using. unfold waiting. by destruct (skb_qs (flow_of q k)). Qed.

Lemma alloc_effect_step k n q q' : alloc_effect k n q q' → (∀ k, pure_flow k (flow_of q k)) → ep_step B q q'.
Proof using.
  intros [_ _ _ _ _ Ha (? & ? & ? & ? & ?)] Hp. constructor; try done.
  intros Hb k'. destruct (Ha Hb) as [_ Hadm]. by eapply admits_inside, Hadm.
Qed.

Definition alloc_post (cl : bool) (A : option Z) (k : Z) (q q' : ep_state) : Prop :=
  ep_ok B cl A q' ∧ ep_step B q q' ∧ conn (priv q') = conn (priv q) ∧ q_alloc_data_bytes (priv q') = q_alloc_data_bytes (priv q) ∧
  (EMULATION_ALGO B = false → admits k q q').

Lemma dst_ok_use d : dst_ok d → used_tslots d ≠ demand_tslots d →
  dst_ok (set_alloc_tslots (u64 (alloc_tslots d + 1)) (set_used_tslots (u64 (used_tslots d + 1)) d)).
Proof using.
  intros [[] Hw] Hne. assert (u64 (used_tslots d + 1) = used_tslots d + 1) as E by mlia. rewrite do_alloc, E.
  constructor; [constructor; simpl; lia|done].
Qed.

Lemma unused_at p k d : dsts p !! Z.to_nat k = Some d → unused p k = demand_tslots d - used_tslots d.
Proof using. intros E. unfold unused. by rewrite (dst_of_lookup p k d). Qed.

Lemma use_section k d : 0 ≤ k < 256 → lock d = true →
  sect B k d (flow_inc_used k 1;; upd_dst k (λ d, set_alloc_tslots (u64 (alloc_tslots d + 1)) d);; release_dst k)
    (λ _ d', d' = set_lock false (set_alloc_tslots (u64 (alloc_tslots d + 1)) (set_used_tslots (u64 (used_tslots d + 1)) d))).
Proof using.
  intros Hk Hl. eapply (sect_bind B k Hk _ _ _ (λ _ d', d' = set_used_tslots (u64 (used_tslots d + 1)) d)); [by apply sect_inc_used|].
  intros [] d1 ->. eapply (sect_bind B k Hk); [by apply (sect_upd B k _ _ (λ _ d', d' =
    set_alloc_tslots (u64 (alloc_tslots d + 1)) (set_used_tslots (u64 (used_tslots d + 1)) d)))|].
  intros [] d2 ->. by apply sect_release.
Qed.

(** The allocation is taken back. *)
Lemma unuse_section k d : 0 ≤ k < 256 → lock d = false →
  sect B k d (get_dst k;; flow_dec_used k 1;; upd_dst k (λ d, set_alloc_tslots (u64 (alloc_tslots d - 1)) d);; release_dst k)
    (λ _ d', d' = set_lock false (set_alloc_tslots (u64 (alloc_tslots d - 1)) (set_used_tslots (u64 (used_tslots d - 1)) (set_lock true d)))).
Proof using.
  intros Hk Hl. eapply (sect_bind B k Hk _ _ _ (λ _ d', d' = set_lock true d)); [by apply sect_get_dst|]. intros [] d0 ->.
  eapply (sect_bind B k Hk _ _ _ (λ _ d', d' = set_used_tslots (u64 (used_tslots d - 1)) (set_lock true d))); [by apply sect_dec_used|].
  intros [] d1 ->. eapply (sect_bind B k Hk); [by apply (sect_upd B k _ _ (λ _ d', d' =
    set_alloc_tslots (u64 (alloc_tslots d - 1)) (set_used_tslots (u64 (used_tslots d - 1)) (set_lock true d))))|].
  intros [] d2 ->. by apply sect_release.
Qed.

(** The state after [n] timeslots were used in the scheduler and in the queue. *)
Lemma ep_ok_alloc cl A k n d d' p q q' : ep_ok B cl A q → 0 ≤ k < 256 → dsts (priv q) !! Z.to_nat k = Some d →
  fstep k d d' (priv q) p → dst_ok d' → lock d' = false → requested_tslots d ≤ requested_tslots d' →
  demand_tslots d' - used_tslots d' = demand_tslots d - used_tslots d - n →
  alloc_effect k n (set_priv p q) q' → fp_ok B cl p ∧ ep_ok B cl A q' ∧ ep_step B q q' ∧ (EMULATION_ALGO B = false → admits k q q').
Proof using.
  intros Hq Hk E Hs Hd Hl Hr Hn He. pose proof (eo_fp _ _ _ _ Hq) as Hf.
  assert (fp_ok B cl p) as Hp by (apply (fp_ok_fstep B cl k d d' (priv q) p Hk Hf E Hs); [done|done|by left]).
  split; [done|]. split; [|split].
  - constructor; [apply He|by rewrite (ae_priv _ _ _ _ He)| |apply (ae_pure _ _ _ _ He), Hq].
    intros k' Hk'. rewrite (ae_waiting _ _ _ _ He k'), (ae_priv _ _ _ _ He). change (waiting (set_priv p q) k') with (waiting q k').
    change (priv (set_priv p q)) with p. rewrite (eo_link _ _ _ _ Hq k' Hk'), (unused_fstep k Hk d d' _ _ k' E Hs) by lia.
    case_decide as Ek; [|lia]. subst k'. rewrite (unused_at _ _ _ E). lia.
  - trans (set_priv p q); [apply ep_step_priv|]. by apply (alloc_effect_step k n (set_priv p q)), Hq.
  - intros Hb. destruct (ae_admits _ _ _ _ He Hb) as [_ [? ?]]. by constructor.
Qed.

End effects.

Section alloc.
Context (B : build) `{H : HashOps} (csum_replace2 : Z → Z → Z → Z) (emu_scheme : string) (proc_err sock_err : Z).
Notation ops_ := (fastpass_tsq_ops B csum_replace2 emu_scheme proc_err sock_err).
Implicit Types q : ep_state.
#[local] Instance tsq_ops : TsqOps fp_sched_data := ops_.

#[local] Instance prepares_ok : PreparesOk fp_sched_data.
Proof. constructor. simpl. intros f [= <-] skb data p. unfold fpq_prepare_to_send. eexists. reflexivity. Qed.

Lemma handle_now_effect k action id data q : tsq_ok q → 0 < waiting q k →
  (EMULATION_ALGO B = false → action = TSLOT_ACTION_ADMIT_HEAD) →
  wp (tsq_handle_now k action id data) (λ n q' l, rx_quiet l ∧
    ((n = 1 ∧ alloc_effect B k 1 q q') ∨ (n = 0 ∧ q' = q ∧ action ≠ TSLOT_ACTION_ADMIT_HEAD))) q.
Proof.
  intros Hq Hw Hb. pose proof (waiting_slots q k Hw) as Hne. pose proof (flow_present q k Hne) as Ef.
  eapply wp_mono; [by apply tsq_handle_now_spec|]. intros n q' l. cbv beta.
  destruct (find_timeslot action id (skb_qs (flow_of q k))) as [i|] eqn:Ei.
  - intros (-> & -> & s & q1 & Es & Hst & Hh). split; [by repeat constructor|]. left. split; [done|].
    eapply alloc_effect_take; [done|exact Ef|exact Es| |exact Hst|exact Hh].
    intros Hb'. split; [by apply Hb|]. rewrite (Hb Hb') in Ei. by injection Ei.
  - intros (-> & -> & ->). split; [auto with flex|]. right. split; [done|]. split; [done|]. by intros ->.
Qed.

Lemma handle_single_alloc_spec k flags id data q : tsq_ok q → 0 < waiting q k →
  wp (handle_single_alloc B csum_replace2 emu_scheme proc_err sock_err k flags id data)
    (λ n q' l, rx_quiet l ∧ alloc_effect B k n q q') q.
Proof.
  intros Hq Hw. unfold handle_single_alloc. destruct (EMULATION_ALGO B) eqn:Hb.
  - assert (∀ action, wp (tsq_handle_now k action id data) (λ n q' l, rx_quiet l ∧ alloc_effect B k n q q') q) as Hnow.
    { intros action. eapply wp_mono; [apply handle_now_effect; [done|done|by rewrite Hb]|].
      intros n q' l (Hl & [[-> He]|(-> & -> & _)]); split; try done. by apply alloc_effect_none. }
    repeat (case_match; [apply Hnow|]). apply wp_ret. split; [auto with flex|by apply alloc_effect_none].
  - apply wp_bind. eapply wp_mono; [by apply handle_now_effect|].
    intros n q' l (Hl & [[-> He]|(_ & _ & Hn)]); [|done]. apply wp_ret. split; [|done]. by rewrite app_nil_r.
Qed.

(** One allocation, from the section in which the destination was found to have
    unused demand. *)
Lemma admit_alloc_spec cl A k flags id data q p d : ep_ok B cl A q → 0 ≤ k < 256 → dsts (priv q) !! Z.to_nat k = Some d →
  fstep k d (set_lock true d) (priv q) p → dst_ok d → lock d = false → used_tslots d ≠ demand_tslots d →
  wp (admit_alloc B csum_replace2 emu_scheme proc_err sock_err k flags id data)
    (λ _ q' l, rx_quiet l ∧ alloc_post B cl A k q q') (set_priv p q).
Proof.
  intros Hq Hk E Hs Hd Hl Hne. unfold admit_alloc.
  pose proof (eo_tsq _ _ _ _ Hq) as Ht. pose proof (eo_fp _ _ _ _ Hq) as Hf.
  assert (at_dst B k (set_lock true d) (set_priv p q)) as Hat by (eapply at_dst_fstep, Hs; [done|]; by constructor; [apply Hf..|]).
  apply wp_bind. eapply (wp_section B k Hk); [exact Hat|by apply use_section|]. intros [] d2 p2 -> Hs2 Hat2. change (set_priv p2 (set_priv p q)) with (set_priv p2 q) in *.
  set (d1 := set_lock true d) in *.
  set (d2 := set_lock false (set_alloc_tslots (u64 (alloc_tslots d1 + 1)) (set_used_tslots (u64 (used_tslots d1 + 1)) d1))) in *.
  assert (fstep k d d2 (priv q) p2) as Hs12.
  { eapply fstep_trans; [exact Hs|exact Hs2|]. by apply (qo_member _ (fo_queue _ _ _ Hf) _ _ E). }
  assert (dst_ok d2) as Hd2 by (apply dst_ok_lock, dst_ok_use; [by apply dst_ok_lock|done]).
  pose proof Hd as [[Hu Ha Hak Hrq Hw Hbd] _].
  assert (used_tslots d2 = used_tslots d + 1 ∧ alloc_tslots d2 = used_tslots d + 1) as [Eu2 Ea2].
  { unfold d2, d1. simpl. rewrite Ha. split; mlia. }
  apply wp_bind. eapply wp_mono.
  { apply handle_single_alloc_spec; [by apply tsq_ok_priv|]. change (waiting (set_priv p2 q) k) with (waiting q k).
    rewrite (eo_link _ _ _ _ Hq k Hk), (unused_at _ _ _ E). case_bool_decide; simpl; lia. }
  intros n q3 l3 (Hl3 & He). pose proof (ae_priv _ _ _ _ _ He) as Ep3. change (priv (set_priv p2 q)) with p2 in Ep3.
  assert (at_dst B k d2 q3) as Hat3 by (destruct Hat2; constructor; by rewrite Ep3).
  assert (∀ q' d3 p3, q' = set_priv p3 q3 → fstep k d2 d3 (priv q3) p3 → d3 = (if n =? 0 then d else d2) → alloc_post B cl A k q q') as Hend.
  { intros q' d3 p3 -> Hs3 Ed3. rewrite Ep3 in Hs3. pose proof (ae_n _ _ _ _ _ He) as Hn.
    assert (fstep k d d3 (priv q) p3) as Hs13 by (eapply fstep_trans; [exact Hs12|exact Hs3|]; by apply (qo_member _ (fo_queue _ _ _ Hf) _ _ E)).
    destruct (ep_ok_alloc B cl A k n d d3 p3 q (set_priv p3 q3) Hq Hk E Hs13) as (_ & ? & ? & ?).
    - rewrite Ed3. by destruct (n =? 0).
    - rewrite Ed3. by destruct (n =? 0).
    - rewrite Ed3. by destruct (n =? 0).
    - rewrite Ed3. destruct Hn as [-> | ->]; [simpl; lia|]. change (1 =? 0) with false. cbv iota. rewrite Eu2.
      change (demand_tslots d2) with (demand_tslots d). lia.
    - by eapply alloc_effect_priv.
    - pose proof (fs_frame _ _ _ _ _ Hs13) as Hfr. split; [done|]. split; [done|]. split; [apply Hfr|]. split; [apply Hfr|done]. }
  destruct (ae_n _ _ _ _ _ He) as [-> | ->].
  - rewrite andb_true_r. destruct (EMULATION_ALGO B) eqn:Hb; [|by destruct (ae_admits _ _ _ _ _ He Hb)].
    simpl when. apply wp_bind. eapply (wp_section B k Hk); [exact Hat3|by apply unuse_section|]. intros [] d3 p3 -> Hs3 _.
    apply wp_ret. split; [by rewrite !app_nil_r|]. eapply Hend; [done|exact Hs3|]. simpl. unfold d2, d1 in Eu2, Ea2 |- *.
    simpl in *. rewrite Eu2, Ea2, Z.add_simpl_r. rewrite !(u64_small (used_tslots d)) by lia. rewrite <- Ha at 1. rewrite <- Hl. by destruct d.
  - rewrite andb_false_r. apply wp_bind, wp_ret.
    eapply (wp_section B k Hk); [exact Hat3|by apply (sect_counter B k d2 _ (λ _ d', d' = d2))|]. intros [] d3 p3 -> Hs3 _.
    split; [by rewrite !app_nil_r|]. by eapply Hend.
Qed.

(** ** The loop over the allocations *)
Record alloc_result (cl : bool) (A : option Z) (ids specs : list Z) (q q' : ep_state) : Prop := {
  ar_ok : ep_ok B cl A q';
  ar_step : ep_step B q q';
  ar_conn : conn (priv q') = conn (priv q);
  ar_bytes : q_alloc_data_bytes (priv q') = q_alloc_data_bytes (priv q);
  ar_flows : EMULATION_ALGO B = false → ∀ k, skb_qs (flow_of q' k) = (admit_all A ids specs (λ k, skb_qs (flow_of q k))).1 k;
  ar_out : EMULATION_ALGO B = false → prequeue q' = prequeue q ++ (admit_all A ids specs (λ k, skb_qs (flow_of q k))).2;
}.

Lemma alloc_result_skip cl A ids specs specs' q q' : alloc_result cl A ids specs q q' →
  admit_all A ids specs' (λ k, skb_qs (flow_of q k)) = admit_all A ids specs (λ k, skb_qs (flow_of q k)) →
  alloc_result cl A ids specs' q q'.
Proof using. intros [] E. constructor; try done; by rewrite E. Qed.

(** Nothing of the flow may be admitted, or its oldest timeslot is. *)
Lemma admit_all_idle A ids specs spec q cl k : ep_ok B cl A q → Z.shiftr spec 4 ≠ 0 → Z.shiftr spec 4 ≤ Z.of_nat (length ids) →
  k = nth (Z.to_nat (Z.shiftr spec 4 - 1)) ids 0 → 0 ≤ k < 256 → unused (priv q) k = 0 →
  admit_all A ids (spec :: specs) (λ k, skb_qs (flow_of q k)) = admit_all A ids specs (λ k, skb_qs (flow_of q k)).
Proof using.
  intros Hq H0 Hle Ek Hk Hu. simpl. rewrite (proj2 (Z.eqb_neq _ _) H0), Z.gtb_ltb, (proj2 (Z.ltb_ge _ _)), <- Ek by lia.
  pose proof (eo_link _ _ _ _ Hq k Hk) as Hl. rewrite Hu in Hl. unfold waiting in Hl.
  destruct (skb_qs (flow_of q k)) as [|s rest]; [done|]. case_bool_decide as HA; [|simpl in Hl; lia].
  rewrite bool_decide_eq_true_2; [done|]. split; [done|]. simpl in Hl. destruct rest; [done|simpl in Hl; lia].
Qed.

Lemma admit_all_take A ids specs spec q q' cl k : ep_ok B cl A q → Z.shiftr spec 4 ≠ 0 → Z.shiftr spec 4 ≤ Z.of_nat (length ids) →
  k = nth (Z.to_nat (Z.shiftr spec 4 - 1)) ids 0 → 0 ≤ k < 256 → unused (priv q) k ≠ 0 → 0 ≤ unused (priv q) k → admits k q q' →
  let r := admit_all A ids (spec :: specs) (λ k, skb_qs (flow_of q k)) in
  let r' := admit_all A ids specs (λ k, skb_qs (flow_of q' k)) in
  (∀ k', r.1 k' = r'.1 k') ∧ prequeue q' ++ r'.2 = prequeue q ++ r.2.
Proof using.
  intros Hq H0 Hle Ek Hk Hu Hu0 [(s & rest & E & E' & Ep) Ho]. cbn zeta. simpl.
  rewrite (proj2 (Z.eqb_neq _ _) H0), Z.gtb_ltb, (proj2 (Z.ltb_ge _ _)), <- Ek by lia.
  pose proof (eo_link _ _ _ _ Hq k Hk) as Hl. unfold waiting in Hl. rewrite E in Hl |- *.
  rewrite bool_decide_eq_false_2.
  2: { intros [-> ->]. rewrite bool_decide_eq_true_2 in Hl by done. simpl in Hl. lia. }
  destruct (admit_all_ext A ids specs (λ k', if decide (k = k') then rest else skb_qs (flow_of q k')) (λ k', skb_qs (flow_of q' k'))) as [H1 H2].
  { intros k'. cbv beta. destruct (decide (k = k')) as [<-|Hne]; [done|by rewrite Ho]. }
  destruct (admit_all A ids specs (λ k', if decide (k = k') then rest else skb_qs (flow_of q k'))) as [f out]. simpl in *.
  split; [done|]. by rewrite Ep, <- H2, app_assoc.
Qed.

Definition alloc_bytes : Z := alloc_bytes_per_tslot (fastpass_sch_proto_ops B 0).

Lemma alloc_loop_spec cl A ids tslots n k : ∀ i data q, ep_ok B cl A q → 0 ≤ i → i + Z.of_nat k = n →
  Forall (λ d, 0 ≤ d < 256) ids → Forall (λ b, 0 ≤ b < 256) tslots → n * alloc_bytes ≤ Z.of_nat (length tslots) →
  wp (alloc_loop B csum_replace2 emu_scheme proc_err sock_err k ids (Z.of_nat (length ids)) tslots n i data)
    (λ _ q' l, rx_quiet l ∧ alloc_result cl A ids (take k (drop (Z.to_nat i) tslots)) q q') q.
Proof.
  induction k as [|k IH]; intros i data q Hq Hi Hn Hids Hb Hlen; cbn [alloc_loop].
  { apply wp_ret. split; [auto with flex|]. constructor; simpl; try done. intros _. by rewrite app_nil_r. }
  assert (n ≤ Z.of_nat (length tslots)) as Hlen1.
  { unfold alloc_bytes, fastpass_sch_proto_ops, MAX_ALLOC_BYTES_PER_TSLOT in Hlen. simpl in Hlen. destruct (EMULATION_ALGO B); lia. }
  destruct (lookup_lt_is_Some_2 tslots (Z.to_nat i)) as [spec Espec]; [lia|].
  apply wp_bind. eapply wp_deref; [exact Espec|]. cbv zeta.
  rewrite (drop_S _ _ _ Espec), firstn_cons. replace (S (Z.to_nat i)) with (Z.to_nat (i + 1)) by lia.
  set (specs := take k (drop (Z.to_nat (i + 1)) tslots)).
  assert (0 ≤ Z.shiftr spec 4) as H0.
  { apply Z.shiftr_nonneg. apply (Forall_lookup_1 _ _ _ _ Hb Espec). }
  assert (∀ d2 q2, ep_ok B cl A q2 → wp (alloc_loop B csum_replace2 emu_scheme proc_err sock_err k ids (Z.of_nat (length ids)) tslots n (i + 1) d2)
    (λ _ q' l, rx_quiet l ∧ alloc_result cl A ids specs q2 q') q2) as Hnext.
  { intros d2 q2 Hq2. apply IH; (done || lia). }
  clear IH. destruct (Z.eqb_spec (Z.shiftr spec 4) 0) as [E0|E0].
  { eapply wp_mono; [by apply Hnext|]. intros [] q' l [Hl Hr]. split; [done|]. eapply alloc_result_skip; [exact Hr|]. simpl. by rewrite E0. }
  destruct (Z.gtb_spec (Z.shiftr spec 4) (Z.of_nat (length ids))) as [Hgt|Hle].
  { apply wp_ret. split; [auto with flex|]. constructor; try done; intros _; simpl;
      rewrite (proj2 (Z.eqb_neq _ _) E0), Z.gtb_ltb, (proj2 (Z.ltb_lt _ _) Hgt) by done; [done|by rewrite app_nil_r]. }
  destruct (lookup_lt_is_Some_2 ids (Z.to_nat (Z.shiftr spec 4 - 1))) as [x Ex]; [lia|].
  assert (x = nth (Z.to_nat (Z.shiftr spec 4 - 1)) ids 0) as Enth by (symmetry; by apply nth_lookup_Some).
  pose proof (Forall_lookup_1 _ _ _ _ Hids Ex) as Hx. cbv beta in Hx.
  apply wp_bind. eapply wp_deref; [exact Ex|]. cbv zeta. apply wp_bind.
  assert (wp (if EMULATION_ALGO B then deref (ld16 tslots (n + 2 * i)) else mret 0)
    (λ (id : Z) q' (l : list (event kernel_call)), q' = q ∧ l = []) q) as Hid.
  { unfold alloc_bytes, fastpass_sch_proto_ops in Hlen. simpl in Hlen. destruct (EMULATION_ALGO B); [|by apply wp_ret].
    destruct (ld16_some tslots (n + 2 * i)) as [v Ev]; [lia..|]. by eapply wp_deref. }
  eapply wp_mono; [exact Hid|]. intros id ? ? [-> ->]. clear Hid.
  eapply (wp_locked B x Hx); [exact Hq|]. intros d p Hlk. pose proof Hlk as [Ed Hd Hl Hs _].
  simpl used_tslots. simpl demand_tslots. pose proof (do_used _ Hd) as Hu.
  destruct (Z.eqb_spec (used_tslots d) (demand_tslots d)) as [Eu|Eu]; simpl negb; cbv iota.
  - apply wp_bind. eapply (wp_release B x Hx); [exact Hq|exact Hlk|]. intros p3 Hq3 Hs3.
    eapply wp_mono; [by apply (Hnext data)|]. intros [] q' l [Hl' [Hok Hst Hc Hby Hf Ho]]. split; [done|].
    pose proof (fs_frame _ _ _ _ _ Hs3) as Hfr. pose proof (fr_conn _ _ Hfr) as Ec. destruct (fr_alloc _ _ Hfr) as [_ Eby].
    apply (alloc_result_skip cl A ids specs); [constructor; try done; [by trans (set_priv p3 q)|by rewrite Hc|by rewrite Hby]|].
    eapply admit_all_idle; [exact Hq|done|lia|exact Enth|done|]. rewrite (unused_at _ _ _ Ed). lia.
  - apply wp_bind. eapply wp_mono; [by eapply admit_alloc_spec|]. intros [] q3 l3 (Hl3 & Hq3 & Hst3 & Ec3 & Eb3 & Had3).
    apply wp_bind. apply wp_on_priv, wp_get.
    assert (set_priv (priv q3) q3 = q3) as -> by (by destruct q3).
    eapply wp_mono; [by apply Hnext|]. intros [] q' l [Hl' [Hok Hst Hc Hby Hf Ho]].
    split; [simpl app; by apply rx_quiet_app|]. constructor; [done|by trans q3|congruence|congruence| |]; intros Hb';
      destruct (admit_all_take A ids specs spec q q3 cl x Hq E0 Hle Enth Hx) as [H1 H2];
      rewrite ?(unused_at _ _ _ Ed); try lia; try (by apply Had3).
    + intros k'. rewrite H1. by apply Hf.
    + by rewrite Ho, H2.
Qed.

Lemma handle_alloc_spec cl A now ids tslots n q : ep_ok B cl A q → 0 ≤ n →
  Forall (λ d, 0 ≤ d < 256) ids → Forall (λ b, 0 ≤ b < 256) tslots → n * alloc_bytes ≤ Z.of_nat (length tslots) →
  wp (handle_alloc B csum_replace2 emu_scheme proc_err sock_err now ids (Z.of_nat (length ids)) tslots n)
    (λ _ q' l, rx_quiet l ∧ alloc_result cl A ids (take (Z.to_nat n) tslots) q q') q.
Proof.
  intros Hq Hn Hids Hb Hlen. unfold handle_alloc. apply wp_bind, wp_on_priv.
  eapply wp_mono; [apply (own_trigger B cl now), Hq|]. intros [] p l (Hp & Hl & Hs & Ec).
  eapply wp_mono; [apply (alloc_loop_spec cl A ids tslots n); [by eapply ep_own_step|lia..|done|done|done]|].
  intros [] q' l' [Hl' [Hok Hst Hc Hby Hf Ho]]. split; [by apply rx_quiet_app; split; [apply rx_quiet_of|]|].
  constructor; try done; [by trans (set_priv p q)|by rewrite Hc|]. rewrite Hby. apply Hs.
Qed.
End alloc.
