(* ===== verification/EndpointReset.v ===== *)
(** * Resets and reports of the endpoint

    After a reset both sides count from zero: the demand of a flow becomes what it
    has not used, everything that was requested is forgotten, and the timeslots that
    wait get new ids. Flows without unused demand are left as they are. *)

From S2P Require Import Prelude Platform Window WindowFacts WindowSpec WindowMarks Protocol ConnFacts ConnSpec ConnAck ConnSend ConnInwnd ConnSafe ConnLog.
From S2P Require Import Codec Pacer Lists Tsq TsqFacts Endpoint EndpointFacts EndpointOwn EndpointSend EndpointRequest EndpointState EndpointAlloc.

(** ** The effect of a reset on a flow *)

(** The counters of a flow; what is acknowledged lies between 0 and what is
    requested. *)
Record counters := { c_demand : Z; c_requested : Z; c_alloc : Z; c_used : Z }.
Definition counters_of (d : fp_dst) : counters := {| c_demand := demand_tslots d; c_requested := requested_tslots d;
  c_alloc := alloc_tslots d; c_used := used_tslots d |}.
Definition rebase (c : counters) : counters :=
  if c_demand c =? c_used c then c
  else {| c_demand := c_demand c - c_used c; c_requested := 0; c_alloc := 0; c_used := 0 |}.

Lemma rebase_idem c : rebase (rebase c) = rebase c.
Proof.
  unfold rebase. destruct (c_demand c =? c_used c) eqn:E; simpl; [by rewrite E|].
  destruct (_ =? 0); [done|]. by rewrite Z.sub_0_r.
Qed.

Lemma own_step_counters q q' k : own_step q q' → counters_of (dst_of q' k) = counters_of (dst_of q k).
Proof.
  intros Hs. pose proof (os_totals _ _ Hs (Z.to_nat k)) as Ht. unfold dst_of, arr_get. rewrite !list_lookup_total_alt.
  destruct (dsts q' !! Z.to_nat k), (dsts q !! Z.to_nat k); simpl in *; try done. unfold totals in Ht.
  injection Ht as E1 E2 E3 E4. unfold counters_of. by rewrite E1, E2, E3, E4.
Qed.

Lemma rebase_unused c : c_demand (rebase c) - c_used (rebase c) = c_demand c - c_used c.
Proof. unfold rebase. destruct (_ =? _); simpl; lia. Qed.

(** [q'] is [q] after the flows [l] were reset. *)
Record flows_reset (l : list Z) (q q' : ep_state) : Prop := {
  fr_counters : ∀ k, 0 ≤ k < 256 → counters_of (dst_of (priv q') k) =
    if decide (k ∈ l) then rebase (counters_of (dst_of (priv q) k)) else counters_of (dst_of (priv q) k);
  fr_reqs : reqs (priv q) `prefix_of` reqs (priv q');
  fr_waits : ∀ k, k ∈ l → 0 ≤ k < 256 → unused (priv q) k ≠ 0 → k ∈ reqs (priv q');
  fr_flows : ∀ k, flow_of q' k = flow_of q k ∨ (flow_of q' k = flow_renumber (flow_of q k) ∧ k ∈ l);
  fr_ids : ∀ k, k ∈ l → 0 ≤ k < 256 → unused (priv q) k ≠ 0 → flow_of q' k = flow_renumber (flow_of q k);
}.

Lemma renumber_idem f : flow_renumber (flow_renumber f) = flow_renumber f.
Proof.
  unfold flow_renumber. simpl. rewrite length_imap. f_equal. apply list_eq. intros i. rewrite !list_lookup_imap.
  by destruct (skb_qs f !! i).
Qed.

Lemma renumber_packets f : (skb_qs (flow_renumber f) ≫= skbs) = (skb_qs f ≫= skbs).
Proof.
  assert (∀ (l : list timeslot_skb_q) (g : nat → Z), (imap (λ i s, {| skbs := skbs s; tslot_id := g i |}) l ≫= skbs) = (l ≫= skbs)) as Hl.
  { intros l. induction l as [|s l IH]; intros g; [done|]. simpl. f_equal. apply (IH (λ i, g (S i))). }
  apply (Hl (skb_qs f) (λ i, u16 (Z.of_nat i))).
Qed.

Lemma renumber_length f : length (skb_qs (flow_renumber f)) = length (skb_qs f).
Proof. apply length_imap. Qed.

Lemma dst_num_data d l h t n : dst_num d → dst_num (set_areq_data l h t n d).
Proof. by intros []. Qed.

(** A flow with unused demand, after the reset. *)
Lemma dst_num_rebased d : dst_num d → dst_num (set_used_tslots 0 (set_requested_tslots 0 (set_acked_tslots 0 (set_alloc_tslots 0
  (set_demand_tslots (u64 (demand_tslots d - used_tslots d)) d))))).
Proof. intros []. rewrite u64_small by lia. constructor; simpl; change FASTPASS_REQUEST_WINDOW_SIZE with 8192; lia. Qed.

Section reset.
Context (B : build) `{H : HashOps}.
Implicit Types q : ep_state.

Definition rebased_dst (d : fp_dst) : fp_dst :=
  let d1 := set_used_tslots 0 (set_requested_tslots 0 (set_acked_tslots 0 (set_alloc_tslots 0
    (set_demand_tslots (u64 (demand_tslots d - used_tslots d)) d)))) in
  set_state FLOW_REQUEST_QUEUE (if EMULATION_ALGO B then reset_areq_data d1 else d1).

Lemma reset_section now k d : 0 ≤ k < 256 → lock d = true →
  sect B k d (upd_dst k (λ d, set_used_tslots 0 (set_requested_tslots 0 (set_acked_tslots 0 (set_alloc_tslots 0
        (set_demand_tslots (u64 (demand_tslots d - used_tslots d)) d)))));;
      when (EMULATION_ALGO B) (upd_dst k reset_areq_data);;
      dst ← read_dst k;
      modify (λ p, set_q_demand_tslots (atomic_add (demand_tslots dst) (q_demand_tslots p)) p);;
      unreq_dsts_enqueue_if_not_queued now k;;
      release_dst k) (λ _ d', d' = set_lock false (rebased_dst d)).
Proof using.
  intros Hk Hl. eapply (sect_bind B k Hk); [by apply (sect_upd B k _ _ (λ _ d', d' = set_used_tslots 0 (set_requested_tslots 0
    (set_acked_tslots 0 (set_alloc_tslots 0 (set_demand_tslots (u64 (demand_tslots d - used_tslots d)) d))))))|]. intros [] d1 E1.
  eapply (sect_bind B k Hk _ _ _ (λ _ d', d' = if EMULATION_ALGO B then reset_areq_data d1 else d1)).
  { destruct (EMULATION_ALGO B); simpl when; [by apply sect_upd|by apply sect_ret]. } intros [] d2 E2.
  eapply (sect_bind B k Hk _ _ _ (λ _ d', d' = d2)); [by apply sect_read|]. intros d3 d3' ->.
  eapply (sect_bind B k Hk _ _ _ (λ _ d', d' = d2)); [by apply sect_counter|]. intros [] d4 ->.
  eapply (sect_bind B k Hk _ _ _ (λ _ d', d' = set_state FLOW_REQUEST_QUEUE d2)); [by apply sect_enqueue|]. intros [] d4 ->.
  apply sect_release; [done|..]; subst; unfold rebased_dst; by destruct (EMULATION_ALGO B).
Qed.

Lemma rebased_ok d : dst_ok d → dst_ok (set_lock false (rebased_dst d)).
Proof using.
  intros Hd. apply dst_ok_lock. unfold rebased_dst. apply dst_ok_queued. destruct (EMULATION_ALGO B); [apply dst_num_data|];
    by apply dst_num_rebased, Hd.
Qed.

Lemma rebased_counters d : dst_ok d → demand_tslots d ≠ used_tslots d →
  counters_of (set_lock false (rebased_dst d)) = rebase (counters_of d).
Proof using.
  intros [[] _] Hne. unfold rebase. simpl. rewrite (proj2 (Z.eqb_neq _ _) Hne). unfold rebased_dst.
  rewrite u64_small by lia. by destruct (EMULATION_ALGO B).
Qed.

Definition no_pds (q : ep_state) : Prop := ∀ s, out_pd (conn (priv q)) s = None.

Record reset_post (cl : bool) (A : option Z) (q q' : ep_state) : Prop := {
  rp_ok : ep_ok B cl A q';
  rp_step : ep_step B q q';
  rp_conn : conn (priv q') = conn (priv q);
}.

Lemma reset_post_trans cl A q1 q2 q3 : reset_post cl A q1 q2 → reset_post cl A q2 q3 → reset_post cl A q1 q3.
Proof using. intros [] []. constructor; [done|by trans q2|congruence]. Qed.

(** Renumbering a flow. *)
Lemma ep_renumber cl A k q f q' : ep_ok B cl A q → dst_hash_tbl q !! k = Some f → stored k (flow_renumber f) q q' →
  ep_ok B cl A q' ∧ ep_step B q q' ∧ priv q' = priv q ∧ ∀ k', flow_of q' k' = if decide (k = k') then flow_renumber (flow_of q k) else flow_of q k'.
Proof using.
  intros Hq Ef Hs. pose proof (eo_tsq _ _ _ _ Hq) as Ht. destruct (tq_flows q Ht k f Ef) as [Hk Hf].
  assert (flow_of q k = f) as Efl by (unfold flow_of; by rewrite Ef).
  pose proof (stored_frame _ _ _ _ Hs) as (Ep & Epre & Edr & Een & Ehi & Erg & Elen & Erate & Eql & Elim).
  assert (∀ k', flow_of q' k' = if decide (k = k') then flow_renumber (flow_of q k) else flow_of q k') as Hfl.
  { intros k'. by rewrite (flow_of_stored k (flow_renumber f) q q' k' Hs), Efl. }
  assert (∀ k', (skb_qs (flow_of q' k') ≫= skbs) = (skb_qs (flow_of q k') ≫= skbs)) as Hpk.
  { intros k'. rewrite Hfl. case_decide; [subst k'|done]. apply renumber_packets. }
  split; [|split; [|done]].
  - constructor; [by eapply stored_ok, Hs; [..|apply flow_renumber_ok]|rewrite Ep; apply Hq| |].
    + intros k' Hk'. rewrite Ep, <- (eo_link _ _ _ _ Hq k' Hk'). unfold waiting. rewrite Hfl. case_decide; [subst k'|done].
      by rewrite renumber_length.
    + intros k'. unfold pure_flow. rewrite Hpk. apply Hq.
  - constructor; try done. intros _ k'. unfold inside. by rewrite Hpk, Epre.
Qed.

Lemma flows_reset_idle k q d p : 0 ≤ k < 256 → dsts (priv q) !! Z.to_nat k = Some d → demand_tslots d = used_tslots d →
  fstep k d (set_lock false d) (priv q) p → flows_reset [k] q (set_priv p q).
Proof using.
  intros Hk E Eu Hs. pose proof (dst_of_lookup _ _ _ E) as Edst.
  constructor; simpl.
  - intros k' Hk'. rewrite (dst_of_fstep k Hk d _ _ _ k' E Hs) by lia. destruct (decide (k = k')) as [<-|Hne].
    + rewrite Edst. rewrite decide_True by (by left). unfold rebase. simpl. by rewrite (proj2 (Z.eqb_eq _ _) Eu).
    + by rewrite decide_False by (by intros ->%list_elem_of_singleton).
  - rewrite (fs_reqs _ _ _ _ _ Hs). by rewrite decide_True.
  - intros k' ->%list_elem_of_singleton _ Hu. rewrite (unused_at _ _ _ E) in Hu. lia.
  - intros k'. by left.
  - intros k' ->%list_elem_of_singleton _ Hu. rewrite (unused_at _ _ _ E) in Hu. lia.
Qed.

Lemma flows_reset_busy k q d p q' : 0 ≤ k < 256 → dsts (priv q) !! Z.to_nat k = Some d → dst_ok d → demand_tslots d ≠ used_tslots d →
  queue_ok (priv q) → fstep k d (set_lock false (rebased_dst d)) (priv q) p → priv q' = p →
  (∀ k', flow_of q' k' = if decide (k = k') then flow_renumber (flow_of q k) else flow_of q k') → flows_reset [k] q q'.
Proof using.
  intros Hk E Hd Hne Hqu Hs <- Hfl. pose proof (dst_of_lookup _ _ _ E) as Edst.
  constructor.
  - intros k' Hk'. rewrite (dst_of_fstep k Hk d _ _ _ k' E Hs) by lia. destruct (decide (k = k')) as [<-|Hn].
    + rewrite Edst. rewrite decide_True by (by left). by apply rebased_counters.
    + by rewrite decide_False by (by intros ->%list_elem_of_singleton).
  - rewrite (fs_reqs _ _ _ _ _ Hs). case_decide; [done|by apply prefix_app_r].
  - intros k' ->%list_elem_of_singleton _ _. rewrite (fs_reqs _ _ _ _ _ Hs). case_decide as Es; [|set_solver].
    destruct (qo_member _ Hqu _ _ E) as [_ Hin]. rewrite Z2Nat.id in Hin by lia. by apply Hin.
  - intros k'. rewrite Hfl. case_decide; [subst k'; right; split; [done|by left]|by left].
  - intros k' ->%list_elem_of_singleton _ _. by rewrite Hfl, decide_True.
Qed.

Lemma reset_flow_spec cl A now k q : ep_ok B cl A q → 0 ≤ k < 256 → no_pds q →
  wp (reset_flow B now k) (λ _ q' l, l = [] ∧ reset_post cl A q q' ∧ flows_reset [k] q q') q.
Proof using.
  intros Hq Hk Hno. unfold reset_flow.
  eapply (wp_locked B k Hk); [exact Hq|]. intros d p Hlk. pose proof Hlk as [Ed Hd Hl Hs Had].
  simpl used_tslots. simpl demand_tslots.
  destruct (Z.eqb_spec (demand_tslots d) (used_tslots d)) as [Eu|Eu].
  - eapply (wp_release B k Hk); [exact Hq|exact Hlk|]. intros p3 Hq3 Hs3. split; [done|].
    split; [constructor; [done|apply ep_step_priv|apply (fs_frame _ _ _ _ _ Hs3)]|]. by eapply flows_reset_idle.
  - apply wp_bind. eapply (wp_section B k Hk); [exact Had|by apply reset_section|].
    intros [] d3 p3 -> Hs3 _. change (set_priv p3 (set_priv p q)) with (set_priv p3 q) in *.
    set (d3 := set_lock false (rebased_dst (set_lock true d))) in *.
    assert (d3 = set_lock false (rebased_dst d)) as Ed3 by (unfold d3, rebased_dst; by destruct (EMULATION_ALGO B)).
    pose proof (rebased_counters d Hd Eu) as Ecn. rewrite <- Ed3 in Ecn.
    destruct (locked_end B k Hk cl A q d p d3 p3 Hq Hlk Hs3) as [Hq3 Hs13]; [rewrite Ed3; by apply rebased_ok|done|by right| |].
    { change (c_demand (counters_of d3) - c_used (counters_of d3) = c_demand (counters_of d) - c_used (counters_of d)).
      by rewrite Ecn, rebase_unused. }
    pose proof (do_used _ Hd) as Hu.
    assert (skb_qs (flow_of q k) ≠ []) as Hne.
    { apply waiting_slots. rewrite (eo_link _ _ _ _ Hq k Hk), (unused_at _ _ _ Ed). case_bool_decide; simpl; lia. }
    pose proof (flow_present q k Hne) as Ef.
    eapply wp_mono; [apply tsq_reset_ids_spec; [apply Hq3|exact Ef]|]. intros [] q4 l4 [-> Hst].
    destruct (ep_renumber cl A k (set_priv p3 q) _ q4 Hq3 Ef Hst) as (Hq4 & Hs4 & Ep4 & Hfl).
    pose proof (fr_conn _ _ (fs_frame _ _ _ _ _ Hs13)) as Ec3.
    split; [done|]. split; [constructor; [done|by trans (set_priv p3 q)|by rewrite Ep4, <- Ec3]|].
    eapply (flows_reset_busy k q d p3); [done|done|done|done|apply Hq|by rewrite <- Ed3|done|exact Hfl].
Qed.

(** ** All the flows *)
Lemma unused_counters (p : fp_sched_data) k : unused p k = c_demand (counters_of (dst_of p k)) - c_used (counters_of (dst_of p k)).
Proof using. done. Qed.

Lemma flows_reset_unused l q q' k : flows_reset l q q' → 0 ≤ k < 256 → unused (priv q') k = unused (priv q) k.
Proof using.
  intros Hr Hk. rewrite !unused_counters, (fr_counters _ _ _ Hr k Hk). case_decide; [apply rebase_unused|done].
Qed.

Lemma flows_reset_trans l1 l2 q1 q2 q3 : flows_reset l1 q1 q2 → flows_reset l2 q2 q3 → flows_reset (l1 ++ l2) q1 q3.
Proof using.
  intros H1 H2. constructor.
  - intros k Hk. rewrite (fr_counters _ _ _ H2 k Hk), (fr_counters _ _ _ H1 k Hk).
    repeat case_decide; rewrite ?rebase_idem; try done; set_solver.
  - etrans; [apply H1|apply H2].
  - intros k [Hin|Hin]%elem_of_app Hk Hu.
    + eapply elem_of_prefix; [by apply (fr_waits _ _ _ H1)|apply H2].
    + apply (fr_waits _ _ _ H2); [done|done|]. by rewrite (flows_reset_unused l1 q1).
  - intros k. destruct (fr_flows _ _ _ H2 k) as [-> | [-> Hin]], (fr_flows _ _ _ H1 k) as [-> | [-> Hin']]; try (by left);
      right; rewrite ?renumber_idem; (split; [done|set_solver]).
  - intros k [Hin|Hin]%elem_of_app Hk Hu.
    + pose proof (fr_ids _ _ _ H1 k Hin Hk Hu) as E. destruct (fr_flows _ _ _ H2 k) as [-> | [-> _]]; rewrite E; [done|by apply renumber_idem].
    + assert (unused (priv q2) k ≠ 0) as Hu2 by (by rewrite (flows_reset_unused l1 q1)).
      rewrite (fr_ids _ _ _ H2 k Hin Hk Hu2). destruct (fr_flows _ _ _ H1 k) as [-> | [-> _]]; [done|apply renumber_idem].
Qed.

Lemma flows_reset_nil q : flows_reset [] q q.
Proof using.
  constructor; try done; try (by intros k ?%not_elem_of_nil). intros k. by left.
Qed.

Definition visited (k : nat) (idx base : Z) : list Z := (λ j, Z.land (u32 (j + base)) (MAX_FLOWS - 1)) <$> seqZ idx (Z.of_nat k).

Lemma reset_flows_spec cl A now base k : ∀ idx q, ep_ok B cl A q → no_pds q →
  wp (reset_flows B k now idx base) (λ _ q' l, l = [] ∧ reset_post cl A q q' ∧ flows_reset (visited k idx base) q q') q.
Proof using.
  induction k as [|k IH]; intros idx q Hq Hno; cbn [reset_flows].
  { apply wp_ret. split; [done|]. split; [by constructor|apply flows_reset_nil]. }
  unfold visited. rewrite seqZ_cons, fmap_cons by lia. replace (Z.succ idx) with (idx + 1) by lia.
  replace (Z.pred (Z.of_nat (S k))) with (Z.of_nat k) by lia. fold (visited k (idx + 1) base).
  set (x := Z.land (u32 (idx + base)) (MAX_FLOWS - 1)).
  assert (0 ≤ x < 256) as Hx.
  { unfold x. change (MAX_FLOWS - 1) with (Z.ones 8). rewrite Z.land_ones by lia. change 256 with (2 ^ 8). by apply Z.mod_pos_bound. }
  apply wp_bind. eapply wp_mono; [by apply reset_flow_spec|]. intros [] q1 l1 (-> & Hp1 & Hf1).
  eapply wp_mono; [apply (IH (idx + 1) q1); [apply Hp1|]|].
  { unfold no_pds. by rewrite (rp_conn _ _ _ _ Hp1). }
  intros [] q2 l2 (-> & Hp2 & Hf2). split; [done|]. split; [by eapply reset_post_trans|]. by apply (flows_reset_trans [x] _ q q1 q2).
Qed.

Lemma visited_all base k : 0 ≤ k < 256 → k ∈ visited 256 0 base.
Proof using.
  intros Hk. unfold visited. apply list_elem_of_fmap. exists ((k - base) mod 256). split.
  - change (MAX_FLOWS - 1) with (Z.ones 8). rewrite Z.land_ones by lia. mlia.
  - apply elem_of_seqZ. pose proof (Z.mod_pos_bound (k - base) 256). lia.
Qed.

Lemma handle_reset_spec cl A now q : ep_ok B cl A q → no_pds q →
  wp (handle_reset B now) (λ _ q' l, l = [] ∧ reset_post cl A q q' ∧ ∃ fs, flows_reset fs q q' ∧ ∀ k, 0 ≤ k < 256 → k ∈ fs) q.
Proof using.
  intros Hq Hno. unfold handle_reset. cbv zeta. apply wp_bind, wp_on_priv.
  set (f := λ p, set_q_used_tslots 0 _).
  assert (own B cl (modify (C:=kernel_call) f)) as Hf by (by apply own_counter).
  destruct (Hf (priv q) (eo_fp _ _ _ _ Hq)) as (Hp & _ & Hs & Ec). apply wp_modify.
  eapply wp_mono; [apply (reset_flows_spec cl A); [by eapply ep_own_step|]|].
  { intros s. exact (Hno s). }
  intros [] q' l (-> & [Hq' Hst Ec'] & [Hc Hr Hw Hfl Hid]). split; [done|].
  split; [constructor; [done|by trans (set_priv (f (priv q)) q)|done]|].
  exists (visited 256 0 (Z.land (jhash_1word (u32 now) 0) (MAX_FLOWS - 1))). split; [by constructor|]. intros k. apply visited_all.
Qed.
End reset.
