(* ===== verification/EndpointRecv.v ===== *)
(** * Packets received by the endpoint

    Reports of allocations find those that were lost, or that the arbiter counts
    differently. [ctrl_rcv_handler] keeps the invariant, whatever the packet
    acknowledges, allocates and reports. *)

From S2P Require Import Prelude Platform Window WindowFacts WindowSpec WindowMarks Protocol ConnFacts ConnSpec ConnAck ConnSend ConnInwnd ConnSafe ConnLog Codec Pacer Lists.
From S2P Require Import Tsq TsqFacts Endpoint EndpointFacts EndpointOwn EndpointSend EndpointRequest EndpointState EndpointAlloc EndpointReset.

(** ** Reports *)

(** How many more allocations the arbiter counts. *)
Definition report_excess (alloc count_low : Z) : Z := u16 (count_low - u64 (alloc - 2 ^ 15)) - 2 ^ 15.

Lemma expand_count_spec alloc low : 0 ≤ alloc ≤ 2 ^ 62 + 2 →
  s64 (expand_count alloc low - alloc) = report_excess alloc low ∧
  (0 < report_excess alloc low → expand_count alloc low = alloc + report_excess alloc low ∧ report_excess alloc low < 2 ^ 15).
Proof.
  intros Ha. unfold expand_count, report_excess. pose proof (u16_range (low - u64 (alloc - 2 ^ 15))) as Hr.
  set (r := u16 _) in *. split; [mlia|]. intros Hr'. split; [|lia]. mlia.
Qed.

(** A report that the arbiter allocated [n] timeslots more. *)
Definition lost (n : Z) (c : counters) : counters := {| c_demand := c_demand c + n; c_requested := c_requested c;
  c_alloc := c_alloc c + n; c_used := c_used c + n |}.

Section rx.
Context (B : build) `{H : HashOps}.
Implicit Types q : ep_state.

Definition same_counters (k : Z) (q q' : ep_state) : Prop :=
  ∀ k', 0 ≤ k' < 256 → k' ≠ k → counters_of (dst_of (priv q') k') = counters_of (dst_of (priv q) k').

(** The outcomes of a report for flow [k]. *)
Definition report_outcome (now_real k low : Z) (more : bool) (q q' : ep_state) : Prop :=
  let c := counters_of (dst_of (priv q) k) in
  let n := report_excess (c_alloc c) low in
  if (n <=? 0) || (c_alloc c + n <=? c_requested c) then
    more = true ∧ same_counters k q q' ∧
    counters_of (dst_of (priv q') k) = if (n <=? 0) || EMULATION_ALGO B then c else lost n c
  else more = false ∧ (∃ fs, flows_reset fs q q' ∧ ∀ k, 0 ≤ k < 256 → k ∈ fs) ∧ is_reset B now_real false (conn (priv q')).

Record rx_post (A : option Z) (q q' : ep_state) : Prop := {
  xp_ok : ep_ok B false A q';
  xp_step : ep_step B q q';
  xp_ops : ops (conn (priv q')) = ops (conn (priv q));
}.

Lemma dst_num_lost d n : dst_num d → 0 ≤ n → alloc_tslots d + n ≤ requested_tslots d →
  dst_num (set_demand_tslots (u64 (demand_tslots d + n)) (set_used_tslots (u64 (used_tslots d + n)) (set_alloc_tslots (u64 (alloc_tslots d + n)) d))).
Proof using. intros [] Hn Hr. rewrite !u64_small by lia. constructor; simpl; lia. Qed.

(** The section that counts the lost allocations as used, and demands as many
    again. *)
Lemma lost_section now k d n : 0 ≤ k < 256 → lock d = true →
  sect B k d (
     (if EMULATION_ALGO B then mret tt
      else
        upd_dst k (λ d, set_alloc_tslots (u64 (alloc_tslots d + n)) d);;
        flow_inc_used k n;;
        flow_inc_demand now k n;;
        modify (λ p, set_q_alloc_tslots (atomic_add n (q_alloc_tslots p)) p));;
     release_dst k)
   (λ _ d', d' = set_lock false (if EMULATION_ALGO B then d else set_state FLOW_REQUEST_QUEUE
     (set_demand_tslots (u64 (demand_tslots d + n)) (set_used_tslots (u64 (used_tslots d + n)) (set_alloc_tslots (u64 (alloc_tslots d + n)) d))))).
Proof using.
  intros Hk Hl. set (d2 := if EMULATION_ALGO B then d else _).
  eapply (sect_bind B k Hk _ _ _ (λ _ d', d' = d2)); [|intros [] d1 ->; apply sect_release; [done| |done]; unfold d2; by destruct (EMULATION_ALGO B)].
  unfold d2. destruct (EMULATION_ALGO B); [by apply sect_ret|].
  eapply (sect_bind B k Hk); [by apply (sect_upd B k _ _ (λ _ d', d' = set_alloc_tslots (u64 (alloc_tslots d + n)) d))|]. intros [] d3 E3.
  eapply (sect_bind B k Hk _ _ _ (λ _ d', d' = set_used_tslots (u64 (used_tslots d3 + n)) d3)); [by apply sect_inc_used|]. intros [] d4 E4.
  eapply (sect_bind B k Hk); [by apply (sect_inc_demand B k Hk d4 now n (λ _ d', d' = set_state FLOW_REQUEST_QUEUE (set_demand_tslots (u64 (demand_tslots d4 + n)) d4)))|].
  intros [] d5 ->. apply sect_counter; [done|]. by subst.
Qed.

(** A reset of the connection that the endpoint decides on. *)
Lemma force_reset_spec now now_real A q : ep_ok B false A q →
  wp (on_priv (lock_conn;; on_conn B now (fpproto_force_reset B now_real);; unlock_conn))
    (λ _ q' l, rx_quiet l ∧ ep_ok B false A q' ∧ (∃ p, q' = set_priv p q ∧ own_step (priv q) p) ∧
      is_reset B now_real false (conn (priv q')) ∧ ops (conn (priv q')) = ops (conn (priv q)) ∧ no_pds q') q.
Proof using.
  intros Hq. pose proof (eo_fp _ _ _ _ Hq) as Hf. destruct (fp_ok_lock B false true _ Hf) as [Hf1 Hs1].
  set (p1 := set_conn_lock true (priv q)) in *.
  apply wp_on_priv, wp_bind. eapply wp_lock_conn; [exact Hf|]. apply wp_bind.
  eapply wp_mono.
  { apply (on_conn_header B true now _ p1 (λ _ c, is_reset B now_real false c ∧ ops c = ops (conn p1))); [done|apply header_force_reset|].
    eapply wp_mono; [apply wp_and; [by apply safe_force_reset, Hf1|]|].
    - unfold fpproto_force_reset. apply wp_bind, wp_stat_inc.
      eapply wp_mono; [apply (do_proto_reset_spec B now_real false)|intros a c l Hr; exact Hr].
      pose proof (cw_out _ (ok_wf _ (fo_conn _ _ _ Hf1))) as Ho. by apply (out_wf_fields (conn p1)).
    - intros a c l [(? & ? & ? & _) (_ & Hr & [Ho _] & _)]. by split_and!. }
  intros [] p2 l2 (Hf2 & Hl2 & Hs2 & Hr2 & Eo2). eapply (wp_unlock_conn B); [done|]. simpl app. rewrite app_nil_r.
  destruct (fp_ok_lock B true false p2 Hf2) as [Hf3 Hs3].
  assert (own_step (priv q) (set_conn_lock false p2)) as Hs by (trans p2; [by trans p1|done]).
  split; [by apply rx_quiet_of|]. split; [by eapply ep_own_step|]. split; [by eexists|]. split; [done|]. split; [done|].
  intros s. by apply out_pd_empty, Hr2.
Qed.

(** A state in which only the bookkeeping differs. *)
Lemma flows_reset_pre l q q1 q' : (∀ k, 0 ≤ k < 256 → counters_of (dst_of (priv q1) k) = counters_of (dst_of (priv q) k)) →
  reqs (priv q) `prefix_of` reqs (priv q1) → (∀ k, flow_of q1 k = flow_of q k) → flows_reset l q1 q' → flows_reset l q q'.
Proof using.
  intros Hc Hr Hf [Hc' Hr' Hw Hfl Hid].
  assert (∀ k, 0 ≤ k < 256 → unused (priv q1) k = unused (priv q) k) as Hu by (intros k Hk; by rewrite !unused_counters, Hc).
  constructor.
  - intros k Hk. by rewrite Hc', Hc.
  - by trans (reqs (priv q1)).
  - intros k Hin Hk. rewrite <- Hu by done. by apply Hw.
  - intros k. rewrite <- Hf. apply Hfl.
  - intros k Hin Hk. rewrite <- Hu, <- Hf by done. by apply Hid.
Qed.

(** The destination's section changed nothing that the arbiter counts. *)
Lemma fstep_counters k d d' q p : 0 ≤ k < 256 → dsts (priv q) !! Z.to_nat k = Some d → fstep k d d' (priv q) p →
  same_counters k q (set_priv p q) ∧ dst_of p k = d' ∧ reqs (priv q) `prefix_of` reqs p.
Proof using.
  intros Hk Ed Hs. split; [|split].
  - intros k' Hk' Hne. simpl. by rewrite (dst_of_fstep k Hk d _ _ _ k' Ed Hs), decide_False by (done || lia).
  - by rewrite (dst_of_fstep k Hk d _ _ _ k Ed Hs), decide_True by (done || lia).
  - rewrite (fs_reqs _ _ _ _ _ Hs). case_decide; [done|by apply prefix_app_r].
Qed.

Lemma rx_post_fstep A k d d' q p : ep_ok B false A (set_priv p q) → fstep k d d' (priv q) p → rx_post A q (set_priv p q).
Proof using. intros Hq Hs. constructor; [done|apply ep_step_priv|]. simpl. by rewrite (fr_conn _ _ (fs_frame _ _ _ _ _ Hs)). Qed.

(** The reset after a report that cannot be true. *)
Lemma report_reset now now_real A k d q p : ep_ok B false A q → 0 ≤ k < 256 → locked B k q d p →
  wp (on_priv (release_dst k);; on_priv (lock_conn;; on_conn B now (fpproto_force_reset B now_real);; unlock_conn);; handle_reset B now;; mret false)
    (λ more q' l, rx_quiet l ∧ rx_post A q q' ∧ more = false ∧ (∃ fs, flows_reset fs q q' ∧ ∀ k, 0 ≤ k < 256 → k ∈ fs) ∧
      is_reset B now_real false (conn (priv q'))) (set_priv p q).
Proof using.
  intros Hq Hk Hlk. apply wp_bind. eapply (wp_release B k Hk); [exact Hq|exact Hlk|]. intros p3 Hq3 Hs3.
  destruct (fstep_counters k d _ q p3 Hk (lk_dst _ _ _ _ _ Hlk) Hs3) as (Hc3 & Ed3 & Hr3).
  apply wp_bind. eapply wp_mono; [by apply force_reset_spec|].
  intros [] q4 l4 (Hl4 & Hq4 & (p4 & -> & Hs4) & Hr4 & Eo4 & Hno4). change (set_priv p4 (set_priv p3 q)) with (set_priv p4 q) in *.
  apply wp_bind. eapply wp_mono; [by apply handle_reset_spec|]. intros [] q5 l5 (-> & [Hq5 Hst5 Ec5] & fs & Hfs & Hall).
  apply wp_ret. split; [by rewrite app_nil_r|]. pose proof (fr_conn _ _ (fs_frame _ _ _ _ _ Hs3)) as Ec3.
  split; [constructor; [done|by trans (set_priv p4 q)|rewrite Ec5, Eo4; simpl; by rewrite Ec3]|]. split; [done|]. split; [|by rewrite Ec5].
  exists fs. split; [|done]. eapply (flows_reset_pre fs q (set_priv p4 q)); [..|exact Hfs]; try done.
  - intros k' Hk'. rewrite (own_step_counters p3 p4) by done. destruct (decide (k' = k)) as [->|Hne]; [|by apply Hc3].
    rewrite Ed3. by rewrite (dst_of_lookup _ _ _ (lk_dst _ _ _ _ _ Hlk)).
  - etrans; [exact Hr3|]. apply Hs4.
Qed.

Lemma handle_report_spec now now_real A k low q : ep_ok B false A q → 0 ≤ k < 256 →
  wp (handle_report B now now_real k low) (λ more q' l, rx_quiet l ∧ rx_post A q q' ∧ report_outcome now_real k low more q q') q.
Proof using.
  intros Hq Hk. unfold handle_report. eapply (wp_locked B k Hk); [exact Hq|]. intros d p Hlk. pose proof Hlk as [Ed Hd Hl Hs Had].
  pose proof (dst_of_lookup _ _ _ Ed) as Edst. cbv zeta. simpl alloc_tslots. simpl requested_tslots.
  pose proof (do_alloc _ Hd) as Hal. pose proof (do_used _ Hd) as Hus. pose proof (do_requested _ Hd) as Hrq.
  pose proof (do_bound _ Hd) as Hbd. pose proof (do_acked _ Hd) as Hack.
  destruct (expand_count_spec (alloc_tslots d) low) as [Ex Ecnt]; [lia|]. rewrite Ex.
  unfold report_outcome. rewrite Edst. simpl c_alloc. simpl c_requested. set (n := report_excess (alloc_tslots d) low) in *.
  destruct (Z.gtb_spec n 0) as [Hn|Hn].
  2: { rewrite (proj2 (Z.leb_le n 0)) by lia. simpl orb. cbv iota. apply wp_bind. eapply (wp_release B k Hk); [exact Hq|exact Hlk|].
    intros p3 Hq3 Hs3. destruct (fstep_counters k d _ q p3 Hk Ed Hs3) as (Hc3 & Ed3 & _). apply wp_ret. split; [auto with flex|].
    split; [by eapply rx_post_fstep|]. split; [done|]. split; [done|]. simpl. by rewrite Ed3. }
  destruct (Ecnt Hn) as [-> Hn15]. rewrite (proj2 (Z.leb_gt n 0)) by lia. simpl orb.
  assert (s64 (alloc_tslots d + n - requested_tslots d) = alloc_tslots d + n - requested_tslots d) as -> by mlia.
  destruct (Z.gtb_spec (alloc_tslots d + n - requested_tslots d) 0) as [Hgt|Hle].
  - rewrite (proj2 (Z.leb_gt _ _)) by lia.
    exact (report_reset now now_real A k d q p Hq Hk Hlk).
  - rewrite (proj2 (Z.leb_le _ _)) by lia. assert (u64 (alloc_tslots d + n - alloc_tslots d) = n) as -> by mlia.
    apply wp_bind. eapply (wp_section B k Hk); [exact Had|by apply lost_section|].
    intros [] d3 p3 Ed3 Hs3 _. change (set_priv p3 (set_priv p q)) with (set_priv p3 q) in *.
    assert (dst_ok d3 ∧ lock d3 = false ∧ requested_tslots d3 = requested_tslots d ∧
      counters_of d3 = if EMULATION_ALGO B then counters_of d else lost n (counters_of d)) as (Hd3 & Hl3 & Hr3 & Ec3).
    { subst d3. destruct (EMULATION_ALGO B); [split; [exact (dst_ok_lock _ false (dst_ok_lock _ true Hd))|split; [reflexivity|split; reflexivity]]|].
      split; [apply dst_ok_lock, dst_ok_queued, dst_num_lost; [by apply dst_num_lock, Hd|lia|simpl; lia]|]. split; [done|]. split; [done|].
      unfold counters_of, lost. simpl. by rewrite !u64_small by lia. }
    destruct (locked_end B k Hk false A q d p d3 p3 Hq Hlk Hs3 Hd3 Hl3) as [Hq3 Hs13]; [left; lia| |].
    { change (c_demand (counters_of d3) - c_used (counters_of d3) = c_demand (counters_of d) - c_used (counters_of d)).
      rewrite Ec3. destruct (EMULATION_ALGO B); simpl; lia. }
    destruct (fstep_counters k d _ q p3 Hk Ed Hs13) as (Hc3 & Edst3 & _).
    apply wp_ret. split; [auto with flex|]. split; [by eapply rx_post_fstep|]. split; [done|]. split; [done|]. simpl. by rewrite Edst3, Ec3.
Qed.
End rx.

(** ** The receive handler of the endpoint

    [ctrl_rcv_handler] on any packet whose allocations and reports name
    destinations of the network keeps the invariant of the endpoint: the calls of
    the protocol's receive procedures are run in order, and whatever they
    acknowledge was requested. *)
(** ** Payloads that name destinations of the network *)
Definition in_network (c : proto_call) : Prop :=
  match c with
  | CHandleAlloc _ ids _ tslots _ => Forall (λ d, 0 ≤ d < 256) ids ∧ Forall (λ b, 0 ≤ b < 256) tslots
  | CHandleAreq bytes n => ∀ i d, 0 ≤ i < n → ld16 bytes (4 * i) = Some d → 0 ≤ d < 256
  | _ => True
  end.

Section recv.
Context (B : build) `{H : HashOps} (csum_replace2 : Z → Z → Z → Z) (emu_scheme : string) (proc_err sock_err : Z).
Implicit Types q : ep_state.

Notation dispatch_ := (dispatch B csum_replace2 emu_scheme proc_err sock_err).

Lemma rx_post_trans A q1 q2 q3 : rx_post B A q1 q2 → rx_post B A q2 q3 → rx_post B A q1 q3.
Proof using. intros [] []. constructor; [done|by trans q2|congruence]. Qed.

Lemma report_loop_areq_spec now now_real A bytes n k : ∀ i q, ep_ok B false A q → 0 ≤ i → i + Z.of_nat k = n → 4 * n ≤ Z.of_nat (length bytes) →
  (∀ i d, 0 ≤ i < n → ld16 bytes (4 * i) = Some d → 0 ≤ d < 256) →
  wp (areq_loop B k now now_real bytes i) (λ _ q' l, rx_quiet l ∧ rx_post B A q q') q.
Proof using.
  induction k as [|k IH]; intros i q Hq Hi Hn Hlen Hnet; cbn [areq_loop].
  { apply wp_ret. split; [auto with flex|by constructor]. }
  destruct (ld16_some bytes (4 * i)) as [d Ed]; [lia..|]. destruct (ld16_some bytes (4 * i + 2)) as [low El]; [lia..|].
  apply wp_bind. eapply wp_deref; [exact Ed|]. apply wp_bind. eapply wp_deref; [exact El|].
  apply wp_bind. eapply wp_mono; [apply handle_report_spec; [exact Hq|by apply (Hnet i); [lia|]]|].
  intros more q1 l1 (Hl1 & Hp1 & _). destruct more.
  - eapply wp_mono; [apply (IH (i + 1) q1); [apply Hp1|lia..|done|done]|]. intros [] q2 l2 [Hl2 Hp2]. simpl app.
    split; [by apply rx_quiet_app|]. by eapply rx_post_trans.
  - apply wp_ret. simpl app. split; [by rewrite app_nil_r|done].
Qed.

Lemma handle_reports_spec now now_real A bytes n q : ep_ok B false A q → 0 ≤ n → 4 * n ≤ Z.of_nat (length bytes) →
  (∀ i d, 0 ≤ i < n → ld16 bytes (4 * i) = Some d → 0 ≤ d < 256) →
  wp (handle_areq B now now_real bytes n) (λ _ q' l, rx_quiet l ∧ rx_post B A q q') q.
Proof using.
  intros Hq Hn Hlen Hnet. unfold handle_areq. apply wp_bind, wp_on_priv.
  eapply wp_mono; [apply (own_trigger B false now), Hq|]. intros [] p l (Hp & Hl & Hs & Ec).
  eapply wp_mono; [apply (report_loop_areq_spec now now_real A bytes n); [by eapply ep_own_step|lia..|done|done]|].
  intros [] q' l' [Hl' Hp']. split; [by apply rx_quiet_app; split; [apply rx_quiet_of|]|].
  apply (rx_post_trans A q (set_priv p q)); [|done]. constructor; [by eapply ep_own_step|apply ep_step_priv|]. simpl. by rewrite Ec.
Qed.

(** ** The calls of the procedures on payloads *)
Definition payload_valid (c : proto_call) : Prop :=
  match c with
  | CHandleAlloc _ ids n_dst tslots n => Z.of_nat (length ids) = n_dst ∧ 0 ≤ n ∧ n * alloc_bytes B ≤ Z.of_nat (length tslots)
  | CHandleAreq bytes n => 0 ≤ n < 64 ∧ 4 * n ≤ Z.of_nat (length bytes)
  | _ => False
  end.

Lemma dispatch_payload now now_real A c q : ep_ok B false A q → payload_valid c → in_network c →
  wp (dispatch_ now now_real c) (λ _ q' l, rx_quiet l ∧ rx_post B A q q') q.
Proof.
  intros Hq Hv Hn. destruct c; simpl in Hv, Hn; try done; simpl dispatch.
  - destruct Hv as (<- & ? & ?), Hn as [? ?]. eapply wp_mono; [by apply handle_alloc_spec|].
    intros [] q' l [Hl [? ? Ec ? _ _]]. split; [done|]. constructor; [done|done|by rewrite Ec].
  - destruct Hv as [[? ?] ?]. by apply handle_reports_spec.
Qed.

Lemma dispatch_payloads now now_real A l : ∀ q, ep_ok B false A q →
  log_valid (λ c, payload_valid c ∧ in_network c) l →
  wp (dispatch_all (dispatch_ now now_real) l) (λ _ q' ev, rx_quiet ev ∧ rx_post B A q q') q.
Proof.
  induction l as [|[s|c] l IH]; intros q Hq Hl; simpl; [apply wp_ret; split; [auto with flex|by constructor]|by apply Forall_cons in Hl as [[] _]|].
  apply Forall_cons in Hl as [[Hv Hn] Hl]. apply wp_bind. eapply wp_mono; [by apply dispatch_payload|].
  intros [] q1 l1 [Hl1 Hp1]. eapply wp_mono; [apply (IH q1); [apply Hp1|done]|]. intros [] q2 l2 [Hl2 Hp2].
  split; [by apply rx_quiet_app|]. by eapply rx_post_trans.
Qed.

(** ** The calls of the procedures on headers *)
Record header_post (A : option Z) (q q' : ep_state) : Prop := {
  hp_ok : ep_ok B true A q';
  hp_step : ep_step B q q';
  hp_conn : conn (priv q') = conn (priv q);
}.

Lemma header_post_trans A q1 q2 q3 : header_post A q1 q2 → header_post A q2 q3 → header_post A q1 q3.
Proof using. intros [] []. constructor; [done|by trans q2|congruence]. Qed.

(** Calls on headers: acknowledgements of known packets, or a reset. *)
Definition header_valid (q : ep_state) (c : proto_call) : Prop := own_call_valid (priv q) c ∨ c = CHandleReset.

Lemma dispatch_header_own now now_real A c q : ep_ok B true A q → own_call_valid (priv q) c →
  wp (dispatch_ now now_real c) (λ _ q' l, rx_quiet l ∧ header_post A q q' ∧ own_step (priv q) (priv q')) q.
Proof.
  intros Hq Hv. assert (dispatch_ now now_real c = on_priv (dispatch_own B now c)) as -> by (by destruct c).
  apply wp_on_priv. eapply wp_mono; [apply (dispatch_own_ok B true now (priv q)); [apply Hq|done]|].
  intros [] p l (Hp & Hl & Hs & Ec). split; [by apply rx_quiet_of|]. split; [|done].
  constructor; [by eapply ep_own_step|apply ep_step_priv|done].
Qed.

(** After a reset nothing is acknowledged. *)
Lemma dispatch_headers now now_real A l : ∀ q, ep_ok B true A q → log_valid (header_valid q) l →
  (∀ l1 e l2, l = l1 ++ e :: l2 → is_reset_call e → Forall (λ e, ¬ is_ack_call e) l2) →
  (Exists is_reset_call l → no_pds q) →
  wp (dispatch_all (dispatch_ now now_real) l) (λ _ q' ev, rx_quiet ev ∧ header_post A q q') q.
Proof.
  induction l as [|[s|c] l IH]; intros q Hq Hl Ho Hr; simpl; [apply wp_ret; split; [auto with flex|by constructor]|by apply Forall_cons in Hl as [[] _]|].
  apply Forall_cons in Hl as [Hc Hl].
  assert (∀ q1, ep_ok B true A q1 → log_valid (header_valid q1) l → conn (priv q1) = conn (priv q) →
    wp (dispatch_all (dispatch_ now now_real) l) (λ _ q' ev, rx_quiet ev ∧ header_post A q1 q') q1) as Hnext.
  { intros q1 Hq1 Hl1 Ec1. apply IH; [done|done| |].
    - intros l1 e l2 -> He. by apply (Ho (EvCall c :: l1) e l2).
    - intros He s. rewrite Ec1. apply Hr. by right. }
  clear IH. apply wp_bind. destruct Hc as [Hc| ->].
  - eapply wp_mono; [by apply dispatch_header_own|]. intros [] q1 l1 (Hl1 & Hp1 & Hs1).
    eapply wp_mono; [apply (Hnext q1); [apply Hp1| |apply Hp1]|].
    + eapply Forall_impl; [exact Hl|]. intros [|k] Hk; [done|]. destruct Hk as [Hk|Hk]; [left|by right]. by eapply own_call_valid_own.
    + intros [] q2 l2 [Hl2 Hp2]. split; [by apply rx_quiet_app|by eapply header_post_trans].
  - assert (no_pds q) as Hno by (apply Hr; by left).
    eapply wp_mono; [apply (handle_reset_spec B true A now q Hq Hno)|]. intros [] q1 l1 (-> & [Hq1 Hst1 Ec1] & _).
    eapply wp_mono; [apply (Hnext q1 Hq1); [|done]|].
    + specialize (Ho [] (EvCall CHandleReset) l eq_refl eq_refl). unfold log_valid in *. rewrite !Forall_forall in *. intros e He.
      specialize (Ho e He). specialize (Hl e He). destruct e as [|k]; [done|]. destruct Hl as [Hk|Hk]; [|by right]. left.
      destruct k; simpl in *; done.
    + intros [] q2 l2 [Hl2 Hp2]. split; [done|]. eapply header_post_trans; [|exact Hp2]. by constructor.
Qed.

(** ** The receive handler *)

(** Whatever the packet makes the protocol hand over names destinations of the
    network. *)
Definition names_network (now_real addr : Z) (pkt : list Z) (q : ep_state) : Prop :=
  ∀ in_seq pkt' c l, fpproto_handle_rx_packet B now_real now_real addr pkt (conn (priv q)) = Some ((Some in_seq, pkt'), c, l) →
  ∀ c1 r c2 l2, fpproto_perform_rx_callbacks B pkt' c1 = Some (r, c2, l2) → Forall in_network (calls l2).

Lemma headers_valid q l : fp_ok B true (priv q) → log_from (conn (priv q)) l → logged (header_call (ops (conn (priv q))) true) l →
  log_valid (header_valid q) l.
Proof using.
  intros Hf Hl Ho. unfold log_valid, log_from, logged in *. rewrite !Forall_forall in *. intros e He.
  specialize (Hl e He). specialize (Ho e He). destruct e as [|k]; [done|]. rewrite (proj1 (fo_ops _ _ _ Hf)) in Ho.
  destruct k; simpl in *; try done; [by right| | |by left..]; left; destruct Hl as (s & pd' & -> & Hs);
    exists pd'; (split; [done|]; by eapply (fo_pds _ _ _ Hf)).
Qed.

Lemma payloads_valid cl (p : fp_sched_data) l : fp_ok B cl p → log_from (conn p) l → logged payload_call l →
  Forall in_network (calls l) → log_valid (λ c, payload_valid c ∧ in_network c) l.
Proof using.
  intros Hf Hl Ho Hn. unfold log_valid, log_from, logged, calls in *. rewrite !Forall_forall in *. intros e He.
  specialize (Hl e He). specialize (Ho e He). destruct e as [|k]; [done|].
  assert (in_network k) as Hk by (apply Hn, list_elem_of_omap; exists (EvCall k); done).
  destruct (fo_ops _ _ _ Hf) as [Eo Hb]. destruct k; simpl in *; try done. split; [|done]. rewrite Eo in Hl.
  destruct Hl as (_ & ? & ? & Hle). split; [done|]. split; [done|]. unfold alloc_bytes, fastpass_sch_proto_ops in *. simpl in *.
  destruct (EMULATION_ALGO B); nia.
Qed.

(** Running a procedure on the connection, before its calls. *)
Lemma wp_conn_run {A'} (m : P A') q (Φ : A' * list (event proto_call) → ep_state → list (event kernel_call) → Prop) :
  wp m (λ a c l, Φ (a, l) (set_priv (set_conn c (priv q)) q) []) (conn (priv q)) → wp (on_priv (conn_run m)) Φ q.
Proof using.
  intros Hm. apply wp_on_priv. unfold conn_run. apply wp_bind, wp_get.
  destruct (wp_inv _ _ _ Hm) as (a & c & l & Hrun & HΦ). apply wp_bind. eapply wp_deref; [exact Hrun|].
  apply wp_bind, wp_modify, wp_ret. exact HΦ.
Qed.

Lemma ep_conn cl A q c : ep_ok B cl A q → conn_ok c → evolves (conn (priv q)) c →
  ep_ok B cl A (set_priv (set_conn c (priv q)) q) ∧ own_step (priv q) (set_conn c (priv q)).
Proof using.
  intros Hq Hc [[Ho _] He]. destruct (fp_ok_conn B cl (priv q) c (eo_fp _ _ _ _ Hq) Hc Ho) as [Hf Hs].
  - intros s pd Hs%He. by eapply (fo_pds _ _ _ (eo_fp _ _ _ _ Hq)).
  - split; [by eapply ep_own_step|done].
Qed.

(** The first half: the header, under the lock of the connection. *)
Lemma rx_header now now_real addr pkt A q : ep_ok B true A q → names_network now_real addr pkt q →
  wp (on_conn_rx B csum_replace2 emu_scheme proc_err sock_err now now_real (fpproto_handle_rx_packet B now_real now_real addr pkt))
    (λ r q' l, rx_quiet l ∧ ep_ok B true A q' ∧ ep_step B q q' ∧ ∀ s, r.1 = Some s → 0 ≤ s < 2 ^ 64 ∧ 8 < Z.of_nat (length r.2) ∧
      ∀ c1 x c2 l2, fpproto_perform_rx_callbacks B r.2 c1 = Some (x, c2, l2) → Forall in_network (calls l2)) q.
Proof.
  intros Hq Hn. unfold on_conn_rx. apply wp_bind, wp_conn_run.
  pose proof (header_rx_packet B (ops (conn (priv q))) true now_real now_real addr pkt eq_refl (conn (priv q)) eq_refl) as Hlog.
  pose proof (eo_fp _ _ _ _ Hq) as Hf.
  destruct (wp_inv _ _ _ (safe_rx_packet B now_real now_real addr pkt _ (fo_conn _ _ _ Hf))) as ([o pkt'] & c & l & Hrun & [Hlen Hs] & Hc & Hl & He & Hor).
  eapply wp_run; [exact Hrun|]. rewrite Hrun in Hlog. destruct Hlog as [Hlog _]. destruct (ep_conn true A q c Hq Hc He) as [Hq1 Hs1].
  apply wp_bind. eapply wp_mono.
  { apply (dispatch_headers now now_real A l); [exact Hq1| |apply Hor|intros Hex s; by apply (or_empty _ _ Hor)].
    eapply Forall_impl; [by apply (headers_valid q)|]. intros [|k] Hk; [done|]. destruct Hk as [Hk|Hk]; [left|by right].
    by eapply own_call_valid_own. }
  intros [] q2 l2 (Hl2 & [Hq2 Hst2 Ec2]). apply wp_ret. simpl app. rewrite app_nil_r. split; [done|]. split; [done|].
  split; [by trans (set_priv (set_conn c (priv q)) q)|]. simpl. intros s ->. simpl in Hlen, Hs. destruct (Hs s eq_refl) as [Hr H8].
  split; [done|]. split; [by rewrite Hlen|]. intros c1 x c2 l' Hx. by eapply Hn.
Qed.

(** The second half: the payloads. *)
Lemma rx_payloads now now_real pkt A q : reads_areq_data B = false → ep_ok B false A q → 8 < Z.of_nat (length pkt) →
  (∀ c1 x c2 l2, fpproto_perform_rx_callbacks B pkt c1 = Some (x, c2, l2) → Forall in_network (calls l2)) →
  wp (on_conn_rx B csum_replace2 emu_scheme proc_err sock_err now now_real (fpproto_perform_rx_callbacks B pkt))
    (λ _ q' l, rx_quiet l ∧ rx_post B A q q') q.
Proof.
  intros Hb Hq Hlen Hn. unfold on_conn_rx. apply wp_bind, wp_conn_run.
  pose proof (payload_rx_callbacks B (ops (conn (priv q))) pkt (conn (priv q)) eq_refl) as Hlog.
  pose proof (eo_fp _ _ _ _ Hq) as Hf.
  assert (safe (fpproto_perform_rx_callbacks B pkt)) as Hsafe.
  { unfold fpproto_perform_rx_callbacks. apply safe_bug_on; [lia|]. by apply safe_rx_payloads; [|lia..]. }
  destruct (wp_inv _ _ _ (Hsafe _ (fo_conn _ _ _ Hf))) as (x & c & l & Hrun & Hc & Hl & He & _).
  eapply wp_run; [exact Hrun|]. rewrite Hrun in Hlog. destruct Hlog as [Hlog _]. destruct (ep_conn false A q c Hq Hc He) as [Hq1 Hs1].
  apply wp_bind. eapply wp_mono.
  { apply (dispatch_payloads now now_real A l); [exact Hq1|]. eapply payloads_valid; [exact Hf|done|done|by eapply Hn]. }
  intros [] q2 l2 (Hl2 & [Hq2 Hst2 Ec2]). apply wp_ret. simpl app. rewrite app_nil_r. split; [done|].
  constructor; [done|by trans (set_priv (set_conn c (priv q)) q)|]. rewrite Ec2. simpl. by destruct He as [[-> _] _].
Qed.

Lemma ctrl_rcv_spec now now_real addr pkt A q : reads_areq_data B = false → ep_ok B false A q →
  names_network now_real addr pkt q →
  wp (ctrl_rcv_handler B csum_replace2 emu_scheme proc_err sock_err now now_real addr pkt)
    (λ _ q' l, rx_quiet l ∧ ep_ok B false A q' ∧ ep_step B q q') q.
Proof.
  intros Hb Hq Hn. unfold ctrl_rcv_handler. pose proof (eo_fp _ _ _ _ Hq) as Hf.
  destruct (fp_ok_lock B false true _ Hf) as [Hf1 Hs1]. apply wp_bind, wp_on_priv. eapply wp_lock_conn; [exact Hf|].
  set (q1 := set_priv _ q). assert (ep_ok B true A q1) as Hq1 by (by eapply ep_own_step). apply wp_bind. apply wp_on_priv, wp_get.
  assert (set_priv (priv q1) q1 = q1) as -> by done. apply wp_bind.
  eapply (wp_mono _ (λ r q' l, rx_quiet l ∧ ep_ok B true A q' ∧ ep_step B q q' ∧ ∀ s, r.1 = Some s → 0 ≤ s < 2 ^ 64 ∧ 8 < Z.of_nat (length r.2) ∧
      ∀ c1 x c2 l2, fpproto_perform_rx_callbacks B r.2 c1 = Some (x, c2, l2) → Forall in_network (calls l2))).
  { destruct (is_destroyed (priv q1)); [by apply wp_ret; split; [auto with flex|]|].
    eapply wp_mono; [by apply rx_header|]. intros r q' l (? & ? & ? & ?). split; [done|]. split; [done|]. split; [by trans q1|done]. }
  intros [ret pkt'] q2 l2 (Hl2 & Hq2 & Hst2 & Hret). destruct (fp_ok_lock B true false _ (eo_fp _ _ _ _ Hq2)) as [Hf3 Hs3].
  apply wp_bind, wp_on_priv. eapply wp_unlock_conn; [apply Hq2|]. set (q3 := set_priv _ q2).
  assert (ep_ok B false A q3) as Hq3 by (by eapply ep_own_step). assert (ep_step B q q3) as Hst3 by (by trans q2).
  destruct ret as [s|]; [|apply wp_ret; simpl app; by rewrite app_nil_r].
  destruct (Hret s eq_refl) as (Hs & Hlen & Hnet). apply wp_bind. eapply wp_mono; [by apply rx_payloads|].
  intros ok q4 l4 (Hl4 & [Hq4 Hst4 _]). destruct ok.
  - apply wp_on_priv. eapply wp_mono; [apply (locked_header B now (fpproto_successful_rx s)); [apply Hq4|by apply safe_successful_rx|intros; apply header_rx_ok]|].
    intros [] p5 l5 (Hp5 & Hl5 & Hs5). simpl app. split; [apply rx_quiet_app; split; [done|]; apply rx_quiet_app; split; [done|by apply rx_quiet_of]|].
    split; [by eapply ep_own_step|]. trans q4; [by trans q3|apply ep_step_priv].
  - apply wp_ret. simpl app. rewrite app_nil_r. split; [by apply rx_quiet_app|]. split; [done|by trans q3].
Qed.
End recv.
