(* ===== verification/AllocReach.v ===== *)
(** * Allocations that reach the endpoint

    The composition of the arbiter's packet with the endpoint's receive handler:
    header, allocations and reports of a packet, in the order in which
    [ctrl_rcv_handler] handles them. *)

From S2P Require Import Prelude Platform Window WindowFacts WindowSpec WindowMarks Protocol ConnFacts ConnSpec ConnAck ConnSend ConnInwnd ConnSafe ConnLog.
From S2P Require Import Codec RoundTrip AllocTrip Pacer Lists Timer Comm CommInv CommFill.
From S2P Require Import Tsq TsqFacts Endpoint EndpointFacts EndpointOwn EndpointSend EndpointRequest EndpointState EndpointAlloc EndpointReset EndpointRecv.

(** ** The entries of a packet *)

(** Allocations to the destinations [ds], in order: each admits the oldest timeslot
    of its flow, unless none waits that was demanded. *)
Fixpoint admit_each (adding : option Z) (ds : list Z) (fl : Z → list timeslot_skb_q) : (Z → list timeslot_skb_q) * list sk_buff :=
  match ds with
  | [] => (fl, [])
  | k :: ds' =>
      match fl k with
      | s :: rest =>
          if bool_decide (adding = Some k ∧ rest = []) then admit_each adding ds' fl
          else
            let '(fl', out) := admit_each adding ds' (λ k', if decide (k = k') then rest else fl k') in
            (fl', skbs s ++ out)
      | [] => admit_each adding ds' fl
      end
  end.

Lemma admit_all_each A D pad (p : list pending_alloc) : Forall (.= 0) pad → ∀ specs fl, Forall2 (describes D) specs p →
  admit_all A D (specs ++ pad) fl = admit_each A (al_dst <$> p) fl.
Proof.
  intros Hpad. induction p as [|a p IH]; intros specs fl Hs.
  - apply Forall2_nil_inv_r in Hs as ->. simpl. induction Hpad as [|x pad -> _ IHp]; [done|exact IHp].
  - apply Forall2_cons_inv_r in Hs as (b & specs' & (Hb & [H1 Hk] & _) & Hs & ->). rewrite fmap_cons. simpl.
    rewrite (proj2 (Z.eqb_neq _ _)) by lia. pose proof (lookup_lt_Some _ _ _ Hk).
    rewrite Z.gtb_ltb, (proj2 (Z.ltb_ge _ _)) by lia. rewrite (nth_lookup_Some _ _ 0 _ Hk).
    destruct (fl (al_dst a)) as [|s rest]; [by apply IH|]. case_bool_decide; [by apply IH|]. by rewrite IH.
Qed.

(** The entries of a descriptor that carries [p]. *)
Lemma packs_entries Bs pd p : packs Bs pd p → pd_alloc_tslot pd ≤ Z.of_nat (length (pd_tslot_desc pd)) →
  ∃ specs pad, sent_specs pd = specs ++ pad ∧ Forall2 (describes (dsts_of p)) specs p ∧ Forall (.= 0) pad.
Proof.
  intros Hp Hlen. rewrite (pk_even _ _ _ Hp) in Hlen. set (desc := pd_tslot_desc pd) in *.
  assert (length p ≤ length desc)%nat as Hle by (zify_div; lia).
  assert (Forall2 (describes (dsts_of p)) (take (length p) desc) p) as Hf.
  { apply Forall2_same_length_lookup. split; [rewrite length_take; lia|]. intros j b a Hb Ha.
    destruct (pk_entries _ _ _ Hp j a Ha) as [(b' & Hb' & Hd) _]. rewrite lookup_take_lt in Hb by (by eapply lookup_lt_Some).
    fold desc in Hb'. by rewrite Hb in Hb'; injection Hb' as ->. }
  unfold sent_specs. rewrite (pk_even _ _ _ Hp). fold desc. destruct (Z.odd (Z.of_nat (length p))) eqn:Eo.
  - exists (take (length p) desc), [0]. split; [|split; [done|by constructor]].
    assert (Z.to_nat (2 * ((Z.of_nat (length p) + 1) / 2)) = S (length p)) as ->.
    { rewrite Zodd_mod in Eo. apply Zeq_bool_eq in Eo. zify_div; lia. }
    apply take_S_r, (pk_pad _ _ _ Hp Eo).
  - exists (take (length p) desc), []. rewrite app_nil_r. split; [|by split].
    rewrite Zodd_mod in Eo. apply Zeq_bool_neq in Eo. f_equal. zify_div; lia.
Qed.

(** The destinations that [handle_areq] reads. *)
Lemma sent_entries_at n : ∀ bytes l, areq_entries n bytes = Some l →
  (4 * n ≤ length bytes)%nat ∧ ∀ i d, (i < n)%nat → ld16 bytes (4 * Z.of_nat i) = Some d → d ∈ l.*1.
Proof.
  induction n as [|n IH]; intros bytes l; cbn [areq_entries]; [intros _; split; lia|].
  destruct (ld16 bytes 0) as [d0|] eqn:E0; [|done]. destruct (ld16 bytes 2) as [c0|] eqn:E2; [|done]. cbn [mbind option_bind].
  destruct (areq_entries n (drop 4 bytes)) as [l'|] eqn:E; [|done]. intros [= <-]. destruct (IH _ _ E) as [Hlen Hd].
  assert (4 ≤ length bytes)%nat as H4.
  { unfold ld16 in E2. destruct (ld8 bytes 2) as [x|]; [|done]. cbn [mbind option_bind] in E2. change (2 + 1) with 3 in E2.
    destruct (ld8 bytes 3) as [y|] eqn:E3; [|done]. unfold ld8 in E3. change (3 <? 0) with false in E3. cbv iota in E3.
    apply lookup_lt_Some in E3. lia. }
  rewrite length_drop in Hlen. split; [lia|]. intros i d Hi Ei. rewrite fmap_cons. destruct i as [|i].
  - change (4 * Z.of_nat 0) with 0 in Ei. rewrite E0 in Ei. injection Ei as ->. by left.
  - right. apply (Hd i); [lia|]. rewrite <- Ei. rewrite <- (take_drop 4 bytes) at 2.
    replace (4 * Z.of_nat (S i)) with (Z.of_nat (length (take 4 bytes)) + 4 * Z.of_nat i) by (rewrite length_take; lia).
    by rewrite ld16_app by lia.
Qed.

(** ** Reports leave the admitted packets alone *)
Section same_prequeue.
Context (B : build) `{H : HashOps}.

Definition same_prequeue {X} (m : Q X) : Prop := ∀ q a q' l, m q = Some (a, q', l) → prequeue q' = prequeue q.

Lemma sp_ret {X} (x : X) : same_prequeue (mret x).
Proof using. by intros q a q' l [= <- <- <-]. Qed.

Lemma sp_bind {X Y} (m : Q X) (k : X → Q Y) : same_prequeue m → (∀ x, same_prequeue (k x)) → same_prequeue (m ≫= k).
Proof using.
  intros Hm Hk q a q' l. unfold mbind, M_bind. destruct (m q) as [[[x q1] l1]|] eqn:E1; [|done].
  destruct (k x q1) as [[[y q2] l2]|] eqn:E2; [|done]. intros [= <- <- <-]. rewrite (Hk _ _ _ _ _ E2). by eapply Hm.
Qed.

Lemma sp_priv {X} (m : F X) : same_prequeue (on_priv m).
Proof using. intros q a q' l. unfold on_priv, zoom. destruct (m (priv q)) as [[[x p] l1]|]; [|done]. by intros [= <- <- <-]. Qed.

Lemma sp_deref {X} (o : option X) : same_prequeue (deref o).
Proof using. intros q a q' l. unfold deref. destruct o; [|done]. by intros [= <- <- <-]. Qed.

Lemma sp_reset_ids k : same_prequeue (tsq_reset_ids k).
Proof using.
  intros q a q' l. unfold tsq_reset_ids, lock_hash_tbl, unlock_hash_tbl, dst_lookup, put_dst. munfold. cbn.
  destruct (hash_tbl_lock q); cbn; [done|]. destruct (dst_hash_tbl q !! k); cbn; [|done]. by intros [= <- <- <-].
Qed.

Lemma sp_reset_flow now k : same_prequeue (reset_flow B now k).
Proof using.
  unfold reset_flow. apply sp_bind; [apply sp_priv|intros _]. apply sp_bind; [apply sp_priv|intros d].
  destruct (_ =? _); [apply sp_priv|]. apply sp_bind; [apply sp_priv|intros _]. apply sp_reset_ids.
Qed.

Lemma sp_handle_reset now : same_prequeue (handle_reset B now).
Proof using.
  assert (∀ n i base, same_prequeue (reset_flows B n now i base)) as Hl.
  { induction n as [|n IH]; intros i base; cbn [reset_flows]; [apply sp_ret|]. apply sp_bind; [apply sp_reset_flow|intros _; apply IH]. }
  unfold handle_reset. apply sp_bind; [apply sp_priv|intros _; apply Hl].
Qed.

Lemma sp_handle_report now now_real k c : same_prequeue (handle_report B now now_real k c).
Proof using.
  unfold handle_report. apply sp_bind; [apply sp_priv|intros _]. apply sp_bind; [apply sp_priv|intros d].
  destruct (_ >? 0); [destruct (_ >? 0)|]; repeat first [apply sp_priv|apply sp_ret|apply sp_handle_reset|apply sp_bind; [|intros _]].
Qed.

Lemma sp_handle_areq now now_real bytes n : same_prequeue (handle_areq B now now_real bytes n).
Proof using.
  unfold handle_areq. apply sp_bind; [apply sp_priv|intros _]. generalize (Z.to_nat n). intros k. generalize 0.
  induction k as [|k IH]; intros i; cbn [areq_loop]; [apply sp_ret|].
  apply sp_bind; [apply sp_deref|intros d]. apply sp_bind; [apply sp_deref|intros c].
  apply sp_bind; [apply sp_handle_report|intros []]; [apply IH|apply sp_ret].
Qed.
End same_prequeue.

(** ** The stages of [ctrl_rcv_handler] *)

(** The checksum of a packet that is sent to or received from [addr]. *)
Definition csum_from (Bs : build) `{H : HashOps} (pd : fpproto_pktdesc) (min_size addr : Z) : Z :=
  fastpass_checksum addr (packet Bs pd min_size 0) (pd_seqno pd) (pd_ack_seq pd).

Section reach.
Context (Bs B : build) `{H : HashOps} `{HH : !HashOk H} (csum_replace2 : Z → Z → Z → Z) (emu_scheme : string) (proc_err sock_err : Z).
Context (pd : fpproto_pktdesc) (min_size now now_real addr addr' : Z).
Hypothesis (Hpd : alloc_packet Bs pd min_size) (Hbuild : EMULATION_ALGO B = false).
Implicit Types q : ep_state.

Abbreviation csum_of := (csum_from Bs pd min_size).
Abbreviation on_rx := (on_conn_rx B csum_replace2 emu_scheme proc_err sock_err now now_real).
Abbreviation dispatched := (dispatch_all (dispatch B csum_replace2 emu_scheme proc_err sock_err now now_real)).

Lemma dispatch_acks A l : ∀ q, ep_ok B true A q → log_valid (own_call_valid (priv q)) l →
  wp (dispatched l) (λ _ q' ev, rx_quiet ev ∧ ep_ok B true A q' ∧ ∃ p, q' = set_priv p q) q.
Proof using.
  induction l as [|[s|c] l IH]; intros q Hq Hl; cbn [dispatch_all];
    [apply wp_ret; split; [auto with flex|]; split; [done|]; exists (priv q); by destruct q|by apply Forall_cons in Hl as [[] _]|].
  apply Forall_cons in Hl as [Hc Hl]. apply wp_bind.
  assert (dispatch B csum_replace2 emu_scheme proc_err sock_err now now_real c = on_priv (dispatch_own B now c)) as -> by (by destruct c).
  apply wp_on_priv. eapply wp_mono; [apply (dispatch_own_ok B true now (priv q)); [apply Hq|done]|].
  intros [] p l1 (Hp & Hl1 & Hs & Ec). eapply wp_mono; [apply (IH (set_priv p q)); [by eapply ep_own_step|]|].
  - eapply Forall_impl; [exact Hl|]. intros [|k] Hk; [done|]. by eapply own_call_valid_own.
  - intros [] q2 l2 (Hl2 & Hq2 & p2 & ->). split; [apply rx_quiet_app; split; [by apply rx_quiet_of|done]|]. split; [done|]. by exists p2.
Qed.

(** The packet is new to the connection and in its windows. *)
Record in_windows (c : fpproto_conn) : Prop := {
  iw_seq : 0 ≤ pd_seqno pd < 2 ^ 64 ∧ u64 (pd_seqno pd - (in_max_seqno c - 2 ^ 14)) < 2 ^ 16;
  iw_ack : 0 ≤ pd_ack_seq pd < 2 ^ 64 ∧ u64 (pd_ack_seq pd - (Window.head (outwnd c) - 2 ^ 16 + 1)) < 2 ^ 16;
  iw_new : at_most_once_may_accept c (pd_seqno pd) = 0;
}.

Lemma header_stage A q : ep_ok B true A q → in_windows (conn (priv q)) → csum_of addr' = csum_of addr →
  wp (on_rx (fpproto_handle_rx_packet B now_real now_real addr' (packet Bs pd min_size (csum_of addr))))
    (λ r q' l, rx_quiet l ∧ ep_ok B true A q' ∧ (∃ p, q' = set_priv p q) ∧ r = (Some (pd_seqno pd), packet Bs pd min_size 0)) q.
Proof using Hpd HH.
  intros Hq [Hs Ha Hnew] Eck. set (pkt := packet Bs pd min_size (csum_of addr)). unfold on_conn_rx. apply wp_bind, wp_conn_run.
  pose proof (eo_fp _ _ _ _ Hq) as Hf. pose proof (fo_conn _ _ _ Hf) as Hc.
  pose proof (header_rx_packet B (ops (conn (priv q))) true now_real now_real addr' pkt eq_refl (conn (priv q)) eq_refl) as Hlog.
  pose proof (alloc_data_packet Bs pd min_size Hpd (conn (priv q)) addr addr' Eck Hs Ha Hnew) as Hdp. fold pkt in Hdp.
  pose proof (rx_data_packet B (conn (priv q)) now_real now_real addr' pkt _ _ _ (ok_wf _ Hc) Hdp) as Hrx.
  destruct (wp_inv _ _ _ (wp_and _ _ _ _ (safe_rx_packet B now_real now_real addr' pkt _ Hc) Hrx))
    as (r & c & l & Hrun & (_ & Hc' & Hl & He & _) & (-> & _ & _ & _ & _ & _ & _ & _ & [_ Hack])).
  eapply wp_run; [exact Hrun|]. rewrite Hrun in Hlog. destruct Hlog as [Hlog _].
  destruct (ep_conn B true A q c Hq Hc' He) as [Hq1 Hs1]. apply wp_bind. eapply wp_mono; [apply (dispatch_acks A l); [exact Hq1|]|].
  - pose proof (headers_valid B q l Hf Hl Hlog) as Hv. unfold log_valid in *. rewrite Forall_forall in Hv |- *. intros e Hin.
    specialize (Hv e Hin). destruct e as [|k]; [done|]. destruct Hv as [Hv| ->]; [by eapply own_call_valid_own|].
    pose proof (proj1 (Forall_forall _ _) Hack CHandleReset) as Hno. discriminate Hno. apply list_elem_of_omap. by exists (EvCall CHandleReset).
  - intros [] q2 l2 (Hl2 & Hq2 & p & ->). apply wp_ret. cbn [app]. rewrite app_nil_r. split; [done|]. split; [done|]. split; [by exists p|done].
Qed.

(** What the payloads do to the timeslots: the allocations admit, and a reset that a
    report causes only renumbers. *)
Definition allocated A q q' : Prop :=
  let r := admit_all A (u16 <$> sent_dsts pd) (sent_specs pd) (λ k, skb_qs (flow_of q k)) in
  (∀ k, skb_qs (flow_of q' k) ≫= skbs = r.1 k ≫= skbs) ∧ prequeue q' = prequeue q ++ r.2.

Definition names_nodes : Prop :=
  Forall (λ d, 0 ≤ d < 256) (sent_dsts pd) ∧ Forall byte (sent_specs pd) ∧ Forall (λ a, 0 ≤ src_dst_key a < 256) (sent_areqs pd).

Lemma reports_stage A payload q : ep_ok B false A q → names_nodes →
  areq_entries (Z.to_nat (pd_n_areq pd)) payload = Some (areq_pair <$> sent_areqs pd) →
  wp (dispatched (if pd_n_areq pd >? 0 then [EvCall (CHandleAreq payload (pd_n_areq pd))] else []))
    (λ _ q' ev, rx_quiet ev ∧ ep_ok B false A q' ∧ ep_step B q q' ∧ prequeue q' = prequeue q) q.
Proof using Hpd.
  intros Hq (_ & _ & Hr) Hent. destruct (Z.gtb_spec (pd_n_areq pd) 0) as [Hpos|_]; [|apply wp_ret; by split; [auto with flex|]].
  destruct (sent_entries_at _ _ _ Hent) as [Hlen Hd]. cbn [dispatch_all dispatch]. apply wp_bind.
  assert (wp (handle_areq B now now_real payload (pd_n_areq pd)) (λ _ q' l, rx_quiet l ∧ rx_post B A q q') q) as Hw.
  { apply handle_reports_spec; [done|lia|lia|]. intros i d Hi Ei.
    assert (d ∈ (areq_pair <$> sent_areqs pd).*1) as Hin by (apply (Hd (Z.to_nat i)); [lia|by rewrite Z2Nat.id by lia]).
    apply list_elem_of_fmap in Hin as (x & -> & Hin). apply list_elem_of_fmap in Hin as (a & -> & Hin).
    rewrite Forall_forall in Hr. specialize (Hr a Hin). unfold areq_pair. cbn [fst]. rewrite u16_small by lia. done. }
  destruct (wp_inv _ _ _ Hw) as ([] & q' & l & Hrun & Hl & [Hq' Hst _]). eapply wp_run; [exact Hrun|]. apply wp_ret.
  rewrite app_nil_r. split; [done|]. split; [done|]. split; [done|]. by eapply sp_handle_areq.
Qed.

Lemma payload_stage A q : reads_areq_data B = false → ep_ok B false A q → names_nodes →
  wp (on_rx (fpproto_perform_rx_callbacks B (packet Bs pd min_size 0)))
    (λ r q' l, r = true ∧ rx_quiet l ∧ ep_ok B false A q' ∧ ep_step B q q' ∧ allocated A q q') q.
Proof using Hpd Hbuild.
  intros Hb Hq Hnet. pose proof Hnet as (Hd & Hs & _). pose proof (eo_fp _ _ _ _ Hq) as Hf. destruct (fo_ops _ _ _ Hf) as [Eo Hby].
  assert (alloc_bytes_per_tslot (ops (conn (priv q))) = 1) as E1.
  { rewrite Eo. unfold fastpass_sch_proto_ops, MAX_ALLOC_BYTES_PER_TSLOT. simpl. by rewrite Hbuild. }
  unfold on_conn_rx. apply wp_bind, wp_conn_run.
  eapply wp_mono; [apply (rx_callbacks_alloc Bs B pd min_size Hpd (conn (priv q)) 0 Hb); [by rewrite Eo..|exact E1]|].
  intros r c l (-> & -> & payload & -> & Hent).
  assert (set_priv (set_conn (conn (priv q)) (priv q)) q = q) as -> by (destruct q as [? ? ? ? ? ? ? ? ? ? ? ? ? ? ? ? ? []]; done).
  apply wp_bind. cbn [app dispatch_all dispatch]. apply wp_bind.
  pose proof (length_sent_dsts Bs pd min_size Hpd) as Hld. pose proof (length_sent_specs Bs pd min_size Hpd) as Hls.
  assert (u16 <$> sent_dsts pd = sent_dsts pd) as Eu.
  { rewrite <- (list_fmap_id (sent_dsts pd)) at 2. apply list_fmap_ext. intros i x Hx. apply u16_small.
    pose proof (Forall_lookup_1 _ _ _ _ Hd Hx). simpl in *. lia. }
  rewrite <- Hld, <- (length_fmap u16 (sent_dsts pd)), Eu.
  eapply wp_mono; [apply (handle_alloc_spec B csum_replace2 emu_scheme proc_err sock_err false A now); [done|lia|exact Hd| |]|].
  - apply Forall_app_2; [exact Hs|apply after_alloc_bytes].
  - unfold alloc_bytes, fastpass_sch_proto_ops, MAX_ALLOC_BYTES_PER_TSLOT. cbn [alloc_bytes_per_tslot]. rewrite Hbuild, length_app. lia.
  - intros [] q1 l1 [Hl1 [Hq1 Hst1 _ _ Hf1 Ho1]]. eapply wp_mono; [by apply reports_stage|].
    intros [] q2 l2 (Hl2 & Hq2 & Hst2 & Ep2). apply wp_ret. cbn [app]. rewrite app_nil_r. split; [done|].
    split; [by apply rx_quiet_app|]. split; [done|]. split; [by trans q1|].
    assert (take (Z.to_nat (pd_alloc_tslot pd)) (sent_specs pd ++ after_alloc Bs pd min_size) = sent_specs pd) as Et.
    { rewrite <- Hls, Nat2Z.id. apply take_app_length. }
    rewrite Et in Hf1, Ho1. unfold allocated. rewrite Eu, Ep2, (Ho1 Hbuild). split; [|done].
    intros k. pose proof (es_inside _ _ _ Hst2 Hbuild k) as Hin. unfold inside in Hin. rewrite Ep2 in Hin.
    apply app_inv_head in Hin. by rewrite Hin, (Hf1 Hbuild).
Qed.

Lemma alloc_rcv_spec A q : reads_areq_data B = false → ep_ok B false A q → is_destroyed (priv q) = false →
  in_windows (conn (priv q)) → names_nodes → csum_of addr' = csum_of addr →
  wp (ctrl_rcv_handler B csum_replace2 emu_scheme proc_err sock_err now now_real addr' (packet Bs pd min_size (csum_of addr)))
    (λ _ q' l, rx_quiet l ∧ ep_ok B false A q' ∧ ep_step B q q' ∧ allocated A q q') q.
Proof using Hpd Hbuild HH.
  intros Hb Hq Hdes Hw Hnet Eck. unfold ctrl_rcv_handler. pose proof (eo_fp _ _ _ _ Hq) as Hf.
  destruct (fp_ok_lock B false true _ Hf) as [Hf1 Hs1]. apply wp_bind, wp_on_priv. eapply wp_lock_conn; [exact Hf|].
  set (q1 := set_priv _ q). assert (ep_ok B true A q1) as Hq1 by (by eapply ep_own_step). apply wp_bind. apply wp_on_priv, wp_get.
  assert (set_priv (priv q1) q1 = q1) as -> by done. change (is_destroyed (priv q1)) with (is_destroyed (priv q)). rewrite Hdes.
  apply wp_bind. eapply wp_mono; [by apply header_stage|]. intros [ret pkt'] q2 l2 (Hl2 & Hq2 & (p2 & ->) & [= -> ->]).
  destruct (fp_ok_lock B true false _ (eo_fp _ _ _ _ Hq2)) as [Hf3 Hs3].
  apply wp_bind, wp_on_priv. eapply wp_unlock_conn; [apply Hq2|]. set (q3 := set_priv _ _).
  assert (ep_ok B false A q3) as Hq3 by (by eapply ep_own_step). apply wp_bind.
  eapply wp_mono; [by apply payload_stage|]. intros r q4 l4 (-> & Hl4 & Hq4 & Hst4 & Ha).
  apply wp_on_priv. eapply wp_mono.
  { apply (locked_header B now (fpproto_successful_rx (pd_seqno pd))); [apply Hq4|apply safe_successful_rx|intros; apply header_rx_ok].
    apply Hw. }
  intros [] p5 l5 (Hp5 & Hl5 & Hs5). cbn [app]. split; [apply rx_quiet_app; split; [done|]; apply rx_quiet_app; split; [done|by apply rx_quiet_of]|].
  split; [by eapply ep_own_step|]. split; [|exact Ha]. trans q4; [destruct Hst4; by constructor|apply ep_step_priv].
Qed.

(** A packet of the arbiter: the descriptor [pd] carries the allocations [p]. *)
Lemma packs_nodes (p : list pending_alloc) : packs Bs pd p → Forall (λ a, 0 ≤ al_dst a < 256) p →
  Forall (λ a, 0 ≤ src_dst_key a < 256) (sent_areqs pd) → names_nodes ∧ sent_dsts pd = dsts_of p.
Proof using Hpd.
  intros Hp Hd Hr. assert (sent_dsts pd = dsts_of p) as Ed by (unfold sent_dsts; by rewrite (pk_n _ _ _ Hp), Nat2Z.id, (pk_dsts _ _ _ Hp)).
  split; [|done]. destruct (packs_entries Bs pd p Hp) as (specs & pad & Es & Hs & Hpad); [apply (po_tslots _ _ (ap_ok _ _ _ Hpd))|].
  split; [|split; [|done]].
  - rewrite Ed. by apply add_dsts_Forall.
  - rewrite Es. apply Forall_app_2.
    + clear -Hs. induction Hs as [|b a specs' p' [Hb _] _ IH]; by constructor.
    + eapply Forall_impl; [exact Hpad|]. intros x ->. unfold byte. lia.
Qed.

Lemma allocated_each A (p : list pending_alloc) q q' : packs Bs pd p → Forall (λ a, 0 ≤ al_dst a < 256) p → allocated A q q' →
  let r := admit_each A (al_dst <$> p) (λ k, skb_qs (flow_of q k)) in
  (∀ k, skb_qs (flow_of q' k) ≫= skbs = r.1 k ≫= skbs) ∧ prequeue q' = prequeue q ++ r.2.
Proof using Hpd.
  intros Hp Hd. destruct (packs_entries Bs pd p Hp) as (specs & pad & Es & Hs & Hpad); [apply (po_tslots _ _ (ap_ok _ _ _ Hpd))|].
  unfold allocated. rewrite Es. assert (u16 <$> sent_dsts pd = dsts_of p) as ->; [|by rewrite (admit_all_each _ _ _ p Hpad _ _ Hs)].
  assert (sent_dsts pd = dsts_of p) as -> by (unfold sent_dsts; by rewrite (pk_n _ _ _ Hp), Nat2Z.id, (pk_dsts _ _ _ Hp)).
  assert (Forall (λ d, 0 ≤ d < 256) (dsts_of p)) as Hall by (by apply add_dsts_Forall).
  rewrite <- (list_fmap_id (dsts_of p)) at 2. apply list_fmap_ext. intros i x Hx. apply u16_small.
  pose proof (Forall_lookup_1 _ _ _ _ Hall Hx). simpl in *. lia.
Qed.
End reach.
