(* ===== verification/EndpointRun.v ===== *)
(** * Executions of the endpoint

    The endpoint as a transition system: packets arrive and depart, the tasklets
    run, packets of the arbiter are received, in any order. The tasklet that groups
    packets into timeslots releases the lock between adding a packet to its flow and
    telling the scheduler, so these are separate steps. Then its invariant. *)

From S2P Require Import Prelude Platform Window WindowFacts WindowSpec WindowMarks Protocol ConnFacts ConnSpec ConnAck ConnSend ConnInwnd ConnSafe ConnLog Codec Pacer Lists.
From S2P Require Import Tsq TsqFacts Endpoint EndpointFacts EndpointOwn EndpointSend EndpointRequest EndpointState EndpointAlloc EndpointReset EndpointRecv.

(** ** The state *)

(** [todo] are the packets that the tasklet took and has not put into flows;
    [adding] is the new timeslot that the scheduler has not been told of, with its
    packet; [arrived] and [departed] are the data packets that were accepted and
    handed to the network so far. *)
Record world := { wq : ep_state; todo : list sk_buff; adding : option (Z * sk_buff);
  arrived : list sk_buff; departed : list sk_buff }.

Definition set_wq (q : ep_state) (w : world) : world := {| wq := q; todo := todo w; adding := adding w;
  arrived := arrived w; departed := departed w |}.
Definition set_tasklet (t : list sk_buff) (a : option (Z * sk_buff)) (w : world) : world := {| wq := wq w; todo := t; adding := a;
  arrived := arrived w; departed := departed w |}.
Definition set_arrived (l : list sk_buff) (w : world) : world := {| wq := wq w; todo := todo w; adding := adding w;
  arrived := l; departed := departed w |}.
Definition set_departed (l : list sk_buff) (w : world) : world := {| wq := wq w; todo := todo w; adding := adding w;
  arrived := arrived w; departed := l |}.

Definition is_data (skb : sk_buff) : bool := bool_decide (classify_hi_prio skb = None).

Section run.
Context (B : build) `{H : HashOps} (csum_replace2 : Z → Z → Z → Z) (emu_scheme : string) (proc_err sock_err : Z).
Context (psched_l2t_ns : Z → Z → Z).
#[local] Instance run_ops : TsqOps fp_sched_data := fastpass_tsq_ops B csum_replace2 emu_scheme proc_err sock_err.

Abbreviation W := (M kernel_call world).
Definition on_queue {A} (m : Q A) : W A := zoom wq set_wq m.

(** ** Steps *)

(** [nomem_dst] and [nomem_slot] say which allocations of memory fail while a packet
    is put into its flow. *)
Inductive ep_input :=
| EEnqueue (skb : sk_buff)
| ETake
| EFlow (nomem_dst nomem_slot : bool)
| EAdd (now : Z)
| EDequeue
| EMaintenance (now : Z) (nomem : bool)
| ERetrans (now : Z)
| EReceive (now now_real addr : Z) (pkt : list Z).

Definition run_ep (i : ep_input) : W unit :=
  match i with
  | EEnqueue skb =>
      ok ← on_queue (tsq_enqueue skb);
      when (ok && is_data skb) (modify (λ w, set_arrived (arrived w ++ [skb]) w))
  | ETake => l ← on_queue take_enqueued; modify (set_tasklet l None)
  | EFlow nomem_dst nomem_slot =>
      w ← get;
      match todo w with
      | [] => mret tt
      | skb :: l =>
          o ← on_queue (enqueue_to_flow psched_l2t_ns nomem_dst nomem_slot skb);
          modify (set_tasklet l ((λ k, (k, skb)) <$> o))
      end
  | EAdd now =>
      w ← get;
      match adding w with
      | None => mret tt
      | Some (k, skb) => on_queue (on_priv (add_timeslot now k skb));; modify (set_tasklet (todo w) None)
      end
  | EDequeue =>
      o ← on_queue tsq_dequeue;
      match o with
      | Some skb => when (is_data skb) (modify (λ w, set_departed (departed w ++ [skb]) w))
      | None => mret tt
      end
  | EMaintenance now nomem => on_queue (on_priv (maintenance_tasklet_func B now nomem))
  | ERetrans now => on_queue (on_priv (retrans_tasklet_func B now))
  | EReceive now now_real addr pkt =>
      on_queue (ctrl_rcv_handler B csum_replace2 emu_scheme proc_err sock_err now now_real addr pkt)
  end.

(** When a step can happen: the tasklet does one thing after the other, the
    counters of demand and the sequence numbers are not about to wrap, and received
    packets name destinations of the network. *)
Definition may_ep (w : world) (i : ep_input) : Prop :=
  match i with
  | ETake => todo w = [] ∧ adding w = None
  | EFlow _ _ => adding w = None
  | EAdd _ => calm (priv (wq w))
  | EMaintenance _ _ => calm (priv (wq w)) ∧ head (outwnd (conn (priv (wq w)))) + 1 < 2 ^ 64
  | EReceive _ now_real addr pkt => names_network B now_real addr pkt (wq w)
  | EEnqueue _ | EDequeue | ERetrans _ => True
  end.

(** The step gets the memory that it asks for while it holds a lock. *)
Definition memory_ok (i : ep_input) : Prop :=
  match i with EFlow nomem_dst nomem_slot => nomem_dst = false ∧ nomem_slot = false | _ => True end.

#[export] Instance memory_ok_dec i : Decision (memory_ok i).
Proof using. destruct i; simpl; apply _. Defined.

(** ** Invariant *)
Definition data_only (l : list sk_buff) : Prop := Forall (λ skb, is_data skb = true) l.

Definition is_data_of (k : Z) (skb : sk_buff) : Prop := is_data skb = true ∧ data_key skb = k.

(** The packets of flow [k] that arrived and did not depart, the next to depart
    first. *)
Definition in_transit (k : Z) (w : world) : list sk_buff :=
  inside k (wq w) ++ of_flow k (todo w) ++ of_flow k (enqueue_skb_q (wq w)).

Record queues_ok (w : world) : Prop := {
  qs_prio : Forall (λ skb, is_data skb = false) (hi_prio (wq w) ++ reg_prio (wq w));
  qs_enq : data_only (enqueue_skb_q (wq w));
  qs_todo : data_only (todo w);
  qs_flows : EMULATION_ALGO B = false → ∀ k, data_only (inside k (wq w));
  qs_fifo : EMULATION_ALGO B = false → ∀ k, of_flow k (arrived w) = of_flow k (departed w) ++ in_transit k w;
}.

Record world_ok (w : world) : Prop := {
  wo_ep : ep_ok B false (fst <$> adding w) (wq w);
  wo_adding : from_option (λ ks, 0 ≤ ks.1 < 256) True (adding w);
  wo_queues : queues_ok w;
}.
End run.

(** ** The steps of the endpoint

    Every step keeps [world_ok]: the invariant of the endpoint, and the order of the
    packets of every flow. *)
(** ** Frames *)
Lemma ep_ok_same B cl A (q q' : ep_state) : ep_ok B cl A q → hash_tbl_lock q' = hash_tbl_lock q → tslot_len_approx q' = tslot_len_approx q →
  dst_hash_tbl q' = dst_hash_tbl q → priv q' = priv q → ep_ok B cl A q'.
Proof.
  intros [[Hl Hn Hf] Hp Hk Hu] E1 E2 E3 E4. assert (∀ k, flow_of q' k = flow_of q k) as Ef by (intros k; unfold flow_of; by rewrite E3).
  constructor; [constructor; rewrite ?E1, ?E2, ?E3; done|by rewrite E4| |intros k; by rewrite Ef].
  intros k Hk'. unfold waiting. rewrite Ef, E4. by apply Hk.
Qed.

Lemma is_data_false skb p : classify_hi_prio skb = Some p → is_data skb = false.
Proof. unfold is_data. by intros ->. Qed.

Lemma data_only_app l1 l2 : data_only (l1 ++ l2) ↔ data_only l1 ∧ data_only l2.
Proof. apply Forall_app. Qed.

Lemma of_flow_data k l : data_only l → data_only (of_flow k l).
Proof. intros Hl. unfold of_flow, data_only in *. rewrite Forall_forall in *. intros x [_ Hx]%list_elem_of_filter. by apply Hl. Qed.

(** ** A packet is put into its flow *)
Lemma flow_add_packets cost len skb k f : 0 < cost → flow_ok len k f →
  (skb_qs (flow_add cost len skb f).1 ≫= skbs) = (skb_qs f ≫= skbs) ++ [skb].
Proof.
  intros Hc Hf. pose proof (flow_add_slots cost len skb k f Hc Hf) as Hs. destruct (flow_add cost len skb f) as [f' []]; simpl.
  - rewrite Hs, bind_app. done.
  - destruct Hs as (qs & s & -> & ->). rewrite !bind_app. simpl. by rewrite !app_nil_r, app_assoc.
Qed.

Lemma enqueue_to_flow_ep B cl psched q skb : costs_ok psched → ep_ok B cl None q →
  wp (enqueue_to_flow (P:=fp_sched_data) psched false false skb) (λ o q' l, l = [] ∧ ep_ok B cl o q' ∧
    from_option (λ k, 0 ≤ k < 256) True o ∧ enqueue_skb_q q' = enqueue_skb_q q ∧ hi_prio q' = hi_prio q ∧ reg_prio q' = reg_prio q ∧
    ∀ k, inside k q' = inside k q ++ of_flow k [skb]) q.
Proof.
  intros Hc Hq. pose proof (eo_tsq _ _ _ _ Hq) as Ht. pose proof (enqueue_to_flow_spec psched q skb Hc Ht) as Hspec.
  pose proof (flow_of_ok q (data_key skb) Ht) as Hf. assert (0 ≤ data_key skb < 256) as Hk by (pose proof (data_key_range skb); change NUM_NODES with 64 in *; lia).
  pose proof (Hc (data_rate q) (pkt_len skb)) as Hcost. fold (cost_of psched q skb) in Hcost. set (c := cost_of psched q skb) in *.
  pose proof (flow_add_ok c (tslot_len_approx q) skb _ _ Hcost (tq_len q Ht) Hf) as Hf'.
  pose proof (flow_add_packets c (tslot_len_approx q) skb _ _ (proj1 Hcost) Hf) as Hpk.
  pose proof (flow_add_length c (tslot_len_approx q) skb _ _ (proj1 Hcost) Hf) as Hlen.
  destruct (flow_add _ _ _ _) as [f opened]. simpl in *. set (k := data_key skb) in *.
  eapply wp_mono; [exact Hspec|]. intros o q' l (-> & Hst & ->).
  pose proof (stored_frame _ _ _ _ Hst) as (Ep & Epre & Edr & Een & Ehi & Erg & Elen & Erate & Eql & Elim).
  assert (∀ k', (skb_qs (flow_of q' k') ≫= skbs) = (skb_qs (flow_of q k') ≫= skbs) ++ of_flow k' [skb]) as Hin.
  { intros k'. rewrite (flow_of_stored k f q q' k' Hst). case_decide as E; unfold of_flow.
    - subst k'. by rewrite filter_cons_True.
    - rewrite filter_cons_False by done. simpl. by rewrite app_nil_r. }
  split; [done|]. split; [|split; [by destruct opened|split; [done|split; [done|split; [done|]]]]].
  - constructor; [by eapply stored_ok, Hst|rewrite Ep; apply Hq| |].
    + intros k' Hk'. rewrite Ep, (waiting_stored k f q q' k' Hst). pose proof (eo_link _ _ _ _ Hq k' Hk') as Hl. simpl in Hl.
      unfold waiting in *. case_decide as E; [subst k'|]; destruct opened; simpl in *.
      * rewrite bool_decide_eq_true_2 by done. simpl. lia.
      * lia.
      * rewrite bool_decide_eq_false_2 by congruence. simpl. lia.
      * lia.
    + intros k'. unfold pure_flow. rewrite Hin. apply Forall_app. split; [apply Hq|].
      unfold of_flow. apply Forall_forall. by intros x [? _]%list_elem_of_filter.
  - intros k'. unfold inside. by rewrite Hin, Epre, app_assoc.
Qed.

(** ** The scheduler is told of a new timeslot *)
Lemma dst_num_demand d : dst_num d → demand_tslots d ≤ 2 ^ 61 → dst_num (set_demand_tslots (u64 (demand_tslots d + 1)) d).
Proof. intros [] Hc. rewrite u64_small by lia. constructor; simpl; lia. Qed.

Lemma add_timeslot_section B now k skb d : 0 ≤ k < 256 → lock d = false →
  sect B k d (fpq_add_timeslot B now k skb)
    (λ _ d', d' = set_lock false (set_state FLOW_REQUEST_QUEUE (set_demand_tslots (u64 (demand_tslots d + 1)) (set_lock true d)))).
Proof.
  intros Hk Hl. unfold fpq_add_timeslot.
  eapply (sect_bind B k Hk _ _ _ (λ _ d', d' = set_lock true d)); [by apply sect_get_dst|]. intros [] d1 ->.
  eapply (sect_bind B k Hk _ _ _ (λ _ d', d' = set_state FLOW_REQUEST_QUEUE (set_demand_tslots (u64 (demand_tslots (set_lock true d) + 1)) (set_lock true d))));
    [by apply sect_inc_demand|]. intros [] d1 ->.
  apply sect_get. intros q Hd. set (d2 := set_state _ _).
  eapply (sect_bind B k Hk _ _ _ (λ _ d', d' = d2)); [|intros [] d3 ->; by apply sect_release].
  unfold no_data in Hd. destruct (EMULATION_ALGO B); [rewrite (Hd eq_refl)|]; by apply sect_ret.
Qed.

Lemma add_timeslot_ep B cl now k skb q : ep_ok B cl (Some k) q → 0 ≤ k < 256 → calm (priv q) →
  wp (on_priv (fpq_add_timeslot B now k skb)) (λ _ q' l, l = [] ∧ ep_ok B cl None q' ∧ ∃ p, q' = set_priv p q) q.
Proof.
  intros Hq Hk Hc. destruct (at_dst_start B k Hk cl (Some k) q Hq) as (d & Had & Hd & Hl). pose proof (ad_dst _ _ _ _ Had) as Ed.
  eapply (wp_section B k Hk); [exact Had|by apply add_timeslot_section|]. intros [] d' p -> Hs _. split; [done|]. split; [|by exists p].
  pose proof (Hc _ _ Ed) as Hcd. pose proof (do_used _ Hd). set (d' := set_lock false _) in *.
  eapply (ep_fstep B k Hk cl (Some k) None); [exact Hq|exact Ed|exact Hs|done| |done|by left|].
  - apply dst_ok_lock, dst_ok_queued. apply (dst_num_demand (set_lock true d)); [by apply dst_num_lock, Hd|done].
  - intros k' Hk'. case_decide as E.
    + subst k'. rewrite (unused_at _ _ _ Ed), bool_decide_eq_false_2, bool_decide_eq_true_2 by done. simpl. rewrite u64_small by lia. lia.
    + rewrite !bool_decide_eq_false_2 by congruence. done.
Qed.

(** ** The steps *)
Section steps.
Context (B : build) `{H : HashOps} (csum_replace2 : Z → Z → Z → Z) (emu_scheme : string) (proc_err sock_err : Z).
Context (psched_l2t_ns : Z → Z → Z).
Notation run_ := (run_ep B csum_replace2 emu_scheme proc_err sock_err psched_l2t_ns).

Lemma wp_on_queue {A} (m : Q A) w (Φ : A → world → list (event kernel_call) → Prop) :
  wp m (λ a q l, Φ a (set_wq q w) l) (wq w) → wp (on_queue m) Φ w.
Proof using. apply wp_zoom. Qed.

(** Steps that leave packets where they are. *)
Lemma world_ok_step w q' : world_ok B w → ep_ok B false (fst <$> adding w) q' → ep_step B (wq w) q' → world_ok B (set_wq q' w).
Proof using.
  intros [He Ha [Hp Hen Ht Hf Hfifo]] He' [Een [Ehi Erg] _ _ Hin]. constructor; [done|done|]. constructor; simpl.
  - by rewrite Ehi, Erg.
  - by rewrite Een.
  - done.
  - intros Hb k. rewrite (Hin Hb). by apply Hf.
  - intros Hb k. rewrite (Hfifo Hb k). unfold in_transit. simpl. by rewrite (Hin Hb), Een.
Qed.

Lemma step_enqueue w skb : world_ok B w → wp (run_ (EEnqueue skb)) (λ _ w' l, world_ok B w' ∧ no_bug l) w.
Proof.
  intros [He Ha [Hp Hen Ht Hf Hfifo]]. cbn [run_ep]. apply wp_bind, wp_on_queue. unfold tsq_enqueue.
  destruct (classify_hi_prio skb) as [prio|] eqn:Ec.
  - pose proof (is_data_false _ _ Ec) as Ed. tsq_steps. rewrite Ed. simpl when. tsq_steps. split; [|by repeat constructor].
    constructor; [by eapply ep_ok_same; [exact He|destruct prio..]|done|].
    constructor; destruct prio; simpl; try done; rewrite ?Forall_app in *; unfold skb_q_enqueue; rewrite ?Forall_app; intuition; by repeat constructor.
  - assert (is_data skb = true) as Ed by (unfold is_data; by rewrite Ec). tsq_steps. destruct (_ >=? _); tsq_steps.
    + split; [|by repeat constructor]. by destruct w.
    + rewrite Ed. simpl when. tsq_steps. split; [|by repeat constructor].
      constructor; [by eapply ep_ok_same; [exact He|..]|done|]. constructor; simpl; try done.
      * apply data_only_app. split; [done|]. by repeat constructor.
      * intros Hb k. rewrite of_flow_app, (Hfifo Hb k). unfold in_transit. simpl. unfold skb_q_enqueue. by rewrite of_flow_app, !app_assoc.
Qed.

Lemma step_take w : world_ok B w → todo w = [] → adding w = None → wp (run_ ETake) (λ _ w' l, world_ok B w' ∧ no_bug l) w.
Proof.
  intros [He Ha [Hp Hen Ht Hf Hfifo]] Et Ea. cbn [run_ep]. apply wp_bind, wp_on_queue. unfold take_enqueued. tsq_steps.
  split; [|apply no_bug_nil]. rewrite Ea in He. constructor; [by eapply ep_ok_same; [exact He|..]|done|].
  constructor; simpl; try done; [by constructor|]. intros Hb k. rewrite (Hfifo Hb k). unfold in_transit. simpl. by rewrite Et, app_nil_r.
Qed.

Lemma step_flow w : costs_ok psched_l2t_ns → world_ok B w → adding w = None → wp (run_ (EFlow false false)) (λ _ w' l, world_ok B w' ∧ no_bug l) w.
Proof.
  intros Hc Hw Ea. pose proof Hw as [He Ha [Hp Hen Ht Hf Hfifo]]. cbn [run_ep]. apply wp_bind, wp_get.
  destruct (todo w) as [|skb l] eqn:Et; [by apply wp_ret; split; [|apply no_bug_nil]|].
  apply wp_bind, wp_on_queue. rewrite Ea in He. eapply wp_mono; [by apply enqueue_to_flow_ep|].
  intros o q' ev (-> & He' & Hk & Een & Ehi & Erg & Hin). apply wp_modify. split; [|apply no_bug_nil].
  pose proof (proj1 (Forall_cons _ _ _) Ht) as [Hd Ht']. constructor; simpl.
  - by destruct o.
  - by destruct o.
  - constructor; simpl; rewrite ?Een, ?Ehi, ?Erg; try done.
    + intros Hb k. rewrite Hin. apply data_only_app. split; [by apply Hf|]. apply of_flow_data. by repeat constructor.
    + intros Hb k. rewrite (Hfifo Hb k). unfold in_transit. simpl. rewrite Hin, Een, Et.
      change (skb :: l) with ([skb] ++ l). by rewrite of_flow_app, !app_assoc.
Qed.

Lemma step_add now w : world_ok B w → calm (priv (wq w)) → wp (run_ (EAdd now)) (λ _ w' l, world_ok B w' ∧ no_bug l) w.
Proof.
  intros Hw Hc. pose proof Hw as [He Ha [Hp Hen Ht Hf Hfifo]]. cbn [run_ep]. apply wp_bind, wp_get.
  destruct (adding w) as [[k skb]|] eqn:Ea; [|by apply wp_ret; split; [|apply no_bug_nil]].
  apply wp_bind, wp_on_queue. eapply wp_mono; [by apply add_timeslot_ep|].
  intros [] q' l (-> & Hq' & p & ->). apply wp_modify. split; [|apply no_bug_nil]. by constructor; [|done|constructor].
Qed.

(** The packet that departs is the oldest of its flow. *)
Lemma step_dequeue w : world_ok B w → wp (run_ EDequeue) (λ _ w' l, world_ok B w' ∧ no_bug l) w.
Proof.
  intros Hw. pose proof Hw as [He Ha [Hp Hen Ht Hf Hfifo]]. cbn [run_ep]. apply wp_bind, wp_on_queue. unfold tsq_dequeue, out_got_skb, skb_q_dequeue. tsq_steps.
  rewrite Forall_app in Hp. destruct Hp as [Hhi Hrg].
  destruct (hi_prio (wq w)) as [|skb l] eqn:Eh; [|tsq_steps].
  2: { apply Forall_cons in Hhi as [-> Hhi]. simpl when. tsq_steps. split; [|by repeat constructor].
    constructor; [by eapply ep_ok_same; [exact He|..]|done|]. constructor; simpl; try done. by apply Forall_app. }
  destruct (reg_prio (wq w)) as [|skb l] eqn:Er; [|tsq_steps].
  2: { apply Forall_cons in Hrg as [-> Hrg]. simpl when. tsq_steps. split; [|by repeat constructor].
    constructor; [by eapply ep_ok_same; [exact He|..]|done|]. constructor; simpl; try done. by rewrite Eh. }
  assert (Forall (λ skb, is_data skb = false) (hi_prio (wq w) ++ reg_prio (wq w))) as Hp by (by rewrite Eh, Er).
  destruct (prequeue (wq w)) as [|skb l] eqn:Eq; tsq_steps.
  - assert (world_ok B w) as Hw' by done. destruct (dropqueue (wq w)) as [|skb l]; tsq_steps; (split; [|by repeat constructor]); [by destruct w|].
    constructor; [by eapply ep_ok_same; [exact He|..]|done|]. by constructor.
  - set (q' := set_qlen _ _). assert (ep_ok B false (fst <$> adding w) q') as He' by (by eapply ep_ok_same; [exact He|..]).
    assert (∀ k, inside k (wq w) = of_flow k [skb] ++ inside k q') as Hin.
    { intros k. unfold inside. rewrite Eq. change (skb :: l) with ([skb] ++ l). by rewrite of_flow_app, app_assoc. }
    destruct (EMULATION_ALGO B) eqn:Hb.
    + destruct (is_data skb); simpl when; tsq_steps; (split; [|by repeat constructor]); (constructor; [done|done|]); by constructor; [..|rewrite Hb|rewrite Hb].
    + assert (is_data skb = true) as ->.
      { pose proof (Hf eq_refl (data_key skb)) as Hd. rewrite Hin in Hd. unfold of_flow in Hd. rewrite filter_cons_True in Hd by done.
        by apply Forall_cons in Hd as [? _]. }
      simpl when. tsq_steps. split; [|by repeat constructor]. constructor; [done|done|]. constructor; try done.
      * intros _ k. pose proof (Hf eq_refl k) as Hd. rewrite Hin in Hd. by apply data_only_app in Hd as [_ ?].
      * intros _ k. simpl. rewrite of_flow_app, (Hfifo eq_refl k). unfold in_transit. simpl. by rewrite Hin, !app_assoc.
Qed.

(** ** Every step *)
Lemma sched_step w (m : F unit) : world_ok B w →
  wp m (λ _ p l, fp_ok B false p ∧ send_step (priv (wq w)) p ∧ no_bug l) (priv (wq w)) →
  wp (on_queue (on_priv m)) (λ _ w' l, world_ok B w' ∧ no_bug l) w.
Proof using.
  intros Hw Hm. apply wp_on_queue, wp_on_priv. eapply wp_mono; [exact Hm|]. intros [] p l (Hp & Hs & Hl). split; [|done].
  apply world_ok_step; [done| |apply ep_step_priv]. by eapply ep_send_step; [apply Hw|..].
Qed.

Lemma run_ep_ok w i : reads_areq_data B = false → costs_ok psched_l2t_ns → world_ok B w → may_ep B w i → memory_ok i →
  wp (run_ i) (λ _ w' l, world_ok B w' ∧ no_bug l) w.
Proof.
  intros Hb Hc Hw Hi Hmem. destruct i as [skb| |d s|now| |now nomem|now|now now_real addr pkt]; simpl in Hi.
  - by apply step_enqueue.
  - destruct Hi; by apply step_take.
  - destruct Hmem as [-> ->]. by apply step_flow.
  - by apply step_add.
  - by apply step_dequeue.
  - apply sched_step; [done|]. apply maintenance_spec; [apply Hw|apply Hi..].
  - apply sched_step; [done|]. eapply wp_mono; [by apply retrans_spec, Hw|]. intros [] p l (Hp & Hl & Hs).
    split; [done|]. split; [by apply send_step_own|by apply quiet_no_bug].
  - apply wp_on_queue. eapply wp_mono; [by apply ctrl_rcv_spec; [|apply Hw|]|]. intros [] q' l (Hl & Hq' & Hs).
    split; [by apply world_ok_step|by apply rx_quiet_no_bug].
Qed.

(** A step that does not get its memory may end with the lock held. *)
Lemma run_ep_defined w i : reads_areq_data B = false → costs_ok psched_l2t_ns → world_ok B w → may_ep B w i →
  wp (run_ i) (λ _ w' l, no_bug l ∧ (world_ok B w' ∨ ¬ memory_ok i ∧ hash_tbl_lock (wq w') = true)) w.
Proof.
  intros Hb Hc Hw Hi. assert (memory_ok i → wp (run_ i) (λ _ w' l, no_bug l ∧ (world_ok B w' ∨ ¬ memory_ok i ∧ hash_tbl_lock (wq w') = true)) w) as Hgood.
  { intros Hm. eapply wp_mono; [by apply run_ep_ok|]. intros [] w' l [Hw' Hl]. split; [done|by left]. }
  destruct i as [| |d s| | | | |]; try by apply Hgood.
  destruct (decide (memory_ok (EFlow d s))) as [Hm|Hm]; [by apply Hgood|]. simpl in Hi.
  pose proof (step_flow w Hc Hw Hi) as Hok. cbn [run_ep] in *. apply wp_bind, wp_get. apply wp_bind_inv, wp_inv in Hok as
    (w0 & ? & ? & [= <- <- <-] & Hok).
  destruct (todo w) as [|skb l]; [apply wp_ret; split; [apply no_bug_nil|by left]|].
  destruct (enqueue_to_flow_nomem psched_l2t_ns d s (wq w) skb) as [E|(q' & ev & E & Hev & Hlk)]; [apply Hw| |].
  - assert (on_queue (enqueue_to_flow psched_l2t_ns d s skb) w = on_queue (enqueue_to_flow psched_l2t_ns false false skb) w) as E'
      by (unfold on_queue, zoom; by rewrite E).
    apply wp_bind. unfold wp at 1. rewrite E'. apply wp_bind_inv in Hok. eapply wp_mono; [exact Hok|].
    intros o w1 l1 Hok1. eapply wp_mono; [exact Hok1|]. intros [] w2 l2 [Hw2 Hl2]. split; [done|by left].
  - apply wp_bind, wp_on_queue. unfold wp at 1. rewrite E. apply wp_modify. simpl. rewrite app_nil_r. split; [done|].
    by right.
Qed.
End steps.
