(* ===== verification/EndpointInit.v ===== *)
(** * The start of the endpoint

    From zeroed memory [tsq_tc_init] reaches a state that satisfies the invariant,
    and so do all the states after it. The end of the file runs a sample endpoint, on
    which the theorems are instantiated: two packets for node 3 and one for node 5 arrive,
    are grouped into timeslots, and requests for them are sent. *)

From S2P Require Import Prelude Platform Window WindowFacts WindowSpec WindowMarks Protocol ConnFacts ConnSpec ConnAck ConnSend ConnInwnd ConnSafe ConnLog.
From S2P Require Import Codec Checksum Samples Pacer Lists Tsq TsqFacts Endpoint EndpointFacts EndpointOwn EndpointSend EndpointRequest EndpointState EndpointAlloc EndpointReset EndpointRecv EndpointRun.

(** ** Zeroed memory *)
Definition zero_ops : fpproto_ops := {| has_handle_reset := false; has_handle_ack := false; has_handle_neg_ack := false;
  has_handle_skipped_ack := false; has_trigger_request := false; has_handle_alloc := false; has_handle_areq := false;
  alloc_bytes_per_tslot := 0 |}.
Definition zero_pacer : fp_pacer := pacer_init_full 0 0 0 0.
Definition zero_fp : fp_sched_data := {| unreq_flows := replicate 256 0; unreq_dsts_head := 0; unreq_dsts_tail := 0;
  dsts := replicate 256 inhabitant; request_pacer := zero_pacer; is_destroyed := false; conn := zero_conn zero_ops 0 0;
  conn_lock := false; q_demand_tslots := 0; q_requested_tslots := 0; q_alloc_tslots := 0; q_acked_tslots := 0;
  q_used_tslots := 0; emu_areq_data_type := 0; emu_areq_data_bytes := 0; emu_alloc_data_type := 0; q_alloc_data_bytes := 0 |}.
Definition zero_ep : ep_state := {| sch_limit := 0; qlen := 0; hash_tbl_log := 0; tslot_mul := 0; tslot_shift := 0; data_rate := 0;
  tslot_len_approx := 0; hash_tbl_lock := false; dst_hash_tbl := ∅; enqueue_skb_q := []; reg_prio := []; hi_prio := [];
  prequeue := []; dropqueue := []; current_timeslot := 0; flows := 0; inactive_flows := 0; priv := zero_fp |}.

(** ** The timeslot queue *)

(** Attributes with which a timeslot has a length. *)
Definition attrs_ok (tb : tc_attrs) : Prop :=
  (∀ m, TCA_TIMESLOT_MUL tb = Some m → 0 < m < 2 ^ 32) ∧ (∀ s, TCA_TIMESLOT_SHIFT tb = Some s → 0 ≤ s < 31).
Definition opt_ok (opt : option (Z + tc_attrs)) : Prop :=
  match opt with
  | None => True
  | Some (inl _) => False
  | Some (inr tb) => attrs_ok tb
  end.

(** No packets and no flows; [p] is the scheduler's state. *)
Record tsq_empty {P} (p : P) (q : tsq_sched_data P) : Prop := {
  te_lock : hash_tbl_lock q = false;
  te_len : 0 ≤ tslot_len_approx q < 2 ^ 32;
  te_flows : dst_hash_tbl q = ∅;
  te_lists : enqueue_skb_q q = [] ∧ reg_prio q = [] ∧ hi_prio q = [] ∧ prequeue q = [] ∧ dropqueue q = [];
  te_tslot : 0 < tslot_mul q < 2 ^ 32 ∧ 0 ≤ tslot_shift q < 31;
  te_priv : priv q = p;
}.

Lemma tslot_len_ok mul shift : 0 < mul < 2 ^ 32 → 0 ≤ shift < 31 → ∃ len, tslot_len mul shift = Some len ∧ 0 ≤ len < 2 ^ 32.
Proof.
  intros Hm Hs. unfold tslot_len. rewrite (proj2 (Z.leb_le 0 shift)), (proj2 (Z.ltb_lt shift 31)), (proj2 (Z.eqb_neq mul 0)) by lia.
  eexists. split; [reflexivity|]. pose proof (u32_range (Z.shiftl 1 shift)). split; [apply Z.div_pos; lia|].
  apply Z.div_lt_upper_bound; nia.
Qed.

Section tsq_init.
Context {P : Type}.
Implicit Types q : tsq_sched_data P.

Lemma set_tslot_spec p now_real mul shift q : tsq_empty p q → 0 < mul < 2 ^ 32 → 0 ≤ shift < 31 →
  wp (set_tslot (P:=P) now_real mul shift) (λ _ q' l, tsq_empty p q' ∧ l = []) q.
Proof using.
  intros [] Hm Hs. destruct (tslot_len_ok mul shift Hm Hs) as (len & El & Hl). unfold set_tslot. apply wp_bind.
  eapply wp_deref; [exact El|]. apply wp_modify. by split; [constructor|].
Qed.

Lemma tsq_tc_resize_spec p log q : tsq_empty p q →
  wp (tsq_tc_resize (P:=P) false false log) (λ r q' l, r = 0 ∧ tsq_empty p q' ∧ l = []) q.
Proof using. intros []. unfold tsq_tc_resize. tsq_steps. by split; [|split; [constructor|]]. Qed.

(** A field that does not matter here. *)
Lemma wp_when_modify p b f q (Φ : unit → tsq_sched_data P → list (event kernel_call) → Prop) : tsq_empty p q →
  (∀ q, tsq_empty p q → tsq_empty p (f q) ∧ (tslot_mul (f q), tslot_shift (f q)) = (tslot_mul q, tslot_shift q)) →
  (∀ q', tsq_empty p q' → (tslot_mul q', tslot_shift q') = (tslot_mul q, tslot_shift q) → Φ tt q' []) → wp (when b (modify f)) Φ q.
Proof using. intros Hq Hf HΦ. destruct b; [apply wp_modify|apply wp_ret]; apply HΦ; try done; by apply Hf. Qed.

Lemma tsq_tc_change_spec p now_real tb q : tsq_empty p q → attrs_ok tb →
  wp (tsq_tc_change (P:=P) now_real false false (Some (inr tb))) (λ r q' l, r = 0 ∧ tsq_empty p q' ∧ l = []) q.
Proof using.
  intros Hq [Hmul Hshift]. unfold tsq_tc_change. apply wp_bind, wp_get. apply wp_bind.
  assert (∀ (Φ : unit → tsq_sched_data P → list (event kernel_call) → Prop), (∀ q', tsq_empty p q' → Φ tt q' []) →
    wp (match TCA_PLIMIT tb with Some nval => when (nval >? 0) (modify (set_sch_limit nval)) | None => mret tt end) Φ q) as H1.
  { intros Φ HΦ. destruct (TCA_PLIMIT tb) as [v|]; [|by apply wp_ret, HΦ].
    eapply wp_when_modify; [exact Hq|intros q' []; by split; [constructor|]|]. intros q' Hq' _. by apply HΦ. }
  apply H1. clear H1. intros q1 Hq1. cbv zeta. apply wp_bind.
  assert (∀ (Φ : unit → tsq_sched_data P → list (event kernel_call) → Prop), (∀ q', tsq_empty p q' → Φ tt q' []) →
    wp (match TCA_DATA_RATE tb with Some rate => when (negb (rate =? 0)) (modify (set_data_rate rate)) | None => mret tt end) Φ q1) as H2.
  { intros Φ HΦ. destruct (TCA_DATA_RATE tb) as [v|]; [|by apply wp_ret, HΦ].
    eapply wp_when_modify; [exact Hq1|intros q' []; by split; [constructor|]|]. intros q' Hq' _. by apply HΦ. }
  apply H2. clear H2. intros q2 Hq2. apply wp_bind. eapply wp_mono; [by apply tsq_tc_resize_spec|]. intros r q3 l (-> & Hq3 & ->).
  apply wp_bind. destruct (te_tslot _ _ Hq) as [Hm Hs].
  assert (0 < default (tslot_mul q) (TCA_TIMESLOT_MUL tb) < 2 ^ 32) as Hm'.
  { destruct (TCA_TIMESLOT_MUL tb) as [m|]; [by apply Hmul|done]. }
  assert (0 ≤ default (tslot_shift q) (TCA_TIMESLOT_SHIFT tb) < 31) as Hs'.
  { destruct (TCA_TIMESLOT_SHIFT tb) as [m|]; [by apply Hshift|done]. }
  simpl andb. destruct (_ || _); simpl when.
  - eapply wp_mono; [by apply set_tslot_spec|]. intros [] q4 l [Hq4 ->]. by apply wp_ret.
  - by apply wp_ret, wp_ret.
Qed.
End tsq_init.

(** ** The scheduler *)
Section init.
Context (B : build) `{H : HashOps} (csum_replace2 : Z → Z → Z → Z) (emu_scheme : string).
#[local] Instance init_ops : TsqOps fp_sched_data := fastpass_tsq_ops B csum_replace2 emu_scheme 0 0.

(** The schemes that send no data with requests. *)
Definition scheme_ok : Prop := EMULATION_ALGO B = true → Flags.areq_data_bytes_from_scheme emu_scheme = 0.

Lemma init_conn_spec now o rw st c0 : 0 ≤ alloc_bytes_per_tslot o → out_wf c0 → wnd_set (outwnd c0) = ∅ →
  wp (fpproto_init_conn B now o rw st) (λ _ c l, conn_ok c ∧ ops c = o ∧ (∀ s, out_pd c s = None) ∧ l = []) c0.
Proof using.
  intros Hb Hz E.
  assert (wp (fpproto_init_conn B now o rw st) (λ _ c l, l = []) c0) as Hlog.
  { unfold fpproto_init_conn. apply wp_bind. eapply wp_mono; [by apply do_proto_reset_spec|].
    intros [] c l (Hc & Hr & _ & ss & -> & _ & Hss). wp_steps. rewrite app_nil_r.
    destruct ss as [|s ss]; [done|]. exfalso. rewrite E in Hss. apply (not_elem_of_empty (C:=gset Z) s). rewrite <- Hss.
    apply elem_of_list_to_set. by left. }
  eapply wp_mono; [apply wp_and; [by apply init_spec|exact Hlog]|].
  intros [] c l [(Hc & Hr & _ & Ho & _) ->]. split; [done|]. split; [done|]. split; [|done]. intros s. by apply out_pd_empty, Hr.
Qed.

Lemma zero_dsts i d : replicate 256 (inhabitant : fp_dst) !! i = Some d → d = inhabitant.
Proof using. by intros [-> _]%lookup_replicate. Qed.

Lemma reqs_zero (p : fp_sched_data) : unreq_dsts_head p = 0 → unreq_dsts_tail p = 0 → reqs p = [].
Proof using. intros E1 E2. apply nil_length_inv. pose proof (reqs_length p) as Hl. rewrite E1, E2 in Hl. change (u32 (0 - 0)) with 0 in Hl. lia. Qed.

Lemma zero_fp_ok (p : fp_sched_data) : unreq_flows p = replicate 256 0 → unreq_dsts_head p = 0 → unreq_dsts_tail p = 0 →
  dsts p = replicate 256 inhabitant → conn_lock p = false → conn_ok (conn p) → (∀ s, out_pd (conn p) s = None) → no_data B p →
  ops (conn p) = fastpass_sch_proto_ops B (q_alloc_data_bytes p) → 0 ≤ q_alloc_data_bytes p →
  fp_ok B false p ∧ ∀ k, unused p k = 0.
Proof using.
  intros Eu Eh Et Ed El Hc Hp Hd Ho Hb. pose proof (reqs_zero p Eh Et) as Er. split.
  - constructor; try done; rewrite ?Ed.
    + apply length_replicate.
    + intros i d ->%zero_dsts. split; [|done]. by repeat constructor.
    + constructor; rewrite ?Eu, ?Eh, ?Et, ?Er; [apply length_replicate|done|by apply NoDup_nil|by apply Forall_nil|].
      intros i d. rewrite Ed. intros ->%zero_dsts. split; [by left|]. split; [done|]. by intros ?%not_elem_of_nil.
    + intros s pd. by rewrite Hp.
  - intros k. unfold unused, dst_of, arr_get. rewrite Ed, !list_lookup_total_alt.
    destruct (replicate 256 (inhabitant : fp_dst) !! Z.to_nat k) as [d|] eqn:E; [|done]. by apply zero_dsts in E as ->.
Qed.

Lemma new_qdisc_spec now now_real mul shift : scheme_ok → 0 ≤ Flags.alloc_data_bytes_from_scheme emu_scheme →
  wp (fpq_new_qdisc B emu_scheme 0 0 now now_real mul shift) (λ r p l, r = 0 ∧ fp_ok B false p ∧ (∀ k, unused p k = 0) ∧ l = []) zero_fp.
Proof using.
  intros Hs Hb. unfold fpq_new_qdisc. apply wp_bind, wp_get. apply wp_bind, wp_modify. apply wp_bind.
  set (q0 := set_unreq _ _ _ _).
  set (q1 := if EMULATION_ALGO B then set_emu_scheme (Flags.areq_data_type_from_scheme emu_scheme) (Flags.areq_data_bytes_from_scheme emu_scheme)
       (Flags.alloc_data_type_from_scheme emu_scheme) (Flags.alloc_data_bytes_from_scheme emu_scheme) q0 else q0).
  eapply (wp_mono _ (λ _ p l, p = q1 ∧ l = [])).
  { unfold q1. destruct (EMULATION_ALGO B); [by apply wp_modify|by apply wp_ret]. }
  intros [] ? ? [-> ->]. apply wp_bind, wp_modify, wp_bind, wp_modify. simpl negb. cbv iota.
  apply wp_bind, wp_modify, wp_bind, wp_modify. set (q2 := set_conn_lock _ _).
  assert (conn q2 = zero_conn zero_ops 0 0 ∧ dsts q2 = replicate 256 inhabitant ∧ unreq_flows q2 = replicate 256 0 ∧
    unreq_dsts_head q2 = 0 ∧ unreq_dsts_tail q2 = 0 ∧ conn_lock q2 = false ∧ no_data B q2 ∧ 0 ≤ q_alloc_data_bytes q2 ∧
    fastpass_sch_proto_ops B (Flags.alloc_data_bytes_from_scheme emu_scheme) = fastpass_sch_proto_ops B (q_alloc_data_bytes q2))
    as (Ec & Ed & Eu & Eh & Et & El & Hd & Hb2 & Eo).
  { unfold q2, q1, no_data, scheme_ok, fastpass_sch_proto_ops in *. destruct (EMULATION_ALGO B); by split_and!. }
  clearbody q2. clear q0 q1.
  apply wp_bind. unfold on_conn, conn_run. apply wp_bind, wp_bind, wp_get. rewrite Ec.
  destruct (wp_inv _ _ _ (init_conn_spec now_real (fastpass_sch_proto_ops B (Flags.alloc_data_bytes_from_scheme emu_scheme))
    (reset_window_us * NSEC_PER_USEC) retrans_timeout_ns (zero_conn zero_ops 0 0) ltac:(simpl; unfold MAX_ALLOC_BYTES_PER_TSLOT; destruct (EMULATION_ALGO B); lia)
    (out_wf_zero _ _ _) (proj2 (wnd_zero _ _ _)))) as ([] & c & l & Hrun & Hc & Eoc & Hp & ->).
  apply wp_bind. eapply wp_deref; [exact Hrun|]. apply wp_bind, wp_modify, wp_ret. simpl. apply wp_bind, wp_ret, wp_ret, wp_ret.
  split; [done|]. destruct (zero_fp_ok (set_conn c q2)) as [? ?]; try done. simpl. by rewrite Eoc.
Qed.

(** ** The whole endpoint *)
Lemma ep_of_empty p q : tsq_empty p q → fp_ok B false p → (∀ k, unused p k = 0) → ep_ok B false None q.
Proof using.
  intros [El Hlen Ef _ _ Ep] Hp Hu. assert (∀ k, flow_of q k = new_flow k) as Efl by (intros k; unfold flow_of; by rewrite Ef, lookup_empty).
  constructor; [constructor; [done|done|intros k f; by rewrite Ef, lookup_empty]|by rewrite Ep| |].
  - intros k _. unfold waiting. by rewrite Efl, Ep, Hu.
  - intros k. rewrite Efl. constructor.
Qed.

Lemma tsq_tc_init_spec now now_real opt : scheme_ok → 0 ≤ Flags.alloc_data_bytes_from_scheme emu_scheme → opt_ok opt →
  wp (tsq_tc_init now now_real false false false opt) (λ r q l, r = 0 ∧ ep_ok B false None q ∧ l = [] ∧
    enqueue_skb_q q = [] ∧ reg_prio q = [] ∧ hi_prio q = [] ∧ prequeue q = [] ∧ dropqueue q = [] ∧ dst_hash_tbl q = ∅) zero_ep.
Proof.
  intros Hs Hb Hopt. unfold tsq_tc_init. do 9 (apply wp_bind, wp_modify). apply wp_bind. unfold set_tslot.
  destruct (tslot_len_ok 1 20) as (len & El & Hl); [lia..|]. apply wp_bind. eapply wp_deref; [exact El|]. apply wp_modify.
  apply wp_bind, wp_modify. cbv iota. set (q1 := set_flows 0 0 _).
  assert (tsq_empty zero_fp q1) as Hq1 by (by constructor).
  apply wp_bind. eapply (wp_mono _ (λ r q l, r = 0 ∧ tsq_empty zero_fp q ∧ l = [])).
  { destruct opt as [[e|tb]|]; [done|by apply tsq_tc_change_spec|]. apply wp_bind, wp_get. by apply tsq_tc_resize_spec. }
  intros r q2 l (-> & Hq2 & ->). cbv iota. simpl negb. cbv iota. apply wp_bind, wp_get. apply wp_on_priv.
  pose proof Hq2 as [El2 Hlen2 Ef2 (E1 & E2 & E3 & E4 & E5) Hts2 Ep2]. rewrite Ep2.
  eapply wp_mono; [by apply new_qdisc_spec|]. intros r p l (-> & Hp & Hu & ->). split; [done|]. split; [|done].
  by apply (ep_of_empty p).
Qed.

(** ** Reachable states *)
Context (psched_l2t_ns : Z → Z → Z).
Notation run_ := (run_ep B csum_replace2 emu_scheme 0 0 psched_l2t_ns).

(** The device is opened, then anything happens in any order, as long as no step
    that holds a lock fails to get memory. *)
Inductive ep_reachable : world → Prop :=
| er_init now now_real opt q l : opt_ok opt → tsq_tc_init now now_real false false false opt zero_ep = Some (0, q, l) →
    ep_reachable {| wq := q; todo := []; adding := None; arrived := []; departed := [] |}
| er_step w i w' l : ep_reachable w → may_ep B w i → memory_ok i → run_ i w = Some (tt, w', l) → ep_reachable w'.

Lemma ep_reachable_ok w : scheme_ok → 0 ≤ Flags.alloc_data_bytes_from_scheme emu_scheme → reads_areq_data B = false →
  costs_ok psched_l2t_ns → ep_reachable w → world_ok B w.
Proof.
  intros Hs Hb Hr Hc. induction 1 as [now now_real opt q l Hopt Hrun|w i w' l _ IH Hi Hmem Hrun].
  - pose proof (tsq_tc_init_spec now now_real opt Hs Hb Hopt) as Hw. unfold wp in Hw. rewrite Hrun in Hw.
    destruct Hw as (_ & Hq & _ & E1 & E2 & E3 & E4 & E5 & E6). constructor; [done|done|].
    assert (∀ k, inside k q = []) as Hin by (intros k; unfold inside, flow_of; by rewrite E4, E6, lookup_empty).
    constructor; simpl.
    + rewrite E3, E2. constructor.
    + rewrite E1. constructor.
    + constructor.
    + intros _ k. rewrite Hin. constructor.
    + intros _ k. unfold in_transit. simpl. by rewrite Hin, E1.
  - pose proof (run_ep_ok B csum_replace2 emu_scheme 0 0 psched_l2t_ns w i Hr Hc IH Hi Hmem) as Hw. unfold wp in Hw. rewrite Hrun in Hw.
    by destruct Hw.
Qed.
End init.

(** ** A sample endpoint *)
Definition sample_cost (rate len : Z) : Z := 1000 * u16 len + 1.
Definition sample_csum (sum old new : Z) : Z := u16 (sum + old - new).
Definition sample_scheme : string := "drop_tail".

Lemma sample_costs_ok : costs_ok sample_cost.
Proof. intros rate len. unfold sample_cost. pose proof (u16_range len). lia. Qed.

Lemma sample_scheme_ok B : scheme_ok B sample_scheme.
Proof. done. Qed.

(** A TCP packet with number [n] for the node [dst]. *)
Definition packet (n dst : Z) : sk_buff := {| skb_addr := n; skb_protocol := ETH_P_IP; h_dest := 0;
  iph := {| ip_ihl := 5; ip_tos := 0; ip_tot_len := 1500; ip_protocol := IPPROTO_TCP; ip_check := 0; ip_daddr := dst |};
  iph6 := {| ip6_daddr0 := 0; ip6_flow_lbl0 := 0 |};
  skb_keys := Some {| ip_proto := IPPROTO_TCP; port_src := 40000; port_dst := 80 |};
  pkt_len := 1500; tcp_doff := 5; skb_transport := []; gso_segs := None |}.

Section traces.
Context (B : build).
Notation run_ := (run_ep B sample_csum sample_scheme 0 0 sample_cost).
Notation reachable_ := (ep_reachable B sample_csum sample_scheme sample_cost).

Definition start_world : world := {|
  wq := match @tsq_tc_init _ (init_ops B sample_csum sample_scheme) 0 0 false false false None zero_ep with
        | Some (_, q, _) => q | None => zero_ep end;
  todo := []; adding := None; arrived := []; departed := [] |}.

Lemma start_reachable : reachable_ start_world.
Proof using.
  pose proof (tsq_tc_init_spec B sample_csum sample_scheme 0 0 None (sample_scheme_ok B) ltac:(done) I) as Hw.
  destruct (wp_inv _ _ _ Hw) as (r & q & l & Hrun & -> & _). unfold start_world. rewrite Hrun.
  by apply (er_init B sample_csum sample_scheme sample_cost 0 0 None q l).
Qed.

Definition calmb (q : fp_sched_data) : bool := forallb (λ d, demand_tslots d <=? 2 ^ 61) (dsts q).

Lemma calmb_calm q : calmb q = true → calm q.
Proof using.
  unfold calmb. rewrite forallb_forall. intros Hq i d E. apply Z.leb_le, Hq. apply list_elem_of_In. by eapply list_elem_of_lookup_2.
Qed.

(** Decides [may_ep] and [memory_ok]; packets of the arbiter do not occur in the samples. *)
Definition mayb (w : world) (i : ep_input) : bool :=
  match i with
  | ETake => bool_decide (todo w = []) && bool_decide (adding w = None)
  | EFlow d s => bool_decide (adding w = None) && negb (d || s)
  | EAdd _ => calmb (priv (wq w))
  | EMaintenance _ _ => calmb (priv (wq w)) && (head (outwnd (conn (priv (wq w)))) + 1 <? 2 ^ 64)
  | EReceive _ _ _ _ => false
  | EEnqueue _ | EDequeue | ERetrans _ => true
  end.

Lemma mayb_may w i : mayb w i = true → may_ep B w i ∧ memory_ok i.
Proof using.
  destruct i; simpl; try done.
  - intros [?%bool_decide_eq_true_1 ?%bool_decide_eq_true_1]%andb_true_iff. done.
  - intros [?%bool_decide_eq_true_1 Hm]%andb_true_iff. by destruct nomem_dst, nomem_slot.
  - intros ?. split; [by apply calmb_calm|done].
  - intros [? ?%Z.ltb_lt]%andb_true_iff. split; [split; [by apply calmb_calm|done]|done].
Qed.

Fixpoint ep_trace (evs : list ep_input) (w : world) : option world :=
  match evs with
  | [] => Some w
  | i :: evs' =>
      if mayb w i then match run_ i w with Some (_, w', _) => ep_trace evs' w' | None => None end else None
  end.

Lemma trace_reachable evs : ∀ w w', reachable_ w → ep_trace evs w = Some w' → reachable_ w'.
Proof using.
  induction evs as [|i evs IH]; intros w w' Hw; simpl; [by intros [= <-]|]. destruct (mayb w i) eqn:Em; [|done].
  destruct (run_ i w) as [[[[] w1] l]|] eqn:Er; [|done]. apply IH.
  apply (er_step B sample_csum sample_scheme sample_cost w i w1 l); [done|apply (mayb_may w i Em)|apply (mayb_may w i Em)|done].
Qed.

Definition world_after (evs : list ep_input) : world := default start_world (ep_trace evs start_world).

Lemma world_after_reachable evs : reachable_ (world_after evs).
Proof using.
  unfold world_after. destruct (ep_trace evs start_world) as [w|] eqn:E; simpl; [|apply start_reachable].
  by eapply trace_reachable, E; apply start_reachable.
Qed.

Lemma reachable_world_ok w : reads_areq_data B = false → reachable_ w → world_ok B w.
Proof using. intros Hb Hw. by eapply ep_reachable_ok, Hw; [apply sample_scheme_ok|..|apply sample_costs_ok]. Qed.
End traces.

(** The packets are in timeslots, the demand is known, nothing was sent. *)
Definition arrivals : list ep_input :=
  [EEnqueue (packet 1 3); EEnqueue (packet 2 3); EEnqueue (packet 3 5); ETake;
   EFlow false false; EAdd 10; EFlow false false; EAdd 20; EFlow false false; EAdd 30].
Definition world1 : world := world_after endpoint arrivals.
(** Then the requests were sent. *)
Definition world2 : world := world_after endpoint (arrivals ++ [EMaintenance (10 ^ 9) false]).

Example world1_counters : (λ k, (demand_tslots (dst_of (priv (wq world1)) k), waiting (wq world1) k)) <$> [3; 5; 7] = [(2, 2); (1, 1); (0, 0)].
Proof. vm_compute. reflexivity. Qed.
Example world2_requested : (λ k, requested_of (priv (wq world2)) k) <$> [3; 5; 7] = [2; 1; 0].
Proof. vm_compute. reflexivity. Qed.

Notation sample_reachable := (ep_reachable endpoint sample_csum sample_scheme sample_cost).

Lemma world1_reachable : sample_reachable world1.
Proof. apply world_after_reachable. Qed.
Lemma world2_reachable : sample_reachable world2.
Proof. apply world_after_reachable. Qed.

(** The samples are evaluated by [vm_compute] only. *)
#[global] Opaque world1 world2.
