(* ===== verification/EndpointTheorems.v ===== *)
(** * Theorems about the endpoint *)

From S2P Require Import Timer Comm CommInv CommFill CommDemand RoundTrip AllocTrip AllocReach.
From S2P Require Import Prelude Platform Window WindowFacts WindowSpec WindowMarks Protocol ConnFacts ConnSpec ConnAck ConnSend ConnInwnd ConnSafe ConnLog.
From S2P Require Import Codec Checksum Samples Pacer Lists.
From S2P Require Import Tsq TsqFacts Endpoint EndpointFacts EndpointOwn EndpointSend EndpointRequest EndpointState EndpointAlloc EndpointReset EndpointRecv EndpointRun EndpointInit.

(** ** Deployments *)

(** An endpoint build with a scheme that sends no data with its requests, and times
    of transmission that are positive and fit 32 bits. *)
Record deployed (B : build) (emu_scheme : string) (psched_l2t_ns : Z → Z → Z) : Prop := {
  dp_endpoint : IS_ENDPOINT B = true;
  dp_scheme : scheme_ok B emu_scheme;
  dp_costs : costs_ok psched_l2t_ns;
}.

Lemma alloc_bytes_nonneg scheme : 0 ≤ Flags.alloc_data_bytes_from_scheme scheme.
Proof. unfold Flags.alloc_data_bytes_from_scheme. by case_match. Qed.

Lemma endpoint_reads B : IS_ENDPOINT B = true → reads_areq_data B = false.
Proof. intros E. unfold reads_areq_data. rewrite E. by destruct (EMULATION_ALGO B). Qed.

Lemma deployed_ok B `{H : HashOps} csum scheme psched w : deployed B scheme psched → ep_reachable B csum scheme psched w → world_ok B w.
Proof.
  intros [He Hs Hc]. apply ep_reachable_ok; [done|apply alloc_bytes_nonneg|by apply endpoint_reads|done].
Qed.

Lemma sample_deployed : deployed endpoint sample_scheme sample_cost.
Proof. constructor; [done|done|apply sample_costs_ok]. Qed.

(** ** Safety *)

(** No lock is held. *)
Definition unlocked (w : world) : Prop :=
  hash_tbl_lock (wq w) = false ∧ conn_lock (priv (wq w)) = false ∧ Forall (λ d, lock d = false) (dsts (priv (wq w))).

Lemma world_ok_unlocked B w : world_ok B w → unlocked w.
Proof.
  intros [[Ht Hf _ _] _ _]. split; [apply Ht|]. split; [apply Hf|]. apply Forall_lookup. intros i d E.
  by apply (fo_dst _ _ _ Hf i d).
Qed.

(** The state in which nothing can be done with flows any more. *)
Definition deadlocked (q : ep_state) : Prop :=
  hash_tbl_lock q = true ∧
  (∀ psched b1 b2 skb, enqueue_to_flow (P:=fp_sched_data) psched b1 b2 skb q = None) ∧
  (∀ ops key action id data, @tsq_handle_now fp_sched_data ops key action id data q = None).

Lemma locked_deadlocked q : hash_tbl_lock q = true → deadlocked q.
Proof.
  intros E. split; [done|]. split; intros; unfold enqueue_to_flow, tsq_handle_now, lock_hash_tbl, mbind, M_bind, get; by rewrite E.
Qed.

(** C2. In every state that the endpoint reaches from a successful [tsq_tc_init]
    while memory for new flows and timeslots is available, with packets of the host,
    packets of the arbiter that name destinations of the network (below 256),
    tasklets and timers in any order, the next step is defined: no lock is taken
    twice, no NULL pointer is followed, no table is read out of bounds. No
    FASTPASS_BUG_ON fires, and no lock is held afterwards - unless the step needs
    memory for a flow and does not get it: then it ends with the hash table locked
    for good. Assumed: the scheme sends no data with its requests, transmission
    times are positive and fit 32 bits, the demand of a flow is at most 2^61 when it
    grows, and sequence numbers stay below 2^64. *)
Theorem endpoint_safe B `{H : HashOps} csum_replace2 emu_scheme psched_l2t_ns w i :
  deployed B emu_scheme psched_l2t_ns → ep_reachable B csum_replace2 emu_scheme psched_l2t_ns w → may_ep B w i →
  wp (run_ep B csum_replace2 emu_scheme 0 0 psched_l2t_ns i)
    (λ _ w' l, no_bug l ∧ (unlocked w' ∨ ¬ memory_ok i ∧ deadlocked (wq w'))) w.
Proof.
  intros Hd Hw Hi. pose proof (deployed_ok _ _ _ _ _ Hd Hw) as Hok. pose proof Hd as [He _ Hc].
  eapply wp_mono; [by apply run_ep_defined; [by apply endpoint_reads|..]|]. intros [] w' l [Hl [Hw'|[Hm Hlk]]].
  - split; [done|]. left. by eapply world_ok_unlocked.
  - split; [done|]. right. split; [done|by apply locked_deadlocked].
Qed.

Lemma endpoint_safe_witness :
  wp (run_ep endpoint sample_csum sample_scheme 0 0 sample_cost (EMaintenance (10 ^ 9) false)) (λ _ w' l, no_bug l ∧ unlocked w') world1.
Proof.
  eapply wp_mono; [apply (endpoint_safe endpoint sample_csum sample_scheme sample_cost world1 (EMaintenance (10 ^ 9) false))|].
  - exact sample_deployed.
  - exact world1_reachable.
  - apply (proj1 (mayb_may endpoint world1 (EMaintenance (10 ^ 9) false) ltac:(vm_compute; reflexivity))).
  - intros [] w' l [Hl [Hw'|[Hm _]]]; [exact (conj Hl Hw')|]. destruct Hm. exact I.
Defined.

(** ** Packets *)

(** C6. Without network emulation the packets of a flow depart in the order in
    which they arrived, and none is lost: in every reachable state those that
    arrived are those that departed, then those admitted, those in the flow's
    timeslots, those that the tasklet took, and those that it did not take yet. *)
Theorem flows_are_fifo B `{H : HashOps} csum_replace2 emu_scheme psched_l2t_ns w k :
  deployed B emu_scheme psched_l2t_ns → EMULATION_ALGO B = false → ep_reachable B csum_replace2 emu_scheme psched_l2t_ns w →
  of_flow k (arrived w) = of_flow k (departed w) ++
    (of_flow k (prequeue (wq w)) ++ (skb_qs (flow_of (wq w) k) ≫= skbs)) ++ of_flow k (todo w) ++ of_flow k (enqueue_skb_q (wq w)).
Proof.
  intros Hd Hb Hw. pose proof (deployed_ok _ _ _ _ _ Hd Hw) as Hok.
  exact (qs_fifo _ _ (wo_queues _ _ Hok) Hb k).
Qed.

Lemma flows_are_fifo_witness : of_flow 3 (arrived world1) = [packet 1 3; packet 2 3] ∧
  (skb_qs (flow_of (wq world1) 3) ≫= skbs) = [packet 1 3; packet 2 3].
Proof.
  pose proof (flows_are_fifo endpoint sample_csum sample_scheme sample_cost world1 3 sample_deployed eq_refl world1_reachable) as E.
  assert (of_flow 3 (arrived world1) = [packet 1 3; packet 2 3]) as Ea by (vm_compute; reflexivity).
  assert (of_flow 3 (departed world1) = [] ∧ of_flow 3 (prequeue (wq world1)) = [] ∧ of_flow 3 (todo world1) = [] ∧
    of_flow 3 (enqueue_skb_q (wq world1)) = []) as (E1 & E2 & E3 & E4) by (vm_compute; split_and!; reflexivity).
  split; [exact Ea|]. rewrite Ea, E1, E2, E3, E4, app_nil_r in E. symmetry. exact E.
Defined.

(** ** Demand *)

(** C15. The counters of every destination are in order in every reachable state:
    what is allocated is used, used timeslots were demanded, what is acknowledged
    was requested, what is requested was demanded and fits the window of requests;
    and the unused demand of a flow is the number of timeslots that wait in it, but
    for a timeslot that the scheduler is about to be told of. *)
Theorem endpoint_counters B `{H : HashOps} csum_replace2 emu_scheme psched_l2t_ns w k :
  deployed B emu_scheme psched_l2t_ns → ep_reachable B csum_replace2 emu_scheme psched_l2t_ns w → 0 ≤ k < 256 →
  let d := dst_of (priv (wq w)) k in
  0 ≤ used_tslots d ∧ alloc_tslots d = used_tslots d ∧ used_tslots d ≤ demand_tslots d ∧
  0 ≤ acked_tslots d ∧ acked_tslots d ≤ requested_tslots d ∧ requested_tslots d ≤ demand_tslots d ∧
  requested_tslots d < acked_tslots d + FASTPASS_REQUEST_WINDOW_SIZE ∧
  demand_tslots d - used_tslots d =
    Z.of_nat (length (skb_qs (flow_of (wq w) k))) - (if decide (fst <$> adding w = Some k) then 1 else 0).
Proof.
  intros Hd Hw Hk. pose proof (deployed_ok _ _ _ _ _ Hd Hw) as [[Ht Hf Hl _] _ _]. cbn zeta.
  destruct (dst_at B false (priv (wq w)) k Hf Hk) as (d & E & [[? ? ? ? ? ?] _] & _). rewrite (dst_of_lookup _ _ _ E).
  specialize (Hl k Hk). unfold waiting, unused in Hl. rewrite (dst_of_lookup _ _ _ E) in Hl.
  split_and!; try lia. destruct (decide _) as [Ea|Ea].
  - rewrite bool_decide_eq_true_2 in Hl by done. simpl in Hl. lia.
  - rewrite bool_decide_eq_false_2 in Hl by done. simpl in Hl. lia.
Qed.

Lemma endpoint_counters_witness :
  demand_tslots (dst_of (priv (wq world2)) 3) - used_tslots (dst_of (priv (wq world2)) 3) =
  Z.of_nat (length (skb_qs (flow_of (wq world2) 3))) - (if decide (fst <$> adding world2 = Some 3) then 1 else 0).
Proof. apply (endpoint_counters endpoint sample_csum sample_scheme sample_cost world2 3 sample_deployed world2_reachable). lia. Defined.

(** C11. No demand is forgotten: in every reachable state a flow with demand that
    was not requested waits in the queue of requests, once, or has a request that
    is not acknowledged. *)
Theorem demand_is_not_forgotten B `{H : HashOps} csum_replace2 emu_scheme psched_l2t_ns w k :
  deployed B emu_scheme psched_l2t_ns → ep_reachable B csum_replace2 emu_scheme psched_l2t_ns w → 0 ≤ k < 256 →
  let d := dst_of (priv (wq w)) k in
  NoDup (reqs (priv (wq w))) ∧
  (requested_tslots d < demand_tslots d → k ∈ reqs (priv (wq w)) ∨ acked_tslots d < requested_tslots d).
Proof.
  intros Hd Hw Hk. pose proof (deployed_ok _ _ _ _ _ Hd Hw) as [[Ht Hf Hl _] _ _]. cbn zeta.
  destruct (dst_at B false (priv (wq w)) k Hf Hk) as (d & E & [_ Hwants] & _). rewrite (dst_of_lookup _ _ _ E).
  pose proof (fo_queue _ _ _ Hf) as Hq. split; [apply Hq|]. intros Hlt. destruct (Hwants Hlt) as [Es|?]; [left|by right].
  destruct (qo_member _ Hq _ _ E) as [_ Hin]. rewrite Z2Nat.id in Hin by lia. by apply Hin.
Qed.

Lemma demand_is_not_forgotten_witness :
  3 ∈ reqs (priv (wq world1)) ∨ acked_tslots (dst_of (priv (wq world1)) 3) < requested_tslots (dst_of (priv (wq world1)) 3).
Proof.
  apply (demand_is_not_forgotten endpoint sample_csum sample_scheme sample_cost world1 3 sample_deployed world1_reachable); [lia|].
  vm_compute. reflexivity.
Defined.

(** ** Requests *)

(** C16. [send_request], with memory and before the queue is destroyed, sends one
    packet and records it under the next sequence number. Its requests are for the
    first ten flows of the queue that may ask for more, in order, each for its whole
    demand as far as the window of requests reaches; these flows and those that may
    not ask for more leave the queue, the total of every other flow is kept. [q1]
    is the state after the packet that falls off the window, if any, was found
    lost; its queue extends that of the start. *)
Theorem request_asks_for_oldest B `{H : HashOps} csum_replace2 emu_scheme psched_l2t_ns w now :
  deployed B emu_scheme psched_l2t_ns → ep_reachable B csum_replace2 emu_scheme psched_l2t_ns w →
  calm (priv (wq w)) → head (outwnd (conn (priv (wq w)))) + 1 < 2 ^ 64 → is_destroyed (priv (wq w)) = false →
  let q := priv (wq w) in
  wp (send_request B now false) (λ _ q' l, ∃ q1 pd,
    own_step q q1 ∧
    pd_areq pd = (requests_for (dst_of q1) 10 (reqs q1)).1 ∧ pd_n_areq pd = Z.of_nat (length (pd_areq pd)) ∧
    (requests_for (dst_of q1) 10 (reqs q1)).2 `prefix_of` reqs q' ∧
    (∀ a, a ∈ pd_areq pd → requested_of q' (src_dst_key a) = tslots a) ∧
    (∀ i, 0 ≤ i < 256 → i ∉ (src_dst_key <$> pd_areq pd) → requested_of q' i = requested_of q i) ∧
    packet_sent q q' pd l) q.
Proof.
  intros Hd Hw Hc Hh Hdes. pose proof (deployed_ok _ _ _ _ _ Hd Hw) as [[Ht Hf Hl _] _ _]. cbn zeta.
  eapply wp_mono; [by apply send_request_spec|]. intros [] q' l (Hq' & Hs & Hr). rewrite Hdes in Hr.
  destruct Hr as (q1 & pd & [? ? ? ? ? ? ?]). by exists q1, pd.
Qed.

Lemma request_asks_for_oldest_witness :
  wp (send_request endpoint (10 ^ 9) false) (λ _ q' l, ∃ pd, packet_sent (priv (wq world1)) q' pd l) (priv (wq world1)).
Proof.
  eapply wp_mono; [apply (request_asks_for_oldest endpoint sample_csum sample_scheme sample_cost world1 (10 ^ 9) sample_deployed world1_reachable)|].
  - apply (calmb_calm). vm_compute. reflexivity.
  - vm_compute. reflexivity.
  - vm_compute. reflexivity.
  - intros [] q' l (q1 & pd & _ & _ & _ & _ & _ & _ & Hs). exists pd. exact Hs.
Defined.

(** The arbiter recovers the requested total from the 16 bits in the packet: if
    the total [D] that it has recorded for the flow (in 32 bits) is at least what
    the endpoint knows to be acknowledged, and not more than what is requested now,
    [expand_demand] gives the total of the request. *)
Theorem requests_are_decoded q n a D :
  a ∈ (requests_for (dst_of q) n (reqs q)).1 → acked_tslots (dst_of q (src_dst_key a)) ≤ D ≤ tslots a →
  expand_demand (u32 D) (u16 (tslots a)) = u32 (tslots a).
Proof.
  intros Ha HD. apply requests_for_keys in Ha as (_ & Et & _). apply expand_demand_exact.
  unfold new_requested in Et. change FASTPASS_REQUEST_WINDOW_SIZE with 8192 in Et. lia.
Qed.

Lemma requests_are_decoded_witness : expand_demand 0 2 = 2.
Proof.
  apply (requests_are_decoded (priv (wq world1)) 10 {| src_dst_key := 3; tslots := 2 |} 0).
  - assert (requests_for (dst_of (priv (wq world1))) 10 (reqs (priv (wq world1))) =
      ([{| src_dst_key := 3; tslots := 2 |}; {| src_dst_key := 5; tslots := 1 |}], [])) as -> by (vm_compute; reflexivity). by left.
  - assert (acked_tslots (dst_of (priv (wq world1)) 3) = 0) as E by (vm_compute; reflexivity). simpl src_dst_key. rewrite E. simpl. lia.
Defined.

(** ** Allocations *)

(** C7. Without network emulation [handle_alloc] implements [admit_all] on the
    timeslots of the flows: every allocated timeslot admits the oldest timeslot of
    its flow, in the order of the allocations, unless none waits that was demanded;
    entry 0 is skipped, an entry beyond the destinations ends the loop. *)
Theorem allocations_admit_oldest B `{H : HashOps} csum_replace2 emu_scheme psched_l2t_ns w now ids specs rest :
  deployed B emu_scheme psched_l2t_ns → EMULATION_ALGO B = false →
  ep_reachable B csum_replace2 emu_scheme psched_l2t_ns w →
  Forall (λ d, 0 ≤ d < 256) ids → Forall (λ b, 0 ≤ b < 256) (specs ++ rest) →
  let q := wq w in
  let slots := λ k, skb_qs (flow_of q k) in
  wp (handle_alloc B csum_replace2 emu_scheme 0 0 now ids (Z.of_nat (length ids)) (specs ++ rest) (Z.of_nat (length specs)))
    (λ _ q' l, no_bug l ∧
      (∀ k, skb_qs (flow_of q' k) = (admit_all (fst <$> adding w) ids specs slots).1 k) ∧
      prequeue q' = prequeue q ++ (admit_all (fst <$> adding w) ids specs slots).2) q.
Proof.
  intros Hd Hb Hw Hids Hby. pose proof (deployed_ok _ _ _ _ _ Hd Hw) as [Hq _ _]. cbn zeta.
  eapply wp_mono; [apply (handle_alloc_spec B csum_replace2 emu_scheme 0 0 false (fst <$> adding w)); try done; [lia|]|].
  - unfold alloc_bytes, fastpass_sch_proto_ops, MAX_ALLOC_BYTES_PER_TSLOT. simpl. rewrite Hb, length_app. lia.
  - intros [] q' l [Hl [_ _ _ _ Hf Ho]]. rewrite Nat2Z.id, take_app_length in Hf, Ho.
    split; [by apply rx_quiet_no_bug|]. split; [by apply Hf|by apply Ho].
Qed.

(** Allocations to nodes 5, 3, none, 3, and 5, where one packet waits. *)
Lemma allocations_admit_oldest_witness :
  wp (handle_alloc endpoint sample_csum sample_scheme 0 0 0 [3; 5] 2 [32; 16; 0; 16; 32] 5)
    (λ _ q' _, prequeue q' = [packet 3 5; packet 1 3; packet 2 3] ∧ skb_qs (flow_of q' 3) = []) (wq world1).
Proof.
  assert (adding world1 = None ∧ prequeue (wq world1) = [] ∧
    (admit_all None [3; 5] [32; 16; 0; 16; 32] (λ k, skb_qs (flow_of (wq world1) k))).2 = [packet 3 5; packet 1 3; packet 2 3] ∧
    (admit_all None [3; 5] [32; 16; 0; 16; 32] (λ k, skb_qs (flow_of (wq world1) k))).1 3 = []) as (E1 & E2 & E3 & E4)
    by (vm_compute; split_and!; reflexivity).
  eapply wp_mono; [apply (allocations_admit_oldest endpoint sample_csum sample_scheme sample_cost world1 0 [3; 5] [32; 16; 0; 16; 32] []
    sample_deployed eq_refl world1_reachable)|].
  - repeat constructor; lia.
  - repeat constructor; lia.
  - intros [] q' l (_ & Hf & Ho). rewrite E1 in Hf, Ho. simpl fmap in Hf, Ho. rewrite E2, E3 in Ho. rewrite Hf, E4, Ho. split; reflexivity.
Defined.

(** C5. Allocation path, end to end: a descriptor that carries the allocations [p]
    (as [fill_packet_alloc] leaves it) and reports, encoded by the arbiter and received
    by the endpoint as a new packet, admits for each allocation, in order, the oldest
    timeslot of its flow, unless none waits that was demanded. Whatever the packet
    acknowledges and reports, no check fails and no other packet moves. *)
Theorem allocations_reach_endpoint (Bs B : build) `{H : HashOps} `{!HashOk H} csum_replace2 emu_scheme psched_l2t_ns
    pd (p : list pending_alloc) min_size max_len e0 w now now_real addr addr' :
  deployed B emu_scheme psched_l2t_ns → EMULATION_ALGO B = false →
  ep_reachable B csum_replace2 emu_scheme psched_l2t_ns w → is_destroyed (priv (wq w)) = false →
  alloc_packet Bs pd min_size → packs Bs pd p → Forall (λ a, 0 ≤ al_dst a < 256) p →
  Forall (λ a, 0 ≤ src_dst_key a < 256) (sent_areqs pd) →
  8 + Z.of_nat (length (body_bytes Bs pd)) ≤ max_len → min_size ≤ max_len < 2 ^ 31 →
  max_len ≤ Z.of_nat (length (e_buf e0)) → csum_from Bs pd min_size addr' = csum_from Bs pd min_size addr →
  in_windows pd (conn (priv (wq w))) →
  let r := admit_each (fst <$> adding w) (al_dst <$> p) (λ k, skb_qs (flow_of (wq w) k)) in
  wp (fpproto_encode_packet Bs pd addr max_len min_size) (λ n e' _,
    wp (ctrl_rcv_handler B csum_replace2 emu_scheme 0 0 now now_real addr' (take (Z.to_nat n) (e_buf e'))) (λ _ q' l,
      no_bug l ∧ (∀ k, skb_qs (flow_of q' k) ≫= skbs = r.1 k ≫= skbs) ∧ prequeue q' = prequeue (wq w) ++ r.2) (wq w)) e0.
Proof.
  intros Hd Hb Hw Hdes Hpd Hp Hnet Hrep Hl1 Hl2 Hl3 Hck Hwin r. pose proof (deployed_ok _ _ _ _ _ Hd Hw) as [Hq _ _].
  eapply wp_mono; [by apply (encode_packet_spec Bs pd (ap_ok _ _ _ Hpd))|]. intros n e' l (_ & _ & ->).
  destruct (packs_nodes Bs pd min_size Hpd p Hp Hnet Hrep) as [Hnodes _].
  eapply wp_mono; [by apply (alloc_rcv_spec Bs B csum_replace2 emu_scheme 0 0 pd min_size now now_real addr addr' Hpd Hb (fst <$> adding w) (wq w)
    (endpoint_reads B (dp_endpoint _ _ _ Hd)))|].
  intros [] q' l' (Hl & _ & _ & Ha). split; [by apply rx_quiet_no_bug|]. exact (allocated_each Bs pd min_size Hpd _ p (wq w) q' Hp Hnet Ha).
Qed.

(** Allocations to the nodes 3, 5 and 3, and a report on node 3. *)
Definition sample_allocs : list pending_alloc :=
  (λ d, {| al_dst := d; al_timeslot := 7; al_flags := 0; al_id := 0; al_data := [0; 0] |}) <$> [3; 5; 3].
Definition alloc_pd : fpproto_pktdesc := {|
  pd_sent_timestamp := 0; pd_seqno := in_max_seqno (conn (priv (wq world1))) + 1;
  pd_ack_seq := Window.head (outwnd (conn (priv (wq world1)))) - 1; pd_ack_vec := 0; pd_send_reset := false;
  pd_reset_timestamp := 0; pd_n_areq := 1; pd_areq := [{| src_dst_key := 3; tslots := 2 |}];
  pd_areq_data_type := 0; pd_areq_data_bytes := 0; pd_areq_data_counts := []; pd_areq_data := [];
  pd_alloc_tslot := 4; pd_used_alloc_tslot := 3; pd_base_tslot := 7; pd_n_dsts := 2; pd_dsts := [3; 5];
  pd_tslot_desc := [16; 32; 16; 0]; pd_emu_tslot_desc := [] |}.

Lemma alloc_pd_packet : alloc_packet controller alloc_pd 64.
Proof.
  constructor; try (vm_compute; intuition congruence).
  - constructor; try (vm_compute; intuition congruence). intros d Hd. by apply not_elem_of_nil in Hd.
Qed.

Lemma alloc_pd_packs : packs controller alloc_pd sample_allocs.
Proof.
  constructor; try reflexivity.
  - intros j a Hj. split; [|done].
    destruct j as [|[|[|j]]]; [| | |by rewrite lookup_ge_None_2 in Hj by (simpl; lia)]; injection Hj as <-; eexists; (split; [reflexivity|]);
      vm_compute; intuition congruence.
  - intros a p' [= <- _]. reflexivity.
Qed.

Lemma alloc_pd_windows : in_windows alloc_pd (conn (priv (wq world1))).
Proof. constructor; vm_compute; intuition congruence. Qed.

Lemma allocations_reach_endpoint_witness :
  wp (fpproto_encode_packet controller alloc_pd 0 200 64) (λ n e' _,
    wp (ctrl_rcv_handler endpoint sample_csum sample_scheme 0 0 0 0 0 (take (Z.to_nat n) (e_buf e')))
      (λ _ q' _, prequeue q' = [packet 1 3; packet 3 5; packet 2 3]) (wq world1))
    {| e_buf := replicate 200 0; e_curp := 0; e_remaining := 0 |}.
Proof.
  assert (adding world1 = None ∧ prequeue (wq world1) = [] ∧ is_destroyed (priv (wq world1)) = false ∧
    (admit_each None (al_dst <$> sample_allocs) (λ k, skb_qs (flow_of (wq world1) k))).2 = [packet 1 3; packet 3 5; packet 2 3])
    as (E1 & E2 & E3 & E4) by (vm_compute; split_and!; reflexivity).
  eapply wp_mono; [apply (allocations_reach_endpoint controller endpoint sample_csum sample_scheme sample_cost alloc_pd sample_allocs 64 200
    {| e_buf := replicate 200 0; e_curp := 0; e_remaining := 0 |} world1 0 0 0 0 sample_deployed eq_refl world1_reachable E3
    alloc_pd_packet alloc_pd_packs)|].
  - repeat (constructor; [simpl; lia|]). constructor.
  - repeat (constructor; [simpl; lia|]). constructor.
  - vm_compute. congruence.
  - lia.
  - vm_compute. congruence.
  - reflexivity.
  - exact alloc_pd_windows.
  - intros n e' l Hrx. eapply wp_mono; [exact Hrx|]. intros [] q' l' (_ & _ & Ho).
    rewrite E1 in Ho. simpl fmap in Ho. rewrite E2 in Ho. rewrite Ho. exact E4.
Defined.

(** C21. A report that the arbiter allocated [n] timeslots more than the endpoint
    received: if they were requested, they are counted as used and demanded again;
    if they were not, the counts cannot be reconciled, and the endpoint resets the
    connection and all its flows. A report of no more allocations than were received
    changes nothing. *)
Theorem reports_are_reconciled B `{H : HashOps} csum_replace2 emu_scheme psched_l2t_ns w now now_real k low :
  deployed B emu_scheme psched_l2t_ns → ep_reachable B csum_replace2 emu_scheme psched_l2t_ns w → 0 ≤ k < 256 →
  let c := counters_of (dst_of (priv (wq w)) k) in
  let n := report_excess (c_alloc c) low in
  wp (handle_report B now now_real k low) (λ more q' l, no_bug l ∧ ep_ok B false (fst <$> adding w) q' ∧
    if (n <=? 0) || (c_alloc c + n <=? c_requested c) then
      more = true ∧ same_counters k (wq w) q' ∧
      counters_of (dst_of (priv q') k) = if (n <=? 0) || EMULATION_ALGO B then c else lost n c
    else more = false ∧ (∃ fs, flows_reset fs (wq w) q' ∧ ∀ k, 0 ≤ k < 256 → k ∈ fs) ∧ is_reset B now_real false (conn (priv q'))) (wq w).
Proof.
  intros Hd Hw Hk. pose proof (deployed_ok _ _ _ _ _ Hd Hw) as [Hq _ _]. cbn zeta.
  eapply wp_mono; [by apply handle_report_spec|]. intros more q' l (Hl & Hp & Ho).
  split; [by apply rx_quiet_no_bug|]. split; [apply Hp|exact Ho].
Qed.

(** The arbiter counts one allocation of the two that were requested. *)
Lemma reports_are_reconciled_witness :
  wp (handle_report endpoint 0 0 3 1) (λ more q' _, more = true ∧
    counters_of (dst_of (priv q') 3) = {| c_demand := 3; c_requested := 2; c_alloc := 1; c_used := 1 |}) (wq world2).
Proof.
  assert (counters_of (dst_of (priv (wq world2)) 3) = {| c_demand := 2; c_requested := 2; c_alloc := 0; c_used := 0 |}) as E
    by (vm_compute; reflexivity).
  eapply wp_mono; [apply (reports_are_reconciled endpoint sample_csum sample_scheme sample_cost world2 0 0 3 1 sample_deployed world2_reachable); lia|].
  intros more q' l (_ & _ & Ho). rewrite E in Ho. change (report_excess _ _) with 1 in Ho. simpl in Ho. destruct Ho as (-> & _ & Ec).
  split; [reflexivity|exact Ec].
Defined.

(** C22. A reset of the flows, on a connection without unacknowledged packets:
    every flow with unused demand starts from zero with what it has not used as its
    demand, waits in the queue of requests, and its timeslots are numbered from
    zero; a flow without unused demand keeps its counters. No packet is lost. *)
Theorem resets_rebase B `{H : HashOps} csum_replace2 emu_scheme psched_l2t_ns w now :
  deployed B emu_scheme psched_l2t_ns → ep_reachable B csum_replace2 emu_scheme psched_l2t_ns w →
  (∀ s, out_pd (conn (priv (wq w))) s = None) →
  wp (handle_reset B now) (λ _ q' l, l = [] ∧ (EMULATION_ALGO B = false → ∀ k, inside k q' = inside k (wq w)) ∧
    ∀ k, 0 ≤ k < 256 → let c := counters_of (dst_of (priv (wq w)) k) in
      if c_demand c =? c_used c then counters_of (dst_of (priv q') k) = c
      else counters_of (dst_of (priv q') k) = {| c_demand := c_demand c - c_used c; c_requested := 0; c_alloc := 0; c_used := 0 |} ∧
           k ∈ reqs (priv q') ∧ flow_of q' k = flow_renumber (flow_of (wq w) k)) (wq w).
Proof.
  intros Hd Hw Hno. pose proof (deployed_ok _ _ _ _ _ Hd Hw) as [Hq _ _].
  eapply wp_mono; [by apply (handle_reset_spec B false (fst <$> adding w))|].
  intros [] q' l (-> & [_ Hs _] & fs & Hfs & Hall). split; [done|]. split; [intros Hb; by apply Hs|].
  intros k Hk. cbn zeta. pose proof (fr_counters _ _ _ Hfs k Hk) as Hc. rewrite decide_True in Hc by auto. unfold rebase in Hc.
  destruct (Z.eqb_spec (c_demand (counters_of (dst_of (priv (wq w)) k))) (c_used (counters_of (dst_of (priv (wq w)) k)))) as [E|E]; [done|].
  assert (unused (priv (wq w)) k ≠ 0) as Hu by (rewrite unused_counters; lia).
  split; [done|]. split; [by apply (fr_waits _ _ _ Hfs); auto|by apply (fr_ids _ _ _ Hfs); auto].
Qed.

Lemma resets_rebase_witness :
  wp (handle_reset endpoint 0) (λ _ q' _, 3 ∈ reqs (priv q')) (wq world1).
Proof.
  eapply wp_mono; [apply (resets_rebase endpoint sample_csum sample_scheme sample_cost world1 0 sample_deployed world1_reachable)|].
  - assert (wnd_set (outwnd (conn (priv (wq world1)))) = ∅) as E by (vm_compute; reflexivity). exact (out_pd_empty _ E).
  - intros [] q' l (_ & _ & Hall). specialize (Hall 3 ltac:(lia)). cbn zeta in Hall.
    assert (counters_of (dst_of (priv (wq world1)) 3) = {| c_demand := 2; c_requested := 0; c_alloc := 0; c_used := 0 |}) as E
      by (vm_compute; reflexivity).
    rewrite E in Hall. simpl in Hall. apply Hall.
Defined.

(** ** Errors *)

(** C39. When an allocation of memory fails while the first packet of a flow is
    put into its timeslot, the packet is admitted at once, and the lock of the hash
    table is not released: the next packet and the next allocation wait for ever. *)
Theorem failed_allocation_deadlocks psched_l2t_ns (q : ep_state) skb nomem_dst nomem_slot :
  costs_ok psched_l2t_ns → hash_tbl_lock q = false → dst_hash_tbl q !! data_key skb = None → nomem_dst || nomem_slot = true →
  wp (enqueue_to_flow (P:=fp_sched_data) psched_l2t_ns nomem_dst nomem_slot skb)
    (λ r q' l, r = None ∧ prequeue q' = prequeue q ++ [skb] ∧ deadlocked q') q.
Proof.
  intros Hc El Ek Hn. pose proof (Hc (data_rate q) (pkt_len skb)) as Hcost. unfold enqueue_to_flow. tsq_steps. apply wp_lock; [done|]. tsq_steps.
  unfold classify_data, dst_lookup. tsq_steps. simpl dst_hash_tbl. rewrite Ek. simpl negb. cbv iota.
  assert (∀ q1, hash_tbl_lock q1 = true → prequeue q1 = prequeue q →
    wp (enqueue_to_prequeue (P:=fp_sched_data) skb;; mret None) (λ (r : option Z) q' l, r = None ∧ prequeue q' = prequeue q ++ [skb] ∧ deadlocked q') q1) as Hpre.
  { intros q1 E1 E2. unfold enqueue_to_prequeue. tsq_steps. rewrite E2. split; [done|]. split; [done|]. by apply locked_deadlocked. }
  destruct nomem_dst; [by apply wp_ret, Hpre|]. simpl in Hn. subst nomem_slot. unfold put_dst. tsq_steps. simpl credit.
  rewrite (proj2 (Z.gtb_lt _ _)) by mlia. by apply Hpre.
Qed.

Lemma failed_allocation_deadlocks_witness :
  wp (enqueue_to_flow (P:=fp_sched_data) sample_cost false true (packet 4 7)) (λ r q' l, deadlocked q') (wq world1).
Proof.
  eapply wp_mono; [apply (failed_allocation_deadlocks sample_cost (wq world1) (packet 4 7) false true sample_costs_ok)|].
  - vm_compute. reflexivity.
  - vm_compute. reflexivity.
  - reflexivity.
  - intros r q' l (_ & _ & Hd). exact Hd.
Defined.

(** The destinations of an allocation are not checked: one of 256 or more is
    used as an index into the 256 destinations, which is undefined. *)
Theorem allocation_outside_network B `{H : HashOps} csum_replace2 emu_scheme psched_l2t_ns w now k :
  deployed B emu_scheme psched_l2t_ns → EMULATION_ALGO B = false →
  ep_reachable B csum_replace2 emu_scheme psched_l2t_ns w → 256 ≤ k < 2 ^ 16 →
  handle_alloc B csum_replace2 emu_scheme 0 0 now [k] 1 [16] 1 (wq w) = None.
Proof.
  intros Hd Hb Hw Hk. pose proof (deployed_ok _ _ _ _ _ Hd Hw) as [Hq _ _].
  pose proof (fo_len _ _ _ (eo_fp _ _ _ _ Hq)) as Hlen.
  assert (dsts (priv (wq w)) !! Z.to_nat k = None) as E by (apply lookup_ge_None; lia).
  unfold handle_alloc. change (Z.to_nat 1) with 1%nat. cbn [alloc_loop]. unfold on_priv, zoom, trigger_tx, get_dst, read_dst, mbind, M_bind, modify.
  simpl. rewrite Hb. simpl. by rewrite E.
Qed.

Lemma allocation_outside_network_witness : handle_alloc endpoint sample_csum sample_scheme 0 0 0 [300] 1 [16] 1 (wq world1) = None.
Proof.
  apply (allocation_outside_network endpoint sample_csum sample_scheme sample_cost world1 0 300 sample_deployed eq_refl world1_reachable). lia.
Defined.

Lemma kfree_skbs_spec (l : list sk_buff) (q : ep_state) : wp (kfree_skbs l) (λ _ q' _, q' = q) q.
Proof. revert q. induction l as [|skb l IH]; intros q; simpl; tsq_steps; [done|]. apply IH. Qed.

Lemma tsq_tc_reset_spec (q : ep_state) : hash_tbl_lock q = false →
  wp tsq_tc_reset (λ _ q' _, hash_tbl_lock q' = false ∧ dst_hash_tbl q' = ∅ ∧ priv q' = priv q) q.
Proof.
  intros El. unfold tsq_tc_reset. tsq_step. apply wp_get.
  do 5 (apply wp_bind; eapply wp_mono; [apply kfree_skbs_spec|]; intros [] ? ? ->; apply wp_bind, wp_modify).
  apply wp_bind, wp_lock; [done|]. apply wp_bind. eapply wp_mono; [apply kfree_skbs_spec|]. intros [] ? ? ->.
  apply wp_bind, wp_modify, wp_bind, wp_unlock; [done|]. by apply wp_modify.
Qed.

(** [tsq_tc_reset] forgets the flows but not the demand: an allocation for
    demand of before finds no flow, and [tsq_handle_now] returns with the lock of the
    hash table held. *)
Theorem tc_reset_then_alloc_deadlocks B `{H : HashOps} csum_replace2 emu_scheme psched_l2t_ns w now k :
  deployed B emu_scheme psched_l2t_ns → EMULATION_ALGO B = false →
  ep_reachable B csum_replace2 emu_scheme psched_l2t_ns w → 0 ≤ k < 256 → unused (priv (wq w)) k ≠ 0 →
  wp (tsq_tc_reset;; handle_alloc B csum_replace2 emu_scheme 0 0 now [k] 1 [16] 1) (λ _ q' _, deadlocked q') (wq w).
Proof.
  intros Hd Hb Hw Hk Hu. pose proof (deployed_ok _ _ _ _ _ Hd Hw) as [[Ht Hf _ _] _ _].
  apply wp_bind. eapply wp_mono; [apply tsq_tc_reset_spec, Ht|]. intros [] q1 l1 (El1 & Ef1 & Ep1).
  unfold handle_alloc. apply wp_bind, wp_on_priv. rewrite Ep1.
  eapply wp_mono; [apply (own_trigger B false now), Hf|]. intros [] p l2 (Hp & _ & Hs & _).
  destruct (dst_at B false p k Hp Hk) as (d & Ed & Hdo & Hl).
  assert (unused p k ≠ 0) as Hup by (by rewrite (unused_usage (priv (wq w))) by apply (send_step_own _ _ Hs)).
  unfold unused in Hup. rewrite (dst_of_lookup _ _ _ Ed) in Hup.
  change (Z.to_nat 1) with 1%nat. cbn [alloc_loop]. apply wp_bind. eapply wp_deref; [done|]. simpl.
  apply wp_bind. eapply wp_deref; [done|]. apply wp_bind. rewrite Hb. apply wp_ret.
  assert (at_dst B k d (set_priv p q1)) as Ha by (constructor; [apply Hp|apply Hp|done]).
  apply wp_bind. eapply (wp_section B k Hk); [exact Ha|by apply (sect_get_dst B k Hk d (λ _ d', d' = set_lock true d))|].
  intros [] d1 p1 -> Hs1 Ha1. apply wp_bind.
  eapply (wp_section B k Hk); [exact Ha1|by apply (sect_read B k _ (λ r d', r = set_lock true d ∧ d' = set_lock true d))|].
  intros r d2 p2 [-> ->] Hs2 Ha2. simpl used_tslots. simpl demand_tslots. rewrite (proj2 (Z.eqb_neq _ _)) by lia. simpl negb. cbv iota.
  apply wp_bind. unfold admit_alloc. apply wp_bind. eapply (wp_section B k Hk); [exact Ha2|by apply use_section|].
  intros [] d3 p3 -> Hs3 Ha3. apply wp_bind. unfold handle_single_alloc. rewrite Hb. apply wp_bind.
  unfold tsq_handle_now. apply wp_bind, wp_lock; [done|]. apply wp_bind. unfold dst_lookup. tsq_step. apply wp_get.
  simpl dst_hash_tbl. rewrite Ef1, lookup_empty. apply wp_ret, wp_ret, wp_ret. simpl andb. cbv iota. unfold when. cbn [Z.eqb Pos.eqb].
  apply wp_bind, wp_ret, wp_on_priv, wp_modify, wp_bind, wp_on_priv, wp_get, wp_ret. by apply locked_deadlocked.
Qed.

Lemma tc_reset_then_alloc_deadlocks_witness :
  wp (tsq_tc_reset;; handle_alloc endpoint sample_csum sample_scheme 0 0 0 [3] 1 [16] 1) (λ _ q' _, deadlocked q') (wq world2).
Proof.
  apply (tc_reset_then_alloc_deadlocks endpoint sample_csum sample_scheme sample_cost world2 0 3 sample_deployed eq_refl world2_reachable); [lia|].
  vm_compute. intros [=].
Defined.
